(* ===== verification/_CoqProject ===== *)
-Q . S2P
Prelude.v
Nvme.v
Controller.v
Init.v
SimDevice.v
Zone.v
Stripe.v
Transfer.v
Rounds.v
Roundtrip.v
Izg.v
Partition.v
Userdata.v
UserdataSpec.v
AppendSpec.v
StreamSpec.v
CapacitySpec.v
IoRequest.v
Zoad.v
ZoadSpec.v
Registry.v
Demo.v
DeviceThms.v
TransferThms.v
StreamThms.v
ZoadThms.v
Bits.v
Coding.v
Crc32c.v
Crc32cSpec.v
CrcThms.v
IoStatus.v
AlignedBuffer.v
FileWriter.v
FileWriterSpec.v
FileWriterOps.v
FileWriterThms.v
EnvZoad.v
EnvZoadSpec.v
EnvZoadThms.v
Comparator.v
DbFormat.v
BlockBuilder.v
BlockIter.v
BlockSpec.v
BlockSeek.v
BlockCursor.v
BlockBuild.v
BlockThms.v
BlockHash.v
BlockSafe.v
TableFormat.v
MetaBlocks.v
MetaThms.v
PropsThms.v
PrefixIndex.v
PrefixSpec.v
IndexIter.v
IndexBuilder.v
IndexSpec.v
IndexThms.v
PrefixThms.v
WriteBatch.v
WriteBatchSpec.v
WriteBatchOps.v
WriteBatchThms.v
SeqFile.v
SeqFileSpec.v
SeqFileThms.v
LogWriter.v
LogReader.v
LogSpec.v
LogReadSpec.v
LogSafe.v
LogThms.v
WalThms.v
WalBatchThms.v
LogTail.v
LogTailSpec.v
LogTailThms.v
