(* ===== verification/Prelude.v ===== *)
(** * Zoned storage for RocksDB: the store, the log and the blocks of tables

    The repository is RocksDB with a storage layer for NVMe zoned namespaces
    (SSDs whose zones are written only at a write pointer).  This library models
    that layer, and the parts of RocksDB that decide whether what was written
    can be read back: the integer encodings, the checksum, the buffered and
    direct access to files, the write-ahead log and the batches of updates that
    are written to it, and the blocks that table files consist of.

    ** The program and the files that model it

    The store, bottom up:
    - [Nvme]: the NVMe structures and constants of env/controller.h.  The kernel
      and the SSD are outside the repository: [ioctl] is an operation of the
      class [NvmeDevice], and what the NVM Express and zoned namespace
      specifications say of the commands in use are the laws of [ZnsDevice].
      [SimDevice] is a device in memory that meets them.
    - [Controller], [Init]: env/controller.c.  The record [ctl] has the cached
      geometry and zone descriptors, the device and the memory of the host;
      reads, writes, zone management, identification, the zone report.
    - [Zone]: env/Zone.cpp, the striped transfer.  A thread is the list of
      commands it issues; the threads of a round run in any interleaving.
      [Stripe], [Transfer], [Rounds] and [Roundtrip] hold its lemmas.
    - [Izg]: env/IZG.cpp, groups of zones that share no internal resource.
    - [Partition]: env/Partition.cpp, logical partitions with their zones, names
      and request queue.
    - [Userdata]: env/Userdata.cpp, append-only streams made of segments;
      lemmas in [UserdataSpec], [AppendSpec], [StreamSpec] and [CapacitySpec].
    - [IoRequest]: env/IO_request.cpp, requests and the worker thread of a
      partition, and the state of the whole store.
    - [Zoad]: env/zoad.cpp, the interface ([z_flush], [z_load], [z_sync],
      [z_del], [z_mklp], [z_rmlp], [z_openlp], [z_closelp]); lemmas in
      [ZoadSpec] and [Registry].  [Demo] is a small store for the witnesses.

    Above the store:
    - [EnvZoad]: util/env_zoad.cc, files that collect appends in a buffer and hand
      full buffers to the store, and the environment that maps names to files.
      The store is the interface [ZoadStore]; [EnvZoadSpec] says what it promises
      ([ZoadStoreSpec]: a flush is recorded under its name, and may be carried out
      later) and what a file in use looks like.

    RocksDB:
    - [Bits]: equalities of words, bit by bit.
    - [Coding]: util/coding_lean.h, util/coding.h, util/coding.cc.
    - [Crc32c]: util/crc32c.cc, the table-driven routine and [Crc32cCombine]; the
      two routines that use CPU instructions are in [CrcThms] (class [Sse42], with
      the laws of the manual in [Sse42Laws]); lemmas in [Crc32cSpec].
    - [LogWriter], [LogReader]: db/log_writer.cc and db/log_reader.cc over the
      interfaces [FileDest] and [FileSource] of the files; what they ask of a
      file is in [FileDestSpec] ([LogSpec]) and [FileSourceSpec]
      ([LogReadSpec]).  [LogSafe] reads files with arbitrary contents.
    - [LogTail]: the reader that follows a growing log, FragmentBufferedReader
      of db/log_reader.cc; lemmas in [LogTailSpec].
    - [IoStatus]: results of file operations.
    - [AlignedBuffer]: util/aligned_buffer.h; the allocator is the class
      [Allocator].
    - [FileWriter]: file/writable_file_writer.cc, with the part of the rate
      limiter and of the checksum generator it uses, over the interface
      [FSWritableFile] of include/rocksdb/file_system.h.  [FileWriterSpec] says
      what a file promises ([FSWritableFileSpec]: any call may fail and may have
      written a part when it does) and what a well-formed writer is;
      [FileWriterOps] has a lemma per operation.
    - [SeqFile]: file/sequence_file_reader.cc, the prefetching wrapper and the
      reader, over [FSSequentialFile]; the contract is in [SeqFileSpec].
    - [WriteBatch]: db/write_batch.cc with write_batch_internal.h and
      include/rocksdb/write_batch.h: a batch of updates in its serialized form,
      its operations and save points, and [Iterate] over any handler.
      [WriteBatchSpec] has the updates, their records and what a handler sees
      ([replay]); [WriteBatchOps] the ledger of a batch, which every operation is
      shown to implement.
    - [WalThms] puts these together: [WritableFileWriter] meets [FileDestSpec]
      and [SequentialFileReader] meets [FileSourceSpec], so the theorems of the
      log hold on files.  [WalBatchThms] adds the batches.

    Table files, which consist of blocks:
    - [Comparator]: util/comparator.cc, the order of user keys.  The interface is
      the class [Comparator], its documented laws are [ComparatorLaws]; the two
      comparators of the repository are shown to keep them.
    - [DbFormat]: db/dbformat.h, db/dbformat.cc, internal keys (a user key, a
      sequence number and a type) and their order.
    - [BlockBuilder]: util/hash.cc, and table/block_based/block_builder.cc with the
      hash table of data_block_hash_index.cc.
    - [BlockIter]: table/block_based/block.cc, [Block] and [DataBlockIter].
      [BlockSpec] says what the bytes of a block are ([layout]); [BlockSeek],
      [BlockCursor] and [BlockBuild] have the lemmas on searching, moving and
      building, [BlockSafe] those on blocks of arbitrary bytes.
    - [TableFormat]: table/format.cc, handles, values of the index, the footer.
    - [MetaBlocks]: table/meta_blocks.cc, the metaindex block and the properties;
      the hash functions of xxhash are parameters.
    - [IndexBuilder]: table/block_based/index_builder.h, the two builders
      [ShortenedIndexBuilder] and [HashIndexBuilder]; [IndexIter]: [IndexBlockIter]
      of block.cc, with lemmas in [IndexSpec].
    - [PrefixIndex]: table/block_based/block_prefix_index.cc, the hash table from
      prefixes to entries of the index, and its construction; the prefix extractor
      is the class [SliceTransform], what the options document of it is
      [PrefixLaws]; lemmas in [PrefixSpec].

    ** How the code is rendered

    Stateful code is a [prog S A]: a function from the state to [Ret] with a
    result and a new state, [Exit] (the code calls [exit]), [UB] (undefined
    behaviour: a null or freed pointer, an index out of range) or [Hang] (the
    fuel of a loop is used up).  Parts of a state are reached with lenses and
    [zoom].  Machine integers are [Z] with [u32], [u64], [i32], [i64] written
    where the code converts or wraps.  Memory is a map from block names to byte
    lists; a freed object is [None] in its heap.  Locks are booleans; taking a
    lock that is held is [Hang], unlocking one that is not held is [UB].

    Loops that are not structural have fuel.  No theorem about correct behaviour
    is vacuous in it: each says that the fuel the model passes, or any above a
    bound in the statement, gives a result ([thread_write_complete],
    [varint64_loop_enough], [any_file_read_safely], ...).

    ** What the theorems show

    - [DeviceThms]: the write pointers cached by the host follow the device,
      blocks written are read back, reset empties a zone, start-up copies the
      descriptors of the zone report, whatever they are; a refused write exits,
      and start-up overruns its array on some sizes.
    - [TransferThms]: the stripes of a transfer hold the whole of it exactly
      once, and come back under every schedule of the threads; zones are handed
      out in order and lanes are independent.
    - [StreamThms]: [Append] then [Read] on a stream, the other streams
      untouched, for writes of whole I/Os per lane; when the write goes on with an
      iterator into a vector that has moved ([dangles]) it is undefined; the search
      for the place of a segment; short appends that are lost.
    - [ZoadThms]: any list of flushes of whole I/Os and a load end to end, with
      the same exception; names that are
      deleted; creating partitions and refusing to; uses of freed and
      uninitialised memory and of a mutex that is not held.
    - [EnvZoadThms]: what is appended to a file of the environment was handed to
      the store in whole buffers or is still in the buffer, from where it is read;
      closing keeps the tail of a file in memory, short reads overflow the memory
      of the caller, deleted files are written to and renaming a file to itself
      removes it.
    - [Coding] (at its end): round trips of all encodings, on hosts of either
      byte order.
    - [CrcThms]: the three implementations agree with the bit-serial reference
      for every length and alignment, combination is concatenation, masking is
      invertible.
    - [FileWriterThms]: the writer stays well formed whatever its file answers,
      and implements a list of bytes that [Close] leaves in the file, in all
      modes; the checksums it hands over are right under conditions on the
      checksums of the callers and on [Pad] ([sound_sums]); a rate-limited write that never returns and a [Pad] that reads
      past the buffer.
    - [SeqFileThms]: reading ahead is invisible to reads and skips, but not to
      [InvalidateCache].
    - [LogTailThms]: a reader that follows a growing log delivers every record
      once its bytes are there; a header that makes it read past its buffer.
    - [WalThms]: a log written, closed and opened again gives its records.
    - [WriteBatchThms]: a batch implements a list of updates with save points, its
      bytes replay that list, [Append] is concatenation, and [Iterate] ends on any
      bytes; a rollback past the WAL termination point that makes [Append] read
      beyond the batch, flags that are lost when a batch is read back, and keys
      too long for their length field.
    - [WalBatchThms]: transactions survive a restart, through batches, log, file
      and back.
    - [LogThms]: the log round trip, logs cut off at any byte, files with any
      contents, and two defects of the reader.
    - [DbFormat], [TableFormat] (at their ends): internal keys are parsed back,
      compared as their parts and separated by shorter ones; footers and values of
      the index are read back.
    - [BlockThms], [BlockHash]: the iterator over a block that was built is a cursor
      over the entries that were added, the size estimate is exact, and the lookup
      through the hash table of a block is the search without it.
    - [MetaThms], [PropsThms]: meta blocks are found under their names and the
      properties of a table are read back; damaged properties are read inside of
      the block; the search of names in any order is the binary search by the order
      of internal keys, which hides the prefixes of a hash index.
    - [IndexThms]: the iterator over the index that was built for the blocks of a
      table is a cursor over them, whose [Seek] is at the one block that can have
      the key.
    - [PrefixThms]: the same for [Seek] through the prefixes that
      [HashIndexBuilder] stores, for every way the hashes collide; it may also say
      that no key with the prefix is left, and an example shows that it does so for
      a prefix that exists.

    ** Assumptions

    Device laws and CPU laws are class arguments, met by [SimDevice] and by the
    instances in [CrcThms]; the files and the allocator are class arguments, met
    by files in memory in [FileWriterThms] and [SeqFileThms], and the store under
    the environment by one in memory, which queues its flushes, in [EnvZoadThms].
    The growth of a [std::vector] is a parameter [vec_realloc] of the store, and so
    is the content of memory that is not initialised.  Comparators and prefix
    extractors are class arguments, met by those of the repository.  The blocks of
    tables are smaller than 4 GB, as are all the keys of a table with prefixes.  Files are smaller
    than 2^62 bytes.  A signed [char], 64-bit pointers and a little-endian
    host are assumed where [Coding] is used by the other parts.

    ** Not modelled

    Of write batches the per-key protection ([prot_info_] is null, the default),
    the timestamps assigned in place and the handler that fills memtables; the
    assertions of debug builds.  Of tables the partitioned index, filters,
    compression, and the readers and builders that join the blocks with caches,
    prefetching and threads; of prefix extractors the one of fixed length.  The rest
    of RocksDB (memtables, compaction, caches, options, tools, the Java binding),
    which does not touch the parts above except through them;
    its other file systems and ports, event listeners, statistics, timers and
    background threads; the variant of the store under util/zoad/, which
    [EnvZoad] sees through its interface; in the modelled files, output
    functions, unused functions and the Power and ARM checksum kernels.  The
    scheduler is modelled as interleavings of whole device commands and of whole
    worker iterations. *)
From stdpp Require Import base numbers list gmap strings.
From Stdlib Require Import ZArith Lia.

Local Open Scope Z_scope.

(** ** Fixed-width integers *)

(** Conversion to a C [unsigned int] (32 bits, wrap-around). *)
Definition u32 (x : Z) : Z := x mod 2 ^ 32.

(** Conversion of a 32-bit pattern to a C [int] (two's complement). *)
Definition i32 (x : Z) : Z :=
  let y := x mod 2 ^ 32 in if y <? 2 ^ 31 then y else y - 2 ^ 32.

(** Conversions to the 16-bit and 64-bit unsigned types. *)
Definition u16 (x : Z) : Z := x mod 2 ^ 16.
Definition u64 (x : Z) : Z := x mod 2 ^ 64.

Create Rewrite HintDb word.

Lemma u32_small (x : Z) : 0 <= x < 2 ^ 32 -> u32 x = x.
Proof. apply Z.mod_small. Qed.
Lemma u64_small (x : Z) : 0 <= x < 2 ^ 64 -> u64 x = x.
Proof. apply Z.mod_small. Qed.
Lemma u16_small (x : Z) : 0 <= x < 2 ^ 16 -> u16 x = x.
Proof. apply Z.mod_small. Qed.
Lemma u32_range (x : Z) : 0 <= u32 x < 2 ^ 32.
Proof. apply Z.mod_pos_bound. lia. Qed.

Lemma i32_small (x : Z) : - 2 ^ 31 <= x < 2 ^ 31 -> i32 x = x.
Proof.
  intros Hx. unfold i32. destruct (decide (0 <= x)).
  - rewrite Z.mod_small by lia. destruct (Z.ltb_spec x (2 ^ 31)); lia.
  - replace (x mod 2 ^ 32) with (x + 2 ^ 32).
    + destruct (Z.ltb_spec (x + 2 ^ 32) (2 ^ 31)); lia.
    + apply (Z.mod_unique x (2 ^ 32) (-1)); lia.
Qed.

(** [i32] only looks at the 32 low bits: an [int] that took part in unsigned
    arithmetic has the value of the exact result whenever that result fits. *)
Lemma i32_u32 (x : Z) : i32 (u32 x) = i32 x.
Proof. unfold i32, u32. by rewrite Z.mod_mod by lia. Qed.

#[export] Hint Rewrite u32_small u64_small u16_small i32_small using lia : word.
#[export] Hint Rewrite i32_u32 : word.

(** [word] removes the conversions of values that are in range. *)
Ltac word := autorewrite with word.

(** Turn the boolean comparisons of the code into propositions. *)
Ltac bool_to_Prop :=
  repeat match goal with
  | H : context [Z.ltb ?a ?b] |- _ => destruct (Z.ltb_spec a b)
  | |- context [Z.ltb ?a ?b] => destruct (Z.ltb_spec a b)
  | H : context [Z.leb ?a ?b] |- _ => destruct (Z.leb_spec a b)
  | |- context [Z.leb ?a ?b] => destruct (Z.leb_spec a b)
  | H : context [Z.eqb ?a ?b] |- _ => destruct (Z.eqb_spec a b)
  | |- context [Z.eqb ?a ?b] => destruct (Z.eqb_spec a b)
  end.

(** ** Effects

    A function of the program that reads or changes state is a state
    transformer with four outcomes: it returns; it calls [exit]; it does
    something the C++ standard leaves undefined (an access out of range, a
    division by zero, a use of a freed object, an unlock of a mutex that is
    not held); or it never returns. *)

Inductive outcome (S A : Type) : Type :=
| Ret (a : A) (s : S)
| Exit (s : S)
| UB
| Hang.
Arguments Ret {S A} a s.
Arguments Exit {S A} s.
Arguments UB {S A}.
Arguments Hang {S A}.

Definition prog (S A : Type) : Type := S -> outcome S A.

#[global] Instance prog_ret {S} : MRet (prog S) := fun A a s => Ret a s.
#[global] Instance prog_bind {S} : MBind (prog S) := fun A B k m s =>
  match m s with
  | Ret a s' => k a s'
  | Exit s' => Exit s'
  | UB => UB
  | Hang => Hang
  end.
Arguments prog_ret {S A} a s /.
Arguments prog_bind {S A B} k m s /.

Definition exit0 {S A} : prog S A := fun s => Exit s.
Definition undefined {S A} : prog S A := fun _ => UB.
Definition hang {S A} : prog S A := fun _ => Hang.
Definition gets {S A} (f : S -> A) : prog S A := fun s => Ret (f s) s.
Definition modify {S} (f : S -> S) : prog S unit := fun s => Ret tt (f s).

(** An access that is undefined when it fails. *)
Definition the {S A} (o : option A) : prog S A :=
  match o with Some a => mret a | None => undefined end.

(** A loop that did not finish within its fuel never returns. *)
Definition fueled {S A} (o : option A) : prog S A :=
  match o with Some a => mret a | None => fun _ => Hang end.

Definition when {S} (b : bool) (m : prog S unit) : prog S unit :=
  if b then m else mret tt.

(** [for (...; i < n; ...) body], the body not depending on the counter. *)
Fixpoint repeatM {S} (n : nat) (m : prog S unit) : prog S unit :=
  match n with
  | O => mret tt
  | Datatypes.S n' => m;; repeatM n' m
  end.

Fixpoint iterM {S A} (f : A -> prog S unit) (l : list A) : prog S unit :=
  match l with
  | [] => mret tt
  | x :: l' => f x;; iterM f l'
  end.

Lemma bind_Ret {S A B} (m : prog S A) (k : A -> prog S B) s a s' :
  m s = Ret a s' -> (x ← m; k x) s = k a s'.
Proof. unfold mbind, prog_bind. by intros ->. Qed.

Lemma bind_gets {S A B} (f : S -> A) (k : A -> prog S B) s : (x ← gets f; k x) s = k (f s) s.
Proof. done. Qed.

Lemma bind_UB {S A B} (m : prog S A) (k : A -> prog S B) s : m s = UB -> (x ← m; k x) s = UB.
Proof. unfold mbind, prog_bind. by intros ->. Qed.

(** The inversion principle of a sequence that returns. *)
Lemma bind_Ret_inv {S A B} (m : prog S A) (k : A -> prog S B) s b s'' :
  (x ← m; k x) s = Ret b s'' -> exists a s', m s = Ret a s' /\ k a s' = Ret b s''.
Proof.
  unfold mbind, prog_bind. destruct (m s) as [a s'| | |]; try discriminate. eauto.
Qed.

Lemma iterM_app {S A} (f : A -> prog S unit) l1 l2 s :
  iterM f (l1 ++ l2) s = (iterM f l1;; iterM f l2) s.
Proof.
  revert s. induction l1 as [|x l1 IH]; intros s; [done|].
  simpl. unfold mbind, prog_bind in *. by destruct (f x s).
Qed.

(** [iterM] preserves an invariant indexed by the elements already treated. *)
Lemma iterM_invariant {S A} (f : A -> prog S unit) (I : list A -> S -> Prop) l s :
  I [] s ->
  (forall pre x post s, l = pre ++ x :: post -> I pre s ->
     exists s', f x s = Ret tt s' /\ I (pre ++ [x]) s') ->
  exists s', iterM f l s = Ret tt s' /\ I l s'.
Proof.
  intros H0 Hstep.
  enough (forall post pre s, l = pre ++ post -> I pre s ->
    exists s', iterM f post s = Ret tt s' /\ I l s') as H by (by apply (H l [])).
  clear s H0. induction post as [|x post IH]; intros pre s -> HI.
  - rewrite app_nil_r in *. exists s. done.
  - destruct (Hstep pre x post s eq_refl HI) as (s' & Hx & HI').
    destruct (IH (pre ++ [x]) s') as (s'' & Hr & Hl); [by rewrite <- app_assoc|done|].
    exists s''. split; [|done]. simpl. by rewrite (bind_Ret _ _ _ _ _ Hx).
Qed.

(** Run a program of a component on the state that contains it. *)
Record lens (S T : Type) := Lens { view : S -> T; set : T -> S -> S }.
Arguments Lens {S T}.
Arguments view {S T}.
Arguments set {S T}.

Definition zoom {S T A} (l : lens S T) (m : prog T A) : prog S A := fun s =>
  match m (view l s) with
  | Ret a t => Ret a (set l t s)
  | Exit t => Exit (set l t s)
  | UB => UB
  | Hang => Hang
  end.

Lemma zoom_Ret {S T A} (l : lens S T) (m : prog T A) s a t :
  m (view l s) = Ret a t -> zoom l m s = Ret a (set l t s).
Proof. unfold zoom. by intros ->. Qed.

(** Step through a sequence whose first command is known to return. *)
Ltac step_with H := rewrite (bind_Ret _ _ _ _ _ H); cbn beta iota.
Ltac prog_simpl :=
  unfold mbind, prog_bind, mret, prog_ret, gets, modify, the, undefined, when,
    fueled, exit0 in *; cbn beta iota zeta in *.

(** ** Host memory

    A [char*] of the program is a block and a byte offset in it; [load] and
    [store] fail (undefined behaviour) outside the block. *)

Record ptr := Ptr { p_blk : nat; p_off : Z }.
#[global] Instance ptr_eq_dec : EqDecision ptr.
Proof. solve_decision. Defined.

Definition ptr_add (p : ptr) (n : Z) : ptr := Ptr (p_blk p) (p_off p + n).

Lemma ptr_add_0 p : ptr_add p 0 = p.
Proof. destruct p. unfold ptr_add. cbn. by rewrite Z.add_0_r. Qed.
Lemma ptr_add_add p a b : ptr_add (ptr_add p a) b = ptr_add p (a + b).
Proof. unfold ptr_add. cbn. by rewrite Z.add_assoc. Qed.

Abbreviation memory := (gmap nat (list Byte.byte)).

Definition in_block {A} (b : list A) (off n : Z) : bool :=
  (0 <=? off) && (0 <=? n) && (off + n <=? Z.of_nat (length b)).

Definition sub {A} (b : list A) (off n : Z) : list A :=
  take (Z.to_nat n) (drop (Z.to_nat off) b).

Definition overwrite {A} (b : list A) (off : Z) (bs : list A) : list A :=
  take (Z.to_nat off) b ++ bs ++ drop (Z.to_nat off + length bs) b.

Definition load (m : memory) (p : ptr) (n : Z) : option (list Byte.byte) :=
  b ← m !! p_blk p; if in_block b (p_off p) n then Some (sub b (p_off p) n) else None.

Definition store (m : memory) (p : ptr) (bs : list Byte.byte) : option memory :=
  b ← m !! p_blk p;
  if in_block b (p_off p) (Z.of_nat (length bs))
  then Some (<[p_blk p := overwrite b (p_off p) bs]> m) else None.

Section Slices.
Context {A : Type}.
Implicit Types (b bs : list A) (off n : Z).

Lemma in_block_spec b off n :
  in_block b off n = true <-> 0 <= off /\ 0 <= n /\ off + n <= Z.of_nat (length b).
Proof. unfold in_block. rewrite !andb_true_iff, !Z.leb_le. lia. Qed.

Lemma length_sub b off n :
  in_block b off n = true -> length (sub b off n) = Z.to_nat n.
Proof. intros (?&?&?)%in_block_spec. unfold sub. rewrite length_take, length_drop. lia. Qed.

Lemma length_overwrite b off bs :
  in_block b off (Z.of_nat (length bs)) = true -> length (overwrite b off bs) = length b.
Proof.
  intros (?&?&?)%in_block_spec. unfold overwrite.
  rewrite !length_app, length_take, length_drop. lia.
Qed.

Lemma in_block_overwrite b off bs off' n' :
  in_block b off (Z.of_nat (length bs)) = true ->
  in_block (overwrite b off bs) off' n' = in_block b off' n'.
Proof. intros H. unfold in_block. by rewrite length_overwrite. Qed.

Lemma sub_overwrite_eq b off bs :
  in_block b off (Z.of_nat (length bs)) = true ->
  sub (overwrite b off bs) off (Z.of_nat (length bs)) = bs.
Proof.
  intros (?&?&?)%in_block_spec. unfold sub, overwrite.
  rewrite drop_app_length' by (rewrite length_take; lia).
  by rewrite Nat2Z.id, take_app_length.
Qed.

Lemma sub_overwrite_ne b off bs off' n' :
  in_block b off (Z.of_nat (length bs)) = true -> in_block b off' n' = true ->
  off' + n' <= off \/ off + Z.of_nat (length bs) <= off' ->
  sub (overwrite b off bs) off' n' = sub b off' n'.
Proof.
  intros (?&?&?)%in_block_spec (?&?&?)%in_block_spec Hdis.
  unfold sub, overwrite. destruct Hdis.
  - rewrite drop_app_le by (rewrite length_take; lia).
    rewrite take_app_le by (rewrite length_drop, length_take; lia).
    by rewrite !take_drop_commute, take_take, Nat.min_l by lia.
  - rewrite app_assoc, drop_app_ge by (rewrite length_app, length_take; lia).
    rewrite drop_drop. f_equal. f_equal. rewrite length_app, length_take. lia.
Qed.

(** A block is determined by its consecutive slices. *)
Lemma sub_app b off n1 n2 :
  0 <= off -> 0 <= n1 -> 0 <= n2 ->
  sub b off (n1 + n2) = sub b off n1 ++ sub b (off + n1) n2.
Proof.
  intros. unfold sub. rewrite !Z2Nat.inj_add by lia.
  rewrite <- drop_drop, <- (take_drop (Z.to_nat n1) (take (_ + _)%nat _)).
  by rewrite take_take, Nat.min_l, <- take_drop_commute by lia.
Qed.

Lemma sub_sub b o n off k :
  0 <= o -> 0 <= off -> 0 <= k -> off + k <= n -> sub (sub b o n) off k = sub b (o + off) k.
Proof.
  intros. unfold sub. rewrite skipn_firstn_comm, take_take, drop_drop.
  f_equal; [lia|f_equal; lia].
Qed.

(** Writing one element and then the following ones. *)
Lemma overwrite_cons b k x xs :
  0 <= k < Z.of_nat (length b) ->
  overwrite (<[Z.to_nat k := x]> b) (k + 1) xs = overwrite b k (x :: xs).
Proof.
  intros Hk. unfold overwrite. rewrite insert_take_drop by lia.
  assert (length (take (Z.to_nat k) b) = Z.to_nat k) as Hl by (rewrite length_take; lia).
  replace (Z.to_nat (k + 1)) with (Z.to_nat k + 1)%nat by lia.
  rewrite take_app_add' by done. rewrite <- Nat.add_assoc, drop_app_add' by done.
  cbn. rewrite <- app_assoc. cbn. rewrite drop_drop, take_0. cbn.
  by replace (Z.to_nat k + S (length xs))%nat with (S (Z.to_nat k + length xs)) by lia.
Qed.
End Slices.

(** The memory [m'] is [m] except in the given pieces of [n] bytes. *)
Definition same_outside (m m' : memory) (ps : list ptr) (n : Z) : Prop :=
  (forall b, length <$> m' !! b = length <$> m !! b) /\
  (forall p k, (forall q, q ∈ ps -> p_blk q = p_blk p ->
      p_off q + n <= p_off p \/ p_off p + k <= p_off q) -> load m' p k = load m p k).

Lemma same_outside_nil m n : same_outside m m [] n.
Proof. by split. Qed.

Lemma load_length m p n bs : load m p n = Some bs -> Z.of_nat (length bs) = n.
Proof.
  unfold load. destruct (m !! p_blk p) as [b|]; [|done]. cbn.
  destruct (in_block b _ _) eqn:Hb; [|done]. intros [= <-]. rewrite length_sub by done.
  apply in_block_spec in Hb. lia.
Qed.

Lemma load_store_eq m p bs m' n :
  Z.of_nat (length bs) = n -> store m p bs = Some m' -> load m' p n = Some bs.
Proof.
  unfold load, store. intros <-. destruct (m !! p_blk p) as [b|]; [|done]. cbn.
  destruct (in_block b _ _) eqn:Hb; [|done]. intros [= <-]. rewrite lookup_insert_eq. cbn.
  by rewrite in_block_overwrite, Hb, sub_overwrite_eq.
Qed.

Lemma load_store_ne m p bs m' q k :
  store m p bs = Some m' ->
  (p_blk p = p_blk q ->
   p_off p + Z.of_nat (length bs) <= p_off q \/ p_off q + k <= p_off p) ->
  load m' q k = load m q k.
Proof.
  unfold load, store. destruct (m !! p_blk p) as [b|] eqn:Hm; [|done]. cbn.
  destruct (in_block b _ _) eqn:Hb; [|done]. intros [= <-] Hdis.
  destruct (decide (p_blk p = p_blk q)) as [He|Hne].
  - rewrite <- He, lookup_insert_eq, Hm. cbn. rewrite in_block_overwrite by done.
    destruct (in_block b (p_off q) k) eqn:Hq; [|done].
    rewrite sub_overwrite_ne; [done..|]. specialize (Hdis He). lia.
  - by rewrite lookup_insert_ne.
Qed.

(** Whether a piece of memory can be stored to depends on the block sizes. *)
Lemma store_is_Some m m0 p bs :
  (forall b, length <$> m !! b = length <$> m0 !! b) ->
  is_Some (load m0 p (Z.of_nat (length bs))) -> is_Some (store m p bs).
Proof.
  unfold load, store. intros Hl [x Hx]. specialize (Hl (p_blk p)).
  destruct (m0 !! p_blk p) as [b0|]; [|done]. destruct (m !! p_blk p) as [b|]; [|done].
  injection Hl as Hl. cbn in *. unfold in_block in *. rewrite Hl.
  by destruct (_ && _); [eexists|].
Qed.

Lemma store_lengths m p bs m' :
  store m p bs = Some m' -> forall b, length <$> m' !! b = length <$> m !! b.
Proof.
  unfold store. destruct (m !! p_blk p) as [b|] eqn:Hm; [|done]. cbn.
  destruct (in_block b _ _) eqn:Hb; [|done]. intros [= <-] b'.
  destruct (decide (b' = p_blk p)) as [->|Hne].
  - rewrite lookup_insert_eq, Hm. cbn. by rewrite length_overwrite.
  - by rewrite lookup_insert_ne.
Qed.

(** A piece of a buffer that can be loaded can be loaded on its own. *)
Lemma load_piece m buf n k j :
  is_Some (load m buf n) -> 0 <= k -> 0 <= j -> k + j <= n -> is_Some (load m (ptr_add buf k) j).
Proof.
  unfold load, ptr_add. cbn [p_blk p_off]. destruct (m !! p_blk buf) as [b|]; [|by intros []].
  cbn. destruct (in_block b (p_off buf) n) eqn:Hb; [|by intros []]. intros _ ? ? ?.
  apply in_block_spec in Hb. assert (in_block b (p_off buf + k) j = true) as ->; [|done].
  apply in_block_spec. lia.
Qed.

Lemma load_sub m p n bs off k :
  load m p n = Some bs -> 0 <= off -> 0 <= k -> off + k <= n ->
  load m (ptr_add p off) k = Some (sub bs off k).
Proof.
  unfold load, ptr_add. cbn [p_blk p_off]. destruct (m !! p_blk p) as [b|]; [|done]. cbn.
  destruct (in_block b (p_off p) n) eqn:Hb; [|done]. intros [= <-] ? ? ?.
  apply in_block_spec in Hb. assert (in_block b (p_off p + off) k = true) as ->.
  { apply in_block_spec. lia. }
  by rewrite sub_sub by lia.
Qed.

(** ** Little-endian integers in byte strings *)

Definition byte_val (b : Byte.byte) : Z := Z.of_N (Byte.to_N b).

Fixpoint le_val (bs : list Byte.byte) : Z :=
  match bs with
  | [] => 0
  | b :: bs' => byte_val b + 256 * le_val bs'
  end.

(** The unsigned integer of [n] bytes at byte offset [off]. *)
Definition le_at (bs : list Byte.byte) (off n : Z) : Z := le_val (sub bs off n).

Lemma byte_val_range b : 0 <= byte_val b < 256.
Proof. unfold byte_val. pose proof (Byte.to_N_bounded b). lia. Qed.

Lemma le_val_range bs : 0 <= le_val bs < 256 ^ Z.of_nat (length bs).
Proof.
  induction bs as [|b bs IH]; [done|]. cbn [le_val length].
  rewrite Nat2Z.inj_succ, Z.pow_succ_r by lia. pose proof (byte_val_range b). lia.
Qed.

(** Encoding: [n] bytes, least significant first. *)
Definition byte_of (x : Z) : Byte.byte := default Byte.x00 (Byte.of_N (Z.to_N (x mod 256))).

Fixpoint le_bytes (n : nat) (x : Z) : list Byte.byte :=
  match n with
  | O => []
  | S n' => byte_of x :: le_bytes n' (x / 256)
  end.

Lemma byte_val_of x : byte_val (byte_of x) = x mod 256.
Proof.
  unfold byte_val, byte_of. pose proof (Z.mod_pos_bound x 256 ltac:(lia)).
  destruct (Byte.of_N (Z.to_N (x mod 256))) as [b|] eqn:E; cbn.
  - apply Byte.to_of_N in E. rewrite E. lia.
  - apply Byte.of_N_None_iff in E. lia.
Qed.

Lemma length_le_bytes n x : length (le_bytes n x) = n.
Proof. revert x. induction n as [|n IH]; intros x; [done|]. cbn. by rewrite IH. Qed.

Lemma le_val_bytes n x : le_val (le_bytes n x) = x mod 256 ^ Z.of_nat n.
Proof.
  revert x. induction n as [|n IH]; intros x; [by rewrite Z.mod_1_r|]. cbn [le_bytes le_val].
  rewrite byte_val_of, IH, Nat2Z.inj_succ, Z.pow_succ_r by lia.
  rewrite (Z.rem_mul_r x 256) by lia. lia.
Qed.

(** A slice that starts and ends at the boundaries of an append. *)
Lemma sub_middle {A} (l1 l2 l3 : list A) off n :
  off = Z.of_nat (length l1) -> n = Z.of_nat (length l2) -> sub (l1 ++ l2 ++ l3) off n = l2.
Proof.
  intros -> ->. unfold sub. rewrite !Nat2Z.id, drop_app_length' by done. by rewrite take_app_length.
Qed.
