(* ===== verification/Nvme.v ===== *)
(** The NVMe Zoned Namespace device the storage layer drives.

    The structures and constants of env/controller.h; the kernel's [ioctl] on
    the device file as an operation of a typeclass (the kernel and the SSD are
    not part of the repository); the behaviour the NVM Express and Zoned
    Namespace command set specifications document for the commands the code
    issues, as the laws of a second class. *)
From S2P Require Import Prelude.
From stdpp Require Import base numbers list gmap.
From Stdlib Require Import ZArith Lia.
Local Open Scope Z_scope.

Definition BLOCK_SIZE : Z := 512.
Definition _192KB : Z := 196608.
Definition IO_BLOCKS : Z := 384.
Definition IO_SIZE : Z := _192KB.
Definition SECTOR_SIZE : Z := 4096.

(** Zone management actions. *)
Definition MAN_CLOSE : Z := 1.
Definition MAN_FINISH : Z := 2.
Definition MAN_OPEN : Z := 3.
Definition MAN_RESET : Z := 4.
Definition MAN_OFFLINE : Z := 5.

(** Zone reports. *)
Definition REPORT_NUM : Z := 1024.
Definition REPORT_ALL : Z := 1.
Definition REPORT_PARTIAL : Z := 0.
Definition REPORT_ALL_STATE : Z := 0.

Record nvme_passthru_cmd := Passthru {
  pc_opcode : Z; pc_flags : Z; pc_rsvd1 : Z; pc_nsid : Z; pc_cdw2 : Z; pc_cdw3 : Z;
  pc_metadata : Z; pc_addr : ptr; pc_metadata_len : Z; pc_data_len : Z;
  pc_cdw10 : Z; pc_cdw11 : Z; pc_cdw12 : Z; pc_cdw13 : Z; pc_cdw14 : Z; pc_cdw15 : Z;
  pc_timeout_ms : Z; pc_result : Z }.

Record nvme_user_io := UserIo {
  io_opcode : Z; io_flags : Z; io_control : Z; io_nblocks : Z; io_rsvd : Z;
  io_metadata : Z; io_addr : ptr; io_slba : Z; io_dsmgmt : Z; io_reftag : Z;
  io_apptag : Z; io_appmask : Z }.

(** The null address ([(__u64)(uintptr_t) 0]). *)
Definition null_addr : ptr := Ptr 0 0.

Inductive ioctl_req :=
| NVME_IOCTL_ADMIN_CMD (c : nvme_passthru_cmd)
| NVME_IOCTL_SUBMIT_IO (io : nvme_user_io)
| NVME_IOCTL_IO_CMD (c : nvme_passthru_cmd).

(** The kernel and the device: a request changes the device and, by DMA, the
    host memory, and has an integer result ([-1] with [errno] set, [0], or a
    positive NVMe status code). *)
Class NvmeDevice := {
  dev : Type;
  ioctl : dev -> memory -> ioctl_req -> Z * dev * memory }.

(** The bytes of [n] consecutive blocks. *)
Definition blocks (data : Z -> list Byte.byte) (lba n : Z) : list Byte.byte :=
  concat (data <$> seqZ lba n).

(** What the specifications promise of a namespace of [nzones] zones of [zsze]
    blocks each. [lba_data] is the content of a logical block, [dev_wp] the
    write pointer of a zone: the block after the last one written. *)
Class ZnsDevice (D : NvmeDevice) (zsze nzones : Z) := {
  lba_data : dev -> Z -> list Byte.byte;
  dev_wp : dev -> Z -> Z;
  lba_data_length : forall d lba, length (lba_data d lba) = Z.to_nat BLOCK_SIZE;
  (** A write (opcode 1) at the write pointer of a zone that has room for it
      succeeds, stores the data and advances that write pointer. *)
  write_law : forall d m io z bs,
    io_opcode io = 1 -> 0 <= z < nzones -> 0 <= io_nblocks io < 2 ^ 16 ->
    io_slba io = dev_wp d z ->
    z * zsze <= io_slba io -> io_slba io + (io_nblocks io + 1) <= (z + 1) * zsze ->
    load m (io_addr io) ((io_nblocks io + 1) * BLOCK_SIZE) = Some bs ->
    exists d', ioctl d m (NVME_IOCTL_SUBMIT_IO io) = (0, d', m) /\
      blocks (lba_data d') (io_slba io) (io_nblocks io + 1) = bs /\
      (forall lba, lba < io_slba io \/ io_slba io + (io_nblocks io + 1) <= lba ->
         lba_data d' lba = lba_data d lba) /\
      dev_wp d' z = io_slba io + (io_nblocks io + 1) /\
      (forall z', z' <> z -> dev_wp d' z' = dev_wp d z');
  (** A read (opcode 2) of blocks of the namespace succeeds and transfers
      their content. *)
  read_law : forall d m io m',
    io_opcode io = 2 -> 0 <= io_slba io -> 0 <= io_nblocks io < 2 ^ 16 ->
    io_slba io + (io_nblocks io + 1) <= nzones * zsze ->
    store m (io_addr io) (blocks (lba_data d) (io_slba io) (io_nblocks io + 1)) = Some m' ->
    exists d', ioctl d m (NVME_IOCTL_SUBMIT_IO io) = (0, d', m') /\
      (forall lba, lba_data d' lba = lba_data d lba) /\
      (forall z, dev_wp d' z = dev_wp d z);
  (** Opening or closing a zone (opcode 79h, action in the low byte of dword
      13) changes neither data nor write pointers, whether or not it succeeds. *)
  manage_law : forall d m c r d' m',
    pc_opcode c = 121 ->
    pc_cdw13 c = MAN_OPEN \/ pc_cdw13 c = MAN_CLOSE ->
    ioctl d m (NVME_IOCTL_IO_CMD c) = (r, d', m') ->
    m' = m /\ (forall lba, lba_data d' lba = lba_data d lba) /\
    (forall z, dev_wp d' z = dev_wp d z);
  (** Resetting a zone returns its write pointer to the start of the zone and
      leaves the other zones alone. *)
  reset_law : forall d m c z r d' m',
    pc_opcode c = 121 -> pc_cdw13 c = MAN_RESET -> 0 <= z < nzones ->
    pc_cdw10 c + pc_cdw11 c * 2 ^ 32 = z * zsze ->
    ioctl d m (NVME_IOCTL_IO_CMD c) = (r, d', m') -> r = 0 ->
    m' = m /\ dev_wp d' z = z * zsze /\
    (forall z', z' <> z -> dev_wp d' z' = dev_wp d z') /\
    (forall lba, lba < z * zsze \/ (z + 1) * zsze <= lba -> lba_data d' lba = lba_data d lba) }.

#[global] Arguments lba_data {D zsze nzones _}.
#[global] Arguments dev_wp {D zsze nzones _}.

Lemma length_blocks data lba n :
  0 <= n -> (forall x, length (data x) = Z.to_nat BLOCK_SIZE) ->
  length (blocks data lba n) = Z.to_nat (n * BLOCK_SIZE).
Proof.
  intros Hn Hd. unfold blocks, seqZ.
  replace (Z.to_nat (n * BLOCK_SIZE)) with (Z.to_nat n * Z.to_nat BLOCK_SIZE)%nat
    by (unfold BLOCK_SIZE; lia).
  generalize 0%nat as k. generalize (Z.to_nat n) as j. intros j.
  induction j as [|j IH]; intros k; [done|].
  cbn -[BLOCK_SIZE Z.to_nat]. rewrite length_app, Hd, IH. lia.
Qed.

(** Blocks that agree pointwise have the same bytes. *)
Lemma blocks_ext data data' lba n :
  (forall x, lba <= x < lba + n -> data x = data' x) ->
  blocks data lba n = blocks data' lba n.
Proof.
  intros H. unfold blocks. f_equal. apply list_fmap_ext.
  intros i x Hx%lookup_seqZ. apply H. lia.
Qed.
