(* ===== verification/Controller.v ===== *)
(** env/controller.c: the host side of the zoned namespace.

    The host keeps a cache of the namespace's geometry ([zns_info]) and of the
    zone descriptors ([zone_desc_list]); in particular it tracks every zone's
    write pointer itself. State: the record [ctl], which also holds the device
    and the host memory the DMA transfers go through. *)
From S2P Require Import Prelude Nvme.
From stdpp Require Import base numbers list gmap strings.
From Stdlib Require Import ZArith Lia.
Local Open Scope Z_scope.

Record zone_format := ZoneFormat { zsze : Z; lbafs : Z; zdes : Z }.

Record zns_info := ZnsInfo {
  fd : Z; ns_size : Z; ns_cap : Z; ns_use : Z; zfi : Z; ns_op_io_bound : Z;
  ns_pref_wr_gran : Z; ns_pref_wr_align : Z; ns_pref_dealloc_gran : Z;
  ns_pref_dealloc_align : Z; ns_opot_wr_size : Z; max_active_res : Z;
  max_open_res : Z; opened_zone_num : Z; max_append_size : Z;
  zonef : zone_format; max_zone_cnt : Z }.

Record zone_descriptor := ZoneDescriptor {
  zd_type : Z; zd_state : Z; zfc : bool; fzr : bool; rzr : bool; zdev : bool;
  capacity : Z; start_lba : Z; wp : Z }.

Definition set_opened (n : Z) (i : zns_info) : zns_info :=
  ZnsInfo (fd i) (ns_size i) (ns_cap i) (ns_use i) (zfi i) (ns_op_io_bound i)
    (ns_pref_wr_gran i) (ns_pref_wr_align i) (ns_pref_dealloc_gran i)
    (ns_pref_dealloc_align i) (ns_opot_wr_size i) (max_active_res i)
    (max_open_res i) n (max_append_size i) (zonef i) (max_zone_cnt i).

Definition set_max_zone_cnt (n : Z) (i : zns_info) : zns_info :=
  ZnsInfo (fd i) (ns_size i) (ns_cap i) (ns_use i) (zfi i) (ns_op_io_bound i)
    (ns_pref_wr_gran i) (ns_pref_wr_align i) (ns_pref_dealloc_gran i)
    (ns_pref_dealloc_align i) (ns_opot_wr_size i) (max_active_res i)
    (max_open_res i) (opened_zone_num i) (max_append_size i) (zonef i) n.

Definition set_wp (x : Z) (z : zone_descriptor) : zone_descriptor :=
  ZoneDescriptor (zd_type z) (zd_state z) (zfc z) (fzr z) (rzr z) (zdev z)
    (capacity z) (start_lba z) x.

Section Controller.
Context `{D : NvmeDevice}.

Record ctl := Ctl {
  device : dev;
  host_mem : memory;
  info : zns_info;
  zone_desc_list : list zone_descriptor }.

Definition set_device (d : dev) (m : memory) (c : ctl) : ctl :=
  Ctl d m (info c) (zone_desc_list c).
Definition set_info (i : zns_info) (c : ctl) : ctl :=
  Ctl (device c) (host_mem c) i (zone_desc_list c).
Definition set_descs (l : list zone_descriptor) (c : ctl) : ctl :=
  Ctl (device c) (host_mem c) (info c) l.

(** [zone_desc_list[zone_number]]: undefined outside the allocated array. *)
Definition desc_at (zone_number : Z) : prog ctl zone_descriptor := fun c =>
  if zone_number <? 0 then UB else
  match zone_desc_list c !! Z.to_nat zone_number with
  | Some z => Ret z c
  | None => UB
  end.

Definition put_wp (zone_number x : Z) : prog ctl unit :=
  modify (fun c => set_descs (alter (set_wp x) (Z.to_nat zone_number) (zone_desc_list c)) c).

Definition call_ioctl (r : ioctl_req) : prog ctl Z := fun c =>
  let '(res, d, m) := ioctl (device c) (host_mem c) r in Ret res (set_device d m c).

(** ** Queries of the cached geometry *)

Definition zns_get_total_zone : prog ctl Z := gets (fun c => i32 (max_zone_cnt (info c))).
Definition zns_get_zone_size : prog ctl Z := gets (fun c => u32 (zsze (zonef (info c)))).
Definition zns_get_start_lba (zone_number : Z) : prog ctl Z :=
  z ← desc_at zone_number; mret (u32 (start_lba z)).
Definition zns_get_wp (zone_number : Z) : prog ctl Z :=
  z ← desc_at zone_number; mret (u32 (wp z)).
Definition zns_full_zone (zone_number : Z) : prog ctl bool :=
  z ← desc_at zone_number;
  i ← gets info;
  mret (u64 (start_lba z + zsze (zonef i)) <=? wp z).

(** ** Zone management *)

Definition zns_management_send (zone_number value : Z) : prog ctl Z :=
  i ← gets info;
  let all := zone_number <? 0 in
  let cdw13 := Z.lor (Z.lor 0 value) (if all then Z.shiftl 1 8 else 0) in
  let slba := if all then 0 else u64 (zone_number * zsze (zonef i)) in
  if negb all && (value =? MAN_OPEN) && (max_open_res i <=? u32 (opened_zone_num i + 1))
  then mret (-1)
  else
    let slba1 := Z.land slba 4294967295 in
    let slba2 := u32 (Z.shiftr slba 32) in
    result ← call_ioctl (NVME_IOCTL_IO_CMD
      (Passthru 121 0 0 1 0 0 0 null_addr 0 0 slba1 slba2 0 cdw13 0 0 0 0));
    if result =? -1 then mret (-1)
    else
      (if value =? MAN_OPEN then
         modify (fun c => set_info (set_opened (u32 (opened_zone_num (info c) + 1)) (info c)) c)
       else if value =? MAN_CLOSE then
         modify (fun c => set_info (set_opened (u32 (opened_zone_num (info c) - 1)) (info c)) c)
       else if value =? MAN_RESET then
         z ← desc_at zone_number; put_wp zone_number (start_lba z)
       else mret tt);;
      mret 0.

Definition zns_set_zone (zone_number value : Z) : prog ctl unit :=
  zns_management_send zone_number value;; mret tt.

(** ** Data transfer *)

(** The number of blocks minus one of a transfer of [data_size] bytes. *)
Definition nblocks_of (data_size : Z) : Z :=
  if data_size mod BLOCK_SIZE =? 0 then data_size / BLOCK_SIZE - 1 else data_size / BLOCK_SIZE.

Definition zns_write_request (write_data : ptr) (nblocks data_size slba : Z) : prog ctl Z :=
  result ← call_ioctl (NVME_IOCTL_SUBMIT_IO
    (UserIo 1 0 1024 nblocks 0 0 write_data slba 0 0 0 0));
  if negb (result =? 0) then exit0 else mret 0.

Definition zns_write (write_data : ptr) (data_size zone_number : Z) : prog ctl Z :=
  let nblocks := u16 (nblocks_of data_size) in
  z ← desc_at zone_number;
  result ← zns_write_request write_data nblocks data_size (wp z);
  z' ← desc_at zone_number;
  put_wp zone_number (u64 (wp z' + (nblocks + 1)));;
  mret result.

Definition zns_read_request (read_data : ptr) (nblocks slba : Z) : prog ctl Z :=
  result ← call_ioctl (NVME_IOCTL_SUBMIT_IO
    (UserIo 2 0 0 (u16 nblocks) 0 0 read_data slba 0 0 0 0));
  if result =? -1 then mret (-1) else mret 0.

Definition zns_read (read_data : ptr) (data_size zone_number read_lba : Z) : prog ctl Z :=
  zns_read_request read_data (u32 (nblocks_of data_size)) read_lba.
End Controller.

(** ** Correctness against the device's laws *)

Section ControllerSpec.
Context `{D : NvmeDevice} {zs nz : Z} `{Zd : !ZnsDevice D zs nz}.
Implicit Types (c : ctl) (z : Z).

(** The write pointer the host caches for a zone. *)
Definition host_wp (c : ctl) (z : Z) : Z :=
  default 0 (wp <$> zone_desc_list c !! Z.to_nat z).

(** The cached descriptor of zone [z] agrees with the device. *)
Definition zone_ok (c : ctl) (z : Z) : Prop :=
  exists zd, zone_desc_list c !! Z.to_nat z = Some zd /\
    start_lba zd = z * zs /\ wp zd = dev_wp (device c) z /\
    z * zs <= wp zd <= (z + 1) * zs.

(** The host cache is coherent with the device, and every block address of the
    namespace fits the 32-bit [unsigned int] the code keeps them in. *)
Record ctl_ok (c : ctl) : Prop := {
  ok_zsze : zsze (zonef (info c)) = zs;
  ok_pos : 0 < zs;
  ok_fits : nz * zs < 2 ^ 32;
  ok_zones : forall z, 0 <= z < nz -> zone_ok c z }.

(** Two states that differ at most in the bookkeeping of open zones. *)
Record same_store (c c' : ctl) : Prop := {
  same_mem : host_mem c' = host_mem c;
  same_descs : zone_desc_list c' = zone_desc_list c;
  same_zonef : zonef (info c') = zonef (info c);
  same_data : forall lba, lba_data (device c') lba = lba_data (device c) lba;
  same_wp : forall z, dev_wp (device c') z = dev_wp (device c) z }.

#[export] Instance same_store_equiv : Equivalence same_store.
Proof.
  split.
  - intros c. by split.
  - intros c c' []. split; intros; symmetry; auto.
  - intros c1 c2 c3 [] []. split; intros; congruence.
Qed.

#[export] Instance ctl_ok_proper : Proper (same_store ==> iff) ctl_ok.
Proof.
  assert (forall c c', same_store c c' -> ctl_ok c -> ctl_ok c') as H.
  { intros c c' [? Hl Hz ? Hw] [? ? ? Hok]. split; [congruence|done..|].
    intros z Hz'. destruct (Hok z Hz') as (zd & ? & ? & ? & ?).
    exists zd. rewrite Hl, Hw. done. }
  intros c c' Hs. split; apply H; [done|by symmetry].
Qed.

#[export] Instance host_wp_proper : Proper (same_store ==> eq ==> eq) host_wp.
Proof. intros c c' [_ Hl _ _ _] z _ <-. unfold host_wp. by rewrite Hl. Qed.

Lemma zone_ok_wp c z : zone_ok c z -> host_wp c z = dev_wp (device c) z.
Proof. intros (zd & Hl & _ & Hw & _). unfold host_wp. by rewrite Hl. Qed.

Lemma host_wp_range c z :
  ctl_ok c -> 0 <= z < nz -> z * zs <= host_wp c z <= (z + 1) * zs.
Proof.
  intros Hok Hz. destruct (ok_zones c Hok z Hz) as (zd & Hl & _ & _ & ?).
  unfold host_wp. by rewrite Hl.
Qed.

Lemma lba_fits c z x :
  ctl_ok c -> 0 <= z < nz -> x <= (z + 1) * zs -> x < 2 ^ 32.
Proof. intros [_ ? ? _] ? ?. nia. Qed.

Lemma desc_at_ok c z :
  ctl_ok c -> 0 <= z < nz ->
  exists zd, desc_at z c = Ret zd c /\ zone_desc_list c !! Z.to_nat z = Some zd /\
    start_lba zd = z * zs /\ wp zd = host_wp c z.
Proof.
  intros Hok Hz. destruct (ok_zones c Hok z Hz) as (zd & Hl & Hs & _ & _).
  exists zd. unfold desc_at, host_wp. rewrite Hl.
  destruct (Z.ltb_spec z 0); [lia|]. done.
Qed.

Lemma zns_get_wp_ok c z :
  ctl_ok c -> 0 <= z < nz -> zns_get_wp z c = Ret (host_wp c z) c.
Proof.
  intros Hok Hz. destruct (desc_at_ok c z Hok Hz) as (zd & Hd & _ & _ & Hw).
  unfold zns_get_wp. step_with Hd. rewrite Hw, u32_small; [done|].
  pose proof (host_wp_range c z Hok Hz). pose proof (lba_fits c z (host_wp c z) Hok Hz).
  pose proof (ok_pos c Hok). nia.
Qed.

(** Free blocks of a zone, as [Zone::get_free_size] computes them. *)
Definition free_blocks (c : ctl) (z : Z) : Z := (z + 1) * zs - host_wp c z.

Lemma zns_full_zone_ok c z :
  ctl_ok c -> 0 <= z < nz -> zns_full_zone z c = Ret (free_blocks c z <=? 0) c.
Proof.
  intros Hok Hz. destruct (desc_at_ok c z Hok Hz) as (zd & Hd & _ & Hs & Hw).
  unfold zns_full_zone. step_with Hd. prog_simpl.
  rewrite (ok_zsze c Hok), Hs, Hw, u64_small.
  - unfold free_blocks. f_equal.
    destruct (Z.leb_spec (z * zs + zs) (host_wp c z)),
      (Z.leb_spec ((z + 1) * zs - host_wp c z) 0); lia.
  - pose proof (ok_pos c Hok). pose proof (ok_fits c Hok). nia.
Qed.

(** Opening or closing a zone never fails from the caller's point of view and
    only touches the count of open zones. *)
Lemma zns_set_zone_ok c z v :
  ctl_ok c -> 0 <= z < nz -> v = MAN_OPEN \/ v = MAN_CLOSE ->
  exists c', zns_set_zone z v c = Ret tt c' /\ same_store c c'.
Proof.
  intros Hok Hz Hv. unfold zns_set_zone, zns_management_send, call_ioctl. prog_simpl.
  assert ((z <? 0) = false) as -> by lia. cbn [negb andb].
  destruct ((v =? MAN_OPEN) && _) eqn:E.
  { exists c. split; [done|]. reflexivity. }
  destruct (ioctl _ _ _) as [[r d] m] eqn:Hio. cbn beta iota zeta.
  apply manage_law in Hio as (-> & Hl & Hw); [|done|destruct Hv as [-> | ->]; auto].
  destruct (r =? -1).
  { exists (set_device d (host_mem c) c). split; [done|]. by split. }
  destruct Hv as [-> | ->]; cbn; eexists; (split; [done|]); by split.
Qed.

Lemma nblocks_of_ok n : 0 < n -> nblocks_of (n * BLOCK_SIZE) = n - 1.
Proof.
  intros. unfold nblocks_of. rewrite Z.mod_mul by done. cbn. by rewrite Z.div_mul.
Qed.

Lemma lookup_put_wp (l : list zone_descriptor) z z' x zd :
  0 <= z -> 0 <= z' -> l !! Z.to_nat z' = Some zd ->
  alter (set_wp x) (Z.to_nat z) l !! Z.to_nat z'
  = Some (if decide (z' = z) then set_wp x zd else zd).
Proof.
  intros Hz Hz' Hl. destruct (decide (z' = z)) as [->|Hne].
  - by rewrite list_lookup_alter_eq, Hl.
  - rewrite list_lookup_alter_ne; [done|]. lia.
Qed.

(** What a write of [n] blocks to a zone achieves. *)
Record wrote (c : ctl) (z n : Z) (bs : list Byte.byte) (c' : ctl) : Prop := {
  wrote_ok : ctl_ok c';
  wrote_mem : host_mem c' = host_mem c;
  wrote_wp : host_wp c' z = host_wp c z + n;
  wrote_other : forall z', 0 <= z' < nz -> z' <> z -> host_wp c' z' = host_wp c z';
  wrote_data : blocks (lba_data (device c')) (host_wp c z) n = bs;
  wrote_frame : forall lba, lba < host_wp c z \/ host_wp c z + n <= lba ->
    lba_data (device c') lba = lba_data (device c) lba }.

Lemma zns_write_ok c p n z bs :
  ctl_ok c -> 0 <= z < nz -> 0 < n <= 2 ^ 16 -> n <= free_blocks c z ->
  load (host_mem c) p (n * BLOCK_SIZE) = Some bs ->
  exists c', zns_write p (n * BLOCK_SIZE) z c = Ret 0 c' /\ wrote c z n bs c'.
Proof.
  intros Hok Hz Hn Hfree Hload. unfold zns_write, zns_write_request, call_ioctl, free_blocks in *.
  rewrite nblocks_of_ok by lia. rewrite u16_small by lia.
  destruct (desc_at_ok c z Hok Hz) as (zd & Hd & Hl & Hs & Hw). step_with Hd.
  pose proof (host_wp_range c z Hok Hz) as Hrange.
  destruct (write_law (device c) (host_mem c)
    (UserIo 1 0 1024 (n - 1) 0 0 p (wp zd) 0 0 0 0) z bs)
    as (d' & Hio & Hdata & Hframe & Hwp & Hother); cbn -[BLOCK_SIZE]; try lia.
  { rewrite Hw. apply zone_ok_wp, ok_zones; done. }
  { by replace (n - 1 + 1) with n by lia. }
  cbn -[BLOCK_SIZE] in *. replace (n - 1 + 1) with n in * by lia.
  prog_simpl. rewrite Hio. cbn -[BLOCK_SIZE].
  unfold desc_at. cbn [zone_desc_list set_device]. rewrite Hl.
  assert ((z <? 0) = false) as -> by lia. cbn beta iota.
  assert (u64 (wp zd + n) = host_wp c z + n) as Hnew.
  { rewrite u64_small; [lia|].
    pose proof (lba_fits c z (host_wp c z + n) Hok Hz). pose proof (ok_pos c Hok). nia. }
  eexists. split; [done|].
  assert (forall z' zd', 0 <= z' -> zone_desc_list c !! Z.to_nat z' = Some zd' ->
    alter (set_wp (u64 (wp zd + n))) (Z.to_nat z) (zone_desc_list c) !! Z.to_nat z'
    = Some (if decide (z' = z) then set_wp (host_wp c z + n) zd' else zd')) as Hlook.
  { intros. rewrite Hnew. apply lookup_put_wp; lia || done. }
  split; unfold host_wp; cbn [device host_mem info zone_desc_list set_descs set_device].
  - split; cbn; [apply (ok_zsze c Hok)|apply (ok_pos c Hok)|apply (ok_fits c Hok)|].
    intros z' Hz'. destruct (ok_zones c Hok z' Hz') as (zd' & Hl' & Hs' & Hw' & Hr').
    eexists. split; [apply Hlook; lia || done|].
    destruct (decide (z' = z)) as [->|]; cbn.
    + rewrite Hwp, Hw. split; [done|]. lia.
    + rewrite Hother by done. done.
  - done.
  - rewrite (Hlook z zd) by (lia || done). rewrite decide_True by done. cbn.
    unfold host_wp. by rewrite Hl.
  - intros z' Hz' Hne. destruct (ok_zones c Hok z' Hz') as (zd' & Hl' & _).
    rewrite (Hlook z' zd') by (lia || done). by rewrite decide_False, Hl'.
  - rewrite Hl. cbn. done.
  - rewrite Hl. cbn. done.
Qed.

(** A read stores the blocks at the destination and changes nothing else. *)
Lemma zns_read_ok c p n z lba m' :
  ctl_ok c -> 0 < n <= 2 ^ 16 -> 0 <= lba -> lba + n <= nz * zs ->
  store (host_mem c) p (blocks (lba_data (device c)) lba n) = Some m' ->
  exists c', zns_read p (n * BLOCK_SIZE) z lba c = Ret 0 c' /\
    same_store (set_device (device c) m' c) c'.
Proof.
  intros Hok Hn Hlba Hend Hst. unfold zns_read, zns_read_request, call_ioctl. prog_simpl.
  rewrite nblocks_of_ok, (u32_small (n - 1)), u16_small by lia.
  destruct (read_law (device c) (host_mem c)
    (UserIo 2 0 0 (n - 1) 0 0 p lba 0 0 0 0) m') as (d' & Hio & Hl & Hw);
    cbn; try lia.
  { by replace (n - 1 + 1) with n by lia. }
  rewrite Hio. cbn. eexists. split; [done|]. by split.
Qed.
End ControllerSpec.
