(* ===== verification/Init.v ===== *)
(** env/controller.c: identifying the namespace and reading the zone report.

    [zns_get_info] decodes the Identify Namespace data (env/controller.h,
    [struct nvme_id_ns]) into [zns_info]; [zns_get_zone_desc] fills the array
    of zone descriptors from the Zone Management Receive report. The contents
    of fresh allocations, and of the 32-bit shift by 32 in [zns_management_recv],
    are parameters. *)
From S2P Require Import Prelude Nvme Controller.
From stdpp Require Import base numbers list gmap strings.
From Stdlib Require Import ZArith Lia.
Local Open Scope Z_scope.

(** ** Decoding the device's structures *)

(** [struct zone_format] at byte [off]. *)
Definition decode_zone_format (bs : list Byte.byte) (off : Z) : zone_format :=
  ZoneFormat (le_at bs off 8) (le_at bs (off + 8) 2) (le_at bs (off + 10) 1).

(** [sizeof(struct zone_descriptor)]. *)
Definition DESC_SIZE : Z := 64.

(** [struct zone_descriptor]: bit fields from the least significant bit. *)
Definition decode_descriptor (bs : list Byte.byte) : zone_descriptor :=
  let b0 := le_at bs 0 1 in
  let b1 := le_at bs 1 1 in
  let b2 := le_at bs 2 1 in
  ZoneDescriptor (Z.land b0 15) (Z.shiftr b1 4) (Z.testbit b2 0) (Z.testbit b2 1)
    (Z.testbit b2 2) (Z.testbit b2 7) (le_at bs 8 8) (le_at bs 16 8) (le_at bs 24 8).

Section Init.
Context `{D : NvmeDevice}.
Context (junk : nat -> list Byte.byte) (junk_desc : zone_descriptor).
(** [x >> 32] on a 32-bit [x]: the language leaves the value open. *)
Context (shr32 : Z -> Z).

(** [malloc]: a fresh block with unspecified contents. *)
Definition malloc (n : Z) : prog ctl ptr := fun c =>
  let b := fresh (dom (host_mem c)) in
  Ret (Ptr b 0) (set_device (device c) (<[b := resize (Z.to_nat n) Byte.x00 (junk (Z.to_nat n))]> (host_mem c)) c).

Definition free (p : ptr) : prog ctl unit :=
  modify (fun c => set_device (device c) (delete (p_blk p) (host_mem c)) c).

(** Read [n] bytes at a pointer. *)
Definition read_mem (p : ptr) (n : Z) : prog ctl (list Byte.byte) := fun c =>
  match load (host_mem c) p n with Some bs => Ret bs c | None => UB end.

Definition identify_ns (data : ptr) : prog ctl ptr :=
  result ← call_ioctl (NVME_IOCTL_ADMIN_CMD
    (Passthru 6 0 0 1 0 0 0 data 0 4096 0 0 0 0 0 0 0 0));
  if result =? -1 then exit0 else mret data.

Definition identify_ctrl (data : ptr) : prog ctl ptr :=
  result ← call_ioctl (NVME_IOCTL_ADMIN_CMD
    (Passthru 6 0 0 0 0 0 0 data 0 4096 1 0 0 0 0 0 0 0));
  if result =? -1 then exit0 else mret data.

(** [zfd] is the file descriptor [open] returned. *)
Definition zns_get_info (zfd : Z) : prog ctl Z :=
  id_ns ← malloc SECTOR_SIZE;
  id_ctrl ← malloc SECTOR_SIZE;
  identify_ns id_ns;;
  identify_ctrl id_ctrl;;
  ns ← read_mem id_ns SECTOR_SIZE;
  ct ← read_mem id_ctrl SECTOR_SIZE;
  let zfi := le_at ns 256 1 in
  zf ← read_mem (ptr_add id_ns (3776 + 16 * zfi)) 16;
  let zonef := decode_zone_format zf 0 in
  let ns_size := le_at ns 0 8 in
  if zsze zonef =? 0 then undefined else
  let max_zone_cnt := u32 (ns_size / zsze zonef) in
  modify (set_info (ZnsInfo zfd ns_size (le_at ns 8 8) (le_at ns 16 8) zfi (le_at ns 46 2)
    (le_at ns 64 2) (le_at ns 66 2) (le_at ns 68 2) (le_at ns 70 2) (le_at ns 72 2)
    (le_at ns 272 4) (le_at ns 276 4) 0 (le_at ct 0 1) zonef max_zone_cnt));;
  modify (set_descs (replicate (Z.to_nat max_zone_cnt) junk_desc));;
  mret 0.

Definition zns_format : prog ctl Z :=
  result ← call_ioctl (NVME_IOCTL_ADMIN_CMD
    (Passthru 128 0 0 1 0 0 0 null_addr 0 0 0 0 0 0 0 0 0 0));
  if result =? -1 then mret (-1) else mret 0.

Definition zns_set_zone_change_notification : prog ctl Z :=
  result ← call_ioctl (NVME_IOCTL_ADMIN_CMD
    (Passthru 9 0 0 1 0 0 0 null_addr 0 4096 11 (Z.lor 0 (Z.shiftl 1 27)) 0 0 0 0 0 0));
  if result =? -1 then mret (-1) else mret 0.

(** The request of [zns_management_recv]. *)
Definition report_cmd (buffer : ptr) (report_zone_cnt partial option slba : Z) : nvme_passthru_cmd :=
  let bytes := u32 (u32 (report_zone_cnt + 1) * DESC_SIZE) in
  Passthru 122 0 0 1 0 0 0 buffer 0 bytes (Z.land slba 4294967295) (shr32 slba) bytes
    (Z.lor (u32 (Z.shiftl partial 16)) (u32 (Z.shiftl option 8))) 0 0 0 0.

Definition zns_management_recv (report_zone_cnt partial option slba : Z) : prog ctl ptr :=
  buffer ← malloc (u32 (report_zone_cnt + 1) * DESC_SIZE);
  result ← call_ioctl (NVME_IOCTL_IO_CMD (report_cmd buffer report_zone_cnt partial option slba));
  if result =? -1 then exit0 else mret buffer.

(** [memcpy(&zone_desc_list[index + i], &desc_buf[i + 1], ...)]. *)
Definition copy_desc (buf : ptr) (index i : Z) : prog ctl unit :=
  bs ← read_mem (ptr_add buf (DESC_SIZE * (i + 1))) DESC_SIZE;
  l ← gets zone_desc_list;
  let k := Z.to_nat (u32 (index + i)) in
  match l !! k with
  | Some _ => modify (set_descs (<[k := decode_descriptor bs]> l))
  | None => undefined
  end.

(** [for (i = 0; i < report_zone_num; i++)] from [i] on. *)
Fixpoint copy_descs (n : nat) (buf : ptr) (index i : Z) : prog ctl unit :=
  match n with
  | O => mret tt
  | S n' => copy_desc buf index i;; copy_descs n' buf index (i + 1)
  end.

(** One report, copied to the descriptors from [index] on. *)
Definition one_report (cnt partial option slba index : Z) : prog ctl Z :=
  buf ← zns_management_recv cnt partial option slba;
  head ← read_mem buf 8;
  let report_zone_num := le_at head 0 8 in
  copy_descs (Z.to_nat report_zone_num) buf index 0;;
  free buf;;
  mret report_zone_num.

(** The two loops of [zns_get_zone_desc]; each returns [real_max_zone_cnt]. *)
Fixpoint init_loop (fuel : nat) (index real : Z) : prog ctl Z :=
  match fuel with
  | O => hang
  | S fuel' =>
    i ← gets info;
    if index <? max_zone_cnt i then
      n ← one_report REPORT_NUM REPORT_ALL REPORT_ALL_STATE 0 index;
      init_loop fuel' (u32 (index + n)) (u32 (real + n))
    else mret real
  end.

Fixpoint report_loop (fuel : nat) (partial option slba from_zone cnt index left : Z)
  : prog ctl unit :=
  match fuel with
  | O => hang
  | S fuel' =>
    if index <? u32 (from_zone + cnt) then
      n ← one_report (if REPORT_NUM <? left then REPORT_NUM else left) partial option slba index;
      report_loop fuel' partial option slba from_zone cnt (u32 (index + n)) (u32 (left - n))
    else mret tt
  end.

Definition zns_get_zone_desc (fuel : nat) (partial option from_zone report_zone_cnt : Z)
    (init : bool) : prog ctl unit :=
  i ← gets info;
  let slba := u32 (from_zone * zsze (zonef i)) in
  if init then
    real ← init_loop fuel 0 0;
    modify (fun c => set_info (set_max_zone_cnt real (info c)) c)
  else if partial =? REPORT_ALL then
    report_loop fuel partial option slba from_zone report_zone_cnt from_zone report_zone_cnt
  else mret tt.
End Init.

(** ** Correctness of the descriptor array *)

Section InitSpec.
Context `{D : NvmeDevice}.
Context (junk : nat -> list Byte.byte) (shr32 : Z -> Z).

(** The descriptors [i .. i+n-1] of a report. *)
Definition report_descs (bs : list Byte.byte) (i : Z) (n : nat) : list zone_descriptor :=
  (fun k => decode_descriptor (sub bs (DESC_SIZE * (i + Z.of_nat k + 1)) DESC_SIZE)) <$> seq 0 n.

Lemma report_descs_S bs i n :
  report_descs bs i (S n)
  = decode_descriptor (sub bs (DESC_SIZE * (i + 1)) DESC_SIZE) :: report_descs bs (i + 1) n.
Proof.
  unfold report_descs. cbn [seq fmap list_fmap]. rewrite Z.add_0_r. f_equal.
  rewrite <- fmap_S_seq, <- list_fmap_compose. apply list_fmap_ext. intros j k _. cbn.
  do 3 f_equal. lia.
Qed.

Lemma copy_descs_ok buf bs len n : forall c index i,
  load (host_mem c) buf len = Some bs -> 0 <= i -> DESC_SIZE * (i + Z.of_nat n + 1) <= len ->
  0 <= index -> index + i + Z.of_nat n <= Z.of_nat (length (zone_desc_list c)) ->
  Z.of_nat (length (zone_desc_list c)) < 2 ^ 32 ->
  copy_descs n buf index i c
  = Ret tt (set_descs (overwrite (zone_desc_list c) (index + i) (report_descs bs i n)) c).
Proof.
  induction n as [|n IH]; intros c index i Hb Hi Hlen Hx Hfit H32.
  { unfold report_descs, overwrite. cbn. rewrite Nat.add_0_r, take_drop. by destruct c. }
  cbn [copy_descs]. unfold copy_desc at 1, read_mem. unfold mbind at 1 2, prog_bind at 1 2.
  unfold DESC_SIZE in Hlen. rewrite (load_sub _ _ _ bs) by (done || unfold DESC_SIZE; lia).
  unfold gets, mbind at 1, prog_bind at 1. rewrite u32_small by lia.
  destruct (zone_desc_list c !! Z.to_nat (index + i)) eqn:Hk; cycle 1.
  { apply lookup_ge_None in Hk. lia. }
  unfold modify. rewrite IH; cbn [host_mem zone_desc_list set_descs]; rewrite ?length_insert;
    try (done || unfold DESC_SIZE; lia).
  rewrite report_descs_S, <- overwrite_cons by lia.
  by replace (index + (i + 1)) with (index + i + 1) by lia.
Qed.

(** A report that does not fit behind [index] is written past the array. *)
Lemma copy_descs_overflow buf bs len n : forall c index i,
  load (host_mem c) buf len = Some bs -> 0 <= i -> DESC_SIZE * (i + Z.of_nat n + 1) <= len ->
  0 <= index -> index + i + Z.of_nat n < 2 ^ 32 ->
  index + i <= Z.of_nat (length (zone_desc_list c)) < index + i + Z.of_nat n ->
  copy_descs n buf index i c = UB.
Proof.
  induction n as [|n IH]; intros c index i Hb Hi Hlen Hx H32 Hover; [lia|].
  cbn [copy_descs]. unfold copy_desc at 1, read_mem. unfold mbind at 1 2, prog_bind at 1 2.
  unfold DESC_SIZE in Hlen. rewrite (load_sub _ _ _ bs) by (done || unfold DESC_SIZE; lia).
  unfold gets, mbind at 1, prog_bind at 1. rewrite u32_small by lia.
  destruct (zone_desc_list c !! Z.to_nat (index + i)) eqn:Hk; [|done].
  apply lookup_lt_Some in Hk. unfold modify. cbn beta iota.
  apply IH; cbn [host_mem zone_desc_list set_descs]; rewrite ?length_insert;
    try (done || unfold DESC_SIZE; lia).
Qed.
Lemma load_fresh (m : memory) b bs : load (<[b := bs]> m) (Ptr b 0) (Z.of_nat (length bs)) = Some bs.
Proof.
  unfold load. cbn [p_blk p_off]. rewrite lookup_insert_eq. cbn.
  assert (in_block bs 0 (Z.of_nat (length bs)) = true) as -> by (apply in_block_spec; lia).
  unfold sub. rewrite Nat2Z.id. change (drop (Z.to_nat 0) bs) with bs. by rewrite take_ge.
Qed.

Lemma le_at_head bs : le_at (sub bs 0 8) 0 8 = le_at bs 0 8.
Proof. unfold le_at. by rewrite sub_sub by lia. Qed.

(** The full report [zns_get_zone_desc] asks for when it initialises. *)
Definition report_bytes : Z := (REPORT_NUM + 1) * DESC_SIZE.

(** The request of start-up, for a report into a fresh buffer, was answered:
    the buffer holds [bs], and [c'] is the state after the buffer is freed. *)
Definition report_answer (c : ctl) (bs : list Byte.byte) (c' : ctl) : Prop :=
  let b := fresh (dom (host_mem c)) in
  let blk := resize (Z.to_nat report_bytes) Byte.x00 (junk (Z.to_nat report_bytes)) in
  exists r d' m',
    ioctl (device c) (<[b := blk]> (host_mem c))
      (NVME_IOCTL_IO_CMD (report_cmd shr32 (Ptr b 0) REPORT_NUM REPORT_ALL REPORT_ALL_STATE 0))
      = (r, d', m') /\
    r <> -1 /\ load m' (Ptr b 0) report_bytes = Some bs /\ c' = set_device d' (delete b m') c.

(** The number of descriptors a report says it has. *)
Definition report_count (bs : list Byte.byte) : Z := le_at bs 0 8.

Lemma management_recv_ok c bs c' :
  report_answer c bs c' ->
  exists b d' m',
    zns_management_recv junk shr32 REPORT_NUM REPORT_ALL REPORT_ALL_STATE 0 c
      = Ret (Ptr b 0) (set_device d' m' c) /\
    load m' (Ptr b 0) report_bytes = Some bs /\
    load m' (Ptr b 0) 8 = Some (sub bs 0 8) /\ c' = set_device d' (delete b m') c.
Proof.
  intros (r & d' & m' & Hio & Hr & Hbs & ->). exists (fresh (dom (host_mem c))), d', m'.
  split; [|split; [done|]; split; [|done]].
  - unfold zns_management_recv, malloc, call_ioctl, mbind, prog_bind.
    change (u32 (REPORT_NUM + 1) * DESC_SIZE) with report_bytes.
    cbn [device host_mem set_device]. rewrite Hio. by rewrite (proj2 (Z.eqb_neq r (-1))).
  - pose proof (load_sub m' _ report_bytes bs 0 8 Hbs ltac:(lia) ltac:(lia) ltac:(done)) as Hhd.
    by rewrite ptr_add_0 in Hhd.
Qed.

(** One report of start-up: its descriptors go to the array from [index] on. *)
Lemma one_report_ok c bs c' index :
  report_answer c bs c' -> 0 <= report_count bs <= REPORT_NUM -> 0 <= index ->
  index + report_count bs <= Z.of_nat (length (zone_desc_list c)) < 2 ^ 32 ->
  one_report junk shr32 REPORT_NUM REPORT_ALL REPORT_ALL_STATE 0 index c
  = Ret (report_count bs)
      (set_descs (overwrite (zone_desc_list c) index (report_descs bs 0 (Z.to_nat (report_count bs)))) c').
Proof.
  intros Ha Hn Hi Hfit. destruct (management_recv_ok c bs c' Ha) as (b & d' & m' & Hr & Hbs & Hhd & ->).
  unfold one_report. step_with Hr. unfold read_mem at 1, mbind at 1, prog_bind at 1.
  cbn [host_mem set_device]. rewrite Hhd. cbv beta zeta iota. rewrite le_at_head.
  fold (report_count bs). erewrite bind_Ret; cycle 1.
  { apply (copy_descs_ok _ bs report_bytes); cbn [host_mem set_device zone_desc_list];
      unfold report_bytes, DESC_SIZE, REPORT_NUM in *; try (done || lia). }
  rewrite Z.add_0_r. done.
Qed.

(** A report longer than what is left of the array is written past it. *)
Lemma one_report_overflow c bs c' index :
  report_answer c bs c' -> report_count bs <= REPORT_NUM -> 0 <= index -> index + REPORT_NUM < 2 ^ 32 ->
  index <= Z.of_nat (length (zone_desc_list c)) < index + report_count bs ->
  one_report junk shr32 REPORT_NUM REPORT_ALL REPORT_ALL_STATE 0 index c = UB.
Proof.
  intros Ha Hn Hi H32 Hfit. destruct (management_recv_ok c bs c' Ha) as (b & d' & m' & Hr & Hbs & Hhd & ->).
  unfold one_report. step_with Hr. unfold read_mem at 1, mbind at 1, prog_bind at 1.
  cbn [host_mem set_device]. rewrite Hhd. cbv beta zeta iota. rewrite le_at_head.
  fold (report_count bs). apply bind_UB.
  apply (copy_descs_overflow _ bs report_bytes); cbn [host_mem set_device zone_desc_list];
    unfold report_bytes, DESC_SIZE, REPORT_NUM in *; try (done || lia).
Qed.

(** When every report has [REPORT_NUM] descriptors and the namespace has a
    larger number of zones that is not a multiple of it, the last report is
    written past the array: every report starts at block 0 again. *)
Lemma init_loop_overflow fuel : forall k c,
  (forall c, exists bs c', report_answer c bs c' /\ report_count bs = REPORT_NUM) ->
  let nz := max_zone_cnt (info c) in
  nz + REPORT_NUM < 2 ^ 32 -> nz mod REPORT_NUM <> 0 ->
  Z.of_nat (length (zone_desc_list c)) = nz ->
  0 <= k <= nz / REPORT_NUM -> nz / REPORT_NUM - k < Z.of_nat fuel ->
  forall real, init_loop junk shr32 fuel (REPORT_NUM * k) real c = UB.
Proof.
  induction fuel as [|fuel IH]; intros k c Hans nz H32 Hmod Hlen Hk Hf real; [lia|].
  pose proof (Z.div_mod nz REPORT_NUM ltac:(done)) as Hd.
  pose proof (Z.mod_pos_bound nz REPORT_NUM ltac:(done)).
  cbn [init_loop]. rewrite bind_gets. fold nz.
  destruct (Hans c) as (bs & c' & Ha & Hn).
  destruct (decide (k = nz / REPORT_NUM)) as [->|Hne].
  - rewrite (proj2 (Z.ltb_lt _ _)) by lia. apply bind_UB.
    apply (one_report_overflow c bs c'); unfold REPORT_NUM in *; (done || lia).
  - assert (REPORT_NUM * (k + 1) <= nz) as Hle by nia.
    rewrite (proj2 (Z.ltb_lt _ _)) by (unfold REPORT_NUM in *; lia).
    erewrite bind_Ret by (apply (one_report_ok c bs c'); unfold REPORT_NUM in *; (done || lia)).
    rewrite Hn, u32_small by (unfold REPORT_NUM in *; lia).
    replace (REPORT_NUM * k + REPORT_NUM) with (REPORT_NUM * (k + 1)) by lia.
    destruct Ha as (r & d' & m' & _ & _ & _ & ->).
    apply IH; cbn [info set_descs set_device zone_desc_list]; fold nz; try (done || unfold REPORT_NUM in *; lia).
    rewrite length_overwrite; [done|]. apply in_block_spec.
    unfold report_descs. rewrite length_fmap, length_seq. unfold REPORT_NUM in *. lia.
Qed.
End InitSpec.
