(* ===== verification/SimDevice.v ===== *)
(** A zoned namespace in memory: the device laws can be met. The instances are
    the concrete device on which the theorems are exercised. *)
From S2P Require Import Prelude Nvme Controller Init.
From stdpp Require Import base numbers list gmap strings.
From Stdlib Require Import ZArith Lia.
Local Open Scope Z_scope.

Section Sim.
Context (zs nz : Z).

(** Content of the blocks and write pointers of the zones. *)
Record sim := Sim { sim_data : Z -> list Byte.byte; sim_wp : Z -> Z }.

Definition sim_block (d : sim) (lba : Z) : list Byte.byte :=
  resize (Z.to_nat BLOCK_SIZE) Byte.x00 (sim_data d lba).
Definition sim_pointer (d : sim) (z : Z) : Z := u64 (sim_wp d z).

Definition zone_of (lba : Z) : Z := lba / zs.

(** "Zone Invalid Write" *)
Definition INVALID_WRITE : Z := 444.

Definition sim_write (d : sim) (m : memory) (io : nvme_user_io) : Z * sim * memory :=
  let slba := io_slba io in
  let n := io_nblocks io + 1 in
  let z := zone_of slba in
  match load m (io_addr io) (n * BLOCK_SIZE) with
  | Some bs =>
    if (slba =? sim_pointer d z) && (slba + n <=? (z + 1) * zs) then
      (0, Sim (fun lba => if (slba <=? lba) && (lba <? slba + n)
                          then sub bs ((lba - slba) * BLOCK_SIZE) BLOCK_SIZE else sim_data d lba)
              (fun z' => if z' =? z then slba + n else sim_wp d z'), m)
    else (INVALID_WRITE, d, m)
  | None => (-1, d, m)
  end.

Definition sim_read (d : sim) (m : memory) (io : nvme_user_io) : Z * sim * memory :=
  match store m (io_addr io) (blocks (sim_block d) (io_slba io) (io_nblocks io + 1)) with
  | Some m' => (0, d, m')
  | None => (-1, d, m)
  end.

Definition sim_descriptor (d : sim) (z : Z) : list Byte.byte :=
  replicate 16 Byte.x00 ++ le_bytes 8 (z * zs) ++ le_bytes 8 (sim_pointer d z)
  ++ replicate 32 Byte.x00.

(** The report of [k] descriptors, in a buffer of [k + 1]. *)
Definition sim_report (d : sim) (k : Z) : list Byte.byte :=
  le_bytes 8 (Z.min k nz) ++ replicate 56 Byte.x00 ++ (seqZ 0 k ≫= sim_descriptor d).

Definition sim_manage (d : sim) (m : memory) (c : nvme_passthru_cmd) : Z * sim * memory :=
  if pc_opcode c =? 122 then
    match store m (pc_addr c) (sim_report d (pc_data_len c / DESC_SIZE - 1)) with
    | Some m' => (0, d, m')
    | None => (-1, d, m)
    end
  else if (pc_opcode c =? 121) && (pc_cdw13 c =? MAN_RESET) then
    let z := zone_of (pc_cdw10 c + pc_cdw11 c * 2 ^ 32) in
    (0, Sim (sim_data d) (fun z' => if z' =? z then z * zs else sim_wp d z'), m)
  else (0, d, m).

Definition sim_ioctl (d : sim) (m : memory) (r : ioctl_req) : Z * sim * memory :=
  match r with
  | NVME_IOCTL_SUBMIT_IO io =>
    if io_opcode io =? 1 then sim_write d m io
    else if io_opcode io =? 2 then sim_read d m io
    else (1, d, m)
  | NVME_IOCTL_IO_CMD c => sim_manage d m c
  | NVME_IOCTL_ADMIN_CMD c => (0, d, m)
  end.

Definition sim_nvme : NvmeDevice := {| dev := sim; ioctl := sim_ioctl |}.

Hypothesis Hzs : 0 < zs.
Hypothesis Hsize : nz * zs < 2 ^ 64.

Lemma length_sim_block d lba : length (sim_block d lba) = Z.to_nat BLOCK_SIZE.
Proof. apply length_resize. Qed.

(** The blocks cut from a buffer are the buffer. *)
Lemma concat_pieces (bs : list Byte.byte) k (n : nat) :
  (k + n * 512)%nat = length bs ->
  concat ((fun i => resize 512 Byte.x00 (take 512 (drop (k + i * 512) bs))) <$> seq 0 n)
  = drop k bs.
Proof.
  revert k. induction n as [|n IH]; intros k Hk.
  { rewrite drop_ge by lia. done. }
  cbn [seq fmap list_fmap concat]. rewrite <- fmap_S_seq, <- list_fmap_compose.
  rewrite Nat.add_0_r. rewrite <- (take_drop 512 (drop k bs)) at 2. f_equal.
  - apply resize_all_alt. rewrite length_take, length_drop. lia.
  - rewrite drop_drop, <- (IH (k + 512)%nat) by lia. f_equal. apply list_fmap_ext.
    intros i j _. unfold compose. do 3 f_equal. lia.
Qed.

Lemma sim_write_blocks d slba n bs :
  0 <= n -> Z.of_nat (length bs) = n * BLOCK_SIZE ->
  blocks (sim_block (Sim (fun lba => if (slba <=? lba) && (lba <? slba + n)
       then sub bs ((lba - slba) * BLOCK_SIZE) BLOCK_SIZE else sim_data d lba) (sim_wp d))) slba n
  = bs.
Proof.
  intros Hn Hlen. unfold blocks, seqZ. rewrite <- list_fmap_compose.
  unfold BLOCK_SIZE in *. transitivity (drop 0 bs); [|done].
  rewrite <- (concat_pieces bs 0 (Z.to_nat n)) by lia. f_equal. apply list_fmap_ext.
  intros i j Hj%lookup_seq. unfold compose, sim_block. cbn [sim_data].
  rewrite (proj2 (Z.leb_le _ _)), (proj2 (Z.ltb_lt _ _)) by lia. cbn [andb].
  unfold sub, BLOCK_SIZE. change (Z.to_nat 512) with 512%nat. do 3 f_equal. lia.
Qed.

Lemma zone_of_spec z lba : z * zs <= lba < (z + 1) * zs -> zone_of lba = z.
Proof. intros. unfold zone_of. symmetry. apply (Z.div_unique lba zs z (lba - z * zs)); lia. Qed.
Lemma sim_write_law d m io z bs :
  io_opcode io = 1 -> 0 <= z < nz -> 0 <= io_nblocks io < 2 ^ 16 ->
  io_slba io = sim_pointer d z ->
  z * zs <= io_slba io -> io_slba io + (io_nblocks io + 1) <= (z + 1) * zs ->
  load m (io_addr io) ((io_nblocks io + 1) * BLOCK_SIZE) = Some bs ->
  exists d', sim_ioctl d m (NVME_IOCTL_SUBMIT_IO io) = (0, d', m) /\
    blocks (sim_block d') (io_slba io) (io_nblocks io + 1) = bs /\
    (forall lba, lba < io_slba io \/ io_slba io + (io_nblocks io + 1) <= lba ->
       sim_block d' lba = sim_block d lba) /\
    sim_pointer d' z = io_slba io + (io_nblocks io + 1) /\
    (forall z', z' <> z -> sim_pointer d' z' = sim_pointer d z').
Proof.
  intros Ho Hz Hn Hs Hlo Hhi Hload. unfold sim_ioctl. rewrite Ho. cbn [Z.eqb]. unfold sim_write.
  rewrite Hload, (zone_of_spec z) by lia.
  rewrite (proj2 (Z.eqb_eq _ _) Hs), (proj2 (Z.leb_le _ _)) by lia. cbn [andb].
  eexists. split; [done|]. split; [|split; [|split]].
  - pose proof (load_length _ _ _ _ Hload). by apply (sim_write_blocks d); [lia|].
  - intros lba Hlba. unfold sim_block. cbn [sim_data].
    destruct (Z.leb_spec (io_slba io) lba), (Z.ltb_spec lba (io_slba io + (io_nblocks io + 1)));
      cbn [andb]; try done. lia.
  - unfold sim_pointer. cbn [sim_wp]. rewrite Z.eqb_refl. apply u64_small. nia.
  - intros z' Hz'. unfold sim_pointer. cbn [sim_wp]. by rewrite (proj2 (Z.eqb_neq _ _) Hz').
Qed.

Lemma sim_reset_law d m c z r d' m' :
  pc_opcode c = 121 -> pc_cdw13 c = MAN_RESET -> 0 <= z < nz ->
  pc_cdw10 c + pc_cdw11 c * 2 ^ 32 = z * zs ->
  sim_ioctl d m (NVME_IOCTL_IO_CMD c) = (r, d', m') -> r = 0 ->
  m' = m /\ sim_pointer d' z = z * zs /\
  (forall z', z' <> z -> sim_pointer d' z' = sim_pointer d z') /\
  (forall lba, lba < z * zs \/ (z + 1) * zs <= lba -> sim_block d' lba = sim_block d lba).
Proof.
  intros Ho Hv Hz Hlba. cbn [sim_ioctl]. unfold sim_manage. rewrite Ho, Hv, Hlba.
  rewrite (zone_of_spec z) by lia. cbn [Z.eqb Pos.eqb andb]. change (MAN_RESET =? MAN_RESET) with true.
  cbn [andb]. intros [= <- <- <-] _. unfold sim_pointer. cbn [sim_wp]. rewrite Z.eqb_refl.
  split; [done|]. split; [apply u64_small; nia|]. split; [|done].
  intros z' Hz'. by rewrite (proj2 (Z.eqb_neq _ _) Hz').
Qed.

#[global] Program Instance sim_zns : ZnsDevice sim_nvme zs nz := {|
  lba_data := sim_block : @dev sim_nvme -> Z -> list Byte.byte;
  dev_wp := sim_pointer : @dev sim_nvme -> Z -> Z |}.
Next Obligation. apply length_sim_block. Qed.
Next Obligation. by apply sim_write_law. Qed.
Next Obligation.
  intros d m io m' Ho _ _ _ Hst. exists d. split; [|done].
  cbn. rewrite Ho. cbn [Z.eqb Pos.eqb]. unfold sim_read. by rewrite Hst.
Qed.
Next Obligation.
  intros d m c r d' m' Ho Hv. cbn. unfold sim_manage. rewrite Ho. cbn [Z.eqb Pos.eqb andb].
  destruct Hv as [-> | ->]; by intros [= <- <- <-].
Qed.
Next Obligation. by eapply sim_reset_law. Qed.

(** ** The zone report *)

Lemma length_sim_descriptor d z : length (sim_descriptor d z) = 64%nat.
Proof. unfold sim_descriptor. by rewrite !length_app, !length_le_bytes, !length_replicate. Qed.

Lemma length_sim_descriptors d (a : Z) (n : nat) :
  length (seqZ a (Z.of_nat n) ≫= sim_descriptor d) = (64 * n)%nat.
Proof.
  revert a. induction n as [|n IH]; intros a; [done|].
  rewrite seqZ_cons by lia. rewrite bind_cons, length_app, length_sim_descriptor.
  replace (Z.pred (Z.of_nat (S n))) with (Z.of_nat n) by lia. rewrite IH. lia.
Qed.

Lemma decode_sim_descriptor d z :
  0 <= z * zs < 2 ^ 64 ->
  start_lba (decode_descriptor (sim_descriptor d z)) = z * zs /\
  wp (decode_descriptor (sim_descriptor d z)) = sim_pointer d z.
Proof.
  intros Hz. unfold decode_descriptor. cbn [start_lba wp]. unfold le_at, sim_descriptor. split.
  - rewrite (sub_middle (replicate 16 Byte.x00) (le_bytes 8 (z * zs))) by (rewrite ?length_le_bytes; done).
    rewrite le_val_bytes. by apply Z.mod_small.
  - rewrite app_assoc.
    rewrite (sub_middle (replicate 16 Byte.x00 ++ le_bytes 8 (z * zs)) (le_bytes 8 (sim_pointer d z)))
      by (rewrite ?length_app, ?length_le_bytes, ?length_replicate; done).
    rewrite le_val_bytes. apply Z.mod_small. unfold sim_pointer, u64. by apply Z.mod_pos_bound.
Qed.

Lemma seqZ_split k z :
  0 <= z < k -> seqZ 0 k = seqZ 0 z ++ [z] ++ seqZ (z + 1) (k - z - 1).
Proof.
  intros. replace k with (z + (k - z)) at 1 by lia. rewrite seqZ_app by lia. f_equal.
  by rewrite seqZ_cons by lia.
Qed.

Lemma sub_sim_report d k z :
  0 <= z < k -> sub (sim_report d k) (DESC_SIZE * (z + 1)) DESC_SIZE = sim_descriptor d z.
Proof.
  intros Hz. unfold sim_report. rewrite (seqZ_split k z) by done. rewrite !bind_app.
  cbn [mbind list_bind]. rewrite app_nil_r, !app_assoc, <- (app_assoc _ (sim_descriptor d z)).
  apply sub_middle; [|by rewrite length_sim_descriptor].
  rewrite !length_app, length_le_bytes, length_replicate.
  replace z with (Z.of_nat (Z.to_nat z)) at 2 by lia. rewrite length_sim_descriptors.
  unfold DESC_SIZE. lia.
Qed.

Lemma length_sim_report d k : 0 <= k -> Z.of_nat (length (sim_report d k)) = (k + 1) * DESC_SIZE.
Proof.
  intros. unfold sim_report. rewrite !length_app, length_le_bytes, length_replicate.
  replace k with (Z.of_nat (Z.to_nat k)) at 1 by lia. rewrite length_sim_descriptors.
  unfold DESC_SIZE. lia.
Qed.

Hypothesis Hnz : 0 <= nz.

(** The device fills the buffer of a report of [k] zones. *)
Lemma sim_report_spec d m c k :
  pc_opcode c = 122 -> 0 <= k -> pc_data_len c = (k + 1) * DESC_SIZE ->
  is_Some (load m (pc_addr c) (pc_data_len c)) ->
  exists m', sim_ioctl d m (NVME_IOCTL_IO_CMD c) = (0, d, m') /\
    load m' (pc_addr c) (pc_data_len c) = Some (sim_report d k).
Proof.
  intros Ho Hk Hlen Hb. cbn.
  assert (pc_data_len c / DESC_SIZE - 1 = k) as Hdiv.
  { rewrite Hlen, Z.div_mul by done. lia. }
  pose proof (length_sim_report d k Hk) as Hl. rewrite <- Hlen in Hl.
  destruct (store_is_Some m m (pc_addr c) (sim_report d k)) as [m' Hm']; [done|by rewrite Hl|].
  exists m'. unfold sim_manage. rewrite Ho. cbn [Z.eqb Pos.eqb].
  rewrite Hdiv, Hm'. split; [done|]. rewrite <- Hl. by eapply load_store_eq.
Qed.

Lemma sim_report_count d k : report_count (sim_report d k) = Z.min k nz mod 2 ^ 64.
Proof.
  unfold report_count, le_at, sim_report. transitivity (le_val (le_bytes 8 (Z.min k nz))); [done|].
  by rewrite le_val_bytes.
Qed.

(** Every start-up report of it is answered. *)
Lemma sim_report_answer junk shr32 c :
  exists c', report_answer (D:=sim_nvme) junk shr32 c (sim_report (device c) REPORT_NUM) c' /\
    zone_desc_list c' = zone_desc_list c /\ info c' = info c.
Proof.
  set (b := fresh (dom (host_mem c))).
  set (blk := resize (Z.to_nat report_bytes) Byte.x00 (junk (Z.to_nat report_bytes))).
  destruct (sim_report_spec (device c) (<[b := blk]> (host_mem c))
    (report_cmd shr32 (Ptr b 0) REPORT_NUM REPORT_ALL REPORT_ALL_STATE 0) REPORT_NUM)
    as (m' & Hio & Hload); try done.
  { cbn [report_cmd pc_addr pc_data_len]. change (u32 _) with report_bytes.
    replace report_bytes with (Z.of_nat (length blk)); [rewrite load_fresh; eauto|].
    unfold blk. rewrite length_resize. unfold report_bytes, REPORT_NUM, DESC_SIZE. lia. }
  eexists. split; [exists 0, (device c), m'; done|done].
Qed.
End Sim.
