(* ===== verification/Zone.v ===== *)
(** env/Zone.h, env/Zone.cpp: intervals, zones and the striped transfer engine.

    [izg_write] and [izg_read] split a transfer over a group of zones. Each
    round starts threads that work on disjoint ranges of the interval vector;
    the body of a thread is straight-line device traffic, so it is modelled as
    the list of commands it issues, and the threads of a round run in an
    arbitrary interleaving of their commands ([interleave_threads], driven by a
    schedule the theorems quantify over). *)
From S2P Require Import Prelude Nvme Controller.
From stdpp Require Import base numbers list gmap strings.
From Stdlib Require Import ZArith Lia.
Local Open Scope Z_scope.

Definition THREAD_PER_IZG : Z := 8.

Record Interval := MkInterval {
  zone_number : Z; segment_id : Z; start : Z; end_ : Z; valid : bool }.

(** The constructor of the C++ class. *)
Definition new_Interval (zn sid s e : Z) : Interval := MkInterval zn sid s e true.
Definition Interval_get_size (i : Interval) : Z :=
  if start i =? end_ i then 0 else u32 (end_ i - start i).
Definition Interval_invalid (i : Interval) : Interval :=
  MkInterval (zone_number i) (segment_id i) (start i) (end_ i) false.
Definition set_end (e : Z) (i : Interval) : Interval :=
  MkInterval (zone_number i) (segment_id i) (start i) e (valid i).

(** A [Zone] object: its number and the intervals placed in it (addresses of
    [Interval] objects, which segments share). *)
Record Zone := MkZone { number : Z; interval_tree : list nat }.
Definition insert_interval (iv : nat) (z : Zone) : Zone :=
  MkZone (number z) (interval_tree z ++ [iv]).

Record zone_request := ZoneRequest {
  zr_buf : ptr; zr_intervals : list nat; zr_write_sizes : list Z;
  write_zone_cnt : Z; total_write_size : Z }.

(** What a transfer thread asks of the controller. Intervals are addressed by
    their position in the heap of [Interval] objects. *)
Inductive io_cmd :=
| SetZone (iv : nat) (value : Z)
| WriteIo (buf : ptr) (iv : nat)
| SetEnd (iv : nat)
| ReadIo (buf : ptr) (iv : nat) (lba : Z).

(** One pass of the inner [for] of [thread_write]: the commands, the decreased
    sizes, the advanced buffer and the bytes written so far. *)
Fixpoint write_pass (ivs : list nat) (ws : list Z) (buf : ptr) (written : Z)
  : list io_cmd * list Z * ptr * Z :=
  match ivs, ws with
  | iv :: ivs', w :: ws' =>
    if 0 <? w then
      let w' := u32 (w - 1) in
      let '(cs, ws'', buf', written') :=
        write_pass ivs' ws' (ptr_add buf IO_SIZE) (u32 (written + IO_SIZE)) in
      ((WriteIo buf iv :: if w' <=? 0 then [SetEnd iv] else []) ++ cs,
       w' :: ws'', buf', written')
    else
      let '(cs, ws'', buf', written') := write_pass ivs' ws' buf written in
      (cs, w :: ws'', buf', written')
  | _, _ => ([], ws, buf, written)
  end.

(** [while (total_written_size < total_write_size)]; [None]: out of fuel. *)
Fixpoint write_loop (fuel : nat) (ivs : list nat) (ws : list Z) (buf : ptr)
    (written total : Z) : option (list io_cmd) :=
  if written <? total then
    match fuel with
    | O => None
    | S fuel' =>
      let '(cs, ws', buf', written') := write_pass ivs ws buf written in
      cs' ← write_loop fuel' ivs ws' buf' written' total; Some (cs ++ cs')
    end
  else Some [].

Definition thread_write (req : zone_request) : option (list io_cmd) :=
  let total := u32 (total_write_size req * IO_SIZE) in
  if total <=? 0 then Some [] else
  cs ← write_loop (Z.to_nat (total_write_size req)) (zr_intervals req)
         (zr_write_sizes req) (zr_buf req) 0 total;
  Some (((fun iv => SetZone iv MAN_OPEN) <$> zr_intervals req) ++ cs ++
        ((fun iv => SetZone iv MAN_CLOSE) <$> zr_intervals req)).

(** One pass of the inner [for] of [thread_read] over the arrays [start[]] and
    [end[]]. *)
Fixpoint read_pass (ivs : list nat) (ses : list (Z * Z)) (buf : ptr) (done_ : Z)
  : list io_cmd * list (Z * Z) * ptr * Z :=
  match ivs, ses with
  | iv :: ivs', (s, e) :: ses' =>
    if s <? e then
      let '(cs, ses'', buf', done') :=
        read_pass ivs' ses' (ptr_add buf IO_SIZE) (u32 (done_ + IO_SIZE)) in
      (ReadIo buf iv s :: cs, (u32 (s + IO_BLOCKS), e) :: ses'', buf', done')
    else
      let '(cs, ses'', buf', done') := read_pass ivs' ses' buf done_ in
      (cs, (s, e) :: ses'', buf', done')
  | _, _ => ([], ses, buf, done_)
  end.

Fixpoint read_loop (fuel : nat) (ivs : list nat) (ses : list (Z * Z)) (buf : ptr)
    (done_ total : Z) : option (list io_cmd) :=
  if done_ <? total then
    match fuel with
    | O => None
    | S fuel' =>
      let '(cs, ses', buf', done') := read_pass ivs ses buf done_ in
      cs' ← read_loop fuel' ivs ses' buf' done' total; Some (cs ++ cs')
    end
  else Some [].

(** [ses]: the [start] and [end] of the intervals when the thread starts. *)
Definition thread_read (req : zone_request) (ses : list (Z * Z)) : option (list io_cmd) :=
  let total := u32 (total_write_size req * IO_SIZE) in
  if total <=? 0 then Some [] else
  read_loop (Z.to_nat (total_write_size req)) (zr_intervals req) ses (zr_buf req) 0 total.

(** Some interleaving of the threads' commands, each thread's own order kept. *)
Fixpoint interleave_threads (sched : list nat) (ths : list (list io_cmd)) : list io_cmd :=
  match sched with
  | [] => concat ths
  | i :: sched' =>
    match ths !! i with
    | Some (c :: cs) => c :: interleave_threads sched' (<[i := cs]> ths)
    | _ => interleave_threads sched' ths
    end
  end.

(** The number of zones thread [j] of a round gets. *)
Definition zones_for_thread (izg_cnt left j : Z) : Z :=
  let cnt := if izg_cnt <? left then izg_cnt else left in
  if THREAD_PER_IZG <? cnt then
    if izg_cnt <? THREAD_PER_IZG * (j + 1) then u32 (izg_cnt - THREAD_PER_IZG) else THREAD_PER_IZG
  else cnt.

Definition thread_num (izg_cnt : Z) : Z :=
  izg_cnt / THREAD_PER_IZG + (if izg_cnt mod THREAD_PER_IZG =? 0 then 0 else 1).

(** [total_target_zone / izg_cnt], rounded up: the number of rounds. *)
Definition izg_rounds (izg_cnt total_target_zone : Z) : Z :=
  total_target_zone / izg_cnt + (if total_target_zone mod izg_cnt =? 0 then 0 else 1).

(** The first loop of [izg_write]: turn the free blocks of each zone into the
    number of I/Os it gets; the last group shares what is left evenly. [None]
    when the iterator runs past the vector. *)
Fixpoint plan_sizes (rounds : nat) (izg_cnt : Z) (v : list Z) (write_blocks : Z)
  : option (list Z) :=
  match rounds with
  | O => Some v
  | S rounds' =>
    if Z.of_nat (length v) <? izg_cnt then None else
    let cur := take (Z.to_nat izg_cnt) v in
    let rest := drop (Z.to_nat izg_cnt) v in
    match rounds' with
    | O =>
      let stripe := u32 (izg_cnt * IO_BLOCKS) in
      let each := write_blocks / stripe in
      let extra := (write_blocks mod stripe) / IO_BLOCKS in
      Some (imap (fun j _ => if Z.of_nat j <? extra then u32 (each + 1) else each) cur ++ rest)
    | S _ =>
      rest' ← plan_sizes rounds' izg_cnt rest (u32 (write_blocks - foldr Z.add 0 cur));
      Some (((fun w => w / IO_BLOCKS) <$> cur) ++ rest')
    end
  end.

(** The iterators of a transfer: the buffer, what is left of the interval
    vector and of the size vector, and [interval_list_size]. *)
Record cursor := Cursor { cu_buf : ptr; cu_ivs : list nat; cu_ws : list Z; cu_left : Z }.

Definition advance (n : nat) (bytes : Z) (left : Z) (cu : cursor) : cursor :=
  Cursor (ptr_add (cu_buf cu) bytes) (drop n (cu_ivs cu)) (drop n (cu_ws cu)) left.

Section Transfer.
Context `{D : NvmeDevice}.

Record zst := Zst { z_ctl : ctl; z_ivs : list Interval }.
Definition ctl_lens : lens zst ctl := Lens z_ctl (fun c s => Zst c (z_ivs s)).

Definition interval_at (iv : nat) : prog zst Interval := fun s =>
  match z_ivs s !! iv with Some i => Ret i s | None => UB end.

Definition exec_cmd (c : io_cmd) : prog zst unit :=
  match c with
  | SetZone iv value =>
    i ← interval_at iv; zoom ctl_lens (zns_set_zone (zone_number i) value)
  | WriteIo buf iv =>
    i ← interval_at iv; zoom ctl_lens (zns_write buf IO_SIZE (zone_number i));; mret tt
  | SetEnd iv =>
    i ← interval_at iv;
    w ← zoom ctl_lens (zns_get_wp (zone_number i));
    modify (fun s => Zst (z_ctl s) (alter (set_end w) iv (z_ivs s)))
  | ReadIo buf iv lba =>
    i ← interval_at iv; zoom ctl_lens (zns_read buf IO_SIZE (zone_number i) lba);; mret tt
  end.

(** The threads of one round of [izg_write], from thread [j] on: the request
    of each one and the iterators after the last. *)
Fixpoint write_requests (n : nat) (j izg_cnt : Z) (cu : cursor)
  : option (list zone_request * cursor) :=
  match n with
  | O => Some ([], cu)
  | S n' =>
    let cnt := zones_for_thread izg_cnt (cu_left cu) j in
    if (Z.of_nat (length (cu_ivs cu)) <? cnt) || (Z.of_nat (length (cu_ws cu)) <? cnt)
    then None else
    let ws := take (Z.to_nat cnt) (cu_ws cu) in
    let size := u32 (foldr Z.add 0 ws) in
    let req := ZoneRequest (cu_buf cu) (take (Z.to_nat cnt) (cu_ivs cu)) ws cnt size in
    '(reqs, cu') ← write_requests n' (j + 1) izg_cnt
      (advance (Z.to_nat cnt) (u32 (size * IO_SIZE)) (u32 (cu_left cu - cnt)) cu);
    Some (req :: reqs, cu')
  end.

Fixpoint write_rounds (sched : nat -> list nat) (rounds i : nat) (izg_cnt : Z) (cu : cursor)
  : prog zst unit :=
  match rounds with
  | O => mret tt
  | S rounds' =>
    '(reqs, cu') ← the (write_requests (Z.to_nat (thread_num izg_cnt)) 0 izg_cnt cu);
    ths ← fueled (mapM thread_write reqs);
    iterM exec_cmd (interleave_threads (sched i) ths);;
    write_rounds sched rounds' (S i) izg_cnt cu'
  end.

Definition izg_write (sched : nat -> list nat) (buf : ptr) (izg_cnt total_target_zone : Z)
    (interval_list : list nat) (write_size_vector : list Z) (write_blocks : Z) : prog zst Z :=
  if izg_cnt =? 0 then undefined else
  let rounds := Z.to_nat (izg_rounds izg_cnt total_target_zone) in
  ws ← the (plan_sizes rounds izg_cnt write_size_vector write_blocks);
  write_rounds sched rounds 0 izg_cnt
    (Cursor buf interval_list ws (Z.of_nat (length interval_list)));;
  mret 0.

Fixpoint intervals_at (ivs : list nat) : prog zst (list Interval) :=
  match ivs with
  | [] => mret []
  | iv :: ivs' => i ← interval_at iv; l ← intervals_at ivs'; mret (i :: l)
  end.

(** The requests of one round of [izg_read], each with the bounds its thread
    copies from the intervals. *)
Fixpoint read_requests (n : nat) (j izg_cnt : Z) (cu : cursor)
  : prog zst (list (zone_request * list (Z * Z)) * cursor) :=
  match n with
  | O => mret ([], cu)
  | S n' =>
    let cnt := zones_for_thread izg_cnt (cu_left cu) j in
    if Z.of_nat (length (cu_ivs cu)) <? cnt then undefined else
    itvs ← intervals_at (take (Z.to_nat cnt) (cu_ivs cu));
    let size := u32 (foldr Z.add 0 (Interval_get_size <$> itvs)) / IO_BLOCKS in
    let req := ZoneRequest (cu_buf cu) (take (Z.to_nat cnt) (cu_ivs cu)) [] cnt size in
    '(reqs, cu') ← read_requests n' (j + 1) izg_cnt
      (advance (Z.to_nat cnt) (u32 (size * IO_SIZE)) (u32 (cu_left cu - cnt)) cu);
    mret ((req, (fun i => (start i, end_ i)) <$> itvs) :: reqs, cu')
  end.

Fixpoint read_rounds (sched : nat -> list nat) (rounds i : nat) (izg_cnt : Z) (cu : cursor)
  : prog zst unit :=
  match rounds with
  | O => mret tt
  | S rounds' =>
    '(reqs, cu') ← read_requests (Z.to_nat (thread_num izg_cnt)) 0 izg_cnt cu;
    ths ← fueled (mapM (fun '(req, ses) => thread_read req ses) reqs);
    iterM exec_cmd (interleave_threads (sched i) ths);;
    read_rounds sched rounds' (S i) izg_cnt cu'
  end.

Definition izg_read (sched : nat -> list nat) (buf : ptr) (izg_cnt total_target_zone : Z)
    (interval_list : list nat) (read_size : Z) : prog zst Z :=
  if izg_cnt =? 0 then undefined else
  read_rounds sched (Z.to_nat (izg_rounds izg_cnt total_target_zone)) 0 izg_cnt
    (Cursor buf interval_list [] (Z.of_nat (length interval_list)));;
  mret 0.

(** ** Members of [Zone] *)

Definition Zone_full (z : Zone) : prog ctl bool := zns_full_zone (number z).
Definition Zone_get_zone_number (z : Zone) : Z := number z.
Definition Zone_get_wp (z : Zone) : prog ctl Z := zns_get_wp (number z).
Definition Zone_get_free_size (z : Zone) : prog ctl Z :=
  start ← zns_get_start_lba (number z);
  w ← zns_get_wp (number z);
  size ← zns_get_zone_size;
  mret (u32 (size - u32 (w - start))).
End Transfer.
