(* ===== verification/Stripe.v ===== *)
(** The striping order of [thread_write] and [thread_read], in closed form.

    A thread that owns intervals [p] with [c] I/Os each visits them pass by
    pass: in pass [t] every interval with more than [t] I/Os, in order. The
    lemmas here show that both loops of env/Zone.cpp terminate and follow
    exactly this order, so that the k-th I/O of a buffer is written to and read
    back from the same place. *)
From S2P Require Import Prelude Nvme Controller Zone.
From stdpp Require Import base numbers list gmap strings.
From Stdlib Require Import ZArith Lia.
Local Open Scope Z_scope.

(** One I/O of a stripe: the interval, the pass, and whether it is the last
    I/O of that interval. *)
Record slot := Slot { sl_iv : nat; sl_pass : nat; sl_last : bool }.

Abbreviation shares := (list (nat * nat)).

Definition visit (t : nat) (pc : nat * nat) : list slot :=
  if decide (t < pc.2)%nat then [Slot pc.1 t (bool_decide (pc.2 = S t))] else [].

Lemma visit_lt t p c : (t < c)%nat -> visit t (p, c) = [Slot p t (bool_decide (c = S t))].
Proof. intros. unfold visit. by rewrite decide_True. Qed.
Lemma visit_ge t p c : (c <= t)%nat -> visit t (p, c) = [].
Proof. intros. unfold visit. rewrite decide_False; [done|]. cbn. lia. Qed.

(** The slots of [m] passes from pass [t] on. *)
Fixpoint stripe_from (t m : nat) (l : shares) : list slot :=
  match m with
  | O => []
  | S m' => (l ≫= visit t) ++ stripe_from (S t) m' l
  end.

Definition passes (l : shares) : nat := foldr (fun pc n => Nat.max pc.2 n) O l.
Definition stripe (l : shares) : list slot := stripe_from 0 (passes l) l.

(** I/Os still to be done before pass [t]. *)
Definition todo (t : nat) (l : shares) : nat := foldr (fun pc n => pc.2 - t + n)%nat O l.
Definition ios (l : shares) : nat := todo 0 l.

Fixpoint slot_writes (buf : ptr) (l : list slot) : list io_cmd :=
  match l with
  | [] => []
  | s :: l' => (WriteIo buf (sl_iv s) :: if sl_last s then [SetEnd (sl_iv s)] else [])
               ++ slot_writes (ptr_add buf IO_SIZE) l'
  end.

Fixpoint slot_reads (buf : ptr) (st : nat -> Z) (l : list slot) : list io_cmd :=
  match l with
  | [] => []
  | s :: l' => ReadIo buf (sl_iv s) (st (sl_iv s) + IO_BLOCKS * Z.of_nat (sl_pass s))
               :: slot_reads (ptr_add buf IO_SIZE) st l'
  end.

Lemma slot_writes_app buf l1 l2 :
  slot_writes buf (l1 ++ l2) =
  slot_writes buf l1 ++ slot_writes (ptr_add buf (IO_SIZE * Z.of_nat (length l1))) l2.
Proof.
  revert buf. induction l1 as [|s l1 IH]; intros buf; cbn [slot_writes app length].
  - by rewrite Z.mul_0_r, ptr_add_0.
  - rewrite IH, <- app_assoc, ptr_add_add.
    by replace (IO_SIZE * Z.of_nat (S (length l1)))
      with (IO_SIZE + IO_SIZE * Z.of_nat (length l1)) by lia.
Qed.

Lemma slot_reads_app buf st l1 l2 :
  slot_reads buf st (l1 ++ l2) =
  slot_reads buf st l1 ++ slot_reads (ptr_add buf (IO_SIZE * Z.of_nat (length l1))) st l2.
Proof.
  revert buf. induction l1 as [|s l1 IH]; intros buf; cbn [slot_reads app length].
  - by rewrite Z.mul_0_r, ptr_add_0.
  - rewrite IH, ptr_add_add.
    by replace (IO_SIZE * Z.of_nat (S (length l1)))
      with (IO_SIZE + IO_SIZE * Z.of_nat (length l1)) by lia.
Qed.

Lemma visits_todo t l :
  (length (l ≫= visit t) + todo (S t) l = todo t l)%nat.
Proof.
  induction l as [|[p c] l IH]; [done|]. cbn [todo foldr]. rewrite bind_cons, length_app.
  fold (todo (S t) l). fold (todo t l). unfold visit at 1. cbn [fst snd].
  case_decide; cbn [length]; lia.
Qed.

Lemma todo_zero t l : todo t l = O -> (l ≫= visit t) = [].
Proof.
  intros H. pose proof (visits_todo t l). apply length_zero_iff_nil. lia.
Qed.

Lemma todo_mono t l : (todo (S t) l <= todo t l)%nat.
Proof. pose proof (visits_todo t l). lia. Qed.

Lemma stripe_from_done t m l : todo t l = O -> stripe_from t m l = [].
Proof.
  revert t. induction m as [|m IH]; intros t Ht; [done|]. cbn.
  rewrite todo_zero, IH; [done| |done]. pose proof (todo_mono t l). lia.
Qed.

Lemma passes_todo t l : (passes l <= t)%nat -> todo t l = O.
Proof.
  induction l as [|[p c] l IH]; cbn; [done|].
  fold (passes l). fold (todo t l). intros. rewrite IH by lia. lia.
Qed.

Lemma todo_pos_passes t l : (0 < todo t l)%nat -> (t < passes l)%nat.
Proof.
  intros H. destruct (decide (passes l <= t)%nat) as [Hp|]; [|lia].
  apply passes_todo in Hp. lia.
Qed.

Lemma passes_le_ios l : (passes l <= ios l)%nat.
Proof.
  unfold ios. induction l as [|[p c] l IH]; [done|].
  cbn [passes todo foldr snd]. fold (passes l). fold (todo 0 l). lia.
Qed.

Lemma length_stripe_from t m l :
  (passes l <= t + m)%nat -> length (stripe_from t m l) = todo t l.
Proof.
  revert t. induction m as [|m IH]; intros t Hm; cbn.
  - rewrite passes_todo; [done|lia].
  - rewrite length_app, IH by lia. apply visits_todo.
Qed.

Lemma length_stripe l : length (stripe l) = ios l.
Proof. apply length_stripe_from. lia. Qed.

(** ** The write loop *)

Definition left_over (t : nat) (l : shares) : list Z := (fun pc => Z.of_nat (pc.2 - t)) <$> l.

Lemma write_pass_visits t l buf written :
  Forall (fun pc => Z.of_nat pc.2 < 2 ^ 32) l ->
  0 <= written -> written + IO_SIZE * Z.of_nat (length (l ≫= visit t)) < 2 ^ 32 ->
  write_pass l.*1 (left_over t l) buf written =
  (slot_writes buf (l ≫= visit t), left_over (S t) l,
   ptr_add buf (IO_SIZE * Z.of_nat (length (l ≫= visit t))),
   written + IO_SIZE * Z.of_nat (length (l ≫= visit t))).
Proof.
  revert buf written. induction l as [|[p c] l IH]; intros buf written Hc Hw Hb.
  { cbn. by rewrite ptr_add_0, Z.add_0_r. }
  apply Forall_cons in Hc as [Hc1 Hc]. cbn [snd] in Hc1.
  rewrite bind_cons in Hb |- *. rewrite length_app in Hb |- *.
  cbn [left_over fmap list_fmap fst snd write_pass].
  fold (left_over t l). fold (left_over (S t) l).
  unfold IO_SIZE, _192KB in *. destruct (decide (t < c)%nat) as [Hlt|Hge].
  - rewrite visit_lt in Hb |- * by done. cbn [length] in Hb |- *.
    destruct (Z.ltb_spec 0 (Z.of_nat (c - t))); [|lia].
    rewrite (u32_small (written + _)), (u32_small (_ - 1)) by lia. rewrite IH by (done || lia).
    rewrite slot_writes_app. cbn [slot_writes sl_iv sl_last length app].
    rewrite ptr_add_add. unfold IO_SIZE, _192KB.
    assert ((Z.of_nat (c - t) - 1 <=? 0) = bool_decide (c = S t)) as ->.
    { case_bool_decide; bool_to_Prop; lia. }
    f_equal; [f_equal; [f_equal|]|]; [|f_equal; lia|f_equal; lia|lia].
    by rewrite app_nil_r.
  - rewrite visit_ge in Hb |- * by lia. cbn [length app] in Hb |- *.
    destruct (Z.ltb_spec 0 (Z.of_nat (c - t))); [lia|].
    rewrite IH by (done || lia). by replace (c - S t)%nat with (c - t)%nat by lia.
Qed.

Lemma share_le_todo l : Forall (fun pc => (pc.2 <= todo 0 l)%nat) l.
Proof.
  induction l as [|[p c] l IH]; constructor; cbn [todo foldr snd]; fold (todo 0 l).
  - lia.
  - eapply Forall_impl; [done|]. cbn. intros [q d]. cbn. lia.
Qed.

Lemma shares_fit l :
  IO_SIZE * Z.of_nat (ios l) < 2 ^ 32 -> Forall (fun pc => Z.of_nat pc.2 < 2 ^ 32) l.
Proof.
  intros Hfit. eapply Forall_impl; [apply share_le_todo|].
  unfold ios, IO_SIZE, _192KB in *. cbn. lia.
Qed.

Lemma write_loop_stripe l m t fuel buf :
  IO_SIZE * Z.of_nat (ios l) < 2 ^ 32 ->
  (passes l <= t + m)%nat -> (m <= fuel)%nat -> (todo t l <= ios l)%nat ->
  write_loop fuel l.*1 (left_over t l) buf
    (IO_SIZE * (Z.of_nat (ios l) - Z.of_nat (todo t l))) (IO_SIZE * Z.of_nat (ios l))
  = Some (slot_writes buf (stripe_from t m l)).
Proof.
  intros Hfit. pose proof (shares_fit l Hfit) as Hc.
  revert t fuel buf. induction m as [|m IH]; intros t fuel buf Hm Hf Ht.
  { destruct fuel; cbn [write_loop]; rewrite (passes_todo t l) by lia;
      rewrite (proj2 (Z.ltb_ge _ _)) by lia; done. }
  destruct fuel as [|fuel]; [lia|]. cbn [write_loop].
  unfold IO_SIZE, _192KB in *.
  destruct (decide (todo t l = 0)%nat) as [H0|H0].
  { rewrite H0, (proj2 (Z.ltb_ge _ _)) by lia. by rewrite stripe_from_done. }
  rewrite (proj2 (Z.ltb_lt _ _)) by lia.
  pose proof (visits_todo t l). rewrite write_pass_visits; unfold IO_SIZE, _192KB; try lia; [|done].
  cbn [stripe_from]. rewrite slot_writes_app. unfold IO_SIZE, _192KB.
  replace (196608 * (Z.of_nat (ios l) - Z.of_nat (todo t l))
     + 196608 * Z.of_nat (length (l ≫= visit t)))
    with (196608 * (Z.of_nat (ios l) - Z.of_nat (todo (S t) l))) by lia.
  by rewrite IH by lia.
Qed.

Definition opens (v : Z) (l : shares) : list io_cmd := (fun iv => SetZone iv v) <$> l.*1.

(** [thread_write] terminates and issues the I/Os of the stripe, in order. *)
Lemma thread_write_stripe l buf cnt :
  IO_SIZE * Z.of_nat (ios l) < 2 ^ 32 ->
  thread_write (ZoneRequest buf l.*1 ((fun pc => Z.of_nat pc.2) <$> l) cnt (Z.of_nat (ios l)))
  = Some (if decide (ios l = O) then []
          else opens MAN_OPEN l ++ slot_writes buf (stripe l) ++ opens MAN_CLOSE l).
Proof.
  intros Hfit. unfold thread_write. cbn [total_write_size zr_intervals zr_write_sizes zr_buf].
  rewrite u32_small by (unfold IO_SIZE, _192KB in *; lia).
  case_decide as H0; [by rewrite H0|].
  rewrite (proj2 (Z.leb_gt _ _)) by (unfold IO_SIZE, _192KB in *; lia).
  pose proof (write_loop_stripe l (passes l) 0 (Z.to_nat (Z.of_nat (ios l))) buf Hfit) as Hl.
  unfold left_over in Hl. setoid_rewrite Nat.sub_0_r in Hl.
  change (todo 0 l) with (ios l) in Hl.
  replace (IO_SIZE * (Z.of_nat (ios l) - Z.of_nat (ios l))) with 0 in Hl by lia.
  rewrite (Z.mul_comm _ IO_SIZE), Hl; [done|lia| |lia].
  rewrite Nat2Z.id. apply passes_le_ios.
Qed.

(** ** The read loop *)

(** The bounds after [t] passes over intervals that start at [st]. *)
Definition bounds (st : nat -> Z) (t : nat) (l : shares) : list (Z * Z) :=
  (fun pc => (st pc.1 + IO_BLOCKS * Z.of_nat (Nat.min t pc.2),
              st pc.1 + IO_BLOCKS * Z.of_nat pc.2)) <$> l.

Definition bounds_fit (st : nat -> Z) (l : shares) : Prop :=
  Forall (fun pc => 0 <= st pc.1 /\ st pc.1 + IO_BLOCKS * Z.of_nat pc.2 < 2 ^ 32) l.

Lemma read_pass_visits st t l buf done_ :
  bounds_fit st l -> 0 <= done_ ->
  done_ + IO_SIZE * Z.of_nat (length (l ≫= visit t)) < 2 ^ 32 ->
  read_pass l.*1 (bounds st t l) buf done_ =
  (slot_reads buf st (l ≫= visit t), bounds st (S t) l,
   ptr_add buf (IO_SIZE * Z.of_nat (length (l ≫= visit t))),
   done_ + IO_SIZE * Z.of_nat (length (l ≫= visit t))).
Proof.
  revert buf done_. induction l as [|[p c] l IH]; intros buf done_ Hc Hw Hb.
  { cbn. by rewrite ptr_add_0, Z.add_0_r. }
  apply Forall_cons in Hc as [Hc1 Hc]. cbn [fst snd] in Hc1.
  rewrite bind_cons in Hb |- *. rewrite length_app in Hb |- *.
  cbn [bounds fmap list_fmap fst snd read_pass].
  fold (bounds st t l). fold (bounds st (S t) l).
  unfold IO_SIZE, _192KB, IO_BLOCKS in *. destruct (decide (t < c)%nat) as [Hlt|Hge].
  - rewrite visit_lt in Hb |- * by done. cbn [length] in Hb |- *.
    rewrite (Nat.min_l t c), (Nat.min_l (S t) c) by lia.
    rewrite (proj2 (Z.ltb_lt _ _)) by lia.
    rewrite (u32_small (done_ + _)), (u32_small (_ + 384)) by lia. rewrite IH by (done || lia).
    rewrite slot_reads_app. cbn [slot_reads sl_iv sl_pass length app].
    rewrite ptr_add_add. unfold IO_SIZE, _192KB, IO_BLOCKS.
    f_equal; [f_equal; [f_equal|f_equal]|]; try lia.
    f_equal. f_equal. lia.
  - rewrite visit_ge in Hb |- * by lia. cbn [length app] in Hb |- *.
    rewrite (Nat.min_r t c), (Nat.min_r (S t) c) by lia.
    rewrite (proj2 (Z.ltb_ge _ _)) by lia. by rewrite IH by (done || lia).
Qed.

Lemma read_loop_stripe st l m t fuel buf :
  bounds_fit st l -> IO_SIZE * Z.of_nat (ios l) < 2 ^ 32 ->
  (passes l <= t + m)%nat -> (m <= fuel)%nat -> (todo t l <= ios l)%nat ->
  read_loop fuel l.*1 (bounds st t l) buf
    (IO_SIZE * (Z.of_nat (ios l) - Z.of_nat (todo t l))) (IO_SIZE * Z.of_nat (ios l))
  = Some (slot_reads buf st (stripe_from t m l)).
Proof.
  intros Hc Hfit. revert t fuel buf. induction m as [|m IH]; intros t fuel buf Hm Hf Ht.
  { destruct fuel; cbn [read_loop]; rewrite (passes_todo t l) by lia;
      rewrite (proj2 (Z.ltb_ge _ _)) by lia; done. }
  destruct fuel as [|fuel]; [lia|]. cbn [read_loop].
  unfold IO_SIZE, _192KB in *.
  destruct (decide (todo t l = 0)%nat) as [H0|H0].
  { rewrite H0, (proj2 (Z.ltb_ge _ _)) by lia. by rewrite stripe_from_done. }
  rewrite (proj2 (Z.ltb_lt _ _)) by lia.
  pose proof (visits_todo t l). rewrite read_pass_visits; unfold IO_SIZE, _192KB; try lia; [|done].
  cbn [stripe_from]. rewrite slot_reads_app. unfold IO_SIZE, _192KB.
  replace (196608 * (Z.of_nat (ios l) - Z.of_nat (todo t l))
     + 196608 * Z.of_nat (length (l ≫= visit t)))
    with (196608 * (Z.of_nat (ios l) - Z.of_nat (todo (S t) l))) by lia.
  by rewrite IH by lia.
Qed.

Lemma thread_read_stripe st l buf ws cnt :
  bounds_fit st l -> IO_SIZE * Z.of_nat (ios l) < 2 ^ 32 ->
  thread_read (ZoneRequest buf l.*1 ws cnt (Z.of_nat (ios l)))
    ((fun pc => (st pc.1, st pc.1 + IO_BLOCKS * Z.of_nat pc.2)) <$> l)
  = Some (slot_reads buf st (stripe l)).
Proof.
  intros Hc Hfit. unfold thread_read. cbn [total_write_size zr_intervals zr_buf].
  rewrite u32_small by (unfold IO_SIZE, _192KB in *; lia).
  destruct (Z.leb_spec (Z.of_nat (ios l) * IO_SIZE) 0) as [H0|H0].
  { unfold stripe. rewrite stripe_from_done; [done|].
    change (todo 0 l) with (ios l). unfold IO_SIZE, _192KB in *. lia. }
  pose proof (read_loop_stripe st l (passes l) 0 (Z.to_nat (Z.of_nat (ios l))) buf Hc Hfit) as Hl.
  unfold bounds in Hl. cbn [Nat.min] in Hl. setoid_rewrite Z.mul_0_r in Hl.
  setoid_rewrite Z.add_0_r in Hl. change (todo 0 l) with (ios l) in Hl.
  replace (IO_SIZE * (Z.of_nat (ios l) - Z.of_nat (ios l))) with 0 in Hl by lia.
  rewrite (Z.mul_comm _ IO_SIZE), Hl; [done|lia| |lia].
  rewrite Nat2Z.id. apply passes_le_ios.
Qed.

(** ** Where each I/O of a buffer goes *)

(** The slots of a stripe with the part of the buffer each one transfers. *)
Fixpoint place (buf : ptr) (l : list slot) : list (ptr * slot) :=
  match l with
  | [] => []
  | s :: l' => (buf, s) :: place (ptr_add buf IO_SIZE) l'
  end.

Definition put_cmds (bs : ptr * slot) : list io_cmd :=
  WriteIo bs.1 (sl_iv bs.2) :: if sl_last bs.2 then [SetEnd (sl_iv bs.2)] else [].
Definition get_cmd (st : nat -> Z) (bs : ptr * slot) : io_cmd :=
  ReadIo bs.1 (sl_iv bs.2) (st (sl_iv bs.2) + IO_BLOCKS * Z.of_nat (sl_pass bs.2)).

Lemma slot_writes_place buf l : slot_writes buf l = place buf l ≫= put_cmds.
Proof.
  revert buf. induction l as [|s l IH]; intros buf; [done|].
  cbn [slot_writes place]. by rewrite bind_cons, IH.
Qed.

Lemma slot_reads_place buf st l : slot_reads buf st l = get_cmd st <$> place buf l.
Proof.
  revert buf. induction l as [|s l IH]; intros buf; [done|].
  cbn [slot_reads place fmap list_fmap]. f_equal. apply IH.
Qed.

Lemma place_app buf l1 l2 :
  place buf (l1 ++ l2) = place buf l1 ++ place (ptr_add buf (IO_SIZE * Z.of_nat (length l1))) l2.
Proof.
  revert buf. induction l1 as [|s l1 IH]; intros buf; cbn [place app length].
  - by rewrite Z.mul_0_r, ptr_add_0.
  - rewrite IH, ptr_add_add.
    by replace (IO_SIZE * Z.of_nat (S (length l1)))
      with (IO_SIZE + IO_SIZE * Z.of_nat (length l1)) by lia.
Qed.

Lemma place_snd buf l : (place buf l).*2 = l.
Proof. revert buf. induction l as [|s l IH]; intros buf; [done|]. cbn. f_equal. apply IH. Qed.

Lemma lookup_place buf l k :
  place buf l !! k = (fun s => (ptr_add buf (IO_SIZE * Z.of_nat k), s)) <$> l !! k.
Proof.
  revert buf k. induction l as [|s l IH]; intros buf [|k]; cbn [place lookup list_lookup]; try done.
  - cbn. by rewrite Z.mul_0_r, ptr_add_0.
  - change (place (ptr_add buf IO_SIZE) l !! k = (fun s => (ptr_add buf (IO_SIZE * Z.of_nat (S k)), s)) <$> l !! k).
    rewrite IH, ptr_add_add.
    by replace (IO_SIZE * Z.of_nat (S k)) with (IO_SIZE + IO_SIZE * Z.of_nat k) by lia.
Qed.

(** The slots of interval [p] in a list. *)
Definition of_iv (p : nat) (l : list slot) : list slot := filter (fun s => sl_iv s = p) l.

Lemma of_iv_app p l1 l2 : of_iv p (l1 ++ l2) = of_iv p l1 ++ of_iv p l2.
Proof. apply filter_app. Qed.

Lemma of_iv_visits t l p c :
  NoDup l.*1 -> (p, c) ∈ l -> of_iv p (l ≫= visit t) = visit t (p, c).
Proof.
  intros Hnd Hin. unfold of_iv. induction l as [|[q d] l IH]; [by apply not_elem_of_nil in Hin|].
  apply NoDup_cons in Hnd as [Hq Hnd]. rewrite bind_cons, filter_app.
  assert (forall e, q <> p -> filter (fun s => sl_iv s = p) (visit t (q, e)) = []) as Hne.
  { intros e ?. unfold visit. case_decide; [|done]. by rewrite filter_cons_False. }
  assert (forall k, (p ∉ k.*1) -> filter (fun s => sl_iv s = p) (k ≫= visit t) = []) as Hnone.
  { intros k. induction k as [|[q' d'] k IHk]; intros Hk; [done|].
    cbn in Hk. apply not_elem_of_cons in Hk as [Hk1 Hk2].
    rewrite bind_cons, filter_app, IHk by done. rewrite app_nil_r. unfold visit.
    case_decide; [|done]. rewrite filter_cons_False; [done|]. cbn in *. congruence. }
  apply elem_of_cons in Hin as [[= <- <-]|Hin].
  - rewrite Hnone by done. rewrite app_nil_r. unfold visit.
    case_decide; [|done]. by rewrite filter_cons_True.
  - rewrite Hne, IH; [done..|]. intros ->. apply Hq. cbn.
    by apply (list_elem_of_fmap_2 fst l (p, c)).
Qed.

Lemma of_iv_stripe_from t m l p c :
  NoDup l.*1 -> (p, c) ∈ l ->
  of_iv p (stripe_from t m l)
  = (fun t => Slot p t (bool_decide (c = S t))) <$> seq t (Nat.min m (c - t)).
Proof.
  intros Hnd Hin. revert t. induction m as [|m IH]; intros t; [done|].
  cbn [stripe_from]. rewrite of_iv_app, IH, (of_iv_visits t l p c) by done.
  destruct (decide (t < c)%nat).
  - rewrite visit_lt by done. replace (Nat.min (S m) (c - t)) with (S (Nat.min m (c - S t))) by lia.
    done.
  - rewrite visit_ge by lia. replace (c - t)%nat with O by lia.
    replace (c - S t)%nat with O by lia. by rewrite !Nat.min_0_r.
Qed.

Lemma share_le_passes l p c : (p, c) ∈ l -> (c <= passes l)%nat.
Proof.
  induction l as [|[q d] l IH]; intros Hin; [by apply not_elem_of_nil in Hin|].
  cbn. fold (passes l). apply elem_of_cons in Hin as [[= -> ->]|Hin]; [lia|].
  specialize (IH Hin). lia.
Qed.

(** The I/Os of one interval are its passes [0 .. c-1], in order, and only the
    last one is marked. *)
Lemma of_iv_stripe l p c :
  NoDup l.*1 -> (p, c) ∈ l ->
  of_iv p (stripe l) = (fun t => Slot p t (bool_decide (c = S t))) <$> seq 0 c.
Proof.
  intros Hnd Hin. unfold stripe. rewrite (of_iv_stripe_from 0 _ l p c) by done.
  pose proof (share_le_passes l p c Hin). by rewrite Nat.min_r, Nat.sub_0_r by lia.
Qed.

Lemma stripe_iv l s : s ∈ stripe l -> exists c, (sl_iv s, c) ∈ l /\ (sl_pass s < c)%nat.
Proof.
  unfold stripe. generalize (passes l) as m. generalize O as t. intros t m. revert t.
  induction m as [|m IH]; intros t Hs; [by apply not_elem_of_nil in Hs|].
  cbn [stripe_from] in Hs. apply elem_of_app in Hs as [Hs|Hs]; [|eauto].
  apply list_elem_of_bind in Hs as ([p c] & Hs & Hin). unfold visit in Hs.
  case_decide; [|by apply not_elem_of_nil in Hs].
  apply list_elem_of_singleton in Hs as ->. eauto.
Qed.
