(* ===== verification/Transfer.v ===== *)
(** Correctness of the striped transfers of env/Zone.cpp, for every
    interleaving of the transfer threads. *)
From S2P Require Import Prelude Nvme Controller Zone Stripe.
From stdpp Require Import base numbers list gmap strings.
From Stdlib Require Import ZArith Lia.
Local Open Scope Z_scope.

(** ** Interleavings *)

Lemma interleave_perm sched ths : interleave_threads sched ths ≡ₚ concat ths.
Proof.
  revert ths. induction sched as [|i sched IH]; intros ths; [done|].
  cbn [interleave_threads]. destruct (ths !! i) as [[|c cs]|] eqn:Hi; [apply IH| |apply IH].
  rewrite IH. rewrite <- (list_insert_id ths i (c :: cs) Hi) at 2.
  pose proof (lookup_lt_Some _ _ _ Hi) as Hlt.
  rewrite !(insert_take_drop _ _ _ Hlt), !concat_app. cbn [concat app].
  by rewrite Permutation_middle.
Qed.

Lemma interleave_elem sched ths c :
  c ∈ interleave_threads sched ths <-> exists th, th ∈ ths /\ c ∈ th.
Proof.
  rewrite (interleave_perm sched ths), list_elem_of_In, in_concat.
  setoid_rewrite <- list_elem_of_In. done.
Qed.

Lemma filter_none {A} (P : A -> Prop) `{!forall x, Decision (P x)} (l : list A) :
  Forall (fun x => ~ P x) l -> filter P l = [].
Proof. induction 1 as [|x l Hx _ IH]; [done|]. by rewrite filter_cons_False. Qed.

(** What concerns only thread [j] happens in the order of thread [j]. *)
Lemma interleave_filter (P : io_cmd -> Prop) `{!forall c, Decision (P c)} sched ths j th :
  ths !! j = Some th ->
  (forall i th', i <> j -> ths !! i = Some th' -> Forall (fun c => ~ P c) th') ->
  filter P (interleave_threads sched ths) = filter P th.
Proof.
  revert ths th. induction sched as [|i sched IH]; intros ths th Hj Hother.
  - cbn. rewrite <- (list_insert_id ths j th Hj).
    pose proof (lookup_lt_Some _ _ _ Hj) as Hlt.
    rewrite (insert_take_drop _ _ _ Hlt), concat_app. cbn [concat].
    assert (forall k, Forall (Forall (fun c => ~ P c)) k -> filter P (concat k) = []) as Hnone.
    { intros k Hk. induction Hk as [|x k Hx Hk IHk]; [done|]. cbn.
      rewrite filter_app, IHk. by rewrite (filter_none P x). }
    rewrite !filter_app, !Hnone, app_nil_r; [done| |].
    + apply Forall_lookup_2. intros i' th'. rewrite lookup_drop. apply Hother. lia.
    + apply Forall_lookup_2. intros i' th' [Hl Hi']%lookup_take_Some. apply (Hother i'); [lia|done].
  - cbn [interleave_threads]. destruct (ths !! i) as [[|c cs]|] eqn:Hi; [by apply IH| |by apply IH].
    pose proof (lookup_lt_Some _ _ _ Hi) as Hlt.
    destruct (decide (i = j)) as [->|Hne].
    + simplify_eq. destruct (decide (P c)).
      * rewrite !filter_cons_True by done. f_equal.
        apply IH; [by apply list_lookup_insert_eq|].
        intros i' th' Hi'. rewrite list_lookup_insert_ne by done. by apply Hother.
      * rewrite !filter_cons_False by done.
        apply IH; [by apply list_lookup_insert_eq|].
        intros i' th' Hi'. rewrite list_lookup_insert_ne by done. by apply Hother.
    + pose proof (Hother i _ Hne Hi) as Hc. apply Forall_cons in Hc as [Hc Hcs].
      rewrite filter_cons_False by done. apply IH; [by rewrite list_lookup_insert_ne|].
      intros i' th' Hi'. destruct (decide (i' = i)) as [->|].
      * rewrite list_lookup_insert_eq by done. by intros [= <-].
      * rewrite list_lookup_insert_ne by done. by apply Hother.
Qed.

(** If at most one thread is concerned, the interleaving does not matter. *)
Lemma interleave_filter_concat (P : io_cmd -> Prop) `{!forall c, Decision (P c)} sched ths :
  (forall i j c c' th th', ths !! i = Some th -> ths !! j = Some th' ->
     c ∈ th -> c' ∈ th' -> P c -> P c' -> i = j) ->
  filter P (interleave_threads sched ths) = filter P (concat ths).
Proof.
  intros Hone. destruct (decide (Exists (Exists P) ths)) as [Hex|Hno].
  - apply Exists_exists in Hex as (th & Hth & Hex). apply Exists_exists in Hex as (c & Hc & HPc).
    apply list_elem_of_lookup in Hth as (j & Hj).
    assert (forall i th', i <> j -> ths !! i = Some th' -> Forall (fun c => ~ P c) th') as Hoth.
    { intros i th' Hne Hi. apply Forall_forall. intros c' Hc' HP. apply Hne. eauto. }
    rewrite (interleave_filter P sched ths j th Hj Hoth).
    symmetry. apply (interleave_filter P [] ths j th Hj Hoth).
  - assert (forall cs, (forall c, c ∈ cs -> exists th, th ∈ ths /\ c ∈ th) -> filter P cs = []) as Hnil.
    { intros cs Hcs. apply filter_none, Forall_forall. intros c Hc HP. apply Hno.
      destruct (Hcs c Hc) as (th & ? & ?). apply Exists_exists. exists th. split; [done|].
      apply Exists_exists. eauto. }
    rewrite !Hnil; [done|..].
    + intros c. apply (interleave_elem [] ths).
    + intros c. apply interleave_elem.
Qed.

(** ** What a sequence of commands does to one interval *)

Definition cmd_iv (c : io_cmd) : nat :=
  match c with SetZone iv _ | WriteIo _ iv | SetEnd iv | ReadIo _ iv _ => iv end.

(** The commands that change interval [p] or its zone. *)
Definition touches (p : nat) (c : io_cmd) : Prop :=
  match c with WriteIo _ iv | SetEnd iv => iv = p | _ => False end.
#[global] Instance touches_dec p c : Decision (touches p c).
Proof. destruct c; cbn; apply _. Defined.

(** The buffers written to the zone of interval [p] so far, and how many of
    them were there when its end was last recorded. *)
Definition track (p : nat) (st : list ptr * option nat) (c : io_cmd) : list ptr * option nat :=
  match c with
  | WriteIo b iv => if decide (iv = p) then (st.1 ++ [b], st.2) else st
  | SetEnd iv => if decide (iv = p) then (st.1, Some (length st.1)) else st
  | _ => st
  end.
Definition trace (p : nat) (cs : list io_cmd) : list ptr * option nat :=
  foldl (track p) ([], None) cs.

Lemma trace_snoc p cs c : trace p (cs ++ [c]) = track p (trace p cs) c.
Proof. unfold trace. by rewrite foldl_app. Qed.

Lemma track_not_touches p st c : ~ touches p c -> track p st c = st.
Proof. destruct c; cbn; try done; intros; by rewrite decide_False. Qed.

Lemma trace_filter p cs : trace p cs = trace p (filter (touches p) cs).
Proof.
  unfold trace. generalize (@nil ptr, @None nat) as st.
  induction cs as [|c cs IH]; intros st; [done|]. cbn [foldl].
  destruct (decide (touches p c)).
  - rewrite filter_cons_True by done. cbn. apply IH.
  - rewrite filter_cons_False, track_not_touches by done. apply IH.
Qed.

Lemma trace_prefix p pre post :
  (length (trace p pre).1 <= length (trace p (pre ++ post)).1)%nat.
Proof.
  unfold trace. rewrite foldl_app. generalize (foldl (track p) ([], None) pre) as st.
  induction post as [|c post IH]; intros st; cbn [foldl]; [done|].
  etransitivity; [|apply IH]. destruct c; cbn; try case_decide; cbn; rewrite ?length_app; lia.
Qed.

(** The I/Os of one interval in a placed stripe. *)
Definition placed_at (p : nat) (bss : list (ptr * slot)) : list (ptr * slot) :=
  filter (fun bs => sl_iv bs.2 = p) bss.

Lemma placed_at_cons p b s bss :
  placed_at p ((b, s) :: bss) =
  if decide (sl_iv s = p) then (b, s) :: placed_at p bss else placed_at p bss.
Proof.
  unfold placed_at. case_decide; [by rewrite filter_cons_True|by rewrite filter_cons_False].
Qed.

Lemma placed_at_snd p bss : (placed_at p bss).*2 = of_iv p bss.*2.
Proof.
  induction bss as [|[b s] bss IH]; [done|]. rewrite placed_at_cons. unfold of_iv in *.
  cbn [fmap list_fmap snd]. case_decide.
  - rewrite filter_cons_True by done. cbn. by f_equal.
  - by rewrite filter_cons_False.
Qed.

Lemma touches_placed p bss :
  filter (touches p) (bss ≫= put_cmds) = placed_at p bss ≫= put_cmds.
Proof.
  induction bss as [|[b s] bss IH]; [done|].
  rewrite placed_at_cons, bind_cons, filter_app, IH. case_decide as He.
  - rewrite bind_cons. f_equal. unfold put_cmds. cbn [fst snd].
    rewrite filter_cons_True by done. destruct (sl_last s); [|done]. by rewrite filter_cons_True.
  - unfold put_cmds at 1. cbn [fst snd]. rewrite filter_cons_False by done.
    destruct (sl_last s); [|done]. by rewrite filter_cons_False.
Qed.

(** Writing passes [t .. c-1] of an interval, the end recorded at the last. *)
Lemma track_passes p c n : forall t bs0 e bss,
  (t + n = c)%nat -> length bs0 = t ->
  bss.*2 = (fun t => Slot p t (bool_decide (c = S t))) <$> seq t n ->
  foldl (track p) (bs0, e) (bss ≫= put_cmds)
  = (bs0 ++ bss.*1, if decide (n = O) then e else Some c).
Proof.
  induction n as [|n IH]; intros t bs0 e bss Ht Hb HF.
  { apply (f_equal length) in HF. rewrite !length_fmap, length_seq in HF.
    apply nil_length_inv in HF as ->. cbn. by rewrite app_nil_r. }
  destruct bss as [|[b s] bss]; [done|]. cbn [seq fmap list_fmap snd] in HF.
  injection HF as -> HF. rewrite bind_cons, foldl_app.
  change (put_cmds (b, Slot p t ?x)) with (WriteIo b p :: if x then [SetEnd p] else []).
  rewrite decide_False by done. cbn [fmap list_fmap fst].
  case_bool_decide as Hlast.
  - assert (n = O) as -> by lia. cbn [foldl track fst snd]. rewrite !decide_True by done.
    apply (f_equal length) in HF. rewrite !length_fmap in HF. apply nil_length_inv in HF as ->.
    cbn. rewrite length_app. cbn. do 2 f_equal. lia.
  - cbn [foldl track fst snd]. rewrite decide_True by done.
    rewrite (IH (S t)); [|lia|rewrite length_app; cbn; lia|done].
    rewrite decide_False by lia. by rewrite <- app_assoc.
Qed.

(** The I/Os an interval with [c] of them receives. *)
Definition slots_of (p c : nat) : list slot :=
  (fun t => Slot p t (bool_decide (c = S t))) <$> seq 0 c.

(** The trace of commands that follow a list of slots. *)
Lemma trace_place sl p c buf cs :
  of_iv p sl = slots_of p c ->
  filter (touches p) cs = filter (touches p) (place buf sl ≫= put_cmds) ->
  trace p cs = ((placed_at p (place buf sl)).*1, if decide (c = O) then None else Some c).
Proof.
  intros Hsl Hcs. rewrite trace_filter, Hcs, touches_placed.
  apply (track_passes p c c 0); [done..|]. by rewrite placed_at_snd, place_snd.
Qed.

(** The buffer of pass [t] of interval [p] is the [t]-th one written to it. *)
Lemma placed_at_lookup sl p c buf t b :
  of_iv p sl = slots_of p c ->
  (exists s, (b, s) ∈ place buf sl /\ sl_iv s = p /\ sl_pass s = t) ->
  (placed_at p (place buf sl)).*1 !! t = Some b.
Proof.
  intros Hsl (s & Hb & Hp & Ht). set (F := placed_at p (place buf sl)).
  assert (F.*2 = slots_of p c) as HF by (unfold F; by rewrite placed_at_snd, place_snd).
  assert ((b, s) ∈ F) as Hb'.
  { unfold F, placed_at. by apply list_elem_of_filter. }
  apply list_elem_of_lookup in Hb' as (k & Hk).
  assert (F.*2 !! k = Some s) as Hs by (by rewrite list_lookup_fmap, Hk).
  rewrite HF in Hs. unfold slots_of in Hs. rewrite list_lookup_fmap in Hs.
  apply fmap_Some in Hs as (k' & Hk' & ->). apply lookup_seq in Hk' as [-> _].
  cbn in Ht. subst. by rewrite list_lookup_fmap, Hk.
Qed.

Lemma length_placed_at sl p c buf :
  of_iv p sl = slots_of p c -> length (placed_at p (place buf sl)) = c.
Proof.
  intros Hsl. rewrite <- (length_fmap snd), placed_at_snd, place_snd, Hsl.
  unfold slots_of. by rewrite length_fmap, length_seq.
Qed.

(** ** Executing the commands of write threads *)

Section WriteExec.
Context `{D : NvmeDevice} {zs nz : Z} `{Zd : !ZnsDevice D zs nz}.

(** The intervals a transfer writes: they exist, and lie in zones of the
    namespace, no two in the same one. *)
Record targets (ivs : list Interval) (P : list nat) : Prop := {
  tg_zone : forall p, p ∈ P -> exists i, ivs !! p = Some i /\ 0 <= zone_number i < nz;
  tg_inj : forall p q i j, p ∈ P -> q ∈ P -> ivs !! p = Some i -> ivs !! q = Some j ->
    zone_number i = zone_number j -> p = q }.

Definition cmd_wf (m : memory) (P : list nat) (c : io_cmd) : Prop :=
  match c with
  | SetZone iv v => iv ∈ P /\ (v = MAN_OPEN \/ v = MAN_CLOSE)
  | WriteIo b iv => iv ∈ P /\ is_Some (load m b IO_SIZE)
  | SetEnd iv => iv ∈ P
  | ReadIo _ _ _ => False
  end.

(** The state after the commands [cs], started with controller [c0] and
    interval heap [ivs0]. *)
Record written (c0 : ctl) (ivs0 : list Interval) (P : list nat) (cs : list io_cmd)
    (s : zst) : Prop := {
  wr_ok : ctl_ok (zs:=zs) (nz:=nz) (z_ctl s);
  wr_mem : host_mem (z_ctl s) = host_mem c0;
  wr_length : length (z_ivs s) = length ivs0;
  wr_heap : forall p i, ivs0 !! p = Some i ->
    z_ivs s !! p = Some (match (trace p cs).2 with
      | Some n => set_end (host_wp c0 (zone_number i) + IO_BLOCKS * Z.of_nat n) i
      | None => i end);
  wr_wp : forall p i, p ∈ P -> ivs0 !! p = Some i ->
    host_wp (z_ctl s) (zone_number i)
    = host_wp c0 (zone_number i) + IO_BLOCKS * Z.of_nat (length (trace p cs).1);
  wr_other : forall z, 0 <= z < nz ->
    (forall p i, p ∈ P -> ivs0 !! p = Some i -> zone_number i <> z) ->
    host_wp (z_ctl s) z = host_wp c0 z;
  wr_data : forall p i t b, p ∈ P -> ivs0 !! p = Some i -> (trace p cs).1 !! t = Some b ->
    load (host_mem c0) b IO_SIZE
    = Some (blocks (lba_data (device (z_ctl s)))
        (host_wp c0 (zone_number i) + IO_BLOCKS * Z.of_nat t) IO_BLOCKS);
  wr_frame : forall lba,
    (forall p i, p ∈ P -> ivs0 !! p = Some i ->
       lba < host_wp c0 (zone_number i) \/
       host_wp c0 (zone_number i) + IO_BLOCKS * Z.of_nat (length (trace p cs).1) <= lba) ->
    lba_data (device (z_ctl s)) lba = lba_data (device c0) lba }.

Lemma written_nil c0 ivs0 P : ctl_ok (zs:=zs) (nz:=nz) c0 -> written c0 ivs0 P [] (Zst c0 ivs0).
Proof.
  intros Hok. split; cbn; try done.
  intros. by rewrite Z.add_0_r.
Qed.

(** The interval a command addresses still has its zone. *)
Lemma written_interval c0 ivs0 P cs s p :
  targets ivs0 P -> written c0 ivs0 P cs s -> p ∈ P ->
  exists i j, ivs0 !! p = Some i /\ interval_at p s = Ret j s /\
    zone_number j = zone_number i /\ 0 <= zone_number i < nz.
Proof.
  intros Ht Hw Hp. destruct (tg_zone _ _ Ht p Hp) as (i & Hi & Hz).
  pose proof (wr_heap _ _ _ _ _ Hw p i Hi) as Hj. unfold interval_at. rewrite Hj.
  exists i. eexists. split; [done|]. split; [done|]. by destruct (trace p cs).2.
Qed.

Lemma exec_SetZone c0 ivs0 P cs s p v :
  targets ivs0 P -> written c0 ivs0 P cs s -> p ∈ P -> v = MAN_OPEN \/ v = MAN_CLOSE ->
  exists s', exec_cmd (SetZone p v) s = Ret tt s' /\ written c0 ivs0 P (cs ++ [SetZone p v]) s'.
Proof.
  intros Ht Hw Hp Hv. destruct (written_interval _ _ _ _ _ p Ht Hw Hp) as (i & j & Hi & Hj & Hz & Hr).
  destruct (zns_set_zone_ok (z_ctl s) (zone_number j) v (wr_ok _ _ _ _ _ Hw)) as (c' & Hc & Hs);
    [by rewrite Hz|done|].
  exists (Zst c' (z_ivs s)). split.
  { unfold exec_cmd. step_with Hj. by apply (zoom_Ret ctl_lens). }
  destruct Hw as [Hok Hm Hl Hh Hwp Ho Hd Hf].
  assert (forall q, trace q (cs ++ [SetZone p v]) = trace q cs) as Htr.
  { intros q. by rewrite trace_snoc. }
  split; cbn [z_ctl z_ivs]; try setoid_rewrite Htr; try done.
  - by rewrite <- Hs.
  - by rewrite (same_mem _ _ Hs).
  - intros. rewrite <- Hs. auto.
  - intros. rewrite <- Hs. auto.
  - intros q k t b Hq Hk Hb. rewrite (Hd q k t b Hq Hk Hb). f_equal. apply blocks_ext.
    intros. symmetry. apply (same_data _ _ Hs).
  - intros lba Hlba. rewrite (same_data _ _ Hs). auto.
Qed.

Lemma exec_SetEnd c0 ivs0 P cs s p :
  targets ivs0 P -> written c0 ivs0 P cs s -> p ∈ P ->
  exists s', exec_cmd (SetEnd p) s = Ret tt s' /\ written c0 ivs0 P (cs ++ [SetEnd p]) s'.
Proof.
  intros Ht Hw Hp. destruct (written_interval _ _ _ _ _ p Ht Hw Hp) as (i & j & Hi & Hj & Hz & Hr).
  pose proof (zns_get_wp_ok (z_ctl s) (zone_number j) (wr_ok _ _ _ _ _ Hw)) as Hget.
  rewrite Hz in Hget. specialize (Hget Hr). rewrite (wr_wp _ _ _ _ _ Hw p i Hp Hi) in Hget.
  eexists. split.
  { unfold exec_cmd. step_with Hj. rewrite Hz. erewrite bind_Ret by (by apply (zoom_Ret ctl_lens)).
    done. }
  destruct Hw as [Hok Hm Hl Hh Hwp Ho Hd Hf].
  assert (forall q, (trace q (cs ++ [SetEnd p])).1 = (trace q cs).1) as Htr.
  { intros q. rewrite trace_snoc. cbn [track]. by case_decide. }
  split; cbn [z_ctl z_ivs set ctl_lens]; try setoid_rewrite Htr; try done.
  - by rewrite length_alter.
  - intros q k Hk. rewrite trace_snoc. cbn [track]. case_decide as Hq.
    + subst. rewrite list_lookup_alter_eq, (Hh q k Hk). cbn. simplify_eq.
      by destruct (trace q cs).2.
    + rewrite list_lookup_alter_ne by done. auto.
Qed.

Lemma zones_apart (z z' x a n : Z) :
  z <> z' -> z * zs <= x < (z + 1) * zs -> z' * zs <= a -> a + n <= (z' + 1) * zs ->
  x < a \/ a + n <= x.
Proof. intros. destruct (decide (z < z')); [left|right]; nia. Qed.

Lemma exec_WriteIo c0 ivs0 P cs s p b :
  ctl_ok (zs:=zs) (nz:=nz) c0 -> targets ivs0 P -> written c0 ivs0 P cs s -> p ∈ P ->
  is_Some (load (host_mem c0) b IO_SIZE) ->
  (forall i, ivs0 !! p = Some i ->
     IO_BLOCKS * Z.of_nat (S (length (trace p cs).1)) <= free_blocks (zs:=zs) c0 (zone_number i)) ->
  exists s', exec_cmd (WriteIo b p) s = Ret tt s' /\ written c0 ivs0 P (cs ++ [WriteIo b p]) s'.
Proof.
  intros Hok0 Ht Hw Hp [bs Hbs] Hroom.
  destruct (written_interval _ _ _ _ _ p Ht Hw Hp) as (i & j & Hi & Hj & Hz & Hr).
  specialize (Hroom i Hi). pose proof (wr_wp _ _ _ _ _ Hw p i Hp Hi) as Hwpi.
  pose proof (host_wp_range c0 (zone_number i) Hok0 Hr) as Hrng.
  destruct (zns_write_ok (z_ctl s) b IO_BLOCKS (zone_number i) bs (wr_ok _ _ _ _ _ Hw) Hr)
    as (c' & Hc & Hwr).
  { done. }
  { unfold free_blocks in *. rewrite Hwpi. lia. }
  { by rewrite (wr_mem _ _ _ _ _ Hw). }
  exists (Zst c' (z_ivs s)). split.
  { unfold exec_cmd. step_with Hj. rewrite Hz.
    erewrite bind_Ret by (by apply (zoom_Ret ctl_lens)). done. }
  assert (forall q k, q ∈ P -> ivs0 !! q = Some k -> q <> p -> zone_number k <> zone_number i) as Hdis.
  { intros q k Hq Hk Hne He. apply Hne. by apply (tg_inj _ _ Ht q p k i). }
  assert (forall q, q <> p -> trace q (cs ++ [WriteIo b p]) = trace q cs) as Hsame.
  { intros q Hq. rewrite trace_snoc. cbn [track]. by rewrite decide_False. }
  assert (trace p (cs ++ [WriteIo b p]) = ((trace p cs).1 ++ [b], (trace p cs).2)) as Hnew.
  { rewrite trace_snoc. cbn [track]. by rewrite decide_True. }
  destruct Hw as [Hok Hm Hl Hh Hwp Ho Hd Hf]. destruct Hwr as [Wok Wm Wwp Wo Wd Wf].
  rewrite Hwpi in Wwp, Wd, Wf.
  split; cbn [z_ctl z_ivs]; try done.
  - congruence.
  - intros q k Hk. rewrite (Hh q k Hk). destruct (decide (q = p)) as [->|Hne].
    + by rewrite Hnew.
    + by rewrite Hsame.
  - intros q k Hq Hk. destruct (decide (q = p)) as [->|Hne].
    + simplify_eq. rewrite Hnew, Wwp. cbn. rewrite length_app. cbn. lia.
    + destruct (tg_zone _ _ Ht q Hq) as (k' & Hk' & Hzk). simplify_eq.
      rewrite Hsame by done. rewrite Wo by eauto. auto.
  - intros z Hz' Hnot. rewrite Wo; [auto|done|]. intros ->. by apply (Hnot p i).
  - intros q k t b' Hq Hk Hb'. destruct (decide (q = p)) as [->|Hne].
    + rewrite Hk in Hi. injection Hi as <-. rewrite Hnew in Hb'. apply lookup_app_Some in Hb' as [Hb'|[Hlen Hb']].
      * rewrite (Hd p k t b' Hq Hk Hb'). f_equal. apply blocks_ext. intros x Hx. symmetry.
        apply Wf. apply lookup_lt_Some in Hb'. unfold IO_BLOCKS in *. lia.
      * apply list_lookup_singleton_Some in Hb' as [Ht0 <-].
        assert (t = length (trace p cs).1) as -> by lia. by rewrite Hbs, Wd.
    + rewrite Hsame in Hb' by done. rewrite (Hd q k t b' Hq Hk Hb'). f_equal.
      apply blocks_ext. intros x Hx. symmetry. apply Wf.
      destruct (tg_zone _ _ Ht q Hq) as (k' & Hk' & Hzk). simplify_eq.
      pose proof (host_wp_range _ _ Hok Hzk) as Hrq. rewrite (Hwp q k Hq Hk) in Hrq.
      pose proof (host_wp_range c0 _ Hok0 Hzk) as Hrq0. apply lookup_lt_Some in Hb'.
      apply (zones_apart (zone_number k) (zone_number i)); [eauto|..];
        unfold free_blocks, IO_BLOCKS in *; lia.
  - intros lba Hlba. rewrite Wf.
    + apply Hf. intros q k Hq Hk. specialize (Hlba q k Hq Hk).
      destruct (decide (q = p)) as [->|Hne]; [|by rewrite Hsame in Hlba].
      rewrite Hnew in Hlba. cbn in Hlba. rewrite length_app in Hlba. cbn in Hlba.
      unfold IO_BLOCKS in *. lia.
    + specialize (Hlba p i Hp Hi). rewrite Hnew in Hlba. cbn in Hlba.
      rewrite length_app in Hlba. cbn in Hlba. unfold IO_BLOCKS in *. lia.
Qed.

(** Any well-formed sequence of commands for which there is room succeeds. *)
Lemma exec_writes c0 ivs0 P cs :
  ctl_ok (zs:=zs) (nz:=nz) c0 -> targets ivs0 P -> Forall (cmd_wf (host_mem c0) P) cs ->
  (forall p i, p ∈ P -> ivs0 !! p = Some i ->
     IO_BLOCKS * Z.of_nat (length (trace p cs).1) <= free_blocks (zs:=zs) c0 (zone_number i)) ->
  exists s, iterM exec_cmd cs (Zst c0 ivs0) = Ret tt s /\ written c0 ivs0 P cs s.
Proof.
  intros Hok Ht Hwf Hroom. apply (iterM_invariant _ (written c0 ivs0 P)); [by apply written_nil|].
  intros pre c post s -> Hw.
  assert (cmd_wf (host_mem c0) P c) as Hc.
  { apply Forall_app in Hwf as [_ Hwf]. by apply Forall_cons in Hwf as [? _]. }
  destruct c as [p v|b p|p|]; cbn in Hc; [| | |done].
  - destruct Hc. by apply exec_SetZone.
  - destruct Hc as [Hp Hb]. apply exec_WriteIo; try done. intros i Hi.
    specialize (Hroom p i Hp Hi). pose proof (trace_prefix p (pre ++ [WriteIo b p]) post) as Hpre.
    rewrite <- app_assoc in Hpre. cbn [app] in Hpre. rewrite trace_snoc in Hpre. cbn [track] in Hpre.
    rewrite decide_True in Hpre by done. cbn [fst] in Hpre. rewrite length_app in Hpre.
    cbn [length] in Hpre. unfold IO_BLOCKS in *. lia.
  - by apply exec_SetEnd.
Qed.
End WriteExec.

(** ** Executing the commands of read threads *)


Definition cmd_buf (c : io_cmd) : option ptr :=
  match c with WriteIo b _ | ReadIo b _ _ => Some b | _ => None end.

Definition apart (b b' : ptr) : Prop :=
  p_blk b = p_blk b' -> p_off b + IO_SIZE <= p_off b' \/ p_off b' + IO_SIZE <= p_off b.

Section ReadExec.
Context `{D : NvmeDevice} {zs nz : Z} `{Zd : !ZnsDevice D zs nz}.

(** Reads of blocks of the namespace, into pieces of allocated memory. *)
Definition read_wf (c0 : ctl) (ivs : list Interval) (c : io_cmd) : Prop :=
  match c with
  | ReadIo b iv lba =>
    is_Some (ivs !! iv) /\ 0 <= lba /\ lba + IO_BLOCKS <= nz * zs /\
    is_Some (load (host_mem c0) b IO_SIZE)
  | _ => False
  end.

Record has_read (c0 : ctl) (ivs : list Interval) (cs : list io_cmd) (s : zst) : Prop := {
  rd_ivs : z_ivs s = ivs;
  rd_store : same_store (set_device (device c0) (host_mem (z_ctl s)) c0) (z_ctl s);
  rd_data : forall b iv lba, ReadIo b iv lba ∈ cs ->
    load (host_mem (z_ctl s)) b IO_SIZE = Some (blocks (lba_data (device c0)) lba IO_BLOCKS);
  rd_mem : same_outside (host_mem c0) (host_mem (z_ctl s)) (omap cmd_buf cs) IO_SIZE }.

(** The store of the controller does not depend on the host memory. *)
Lemma ctl_ok_mem c m : ctl_ok (zs:=zs) (nz:=nz) c -> ctl_ok (set_device (device c) m c).
Proof. intros []. by split. Qed.

Lemma length_io_blocks d lba :
  Z.of_nat (length (blocks (lba_data d) lba IO_BLOCKS)) = IO_SIZE.
Proof. by rewrite length_blocks by (done || apply lba_data_length). Qed.

Lemma exec_ReadIo c0 ivs cs s b p lba :
  ctl_ok (zs:=zs) (nz:=nz) c0 -> has_read c0 ivs cs s -> read_wf c0 ivs (ReadIo b p lba) ->
  (forall b', b' ∈ omap cmd_buf cs -> apart b b') ->
  exists s', exec_cmd (ReadIo b p lba) s = Ret tt s' /\ has_read c0 ivs (cs ++ [ReadIo b p lba]) s'.
Proof.
  intros Hok [Hivs Hst Hd [Hlen Hout]] ([i Hi] & Hl & Hend & Hb) Hap.
  assert (ctl_ok (z_ctl s)) as Hok' by (rewrite <- Hst; by apply ctl_ok_mem).
  assert (blocks (lba_data (device (z_ctl s))) lba IO_BLOCKS
    = blocks (lba_data (device c0)) lba IO_BLOCKS) as Hbl.
  { apply blocks_ext. intros. apply (same_data _ _ Hst). }
  destruct (store_is_Some (host_mem (z_ctl s)) (host_mem c0) b
    (blocks (lba_data (device c0)) lba IO_BLOCKS)) as [m' Hm']; [done|by rewrite length_io_blocks|].
  destruct (zns_read_ok (z_ctl s) b IO_BLOCKS (zone_number i) lba m' Hok') as (c' & Hc & Hs);
    [done..|by rewrite Hbl|].
  exists (Zst c' (z_ivs s)). split.
  { unfold exec_cmd, interval_at, mbind at 1, prog_bind at 1. rewrite Hivs, Hi.
    erewrite bind_Ret by (by apply (zoom_Ret ctl_lens)). cbn. by rewrite Hivs. }
  pose proof (same_mem _ _ Hs) as Hmem. cbn in Hmem.
  split; cbn [z_ctl z_ivs]; rewrite ?Hmem.
  - done.
  - rewrite <- Hs. destruct Hst. by split.
  - intros b' iv' lba' [Hin|Hin]%elem_of_app.
    + rewrite <- (Hd b' iv' lba' Hin). eapply load_store_ne; [done|]. intros He.
      rewrite length_io_blocks. destruct (Hap b'); [|done|lia|lia].
      apply list_elem_of_omap. by exists (ReadIo b' iv' lba').
    + apply list_elem_of_singleton in Hin as [= -> -> ->].
      eapply load_store_eq; [|done]. apply length_io_blocks.
  - split.
    + intros b'. rewrite <- Hlen. by apply (store_lengths _ _ _ _ Hm').
    + intros q k Hq. rewrite (load_store_ne _ _ _ _ q k Hm').
      * apply Hout. intros b' Hb'. apply Hq. rewrite omap_app. apply elem_of_app. by left.
      * rewrite length_io_blocks. intros He. apply Hq; [|done]. rewrite omap_app.
        apply elem_of_app. right. by apply list_elem_of_singleton.
Qed.

(** Reads into pieces of memory that do not overlap all take effect, in
    whatever order they are executed. *)
Lemma exec_reads c0 ivs cs :
  ctl_ok (zs:=zs) (nz:=nz) c0 -> Forall (read_wf c0 ivs) cs ->
  NoDup (omap cmd_buf cs) ->
  (forall b b', b ∈ omap cmd_buf cs -> b' ∈ omap cmd_buf cs -> b <> b' -> apart b b') ->
  exists s, iterM exec_cmd cs (Zst c0 ivs) = Ret tt s /\ has_read c0 ivs cs s.
Proof.
  intros Hok Hwf Hnd Hap. apply (iterM_invariant _ (has_read c0 ivs)).
  { split; cbn; [done| |by intros ? ? ? ?%not_elem_of_nil|apply same_outside_nil].
    by split. }
  intros pre c post s -> Hr. apply Forall_app in Hwf as [_ Hwf].
  apply Forall_cons in Hwf as [Hc _]. destruct c as [| | |b p lba]; try done.
  apply exec_ReadIo; [done..|]. rewrite omap_app in Hnd, Hap.
  apply NoDup_app in Hnd as (_ & Hnd & _). intros b' Hb'. apply Hap.
  - apply elem_of_app. right. cbn. apply elem_of_cons. by left.
  - apply elem_of_app. by left.
  - intros <-. apply (Hnd b Hb'). cbn. apply elem_of_cons. by left.
Qed.
End ReadExec.
