(* ===== verification/Rounds.v ===== *)
(** The rounds of [izg_write] and [izg_read]: how the interval vector is cut
    into rounds and threads, and the round trip of a transfer. *)
From S2P Require Import Prelude Nvme Controller Zone Stripe Transfer.
From stdpp Require Import base numbers list gmap strings.
From Stdlib Require Import ZArith Lia.
Local Open Scope Z_scope.

(** ** Cutting the interval vector *)

(** The numbers of zones the threads of a round get. *)
Fixpoint thread_counts (n : nat) (j izg_cnt left : Z) : list nat :=
  match n with
  | O => []
  | S n' =>
    let cnt := zones_for_thread izg_cnt left j in
    Z.to_nat cnt :: thread_counts n' (j + 1) izg_cnt (u32 (left - cnt))
  end.

Fixpoint cut {A} (cnts : list nat) (l : list A) : list (list A) :=
  match cnts with
  | [] => []
  | c :: cnts' => take c l :: cut cnts' (drop c l)
  end.

Lemma concat_cut {A} cnts (l : list A) : concat (cut cnts l) = take (sum_list cnts) l.
Proof.
  revert l. induction cnts as [|c cnts IH]; intros l; [done|]. cbn.
  by rewrite IH, take_take_drop.
Qed.

Lemma sum_list_cons (c : nat) l : sum_list (c :: l) = (c + sum_list l)%nat.
Proof. done. Qed.

(** The group sizes for which every round uses each of its zones once. *)
Definition good_cnt (n : Z) : Prop := 0 < n < 2 ^ 20 /\ (n <= 16 \/ n mod 8 = 0).

(** Thread [j] of a round with the threads before it served: eight zones each. *)
Lemma zones_for_thread_inner n left j :
  n mod 8 = 0 -> 0 <= j -> 8 * (j + 1) <= n -> n - 8 * j <= left ->
  zones_for_thread n left j = 8.
Proof.
  intros. unfold zones_for_thread, THREAD_PER_IZG. pose proof (Z.div_mod n 8 ltac:(lia)).
  bool_to_Prop; lia.
Qed.

Lemma thread_counts_mul8 k : forall j n left,
  n mod 8 = 0 -> 0 <= j -> n = 8 * (j + Z.of_nat k) -> n - 8 * j <= left < 2 ^ 32 ->
  thread_counts k j n left = replicate k 8%nat.
Proof.
  induction k as [|k IH]; intros j n left Hm Hj Hn Hl; [done|]. cbn [thread_counts replicate].
  rewrite zones_for_thread_inner by (done || lia). f_equal.
  rewrite u32_small by lia. apply IH; lia.
Qed.

(** A round takes exactly [n] zones. *)
Lemma thread_counts_sum n left :
  good_cnt n -> n <= left < 2 ^ 32 -> left mod n = 0 ->
  sum_list (thread_counts (Z.to_nat (thread_num n)) 0 n left) = Z.to_nat n.
Proof.
  intros [Hn Hgood] Hl Hmod. destruct (decide (n mod 8 = 0)) as [H8|H8].
  - unfold thread_num, THREAD_PER_IZG. rewrite H8. cbn [Z.eqb]. rewrite Z.add_0_r.
    pose proof (Z.div_mod n 8 ltac:(lia)). pose proof (Z.div_pos n 8).
    rewrite thread_counts_mul8 by lia. rewrite sum_list_replicate. lia.
  - destruct Hgood as [Hsmall|]; [|done].
    assert (left = n \/ 2 * n <= left) as Hcase.
    { pose proof (Z.div_mod left n ltac:(lia)) as Hd. rewrite Hmod in Hd.
      assert (1 <= left / n) by (apply Z.div_le_lower_bound; lia).
      destruct (decide (left / n = 1)) as [He|]; [rewrite He in Hd; lia|nia]. }
    unfold thread_num, THREAD_PER_IZG. rewrite (proj2 (Z.eqb_neq _ _) H8).
    assert (n < 8 \/ 8 < n < 16) as [Hlt|Hlt].
    { destruct (decide (n = 8)) as [->|]; [done|]. destruct (decide (n = 16)) as [->|]; [done|]. lia. }
    + rewrite Z.div_small by lia. cbn [thread_counts Z.to_nat Z.add Pos.to_nat Pos.iter_op sum_list].
      change (Z.to_nat (0 + 1)) with 1%nat. cbn [thread_counts sum_list]; unfold id.
      unfold zones_for_thread, THREAD_PER_IZG.
      destruct (Z.ltb_spec n left); bool_to_Prop; lia.
    + assert (n / 8 = 1) as -> by (symmetry; apply (Z.div_unique n 8 1 (n - 8)); lia).
      change (Z.to_nat (1 + 1)) with 2%nat. cbn [thread_counts sum_list]; unfold id.
      assert (zones_for_thread n left 0 = 8) as ->.
      { unfold zones_for_thread, THREAD_PER_IZG. bool_to_Prop; lia. }
      rewrite u32_small by lia.
      assert (zones_for_thread n (left - 8) (0 + 1) = n - 8) as ->; [|lia].
      unfold zones_for_thread, THREAD_PER_IZG.
      destruct (Z.ltb_spec n (left - 8)); bool_to_Prop; try lia; rewrite u32_small; lia.
Qed.

(** The groups of every round: one list of shares for each thread. *)
Fixpoint rounds_of (r : nat) (n : Z) (l : shares) : list (list shares) :=
  match r with
  | O => []
  | S r' => cut (thread_counts (Z.to_nat (thread_num n)) 0 n (Z.of_nat (length l))) l
            :: rounds_of r' n (drop (Z.to_nat n) l)
  end.

Lemma concat_rounds_of r n l :
  good_cnt n -> Z.of_nat (length l) = Z.of_nat r * n -> Z.of_nat (length l) < 2 ^ 32 ->
  concat (concat (rounds_of r n l)) = l.
Proof.
  intros Hgood. pose proof Hgood as [Hn _]. revert l. induction r as [|r IH]; intros l Hl Hfit.
  { destruct l; [done|]. cbn in Hl. lia. }
  cbn [rounds_of concat]. rewrite concat_app, concat_cut, thread_counts_sum.
  - rewrite IH, take_drop; [done|..]; rewrite length_drop; lia.
  - done.
  - nia.
  - rewrite Hl. apply Z.mod_mul. lia.
Qed.

(** The IOs of a list of shares, and its parts. *)
Lemma ios_app l1 l2 : ios (l1 ++ l2) = (ios l1 + ios l2)%nat.
Proof.
  unfold ios. induction l1 as [|[p c] l1 IH]; [done|]. cbn [todo foldr app].
  fold (todo 0 (l1 ++ l2)). fold (todo 0 l1). rewrite IH. lia.
Qed.

Lemma ios_concat_le gs g : g ∈ gs -> (ios g <= ios (concat gs))%nat.
Proof.
  induction gs as [|h gs IH]; intros Hg; [by apply not_elem_of_nil in Hg|]. cbn.
  rewrite ios_app. apply elem_of_cons in Hg as [->|Hg]; [|specialize (IH Hg)]; lia.
Qed.

Definition sizes (l : shares) : list Z := (fun pc => Z.of_nat pc.2) <$> l.

Lemma length_sizes l : length (sizes l) = length l.
Proof. apply length_fmap. Qed.
Lemma take_sizes n l : take n (sizes l) = sizes (take n l).
Proof. symmetry. apply fmap_take. Qed.
Lemma drop_sizes n l : drop n (sizes l) = sizes (drop n l).
Proof. symmetry. apply fmap_drop. Qed.

Lemma foldr_sizes l : foldr Z.add 0 (sizes l) = Z.of_nat (ios l).
Proof.
  unfold ios. induction l as [|[p c] l IH]; [done|]. cbn [sizes fmap list_fmap foldr todo snd].
  fold (sizes l). fold (todo 0 l). rewrite IH. lia.
Qed.

(** ** The requests of a round *)

Definition next_buf (buf : ptr) (l : shares) : ptr := ptr_add buf (IO_SIZE * Z.of_nat (ios l)).

Lemma next_buf_app buf l1 l2 : next_buf (next_buf buf l1) l2 = next_buf buf (l1 ++ l2).
Proof. unfold next_buf. rewrite ptr_add_add, ios_app. f_equal. lia. Qed.

Fixpoint requests (buf : ptr) (gs : list shares) : list zone_request :=
  match gs with
  | [] => []
  | g :: gs' => ZoneRequest buf g.*1 (sizes g) (Z.of_nat (length g)) (Z.of_nat (ios g))
                :: requests (next_buf buf g) gs'
  end.

Definition cursor_at (buf : ptr) (l : shares) : cursor :=
  Cursor buf l.*1 (sizes l) (Z.of_nat (length l)).

Lemma zones_for_thread_nonneg n left j : 0 < n -> 0 <= left -> 0 <= zones_for_thread n left j.
Proof.
  intros. unfold zones_for_thread, THREAD_PER_IZG. pose proof (u32_range (n - 8)). bool_to_Prop; lia.
Qed.

Lemma write_requests_cut k : forall j n buf l,
  0 < n -> IO_SIZE * Z.of_nat (ios l) < 2 ^ 32 -> Z.of_nat (length l) < 2 ^ 32 ->
  (sum_list (thread_counts k j n (Z.of_nat (length l))) <= length l)%nat ->
  let cnts := thread_counts k j n (Z.of_nat (length l)) in
  write_requests k j n (cursor_at buf l)
  = Some (requests buf (cut cnts l),
          cursor_at (next_buf buf (take (sum_list cnts) l)) (drop (sum_list cnts) l)).
Proof.
  induction k as [|k IH]; intros j n buf l Hn Hfit Hlen Hsum; cbn [thread_counts] in *.
  { cbn. unfold next_buf. cbn. by rewrite Z.mul_0_r, ptr_add_0. }
  rewrite sum_list_cons in Hsum. cbn [write_requests cursor_at cu_left cu_ivs cu_ws cu_buf].
  pose proof (zones_for_thread_nonneg n (Z.of_nat (length l)) j Hn ltac:(lia)) as Hz.
  set (cnt := zones_for_thread n (Z.of_nat (length l)) j) in *.
  rewrite length_fmap, length_sizes.
  rewrite (proj2 (Z.ltb_ge _ _)) by lia. cbn [orb]. cbn zeta.
  rewrite <- fmap_take, take_sizes, foldr_sizes.
  assert (ios l = ios (take (Z.to_nat cnt) l) + ios (drop (Z.to_nat cnt) l))%nat as Hios.
  { by rewrite <- ios_app, take_drop. }
  unfold IO_SIZE, _192KB in Hfit. rewrite (u32_small (Z.of_nat (ios _))) by lia.
  rewrite (u32_small (_ * IO_SIZE)) by (unfold IO_SIZE, _192KB; lia).
  assert (u32 (Z.of_nat (length l) - cnt) = Z.of_nat (length (drop (Z.to_nat cnt) l))) as Hleft.
  { rewrite u32_small, length_drop; lia. }
  rewrite Hleft in *. unfold advance.
  change (cu_buf (cursor_at buf l)) with buf. change (cu_ivs (cursor_at buf l)) with l.*1.
  change (cu_ws (cursor_at buf l)) with (sizes l).
  rewrite (Z.mul_comm _ IO_SIZE). fold (next_buf buf (take (Z.to_nat cnt) l)).
  rewrite <- fmap_drop, drop_sizes.
  change (Cursor ?b (drop (Z.to_nat cnt) l).*1 (sizes (drop (Z.to_nat cnt) l))
    (Z.of_nat (length (drop (Z.to_nat cnt) l)))) with (cursor_at b (drop (Z.to_nat cnt) l)).
  rewrite IH; [|done|unfold IO_SIZE, _192KB; lia|rewrite length_drop; lia|rewrite length_drop in *; lia].
  cbn [mbind option_bind cut requests]. rewrite sum_list_cons. rewrite length_take, Nat.min_l by lia.
  rewrite Z2Nat.id by done. rewrite next_buf_app, take_take_drop, drop_drop. done.
Qed.

(** ** The commands of a striped write *)

Definition write_cmds_of (buf : ptr) (g : shares) : list io_cmd :=
  if decide (ios g = O) then []
  else opens MAN_OPEN g ++ slot_writes buf (stripe g) ++ opens MAN_CLOSE g.

Fixpoint write_threads (buf : ptr) (gs : list shares) : list (list io_cmd) :=
  match gs with
  | [] => []
  | g :: gs' => write_cmds_of buf g :: write_threads (next_buf buf g) gs'
  end.

Fixpoint write_schedule (sched : nat -> list nat) (i : nat) (buf : ptr)
    (rss : list (list shares)) : list io_cmd :=
  match rss with
  | [] => []
  | gs :: rss' => interleave_threads (sched i) (write_threads buf gs)
                  ++ write_schedule sched (S i) (next_buf buf (concat gs)) rss'
  end.

Lemma mapM_thread_write buf gs :
  IO_SIZE * Z.of_nat (ios (concat gs)) < 2 ^ 32 ->
  mapM thread_write (requests buf gs) = Some (write_threads buf gs).
Proof.
  revert buf. induction gs as [|g gs IH]; intros buf Hfit; [done|].
  cbn [concat] in Hfit. rewrite ios_app in Hfit. unfold IO_SIZE, _192KB in Hfit.
  cbn [requests mapM write_threads]. unfold sizes.
  rewrite thread_write_stripe by (unfold IO_SIZE, _192KB; lia). cbn [mbind option_bind].
  rewrite IH by (unfold IO_SIZE, _192KB; lia). done.
Qed.

(** All the slots of a transfer, in the order of the buffer. *)
Definition slots (rss : list (list shares)) : list slot := concat rss ≫= stripe.

Lemma stripe_zero g : ios g = O -> stripe g = [].
Proof. intros. by apply stripe_from_done. Qed.

Lemma length_groups gs : length (gs ≫= stripe) = ios (concat gs).
Proof.
  induction gs as [|g gs IH]; [done|]. cbn [concat].
  by rewrite bind_cons, length_app, IH, ios_app, length_stripe.
Qed.

Lemma touches_write_cmds_of p buf g :
  filter (touches p) (write_cmds_of buf g)
  = filter (touches p) (place buf (stripe g) ≫= put_cmds).
Proof.
  unfold write_cmds_of. case_decide as H0; [by rewrite stripe_zero|].
  assert (forall v, filter (touches p) (opens v g) = []) as Ho.
  { intros v. apply filter_none. unfold opens. apply Forall_fmap, Forall_true. intros. intros []. }
  by rewrite !filter_app, !Ho, app_nil_r, slot_writes_place.
Qed.

Lemma place_stripe_app buf g sl :
  place buf (stripe g ++ sl) = place buf (stripe g) ++ place (next_buf buf g) sl.
Proof. by rewrite place_app, length_stripe. Qed.

Lemma touches_write_threads p buf gs :
  filter (touches p) (concat (write_threads buf gs))
  = filter (touches p) (place buf (gs ≫= stripe) ≫= put_cmds).
Proof.
  revert buf. induction gs as [|g gs IH]; intros buf; [done|].
  cbn [write_threads concat]. rewrite bind_cons, place_stripe_app, bind_app, !filter_app.
  by rewrite touches_write_cmds_of, IH.
Qed.

Lemma write_threads_lookup buf gs i th :
  write_threads buf gs !! i = Some th ->
  exists b g, gs !! i = Some g /\ th = write_cmds_of b g.
Proof.
  revert buf i. induction gs as [|g gs IH]; intros buf [|i] Hi; cbn in Hi; try done.
  - injection Hi as <-. by exists buf, g.
  - by apply IH in Hi.
Qed.

Lemma elem_of_write_cmds_of buf g c :
  c ∈ write_cmds_of buf g ->
  (exists p v, c = SetZone p v /\ p ∈ g.*1 /\ (v = MAN_OPEN \/ v = MAN_CLOSE)) \/
  c ∈ place buf (stripe g) ≫= put_cmds.
Proof.
  unfold write_cmds_of, opens. case_decide; [by intros ?%not_elem_of_nil|].
  rewrite !elem_of_app, slot_writes_place, !list_elem_of_fmap.
  intros [(p & -> & Hp)|[Hc|(p & -> & Hp)]]; [left|by right|left]; eauto 6.
Qed.

Lemma elem_of_put_cmds buf g c :
  c ∈ place buf (stripe g) ≫= put_cmds -> cmd_iv c ∈ g.*1.
Proof.
  intros ([b s] & Hc & Hbs)%list_elem_of_bind.
  assert (s ∈ stripe g) as Hs.
  { rewrite <- (place_snd buf (stripe g)). by apply (list_elem_of_fmap_2 snd _ (b, s)). }
  apply stripe_iv in Hs as (n & Hn & _). apply (list_elem_of_fmap_2 fst) in Hn. cbn in Hn.
  unfold put_cmds in Hc. apply elem_of_cons in Hc as [->|Hc]; [done|]. cbn in Hc.
  destruct (sl_last s); [|by apply not_elem_of_nil in Hc].
  by apply list_elem_of_singleton in Hc as ->.
Qed.

Lemma touches_group p buf g c : c ∈ write_cmds_of buf g -> touches p c -> p ∈ g.*1.
Proof.
  intros [(q & v & -> & _)|Hc]%elem_of_write_cmds_of; [intros []|].
  apply elem_of_put_cmds in Hc. by destruct c; cbn; try intros []; intros; subst.
Qed.

Lemma NoDup_concat_unique {A} (gs : list (list A)) i j g h x :
  NoDup (concat gs) -> gs !! i = Some g -> gs !! j = Some h -> x ∈ g -> x ∈ h -> i = j.
Proof.
  revert i j. induction gs as [|k gs IH]; intros i j Hnd Hi Hj Hg Hh; [done|].
  cbn in Hnd. apply NoDup_app in Hnd as (_ & Hdis & Hnd).
  assert (forall i g, gs !! i = Some g -> x ∈ g -> x ∈ concat gs) as Hin.
  { intros i' g' Hl Hx. apply list_elem_of_In, in_concat. exists g'.
    split; apply list_elem_of_In; [by eapply list_elem_of_lookup_2|done]. }
  destruct i as [|i], j as [|j]; cbn in Hi, Hj; simplify_eq; [done|..].
  - by destruct (Hdis x Hg (Hin j h Hj Hh)).
  - by destruct (Hdis x Hh (Hin i g Hi Hg)).
  - f_equal. by eapply IH.
Qed.

Lemma fst_concat (gs : list shares) : (concat gs).*1 = concat ((fun g => g.*1) <$> gs).
Proof. induction gs as [|g gs IH]; [done|]. cbn. by rewrite fmap_app, IH. Qed.

(** What happens to one interval is the same for every schedule: the writes of
    its slots, pass by pass. *)
Lemma touches_schedule p sched i buf rss :
  NoDup (concat (concat rss)).*1 ->
  filter (touches p) (write_schedule sched i buf rss)
  = filter (touches p) (place buf (slots rss) ≫= put_cmds).
Proof.
  revert i buf. induction rss as [|gs rss IH]; intros i buf Hnd; [done|].
  cbn [concat] in Hnd. rewrite concat_app, fmap_app in Hnd.
  apply NoDup_app in Hnd as (Hnd1 & _ & Hnd2).
  cbn [write_schedule]. unfold slots. cbn [concat].
  rewrite filter_app, IH, bind_app by done. fold (slots rss).
  rewrite interleave_filter_concat, touches_write_threads.
  - rewrite place_app, bind_app, filter_app. by rewrite length_groups.
  - intros a b c c' th th' Ha Hb Hc Hc' HPc HPc'.
    apply write_threads_lookup in Ha as (b1 & g1 & Hg1 & ->).
    apply write_threads_lookup in Hb as (b2 & g2 & Hg2 & ->).
    rewrite fst_concat in Hnd1. eapply (NoDup_concat_unique _ a b g1.*1 g2.*1 p Hnd1).
    + by rewrite list_lookup_fmap, Hg1.
    + by rewrite list_lookup_fmap, Hg2.
    + by eapply touches_group.
    + by eapply touches_group.
Qed.

Lemma of_iv_groups gs p c :
  NoDup (concat gs).*1 -> (p, c) ∈ concat gs -> of_iv p (gs ≫= stripe) = slots_of p c.
Proof.
  assert (forall gs, p ∉ (concat gs).*1 -> of_iv p (gs ≫= stripe) = []) as Hnone.
  { clear. intros gs Hp. apply filter_none, Forall_forall. intros s Hs He. apply Hp.
    apply list_elem_of_bind in Hs as (g & Hs & Hg). apply stripe_iv in Hs as (c & Hc & _).
    rewrite He in Hc. apply (list_elem_of_fmap_2 fst _ (p, c)).
    apply list_elem_of_In, in_concat. exists g. by rewrite <- !list_elem_of_In. }
  induction gs as [|g gs IH]; intros Hnd Hin; [by apply not_elem_of_nil in Hin|].
  cbn [concat] in *. rewrite fmap_app in Hnd. apply NoDup_app in Hnd as (Hnd1 & Hdis & Hnd2).
  rewrite bind_cons, of_iv_app. apply elem_of_app in Hin as [Hin|Hin].
  - rewrite Hnone, app_nil_r by (apply Hdis, (list_elem_of_fmap_2 fst _ (p, c)), Hin).
    by apply of_iv_stripe.
  - rewrite IH by done. rewrite <- (app_nil_l (slots_of p c)). f_equal.
    pose proof (Hnone [g]) as H1. cbn in H1. rewrite !app_nil_r in H1. apply H1.
    intros Hp. apply (Hdis p Hp). apply (list_elem_of_fmap_2 fst _ (p, c)), Hin.
Qed.

Lemma elem_of_schedule sched i buf rss c :
  c ∈ write_schedule sched i buf rss ->
  (exists p v, c = SetZone p v /\ p ∈ (concat (concat rss)).*1 /\ (v = MAN_OPEN \/ v = MAN_CLOSE)) \/
  c ∈ place buf (slots rss) ≫= put_cmds.
Proof.
  assert (forall gs buf, c ∈ concat (write_threads buf gs) ->
    (exists p v, c = SetZone p v /\ p ∈ (concat gs).*1 /\ (v = MAN_OPEN \/ v = MAN_CLOSE)) \/
    c ∈ place buf (gs ≫= stripe) ≫= put_cmds) as Hround.
  { clear. induction gs as [|g gs IH]; intros buf Hc; [by apply not_elem_of_nil in Hc|].
    cbn [write_threads concat] in *. rewrite bind_cons, place_stripe_app, bind_app, fmap_app.
    apply elem_of_app in Hc as [Hc|Hc].
    - apply elem_of_write_cmds_of in Hc as [(p & v & ? & ? & ?)|Hc].
      + left. exists p, v. rewrite elem_of_app. eauto.
      + right. apply elem_of_app. by left.
    - apply IH in Hc as [(p & v & ? & ? & ?)|Hc].
      + left. exists p, v. rewrite elem_of_app. eauto.
      + right. apply elem_of_app. by right. }
  revert i buf. induction rss as [|gs rss IH]; intros i buf Hc; [by apply not_elem_of_nil in Hc|].
  cbn [write_schedule concat] in *. unfold slots. cbn [concat].
  rewrite bind_app, place_app, bind_app, concat_app, fmap_app.
  rewrite length_groups. fold (next_buf buf (concat gs)). fold (slots rss).
  apply elem_of_app in Hc as [Hc|Hc].
  - rewrite (interleave_perm _ _) in Hc. apply Hround in Hc as [(p & v & ? & ? & ?)|Hc].
    + left. exists p, v. rewrite elem_of_app. eauto.
    + right. apply elem_of_app. by left.
  - apply IH in Hc as [(p & v & ? & ? & ?)|Hc].
    + left. exists p, v. rewrite elem_of_app. eauto.
    + right. apply elem_of_app. by right.
Qed.

Lemma elem_of_place buf sl b s :
  (b, s) ∈ place buf sl ->
  exists k, sl !! k = Some s /\ b = ptr_add buf (IO_SIZE * Z.of_nat k).
Proof.
  intros (k & Hk)%list_elem_of_lookup. rewrite lookup_place in Hk.
  apply fmap_Some in Hk as (s' & Hs & [= -> ->]). eauto.
Qed.

Lemma length_slots rss : length (slots rss) = ios (concat (concat rss)).
Proof. apply length_groups. Qed.

Lemma slots_iv rss s : s ∈ slots rss -> sl_iv s ∈ (concat (concat rss)).*1.
Proof.
  intros (g & Hs & Hg)%list_elem_of_bind. apply stripe_iv in Hs as (c & Hc & _).
  apply (list_elem_of_fmap_2 fst _ (sl_iv s, c)).
  apply list_elem_of_In, in_concat. exists g. by rewrite <- !list_elem_of_In.
Qed.

(** ** [izg_write] *)

Section IzgWrite.
Context `{D : NvmeDevice} {zs nz : Z} `{Zd : !ZnsDevice D zs nz}.

Lemma write_rounds_cmds sched n r : forall i buf l (s : zst),
  good_cnt n -> Z.of_nat (length l) = Z.of_nat r * n -> Z.of_nat (length l) < 2 ^ 32 ->
  IO_SIZE * Z.of_nat (ios l) < 2 ^ 32 ->
  write_rounds sched r i n (cursor_at buf l) s
  = iterM exec_cmd (write_schedule sched i buf (rounds_of r n l)) s.
Proof.
  induction r as [|r IH]; intros i buf l s Hgood Hl Hlen Hfit; [done|].
  pose proof Hgood as [Hn _].
  assert (sum_list (thread_counts (Z.to_nat (thread_num n)) 0 n (Z.of_nat (length l))) = Z.to_nat n)
    as Hsum by (apply thread_counts_sum; [done|nia|rewrite Hl; apply Z.mod_mul; lia]).
  assert (ios l = ios (take (Z.to_nat n) l) + ios (drop (Z.to_nat n) l))%nat as Hios.
  { by rewrite <- ios_app, take_drop. }
  cbn [write_rounds rounds_of write_schedule].
  rewrite write_requests_cut by (done || lia). rewrite Hsum. cbn [the].
  unfold mbind at 1, prog_bind at 1, mret, prog_ret.
  rewrite mapM_thread_write by (rewrite concat_cut, Hsum; unfold IO_SIZE, _192KB in *; lia).
  cbn [fueled]. unfold mbind at 1, prog_bind at 1, mret, prog_ret.
  rewrite iterM_app, concat_cut, Hsum. unfold mbind, prog_bind.
  destruct (iterM _ _ s); [|done..].
  apply IH; rewrite ?length_drop; unfold IO_SIZE, _192KB in *; try done; lia.
Qed.

(** What a striped write of the shares [l], cut into the rounds [rss], does to
    the state with controller [c0] and interval heap [ivs0]. *)
Record striped (c0 : ctl) (ivs0 : list Interval) (rss : list (list shares)) (buf : ptr)
    (s : zst) : Prop := {
  st_ok : ctl_ok (zs:=zs) (nz:=nz) (z_ctl s);
  st_mem : host_mem (z_ctl s) = host_mem c0;
  st_length : length (z_ivs s) = length ivs0;
  (** Every interval ends where its zone was filled to. *)
  st_heap : forall p c i, (p, c) ∈ concat (concat rss) -> ivs0 !! p = Some i ->
    z_ivs s !! p = Some (if decide (c = O) then i
      else set_end (host_wp c0 (zone_number i) + IO_BLOCKS * Z.of_nat c) i);
  st_heap_other : forall p, p ∉ (concat (concat rss)).*1 -> z_ivs s !! p = ivs0 !! p;
  st_wp : forall p c i, (p, c) ∈ concat (concat rss) -> ivs0 !! p = Some i ->
    host_wp (z_ctl s) (zone_number i)
    = host_wp c0 (zone_number i) + IO_BLOCKS * Z.of_nat c;
  st_wp_other : forall z, 0 <= z < nz ->
    (forall p i, p ∈ (concat (concat rss)).*1 -> ivs0 !! p = Some i -> zone_number i <> z) ->
    host_wp (z_ctl s) z = host_wp c0 z;
  (** The k-th piece of the buffer is where slot k says. *)
  st_data : forall k sl i, slots rss !! k = Some sl -> ivs0 !! sl_iv sl = Some i ->
    load (host_mem c0) (ptr_add buf (IO_SIZE * Z.of_nat k)) IO_SIZE
    = Some (blocks (lba_data (device (z_ctl s)))
        (host_wp c0 (zone_number i) + IO_BLOCKS * Z.of_nat (sl_pass sl)) IO_BLOCKS);
  (** Nothing below the write pointers changes. *)
  st_frame : forall lba,
    (forall p i, p ∈ (concat (concat rss)).*1 -> ivs0 !! p = Some i ->
       lba < host_wp c0 (zone_number i) \/ (zone_number i + 1) * zs <= lba) ->
    lba_data (device (z_ctl s)) lba = lba_data (device c0) lba;
  (** Without a single I/O no request is sent. *)
  st_idle : ios (concat (concat rss)) = O -> s = Zst c0 ivs0 }.

Lemma schedule_wf sched i buf rss m :
  is_Some (load m buf (IO_SIZE * Z.of_nat (ios (concat (concat rss))))) ->
  Forall (cmd_wf m (concat (concat rss)).*1) (write_schedule sched i buf rss).
Proof.
  intros Hload. apply Forall_forall.
  intros c [(p & v & -> & Hp & Hv)|Hc]%elem_of_schedule; [done|].
  apply list_elem_of_bind in Hc as ([b s] & Hc & Hbs).
  apply elem_of_place in Hbs as (k & Hk & ->).
  pose proof (slots_iv rss s (list_elem_of_lookup_2 _ _ _ Hk)) as Hs.
  unfold put_cmds in Hc. apply elem_of_cons in Hc as [->|Hc]; cbn in *.
  - split; [done|]. apply lookup_lt_Some in Hk. rewrite length_slots in Hk.
    eapply load_piece; [done|..]; unfold IO_SIZE, _192KB; lia.
  - destruct (sl_last s); [|by apply not_elem_of_nil in Hc].
    by apply list_elem_of_singleton in Hc as ->.
Qed.

Lemma schedule_touches sched i buf rss c p :
  c ∈ write_schedule sched i buf rss -> touches p c -> p ∈ (concat (concat rss)).*1.
Proof.
  intros [(q & v & -> & _)|Hc]%elem_of_schedule HP; [destruct HP|].
  apply list_elem_of_bind in Hc as ([b sl] & Hc & Hbs). apply elem_of_place in Hbs as (k & Hk & ->).
  pose proof (slots_iv rss sl (list_elem_of_lookup_2 _ _ _ Hk)) as Hs.
  unfold put_cmds in Hc. apply elem_of_cons in Hc as [->|Hc]; cbn in *; [by subst|].
  destruct (sl_last sl); [|by apply not_elem_of_nil in Hc].
  apply list_elem_of_singleton in Hc as ->. cbn in HP. by subst.
Qed.

Lemma schedule_idle sched rss : forall i buf,
  ios (concat (concat rss)) = O -> write_schedule sched i buf rss = [].
Proof.
  assert (forall gs buf, ios (concat gs) = O -> concat (write_threads buf gs) = []) as Hth.
  { induction gs as [|g gs IH]; intros buf Hz; [done|]. cbn [concat write_threads] in *. rewrite ios_app in Hz.
    rewrite IH by lia. unfold write_cmds_of. by rewrite decide_True by lia. }
  induction rss as [|gs rss IH]; intros i buf Hz; [done|]. cbn [concat write_schedule] in *.
  rewrite concat_app, ios_app in Hz. rewrite IH, app_nil_r by lia.
  apply Permutation_nil. by rewrite interleave_perm, Hth by lia.
Qed.

(** The commands of a striped write, under any schedule. *)
Lemma exec_schedule sched buf rss c0 ivs0 :
  let l := concat (concat rss) in
  NoDup l.*1 -> ctl_ok (zs:=zs) (nz:=nz) c0 -> targets (nz:=nz) ivs0 l.*1 ->
  (forall p c i, (p, c) ∈ l -> ivs0 !! p = Some i ->
     IO_BLOCKS * Z.of_nat c <= free_blocks (zs:=zs) c0 (zone_number i)) ->
  is_Some (load (host_mem c0) buf (IO_SIZE * Z.of_nat (ios l))) ->
  exists s, iterM exec_cmd (write_schedule sched 0 buf rss) (Zst c0 ivs0) = Ret tt s /\
    striped c0 ivs0 rss buf s.
Proof.
  intros l Hnd Hok Htg Hroom Hload.
  set (cs := write_schedule sched 0 buf rss).
  assert (forall p c, (p, c) ∈ l -> of_iv p (slots rss) = slots_of p c) as Hof.
  { intros p c Hp. by apply of_iv_groups. }
  assert (forall p c, (p, c) ∈ l -> trace p cs = ((placed_at p (place buf (slots rss))).*1,
    if decide (c = O) then None else Some c)) as Htr.
  { intros p c Hp. apply trace_place; [by apply Hof|by apply touches_schedule]. }
  assert (forall p c, (p, c) ∈ l -> length (trace p cs).1 = c) as Hlen.
  { intros p c Hp. rewrite (Htr p c Hp). cbn. rewrite length_fmap. by apply length_placed_at, Hof. }
  assert (forall p, p ∈ l.*1 -> exists c, (p, c) ∈ l) as Hfst.
  { intros p ([q c] & -> & Hq)%list_elem_of_fmap. by exists c. }
  destruct (exec_writes c0 ivs0 l.*1 cs Hok Htg) as (s & Hs & Hw).
  { by apply schedule_wf. }
  { intros p i Hp Hi. destruct (Hfst p Hp) as (c & Hc). rewrite (Hlen p c Hc). eauto. }
  exists s. split; [done|]. destruct Hw as [Wok Wm Wl Wh Wwp Wo Wd Wf].
  assert (forall p c, (p, c) ∈ l -> p ∈ l.*1) as Hin.
  { intros p c Hp. by apply (list_elem_of_fmap_2 fst _ (p, c)). }
  split; try done; fold l.
  - intros p c i Hp Hi. rewrite (Wh p i Hi), (Htr p c Hp). cbn. by case_decide.
  - intros p Hp. destruct (ivs0 !! p) as [i|] eqn:Hi.
    + rewrite (Wh p i Hi). enough ((trace p cs).2 = None) as -> by done.
      rewrite trace_filter, filter_none; [done|]. apply Forall_forall. intros c Hc HP. apply Hp.
      by eapply schedule_touches.
    + apply lookup_ge_None in Hi. apply lookup_ge_None. lia.
  - intros p c i Hp Hi. rewrite (Wwp p i) by eauto. by rewrite (Hlen p c Hp).
  - intros k sl i Hk Hi. assert (sl_iv sl ∈ l.*1) as Hp.
    { apply slots_iv. by eapply list_elem_of_lookup_2. }
    destruct (Hfst _ Hp) as (c & Hc). apply (Wd (sl_iv sl) i); [done..|].
    rewrite (Htr _ c Hc). cbn. apply (placed_at_lookup _ _ c); [by apply Hof|].
    exists sl. split; [|done]. apply (list_elem_of_lookup_2 _ k). by rewrite lookup_place, Hk.
  - intros lba Hlba. apply Wf. intros p i Hp Hi. destruct (Hfst p Hp) as (c & Hc).
    rewrite (Hlen p c Hc). specialize (Hroom p c i Hc Hi). specialize (Hlba p i Hp Hi).
    unfold free_blocks in Hroom. lia.
  - intros Hz. unfold cs in Hs. rewrite schedule_idle in Hs by done. by injection Hs as ->.
Qed.

(** [izg_write] with a plan that fits the zones returns 0 and stripes the
    buffer over them, whatever the schedule of its threads. *)
Lemma izg_write_striped sched buf n total (r : nat) v wb l c0 ivs0 :
  good_cnt n -> izg_rounds n total = Z.of_nat r ->
  Z.of_nat (length l) = Z.of_nat r * n -> Z.of_nat (length l) < 2 ^ 32 ->
  plan_sizes r n v wb = Some (sizes l) -> IO_SIZE * Z.of_nat (ios l) < 2 ^ 32 ->
  NoDup l.*1 -> ctl_ok (zs:=zs) (nz:=nz) c0 -> targets (nz:=nz) ivs0 l.*1 ->
  (forall p c i, (p, c) ∈ l -> ivs0 !! p = Some i ->
     IO_BLOCKS * Z.of_nat c <= free_blocks (zs:=zs) c0 (zone_number i)) ->
  is_Some (load (host_mem c0) buf (IO_SIZE * Z.of_nat (ios l))) ->
  exists s, izg_write sched buf n total l.*1 v wb (Zst c0 ivs0) = Ret 0 s /\
    striped c0 ivs0 (rounds_of r n l) buf s.
Proof.
  intros Hgood Hr Hl Hlen Hplan Hfit Hnd Hok Htg Hroom Hload. pose proof Hgood as [Hn _].
  pose proof (concat_rounds_of r n l Hgood Hl Hlen) as Hcat.
  destruct (exec_schedule sched buf (rounds_of r n l) c0 ivs0) as (s & Hs & Hst);
    rewrite ?Hcat; try done.
  exists s. split; [|done]. unfold izg_write. rewrite (proj2 (Z.eqb_neq n 0)) by lia.
  rewrite Hr, Nat2Z.id, Hplan. cbn [the]. unfold mbind at 1, prog_bind at 1, mret, prog_ret.
  rewrite length_fmap. fold (cursor_at buf l).
  erewrite bind_Ret by (rewrite write_rounds_cmds by done; exact Hs). done.
Qed.
End IzgWrite.

(** ** [izg_read] *)

Section IzgRead.
Context `{D : NvmeDevice} {zs nz : Z} `{Zd : !ZnsDevice D zs nz}.

Definition start_of (ivs : list Interval) (p : nat) : Z := default 0 (start <$> ivs !! p).

(** The intervals hold the I/Os of the shares, within the namespace. *)
Definition readable (ivs : list Interval) (l : shares) : Prop :=
  Forall (fun pc => exists i, ivs !! pc.1 = Some i /\ 0 <= start i /\
    end_ i = start i + IO_BLOCKS * Z.of_nat pc.2 /\ end_ i <= nz * zs) l.

Definition bounds_of (ivs : list Interval) (l : shares) : list (Z * Z) :=
  (fun pc => (start_of ivs pc.1, start_of ivs pc.1 + IO_BLOCKS * Z.of_nat pc.2)) <$> l.

Fixpoint read_reqs (ivs : list Interval) (buf : ptr) (gs : list shares)
  : list (zone_request * list (Z * Z)) :=
  match gs with
  | [] => []
  | g :: gs' => (ZoneRequest buf g.*1 [] (Z.of_nat (length g)) (Z.of_nat (ios g)), bounds_of ivs g)
                :: read_reqs ivs (next_buf buf g) gs'
  end.

Definition read_cursor (buf : ptr) (l : shares) : cursor :=
  Cursor buf l.*1 [] (Z.of_nat (length l)).

Lemma intervals_at_ok c ivs l :
  nz * zs < 2 ^ 32 -> readable ivs l ->
  exists itvs, intervals_at l.*1 (Zst c ivs) = Ret itvs (Zst c ivs) /\
    (fun i => (start i, end_ i)) <$> itvs = bounds_of ivs l /\
    foldr Z.add 0 (Interval_get_size <$> itvs) = IO_BLOCKS * Z.of_nat (ios l).
Proof.
  intros Hfit Hl. induction Hl as [|[p n] l (i & Hi & Hs & He & Hb) Hl IH]; cbn [fst snd] in *.
  { by exists []. }
  destruct IH as (itvs & Hi' & Hb' & Hsum). exists (i :: itvs).
  assert (start_of ivs p = start i) as Hst by (unfold start_of; by rewrite Hi). split; [|split].
  - cbn [fmap list_fmap intervals_at fst]. unfold interval_at at 1. unfold mbind at 1, prog_bind at 1.
    cbn [z_ivs]. rewrite Hi. by erewrite bind_Ret by exact Hi'.
  - cbn. rewrite Hst, <- He. f_equal. exact Hb'.
  - cbn [fmap list_fmap foldr]. fold (Interval_get_size <$> itvs). rewrite Hsum.
    unfold ios. cbn [todo foldr snd]. fold (todo 0 l). unfold Interval_get_size.
    unfold IO_BLOCKS in *. destruct (Z.eqb_spec (start i) (end_ i)); [lia|].
    rewrite u32_small; lia.
Qed.

Lemma read_requests_cut k : forall j n buf l c ivs,
  0 < n -> nz * zs < 2 ^ 32 -> readable ivs l ->
  IO_SIZE * Z.of_nat (ios l) < 2 ^ 32 -> Z.of_nat (length l) < 2 ^ 32 ->
  (sum_list (thread_counts k j n (Z.of_nat (length l))) <= length l)%nat ->
  let cnts := thread_counts k j n (Z.of_nat (length l)) in
  read_requests k j n (read_cursor buf l) (Zst c ivs)
  = Ret (read_reqs ivs buf (cut cnts l),
         read_cursor (next_buf buf (take (sum_list cnts) l)) (drop (sum_list cnts) l)) (Zst c ivs).
Proof.
  induction k as [|k IH]; intros j n buf l c ivs Hn Hnz Hrd Hfit Hlen Hsum; cbn [thread_counts] in *.
  { cbn. unfold next_buf. cbn. by rewrite Z.mul_0_r, ptr_add_0. }
  rewrite sum_list_cons in Hsum. cbn [read_requests read_cursor cu_left cu_ivs cu_buf].
  pose proof (zones_for_thread_nonneg n (Z.of_nat (length l)) j Hn ltac:(lia)) as Hz.
  set (cnt := zones_for_thread n (Z.of_nat (length l)) j) in *.
  rewrite length_fmap, (proj2 (Z.ltb_ge _ _)) by lia. cbn zeta. rewrite <- fmap_take.
  assert (readable ivs (take (Z.to_nat cnt) l) /\ readable ivs (drop (Z.to_nat cnt) l)) as [Hr1 Hr2].
  { apply Forall_app. by rewrite take_drop. }
  destruct (intervals_at_ok c ivs _ Hnz Hr1) as (itvs & Hi & Hb & Hs). step_with Hi.
  assert (ios l = ios (take (Z.to_nat cnt) l) + ios (drop (Z.to_nat cnt) l))%nat as Hios.
  { by rewrite <- ios_app, take_drop. }
  unfold IO_SIZE, _192KB in Hfit. rewrite Hs, Hb.
  assert (u32 (IO_BLOCKS * Z.of_nat (ios (take (Z.to_nat cnt) l))) / IO_BLOCKS
    = Z.of_nat (ios (take (Z.to_nat cnt) l))) as ->.
  { unfold IO_BLOCKS. rewrite u32_small, Z.mul_comm, Z.div_mul by lia. done. }
  rewrite (u32_small (_ * IO_SIZE)) by (unfold IO_SIZE, _192KB; lia).
  assert (u32 (Z.of_nat (length l) - cnt) = Z.of_nat (length (drop (Z.to_nat cnt) l))) as Hleft.
  { rewrite u32_small, length_drop; lia. }
  rewrite Hleft in *. unfold advance. rewrite (Z.mul_comm _ IO_SIZE).
  change (Cursor _ _ _ _) with (Cursor (next_buf buf (take (Z.to_nat cnt) l))
    (drop (Z.to_nat cnt) l.*1) (drop (Z.to_nat cnt) []) (Z.of_nat (length (drop (Z.to_nat cnt) l)))).
  rewrite drop_nil, <- fmap_drop. fold (read_cursor (next_buf buf (take (Z.to_nat cnt) l)) (drop (Z.to_nat cnt) l)).
  erewrite bind_Ret; cycle 1.
  { apply IH; [done..|unfold IO_SIZE, _192KB; lia|rewrite length_drop; lia|rewrite length_drop in *; lia]. }
  cbn [cut read_reqs]. rewrite sum_list_cons, length_take, Nat.min_l by lia.
  rewrite Z2Nat.id by done. by rewrite next_buf_app, take_take_drop, drop_drop.
Qed.

Fixpoint read_threads (ivs : list Interval) (buf : ptr) (gs : list shares) : list (list io_cmd) :=
  match gs with
  | [] => []
  | g :: gs' => slot_reads buf (start_of ivs) (stripe g) :: read_threads ivs (next_buf buf g) gs'
  end.

Fixpoint read_schedule (sched : nat -> list nat) (i : nat) (ivs : list Interval) (buf : ptr)
    (rss : list (list shares)) : list io_cmd :=
  match rss with
  | [] => []
  | gs :: rss' => interleave_threads (sched i) (read_threads ivs buf gs)
                  ++ read_schedule sched (S i) ivs (next_buf buf (concat gs)) rss'
  end.

Lemma readable_bounds ivs l :
  nz * zs < 2 ^ 32 -> readable ivs l -> bounds_fit (start_of ivs) l.
Proof.
  intros Hnz Hl. eapply Forall_impl; [exact Hl|]. intros [p c] (i & Hi & Hs & He & Hb). cbn in *.
  unfold start_of. rewrite Hi. cbn. lia.
Qed.

Lemma mapM_thread_read ivs buf gs :
  nz * zs < 2 ^ 32 -> readable ivs (concat gs) ->
  IO_SIZE * Z.of_nat (ios (concat gs)) < 2 ^ 32 ->
  mapM (fun '(req, ses) => thread_read req ses) (read_reqs ivs buf gs)
  = Some (read_threads ivs buf gs).
Proof.
  intros Hnz. revert buf. induction gs as [|g gs IH]; intros buf Hrd Hfit; [done|].
  cbn [concat] in *. rewrite ios_app in Hfit. unfold IO_SIZE, _192KB in Hfit.
  apply Forall_app in Hrd as [Hr1 Hr2]. cbn [read_reqs mapM read_threads]. unfold bounds_of.
  rewrite thread_read_stripe; [|by apply readable_bounds|unfold IO_SIZE, _192KB; lia].
  cbn [mbind option_bind]. rewrite IH; [done..|unfold IO_SIZE, _192KB; lia].
Qed.

Definition is_read (c : io_cmd) : Prop := match c with ReadIo _ _ _ => True | _ => False end.

Lemma reads_heap cs s s' :
  Forall is_read cs -> iterM exec_cmd cs s = Ret tt s' -> z_ivs s' = z_ivs s.
Proof.
  intros Hcs. revert s. induction Hcs as [|c cs Hc Hcs IH]; intros s Hs; [by injection Hs as <-|].
  cbn [iterM] in Hs. apply bind_Ret_inv in Hs as ([] & s1 & H1 & H2).
  rewrite (IH s1 H2). destruct c as [| | |b p lba]; try done. cbn [exec_cmd] in H1.
  apply bind_Ret_inv in H1 as (i & s2 & Hi & H1). unfold interval_at in Hi.
  destruct (z_ivs s !! p); [|done]. injection Hi as <- <-.
  apply bind_Ret_inv in H1 as (x & s3 & H3 & H1). injection H1 as <-.
  unfold zoom in H3. destruct (zns_read _ _ _ _ _); try done. by injection H3 as <- <-.
Qed.

(** The reads of a transfer are those of its slots, in some order. *)
Lemma read_threads_place ivs buf gs :
  concat (read_threads ivs buf gs) = get_cmd (start_of ivs) <$> place buf (gs ≫= stripe).
Proof.
  revert buf. induction gs as [|g gs IH]; intros buf; [done|]. cbn [read_threads concat].
  by rewrite bind_cons, place_stripe_app, fmap_app, IH, slot_reads_place.
Qed.

Lemma read_schedule_perm sched i ivs buf rss :
  read_schedule sched i ivs buf rss ≡ₚ (get_cmd (start_of ivs) <$> place buf (slots rss)).
Proof.
  revert i buf. induction rss as [|gs rss IH]; intros i buf; [done|]. cbn [read_schedule].
  unfold slots. cbn [concat]. rewrite interleave_perm, read_threads_place, IH.
  rewrite bind_app, place_app, length_groups, fmap_app. done.
Qed.

Lemma read_round_is_read sched ivs buf gs :
  Forall is_read (interleave_threads sched (read_threads ivs buf gs)).
Proof. rewrite interleave_perm, read_threads_place. by apply Forall_fmap, Forall_true. Qed.

Lemma read_rounds_cmds sched n r : forall i buf l c ivs,
  good_cnt n -> nz * zs < 2 ^ 32 -> readable ivs l ->
  Z.of_nat (length l) = Z.of_nat r * n -> Z.of_nat (length l) < 2 ^ 32 ->
  IO_SIZE * Z.of_nat (ios l) < 2 ^ 32 ->
  read_rounds sched r i n (read_cursor buf l) (Zst c ivs)
  = iterM exec_cmd (read_schedule sched i ivs buf (rounds_of r n l)) (Zst c ivs).
Proof.
  induction r as [|r IH]; intros i buf l c ivs Hgood Hnz Hrd Hl Hlen Hfit; [done|].
  pose proof Hgood as [Hn _].
  assert (sum_list (thread_counts (Z.to_nat (thread_num n)) 0 n (Z.of_nat (length l))) = Z.to_nat n)
    as Hsum by (apply thread_counts_sum; [done|nia|rewrite Hl; apply Z.mod_mul; lia]).
  assert (ios l = ios (take (Z.to_nat n) l) + ios (drop (Z.to_nat n) l))%nat as Hios.
  { by rewrite <- ios_app, take_drop. }
  assert (readable ivs (take (Z.to_nat n) l) /\ readable ivs (drop (Z.to_nat n) l)) as [Hr1 Hr2].
  { apply Forall_app. by rewrite take_drop. }
  cbn [read_rounds rounds_of read_schedule].
  erewrite bind_Ret by (apply read_requests_cut; rewrite ?Hsum; done || lia). cbn beta iota. rewrite Hsum.
  rewrite mapM_thread_read; cycle 1.
  { done. }
  { by rewrite concat_cut, Hsum. }
  { rewrite concat_cut, Hsum; unfold IO_SIZE, _192KB in *; lia. }
  cbn [fueled]. unfold mbind at 1, prog_bind at 1, mret, prog_ret.
  rewrite iterM_app, concat_cut, Hsum. unfold mbind, prog_bind.
  destruct (iterM _ _ (Zst c ivs)) as [[] [c' ivs']| | |] eqn:Hit; [|done..].
  apply reads_heap in Hit; [|apply read_round_is_read]. cbn in Hit. subst ivs'.
  apply IH; rewrite ?length_drop; unfold IO_SIZE, _192KB in *; try done; lia.
Qed.

(** What a striped read leaves: every piece of the buffer holds the blocks of
    its slot; no other memory and nothing on the device changes. *)
Record gathered (c0 : ctl) (ivs : list Interval) (rss : list (list shares)) (buf : ptr)
    (s : zst) : Prop := {
  ga_ivs : z_ivs s = ivs;
  ga_store : same_store (zs:=zs) (nz:=nz) (set_device (device c0) (host_mem (z_ctl s)) c0) (z_ctl s);
  ga_data : forall k sl, slots rss !! k = Some sl ->
    load (host_mem (z_ctl s)) (ptr_add buf (IO_SIZE * Z.of_nat k)) IO_SIZE
    = Some (blocks (lba_data (device c0))
        (start_of ivs (sl_iv sl) + IO_BLOCKS * Z.of_nat (sl_pass sl)) IO_BLOCKS);
  ga_mem : forall p k,
    (p_blk p = p_blk buf -> p_off p + k <= p_off buf \/
       p_off buf + IO_SIZE * Z.of_nat (length (slots rss)) <= p_off p) ->
    load (host_mem (z_ctl s)) p k = load (host_mem c0) p k;
  ga_lengths : forall b, length <$> host_mem (z_ctl s) !! b = length <$> host_mem c0 !! b }.
Lemma read_bufs sched i ivs buf rss :
  omap cmd_buf (read_schedule sched i ivs buf rss) ≡ₚ (place buf (slots rss)).*1.
Proof.
  rewrite read_schedule_perm. induction (place buf (slots rss)) as [|[b s] l IH]; [done|].
  cbn. by rewrite IH.
Qed.

Lemma place_bufs_apart buf sl b b' :
  b ∈ (place buf sl).*1 -> b' ∈ (place buf sl).*1 -> b <> b' -> apart b b'.
Proof.
  intros ([? s] & -> & Hb)%list_elem_of_fmap ([? s'] & -> & Hb')%list_elem_of_fmap Hne.
  apply elem_of_place in Hb as (k & _ & ->). apply elem_of_place in Hb' as (k' & _ & ->).
  cbn in *. intros _. unfold ptr_add. cbn. unfold IO_SIZE, _192KB in *.
  destruct (decide (k = k')) as [->|]; [done|lia].
Qed.

Lemma place_bufs_NoDup buf sl : NoDup (place buf sl).*1.
Proof.
  apply NoDup_alt. intros i j b. rewrite !list_lookup_fmap, !lookup_place.
  intros (? & (s & Hs & ->)%fmap_Some & ->)%fmap_Some
    (? & (s' & Hs' & ->)%fmap_Some & [= He])%fmap_Some.
  unfold IO_SIZE, _192KB in He. lia.
Qed.

Lemma read_schedule_wf sched i ivs buf rss c0 :
  readable ivs (concat (concat rss)) ->
  is_Some (load (host_mem c0) buf (IO_SIZE * Z.of_nat (length (slots rss)))) ->
  Forall (read_wf (zs:=zs) (nz:=nz) c0 ivs) (read_schedule sched i ivs buf rss).
Proof.
  intros Hrd Hload. rewrite read_schedule_perm. apply Forall_fmap, Forall_forall.
  intros [b s] (k & Hk & ->)%elem_of_place. pose proof (lookup_lt_Some _ _ _ Hk) as Hlt.
  apply list_elem_of_lookup_2, list_elem_of_bind in Hk as (g & Hs & Hg).
  apply stripe_iv in Hs as (c & Hc & Hp).
  assert ((sl_iv s, c) ∈ concat (concat rss)) as Hin.
  { apply list_elem_of_In, in_concat. exists g. by rewrite <- !list_elem_of_In. }
  unfold readable in Hrd. rewrite Forall_forall in Hrd. destruct (Hrd _ Hin) as (i' & Hi & Hst & He & Hb). cbn in *.
  unfold start_of. rewrite Hi. cbn. unfold IO_BLOCKS in *.
  repeat split; [done|lia|lia|]. eapply load_piece; [done|..]; unfold IO_SIZE, _192KB; lia.
Qed.

(** [izg_read] gathers the pieces of its slots, whatever the schedule. *)
Lemma izg_read_gathered sched buf n total (r : nat) l size c0 ivs :
  good_cnt n -> izg_rounds n total = Z.of_nat r ->
  Z.of_nat (length l) = Z.of_nat r * n -> Z.of_nat (length l) < 2 ^ 32 ->
  IO_SIZE * Z.of_nat (ios l) < 2 ^ 32 ->
  ctl_ok (zs:=zs) (nz:=nz) c0 -> readable ivs l ->
  is_Some (load (host_mem c0) buf (IO_SIZE * Z.of_nat (ios l))) ->
  exists s, izg_read sched buf n total l.*1 size (Zst c0 ivs) = Ret 0 s /\
    gathered c0 ivs (rounds_of r n l) buf s.
Proof.
  intros Hgood Hr Hl Hlen Hfit Hok Hrd Hload. pose proof Hgood as [Hn _].
  pose proof (concat_rounds_of r n l Hgood Hl Hlen) as Hcat.
  set (rss := rounds_of r n l) in *. set (cs := read_schedule sched 0 ivs buf rss).
  assert (length (slots rss) = ios l) as Hsl by (by rewrite length_slots, Hcat).
  destruct (exec_reads c0 ivs cs Hok) as (s & Hs & [Ri Rs Rd [Rl Rm]]).
  { apply read_schedule_wf; [by rewrite Hcat|by rewrite Hsl]. }
  { unfold cs. rewrite read_bufs. apply place_bufs_NoDup. }
  { intros b b'. unfold cs. rewrite read_bufs. apply place_bufs_apart. }
  exists s. split.
  { unfold izg_read. rewrite (proj2 (Z.eqb_neq n 0)) by lia. rewrite Hr, Nat2Z.id, length_fmap.
    fold (read_cursor buf l).
    erewrite bind_Ret by (rewrite read_rounds_cmds by (done || apply (ok_fits c0 Hok)); exact Hs).
    done. }
  split; try done.
  - intros k sl Hk. apply (Rd _ (sl_iv sl)). unfold cs. rewrite read_schedule_perm.
    apply list_elem_of_fmap. eexists (_, sl). split; [done|].
    apply (list_elem_of_lookup_2 _ k). by rewrite lookup_place, Hk.
  - intros p k Hp. apply Rm. unfold cs. intros q. rewrite read_bufs.
    intros ([? sl] & -> & Hq)%list_elem_of_fmap. apply elem_of_place in Hq as (k' & Hk & ->).
    apply lookup_lt_Some in Hk. cbn. intros Hb. symmetry in Hb. specialize (Hp Hb).
    unfold IO_SIZE, _192KB in *. lia.
Qed.
End IzgRead.
