(* ===== verification/Roundtrip.v ===== *)
(** What a striped transfer leaves on the device can be read back, now and
    after any number of later transfers; and what each zone of a transfer gets. *)
From S2P Require Import Prelude Nvme Controller Zone Stripe Transfer Rounds.
From stdpp Require Import base numbers list gmap strings.
From Stdlib Require Import ZArith Lia.
Local Open Scope Z_scope.

(** ** Buffers as sequences of pieces *)

Lemma load_app m p a b :
  0 <= a -> 0 <= b -> is_Some (load m p (a + b)) ->
  load m p (a + b) = x ← load m p a; y ← load m (ptr_add p a) b; Some (x ++ y).
Proof.
  intros Ha Hb Hs. destruct (load_piece m p (a + b) 0 a Hs) as [x Hx]; [lia..|].
  destruct (load_piece m p (a + b) a b Hs) as [y Hy]; [lia..|].
  rewrite ptr_add_0 in Hx. rewrite Hx, Hy. cbn. destruct Hs as [z Hz]. rewrite Hz. f_equal.
  unfold load, ptr_add in *. cbn [p_blk p_off] in *. destruct (m !! p_blk p) as [blk|]; [|done].
  cbn in *. destruct (in_block blk (p_off p) (a + b)) eqn:E1; [|done].
  destruct (in_block blk (p_off p) a); [|done]. destruct (in_block blk (p_off p + a) b); [|done].
  apply in_block_spec in E1. simplify_eq. apply sub_app; lia.
Qed.

Lemma bind_concat {A B} (f : A -> list B) l : l ≫= f = concat (f <$> l).
Proof. induction l as [|x l IH]; [done|]. rewrite bind_cons, IH. done. Qed.

(** The content of a buffer, from the content of its pieces. *)
Lemma load_concat m p sz xs :
  0 <= sz -> is_Some (load m p (sz * Z.of_nat (length xs))) ->
  (forall k x, xs !! k = Some x -> load m (ptr_add p (sz * Z.of_nat k)) sz = Some x) ->
  load m p (sz * Z.of_nat (length xs)) = Some (concat xs).
Proof.
  intros Hsz. induction xs as [|x xs IH] using rev_ind; intros H1 Hk.
  - destruct H1 as [y Hy]. rewrite Hy. apply load_length in Hy. f_equal.
    destruct y; [done|]. cbn in *. lia.
  - rewrite length_app in *. cbn [length] in *.
    replace (sz * Z.of_nat (length xs + 1)) with (sz * Z.of_nat (length xs) + sz) in * by lia.
    rewrite load_app by (done || lia). rewrite (Hk (length xs) x); cycle 1.
    { by rewrite lookup_app_r, Nat.sub_diag. }
    rewrite IH.
    + rewrite concat_app. cbn. by rewrite app_nil_r.
    + destruct (load_piece m p _ 0 (sz * Z.of_nat (length xs)) H1) as [y Hy]; [lia..|].
      rewrite ptr_add_0 in Hy. by rewrite Hy.
    + intros k y Hy. apply Hk. by apply lookup_app_l_Some.
Qed.

Section Roundtrip.
Context `{D : NvmeDevice} {zs nz : Z} `{Zd : !ZnsDevice D zs nz}.

(** The blocks of slot [sl], on the device of [s]. *)
Definition slot_bytes (s : zst) (sl : slot) : list Byte.byte :=
  blocks (lba_data (device (z_ctl s)))
    (start_of (z_ivs s) (sl_iv sl) + IO_BLOCKS * Z.of_nat (sl_pass sl)) IO_BLOCKS.

(** Intervals that hold [c] I/Os each in zones of the namespace, below the
    write pointers. *)
Definition settled (s : zst) (l : shares) : Prop :=
  Forall (fun pc => exists i, z_ivs s !! pc.1 = Some i /\ 0 <= zone_number i < nz /\
    zone_number i * zs <= start i /\ end_ i = start i + IO_BLOCKS * Z.of_nat pc.2 /\
    end_ i <= host_wp (z_ctl s) (zone_number i)) l.

(** [s] holds the bytes [bs] in the intervals [ptrs], striped in groups of
    [n] zones. *)
Definition holds (s : zst) (n : Z) (ptrs : list nat) (bs : list Byte.byte) : Prop :=
  exists (r : nat) l, ptrs = l.*1 /\ Z.of_nat (length l) = Z.of_nat r * n /\
    Z.of_nat (length l) < 2 ^ 32 /\ IO_SIZE * Z.of_nat (ios l) < 2 ^ 32 /\
    settled s l /\ slots (rounds_of r n l) ≫= slot_bytes s = bs.

Lemma settled_readable s l : ctl_ok (zs:=zs) (nz:=nz) (z_ctl s) ->
  settled s l -> readable (zs:=zs) (nz:=nz) (z_ivs s) l.
Proof.
  intros Hok Hl. eapply Forall_impl; [exact Hl|]. intros [p c] (i & Hi & Hz & Hs & He & Hw).
  exists i. pose proof (host_wp_range _ _ Hok Hz). pose proof (ok_pos _ Hok). cbn in *.
  repeat split; try done; nia.
Qed.

Lemma slot_settled s n r l sl :
  good_cnt n -> Z.of_nat (length l) = Z.of_nat r * n -> Z.of_nat (length l) < 2 ^ 32 ->
  settled s l -> sl ∈ slots (rounds_of r n l) ->
  exists i, z_ivs s !! sl_iv sl = Some i /\ 0 <= zone_number i < nz /\
    zone_number i * zs <= start i + IO_BLOCKS * Z.of_nat (sl_pass sl) /\
    start i + IO_BLOCKS * Z.of_nat (sl_pass sl) + IO_BLOCKS <= host_wp (z_ctl s) (zone_number i).
Proof.
  intros Hgood Hl Hlen Hset (g & Hs & Hg)%list_elem_of_bind. apply stripe_iv in Hs as (c & Hc & Hp).
  assert ((sl_iv sl, c) ∈ l) as Hin.
  { rewrite <- (concat_rounds_of r n l) by done. apply list_elem_of_In, in_concat.
    exists g. by rewrite <- !list_elem_of_In. }
  unfold settled in Hset. rewrite Forall_forall in Hset.
  destruct (Hset _ Hin) as (i & Hi & Hz & Hst & He & Hw). exists i. cbn in *.
  unfold IO_BLOCKS in *. repeat split; try done; lia.
Qed.

Lemma izg_rounds_mul n (r : nat) : 0 < n -> izg_rounds n (Z.of_nat r * n) = Z.of_nat r.
Proof. intros. unfold izg_rounds. rewrite Z.mod_mul, Z.div_mul by lia. cbn. lia. Qed.

Lemma length_slots_bytes n r l s :
  good_cnt n -> Z.of_nat (length l) = Z.of_nat r * n -> Z.of_nat (length l) < 2 ^ 32 ->
  Z.of_nat (length (slots (rounds_of r n l) ≫= slot_bytes s)) = IO_SIZE * Z.of_nat (ios l).
Proof.
  intros. rewrite <- (concat_rounds_of r n l) at 2 by done. rewrite <- length_slots.
  induction (slots _) as [|sl sls IH]; [done|]. rewrite bind_cons, length_app. cbn [length].
  unfold slot_bytes at 1. rewrite Nat2Z.inj_add, length_io_blocks, IH. lia.
Qed.

(** [izg_read] of intervals that hold [bs] fills the buffer with [bs]. *)
Lemma izg_read_holds sched buf n ptrs size s bs :
  good_cnt n -> ctl_ok (zs:=zs) (nz:=nz) (z_ctl s) -> holds s n ptrs bs ->
  is_Some (load (host_mem (z_ctl s)) buf (Z.of_nat (length bs))) ->
  exists c', izg_read sched buf n (Z.of_nat (length ptrs)) ptrs size s = Ret 0 (Zst c' (z_ivs s)) /\
    same_store (zs:=zs) (nz:=nz) (set_device (device (z_ctl s)) (host_mem c') (z_ctl s)) c' /\
    load (host_mem c') buf (Z.of_nat (length bs)) = Some bs /\
    same_outside (host_mem (z_ctl s)) (host_mem c') [buf] (Z.of_nat (length bs)).
Proof.
  intros Hgood Hok (r & l & -> & Hl & Hlen & Hfit & Hset & <-) Hload. pose proof Hgood as [Hn _].
  rewrite (length_slots_bytes n r l) in * by done. destruct s as [c ivs]. cbn [z_ctl z_ivs] in *.
  destruct (izg_read_gathered sched buf n (Z.of_nat r * n) r l size c ivs)
    as ([c' ivs'] & Hr & [Gi Gs Gd Gm Gl]); try done.
  { apply izg_rounds_mul. lia. }
  { by apply (settled_readable (Zst c ivs)). }
  cbn in *. subst ivs'. exists c'. rewrite length_fmap, Hl. split; [done|]. split; [done|].
  pose proof (concat_rounds_of r n l Hgood Hl Hlen) as Hcat.
  assert (length (slots (rounds_of r n l)) = ios l) as Hsl by (by rewrite length_slots, Hcat).
  rewrite Hsl in Gm. split.
  - rewrite <- Hsl, <- (length_fmap (slot_bytes (Zst c ivs))), bind_concat.
    apply load_concat.
    + done.
    + rewrite length_fmap, Hsl. destruct Hload as [x Hx].
      clear -Gl Hx. unfold load in *. specialize (Gl (p_blk buf)).
      destruct (host_mem c !! _), (host_mem c' !! _); try done. injection Gl as Gl. cbn in *.
      unfold in_block in *. rewrite Gl. by destruct (_ && _).
    + intros k x. rewrite list_lookup_fmap. intros (sl & Hsl' & ->)%fmap_Some. by apply Gd.
  - split; [done|]. intros p k Hp. apply Gm. intros Hb. symmetry in Hb.
    specialize (Hp buf ltac:(by apply list_elem_of_singleton) Hb). lia.
Qed.

(** ** Writing *)

(** A striped write of new intervals leaves [holds]. *)
Lemma striped_holds c0 ivs0 n r l buf bs s :
  good_cnt n -> Z.of_nat (length l) = Z.of_nat r * n -> Z.of_nat (length l) < 2 ^ 32 ->
  IO_SIZE * Z.of_nat (ios l) < 2 ^ 32 ->
  ctl_ok (zs:=zs) (nz:=nz) c0 ->
  (forall p c, (p, c) ∈ l -> exists i, ivs0 !! p = Some i /\ 0 <= zone_number i < nz /\
     start i = host_wp c0 (zone_number i) /\ end_ i = start i) ->
  striped c0 ivs0 (rounds_of r n l) buf s ->
  load (host_mem c0) buf (IO_SIZE * Z.of_nat (ios l)) = Some bs ->
  holds s n l.*1 bs.
Proof.
  intros Hgood Hl Hlen Hfit Hok Hnew [So Sm Sl Sh Sho Sw Swo Sd Sf] Hload.
  pose proof (concat_rounds_of r n l Hgood Hl Hlen) as Hcat. rewrite Hcat in *.
  assert (length (slots (rounds_of r n l)) = ios l) as Hsl by (by rewrite length_slots, Hcat).
  exists r, l. repeat split; try done.
  - apply Forall_forall. intros [p c] Hp. destruct (Hnew p c Hp) as (i & Hi & Hz & Hst & He).
    pose proof (Sh p c i Hp Hi) as Hi'. pose proof (Sw p c i Hp Hi) as Hw.
    pose proof (host_wp_range c0 _ Hok Hz). cbn [fst snd]. eexists. split; [exact Hi'|].
    unfold IO_BLOCKS in *. case_decide; cbn; rewrite ?Hw; repeat split; try done; lia.
  - enough (Some (slots (rounds_of r n l) ≫= slot_bytes s) = Some bs) as [=] by done.
    rewrite <- Hload, <- Hsl, <- (length_fmap (slot_bytes s)), bind_concat. symmetry.
    apply load_concat.
    + done.
    + by rewrite length_fmap, Hsl, Hload.
    + intros k x. rewrite list_lookup_fmap. intros (sl & Hk & ->)%fmap_Some.
      pose proof (slots_iv _ sl (list_elem_of_lookup_2 _ _ _ Hk)) as Hin. rewrite Hcat in Hin.
      apply list_elem_of_fmap in Hin as ([p c] & Hp & Hpc). cbn in Hp. subst p.
      destruct (Hnew _ c Hpc) as (i & Hi & Hz & Hst & He). rewrite (Sd k sl i Hk Hi).
      unfold slot_bytes, start_of. rewrite (Sh _ c i Hpc Hi), <- Hst. by case_decide.
Qed.

(** Write pointers only move up. *)
Lemma striped_mono c0 ivs0 rss buf s z :
  striped c0 ivs0 rss buf s -> 0 <= z < nz -> host_wp c0 z <= host_wp (z_ctl s) z.
Proof.
  intros Hst Hz. set (P := (concat (concat rss)).*1).
  destruct (decide (Exists (fun p => zone_number <$> ivs0 !! p = Some z) P)) as [Hex|Hno].
  - apply Exists_exists in Hex as (p & Hp & Hi). apply fmap_Some in Hi as (i & Hi & ->).
    unfold P in Hp. apply list_elem_of_fmap in Hp as ([p' c] & -> & Hpc).
    rewrite (st_wp _ _ _ _ _ Hst _ c i Hpc Hi). unfold IO_BLOCKS. lia.
  - rewrite (st_wp_other _ _ _ _ _ Hst z Hz); [done|]. intros p i Hp Hi <-. apply Hno.
    apply Exists_exists. exists p. by rewrite Hi.
Qed.

(** A striped write of other intervals keeps what is held. *)
Lemma striped_keeps s0 n ptrs bs rss buf s :
  good_cnt n -> ctl_ok (zs:=zs) (nz:=nz) (z_ctl s0) -> holds s0 n ptrs bs ->
  targets (nz:=nz) (z_ivs s0) (concat (concat rss)).*1 ->
  (forall p, p ∈ ptrs -> p ∉ (concat (concat rss)).*1) ->
  striped (z_ctl s0) (z_ivs s0) rss buf s -> holds s n ptrs bs.
Proof.
  intros Hgood Hok (r & l & -> & Hl & Hlen & Hfit & Hset & <-) Htg Hdis Hst.
  assert (forall p c, (p, c) ∈ l -> z_ivs s !! p = z_ivs s0 !! p) as Hheap.
  { intros p c Hp. apply (st_heap_other _ _ _ _ _ Hst), Hdis. by apply (list_elem_of_fmap_2 fst _ (p, c)). }
  exists r, l. repeat split; try done.
  - unfold settled in *. rewrite Forall_forall in Hset |- *. intros [p c] Hp.
    destruct (Hset _ Hp) as (i & Hi & Hz & Hs & He & Hw). exists i. cbn [fst snd] in *.
    rewrite (Hheap p c Hp). pose proof (striped_mono _ _ _ _ _ _ Hst Hz).
    repeat split; try done; lia.
  - rewrite !bind_concat. f_equal. apply list_fmap_ext. intros k sl Hk.
    apply list_elem_of_lookup_2 in Hk. unfold slot_bytes.
    destruct (slot_settled s0 n r l sl) as (i & Hi & Hz & Hlo & Hhi); try done.
    pose proof (slots_iv _ sl Hk) as Hin. rewrite concat_rounds_of in Hin by done.
    apply list_elem_of_fmap in Hin as ([p c] & Hp & Hpc). cbn in Hp. subst p.
    unfold start_of. rewrite (Hheap _ c Hpc), Hi. cbn. apply blocks_ext. intros x Hx.
    apply (st_frame _ _ _ _ _ Hst). intros q j Hq Hj.
    destruct (tg_zone _ _ Htg q Hq) as (j' & Hj' & Hzj). simplify_eq.
    pose proof (host_wp_range _ _ Hok Hzj). pose proof (host_wp_range _ _ Hok Hz).
    pose proof (ok_pos _ Hok).
    destruct (decide (zone_number j = zone_number i)) as [Heq|Hne]; [rewrite Heq; lia|].
    destruct (decide (zone_number j < zone_number i)); [right|left]; nia.
Qed.

(** Reading, opening and closing zones keep what is held. *)
Lemma same_store_keeps c c' ivs n ptrs bs :
  same_store (zs:=zs) (nz:=nz) (set_device (device c) (host_mem c') c) c' ->
  holds (Zst c ivs) n ptrs bs -> holds (Zst c' ivs) n ptrs bs.
Proof.
  intros [_ Hd _ Hl _] (r & l & -> & Hlen & ? & ? & Hset & <-). exists r, l.
  repeat split; try done.
  - eapply Forall_impl; [exact Hset|]. cbn. unfold host_wp. cbn in Hd. by rewrite Hd.
  - rewrite !bind_concat. f_equal. apply list_fmap_ext. intros k sl _. unfold slot_bytes.
    apply blocks_ext. intros. apply Hl.
Qed.
End Roundtrip.

(** ** The plan of a transfer

    The first loop of [izg_write]: what each zone of a transfer gets. *)

(** The even split of [w] I/Os over [n] zones. *)
Definition even (w n : nat) : list nat :=
  (fun j => w / n + if decide (j < w mod n) then 1 else 0)%nat <$> seq 0 n.

Lemma sum_even_from (q e n : nat) : forall a,
  sum_list ((fun j => q + if decide (j < e) then 1 else 0) <$> seq a n)%nat
  = (n * q + Nat.min n (e - a))%nat.
Proof.
  induction n as [|n IH]; intros a; [done|]. cbn [seq fmap list_fmap]. rewrite sum_list_cons, IH.
  case_decide; lia.
Qed.

Lemma sum_even w n : (0 < n)%nat -> sum_list (even w n) = w.
Proof.
  intros. unfold even. rewrite sum_even_from, Nat.sub_0_r.
  pose proof (Nat.mod_upper_bound w n). pose proof (Nat.div_mod w n). lia.
Qed.

Lemma even_le w n g : (0 < n)%nat -> (w <= n * g)%nat -> Forall (fun c => (c <= g)%nat) (even w n).
Proof.
  intros Hn Hw. apply Forall_fmap, Forall_forall. intros j _. cbn.
  pose proof (Nat.div_mod w n ltac:(lia)). pose proof (Nat.mod_upper_bound w n ltac:(lia)).
  case_decide; nia.
Qed.

(** The last group of [plan_sizes]. *)
Lemma plan_last (n w : nat) (cur : list Z) :
  (0 < n)%nat -> Z.of_nat n < 2 ^ 20 -> length cur = n -> 384 * Z.of_nat w < 2 ^ 32 ->
  imap (fun j _ => if Z.of_nat j <? (IO_BLOCKS * Z.of_nat w) mod u32 (Z.of_nat n * IO_BLOCKS) / IO_BLOCKS
     then u32 ((IO_BLOCKS * Z.of_nat w) / u32 (Z.of_nat n * IO_BLOCKS) + 1)
     else (IO_BLOCKS * Z.of_nat w) / u32 (Z.of_nat n * IO_BLOCKS)) cur
  = Z.of_nat <$> even w n.
Proof.
  intros Hn Hsmall Hcur Hw. unfold IO_BLOCKS. rewrite (u32_small (_ * 384)) by lia.
  rewrite (Z.mul_comm (Z.of_nat n) 384), Z.mul_mod_distr_l, Z.div_mul_cancel_l by lia.
  rewrite (Z.mul_comm 384 (_ mod _)), Z.div_mul by lia. rewrite <- Nat2Z.inj_mod, <- Nat2Z.inj_div.
  assert (Z.of_nat (w / n) <= Z.of_nat w) as Hle.
  { apply inj_le, Nat.Div0.div_le_upper_bound. nia. }
  apply list_eq. intros j. rewrite list_lookup_imap. unfold even. rewrite !list_lookup_fmap.
  destruct (decide (j < n)%nat) as [Hj|Hj].
  - destruct (cur !! j) eqn:Hc; [|apply lookup_ge_None in Hc; lia].
    rewrite lookup_seq_lt by done. cbn. f_equal. case_decide as Hd.
    + rewrite (proj2 (Z.ltb_lt _ _)) by lia. rewrite u32_small; lia.
    + rewrite (proj2 (Z.ltb_ge _ _)) by lia. lia.
  - rewrite (proj2 (lookup_ge_None cur j)), (proj2 (lookup_ge_None (seq 0 n) j));
      [done|rewrite length_seq; lia|lia].
Qed.

(** What [plan_sizes] gives the zones of [r] groups of [n] with [fs] I/Os free
    each: all but the last group are filled, the last one shares the rest. *)
Definition plan (n r w : nat) (fs : list nat) : list nat :=
  take ((r - 1) * n) fs ++ even (w - sum_list (take ((r - 1) * n) fs)) n.

Lemma plan_sizes_plan (n : nat) : forall (r w : nat) (fs : list nat),
  (0 < n)%nat -> Z.of_nat n < 2 ^ 20 -> 384 * Z.of_nat w < 2 ^ 32 -> (0 < r)%nat ->
  length fs = (r * n)%nat -> (sum_list (take ((r - 1) * n) fs) <= w)%nat ->
  plan_sizes r (Z.of_nat n) ((fun f => IO_BLOCKS * Z.of_nat f) <$> fs) (IO_BLOCKS * Z.of_nat w)
  = Some (Z.of_nat <$> plan n r w fs).
Proof.
  induction r as [|r IH]; intros w fs Hn Hsmall Hw Hr Hlen Hsum; [lia|].
  cbn [plan_sizes]. rewrite length_fmap, (proj2 (Z.ltb_ge _ _)) by nia.
  rewrite Nat2Z.id. rewrite <- fmap_take, <- fmap_drop. destruct r as [|r].
  - cbn zeta. unfold plan. change ((1 - 1) * n)%nat with O. cbn [take app].
    change (sum_list []) with O. rewrite Nat.sub_0_r.
    rewrite drop_ge, app_nil_r by lia. by rewrite plan_last by (rewrite ?length_fmap, ?length_take; lia).
  - unfold plan in *. replace (S (S r) - 1)%nat with (S r) in * by lia.
    replace (S r * n)%nat with (n + (S r - 1) * n)%nat in * by lia.
    rewrite <- take_take_drop in Hsum |- *. rewrite sum_list_with_app in Hsum |- *.
    assert (foldr Z.add 0 ((fun f : nat => IO_BLOCKS * Z.of_nat f) <$> take n fs)
      = IO_BLOCKS * Z.of_nat (sum_list (take n fs))) as ->.
    { clear. induction (take n fs) as [|f l IH]; [done|]. cbn [fmap list_fmap foldr].
      fold (fmap (M:=list) (fun f : nat => IO_BLOCKS * Z.of_nat f) l). rewrite IH, sum_list_cons.
      unfold IO_BLOCKS. lia. }
    rewrite (u32_small (_ - _)) by (unfold IO_BLOCKS; lia).
    replace (IO_BLOCKS * Z.of_nat w - IO_BLOCKS * Z.of_nat (sum_list (take n fs)))
      with (IO_BLOCKS * Z.of_nat (w - sum_list (take n fs))) by (unfold IO_BLOCKS; lia).
    rewrite IH by (rewrite ?length_drop; lia). cbn [mbind option_bind].
    rewrite !fmap_app, <- app_assoc, Nat.sub_add_distr. do 2 f_equal.
    rewrite <- list_fmap_compose. apply list_fmap_ext.
    intros i f _. cbn. unfold IO_BLOCKS. rewrite Z.mul_comm, Z.div_mul; done.
Qed.

Lemma length_plan n r w fs :
  (0 < r)%nat -> length fs = (r * n)%nat -> length (plan n r w fs) = length fs.
Proof.
  intros. unfold plan, even. rewrite length_app, length_fmap, length_seq, length_take.
  destruct r; [lia|]. nia.
Qed.

(** The plan is the whole transfer. *)
Lemma sum_plan n r w fs :
  (0 < n)%nat -> (sum_list (take ((r - 1) * n) fs) <= w)%nat -> sum_list (plan n r w fs) = w.
Proof. intros. unfold plan. rewrite sum_list_with_app, sum_even by done. lia. Qed.

(** The plan fits when the zones of the last group have the same free size. *)
Lemma plan_fits n r w fs g :
  (0 < n)%nat -> (0 < r)%nat -> drop ((r - 1) * n) fs = replicate n g ->
  (sum_list (take ((r - 1) * n) fs) <= w <= sum_list fs)%nat ->
  Forall2 (fun c f => (c <= f)%nat) (plan n r w fs) fs.
Proof.
  intros Hn Hr Hlast Hsum. unfold plan. rewrite <- (take_drop ((r - 1) * n) fs) at 3.
  apply Forall2_app; [by apply Forall_Forall2_diag, Forall_true|]. rewrite Hlast.
  apply Forall2_replicate_r; [unfold even; by rewrite length_fmap, length_seq|].
  apply even_le; [done|]. rewrite <- (take_drop ((r - 1) * n) fs) in Hsum at 2.
  rewrite sum_list_with_app, Hlast, sum_list_replicate in Hsum. lia.
Qed.

(** A transfer that is a multiple of the group is shared evenly. *)
Lemma even_mul n k : (0 < n)%nat -> even (n * k) n = replicate n k.
Proof.
  intros Hn. unfold even. rewrite Nat.mul_comm, Nat.div_mul, Nat.Div0.mod_mul by lia.
  apply list_eq. intros i. rewrite list_lookup_fmap. destruct (decide (i < n)%nat).
  - rewrite lookup_seq_lt, lookup_replicate_2 by done. cbn. f_equal. case_decide; lia.
  - rewrite (proj2 (lookup_ge_None (seq 0 n) i)), (proj2 (lookup_ge_None (replicate n k) i));
      [done|rewrite length_replicate; lia|rewrite length_seq; lia].
Qed.
