(* ===== verification/Izg.v ===== *)
(** env/IZG.h, env/IZG.cpp: independent zone groups.

    An IZG is a queue of the zones that share the device's internal resources.
    [Identify_IZG] builds them, [alloc_izg] books groups for a partition, and
    partitions draw zones from the groups in turn (Partition.v). *)
From S2P Require Import Prelude Nvme Controller Init Zone.
From stdpp Require Import base numbers list gmap strings.
From Stdlib Require Import ZArith Lia.
Local Open Scope Z_scope.

(** Partition flags (env/Partition.h). *)
Definition MAX_PARTITION : Z := 0.
Definition QOS_PARTITION : Z := 1.

Record IZG := MkIZG { zone_queue : list Z; total_zone : Z; alloc : Z }.

Definition new_IZG (zones : list Z) : IZG := MkIZG zones (u32 (Z.of_nat (length zones))) 0.

Definition get_next_zone (g : IZG) : Z * IZG :=
  match zone_queue g with
  | [] => (-1, g)
  | z :: q => (i32 z, MkIZG q (total_zone g) (alloc g))
  end.

(** The globals of IZG.cpp; [izgs] is the heap of IZG objects, the vector and
    the queue hold their addresses. *)
Record izg_st := IzgSt {
  izgs : list IZG; izg_map : list nat; inactive_izg_queue : list nat;
  total_izg_cnt : Z; available_izg_cnt : Z; iotable_r : list Z; iotable_w : list Z }.

Definition set_izgs (l : list IZG) (s : izg_st) : izg_st :=
  IzgSt l (izg_map s) (inactive_izg_queue s) (total_izg_cnt s) (available_izg_cnt s)
    (iotable_r s) (iotable_w s).
Definition set_inactive (q : list nat) (s : izg_st) : izg_st :=
  IzgSt (izgs s) (izg_map s) q (total_izg_cnt s) (available_izg_cnt s)
    (iotable_r s) (iotable_w s).
Definition set_available (n : Z) (s : izg_st) : izg_st :=
  IzgSt (izgs s) (izg_map s) (inactive_izg_queue s) (total_izg_cnt s) n
    (iotable_r s) (iotable_w s).
Definition set_counts (n : Z) (s : izg_st) : izg_st :=
  IzgSt (izgs s) (izg_map s) (inactive_izg_queue s) n n (iotable_r s) (iotable_w s).
Definition set_tables (r w : list Z) (s : izg_st) : izg_st :=
  IzgSt (izgs s) (izg_map s) (inactive_izg_queue s) (total_izg_cnt s) (available_izg_cnt s) r w.

(** Book the groups of a new partition: the number of groups, or -1. *)
Definition alloc_izg (flags iolevel : Z) : prog izg_st Z :=
  s ← gets id;
  if flags =? MAX_PARTITION then mret (i32 (available_izg_cnt s))
  else if flags =? QOS_PARTITION then
    let num := i32 iolevel in
    if (num <? 0) || (available_izg_cnt s <? num) then mret (-1)
    else modify (set_available (u32 (available_izg_cnt s - num)));; mret num
  else mret (-1).

(** [izg_zone->push(i); for (j = i + distance; j < total_zone; j += distance)];
    the fuel bounds the number of zones. *)
Fixpoint strided (fuel : nat) (j distance total : Z) : list Z :=
  match fuel with
  | O => []
  | S fuel' => if j <? total then j :: strided fuel' (u32 (j + distance)) distance total else []
  end.

Definition izg_zones (i distance total : Z) : list Z :=
  i :: strided (Z.to_nat total) (u32 (i + distance)) distance total.

(** One iteration of the loop of [Identify_IZG]. *)
Definition push_izg (i distance total : Z) (s : izg_st) : izg_st :=
  let a := length (izgs s) in
  IzgSt (izgs s ++ [new_IZG (izg_zones i distance total)]) (izg_map s ++ [a])
    (inactive_izg_queue s ++ [a]) (total_izg_cnt s) (available_izg_cnt s)
    (iotable_r s) (iotable_w s).

Definition build_izgs (distance total : Z) (s : izg_st) : izg_st :=
  foldl (fun s i => push_izg i distance total s) s (seqZ 0 distance).

Section Izg.
Context `{D : NvmeDevice}.
Context (junk : nat -> list Byte.byte) (junk_desc : zone_descriptor) (shr32 : Z -> Z).
(** Enough for the report loop of [zns_get_zone_desc]. *)
Context (fuel : nat).

Record hw := Hw { h_ctl : ctl; h_izg : izg_st }.
Definition hw_ctl : lens hw ctl := Lens h_ctl (fun c s => Hw c (h_izg s)).
Definition hw_izg : lens hw izg_st := Lens h_izg (fun i s => Hw (h_ctl s) i).

(** ** Measuring threads *)

(** I/Os of [_192KB] in a zone. *)
Definition zone_ios (c : ctl) : Z := u64 (zsze (zonef (info c)) * BLOCK_SIZE) / _192KB.

Definition zone_write (test_data : ptr) (num : Z) : prog ctl unit :=
  zns_set_zone num MAN_OPEN;;
  n ← gets zone_ios;
  repeatM (Z.to_nat n) (zns_write test_data _192KB num;; mret tt);;
  zns_set_zone num MAN_CLOSE.

(** [(i * _192KB)/BLOCK_SIZE] in [int] arithmetic, which must not overflow. *)
Definition zone_read_io (test_data : ptr) (num i : Z) : prog ctl unit :=
  if 2 ^ 31 <=? i * _192KB then undefined
  else zns_read test_data _192KB num (i * _192KB / BLOCK_SIZE);; mret tt.

Definition zone_read (test_data : ptr) (num : Z) : prog ctl unit :=
  n ← gets zone_ios;
  iterM (zone_read_io test_data num) (seqZ 0 n).

(** The threads are joined before the zones are reset; the times they take are
    not part of the model. *)
Definition get_zone_write_time (test_data : ptr) (zone_number : Z) : prog ctl unit :=
  zone_write test_data zone_number;; zns_set_zone zone_number MAN_RESET.

(** ** Initialisation *)

Definition format : prog ctl Z :=
  zns_format;;
  zns_get_zone_desc junk shr32 fuel REPORT_ALL REPORT_ALL_STATE 0 0 true;;
  mret 0.

Definition Identify_HW (zfd : Z) : prog ctl Z :=
  ret ← zns_get_info junk junk_desc zfd;
  zns_get_zone_desc junk shr32 fuel REPORT_ALL REPORT_ALL_STATE 0 0 true;;
  mret ret.

(** [memset(test_data, c, n)]. *)
Definition memset (p : ptr) (c : Byte.byte) (n : Z) : prog ctl unit := fun s =>
  match store (host_mem s) p (replicate (Z.to_nat n) c) with
  | Some m => Ret tt (set_device (device s) m s)
  | None => UB
  end.

(** The group distance is fixed at 32 and the number of zones at 128. *)
Definition Identify_IZG : prog hw Z :=
  test_data ← zoom hw_ctl (malloc junk _192KB);
  zoom hw_ctl (memset test_data Byte.x4f _192KB);;
  zoom hw_izg (modify (build_izgs 32 128));;
  zoom hw_izg (modify (set_counts 32));;
  zoom hw_ctl format;;
  zoom hw_ctl (free test_data);;
  mret 0.
End Izg.
