(* ===== verification/Partition.v ===== *)
(** env/Partition.h, env/Partition.cpp: logical partitions.

    A partition owns a vector of zones, the map from names to user data, and
    the queue its worker thread serves. [close] frees the queue, the status
    word and their locks, so every later use of them is undefined. *)
From S2P Require Import Prelude Nvme Controller Zone Izg.
From stdpp Require Import base numbers list gmap strings.
From Stdlib Require Import ZArith Lia.
Local Open Scope Z_scope.

Definition Z_ASYNC : Z := 0.
Definition Z_SYNC : Z := 1.
Definition Z_UPDATE : Z := 1.
Definition Z_APPEND : Z := 2.

(** Values of the status word. *)
Definition OPEN : Z := 0.
Definition CLOSE : Z := 1.

(** [io_queue], [status] and their locks are [None] once deleted; requests and
    user data are addresses in their heaps. *)
Record Partition := MkPartition {
  p_id : Z; p_name : string; p_izg_cnt : Z; mk_flag : Z; op_flag : Z;
  p_status : option Z; io_queue : option (list nat); worker : bool;
  userdata_map : gmap string nat; zone_vector : list Zone; partition_locked : bool }.

Definition set_status (x : option Z) (p : Partition) : Partition :=
  MkPartition (p_id p) (p_name p) (p_izg_cnt p) (mk_flag p) (op_flag p) x (io_queue p)
    (worker p) (userdata_map p) (zone_vector p) (partition_locked p).
Definition set_queue (q : option (list nat)) (p : Partition) : Partition :=
  MkPartition (p_id p) (p_name p) (p_izg_cnt p) (mk_flag p) (op_flag p) (p_status p) q
    (worker p) (userdata_map p) (zone_vector p) (partition_locked p).
Definition set_worker (b : bool) (p : Partition) : Partition :=
  MkPartition (p_id p) (p_name p) (p_izg_cnt p) (mk_flag p) (op_flag p) (p_status p)
    (io_queue p) b (userdata_map p) (zone_vector p) (partition_locked p).
Definition set_op_flag (f : Z) (p : Partition) : Partition :=
  MkPartition (p_id p) (p_name p) (p_izg_cnt p) (mk_flag p) f (p_status p)
    (io_queue p) (worker p) (userdata_map p) (zone_vector p) (partition_locked p).
Definition set_userdata_map (m : gmap string nat) (p : Partition) : Partition :=
  MkPartition (p_id p) (p_name p) (p_izg_cnt p) (mk_flag p) (op_flag p) (p_status p)
    (io_queue p) (worker p) m (zone_vector p) (partition_locked p).
Definition set_zone_vector (l : list Zone) (p : Partition) : Partition :=
  MkPartition (p_id p) (p_name p) (p_izg_cnt p) (mk_flag p) (op_flag p) (p_status p)
    (io_queue p) (worker p) (userdata_map p) l (partition_locked p).
Definition set_plock (b : bool) (p : Partition) : Partition :=
  MkPartition (p_id p) (p_name p) (p_izg_cnt p) (mk_flag p) (op_flag p) (p_status p)
    (io_queue p) (worker p) (userdata_map p) (zone_vector p) b.

(** The constructor; [op_flag] is not initialised. *)
Definition new_Partition (junk_flag next_id : Z) (name : string) (izg_num flag : Z) : Partition :=
  MkPartition next_id name izg_num flag junk_flag (Some CLOSE) (Some []) false ∅ [] false.

Definition Partition_open (flag : Z) : prog Partition unit :=
  st ← gets p_status;
  st ← the st;
  if st =? OPEN then exit0 else
  modify (set_status (Some OPEN));;
  modify (set_op_flag flag);;
  modify (set_worker true).

Definition get_name (p : Partition) : string := p_name p.
Definition get_id (p : Partition) : Z := p_id p.
Definition get_izg_cnt (p : Partition) : Z := u32 (p_izg_cnt p).
Definition get_mkflag (p : Partition) : Z := mk_flag p.

Definition get_status : prog Partition Z := st ← gets p_status; the st.

(** A mutex that is already held blocks its owner for good; unlocking one that
    is not held is undefined. *)
Definition lock_partition : prog Partition unit :=
  b ← gets partition_locked;
  if (b : bool) then hang else modify (set_plock true).
Definition unlock_partition : prog Partition unit :=
  b ← gets partition_locked;
  if (b : bool) then modify (set_plock false) else undefined.

Definition userdata_exist (name : string) (p : Partition) : bool :=
  match userdata_map p !! name with Some _ => true | None => false end.
(** [find] followed by a dereference of the iterator. *)
Definition get_userdata (name : string) : prog Partition nat :=
  m ← gets userdata_map; the (m !! name).
Definition invalid_userdata (name : string) : prog Partition Z :=
  modify (fun p => set_userdata_map (delete name (userdata_map p)) p);; mret 0.
(** [std::map::insert]: an existing entry stays. *)
Definition new_userdata (name : string) (ud : nat) : prog Partition Z :=
  modify (fun p => if userdata_exist name p then p
                   else set_userdata_map (<[name := ud]> (userdata_map p)) p);;
  mret 0.

Definition new_request (request : nat) : prog Partition Z :=
  q ← gets io_queue;
  q ← the q;
  modify (set_queue (Some (q ++ [request])));;
  mret 0.

(** ** Zones *)

Record alloc_st := AllocSt { a_izg : izg_st; a_part : Partition }.
Definition alloc_izg_lens : lens alloc_st izg_st := Lens a_izg (fun i s => AllocSt i (a_part s)).
Definition alloc_part_lens : lens alloc_st Partition := Lens a_part (fun p s => AllocSt (a_izg s) p).

(** [inactive_izg_queue.front()], its next zone, and the rotation of the queue. *)
Definition draw_zone : prog izg_st Z := fun s =>
  match inactive_izg_queue s with
  | [] => UB
  | a :: q =>
    match izgs s !! a with
    | None => UB
    | Some g =>
      let '(next_zone, g') := get_next_zone g in
      if next_zone <? 0 then Ret (-1) s
      else Ret next_zone (set_inactive (q ++ [a]) (set_izgs (<[a := g']> (izgs s)) s))
    end
  end.

Definition alloc_zone : prog alloc_st Z :=
  next_zone ← zoom alloc_izg_lens draw_zone;
  if next_zone <? 0 then mret (-1) else
  zoom alloc_part_lens
    (modify (fun p => set_zone_vector (zone_vector p ++ [MkZone (u32 next_zone) []]) p));;
  mret 0.

Definition zone_empty (p : Partition) : bool :=
  match zone_vector p with [] => true | _ => false end.
Definition zone_size (p : Partition) : Z := i32 (Z.of_nat (length (zone_vector p))).
