(* ===== verification/Userdata.v ===== *)
(** env/Userdata.h, env/Userdata.cpp: named byte streams.

    A [Userdata] is a list of segments ordered by offset, each with the
    intervals its bytes were striped over. Appending allocates zones, makes the
    intervals and runs [izg_write]; reading runs [izg_read] segment by segment. *)
From S2P Require Import Prelude Nvme Controller Zone Izg Partition.
From stdpp Require Import base numbers list gmap strings.
From Stdlib Require Import ZArith Lia.
Local Open Scope Z_scope.

Record Segment := MkSegment {
  seg_id : Z; seg_offset : Z; seg_size : Z; interval_vector : list nat }.

Definition get_next_offset (s : Segment) : Z := u32 (seg_offset s + seg_size s).
Definition set_interval_list (l : list nat) (s : Segment) : Segment :=
  MkSegment (seg_id s) (seg_offset s) (seg_size s) l.

(** [Segment::operator<]. *)
Definition seg_lt (a b : Segment) : bool := seg_offset a <? seg_offset b.

(** [std::upper_bound] over [cont[first .. first+len)]. *)
Fixpoint upper_bound (fuel : nat) (cont : list Segment) (first len : nat) (v : Segment) : nat :=
  match fuel with
  | O => first
  | S fuel' =>
    match len with
    | O => first
    | S _ =>
      let half := Nat.div2 len in
      match cont !! (first + half)%nat with
      | None => first
      | Some m => if seg_lt v m then upper_bound fuel' cont first half v
                  else upper_bound fuel' cont (S (first + half)) (len - half - 1) v
      end
    end
  end.

Definition insert_segment (cont : list Segment) (v : Segment) : list Segment :=
  let i := upper_bound (S (length cont)) cont 0 (length cont) v in
  take i cont ++ v :: drop i cont.

(** [write_lock] and the segments are members; [segs_freed] records that
    [Delete] freed the segments, whose addresses stay in the vector. *)
Record Userdata := MkUserdata {
  next_segment_id : Z; file_segment : list Segment; ud_size : Z;
  remain_write_req : Z; write_lock : bool; segs_freed : bool }.

Definition set_file (l : list Segment) (u : Userdata) : Userdata :=
  MkUserdata (next_segment_id u) l (ud_size u) (remain_write_req u) (write_lock u) (segs_freed u).
Definition set_next_id (n : Z) (u : Userdata) : Userdata :=
  MkUserdata n (file_segment u) (ud_size u) (remain_write_req u) (write_lock u) (segs_freed u).
Definition set_ud_size (n : Z) (u : Userdata) : Userdata :=
  MkUserdata (next_segment_id u) (file_segment u) n (remain_write_req u) (write_lock u) (segs_freed u).
Definition set_remain (n : Z) (u : Userdata) : Userdata :=
  MkUserdata (next_segment_id u) (file_segment u) (ud_size u) n (write_lock u) (segs_freed u).
Definition set_lock (b : bool) (u : Userdata) : Userdata :=
  MkUserdata (next_segment_id u) (file_segment u) (ud_size u) (remain_write_req u) b (segs_freed u).
Definition set_freed (u : Userdata) : Userdata :=
  MkUserdata (next_segment_id u) (file_segment u) (ud_size u) (remain_write_req u) (write_lock u) true.

(** The constructor does not initialise [next_segment_id]. *)
Definition new_Userdata (junk_id : Z) : Userdata := MkUserdata junk_id [] 0 0 false false.
Definition Get_size (u : Userdata) : Z := ud_size u.

(** [size / BLOCK_SIZE], rounded up. *)
Definition to_blocks (size : Z) : Z :=
  if size mod BLOCK_SIZE =? 0 then size / BLOCK_SIZE else u32 (size / BLOCK_SIZE + 1).

Section Userdata.
Context `{D : NvmeDevice}.
(** Whether a [push_back] on a vector of this length moves its elements, which
    invalidates iterators: the growth policy of the C++ library. *)
Context (vec_realloc : nat -> bool).

Record ust := Ust { u_z : zst; u_izg : izg_st; u_part : Partition }.
Definition ust_zst : lens ust zst := Lens u_z (fun z s => Ust z (u_izg s) (u_part s)).
Definition ust_ctl : lens ust ctl :=
  Lens (fun s => z_ctl (u_z s)) (fun c s => Ust (Zst c (z_ivs (u_z s))) (u_izg s) (u_part s)).
Definition ust_alloc : lens ust alloc_st :=
  Lens (fun s => AllocSt (u_izg s) (u_part s)) (fun a s => Ust (u_z s) (a_izg a) (a_part a)).

Definition alloc_or_exit : prog ust unit :=
  r ← zoom ust_alloc alloc_zone;
  if r <? 0 then exit0 else mret tt.

(** [for (i = 0; i < izg_cnt - partition->zone_size(); i++)]: the bound is
    evaluated in every iteration. *)
Fixpoint alloc_missing (fuel : nat) (i izg_cnt : Z) : prog ust unit :=
  match fuel with
  | O => mret tt
  | S fuel' =>
    p ← gets u_part;
    if i <? u32 (izg_cnt - zone_size p)
    then alloc_or_exit;; alloc_missing fuel' (i + 1) izg_cnt
    else mret tt
  end.

Definition zone_at (k : Z) : prog ust Zone :=
  p ← gets u_part;
  if k <? 0 then undefined else the (zone_vector p !! Z.to_nat k).

(** The loop over the last [n] zones: one new zone for each full one. [it] is
    the position of the iterator, [ok] whether it is still valid. *)
Fixpoint refresh (n : nat) (it : Z) (ok : bool) : prog ust unit :=
  match n with
  | O => mret tt
  | S n' =>
    if negb ok then undefined else
    z ← zone_at it;
    full ← zoom ust_ctl (Zone_full z);
    if (full : bool) then
      p ← gets u_part;
      alloc_or_exit;; refresh n' (it - 1) (negb (vec_realloc (length (zone_vector p))))
    else refresh n' (it - 1) ok
  end.

(** Free sizes of the last [cnt] zones that are not full, from the zone before
    position [k] backwards, and what is left of [target_size]. *)
Fixpoint collect_free (k cnt : nat) (target : Z) : prog ust (list Z * Z) :=
  match cnt with
  | O => mret ([], target)
  | S cnt' =>
    match k with
    | O => undefined
    | S k' =>
      z ← zone_at (Z.of_nat k');
      full ← zoom ust_ctl (Zone_full z);
      if (full : bool) then collect_free k' cnt target
      else
        f ← zoom ust_ctl (Zone_get_free_size z);
        '(l, target') ← collect_free k' cnt' (i32 (target - f));
        mret (f :: l, target')
    end
  end.

(** The body of [while (target_size > 0)]: a group of new zones. *)
Fixpoint grow_group (n : nat) (target : Z) (ws : list Z) : prog ust (Z * list Z) :=
  match n with
  | O => mret (target, ws)
  | S n' =>
    alloc_or_exit;;
    zsz ← zoom ust_ctl zns_get_zone_size;
    grow_group n' (i32 (target - zsz)) (ws ++ [zsz])
  end.

(** Every iteration with a non-empty group takes zones from the groups, so the
    zones still queued bound the number of iterations. *)
Fixpoint grow (fuel : nat) (izg_cnt target : Z) (ws : list Z) (cnt : Z) : prog ust (list Z * Z) :=
  if 0 <? target then
    match fuel with
    | O => hang
    | S fuel' =>
      '(target', ws') ← grow_group (Z.to_nat izg_cnt) target ws;
      grow fuel' izg_cnt target' ws' (u32 (cnt + izg_cnt))
    end
  else mret (ws, cnt).

Definition queued_zones (s : izg_st) : nat := sum_list ((fun g => length (zone_queue g)) <$> izgs s).

(** [new class Interval(...)]: its address. *)
Definition alloc_interval (i : Interval) : prog ust nat := fun s =>
  Ret (length (z_ivs (u_z s)))
    (Ust (Zst (z_ctl (u_z s)) (z_ivs (u_z s) ++ [i])) (u_izg s) (u_part s)).

(** The intervals of the last [cnt] zones that are not full, in the order they
    are made: from the end of the vector backwards. *)
Fixpoint make_intervals (k cnt : nat) (sid : Z) : prog ust (list nat) :=
  match cnt with
  | O => mret []
  | S cnt' =>
    match k with
    | O => undefined
    | S k' =>
      z ← zone_at (Z.of_nat k');
      full ← zoom ust_ctl (Zone_full z);
      if (full : bool) then make_intervals k' cnt sid
      else
        w ← zoom ust_ctl (Zone_get_wp z);
        a ← alloc_interval (new_Interval (Zone_get_zone_number z) sid w w);
        modify (fun s => Ust (u_z s) (u_izg s)
          (set_zone_vector (alter (insert_interval a) k' (zone_vector (u_part s))) (u_part s)));;
        l ← make_intervals k' cnt' sid;
        mret (a :: l)
    end
  end.

(** The first part of [Userdata::_write]: zones to write to. *)
Definition prepare_zones (p : Partition) : prog ust unit :=
  let n := Z.to_nat (get_izg_cnt p) in
  if zone_empty p then repeatM n alloc_or_exit
  else if u32 (zone_size p) <? get_izg_cnt p then alloc_missing n 0 (get_izg_cnt p)
  else refresh n (Z.of_nat (length (zone_vector p)) - 1) true.

(** The rest of it: collect the free sizes, add groups until the data fits,
    make the intervals and transfer. *)
Definition write_prepared (sched : nat -> list nat) (segment : Segment) (buf : ptr)
    (izg_cnt write_size : Z) : prog ust (Segment * Z) :=
  p ← gets u_part;
  '(ws, target) ← collect_free (length (zone_vector p)) (Z.to_nat izg_cnt) (i32 write_size);
  iz ← gets u_izg;
  '(ws, target_zone_cnt) ← grow (S (queued_zones iz)) izg_cnt target (reverse ws) izg_cnt;
  p ← gets u_part;
  ivs ← make_intervals (length (zone_vector p)) (Z.to_nat target_zone_cnt) (seg_id segment);
  let interval_list := reverse ivs in
  ret ← zoom ust_zst (izg_write sched buf izg_cnt target_zone_cnt interval_list ws write_size);
  mret (set_interval_list interval_list segment, ret).

(** [Userdata::_write]: the segment with its interval list, and the result. *)
Definition _write (sched : nat -> list nat) (segment : Segment) (buf : ptr) (write_size : Z)
  : prog ust (Segment * Z) :=
  p ← gets u_part;
  prepare_zones p;;
  write_prepared sched segment buf (get_izg_cnt p) write_size.

(** [Userdata::_read]. *)
Definition _read (sched : nat -> list nat) (segment : Segment) (buf : ptr) (req_size : Z)
  : prog ust Z :=
  p ← gets u_part;
  zoom ust_zst (izg_read sched buf (get_izg_cnt p)
    (u32 (Z.of_nat (length (interval_vector segment)))) (interval_vector segment) req_size).

(** ** The operations of the class *)

Record uds := Uds { d_us : ust; d_ud : Userdata }.
Definition uds_us : lens uds ust := Lens d_us (fun u s => Uds u (d_ud s)).
Definition uds_ud : lens uds Userdata := Lens d_ud (fun u s => Uds (d_us s) u).
Definition get_ud {A} (f : Userdata -> A) : prog uds A := gets (fun s => f (d_ud s)).
Definition put_ud (f : Userdata -> Userdata) : prog uds unit := zoom uds_ud (modify f).

(** [while (write_lock.test_and_set(...));] spins for good on a lock its own
    thread holds. *)
Definition spin_lock : prog uds unit :=
  b ← get_ud write_lock;
  if (b : bool) then hang else put_ud (set_lock true).
Definition spin_unlock : prog uds unit := put_ud (set_lock false).

(** A use of the segments after [Delete] is a use of freed objects. *)
Definition segments : prog uds (list Segment) :=
  u ← get_ud id;
  if segs_freed u && negb (bool_decide (file_segment u = [])) then undefined
  else mret (file_segment u).

(** The loop of [Read] over the segments; returns the blocks still wanted.
    [sched k] is the schedule of the k-th transfer. *)
Fixpoint read_segments (sched : nat -> nat -> list nat) (k : nat) (segs : list Segment)
    (buf : ptr) (read_size : Z) : prog uds Z :=
  match segs with
  | [] => mret read_size
  | seg :: segs' =>
    if read_size <=? 0 then mret read_size else
    zoom uds_us (_read (sched k) seg buf (seg_size seg));;
    read_segments sched (S k) segs' (ptr_add buf (u32 (seg_size seg * BLOCK_SIZE)))
      (u32 (read_size - seg_size seg))
  end.

Definition Read (sched : nat -> nat -> list nat) (buf : ptr) (read_size : Z) : prog uds Z :=
  spin_lock;;
  segs ← segments;
  left ← read_segments sched 0 segs buf (to_blocks read_size);
  if negb (left =? 0) then exit0 else
  spin_unlock;;
  mret 0.

Definition Append (sched : nat -> list nat) (buf : ptr) (write_size : Z) : prog uds Z :=
  let write_size := to_blocks write_size in
  spin_lock;;
  put_ud (fun u => set_remain (u32 (remain_write_req u + 1)) u);;
  segs ← segments;
  let offset := match last segs with None => 0 | Some s => get_next_offset s end in
  id ← get_ud next_segment_id;
  put_ud (fun u => set_next_id (u32 (next_segment_id u + 1)) u);;
  '(seg, write_result) ← zoom uds_us (_write sched (MkSegment id offset write_size []) buf write_size);
  if write_result <? 0 then spin_unlock;; exit0 else
  put_ud (fun u => set_file (insert_segment (file_segment u) seg) u);;
  put_ud (fun u => set_ud_size (u32 (ud_size u + write_size)) u);;
  put_ud (fun u => set_remain (u32 (remain_write_req u - 1)) u);;
  spin_unlock;;
  mret 0.

(** Mark the intervals of a segment invalid. *)
Definition invalid_segment (seg : Segment) : prog uds Z :=
  iterM (fun iv => zoom uds_us (zoom ust_zst (
    i ← interval_at iv;
    modify (fun z => Zst (z_ctl z) (<[iv := Interval_invalid i]> (z_ivs z)))))) (interval_vector seg);;
  mret 0.

Definition Userdata_Delete : prog uds Z :=
  spin_lock;;
  put_ud (fun u => set_remain (u32 (remain_write_req u + 1)) u);;
  segs ← segments;
  iterM (fun seg => invalid_segment seg;; mret tt) segs;;
  put_ud set_freed;;
  put_ud (fun u => set_remain (u32 (remain_write_req u - 1)) u);;
  spin_unlock;;
  mret 0.

(** [while (remain_write_req != 0);] under the lock. *)
Definition Sync : prog uds Z :=
  spin_lock;;
  r ← get_ud remain_write_req;
  if negb (r =? 0) then hang else
  spin_unlock;;
  mret 0.
End Userdata.
