(* ===== verification/UserdataSpec.v ===== *)
(** Correctness of [Userdata]: appending keeps the stripes balanced and stores
    the bytes, reading returns them. *)
From S2P Require Import Prelude Nvme Controller Zone Stripe Transfer Rounds Roundtrip Izg.
From S2P Require Import Partition Userdata.
From stdpp Require Import base numbers list gmap strings.
From Stdlib Require Import ZArith Lia.
Local Open Scope Z_scope.

(** ** Drawing zones *)

(** [k] zones drawn one after the other. *)
Fixpoint draws (k : nat) (s : izg_st) : option (list Z * izg_st) :=
  match k with
  | O => Some ([], s)
  | S k' =>
    match draw_zone s with
    | Ret z s' => if z <? 0 then None else '(l, s'') ← draws k' s'; Some (z :: l, s'')
    | _ => None
    end
  end.

Definition queued (s : izg_st) : list Z := izgs s ≫= zone_queue.

Lemma queued_length s : length (queued s) = queued_zones s.
Proof.
  unfold queued, queued_zones. induction (izgs s) as [|g l IH]; [done|].
  rewrite bind_cons, length_app, IH. done.
Qed.

(** A successful draw takes one of the queued zones. *)
Lemma draw_zone_queued s z s' :
  draw_zone s = Ret z s' -> 0 <= z -> exists x, z = i32 x /\ queued s ≡ₚ x :: queued s'.
Proof.
  unfold draw_zone. destruct (inactive_izg_queue s) as [|a q]; [done|].
  destruct (izgs s !! a) as [g|] eqn:Ha; [|done]. unfold get_next_zone.
  destruct (zone_queue g) as [|x zq] eqn:Hq; cbn.
  { intros [= <- <-]. lia. }
  destruct (Z.ltb_spec (i32 x) 0); [intros [= <- <-]; lia|]. intros [= <- <-] _. exists x.
  split; [done|]. unfold queued. cbn. rewrite <- (list_insert_id (izgs s) a g Ha) at 1.
  pose proof (lookup_lt_Some _ _ _ Ha) as Hlt.
  rewrite !(insert_take_drop _ _ _ Hlt), !bind_app, !bind_cons. cbn. rewrite Hq.
  cbn. by rewrite <- Permutation_middle.
Qed.

Lemma draws_queued k s l s' :
  draws k s = Some (l, s') ->
  exists xs, l = i32 <$> xs /\ queued s ≡ₚ xs ++ queued s' /\ length l = k /\ Forall (fun z => 0 <= z) l.
Proof.
  revert s l s'. induction k as [|k IH]; intros s l s' H; cbn in H.
  { injection H as <- <-. by exists []. }
  destruct (draw_zone s) as [z s1| | |] eqn:Hd; try done.
  destruct (Z.ltb_spec z 0); [done|]. destruct (draws k s1) as [[l1 s2]|] eqn:Hk; [|done].
  injection H as <- <-. destruct (draw_zone_queued _ _ _ Hd) as (x & -> & Hp); [done|].
  destruct (IH _ _ _ Hk) as (xs & -> & Hp' & Hl & Hf). exists (x :: xs).
  split; [done|]. split; [by rewrite Hp, Hp'|]. split; [cbn; by rewrite Hl|]. by constructor.
Qed.

Lemma draws_length k s l s' : draws k s = Some (l, s') -> (k <= queued_zones s)%nat.
Proof.
  intros (xs & -> & Hp & Hl & _)%draws_queued. rewrite length_fmap in Hl.
  rewrite <- queued_length, Hp, length_app. lia.
Qed.

Lemma draws_add a b s l s' :
  draws (a + b) s = Some (l, s') ->
  exists l1 l2 s1, draws a s = Some (l1, s1) /\ draws b s1 = Some (l2, s') /\ l = l1 ++ l2.
Proof.
  revert s l. induction a as [|a IH]; intros s l H; cbn in *; [by exists [], l, s|].
  destruct (draw_zone s) as [z s1| | |]; try done. destruct (z <? 0); [done|].
  destruct (draws (a + b) s1) as [[l1 s2]|] eqn:Hk; [|done]. injection H as <- <-.
  destruct (IH _ _ Hk) as (l2 & l3 & s3 & H1 & H2 & ->). rewrite H1. by exists (z :: l2), l3, s3.
Qed.

(** The zones [l] appended to the vector of a partition. *)
Definition push_zones (l : list Z) (p : Partition) : Partition :=
  set_zone_vector (zone_vector p ++ ((fun z => MkZone (u32 z) []) <$> l)) p.

Lemma push_zones_nil p : push_zones [] p = p.
Proof. unfold push_zones. cbn. rewrite app_nil_r. by destruct p. Qed.
Lemma push_zones_app l1 l2 p : push_zones l2 (push_zones l1 p) = push_zones (l1 ++ l2) p.
Proof. unfold push_zones, set_zone_vector. cbn. by rewrite fmap_app, app_assoc. Qed.

Section Spec.
Context `{D : NvmeDevice} {zs nz : Z} `{Zd : !ZnsDevice D zs nz}.
Context (vec_realloc : nat -> bool).
Implicit Types (s : ust).

Lemma alloc_or_exit_ok s z izg' :
  draw_zone (u_izg s) = Ret z izg' -> 0 <= z ->
  alloc_or_exit s = Ret tt (Ust (u_z s) izg' (push_zones [z] (u_part s))).
Proof.
  intros Hd Hz. unfold alloc_or_exit, alloc_zone, zoom, mbind, prog_bind.
  cbn [view ust_alloc alloc_izg_lens alloc_part_lens a_izg a_part set]. rewrite Hd.
  rewrite (proj2 (Z.ltb_ge _ _)) by done. done.
Qed.

Lemma repeat_alloc_ok k s l izg' :
  draws k (u_izg s) = Some (l, izg') ->
  repeatM k alloc_or_exit s = Ret tt (Ust (u_z s) izg' (push_zones l (u_part s))).
Proof.
  revert s l. induction k as [|k IH]; intros s l H; cbn in H.
  { injection H as <- <-. rewrite push_zones_nil. by destruct s. }
  destruct (draw_zone (u_izg s)) as [z izg1| | |] eqn:Hd; try done.
  destruct (Z.ltb_spec z 0); [done|]. destruct (draws k izg1) as [[l1 izg2]|] eqn:Hk; [|done].
  injection H as <- <-. cbn [repeatM]. erewrite bind_Ret by (by apply alloc_or_exit_ok).
  rewrite (IH _ l1) by done. cbn. by rewrite push_zones_app.
Qed.

(** ** Zones of a partition *)

Definition zfree (s : ust) (z : Zone) : Z := free_blocks (zs:=zs) (z_ctl (u_z s)) (number z).

Lemma zone_at_ok s k z :
  zone_vector (u_part s) !! k = Some z -> zone_at (Z.of_nat k) s = Ret z s.
Proof.
  intros Hk. unfold zone_at, gets, mbind, prog_bind. rewrite (proj2 (Z.ltb_ge _ _)) by lia.
  by rewrite Nat2Z.id, Hk.
Qed.

(** A query of the controller leaves the state alone. *)
Lemma zoom_query {A} (m : prog ctl A) s a :
  m (z_ctl (u_z s)) = Ret a (z_ctl (u_z s)) -> zoom ust_ctl m s = Ret a s.
Proof. intros H. destruct s as [[c ivs] iz p]. by apply (zoom_Ret ust_ctl). Qed.

Lemma full_ok s z :
  ctl_ok (zs:=zs) (nz:=nz) (z_ctl (u_z s)) -> 0 <= number z < nz ->
  zoom ust_ctl (Zone_full z) s = Ret (zfree s z <=? 0) s.
Proof.
  intros Hok Hz. apply zoom_query. by apply zns_full_zone_ok.
Qed.

Lemma free_size_ok s z :
  ctl_ok (zs:=zs) (nz:=nz) (z_ctl (u_z s)) -> 0 <= number z < nz ->
  zoom ust_ctl (Zone_get_free_size z) s = Ret (zfree s z) s.
Proof.
  intros Hok Hz. apply zoom_query.
  set (c := z_ctl (u_z s)) in *. unfold Zone_get_free_size, zns_get_start_lba.
  destruct (desc_at_ok c (number z) Hok Hz) as (zd & Hd & _ & Hs & _).
  pose proof (host_wp_range c _ Hok Hz). pose proof (ok_pos c Hok). pose proof (ok_fits c Hok).
  erewrite bind_Ret by (by erewrite bind_Ret by exact Hd). rewrite Hs.
  erewrite bind_Ret by (by apply zns_get_wp_ok). unfold zns_get_zone_size, gets, mbind, prog_bind.
  rewrite (ok_zsze c Hok). unfold zfree, free_blocks. fold c.
  assert (0 <= number z * zs < 2 ^ 32) by nia. assert (zs < 2 ^ 32) by nia.
  rewrite (u32_small zs), (u32_small (number z * zs)) by lia.
  rewrite (u32_small (_ - number z * zs)) by nia. unfold mret, prog_ret. f_equal.
  rewrite u32_small; lia.
Qed.

Lemma get_wp_ok s z :
  ctl_ok (zs:=zs) (nz:=nz) (z_ctl (u_z s)) -> 0 <= number z < nz ->
  zoom ust_ctl (Zone_get_wp z) s = Ret (host_wp (z_ctl (u_z s)) (number z)) s.
Proof.
  intros Hok Hz. apply zoom_query. by apply zns_get_wp_ok.
Qed.

(** A zone of the namespace with [f] free blocks. *)
Definition has_free (s : ust) (f : Z) (z : Zone) : Prop := 0 <= number z < nz /\ zfree s z = f.

Lemma zone_at_last pre cur z post s :
  zone_vector (u_part s) = pre ++ (cur ++ [z]) ++ post ->
  zone_at (Z.of_nat (length (pre ++ cur))) s = Ret z s.
Proof.
  intros Hv. apply zone_at_ok. rewrite Hv, !app_assoc, <- app_assoc.
  by rewrite lookup_app_r, Nat.sub_diag.
Qed.

Lemma length_snoc_pred {A} (pre cur : list A) z :
  Z.of_nat (length (pre ++ cur ++ [z])) - 1 = Z.of_nat (length (pre ++ cur)).
Proof. rewrite !length_app. cbn. lia. Qed.

Lemma length_snoc {A} (pre cur : list A) z : length (pre ++ cur ++ [z]) = S (length (pre ++ cur)).
Proof. rewrite !length_app. cbn. lia. Qed.
Lemma length_snoc' {A} (cur : list A) z : length (cur ++ [z]) = S (length cur).
Proof. rewrite length_app. cbn. lia. Qed.

Lemma refresh_idle s f pre cur : forall post,
  ctl_ok (zs:=zs) (nz:=nz) (z_ctl (u_z s)) -> 0 < f ->
  zone_vector (u_part s) = pre ++ cur ++ post -> Forall (has_free s f) cur ->
  refresh vec_realloc (length cur) (Z.of_nat (length (pre ++ cur)) - 1) true s = Ret tt s.
Proof.
  induction cur as [|z cur IH] using rev_ind; intros post Hok Hf Hv Hc; [done|].
  apply Forall_app in Hc as [Hc Hz]. apply Forall_singleton in Hz as [Hz Hzf].
  rewrite length_snoc_pred, length_app, Nat.add_comm. cbn [length Nat.add refresh negb].
  erewrite bind_Ret by (by eapply zone_at_last). erewrite bind_Ret by (by apply full_ok).
  rewrite Hzf, (proj2 (Z.leb_gt _ _)) by lia. apply (IH ([z] ++ post)); [done..| |done].
  by rewrite Hv, <- !app_assoc.
Qed.

Lemma refresh_full pre cur : forall post s l izg',
  ctl_ok (zs:=zs) (nz:=nz) (z_ctl (u_z s)) ->
  zone_vector (u_part s) = pre ++ cur ++ post -> Forall (has_free s 0) cur ->
  draws (length cur) (u_izg s) = Some (l, izg') ->
  (forall sz, (length (zone_vector (u_part s)) <= sz < length (zone_vector (u_part s)) + length cur - 1)%nat ->
     vec_realloc sz = false) ->
  refresh vec_realloc (length cur) (Z.of_nat (length (pre ++ cur)) - 1) true s
  = Ret tt (Ust (u_z s) izg' (push_zones l (u_part s))).
Proof.
  induction cur as [|z cur IH] using rev_ind; intros post s l izg' Hok Hv Hc Hd Hr.
  { cbn in Hd. injection Hd as <- <-. cbn. rewrite push_zones_nil. by destruct s. }
  apply Forall_app in Hc as [Hc Hz]. apply Forall_singleton in Hz as [Hz Hzf].
  rewrite length_snoc_pred. rewrite length_app, Nat.add_comm in Hd, Hr |- *.
  cbn [length Nat.add refresh negb draws] in Hd, Hr |- *.
  erewrite bind_Ret by (by eapply zone_at_last). erewrite bind_Ret by (by apply full_ok).
  rewrite Hzf, Z.leb_refl. unfold gets at 1. unfold mbind at 1, prog_bind at 1.
  destruct (draw_zone (u_izg s)) as [x izg1| | |] eqn:Hx; try done.
  destruct (Z.ltb_spec x 0); [done|].
  destruct (draws (length cur) izg1) as [[l1 izg2]|] eqn:Hk; [|done]. injection Hd as <- <-.
  erewrite bind_Ret by (by apply alloc_or_exit_ok).
  destruct cur as [|y cur'] eqn:Hcur.
  { cbn in Hk. injection Hk as <- <-. done. }
  rewrite <- Hcur in *. assert (0 < length cur)%nat as Hpos by (rewrite Hcur; cbn; lia).
  rewrite Hr by lia. cbn [negb].
  rewrite (IH ([z] ++ post ++ [MkZone (u32 x) []]) _ l1 izg2); cbn [u_z u_part u_izg]; try done.
  - by rewrite push_zones_app.
  - unfold push_zones. cbn. by rewrite Hv, <- !app_assoc.
  - intros sz. unfold push_zones. cbn. rewrite length_app. cbn. intros. apply Hr. lia.
Qed.

(** A [push_back] that moves the vector while zones are left to look at leaves a
    dangling iterator, which the next iteration uses. *)
Lemma refresh_moved pre cur : forall post s l izg',
  ctl_ok (zs:=zs) (nz:=nz) (z_ctl (u_z s)) ->
  zone_vector (u_part s) = pre ++ cur ++ post -> Forall (has_free s 0) cur ->
  draws (length cur) (u_izg s) = Some (l, izg') ->
  (exists sz, (length (zone_vector (u_part s)) <= sz < length (zone_vector (u_part s)) + length cur - 1)%nat /\
     vec_realloc sz = true) ->
  refresh vec_realloc (length cur) (Z.of_nat (length (pre ++ cur)) - 1) true s = UB.
Proof.
  induction cur as [|z cur IH] using rev_ind; intros post s l izg' Hok Hv Hc Hd (sz & Hsz & Hr); [cbn in Hsz; lia|].
  apply Forall_app in Hc as [Hc Hz]. apply Forall_singleton in Hz as [Hz Hzf].
  rewrite length_snoc_pred. rewrite length_app, Nat.add_comm in Hd, Hsz |- *.
  cbn [length Nat.add refresh negb draws] in Hd, Hsz |- *.
  erewrite bind_Ret by (by eapply zone_at_last). erewrite bind_Ret by (by apply full_ok).
  rewrite Hzf, Z.leb_refl. unfold gets at 1. unfold mbind at 1, prog_bind at 1.
  destruct (draw_zone (u_izg s)) as [x izg1| | |] eqn:Hx; try done.
  destruct (Z.ltb_spec x 0); [done|].
  destruct (draws (length cur) izg1) as [[l1 izg2]|] eqn:Hk; [|done]. injection Hd as <- <-.
  erewrite bind_Ret by (by apply alloc_or_exit_ok).
  destruct (vec_realloc (length (zone_vector (u_part s)))) eqn:E.
  { destruct (length cur) eqn:El; [lia|done]. }
  apply (IH ([z] ++ post ++ [MkZone (u32 x) []]) _ l1 izg2); cbn [u_z u_part u_izg]; try done.
  - unfold push_zones. cbn. by rewrite Hv, <- !app_assoc.
  - exists sz. split; [|done]. unfold push_zones. cbn. rewrite length_app. cbn.
    destruct (decide (sz = length (zone_vector (u_part s)))) as [->|]; [congruence|lia].
Qed.

Lemma collect_free_ok s f pre cur : forall post t,
  ctl_ok (zs:=zs) (nz:=nz) (z_ctl (u_z s)) -> 0 < f ->
  zone_vector (u_part s) = pre ++ cur ++ post -> Forall (has_free s f) cur ->
  - 2 ^ 31 <= t - Z.of_nat (length cur) * f -> t < 2 ^ 31 ->
  collect_free (length (pre ++ cur)) (length cur) t s
  = Ret (replicate (length cur) f, t - Z.of_nat (length cur) * f) s.
Proof.
  induction cur as [|z cur IH] using rev_ind; intros post t Hok Hf Hv Hc Hlo Hhi.
  { cbn [length replicate]. replace (t - Z.of_nat 0 * f) with t by lia. by destruct (length (pre ++ [])). }
  apply Forall_app in Hc as [Hc Hz]. apply Forall_singleton in Hz as [Hz Hzf].
  rewrite length_snoc, length_snoc' in *. cbn [collect_free].
  erewrite bind_Ret by (by eapply zone_at_last). erewrite bind_Ret by (by apply full_ok).
  rewrite Hzf, (proj2 (Z.leb_gt _ _)) by lia. erewrite bind_Ret by (by apply free_size_ok).
  rewrite Hzf, i32_small by lia. erewrite bind_Ret; cycle 1.
  { apply (IH ([z] ++ post)); try done; [by rewrite Hv, <- !app_assoc|lia|lia]. }
  cbn. unfold mret, prog_ret. f_equal. f_equal. lia.
Qed.

Lemma zone_size_ok s :
  ctl_ok (zs:=zs) (nz:=nz) (z_ctl (u_z s)) -> 0 < nz ->
  zoom ust_ctl zns_get_zone_size s = Ret zs s.
Proof.
  intros Hok Hnz. apply zoom_query. unfold zns_get_zone_size, gets.
  pose proof (ok_pos _ Hok). pose proof (ok_fits _ Hok).
  rewrite (ok_zsze _ Hok), u32_small; [done|]. nia.
Qed.

Lemma grow_group_ok k : forall t ws s l izg',
  ctl_ok (zs:=zs) (nz:=nz) (z_ctl (u_z s)) -> 0 < nz ->
  draws k (u_izg s) = Some (l, izg') ->
  - 2 ^ 31 <= t - Z.of_nat k * zs -> t < 2 ^ 31 ->
  grow_group k t ws s = Ret (t - Z.of_nat k * zs, ws ++ replicate k zs)
    (Ust (u_z s) izg' (push_zones l (u_part s))).
Proof.
  induction k as [|k IH]; intros t ws s l izg' Hok Hnz Hd Hlo Hhi; cbn [draws] in Hd.
  { injection Hd as <- <-. cbn [grow_group replicate]. rewrite push_zones_nil, app_nil_r.
    replace (t - Z.of_nat 0 * zs) with t by lia. by destruct s. }
  destruct (draw_zone (u_izg s)) as [x izg1| | |] eqn:Hx; try done.
  destruct (Z.ltb_spec x 0); [done|].
  destruct (draws k izg1) as [[l1 izg2]|] eqn:Hk; [|done]. injection Hd as <- <-.
  pose proof (ok_pos _ Hok). cbn [grow_group]. erewrite bind_Ret by (by apply alloc_or_exit_ok).
  erewrite bind_Ret by (by apply zone_size_ok). rewrite i32_small by nia.
  rewrite (IH _ _ _ l1 izg2); cbn [u_z u_part u_izg]; try done; [|lia|lia].
  rewrite push_zones_app, <- app_assoc. cbn. do 2 f_equal. lia.
Qed.

(** The number of extra groups of [n] zones for [t] more blocks. *)
Definition groups_for (n : nat) (t : Z) (r : nat) : Prop :=
  t <= Z.of_nat r * (Z.of_nat n * zs) /\
  (r = O \/ (Z.of_nat r - 1) * (Z.of_nat n * zs) < t).

Lemma grow_ok n r : forall fuel t ws cnt s l izg',
  ctl_ok (zs:=zs) (nz:=nz) (z_ctl (u_z s)) -> 0 < nz -> (0 < n)%nat ->
  Z.of_nat n * zs <= 2 ^ 31 -> t < 2 ^ 31 -> 0 <= cnt -> cnt + Z.of_nat (r * n) < 2 ^ 32 ->
  groups_for n t r -> (r <= fuel)%nat -> draws (r * n) (u_izg s) = Some (l, izg') ->
  grow fuel (Z.of_nat n) t ws cnt s
  = Ret (ws ++ replicate (r * n) zs, cnt + Z.of_nat (r * n))
      (Ust (u_z s) izg' (push_zones l (u_part s))).
Proof.
  induction r as [|r IH]; intros fuel t ws cnt s l izg' Hok Hnz Hn Hsz Ht Hc Hc32 [Hhi Hlo] Hf Hd.
  { cbn in Hd. injection Hd as <- <-. rewrite push_zones_nil. cbn [Nat.mul replicate].
    rewrite app_nil_r. replace (cnt + Z.of_nat 0) with cnt by lia.
    destruct fuel; cbn [grow]; rewrite (proj2 (Z.ltb_ge _ _)) by lia; by destruct s. }
  destruct Hlo as [|Hlo]; [done|]. pose proof (ok_pos _ Hok).
  assert (0 < t) by nia. destruct fuel as [|fuel]; [lia|].
  cbn [grow]. rewrite (proj2 (Z.ltb_lt _ _)) by done.
  cbn [Nat.mul] in Hd. apply draws_add in Hd as (l1 & l2 & izg1 & Hd1 & Hd2 & ->).
  erewrite bind_Ret; cycle 1.
  { rewrite Nat2Z.id. apply (grow_group_ok n t ws s l1 izg1); try done. lia. }
  cbn beta iota. rewrite u32_small by nia.
  rewrite (IH fuel _ _ _ _ l2 izg'); cbn [u_z u_part u_izg]; try done; try lia.
  - rewrite push_zones_app, <- app_assoc, <- replicate_add.
    by replace (cnt + Z.of_nat n + Z.of_nat (r * n)) with (cnt + Z.of_nat (S r * n)) by lia.
  - split; [lia|]. destruct r; [by left|right]. nia.
Qed.

(** ** Making the intervals *)

Definition interval_of (c : ctl) (sid : Z) (z : Zone) : Interval :=
  new_Interval (number z) sid (host_wp c (number z)) (host_wp c (number z)).

Definition zone_numbers (p : Partition) : list Z := number <$> zone_vector p.

(** A zone of the namespace that is not full. *)
Definition usable (s : ust) (z : Zone) : Prop := 0 <= number z < nz /\ 0 < zfree s z.

Lemma make_intervals_ok sid pre cur : forall post s,
  ctl_ok (zs:=zs) (nz:=nz) (z_ctl (u_z s)) ->
  zone_vector (u_part s) = pre ++ cur ++ post -> Forall (usable s) cur ->
  exists zv, number <$> zv = zone_numbers (u_part s) /\
  make_intervals (length (pre ++ cur)) (length cur) sid s
  = Ret (seq (length (z_ivs (u_z s))) (length cur))
      (Ust (Zst (z_ctl (u_z s)) (z_ivs (u_z s) ++ (interval_of (z_ctl (u_z s)) sid <$> reverse cur)))
         (u_izg s) (set_zone_vector zv (u_part s))).
Proof.
  induction cur as [|z cur IH] using rev_ind; intros post s Hok Hv Hc.
  { exists (zone_vector (u_part s)). split; [done|]. cbn. rewrite !app_nil_r.
    destruct s as [[c ivs] iz []]. by destruct (length pre). }
  apply Forall_app in Hc as [Hc Hz]. apply Forall_singleton in Hz as [Hz Hzf].
  rewrite length_snoc, length_snoc'. cbn [make_intervals seq].
  erewrite bind_Ret by (by eapply zone_at_last). erewrite bind_Ret by (by apply full_ok).
  rewrite (proj2 (Z.leb_gt _ _)) by done. erewrite bind_Ret by (by apply get_wp_ok).
  set (h := length (z_ivs (u_z s))).
  set (s1 := Ust (Zst (z_ctl (u_z s)) (z_ivs (u_z s) ++ [interval_of (z_ctl (u_z s)) sid z]))
    (u_izg s) (set_zone_vector (alter (insert_interval h) (length (pre ++ cur))
      (zone_vector (u_part s))) (u_part s))).
  destruct (IH ([insert_interval h z] ++ post) s1) as (zv & Hzv & Hm); try done.
  { unfold s1. cbn. fold h. rewrite Hv, !app_assoc, <- (app_assoc _ [z]).
    rewrite <- (Nat.add_0_r (length (pre ++ cur))), alter_app_r. cbn. by rewrite <- !app_assoc. }
  exists zv. split.
  { rewrite Hzv. unfold zone_numbers, s1. cbn. apply list_eq. intros j. rewrite !list_lookup_fmap.
    destruct (decide (j = length (pre ++ cur))) as [->|Hne].
    - rewrite list_lookup_alter_eq. by destruct (_ !! _).
    - by rewrite list_lookup_alter_ne. }
  transitivity ((l ← make_intervals (length (pre ++ cur)) (length cur) sid; mret (h :: l)) s1);
    [done|]. rewrite (bind_Ret _ _ _ _ _ Hm). unfold mret, prog_ret. f_equal.
  - unfold s1. cbn. rewrite length_app. cbn. by rewrite Nat.add_1_r.
  - unfold s1. cbn. rewrite reverse_snoc. cbn. rewrite <- app_assoc. done.
Qed.

(** ** Zones still to be allocated *)

(** The zones [nums] in use and the zones still queued are zones of the
    namespace, all different, and the queued ones are empty. *)
Record supply (c : ctl) (izg : izg_st) (nums : list Z) : Prop := {
  su_nodup : NoDup (nums ++ queued izg);
  su_range : Forall (fun z => 0 <= z < nz) (nums ++ queued izg);
  su_empty : Forall (fun z => host_wp c z = z * zs) (queued izg) }.

Lemma supply_draws c izg nums k l izg' :
  nz <= 2 ^ 31 -> supply c izg nums -> draws k izg = Some (l, izg') ->
  supply c izg' (nums ++ l) /\ Forall (fun z => 0 <= z < nz /\ host_wp c z = z * zs) l /\ length l = k.
Proof.
  intros Hnz [Hnd Hr He] Hd. apply draws_queued in Hd as (xs & -> & Hp & Hl & _).
  assert (Forall (fun z => 0 <= z < nz) (nums ++ xs ++ queued izg')) as Hr'.
  { rewrite <- Hp. done. }
  assert (i32 <$> xs = xs) as Hid.
  { apply Forall_app in Hr' as [_ Hr']. apply Forall_app in Hr' as [Hr' _].
    clear -Hr' Hnz. induction Hr' as [|x xs' Hx _ IH]; [done|]. cbn. rewrite i32_small by lia. f_equal. apply IH. }
  rewrite Hid in *. rewrite Hp in Hnd, He. apply Forall_app in He as [He1 He2].
  split; [|split; [|done]].
  - split; [by rewrite <- app_assoc|by rewrite <- app_assoc|done].
  - apply Forall_app in Hr' as [_ Hr']. apply Forall_app in Hr' as [Hr' _].
    rewrite Forall_forall in *. auto.
Qed.

Lemma supply_length c izg nums : supply c izg nums -> Z.of_nat (length nums) <= Z.max 0 nz.
Proof.
  intros [Hnd Hr _]. apply NoDup_app in Hnd as [Hnd _]. apply Forall_app in Hr as [Hr _].
  assert (nums ⊆+ seqZ 0 nz) as Hsub.
  { apply NoDup_submseteq; [done|]. intros z Hz. rewrite Forall_forall in Hr. apply elem_of_seqZ.
    specialize (Hr z Hz). lia. }
  apply submseteq_length in Hsub. rewrite length_seqZ in Hsub. lia.
Qed.

Lemma number_new_zones l :
  Forall (fun z => 0 <= z < 2 ^ 32) l -> number <$> ((fun z => MkZone (u32 z) []) <$> l) = l.
Proof.
  intros Hl. rewrite <- list_fmap_compose. induction Hl as [|z l Hz _ IH]; [done|].
  cbn. rewrite u32_small by done. f_equal. apply IH.
Qed.

Lemma zone_numbers_push l p :
  Forall (fun z => 0 <= z < 2 ^ 32) l -> zone_numbers (push_zones l p) = zone_numbers p ++ l.
Proof.
  intros Hl. unfold zone_numbers, push_zones. cbn. by rewrite fmap_app, number_new_zones.
Qed.
End Spec.
