(* ===== verification/AppendSpec.v ===== *)
(** [Userdata::_write] on a balanced partition: the group in use has the same
    room in each of its zones, all earlier zones are full. *)
From S2P Require Import Prelude Nvme Controller Zone Stripe Transfer Rounds Roundtrip Izg.
From S2P Require Import Partition Userdata UserdataSpec.
From stdpp Require Import base numbers list gmap strings.
From Stdlib Require Import ZArith Lia.
Local Open Scope Z_scope.

Section AppendSpec.
Context `{D : NvmeDevice} {zs nz : Z} `{Zd : !ZnsDevice D zs nz}.

(** ** New intervals *)

Definition interval_num (c : ctl) (sid z : Z) : Interval :=
  new_Interval z sid (host_wp c z) (host_wp c z).

(** The addresses of [n] intervals made from the last zone to the first, in
    the order of the zones. *)
Definition new_ptrs (h n : nat) : list nat := reverse (seq h n).

Lemma lookup_new_ptrs h n j p :
  new_ptrs h n !! j = Some p <-> p = (h + (n - 1 - j))%nat /\ (j < n)%nat.
Proof.
  unfold new_ptrs. rewrite reverse_lookup_Some, length_seq, lookup_seq. lia.
Qed.

Lemma length_new_ptrs h n : length (new_ptrs h n) = n.
Proof. unfold new_ptrs. by rewrite length_reverse, length_seq. Qed.

Lemma NoDup_new_ptrs h n : NoDup (new_ptrs h n).
Proof. unfold new_ptrs. rewrite reverse_Permutation. apply NoDup_seq. Qed.

(** The heap with the intervals of [zones]. *)
Definition new_heap (c : ctl) (sid : Z) (ivs : list Interval) (zones : list Z) : list Interval :=
  ivs ++ (interval_num c sid <$> reverse zones).

Lemma lookup_new_heap c sid ivs zones j z :
  zones !! j = Some z ->
  new_heap c sid ivs zones !! (length ivs + (length zones - 1 - j))%nat = Some (interval_num c sid z).
Proof.
  intros Hj. pose proof (lookup_lt_Some _ _ _ Hj). unfold new_heap.
  rewrite lookup_app_r, Nat.add_comm, Nat.add_sub by lia.
  rewrite list_lookup_fmap, reverse_lookup by lia.
  replace (length zones - S (length zones - 1 - j))%nat with j by lia. by rewrite Hj.
Qed.

(** Growing the heap keeps what is held. *)
Lemma holds_heap_app c ivs new n ptrs bs :
  holds (zs:=zs) (nz:=nz) (Zst c ivs) n ptrs bs -> good_cnt n ->
  holds (zs:=zs) (nz:=nz) (Zst c (ivs ++ new)) n ptrs bs.
Proof.
  intros (r & l & -> & Hl & Hlen & Hfit & Hset & <-) Hgood. exists r, l. repeat split; try done.
  - eapply Forall_impl; [exact Hset|]. cbn. intros [p c'] (i & Hi & ?). exists i.
    split; [|done]. by apply lookup_app_l_Some.
  - rewrite !bind_concat. f_equal. apply list_fmap_ext. intros k sl Hk.
    apply list_elem_of_lookup_2 in Hk.
    destruct (slot_settled _ n r l sl Hgood Hl Hlen Hset Hk) as (i & Hi & _). cbn in Hi.
    unfold slot_bytes, start_of. cbn. by rewrite (lookup_app_l_Some _ _ _ _ Hi), Hi.
Qed.

(** The shares of a transfer over the new intervals. *)
Definition new_shares (h : nat) (cs : list nat) : shares := zip (new_ptrs h (length cs)) cs.

Lemma new_shares_fst h cs : (new_shares h cs).*1 = new_ptrs h (length cs).
Proof. unfold new_shares. rewrite fst_zip; [done|]. by rewrite length_new_ptrs. Qed.

Lemma new_shares_snd h cs : (new_shares h cs).*2 = cs.
Proof. unfold new_shares. rewrite snd_zip; [done|]. by rewrite length_new_ptrs. Qed.

Lemma ios_sum l : ios l = sum_list l.*2.
Proof.
  unfold ios. induction l as [|[p c] l IH]; [done|]. cbn [todo foldr fmap list_fmap snd].
  fold (todo 0 l). rewrite IH, Nat.sub_0_r. done.
Qed.

Lemma sizes_snd l : sizes l = Z.of_nat <$> l.*2.
Proof. unfold sizes. by rewrite <- list_fmap_compose. Qed.

Lemma elem_of_new_shares h cs p c :
  (p, c) ∈ new_shares h cs <->
  exists j, cs !! j = Some c /\ p = (h + (length cs - 1 - j))%nat.
Proof.
  unfold new_shares. rewrite list_elem_of_lookup. setoid_rewrite lookup_zip_with_Some.
  setoid_rewrite lookup_new_ptrs. split.
  - intros (j & p' & c' & [= -> ->] & (-> & _) & Hc). eauto.
  - intros (j & Hc & ->). exists j. eexists _, c. repeat split; try done.
    by eapply lookup_lt_Some.
Qed.

(** ** The transfer of a write *)

(** [free_blocks] of the zones [zones], counted in I/Os. *)
Definition free_ios (c : ctl) (zones : list Z) (fs : list nat) : Prop :=
  Forall2 (fun z f => 0 <= z < nz /\ free_blocks (zs:=zs) c z = IO_BLOCKS * Z.of_nat f) zones fs.

(** The state after the write: the zones have what the plan left them, all
    other zones are untouched, the bytes are held by the new intervals, and
    everything held before still is. *)
Record appended (c : ctl) (ivs : list Interval) (n : Z) (zones : list Z) (fs cs : list nat)
    (bs : list Byte.byte) (z' : zst) : Prop := {
  ap_ok : ctl_ok (zs:=zs) (nz:=nz) (z_ctl z');
  ap_mem : host_mem (z_ctl z') = host_mem c;
  ap_free : free_ios (z_ctl z') zones (zip_with Nat.sub fs cs);
  ap_other : forall z, 0 <= z < nz -> z ∉ zones -> host_wp (z_ctl z') z = host_wp c z;
  ap_holds : holds (zs:=zs) (nz:=nz) z' n (new_ptrs (length ivs) (length zones)) bs;
  ap_keeps : forall n' ptrs d, good_cnt n' ->
    holds (zs:=zs) (nz:=nz) (Zst c ivs) n' ptrs d -> holds (zs:=zs) (nz:=nz) z' n' ptrs d;
  ap_length : length (z_ivs z') = (length ivs + length zones)%nat;
  ap_idle : bs = [] -> z_ctl z' = c }.

(** Element [j] of the shares: its interval is the one of zone [j]. *)
Lemma new_shares_zone c sid ivs zones fs cs p k :
  free_ios c zones fs -> Forall2 (fun a f => (a <= f)%nat) cs fs ->
  (p, k) ∈ new_shares (length ivs) cs ->
  exists j z f, zones !! j = Some z /\ fs !! j = Some f /\ cs !! j = Some k /\ (k <= f)%nat /\
    0 <= z < nz /\ free_blocks (zs:=zs) c z = IO_BLOCKS * Z.of_nat f /\
    p = (length ivs + (length cs - 1 - j))%nat /\
    new_heap c sid ivs zones !! p = Some (interval_num c sid z).
Proof.
  intros Hf Hcs (j & Hj & ->)%elem_of_new_shares.
  destruct (Forall2_lookup_l _ _ _ _ _ Hcs Hj) as (f & Hfj & Hle).
  destruct (Forall2_lookup_r _ _ _ _ _ Hf Hfj) as (z & Hz & Hr & Hfree).
  exists j, z, f. repeat split; try done; try lia.
  assert (length cs = length zones) as ->.
  { rewrite (Forall2_length _ _ _ Hcs). by rewrite <- (Forall2_length _ _ _ Hf). }
  by apply lookup_new_heap.
Qed.

Lemma new_targets c sid ivs zones fs cs :
  NoDup zones -> free_ios c zones fs -> Forall2 (fun a f => (a <= f)%nat) cs fs ->
  targets (nz:=nz) (new_heap c sid ivs zones) (new_shares (length ivs) cs).*1.
Proof.
  intros Hnd Hf Hcs. split.
  - intros p ([p' k] & -> & Hp)%list_elem_of_fmap.
    destruct (new_shares_zone c sid ivs _ _ _ _ _ Hf Hcs Hp)
      as (j & z & f & _ & _ & _ & _ & Hr & _ & _ & Hh). by exists (interval_num c sid z).
  - intros p q i i' ([p' k] & -> & Hp)%list_elem_of_fmap ([q' k'] & -> & Hq)%list_elem_of_fmap Hi Hi' He.
    destruct (new_shares_zone c sid ivs _ _ _ _ _ Hf Hcs Hp)
      as (j & z & f & Hj & _ & _ & _ & _ & _ & -> & Hh).
    destruct (new_shares_zone c sid ivs _ _ _ _ _ Hf Hcs Hq)
      as (j' & z' & f' & Hj' & _ & _ & _ & _ & _ & -> & Hh').
    cbn [fst] in *. rewrite Hh in Hi. rewrite Hh' in Hi'. injection Hi as <-. injection Hi' as <-.
    cbn in He. subst z'. by rewrite (NoDup_lookup zones j j' z Hnd Hj Hj').
Qed.

Lemma holds_bound c ivs n ptrs bs p :
  holds (zs:=zs) (nz:=nz) (Zst c ivs) n ptrs bs -> p ∈ ptrs -> (p < length ivs)%nat.
Proof.
  intros (r & l & -> & _ & _ & _ & Hset & _) ([p' k] & -> & Hp)%list_elem_of_fmap.
  unfold settled in Hset. rewrite Forall_forall in Hset. destruct (Hset _ Hp) as (i & Hi & _).
  by eapply lookup_lt_Some.
Qed.

(** From the striped state to the description of the append. *)
Lemma striped_appended (n : nat) r c sid ivs zones fs cs buf bs z' :
  let l := new_shares (length ivs) cs in
  good_cnt (Z.of_nat n) -> length zones = (r * n)%nat -> Z.of_nat (r * n) < 2 ^ 32 ->
  IO_SIZE * Z.of_nat (ios l) < 2 ^ 32 ->
  ctl_ok (zs:=zs) (nz:=nz) c -> NoDup zones ->
  free_ios c zones fs -> Forall2 (fun a f => (a <= f)%nat) cs fs ->
  load (host_mem c) buf (IO_SIZE * Z.of_nat (ios l)) = Some bs ->
  striped (zs:=zs) (nz:=nz) c (new_heap c sid ivs zones) (rounds_of r (Z.of_nat n) l) buf z' ->
  appended c ivs (Z.of_nat n) zones fs cs bs z'.
Proof.
  intros l Hgood Hlen H32 Hfit Hok Hnd Hf Hcs Hload Hst.
  assert (length cs = length zones) as Hcl.
  { rewrite (Forall2_length _ _ _ Hcs). by rewrite <- (Forall2_length _ _ _ Hf). }
  assert (length l = (r * n)%nat) as Hll.
  { unfold l, new_shares. rewrite length_zip_with, length_new_ptrs. lia. }
  assert (Z.of_nat (length l) = Z.of_nat r * Z.of_nat n) as Hll' by lia.
  pose proof (concat_rounds_of r (Z.of_nat n) l Hgood Hll' ltac:(lia)) as Hcat.
  pose proof (fun p k H => new_shares_zone c sid ivs zones fs cs p k Hf Hcs H) as Hat.
  pose proof (new_targets c sid ivs zones fs cs Hnd Hf Hcs) as Htg.
  split.
  - apply (st_ok _ _ _ _ _ Hst).
  - apply (st_mem _ _ _ _ _ Hst).
  - apply Forall2_same_length_lookup. split.
    { rewrite length_zip_with, (Forall2_length _ _ _ Hcs), Nat.min_id. by apply (Forall2_length _ _ _ Hf). }
    intros j z x Hj Hx. apply lookup_zip_with_Some in Hx as (f & k & -> & Hfj & Hk).
    assert ((length ivs + (length cs - 1 - j), k)%nat ∈ l) as Hp by (apply elem_of_new_shares; eauto).
    destruct (Hat _ _ Hp) as (j' & z1 & f1 & Hj' & Hf1 & Hk1 & Hle & Hr & Hfree & Hpj & Hh).
    apply lookup_lt_Some in Hk as Hlt. apply lookup_lt_Some in Hk1 as Hlt1.
    assert (j' = j) as -> by lia. simplify_eq. split; [done|].
    pose proof (st_wp _ _ _ _ _ Hst (length ivs + (length cs - 1 - j))%nat k (interval_num c sid z)) as Hw. rewrite Hcat in Hw.
    specialize (Hw Hp Hh). cbn in Hw. unfold free_blocks in *. rewrite Hw.
    unfold IO_BLOCKS in *. lia.
  - intros z Hz Hnot. apply (st_wp_other _ _ _ _ _ Hst z Hz). rewrite Hcat.
    intros p i ([p' k] & -> & Hp)%list_elem_of_fmap Hi.
    destruct (Hat _ _ Hp) as (j & z1 & f & Hj & _ & _ & _ & _ & _ & _ & Hh). cbn in Hi.
    rewrite Hh in Hi. injection Hi as <-. cbn. intros <-. apply Hnot. by eapply list_elem_of_lookup_2.
  - rewrite <- Hcl, <- new_shares_fst. fold l.
    eapply (striped_holds c (new_heap c sid ivs zones)); try done; [lia|].
    intros p k Hp. destruct (Hat _ _ Hp) as (j & z1 & f & _ & _ & _ & _ & Hr & _ & _ & Hh).
    eexists. split; [exact Hh|]. done.
  - intros n' ptrs d Hgood' Hh.
    eapply (striped_keeps (Zst c (new_heap c sid ivs zones))); cbn [z_ctl z_ivs]; try done.
    + by apply holds_heap_app.
    + by rewrite Hcat.
    + intros p Hp. rewrite Hcat. unfold l. rewrite new_shares_fst.
      intros (j & [-> _]%lookup_new_ptrs)%list_elem_of_lookup.
      apply (holds_bound _ _ _ _ _ _ Hh) in Hp. lia.
  - rewrite (st_length _ _ _ _ _ Hst). unfold new_heap.
    by rewrite length_app, length_fmap, length_reverse.
  - intros ->. rewrite (st_idle _ _ _ _ _ Hst); [done|]. rewrite Hcat.
    apply load_length in Hload. unfold IO_SIZE, _192KB in Hload. cbn in Hload. lia.
Qed.

Lemma izg_write_new sched buf (n r w g : nat) sid c ivs zones fs bs :
  good_cnt (Z.of_nat n) -> (0 < r)%nat -> length zones = (r * n)%nat -> Z.of_nat (r * n) < 2 ^ 32 ->
  ctl_ok (zs:=zs) (nz:=nz) c -> NoDup zones -> free_ios c zones fs ->
  drop ((r - 1) * n) fs = replicate n g ->
  (sum_list (take ((r - 1) * n) fs) <= w <= sum_list fs)%nat ->
  IO_SIZE * Z.of_nat w < 2 ^ 32 ->
  load (host_mem c) buf (IO_SIZE * Z.of_nat w) = Some bs ->
  exists z', izg_write sched buf (Z.of_nat n) (Z.of_nat (r * n))
      (new_ptrs (length ivs) (length zones)) ((fun f => IO_BLOCKS * Z.of_nat f) <$> fs)
      (IO_BLOCKS * Z.of_nat w) (Zst c (new_heap c sid ivs zones)) = Ret 0 z' /\
    appended c ivs (Z.of_nat n) zones fs (plan n r w fs) bs z'.
Proof.
  intros Hgood Hr Hlen H32 Hok Hnd Hf Hlast Hsum Hfit Hload. pose proof Hgood as [Hn _].
  assert (length fs = (r * n)%nat) as Hfl by (by rewrite <- (Forall2_length _ _ _ Hf)).
  set (cs := plan n r w fs).
  assert (Forall2 (fun a f => (a <= f)%nat) cs fs) as Hcs by (eapply plan_fits; [lia|lia|done|done]).
  assert (length cs = length fs) as Hcl by (by apply length_plan).
  set (l := new_shares (length ivs) cs).
  assert (ios l = w) as Hios.
  { unfold l. rewrite ios_sum, new_shares_snd. apply sum_plan; lia. }
  assert (length l = (r * n)%nat) as Hll.
  { unfold l, new_shares. rewrite length_zip_with, length_new_ptrs. lia. }
  assert (new_ptrs (length ivs) (length zones) = l.*1) as ->.
  { unfold l. rewrite new_shares_fst. f_equal. lia. }
  destruct (izg_write_striped (zs:=zs) (nz:=nz) sched buf (Z.of_nat n) (Z.of_nat (r * n)) r
    ((fun f => IO_BLOCKS * Z.of_nat f) <$> fs) (IO_BLOCKS * Z.of_nat w) l c
    (new_heap c sid ivs zones)) as (z' & Hz & Hst); rewrite ?Hios; try done; try lia.
  - rewrite Nat2Z.inj_mul. apply izg_rounds_mul. lia.
  - rewrite sizes_snd. unfold l. rewrite new_shares_snd. unfold IO_SIZE, _192KB in Hfit.
    apply plan_sizes_plan; lia.
  - unfold l. rewrite new_shares_fst. apply NoDup_new_ptrs.
  - by apply (new_targets c sid ivs zones fs).
  - intros p k i Hp Hi.
    destruct (new_shares_zone c sid ivs zones fs cs p k Hf Hcs Hp)
      as (j & z & f & _ & _ & _ & Hle & _ & Hfree & _ & Hh).
    rewrite Hh in Hi. injection Hi as <-. cbn. rewrite Hfree. unfold IO_BLOCKS. lia.
  - exists z'. split; [done|].
    eapply (striped_appended n r c sid ivs zones fs cs buf); fold l; rewrite ?Hios; try done; lia.
Qed.

(** ** Balanced partitions *)

Context (vec_realloc : nat -> bool).
(** I/Os in an empty zone. *)
Context (gz : nat) (Hgz : zs = IO_BLOCKS * Z.of_nat gz) (Hpos : 0 < nz).

(** The zones [cur] of the current group have [g] I/Os left each, the zones
    [old] before them are full. *)
Record balanced (s : ust) (n g : nat) (old cur : list Z) : Prop := {
  bl_ok : ctl_ok (zs:=zs) (nz:=nz) (z_ctl (u_z s));
  bl_good : good_cnt (Z.of_nat n);
  bl_cnt : p_izg_cnt (u_part s) = Z.of_nat n;
  bl_zv : zone_numbers (u_part s) = old ++ cur;
  bl_old : Forall (fun z => free_blocks (zs:=zs) (z_ctl (u_z s)) z = 0) old;
  bl_cur : Forall (fun z => free_blocks (zs:=zs) (z_ctl (u_z s)) z = IO_BLOCKS * Z.of_nat g) cur;
  bl_len : length cur = n \/ (old = [] /\ cur = []);
  bl_supply : supply (zs:=zs) (nz:=nz) (z_ctl (u_z s)) (u_izg s) (old ++ cur) }.

Lemma balanced_nz s n g old cur : balanced s n g old cur -> (0 < gz)%nat -> nz < 2 ^ 31 /\ zs < 2 ^ 32.
Proof.
  intros Hb ?. pose proof (ok_fits _ (bl_ok _ _ _ _ _ Hb)). pose proof (ok_pos _ (bl_ok _ _ _ _ _ Hb)).
  unfold IO_BLOCKS in *. nia.
Qed.

Lemma balanced_cnt s n g old cur : balanced s n g old cur -> get_izg_cnt (u_part s) = Z.of_nat n.
Proof.
  intros Hb. unfold get_izg_cnt. rewrite (bl_cnt _ _ _ _ _ Hb). apply u32_small.
  pose proof (bl_good _ _ _ _ _ Hb) as [Hn _]. lia.
Qed.

(** The zone vector of a balanced partition. *)
Lemma balanced_zones s n g old cur :
  balanced s n g old cur ->
  exists vold vcur, zone_vector (u_part s) = vold ++ vcur /\ number <$> vold = old /\
    number <$> vcur = cur /\ Forall (has_free (zs:=zs) (nz:=nz) s 0) vold /\
    Forall (has_free (zs:=zs) (nz:=nz) s (IO_BLOCKS * Z.of_nat g)) vcur.
Proof.
  intros []. unfold zone_numbers in bl_zv0. apply fmap_app_inv in bl_zv0 as (vold & vcur & -> & -> & Hv).
  exists vold, vcur. split; [done|]. split; [done|]. split; [done|].
  pose proof (su_range _ _ _ bl_supply0) as Hr. apply Forall_app in Hr as [Hr _].
  apply Forall_app in Hr as [Hr1 Hr2]. rewrite Forall_fmap in *.
  split; apply Forall_and; done.
Qed.

(** Opening a new group when the current one is used up. *)
Lemma balanced_push s n g old cur l izg1 :
  (0 < gz)%nat -> balanced s n g old cur -> (cur = [] \/ g = O) ->
  draws n (u_izg s) = Some (l, izg1) ->
  balanced (Ust (u_z s) izg1 (push_zones l (u_part s))) n gz (old ++ cur) l /\ length l = n.
Proof.
  intros Hg Hb Hused Hd. pose proof (balanced_nz _ _ _ _ _ Hb Hg) as [Hnz _].
  destruct (supply_draws (zs:=zs) (nz:=nz) _ _ _ _ _ _ ltac:(lia) (bl_supply _ _ _ _ _ Hb) Hd) as (Hs & Hl & Hlen).
  split; [|done]. destruct Hb. split; cbn [u_z u_izg u_part]; try done.
  - rewrite zone_numbers_push, bl_zv0; [done|]. eapply Forall_impl; [exact Hl|]. cbn. lia.
  - apply Forall_app. split; [done|]. destruct Hused as [-> | ->]; [done|].
    eapply Forall_impl; [exact bl_cur0|]. cbn. intros z ->. done.
  - eapply Forall_impl; [exact Hl|]. cbn. intros z [_ Hw]. unfold free_blocks. rewrite Hw. lia.
  - by left.
Qed.

(** The zones a write needs before it collects the free sizes. *)
Definition fresh_zones (n g : nat) (cur : list Z) : nat :=
  if decide (cur = [] \/ g = O) then n else O.

(** One of the first [n - 1] of [n] zones pushed on a vector of length [len] moves
    the vector. *)
Definition moves (len n : nat) : bool := existsb vec_realloc (seq len (n - 1)).

Lemma moves_true len n :
  moves len n = true <-> exists sz, (len <= sz < len + n - 1)%nat /\ vec_realloc sz = true.
Proof.
  unfold moves. rewrite existsb_exists. split; intros (sz & Hin & Hr); exists sz; (split; [|done]);
    [apply in_seq in Hin; lia|apply in_seq; lia].
Qed.

Lemma moves_false len n sz : moves len n = false -> (len <= sz < len + n - 1)%nat -> vec_realloc sz = false.
Proof.
  intros Hm Hsz. destruct (vec_realloc sz) eqn:E; [|done].
  rewrite <- Hm. symmetry. apply moves_true. eauto.
Qed.

(** On a partition with zones the loop over the last group is run. *)
Lemma prepare_refresh s n g old cur :
  balanced s n g old cur -> cur <> [] ->
  length cur = n /\ prepare_zones vec_realloc (u_part s) s
    = refresh vec_realloc n (Z.of_nat (length (zone_vector (u_part s))) - 1) true s.
Proof.
  intros Hb Hc. pose proof (bl_good _ _ _ _ _ Hb) as [Hn _].
  assert (length cur = n) as Hcl by (destruct (bl_len _ _ _ _ _ Hb) as [H|[_ H]]; done). split; [done|].
  unfold prepare_zones. rewrite (balanced_cnt _ _ _ _ _ Hb), Nat2Z.id.
  assert (length (zone_vector (u_part s)) = (length old + n)%nat) as Hlen.
  { rewrite <- Hcl, <- length_app, <- (bl_zv _ _ _ _ _ Hb). unfold zone_numbers. by rewrite length_fmap. }
  pose proof (supply_length _ _ _ (bl_supply _ _ _ _ _ Hb)) as Hmax. rewrite length_app in Hmax.
  pose proof (ok_fits _ (bl_ok _ _ _ _ _ Hb)). pose proof (ok_pos _ (bl_ok _ _ _ _ _ Hb)).
  assert (nz < 2 ^ 31) as Hnz by (unfold IO_BLOCKS in *; nia).
  assert (zone_empty (u_part s) = false) as ->.
  { unfold zone_empty. destruct (zone_vector (u_part s)); [cbn in Hlen; lia|done]. }
  assert (zone_size (u_part s) = Z.of_nat (length old + n)) as ->.
  { unfold zone_size. rewrite Hlen. apply i32_small. lia. }
  by rewrite u32_small, (proj2 (Z.ltb_ge _ _)) by lia.
Qed.

(** When the group in use is full and the vector moves, the write is undefined. *)
Lemma prepare_moved s n old cur l izg1 :
  balanced s n 0 old cur -> cur <> [] -> draws n (u_izg s) = Some (l, izg1) ->
  moves (length (zone_vector (u_part s))) n = true ->
  prepare_zones vec_realloc (u_part s) s = UB.
Proof.
  intros Hb Hc Hd Hm. destruct (prepare_refresh s n 0 old cur Hb Hc) as [Hcl ->].
  destruct (balanced_zones _ _ _ _ _ Hb) as (vold & vcur & Hv & Ho & Hcu & Hfo & Hfc).
  assert (length vcur = n) as Hvl by (rewrite <- Hcl, <- Hcu; by rewrite length_fmap).
  assert (IO_BLOCKS * Z.of_nat 0 = 0) as H0 by done. rewrite H0 in Hfc.
  apply moves_true in Hm. rewrite <- Hvl, Hv in *.
  apply (refresh_moved (zs:=zs) (nz:=nz) vec_realloc vold vcur [] s l izg1);
    rewrite ?app_nil_r, ?Hv; try done. apply (bl_ok _ _ _ _ _ Hb).
Qed.

Lemma prepare_ok s n g old cur l izg1 :
  (0 < gz)%nat -> balanced s n g old cur ->
  draws (fresh_zones n g cur) (u_izg s) = Some (l, izg1) ->
  (cur <> [] -> g = O -> moves (length (zone_vector (u_part s))) n = false) ->
  let s1 := Ust (u_z s) izg1 (push_zones l (u_part s)) in
  prepare_zones vec_realloc (u_part s) s = Ret tt s1 /\
  exists g1 old1 cur1, (0 < g1)%nat /\ length cur1 = n /\ balanced s1 n g1 old1 cur1 /\
    g1 = if decide (cur = [] \/ g = O) then gz else g.
Proof.
  intros Hg Hb Hd Hmove s1. unfold fresh_zones in Hd. pose proof (bl_good _ _ _ _ _ Hb) as [Hn _].
  pose proof (balanced_nz _ _ _ _ _ Hb Hg) as [Hnz _].
  assert (length (zone_vector (u_part s)) = length (old ++ cur)) as Hlen.
  { rewrite <- (bl_zv _ _ _ _ _ Hb). unfold zone_numbers. by rewrite length_fmap. }
  pose proof (supply_length _ _ _ (bl_supply _ _ _ _ _ Hb)) as Hmax.
  destruct (decide (cur = [])) as [Hc|Hc].
  { rewrite decide_True in Hd by auto.
    assert (zone_vector (u_part s) = []) as Hv.
    { apply nil_length_inv. rewrite Hlen. destruct (bl_len _ _ _ _ _ Hb) as [H|[-> ->]]; [|done].
      rewrite Hc in H. cbn in H. lia. }
    unfold prepare_zones, zone_empty. rewrite (balanced_cnt _ _ _ _ _ Hb), Nat2Z.id, Hv. rewrite (repeat_alloc_ok n s l izg1 Hd). split; [done|].
    destruct (balanced_push s n g old cur l izg1) as [Hb1 Hl]; try done; [by left|].
    exists gz, (old ++ cur), l. rewrite decide_True by auto. split; [lia|]. done. }
  destruct (prepare_refresh s n g old cur Hb Hc) as [Hcl ->].
  destruct (balanced_zones _ _ _ _ _ Hb) as (vold & vcur & Hv & Ho & Hcu & Hfo & Hfc).
  assert (length vcur = n) as Hvl by (rewrite <- Hcl, <- Hcu; by rewrite length_fmap). rewrite Hv.
  destruct (decide (g = O)) as [->|Hg0].
  - rewrite decide_True in Hd |- * by auto. rewrite <- Hvl at 1.
    assert (IO_BLOCKS * Z.of_nat 0 = 0) as H0 by done. rewrite H0 in Hfc.
    rewrite (refresh_full (zs:=zs) (nz:=nz) vec_realloc vold vcur [] s l izg1); rewrite ?app_nil_r;
      try done; [|apply (bl_ok _ _ _ _ _ Hb)|by rewrite Hvl|].
    2: { rewrite Hvl. intros sz. apply moves_false. by apply Hmove. }
    split; [done|]. destruct (balanced_push s n 0 old cur l izg1) as [Hb1 Hl]; try done; [by right|].
    exists gz, (old ++ cur), l. split; [lia|]. done.
  - rewrite decide_False in Hd |- * by (intros [?|?]; done). cbn in Hd. injection Hd as <- <-.
    assert (s1 = s) as -> by (unfold s1; rewrite push_zones_nil; by destruct s).
    rewrite <- Hvl at 1.
    rewrite (refresh_idle (zs:=zs) (nz:=nz) vec_realloc s (IO_BLOCKS * Z.of_nat g) vold vcur []);
      rewrite ?app_nil_r; try done; [|apply (bl_ok _ _ _ _ _ Hb)|unfold IO_BLOCKS; lia].
    split; [done|]. exists g, old, cur. split; [lia|]. done.
Qed.

(** ** The arithmetic of a balanced plan *)

(** Room in the zones of the current group and of [r] new groups. *)
Definition room (n g r : nat) : list nat := replicate n g ++ replicate (r * n) gz.

(** What each zone of the last group has free, and what each of them gets. *)
Definition last_room (g r : nat) : nat := match r with O => g | S _ => gz end.
Definition last_share (g r w : nat) : nat := match r with O => w | S r' => (w - g - r' * gz)%nat end.

Lemma length_room n g r : length (room n g r) = (S r * n)%nat.
Proof. unfold room. rewrite length_app, !length_replicate. lia. Qed.

Lemma drop_room n g r : drop (r * n) (room n g r) = replicate n (last_room g r).
Proof.
  unfold room. destruct r as [|r]; [cbn; by rewrite app_nil_r|].
  cbn [Nat.mul]. rewrite drop_app_add' by (by rewrite length_replicate).
  rewrite drop_replicate. cbn [last_room]. f_equal. lia.
Qed.

Lemma sum_take_room n g r :
  sum_list (take (r * n) (room n g r)) = (n * (match r with O => 0 | S r' => g + r' * gz end))%nat.
Proof.
  unfold room. destruct r as [|r]; [by rewrite Nat.mul_0_r|].
  cbn [Nat.mul]. rewrite take_app_add' by (by rewrite length_replicate).
  rewrite sum_list_with_app, take_replicate, !sum_list_replicate. lia.
Qed.

Lemma sum_room n g r : sum_list (room n g r) = (n * (g + r * gz))%nat.
Proof. unfold room. rewrite sum_list_with_app, !sum_list_replicate. lia. Qed.

(** [groups_for] in I/Os. *)
Lemma groups_for_ios n g r w :
  (0 < n)%nat ->
  groups_for (zs:=zs) n (IO_BLOCKS * Z.of_nat (n * w) - Z.of_nat n * (IO_BLOCKS * Z.of_nat g)) r ->
  (sum_list (take (r * n) (room n g r)) <= n * w <= sum_list (room n g r))%nat.
Proof.
  intros Hn [Hhi Hlo]. rewrite sum_take_room, sum_room, Hgz in *. unfold IO_BLOCKS in *.
  split; [|nia]. destruct r as [|r]; [lia|]. destruct Hlo as [|Hlo]; [done|].
  assert (g + r * gz <= w)%nat; [|nia]. nia.
Qed.

Lemma plan_room n g r w :
  (0 < n)%nat -> (sum_list (take (r * n) (room n g r)) <= n * w <= sum_list (room n g r))%nat ->
  plan n (S r) (n * w) (room n g r)
  = take (r * n) (room n g r) ++ replicate n (last_share g r w) /\
  zip_with Nat.sub (room n g r) (plan n (S r) (n * w) (room n g r))
  = replicate (r * n) O ++ replicate n (last_room g r - last_share g r w)%nat.
Proof.
  intros Hn Hsum. assert (plan n (S r) (n * w) (room n g r)
    = take (r * n) (room n g r) ++ replicate n (last_share g r w)) as Hp.
  { unfold plan. replace (S r - 1)%nat with r by lia. f_equal.
    rewrite sum_take_room, <- Nat.mul_sub_distr_l, even_mul by done. f_equal.
    destruct r; cbn; lia. }
  split; [done|]. rewrite Hp. rewrite <- (take_drop (r * n) (room n g r)) at 1.
  assert (length (take (r * n) (room n g r)) = (r * n)%nat) as Hl.
  { rewrite length_take, length_room. lia. }
  rewrite zip_with_app by done. f_equal.
  - apply list_eq. intros i. destruct (decide (i < r * n)%nat) as [Hi|Hi].
    + rewrite lookup_zip_with, lookup_replicate_2 by done.
      destruct (take _ _ !! i) eqn:E; cbn; [f_equal; lia|]. apply lookup_ge_None in E. lia.
    + rewrite (proj2 (lookup_ge_None (replicate (r * n) O) i)) by (rewrite length_replicate; lia).
      apply lookup_ge_None. rewrite length_zip_with. lia.
  - rewrite drop_room. by rewrite zip_with_replicate.
Qed.

(** ** [_write] *)

(** What a successful write leaves: a balanced partition again, with room for
    [gl] I/Os in each zone of its group, the bytes held by the intervals [ptrs],
    everything held before still held. *)
Record write_done (s : ust) (n gl : nat) (l : list Z) (ptrs : list nat) (bs : list Byte.byte)
    (s' : ust) : Prop := {
  wd_balanced : exists old' cur', balanced s' n gl old' cur' /\ length cur' = n;
  wd_part : exists zv, u_part s' = set_zone_vector zv (u_part s);
  wd_numbers : zone_numbers (u_part s') = zone_numbers (u_part s) ++ l;
  wd_mem : host_mem (z_ctl (u_z s')) = host_mem (z_ctl (u_z s));
  wd_holds : holds (zs:=zs) (nz:=nz) (u_z s') (Z.of_nat n) ptrs bs;
  wd_keeps : forall n' q d, good_cnt n' -> holds (zs:=zs) (nz:=nz) (u_z s) n' q d ->
    holds (zs:=zs) (nz:=nz) (u_z s') n' q d;
  wd_other : forall z, 0 <= z < nz -> z ∉ zone_numbers (u_part s') ->
    host_wp (z_ctl (u_z s')) z = host_wp (z_ctl (u_z s)) z;
  wd_idle : bs = [] -> z_ctl (u_z s') = z_ctl (u_z s) }.

(** The zones of the transfer and their room. *)
Lemma balanced_room s n g old cur l izg' :
  (0 < gz)%nat -> balanced s n g old cur -> length cur = n ->
  forall r, draws (r * n) (u_izg s) = Some (l, izg') ->
  free_ios (z_ctl (u_z s)) (cur ++ l) (room n g r) /\ NoDup (cur ++ l) /\
  length (cur ++ l) = (S r * n)%nat /\
  supply (zs:=zs) (nz:=nz) (z_ctl (u_z s)) izg' ((old ++ cur) ++ l).
Proof.
  intros Hg Hb Hcl r Hd. pose proof (balanced_nz _ _ _ _ _ Hb Hg) as [Hnz _].
  destruct (supply_draws (zs:=zs) (nz:=nz) _ _ _ _ _ _ ltac:(lia) (bl_supply _ _ _ _ _ Hb) Hd)
    as (Hs & Hl & Hlen).
  assert (NoDup ((old ++ cur) ++ l)) as Hnd.
  { pose proof (su_nodup _ _ _ Hs) as H. by apply NoDup_app in H as [H _]. }
  rewrite <- app_assoc in Hnd. apply NoDup_app in Hnd as (_ & _ & Hnd).
  split; [|split; [done|]; split; [rewrite length_app; lia|done]].
  pose proof (su_range _ _ _ Hs) as Hr. rewrite <- !app_assoc in Hr.
  apply Forall_app in Hr as [_ Hr]. apply Forall_app in Hr as [Hr1 Hr].
  apply Forall_app in Hr as [Hr2 _]. unfold free_ios, room. apply Forall2_app.
  - apply Forall2_replicate_r; [done|]. apply Forall_and. split; [done|]. apply (bl_cur _ _ _ _ _ Hb).
  - apply Forall2_replicate_r; [done|]. apply Forall_and. split; [done|].
    eapply Forall_impl; [exact Hl|]. cbn. intros z [_ Hw]. unfold free_blocks. rewrite Hw. lia.
Qed.

Lemma Forall2_replicate_inv {A B} (P : A -> B -> Prop) l k y :
  Forall2 P l (replicate k y) -> Forall (fun x => P x y) l.
Proof.
  intros H. apply Forall_lookup_2. intros i x Hx.
  destruct (Forall2_lookup_l _ _ _ _ _ H Hx) as (y' & Hy & HP).
  by apply lookup_replicate in Hy as [-> _].
Qed.

(** A balanced partition after a write that gave the plan to its zones. *)
Lemma balanced_after s n g old cur r w l z' izg' p' :
  (0 < gz)%nat -> balanced s n g old cur -> length cur = n ->
  draws (r * n) (u_izg s) = Some (l, izg') ->
  (sum_list (take (r * n) (room n g r)) <= n * w <= sum_list (room n g r))%nat ->
  ctl_ok (zs:=zs) (nz:=nz) (z_ctl z') ->
  free_ios (z_ctl z') (cur ++ l) (zip_with Nat.sub (room n g r) (plan n (S r) (n * w) (room n g r))) ->
  (forall z, 0 <= z < nz -> z ∉ cur ++ l -> host_wp (z_ctl z') z = host_wp (z_ctl (u_z s)) z) ->
  p_izg_cnt p' = Z.of_nat n -> zone_numbers p' = (old ++ cur) ++ l ->
  exists old' cur', balanced (Ust z' izg' p') n (g + r * gz - w) old' cur' /\ length cur' = n.
Proof.
  intros Hg Hb Hcl Hd Hsum Hok Hfree Hother Hcnt Hnum. pose proof (bl_good _ _ _ _ _ Hb) as Hgood.
  pose proof Hgood as [Hn _].
  destruct (balanced_room s n g old cur l izg' Hg Hb Hcl r Hd) as (_ & Hnd & Hlen & Hs).
  rewrite (proj2 (plan_room n g r w ltac:(lia) Hsum)) in Hfree.
  assert (length (take (r * n) (cur ++ l)) = (r * n)%nat) as Htl by (rewrite length_take; lia).
  unfold free_ios in Hfree. rewrite <- (take_drop (r * n) (cur ++ l)) in Hfree at 1.
  apply Forall2_app_inv in Hfree as [Hf1 Hf2]; [|by rewrite length_replicate].
  assert (forall z, 0 <= z < nz -> z ∉ cur ++ l -> free_blocks (zs:=zs) (z_ctl z') z
    = free_blocks (zs:=zs) (z_ctl (u_z s)) z) as Hfo.
  { intros z Hz Hnot. unfold free_blocks. by rewrite Hother. }
  pose proof (su_nodup _ _ _ Hs) as Hall. pose proof (su_range _ _ _ Hs) as Hrange.
  rewrite <- !app_assoc, (app_assoc cur l) in Hall, Hrange.
  apply NoDup_app in Hall as (_ & Hold & Hrest). apply NoDup_app in Hrest as (_ & Hq & _).
  apply Forall_app in Hrange as [Hro Hrange]. apply Forall_app in Hrange as [_ Hrq].
  rewrite Forall_forall in Hro, Hrq.
  exists (old ++ take (r * n) (cur ++ l)), (drop (r * n) (cur ++ l)).
  assert (length (drop (r * n) (cur ++ l)) = n) as Hdl by (rewrite length_drop; lia). split; [|done].
  assert (last_room g r - last_share g r w = g + r * gz - w)%nat as Hleft.
  { rewrite sum_take_room in Hsum. destruct r as [|r]; cbn [last_room last_share]; nia. }
  rewrite Hleft in Hf2. split; cbn [u_z u_izg u_part]; try done.
  - by rewrite Hnum, <- !app_assoc, take_drop.
  - apply Forall_app. split.
    + pose proof (bl_old _ _ _ _ _ Hb) as Ho. rewrite Forall_forall in Ho |- *. intros z Hz.
      rewrite Hfo; [by apply Ho|by apply Hro|]. intros Hin. apply (Hold z Hz). apply elem_of_app. by left.
    + apply Forall2_replicate_inv in Hf1. eapply Forall_impl; [exact Hf1|].
      cbn. intros z [_ ->]. done.
  - apply Forall2_replicate_inv in Hf2. eapply Forall_impl; [exact Hf2|].
    cbn. by intros z [_ ->].
  - by left.
  - rewrite <- app_assoc, take_drop, app_assoc. destruct Hs as [S1 S2 S3]. split; try done.
    rewrite Forall_forall in S3 |- *. intros z Hz. rewrite Hother; [by apply S3|by apply Hrq|].
    intros Hin. by apply (Hq z Hin).
Qed.

Lemma balanced_g s n g old cur :
  balanced s n g old cur -> length cur = n -> (g <= gz)%nat.
Proof.
  intros Hb Hcl. pose proof (bl_good _ _ _ _ _ Hb) as [Hn _]. destruct cur as [|z cur]; [cbn in *; lia|].
  pose proof (bl_cur _ _ _ _ _ Hb) as Hc. apply Forall_cons in Hc as [Hc _].
  pose proof (su_range _ _ _ (bl_supply _ _ _ _ _ Hb)) as Hr.
  apply Forall_app in Hr as [Hr _]. apply Forall_app in Hr as [_ Hr]. apply Forall_cons in Hr as [Hr _].
  pose proof (host_wp_range _ _ (bl_ok _ _ _ _ _ Hb) Hr). unfold free_blocks, IO_BLOCKS in *. lia.
Qed.

Lemma room_usable n g r c zones :
  (0 < g)%nat -> (0 < gz)%nat -> free_ios c zones (room n g r) ->
  Forall (fun z => 0 <= z < nz /\ 0 < free_blocks (zs:=zs) c z) zones.
Proof.
  intros Hg Hz Hf. apply Forall_lookup_2. intros i z Hi.
  destruct (Forall2_lookup_l _ _ _ _ _ Hf Hi) as (f & Hfi & Hr & ->). split; [done|].
  unfold room in Hfi. apply lookup_app_Some in Hfi as [Hfi|[_ Hfi]];
    apply lookup_replicate in Hfi as [-> _]; unfold IO_BLOCKS; lia.
Qed.

(** The intervals of the zones of a transfer, as the transfer finds them. *)
Lemma interval_of_heap c sid ivs v zones :
  number <$> v = zones ->
  ivs ++ (interval_of c sid <$> reverse v) = new_heap c sid ivs zones.
Proof. intros <-. unfold new_heap. by rewrite <- fmap_reverse, <- list_fmap_compose. Qed.

Lemma write_prepared_ok sched s seg buf n g old cur w r l izg' bs :
  (0 < gz)%nat -> balanced s n g old cur -> length cur = n -> (0 < g)%nat ->
  Z.of_nat n * zs <= 2 ^ 31 -> IO_SIZE * Z.of_nat (n * w) < 2 ^ 32 ->
  groups_for (zs:=zs) n (IO_BLOCKS * Z.of_nat (n * w) - Z.of_nat n * (IO_BLOCKS * Z.of_nat g)) r ->
  draws (r * n) (u_izg s) = Some (l, izg') ->
  load (host_mem (z_ctl (u_z s))) buf (IO_SIZE * Z.of_nat (n * w)) = Some bs ->
  exists s' ptrs, write_prepared sched seg buf (Z.of_nat n) (IO_BLOCKS * Z.of_nat (n * w)) s
      = Ret (set_interval_list ptrs seg, 0) s' /\
    write_done s n (g + r * gz - w) l ptrs bs s' /\ u_izg s' = izg'.
Proof.
  intros Hg Hb Hcl Hg0 Hnzs Hfit Hgr Hd Hload. pose proof (bl_good _ _ _ _ _ Hb) as Hgood.
  pose proof Hgood as [Hn _]. pose proof (bl_ok _ _ _ _ _ Hb) as Hok.
  destruct (balanced_zones _ _ _ _ _ Hb) as (vold & vcur & Hv & Ho & Hcu & Hfo & Hfc).
  destruct (balanced_room s n g old cur l izg' Hg Hb Hcl r Hd) as (Hroom & Hnd & Hlen & Hs).
  assert (length vcur = n) as Hvl by (rewrite <- Hcl, <- Hcu; by rewrite length_fmap).
  assert (length l = (r * n)%nat) as Hll by (rewrite length_app in Hlen; lia).
  pose proof (groups_for_ios n g r w ltac:(lia) Hgr) as Hsum.
  pose proof (balanced_g _ _ _ _ _ Hb Hcl) as Hgle. pose proof (balanced_nz _ _ _ _ _ Hb Hg) as [Hnz _].
  assert (Z.of_nat (S r * n) <= nz) as Hmax.
  { pose proof (supply_length _ _ _ Hs) as H. rewrite <- app_assoc, length_app in H. lia. }
  unfold write_prepared. rewrite bind_gets.
  rewrite Hv, Nat2Z.id, i32_small by (unfold IO_SIZE, _192KB, IO_BLOCKS in *; lia).
  pose proof (collect_free_ok (zs:=zs) (nz:=nz) s (IO_BLOCKS * Z.of_nat g) vold vcur []
    (IO_BLOCKS * Z.of_nat (n * w)) Hok) as Hcol.
  rewrite app_nil_r, Hvl in Hcol. erewrite bind_Ret; cycle 1.
  { apply Hcol; try done; unfold IO_SIZE, _192KB, IO_BLOCKS in *; try lia. nia. }
  clear Hcol. cbn beta iota. rewrite bind_gets, reverse_replicate.
  pose proof (draws_length _ _ _ _ Hd) as Hq.
  erewrite bind_Ret; cycle 1.
  { apply (grow_ok (zs:=zs) (nz:=nz) n r _ _ _ (Z.of_nat n) s l izg'); try done; try lia.
    - unfold IO_SIZE, _192KB, IO_BLOCKS in *; lia.
    - nia. }
  cbn beta iota. rewrite bind_gets. cbn [u_part].
  set (s2 := Ust (u_z s) izg' (push_zones l (u_part s))).
  set (vnew := (fun z => MkZone (u32 z) []) <$> l).
  assert (Forall (fun z => 0 <= z < nz /\ 0 < free_blocks (zs:=zs) (z_ctl (u_z s)) z) (cur ++ l)) as Hus.
  { apply (room_usable n g r); [lia..|done]. }
  assert (zone_vector (u_part s2) = vold ++ (vcur ++ vnew) ++ []) as Hv2.
  { unfold s2, push_zones. cbn. by rewrite Hv, app_nil_r, app_assoc. }
  assert (number <$> (vcur ++ vnew) = cur ++ l) as Hnum.
  { unfold vnew. rewrite fmap_app, Hcu, number_new_zones; [done|].
    apply Forall_app in Hus as [_ Hus]. eapply Forall_impl; [exact Hus|]. cbn. lia. }
  destruct (make_intervals_ok (zs:=zs) (nz:=nz) (seg_id seg) vold (vcur ++ vnew) [] s2)
    as (zv & Hzv & Hmk); [done|done| |].
  { rewrite <- Hnum in Hus. by apply Forall_fmap in Hus. }
  assert (length (vcur ++ vnew) = (S r * n)%nat) as HN.
  { rewrite <- Hlen, <- Hnum. by rewrite length_fmap. }
  rewrite HN in Hmk. rewrite app_nil_r in Hv2.
  change (zone_vector (push_zones l (u_part s))) with (zone_vector (u_part s2)). rewrite Hv2.
  replace (Z.to_nat (Z.of_nat n + Z.of_nat (r * n))) with (S r * n)%nat by lia.
  erewrite bind_Ret by exact Hmk. clear Hmk. cbn [u_z u_izg u_part].
  unfold s2 at 1 2 3 4. cbn [u_z u_izg]. rewrite (interval_of_heap _ _ _ _ (cur ++ l) Hnum).
  fold (new_ptrs (length (z_ivs (u_z s))) (S r * n)). rewrite <- Hlen.
  replace (replicate n (IO_BLOCKS * Z.of_nat g) ++ replicate (r * n) zs)
    with ((fun f => IO_BLOCKS * Z.of_nat f) <$> room n g r)
    by (unfold room; by rewrite fmap_app, !fmap_replicate, <- Hgz).
  destruct (izg_write_new sched buf n (S r) (n * w) (last_room g r) (seg_id seg)
    (z_ctl (u_z s)) (z_ivs (u_z s)) (cur ++ l) (room n g r) bs) as (z' & Hz' & Hap); try done; try lia.
  { replace (S r - 1)%nat with r by lia. apply drop_room. }
  { by replace (S r - 1)%nat with r by lia. }
  replace (Z.of_nat n + Z.of_nat (r * n)) with (Z.of_nat (S r * n)) by lia.
  erewrite bind_Ret by (apply (zoom_Ret ust_zst); exact Hz'). cbn [set ust_zst u_izg u_part].
  eexists _, _. split; [done|]. split; [|done].
  destruct Hap as [Aok Amem Afree Aother Aholds Akeeps Alen Aidle].
  assert (zone_numbers (set_zone_vector zv (u_part s2)) = (old ++ cur) ++ l) as Hzn.
  { unfold zone_numbers at 1. cbn [set_zone_vector zone_vector]. rewrite Hzv. unfold zone_numbers.
    rewrite Hv2, !fmap_app, <- fmap_app, Hnum, Ho, app_assoc. done. }
  split; cbn [u_z u_izg u_part z_ctl]; try done.
  - eapply (balanced_after s n g old cur r w l); try done. apply (bl_cnt _ _ _ _ _ Hb).
  - by exists zv.
  - by rewrite Hzn, (bl_zv _ _ _ _ _ Hb).
  - intros z Hz Hnot. apply Aother; [done|]. intros Hin. apply Hnot. rewrite Hzn, <- app_assoc.
    apply elem_of_app. by right.
Qed.

(** [Userdata::_write] of [n * w] I/Os on a balanced partition with enough
    queued zones. *)
Lemma write_ok sched s seg buf n g old cur w r l izg' bs :
  let g1 := if decide (cur = [] \/ g = O) then gz else g in
  (0 < gz)%nat -> balanced s n g old cur -> (cur <> [] -> g = O -> moves (length (zone_vector (u_part s))) n = false) ->
  Z.of_nat n * zs <= 2 ^ 31 -> IO_SIZE * Z.of_nat (n * w) < 2 ^ 32 ->
  groups_for (zs:=zs) n (IO_BLOCKS * Z.of_nat (n * w) - Z.of_nat n * (IO_BLOCKS * Z.of_nat g1)) r ->
  draws (fresh_zones n g cur + r * n) (u_izg s) = Some (l, izg') ->
  load (host_mem (z_ctl (u_z s))) buf (IO_SIZE * Z.of_nat (n * w)) = Some bs ->
  exists s' ptrs, _write vec_realloc sched seg buf (IO_BLOCKS * Z.of_nat (n * w)) s
      = Ret (set_interval_list ptrs seg, 0) s' /\
    write_done s n (g1 + r * gz - w) l ptrs bs s' /\ u_izg s' = izg'.
Proof.
  intros g1 Hg Hb Hmove Hnzs Hfit Hgr Hd Hload.
  apply draws_add in Hd as (l0 & l1 & izg1 & Hd0 & Hd1 & ->).
  destruct (prepare_ok s n g old cur l0 izg1 Hg Hb Hd0 Hmove)
    as (Hp & g1' & old1 & cur1 & Hg1 & Hcl & Hb1 & Heq). fold g1 in Heq. subst g1'.
  destruct (write_prepared_ok sched (Ust (u_z s) izg1 (push_zones l0 (u_part s))) seg buf n g1
    old1 cur1 w r l1 izg' bs) as (s' & ptrs & Hw & Hdone & Hiz); try done.
  exists s', ptrs. split; [|split; [|done]].
  - unfold _write. rewrite bind_gets. erewrite bind_Ret by exact Hp.
    by rewrite (balanced_cnt _ _ _ _ _ Hb).
  - destruct Hdone as [W1 [zv W2] W3 W4 W5 W6 W7 W8]. split; try done.
    + exists zv. by rewrite W2.
    + rewrite W3. cbn [u_part]. rewrite zone_numbers_push; [by rewrite <- app_assoc|].
      pose proof (balanced_nz _ _ _ _ _ Hb Hg) as [Hnz _].
      destruct (supply_draws (zs:=zs) (nz:=nz) _ _ _ _ _ _ ltac:(lia) (bl_supply _ _ _ _ _ Hb) Hd0)
        as (_ & Hl & _). eapply Forall_impl; [exact Hl|]. cbn. lia.
Qed.

Lemma write_moved sched s seg buf n old cur l izg1 wb :
  balanced s n 0 old cur -> cur <> [] -> draws n (u_izg s) = Some (l, izg1) ->
  moves (length (zone_vector (u_part s))) n = true ->
  _write vec_realloc sched seg buf wb s = UB.
Proof. intros Hb Hc Hd Hm. unfold _write. rewrite bind_gets. apply bind_UB. by eapply prepare_moved. Qed.
End AppendSpec.
