(* ===== verification/StreamSpec.v ===== *)
(** [Userdata] as an append-only byte stream: [Append] adds its bytes at the
    end, [Read] returns the whole content, other streams are not affected. *)
From S2P Require Import Prelude Nvme Controller Zone Stripe Transfer Rounds Roundtrip Izg.
From S2P Require Import Partition Userdata UserdataSpec AppendSpec.
From stdpp Require Import base numbers list gmap strings.
From Stdlib Require Import ZArith Lia.
Local Open Scope Z_scope.

(** ** The segment vector *)

Definition sorted_offsets (l : list Segment) : Prop :=
  forall i j a b, (i <= j)%nat -> l !! i = Some a -> l !! j = Some b -> seg_offset a <= seg_offset b.

(** [upper_bound] finds the first segment behind [v]. *)
Lemma upper_bound_spec l v fuel : forall first len,
  sorted_offsets l -> (len < fuel)%nat -> (first + len <= length l)%nat ->
  (forall j a, (j < first)%nat -> l !! j = Some a -> seg_offset a <= seg_offset v) ->
  (forall j a, (first + len <= j)%nat -> l !! j = Some a -> seg_offset v < seg_offset a) ->
  let i := upper_bound fuel l first len v in
  (i <= length l)%nat /\
  (forall j a, (j < i)%nat -> l !! j = Some a -> seg_offset a <= seg_offset v) /\
  (forall j a, (i <= j)%nat -> l !! j = Some a -> seg_offset v < seg_offset a).
Proof.
  induction fuel as [|fuel IH]; intros first len Hs Hf Hb Hlo Hhi; [lia|].
  cbn [upper_bound]. destruct len as [|len].
  { split; [lia|]. split; [done|]. intros j a Hj. apply Hhi. lia. }
  pose proof (Nat.lt_div2 (S len) ltac:(lia)) as Hhalf.
  set (half := Nat.div2 (S len)) in *.
  destruct (l !! (first + half)%nat) as [m|] eqn:Hm; [|apply lookup_ge_None in Hm; lia].
  unfold seg_lt. destruct (Z.ltb_spec (seg_offset v) (seg_offset m)) as [Hlt|Hge].
  - apply IH; try done; try lia. intros j a Hj Ha.
    pose proof (Hs (first + half)%nat j m a Hj Hm Ha). lia.
  - apply IH; try done; try lia.
    + intros j a Hj Ha. pose proof (Hs j (first + half)%nat a m ltac:(lia) Ha Hm). lia.
    + intros j a Hj. apply Hhi. lia.
Qed.

(** The binary search splits the vector at the first segment behind [v]. *)
Lemma insert_segment_split l v :
  sorted_offsets l -> exists i, insert_segment l v = take i l ++ v :: drop i l /\
    Forall (fun a => seg_offset a <= seg_offset v) (take i l) /\
    Forall (fun a => seg_offset v < seg_offset a) (drop i l).
Proof.
  intros Hs. destruct (upper_bound_spec l v (S (length l)) 0 (length l)) as (Hi & Hlo & Hhi); try done; try lia.
  { intros j a Hj Ha. apply lookup_lt_Some in Ha. lia. }
  eexists. split; [done|]. split; apply Forall_lookup_2.
  - intros j a Ha. apply lookup_take_Some in Ha as [Ha Hj]. by eapply Hlo.
  - intros j a Ha. rewrite lookup_drop in Ha. eapply Hhi; [|exact Ha]. lia.
Qed.

(** A segment behind all others goes to the end. *)
Lemma insert_segment_last l v :
  Forall (fun a => seg_offset a <= seg_offset v) l -> sorted_offsets l -> insert_segment l v = l ++ [v].
Proof.
  intros Hall Hs. destruct (insert_segment_split l v Hs) as (i & -> & _ & Hhi).
  assert (drop i l = []) as Hd.
  { destruct (drop i l) as [|a t] eqn:E; [done|]. apply Forall_cons in Hhi as [Ha _].
    assert (a ∈ l) as Hin by (rewrite <- (take_drop i l), E; apply elem_of_app; right; left).
    rewrite Forall_forall in Hall. specialize (Hall a Hin). cbn in *. lia. }
  rewrite Hd. rewrite <- (take_drop i l) at 2. by rewrite Hd, app_nil_r.
Qed.

Definition total_size (l : list Segment) : Z := foldr (fun s n => seg_size s + n) 0 l.

Lemma total_size_cons s l : total_size (s :: l) = seg_size s + total_size l.
Proof. done. Qed.
Lemma total_size_app l1 l2 : total_size (l1 ++ l2) = total_size l1 + total_size l2.
Proof. induction l1 as [|x l1 IH]; [done|]. cbn [app]. rewrite !total_size_cons, IH. lia. Qed.

(** Segments that follow one another from offset [off] on. *)
Fixpoint consecutive (off : Z) (l : list Segment) : Prop :=
  match l with
  | [] => True
  | s :: l' => seg_offset s = off /\ 0 <= seg_size s /\ consecutive (off + seg_size s) l'
  end.

Lemma consecutive_app off l1 l2 :
  consecutive off (l1 ++ l2) <-> consecutive off l1 /\ consecutive (off + total_size l1) l2.
Proof.
  revert off. induction l1 as [|s l1 IH]; intros off.
  - cbn. rewrite Z.add_0_r. tauto.
  - cbn [app consecutive]. rewrite IH, total_size_cons, Z.add_assoc. tauto.
Qed.

Lemma consecutive_offsets off l :
  consecutive off l -> Forall (fun s => off <= seg_offset s <= off + total_size l) l /\ 0 <= total_size l.
Proof.
  revert off. induction l as [|s l IH]; intros off; [done|]. cbn [consecutive].
  intros (<- & Hs & Hc). apply IH in Hc as [Hc Ht]. rewrite total_size_cons.
  split; [|lia]. constructor; [lia|].
  eapply Forall_impl; [exact Hc|]. cbn. lia.
Qed.

Lemma consecutive_sorted off l : consecutive off l -> sorted_offsets l.
Proof.
  revert off. induction l as [|s l IH]; intros off Hc; [intros ? ? ? ? _ Hx; done|].
  cbn in Hc. destruct Hc as (<- & Hs & Hc). pose proof (IH _ Hc) as Hl.
  apply consecutive_offsets in Hc as [Hc _].
  intros [|i] [|j] a b Hij Ha Hb; cbn in Ha, Hb; simplify_eq; try lia.
  - rewrite Forall_lookup in Hc. specialize (Hc j b Hb). cbn in Hc. lia.
  - apply (Hl i j); [lia|done|done].
Qed.

Lemma consecutive_next l s :
  consecutive 0 l -> last l = Some s -> total_size l < 2 ^ 32 -> get_next_offset s = total_size l.
Proof.
  intros Hc (l' & ->)%last_Some Ht. unfold get_next_offset.
  apply consecutive_app in Hc as [Hc' Hc]. cbn in Hc. destruct Hc as (-> & Hs & _).
  apply consecutive_offsets in Hc' as [_ Hc'].
  rewrite total_size_app, total_size_cons in *. change (total_size []) with 0 in *.
  rewrite u32_small; lia.
Qed.

Section Stream.
Context `{D : NvmeDevice} {zs nz : Z} `{Zd : !ZnsDevice D zs nz}.

Definition seg_holds (n : Z) (z : zst) (seg : Segment) (d : list Byte.byte) : Prop :=
  holds (zs:=zs) (nz:=nz) z n (interval_vector seg) d /\
  Z.of_nat (length d) = seg_size seg * BLOCK_SIZE.

(** The user data [u] of a partition with groups of [n] zones contains [bs]. *)
Record stored (n : Z) (z : zst) (u : Userdata) (bs : list Byte.byte) : Prop := {
  sto_segs : exists ds, Forall2 (seg_holds n z) (file_segment u) ds /\ bs = concat ds;
  sto_off : consecutive 0 (file_segment u);
  sto_size : ud_size u = total_size (file_segment u);
  sto_bound : Z.of_nat (length bs) < 2 ^ 32;
  sto_unlocked : write_lock u = false;
  sto_live : segs_freed u = false;
  sto_idle : remain_write_req u = 0 }.

Lemma total_size_holds n z segs ds :
  Forall2 (seg_holds n z) segs ds -> Z.of_nat (length (concat ds)) = total_size segs * BLOCK_SIZE.
Proof.
  induction 1 as [|seg d segs ds [_ Hd] _ IH]; [done|].
  cbn [concat]. rewrite length_app, total_size_cons, Nat2Z.inj_add, IH, Hd. lia.
Qed.

Lemma stored_length n z u bs :
  stored n z u bs -> Z.of_nat (length bs) = total_size (file_segment u) * BLOCK_SIZE.
Proof.
  intros [(ds & Hds & ->) _ _ _ _ _ _]. by eapply total_size_holds.
Qed.

(** What a stream contains depends on what its segments hold. *)
Lemma stored_keeps n z z' u bs :
  (forall q d, holds (zs:=zs) (nz:=nz) z n q d -> holds (zs:=zs) (nz:=nz) z' n q d) ->
  stored n z u bs -> stored n z' u bs.
Proof.
  intros Hk [(ds & Hds & ->) ? ? ? ? ? ?]. split; try done. exists ds. split; [|done].
  eapply Forall2_impl; [exact Hds|]. intros seg d [Hh ?]. split; [by apply Hk|done].
Qed.

Lemma to_blocks_mul k : 0 <= k -> to_blocks (IO_SIZE * k) = IO_BLOCKS * k.
Proof.
  intros. unfold to_blocks. replace (IO_SIZE * k) with (IO_BLOCKS * k * BLOCK_SIZE)
    by (unfold IO_SIZE, _192KB, IO_BLOCKS, BLOCK_SIZE; lia).
  by rewrite Z.mod_mul, Z.div_mul.
Qed.

Lemma spin_lock_ok s u :
  write_lock u = false -> spin_lock (Uds s u) = Ret tt (Uds s (set_lock true u)).
Proof. intros H. unfold spin_lock, get_ud. rewrite bind_gets. cbn. by rewrite H. Qed.

Lemma segments_ok s u :
  segs_freed u = false -> segments (Uds s u) = Ret (file_segment u) (Uds s u).
Proof. intros H. unfold segments, get_ud. rewrite bind_gets. cbn. by rewrite H. Qed.

Lemma put_ud_ok s u f : put_ud f (Uds s u) = Ret tt (Uds s (f u)).
Proof. done. Qed.

(** The user data after an append of [k] blocks in the intervals [ptrs]. *)
Definition appended_ud (u : Userdata) (k : Z) (ptrs : list nat) : Userdata :=
  MkUserdata (u32 (next_segment_id u + 1))
    (file_segment u ++ [MkSegment (next_segment_id u) (total_size (file_segment u)) k ptrs])
    (ud_size u + k) 0 false false.

Section Append.
Context (vec_realloc : nat -> bool).

(** The segment an append of [k] blocks writes. *)
Definition next_segment (u : Userdata) (k : Z) : Segment :=
  MkSegment (next_segment_id u) (total_size (file_segment u)) k [].

(** [Append] does what [_write] does. *)
Lemma append_calls_write sched s u buf n bs size :
  stored n (u_z s) u bs -> exists u1,
  Append vec_realloc sched buf size (Uds s u) =
  ('(seg, write_result) ← zoom uds_us (_write vec_realloc sched (next_segment u (to_blocks size)) buf (to_blocks size));
   if write_result <? 0 then spin_unlock;; exit0 else
   put_ud (fun u => set_file (insert_segment (file_segment u) seg) u);;
   put_ud (fun u => set_ud_size (u32 (ud_size u + to_blocks size)) u);;
   put_ud (fun u => set_remain (u32 (remain_write_req u - 1)) u);;
   spin_unlock;;
   mret 0) (Uds s u1) /\
  u1 = MkUserdata (u32 (next_segment_id u + 1)) (file_segment u) (ud_size u) 1 true false.
Proof.
  intros Hsto. pose proof (stored_length _ _ _ _ Hsto) as Hlen.
  destruct Hsto as [_ Hoff Hsz Hbd Hlk Hlive Hidle].
  eexists. unfold Append.
  erewrite bind_Ret by (by apply spin_lock_ok). erewrite bind_Ret by apply put_ud_ok.
  erewrite bind_Ret by (by apply segments_ok). cbn [file_segment set_remain set_lock].
  unfold get_ud. rewrite bind_gets. erewrite bind_Ret by apply put_ud_ok. cbn [d_ud].
  cbn [next_segment_id set_remain set_lock].
  assert (match last (file_segment u) with None => 0 | Some s0 => get_next_offset s0 end
    = total_size (file_segment u)) as ->.
  { destruct (last (file_segment u)) as [s0|] eqn:Hlast; [|by apply last_None in Hlast as ->].
    apply consecutive_next; [done..|]. unfold BLOCK_SIZE in Hlen. lia. }
  split; [done|]. unfold set_next_id, set_remain, set_lock. cbn. by rewrite Hidle, Hlive.
Qed.

Lemma append_runs sched s u buf n bs size s' ptrs :
  stored n (u_z s) u bs -> 0 <= to_blocks size ->
  Z.of_nat (length bs) + to_blocks size * BLOCK_SIZE < 2 ^ 32 ->
  _write vec_realloc sched (next_segment u (to_blocks size)) buf (to_blocks size) s
    = Ret (set_interval_list ptrs (next_segment u (to_blocks size)), 0) s' ->
  Append vec_realloc sched buf size (Uds s u) = Ret 0 (Uds s' (appended_ud u (to_blocks size) ptrs)).
Proof.
  intros Hsto Hk Hfit Hw. pose proof (stored_length _ _ _ _ Hsto) as Hlen.
  destruct (append_calls_write sched s u buf n bs size Hsto) as (u1 & -> & ->).
  destruct Hsto as [_ Hoff Hsz Hbd Hlk Hlive Hidle]. pose proof (consecutive_offsets _ _ Hoff) as [Hoffs Htot].
  unfold BLOCK_SIZE in Hlen, Hfit.
  erewrite bind_Ret by (apply (zoom_Ret uds_us); exact Hw). cbn [set uds_us d_ud Z.ltb Z.compare].
  unfold spin_unlock. repeat (erewrite bind_Ret by apply put_ud_ok).
  unfold set_file, set_ud_size, set_remain, set_lock, set_next_id, set_interval_list.
  cbn [file_segment ud_size remain_write_req next_segment_id write_lock segs_freed seg_id seg_offset seg_size next_segment].
  rewrite insert_segment_last; [|eapply Forall_impl; [exact Hoffs|]; cbn; lia|by eapply consecutive_sorted].
  unfold appended_ud. rewrite Hsz. by rewrite (u32_small (total_size _ + _)) by lia.
Qed.

Lemma append_UB sched s u buf n bs size :
  stored n (u_z s) u bs ->
  _write vec_realloc sched (next_segment u (to_blocks size)) buf (to_blocks size) s = UB ->
  Append vec_realloc sched buf size (Uds s u) = UB.
Proof.
  intros Hsto Hw. destruct (append_calls_write sched s u buf n bs size Hsto) as (u1 & -> & ->).
  apply bind_UB. unfold zoom. cbn. by rewrite Hw.
Qed.

Context (gz : nat) (Hgz : zs = IO_BLOCKS * Z.of_nat gz) (Hpos : 0 < nz) (Hgz0 : (0 < gz)%nat).

Lemma append_ok sched s u buf n g old cur w r l izg' bs new :
  let g1 := if decide (cur = [] \/ g = O) then gz else g in
  stored (Z.of_nat n) (u_z s) u bs ->
  balanced (zs:=zs) (nz:=nz) s n g old cur ->
  (cur <> [] -> g = O -> moves vec_realloc (length (zone_vector (u_part s))) n = false) ->
  Z.of_nat n * zs <= 2 ^ 31 ->
  Z.of_nat (length bs) + IO_SIZE * Z.of_nat (n * w) < 2 ^ 32 ->
  groups_for (zs:=zs) n (IO_BLOCKS * Z.of_nat (n * w) - Z.of_nat n * (IO_BLOCKS * Z.of_nat g1)) r ->
  draws (fresh_zones n g cur + r * n) (u_izg s) = Some (l, izg') ->
  load (host_mem (z_ctl (u_z s))) buf (IO_SIZE * Z.of_nat (n * w)) = Some new ->
  exists s' ptrs,
    let u' := appended_ud u (IO_BLOCKS * Z.of_nat (n * w)) ptrs in
    Append vec_realloc sched buf (IO_SIZE * Z.of_nat (n * w)) (Uds s u) = Ret 0 (Uds s' u') /\
    stored (Z.of_nat n) (u_z s') u' (bs ++ new) /\
    write_done (zs:=zs) (nz:=nz) s n (g1 + r * gz - w) l ptrs new s' /\ u_izg s' = izg'.
Proof.
  intros g1 Hsto Hb Hmove Hnzs Hfit Hgr Hd Hload.
  pose proof (stored_length _ _ _ _ Hsto) as Hlen. pose proof (load_length _ _ _ _ Hload) as Hnew.
  assert (to_blocks (IO_SIZE * Z.of_nat (n * w)) = IO_BLOCKS * Z.of_nat (n * w)) as Hk by (apply to_blocks_mul; lia).
  unfold IO_SIZE, _192KB in Hfit.
  destruct (write_ok vec_realloc gz Hgz Hpos sched s (next_segment u (IO_BLOCKS * Z.of_nat (n * w)))
    buf n g old cur w r l izg' new)
    as (s' & ptrs & Hw & Hdone & Hiz); try done; [unfold IO_SIZE, _192KB; lia|].
  exists s', ptrs. cbv zeta. rewrite <- Hk in Hw |- *. split.
  { apply (append_runs sched s u buf (Z.of_nat n) bs); try done; rewrite Hk; unfold IO_BLOCKS, BLOCK_SIZE; lia. }
  split; [|done]. destruct Hdone as [_ _ _ _ W5 W6 _ _].
  destruct Hsto as [(ds & Hds & ->) Hoff Hsz Hbd Hlk Hlive Hidle]. rewrite Hk.
  pose proof (consecutive_offsets _ _ Hoff) as [_ Htot].
  split; cbn [file_segment ud_size write_lock segs_freed remain_write_req appended_ud]; try done.
  - exists (ds ++ [new]). split; [|by rewrite concat_app; cbn; rewrite app_nil_r].
    apply Forall2_app.
    + eapply Forall2_impl; [exact Hds|]. intros seg d [Hh ?]. split; [|done].
      apply W6; [|done]. by destruct Hb.
    + apply Forall2_cons. split; [|done]. split; [exact W5|].
      cbn [seg_size]. unfold IO_SIZE, _192KB, IO_BLOCKS, BLOCK_SIZE in *. lia.
  - apply consecutive_app. split; [done|]. cbn. unfold IO_BLOCKS. lia.
  - rewrite total_size_app, Hsz. cbn. lia.
  - rewrite length_app. unfold IO_SIZE, _192KB in *. lia.
Qed.

End Append.

(** ** Reading *)

(** Whether memory can be loaded depends on the block sizes only. *)
Lemma load_blocks_len (m m' : memory) p k :
  (forall b, length <$> m' !! b = length <$> m !! b) -> is_Some (load m p k) -> is_Some (load m' p k).
Proof.
  intros Hl [x Hx]. specialize (Hl (p_blk p)). unfold load in *.
  destruct (m !! p_blk p) as [b|], (m' !! p_blk p) as [b'|]; try done. injection Hl as Hl.
  cbn in *. unfold in_block in *. rewrite Hl. by destruct (_ && _).
Qed.

(** Consecutive pieces. *)
Lemma same_outside_trans m m1 m2 p a b :
  0 <= a -> 0 <= b -> same_outside m m1 [p] a -> same_outside m1 m2 [ptr_add p a] b ->
  same_outside m m2 [p] (a + b).
Proof.
  intros Ha Hb [Hl1 H1] [Hl2 H2]. split; [intros x; by rewrite Hl2, Hl1|].
  intros q k Hq. specialize (Hq p ltac:(by apply list_elem_of_singleton)).
  rewrite H2, H1; [done|..].
  - intros x ->%list_elem_of_singleton He. specialize (Hq He). lia.
  - intros x ->%list_elem_of_singleton He. cbn in *. specialize (Hq He). lia.
Qed.

Lemma read_ok sched s seg buf n d :
  good_cnt n -> get_izg_cnt (u_part s) = n -> ctl_ok (zs:=zs) (nz:=nz) (z_ctl (u_z s)) ->
  seg_holds n (u_z s) seg d -> is_Some (load (host_mem (z_ctl (u_z s))) buf (Z.of_nat (length d))) ->
  exists c', _read sched seg buf (seg_size seg) s
      = Ret 0 (Ust (Zst c' (z_ivs (u_z s))) (u_izg s) (u_part s)) /\
    same_store (zs:=zs) (nz:=nz)
      (set_device (device (z_ctl (u_z s))) (host_mem c') (z_ctl (u_z s))) c' /\
    load (host_mem c') buf (Z.of_nat (length d)) = Some d /\
    same_outside (host_mem (z_ctl (u_z s))) (host_mem c') [buf] (Z.of_nat (length d)).
Proof.
  intros Hgood Hcnt Hok [Hh Hd] Hload.
  destruct (izg_read_holds sched buf n (interval_vector seg) (seg_size seg) (u_z s) d
    Hgood Hok Hh Hload) as (c' & Hr & Hs & Hl & Hout).
  exists c'. split; [|done]. unfold _read. rewrite bind_gets, Hcnt.
  rewrite u32_small; [by apply (zoom_Ret ust_zst)|].
  destruct Hh as (r & l & -> & _ & Hlen & _). rewrite length_fmap. lia.
Qed.

Lemma read_nothing c buf :
  is_Some (load (host_mem c) buf 0) ->
  same_store (zs:=zs) (nz:=nz) (set_device (device c) (host_mem c) c) c /\
  load (host_mem c) buf 0 = Some [] /\ same_outside (host_mem c) (host_mem c) [buf] 0.
Proof.
  intros [x Hx]. split; [by split|]. split; [|by split].
  pose proof (load_length _ _ _ _ Hx). rewrite Hx. destruct x; [done|]. cbn in *. lia.
Qed.

(** The segments [segs], and then [extra] blocks of [rest]. *)
Lemma read_segments_then sched n segs ds rest extra :
  0 <= extra < 2 ^ 31 ->
  Forall (fun seg => 0 <= seg_size seg) segs -> good_cnt n -> length segs = length ds ->
  forall k c ivs iz p u buf,
  get_izg_cnt p = n -> ctl_ok (zs:=zs) (nz:=nz) c -> Forall2 (seg_holds n (Zst c ivs)) segs ds ->
  is_Some (load (host_mem c) buf (Z.of_nat (length (concat ds)))) ->
  Z.of_nat (length (concat ds)) < 2 ^ 32 ->
  exists c', read_segments sched k (segs ++ rest) buf (total_size segs + extra) (Uds (Ust (Zst c ivs) iz p) u)
      = read_segments sched (k + length segs) rest (ptr_add buf (Z.of_nat (length (concat ds)))) extra
          (Uds (Ust (Zst c' ivs) iz p) u) /\
    same_store (zs:=zs) (nz:=nz) (set_device (device c) (host_mem c') c) c' /\
    load (host_mem c') buf (Z.of_nat (length (concat ds))) = Some (concat ds) /\
    same_outside (host_mem c) (host_mem c') [buf] (Z.of_nat (length (concat ds))).
Proof.
  intros Hex Hsizes Hgood. revert ds. induction Hsizes as [|seg segs Hsz Hsizes IH];
    intros ds Hlen k c ivs iz p u buf Hcnt Hok Hds Hload Hb.
  { apply Forall2_nil_inv_l in Hds as ->. exists c. cbn [app length concat]. rewrite Nat.add_0_r.
    change (total_size [] + extra) with extra. rewrite ptr_add_0. split; [done|]. by apply read_nothing. }
  pose proof (total_size_holds _ _ _ _ Hds) as Htot. rewrite total_size_cons in Htot.
  apply Forall2_cons_inv_l in Hds as (d & ds' & Hd & Hds & ->). cbn [concat] in *.
  pose proof (total_size_holds _ _ _ _ Hds) as Htot'.
  rewrite length_app, Nat2Z.inj_add in *. destruct Hd as [Hh Hdl]. unfold BLOCK_SIZE in *.
  cbn [app read_segments]. rewrite total_size_cons.
  destruct (Z.leb_spec (seg_size seg + total_size segs + extra) 0).
  { exists c. split.
    { replace extra with 0 by lia. replace (seg_size seg + total_size segs + 0) with 0 by lia. by destruct rest. }
    assert (d ++ concat ds' = []) as ->.
    { apply nil_length_inv. rewrite length_app. lia. }
    replace (Z.of_nat (length d) + Z.of_nat (length (concat ds'))) with 0 in * by lia.
    by apply read_nothing. }
  destruct (read_ok (sched k) (Ust (Zst c ivs) iz p) seg buf n d) as (c1 & Hr & Hs1 & Hl1 & Ho1);
    try done; cbn [u_z z_ctl] in *.
  { destruct (load_piece (host_mem c) buf _ 0 (Z.of_nat (length d)) Hload) as [x Hx]; [lia..|].
    rewrite ptr_add_0 in Hx. by rewrite Hx. }
  erewrite bind_Ret by (apply (zoom_Ret uds_us); exact Hr). cbn [set uds_us d_ud u_z z_ivs u_izg u_part].
  unfold BLOCK_SIZE. rewrite (u32_small (_ * 512)), <- Hdl, (u32_small (_ - _)) by lia.
  replace (seg_size seg + total_size segs + extra - seg_size seg) with (total_size segs + extra) by lia.
  destruct (IH ds' ltac:(cbn in Hlen; lia) (S k) c1 ivs iz p u (ptr_add buf (Z.of_nat (length d))))
    as (c2 & Hr2 & Hs2 & Hl2 & Ho2); try done; try lia.
  { rewrite <- Hs1. by apply ctl_ok_mem. }
  { eapply Forall2_impl; [exact Hds|]. intros sg x [Hx ?]. split; [|done]. by eapply same_store_keeps. }
  { eapply (load_blocks_len (host_mem c)); [apply Ho1|]. eapply load_piece; [exact Hload|lia..]. }
  exists c2. split; [rewrite Hr2; cbn [length]; rewrite ptr_add_add; by replace (k + S (length segs))%nat with (S k + length segs)%nat by lia|]. split; [|split].
  - destruct Hs1 as [A1 A2 A3 A4 A5], Hs2 as [B1 B2 B3 B4 B5]. cbn in *. split; cbn; congruence.
  - rewrite load_app; [|lia..|].
    + rewrite Hl2. destruct Ho2 as [_ Ho2]. rewrite Ho2, Hl1; [done|].
      intros q ->%list_elem_of_singleton _. cbn. lia.
    + eapply (load_blocks_len (host_mem c)); [|done]. intros b. by rewrite (proj1 Ho2), (proj1 Ho1).
  - eapply same_outside_trans; [lia..|done|done].
Qed.

(** [Read] of the whole stream fills the buffer with its content and changes
    nothing else. *)
Lemma stream_read_ok sched s u buf n bs :
  good_cnt n -> get_izg_cnt (u_part s) = n -> ctl_ok (zs:=zs) (nz:=nz) (z_ctl (u_z s)) ->
  stored n (u_z s) u bs -> is_Some (load (host_mem (z_ctl (u_z s))) buf (Z.of_nat (length bs))) ->
  exists c', Read sched buf (Z.of_nat (length bs)) (Uds s u)
      = Ret 0 (Uds (Ust (Zst c' (z_ivs (u_z s))) (u_izg s) (u_part s)) u) /\
    same_store (zs:=zs) (nz:=nz)
      (set_device (device (z_ctl (u_z s))) (host_mem c') (z_ctl (u_z s))) c' /\
    load (host_mem c') buf (Z.of_nat (length bs)) = Some bs /\
    same_outside (host_mem (z_ctl (u_z s))) (host_mem c') [buf] (Z.of_nat (length bs)).
Proof.
  intros Hgood Hcnt Hok Hsto Hload. pose proof (stored_length _ _ _ _ Hsto) as Hlen.
  destruct Hsto as [(ds & Hds & ->) Hoff Hsz Hbd Hlk Hlive Hidle].
  destruct s as [[c ivs] iz p]. cbn [u_z z_ctl z_ivs u_izg u_part] in *.
  assert (Forall (fun seg => 0 <= seg_size seg) (file_segment u)) as Hsizes.
  { apply Forall_lookup_2. intros i seg Hi.
    destruct (Forall2_lookup_l _ _ _ _ _ Hds Hi) as (d & _ & _ & Hd). unfold BLOCK_SIZE in Hd. lia. }
  destruct (read_segments_then sched n _ ds [] 0 ltac:(lia) Hsizes Hgood (Forall2_length _ _ _ Hds) 0 c ivs iz p
    (set_lock true u) buf) as (c' & Hr & Hrest); try done. rewrite app_nil_r, Z.add_0_r in Hr.
  exists c'. split; [|done]. unfold Read.
  erewrite bind_Ret by (by apply spin_lock_ok). erewrite bind_Ret by (by apply segments_ok).
  assert (to_blocks (Z.of_nat (length (concat ds))) = total_size (file_segment u)) as ->.
  { rewrite Hlen. unfold to_blocks. by rewrite Z.mod_mul, Z.div_mul. }
  cbn [file_segment set_lock]. erewrite bind_Ret by exact Hr. cbn [Z.eqb negb].
  unfold spin_unlock. erewrite bind_Ret by apply put_ud_ok. unfold mret, prog_ret. do 2 f_equal.
  unfold set_lock. cbn. destruct u. cbn in *. by subst.
Qed.

(** [Sync] finds no append in progress. *)
Lemma sync_ok n s u bs : stored n (u_z s) u bs -> Sync (Uds s u) = Ret 0 (Uds s u).
Proof.
  intros [_ _ _ _ Hlk _ Hidle]. unfold Sync. erewrite bind_Ret by (by apply spin_lock_ok).
  unfold get_ud. rewrite bind_gets. cbn [d_ud remain_write_req set_lock]. rewrite Hidle. cbn [Z.eqb negb].
  unfold spin_unlock. erewrite bind_Ret by apply put_ud_ok. unfold mret, prog_ret. do 2 f_equal.
  unfold set_lock. cbn. destruct u. cbn in *. by subst.
Qed.
End Stream.
