(* ===== verification/CapacitySpec.v ===== *)
(** The zone groups and the capacity of a partition.  The groups partition the zones,
    and drawing zones from the rotating queue of groups yields the zones in ascending
    order; how much a partition can still take is the room of its current group and of
    the groups of zones not drawn yet. *)
From S2P Require Import Prelude Nvme Controller Init Zone Stripe Transfer Rounds Roundtrip Izg Partition Userdata UserdataSpec AppendSpec StreamSpec.
From stdpp Require Import base numbers list gmap strings.
From Stdlib Require Import ZArith Lia.
Local Open Scope Z_scope.

(** The zones from [k] to [total - 1] that belong to group [g] of [d]. *)
Definition group_from (d total k g : Z) : list Z :=
  filter (fun z => z mod d = g) (seqZ k (total - k)).

Lemma group_from_skip d total k g :
  k mod d <> g -> group_from d total k g = group_from d total (k + 1) g.
Proof.
  intros Hk. unfold group_from. destruct (decide (k < total)).
  - rewrite seqZ_cons by lia. rewrite filter_cons_False by done.
    by replace (Z.pred (total - k)) with (total - (k + 1)) by lia.
  - by rewrite !seqZ_nil by lia.
Qed.

Lemma group_from_take d total k g :
  k mod d = g -> k < total -> group_from d total k g = k :: group_from d total (k + 1) g.
Proof.
  intros Hk Hlt. unfold group_from. rewrite seqZ_cons by lia. rewrite filter_cons_True by done.
  by replace (Z.pred (total - k)) with (total - (k + 1)) by lia.
Qed.

Lemma group_from_end d total k g : total <= k -> group_from d total k g = [].
Proof. intros. unfold group_from. by rewrite seqZ_nil by lia. Qed.

(** Skipping the zones of other groups. *)
Lemma group_from_skips d total g (j : nat) : forall k,
  0 < d -> (forall i, k <= i < k + Z.of_nat j -> i mod d <> g) ->
  group_from d total k g = group_from d total (k + Z.of_nat j) g.
Proof.
  induction j as [|j IH]; intros k Hd Hi; [by rewrite Z.add_0_r|].
  rewrite group_from_skip by (apply Hi; lia). rewrite IH by (done || (intros; apply Hi; lia)).
  f_equal. lia.
Qed.

Lemma mod_other d g i : 0 < d -> 0 <= g < d -> forall a, g = a mod d -> a < i < a + d -> i mod d <> g.
Proof.
  intros Hd Hg a -> Hi He. pose proof (Z.div_mod a d ltac:(lia)). pose proof (Z.div_mod i d ltac:(lia)).
  assert (i - a = d * (i / d - a / d)) as Hq by lia. clear -Hd Hi Hq.
  generalize dependent (i / d - a / d). intros q Hq. destruct (decide (q <= 0)); nia.
Qed.

(** [strided] from a zone of the group on is the rest of the group. *)
Lemma strided_group d total fuel : forall j,
  0 < d -> 0 <= j -> total + d < 2 ^ 32 ->
  total - j <= d * Z.of_nat fuel ->
  strided fuel j d total = group_from d total j (j mod d).
Proof.
  induction fuel as [|fuel IH]; intros j Hd Hj H32 Hf; cbn [strided].
  { rewrite group_from_end; [done|lia]. }
  destruct (Z.ltb_spec j total) as [Hlt|Hge]; [|by rewrite group_from_end].
  rewrite group_from_take by done. f_equal. rewrite u32_small by lia.
  rewrite IH by lia. rewrite <- (Z_mod_plus_full j 1 d), Z.mul_1_l.
  rewrite (group_from_skips d total _ (Z.to_nat (d - 1)) (j + 1)) by
    (done || (intros i Hi; apply (mod_other d _ i Hd (Z.mod_pos_bound _ d Hd) j);
              [by rewrite <- (Z_mod_plus_full j 1 d), Z.mul_1_l|lia])).
  f_equal. lia.
Qed.

Lemma izg_zones_group i d total :
  0 < d -> 0 <= i < d -> i < total -> total + d < 2 ^ 31 ->
  izg_zones i d total = group_from d total 0 i.
Proof.
  intros Hd Hi Ht H32. unfold izg_zones.
  rewrite (group_from_skips d total i (Z.to_nat i) 0) by
    (done || (intros j Hj; rewrite Z.mod_small by lia; lia)).
  rewrite Z2Nat.id, Z.add_0_l by lia. rewrite group_from_take by (rewrite ?Z.mod_small; lia).
  f_equal. rewrite u32_small by lia. rewrite strided_group by nia.
  rewrite <- (Z.mul_1_l d) at 3. rewrite Z_mod_plus_full, Z.mod_small by lia.
  rewrite (group_from_skips d total i (Z.to_nat (d - 1)) (i + 1)) by
    (done || (intros j Hj; apply (mod_other d i j Hd Hi i); [by rewrite Z.mod_small|lia])).
  f_equal. lia.
Qed.

(** ** The rotation *)

(** The queue of groups when zone [k] is next. *)
Definition rotation (d k : Z) : list nat := (fun j => Z.to_nat ((k + j) mod d)) <$> seqZ 0 d.

Lemma rotation_next d k :
  0 < d -> rotation d k = Z.to_nat (k mod d) :: tail (rotation d k) /\
  tail (rotation d k) ++ [Z.to_nat (k mod d)] = rotation d (k + 1).
Proof.
  intros Hd.
  assert (Hcons : rotation d k
    = Z.to_nat (k mod d) :: ((fun j => Z.to_nat ((k + j) mod d)) <$> seqZ 1 (Z.pred d))).
  { unfold rotation. rewrite (seqZ_cons 0 d) by done. cbn [fmap list_fmap].
    by rewrite Z.add_0_r. }
  rewrite Hcons. split; [done|]. cbn [tail]. unfold rotation.
  assert (Hcut : seqZ 1 d = seqZ 1 (Z.pred d) ++ [d]).
  { replace d with (Z.pred d + 1) at 1 by lia. rewrite seqZ_app by lia. f_equal.
    rewrite seqZ_cons by lia. f_equal. lia. }
  assert (Hshift : (fun j => Z.to_nat ((k + 1 + j) mod d)) <$> seqZ 0 d
    = (fun j => Z.to_nat ((k + j) mod d)) <$> seqZ 1 d).
  { unfold seqZ. rewrite <- !list_fmap_compose. apply list_fmap_ext. intros i x _. unfold compose.
    f_equal. f_equal. lia. }
  rewrite Hshift, Hcut, fmap_app. f_equal. cbn. do 2 f_equal.
  replace (k + d) with (k + 1 * d) by lia. by rewrite Z_mod_plus_full.
Qed.

(** The state in which the zones below [k] have been drawn. *)
Record drawn (d total k : Z) (s : izg_st) : Prop := {
  dr_queue : inactive_izg_queue s = rotation d k;
  dr_groups : forall g, 0 <= g < d -> exists G, izgs s !! Z.to_nat g = Some G /\
    zone_queue G = group_from d total k g }.

Lemma draw_zone_next d total k s :
  0 < d -> 0 <= k < total -> total < 2 ^ 31 -> drawn d total k s ->
  exists s', draw_zone s = Ret k s' /\ drawn d total (k + 1) s' /\
    available_izg_cnt s' = available_izg_cnt s /\ total_izg_cnt s' = total_izg_cnt s.
Proof.
  intros Hd Hk H31 [Hq Hg]. destruct (rotation_next d k Hd) as [H1 H2].
  pose proof (Z.mod_pos_bound k d Hd) as Hmod.
  destruct (Hg (k mod d) Hmod) as (G & HG & Hzq). unfold draw_zone. rewrite Hq, H1, HG.
  unfold get_next_zone. rewrite Hzq, group_from_take by lia. rewrite i32_small by lia.
  rewrite (proj2 (Z.ltb_ge _ _)) by lia. eexists. split; [done|]. split; [|done].
  split; cbn [inactive_izg_queue izgs set_inactive set_izgs]; [done|].
  intros g Hgd. destruct (decide (g = k mod d)) as [->|Hne].
  - eexists. rewrite list_lookup_insert_eq by (by eapply lookup_lt_Some). done.
  - rewrite list_lookup_insert_ne by lia. destruct (Hg g Hgd) as (G' & HG' & Hz').
    exists G'. split; [done|]. rewrite Hz'. apply group_from_skip. lia.
Qed.

(** Drawing [j] zones yields the next [j] zones in order. *)
Lemma draws_next d total j : forall k s,
  0 < d -> 0 <= k -> k + Z.of_nat j <= total -> total < 2 ^ 31 -> drawn d total k s ->
  exists s', draws j s = Some (seqZ k (Z.of_nat j), s') /\ drawn d total (k + Z.of_nat j) s' /\
    available_izg_cnt s' = available_izg_cnt s.
Proof.
  induction j as [|j IH]; intros k s Hd Hk Hj H31 Hdr.
  { exists s. rewrite Z.add_0_r. done. }
  destruct (draw_zone_next d total k s) as (s1 & Hz & Hdr1 & Hav & _); [lia..|done|].
  destruct (IH (k + 1) s1) as (s2 & Hds & Hdr2 & Hav2); [lia..|done|].
  exists s2. cbn [draws]. rewrite Hz, (proj2 (Z.ltb_ge _ _)), Hds by lia. cbn [mbind option_bind].
  rewrite (seqZ_cons k) by lia.
  replace (Z.pred (Z.of_nat (S j))) with (Z.of_nat j) by lia.
  replace (k + Z.of_nat (S j)) with (k + 1 + Z.of_nat j) by lia.
  split; [done|]. split; [done|congruence].
Qed.

(** When all zones are drawn, a draw fails and changes nothing. *)
Lemma draw_zone_exhausted d total s :
  0 < d -> 0 <= total -> drawn d total total s -> draw_zone s = Ret (-1) s.
Proof.
  intros Hd Ht [Hq Hg]. destruct (rotation_next d total Hd) as [H1 _].
  destruct (Hg (total mod d) (Z.mod_pos_bound total d Hd)) as (G & HG & Hzq).
  unfold draw_zone. rewrite Hq, H1, HG. unfold get_next_zone.
  by rewrite Hzq, group_from_end by lia.
Qed.

(** ** Building the groups *)

Definition no_izg : izg_st := IzgSt [] [] [] 0 0 [] [].

Lemma build_izgs_state d total (m : nat) :
  foldl (fun s i => push_izg i d total s) no_izg (seqZ 0 (Z.of_nat m))
  = IzgSt ((fun i => new_IZG (izg_zones i d total)) <$> seqZ 0 (Z.of_nat m)) (seq 0 m) (seq 0 m) 0 0 [] [].
Proof.
  induction m as [|m IH]; [done|].
  rewrite (seqZ_S 0 m), foldl_app, IH, fmap_app, Z.add_0_l, (seq_S m 0). cbn [foldl].
  unfold push_izg. cbn [izgs izg_map inactive_izg_queue total_izg_cnt available_izg_cnt iotable_r iotable_w].
  by rewrite length_fmap, length_seqZ, Nat2Z.id.
Qed.

Lemma build_izgs_drawn d total :
  0 < d <= total -> total + d < 2 ^ 31 -> drawn d total 0 (build_izgs d total no_izg).
Proof.
  intros Hd H31. pose proof (build_izgs_state d total (Z.to_nat d)) as Hst.
  rewrite Z2Nat.id in Hst by lia. unfold build_izgs. rewrite Hst. split; cbn [inactive_izg_queue izgs].
  - unfold rotation, seqZ. rewrite <- list_fmap_compose. rewrite <- (list_fmap_id (seq 0 _)) at 1.
    apply list_fmap_ext. intros i x Hx%lookup_seq. unfold compose, id. rewrite Z.mod_small; lia.
  - intros g Hg. exists (new_IZG (izg_zones g d total)). split.
    + rewrite list_lookup_fmap, lookup_seqZ_lt by lia. by rewrite Z.add_0_l, Z2Nat.id by lia.
    + cbn. apply izg_zones_group; lia.
Qed.

(** Every zone is in exactly one group: the group of its number modulo [d]. *)
Lemma group_from_elem d total k g z :
  z ∈ group_from d total k g <-> k <= z < total /\ z mod d = g.
Proof.
  unfold group_from. rewrite list_elem_of_filter, elem_of_seqZ. lia.
Qed.

(** ** Capacity

    A write that fits succeeds and uses up exactly its size. *)

(** Groups of [gz] I/Os per zone for a write of [k] I/Os per zone. *)
Definition groups_needed (gz k g : nat) : nat := if (k <=? g)%nat then 0%nat else ((k - g - 1) / gz + 1)%nat.

Lemma groups_needed_spec gz k g :
  (0 < gz)%nat -> let r := groups_needed gz k g in
  (k <= g + r * gz)%nat /\ (r = O \/ (g + (r - 1) * gz < k)%nat).
Proof.
  intros Hgz. unfold groups_needed. destruct (Nat.leb_spec k g); [lia|].
  pose proof (Nat.div_mod_eq (k - g - 1) gz). pose proof (Nat.mod_upper_bound (k - g - 1) gz). nia.
Qed.

Section Capacity.
Context `{D : NvmeDevice} {zs nz : Z} `{Zd : !ZnsDevice D zs nz}.
Context (vec_realloc : nat -> bool).

(** I/Os left in each zone of the group in use. *)
Definition group_room (s : ust) : nat :=
  match last (zone_numbers (u_part s)) with
  | None => O
  | Some z => Z.to_nat (free_blocks (zs:=zs) (z_ctl (u_z s)) z / IO_BLOCKS)
  end.

(** [_write] on a partition of [n] groups with [len] zones and room [g] uses a
    dangling iterator: the group in use is full, and a [push_back] of one of the new
    zones but the last moves the vector. *)
Definition dangles (len g n : nat) : bool :=
  (0 <? len)%nat && (g =? 0)%nat && moves vec_realloc len n.

Lemma balanced_room_of s n g old cur :
  balanced (zs:=zs) (nz:=nz) s n g old cur -> length cur = n -> group_room s = g.
Proof.
  intros Hb Hcl. pose proof (bl_good _ _ _ _ _ Hb) as [Hn _]. unfold group_room.
  rewrite (bl_zv _ _ _ _ _ Hb), last_app. destruct (last cur) as [z|] eqn:E.
  2: { apply last_None in E as ->. cbn in Hcl. lia. }
  pose proof (bl_cur _ _ _ _ _ Hb) as Hc. rewrite Forall_forall in Hc.
  rewrite (Hc z) by (apply last_Some in E as [l ->]; apply elem_of_app; right; by apply list_elem_of_singleton).
  rewrite Z.mul_comm, Z.div_mul by done. lia.
Qed.

(** The zones and the room of a balanced partition. *)
Lemma balanced_view s n g old cur :
  balanced (zs:=zs) (nz:=nz) s n g old cur -> (cur = [] -> g = O) ->
  group_room s = g /\ (length (zone_vector (u_part s)) = O <-> cur = []).
Proof.
  intros Hb Hcur. pose proof (bl_good _ _ _ _ _ Hb) as [Hn _].
  assert (length (zone_vector (u_part s)) = length (old ++ cur)) as Hlen.
  { rewrite <- (bl_zv _ _ _ _ _ Hb). unfold zone_numbers. by rewrite length_fmap. }
  rewrite length_app in Hlen. destruct (bl_len _ _ _ _ _ Hb) as [Hcl|[-> ->]].
  - split; [by apply (balanced_room_of s n g old cur)|]. split; [|intros ->; cbn in Hcl; lia]. lia.
  - split; [|by rewrite Hlen]. unfold group_room. rewrite (bl_zv _ _ _ _ _ Hb). cbn. symmetry. by apply Hcur.
Qed.

Context (gz : nat) (Hgz : zs = IO_BLOCKS * Z.of_nat gz) (Hpos : 0 < nz) (Hgz0 : (0 < gz)%nat).

(** A balanced partition of [n] groups that can take [cap] more I/Os in each
    of its [n] lanes. *)
Definition ready (s : ust) (n cap : nat) : Prop :=
  exists g old cur d total j, balanced (zs:=zs) (nz:=nz) s n g old cur /\ (cur = [] -> g = O) /\
    drawn d total j (u_izg s) /\ 0 < d /\ 0 <= j <= total /\ total < 2 ^ 31 /\
    cap = (g + gz * (Z.to_nat (total - j) / n))%nat.

(** The length of the zone vector and the room after a write of [k] I/Os per lane. *)
Definition after_write (n len g k : nat) : nat * nat :=
  let used_up := (len =? 0)%nat || (g =? 0)%nat in
  let len1 := if used_up then (len + n)%nat else len in
  let g1 := if used_up then gz else g in
  let r := groups_needed gz k g1 in
  ((len1 + r * n)%nat, (g1 + r * gz - k)%nat).

(** One of the writes [ks], in this order, uses a dangling iterator. *)
Fixpoint any_dangles (n len g : nat) (ks : list nat) : bool :=
  match ks with
  | [] => false
  | k :: ks' => dangles len g n || any_dangles n (after_write n len g k).1 (after_write n len g k).2 ks'
  end.

Lemma groups_for_needed n k g :
  (0 < n)%nat -> groups_for (zs:=zs) n
    (IO_BLOCKS * Z.of_nat (n * k) - Z.of_nat n * (IO_BLOCKS * Z.of_nat g)) (groups_needed gz k g).
Proof.
  intros Hn. pose proof (groups_needed_spec gz k g Hgz0) as [Hhi Hlo]. cbn zeta in *.
  set (r := groups_needed gz k g) in *. unfold groups_for. rewrite Hgz. unfold IO_BLOCKS.
  split; [nia|]. destruct Hlo as [|Hlo]; [by left|]. destruct r as [|r]; [by left|]. right.
  replace (S r - 1)%nat with r in Hlo by lia. nia.
Qed.

(** The zones a fitting write draws, and the capacity after it. *)
Lemma capacity_step (n g Q q k f : nat) (g1 := if (f =? 1)%nat then gz else g) :
  (0 < n)%nat -> Q = (q / n)%nat -> (0 < k <= g + gz * Q)%nat ->
  (f = 0 \/ (f = 1 /\ g = 0))%nat ->
  let r := groups_needed gz k g1 in
  ((f + r) * n <= q)%nat /\
  (g1 + r * gz - k + gz * ((q - (f + r) * n) / n) = g + gz * Q - k)%nat /\ (k <= g1 + r * gz)%nat.
Proof.
  intros Hn -> Hk Hf r. pose proof (groups_needed_spec gz k g1 Hgz0) as [Hhi Hlo]. cbn zeta in *.
  fold r in Hhi, Hlo. pose proof (Nat.div_mod_eq q n) as Hq. pose proof (Nat.mod_upper_bound q n ltac:(lia)).
  assert (f + r <= q / n)%nat as Hle.
  { unfold g1 in *. destruct Hf as [->|[-> ->]]; cbn [Nat.eqb] in *; destruct Hlo as [Hlo|Hlo]; nia. }
  assert ((q - (f + r) * n) / n = q / n - (f + r))%nat as Hdiv.
  { symmetry. apply (Nat.div_unique _ _ _ (q mod n)); nia. }
  split; [nia|]. rewrite Hdiv. split; [|done].
  unfold g1 in *. destruct Hf as [->|[-> ->]]; cbn [Nat.eqb] in *; nia.
Qed.

(** The zones of a partition that is ready are drawn for a write of [k] I/Os. *)
Lemma ready_draws s n cap k :
  ready s n cap -> (k <= cap)%nat -> (0 < k)%nat ->
  exists g old cur f izg' l d total j,
    balanced (zs:=zs) (nz:=nz) s n g old cur /\ (cur = [] -> g = O) /\
    f = (if decide (cur = [] \/ g = O) then 1%nat else 0%nat) /\ fresh_zones n g cur = (f * n)%nat /\
    let g1 := if decide (cur = [] \/ g = O) then gz else g in
    let r := groups_needed gz k g1 in
    draws (f * n + r * n) (u_izg s) = Some (l, izg') /\ length l = (f * n + r * n)%nat /\ (k <= g1 + r * gz)%nat /\
    drawn d total (j + Z.of_nat (f * n + r * n)) izg' /\ 0 < d /\ total < 2 ^ 31 /\
    0 <= j + Z.of_nat (f * n + r * n) <= total /\
    (cap - k = g1 + r * gz - k + gz * (Z.to_nat (total - (j + Z.of_nat (f * n + r * n))) / n))%nat.
Proof.
  intros (g & old & cur & d & total & j & Hb & Hcur & Hdr & Hd & Hj & H31 & Hcap) Hk Hk0.
  pose proof (bl_good _ _ _ _ _ Hb) as [Hn _].
  set (f := if decide (cur = [] \/ g = O) then 1%nat else 0%nat).
  set (g1 := if decide (cur = [] \/ g = O) then gz else g).
  assert ((if (f =? 1)%nat then gz else g) = g1 /\ fresh_zones n g cur = (f * n)%nat /\
    (f = 0 \/ (f = 1 /\ g = 0))%nat) as (Hg1 & Hfresh & Hf).
  { unfold f, g1, fresh_zones. case_decide as Hc; cbn; (split; [done|]; split; [lia|]).
    - right. split; [done|]. destruct Hc as [Hc|]; [by apply Hcur|done].
    - by left. }
  destruct (capacity_step n g (Z.to_nat (total - j) / n) (Z.to_nat (total - j)) k f)
    as (Hfits & Hleft & Hk1); [lia|done|lia|done|].
  cbn zeta in *. rewrite Hg1 in *. set (r := groups_needed gz k g1) in *.
  destruct (draws_next d total (f * n + r * n) j (u_izg s)) as (izg' & Hds & Hdr' & _);
    [lia|lia|nia|done|done|].
  exists g, old, cur, f, izg', (seqZ j (Z.of_nat (f * n + r * n))), d, total, j.
  split; [done|]. split; [done|]. split; [done|]. split; [done|]. split; [done|].
  split; [by rewrite length_seqZ, Nat2Z.id|]. do 4 (split; [done|]). split; [cbn zeta; fold g1; fold r; nia|].
  cbn zeta. fold g1. fold r.
  replace (Z.to_nat (total - (j + Z.of_nat (f * n + r * n))))
    with (Z.to_nat (total - j) - (f + r) * n)%nat by nia. lia.
Qed.

(** [Append] of a write that fits: undefined when it uses a dangling iterator,
    otherwise a success. *)
Lemma append_fits sched s u buf n cap k bs new :
  stored (zs:=zs) (nz:=nz) (Z.of_nat n) (u_z s) u bs -> ready s n cap -> (0 < k <= cap)%nat ->
  Z.of_nat n * zs <= 2 ^ 31 -> Z.of_nat (length bs) + IO_SIZE * Z.of_nat (n * k) < 2 ^ 32 ->
  load (host_mem (z_ctl (u_z s))) buf (IO_SIZE * Z.of_nat (n * k)) = Some new ->
  let len := length (zone_vector (u_part s)) in
  let g := group_room s in
  (dangles len g n = true -> Append vec_realloc sched buf (IO_SIZE * Z.of_nat (n * k)) (Uds s u) = UB) /\
  (dangles len g n = false -> exists s' ptrs gl l,
    let u' := appended_ud u (IO_BLOCKS * Z.of_nat (n * k)) ptrs in
    Append vec_realloc sched buf (IO_SIZE * Z.of_nat (n * k)) (Uds s u) = Ret 0 (Uds s' u') /\
    stored (zs:=zs) (nz:=nz) (Z.of_nat n) (u_z s') u' (bs ++ new) /\ ready s' n (cap - k) /\
    write_done (zs:=zs) (nz:=nz) s n gl l ptrs new s' /\
    (length (zone_vector (u_part s')), group_room s') = after_write n len g k).
Proof.
  intros Hsto Hr Hk Hnzs Hfit Hload len g0.
  destruct (ready_draws s n cap k Hr ltac:(lia) ltac:(lia)) as (g & old & cur & f & izg' & l & d & total & j & Hb & Hcur & Hf &
    Hfresh & Hds & Hll & Hk1 & Hdr & Hd & H31 & Hj & Hcap). cbv zeta in *.
  destruct (balanced_view s n g old cur Hb Hcur) as [Hroom Hempty]. fold len in Hempty. unfold g0. rewrite Hroom.
  pose proof (bl_good _ _ _ _ _ Hb) as [Hn _].
  split; intros Hdang.
  - apply andb_prop in Hdang as [Hdang Hm]. apply andb_prop in Hdang as [H1%Nat.ltb_lt ->%Nat.eqb_eq].
    rewrite decide_True in Hf by auto. subst f. rewrite Nat.mul_1_l in Hds.
    apply draws_add in Hds as (l0 & l1 & izg1 & Hd0 & _).
    apply (append_UB vec_realloc sched s u buf (Z.of_nat n) bs); [done|].
    eapply (write_moved vec_realloc gz Hgz Hpos); [exact Hb|intros Hc; apply Hempty in Hc; lia|exact Hd0|exact Hm].
  - set (g1 := if decide (cur = [] \/ g = O) then gz else g) in *. set (r := groups_needed gz k g1) in *.
    destruct (append_ok vec_realloc gz Hgz Hpos Hgz0 sched s u buf n g old cur k r l izg' bs new)
      as (s' & ptrs & Ha & Hs & Hdone & Hizg); try done.
    { intros Hc Hg. destruct (moves vec_realloc (length (zone_vector (u_part s))) n) eqn:E; [|done].
      rewrite <- Hdang. unfold dangles. fold len in E. rewrite E, Hg, (proj2 (Nat.ltb_lt 0 len)); [done|].
      destruct len; [|lia]. by destruct Hc, Hempty as [-> _]. }
    { fold g1. apply groups_for_needed. lia. }
    { by rewrite Hfresh. }
    fold g1 in Hdone. exists s', ptrs, (g1 + r * gz - k)%nat, l.
    split; [done|]. split; [done|]. pose proof Hdone as [(old' & cur' & Hb' & Hcl) _ Hnum _ _ _ _ _].
    split; [|split; [done|]].
    + exists (g1 + r * gz - k)%nat, old', cur', d, total, (j + Z.of_nat (f * n + r * n)).
      split; [done|]. split; [intros ->; cbn in Hcl; lia|]. rewrite Hizg. by do 4 (split; [done|]).
    + rewrite (balanced_room_of s' n _ old' cur' Hb' Hcl). unfold after_write.
      assert ((len =? 0)%nat || (g =? 0)%nat = bool_decide (cur = [] \/ g = O)) as ->.
      { apply eq_true_iff_eq. rewrite orb_true_iff, !Nat.eqb_eq, bool_decide_eq_true, Hempty. done. }
      assert (length (zone_vector (u_part s')) = (len + length l)%nat) as ->.
      { apply (f_equal length) in Hnum. unfold zone_numbers in Hnum. by rewrite length_app, !length_fmap in Hnum. }
      rewrite Hll, Hf. unfold r, g1.
      case_decide; [rewrite bool_decide_true by done|rewrite bool_decide_false by done]; cbn; f_equal; lia.
Qed.
End Capacity.
