(* ===== verification/IoRequest.v ===== *)
(** env/IO_request.h, env/IO_request.cpp: the request queue and its worker,
    and the state of the whole store the requests act on.

    Partitions, user data and requests live in heaps; [None] marks an object
    that was deleted, whose use is undefined. The worker of an open partition
    serves its queue in order; one of its iterations is [worker_iter], the loop
    after the partition was closed is [worker_drain]. *)
From S2P Require Import Prelude Nvme Controller Zone Izg Partition Userdata.
From stdpp Require Import base numbers list gmap strings.
From Stdlib Require Import ZArith Lia.
Local Open Scope Z_scope.

Definition WRITE : Z := 0.
Definition READ : Z := 1.
Definition DELETE : Z := 2.

Record IO_request := MkRequest {
  rw : Z; read_complete : bool; rq_buf : ptr; rq_size : Z; rq_offset : Z; rq_data : nat }.

Section Worker.
Context `{D : NvmeDevice}.
Context (vec_realloc : nat -> bool).

(** The contents of fresh objects that constructors leave uninitialised. *)
Context (junk_buf : ptr) (junk_word : Z) (junk_flag : bool).

(** The three constructors of [IO_request]. *)
Definition request_delete (ud : nat) : IO_request :=
  MkRequest DELETE false junk_buf junk_word junk_word ud.
Definition request_rw (mode : Z) (buf : ptr) (size : Z) (ud : nat) : IO_request :=
  MkRequest mode junk_flag buf size junk_word ud.
Definition request_at (mode : Z) (buf : ptr) (size offset : Z) (ud : nat) : IO_request :=
  MkRequest mode junk_flag buf size offset ud.

Definition complete (r : IO_request) : IO_request :=
  MkRequest (rw r) true (rq_buf r) (rq_size r) (rq_offset r) (rq_data r).

(** The state of the store. A user data object knows its partition. *)
Record world := World {
  w_z : zst; w_izg : izg_st; w_parts : list Partition;
  w_uds : list (option (nat * Userdata)); w_reqs : list (option IO_request);
  next_partition_id : Z; user_to_partition_map : gmap Z (list nat);
  open_partition_list : gmap Z (list nat); partition_lock : bool }.

Definition set_reqs (l : list (option IO_request)) (w : world) : world :=
  World (w_z w) (w_izg w) (w_parts w) (w_uds w) l (next_partition_id w)
    (user_to_partition_map w) (open_partition_list w) (partition_lock w).
Definition set_uds (l : list (option (nat * Userdata))) (w : world) : world :=
  World (w_z w) (w_izg w) (w_parts w) l (w_reqs w) (next_partition_id w)
    (user_to_partition_map w) (open_partition_list w) (partition_lock w).
Definition set_parts (l : list Partition) (w : world) : world :=
  World (w_z w) (w_izg w) l (w_uds w) (w_reqs w) (next_partition_id w)
    (user_to_partition_map w) (open_partition_list w) (partition_lock w).

(** Run a member function of partition [a]. *)
Definition on_partition {A} (a : nat) (m : prog Partition A) : prog world A := fun w =>
  match w_parts w !! a with
  | None => UB
  | Some p =>
    match m p with
    | Ret x p' => Ret x (set_parts (<[a := p']> (w_parts w)) w)
    | Exit p' => Exit (set_parts (<[a := p']> (w_parts w)) w)
    | UB => UB
    | Hang => Hang
    end
  end.

(** The store after a member function of user data [d] of partition [a]. *)
Definition put_uds (d a : nat) (s : uds) (w : world) : world :=
  World (u_z (d_us s)) (u_izg (d_us s)) (<[a := u_part (d_us s)]> (w_parts w))
    (<[d := Some (a, d_ud s)]> (w_uds w)) (w_reqs w) (next_partition_id w)
    (user_to_partition_map w) (open_partition_list w) (partition_lock w).

Definition on_userdata {A} (d : nat) (m : prog uds A) : prog world A := fun w =>
  match w_uds w !! d with
  | Some (Some (a, u)) =>
    match w_parts w !! a with
    | None => UB
    | Some p =>
      match m (Uds (Ust (w_z w) (w_izg w) p) u) with
      | Ret x s => Ret x (put_uds d a s w)
      | Exit s => Exit (put_uds d a s w)
      | UB => UB
      | Hang => Hang
      end
    end
  | _ => UB
  end.

Definition request_of (r : nat) : prog world IO_request := fun w =>
  match w_reqs w !! r with Some (Some q) => Ret q w | _ => UB end.
Definition delete_request (r : nat) : prog world unit := fun w =>
  match w_reqs w !! r with
  | Some (Some _) => Ret tt (set_reqs (<[r := None]> (w_reqs w)) w)
  | _ => UB
  end.
Definition delete_userdata (d : nat) : prog world unit := fun w =>
  match w_uds w !! d with
  | Some (Some _) => Ret tt (set_uds (<[d := None]> (w_uds w)) w)
  | _ => UB
  end.
Definition complete_request (r : nat) : prog world unit := fun w =>
  match w_reqs w !! r with
  | Some (Some q) => Ret tt (set_reqs (<[r := Some (complete q)]> (w_reqs w)) w)
  | _ => UB
  end.

(** Serve one request; [sched] schedules the transfers it runs. [strict] is
    the loop of a closed partition, where an unknown request ends the program. *)
Definition serve (sched : nat -> nat -> list nat) (strict : bool) (r : nat) : prog world unit :=
  q ← request_of r;
  if rw q =? WRITE then
    on_userdata (rq_data q) (Append vec_realloc (sched O) (rq_buf q) (rq_size q));;
    delete_request r
  else if rw q =? READ then
    on_userdata (rq_data q) (Read sched (rq_buf q) (rq_size q));;
    complete_request r
  else if rw q =? DELETE then
    on_userdata (rq_data q) Userdata_Delete;;
    delete_userdata (rq_data q);;
    delete_request r
  else if strict then exit0 else mret tt.

(** [io_queue->front(); io_queue->pop();] if the queue is not empty. *)
Definition pop_request : prog Partition (option nat) :=
  q ← gets io_queue;
  q ← the q;
  match q with
  | [] => mret None
  | r :: q' => modify (set_queue (Some q'));; mret (Some r)
  end.

(** One iteration of the loop of [worker_job]: whether it was the last. *)
Definition worker_iter (sched : nat -> nat -> list nat) (a : nat) : prog world bool :=
  o ← on_partition a pop_request;
  (match o with Some r => serve sched false r | None => mret tt end);;
  st ← on_partition a get_status;
  mret (st =? CLOSE).

(** The loop after it: serve what is left. The queue bounds the iterations,
    since nobody adds requests while [close] waits for the worker. *)
Fixpoint worker_drain (fuel : nat) (scheds : nat -> nat -> nat -> list nat) (a : nat) : prog world unit :=
  o ← on_partition a pop_request;
  match o with
  | None => mret tt
  | Some r =>
    match fuel with
    | O => hang
    | S fuel' => serve (scheds fuel) true r;; worker_drain fuel' scheds a
    end
  end.

(** [worker_job] from the moment the status is CLOSE until it returns. *)
Definition worker_finish (scheds : nat -> nat -> nat -> list nat) (a : nat) : prog world unit :=
  q ← on_partition a (gets io_queue);
  q ← the q;
  worker_iter (scheds O) a;;
  worker_drain (length q) scheds a.

(** [Partition::close]. *)
Definition Partition_close (scheds : nat -> nat -> nat -> list nat) (a : nat) : prog world unit :=
  st ← on_partition a get_status;
  if st =? CLOSE then exit0 else
  on_partition a (modify (set_status (Some CLOSE)));;
  worker_finish scheds a;;
  on_partition a (modify (fun p => set_worker false (set_queue None (set_status None p)))).
End Worker.
