(* ===== verification/Zoad.v ===== *)
(** env/zoad.h, env/zoad.cpp: the interface of the store.

    Partitions belong to users; names in a partition are streams. [z_flush]
    and [z_del] queue a request for the partition's worker; [z_load] also waits
    for it. All operations return -1 when the user, the partition or the name
    is unknown. *)
From S2P Require Import Prelude Nvme Controller Init Zone Izg Partition Userdata IoRequest.
From stdpp Require Import base numbers list gmap strings.
From Stdlib Require Import ZArith Lia.
Local Open Scope Z_scope.

Section Zoad.
Context `{D : NvmeDevice}.
Context (vec_realloc : nat -> bool) (junk_buf : ptr) (junk_word : Z) (junk_flag : bool).

Definition lock_global : prog world unit := fun w =>
  if partition_lock w then Hang
  else Ret tt (World (w_z w) (w_izg w) (w_parts w) (w_uds w) (w_reqs w) (next_partition_id w)
         (user_to_partition_map w) (open_partition_list w) true).
Definition unlock_global : prog world unit := fun w =>
  if partition_lock w
  then Ret tt (World (w_z w) (w_izg w) (w_parts w) (w_uds w) (w_reqs w) (next_partition_id w)
         (user_to_partition_map w) (open_partition_list w) false)
  else UB.

(** [new class Userdata(partition)] and [new class IO_request(...)]. *)
Definition alloc_userdata (a : nat) : prog world nat := fun w =>
  Ret (length (w_uds w)) (set_uds (w_uds w ++ [Some (a, new_Userdata junk_word)]) w).
Definition alloc_request (q : IO_request) : prog world nat := fun w =>
  Ret (length (w_reqs w)) (set_reqs (w_reqs w ++ [Some q]) w).

Definition _z_flush (a : nat) (data_name : string) (buf : ptr) (size flag : Z) : prog world Z :=
  on_partition a lock_partition;;
  st ← on_partition a get_status;
  let ret := if negb (st =? OPEN) then -1 else 0 in
  ex ← on_partition a (gets (userdata_exist data_name));
  userdata ← (if (ex : bool) then on_partition a (get_userdata data_name)
              else d ← alloc_userdata a; on_partition a (new_userdata data_name d);; mret d);
  request ← alloc_request (request_rw junk_word junk_flag WRITE buf size userdata);
  on_partition a (new_request request);;
  on_partition a unlock_partition;;
  mret ret.

(** [for (auto iter : *partition_list)] with the first match of [f]. *)
Fixpoint find_partition (f : Partition -> bool) (l : list nat) : prog world (option nat) :=
  match l with
  | [] => mret None
  | a :: l' =>
    p ← on_partition a (gets id);
    if f p then mret (Some a) else find_partition f l'
  end.

Definition has_id (lp_id : Z) (p : Partition) : bool := get_id p =? lp_id.
Definition has_name (lp_name : string) (p : Partition) : bool :=
  bool_decide (get_name p = lp_name).

(** The common shape of [z_flush], [z_load], [z_sync] and [z_del]. The flag
    [locked] is still set when the user is unknown, so the global mutex is
    unlocked a second time. *)
Definition with_partition (uid lp_id : Z) (body : nat -> prog world Z) : prog world Z :=
  lock_global;;
  m ← gets user_to_partition_map;
  '(ret, locked) ←
    match m !! uid with
    | None => unlock_global;; mret (-1, true)
    | Some l =>
      o ← find_partition (has_id lp_id) l;
      match o with
      | Some a => unlock_global;; r ← body a; mret (r, false)
      | None => mret (-1, true)
      end
    end;
  when locked unlock_global;;
  mret ret.

Definition z_flush (uid lp_id : Z) (data_name : string) (buf : ptr) (size flag : Z) : prog world Z :=
  with_partition uid lp_id (fun a => _z_flush a data_name buf size flag).

(** The client waits while the worker serves the queue up to its request; the
    requests before it bound the iterations. *)
Fixpoint await (fuel : nat) (scheds : nat -> nat -> nat -> list nat) (a request : nat) : prog world unit :=
  q ← request_of request;
  if read_complete q then mret tt else
  match fuel with
  | O => hang
  | S fuel' => worker_iter vec_realloc (scheds fuel) a;; await fuel' scheds a request
  end.

Definition _z_load (scheds : nat -> nat -> nat -> list nat) (a : nat) (data_name : string)
    (buf : ptr) (size : Z) : prog world Z :=
  on_partition a lock_partition;;
  st ← on_partition a get_status;
  let ret := if negb (st =? OPEN) then -1 else 0 in
  ex ← on_partition a (gets (userdata_exist data_name));
  ret ← (if (ex : bool) then
           userdata ← on_partition a (get_userdata data_name);
           request ← alloc_request (request_rw junk_word junk_flag READ buf size userdata);
           on_partition a (new_request request);;
           q ← on_partition a (gets io_queue);
           q ← the q;
           await (length q) scheds a request;;
           delete_request request;;
           mret ret
         else mret (-1));
  on_partition a unlock_partition;;
  mret ret.

Definition z_load (scheds : nat -> nat -> nat -> list nat) (uid lp_id : Z) (data_name : string)
    (buf : ptr) (size : Z) : prog world Z :=
  with_partition uid lp_id (fun a => _z_load scheds a data_name buf size).

(** [Sync] spins on the stream's own lock while the worker appends; run
    between two steps of the worker it finds the stream idle. *)
Definition _z_sync (a : nat) (data_name : string) : prog world Z :=
  on_partition a lock_partition;;
  st ← on_partition a get_status;
  let ret := if negb (st =? OPEN) then -1 else 0 in
  ex ← on_partition a (gets (userdata_exist data_name));
  on_partition a unlock_partition;;
  if (ex : bool) then
    userdata ← on_partition a (get_userdata data_name);
    on_userdata userdata Sync;;
    mret ret
  else mret (-1).

Definition z_sync (uid lp_id : Z) (data_name : string) : prog world Z :=
  with_partition uid lp_id (fun a => _z_sync a data_name).

Definition _z_del (a : nat) (data_name : string) : prog world Z :=
  on_partition a lock_partition;;
  st ← on_partition a get_status;
  let ret := if negb (st =? OPEN) then -1 else 0 in
  ex ← on_partition a (gets (userdata_exist data_name));
  ret ← (if (ex : bool) then
           userdata ← on_partition a (get_userdata data_name);
           on_partition a (invalid_userdata data_name);;
           request ← alloc_request (request_delete junk_buf junk_word userdata);
           on_partition a (new_request request);;
           mret ret
         else mret (-1));
  on_partition a unlock_partition;;
  mret ret.

Definition z_del (uid lp_id : Z) (data_name : string) : prog world Z :=
  with_partition uid lp_id (fun a => _z_del a data_name).

(** ** Partitions *)

Definition set_open (m : gmap Z (list nat)) (w : world) : world :=
  World (w_z w) (w_izg w) (w_parts w) (w_uds w) (w_reqs w) (next_partition_id w)
    (user_to_partition_map w) m (partition_lock w).
Definition set_users (m : gmap Z (list nat)) (w : world) : world :=
  World (w_z w) (w_izg w) (w_parts w) (w_uds w) (w_reqs w) (next_partition_id w)
    m (open_partition_list w) (partition_lock w).
Definition set_next_partition (n : Z) (w : world) : world :=
  World (w_z w) (w_izg w) (w_parts w) (w_uds w) (w_reqs w) n
    (user_to_partition_map w) (open_partition_list w) (partition_lock w).

(** [open_partition_list[flag]->...]: a missing entry is a null pointer. *)
Definition open_list (flag : Z) : prog world (list nat) :=
  m ← gets open_partition_list; the (m !! flag).

(** Erase the first partition with this id. *)
Fixpoint erase_id (lp_id : Z) (l : list nat) : prog world (list nat) :=
  match l with
  | [] => mret []
  | a :: l' =>
    p ← on_partition a (gets id);
    if has_id lp_id p then mret l' else r ← erase_id lp_id l'; mret (a :: r)
  end.

Definition z_closelp (scheds : nat -> nat -> nat -> list nat) (uid lp_id : Z) : prog world Z :=
  lock_global;;
  m ← gets user_to_partition_map;
  ret ←
    match m !! uid with
    | None => mret (-1)
    | Some l =>
      o ← find_partition (has_id lp_id) l;
      match o with
      | None => mret (-1)
      | Some a =>
        p ← on_partition a (gets id);
        ol ← open_list (get_mkflag p);
        ol' ← erase_id lp_id ol;
        modify (fun w => set_open (<[get_mkflag p := ol']> (open_partition_list w)) w);;
        on_partition a lock_partition;;
        Partition_close vec_realloc scheds a;;
        on_partition a unlock_partition;;
        mret (i32 (get_id p))
      end
    end;
  unlock_global;;
  mret ret.

Definition z_openlp (uid : Z) (lp_name : string) (flags : Z) : prog world Z :=
  lock_global;;
  m ← gets user_to_partition_map;
  ret ←
    match m !! uid with
    | None => mret (-1)
    | Some l =>
      o ← find_partition (has_name lp_name) l;
      match o with
      | None => mret (-1)
      | Some a =>
        on_partition a (Partition_open flags);;
        p ← on_partition a (gets id);
        ol ← open_list (get_mkflag p);
        modify (fun w => set_open (<[get_mkflag p := ol ++ [a]]> (open_partition_list w)) w);;
        mret (i32 (get_id p))
      end
    end;
  unlock_global;;
  mret ret.

Definition world_izg : lens world izg_st :=
  Lens w_izg (fun i w => World (w_z w) i (w_parts w) (w_uds w) (w_reqs w) (next_partition_id w)
    (user_to_partition_map w) (open_partition_list w) (partition_lock w)).

(** [new Partition(...)]: its address. *)
Definition alloc_partition (name : string) (izg_num flag : Z) : prog world nat := fun w =>
  Ret (length (w_parts w))
    (set_next_partition (u32 (next_partition_id w + 1))
      (set_parts (w_parts w ++ [new_Partition junk_word (next_partition_id w) name izg_num flag]) w)).

Definition _mklp (lp_name : string) (flags iolevel : Z) : prog world (option nat) :=
  izg_cnt ← zoom world_izg (alloc_izg flags iolevel);
  if izg_cnt <? 0 then mret None
  else a ← alloc_partition lp_name izg_cnt flags; mret (Some a).

(** Whether some partition of the list has this name. *)
Fixpoint name_taken (lp_name : string) (l : list nat) : prog world bool :=
  match l with
  | [] => mret false
  | a :: l' =>
    p ← on_partition a (gets id);
    r ← name_taken lp_name l';
    mret (has_name lp_name p || r)
  end.

Definition z_mklp (uid : Z) (dev_name lp_name : string) (flags iolevel : Z) : prog world Z :=
  lock_global;;
  m ← gets user_to_partition_map;
  ret ←
    match m !! uid with
    | None =>
      o ← _mklp lp_name flags iolevel;
      match o with
      | None => mret (-1)
      | Some a =>
        modify (fun w => set_users (<[uid := [a]]> (user_to_partition_map w)) w);;
        p ← on_partition a (gets id);
        mret (i32 (get_id p))
      end
    | Some l =>
      taken ← name_taken lp_name l;
      if (taken : bool) then mret (-1) else
      o ← _mklp lp_name flags iolevel;
      match o with
      | None => mret (-1)
      | Some a =>
        modify (fun w => set_users (<[uid := l ++ [a]]> (user_to_partition_map w)) w);;
        p ← on_partition a (gets id);
        mret (i32 (get_id p))
      end
    end;
  unlock_global;;
  mret ret.

(** Removal is not implemented: the body is commented out. *)
Definition _rmlp (lp_id : Z) : prog world (option nat) := mret None.
Definition z_rmlp (uid : Z) (dev_name : string) (lp_id : Z) : prog world Z :=
  lock_global;; unlock_global;; mret (u32 (-1)).

(** ** Start-up *)

Definition world_hw : lens world hw :=
  Lens (fun w => Hw (z_ctl (w_z w)) (w_izg w))
    (fun h w => World (Zst (h_ctl h) (z_ivs (w_z w))) (h_izg h) (w_parts w) (w_uds w) (w_reqs w)
       (next_partition_id w) (user_to_partition_map w) (open_partition_list w) (partition_lock w)).

(** [std::map::insert] of a new list. *)
Definition insert_open (flag : Z) (w : world) : world :=
  match open_partition_list w !! flag with
  | Some _ => w
  | None => set_open (<[flag := []]> (open_partition_list w)) w
  end.

Definition zoad_init (junk : nat -> list Byte.byte) (junk_desc : zone_descriptor) (shr32 : Z -> Z)
    (fuel : nat) (zfd : Z) : prog world unit :=
  zoom world_hw (zoom hw_ctl (Identify_HW junk junk_desc shr32 fuel zfd));;
  zoom world_hw (Identify_IZG junk shr32 fuel);;
  modify (set_next_partition 1);;
  modify (insert_open MAX_PARTITION);;
  modify (insert_open QOS_PARTITION).
End Zoad.
