(* ===== verification/ZoadSpec.v ===== *)
(** The interface of the store: what queueing, serving and waiting do to a
    partition, from one call to the end-to-end flush and load. *)
From S2P Require Import Prelude Nvme Controller Zone Stripe Transfer Rounds Roundtrip Izg.
From S2P Require Import Partition Userdata UserdataSpec AppendSpec StreamSpec CapacitySpec.
From S2P Require Import CapacitySpec IoRequest Zoad.
From stdpp Require Import base numbers list gmap strings.
From Stdlib Require Import ZArith Lia.
Local Open Scope Z_scope.

(** ** Running a member function of a partition *)

Section OnPartition.
Context `{D : NvmeDevice}.

Definition put_part (a : nat) (p : Partition) (w : world) : world :=
  set_parts (<[a := p]> (w_parts w)) w.

Lemma put_part_id a p w : w_parts w !! a = Some p -> put_part a p w = w.
Proof. intros H. unfold put_part. rewrite list_insert_id by done. by destruct w. Qed.

Lemma put_part_twice a p p' w : put_part a p' (put_part a p w) = put_part a p' w.
Proof. unfold put_part, set_parts. cbn. by rewrite list_insert_insert_eq. Qed.

Lemma put_part_lookup a p p' w :
  w_parts w !! a = Some p -> w_parts (put_part a p' w) !! a = Some p'.
Proof. intros H. cbn. apply list_lookup_insert_eq. by eapply lookup_lt_Some. Qed.

Lemma on_partition_Ret {A} a (m : prog Partition A) p x p' w :
  w_parts w !! a = Some p -> m p = Ret x p' -> on_partition a m w = Ret x (put_part a p' w).
Proof. intros Hp Hm. unfold on_partition. by rewrite Hp, Hm. Qed.

Lemma on_partition_gets {A} a (f : Partition -> A) p w :
  w_parts w !! a = Some p -> on_partition a (gets f) w = Ret (f p) w.
Proof. intros Hp. erewrite on_partition_Ret by done. by rewrite put_part_id. Qed.

Lemma on_partition_status a p st w :
  w_parts w !! a = Some p -> p_status p = Some st -> on_partition a get_status w = Ret st w.
Proof.
  intros Hp Hst. erewrite on_partition_Ret; [by rewrite (put_part_id a p)|done|].
  unfold get_status. rewrite bind_gets, Hst. done.
Qed.

Lemma on_partition_userdata a p name d w :
  w_parts w !! a = Some p -> userdata_map p !! name = Some d ->
  on_partition a (get_userdata name) w = Ret d w.
Proof.
  intros Hp Hd. erewrite on_partition_Ret; [by rewrite (put_part_id a p)|done|].
  unfold get_userdata. rewrite bind_gets, Hd. done.
Qed.

Lemma on_partition_lock a p w :
  w_parts w !! a = Some p -> partition_locked p = false ->
  on_partition a lock_partition w = Ret tt (put_part a (set_plock true p) w).
Proof.
  intros Hp Hl. eapply on_partition_Ret; [done|]. unfold lock_partition.
  by rewrite bind_gets, Hl.
Qed.

Lemma on_partition_unlock a p w :
  w_parts w !! a = Some p -> partition_locked p = true ->
  on_partition a unlock_partition w = Ret tt (put_part a (set_plock false p) w).
Proof.
  intros Hp Hl. eapply on_partition_Ret; [done|]. unfold unlock_partition.
  by rewrite bind_gets, Hl.
Qed.

Lemma on_partition_request a p q r w :
  w_parts w !! a = Some p -> io_queue p = Some q ->
  on_partition a (new_request r) w = Ret 0 (put_part a (set_queue (Some (q ++ [r])) p) w).
Proof.
  intros Hp Hq. eapply on_partition_Ret; [done|]. unfold new_request.
  rewrite bind_gets, Hq. done.
Qed.

Lemma set_plock_back p b : partition_locked p = b -> set_plock b (set_plock true p) = p.
Proof. intros <-. by destruct p. Qed.

(** ** Finding a partition *)

(** The first partition of a list that satisfies [f]. *)
Definition first_with (w : world) (f : Partition -> bool) (l : list nat) : option nat :=
  List.find (fun a => match w_parts w !! a with Some p => f p | None => false end) l.

Definition all_live (w : world) (l : list nat) : Prop := Forall (fun a => is_Some (w_parts w !! a)) l.

Lemma find_partition_ok f l w :
  all_live w l -> find_partition f l w = Ret (first_with w f l) w.
Proof.
  induction 1 as [|a l [p Hp] Hl IH]; [done|]. cbn [find_partition].
  erewrite bind_Ret by (by apply on_partition_gets). unfold id, first_with. cbn [List.find].
  rewrite Hp. destruct (f p); [done|]. exact IH.
Qed.

Definition holding (w : world) : world :=
  World (w_z w) (w_izg w) (w_parts w) (w_uds w) (w_reqs w) (next_partition_id w)
    (user_to_partition_map w) (open_partition_list w) true.

Lemma lock_global_ok w : partition_lock w = false -> lock_global w = Ret tt (holding w).
Proof. intros H. unfold lock_global. by rewrite H. Qed.

Lemma unlock_holding w : partition_lock w = false -> unlock_global (holding w) = Ret tt w.
Proof. intros H. unfold unlock_global, holding. cbn. destruct w. cbn in *. by rewrite H. Qed.

(** The partition is found: its handler runs without the global lock. *)
Lemma with_partition_found uid lp_id body w l a :
  partition_lock w = false -> user_to_partition_map w !! uid = Some l -> all_live w l ->
  first_with w (has_id lp_id) l = Some a ->
  with_partition uid lp_id body w = body a w.
Proof.
  intros Hk Hu Hl Hf. unfold with_partition.
  erewrite bind_Ret by (by apply lock_global_ok). rewrite bind_gets.
  change (user_to_partition_map (holding w)) with (user_to_partition_map w). rewrite Hu.
  unfold mbind at 1, prog_bind at 1. unfold mbind at 1, prog_bind at 1.
  rewrite find_partition_ok by done.
  change (first_with (holding w)) with (first_with w). rewrite Hf.
  unfold mbind, prog_bind. rewrite unlock_holding by done. by destruct (body a w).
Qed.

(** No partition of the user has this id: -1, and nothing changes. *)
Lemma with_partition_missing uid lp_id body w l :
  partition_lock w = false -> user_to_partition_map w !! uid = Some l -> all_live w l ->
  first_with w (has_id lp_id) l = None ->
  with_partition uid lp_id body w = Ret (-1) w.
Proof.
  intros Hk Hu Hl Hf. unfold with_partition.
  erewrite bind_Ret by (by apply lock_global_ok). rewrite bind_gets.
  change (user_to_partition_map (holding w)) with (user_to_partition_map w). rewrite Hu.
  unfold mbind at 1, prog_bind at 1. unfold mbind at 1, prog_bind at 1.
  rewrite find_partition_ok by done.
  change (first_with (holding w)) with (first_with w). rewrite Hf.
  unfold mret, prog_ret, when. erewrite bind_Ret by (by apply unlock_holding). done.
Qed.

(** The user is unknown: the global mutex is unlocked twice. *)
Lemma with_partition_unknown_user uid lp_id body w :
  partition_lock w = false -> user_to_partition_map w !! uid = None ->
  with_partition uid lp_id body w = UB.
Proof.
  intros Hk Hu. unfold with_partition.
  erewrite bind_Ret by (by apply lock_global_ok). rewrite bind_gets.
  change (user_to_partition_map (holding w)) with (user_to_partition_map w). rewrite Hu.
  unfold mbind at 1, prog_bind at 1.
  erewrite bind_Ret by (by apply unlock_holding). unfold mret, prog_ret, when, mbind, prog_bind.
  unfold unlock_global. by rewrite Hk.
Qed.
End OnPartition.

(** ** Queueing a request *)

(** The start of every call on a partition: lock it, read its status and look
    the name up. *)
Ltac enter_partition Hlocked :=
  match goal with
  | Hp : w_parts ?w !! ?a = Some ?p |- _ =>
    erewrite bind_Ret by (by apply on_partition_lock);
    assert (w_parts (put_part a (set_plock true p) w) !! a = Some (set_plock true p)) as Hlocked
      by (by apply (put_part_lookup a p));
    erewrite bind_Ret by (by eapply on_partition_status);
    erewrite bind_Ret by (by apply on_partition_gets);
    unfold userdata_exist at 1; change (userdata_map (set_plock true p)) with (userdata_map p)
  end.

Section Queueing.
Context `{D : NvmeDevice}.
Context (vec_realloc : nat -> bool) (junk_buf : ptr) (junk_word : Z) (junk_flag : bool).

(** A partition that accepts calls. *)
Record accepts (w : world) (a : nat) (p : Partition) (st : Z) (q : list nat) : Prop := {
  ac_part : w_parts w !! a = Some p;
  ac_status : p_status p = Some st;
  ac_queue : io_queue p = Some q;
  ac_unlocked : partition_locked p = false }.

Definition result_of (st : Z) : Z := if negb (st =? OPEN) then -1 else 0.

(** The request [r] behind the queue [q] of partition [a]. *)
Definition enqueue (a : nat) (p : Partition) (q : list nat) (r : IO_request) (w : world) : world :=
  put_part a (set_queue (Some (q ++ [length (w_reqs w)])) p) (set_reqs (w_reqs w ++ [Some r]) w).

(** A stream for a name that has none. *)
Definition add_stream (a : nat) (name : string) (p : Partition) (w : world) : world :=
  put_part a (set_userdata_map (<[name := length (w_uds w)]> (userdata_map p)) p)
    (set_uds (w_uds w ++ [Some (a, new_Userdata junk_word)]) w).

Lemma alloc_request_ok q w :
  alloc_request q w = Ret (length (w_reqs w)) (set_reqs (w_reqs w ++ [Some q]) w).
Proof. done. Qed.

(** Queueing and unlocking, the end of [_z_flush] and [_z_del]. *)
Lemma queue_and_unlock a p st q r w :
  accepts w a p st q ->
  let locked := put_part a (set_plock true p) w in
  (request ← alloc_request r; on_partition a (new_request request);; on_partition a unlock_partition) locked
  = Ret tt (enqueue a p q r w).
Proof.
  intros [Hp Hst Hq Hl] locked. erewrite bind_Ret by apply alloc_request_ok.
  erewrite bind_Ret; cycle 1.
  { eapply (on_partition_request a (set_plock true p)); [|done].
    apply (put_part_lookup a p). exact Hp. }
  erewrite on_partition_unlock; cycle 1.
  { apply (put_part_lookup a (set_plock true p)), (put_part_lookup a p). exact Hp. }
  { done. }
  f_equal. rewrite put_part_twice. unfold enqueue, locked. cbn [w_reqs set_reqs put_part set_parts].
  unfold put_part, set_parts, set_reqs. cbn. rewrite list_insert_insert_eq. do 3 f_equal.
  unfold set_plock, set_queue. cbn. rewrite Hl. done.
Qed.

(** [z_flush] of a name that has a stream queues a write request. *)
Lemma flush_queues a p st q name d buf size flag w :
  accepts w a p st q -> userdata_map p !! name = Some d ->
  _z_flush junk_word junk_flag a name buf size flag w
  = Ret (result_of st) (enqueue a p q (request_rw junk_word junk_flag WRITE buf size d) w).
Proof.
  intros Hac Hd. pose proof Hac as [Hp Hst Hq Hl]. unfold _z_flush.
  enter_partition Hp1. rewrite Hd.
  erewrite bind_Ret by (by eapply on_partition_userdata).
  pose proof (queue_and_unlock a p st q (request_rw junk_word junk_flag WRITE buf size d) w Hac) as Hqu.
  apply bind_Ret_inv in Hqu as (r & w1 & Hr & Hqu). erewrite bind_Ret by exact Hr.
  apply bind_Ret_inv in Hqu as (x & w2 & Hx & Hqu). erewrite bind_Ret by exact Hx.
  erewrite bind_Ret by exact Hqu. done.
Qed.

(** [z_flush] of a new name first makes its stream. *)
Lemma flush_creates a p st q name buf size flag w :
  accepts w a p st q -> userdata_map p !! name = None ->
  _z_flush junk_word junk_flag a name buf size flag w
  = Ret (result_of st) (enqueue a (set_userdata_map (<[name := length (w_uds w)]> (userdata_map p)) p) q
      (request_rw junk_word junk_flag WRITE buf size (length (w_uds w))) (add_stream a name p w)).
Proof.
  intros Hac Hd. pose proof Hac as [Hp Hst Hq Hl]. unfold _z_flush.
  enter_partition Hp1. rewrite Hd.
  set (p' := set_userdata_map (<[name := length (w_uds w)]> (userdata_map p)) p).
  assert ((d ← alloc_userdata junk_word a; on_partition a (new_userdata name d);; mret d)
    (put_part a (set_plock true p) w)
    = Ret (length (w_uds w)) (put_part a (set_plock true p') (add_stream a name p w))) as Hnew.
  { unfold alloc_userdata, mbind at 1, prog_bind at 1. cbn [w_uds put_part set_parts].
    erewrite bind_Ret; cycle 1.
    { eapply on_partition_Ret; [exact Hp1|]. unfold new_userdata, userdata_exist, modify.
      unfold mbind, prog_bind. change (userdata_map (set_plock true p)) with (userdata_map p).
      rewrite Hd. done. }
    unfold mret, prog_ret. f_equal. unfold add_stream. rewrite put_part_twice.
    unfold put_part, set_parts, set_uds. cbn. by rewrite list_insert_insert_eq. }
  erewrite bind_Ret by exact Hnew.
  assert (accepts (add_stream a name p w) a p' st q) as Hac'.
  { split; try done. by apply (put_part_lookup a p). }
  pose proof (queue_and_unlock a p' st q
    (request_rw junk_word junk_flag WRITE buf size (length (w_uds w))) _ Hac') as Hqu.
  apply bind_Ret_inv in Hqu as (r & w1 & Hr & Hqu). erewrite bind_Ret by exact Hr.
  apply bind_Ret_inv in Hqu as (x & w2 & Hx & Hqu). erewrite bind_Ret by exact Hx.
  erewrite bind_Ret by exact Hqu. done.
Qed.

(** [z_del] unbinds the name at once and queues the removal of its data. *)
Lemma del_queues a p st q name d w :
  accepts w a p st q -> userdata_map p !! name = Some d ->
  _z_del junk_buf junk_word a name w
  = Ret (result_of st) (enqueue a (set_userdata_map (delete name (userdata_map p)) p) q
      (request_delete junk_buf junk_word d) w).
Proof.
  intros Hac Hd. pose proof Hac as [Hp Hst Hq Hl]. unfold _z_del.
  enter_partition Hp1. rewrite Hd.
  set (p' := set_userdata_map (delete name (userdata_map p)) p).
  unfold mbind at 1, prog_bind at 1. erewrite bind_Ret by (by eapply on_partition_userdata).
  erewrite bind_Ret; cycle 1.
  { eapply on_partition_Ret; [exact Hp1|]. done. }
  rewrite put_part_twice.
  change (set_userdata_map (delete name (userdata_map (set_plock true p))) (set_plock true p))
    with (set_plock true p').
  assert (accepts (put_part a p' w) a p' st q) as Hac'.
  { split; try done. by apply (put_part_lookup a p). }
  pose proof (queue_and_unlock a p' st q (request_delete junk_buf junk_word d) _ Hac') as Hqu.
  cbn zeta in Hqu. rewrite put_part_twice in Hqu.
  apply bind_Ret_inv in Hqu as (r & w1 & Hr & Hqu). erewrite bind_Ret by exact Hr.
  apply bind_Ret_inv in Hqu as (x & w2 & Hx & Hqu). erewrite bind_Ret by exact Hx.
  unfold mret at 1, prog_ret at 1. cbn beta iota. erewrite bind_Ret by exact Hqu.
  unfold mret, prog_ret. f_equal. unfold enqueue, put_part, set_parts, set_reqs. cbn.
  by rewrite list_insert_insert_eq.
Qed.

(** A name without stream: -1, and only the partition's mutex was used. *)
Lemma del_missing a p st q name w :
  accepts w a p st q -> userdata_map p !! name = None ->
  _z_del junk_buf junk_word a name w = Ret (-1) w.
Proof.
  intros [Hp Hst Hq Hl] Hd. unfold _z_del.
  enter_partition Hp1. rewrite Hd.
  erewrite (bind_Ret (mret (-1))) by done.
  erewrite bind_Ret by (by eapply on_partition_unlock).
  rewrite put_part_twice. unfold mret, prog_ret. f_equal.
  assert (set_plock false (set_plock true p) = p) as -> by (by apply set_plock_back).
  by apply put_part_id.
Qed.
Lemma load_missing scheds a p st q name dst size w :
  accepts w a p st q -> userdata_map p !! name = None ->
  _z_load vec_realloc junk_word junk_flag scheds a name dst size w = Ret (-1) w.
Proof.
  intros [Hp Hst Hq Hl] Hd. unfold _z_load. enter_partition Hp1. rewrite Hd.
  erewrite (bind_Ret (mret (-1))) by done.
  erewrite bind_Ret by (by eapply on_partition_unlock).
  rewrite put_part_twice, set_plock_back by done. unfold mret, prog_ret. by rewrite put_part_id.
Qed.

Lemma sync_missing a p st q name w :
  accepts w a p st q -> userdata_map p !! name = None -> _z_sync a name w = Ret (-1) w.
Proof.
  intros [Hp Hst Hq Hl] Hd. unfold _z_sync. enter_partition Hp1. rewrite Hd.
  erewrite bind_Ret by (by eapply on_partition_unlock).
  rewrite put_part_twice, set_plock_back by done. unfold mret, prog_ret. by rewrite put_part_id.
Qed.

(** A read request whose uninitialised flag says that it is complete. *)
Lemma load_uninitialised scheds sched a p name d dst size w :
  accepts w a p OPEN [] -> userdata_map p !! name = Some d ->
  exists w', _z_load vec_realloc junk_word true scheds a name dst size w = Ret 0 w' /\
    w_z w' = w_z w /\ worker_iter vec_realloc sched a w' = UB.
Proof.
  intros [Hp Hst Hq Hl] Hd. unfold _z_load. enter_partition Hp1. rewrite Hd.
  unfold mbind at 1, prog_bind at 1.
  erewrite bind_Ret by (by eapply (on_partition_userdata a (set_plock true p))).
  erewrite bind_Ret by apply alloc_request_ok.
  set (R := length (w_reqs w)). change (length (w_reqs (put_part _ _ w))) with R.
  erewrite bind_Ret by (by apply (on_partition_request a (set_plock true p))).
  set (p2 := set_queue (Some ([] ++ [R])) (set_plock true p)). set (w2 := put_part a p2 _).
  assert (w_parts w2 !! a = Some p2) as Hp2 by (by apply (put_part_lookup a (set_plock true p))).
  erewrite bind_Ret by (by apply (on_partition_gets a io_queue p2)). cbn [io_queue p2 set_queue].
  erewrite (bind_Ret (the _)) by done.
  assert (w_reqs w2 !! R = Some (Some (request_rw junk_word true READ dst size d))) as HR
    by (cbn; by rewrite lookup_app_r, Nat.sub_diag).
  erewrite bind_Ret; cycle 1.
  { cbn [app length await]. erewrite bind_Ret by (unfold request_of; by rewrite HR). done. }
  erewrite bind_Ret by (unfold delete_request; by rewrite HR).
  set (w3 := set_reqs _ w2). unfold mret at 1, prog_ret at 1. cbn beta iota.
  erewrite bind_Ret by (by apply (on_partition_unlock a p2 w3)).
  eexists. split; [done|]. split; [done|]. unfold worker_iter.
  set (w4 := put_part a _ w3). assert (w_parts w4 !! a = Some (set_plock false p2)) as Hp4
    by (by apply (put_part_lookup a p2)).
  erewrite bind_Ret.
  2: { eapply on_partition_Ret; [exact Hp4|]. unfold pop_request. rewrite bind_gets. done. }
  unfold serve, request_of, mbind, prog_bind. cbn [w_reqs w4 w3 put_part set_parts set_reqs].
  rewrite list_lookup_insert_eq; [done|]. by eapply lookup_lt_Some.
Qed.
End Queueing.

(** ** The worker *)

Section Serving.
Context `{D : NvmeDevice} {zs nz : Z} `{Zd : !ZnsDevice D zs nz}.
Context (vec_realloc : nat -> bool).
Context (gz : nat) (Hgz : zs = IO_BLOCKS * Z.of_nat gz) (Hpos : 0 < nz) (Hgz0 : (0 < gz)%nat).

(** The open partition [a] has the stream [d] with content [bs] and room for
    [cap] I/Os in each of its [n] lanes. *)
Record streaming (w : world) (a d : nat) (p : Partition) (u : Userdata) (n cap : nat)
    (bs : list Byte.byte) : Prop := {
  sg_part : w_parts w !! a = Some p;
  sg_open : p_status p = Some OPEN;
  sg_ud : w_uds w !! d = Some (Some (a, u));
  sg_stored : stored (zs:=zs) (nz:=nz) (Z.of_nat n) (w_z w) u bs;
  sg_ready : ready (zs:=zs) (nz:=nz) gz (Ust (w_z w) (w_izg w) p) n cap }.

(** Everything but partition [a], stream [d] and the requests stays. *)
Record same_rest (a d : nat) (w w' : world) : Prop := {
  sr_parts : forall b, b <> a -> w_parts w' !! b = w_parts w !! b;
  sr_uds : forall e, e <> d -> w_uds w' !! e = w_uds w !! e;
  sr_users : user_to_partition_map w' = user_to_partition_map w;
  sr_opened : open_partition_list w' = open_partition_list w;
  sr_next : next_partition_id w' = next_partition_id w;
  sr_lock : partition_lock w' = partition_lock w }.

#[export] Instance same_rest_preorder a d : PreOrder (same_rest a d).
Proof.
  split; [intros w; by split|].
  intros w1 w2 w3 [H1 H2 ? ? ? ?] [K1 K2 ? ? ? ?]. split; try congruence; intros x Hx.
  - by rewrite K1, H1.
  - by rewrite K2, H2.
Qed.

Lemma ready_part z i p p' n cap :
  p_izg_cnt p' = p_izg_cnt p -> zone_vector p' = zone_vector p ->
  ready (zs:=zs) (nz:=nz) gz (Ust z i p) n cap -> ready (zs:=zs) (nz:=nz) gz (Ust z i p') n cap.
Proof.
  intros Hc Hv (g & old & cur & d & total & j & [B1 B2 B3 B4 B5 B6 B7 B8] & Hrest).
  exists g, old, cur, d, total, j. split; [|exact Hrest]. cbn [u_z u_izg u_part] in *.
  split; cbn [u_z u_izg u_part]; try done; [by rewrite Hc|]. unfold zone_numbers in *. by rewrite Hv.
Qed.

Lemma streaming_put w a d p p' u n cap bs :
  p_izg_cnt p' = p_izg_cnt p -> zone_vector p' = zone_vector p -> p_status p' = p_status p ->
  streaming w a d p u n cap bs -> streaming (put_part a p' w) a d p' u n cap bs.
Proof.
  intros Hc Hv Hs [Hp Ho Hu Hst Hr]. split; try done.
  - by apply (put_part_lookup a p).
  - by rewrite Hs.
  - by apply (ready_part _ _ p).
Qed.

Lemma pop_request_ok a p r q w :
  w_parts w !! a = Some p -> io_queue p = Some (r :: q) ->
  on_partition a pop_request w = Ret (Some r) (put_part a (set_queue (Some q) p) w).
Proof.
  intros Hp Hq. eapply on_partition_Ret; [done|]. unfold pop_request. rewrite bind_gets, Hq. done.
Qed.

Lemma on_userdata_Ret {A} d a u p (m : prog uds A) x s w :
  w_uds w !! d = Some (Some (a, u)) -> w_parts w !! a = Some p ->
  m (Uds (Ust (w_z w) (w_izg w) p) u) = Ret x s -> on_userdata d m w = Ret x (put_uds d a s w).
Proof. intros Hu Hp Hm. unfold on_userdata. by rewrite Hu, Hp, Hm. Qed.

Lemma same_rest_put a d s w : same_rest a d w (put_uds d a s w).
Proof. split; cbn; try done; intros; by rewrite list_lookup_insert_ne. Qed.

Lemma same_rest_part a d p w : same_rest a d w (put_part a p w).
Proof. split; cbn; try done; intros; by rewrite list_lookup_insert_ne. Qed.

Lemma same_rest_reqs a d l w : same_rest a d w (set_reqs l w).
Proof. by split. Qed.

(** The length of the zone vector of a partition, and the room of its group. *)
Definition part_len (p : Partition) : nat := length (zone_vector p).
Definition part_room (w : world) (p : Partition) : nat := group_room (zs:=zs) (Ust (w_z w) (w_izg w) p).

Lemma on_userdata_UB {A} d a u p (m : prog uds A) w :
  w_uds w !! d = Some (Some (a, u)) -> w_parts w !! a = Some p ->
  m (Uds (Ust (w_z w) (w_izg w) p) u) = UB -> on_userdata d m w = UB.
Proof. intros Hu Hp Hm. unfold on_userdata. by rewrite Hu, Hp, Hm. Qed.

(** One iteration that serves a write. *)
Lemma worker_write sched w a d p u n cap bs r q fl buf off k new :
  streaming w a d p u n cap bs -> io_queue p = Some (r :: q) ->
  w_reqs w !! r = Some (Some (MkRequest WRITE fl buf (IO_SIZE * Z.of_nat (n * k)) off d)) ->
  (0 < k <= cap)%nat -> Z.of_nat n * zs <= 2 ^ 31 ->
  Z.of_nat (length bs) + IO_SIZE * Z.of_nat (n * k) < 2 ^ 32 ->
  load (host_mem (z_ctl (w_z w))) buf (IO_SIZE * Z.of_nat (n * k)) = Some new ->
  (dangles vec_realloc (part_len p) (part_room w p) n = true -> worker_iter vec_realloc sched a w = UB) /\
  (dangles vec_realloc (part_len p) (part_room w p) n = false ->
   exists w' zv u', let p' := set_zone_vector zv (set_queue (Some q) p) in
    worker_iter vec_realloc sched a w = Ret false w' /\
    streaming w' a d p' u' n (cap - k) (bs ++ new) /\
    w_reqs w' = <[r := None]> (w_reqs w) /\ same_rest a d w w' /\
    host_mem (z_ctl (w_z w')) = host_mem (z_ctl (w_z w)) /\
    (part_len p', part_room w' p') = after_write gz n (part_len p) (part_room w p) k).
Proof.
  intros Hsg Hq Hr Hk Hnzs Hfit Hload. pose proof Hsg as [Hp Ho Hu Hsto Hrd].
  unfold worker_iter. erewrite bind_Ret by (by eapply pop_request_ok).
  set (p1 := set_queue (Some q) p). set (w1 := put_part a p1 w).
  assert (streaming w1 a d p1 u n cap bs) as [Hp1 Ho1 Hu1 Hsto1 Hrd1] by (by apply (streaming_put w a d p)).
  destruct (append_fits vec_realloc gz Hgz Hpos Hgz0 (sched O) (Ust (w_z w1) (w_izg w1) p1) u buf n cap k
    bs new) as [Hub Hok]; try done.
  assert (request_of r w1 = Ret (MkRequest WRITE fl buf (IO_SIZE * Z.of_nat (n * k)) off d) w1) as Hreq.
  { unfold request_of. change (w_reqs w1) with (w_reqs w). by rewrite Hr. }
  split; intros Hdang.
  { apply bind_UB. unfold serve. erewrite bind_Ret by exact Hreq.
    cbn [rw rq_data rq_buf rq_size]. change (WRITE =? WRITE) with true. cbv iota.
    apply bind_UB. eapply on_userdata_UB; [exact Hu1|exact Hp1|]. by apply Hub. }
  destruct (Hok Hdang) as (s' & ptrs & gl & l & Ha & Hs' & Hr' & Hdone & Hview). clear Hub Hok.
  cbv zeta in *. set (u' := appended_ud _ _ _) in *.
  destruct Hdone as [_ [zv Hpart] _ Hmem _ _ _ _]. cbn [u_part u_z] in Hpart, Hmem.
  set (w2 := put_uds d a (Uds s' u') w1).
  assert (w_parts w2 !! a = Some (u_part s')) as Hp2.
  { unfold w2. cbn. rewrite list_lookup_insert_eq; [done|]. rewrite length_insert. by eapply lookup_lt_Some. }
  assert (serve vec_realloc sched false r w1 = Ret tt (set_reqs (<[r := None]> (w_reqs w2)) w2)) as Hserve.
  { unfold serve. erewrite bind_Ret by exact Hreq.
    cbn [rw rq_data rq_buf rq_size]. change (WRITE =? WRITE) with true. cbv iota.
    erewrite bind_Ret by (by eapply on_userdata_Ret). unfold delete_request.
    change (w_reqs (put_uds d a (Uds s' u') w1)) with (w_reqs w). by rewrite Hr. }
  erewrite bind_Ret by exact Hserve.
  erewrite bind_Ret by (apply (on_partition_status a (u_part s')); [done|by rewrite Hpart]).
  exists (set_reqs (<[r := None]> (w_reqs w2)) w2), zv, u'. cbv zeta. split; [done|].
  rewrite Hpart in Hp2. split; [|split; [done|]; split; [|split; [done|]]].
  - split; try done.
    + cbn. rewrite list_lookup_insert_eq; [done|]. by eapply lookup_lt_Some.
    + destruct s' as [z' i' p']. cbn in *. by subst p'.
  - transitivity w1; [apply same_rest_part|]. transitivity w2; [apply same_rest_put|by split].
  - destruct s' as [z' i' p']. cbn in Hpart. subst p'. exact Hview.
Qed.

(** Reading leaves a partition ready. *)
Lemma ready_read c c' ivs i p n cap :
  same_store (zs:=zs) (nz:=nz) (set_device (device c) (host_mem c') c) c' ->
  ready (zs:=zs) (nz:=nz) gz (Ust (Zst c ivs) i p) n cap ->
  ready (zs:=zs) (nz:=nz) gz (Ust (Zst c' ivs) i p) n cap.
Proof.
  intros Hss (g & old & cur & d & total & j & [B1 B2 B3 B4 B5 B6 B7 [S1 S2 S3]] & Hrest).
  assert (forall z, host_wp c' z = host_wp c z) as Hw.
  { intros z. unfold host_wp. destruct Hss as [_ Hd _ _ _]. cbn in Hd. by rewrite Hd. }
  exists g, old, cur, d, total, j. split; [|exact Hrest]. cbn [u_z u_izg u_part z_ctl] in *.
  split; cbn [u_z u_izg u_part z_ctl]; try done.
  - rewrite <- Hss. by apply ctl_ok_mem.
  - eapply Forall_impl; [exact B5|]. unfold free_blocks. intros z. by rewrite Hw.
  - eapply Forall_impl; [exact B6|]. unfold free_blocks. intros z. by rewrite Hw.
  - split; try done. eapply Forall_impl; [exact S3|]. intros z. cbn. by rewrite Hw.
Qed.

(** One iteration that serves a read of the whole stream. *)
Lemma worker_read sched w a d p u n cap bs r q fl buf off :
  streaming w a d p u n cap bs -> io_queue p = Some (r :: q) ->
  w_reqs w !! r = Some (Some (MkRequest READ fl buf (Z.of_nat (length bs)) off d)) ->
  is_Some (load (host_mem (z_ctl (w_z w))) buf (Z.of_nat (length bs))) ->
  exists w', worker_iter vec_realloc sched a w = Ret false w' /\
    streaming w' a d (set_queue (Some q) p) u n cap bs /\
    w_reqs w' = <[r := Some (MkRequest READ true buf (Z.of_nat (length bs)) off d)]> (w_reqs w) /\
    same_rest a d w w' /\
    load (host_mem (z_ctl (w_z w'))) buf (Z.of_nat (length bs)) = Some bs /\
    same_outside (host_mem (z_ctl (w_z w))) (host_mem (z_ctl (w_z w'))) [buf] (Z.of_nat (length bs)).
Proof.
  intros Hsg Hq Hr Hload. pose proof Hsg as [Hp Ho Hu Hsto Hrd].
  unfold worker_iter. erewrite bind_Ret by (by eapply pop_request_ok).
  set (p1 := set_queue (Some q) p). set (w1 := put_part a p1 w).
  assert (streaming w1 a d p1 u n cap bs) as [Hp1 Ho1 Hu1 Hsto1 Hrd1] by (by apply (streaming_put w a d p)).
  pose proof Hrd1 as (g & old & cur & dd & total & j & Hb & _).
  destruct (stream_read_ok (zs:=zs) (nz:=nz) sched (Ust (w_z w1) (w_izg w1) p1) u buf (Z.of_nat n) bs)
    as (c' & Hread & Hss & Hl & Hout); try done.
  { by destruct Hb. } { by eapply balanced_cnt. } { by destruct Hb. }
  cbn [u_z u_izg u_part] in *. set (z' := Zst c' (z_ivs (w_z w))).
  set (w2 := put_uds d a (Uds (Ust z' (w_izg w) p1) u) w1).
  assert (w_parts w2 !! a = Some p1) as Hp2.
  { unfold w2. cbn. rewrite list_lookup_insert_eq; [done|]. rewrite length_insert. by eapply lookup_lt_Some. }
  assert (serve vec_realloc sched false r w1 = Ret tt
    (set_reqs (<[r := Some (MkRequest READ true buf (Z.of_nat (length bs)) off d)]> (w_reqs w2)) w2)) as Hserve.
  { unfold serve. erewrite bind_Ret; cycle 1.
    { unfold request_of. change (w_reqs w1) with (w_reqs w). by rewrite Hr. }
    cbn [rw rq_data rq_buf rq_size]. change (READ =? WRITE) with false.
    change (READ =? READ) with true. cbv iota.
    erewrite bind_Ret by (eapply on_userdata_Ret; [exact Hu1|exact Hp1|exact Hread]). unfold complete_request.
    change (w_reqs (put_uds _ _ _ w1)) with (w_reqs w). by rewrite Hr. }
  erewrite bind_Ret by exact Hserve. erewrite bind_Ret by (by apply (on_partition_status a p1)).
  eexists. split; [done|]. split; [split; try done|].
  - cbn. rewrite list_lookup_insert_eq; [done|]. by eapply lookup_lt_Some.
  - apply (stored_keeps (Z.of_nat n) (w_z w)); [|done]. intros x y Hx. cbn.
    apply (same_store_keeps (z_ctl (w_z w))); [exact Hss|]. by destruct (w_z w).
  - cbn. apply (ready_read (z_ctl (w_z w))); [exact Hss|].
    assert (Zst (z_ctl (w_z w)) (z_ivs (w_z w)) = w_z w) as -> by (by destruct (w_z w)). exact Hrd1.
  - split; [done|]. split; [transitivity w1; [apply same_rest_part|];
      transitivity w2; [apply same_rest_put|by split]|]. done.
Qed.
End Serving.

(** ** Waiting for a read behind pending writes *)

(** A queued write: its request, its buffer, its size in I/Os per lane and the
    bytes in the buffer. *)
Record pend := Pend { pd_req : nat; pd_buf : ptr; pd_k : nat; pd_bytes : list Byte.byte }.

Definition pend_ios (xs : list pend) : nat := sum_list (pd_k <$> xs).
Definition pend_bytes (xs : list pend) : list Byte.byte := concat (pd_bytes <$> xs).

Section Loading.
Context `{D : NvmeDevice} {zs nz : Z} `{Zd : !ZnsDevice D zs nz}.
Context (vec_realloc : nat -> bool) (junk_word : Z) (junk_flag : bool).
Context (gz : nat) (Hgz : zs = IO_BLOCKS * Z.of_nat gz) (Hpos : 0 < nz) (Hgz0 : (0 < gz)%nat).

Definition pending (w : world) (d n : nat) (x : pend) : Prop :=
  (exists fl off, w_reqs w !! pd_req x
     = Some (Some (MkRequest WRITE fl (pd_buf x) (IO_SIZE * Z.of_nat (n * pd_k x)) off d))) /\
  (0 < pd_k x)%nat /\
  load (host_mem (z_ctl (w_z w))) (pd_buf x) (IO_SIZE * Z.of_nat (n * pd_k x)) = Some (pd_bytes x).

Lemma pending_length w d n x :
  pending w d n x -> Z.of_nat (length (pd_bytes x)) = IO_SIZE * Z.of_nat (n * pd_k x).
Proof. intros (_ & _ & Hl). by apply load_length in Hl. Qed.

Lemma pending_keep w w' d n r xs :
  w_reqs w' = <[r := None]> (w_reqs w) -> host_mem (z_ctl (w_z w')) = host_mem (z_ctl (w_z w)) ->
  r ∉ pd_req <$> xs -> Forall (pending w d n) xs -> Forall (pending w' d n) xs.
Proof.
  intros Hr Hm Hnot Hxs. apply Forall_forall. intros x Hx. rewrite Forall_forall in Hxs.
  destruct (Hxs x Hx) as ((fl & off & Hq) & Hk & Hl). split; [|by rewrite Hm].
  exists fl, off. rewrite Hr, list_lookup_insert_ne; [done|]. intros ->. apply Hnot.
  by apply list_elem_of_fmap_2.
Qed.

(** The client of an incomplete request waits while the worker serves the
    writes queued before it, in order. *)
Lemma await_writes scheds a d n R xs : forall f w p u cap bs q rq,
  streaming (zs:=zs) (nz:=nz) gz w a d p u n cap bs ->
  io_queue p = Some ((pd_req <$> xs) ++ q) -> Forall (pending w d n) xs -> NoDup (pd_req <$> xs) ->
  R ∉ pd_req <$> xs -> w_reqs w !! R = Some (Some rq) -> read_complete rq = false ->
  (pend_ios xs <= cap)%nat -> Z.of_nat n * zs <= 2 ^ 31 ->
  Z.of_nat (length bs) + Z.of_nat (length (pend_bytes xs)) < 2 ^ 32 ->
  let bad := any_dangles vec_realloc gz n (part_len p) (part_room (zs:=zs) w p) (pd_k <$> xs) in
  (bad = true -> await vec_realloc (length xs + f) scheds a R w = UB) /\
  (bad = false -> exists w' zv u', let p' := set_zone_vector zv (set_queue (Some q) p) in
    await vec_realloc (length xs + f) scheds a R w = await vec_realloc f scheds a R w' /\
    streaming (zs:=zs) (nz:=nz) gz w' a d p' u' n (cap - pend_ios xs) (bs ++ pend_bytes xs) /\
    w_reqs w' !! R = Some (Some rq) /\ length (w_reqs w') = length (w_reqs w) /\
    same_rest a d w w' /\ host_mem (z_ctl (w_z w')) = host_mem (z_ctl (w_z w))).
Proof.
  induction xs as [|x xs IH]; intros f w p u cap bs q rq Hsg Hq Hxs Hnd HR Hrq Hinc Hcap Hnzs Hfit.
  { split; [done|]. intros _. exists w, (zone_vector p), u. cbn zeta. split; [done|].
    assert (set_zone_vector (zone_vector p) (set_queue (Some q) p) = p) as ->.
    { unfold set_zone_vector, set_queue. cbn in *. rewrite <- Hq. by destruct p. }
    unfold pend_bytes, pend_ios. cbn. rewrite app_nil_r, Nat.sub_0_r. done. }
  cbn [fmap list_fmap] in *. apply Forall_cons in Hxs as [Hx Hxs]. apply NoDup_cons in Hnd as [Hnot Hnd].
  apply not_elem_of_cons in HR as [HRx HR]. pose proof (pending_length _ _ _ _ Hx) as Hlen.
  destruct Hx as ((fl & off & Hreq) & Hk & Hload).
  unfold pend_ios, pend_bytes in Hcap, Hfit. cbn [fmap list_fmap concat] in Hcap, Hfit.
  rewrite sum_list_cons in Hcap. rewrite length_app, Nat2Z.inj_add in Hfit.
  fold (pend_ios xs) in Hcap. fold (pend_bytes xs) in Hfit.
  destruct (worker_write vec_realloc gz Hgz Hpos Hgz0 (scheds (S (length xs + f))) w a d p u n cap bs
    (pd_req x) ((pd_req <$> xs) ++ q) fl (pd_buf x) off (pd_k x) (pd_bytes x))
    as [Hub Hok]; try done; [lia|lia|].
  assert (await vec_realloc (length (x :: xs) + f) scheds a R w
    = (worker_iter vec_realloc (scheds (S (length xs + f))) a;; await vec_realloc (length xs + f) scheds a R) w) as Hstep.
  { cbn [length Nat.add await]. unfold request_of at 1. unfold mbind at 1, prog_bind at 1.
    rewrite Hrq, Hinc. done. }
  destruct (dangles vec_realloc (part_len p) (part_room (zs:=zs) w p) n) eqn:Hdang.
  { cbn [any_dangles]. rewrite Hdang. split; [|done]. intros _. rewrite Hstep. by apply bind_UB, Hub. }
  destruct (Hok eq_refl) as (w1 & zv1 & u1 & Hit & Hsg1 & Hrs & Hrest & Hmem & Hview). clear Hub Hok.
  set (p1 := set_zone_vector zv1 (set_queue (Some ((pd_req <$> xs) ++ q)) p)) in *.
  cbn [any_dangles]. rewrite Hdang, <- Hview. cbn [orb fst snd]. rewrite Hstep.
  erewrite !bind_Ret by exact Hit.
  destruct (IH f w1 p1 u1 (cap - pd_k x)%nat (bs ++ pd_bytes x) q rq) as [Hub Hok]; try done; try lia.
  { by apply (pending_keep w w1 d n (pd_req x)). }
  { rewrite Hrs. by rewrite list_lookup_insert_ne. }
  { rewrite length_app, Nat2Z.inj_add. lia. }
  split; [exact Hub|].
  intros Hbad. destruct (Hok Hbad) as (w' & zv & u' & Haw & Hsg' & Hrq' & Hl' & Hrest' & Hmem').
  exists w', zv, u'. cbn zeta. split; [|split; [|split; [done|]; split; [|split]]].
  - exact Haw.
  - unfold pend_ios, pend_bytes in *. cbn [fmap list_fmap concat].
    rewrite sum_list_cons, app_assoc.
    replace (cap - (pd_k x + sum_list (pd_k <$> xs)))%nat with (cap - pd_k x - sum_list (pd_k <$> xs))%nat by lia.
    done.
  - rewrite Hl', Hrs. apply length_insert.
  - by transitivity w1.
  - congruence.
Qed.

(** [_z_load] up to the wait: its request is the last of the queue. *)
Lemma load_queues scheds w a d p name dst size q :
  w_parts w !! a = Some p -> p_status p = Some OPEN -> partition_locked p = false ->
  userdata_map p !! name = Some d -> io_queue p = Some q ->
  let R := length (w_reqs w) in
  let p2 := set_queue (Some (q ++ [R])) (set_plock true p) in
  _z_load vec_realloc junk_word false scheds a name dst size w
  = (ret ← (await vec_realloc (length q + 1) scheds a R;; delete_request R;; mret 0);
     on_partition a unlock_partition;; mret ret)
    (put_part a p2 (set_reqs (w_reqs w ++ [Some (request_rw junk_word false READ dst size d)])
                     (put_part a (set_plock true p) w))).
Proof.
  intros Hp Ho Hlk Hname Hq R p2. unfold _z_load. enter_partition Hp1. rewrite Hname.
  unfold mbind at 1 2, prog_bind at 1 2.
  erewrite bind_Ret by (by eapply (on_partition_userdata a (set_plock true p))).
  erewrite bind_Ret by apply alloc_request_ok.
  set (w1 := set_reqs _ _). change (length (w_reqs (put_part a (set_plock true p) w))) with R.
  erewrite bind_Ret by (by apply (on_partition_request a (set_plock true p))). fold p2.
  set (w2 := put_part a p2 w1).
  assert (w_parts w2 !! a = Some p2) as Hp2 by (by apply (put_part_lookup a (set_plock true p))).
  erewrite bind_Ret by (by apply (on_partition_gets a io_queue p2)). cbn [io_queue p2 set_queue].
  erewrite (bind_Ret (the _)) by done. by rewrite length_app.
Qed.

(** [_z_load] of a whole stream: the pending writes are served first, then the
    buffer gets the content. *)
Lemma load_ok scheds w a d p u n cap bs xs name dst :
  streaming (zs:=zs) (nz:=nz) gz w a d p u n cap bs ->
  partition_locked p = false -> userdata_map p !! name = Some d ->
  io_queue p = Some (pd_req <$> xs) -> Forall (pending w d n) xs -> NoDup (pd_req <$> xs) ->
  (pend_ios xs <= cap)%nat -> Z.of_nat n * zs <= 2 ^ 31 ->
  let content := bs ++ pend_bytes xs in
  Z.of_nat (length content) < 2 ^ 32 ->
  is_Some (load (host_mem (z_ctl (w_z w))) dst (Z.of_nat (length content))) ->
  let bad := any_dangles vec_realloc gz n (part_len p) (part_room (zs:=zs) w p) (pd_k <$> xs) in
  let load_it := _z_load vec_realloc junk_word false scheds a name dst (Z.of_nat (length content)) w in
  (bad = true -> load_it = UB) /\
  (bad = false -> exists w' u' zv, let p' := set_zone_vector zv (set_queue (Some []) p) in
    load_it = Ret 0 w' /\
    streaming (zs:=zs) (nz:=nz) gz w' a d p' u' n (cap - pend_ios xs) content /\ same_rest a d w w' /\
    load (host_mem (z_ctl (w_z w'))) dst (Z.of_nat (length content)) = Some content /\
    same_outside (host_mem (z_ctl (w_z w))) (host_mem (z_ctl (w_z w'))) [dst] (Z.of_nat (length content))).
Proof.
  intros Hsg Hlk Hname Hq Hxs Hnd Hcap Hnzs content Hfit Hdst bad load_it. pose proof Hsg as [Hp Ho Hu Hsto Hrd].
  set (rq := request_rw junk_word false READ dst (Z.of_nat (length content)) d). set (R := length (w_reqs w)).
  set (w1 := set_reqs (w_reqs w ++ [Some rq]) (put_part a (set_plock true p) w)).
  set (p2 := set_queue (Some ((pd_req <$> xs) ++ [R])) (set_plock true p)). set (w2 := put_part a p2 w1).
  assert (load_it = (ret ← (await vec_realloc (length xs + 1) scheds a R;; delete_request R;; mret 0);
     on_partition a unlock_partition;; mret ret) w2) as ->.
  { unfold load_it. rewrite (load_queues scheds w a d p name dst _ (pd_req <$> xs)) by done. by rewrite length_fmap. }
  assert (w_parts w2 !! a = Some p2) as Hp2
    by (apply (put_part_lookup a (set_plock true p)); by apply (put_part_lookup a p)).
  assert (streaming (zs:=zs) (nz:=nz) gz w2 a d p2 u n cap bs) as Hsg2.
  { destruct (streaming_put gz w a d p p2 u n cap bs) as [_ H2 H3 H4 H5]; try done. }
  assert (forall x, x ∈ xs -> (pd_req x < R)%nat) as Hlt.
  { intros x Hx. rewrite Forall_forall in Hxs. destruct (Hxs x Hx) as ((fl & off & Hreq) & _).
    by eapply lookup_lt_Some. }
  assert (w_reqs w2 !! R = Some (Some rq)) as HR2 by (cbn; by rewrite lookup_app_r, Nat.sub_diag).
  destruct (await_writes scheds a d n R xs 1 w2 p2 u cap bs [R] rq)
    as [Hub Hok]; try done.
  { apply Forall_forall. intros x Hx. rewrite Forall_forall in Hxs.
    destruct (Hxs x Hx) as ((fl & off & Hreq) & Hk & Hl). split; [|done]. exists fl, off.
    cbn. rewrite lookup_app_l; [done|]. by apply Hlt. }
  { intros (x & HRx & Hx)%list_elem_of_fmap. pose proof (Hlt x Hx). lia. }
  { unfold content in Hfit. rewrite length_app, Nat2Z.inj_add in Hfit. done. }
  split; intros Hbad; [by apply bind_UB, bind_UB, Hub|].
  destruct (Hok Hbad) as (w3 & zv & u' & Haw & Hsg3 & HR3 & Hl3 & Hrest3 & Hmem3). clear Hub Hok.
  set (p3 := set_zone_vector zv (set_queue (Some [R]) p2)) in *. fold content in Hsg3.
  destruct (worker_read vec_realloc gz (scheds 1%nat) w3 a d p3 u' n (cap - pend_ios xs) content R [] false dst
    junk_word) as (w4 & Hit4 & Hsg4 & Hr4 & Hrest4 & Hl4 & Hout4); try done.
  { by rewrite Hmem3. }
  rewrite Hmem3 in Hout4. pose proof (sg_part _ _ _ _ _ _ _ _ _ Hsg4) as Hp4.
  assert (await vec_realloc (length xs + 1) scheds a R w2 = Ret tt w4) as Hawait.
  { rewrite Haw. cbn [await]. erewrite bind_Ret by (unfold request_of; by rewrite HR3).
    cbn [read_complete rq request_rw]. erewrite bind_Ret by exact Hit4.
    unfold request_of, mbind, prog_bind. rewrite Hr4, list_lookup_insert_eq by (by eapply lookup_lt_Some).
    done. }
  set (w5 := set_reqs (<[R := None]> (w_reqs w4)) w4).
  erewrite (bind_Ret _ _ _ 0 w5); cycle 1.
  { erewrite bind_Ret by exact Hawait. erewrite bind_Ret; [done|].
    assert (exists x, w_reqs w4 !! R = Some (Some x)) as [x Hx]
      by (rewrite Hr4, list_lookup_insert_eq by (by eapply lookup_lt_Some); eauto).
    unfold delete_request. by rewrite Hx. }
  erewrite bind_Ret by (by apply (on_partition_unlock a (set_queue (Some []) p3) w5)).
  exists (put_part a (set_plock false (set_queue (Some []) p3)) w5), u', zv. cbn zeta.
  split; [done|]. split; [|split; [|done]].
  - assert (set_plock false (set_queue (Some []) p3) = set_zone_vector zv (set_queue (Some []) p)) as Hp5.
    { unfold p3, p2, set_plock, set_queue, set_zone_vector. cbn. by rewrite Hlk. }
    rewrite Hp5. apply (streaming_put gz w5 a d (set_queue (Some []) p3)); try done.
    destruct Hsg4. by split.
  - transitivity w2; [|transitivity w3; [done|]; transitivity w4; [done|]].
    + transitivity w1; [|apply same_rest_part]. unfold w1.
      transitivity (put_part a (set_plock true p) w); [apply same_rest_part|apply same_rest_reqs].
    + transitivity w5; [apply same_rest_reqs|apply same_rest_part].
Qed.
End Loading.

(** ** A client that flushes several buffers and loads the stream *)

Section Client.
Context `{D : NvmeDevice} {zs nz : Z} `{Zd : !ZnsDevice D zs nz}.
Context (junk_word : Z) (junk_flag : bool) (gz : nat).

(** Users reach partition [a] under the id [lp_id]. *)
Record reaches (w : world) (uid lp_id : Z) (a : nat) : Prop := {
  re_lock : partition_lock w = false;
  re_found : exists l, user_to_partition_map w !! uid = Some l /\ all_live w l /\
    first_with w (has_id lp_id) l = Some a }.

Lemma with_partition_reaches uid lp_id a body w :
  reaches w uid lp_id a -> with_partition uid lp_id body w = body a w.
Proof. intros [Hk (l & Hu & Hl & Hf)]. by eapply with_partition_found. Qed.

Lemma first_with_ext w w' f l :
  (forall b, f <$> w_parts w' !! b = f <$> w_parts w !! b) -> first_with w' f l = first_with w f l.
Proof.
  intros H. unfold first_with. induction l as [|b l IH]; [done|]. cbn.
  specialize (H b). destruct (w_parts w' !! b), (w_parts w !! b); cbn in H; try done.
  injection H as ->. by rewrite IH.
Qed.

Lemma first_with_put a p p' f l w :
  w_parts w !! a = Some p -> f p' = f p -> first_with (put_part a p' w) f l = first_with w f l.
Proof.
  intros Hp Hf. apply first_with_ext. intros b. destruct (decide (b = a)) as [->|Hb].
  - rewrite (put_part_lookup a p), Hp by done. cbn. by rewrite Hf.
  - cbn. by rewrite list_lookup_insert_ne.
Qed.

(** Calls on a partition that keep its id keep it reachable. *)
Lemma reaches_keep w w' uid lp_id a p p' :
  user_to_partition_map w' = user_to_partition_map w -> partition_lock w' = partition_lock w ->
  w_parts w !! a = Some p -> w_parts w' = <[a := p']> (w_parts w) -> p_id p' = p_id p ->
  reaches w uid lp_id a -> reaches w' uid lp_id a.
Proof.
  intros Hu Hk Hp Hp' Hid [Hlk (l & Hul & Hl & Hf)]. split; [congruence|].
  assert (forall b, b <> a -> w_parts w' !! b = w_parts w !! b) as Hother.
  { intros b Hb. by rewrite Hp', list_lookup_insert_ne. }
  assert (w_parts w' !! a = Some p') as Ha.
  { rewrite Hp', list_lookup_insert_eq; [done|]. by eapply lookup_lt_Some. }
  exists l. split; [congruence|]. split.
  - eapply Forall_impl; [exact Hl|]. cbn. intros b Hb. destruct (decide (b = a)) as [->|].
    + by rewrite Ha.
    + by rewrite Hother.
  - rewrite <- Hf. apply first_with_ext. intros b. destruct (decide (b = a)) as [->|].
    + rewrite Ha, Hp. cbn. f_equal. unfold has_id, get_id. by rewrite Hid.
    + by rewrite Hother.
Qed.

(** Flush the buffers [fs], given with their sizes in I/Os per lane; stop when
    a call reports an error. *)
Definition flush_all (uid lp_id : Z) (name : string) (n : nat) (flag : Z) (fs : list (ptr * nat))
  : prog world unit :=
  iterM (fun f => r ← z_flush junk_word junk_flag uid lp_id name f.1 (IO_SIZE * Z.of_nat (n * f.2)) flag;
                  if r =? 0 then mret tt else exit0) fs.

(** The bytes of the buffers. *)
Definition buffers (m : memory) (n : nat) (fs : list (ptr * nat)) (bss : list (list Byte.byte)) : Prop :=
  Forall2 (fun f bs => (0 < f.2)%nat /\ load m f.1 (IO_SIZE * Z.of_nat (n * f.2)) = Some bs) fs bss.

(** The queue of a partition that has pending writes only. *)
Record queueing (w : world) (a d : nat) (p : Partition) (n : nat) (name : string) (xs : list pend)
  : Prop := {
  qu_unlocked : partition_locked p = false;
  qu_name : userdata_map p !! name = Some d;
  qu_queue : io_queue p = Some (pd_req <$> xs);
  qu_pending : Forall (pending w d n) xs;
  qu_nodup : NoDup (pd_req <$> xs) }.

Lemma flush_one uid lp_id name n flag w a d p u cap bs xs src k new :
  reaches w uid lp_id a -> streaming (zs:=zs) (nz:=nz) gz w a d p u n cap bs ->
  queueing w a d p n name xs -> (0 < k)%nat ->
  load (host_mem (z_ctl (w_z w))) src (IO_SIZE * Z.of_nat (n * k)) = Some new ->
  exists w' p' r, z_flush junk_word junk_flag uid lp_id name src (IO_SIZE * Z.of_nat (n * k)) flag w
      = Ret 0 w' /\
    reaches w' uid lp_id a /\ streaming (zs:=zs) (nz:=nz) gz w' a d p' u n cap bs /\
    queueing w' a d p' n name (xs ++ [Pend r src k new]) /\ w_z w' = w_z w /\
    zone_vector p' = zone_vector p /\ same_rest a d w w'.
Proof.
  intros Hre Hsg [Q1 Q2 Q3 Q4 Q5] Hk Hload. pose proof Hsg as [Hp Ho Hu Hsto Hrd].
  set (rq := request_rw junk_word junk_flag WRITE src (IO_SIZE * Z.of_nat (n * k)) d).
  set (p' := set_queue (Some ((pd_req <$> xs) ++ [length (w_reqs w)])) p).
  exists (enqueue a p (pd_req <$> xs) rq w), p', (length (w_reqs w)).
  assert (forall x, x ∈ xs -> (pd_req x < length (w_reqs w))%nat) as Hlt.
  { intros x Hx. rewrite Forall_forall in Q4. destruct (Q4 x Hx) as ((fl & off & Hreq) & _).
    by eapply lookup_lt_Some. }
  split; [|split; [|split; [|split; [|split; [|split]]]]].
  - unfold z_flush. rewrite (with_partition_reaches _ _ a) by done.
    rewrite (flush_queues junk_word junk_flag a p OPEN (pd_req <$> xs) name d) by done. done.
  - by apply (reaches_keep w _ uid lp_id a p p').
  - by apply (streaming_put gz (set_reqs (w_reqs w ++ [Some rq]) w) a d p).
  - split; try done.
    + cbn [io_queue p' set_queue]. by rewrite fmap_app.
    + apply Forall_app. split.
      * apply Forall_forall. intros x Hx. pose proof (Hlt x Hx). rewrite Forall_forall in Q4.
        destruct (Q4 x Hx) as ((fl & off & Hreq) & ? & ?). split; [|done]. exists fl, off.
        cbn. by rewrite lookup_app_l.
      * constructor; [|constructor]. split; [|done]. exists junk_flag, junk_word. cbn.
        by rewrite lookup_app_r, Nat.sub_diag.
    + rewrite fmap_app. apply NoDup_app. split; [done|]. split; [|apply NoDup_singleton].
      cbn. intros y (x & -> & Hx)%list_elem_of_fmap. rewrite list_elem_of_singleton.
      pose proof (Hlt x Hx). lia.
  - done.
  - done.
  - transitivity (set_reqs (w_reqs w ++ [Some rq]) w); [apply same_rest_reqs|apply same_rest_part].
Qed.

Lemma flush_all_ok uid lp_id name n flag fs bss : forall w a d p u cap bs xs,
  reaches w uid lp_id a -> streaming (zs:=zs) (nz:=nz) gz w a d p u n cap bs ->
  queueing w a d p n name xs -> buffers (host_mem (z_ctl (w_z w))) n fs bss ->
  exists w' p' ys, flush_all uid lp_id name n flag fs w = Ret tt w' /\
    reaches w' uid lp_id a /\ streaming (zs:=zs) (nz:=nz) gz w' a d p' u n cap bs /\
    queueing w' a d p' n name (xs ++ ys) /\ pend_bytes ys = concat bss /\
    pd_k <$> ys = fs.*2 /\ w_z w' = w_z w /\ zone_vector p' = zone_vector p /\ same_rest a d w w'.
Proof.
  revert bss. induction fs as [|[src k] fs IH]; intros bss w a d p u cap bs xs Hre Hsg Hqu Hbuf.
  { apply Forall2_nil_inv_l in Hbuf as ->. exists w, p, []. rewrite app_nil_r. done. }
  apply Forall2_cons_inv_l in Hbuf as (new & bss' & [Hk Hl] & Hbuf & ->). cbn [fst snd] in *.
  destruct (flush_one uid lp_id name n flag w a d p u cap bs xs src k new)
    as (w1 & p1 & r & Hz & Hre1 & Hsg1 & Hqu1 & Hw1 & Hv1 & Hr1); try done.
  destruct (IH bss' w1 a d p1 u cap bs (xs ++ [Pend r src k new]))
    as (w' & p' & ys & Hf & Hre' & Hsg' & Hqu' & Hby & Hio & Hw' & Hv' & Hr'); try done.
  { by rewrite Hw1. }
  exists w', p', (Pend r src k new :: ys). split; [|split; [done|]; split; [done|]; split; [|split; [|split; [|split; [|split]]]]].
  - unfold flush_all in *. cbn [iterM fst snd]. erewrite bind_Ret; [exact Hf|].
    by erewrite bind_Ret by exact Hz.
  - by rewrite <- app_assoc in Hqu'.
  - unfold pend_bytes in *. cbn. by rewrite Hby.
  - cbn [fmap list_fmap]. by rewrite Hio.
  - congruence.
  - congruence.
  - by transitivity w1.
Qed.
End Client.
