(* ===== verification/Registry.v ===== *)
(** The registry of partitions: ids are unique, a user's partitions have
    distinct names, and creating, opening and closing partitions keep it so. *)
From S2P Require Import Prelude Nvme Controller Zone Izg Partition Userdata IoRequest Zoad.
From S2P Require Import UserdataSpec AppendSpec StreamSpec CapacitySpec ZoadSpec.
From stdpp Require Import base numbers list gmap strings.
From Stdlib Require Import ZArith Lia.
Local Open Scope Z_scope.

Section Registry.
Context `{D : NvmeDevice}.
Context (vec_realloc : nat -> bool) (junk_word : Z).

Definition name_of (w : world) (a : nat) : option string := p_name <$> w_parts w !! a.

Record registry (w : world) : Prop := {
  rg_next : 0 < next_partition_id w < 2 ^ 31;
  rg_ids : forall a p, w_parts w !! a = Some p -> 0 < p_id p < next_partition_id w;
  rg_unique : forall a b p p', w_parts w !! a = Some p -> w_parts w !! b = Some p' ->
    p_id p = p_id p' -> a = b;
  rg_live : forall uid l, user_to_partition_map w !! uid = Some l -> all_live w l;
  rg_names : forall uid l, user_to_partition_map w !! uid = Some l -> NoDup (name_of w <$> l) }.

(** The partitions of a user. *)
Definition partitions_of (w : world) (uid : Z) : list nat :=
  default [] (user_to_partition_map w !! uid).

Lemma partitions_live w uid : registry w -> all_live w (partitions_of w uid).
Proof.
  intros Hr. unfold partitions_of. destruct (_ !! uid) as [l|] eqn:E; [|by constructor].
  by apply (rg_live w Hr uid).
Qed.

Lemma name_taken_ok name l w :
  all_live w l -> name_taken name l w = Ret (bool_decide (Some name ∈ name_of w <$> l)) w.
Proof.
  induction 1 as [|a l [p Hp] Hl IH]; [done|]. cbn [name_taken].
  erewrite bind_Ret by (by apply on_partition_gets). erewrite bind_Ret by exact IH.
  unfold id, mret, prog_ret. f_equal. unfold has_name, get_name. cbn [fmap list_fmap].
  assert (name_of w a = Some (p_name p)) as -> by (unfold name_of; by rewrite Hp).
  apply eq_true_iff_eq. rewrite orb_true_iff, !bool_decide_eq_true, elem_of_cons.
  split; (intros [H|H]; [left|by right]); congruence.
Qed.

(** The store with a new partition of [cnt] groups for [uid]. *)
Definition with_new (uid : Z) (name : string) (cnt flags : Z) (i : izg_st) (w : world) : world :=
  World (w_z w) i (w_parts w ++ [new_Partition junk_word (next_partition_id w) name cnt flags])
    (w_uds w) (w_reqs w) (next_partition_id w + 1)
    (<[uid := partitions_of w uid ++ [length (w_parts w)]]> (user_to_partition_map w))
    (open_partition_list w) (partition_lock w).

Lemma all_live_app w p l : all_live w l -> Forall (fun a => (a < length (w_parts w))%nat) l /\
  forall w', w_parts w' = w_parts w ++ [p] -> all_live w' l.
Proof.
  intros Hl. split.
  - eapply Forall_impl; [exact Hl|]. cbn. intros a [q Hq]. by eapply lookup_lt_Some.
  - intros w' Hw. eapply Forall_impl; [exact Hl|]. cbn. intros a [q Hq]. exists q.
    rewrite Hw. by apply lookup_app_l_Some.
Qed.

Lemma name_of_app w w' p l :
  w_parts w' = w_parts w ++ [p] -> all_live w l -> name_of w' <$> l = name_of w <$> l.
Proof.
  intros Hw Hl. apply list_fmap_ext. intros i a Ha. unfold name_of. rewrite Hw.
  unfold all_live in Hl. rewrite Forall_lookup in Hl. destruct (Hl i a Ha) as [q Hq].
  by rewrite Hq, (lookup_app_l_Some _ _ _ _ Hq).
Qed.

Lemma with_new_registry uid name cnt flags i w :
  registry w -> next_partition_id w + 1 < 2 ^ 31 ->
  Some name ∉ name_of w <$> partitions_of w uid ->
  registry (with_new uid name cnt flags i w).
Proof.
  intros Hr Hnext Hnew. pose proof Hr as [R1 R2 R3 R4 R5].
  set (np := new_Partition junk_word (next_partition_id w) name cnt flags).
  set (w' := with_new uid name cnt flags i w).
  assert (w_parts w' = w_parts w ++ [np]) as Hparts by done.
  assert (forall a p, w_parts w' !! a = Some p ->
    (w_parts w !! a = Some p /\ 0 < p_id p < next_partition_id w)
    \/ (a = length (w_parts w) /\ p = np)) as Hcase.
  { intros a p. rewrite Hparts. intros [H|[H1 H2]]%lookup_app_Some; [left; eauto|right].
    apply list_lookup_singleton_Some in H2 as [H2 <-]. split; [lia|done]. }
  assert (p_id np = next_partition_id w) as Hid by done.
  split.
  - cbn. lia.
  - intros a p [[_ H]|[_ ->]]%Hcase; cbn; [lia|]. lia.
  - intros a b p p' [[Ha Hp]|[-> ->]]%Hcase [[Hb Hp']|[-> ->]]%Hcase Heq; try done; try lia.
    by eapply R3.
  - intros v l. cbn. rewrite lookup_insert. case_decide as Hv.
    + intros [= <-]. apply Forall_app. split.
      * apply (all_live_app w np); [by apply partitions_live|done].
      * constructor; [|constructor]. rewrite Hparts, lookup_app_r, Nat.sub_diag by lia. by eexists.
    + intros Hl. apply (all_live_app w np); [by eapply R4|done].
  - intros v l. cbn. rewrite lookup_insert. case_decide as Hv.
    + intros [= <-]. pose proof (partitions_live w uid Hr) as Hlive.
      rewrite fmap_app, (name_of_app w w' np) by done. apply NoDup_app. split; [|split].
      * unfold partitions_of in *. destruct (_ !! uid) eqn:E; [by eapply R5|constructor].
      * intros x Hx. cbn. unfold name_of at 1. rewrite Hparts, lookup_app_r, Nat.sub_diag by lia.
        cbn. rewrite list_elem_of_singleton. by intros ->.
      * apply NoDup_singleton.
    + intros Hl. rewrite (name_of_app w w' np); [by eapply R5|done|by eapply R4].
Qed.

(** ** Booking groups *)

(** The groups booked for a partition, if any: all that are available for a
    MAX partition, which books none of them, or [iolevel] groups. *)
Lemma alloc_izg_max s :
  0 <= available_izg_cnt s < 2 ^ 31 ->
  forall iolevel, alloc_izg MAX_PARTITION iolevel s = Ret (available_izg_cnt s) s.
Proof. intros H iolevel. unfold alloc_izg. rewrite bind_gets. cbn. by rewrite i32_small by lia. Qed.

Lemma alloc_izg_qos s iolevel :
  0 <= iolevel <= available_izg_cnt s -> available_izg_cnt s < 2 ^ 31 ->
  alloc_izg QOS_PARTITION iolevel s = Ret iolevel (set_available (available_izg_cnt s - iolevel) s).
Proof.
  intros Hl H31. unfold alloc_izg. rewrite bind_gets. cbn -[i32 u32]. rewrite i32_small by lia.
  unfold id. rewrite (proj2 (Z.ltb_ge iolevel 0)), (proj2 (Z.ltb_ge _ iolevel)) by lia.
  unfold mbind, prog_bind, modify. cbn -[u32]. by rewrite u32_small by lia.
Qed.

Lemma alloc_izg_refused flags iolevel s :
  0 <= available_izg_cnt s < 2 ^ 31 -> 0 <= iolevel < 2 ^ 31 ->
  (flags = QOS_PARTITION /\ available_izg_cnt s < iolevel) \/
  (flags <> QOS_PARTITION /\ flags <> MAX_PARTITION) ->
  alloc_izg flags iolevel s = Ret (-1) s.
Proof.
  intros Hav Hio [[-> H]|[H1 H2]]; unfold alloc_izg; rewrite bind_gets.
  - cbn -[i32]. unfold id. rewrite i32_small by lia. rewrite (proj2 (Z.ltb_ge iolevel 0)) by lia.
    by rewrite (proj2 (Z.ltb_lt _ iolevel)) by lia.
  - by rewrite (proj2 (Z.eqb_neq _ _) H2), (proj2 (Z.eqb_neq _ _) H1).
Qed.

(** ** Creating partitions *)

Definition name_free (w : world) (uid : Z) (name : string) : Prop :=
  Some name ∉ name_of w <$> partitions_of w uid.

(** [_mklp] when the groups are booked. *)
Lemma mklp_books name flags iolevel cnt i w :
  alloc_izg flags iolevel (w_izg w) = Ret cnt i -> 0 <= cnt -> next_partition_id w + 1 < 2 ^ 32 ->
  0 < next_partition_id w ->
  _mklp junk_word name flags iolevel (holding w)
  = Ret (Some (length (w_parts w)))
      (World (w_z w) i (w_parts w ++ [new_Partition junk_word (next_partition_id w) name cnt flags])
        (w_uds w) (w_reqs w) (next_partition_id w + 1) (user_to_partition_map w)
        (open_partition_list w) true).
Proof.
  intros Ha Hc Hn H0. unfold _mklp. erewrite bind_Ret; [|apply (zoom_Ret world_izg); exact Ha].
  rewrite (proj2 (Z.ltb_ge cnt 0)) by lia. unfold alloc_partition, mbind, prog_bind.
  cbn -[u32]. rewrite u32_small by lia. done.
Qed.

Lemma mklp_refused name flags iolevel w :
  alloc_izg flags iolevel (w_izg w) = Ret (-1) (w_izg w) ->
  _mklp junk_word name flags iolevel (holding w) = Ret None (holding w).
Proof.
  intros Ha. unfold _mklp. erewrite bind_Ret; [|apply (zoom_Ret world_izg); exact Ha]. by destruct w.
Qed.

(** The new partition enters the user's list; the result is its id. *)
Lemma publish uid l w i np :
  p_id np = next_partition_id w -> 0 < next_partition_id w < 2 ^ 31 ->
  let W m := World (w_z w) i (w_parts w ++ [np]) (w_uds w) (w_reqs w) (next_partition_id w + 1) m
    (open_partition_list w) true in
  (modify (fun w => set_users (<[uid := l]> (user_to_partition_map w)) w);;
   p ← on_partition (length (w_parts w)) (gets id); mret (i32 (get_id p))) (W (user_to_partition_map w))
  = Ret (next_partition_id w) (W (<[uid := l]> (user_to_partition_map w))).
Proof.
  intros Hid Hn W. unfold modify. unfold mbind at 1, prog_bind at 1. cbv beta iota.
  erewrite bind_Ret; cycle 1.
  { apply (on_partition_gets _ id). cbn. by rewrite lookup_app_r, Nat.sub_diag. }
  unfold id, get_id. by rewrite Hid, i32_small by lia.
Qed.

(** A new name with groups to book: the user gets a new partition. *)
Lemma z_mklp_ok uid dev name flags iolevel cnt i w :
  registry w -> partition_lock w = false -> next_partition_id w + 1 < 2 ^ 31 ->
  name_free w uid name -> alloc_izg flags iolevel (w_izg w) = Ret cnt i -> 0 <= cnt ->
  z_mklp junk_word uid dev name flags iolevel w
  = Ret (next_partition_id w) (with_new uid name cnt flags i w).
Proof.
  intros Hr Hk Hn Hfree Ha Hc. pose proof (rg_next w Hr) as Hpos. unfold z_mklp.
  erewrite bind_Ret by (by apply lock_global_ok). rewrite bind_gets.
  change (user_to_partition_map (holding w)) with (user_to_partition_map w).
  pose proof (mklp_books name flags iolevel cnt i w Ha Hc ltac:(lia) ltac:(lia)) as Hmk.
  unfold name_free, partitions_of in Hfree.
  unfold mbind at 1, prog_bind at 1. destruct (user_to_partition_map w !! uid) as [l|] eqn:E; cbn [default] in Hfree.
  - erewrite bind_Ret.
    2: { apply name_taken_ok. exact (rg_live w Hr uid l E). }
    change (name_of (holding w)) with (name_of w). rewrite bool_decide_false by done.
    erewrite bind_Ret by exact Hmk. cbv iota. rewrite publish by done.
    unfold with_new, partitions_of. rewrite E. cbn. by rewrite Hk.
  - erewrite bind_Ret by exact Hmk. cbv iota. rewrite publish by done.
    unfold with_new, partitions_of. rewrite E. cbn. by rewrite Hk.
Qed.

(** A name in use, or no groups: -1, and nothing changes. *)
Lemma z_mklp_refused uid dev name flags iolevel w :
  registry w -> partition_lock w = false ->
  ~ name_free w uid name \/ alloc_izg flags iolevel (w_izg w) = Ret (-1) (w_izg w) ->
  z_mklp junk_word uid dev name flags iolevel w = Ret (-1) w.
Proof.
  intros Hr Hk Hno. unfold z_mklp.
  erewrite bind_Ret by (by apply lock_global_ok). rewrite bind_gets.
  change (user_to_partition_map (holding w)) with (user_to_partition_map w).
  pose proof (mklp_refused name flags iolevel w) as Hmk. unfold name_free, partitions_of in Hno.
  unfold mbind at 1, prog_bind at 1. destruct (user_to_partition_map w !! uid) as [l|] eqn:E; cbn [default] in Hno.
  - erewrite bind_Ret.
    2: { apply name_taken_ok. exact (rg_live w Hr uid l E). }
    change (name_of (holding w)) with (name_of w). case_bool_decide as Ht.
    + unfold mret, prog_ret. cbv beta iota. erewrite bind_Ret by (by apply unlock_holding). done.
    + destruct Hno as [Hno|Hno]; [done|]. erewrite bind_Ret by (by apply Hmk).
      unfold mret, prog_ret. cbv beta iota. erewrite bind_Ret by (by apply unlock_holding). done.
  - destruct Hno as [Hno|Hno]; [exfalso; apply Hno; apply not_elem_of_nil|].
    erewrite bind_Ret by (by apply Hmk). unfold mret, prog_ret. cbv beta iota.
    erewrite bind_Ret by (by apply unlock_holding). done.
Qed.

(** ** Opening and closing *)

Definition opened (flags : Z) (p : Partition) : Partition :=
  set_worker true (set_op_flag flags (set_status (Some OPEN) p)).

(** The members of the open list that stay when the id [lp_id] is erased. *)
Fixpoint erased (ps : list Partition) (lp_id : Z) (l : list nat) : list nat :=
  match l with
  | [] => []
  | a :: l' => if bool_decide (p_id <$> ps !! a = Some lp_id) then l' else a :: erased ps lp_id l'
  end.

Lemma erase_id_ok lp_id l w : all_live w l -> erase_id lp_id l w = Ret (erased (w_parts w) lp_id l) w.
Proof.
  induction 1 as [|a l [p Hp] Hl IH]; [done|]. cbn [erase_id erased].
  erewrite bind_Ret by (by apply on_partition_gets). rewrite Hp. unfold id, has_id, get_id. cbn [fmap option_fmap option_map].
  destruct (Z.eqb_spec (p_id p) lp_id) as [->|Hne].
  - by rewrite bool_decide_true.
  - rewrite bool_decide_false by congruence. by erewrite bind_Ret by exact IH.
Qed.

Lemma z_openlp_ok uid name flags w a p ol :
  partition_lock w = false -> registry w -> uid ∈ dom (user_to_partition_map w) ->
  first_with w (has_name name) (partitions_of w uid) = Some a ->
  w_parts w !! a = Some p -> p_status p = Some CLOSE -> open_partition_list w !! mk_flag p = Some ol ->
  z_openlp uid name flags w
  = Ret (p_id p) (set_open (<[mk_flag p := ol ++ [a]]> (open_partition_list w)) (put_part a (opened flags p) w)).
Proof.
  intros Hk Hr Hu Hf Hp Hst Hol. apply elem_of_dom in Hu as [l Hu].
  pose proof (rg_live w Hr uid l Hu) as Hlive. pose proof (rg_ids w Hr a p Hp) as Hid.
  pose proof (rg_next w Hr). unfold partitions_of in Hf. rewrite Hu in Hf. cbn [default] in Hf.
  unfold z_openlp. erewrite bind_Ret by (by apply lock_global_ok). rewrite bind_gets.
  change (user_to_partition_map (holding w)) with (user_to_partition_map w). rewrite Hu.
  unfold mbind at 1, prog_bind at 1. erewrite bind_Ret by (by apply find_partition_ok).
  change (first_with (holding w)) with (first_with w). unfold id in Hf. rewrite Hf.
  erewrite bind_Ret; cycle 1.
  { eapply on_partition_Ret; [exact Hp|]. unfold Partition_open. by rewrite bind_gets, Hst. }
  fold (opened flags p).
  assert (w_parts (put_part a (opened flags p) (holding w)) !! a = Some (opened flags p)) as Hp1
    by (by apply (put_part_lookup a p)).
  erewrite bind_Ret by (by apply (on_partition_gets a id)). unfold id at 1.
  erewrite bind_Ret; cycle 1.
  { unfold open_list. rewrite bind_gets. unfold get_mkflag. cbn. by rewrite Hol. }
  set (w1 := set_open (<[mk_flag p := ol ++ [a]]> (open_partition_list w)) (put_part a (opened flags p) w)).
  erewrite (bind_Ret (modify _)); cycle 1.
  { unfold modify, get_mkflag. change (set_open _ (put_part _ _ (holding w))) with (holding w1). done. }
  unfold mret, prog_ret. cbv beta iota. erewrite bind_Ret by (by apply unlock_holding).
  unfold get_id. change (p_id (opened flags p)) with (p_id p). by rewrite i32_small by lia.
Qed.

(** A partition with an empty queue, closed: its status and its queue are
    gone. *)
Definition closed (p : Partition) : Partition := set_worker false (set_queue None (set_status None p)).

Lemma close_idle scheds a p w :
  w_parts w !! a = Some p -> p_status p = Some OPEN -> io_queue p = Some [] ->
  Partition_close vec_realloc scheds a w = Ret tt (put_part a (closed p) w).
Proof.
  intros Hp Hst Hq. unfold Partition_close. erewrite bind_Ret by (by eapply on_partition_status).
  change (OPEN =? CLOSE) with false. cbv iota.
  erewrite bind_Ret by (by eapply on_partition_Ret).
  set (p1 := set_status (Some CLOSE) p). set (w1 := put_part a p1 w).
  assert (w_parts w1 !! a = Some p1) as Hp1 by (by apply (put_part_lookup a p)).
  assert (on_partition a pop_request w1 = Ret None w1) as Hpop.
  { erewrite on_partition_Ret; [by rewrite (put_part_id a p1)|done|].
    unfold pop_request. rewrite bind_gets. change (io_queue p1) with (io_queue p). by rewrite Hq. }
  assert (worker_finish vec_realloc scheds a w1 = Ret tt w1) as Hfin.
  { unfold worker_finish. erewrite bind_Ret by (by apply on_partition_gets).
    change (io_queue p1) with (io_queue p). rewrite Hq. erewrite (bind_Ret (the _)) by done.
    erewrite bind_Ret; cycle 1.
    { unfold worker_iter. erewrite bind_Ret by exact Hpop. erewrite bind_Ret by done.
      erewrite bind_Ret by (by eapply on_partition_status). done. }
    cbn [length worker_drain]. by erewrite bind_Ret by exact Hpop. }
  erewrite bind_Ret by exact Hfin. erewrite on_partition_Ret; [|exact Hp1|done].
  unfold w1. by rewrite put_part_twice.
Qed.

Lemma z_closelp_idle scheds uid lp_id w l a p ol :
  partition_lock w = false -> registry w -> user_to_partition_map w !! uid = Some l ->
  first_with w (has_id lp_id) l = Some a -> w_parts w !! a = Some p ->
  p_status p = Some OPEN -> io_queue p = Some [] -> partition_locked p = false ->
  open_partition_list w !! mk_flag p = Some ol -> all_live w ol ->
  z_closelp vec_realloc scheds uid lp_id w
  = Ret (p_id p) (set_open (<[mk_flag p := erased (w_parts w) lp_id ol]> (open_partition_list w)) (put_part a (closed p) w)).
Proof.
  intros Hk Hr Hu Hf Hp Hst Hq Hl Hol Hoall. pose proof (rg_live w Hr uid l Hu) as Hlive.
  pose proof (rg_ids w Hr a p Hp) as Hid. pose proof (rg_next w Hr).
  unfold z_closelp. erewrite bind_Ret by (by apply lock_global_ok). rewrite bind_gets.
  change (user_to_partition_map (holding w)) with (user_to_partition_map w). rewrite Hu.
  unfold mbind at 1, prog_bind at 1. erewrite bind_Ret by (by apply find_partition_ok).
  change (first_with (holding w)) with (first_with w). rewrite Hf.
  erewrite bind_Ret by (by apply (on_partition_gets a id p)). unfold id at 1.
  erewrite bind_Ret; cycle 1.
  { unfold open_list. rewrite bind_gets. unfold get_mkflag. cbn. by rewrite Hol. }
  erewrite bind_Ret by (by apply erase_id_ok).
  change (w_parts (holding w)) with (w_parts w). unfold get_mkflag.
  set (w1 := set_open (<[mk_flag p := erased (w_parts w) lp_id ol]> (open_partition_list w)) w).
  erewrite (bind_Ret (modify _)); cycle 1.
  { unfold modify. change (set_open _ (holding w)) with (holding w1). done. }
  erewrite bind_Ret by (by apply on_partition_lock). 
  erewrite bind_Ret; cycle 1.
  { apply (close_idle scheds a (set_plock true p)); try done. by apply (put_part_lookup a p). }
  rewrite put_part_twice.
  erewrite bind_Ret; cycle 1.
  { apply (on_partition_unlock a (closed (set_plock true p))); [|done]. by apply (put_part_lookup a p). }
  rewrite put_part_twice. unfold mret, prog_ret, get_id. rewrite i32_small by lia.
  erewrite bind_Ret; cycle 1.
  { change (put_part a _ (holding w1)) with (holding (put_part a (set_plock false (closed (set_plock true p))) w1)).
    by apply unlock_holding. }
  f_equal. unfold w1, put_part, set_open, set_parts. cbn. do 3 f_equal.
  unfold closed, set_plock, set_worker, set_queue, set_status. cbn. by rewrite Hl.
Qed.

(** ** The life of a partition *)

Lemma registry_put a p p' w :
  w_parts w !! a = Some p -> p_id p' = p_id p -> p_name p' = p_name p ->
  registry w -> registry (put_part a p' w).
Proof.
  intros Hp Hid Hname [R1 R2 R3 R4 R5].
  assert (forall b q, w_parts (put_part a p' w) !! b = Some q ->
    exists q', w_parts w !! b = Some q' /\ p_id q' = p_id q) as Hback.
  { intros b q Hq. destruct (decide (b = a)) as [->|Hb].
    - rewrite (put_part_lookup a p) in Hq by done. injection Hq as <-. by exists p.
    - cbn in Hq. rewrite list_lookup_insert_ne in Hq by done. by exists q. }
  assert (forall b, name_of (put_part a p' w) b = name_of w b) as Hn.
  { intros b. unfold name_of. destruct (decide (b = a)) as [->|Hb].
    - rewrite (put_part_lookup a p), Hp by done. cbn. by rewrite Hname.
    - cbn. by rewrite list_lookup_insert_ne. }
  split; [done|..].
  - intros b q (q' & Hq & <-)%Hback. by eapply R2.
  - intros b c q r (q' & Hq & Hi)%Hback (r' & Hr & Hj)%Hback Heq. eapply R3; [done..|congruence].
  - intros uid l Hl. eapply Forall_impl; [by eapply R4|]. cbn. intros b. rewrite !list_lookup_insert.
    case_decide as Hb; [by eexists|done].
  - intros uid l Hl. rewrite (list_fmap_ext _ (name_of w)); [by eapply R5|]. intros. apply Hn.
Qed.

Lemma registry_open m w : registry w -> registry (set_open m w).
Proof. intros [R1 R2 R3 R4 R5]. by split. Qed.

Lemma find_snoc {A} (f : A -> bool) l x :
  Forall (fun y => f y = false) l -> f x = true -> List.find f (l ++ [x]) = Some x.
Proof. intros Hl Hx. induction Hl as [|y l Hy Hl IH]; cbn; [by rewrite Hx|]. by rewrite Hy. Qed.

(** A new partition is the one found under its name and under its id. *)
Lemma with_new_found uid name cnt flags i w :
  registry w -> name_free w uid name ->
  let w' := with_new uid name cnt flags i w in
  let l := partitions_of w uid ++ [length (w_parts w)] in
  user_to_partition_map w' !! uid = Some l /\
  first_with w' (has_name name) l = Some (length (w_parts w)) /\
  first_with w' (has_id (next_partition_id w)) l = Some (length (w_parts w)) /\
  w_parts w' !! length (w_parts w) = Some (new_Partition junk_word (next_partition_id w) name cnt flags).
Proof.
  intros Hr Hfree w' l. set (np := new_Partition junk_word (next_partition_id w) name cnt flags).
  assert (w_parts w' !! length (w_parts w) = Some np) as Hnew.
  { cbn. by rewrite lookup_app_r, Nat.sub_diag. }
  assert (Forall (fun b => exists q, w_parts w !! b = Some q /\ w_parts w' !! b = Some q /\ p_name q <> name)
    (partitions_of w uid)) as Hold.
  { apply Forall_forall. intros b Hb. pose proof (partitions_live w uid Hr) as Hl.
    unfold all_live in Hl. rewrite Forall_forall in Hl. destruct (Hl b Hb) as [q Hq]. exists q.
    split; [done|]. split; [cbn; by apply lookup_app_l_Some|]. intros Hn. apply Hfree.
    apply list_elem_of_fmap. exists b. split; [|done]. unfold name_of. rewrite Hq. cbn. congruence. }
  split; [cbn; by rewrite lookup_insert_eq|]. split; [|split; [|done]]; apply find_snoc.
  - eapply Forall_impl; [exact Hold|]. cbn. intros b (q & _ & -> & Hq). unfold has_name.
    by apply bool_decide_false.
  - rewrite Hnew. unfold has_name. by apply bool_decide_true.
  - eapply Forall_impl; [exact Hold|]. cbn. intros b (q & Hq & -> & _). unfold has_id, get_id.
    pose proof (rg_ids w Hr b q Hq). apply Z.eqb_neq. lia.
  - rewrite Hnew. unfold has_id, get_id. apply Z.eqb_refl.
Qed.

Lemma erased_new ps lp_id ol a p :
  Forall (fun b => forall q, ps !! b = Some q -> p_id q <> lp_id) ol ->
  ps !! a = Some p -> p_id p = lp_id -> erased ps lp_id (ol ++ [a]) = ol.
Proof.
  intros Hol Hp Hid. induction Hol as [|b ol Hb Hol IH]; cbn [app erased].
  - rewrite Hp. cbn. by rewrite Hid, bool_decide_true.
  - rewrite bool_decide_false, IH; [done|]. destruct (ps !! b) eqn:E; cbn; [|done].
    intros [= He]. by eapply Hb.
Qed.

(** A closed partition cannot be used again: its status was deleted. *)
Lemma open_closed_ub uid name flags w l a p :
  partition_lock w = false -> user_to_partition_map w !! uid = Some l -> all_live w l ->
  first_with w (has_name name) l = Some a -> w_parts w !! a = Some p -> p_status p = None ->
  z_openlp uid name flags w = UB.
Proof.
  intros Hk Hu Hl Hf Hp Hst. unfold z_openlp.
  erewrite bind_Ret by (by apply lock_global_ok). rewrite bind_gets.
  change (user_to_partition_map (holding w)) with (user_to_partition_map w). rewrite Hu.
  unfold mbind at 1, prog_bind at 1. erewrite bind_Ret by (by apply find_partition_ok).
  change (first_with (holding w)) with (first_with w). rewrite Hf.
  unfold mbind at 1, prog_bind at 1. unfold on_partition at 1.
  change (w_parts (holding w)) with (w_parts w). rewrite Hp. unfold Partition_open.
  by rewrite bind_gets, Hst.
Qed.
End Registry.
