(* ===== verification/Demo.v ===== *)
(** A small store on the simulated device: four zones of two I/Os each, in two
    groups, and one open partition with an empty stream. The hypotheses of the
    theorems are met by it. *)
From S2P Require Import Prelude Nvme Controller Init SimDevice Zone Stripe Transfer Rounds.
From S2P Require Import Roundtrip Izg Partition Userdata UserdataSpec AppendSpec.
From S2P Require Import StreamSpec CapacitySpec IoRequest Zoad ZoadSpec Registry.
From stdpp Require Import base numbers list gmap strings.
From Stdlib Require Import ZArith Lia.
Local Open Scope Z_scope.

Definition demo_nvme : NvmeDevice := sim_nvme 768 4.
#[global] Instance demo_zns : ZnsDevice demo_nvme 768 4 := sim_zns 768 4 eq_refl eq_refl.

(** The state in which [f z] blocks of zone [z] are written. *)
Definition demo_desc (f : Z -> Z) (z : Z) : zone_descriptor :=
  ZoneDescriptor 2 1 false false false false 768 (z * 768) (z * 768 + f z).
Definition demo_info : zns_info :=
  ZnsInfo 3 3072 3072 0 0 0 0 0 0 0 0 14 14 0 0 (ZoneFormat 768 0 0) 4.
Definition demo_ctl_at (f : Z -> Z) (m : memory) : @ctl demo_nvme :=
  @Ctl demo_nvme (Sim (fun _ => []) (fun z => z * 768 + f z)) m demo_info (demo_desc f <$> [0; 1; 2; 3]).
Definition demo_ctl : memory -> @ctl demo_nvme := demo_ctl_at (fun _ => 0).

Lemma four (z : Z) : 0 <= z < 4 -> z = 0 \/ z = 1 \/ z = 2 \/ z = 3.
Proof. lia. Qed.

Lemma demo_ctl_at_ok f m : (forall z, 0 <= f z <= 768) -> ctl_ok (zs:=768) (nz:=4) (demo_ctl_at f m).
Proof.
  intros Hf. split; try done. intros z Hz. exists (demo_desc f z). pose proof (Hf z) as Hfz. split.
  - destruct (four z Hz) as [-> | [-> | [-> | ->]]]; reflexivity.
  - split; [done|]. cbn -[Z.mul Z.add]. split; [|lia]. unfold sim_pointer. cbn -[Z.mul Z.add].
    symmetry. apply u64_small. lia.
Qed.

Lemma demo_ctl_ok m : ctl_ok (zs:=768) (nz:=4) (demo_ctl m).
Proof. apply demo_ctl_at_ok. lia. Qed.

Lemma demo_wp f m z : 0 <= z < 4 -> host_wp (demo_ctl_at f m) z = z * 768 + f z.
Proof. intros Hz. destruct (four z Hz) as [-> | [-> | [-> | ->]]]; reflexivity. Qed.

(** ** Groups and partition *)

Definition demo_izg : izg_st := set_counts 2 (build_izgs 2 4 no_izg).

Lemma demo_drawn : drawn 2 4 0 demo_izg.
Proof. destruct (build_izgs_drawn 2 4) as [H1 H2]; [lia|lia|]. by split. Qed.

Lemma demo_supply m : supply (zs:=768) (nz:=4) (demo_ctl m) demo_izg [].
Proof.
  assert (queued demo_izg = [0; 2; 1; 3]) as Hq by reflexivity. split; rewrite Hq.
  - apply (bool_decide_unpack _). vm_compute. exact I.
  - repeat constructor; lia.
  - repeat constructor.
Qed.

(** A partition of [n] lanes with the stream "log". *)
Definition demo_partition (n : Z) : Partition :=
  MkPartition 1 "lp" n QOS_PARTITION 0 (Some OPEN) (Some []) true {["log"%string := 0%nat]} [] false.

Definition demo_ust (n : Z) (m : memory) : @ust demo_nvme :=
  @Ust demo_nvme (@Zst demo_nvme (demo_ctl m) []) demo_izg (demo_partition n).

Lemma demo_balanced (n : nat) m :
  (n = 1 \/ n = 2)%nat -> balanced (zs:=768) (nz:=4) (demo_ust (Z.of_nat n) m) n 0 [] [].
Proof.
  intros Hn. split; cbn [u_z u_izg u_part z_ctl demo_ust]; try done.
  - apply demo_ctl_ok.
  - unfold good_cnt. lia.
  - by right.
  - apply demo_supply.
Qed.

Lemma demo_ready (n : nat) m :
  (n = 1 \/ n = 2)%nat -> ready (zs:=768) (nz:=4) 2 (demo_ust (Z.of_nat n) m) n (2 * (4 / n)).
Proof.
  intros Hn. exists 0%nat, [], [], 2, 4, 0. split; [by apply demo_balanced|].
  split; [done|]. split; [apply demo_drawn|]. split; [lia|]. split; [lia|]. split; [lia|].
  destruct Hn as [-> | ->]; reflexivity.
Qed.

Lemma demo_stored n z : stored (zs:=768) (nz:=4) n z (new_Userdata 7) [].
Proof. split; try done. by exists []. Qed.

(** A partition of [n] lanes that drew its first group, whose zones have
    [768 - x] blocks left. *)
Definition demo_drawn_izg (n : nat) : izg_st :=
  match draws n demo_izg with Some (_, i) => i | None => demo_izg end.
Definition demo_grown (n : nat) (x : Z) (m : memory) : @ust demo_nvme :=
  @Ust demo_nvme (@Zst demo_nvme (demo_ctl_at (fun z => if z <? Z.of_nat n then x else 0) m) [])
    (demo_drawn_izg n) (set_zone_vector ((fun z => MkZone z []) <$> seqZ 0 (Z.of_nat n)) (demo_partition (Z.of_nat n))).

Lemma demo_grown_balanced (n g : nat) m :
  (n = 1 \/ n = 2)%nat -> (g <= 2)%nat ->
  balanced (zs:=768) (nz:=4) (demo_grown n (768 - IO_BLOCKS * Z.of_nat g) m) n g [] (seqZ 0 (Z.of_nat n)).
Proof.
  intros Hn Hg. unfold IO_BLOCKS.
  assert (queued (demo_drawn_izg n) = if (n =? 1)%nat then [2; 1; 3] else [2; 3]) as Hq.
  { destruct Hn as [-> | ->]; reflexivity. }
  split; cbn [u_z u_izg u_part z_ctl demo_grown]; try done.
  - apply demo_ctl_at_ok. intros z. destruct (z <? _); lia.
  - unfold good_cnt. lia.
  - unfold zone_numbers. cbn. rewrite <- list_fmap_compose. destruct Hn as [-> | ->]; reflexivity.
  - apply Forall_forall. intros z Hz%elem_of_seqZ. unfold free_blocks. rewrite demo_wp by lia.
    rewrite (proj2 (Z.ltb_lt _ _)); unfold IO_BLOCKS; lia.
  - left. rewrite length_seqZ. lia.
  - split; cbn [app]; rewrite Hq.
    + destruct Hn as [-> | ->]; apply (bool_decide_unpack _); vm_compute; exact I.
    + destruct Hn as [-> | ->]; repeat constructor; lia.
    + destruct Hn as [-> | ->]; repeat constructor.
Qed.

Lemma demo_grown_ready (n g : nat) m :
  (n = 1 \/ n = 2)%nat -> (g <= 2)%nat ->
  ready (zs:=768) (nz:=4) 2 (demo_grown n (768 - IO_BLOCKS * Z.of_nat g) m) n (g + 2 * ((4 - n) / n)).
Proof.
  intros Hn Hg. destruct (draws_next 2 4 n 0 demo_izg ltac:(lia) ltac:(lia) ltac:(lia) ltac:(lia) demo_drawn)
    as (i & Hd & Hdr & _).
  exists g, [], (seqZ 0 (Z.of_nat n)), 2, 4, (Z.of_nat n). split; [by apply demo_grown_balanced|].
  split; [by destruct Hn as [-> | ->]|]. split.
  { unfold demo_grown, demo_drawn_izg. cbn [u_izg]. by rewrite Hd. }
  split; [lia|]. split; [lia|]. split; [lia|]. do 2 f_equal. f_equal. lia.
Qed.

(** A vector that doubles its capacity when it is full. *)
Definition doubling (sz : nat) : bool := (sz =? 0)%nat || (2 ^ Nat.log2 sz =? sz)%nat.

(** ** Memory: a source and a target buffer *)

(** The content of [k] I/Os. *)
Definition demo_bytes (k : nat) : list Byte.byte := replicate (Z.to_nat (IO_SIZE * Z.of_nat k)) Byte.x41.

Lemma length_demo_bytes k : Z.of_nat (length (demo_bytes k)) = IO_SIZE * Z.of_nat k.
Proof. unfold demo_bytes. rewrite length_replicate. unfold IO_SIZE, _192KB. lia. Qed.

Definition demo_mem (src dst : list Byte.byte) : memory := <[0%nat := src]> (<[1%nat := dst]> ∅).
(** The content of one block. *)
Definition one_block : list Byte.byte := replicate 512 Byte.x41.

Definition demo_src : ptr := Ptr 0 0.
Definition demo_dst : ptr := Ptr 1 0.

Lemma load_demo_src b t : load (demo_mem b t) demo_src (Z.of_nat (length b)) = Some b.
Proof. apply load_fresh. Qed.

Lemma load_demo_dst b t : load (demo_mem b t) demo_dst (Z.of_nat (length t)) = Some t.
Proof.
  transitivity (load (<[1%nat := t]> (∅ : memory)) demo_dst (Z.of_nat (length t))); [|apply load_fresh].
  unfold load. cbn [demo_dst p_blk]. unfold demo_mem. by rewrite lookup_insert_ne by done.
Qed.

(** ** The store *)

Definition demo_world (n : Z) (m : memory) : @world demo_nvme :=
  @World demo_nvme (@Zst demo_nvme (demo_ctl m) []) demo_izg [demo_partition n]
    [Some (0%nat, new_Userdata 7)] [] 2 {[5 := [0%nat]]} (<[0 := []]> {[1 := [0%nat]]}) false.

Lemma demo_streaming (n : nat) m :
  (n = 1 \/ n = 2)%nat ->
  streaming (zs:=768) (nz:=4) 2 (demo_world (Z.of_nat n) m) 0 0 (demo_partition (Z.of_nat n))
    (new_Userdata 7) n (2 * (4 / n)) [].
Proof. intros Hn. split; try done. - apply demo_stored. - by apply demo_ready. Qed.

Lemma demo_registry n m : registry (demo_world n m).
Proof.
  assert (forall a p, w_parts (demo_world n m) !! a = Some p -> a = 0%nat /\ p = demo_partition n) as Hone.
  { intros [|a] p H; cbn in H; [by injection H as <-|done]. }
  assert (forall uid l, user_to_partition_map (demo_world n m) !! uid = Some l -> l = [0%nat]) as Hmap.
  { intros uid l H. cbn in H. by apply lookup_singleton_Some in H as [_ <-]. }
  split.
  - cbn. lia.
  - intros a p [_ ->]%Hone. cbn. lia.
  - by intros a b p p' [-> _]%Hone [-> _]%Hone _.
  - intros uid l ->%Hmap. repeat constructor. by eexists.
  - intros uid l ->%Hmap. apply NoDup_singleton.
Qed.

Lemma demo_reaches n m : reaches (demo_world n m) 5 1 0.
Proof.
  split; [done|]. exists [0%nat]. split; [done|]. split; [|done]. repeat constructor. by eexists.
Qed.

Lemma demo_queueing (n : Z) k m : queueing (demo_world n m) 0 0 (demo_partition n) k "log" [].
Proof. split; try done; constructor. Qed.

Lemma demo_buffers b t (n k : nat) :
  (0 < k)%nat -> Z.of_nat (length b) = IO_SIZE * Z.of_nat (n * k) ->
  buffers (demo_mem b t) n [(demo_src, k); (demo_src, k)] [b; b].
Proof.
  intros Hk Hb.
  assert ((0 < k)%nat /\ load (demo_mem b t) demo_src (IO_SIZE * Z.of_nat (n * k)) = Some b) as H
    by (split; [done|rewrite <- Hb; apply load_demo_src]).
  constructor; [exact H|]. constructor; [exact H|]. constructor.
Qed.
