(* ===== verification/DeviceThms.v ===== *)
(** The device layer: theorems about the NVMe requests of controller.c. *)
From S2P Require Import Prelude Nvme Controller Init SimDevice Zone Stripe Transfer Rounds.
From S2P Require Import Roundtrip Izg Partition Userdata UserdataSpec AppendSpec.
From S2P Require Import StreamSpec CapacitySpec IoRequest Zoad ZoadSpec Registry Demo.
From stdpp Require Import base numbers list gmap strings.
From Stdlib Require Import ZArith Lia.
Local Open Scope Z_scope.

Section Requests.
Context `{D : NvmeDevice} {zs nz : Z} `{Zd : !ZnsDevice D zs nz}.
Implicit Types (c : ctl) (z : Z).

(** Blocks written to a zone with room come back: [zns_write] appends them
    at the cached write pointer, advances it in step with the device and leaves
    every other zone alone, and [zns_read] of these blocks into [q] then
    delivers exactly the bytes written. *)
Theorem zns_write_read c p q n z bs :
  ctl_ok (zs:=zs) (nz:=nz) c -> 0 <= z < nz -> 0 < n <= 2 ^ 16 -> n <= free_blocks (zs:=zs) c z ->
  load (host_mem c) p (n * BLOCK_SIZE) = Some bs -> is_Some (load (host_mem c) q (n * BLOCK_SIZE)) ->
  exists c1 c2, zns_write p (n * BLOCK_SIZE) z c = Ret 0 c1 /\ ctl_ok (zs:=zs) (nz:=nz) c1 /\
    host_wp c1 z = host_wp c z + n /\
    (forall z', 0 <= z' < nz -> z' <> z -> host_wp c1 z' = host_wp c z') /\
    (forall lba, lba < host_wp c z \/ host_wp c z + n <= lba ->
       lba_data (device c1) lba = lba_data (device c) lba) /\
    zns_read q (n * BLOCK_SIZE) z (host_wp c z) c1 = Ret 0 c2 /\
    ctl_ok (zs:=zs) (nz:=nz) c2 /\ load (host_mem c2) q (n * BLOCK_SIZE) = Some bs.
Proof.
  intros Hok Hz Hn Hfree Hload Hq.
  destruct (zns_write_ok c p n z bs) as (c1 & Hw & [W1 W2 W3 W4 W5 W6]); try done.
  pose proof (host_wp_range c z Hok Hz) as Hr. pose proof (ok_pos c Hok).
  pose proof (load_length _ _ _ _ Hload) as Hlen.
  destruct (store_is_Some (host_mem c1) (host_mem c1) q bs) as [m' Hm']; [done|by rewrite Hlen, W2|].
  destruct (zns_read_ok (zs:=zs) (nz:=nz) c1 q n z (host_wp c z) m') as (c2 & Hrd & Hs); try done.
  { nia. } { unfold free_blocks in Hfree. nia. } { by rewrite W5. }
  exists c1, c2. do 6 (split; [done|]). split.
  - rewrite <- Hs. by apply ctl_ok_mem.
  - rewrite (same_mem _ _ Hs). cbn. rewrite <- Hlen. by eapply load_store_eq.
Qed.

(** A reset the device accepts empties the zone for host and device alike:
    the whole zone is free again, the cache stays coherent, no other zone's
    write pointer and no block outside the zone changes. *)
Theorem zns_reset_empties_zone c z :
  ctl_ok (zs:=zs) (nz:=nz) c -> 0 <= z < nz ->
  (forall r d m, ioctl (device c) (host_mem c) (NVME_IOCTL_IO_CMD
     (Passthru 121 0 0 1 0 0 0 null_addr 0 0 (Z.land (z * zs) 4294967295)
        (u32 (Z.shiftr (z * zs) 32)) 0 MAN_RESET 0 0 0 0)) = (r, d, m) -> r = 0) ->
  exists c', zns_set_zone z MAN_RESET c = Ret tt c' /\ ctl_ok (zs:=zs) (nz:=nz) c' /\
    free_blocks (zs:=zs) c' z = zs /\ opened_zone_num (info c') = opened_zone_num (info c) /\
    (forall z', 0 <= z' < nz -> z' <> z -> host_wp c' z' = host_wp c z') /\
    (forall lba, lba < z * zs \/ (z + 1) * zs <= lba ->
       lba_data (device c') lba = lba_data (device c) lba).
Proof.
  intros Hok Hz Hacc. pose proof (ok_pos c Hok). pose proof (ok_fits c Hok).
  unfold zns_set_zone, zns_management_send, call_ioctl. prog_simpl.
  assert ((z <? 0) = false) as Hz0 by lia. rewrite Hz0, (ok_zsze c Hok). cbn [negb andb].
  rewrite (u64_small (z * zs)) by nia.
  change (MAN_RESET =? MAN_OPEN) with false. cbn [andb]. cbn beta iota zeta.
  change (Z.lor (Z.lor 0 MAN_RESET) 0) with MAN_RESET.
  destruct (ioctl _ _ _) as [[r d] m] eqn:Hio.
  assert (r = 0) as -> by exact (Hacc _ _ _ eq_refl).
  apply (reset_law _ _ _ z) in Hio as (-> & Hw & Hother & Hframe); try done; cycle 1.
  { cbn [pc_cdw10 pc_cdw11]. assert (0 <= z * zs < 2 ^ 32) as Hlba by nia.
    rewrite (Z.land_ones _ 32), Z.shiftr_div_pow2 by lia.
    rewrite Z.mod_small, (Z.div_small (z * zs)) by done. change (u32 0) with 0. lia. }
  cbn beta iota zeta. change (0 =? -1) with false. cbn beta iota.
  destruct (desc_at_ok c z Hok Hz) as (zd & _ & Hl & Hs & _).
  change (MAN_RESET =? MAN_CLOSE) with false. change (MAN_RESET =? MAN_RESET) with true.
  cbn beta iota. unfold desc_at. cbn [zone_desc_list set_device]. rewrite Hz0, Hl.
  cbn beta iota. eexists. split; [done|].
  assert (forall z' zd', 0 <= z' -> zone_desc_list c !! Z.to_nat z' = Some zd' ->
    alter (set_wp (start_lba zd)) (Z.to_nat z) (zone_desc_list c) !! Z.to_nat z'
    = Some (if decide (z' = z) then set_wp (start_lba zd) zd' else zd')) as Hlook.
  { intros. apply lookup_put_wp; lia || done. }
  unfold free_blocks, host_wp. cbn [device host_mem info zone_desc_list set_descs set_device].
  split; [|split; [|split; [|split]]].
  - split; cbn; [apply (ok_zsze c Hok)|done..|].
    intros z' Hz'. destruct (ok_zones c Hok z' Hz') as (zd' & Hl' & Hs' & Hw' & Hr').
    eexists. split; [apply Hlook; lia || done|].
    destruct (decide (z' = z)) as [->|]; cbn.
    + rewrite Hw, Hs. split; [done|]. lia.
    + rewrite Hother by done. done.
  - rewrite (Hlook z zd) by (lia || done). rewrite decide_True by done. cbn. lia.
  - done.
  - intros z' Hz' Hne. destruct (ok_zones c Hok z' Hz') as (zd' & Hl' & _).
    rewrite (Hlook z' zd') by (lia || done). by rewrite decide_False, Hl'.
  - done.
Qed.

(** A write the device refuses ends the program: [zns_write_request] treats
    every non-zero completion as fatal and no caller sees the error. *)
Theorem refused_write_exits c p size z zd r d m :
  zone_desc_list c !! Z.to_nat z = Some zd -> 0 <= z ->
  ioctl (device c) (host_mem c) (NVME_IOCTL_SUBMIT_IO
    (UserIo 1 0 1024 (u16 (nblocks_of size)) 0 0 p (wp zd) 0 0 0 0)) = (r, d, m) -> r <> 0 ->
  zns_write p size z c = Exit (set_device d m c).
Proof.
  intros Hl Hz Hio Hr. unfold zns_write, desc_at. unfold mbind at 1, prog_bind at 1.
  rewrite (proj2 (Z.ltb_ge z 0)), Hl by done. unfold zns_write_request, call_ioctl, mbind, prog_bind.
  rewrite Hio. by rewrite (proj2 (Z.eqb_neq r 0)).
Qed.
End Requests.

Section StartUp.
Context `{D : NvmeDevice}.
Context (junk : nat -> list Byte.byte) (shr32 : Z -> Z).

(** C34. Start-up with a report that is answered with [n] descriptors, at most
    the 1024 asked for, whatever their bytes are. When the namespace has [n]
    zones the call returns, the array is exactly the decoded descriptors of the
    report, the zone count is [n], and the rest of the state is as the request
    left it, with the report's buffer freed. When the namespace has fewer zones
    than the report has descriptors the copy runs past the array. *)
Theorem init_copies_report fuel c bs c1 partial option from cnt :
  report_answer junk shr32 c bs c1 -> 0 < report_count bs <= REPORT_NUM ->
  Z.of_nat (length (zone_desc_list c)) = max_zone_cnt (info c) ->
  let init := zns_get_zone_desc junk shr32 (S (S fuel)) partial option from cnt true c in
  (max_zone_cnt (info c) = report_count bs ->
   exists c', init = Ret tt c' /\
     length (zone_desc_list c') = Z.to_nat (report_count bs) /\
     (forall z, 0 <= z < report_count bs ->
        zone_desc_list c' !! Z.to_nat z = Some (decode_descriptor (sub bs (DESC_SIZE * (z + 1)) DESC_SIZE))) /\
     max_zone_cnt (info c') = report_count bs /\ zonef (info c') = zonef (info c) /\
     device c' = device c1 /\ host_mem c' = host_mem c1) /\
  (0 < max_zone_cnt (info c) < report_count bs -> init = UB).
Proof.
  intros Ha Hn Hlen init. unfold REPORT_NUM in Hn.
  assert (info c1 = info c) as Hi by (destruct Ha as (r & d' & m' & _ & _ & _ & ->); done).
  unfold init, zns_get_zone_desc. rewrite bind_gets. split; intros Hmax.
  - set (ds := report_descs bs 0 (Z.to_nat (report_count bs))).
    assert (overwrite (zone_desc_list c) 0 ds = ds) as Hds.
    { unfold overwrite. cbn. unfold ds, report_descs. rewrite length_fmap, length_seq, drop_ge by lia.
      by rewrite app_nil_r. }
    pose proof (one_report_ok junk shr32 c bs c1 0 Ha ltac:(unfold REPORT_NUM; lia) ltac:(lia) ltac:(lia)) as Hr.
    fold ds in Hr. rewrite Hds in Hr.
    assert (init_loop junk shr32 (S (S fuel)) 0 0 c = Ret (report_count bs) (set_descs ds c1)) as Hloop.
    { cbn [init_loop]. rewrite bind_gets. rewrite (proj2 (Z.ltb_lt 0 _)) by lia.
      erewrite bind_Ret by exact Hr. rewrite bind_gets. cbn [info set_descs].
      by rewrite Hi, Hmax, !Z.add_0_l, u32_small, Z.ltb_irrefl by lia. }
    erewrite bind_Ret by exact Hloop. eexists. split; [done|].
    cbn [zone_desc_list set_info set_descs info max_zone_cnt set_max_zone_cnt zonef device host_mem].
    split; [by unfold ds, report_descs; rewrite length_fmap, length_seq|]. split.
    + intros z Hz. unfold ds, report_descs. rewrite list_lookup_fmap, lookup_seq_lt by lia. cbn.
      by rewrite Z2Nat.id by lia.
    + by rewrite Hi.
  - apply bind_UB. cbn [init_loop]. rewrite bind_gets, (proj2 (Z.ltb_lt 0 _)) by lia. apply bind_UB.
    apply (one_report_overflow junk shr32 c bs c1); unfold REPORT_NUM; (done || lia).
Qed.

(** When every report has 1024 descriptors and the namespace has a number of
    zones that is not a multiple of 1024, start-up writes past the descriptor
    array: every iteration asks for the report from block 0 on again. *)
Theorem init_overflows fuel c partial option from cnt :
  (forall c, exists bs c', report_answer junk shr32 c bs c' /\ report_count bs = REPORT_NUM) ->
  let nz := max_zone_cnt (info c) in
  nz + REPORT_NUM < 2 ^ 32 -> nz mod REPORT_NUM <> 0 -> 0 <= nz ->
  Z.of_nat (length (zone_desc_list c)) = nz -> nz / REPORT_NUM < Z.of_nat fuel ->
  zns_get_zone_desc junk shr32 fuel partial option from cnt true c = UB.
Proof.
  intros Hans nz H32 Hmod Hnz Hlen Hf. unfold zns_get_zone_desc. rewrite bind_gets. apply bind_UB.
  pose proof (init_loop_overflow junk shr32 fuel 0 c Hans H32 Hmod Hlen) as Hub.
  rewrite Z.mul_0_r in Hub. apply Hub; fold nz; [|lia].
  split; [lia|]. apply Z.div_pos; unfold REPORT_NUM in *; lia.
Qed.
End StartUp.

(** ** The theorems on the demo device *)

Lemma zns_write_read_witness :
  exists c1 c2, zns_write demo_src 512 1 (demo_ctl (demo_mem one_block one_block)) = Ret 0 c1 /\
    zns_read demo_dst 512 1 768 c1 = Ret 0 c2 /\ load (host_mem c2) demo_dst 512 = Some one_block.
Proof.
  destruct (zns_write_read (D:=demo_nvme) (zs:=768) (nz:=4) (demo_ctl (demo_mem one_block one_block))
    demo_src demo_dst 1 1 one_block) as (c1 & c2 & H1 & _ & _ & _ & _ & H6 & _ & H8).
  - apply demo_ctl_ok.
  - lia.
  - lia.
  - unfold free_blocks. rewrite (demo_wp (fun _ => 0)) by lia. lia.
  - apply (load_demo_src one_block one_block).
  - exists one_block. apply (load_demo_dst one_block one_block).
  - exact (ex_intro _ c1 (ex_intro _ c2 (conj H1 (conj H6 H8)))).
Defined.

Lemma zns_reset_empties_zone_witness :
  exists c', zns_set_zone 2 MAN_RESET (demo_ctl_at (fun _ => 768) ∅) = Ret tt c' /\
    free_blocks (zs:=768) c' 2 = 768.
Proof.
  destruct (zns_reset_empties_zone (D:=demo_nvme) (zs:=768) (nz:=4) (demo_ctl_at (fun _ => 768) ∅) 2)
    as (c' & H1 & _ & H3 & _).
  - apply demo_ctl_at_ok. lia.
  - lia.
  - intros r d m [= <- _ _]. reflexivity.
  - exact (ex_intro _ c' (conj H1 H3)).
Defined.

(** A buffer that is not mapped is refused. *)
Lemma refused_write_exits_witness :
  zns_write demo_src 512 0 (demo_ctl ∅) = Exit (demo_ctl ∅).
Proof.
  apply (refused_write_exits (demo_ctl ∅) demo_src 512 0 (demo_desc (fun _ => 0) 0) (-1)
    (device (demo_ctl ∅)) ∅).
  - reflexivity.
  - lia.
  - reflexivity.
  - lia.
Defined.

Definition demo_start : @ctl demo_nvme :=
  @Ctl demo_nvme (device (demo_ctl ∅)) ∅ demo_info (replicate 4 (demo_desc (fun _ => 5) 0)).

(** The demo device has four zones; the report gives their first blocks. *)
Lemma init_copies_report_witness :
  exists c', zns_get_zone_desc (fun _ => []) (fun _ => 0) 2 REPORT_ALL REPORT_ALL_STATE 0 0 true demo_start
      = Ret tt c' /\ start_lba <$> zone_desc_list c' !! 3%nat = Some 2304.
Proof.
  destruct (sim_report_answer 768 4 (fun _ => []) (fun _ => 0) demo_start) as (c1 & Ha & _).
  destruct (init_copies_report (D:=demo_nvme) (fun _ => []) (fun _ => 0) 0 demo_start _ c1 REPORT_ALL
    REPORT_ALL_STATE 0 0 Ha) as [H _].
  - rewrite sim_report_count. split; [reflexivity|discriminate].
  - reflexivity.
  - destruct H as (c' & H1 & _ & H3 & _); [rewrite sim_report_count; reflexivity|].
    exists c'. split; [exact H1|].
    change 3%nat with (Z.to_nat 3). rewrite H3 by (rewrite sim_report_count; split; [discriminate|reflexivity]).
    rewrite sub_sim_report by (unfold REPORT_NUM; lia). cbn [fmap option_fmap option_map].
    reflexivity.
Defined.

(** A namespace of 1025 zones of one block. *)
Definition large_info : zns_info := ZnsInfo 3 1025 1025 0 0 0 0 0 0 0 0 14 14 0 0 (ZoneFormat 1 0 0) 1025.
Definition large_start : @ctl (sim_nvme 1 1025) :=
  @Ctl (sim_nvme 1 1025) (Sim (fun _ => []) (fun z => z)) ∅ large_info (replicate 1025 (demo_desc (fun _ => 0) 0)).

Lemma init_overflows_witness :
  zns_get_zone_desc (fun _ => []) (fun _ => 0) 2 REPORT_ALL REPORT_ALL_STATE 0 0 true large_start = UB.
Proof.
  apply (init_overflows (D:=sim_nvme 1 1025) (fun _ => []) (fun _ => 0) 2 large_start).
  - intros c. destruct (sim_report_answer 1 1025 (fun _ => []) (fun _ => 0) c) as (c' & Ha & _).
    exists (sim_report 1 1025 (device c) REPORT_NUM), c'. split; [exact Ha|]. rewrite sim_report_count. reflexivity.
  - reflexivity.
  - discriminate.
  - discriminate.
  - reflexivity.
  - reflexivity.
Defined.
