(* ===== verification/TransferThms.v ===== *)
(** Striped transfers and the allocation of zones: theorems about Zone.cpp and
    IZG.cpp. *)
From S2P Require Import Prelude Nvme Controller Init SimDevice Zone Stripe Transfer Rounds.
From S2P Require Import Roundtrip Izg Partition Userdata UserdataSpec AppendSpec.
From S2P Require Import StreamSpec CapacitySpec IoRequest Zoad ZoadSpec Registry Demo.
From stdpp Require Import base numbers list gmap strings.
From Stdlib Require Import ZArith Lia.
Local Open Scope Z_scope.

(** The buffer and the interval of a write. *)
Definition write_target (c : io_cmd) : option (ptr * nat) :=
  match c with WriteIo b iv => Some (b, iv) | _ => None end.

Lemma omap_bind {A B C} (f : A -> list B) (g : B -> option C) l : omap g (l ≫= f) = l ≫= (fun x => omap g (f x)).
Proof. induction l as [|x l IH]; [done|]. by rewrite !bind_cons, omap_app, IH. Qed.

Lemma targets_of_stripe buf l v v' :
  omap write_target (opens v l ++ slot_writes buf (stripe l) ++ opens v' l)
  = (fun bs => (bs.1, sl_iv bs.2)) <$> place buf (stripe l).
Proof.
  assert (forall x, omap write_target (opens x l) = []) as Ho.
  { intros x. unfold opens. induction (l.*1) as [|p t IH]; [done|]. exact IH. }
  rewrite !omap_app, !Ho, app_nil_r, slot_writes_place, omap_bind. cbn [app].
  induction (place buf (stripe l)) as [|[b s] t IH]; [done|]. rewrite bind_cons, IH.
  cbn. unfold put_cmds. cbn. by destruct (sl_last s).
Qed.

(** [thread_write] terminates, cuts its part of the buffer into consecutive
    I/Os and issues each of them exactly once in buffer order; every zone gets
    exactly its share of them. *)
Theorem thread_write_complete l buf cnt :
  NoDup l.*1 -> (0 < ios l)%nat -> IO_SIZE * Z.of_nat (ios l) < 2 ^ 32 ->
  exists cmds,
    thread_write (ZoneRequest buf l.*1 ((fun pc => Z.of_nat pc.2) <$> l) cnt (Z.of_nat (ios l))) = Some cmds /\
    (omap write_target cmds).*1 = (fun k => ptr_add buf (IO_SIZE * Z.of_nat k)) <$> seq 0 (ios l) /\
    forall p c, (p, c) ∈ l -> length (filter (fun t => t.2 = p) (omap write_target cmds)) = c.
Proof.
  intros Hnd H0 Hfit. rewrite thread_write_stripe by done. rewrite decide_False by lia.
  eexists. split; [done|]. rewrite targets_of_stripe. split.
  - apply list_eq. intros k. rewrite list_lookup_fmap, list_lookup_fmap, list_lookup_fmap, lookup_place.
    destruct (decide (k < ios l)%nat) as [Hk|Hk].
    + rewrite lookup_seq_lt by done. rewrite <- length_stripe in Hk.
      destruct (lookup_lt_is_Some_2 _ _ Hk) as [s ->]. done.
    + rewrite (proj2 (lookup_ge_None (stripe l) k)) by (rewrite length_stripe; lia).
      by rewrite (proj2 (lookup_ge_None (seq 0 (ios l)) k)) by (rewrite length_seq; lia).
  - intros p c Hp.
    assert (forall b t, filter (fun t : ptr * nat => t.2 = p) ((fun bs => (bs.1, sl_iv bs.2)) <$> place b t)
      ≡ₚ (fun bs => (bs.1, sl_iv bs.2)) <$> placed_at p (place b t)) as Hf.
    { intros b t. revert b. induction t as [|s t IH]; intros b; [done|]. cbn [place fmap list_fmap].
      rewrite filter_cons, placed_at_cons. cbn [snd fst]. repeat case_decide; try done; cbn; by rewrite IH. }
    rewrite Hf, length_fmap. rewrite <- (length_fmap snd), placed_at_snd, place_snd.
    by rewrite (of_iv_stripe l p c), length_fmap, length_seq.
Qed.

(** Planning a transfer of [w] whole I/Os over [r] groups of [n] zones gives
    every zone a number of I/Os it has room for, all of them together exactly
    [w]; all groups but the last are filled. *)
Theorem plan_conserves n r w fs g :
  (0 < n)%nat -> Z.of_nat n < 2 ^ 20 -> 384 * Z.of_nat w < 2 ^ 32 -> (0 < r)%nat ->
  length fs = (r * n)%nat -> drop ((r - 1) * n) fs = replicate n g ->
  (sum_list (take ((r - 1) * n) fs) <= w <= sum_list fs)%nat ->
  exists cs, plan_sizes r (Z.of_nat n) ((fun f => IO_BLOCKS * Z.of_nat f) <$> fs) (IO_BLOCKS * Z.of_nat w)
      = Some (Z.of_nat <$> cs) /\
    sum_list cs = w /\ Forall2 (fun c f => (c <= f)%nat) cs fs /\
    take ((r - 1) * n) cs = take ((r - 1) * n) fs.
Proof.
  intros Hn H20 Hw Hr Hlen Hlast Hsum. exists (plan n r w fs).
  split; [apply plan_sizes_plan; done || lia|]. split; [apply sum_plan; lia|].
  split; [by eapply plan_fits|]. unfold plan. rewrite take_app_length'; [done|].
  rewrite length_take, Hlen. destruct r; [lia|]. nia.
Qed.

Section TransferTheorems.
Context `{D : NvmeDevice} {zs nz : Z} `{Zd : !ZnsDevice D zs nz}.

(** C3. [izg_read] inverts [izg_write]: a buffer striped over the free space of
    [r] groups of zones is read back byte for byte, whatever the schedules of
    the writing and of the reading threads. Zones outside the transfer keep
    their write pointers, and the zones of the transfer lose exactly their share
    of free space. *)
Theorem izg_write_then_read sched sched' buf dst (n r w g : nat) sid size c ivs zones fs bs :
  good_cnt (Z.of_nat n) -> (0 < r)%nat -> length zones = (r * n)%nat -> Z.of_nat (r * n) < 2 ^ 32 ->
  ctl_ok (zs:=zs) (nz:=nz) c -> NoDup zones -> free_ios (zs:=zs) (nz:=nz) c zones fs ->
  drop ((r - 1) * n) fs = replicate n g -> (sum_list (take ((r - 1) * n) fs) <= w <= sum_list fs)%nat ->
  IO_SIZE * Z.of_nat w < 2 ^ 32 -> load (host_mem c) buf (IO_SIZE * Z.of_nat w) = Some bs ->
  is_Some (load (host_mem c) dst (IO_SIZE * Z.of_nat w)) ->
  let ptrs := new_ptrs (length ivs) (length zones) in
  exists z' c', izg_write sched buf (Z.of_nat n) (Z.of_nat (r * n)) ptrs
      ((fun f => IO_BLOCKS * Z.of_nat f) <$> fs) (IO_BLOCKS * Z.of_nat w)
      (Zst c (new_heap c sid ivs zones)) = Ret 0 z' /\
    free_ios (zs:=zs) (nz:=nz) (z_ctl z') zones (zip_with Nat.sub fs (plan n r w fs)) /\
    (forall z, 0 <= z < nz -> z ∉ zones -> host_wp (z_ctl z') z = host_wp c z) /\
    izg_read sched' dst (Z.of_nat n) (Z.of_nat (r * n)) ptrs size z' = Ret 0 (Zst c' (z_ivs z')) /\
    load (host_mem c') dst (IO_SIZE * Z.of_nat w) = Some bs /\
    same_outside (host_mem c) (host_mem c') [dst] (IO_SIZE * Z.of_nat w).
Proof.
  intros Hgood Hr Hlen H32 Hok Hnd Hf Hlast Hsum Hfit Hload Hdst ptrs.
  destruct (izg_write_new (zs:=zs) (nz:=nz) sched buf n r w g sid c ivs zones fs bs)
    as (z' & Hw & [A1 A2 A3 A4 A5 A6 A7]); try done.
  pose proof (load_length _ _ _ _ Hload) as Hbs. rewrite <- Hbs in *.
  destruct (izg_read_holds sched' dst (Z.of_nat n) ptrs size z' bs) as (c' & Hrd & _ & Hl & Hout); try done.
  { by rewrite A2. }
  rewrite A2 in Hout. exists z', c'. do 3 (split; [done|]). split; [|done].
  unfold ptrs in Hrd at 1. by rewrite length_new_ptrs, Hlen in Hrd.
Qed.
End TransferTheorems.

(** ** Zones and groups *)

(** Zones are handed out in ascending order: from the groups that
    [Identify_IZG] builds, the k-th draw yields zone k, each zone exactly once,
    and when all zones are drawn the next draw reports failure and changes
    nothing. *)
Theorem zones_drawn_in_order d total :
  0 < d <= total -> total + d < 2 ^ 31 ->
  exists s, draws (Z.to_nat total) (build_izgs d total no_izg) = Some (seqZ 0 total, s) /\
    draw_zone s = Ret (-1) s.
Proof.
  intros Hd H31.
  destruct (draws_next d total (Z.to_nat total) 0 (build_izgs d total no_izg)) as (s & Hs & Hdr & _);
    [lia..|by apply build_izgs_drawn|].
  rewrite Z2Nat.id, Z.add_0_l in * by lia. exists s. split; [done|].
  apply (draw_zone_exhausted d total); [lia|lia|done].
Qed.

(** Zones allocated one after the other are independent: any [n <= d]
    consecutive draws come from [n] different groups, so the lanes of a partition
    of up to [d] groups never share a group. *)
Theorem lanes_are_independent d total k n s :
  0 < d -> Z.of_nat n <= d -> 0 <= k -> k + Z.of_nat n <= total -> total < 2 ^ 31 -> drawn d total k s ->
  exists zones s', draws n s = Some (zones, s') /\ drawn d total (k + Z.of_nat n) s' /\
    length zones = n /\ NoDup ((fun z => z mod d) <$> zones) /\
    Forall (fun z => exists g G, 0 <= g < d /\ izgs s !! Z.to_nat g = Some G /\ z ∈ zone_queue G /\ g = z mod d) zones.
Proof.
  intros Hd Hn Hk Hfit H31 Hdr.
  destruct (draws_next d total n k s) as (s' & Hs & Hdr' & _); [done..|].
  exists (seqZ k (Z.of_nat n)), s'. split; [done|]. split; [done|].
  split; [rewrite length_seqZ; lia|]. split.
  - apply NoDup_fmap_2_strong; [|apply NoDup_seqZ]. intros x y Hx%elem_of_seqZ Hy%elem_of_seqZ He.
    pose proof (Z.div_mod x d ltac:(lia)). pose proof (Z.div_mod y d ltac:(lia)).
    destruct (Z.lt_trichotomy (x / d) (y / d)) as [|[|]]; nia.
  - apply Forall_forall. intros z Hz%elem_of_seqZ. pose proof (Z.mod_pos_bound z d Hd) as Hm.
    destruct Hdr as [_ Hg]. destruct (Hg (z mod d) Hm) as (G & HG & Hq).
    exists (z mod d), G. split; [done|]. split; [done|]. split; [|done]. rewrite Hq.
    apply group_from_elem. split; [lia|done].
Qed.

(** ** The theorems on the demo store *)

Lemma thread_write_complete_witness :
  exists cmds, thread_write (ZoneRequest demo_src [3%nat; 7%nat] [2; 1] 2 3) = Some cmds /\
    (omap write_target cmds).*1 = [Ptr 0 0; Ptr 0 196608; Ptr 0 393216].
Proof.
  destruct (thread_write_complete [(3%nat, 2%nat); (7%nat, 1%nat)] demo_src 2) as (cmds & H1 & H2 & _).
  - apply (bool_decide_unpack _). vm_compute. exact I.
  - vm_compute. lia.
  - reflexivity.
  - exact (ex_intro _ cmds (conj H1 H2)).
Defined.

Lemma plan_conserves_witness :
  exists cs, plan_sizes 2 2 [384; 768; 768; 768] 1920 = Some (Z.of_nat <$> cs) /\ sum_list cs = 5%nat.
Proof.
  destruct (plan_conserves 2 2 5 [1; 2; 2; 2]%nat 2) as (cs & H1 & H2 & _).
  - lia.
  - lia.
  - lia.
  - lia.
  - reflexivity.
  - reflexivity.
  - cbn. lia.
  - exact (ex_intro _ cs (conj H1 H2)).
Defined.

Definition striped_and_back (b : list Byte.byte) : Prop :=
  exists z' c',
    izg_write (fun _ => [1%nat; 0%nat]) demo_src 2 2 (new_ptrs 0 2) [768; 768] (IO_BLOCKS * Z.of_nat 2)
      (Zst (demo_ctl (demo_mem b b)) (new_heap (demo_ctl (demo_mem b b)) 0 [] [0; 1])) = Ret 0 z' /\
    izg_read (fun _ => []) demo_dst 2 2 (new_ptrs 0 2) 768 z' = Ret 0 (Zst c' (z_ivs z')) /\
    load (host_mem c') demo_dst (IO_SIZE * Z.of_nat 2) = Some b.

Lemma izg_write_then_read_witness : striped_and_back (demo_bytes 2).
Proof.
  unfold striped_and_back. generalize (length_demo_bytes 2). generalize (demo_bytes 2). intros b Hb.
  destruct (izg_write_then_read (D:=demo_nvme) (zs:=768) (nz:=4) (fun _ => [1%nat; 0%nat]) (fun _ => [])
    demo_src demo_dst 2 1 2 2 0 768 (demo_ctl (demo_mem b b)) [] [0; 1] [2; 2]%nat b)
    as (z' & c' & H1 & _ & _ & H4 & H5 & _).
  - unfold good_cnt. lia.
  - lia.
  - reflexivity.
  - reflexivity.
  - apply demo_ctl_ok.
  - apply (bool_decide_unpack _). vm_compute. exact I.
  - repeat constructor; try lia; unfold free_blocks; rewrite (demo_wp (fun _ => 0)) by lia; reflexivity.
  - reflexivity.
  - cbn. lia.
  - reflexivity.
  - rewrite <- Hb. apply load_demo_src.
  - exists b. rewrite <- Hb. apply load_demo_dst.
  - exact (ex_intro _ z' (ex_intro _ c' (conj H1 (conj H4 H5)))).
Defined.

Lemma zones_drawn_in_order_witness :
  exists s, draws 128 (build_izgs 32 128 no_izg) = Some (seqZ 0 128, s) /\ draw_zone s = Ret (-1) s.
Proof. apply (zones_drawn_in_order 32 128); lia. Defined.

Lemma lanes_are_independent_witness :
  exists zones s', draws 32 (build_izgs 32 128 no_izg) = Some (zones, s') /\
    NoDup ((fun z => z mod 32) <$> zones).
Proof.
  destruct (lanes_are_independent 32 128 0 32 (build_izgs 32 128 no_izg)) as (zones & s' & H1 & _ & _ & H4 & _).
  - lia.
  - lia.
  - lia.
  - lia.
  - lia.
  - apply build_izgs_drawn; lia.
  - exact (ex_intro _ zones (ex_intro _ s' (conj H1 H4))).
Defined.
