(* ===== verification/StreamThms.v ===== *)
(** Streams: theorems about [Userdata]. *)
From S2P Require Import Prelude Nvme Controller Init SimDevice Zone Stripe Transfer Rounds Roundtrip Izg Partition Userdata UserdataSpec AppendSpec StreamSpec CapacitySpec IoRequest Zoad ZoadSpec Registry Demo.
From stdpp Require Import base numbers list gmap strings.
From Stdlib Require Import ZArith Lia.
Local Open Scope Z_scope.

(** ** Short writes

    [izg_write] plans whole I/Os: of a write of less than one I/O nothing reaches the
    device although every call reports success. *)

(** One round gives the same plan as an empty write. *)
Lemma plan_sizes_short n v wb :
  0 < n < 2 ^ 20 -> 0 <= wb < IO_BLOCKS -> plan_sizes 1 n v wb = plan_sizes 1 n v 0.
Proof.
  intros Hn Hwb. cbn [plan_sizes]. unfold IO_BLOCKS in *. rewrite u32_small by lia.
  rewrite (Z.div_small wb (n * 384)), (Z.mod_small wb (n * 384)), (Z.div_small wb 384) by lia.
  by rewrite Zmod_0_l, !Zdiv_0_l.
Qed.

(** ** Memory *)

Lemma load_zero m p k : is_Some (load m p k) -> load m p 0 = Some [].
Proof.
  unfold load. destruct (m !! p_blk p) as [b|]; [|by intros [? ?]]. cbn.
  destruct (in_block b (p_off p) k) eqn:E; [|by intros [? ?]]. intros _.
  apply in_block_spec in E. rewrite (proj2 (in_block_spec b (p_off p) 0)) by lia. done.
Qed.

Section Short.
Context `{D : NvmeDevice} {zs nz : Z} `{Zd : !ZnsDevice D zs nz}.

Lemma izg_write_short sched buf n ivs v wb s :
  0 < n < 2 ^ 20 -> 0 <= wb < IO_BLOCKS ->
  izg_write sched buf n n ivs v wb s = izg_write sched buf n n ivs v 0 s.
Proof.
  intros Hn Hwb. unfold izg_write. rewrite (proj2 (Z.eqb_neq n 0)) by lia.
  unfold izg_rounds. rewrite Z.div_same, Z.mod_same by lia. cbn [Z.eqb]. change (Z.to_nat (1 + 0)) with 1%nat.
  by rewrite plan_sizes_short.
Qed.

Context (gz : nat) (Hgz : zs = IO_BLOCKS * Z.of_nat gz) (Hpos : 0 < nz) (Hgz0 : (0 < gz)%nat).

Lemma write_prepared_short sched s seg buf n g old cur wb :
  balanced (zs:=zs) (nz:=nz) s n g old cur -> length cur = n -> (0 < g)%nat -> 0 <= wb < IO_BLOCKS ->
  Z.of_nat n * zs <= 2 ^ 31 ->
  write_prepared sched seg buf (Z.of_nat n) wb s = write_prepared sched seg buf (Z.of_nat n) 0 s.
Proof.
  intros Hb Hcl Hg Hwb Hnzs. pose proof (bl_good _ _ _ _ _ Hb) as [Hn _].
  pose proof (bl_ok _ _ _ _ _ Hb) as Hok. pose proof (balanced_g gz Hgz _ _ _ _ _ Hb Hcl) as Hgle.
  destruct (balanced_zones _ _ _ _ _ Hb) as (vold & vcur & Hv & Ho & Hcu & Hfo & Hfc).
  assert (length vcur = n) as Hvl by (rewrite <- Hcl, <- Hcu; by rewrite length_fmap).
  unfold write_prepared. rewrite !bind_gets, Hv, Nat2Z.id.
  assert (IO_BLOCKS * Z.of_nat g <= zs) as Hgz' by (rewrite Hgz; unfold IO_BLOCKS; lia).
  unfold IO_BLOCKS in *. rewrite (i32_small wb), (i32_small 0) by lia.
  assert (forall t, 0 <= t < 384 -> collect_free (length (vold ++ vcur)) n t s
    = Ret (replicate n (384 * Z.of_nat g), t - Z.of_nat n * (384 * Z.of_nat g)) s) as Hcol.
  { intros t Ht. pose proof (collect_free_ok (zs:=zs) (nz:=nz) s (384 * Z.of_nat g) vold vcur [] t Hok) as H.
    rewrite app_nil_r, Hvl in H. apply H; try done; [lia|nia|lia]. }
  erewrite !bind_Ret by (apply Hcol; lia). cbn beta iota. rewrite !bind_gets.
  assert (forall fuel t ws c, t <= 0 -> grow fuel (Z.of_nat n) t ws c s = Ret (ws, c) s) as Hgrow.
  { intros fuel t ws c Ht. destruct fuel; cbn [grow]; by rewrite (proj2 (Z.ltb_ge 0 t)) by lia. }
  erewrite !bind_Ret by (apply Hgrow; nia). cbn beta iota. rewrite !bind_gets.
  unfold mbind, prog_bind. destruct (make_intervals _ _ _ _) as [ivs s1| | |]; [|done..].
  unfold zoom. rewrite izg_write_short by (unfold IO_BLOCKS; lia). done.
Qed.

(** [_write] of less than one I/O does what it does for nothing. *)
Lemma write_short vec_realloc sched s seg buf n g old cur l izg1 wb :
  balanced (zs:=zs) (nz:=nz) s n g old cur -> draws (fresh_zones n g cur) (u_izg s) = Some (l, izg1) ->
  (cur <> [] -> g = O -> moves vec_realloc (length (zone_vector (u_part s))) n = false) ->
  0 <= wb < IO_BLOCKS -> Z.of_nat n * zs <= 2 ^ 31 ->
  _write vec_realloc sched seg buf wb s = _write vec_realloc sched seg buf 0 s.
Proof.
  intros Hb Hd Hm Hwb Hnzs.
  destruct (prepare_ok vec_realloc gz Hgz Hpos s n g old cur l izg1 Hgz0 Hb Hd Hm)
    as (Hp & g1 & old1 & cur1 & Hg1 & Hcl & Hb1 & _).
  unfold _write. rewrite !bind_gets. erewrite !bind_Ret by exact Hp.
  assert (get_izg_cnt (u_part s) = Z.of_nat n) as -> by (by eapply balanced_cnt).
  by apply (write_prepared_short sched _ seg buf n g1 old1 cur1).
Qed.

(** [Append] of less than one I/O: success, and nothing is sent to the device. *)
Lemma append_short vec_realloc sched s u buf n cap bs size x :
  stored (zs:=zs) (nz:=nz) (Z.of_nat n) (u_z s) u bs -> ready (zs:=zs) (nz:=nz) gz s n cap -> (0 < cap)%nat ->
  dangles vec_realloc (length (zone_vector (u_part s))) (group_room (zs:=zs) s) n = false ->
  Z.of_nat n * zs <= 2 ^ 31 -> 0 <= to_blocks size < IO_BLOCKS -> Z.of_nat (length bs) + IO_SIZE <= 2 ^ 32 ->
  is_Some (load (host_mem (z_ctl (u_z s))) buf x) ->
  exists s' ptrs, Append vec_realloc sched buf size (Uds s u) = Ret 0 (Uds s' (appended_ud u (to_blocks size) ptrs)) /\
    z_ctl (u_z s') = z_ctl (u_z s) /\ ready (zs:=zs) (nz:=nz) gz s' n cap /\
    holds (zs:=zs) (nz:=nz) (u_z s') (Z.of_nat n) ptrs [] /\ stored (zs:=zs) (nz:=nz) (Z.of_nat n) (u_z s') u bs.
Proof.
  intros Hsto Hr Hcap Hdang Hnzs Hsz Hfit Hbuf.
  destruct (ready_draws gz Hgz0 s n cap 1 Hr ltac:(lia) ltac:(lia)) as (g & old & cur & f & izg' & l & d & total & j &
    Hb & Hcur & Hf & Hfresh & Hds & Hll & _ & Hdr & Hd & H31 & Hj & Hc). cbv zeta in *.
  set (g1 := if decide (cur = [] \/ g = O) then gz else g) in *.
  assert (0 < g1)%nat as Hg1.
  { unfold g1. case_decide as Hu; [done|]. destruct g; [|lia]. by destruct Hu; right. }
  assert (groups_needed gz 1 g1 = O) as Hr0.
  { unfold groups_needed. by rewrite (proj2 (Nat.leb_le 1 g1)) by lia. }
  rewrite Hr0, Nat.mul_0_l, Nat.add_0_r in *. rewrite Nat.mul_0_l, Nat.add_0_r in *.
  destruct (balanced_view s n g old cur Hb Hcur) as [Hroom Hempty]. rewrite Hroom in Hdang.
  assert (cur <> [] -> g = O -> moves vec_realloc (length (zone_vector (u_part s))) n = false) as Hm.
  { intros Hcn ->. unfold dangles in Hdang. rewrite (proj2 (Nat.ltb_lt 0 _)) in Hdang; [done|].
    destruct (length (zone_vector (u_part s))); [by destruct Hcn, Hempty as [-> _]|lia]. }
  rewrite <- Hfresh in Hds.
  destruct (write_ok vec_realloc gz Hgz Hpos sched s (next_segment u (to_blocks size)) buf n g old cur 0 0 l izg' [])
    as (s' & ptrs & Hw & Hdone & Hiz); try done.
  { rewrite Nat.mul_0_r. done. }
  { fold g1. split; [unfold IO_BLOCKS; nia|by left]. }
  { by rewrite Nat.mul_0_l, Nat.add_0_r. }
  { rewrite Nat.mul_0_r, Z.mul_0_r. by eapply load_zero. }
  rewrite Nat.mul_0_r, Z.mul_0_r in Hw. fold g1 in Hdone. rewrite Nat.mul_0_l, Nat.add_0_r, Nat.sub_0_r in Hdone.
  rewrite <- (write_short vec_realloc sched s _ buf n g old cur l izg' (to_blocks size)) in Hw by done.
  exists s', ptrs. unfold IO_SIZE, _192KB, IO_BLOCKS in *.
  split; [apply (append_runs vec_realloc sched s u buf (Z.of_nat n) bs); (done || unfold BLOCK_SIZE; lia)|].
  destruct Hdone as [(old' & cur' & Hb' & Hcl') _ _ _ Hholds Hkeeps _ Hidle].
  split; [by apply Hidle|]. split; [|split; [done|]].
  - exists g1, old', cur', d, total, (j + Z.of_nat (f * n)). split; [done|].
    split; [intros ->; destruct (bl_good _ _ _ _ _ Hb); cbn in Hcl'; lia|]. rewrite Hiz. do 4 (split; [done|]). lia.
  - eapply stored_keeps; [|exact Hsto]. intros q e. apply Hkeeps. by destruct Hb.
Qed.
End Short.

Section Hollow.
Context `{D : NvmeDevice} {zs nz : Z} `{Zd : !ZnsDevice D zs nz}.

(** Reading a segment that holds nothing succeeds and transfers nothing. *)
Lemma read_hollow sched c ivs iz p seg dst n x :
  good_cnt n -> get_izg_cnt p = n -> ctl_ok (zs:=zs) (nz:=nz) c ->
  holds (zs:=zs) (nz:=nz) (Zst c ivs) n (interval_vector seg) [] -> is_Some (load (host_mem c) dst x) ->
  exists c', _read sched seg dst (seg_size seg) (Ust (Zst c ivs) iz p) = Ret 0 (Ust (Zst c' ivs) iz p) /\
    same_outside (host_mem c) (host_mem c') [dst] 0.
Proof.
  intros Hgood Hcnt Hok Hh Hx. pose proof (load_zero _ _ _ Hx) as H0.
  destruct (izg_read_holds sched dst n (interval_vector seg) (seg_size seg) (Zst c ivs) [] Hgood Hok Hh)
    as (c' & Hr & _ & _ & Hout); [by exists []|].
  exists c'. split; [|done]. unfold _read. rewrite bind_gets. cbn [u_part]. rewrite Hcnt.
  destruct Hh as (r & l & Hl & _ & Hlen & _). rewrite Hl in Hr |- *. rewrite length_fmap in Hr |- *.
  rewrite u32_small by lia. by apply (zoom_Ret ust_zst).
Qed.

Lemma to_blocks_range size : 0 < size <= IO_SIZE - BLOCK_SIZE -> 0 < to_blocks size < IO_BLOCKS.
Proof.
  unfold to_blocks, IO_SIZE, _192KB, IO_BLOCKS, BLOCK_SIZE. intros Hs.
  pose proof (Z.div_mod size 512 ltac:(lia)). pose proof (Z.mod_pos_bound size 512 ltac:(lia)).
  destruct (Z.eqb_spec (size mod 512) 0); [lia|]. rewrite u32_small; lia.
Qed.

Lemma to_blocks_add a size :
  0 <= a < 2 ^ 31 -> 0 <= size < 2 ^ 31 -> to_blocks (a * BLOCK_SIZE + size) = a + to_blocks size.
Proof.
  intros Ha Hs. unfold to_blocks. rewrite Z.add_comm, Z_mod_plus_full, Z.div_add by done.
  assert (0 <= size / BLOCK_SIZE < 2 ^ 31) by (split; [apply Z.div_pos|apply Z.div_lt_upper_bound]; unfold BLOCK_SIZE; lia).
  destruct (size mod BLOCK_SIZE =? 0); [lia|]. rewrite !u32_small by lia. lia.
Qed.

(** [Read] of a stream whose last segment holds nothing. *)
Lemma read_stream_hollow scheds s u bs k ptrs dst size n :
  good_cnt n -> get_izg_cnt (u_part s) = n -> ctl_ok (zs:=zs) (nz:=nz) (z_ctl (u_z s)) ->
  stored (zs:=zs) (nz:=nz) n (u_z s) u bs -> holds (zs:=zs) (nz:=nz) (u_z s) n ptrs [] ->
  0 < k < 2 ^ 31 -> to_blocks (Z.of_nat (length bs) + size) = total_size (file_segment u) + k -> 0 <= size ->
  is_Some (load (host_mem (z_ctl (u_z s))) dst (Z.of_nat (length bs) + size)) ->
  let u' := appended_ud u k ptrs in
  exists s', Read scheds dst (Z.of_nat (length bs) + size) (Uds s u') = Ret 0 (Uds s' u') /\
    load (host_mem (z_ctl (u_z s'))) dst (Z.of_nat (length bs)) = Some bs /\
    same_outside (host_mem (z_ctl (u_z s))) (host_mem (z_ctl (u_z s'))) [dst] (Z.of_nat (length bs)).
Proof.
  intros Hgood Hcnt Hok Hsto Hh Hk Htb Hsz Hdst u'. pose proof (stored_length _ _ _ _ Hsto) as Hlen.
  destruct Hsto as [(ds & Hds & ->) Hoff Hus Hbd Hlk Hlive Hidle].
  destruct s as [[c ivs] iz p]. cbn [u_z z_ctl z_ivs u_izg u_part] in *.
  assert (Forall (fun seg => 0 <= seg_size seg) (file_segment u)) as Hsizes.
  { apply Forall_lookup_2. intros i seg Hi.
    destruct (Forall2_lookup_l _ _ _ _ _ Hds Hi) as (d & _ & _ & Hd). unfold BLOCK_SIZE in Hd. lia. }
  set (hollow := MkSegment (next_segment_id u) (total_size (file_segment u)) k ptrs).
  destruct (read_segments_then scheds n _ ds [hollow] k ltac:(lia) Hsizes Hgood (Forall2_length _ _ _ Hds) 0 c ivs iz p
    (set_lock true u') dst) as (c1 & Hr & Hs1 & Hl1 & Ho1); try done.
  { destruct (load_piece (host_mem c) dst _ 0 (Z.of_nat (length (concat ds))) Hdst) as [x Hx]; [lia..|].
    rewrite ptr_add_0 in Hx. by rewrite Hx. }
  destruct (read_hollow (scheds (0 + length (file_segment u))%nat) c1 ivs iz p hollow
    (ptr_add dst (Z.of_nat (length (concat ds)))) n size) as (c2 & Hr2 & Ho2); try done.
  { rewrite <- Hs1. by apply ctl_ok_mem. }
  { by eapply same_store_keeps. }
  { eapply (load_blocks_len (host_mem c)); [apply Ho1|]. eapply load_piece; [exact Hdst|lia..]. }
  exists (Ust (Zst c2 ivs) iz p). split; [|split].
  - unfold Read. rewrite Htb. erewrite bind_Ret by (by apply spin_lock_ok). erewrite bind_Ret by (by apply segments_ok).
    erewrite bind_Ret; cycle 1.
    { etrans; [exact Hr|]. cbn [read_segments]. rewrite (proj2 (Z.leb_gt _ _)) by lia.
      erewrite bind_Ret by (apply (zoom_Ret uds_us); exact Hr2). cbn [seg_size hollow]. by rewrite Z.sub_diag. }
    change (u32 0 =? 0) with true. cbn [negb]. unfold spin_unlock. by erewrite bind_Ret by apply put_ud_ok.
  - cbn [u_z z_ctl]. rewrite <- Hl1. apply Ho2. intros q ->%list_elem_of_singleton _. cbn. lia.
  - cbn [u_z z_ctl]. replace (Z.of_nat (length (concat ds))) with (Z.of_nat (length (concat ds)) + 0) by lia.
    by eapply same_outside_trans; [lia..|exact Ho1|exact Ho2].
Qed.
End Hollow.

(** ** The theorems *)

Section StreamTheorems.
Context `{D : NvmeDevice} {zs nz : Z} `{Zd : !ZnsDevice D zs nz}.
Context (vec_realloc : nat -> bool).
Context (gz : nat) (Hgz : zs = IO_BLOCKS * Z.of_nat gz) (Hpos : 0 < nz) (Hgz0 : (0 < gz)%nat).



(** C37. Data shorter than one I/O (192 KB) is lost. On any stream of a partition that
    is not full, [Append] of such a buffer returns 0 and counts its size, but it sends
    nothing to the device: the state of the controller, its device and its memory is the
    same as before, and so is the room of the partition. The following [Read] of the
    whole stream and the lost bytes also returns 0; it delivers the old content and
    leaves the memory behind it, where the new bytes belong, as it was. *)
Theorem short_append_is_lost sched scheds s u buf dst n cap bs size x :
  stored (zs:=zs) (nz:=nz) (Z.of_nat n) (u_z s) u bs ->
  ready (zs:=zs) (nz:=nz) gz s n cap -> (0 < cap)%nat ->
  dangles vec_realloc (length (zone_vector (u_part s))) (group_room (zs:=zs) s) n = false ->
  Z.of_nat n * zs <= 2 ^ 31 -> Z.of_nat (length bs) + IO_SIZE <= 2 ^ 32 -> 0 < size <= IO_SIZE - BLOCK_SIZE ->
  load (host_mem (z_ctl (u_z s))) buf size = Some x ->
  is_Some (load (host_mem (z_ctl (u_z s))) dst (Z.of_nat (length bs) + size)) ->
  exists s' u' s'', Append vec_realloc sched buf size (Uds s u) = Ret 0 (Uds s' u') /\
    Get_size u' = Get_size u + to_blocks size /\ z_ctl (u_z s') = z_ctl (u_z s) /\
    ready (zs:=zs) (nz:=nz) gz s' n cap /\
    Read scheds dst (Z.of_nat (length bs) + size) (Uds s' u') = Ret 0 (Uds s'' u') /\
    load (host_mem (z_ctl (u_z s''))) dst (Z.of_nat (length bs)) = Some bs /\
    same_outside (host_mem (z_ctl (u_z s))) (host_mem (z_ctl (u_z s''))) [dst] (Z.of_nat (length bs)).
Proof.
  intros Hsto Hr Hcap Hdang Hnzs Hfit Hsz Hx Hdst. pose proof (to_blocks_range size Hsz) as Htb.
  destruct (append_short gz Hgz Hpos Hgz0 vec_realloc sched s u buf n cap bs size size)
    as (s' & ptrs & Ha & Hctl & Hr' & Hh & Hsto'); try done; [lia|].
  pose proof Hr' as (g & old & cur & d & total & j & Hb & _). pose proof (stored_length _ _ _ _ Hsto) as Hlen.
  destruct (read_stream_hollow (zs:=zs) (nz:=nz) scheds s' u bs (to_blocks size) ptrs dst size (Z.of_nat n))
    as (s'' & Hrd & Hl & Hout); try done.
  { by destruct Hb. } { by eapply balanced_cnt. } { by destruct Hb. }
  { unfold IO_BLOCKS in Htb. lia. }
  { unfold IO_SIZE, _192KB, BLOCK_SIZE in *. rewrite Hlen. apply to_blocks_add; lia. }
  { lia. }
  { by rewrite Hctl. }
  exists s', (appended_ud u (to_blocks size) ptrs), s''. rewrite Hctl in Hout. done.
Qed.
End StreamTheorems.

(** [insert_segment] finds its place by binary search; on a sorted vector
    the result is the plain sorted insertion: the segments up to the new offset,
    the new segment, the segments behind it. *)
Theorem insert_segment_is_insertion l v :
  sorted_offsets l ->
  insert_segment l v = filter (fun a => seg_offset a <= seg_offset v) l
    ++ v :: filter (fun a => seg_offset v < seg_offset a) l.
Proof.
  intros Hs. destruct (insert_segment_split l v Hs) as (i & -> & Hlo & Hhi).
  assert (forall t, Forall (fun a => seg_offset a <= seg_offset v) t ->
    filter (fun a => seg_offset a <= seg_offset v) t = t /\
    filter (fun a => seg_offset v < seg_offset a) t = []) as Hle.
  { induction 1 as [|a t Ha Ht [IH1 IH2]]; [done|].
    rewrite !filter_cons, decide_True, decide_False by lia. by rewrite IH1. }
  assert (forall t, Forall (fun a => seg_offset v < seg_offset a) t ->
    filter (fun a => seg_offset a <= seg_offset v) t = [] /\
    filter (fun a => seg_offset v < seg_offset a) t = t) as Hgt.
  { induction 1 as [|a t Ha Ht [IH1 IH2]]; [done|].
    rewrite !filter_cons, decide_False, decide_True by lia. by rewrite IH2. }
  rewrite <- (take_drop i l) at 3 4. rewrite !filter_app.
  destruct (Hle _ Hlo) as [-> ->], (Hgt _ Hhi) as [-> ->]. by rewrite app_nil_r.
Qed.

(** ** The theorems on the demo store *)





(** One block, on a partition with room for two I/Os in its zone. *)
Lemma short_append_is_lost_witness :
  exists s' u' s'',
    Append (fun _ => true) (fun _ => []) demo_src 512
      (Uds (demo_grown 1 (768 - IO_BLOCKS * Z.of_nat 2) (demo_mem one_block one_block)) (new_Userdata 7))
      = Ret 0 (Uds s' u') /\
    Get_size u' = 1 /\ Read (fun _ _ => []) demo_dst 512 (Uds s' u') = Ret 0 (Uds s'' u').
Proof.
  destruct (short_append_is_lost (D:=demo_nvme) (zs:=768) (nz:=4) (fun _ => true) 2 eq_refl eq_refl
    (le_S 1 1 (le_n 1)) (fun _ => []) (fun _ _ => [])
    (demo_grown 1 (768 - IO_BLOCKS * Z.of_nat 2) (demo_mem one_block one_block)) (new_Userdata 7)
    demo_src demo_dst 1 (2 + 2 * (3 / 1)) [] 512 one_block) as (s' & u' & s'' & H1 & H2 & _ & _ & H3 & _).
  - apply demo_stored.
  - apply (demo_grown_ready 1 2); lia.
  - cbn. lia.
  - reflexivity.
  - lia.
  - unfold IO_SIZE, _192KB. cbn. lia.
  - unfold IO_SIZE, _192KB, BLOCK_SIZE. lia.
  - apply (load_demo_src one_block one_block).
  - exists one_block. apply (load_demo_dst one_block one_block).
  - exact (ex_intro _ s' (ex_intro _ u' (ex_intro _ s'' (conj H1 (conj H2 H3))))).
Defined.

Lemma insert_segment_is_insertion_witness :
  insert_segment [MkSegment 0 0 8 []; MkSegment 1 8 8 []; MkSegment 2 24 8 []] (MkSegment 3 16 8 [])
  = [MkSegment 0 0 8 []; MkSegment 1 8 8 []; MkSegment 3 16 8 []; MkSegment 2 24 8 []].
Proof.
  rewrite (insert_segment_is_insertion [MkSegment 0 0 8 []; MkSegment 1 8 8 []; MkSegment 2 24 8 []]).
  - reflexivity.
  - intros i j a b Hij Ha Hb. destruct i as [|[|[|i]]], j as [|[|[|j]]]; cbn in Ha, Hb; simplify_eq; cbn; lia.
Defined.
