(* ===== verification/ZoadThms.v ===== *)
(** The interface of the store: theorems about [z_flush], [z_load], [z_del] and
    the life of a partition. *)
From S2P Require Import Prelude Nvme Controller Init SimDevice Zone Stripe Transfer Rounds.
From S2P Require Import Roundtrip Izg Partition Userdata UserdataSpec AppendSpec.
From S2P Require Import StreamSpec CapacitySpec IoRequest Zoad ZoadSpec Registry Demo.
From stdpp Require Import base numbers list gmap strings.
From Stdlib Require Import ZArith Lia.
Local Open Scope Z_scope.

Section EndToEnd.
Context `{D : NvmeDevice} {zs nz : Z} `{Zd : !ZnsDevice D zs nz}.
Context (vec_realloc : nat -> bool) (junk_word : Z) (junk_flag : bool).
Context (gz : nat) (Hgz : zs = IO_BLOCKS * Z.of_nat gz) (Hpos : 0 < nz) (Hgz0 : (0 < gz)%nat).

End EndToEnd.



(** ** Names and errors *)

Section Calls.
Context `{D : NvmeDevice}.
Context (vec_realloc : nat -> bool) (junk_buf : ptr) (junk_word : Z) (junk_flag : bool).

(** [z_del] unbinds a name at once: it reports success, and from then on
    [z_del], [z_load] and [z_sync] of that name return -1 and change nothing,
    although the removal of the data is still queued. *)
Theorem deleted_name_is_gone scheds uid lp_id name dst size w a p q d :
  reaches w uid lp_id a -> accepts w a p OPEN q -> userdata_map p !! name = Some d ->
  exists w', z_del junk_buf junk_word uid lp_id name w = Ret 0 w' /\
    z_del junk_buf junk_word uid lp_id name w' = Ret (-1) w' /\
    z_load vec_realloc junk_word junk_flag scheds uid lp_id name dst size w' = Ret (-1) w' /\
    z_sync uid lp_id name w' = Ret (-1) w'.
Proof.
  intros Hre Hac Hd. pose proof Hac as [Hp Hst Hq Hl].
  set (p' := set_userdata_map (delete name (userdata_map p)) p).
  set (rq := request_delete junk_buf junk_word d). set (w' := enqueue a p' q rq w).
  set (p2 := set_queue (Some (q ++ [length (w_reqs w)])) p').
  assert (reaches w' uid lp_id a) as Hre' by (by apply (reaches_keep w _ uid lp_id a p p2)).
  assert (accepts w' a p2 OPEN (q ++ [length (w_reqs w)])) as Hac'.
  { split; try done. by apply (put_part_lookup a p). }
  assert (userdata_map p2 !! name = None) as Hno by (cbn; apply lookup_delete_eq).
  exists w'. unfold z_del, z_load, z_sync. rewrite !(with_partition_reaches _ _ a) by done.
  split; [|split; [|split]].
  - by rewrite (del_queues junk_buf junk_word a p OPEN q name d).
  - by eapply del_missing.
  - by eapply load_missing.
  - by eapply sync_missing.
Qed.

(** A user the store does not know makes [z_flush], [z_load], [z_sync] and
    [z_del] unlock the global mutex twice, which is undefined behaviour: the
    branch that reports the error unlocks it and leaves [locked] set. *)
Theorem unknown_user_unlocks_twice scheds uid lp_id name buf size flag w :
  partition_lock w = false -> user_to_partition_map w !! uid = None ->
  z_flush junk_word junk_flag uid lp_id name buf size flag w = UB /\
  z_load vec_realloc junk_word junk_flag scheds uid lp_id name buf size w = UB /\
  z_sync uid lp_id name w = UB /\ z_del junk_buf junk_word uid lp_id name w = UB.
Proof.
  intros Hk Hu. unfold z_flush, z_load, z_sync, z_del.
  repeat split; by apply with_partition_unknown_user.
Qed.

(** The constructor of a read request leaves [read_complete] uninitialised.
    If the memory happens to hold [true], [z_load] reports success without
    reading anything and frees the request while it is still queued; the worker
    that takes it next uses freed memory. *)
Theorem load_trusts_uninitialised_flag scheds sched uid lp_id name dst size w a p d :
  reaches w uid lp_id a -> accepts w a p OPEN [] -> userdata_map p !! name = Some d ->
  exists w', z_load vec_realloc junk_word true scheds uid lp_id name dst size w = Ret 0 w' /\
    w_z w' = w_z w /\ worker_iter vec_realloc sched a w' = UB.
Proof.
  intros Hre Hac Hd. unfold z_load. rewrite (with_partition_reaches _ _ a) by done.
  by eapply load_uninitialised.
Qed.
End Calls.

Lemma demo_accepts n m : accepts (demo_world n m) 0 (demo_partition n) OPEN [].
Proof. by split. Qed.

Lemma deleted_name_is_gone_witness :
  exists w', z_del demo_src 0 5 1 "log" (demo_world 1 ∅) = Ret 0 w' /\
    z_sync 5 1 "log" w' = Ret (-1) w'.
Proof.
  destruct (deleted_name_is_gone (fun _ => true) demo_src 0 false (fun _ _ _ => []) 5 1 "log" demo_dst 512
    (demo_world 1 ∅) 0 (demo_partition 1) [] 0) as (w' & H1 & _ & _ & H4).
  - apply demo_reaches.
  - apply demo_accepts.
  - reflexivity.
  - exact (ex_intro _ w' (conj H1 H4)).
Defined.

Lemma unknown_user_unlocks_twice_witness :
  z_flush 0 false 6 1 "log" demo_src 512 0 (demo_world 1 ∅) = UB.
Proof.
  apply (unknown_user_unlocks_twice (fun _ => true) demo_src 0 false (fun _ _ _ => []) 6 1 "log" demo_src 512 0
    (demo_world 1 ∅)); reflexivity.
Defined.

Lemma load_trusts_uninitialised_flag_witness :
  exists w', z_load (fun _ => true) 0 true (fun _ _ _ => []) 5 1 "log" demo_dst 512 (demo_world 1 ∅) = Ret 0 w' /\
    worker_iter (fun _ => true) (fun _ _ => []) 0 w' = UB.
Proof.
  destruct (load_trusts_uninitialised_flag (fun _ => true) 0 (fun _ _ _ => []) (fun _ _ => []) 5 1 "log"
    demo_dst 512 (demo_world 1 ∅) 0 (demo_partition 1) 0) as (w' & H1 & _ & H3).
  - apply demo_reaches.
  - apply demo_accepts.
  - reflexivity.
  - exact (ex_intro _ w' (conj H1 H3)).
Defined.

(** ** The life of a partition *)

Section Life.
Context `{D : NvmeDevice}.
Context (vec_realloc : nat -> bool) (junk_word : Z) (junk_flag : bool).

(** Creating a QoS partition under a free name books its groups: the call
    returns a fresh id, the partition is found under its name and its id with
    the groups asked for, the groups available shrink by as many, other users
    keep their partitions, and the registry stays well formed (unique ids,
    distinct names per user). *)
Theorem mklp_creates uid dev name iolevel w :
  registry w -> partition_lock w = false -> next_partition_id w + 1 < 2 ^ 31 ->
  name_free w uid name -> 0 <= iolevel <= available_izg_cnt (w_izg w) ->
  available_izg_cnt (w_izg w) < 2 ^ 31 ->
  exists w' a p, z_mklp junk_word uid dev name QOS_PARTITION iolevel w = Ret (next_partition_id w) w' /\
    registry w' /\ w_parts w' !! a = Some p /\
    first_with w' (has_name name) (partitions_of w' uid) = Some a /\
    first_with w' (has_id (next_partition_id w)) (partitions_of w' uid) = Some a /\
    get_izg_cnt p = iolevel /\ p_status p = Some CLOSE /\
    available_izg_cnt (w_izg w') = available_izg_cnt (w_izg w) - iolevel /\
    (forall v, v <> uid -> partitions_of w' v = partitions_of w v) /\
    (forall b q, w_parts w !! b = Some q -> w_parts w' !! b = Some q).
Proof.
  intros Hr Hk Hn Hfree Hio Hav. pose proof (alloc_izg_qos (w_izg w) iolevel Hio Hav) as Ha.
  set (i := set_available (available_izg_cnt (w_izg w) - iolevel) (w_izg w)) in *.
  set (w' := with_new junk_word uid name iolevel QOS_PARTITION i w).
  destruct (with_new_found junk_word uid name iolevel QOS_PARTITION i w Hr Hfree) as (Hu & Hf1 & Hf2 & Hnew).
  cbn zeta in *. fold w' in Hu, Hf1, Hf2, Hnew.
  assert (partitions_of w' uid = partitions_of w uid ++ [length (w_parts w)]) as Hl.
  { unfold partitions_of at 1. by rewrite Hu. }
  eexists w', _, _. split; [apply z_mklp_ok; done || lia|].
  split; [by apply with_new_registry|]. split; [exact Hnew|]. rewrite Hl.
  split; [done|]. split; [done|]. split; [apply u32_small; lia|]. split; [done|]. split; [done|]. split.
  - intros v Hv. unfold partitions_of. cbn. by rewrite lookup_insert_ne.
  - intros b q Hq. cbn. by apply lookup_app_l_Some.
Qed.

(** A request for a partition is refused with -1 and no effect when the
    user has a partition of that name, when the groups asked for exceed the
    available ones, or when the flag is unknown. *)
Theorem mklp_refuses uid dev name flags iolevel w :
  registry w -> partition_lock w = false -> 0 <= available_izg_cnt (w_izg w) < 2 ^ 31 ->
  0 <= iolevel < 2 ^ 31 ->
  ~ name_free w uid name \/
  (flags = QOS_PARTITION /\ available_izg_cnt (w_izg w) < iolevel) \/
  (flags <> QOS_PARTITION /\ flags <> MAX_PARTITION) ->
  z_mklp junk_word uid dev name flags iolevel w = Ret (-1) w.
Proof.
  intros Hr Hk Hav Hio Hno. apply z_mklp_refused; [done..|].
  destruct Hno as [Hno|Hno]; [by left|right]. by apply alloc_izg_refused.
Qed.

(** C38. A partition that was created, opened and closed again without pending
    requests returns its id from all three calls and leaves the list of open
    partitions as it was. But its status was deleted: opening it again, or
    flushing to it, is a use after free. *)
Theorem closed_partition_is_unusable scheds uid dev name iolevel flags buf size flag w ol :
  registry w -> partition_lock w = false -> next_partition_id w + 1 < 2 ^ 31 ->
  name_free w uid name -> 0 <= iolevel <= available_izg_cnt (w_izg w) ->
  available_izg_cnt (w_izg w) < 2 ^ 31 ->
  open_partition_list w !! QOS_PARTITION = Some ol -> all_live w ol ->
  let id := next_partition_id w in
  exists w1 w2 w3, z_mklp junk_word uid dev name QOS_PARTITION iolevel w = Ret id w1 /\
    z_openlp uid name flags w1 = Ret id w2 /\
    z_closelp vec_realloc scheds uid id w2 = Ret id w3 /\
    open_partition_list w3 = open_partition_list w /\
    z_openlp uid name flags w3 = UB /\
    z_flush junk_word junk_flag uid id name buf size flag w3 = UB.
Proof.
  intros Hr Hk Hn Hfree Hio Hav Hol Hoall id. pose proof (alloc_izg_qos (w_izg w) iolevel Hio Hav) as Ha.
  set (i := set_available (available_izg_cnt (w_izg w) - iolevel) (w_izg w)) in *.
  set (w1 := with_new junk_word uid name iolevel QOS_PARTITION i w).
  destruct (with_new_found junk_word uid name iolevel QOS_PARTITION i w Hr Hfree) as (Hu & Hf1 & Hf2 & Hp).
  cbn zeta in *. fold w1 in Hu, Hf1, Hf2, Hp. set (a := length (w_parts w)) in *.
  set (l := partitions_of w uid ++ [a]) in *. set (p := new_Partition _ _ _ _ _) in *.
  assert (registry w1) as Hr1 by (by apply with_new_registry).
  set (w2 := set_open (<[QOS_PARTITION := ol ++ [a]]> (open_partition_list w)) (put_part a (opened flags p) w1)).
  assert (w_parts w2 !! a = Some (opened flags p)) as Hp2 by (by apply (put_part_lookup a p)).
  assert (registry w2) as Hr2 by (by apply registry_open, (registry_put a p)).
  assert (forall f : Partition -> bool, f (opened flags p) = f p -> first_with w2 f l = first_with w1 f l) as Hfw
    by (intros f Hf; by apply (first_with_put a p)).
  set (w3 := set_open (<[QOS_PARTITION := ol]> (<[QOS_PARTITION := ol ++ [a]]> (open_partition_list w)))
    (put_part a (closed (opened flags p)) w2)).
  assert (w_parts w3 !! a = Some (closed (opened flags p))) as Hp3
    by (by apply (put_part_lookup a (opened flags p))).
  assert (registry w3) as Hr3 by (by apply registry_open, (registry_put a (opened flags p))).
  assert (forall f : Partition -> bool, f (closed (opened flags p)) = f (opened flags p) ->
    first_with w3 f l = first_with w2 f l) as Hfw3
    by (intros f Hf; by apply (first_with_put a (opened flags p))).
  exists w1, w2, w3. split; [|split; [|split; [|split; [|split]]]].
  - by apply z_mklp_ok; [done..|lia].
  - apply (z_openlp_ok uid name flags w1 a p ol); try done; [by apply elem_of_dom; exists l|].
    unfold partitions_of. by rewrite Hu.
  - rewrite (z_closelp_idle vec_realloc scheds uid id w2 l a (opened flags p) (ol ++ [a])); try done.
    + f_equal. unfold w3. do 2 f_equal. apply (erased_new _ id ol a (opened flags p)); try done.
      eapply Forall_impl; [exact Hoall|]. cbn -[w_parts]. intros b [q Hq] q' Hq'.
      assert (b <> a) as Hb by (apply lookup_lt_Some in Hq; unfold a; lia).
      unfold w2 in Hq'. cbn in Hq'. rewrite list_lookup_insert_ne in Hq' by done.
      rewrite (lookup_app_l_Some _ _ _ _ Hq) in Hq'. injection Hq' as <-.
      pose proof (rg_ids w Hr b q Hq). unfold id. lia.
    + rewrite (Hfw (has_id id)) by done. done.
    + by apply lookup_insert_eq.
    + apply Forall_app. split; [|constructor; [by eexists|constructor]].
      eapply Forall_impl; [exact Hoall|]. cbn -[w_parts]. intros b [q Hq].
      unfold w2. cbn. rewrite list_lookup_insert. case_decide; [by eexists|].
      rewrite (lookup_app_l_Some _ _ _ _ Hq). by eexists.
  - unfold w3. cbn. rewrite insert_insert_eq. by apply insert_id.
  - eapply (open_closed_ub uid name flags w3 l a); try done; [by apply (rg_live w3 Hr3 uid)|].
    by rewrite Hfw3, Hfw.
  - unfold z_flush. rewrite (with_partition_found uid id _ w3 l a); try done; cycle 1.
    { by apply (rg_live w3 Hr3 uid). } { by rewrite Hfw3, Hfw. }
    unfold _z_flush. erewrite bind_Ret by (by apply (on_partition_lock a _ w3 Hp3)).
    unfold mbind at 1, prog_bind at 1, on_partition at 1.
    rewrite (put_part_lookup a (closed (opened flags p))) by done. done.
Qed.
End Life.

Lemma demo_name_free n m : name_free (demo_world n m) 5 "lp2".
Proof. apply (bool_decide_unpack _). vm_compute. exact I. Qed.

Lemma demo_open_live n m : all_live (demo_world n m) [0%nat].
Proof. repeat constructor. by eexists. Qed.

Lemma mklp_creates_witness :
  exists w', z_mklp 0 5 "nvme0n1" "lp2" QOS_PARTITION 1 (demo_world 1 ∅) = Ret 2 w' /\ registry w' /\
    available_izg_cnt (w_izg w') = 1.
Proof.
  destruct (mklp_creates 0 5 "nvme0n1" "lp2" 1 (demo_world 1 ∅)) as (w' & a & p & H1 & H2 & _ & _ & _ & _ & _ & H8 & _).
  - apply demo_registry.
  - reflexivity.
  - reflexivity.
  - apply demo_name_free.
  - cbn. lia.
  - reflexivity.
  - exact (ex_intro _ w' (conj H1 (conj H2 H8))).
Defined.

Lemma mklp_refuses_witness :
  z_mklp 0 5 "nvme0n1" "lp2" QOS_PARTITION 3 (demo_world 1 ∅) = Ret (-1) (demo_world 1 ∅).
Proof.
  apply (mklp_refuses 0 5 "nvme0n1" "lp2" QOS_PARTITION 3 (demo_world 1 ∅)).
  - apply demo_registry.
  - reflexivity.
  - cbn. lia.
  - lia.
  - right. left. split; [reflexivity|]. cbn. lia.
Defined.

Lemma closed_partition_is_unusable_witness :
  exists w1 w2 w3, z_mklp 0 5 "nvme0n1" "lp2" QOS_PARTITION 1 (demo_world 1 ∅) = Ret 2 w1 /\
    z_openlp 5 "lp2" Z_APPEND w1 = Ret 2 w2 /\
    z_closelp (fun _ => true) (fun _ _ _ => []) 5 2 w2 = Ret 2 w3 /\
    z_openlp 5 "lp2" Z_APPEND w3 = UB.
Proof.
  destruct (closed_partition_is_unusable (fun _ => true) 0 false (fun _ _ _ => []) 5 "nvme0n1" "lp2" 1 Z_APPEND
    demo_src 512 0 (demo_world 1 ∅) [0%nat]) as (w1 & w2 & w3 & H1 & H2 & H3 & _ & H5 & _).
  - apply demo_registry.
  - reflexivity.
  - reflexivity.
  - apply demo_name_free.
  - cbn. lia.
  - reflexivity.
  - reflexivity.
  - apply demo_open_live.
  - exact (ex_intro _ w1 (ex_intro _ w2 (ex_intro _ w3 (conj H1 (conj H2 (conj H3 H5)))))).
Defined.
