(* ===== verification/Bits.v ===== *)
(** Bit-level lemmas on [Z] shared by the encodings and the checksum, and the
    tactic [bits] that proves an equality of integers bit by bit. *)
From S2P Require Import Prelude.
From stdpp Require Import base numbers list.
From Stdlib Require Import ZArith Lia Btauto.
Local Open Scope Z_scope.

Lemma testbit_high (x n i : Z) : 0 <= x < 2 ^ n -> n <= i -> Z.testbit x i = false.
Proof.
  intros Hx Hi. destruct (decide (n < 0)) as [Hn|Hn].
  { rewrite Z.pow_neg_r in Hx by lia. lia. }
  rewrite <- (Z.mod_small x (2 ^ n)) by lia. apply Z.mod_pow2_bits_high. lia.
Qed.

Lemma testbit_mod (x n i : Z) :
  0 <= n -> Z.testbit (x mod 2 ^ n) i = (i <? n) && Z.testbit x i.
Proof.
  intros Hn. destruct (Z.ltb_spec i n).
  - destruct (decide (i < 0)); [by rewrite !Z.testbit_neg_r by lia|].
    by rewrite Z.mod_pow2_bits_low.
  - by rewrite Z.mod_pow2_bits_high by lia.
Qed.

Lemma testbit_ones (n i : Z) : 0 <= n -> 0 <= i -> Z.testbit (Z.ones n) i = (i <? n).
Proof. intros. rewrite Z.testbit_ones_nonneg by lia. done. Qed.

Lemma testbit_shiftl (x n i : Z) :
  0 <= i -> Z.testbit (Z.shiftl x n) i = Z.testbit x (i - n).
Proof. apply Z.shiftl_spec. Qed.

Create Rewrite HintDb bits.
#[export] Hint Rewrite Z.lxor_spec Z.lor_spec Z.land_spec Z.ldiff_spec Z.bits_0 : bits.
#[export] Hint Rewrite Z.shiftr_spec testbit_shiftl testbit_mod testbit_ones
  using lia : bits.

(** Reduce an equality of integers to one of their bits [i], [Hi : 0 <= i]. *)
Ltac bitwise i Hi :=
  apply Z.bits_inj'; intros i Hi; autorewrite with bits.

(** Decide the comparisons of bit positions and finish. *)
Ltac bits :=
  let i := fresh "i" in let Hi := fresh "Hi" in bitwise i Hi;
  repeat match goal with
  | |- context [Z.ltb ?a ?b] => destruct (Z.ltb_spec a b)
  end; try lia; try btauto.

(** ** Disjoint bits *)

Lemma land_high (lo x k : Z) : 0 <= k -> 0 <= lo < 2 ^ k -> Z.land lo (Z.shiftl x k) = 0.
Proof.
  intros Hk Hlo. bitwise i Hi. destruct (decide (i < k)).
  - rewrite (Z.testbit_neg_r x) by lia. apply andb_false_r.
  - by rewrite (testbit_high lo k) by lia.
Qed.

Lemma lxor_high (lo x k : Z) :
  0 <= k -> 0 <= lo < 2 ^ k -> Z.lxor lo (Z.shiftl x k) = lo + x * 2 ^ k.
Proof.
  intros Hk Hlo. rewrite <- Z.shiftl_mul_pow2 by lia.
  by rewrite <- Z.add_nocarry_lxor by (by apply land_high).
Qed.

Lemma lor_high (lo x k : Z) :
  0 <= k -> 0 <= lo < 2 ^ k -> Z.lor lo (Z.shiftl x k) = lo + x * 2 ^ k.
Proof. intros. rewrite <- Z.lxor_lor by (by apply land_high). by apply lxor_high. Qed.

(** Complement within [n] bits. *)
Lemma lxor_ones (x n : Z) : 0 <= n -> 0 <= x < 2 ^ n -> Z.lxor x (Z.ones n) = Z.ones n - x.
Proof.
  intros Hn Hx. rewrite Z.sub_nocarry_ldiff.
  - bitwise i Hi. destruct (Z.ltb_spec i n); [btauto|]. by rewrite (testbit_high x n).
  - bitwise i Hi. destruct (Z.ltb_spec i n); [btauto|]. by rewrite (testbit_high x n).
Qed.

Lemma lxor_range (x y n : Z) :
  0 <= n -> 0 <= x < 2 ^ n -> 0 <= y < 2 ^ n -> 0 <= Z.lxor x y < 2 ^ n.
Proof.
  intros Hn Hx Hy. rewrite <- (Z.mod_small x (2 ^ n)), <- (Z.mod_small y (2 ^ n)) by done.
  replace (Z.lxor (x mod 2 ^ n) (y mod 2 ^ n)) with (Z.lxor x y mod 2 ^ n).
  - apply Z.mod_pos_bound. lia.
  - bits.
Qed.

Lemma lor_range (x y n : Z) :
  0 <= n -> 0 <= x < 2 ^ n -> 0 <= y < 2 ^ n -> 0 <= Z.lor x y < 2 ^ n.
Proof.
  intros Hn Hx Hy. rewrite <- (Z.mod_small x (2 ^ n)), <- (Z.mod_small y (2 ^ n)) by done.
  replace (Z.lor (x mod 2 ^ n) (y mod 2 ^ n)) with (Z.lor x y mod 2 ^ n).
  - apply Z.mod_pos_bound. lia.
  - bits.
Qed.

Lemma land_ones_range (x n : Z) : 0 <= n -> 0 <= Z.land x (Z.ones n) < 2 ^ n.
Proof. intros. rewrite Z.land_ones by done. apply Z.mod_pos_bound. lia. Qed.

Lemma shiftr_range (x n k : Z) : 0 <= x < 2 ^ n -> 0 <= k <= n -> 0 <= Z.shiftr x k < 2 ^ (n - k).
Proof.
  intros Hx Hk. rewrite Z.shiftr_div_pow2 by lia. split; [apply Z.div_pos; lia|].
  apply Z.div_lt_upper_bound; [lia|]. rewrite <- Z.pow_add_r by lia.
  replace (k + (n - k)) with n by lia. lia.
Qed.

(** The bytes of an integer. *)
Lemma byte_of_eq (x y : Z) : x mod 256 = y mod 256 -> byte_of x = byte_of y.
Proof. unfold byte_of. by intros ->. Qed.

Lemma byte_of_val (b : Byte.byte) : byte_of (byte_val b) = b.
Proof. destruct b; reflexivity. Qed.

Lemma le_bytes_of_val (l : list Byte.byte) : le_bytes (length l) (le_val l) = l.
Proof.
  induction l as [|b l IH]; [done|]. cbn [length le_bytes le_val]. f_equal.
  - transitivity (byte_of (byte_val b)); [|apply byte_of_val]. apply byte_of_eq. rewrite Z.mul_comm, Z.mod_add by lia. done.
  - rewrite Z.mul_comm, Z.div_add, Z.div_small by (lia || apply byte_val_range). exact IH.
Qed.
