(* ===== verification/Coding.v ===== *)
(** util/coding_lean.h, util/coding.h, util/coding.cc: fixed-width and
    variable-length integers, and length-prefixed strings.

    A [std::string] and the bytes a [Slice] refers to are lists of bytes; the
    [Put] functions append, the [Get] functions return the value and the rest of
    the input, or [None] where the code returns [false]. *)
From S2P Require Import Prelude Bits.
From stdpp Require Import base numbers list.
From Stdlib Require Import ZArith Lia Btauto.
Local Open Scope Z_scope.

Abbreviation bytes := (list Byte.byte).

(** [static_cast<int64_t>] of a 64-bit pattern. *)
Definition i64 (x : Z) : Z :=
  let y := x mod 2 ^ 64 in if y <? 2 ^ 63 then y else y - 2 ^ 64.

(** ** Fixed-width integers *)
Section Fixed.

(** [port::kLittleEndian], a property of the host: [memcpy] of an integer
    copies its bytes in little-endian order only if it is set. *)
Context (kLittleEndian : bool).

Definition EncodeFixed16 (value : Z) : bytes :=
  if kLittleEndian then le_bytes 2 value
  else [byte_of (Z.land value 0xff); byte_of (Z.land (Z.shiftr value 8) 0xff)].

Definition EncodeFixed32 (value : Z) : bytes :=
  if kLittleEndian then le_bytes 4 value
  else [byte_of (Z.land value 0xff); byte_of (Z.land (Z.shiftr value 8) 0xff);
        byte_of (Z.land (Z.shiftr value 16) 0xff); byte_of (Z.land (Z.shiftr value 24) 0xff)].

Definition EncodeFixed64 (value : Z) : bytes :=
  if kLittleEndian then le_bytes 8 value
  else [byte_of (Z.land value 0xff); byte_of (Z.land (Z.shiftr value 8) 0xff);
        byte_of (Z.land (Z.shiftr value 16) 0xff); byte_of (Z.land (Z.shiftr value 24) 0xff);
        byte_of (Z.land (Z.shiftr value 32) 0xff); byte_of (Z.land (Z.shiftr value 40) 0xff);
        byte_of (Z.land (Z.shiftr value 48) 0xff); byte_of (Z.land (Z.shiftr value 56) 0xff)].

(** Byte [i] at [ptr]; reading past the end is not modelled by the callers,
    which check the size first. *)
Definition at_ (ptr : bytes) (i : nat) : Z := byte_val (default Byte.x00 (ptr !! i)).

Definition DecodeFixed16 (ptr : bytes) : Z :=
  if kLittleEndian then le_val (take 2 ptr)
  else Z.lor (at_ ptr 0) (Z.shiftl (at_ ptr 1) 8).

Definition DecodeFixed32 (ptr : bytes) : Z :=
  if kLittleEndian then le_val (take 4 ptr)
  else Z.lor (Z.lor (Z.lor (at_ ptr 0) (Z.shiftl (at_ ptr 1) 8)) (Z.shiftl (at_ ptr 2) 16))
         (Z.shiftl (at_ ptr 3) 24).

Definition DecodeFixed64 (ptr : bytes) : Z :=
  if kLittleEndian then le_val (take 8 ptr)
  else let lo := DecodeFixed32 ptr in
       let hi := DecodeFixed32 (drop 4 ptr) in
       Z.lor (u64 (Z.shiftl hi 32)) lo.

Definition PutFixed16 (dst : bytes) (value : Z) : bytes :=
  if kLittleEndian then dst ++ le_bytes 2 value else dst ++ EncodeFixed16 value.
Definition PutFixed32 (dst : bytes) (value : Z) : bytes :=
  if kLittleEndian then dst ++ le_bytes 4 value else dst ++ EncodeFixed32 value.
Definition PutFixed64 (dst : bytes) (value : Z) : bytes :=
  if kLittleEndian then dst ++ le_bytes 8 value else dst ++ EncodeFixed64 value.

Definition GetFixed64 (input : bytes) : option (Z * bytes) :=
  if (length input <? 8)%nat then None else Some (DecodeFixed64 input, drop 8 input).
Definition GetFixed32 (input : bytes) : option (Z * bytes) :=
  if (length input <? 4)%nat then None else Some (DecodeFixed32 input, drop 4 input).
Definition GetFixed16 (input : bytes) : option (Z * bytes) :=
  if (length input <? 2)%nat then None else Some (DecodeFixed16 input, drop 2 input).
End Fixed.

(** ** Variable-length integers *)

Definition kMaxVarint64Length : nat := 10.

(** The five branches write one to five bytes; assigning to an [unsigned char]
    keeps the low byte. *)
Definition EncodeVarint32 (v : Z) : bytes :=
  let B := 128 in
  if v <? 2 ^ 7 then [byte_of v]
  else if v <? 2 ^ 14 then [byte_of (Z.lor v B); byte_of (Z.shiftr v 7)]
  else if v <? 2 ^ 21 then
    [byte_of (Z.lor v B); byte_of (Z.lor (Z.shiftr v 7) B); byte_of (Z.shiftr v 14)]
  else if v <? 2 ^ 28 then
    [byte_of (Z.lor v B); byte_of (Z.lor (Z.shiftr v 7) B); byte_of (Z.lor (Z.shiftr v 14) B);
     byte_of (Z.shiftr v 21)]
  else
    [byte_of (Z.lor v B); byte_of (Z.lor (Z.shiftr v 7) B); byte_of (Z.lor (Z.shiftr v 14) B);
     byte_of (Z.lor (Z.shiftr v 21) B); byte_of (Z.shiftr v 28)].

(** [while (v >= B) { ...; v >>= 7; }]: every iteration removes seven bits, so
    the number of bits of [v] bounds the iterations. *)
Fixpoint varint64_loop (fuel : nat) (v : Z) : bytes :=
  match fuel with
  | O => []
  | S fuel' =>
    if v <? 128 then [byte_of v]
    else byte_of (Z.lor (Z.land v 127) 128) :: varint64_loop fuel' (Z.shiftr v 7)
  end.
Definition EncodeVarint64 (v : Z) : bytes := varint64_loop (S (Z.to_nat (Z.log2 v))) v.

Fixpoint varint_length_loop (fuel : nat) (v len : Z) : Z :=
  match fuel with
  | O => len
  | S fuel' => if 128 <=? v then varint_length_loop fuel' (Z.shiftr v 7) (len + 1) else len
  end.
Definition VarintLength (v : Z) : Z := varint_length_loop (S (Z.to_nat (Z.log2 v))) v 1.

(** The loop of both decoders: [last] is the largest shift and [wrap] the
    conversion to the width of the result. *)
Fixpoint varint_loop (last : Z) (wrap : Z -> Z) (shift result : Z) (p : bytes) : option (Z * bytes) :=
  match p with
  | [] => None
  | b :: p' =>
    if last <? shift then None
    else
      let byte := byte_val b in
      if negb (Z.land byte 128 =? 0)
      then varint_loop last wrap (shift + 7)
             (Z.lor result (wrap (Z.shiftl (Z.land byte 127) shift))) p'
      else Some (Z.lor result (wrap (Z.shiftl byte shift)), p')
  end.

Definition GetVarint32PtrFallback (p : bytes) : option (Z * bytes) := varint_loop 28 u32 0 0 p.
Definition GetVarint64Ptr (p : bytes) : option (Z * bytes) := varint_loop 63 u64 0 0 p.

Definition GetVarint32Ptr (p : bytes) : option (Z * bytes) :=
  match p with
  | b :: p' =>
    let result := byte_val b in
    if Z.land result 128 =? 0 then Some (result, p') else GetVarint32PtrFallback p
  | [] => GetVarint32PtrFallback p
  end.

Definition GetVarint32 (input : bytes) : option (Z * bytes) := GetVarint32Ptr input.
Definition GetVarint64 (input : bytes) : option (Z * bytes) := GetVarint64Ptr input.

(** ** Signed integers *)

Definition i64ToZigzag (l : Z) : Z := Z.lxor (u64 (Z.shiftl (u64 l) 1)) (u64 (Z.shiftr l 63)).
Definition zigzagToI64 (n : Z) : Z := i64 (Z.lxor (Z.shiftr n 1) (u64 (- (Z.land n 1)))).

Definition GetVarsignedint64Ptr (p : bytes) : option (Z * bytes) :=
  '(u, q) ← GetVarint64Ptr p; Some (zigzagToI64 u, q).
Definition GetVarsignedint64 (input : bytes) : option (Z * bytes) := GetVarsignedint64Ptr input.

(** ** Appending to strings *)

Definition PutVarint32 (dst : bytes) (v : Z) : bytes := dst ++ EncodeVarint32 v.
Definition PutVarint32Varint32 (dst : bytes) (v1 v2 : Z) : bytes :=
  dst ++ EncodeVarint32 v1 ++ EncodeVarint32 v2.
Definition PutVarint32Varint32Varint32 (dst : bytes) (v1 v2 v3 : Z) : bytes :=
  dst ++ EncodeVarint32 v1 ++ EncodeVarint32 v2 ++ EncodeVarint32 v3.
Definition PutVarint64 (dst : bytes) (v : Z) : bytes := dst ++ EncodeVarint64 v.
Definition PutVarsignedint64 (dst : bytes) (v : Z) : bytes :=
  dst ++ EncodeVarint64 (i64ToZigzag v).
Definition PutVarint64Varint64 (dst : bytes) (v1 v2 : Z) : bytes :=
  dst ++ EncodeVarint64 v1 ++ EncodeVarint64 v2.
Definition PutVarint32Varint64 (dst : bytes) (v1 v2 : Z) : bytes :=
  dst ++ EncodeVarint32 v1 ++ EncodeVarint64 v2.
Definition PutVarint32Varint32Varint64 (dst : bytes) (v1 v2 v3 : Z) : bytes :=
  dst ++ EncodeVarint32 v1 ++ EncodeVarint32 v2 ++ EncodeVarint64 v3.

Definition PutLengthPrefixedSlice (dst value : bytes) : bytes :=
  PutVarint32 dst (u32 (Z.of_nat (length value))) ++ value.

(** [size_t] arithmetic on the sizes of the parts. *)
Definition PutLengthPrefixedSliceParts (dst : bytes) (total_bytes : Z) (parts : list bytes) : bytes :=
  let total := foldl (fun t (p : bytes) => u64 (t + Z.of_nat (length p))) total_bytes parts in
  foldl (fun d (p : bytes) => d ++ p) (PutVarint32 dst (u32 total)) parts.
Definition PutLengthPrefixedSlicePartsWithPadding (dst : bytes) (parts : list bytes) (pad_sz : nat) : bytes :=
  PutLengthPrefixedSliceParts dst (Z.of_nat pad_sz) parts ++ replicate pad_sz Byte.x00.

(** On failure the input may already be past the length: the callers of the
    code only look at it after success. *)
Definition GetLengthPrefixedSlice (input : bytes) : option (bytes * bytes) :=
  '(len, input) ← GetVarint32 input;
  if len <=? Z.of_nat (length input)
  then Some (take (Z.to_nat len) input, drop (Z.to_nat len) input) else None.

(** The loop of [GetSliceUntil]: the length of the part before the delimiter.
    Its 32-bit counter does not wrap on slices shorter than 2^32. *)
Fixpoint until_length (delimiter : Byte.byte) (data : bytes) : nat :=
  match data with
  | [] => O
  | b :: data' => if Byte.eqb b delimiter then O else S (until_length delimiter data')
  end.
Definition GetSliceUntil (slice : bytes) (delimiter : Byte.byte) : bytes * bytes :=
  let len := until_length delimiter slice in
  (take len slice, drop (len + if (len <? length slice)%nat then 1 else 0) slice).

(** ** Lemmas *)

Lemma le_bytes_of_shifts (little : bool) v : EncodeFixed32 little v = le_bytes 4 v.
Proof.
  destruct little; [done|]. cbn [EncodeFixed32 le_bytes].
  change 0xff with (Z.ones 8). rewrite !Z.land_ones by lia.
  rewrite !Z.div_div by lia. rewrite !Z.shiftr_div_pow2 by lia.
  repeat (apply f_equal2; [apply byte_of_eq; by rewrite Z.mod_mod by lia|]). done.
Qed.

Lemma shiftr7_lt v : 128 <= v -> 0 <= Z.shiftr v 7 < v.
Proof.
  intros. rewrite Z.shiftr_div_pow2 by lia. split; [apply Z.div_pos|apply Z.div_lt]; lia.
Qed.

Lemma log2_shiftr7 v : 128 <= v -> Z.log2 (Z.shiftr v 7) = Z.log2 v - 7.
Proof.
  intros. rewrite Z.log2_shiftr by lia.
  assert (7 <= Z.log2 v) by (by apply (Z.log2_le_mono 128)). lia.
Qed.

(** The fuel is enough: the loop is its own unfolding. *)
Lemma varint64_loop_enough fuel v :
  0 <= v -> (Z.to_nat (Z.log2 v) < fuel)%nat ->
  varint64_loop fuel v = varint64_loop (S (Z.to_nat (Z.log2 v))) v.
Proof.
  revert v. induction fuel as [fuel IH] using lt_wf_ind. intros v Hv Hf.
  destruct fuel as [|fuel]; [lia|]. cbn [varint64_loop].
  destruct (Z.ltb_spec v 128); [done|]. f_equal.
  assert (7 <= Z.log2 v) by (by apply (Z.log2_le_mono 128)).
  assert (0 <= Z.shiftr v 7) by (apply shiftr7_lt; lia).
  rewrite (IH fuel) by (rewrite ?log2_shiftr7; lia).
  destruct (Z.to_nat (Z.log2 v)) as [|f'] eqn:E; [lia|].
  destruct (decide (S f' = fuel)) as [<-|Hne].
  - symmetry. apply IH; rewrite ?log2_shiftr7; lia.
  - symmetry. apply IH; rewrite ?log2_shiftr7; lia.
Qed.

Lemma EncodeVarint64_unfold v :
  0 <= v ->
  EncodeVarint64 v =
    if v <? 128 then [byte_of v]
    else byte_of (Z.lor (Z.land v 127) 128) :: EncodeVarint64 (Z.shiftr v 7).
Proof.
  intros Hv. unfold EncodeVarint64 at 1. cbn [varint64_loop].
  destruct (Z.ltb_spec v 128); [done|]. f_equal.
  assert (7 <= Z.log2 v) by (by apply (Z.log2_le_mono 128)).
  apply varint64_loop_enough; [apply shiftr7_lt; lia|]. rewrite log2_shiftr7; lia.
Qed.

(** Induction along the seven-bit groups of a number. *)
Lemma varint_ind (P : Z -> Prop) :
  (forall v, 0 <= v < 128 -> P v) ->
  (forall v, 128 <= v -> P (Z.shiftr v 7) -> P v) -> forall v, 0 <= v -> P v.
Proof.
  intros H0 HS v Hv. revert v Hv. apply Zlt_0_ind. intros v IH Hv.
  destruct (decide (v < 128)); [apply H0; lia|]. apply HS; [lia|].
  apply IH. apply shiftr7_lt. lia.
Qed.

Lemma byte_of_more x : byte_of (Z.lor x 128) = byte_of (Z.lor (Z.land x 127) 128).
Proof.
  apply byte_of_eq. change 256 with (2 ^ 8). change 127 with (Z.ones 7).
  bitwise i Hi. destruct (Z.ltb_spec i 8), (Z.ltb_spec i 7); try lia; try btauto.
  replace i with 7 by lia. cbn. by rewrite !orb_true_r.
Qed.

Lemma EncodeVarint32_64 v : 0 <= v < 2 ^ 32 -> EncodeVarint32 v = EncodeVarint64 v.
Proof.
  intros Hv. unfold EncodeVarint32.
  assert (forall n, 0 <= n -> 0 <= Z.shiftr v n) by (intros; apply Z.shiftr_nonneg; lia).
  assert (forall n, 0 <= n -> (Z.shiftr v n <? 128) = (v <? 128 * 2 ^ n)) as Hlt.
  { intros n Hn. rewrite Z.shiftr_div_pow2 by lia. apply eq_true_iff_eq.
    rewrite !Z.ltb_lt. split; intros Hl; [|apply Z.div_lt_upper_bound; lia].
    pose proof (Z.div_mod v (2 ^ n)). pose proof (Z.mod_pos_bound v (2 ^ n)). nia. }
  rewrite (byte_of_more v), (byte_of_more (Z.shiftr v 7)), (byte_of_more (Z.shiftr v 14)),
    (byte_of_more (Z.shiftr v 21)).
  rewrite (EncodeVarint64_unfold v) by lia. change (2 ^ 7) with 128.
  destruct (Z.ltb_spec v 128); [done|]. rewrite EncodeVarint64_unfold, Hlt by auto with lia.
  change (128 * 2 ^ 7) with (2 ^ 14). destruct (Z.ltb_spec v (2 ^ 14)); [done|].
  rewrite Z.shiftr_shiftr, EncodeVarint64_unfold, Hlt by auto with lia.
  change (128 * 2 ^ (7 + 7)) with (2 ^ 21). destruct (Z.ltb_spec v (2 ^ 21)); [done|].
  rewrite Z.shiftr_shiftr, EncodeVarint64_unfold, Hlt by auto with lia.
  change (128 * 2 ^ (7 + 7 + 7)) with (2 ^ 28). destruct (Z.ltb_spec v (2 ^ 28)); [done|].
  rewrite Z.shiftr_shiftr, EncodeVarint64_unfold, Hlt by auto with lia.
  change (128 * 2 ^ (7 + 7 + 7 + 7)) with (2 ^ 35). by destruct (Z.ltb_spec v (2 ^ 35)); [|lia].
Qed.

Lemma varint_length_loop_len fuel v len :
  varint_length_loop fuel v len = len + varint_length_loop fuel v 0.
Proof.
  revert v len. induction fuel as [|fuel IH]; intros v len; cbn; [lia|].
  destruct (128 <=? v); [|lia]. rewrite IH, (IH _ 1). lia.
Qed.

Lemma varint_length_loop_enc fuel v :
  (Z.to_nat (Z.log2 v) < fuel)%nat -> 0 <= v ->
  1 + varint_length_loop fuel v 0 = Z.of_nat (length (varint64_loop fuel v)).
Proof.
  revert v. induction fuel as [|fuel IH]; intros v Hf Hv; [lia|]. cbn [varint_length_loop varint64_loop].
  destruct (Z.ltb_spec v 128), (Z.leb_spec 128 v); try lia; [done|].
  assert (7 <= Z.log2 v) by (by apply (Z.log2_le_mono 128)).
  assert (0 <= Z.shiftr v 7) by (apply shiftr7_lt; lia).
  rewrite varint_length_loop_len. cbn [length]. rewrite Nat2Z.inj_succ, <- IH; [lia| |lia].
  rewrite log2_shiftr7; lia.
Qed.

Lemma VarintLength_spec v : 0 <= v -> VarintLength v = Z.of_nat (length (EncodeVarint64 v)).
Proof.
  intros. unfold VarintLength, EncodeVarint64. rewrite varint_length_loop_len.
  by apply varint_length_loop_enc; [lia|].
Qed.

(** A number of at most [7 n] bits has at most [n] groups. *)
Lemma length_varint (n : nat) v :
  0 <= v < 2 ^ (7 * Z.of_nat (S n)) -> (length (EncodeVarint64 v) <= S n)%nat.
Proof.
  revert v. induction n as [|n IH]; intros v Hv; rewrite EncodeVarint64_unfold by lia.
  - destruct (Z.ltb_spec v 128); [done|]. cbn in Hv. lia.
  - destruct (Z.ltb_spec v 128); cbn [length]; [lia|]. apply le_n_S, IH.
    replace (7 * Z.of_nat (S n)) with (7 * Z.of_nat (S (S n)) - 7) by lia.
    apply shiftr_range; lia.
Qed.

(** Decoding one group. *)
Lemma varint_loop_last last wrap shift result b p :
  shift <= last -> 0 <= b < 128 ->
  varint_loop last wrap shift result (byte_of b :: p) =
    Some (Z.lor result (wrap (Z.shiftl b shift)), p).
Proof.
  intros Hs Hb. cbn [varint_loop]. rewrite byte_val_of, Z.mod_small by lia.
  destruct (Z.ltb_spec last shift); [lia|].
  replace (Z.land b 128) with 0; [done|]. symmetry. bitwise i Hi.
  destruct (decide (i = 7)) as [->|].
  - rewrite (testbit_high b 7); [done|lia..].
  - change 128 with (2 ^ 7). rewrite Z.pow2_bits_eqb by lia.
    destruct (Z.eqb_spec 7 i); [lia|]. apply andb_false_r.
Qed.

Lemma varint_loop_more last wrap shift result v p :
  shift <= last ->
  varint_loop last wrap shift result (byte_of (Z.lor (Z.land v 127) 128) :: p) =
    varint_loop last wrap (shift + 7) (Z.lor result (wrap (Z.shiftl (Z.land v 127) shift))) p.
Proof.
  intros Hs. cbn [varint_loop]. rewrite byte_val_of.
  assert (Z.lor (Z.land v 127) 128 mod 256 = Z.lor (Z.land v 127) 128) as ->.
  { apply Z.mod_small, (lor_range _ _ 8); [lia| |lia]. change 127 with (Z.ones 7).
    pose proof (land_ones_range v 7). lia. }
  destruct (Z.ltb_spec last shift); [lia|].
  assert (Z.land (Z.lor (Z.land v 127) 128) 128 = 128) as ->.
  { rewrite Z.land_lor_distr_l, <- Z.land_assoc. change (Z.land 127 128) with 0.
    by rewrite Z.land_0_r. }
  rewrite Z.land_lor_distr_l, <- Z.land_assoc. cbn [negb Z.eqb].
  change (Z.land 127 127) with 127. change (Z.land 128 127) with 0. by rewrite Z.lor_0_r.
Qed.

(** Decoding an encoded number into bits [7 k] and up of a [w]-bit result. *)
Lemma varint_loop_encoded last w v k result rest :
  (forall j, 7 * j < w -> 7 * j <= last) ->
  0 <= v -> 0 <= k -> 7 * k <= last -> 0 <= result < 2 ^ (7 * k) -> v * 2 ^ (7 * k) < 2 ^ w ->
  varint_loop last (fun x => x mod 2 ^ w) (7 * k) result (EncodeVarint64 v ++ rest) =
    Some (result + v * 2 ^ (7 * k), rest).
Proof.
  intros Hlast Hv. revert k result. revert v Hv.
  refine (varint_ind _ _ _); intros v Hv.
  - intros k result Hk Hl Hr Hw. rewrite EncodeVarint64_unfold by lia.
    destruct (Z.ltb_spec v 128); [|lia]. cbn [app]. rewrite varint_loop_last by lia.
    rewrite Z.mod_small, lor_high by (rewrite ?Z.shiftl_mul_pow2; lia). done.
  - intros IH k result Hk Hl Hr Hw. rewrite EncodeVarint64_unfold by lia.
    destruct (Z.ltb_spec v 128); [lia|]. cbn [app]. rewrite varint_loop_more by lia.
    change 127 with (Z.ones 7). rewrite Z.land_ones, Z.shiftr_div_pow2 in * by lia.
    pose proof (Z.div_mod v (2 ^ 7) ltac:(lia)) as Hdm.
    pose proof (Z.mod_pos_bound v (2 ^ 7) ltac:(lia)) as Hm.
    assert (1 <= v / 2 ^ 7) by (apply Z.div_le_lower_bound; lia).
    assert (2 ^ (7 * (k + 1)) = 2 ^ 7 * 2 ^ (7 * k)) as Hp.
    { rewrite <- Z.pow_add_r by lia. f_equal. lia. }
    assert (v / 2 ^ 7 * 2 ^ (7 * (k + 1)) <= v * 2 ^ (7 * k)) by (rewrite Hp; nia).
    rewrite Z.mod_small, lor_high by (rewrite ?Z.shiftl_mul_pow2 by lia; nia).
    replace (7 * k + 7) with (7 * (k + 1)) by lia. rewrite IH; [|lia| |nia|nia].
    + do 2 f_equal. rewrite Hp. nia.
    + apply Hlast. apply (Z.pow_lt_mono_r_iff 2); [lia| |nia].
      destruct (decide (0 <= w)); [done|]. rewrite (Z.pow_neg_r 2 w) in Hw by lia. nia.
Qed.

Lemma GetVarint64_encoded v rest :
  0 <= v < 2 ^ 64 -> GetVarint64 (EncodeVarint64 v ++ rest) = Some (v, rest).
Proof.
  intros Hv. unfold GetVarint64, GetVarint64Ptr, u64.
  rewrite (varint_loop_encoded 63 64 v 0 0) by (try lia; intros; lia).
  do 2 f_equal. lia.
Qed.

Lemma GetVarint32Ptr_loop p : GetVarint32Ptr p = GetVarint32PtrFallback p.
Proof.
  destruct p as [|b p]; [done|]. cbn [GetVarint32Ptr]. unfold GetVarint32PtrFallback. cbn [varint_loop].
  destruct (Z.land (byte_val b) 128 =? 0) eqn:E; [|done]. cbn. rewrite Z.shiftl_0_r, Z.lor_0_l.
  pose proof (byte_val_range b). by rewrite u32_small by lia.
Qed.

Lemma GetVarint32_encoded v rest :
  0 <= v < 2 ^ 32 -> GetVarint32 (EncodeVarint32 v ++ rest) = Some (v, rest).
Proof.
  intros Hv. unfold GetVarint32. rewrite GetVarint32Ptr_loop. unfold GetVarint32PtrFallback, u32.
  rewrite EncodeVarint32_64 by lia.
  rewrite (varint_loop_encoded 28 32 v 0 0) by (try lia; intros; lia).
  do 2 f_equal. lia.
Qed.

(** All bytes but the last announce another one, so a truncated encoding is
    rejected. *)
Lemma varint_loop_truncated last wrap v (k : nat) shift result :
  0 <= v -> (k < length (EncodeVarint64 v))%nat ->
  varint_loop last wrap shift result (take k (EncodeVarint64 v)) = None.
Proof.
  intros Hv. revert k shift result. revert v Hv.
  refine (varint_ind _ _ _); intros v Hv.
  - intros k shift result. rewrite EncodeVarint64_unfold by lia.
    destruct (Z.ltb_spec v 128); [|lia]. by destruct k; [|cbn; lia].
  - intros IH k shift result. rewrite EncodeVarint64_unfold by lia.
    destruct (Z.ltb_spec v 128); [lia|]. destruct k as [|k]; [done|]. cbn [take length]. intros Hk.
    destruct (Z.ltb_spec last shift) as [Hl|Hl].
    + cbn [varint_loop]. by destruct (Z.ltb_spec last shift); [|lia].
    + rewrite varint_loop_more by lia. apply IH. lia.
Qed.

(** [at_] of a list with enough elements. *)
Lemma le_val_lor a b c d :
  Z.lor (Z.lor (Z.lor (byte_val a) (Z.shiftl (byte_val b) 8)) (Z.shiftl (byte_val c) 16))
    (Z.shiftl (byte_val d) 24) = le_val [a; b; c; d].
Proof.
  pose proof (byte_val_range a). pose proof (byte_val_range b). pose proof (byte_val_range c).
  pose proof (byte_val_range d).
  rewrite (lor_high (byte_val a) _ 8), (lor_high _ _ 16), (lor_high _ _ 24) by lia.
  cbn [le_val]. lia.
Qed.

Lemma DecodeFixed32_le little ptr :
  (4 <= length ptr)%nat -> DecodeFixed32 little ptr = le_val (take 4 ptr).
Proof.
  intros Hl. destruct little; [done|]. do 4 (destruct ptr as [|? ptr]; [cbn in Hl; lia|]).
  apply le_val_lor.
Qed.

Lemma DecodeFixed32_encoded little v rest :
  0 <= v < 2 ^ 32 -> DecodeFixed32 little (EncodeFixed32 little v ++ rest) = v.
Proof.
  intros Hv. rewrite le_bytes_of_shifts, DecodeFixed32_le; [|by rewrite length_app, length_le_bytes; lia].
  rewrite take_app_length' by (by rewrite length_le_bytes). rewrite le_val_bytes. by apply Z.mod_small.
Qed.

Lemma DecodeFixed64_le little ptr :
  (8 <= length ptr)%nat -> DecodeFixed64 little ptr = le_val (take 8 ptr).
Proof.
  intros Hl. unfold DecodeFixed64. destruct little; [done|].
  rewrite !DecodeFixed32_le by (rewrite ?length_drop; lia).
  do 8 (destruct ptr as [|? ptr]; [cbn in Hl; lia|]). cbn [take drop].
  match goal with |- Z.lor (u64 (Z.shiftl (le_val ?h) 32)) (le_val ?l) = _ =>
    pose proof (le_val_range h) as Hh; pose proof (le_val_range l) as Hlo end.
  change (256 ^ Z.of_nat _) with (2 ^ 32) in Hh, Hlo. rewrite Z.lor_comm. unfold u64.
  rewrite Z.mod_small by (rewrite Z.shiftl_mul_pow2; lia). rewrite lor_high by lia.
  cbn [le_val]. lia.
Qed.

Lemma EncodeFixed64_le little v : EncodeFixed64 little v = le_bytes 8 v.
Proof.
  destruct little; [done|]. cbn [EncodeFixed64 le_bytes].
  change 0xff with (Z.ones 8). rewrite !Z.land_ones by lia.
  rewrite !Z.div_div by lia. rewrite !Z.shiftr_div_pow2 by lia.
  repeat (apply f_equal2; [apply byte_of_eq; by rewrite Z.mod_mod by lia|]). done.
Qed.

Lemma zigzag_inv l : - 2 ^ 63 <= l < 2 ^ 63 ->
  0 <= i64ToZigzag l < 2 ^ 64 /\ zigzagToI64 (i64ToZigzag l) = l.
Proof.
  intros Hl. unfold i64ToZigzag, zigzagToI64, i64, u64. rewrite !Z.shiftl_mul_pow2 by lia.
  rewrite !Z.shiftr_div_pow2 by lia. rewrite (Z.land_ones _ 1 ltac:(lia) : Z.land _ 1 = _).
  destruct (decide (0 <= l)) as [H0|H0].
  - rewrite (Z.mod_small l), (Z.mod_small (l * _)), (Z.div_small l) by lia.
    rewrite Z.mod_0_l, Z.lxor_0_r, Z.div_mul, Z.mod_mul by lia.
    split; [lia|]. cbn [Z.opp]. rewrite Z.mod_0_l, Z.lxor_0_r, Z.mod_small by lia.
    destruct (Z.ltb_spec l (2 ^ 63)); lia.
  - assert (l mod 2 ^ 64 = l + 2 ^ 64) as -> by (symmetry; apply (Z.mod_unique _ _ (-1)); lia).
    assert (l / 2 ^ 63 = -1) as -> by (symmetry; apply (Z.div_unique _ _ _ (l + 2 ^ 63)); lia).
    assert (((l + 2 ^ 64) * 2 ^ 1) mod 2 ^ 64 = 2 * l + 2 ^ 64) as ->
      by (symmetry; apply (Z.mod_unique _ _ 1); lia).
    assert ((-1) mod 2 ^ 64 = Z.ones 64) as -> by done.
    rewrite lxor_ones by lia. replace (Z.ones 64 - (2 * l + 2 ^ 64)) with (- l * 2 - 1)
      by (change (Z.ones 64) with (2 ^ 64 - 1); lia).
    split; [lia|].
    assert ((- l * 2 - 1) / 2 ^ 1 = - l - 1) as -> by (symmetry; apply (Z.div_unique _ _ _ 1); lia).
    assert ((- l * 2 - 1) mod 2 ^ 1 = 1) as -> by (symmetry; apply (Z.mod_unique _ _ (- l - 1)); lia).
    change ((- (1)) mod 2 ^ 64) with (Z.ones 64). rewrite lxor_ones by lia.
    change (Z.ones 64) with (2 ^ 64 - 1). rewrite Z.mod_small by lia.
    destruct (Z.ltb_spec (2 ^ 64 - 1 - (- l - 1)) (2 ^ 63)); lia.
Qed.

Lemma total_parts parts t :
  0 <= t -> t + Z.of_nat (length (concat parts)) < 2 ^ 64 ->
  foldl (fun t (p : bytes) => u64 (t + Z.of_nat (length p))) t parts =
    t + Z.of_nat (length (concat parts)).
Proof.
  revert t. induction parts as [|p ps IH]; intros t Ht Hl; cbn in *; [lia|].
  rewrite length_app in *. rewrite IH; rewrite u64_small by lia; lia.
Qed.

Lemma append_parts (parts : list bytes) d : foldl (fun d p => d ++ p) d parts = d ++ concat parts.
Proof.
  revert d. induction parts as [|p ps IH]; intros d; cbn; [by rewrite app_nil_r|].
  by rewrite IH, app_assoc.
Qed.

Lemma GetLengthPrefixed_encoded value rest :
  Z.of_nat (length value) < 2 ^ 32 ->
  GetLengthPrefixedSlice (PutLengthPrefixedSlice [] value ++ rest) = Some (value, rest).
Proof.
  intros Hl. unfold GetLengthPrefixedSlice, PutLengthPrefixedSlice, PutVarint32. cbn [app].
  rewrite u32_small, <- app_assoc, GetVarint32_encoded by lia. cbn.
  rewrite Nat2Z.id, take_app_length, drop_app_length.
  destruct (Z.leb_spec (Z.of_nat (length value)) (Z.of_nat (length (value ++ rest)))) as [|H]; [done|].
  rewrite length_app in H. lia.
Qed.

(** ** Properties *)

(** C33. The variable-length encoding round-trips: what [PutVarint64] appends,
    [GetVarint64] reads back with the input left just behind it; a truncated
    encoding is rejected; [VarintLength] predicts the size, which fits the
    ten-byte buffer of the code. On 32-bit values the unrolled [EncodeVarint32]
    writes the same bytes, at most five, and [GetVarint32] reads them back. *)
Theorem varint_round_trip (v : Z) (dst rest : bytes) :
  0 <= v < 2 ^ 64 ->
  (exists enc, PutVarint64 dst v = dst ++ enc /\
    GetVarint64 (enc ++ rest) = Some (v, rest) /\
    (forall k, (k < length enc)%nat -> GetVarint64 (take k enc) = None) /\
    VarintLength v = Z.of_nat (length enc) /\ (length enc <= kMaxVarint64Length)%nat) /\
  (v < 2 ^ 32 ->
   exists enc, PutVarint32 dst v = dst ++ enc /\ PutVarint64 dst v = dst ++ enc /\
    GetVarint32 (enc ++ rest) = Some (v, rest) /\
    (forall k, (k < length enc)%nat -> GetVarint32 (take k enc) = None) /\
    (length enc <= 5)%nat).
Proof.
  intros Hv. split.
  - exists (EncodeVarint64 v). split; [done|]. split; [by apply GetVarint64_encoded|].
    split; [intros; apply varint_loop_truncated; lia|].
    split; [apply VarintLength_spec; lia|]. apply (length_varint 9). cbn. lia.
  - intros Hv'. exists (EncodeVarint32 v). split; [done|].
    split; [by unfold PutVarint64; rewrite EncodeVarint32_64 by lia|].
    split; [apply GetVarint32_encoded; lia|]. rewrite EncodeVarint32_64 by lia. split.
    + intros k Hk. unfold GetVarint32. rewrite GetVarint32Ptr_loop. apply varint_loop_truncated; lia.
    + apply (length_varint 4). cbn. lia.
Qed.

Lemma varint_round_trip_witness :
  exists enc, PutVarint32 [] 300 = enc /\ enc = [Byte.xac; Byte.x02] /\
    GetVarint32 (enc ++ [Byte.x07]) = Some (300, [Byte.x07]).
Proof.
  destruct (varint_round_trip 300 [] [Byte.x07] ltac:(lia)) as [_ H].
  destruct (H ltac:(lia)) as (enc & He & _ & Hg & _). exists enc.
  split; [exact He|]. split; [|exact Hg]. transitivity (PutVarint32 [] 300); [exact (eq_sym He)|reflexivity].
Defined.

(** Fixed-width integers do not depend on the byte order of the host: both
    branches of [EncodeFixed32] and [EncodeFixed64] write, and both branches of
    the decoders read, the little-endian bytes, so a number written on one
    machine is read back on any other. *)
Theorem fixed_host_independent (w r : bool) (v : Z) (rest : bytes) :
  (0 <= v < 2 ^ 32 -> GetFixed32 r (PutFixed32 w [] v ++ rest) = Some (v, rest) /\
     PutFixed32 w [] v = le_bytes 4 v) /\
  (0 <= v < 2 ^ 64 -> GetFixed64 r (PutFixed64 w [] v ++ rest) = Some (v, rest) /\
     PutFixed64 w [] v = le_bytes 8 v).
Proof.
  assert (PutFixed32 w [] v = le_bytes 4 v) as H4
    by (destruct w; [done|]; apply (le_bytes_of_shifts false)).
  assert (PutFixed64 w [] v = le_bytes 8 v) as H8
    by (destruct w; [done|]; apply (EncodeFixed64_le false)).
  split; intros Hv; (split; [|done]); rewrite ?H4, ?H8; unfold GetFixed32, GetFixed64;
    rewrite length_app, length_le_bytes; cbn [Nat.ltb Nat.leb Nat.add];
    rewrite drop_app_length' by (by rewrite length_le_bytes); do 2 f_equal.
  - rewrite DecodeFixed32_le by (rewrite length_app, length_le_bytes; lia).
    rewrite take_app_length', le_val_bytes by (by rewrite length_le_bytes). by apply Z.mod_small.
  - rewrite DecodeFixed64_le by (rewrite length_app, length_le_bytes; lia).
    rewrite take_app_length', le_val_bytes by (by rewrite length_le_bytes). by apply Z.mod_small.
Qed.

Lemma fixed_host_independent_witness :
  GetFixed32 true (PutFixed32 false [] 305419896 ++ [Byte.x09]) = Some (305419896, [Byte.x09]).
Proof.
  exact (proj1 (proj1 (fixed_host_independent false true 305419896 [Byte.x09]) ltac:(lia))).
Defined.

(** Strings and signed numbers round-trip: a list of parts is written as one
    length-prefixed string, with its padding, and read back whole; a signed
    64-bit number is read back from its zigzag encoding. *)
Theorem parts_and_signed_round_trip (parts : list bytes) (pad : nat) (l : Z) (dst rest : bytes) :
  Z.of_nat (length (concat parts)) + Z.of_nat pad < 2 ^ 32 -> - 2 ^ 63 <= l < 2 ^ 63 ->
  (exists enc, PutLengthPrefixedSlicePartsWithPadding dst parts pad = dst ++ enc /\
     GetLengthPrefixedSlice (enc ++ rest) = Some (concat parts ++ replicate pad Byte.x00, rest)) /\
  (exists enc, PutVarsignedint64 dst l = dst ++ enc /\
     GetVarsignedint64 (enc ++ rest) = Some (l, rest)).
Proof.
  intros Hp Hl. split.
  - exists (PutLengthPrefixedSlice [] (concat parts ++ replicate pad Byte.x00)). split.
    + unfold PutLengthPrefixedSlicePartsWithPadding, PutLengthPrefixedSliceParts, PutLengthPrefixedSlice.
      rewrite append_parts, total_parts by lia. unfold PutVarint32.
      rewrite length_app, length_replicate, Nat2Z.inj_add, <- !app_assoc.
      by rewrite (Z.add_comm (Z.of_nat pad)).
    + apply GetLengthPrefixed_encoded. rewrite length_app, length_replicate. lia.
  - exists (EncodeVarint64 (i64ToZigzag l)). split; [done|].
    destruct (zigzag_inv l Hl) as [Hr Hz]. unfold GetVarsignedint64, GetVarsignedint64Ptr.
    fold (GetVarint64 (EncodeVarint64 (i64ToZigzag l) ++ rest)).
    rewrite GetVarint64_encoded by done. cbn. by rewrite Hz.
Qed.

Lemma parts_and_signed_round_trip_witness :
  exists enc, PutVarsignedint64 [] (-3) = enc /\ GetVarsignedint64 (enc ++ []) = Some (-3, []).
Proof.
  destruct (parts_and_signed_round_trip [[Byte.x61]; [Byte.x62]] 1 (-3) [] []) as [_ H].
  - reflexivity.
  - split; [intros H; discriminate H|reflexivity].
  - exact H.
Defined.
