(* ===== verification/Crc32cSpec.v ===== *)
(** The table-driven CRC-32C computes the bit-serial one, for every alignment
    of the buffer, and [Crc32cCombine] computes the checksum of a concatenation. *)
From S2P Require Import Prelude Bits Coding Crc32c.
From stdpp Require Import base numbers list.
From Stdlib Require Import ZArith Lia Btauto.
Local Open Scope Z_scope.

(** Equalities of exclusive ors. *)
Ltac xors := let i := fresh "i" in let Hi := fresh "Hi" in bitwise i Hi; btauto.

Lemma odd_lxor a b : Z.odd (Z.lxor a b) = xorb (Z.odd a) (Z.odd b).
Proof. by rewrite <- !Z.bit0_odd, Z.lxor_spec. Qed.

(** ** Multiplication by x is linear *)

Lemma xtime_lxor a b : xtime (Z.lxor a b) = Z.lxor (xtime a) (xtime b).
Proof.
  unfold xtime. rewrite Z.shiftr_lxor, odd_lxor. generalize (Z.shiftr a 1) (Z.shiftr b 1).
  intros c d. destruct (Z.odd a), (Z.odd b); cbn [xorb]; xors.
Qed.

Lemma xpow_succ n a : xpow (S n) a = xtime (xpow n a).
Proof. reflexivity. Qed.

Lemma xpow_lxor n a b : xpow n (Z.lxor a b) = Z.lxor (xpow n a) (xpow n b).
Proof. induction n as [|n IH]; [done|]. by rewrite !xpow_succ, IH, xtime_lxor. Qed.

Lemma xpow_0 n : xpow n 0 = 0.
Proof. induction n as [|n IH]; [done|]. by rewrite xpow_succ, IH. Qed.

Lemma xpow_add n k a : xpow (n + k) a = xpow n (xpow k a).
Proof. apply Nat.iter_add. Qed.

Lemma xpow_S n a : xpow (S n) a = xpow n (xtime a).
Proof. by rewrite <- Nat.add_1_r, xpow_add. Qed.

(** Appending a zero bit. *)
Lemma xtime_shiftl a : xtime (Z.shiftl a 1) = a.
Proof.
  unfold xtime. rewrite Z.shiftl_mul_pow2, Z.odd_mul, andb_false_r, Z.lxor_0_r by lia.
  rewrite <- Z.shiftl_mul_pow2, Z.shiftr_shiftl_l by lia. by rewrite Z.shiftl_0_r.
Qed.

Lemma xpow_shiftl n k a : (k <= n)%nat -> xpow n (Z.shiftl a (Z.of_nat k)) = xpow (n - k) a.
Proof.
  revert n. induction k as [|k IH]; intros n Hk; [by rewrite Z.shiftl_0_r, Nat.sub_0_r|].
  destruct n as [|n]; [lia|]. rewrite Nat2Z.inj_succ, <- Z.add_1_r, <- Z.shiftl_shiftl by lia.
  rewrite xpow_S, xtime_shiftl. apply IH. lia.
Qed.

Lemma xtime_range a : 0 <= a < 2 ^ 32 -> 0 <= xtime a < 2 ^ 32.
Proof.
  intros Ha. apply lxor_range; [lia| |].
  - pose proof (shiftr_range a 32 1). lia.
  - destruct (Z.odd a); unfold crc32c_m; lia.
Qed.

Lemma xpow_range n a : 0 <= a < 2 ^ 32 -> 0 <= xpow n a < 2 ^ 32.
Proof. intros. induction n; [done|]. rewrite xpow_succ. by apply xtime_range. Qed.

(** ** The tables *)

(** A table holds the products of the bytes with a power of x. *)
Definition table_of (n : nat) : list Z := (fun c => xpow n (Z.of_nat c)) <$> seq 0 256.

Lemma tables : table0_ = table_of 8 /\ table1_ = table_of 16 /\ table2_ = table_of 24 /\
  table3_ = table_of 32.
Proof. repeat split; vm_compute; reflexivity. Qed.

Lemma entry_table_of n c : 0 <= c < 256 -> entry (table_of n) c = xpow n c.
Proof.
  intros Hc. unfold entry, table_of. rewrite <- (Z2Nat.id c) at 2 by lia.
  apply nth_lookup_Some. rewrite list_lookup_fmap, lookup_seq_lt by lia. done.
Qed.

Lemma entries c : 0 <= c < 256 ->
  entry table0_ c = xpow 8 c /\ entry table1_ c = xpow 16 c /\
  entry table2_ c = xpow 24 c /\ entry table3_ c = xpow 32 c.
Proof. destruct tables as (-> & -> & -> & ->). intros. by rewrite !entry_table_of. Qed.

(** The lowest byte and the rest. *)
Lemma split_byte a : a = Z.lxor (Z.land a 0xff) (Z.shiftl (Z.shiftr a 8) 8).
Proof.
  change 0xff with (Z.ones 8). bitwise i Hi. destruct (Z.ltb_spec i 8).
  - rewrite (Z.testbit_neg_r _ (i - 8)) by lia. btauto.
  - rewrite Z.shiftr_spec by lia. replace (i - 8 + 8) with i by lia. btauto.
Qed.

Lemma low_byte_range a : 0 <= Z.land a 0xff < 256.
Proof. apply (land_ones_range a 8). lia. Qed.

(** ** One byte, one word *)

Lemma STEP1_spec l b : STEP1 l b = crc_byte l b.
Proof.
  unfold STEP1, crc_byte. pose proof (byte_val_range b). pose proof (low_byte_range l).
  destruct (entries (Z.lxor (Z.land l 0xff) (byte_val b))) as (-> & _).
  { apply (lxor_range _ _ 8); lia. }
  rewrite (split_byte l) at 3. rewrite Z.lxor_assoc, (Z.lxor_comm (Z.shiftl _ _)), <- Z.lxor_assoc.
  rewrite (xpow_lxor 8 _ (Z.shiftl _ _)). f_equal. symmetry. by apply (xpow_shiftl 8 8).
Qed.

Lemma slow_word_spec l p :
  0 <= l < 2 ^ 32 -> (4 <= length p)%nat -> slow_word l p = xpow 32 (Z.lxor l (LE_LOAD32 p)).
Proof.
  intros Hl Hp. unfold slow_word.
  assert (0 <= LE_LOAD32 p < 2 ^ 32) as Hw.
  { unfold LE_LOAD32. rewrite DecodeFixed32_le by done. pose proof (le_val_range (take 4 p)) as H.
    rewrite length_take in H. replace (4 `min` length p)%nat with 4%nat in H by lia. exact H. }
  pose proof (lxor_range l (LE_LOAD32 p) 32 ltac:(lia) Hl Hw) as Hc.
  rewrite u32_small by done. generalize dependent (Z.lxor l (LE_LOAD32 p)). intros c Hc.
  destruct (entries _ (low_byte_range c)) as (_ & _ & _ & ->).
  destruct (entries _ (low_byte_range (Z.shiftr c 8))) as (_ & _ & -> & _).
  destruct (entries _ (low_byte_range (Z.shiftr c 16))) as (_ & -> & _ & _).
  destruct (entries (Z.shiftr c 24)) as (-> & _ & _ & _).
  { pose proof (shiftr_range c 32 24 Hc). lia. }
  rewrite (split_byte c) at 5. rewrite (split_byte (Z.shiftr c 8)) at 2.
  rewrite Z.shiftr_shiftr, (split_byte (Z.shiftr c (8 + 8))) by lia.
  rewrite Z.shiftr_shiftr, !Z.shiftl_lxor, !Z.shiftl_shiftl by lia.
  rewrite !xpow_lxor, (xpow_shiftl 32 8), (xpow_shiftl 32 16), (xpow_shiftl 32 24) by lia.
  cbn [Nat.sub Z.add Pos.add]. by rewrite <- !Z.lxor_assoc.
Qed.

(** ** The whole buffer *)

Lemma le_val_cons b bs : le_val (b :: bs) = Z.lxor (byte_val b) (Z.shiftl (le_val bs) 8).
Proof.
  pose proof (byte_val_range b). rewrite lxor_high by lia. cbn [le_val]. lia.
Qed.

(** A checksum over bytes, in closed form: the polynomial of the bytes, added to
    the initial value and multiplied by a power of x. *)
Lemma crc_fold l bs : foldl crc_byte l bs = xpow (8 * length bs) (Z.lxor l (le_val bs)).
Proof.
  revert l. induction bs as [|b bs IH]; intros l; cbn [foldl length].
  - by rewrite Z.lxor_0_r.
  - rewrite IH, le_val_cons. unfold crc_byte.
    replace (8 * S (length bs))%nat with (8 * length bs + 8)%nat by lia.
    rewrite xpow_add, <- Z.lxor_assoc, (xpow_lxor 8 _ (Z.shiftl _ _)), (xpow_shiftl 8 8) by lia.
    done.
Qed.

Lemma crc_fold_range l bs : 0 <= l < 2 ^ 32 -> 0 <= foldl crc_byte l bs < 2 ^ 32.
Proof.
  revert l. induction bs as [|b bs IH]; intros l Hl; cbn [foldl]; [done|]. apply IH, xpow_range.
  apply lxor_range; [lia|done|]. pose proof (byte_val_range b). lia.
Qed.

Lemma slow_word_bytes l p :
  0 <= l < 2 ^ 32 -> (4 <= length p)%nat -> slow_word l p = foldl crc_byte l (take 4 p).
Proof.
  intros. rewrite slow_word_spec, crc_fold, length_take by done. unfold LE_LOAD32.
  rewrite DecodeFixed32_le by done. do 2 f_equal. lia.
Qed.

Lemma Slow_CRC32_spec l p :
  0 <= l < 2 ^ 32 -> (8 <= length p)%nat ->
  Slow_CRC32 l p = (foldl crc_byte l (take 8 p), drop 8 p).
Proof.
  intros Hl Hp. unfold Slow_CRC32. rewrite (slow_word_bytes l) by (done || lia).
  rewrite slow_word_bytes by (by apply crc_fold_range || (rewrite length_drop; lia)).
  rewrite drop_drop, <- foldl_app. do 2 f_equal.
  change 8%nat with (4 + 4)%nat. by rewrite <- take_take_drop.
Qed.

(** What an eight-byte routine must do. *)
Definition eight_bytes (CRC32 : Z -> bytes -> Z * bytes) : Prop :=
  forall l p, 0 <= l < 2 ^ 32 -> (8 <= length p)%nat ->
  CRC32 l p = (foldl crc_byte l (take 8 p), drop 8 p).

Section Extend.
Context (CRC32 : Z -> bytes -> Z * bytes) (Hcrc : eight_bytes CRC32).

Lemma loop16_spec fuel l p :
  0 <= l < 2 ^ 32 -> exists n, loop16 CRC32 fuel l p = (foldl crc_byte l (take n p), drop n p).
Proof.
  revert l p. induction fuel as [|fuel IH]; intros l p Hl; cbn [loop16]; [by exists O|].
  destruct (Nat.leb_spec 16 (length p)); [|by exists O].
  rewrite Hcrc, Hcrc; [|by apply crc_fold_range|rewrite length_drop; lia|done|lia].
  destruct (IH (foldl crc_byte (foldl crc_byte l (take 8 p)) (take 8 (drop 8 p))) (drop 8 (drop 8 p)))
    as (n & ->); [by do 2 apply crc_fold_range|].
  exists (8 + (8 + n))%nat. by rewrite <- !take_take_drop, !foldl_app, !drop_drop.
Qed.

Lemma loop8_spec fuel l p :
  0 <= l < 2 ^ 32 -> exists n, loop8 CRC32 fuel l p = (foldl crc_byte l (take n p), drop n p).
Proof.
  revert l p. induction fuel as [|fuel IH]; intros l p Hl; cbn [loop8]; [by exists O|].
  destruct (Nat.leb_spec 8 (length p)); [|by exists O]. rewrite Hcrc by (done || lia).
  destruct (IH (foldl crc_byte l (take 8 p)) (drop 8 p)) as (n & ->); [by apply crc_fold_range|].
  exists (8 + n)%nat. by rewrite <- take_take_drop, foldl_app, drop_drop.
Qed.

Lemma fold_STEP1 l bs : foldl STEP1 l bs = foldl crc_byte l bs.
Proof. revert l. induction bs as [|b bs IH]; intros l; cbn [foldl]; [done|]. by rewrite STEP1_spec. Qed.

Lemma ExtendImpl_spec pval crc buf :
  0 <= crc < 2 ^ 32 -> ExtendImpl CRC32 pval crc buf = crc_reference crc buf.
Proof.
  intros Hcrc32. unfold ExtendImpl, crc_reference. change 0xffffffff with (Z.ones 32).
  assert (0 <= Z.lxor crc (Z.ones 32) < 2 ^ 32) as Hl by (apply lxor_range; [lia|done|by split]).
  generalize dependent (Z.lxor crc (Z.ones 32)). intros l Hl.
  set (head := if _ <=? _ then _ else _).
  assert (exists n, head = (foldl crc_byte l (take n buf), drop n buf)) as (n & ->).
  { unfold head. destruct (_ <=? _); [|by exists O]. rewrite fold_STEP1. by eexists. }
  destruct (loop16_spec (length (drop n buf)) (foldl crc_byte l (take n buf)) (drop n buf)) as (k & ->);
    [by apply crc_fold_range|].
  match goal with |- context [loop8 _ ?f ?a ?b] =>
    destruct (loop8_spec f a b) as (j & ->); [by do 2 apply crc_fold_range|] end.
  rewrite fold_STEP1, <- !foldl_app. replace (_ ++ _) with buf.
  - apply u32_small, lxor_range; [lia|by apply crc_fold_range|by split].
  - by rewrite ?take_drop.
Qed.
End Extend.

Lemma Extend_spec crc buf : 0 <= crc < 2 ^ 32 -> Extend crc buf = crc_reference crc buf.
Proof. apply ExtendImpl_spec. intros l p. apply Slow_CRC32_spec. Qed.

(** ** Multiplication of polynomials *)

(** The sum of the [x^i a] over the coefficients of [b] below degree [n]. *)
Fixpoint gsum (n : nat) (a b : Z) : Z :=
  match n with
  | O => 0
  | S n' => Z.lxor (gsum n' a b) (if Z.testbit b (31 - Z.of_nat n') then xpow n' a else 0)
  end.

Lemma odd_testbit x : Z.odd x = Z.testbit x 0.
Proof. by rewrite Z.bit0_odd. Qed.

Lemma land_bit_mask x a :
  0 <= a < 2 ^ 32 -> Z.land (bit_mask x) a = if Z.odd x then a else 0.
Proof.
  intros Ha. unfold bit_mask. rewrite (Z.land_ones x 1 ltac:(lia) : Z.land x 1 = _).
  rewrite Z.pow_1_r, Zmod_odd. destruct (Z.odd x); [|done].
  change (u32 (0 - 1)) with (Z.ones 32). rewrite Z.land_comm, Z.land_ones by lia. by apply Z.mod_small.
Qed.

Lemma gf_multiply_gsum n k a b :
  0 <= a < 2 ^ 32 -> (k + n <= 32)%nat ->
  gf_multiply_sw_1 n (gsum k a b) (xpow k a) (u32 (Z.shiftl b (Z.of_nat k))) crc32c_m =
    gsum (k + n) a b.
Proof.
  intros Ha. revert k. induction n as [|n IH]; intros k Hk; [by rewrite Nat.add_0_r|].
  cbn [gf_multiply_sw_1]. rewrite !land_bit_mask by (try apply xpow_range; done || by split).
  rewrite odd_testbit, Z.shiftr_spec by lia. unfold u32 at 1. rewrite testbit_mod by lia.
  rewrite testbit_shiftl by lia. cbn [andb Z.add Z.ltb Z.compare Pos.compare Pos.compare_cont].
  rewrite <- Nat.add_succ_comm, <- IH by lia. f_equal.
  unfold u32. rewrite Nat2Z.inj_succ, <- Z.add_1_r, <- (Z.shiftl_shiftl b) by lia.
  generalize (Z.shiftl b (Z.of_nat k)). intros c. bitwise i Hi.
  destruct (Z.ltb_spec i 32), (Z.ltb_spec (i - 1) 32); done || lia.
Qed.

Lemma gf_multiply_n n a b :
  (n <= 32)%nat -> 0 <= a < 2 ^ 32 -> 0 <= b < 2 ^ 32 ->
  gf_multiply_sw_1 n 0 a b crc32c_m = gsum n a b.
Proof.
  intros Hn Ha Hb. pose proof (gf_multiply_gsum n 0 a b Ha Hn) as H.
  cbn [Z.of_nat] in H. rewrite Z.shiftl_0_r, u32_small in H by done. exact H.
Qed.

Lemma gf_multiply_sw_spec a b :
  0 <= a < 2 ^ 32 -> 0 <= b < 2 ^ 32 -> gf_multiply_sw a b crc32c_m = gsum 32 a b.
Proof. intros. apply gf_multiply_n; [lia|done..]. Qed.

Lemma gsum_0 n b : gsum n 0 b = 0.
Proof.
  induction n as [|n IH]; [done|]. cbn [gsum]. rewrite IH, xpow_0. by destruct (Z.testbit _ _).
Qed.

Lemma gsum_lxor n a a' b : gsum n (Z.lxor a a') b = Z.lxor (gsum n a b) (gsum n a' b).
Proof.
  induction n as [|n IH]; [done|]. cbn [gsum]. rewrite IH, xpow_lxor.
  destruct (Z.testbit _ _); xors.
Qed.

Lemma gsum_xpow n k a b : gsum n (xpow k a) b = xpow k (gsum n a b).
Proof.
  induction n as [|n IH]; [by rewrite xpow_0|]. cbn [gsum]. rewrite IH, xpow_lxor. f_equal.
  destruct (Z.testbit _ _); [|by rewrite xpow_0]. by rewrite <- !xpow_add, Nat.add_comm.
Qed.

Lemma gsum_swap n k c a b : gsum n (gsum k c a) b = gsum k (gsum n c b) a.
Proof.
  induction k as [|k IH]; [apply gsum_0|]. cbn [gsum]. rewrite gsum_lxor, IH. f_equal.
  destruct (Z.testbit _ _); [apply gsum_xpow|apply gsum_0].
Qed.

(** The polynomial 1. *)
Definition one : Z := 2 ^ 31.

Lemma xpow_one i : (i <= 31)%nat -> xpow i one = 2 ^ (31 - Z.of_nat i).
Proof.
  intros Hi. replace one with (Z.shiftl (2 ^ (31 - Z.of_nat i)) (Z.of_nat i)).
  - rewrite xpow_shiftl by lia. by rewrite Nat.sub_diag.
  - unfold one. rewrite Z.shiftl_mul_pow2, <- Z.pow_add_r by lia. f_equal. lia.
Qed.

Lemma gsum_one n b j :
  (n <= 32)%nat -> 0 <= j ->
  Z.testbit (gsum n one b) j = (31 - Z.of_nat n <? j) && (j <? 32) && Z.testbit b j.
Proof.
  intros Hn Hj. induction n as [|n IH]; cbn [gsum].
  - rewrite Z.bits_0. bool_to_Prop; try lia; btauto.
  - rewrite Z.lxor_spec, IH, xpow_one by lia.
    assert (Z.testbit (if Z.testbit b (31 - Z.of_nat n) then 2 ^ (31 - Z.of_nat n) else 0) j =
      (31 - Z.of_nat n =? j) && Z.testbit b j) as ->.
    { destruct (Z.eqb_spec (31 - Z.of_nat n) j) as [<-|Hne].
      - destruct (Z.testbit b (31 - _)); [apply Z.pow2_bits_true; lia|apply Z.bits_0].
      - destruct (Z.testbit b (31 - _)); [apply Z.pow2_bits_false; lia|apply Z.bits_0]. }
    bool_to_Prop; try lia; btauto.
Qed.

Lemma gsum_one_l b : 0 <= b < 2 ^ 32 -> gsum 32 one b = b.
Proof.
  intros Hb. apply Z.bits_inj'. intros j Hj. rewrite gsum_one by lia.
  destruct (Z.ltb_spec j 32); [|by rewrite (testbit_high b 32), andb_false_r].
  by destruct (Z.ltb_spec (31 - Z.of_nat 32) j); [|lia].
Qed.

(** Multiplying by a power of x. *)
Lemma gf_multiply_xpow n a :
  0 <= a < 2 ^ 32 -> gf_multiply_sw a (xpow n one) crc32c_m = xpow n a.
Proof.
  intros Ha. rewrite gf_multiply_sw_spec by (try apply xpow_range; done || by split).
  rewrite <- (gsum_one_l a) at 1 by done. rewrite gsum_swap, gsum_one_l.
  - by rewrite gsum_xpow, gsum_one_l.
  - apply xpow_range. by split.
Qed.

Lemma gf_powers_memo_spec i : gf_powers_memo i crc32c_m = xpow (32 * 2 ^ i) one.
Proof.
  induction i as [|i IH]; [by vm_compute|]. cbn [gf_powers_memo]. unfold gf_square_sw.
  rewrite IH, gf_multiply_xpow by (apply xpow_range; by split). rewrite <- xpow_add.
  f_equal. cbn [Nat.pow]. lia.
Qed.

(** ** Appending zeroes *)

Lemma ctz_spec v : 0 < v ->
  exists q, 0 <= q /\ v = 2 ^ Z.of_nat (CountTrailingZeroBits v) * (2 * q + 1).
Proof.
  destruct v as [|p|p]; intros Hv; try lia. clear Hv. cbn [CountTrailingZeroBits].
  induction p as [p _|p (q & Hq & IH)|]; cbn [ctz_pos].
  - exists (Z.pos p). change (2 ^ Z.of_nat 0) with 1. lia.
  - exists q. split; [done|]. rewrite Nat2Z.inj_succ, Z.pow_succ_r by lia.
    rewrite Pos2Z.inj_xO, IH at 1. lia.
  - by exists 0.
Qed.

(** The entries of the array of powers from index [j] on. *)
Definition powers_from (j n : nat) : list Z := (fun i => gf_powers_memo i crc32c_m) <$> seq j n.

Lemma drop_powers r j n : drop r (powers_from j n) = powers_from (j + r) (n - r).
Proof. unfold powers_from. by rewrite <- fmap_drop, drop_seq. Qed.

Lemma powers_cons j n : powers_from j (S n) = gf_powers_memo j crc32c_m :: powers_from (S j) n.
Proof. reflexivity. Qed.

Lemma append_zeroes_ok fuel crc len j n :
  0 <= crc < 2 ^ 32 -> 0 <= len < 2 ^ Z.of_nat n -> (n <= fuel)%nat ->
  append_zeroes_loop fuel crc len (powers_from j n) crc32c_m =
    Some (xpow (32 * 2 ^ j * Z.to_nat len) crc).
Proof.
  revert crc len j n. induction fuel as [|fuel IH]; intros crc len j n Hc Hl Hf;
    cbn [append_zeroes_loop]; destruct (Z.eqb_spec len 0) as [->|Hne].
  1, 3: by rewrite Nat.mul_0_r.
  { replace n with O in Hl by lia. change (2 ^ Z.of_nat 0) with 1 in Hl. lia. }
  destruct (ctz_spec len ltac:(lia)) as (q & Hq & Hlen). set (r := CountTrailingZeroBits len) in *.
  assert (Hr : 0 < 2 ^ Z.of_nat r) by lia.
  assert ((r < n)%nat) as Hrn.
  { apply Nat2Z.inj_lt, (Z.pow_lt_mono_r_iff 2); [lia..|]. nia. }
  assert (Z.shiftr (Z.shiftr len (Z.of_nat r)) 1 = q) as ->.
  { rewrite !Z.shiftr_div_pow2, Hlen, Z.mul_comm, Z.div_mul by lia.
    symmetry. apply (Z.div_unique _ _ _ 1); lia. }
  rewrite drop_powers. destruct (n - r)%nat as [|n'] eqn:En; [lia|].
  rewrite powers_cons, gf_powers_memo_spec, gf_multiply_xpow by done.
  rewrite IH; [|by apply xpow_range| |lia].
  - rewrite <- xpow_add. do 2 f_equal.
    assert (Z.to_nat len = 2 ^ r * (2 * Z.to_nat q + 1))%nat as ->.
    { rewrite Hlen. rewrite Z2Nat.inj_mul, Z2Nat.inj_pow by lia. rewrite Nat2Z.id.
      rewrite Z2Nat.inj_add, Z2Nat.inj_mul by lia. done. }
    rewrite Nat.pow_succ_r', Nat.pow_add_r. lia.
  - split; [done|]. replace n with (S n' + r)%nat in Hl by lia.
    rewrite Nat2Z.inj_add, Nat2Z.inj_succ, Z.pow_add_r, Z.pow_succ_r in Hl by lia. nia.
Qed.

Lemma Crc32AppendZeroes_ok crc len :
  0 <= crc < 2 ^ 32 -> 0 <= len < 2 ^ 62 ->
  Crc32AppendZeroes crc len crc32c_m crc32c_powers = Some (xpow (32 * Z.to_nat len) crc).
Proof.
  intros Hc Hl. unfold Crc32AppendZeroes, crc32c_powers, gf_powers_make.
  fold (powers_from 0 62). rewrite (append_zeroes_ok 64 crc len 0 62) by (done || lia).
  by rewrite Nat.pow_0_r, Nat.mul_1_r.
Qed.

(** ** Combination *)

Lemma not32 x : 0 <= x < 2 ^ 32 -> u32 (Z.lnot x) = Z.lxor x (Z.ones 32).
Proof.
  intros Hx. unfold u32. bitwise i Hi. rewrite Z.lnot_spec by done.
  destruct (Z.ltb_spec i 32); [btauto|]. by rewrite (testbit_high x 32).
Qed.

Lemma not32_range x : 0 <= x < 2 ^ 32 -> 0 <= Z.lxor x (Z.ones 32) < 2 ^ 32.
Proof. intros. apply lxor_range; [lia|done|by split]. Qed.

Lemma crc_reference_range crc buf : 0 <= crc < 2 ^ 32 -> 0 <= crc_reference crc buf < 2 ^ 32.
Proof. intros. by apply not32_range, crc_fold_range, not32_range. Qed.

(** Values that stay within 32 bits. *)
Create HintDb crc.
#[export] Hint Resolve xpow_range not32_range crc_reference_range : crc.

Lemma lxor_twice a b : Z.lxor (Z.lxor a b) b = a.
Proof. by rewrite Z.lxor_assoc, Z.lxor_nilpotent, Z.lxor_0_r. Qed.

Lemma crc_reference_closed crc buf :
  crc_reference crc buf =
    Z.lxor (xpow (8 * length buf) (Z.lxor (Z.lxor crc (Z.ones 32)) (le_val buf))) (Z.ones 32).
Proof. unfold crc_reference. by rewrite crc_fold. Qed.

Lemma le_val_zeroes n : le_val (replicate n Byte.x00) = 0.
Proof. induction n as [|n IH]; [done|]. cbn [replicate le_val]. by rewrite IH. Qed.

Lemma PureExtend_zeroes crc n :
  0 <= crc < 2 ^ 32 -> PureExtend crc (replicate n Byte.x00) = xpow (8 * n) crc.
Proof.
  intros Hc. unfold PureExtend, InvertedToPure, PureToInverted.
  rewrite (not32 crc), Extend_spec, not32 by auto with crc.
  rewrite crc_reference_closed, length_replicate, le_val_zeroes, Z.lxor_0_r, !lxor_twice. done.
Qed.

Lemma Crc32cCombine_spec crc1 buf :
  0 <= crc1 < 2 ^ 32 -> Z.of_nat (length buf) < 2 ^ 64 ->
  Crc32cCombine crc1 (Value buf) (Z.of_nat (length buf)) = Some (Extend crc1 buf).
Proof.
  intros H1 Hl. unfold Crc32cCombine, Value, InvertedToPure, PureToInverted.
  rewrite !Extend_spec, !(not32 crc1) by (auto with crc; lia).
  rewrite (not32 (crc_reference 0 buf)) by (apply crc_reference_range; lia).
  change (u32 (-1)) with (Z.ones 32). rewrite lxor_twice.
  set (n := length buf) in *. rewrite (Z.land_ones (Z.of_nat n) 2 ltac:(lia) : Z.land _ 3 = _).
  change (2 ^ 2) with 4.
  pose proof (Z.div_mod (Z.of_nat n) 4 ltac:(lia)) as Hdm.
  pose proof (Z.mod_pos_bound (Z.of_nat n) 4 ltac:(lia)) as Hm.
  assert ((if Z.of_nat n mod 4 =? 0 then crc1
    else PureExtend crc1 (take (Z.to_nat (Z.of_nat n mod 4)) (replicate 4 Byte.x00))) =
    xpow (8 * Z.to_nat (Z.of_nat n mod 4)) crc1) as ->.
  { destruct (Z.eqb_spec (Z.of_nat n mod 4) 0) as [->|]; [done|].
    rewrite take_replicate, Nat.min_l by lia. by rewrite PureExtend_zeroes. }
  rewrite Crc32AppendZeroes_ok; [|by apply xpow_range|split; [apply Z.div_pos|apply Z.div_lt_upper_bound]; lia].
  unfold mbind, option_bind. rewrite <- xpow_add.
  replace (32 * Z.to_nat (Z.of_nat n / 4) + 8 * Z.to_nat (Z.of_nat n mod 4))%nat with (8 * n)%nat by lia.
  f_equal. rewrite not32.
  - rewrite !crc_reference_closed. fold n. rewrite Z.lxor_0_l, !xpow_lxor. xors.
  - apply lxor_range; [lia|auto with crc|]. apply not32_range, crc_reference_range. lia.
Qed.

(** Combining with any checksum of as many bytes gives a checksum. *)
Lemma Crc32cCombine_total crc1 crc2 (buf : bytes) :
  0 <= crc1 < 2 ^ 32 -> Z.of_nat (length buf) < 2 ^ 64 ->
  exists v, Crc32cCombine crc1 crc2 (Z.of_nat (length buf)) = Some v /\ 0 <= v < 2 ^ 32.
Proof.
  intros H1 Hl. generalize (Crc32cCombine_spec crc1 buf H1 Hl). generalize (Value buf), (Extend crc1 buf).
  intros crc e. unfold Crc32cCombine. cbv zeta.
  match goal with |- context [Crc32AppendZeroes ?x ?n ?p ?l] => generalize (Crc32AppendZeroes x n p l) end.
  intros [z|] H; [|discriminate H]. eexists. split; [reflexivity|].
  unfold PureToInverted, u32. by apply Z.mod_pos_bound.
Qed.

Lemma Value_app a b : Extend (Value a) b = Value (a ++ b).
Proof.
  unfold Value. rewrite (Extend_spec 0 a), (Extend_spec 0 (a ++ b)) by lia.
  rewrite Extend_spec by (apply crc_reference_range; lia). unfold crc_reference.
  by rewrite lxor_twice, foldl_app.
Qed.

Lemma Value_range a : 0 <= Value a < 2 ^ 32.
Proof. unfold Value. rewrite Extend_spec by lia. apply crc_reference_range. lia. Qed.
#[export] Hint Resolve Value_range : crc.

(** ** Masking *)

Lemma rotations x a b :
  0 <= x < 2 ^ 32 -> 0 <= a -> 0 <= b -> a + b = 32 ->
  0 <= Z.lor (Z.shiftr x a) (u32 (Z.shiftl x b)) < 2 ^ 32 /\
  (let r := Z.lor (Z.shiftr x a) (u32 (Z.shiftl x b)) in
   Z.lor (Z.shiftr r b) (u32 (Z.shiftl r a)) = x).
Proof.
  intros Hx Ha Hb Hab. unfold u32. split.
  - apply lor_range; [lia| |apply Z.mod_pos_bound; lia].
    pose proof (shiftr_range x 32 a Hx ltac:(lia)).
    pose proof (Z.pow_le_mono_r 2 (32 - a) 32 ltac:(lia) ltac:(lia)). lia.
  - bitwise i Hi. rewrite (testbit_high x 32 (i + b + a)) by lia.
    destruct (decide (i < a)).
    + rewrite !(Z.testbit_neg_r _ (i - a)) by lia. replace (i + b - b) with i by lia.
      destruct (Z.ltb_spec (i + b) 32), (Z.ltb_spec i 32); try lia. btauto.
    + autorewrite with bits. replace (i - a + a) with i by lia.
      destruct (Z.ltb_spec (i + b) 32), (Z.ltb_spec i 32); try lia; cbn [andb orb].
      * rewrite (Z.testbit_neg_r _ (i - a - b)) by lia. btauto.
      * by rewrite (testbit_high x 32 i) by lia.
Qed.

Lemma Unmask_Mask crc : 0 <= crc < 2 ^ 32 -> Unmask (Mask crc) = crc.
Proof.
  intros Hc. unfold Unmask, Mask.
  destruct (rotations crc 15 17 Hc) as [Hr Hinv]; [lia..|]. cbv zeta in Hinv.
  set (r := Z.lor _ _) in *.
  assert (u32 (u32 (r + kMaskDelta) - kMaskDelta) = r) as ->; [|exact Hinv].
  unfold u32. rewrite Zminus_mod_idemp_l. replace (r + kMaskDelta - kMaskDelta) with r by lia.
  by apply Z.mod_small.
Qed.

Lemma Mask_Unmask m : 0 <= m < 2 ^ 32 -> Mask (Unmask m) = m.
Proof.
  intros Hm. unfold Unmask, Mask. set (d := u32 (m - kMaskDelta)).
  destruct (rotations d 17 15) as [Hr Hinv]; [apply u32_range|lia..|]. cbv zeta in Hinv.
  rewrite Hinv. unfold d, u32. rewrite Zplus_mod_idemp_l.
  replace (m - kMaskDelta + kMaskDelta) with m by lia. by apply Z.mod_small.
Qed.
