(* ===== verification/CrcThms.v ===== *)
(** util/crc32c.cc: CRC-32C with the CRC32 and PCLMULQDQ instructions.

    [crc32c_3way] runs three checksums side by side over three adjacent blocks
    and combines them with a carry-less multiplication by a constant that
    depends on the block size. The instructions are parameters with the
    behaviour their manual documents; the routine is proved to compute the same
    value as the table-driven one, for every address and length. *)
From S2P Require Import Prelude Bits Coding Crc32c Crc32cSpec.
From stdpp Require Import base numbers list.
From Stdlib Require Import ZArith Lia Btauto.
Local Open Scope Z_scope.

(** The instructions. [_mm_clmul_lo] is the low half of [_mm_clmulepi64_si128]
    applied to two 64-bit lanes. *)
Class Sse42 := MkSse42 {
  _mm_crc32_u8 : Z -> Z -> Z;
  _mm_crc32_u16 : Z -> Z -> Z;
  _mm_crc32_u32 : Z -> Z -> Z;
  _mm_crc32_u64 : Z -> Z -> Z;
  _mm_clmul_lo : Z -> Z -> Z }.

(** The carry-less product over the low [n] bits of [a]. *)
Fixpoint carryless (n : nat) (a b : Z) : Z :=
  match n with
  | O => 0
  | S n' => Z.lxor (carryless n' a b) (if Z.testbit a (Z.of_nat n') then Z.shiftl b (Z.of_nat n') else 0)
  end.

(** Their documented behaviour: CRC32 adds the operand to the accumulated value
    and reduces it, bit-reflected, modulo the Castagnoli polynomial; PCLMULQDQ
    multiplies without carries. *)
Class Sse42Laws `{Sse42} : Prop := {
  crc32_u8_law l v : 0 <= l < 2 ^ 32 -> 0 <= v < 2 ^ 8 -> _mm_crc32_u8 l v = xpow 8 (Z.lxor l v);
  crc32_u16_law l v : 0 <= l < 2 ^ 32 -> 0 <= v < 2 ^ 16 -> _mm_crc32_u16 l v = xpow 16 (Z.lxor l v);
  crc32_u32_law l v : 0 <= l < 2 ^ 32 -> 0 <= v < 2 ^ 32 -> _mm_crc32_u32 l v = xpow 32 (Z.lxor l v);
  crc32_u64_law l v : 0 <= l < 2 ^ 32 -> 0 <= v < 2 ^ 64 -> _mm_crc32_u64 l v = xpow 64 (Z.lxor l v);
  clmul_law a b : 0 <= a < 2 ^ 64 -> 0 <= b < 2 ^ 64 -> _mm_clmul_lo a b = carryless 64 a b mod 2 ^ 64 }.

(** Pairs of constants, one pair per block size. *)
Definition clmul_constants : list Z :=
  [0x14cd00bd6; 0x105ec76f0; 0x0ba4fc28e; 0x14cd00bd6; 0x1d82c63da; 0x0f20c0dfe; 0x09e4addf8; 0x0ba4fc28e;
  0x039d3b296; 0x1384aa63a; 0x102f9b8a2; 0x1d82c63da; 0x14237f5e6; 0x01c291d04; 0x00d3b6092; 0x09e4addf8;
  0x0c96cfdc0; 0x0740eef02; 0x18266e456; 0x039d3b296; 0x0daece73e; 0x0083a6eec; 0x0ab7aff2a; 0x102f9b8a2;
  0x1248ea574; 0x1c1733996; 0x083348832; 0x14237f5e6; 0x12c743124; 0x02ad91c30; 0x0b9e02b86; 0x00d3b6092;
  0x018b33a4e; 0x06992cea2; 0x1b331e26a; 0x0c96cfdc0; 0x17d35ba46; 0x07e908048; 0x1bf2e8b8a; 0x18266e456;
  0x1a3e0968a; 0x11ed1f9d8; 0x0ce7f39f4; 0x0daece73e; 0x061d82e56; 0x0f1d0f55e; 0x0d270f1a2; 0x0ab7aff2a;
  0x1c3f5f66c; 0x0a87ab8a8; 0x12ed0daac; 0x1248ea574; 0x065863b64; 0x08462d800; 0x11eef4f8e; 0x083348832;
  0x1ee54f54c; 0x071d111a8; 0x0b3e32c28; 0x12c743124; 0x0064f7f26; 0x0ffd852c6; 0x0dd7e3b0c; 0x0b9e02b86;
  0x0f285651c; 0x0dcb17aa4; 0x010746f3c; 0x018b33a4e; 0x1c24afea4; 0x0f37c5aee; 0x0271d9844; 0x1b331e26a;
  0x08e766a0c; 0x06051d5a2; 0x093a5f730; 0x17d35ba46; 0x06cb08e5c; 0x11d5ca20e; 0x06b749fb2; 0x1bf2e8b8a;
  0x1167f94f2; 0x021f3d99c; 0x0cec3662e; 0x1a3e0968a; 0x19329634a; 0x08f158014; 0x0e6fc4e6a; 0x0ce7f39f4;
  0x08227bb8a; 0x1a5e82106; 0x0b0cd4768; 0x061d82e56; 0x13c2b89c4; 0x188815ab2; 0x0d7a4825c; 0x0d270f1a2;
  0x10f5ff2ba; 0x105405f3e; 0x00167d312; 0x1c3f5f66c; 0x0f6076544; 0x0e9adf796; 0x026f6a60a; 0x12ed0daac;
  0x1a2adb74e; 0x096638b34; 0x19d34af3a; 0x065863b64; 0x049c3cc9c; 0x1e50585a0; 0x068bce87a; 0x11eef4f8e;
  0x1524fa6c6; 0x19f1c69dc; 0x16cba8aca; 0x1ee54f54c; 0x042d98888; 0x12913343e; 0x1329d9f7e; 0x0b3e32c28;
  0x1b1c69528; 0x088f25a3a; 0x02178513a; 0x0064f7f26; 0x0e0ac139e; 0x04e36f0b0; 0x0170076fa; 0x0dd7e3b0c;
  0x141a1a2e2; 0x0bd6f81f8; 0x16ad828b4; 0x0f285651c; 0x041d17b64; 0x19425cbba; 0x1fae1cc66; 0x010746f3c;
  0x1a75b4b00; 0x18db37e8a; 0x0f872e54c; 0x1c24afea4; 0x01e41e9fc; 0x04c144932; 0x086d8e4d2; 0x0271d9844;
  0x160f7af7a; 0x052148f02; 0x05bb8f1bc; 0x08e766a0c; 0x0a90fd27a; 0x0a3c6f37a; 0x0b3af077a; 0x093a5f730;
  0x04984d782; 0x1d22c238e; 0x0ca6ef3ac; 0x06cb08e5c; 0x0234e0b26; 0x063ded06a; 0x1d88abd4a; 0x06b749fb2;
  0x04597456a; 0x04d56973c; 0x0e9e28eb4; 0x1167f94f2; 0x07b3ff57a; 0x19385bf2e; 0x0c9c8b782; 0x0cec3662e;
  0x13a9cba9e; 0x0e417f38a; 0x093e106a4; 0x19329634a; 0x167001a9c; 0x14e727980; 0x1ddffc5d4; 0x0e6fc4e6a;
  0x00df04680; 0x0d104b8fc; 0x02342001e; 0x08227bb8a; 0x00a2a8d7e; 0x05b397730; 0x168763fa6; 0x0b0cd4768;
  0x1ed5a407a; 0x0e78eb416; 0x0d2c3ed1a; 0x13c2b89c4; 0x0995a5724; 0x1641378f0; 0x19b1afbc4; 0x0d7a4825c;
  0x109ffedc0; 0x08d96551c; 0x0f2271e60; 0x10f5ff2ba; 0x00b0bf8ca; 0x00bf80dd2; 0x123888b7a; 0x00167d312;
  0x1e888f7dc; 0x18dcddd1c; 0x002ee03b2; 0x0f6076544; 0x183e8d8fe; 0x06a45d2b2; 0x133d7a042; 0x026f6a60a;
  0x116b0f50c; 0x1dd3e10e8; 0x05fabe670; 0x1a2adb74e; 0x130004488; 0x0de87806c; 0x000bcf5f6; 0x19d34af3a;
  0x18f0c7078; 0x014338754; 0x017f27698; 0x049c3cc9c; 0x058ca5f00; 0x15e3e77ee; 0x1af900c24; 0x068bce87a;
  0x0b5cfca28; 0x0dd07448e; 0x0ded288f8; 0x1524fa6c6; 0x059f229bc; 0x1d8048348; 0x06d390dec; 0x16cba8aca;
  0x037170390; 0x0a3e3e02c; 0x06353c1cc; 0x042d98888; 0x0c4584f5c; 0x0d73c7bea; 0x1f16a3418; 0x1329d9f7e;
  0x0531377e2; 0x185137662; 0x1d8d9ca7c; 0x1b1c69528; 0x0b25b29f2; 0x18a08b5bc; 0x19fb2a8b0; 0x02178513a;
  0x1a08fe6ac; 0x1da758ae0; 0x045cddf4e; 0x0e0ac139e; 0x1a91647f2; 0x169cf9eb0; 0x1a0f717c4; 0x0170076fa].

(** Unaligned little-endian loads. *)
Definition load64 (p : bytes) : Z := DecodeFixed64 true p.
Definition load16 (p : bytes) : Z := DecodeFixed16 true p.
Definition load8 (p : bytes) : Z := at_ p 0.

Section Hw.
Context `{Sse42}.

(** The 64-bit branch of [Fast_CRC32]. *)
Definition Fast_CRC32 (l : Z) (p : bytes) : Z * bytes := (_mm_crc32_u64 l (load64 p), drop 8 p).

Definition align_to_8 (len crc0 : Z) (next : bytes) : Z * bytes :=
  let crc32bit := u32 crc0 in
  let '(crc32bit, next) :=
    if negb (Z.land len 4 =? 0) then (_mm_crc32_u32 crc32bit (LE_LOAD32 next), drop 4 next)
    else (crc32bit, next) in
  let '(crc32bit, next) :=
    if negb (Z.land len 2 =? 0) then (_mm_crc32_u16 crc32bit (load16 next), drop 2 next)
    else (crc32bit, next) in
  if negb (Z.land len 1 =? 0) then (_mm_crc32_u8 crc32bit (load8 next), drop 1 next)
  else (crc32bit, next).

(** [last] is the word before [next2]. *)
Definition CombineCRC (block_size : nat) (crc0 crc1 crc2 : Z) (last : bytes) : Z :=
  let lo := nth (2 * (block_size - 1)) clmul_constants 0 in
  let hi := nth (2 * (block_size - 1) + 1) clmul_constants 0 in
  let res0 := _mm_clmul_lo crc0 lo in
  let res1 := _mm_clmul_lo crc1 hi in
  let crc0 := Z.lxor (Z.lxor res0 res1) (load64 last) in
  _mm_crc32_u64 crc2 crc0.

(** [k] times CRCtriplet. *)
Fixpoint triplets (k : nat) (crc0 crc1 crc2 : Z) (p0 p1 p2 : bytes) : Z * Z * Z * bytes * bytes * bytes :=
  match k with
  | O => (crc0, crc1, crc2, p0, p1, p2)
  | S k' =>
    triplets k' (_mm_crc32_u64 crc0 (load64 p0)) (_mm_crc32_u64 crc1 (load64 p1))
      (_mm_crc32_u64 crc2 (load64 p2)) (drop 8 p0) (drop 8 p1) (drop 8 p2)
  end.

(** One turn of the loop in the switch, entered at case [block_size]:
    the triplets down to case 2, the duplet of case 1 and the combination. *)
Definition duff_block (block_size : nat) (crc0 : Z) (next : bytes) : Z :=
  let '(crc0, crc1, crc2, q0, q1, q2) :=
    triplets (block_size - 1) crc0 0 0 next (drop (8 * block_size) next) (drop (16 * block_size) next) in
  let crc0 := _mm_crc32_u64 crc0 (load64 q0) in
  let crc1 := _mm_crc32_u64 crc1 (load64 q1) in
  CombineCRC block_size crc0 crc1 crc2 q2.

(** The [do ... while (n > 0)] loop; after the first block all have 128 words. *)
Fixpoint duff_blocks (n : nat) (block_size : nat) (crc0 : Z) (next : bytes) : Z * bytes :=
  match n with
  | O => (crc0, next)
  | S n' => duff_blocks n' 128 (duff_block block_size crc0 next) (drop (24 * block_size) next)
  end.

(** [k] times CRCsinglet. *)
Fixpoint singlets (k : nat) (crc0 : Z) (p : bytes) : Z * bytes :=
  match k with
  | O => (crc0, p)
  | S k' => singlets k' (_mm_crc32_u64 crc0 (load64 p)) (drop 8 p)
  end.

(** The part for more than 216 bytes: align, then three streams. *)
Definition three_streams (addr : Z) (crc0 len : Z) (next : bytes) : Z * Z * bytes :=
  let align_bytes := Z.land (u64 (8 - addr)) 7 in
  let len := len - align_bytes in
  let '(crc0, next) := align_to_8 align_bytes crc0 next in
  let count := len / 24 in
  let len := len mod 24 in
  let n := Z.shiftr count 7 in
  let block_size := Z.land count 127 in
  let '(block_size, n) := if block_size =? 0 then (128, n) else (block_size, n + 1) in
  let '(crc0, next) := duff_blocks (Z.to_nat n) (Z.to_nat block_size) crc0 next in
  (crc0, len, next).

(** [addr] is the address of [buf]. *)
Definition crc32c_3way (addr crc : Z) (buf : bytes) : Z :=
  let len := Z.of_nat (length buf) in
  let crc0 := Z.lxor crc 0xffffffff in
  let '(crc0, len, next) :=
    if 8 <=? len then
      let '(crc0, len, next) :=
        if 216 <? len then three_streams addr crc0 len buf else (crc0, len, buf) in
      let count2 := Z.shiftr len 3 in
      let len := Z.land len 7 in
      let '(crc0, next) :=
        if count2 <=? 27 then singlets (Z.to_nat count2) crc0 next
        else (crc0, drop (8 * Z.to_nat count2) next) in
      (crc0, len, next)
    else (crc0, len, buf) in
  let '(crc0, _) := align_to_8 len crc0 next in
  Z.lxor (u32 crc0) 0xffffffff.

(** On x86-64 the CPU decides which routine [Extend] calls. *)
Definition Choose_Extend (isSSE42 isPCLMULQDQ : bool) : Z -> Z -> bytes -> Z :=
  if isSSE42 then if isPCLMULQDQ then crc32c_3way else ExtendImpl Fast_CRC32
  else ExtendImpl Slow_CRC32.
End Hw.

(** ** The constants *)

(** [x^(64 k)] for [k] from 1 to [n]. *)
Fixpoint word_powers (n : nat) (a : Z) : list Z :=
  match n with
  | O => []
  | S n' => let b := xpow 64 a in b :: word_powers n' b
  end.

Lemma word_powers_lookup n a k :
  (k < n)%nat -> word_powers n a !! k = Some (xpow (64 * S k) a).
Proof.
  revert a k. induction n as [|n IH]; intros a k Hk; [lia|]. cbn [word_powers].
  destruct k as [|k]; [done|]. cbn [lookup list_lookup]. rewrite IH by lia. f_equal.
  rewrite <- xpow_add. f_equal. lia.
Qed.

(** The constants of block size [k + 1] are those of [2 (k + 1)] and [k + 1]
    words, up to 33 bits of shift. *)
Fixpoint constants_ok (f : Z -> Z) (ks : list Z) (lo hi : list Z) : bool :=
  match ks, lo, hi with
  | a :: b :: ks', _ :: l :: lo', h :: hi' =>
    (f a =? l) && (f b =? h) && (0 <=? a) && (a <? 2 ^ 33) && (0 <=? b) && (b <? 2 ^ 33)
    && constants_ok f ks' lo' hi'
  | [], _, _ => true
  | _, _, _ => false
  end.

Lemma constants_checked :
  constants_ok (xpow 33) clmul_constants (word_powers 256 one) (word_powers 256 one) = true.
Proof. vm_compute. reflexivity. Qed.

Lemma constants_ok_nth f ks lo hi k a b :
  constants_ok f ks lo hi = true -> ks !! (2 * k)%nat = Some a -> ks !! (2 * k + 1)%nat = Some b ->
  lo !! (2 * k + 1)%nat = Some (f a) /\ hi !! k = Some (f b) /\
  0 <= a < 2 ^ 33 /\ 0 <= b < 2 ^ 33.
Proof.
  revert ks lo hi. induction k as [|k IH]; intros ks lo hi Hok Ha Hb.
  - destruct ks as [|a' [|b' ks]]; try done. destruct lo as [|? [|l lo]]; [done..|].
    destruct hi as [|h hi]; [done|]. injection Ha as ->. injection Hb as ->.
    cbn [constants_ok] in Hok. rewrite !andb_true_iff, !Z.eqb_eq, !Z.leb_le, !Z.ltb_lt in Hok.
    destruct Hok as ((((((-> & ->) & ?) & ?) & ?) & ?) & ?). done.
  - replace (2 * S k)%nat with (S (S (2 * k))) in * by lia.
    replace (2 * S k + 1)%nat with (S (S (2 * k + 1))) in * by lia.
    destruct ks as [|a' [|b' ks]]; try done. destruct lo as [|? [|l lo]]; [done..|].
    destruct hi as [|h hi]; [done|].
    cbn [constants_ok] in Hok. apply andb_true_iff in Hok as [_ Hok]. by apply (IH ks lo hi).
Qed.

Lemma length_clmul_constants : length clmul_constants = 256%nat.
Proof. reflexivity. Qed.

Lemma nth_in (l : list Z) i : (i < length l)%nat -> l !! i = Some (nth i l 0).
Proof. intros. by destruct (nth_lookup_or_length l i 0); [|lia]. Qed.

Lemma clmul_constants_spec (bs : nat) :
  (1 <= bs <= 128)%nat ->
  let lo := nth (2 * (bs - 1)) clmul_constants 0 in
  let hi := nth (2 * (bs - 1) + 1) clmul_constants 0 in
  xpow 33 lo = xpow (64 * (2 * bs)) one /\ xpow 33 hi = xpow (64 * bs) one /\
  0 <= lo < 2 ^ 33 /\ 0 <= hi < 2 ^ 33.
Proof.
  intros Hbs lo hi. pose proof length_clmul_constants as Hlen.
  destruct (constants_ok_nth _ _ _ _ (bs - 1) lo hi constants_checked) as (Hl & Hh & ? & ?).
  1, 2: apply nth_in; lia.
  rewrite word_powers_lookup in Hl, Hh by lia. apply (inj Some) in Hl, Hh. rewrite <- Hl, <- Hh.
  split; [f_equal; lia|]. split; [f_equal; lia|done].
Qed.

(** ** The routine *)

(** A checksum is affine in its initial value. *)
Lemma crc_fold_affine l bs :
  foldl crc_byte l bs = Z.lxor (xpow (8 * length bs) l) (foldl crc_byte 0 bs).
Proof. by rewrite !crc_fold, xpow_lxor, Z.lxor_0_l. Qed.

Lemma carryless_high n k a b :
  0 <= a < 2 ^ Z.of_nat n -> carryless (n + k) a b = carryless n a b.
Proof.
  intros Ha. induction k as [|k IH]; [by rewrite Nat.add_0_r|].
  rewrite Nat.add_succ_r. cbn [carryless]. rewrite IH, (testbit_high a (Z.of_nat n)) by lia.
  apply Z.lxor_0_r.
Qed.

Lemma carryless_range n a b k :
  0 <= k -> 0 <= b < 2 ^ k -> 0 <= carryless (S n) a b < 2 ^ (k + Z.of_nat n).
Proof.
  intros Hk Hb. induction n as [|n IH]; cbn [carryless] in *.
  - rewrite Z.add_0_r, Z.lxor_0_l. destruct (Z.testbit _ _); [by rewrite Z.shiftl_0_r|lia].
  - assert (2 ^ (k + Z.of_nat (S n)) = 2 * 2 ^ (k + Z.of_nat n)) as Hp.
    { rewrite <- Z.pow_succ_r by lia. f_equal. lia. }
    apply lxor_range; [lia|lia|]. destruct (Z.testbit a (Z.of_nat (S n))); [|lia].
    rewrite Z.shiftl_mul_pow2, Z.pow_add_r by lia. nia.
Qed.

(** Reducing the product by a constant that stands for a power of x. *)
Lemma xpow_carryless n a K N :
  (n <= 32)%nat -> xpow 33 K = xpow N one ->
  xpow 64 (carryless n a K) = xpow N (carryless n a 1).
Proof.
  intros Hn HK. induction n as [|n IH]; cbn [carryless]; [by rewrite !xpow_0|].
  rewrite !xpow_lxor, IH by lia. f_equal. destruct (Z.testbit _ _); [|by rewrite !xpow_0].
  rewrite xpow_shiftl by lia. replace (64 - n)%nat with (31 - n + 33)%nat by lia.
  rewrite xpow_add, HK, <- xpow_add, Nat.add_comm, xpow_add, xpow_one by lia. f_equal.
  rewrite Z.shiftl_1_l. f_equal. lia.
Qed.

Lemma carryless_1 n a : 0 <= a < 2 ^ Z.of_nat n -> carryless n a 1 = a.
Proof.
  intros Ha. assert (carryless n a 1 = a mod 2 ^ Z.of_nat n) as ->; [|by apply Z.mod_small].
  clear Ha. induction n as [|n IH]; [by rewrite Z.mod_1_r|]. cbn [carryless]. rewrite IH.
  bitwise i Hi. assert (Z.testbit (if Z.testbit a (Z.of_nat n) then Z.shiftl 1 (Z.of_nat n) else 0) i =
    (Z.of_nat n =? i) && Z.testbit a i) as ->.
  { destruct (Z.eqb_spec (Z.of_nat n) i) as [<-|Hne].
    - destruct (Z.testbit a _); rewrite ?Z.shiftl_1_l; [apply Z.pow2_bits_true; lia|apply Z.bits_0].
    - destruct (Z.testbit a _); rewrite ?Z.shiftl_1_l; [apply Z.pow2_bits_false; lia|apply Z.bits_0]. }
  rewrite Nat2Z.inj_succ. bool_to_Prop; try lia; btauto.
Qed.

Section Laws.
Context `{HS : Sse42} {HL : Sse42Laws}.

Lemma load_range (n : nat) p : 0 <= le_val (take n p) < 2 ^ (8 * Z.of_nat n).
Proof.
  pose proof (le_val_range (take n p)) as Hr. rewrite Z.pow_mul_r by lia. change (2 ^ 8) with 256.
  split; [lia|]. eapply Z.lt_le_trans; [apply Hr|]. apply Z.pow_le_mono_r; [lia|].
  rewrite length_take. lia.
Qed.

Lemma hw_u64 l p :
  0 <= l < 2 ^ 32 -> (8 <= length p)%nat ->
  _mm_crc32_u64 l (load64 p) = foldl crc_byte l (take 8 p).
Proof.
  intros Hl Hp. unfold load64. rewrite DecodeFixed64_le by done.
  rewrite crc32_u64_law, crc_fold by (done || apply (load_range 8)).
  by rewrite length_take, Nat.min_l.
Qed.

Lemma hw_u32 l p :
  0 <= l < 2 ^ 32 -> (4 <= length p)%nat ->
  _mm_crc32_u32 l (LE_LOAD32 p) = foldl crc_byte l (take 4 p).
Proof.
  intros Hl Hp. unfold LE_LOAD32. rewrite DecodeFixed32_le by done.
  rewrite crc32_u32_law, crc_fold by (done || apply (load_range 4)).
  by rewrite length_take, Nat.min_l.
Qed.

Lemma hw_u16 l p :
  0 <= l < 2 ^ 32 -> (2 <= length p)%nat ->
  _mm_crc32_u16 l (load16 p) = foldl crc_byte l (take 2 p).
Proof.
  intros Hl Hp. unfold load16, DecodeFixed16.
  rewrite crc32_u16_law, crc_fold by (done || apply (load_range 2)).
  by rewrite length_take, Nat.min_l.
Qed.

Lemma hw_u8 l p :
  0 <= l < 2 ^ 32 -> (1 <= length p)%nat ->
  _mm_crc32_u8 l (load8 p) = foldl crc_byte l (take 1 p).
Proof.
  intros Hl Hp. destruct p as [|b p]; [cbn in Hp; lia|].
  change (load8 (b :: p)) with (byte_val b). change (foldl crc_byte l (take 1 (b :: p))) with (crc_byte l b).
  by apply crc32_u8_law, byte_val_range.
Qed.

Lemma Fast_CRC32_spec : eight_bytes Fast_CRC32.
Proof. intros l p Hl Hp. unfold Fast_CRC32. by rewrite hw_u64. Qed.

(** The bytes that do not fill a word. *)
Lemma align_to_8_spec (len : nat) l p :
  0 <= l < 2 ^ 32 -> (len < 8)%nat -> (len <= length p)%nat ->
  align_to_8 (Z.of_nat len) l p = (foldl crc_byte l (take len p), drop len p).
Proof.
  intros Hl H8 Hp. unfold align_to_8. rewrite u32_small by done.
  assert (forall k bs, 0 <= foldl crc_byte l (take k bs) < 2 ^ 32) as Hr
    by (intros; by apply crc_fold_range).
  destruct len as [|[|[|[|[|[|[|[|len]]]]]]]]; [..|lia].
  all: repeat match goal with |- context [negb (Z.land ?a ?b =? 0)] =>
    let v := eval vm_compute in (negb (Z.land a b =? 0)) in
    change (negb (Z.land a b =? 0)) with v end; cbn beta iota.
  all: rewrite ?hw_u32 by (done || lia);
    rewrite ?hw_u16 by (try apply crc_fold_range; rewrite ?length_drop; done || lia);
    rewrite ?hw_u8 by (repeat apply crc_fold_range; rewrite ?length_drop; done || lia).
  all: by rewrite <- ?foldl_app, ?take_take_drop, ?drop_drop.
Qed.

Lemma singlets_spec k l p :
  0 <= l < 2 ^ 32 -> (8 * k <= length p)%nat ->
  singlets k l p = (foldl crc_byte l (take (8 * k) p), drop (8 * k) p).
Proof.
  revert l p. induction k as [|k IH]; intros l p Hl Hp; [done|]. cbn [singlets].
  rewrite hw_u64, IH by (try apply crc_fold_range; rewrite ?length_drop; done || lia).
  replace (8 * S k)%nat with (8 + 8 * k)%nat by lia.
  by rewrite <- take_take_drop, foldl_app, drop_drop.
Qed.

Lemma triplets_spec k l0 l1 l2 p0 p1 p2 :
  0 <= l0 < 2 ^ 32 -> 0 <= l1 < 2 ^ 32 -> 0 <= l2 < 2 ^ 32 ->
  (8 * k <= length p0)%nat -> (8 * k <= length p1)%nat -> (8 * k <= length p2)%nat ->
  triplets k l0 l1 l2 p0 p1 p2 =
    (foldl crc_byte l0 (take (8 * k) p0), foldl crc_byte l1 (take (8 * k) p1),
     foldl crc_byte l2 (take (8 * k) p2), drop (8 * k) p0, drop (8 * k) p1, drop (8 * k) p2).
Proof.
  revert l0 l1 l2 p0 p1 p2. induction k as [|k IH]; intros; [done|]. cbn [triplets].
  rewrite !hw_u64, IH by (try apply crc_fold_range; rewrite ?length_drop; done || lia).
  replace (8 * S k)%nat with (8 + 8 * k)%nat by lia.
  by rewrite <- !take_take_drop, !foldl_app, !drop_drop.
Qed.

(** Carry-less multiplication by a constant of the table. *)
Lemma clmul_constant c K N :
  0 <= c < 2 ^ 32 -> 0 <= K < 2 ^ 33 -> xpow 33 K = xpow N one ->
  0 <= _mm_clmul_lo c K < 2 ^ 64 /\ xpow 64 (_mm_clmul_lo c K) = xpow N c.
Proof.
  intros Hc HK HN. rewrite clmul_law by lia. split; [apply Z.mod_pos_bound; lia|].
  assert (carryless 64 c K = carryless 32 c K) as -> by (by apply (carryless_high 32 32)).
  rewrite Z.mod_small by (apply (carryless_range 31 c K 33); lia).
  by rewrite (xpow_carryless 32 c K N), carryless_1.
Qed.

(** The checksum of three adjacent blocks from the checksums of each. *)
Lemma three_blocks bs l B0 B1 B2 W :
  length B1 = (8 * bs)%nat -> (length B2 + 8 = 8 * bs)%nat -> length W = 8%nat ->
  foldl crc_byte l (B0 ++ B1 ++ B2 ++ W) =
    Z.lxor (xpow 64 (foldl crc_byte 0 B2))
      (Z.lxor (Z.lxor (xpow (64 * (2 * bs)) (foldl crc_byte l B0))
                (xpow (64 * bs) (foldl crc_byte 0 B1))) (xpow 64 (le_val W))).
Proof.
  intros H1 H2 HW. rewrite !foldl_app. generalize (foldl crc_byte l B0). intros c0.
  rewrite crc_fold, HW. change (8 * 8)%nat with 64%nat.
  rewrite (crc_fold_affine _ B2), (crc_fold_affine _ B1), !xpow_lxor, <- !xpow_add, H1.
  replace (64 + 8 * length B2)%nat with (64 * bs)%nat by lia.
  replace (64 * bs + 8 * (8 * bs))%nat with (64 * (2 * bs))%nat by lia. xors.
Qed.

Lemma duff_block_spec (bs : nat) l p :
  (1 <= bs <= 128)%nat -> 0 <= l < 2 ^ 32 -> (24 * bs <= length p)%nat ->
  duff_block bs l p = foldl crc_byte l (take (24 * bs) p).
Proof.
  intros Hbs Hl Hp. unfold duff_block.
  rewrite triplets_spec by (rewrite ?length_drop; done || lia).
  rewrite !hw_u64 by (try apply crc_fold_range; rewrite ?length_drop; done || lia).
  rewrite <- !foldl_app, !take_take_drop. replace (8 * (bs - 1) + 8)%nat with (8 * bs)%nat by lia.
  unfold CombineCRC. destruct (clmul_constants_spec bs Hbs) as (HK0 & HK1 & HR0 & HR1).
  set (c0 := foldl crc_byte l _). set (c1 := foldl crc_byte 0 (take (8 * bs) _)).
  assert (0 <= c0 < 2 ^ 32) as Hc0 by (by apply crc_fold_range).
  assert (0 <= c1 < 2 ^ 32) as Hc1 by (by apply crc_fold_range).
  destruct (clmul_constant c0 _ _ Hc0 HR0 HK0) as [Hm0 He0].
  destruct (clmul_constant c1 _ _ Hc1 HR1 HK1) as [Hm1 He1].
  unfold load64. rewrite DecodeFixed64_le by (rewrite !length_drop; lia).
  set (w := le_val (take 8 _)). assert (0 <= w < 2 ^ 64) as Hw by apply (load_range 8).
  rewrite crc32_u64_law; [|by apply crc_fold_range|apply lxor_range; [lia|by apply lxor_range|done]].
  rewrite !xpow_lxor, He0, He1.
  replace (24 * bs)%nat with (8 * bs + (8 * bs + (8 * (bs - 1) + 8)))%nat by lia.
  rewrite <- !take_take_drop. symmetry. rewrite (three_blocks bs) by (rewrite !length_take, !length_drop; lia).
  unfold w, c0, c1. rewrite !drop_drop. by replace (8 * bs + 8 * bs)%nat with (16 * bs)%nat by lia.
Qed.

Lemma duff_blocks_spec n (bs : nat) l p :
  (1 <= bs <= 128)%nat -> 0 <= l < 2 ^ 32 -> (24 * (bs + 128 * n) <= length p)%nat ->
  duff_blocks (S n) bs l p =
    (foldl crc_byte l (take (24 * (bs + 128 * n)) p), drop (24 * (bs + 128 * n)) p).
Proof.
  revert bs l p. induction n as [|n IH]; intros bs l p Hbs Hl Hp.
  - cbn [duff_blocks]. rewrite duff_block_spec by (done || lia).
    by replace (bs + 128 * 0)%nat with bs by lia.
  - change (duff_blocks (S (S n)) bs l p) with
      (duff_blocks (S n) 128 (duff_block bs l p) (drop (24 * bs) p)).
    rewrite duff_block_spec by (done || lia).
    rewrite IH by (try apply crc_fold_range; rewrite ?length_drop; done || lia).
    replace (24 * (bs + 128 * S n))%nat with (24 * bs + 24 * (128 + 128 * n))%nat by lia.
    by rewrite <- take_take_drop, foldl_app, drop_drop.
Qed.

Lemma three_streams_spec addr l p :
  0 <= l < 2 ^ 32 -> (216 < length p)%nat ->
  exists k, (k <= length p)%nat /\ (length p - k < 24)%nat /\
    three_streams addr l (Z.of_nat (length p)) p =
      (foldl crc_byte l (take k p), Z.of_nat (length p - k), drop k p).
Proof.
  intros Hl Hp. unfold three_streams.
  pose proof (land_ones_range (u64 (8 - addr)) 3 ltac:(lia)) as Ha. change (Z.ones 3) with 7 in Ha.
  set (ab := Z.land (u64 (8 - addr)) 7) in *. clearbody ab.
  replace ab with (Z.of_nat (Z.to_nat ab)) by lia. set (a := Z.to_nat ab).
  assert ((a < 8)%nat) by lia. clearbody a. clear ab Ha.
  rewrite align_to_8_spec by (done || lia).
  replace (Z.of_nat (length p) - Z.of_nat a) with (Z.of_nat (length p - a)) by lia.
  set (len := (length p - a)%nat). assert ((209 <= len)%nat) by lia.
  set (c := Z.of_nat len / 24).
  pose proof (Z.div_mod (Z.of_nat len) 24 ltac:(lia)) as Hdm. fold c in Hdm.
  pose proof (Z.mod_pos_bound (Z.of_nat len) 24 ltac:(lia)) as Hm.
  rewrite (Z.land_ones c 7 ltac:(lia) : Z.land c 127 = _), Z.shiftr_div_pow2 by lia.
  pose proof (Z.div_mod c (2 ^ 7) ltac:(lia)) as Hcd.
  pose proof (Z.mod_pos_bound c (2 ^ 7) ltac:(lia)) as Hcm.
  assert (0 <= c / 2 ^ 7) by (apply Z.div_pos; lia).
  set (pr := if c mod 2 ^ 7 =? 0 then _ else _).
  assert (exists bs n : nat, pr = (Z.of_nat bs, Z.of_nat (S n)) /\ (1 <= bs <= 128)%nat /\
    c = Z.of_nat (bs + 128 * n)) as (bs & n & -> & Hbs & Hc).
  { unfold pr. destruct (Z.eqb_spec (c mod 2 ^ 7) 0).
    - exists 128%nat, (Z.to_nat (c / 2 ^ 7 - 1)). split; [f_equal; lia|]. lia.
    - exists (Z.to_nat (c mod 2 ^ 7)), (Z.to_nat (c / 2 ^ 7)). split; [f_equal; lia|]. lia. }
  rewrite !Nat2Z.id, duff_blocks_spec by (try apply crc_fold_range; rewrite ?length_drop; done || lia).
  exists (a + 24 * (bs + 128 * n))%nat. split; [lia|]. split; [lia|].
  rewrite <- take_take_drop, foldl_app, drop_drop. do 2 f_equal. lia.
Qed.

Lemma crc32c_3way_spec addr crc buf :
  0 <= crc < 2 ^ 32 -> crc32c_3way addr crc buf = crc_reference crc buf.
Proof.
  intros Hcrc. unfold crc32c_3way, crc_reference. change 0xffffffff with (Z.ones 32).
  pose proof (not32_range crc Hcrc) as Hl. generalize dependent (Z.lxor crc (Z.ones 32)). intros l Hl.
  set (pr := if 8 <=? _ then _ else _).
  assert (exists k, (k <= length buf)%nat /\ (length buf - k < 8)%nat /\
    pr = (foldl crc_byte l (take k buf), Z.of_nat (length buf - k), drop k buf)) as (k & Hk & Hk8 & ->).
  { unfold pr. clear pr. destruct (Z.leb_spec 8 (Z.of_nat (length buf))) as [H8|];
      [|exists O; rewrite Nat.sub_0_r; split; [lia|]; split; [lia|done]].
    set (pr := if 216 <? _ then _ else _).
    assert (exists j, (j <= length buf)%nat /\ (length buf - j < 217)%nat /\
      pr = (foldl crc_byte l (take j buf), Z.of_nat (length buf - j), drop j buf)) as (j & Hj & Hjl & ->).
    { unfold pr. destruct (Z.ltb_spec 216 (Z.of_nat (length buf))).
      - destruct (three_streams_spec addr l buf) as (j & ? & ? & ->); [done|lia|].
        exists j. split; [done|]. split; [lia|done].
      - exists O. rewrite Nat.sub_0_r. split; [lia|]. split; [lia|done]. }
    set (m := (length buf - j)%nat) in *.
    rewrite (Z.land_ones (Z.of_nat m) 3 ltac:(lia) : Z.land _ 7 = _), Z.shiftr_div_pow2 by lia.
    pose proof (Z.div_mod (Z.of_nat m) (2 ^ 3) ltac:(lia)). pose proof (Z.mod_pos_bound (Z.of_nat m) (2 ^ 3) ltac:(lia)).
    destruct (Z.leb_spec (Z.of_nat m / 2 ^ 3) 27); [|lia].
    set (q := Z.to_nat (Z.of_nat m / 2 ^ 3)).
    rewrite singlets_spec by (try apply crc_fold_range; rewrite ?length_drop; done || lia).
    exists (j + 8 * q)%nat. split; [lia|]. split; [lia|].
    rewrite <- take_take_drop, foldl_app, drop_drop. do 2 f_equal. lia. }
  rewrite align_to_8_spec by (try apply crc_fold_range; rewrite ?length_drop; done || lia).
  rewrite <- foldl_app. rewrite (take_ge (drop k buf)) by (rewrite length_drop; lia).
  rewrite take_drop, u32_small; [done|]. by apply crc_fold_range.
Qed.
End Laws.

(** ** The properties of CRC-32C *)

(** Instructions that compute what their manual says. *)
#[local] Instance manual_sse42 : Sse42 := {
  _mm_crc32_u8 l v := xpow 8 (Z.lxor l v);
  _mm_crc32_u16 l v := xpow 16 (Z.lxor l v);
  _mm_crc32_u32 l v := xpow 32 (Z.lxor l v);
  _mm_crc32_u64 l v := xpow 64 (Z.lxor l v);
  _mm_clmul_lo a b := carryless 64 a b mod 2 ^ 64 }.

#[local] Instance manual_laws : Sse42Laws.
Proof. by constructor. Qed.

(** C31. Whatever the CPU supports and wherever the buffer lies, [Extend]
    computes the bit-serial CRC-32C: the routine with four tables, the one with
    the CRC32 instruction and the three-way routine with carry-less
    multiplication all return the reference value, which extends a checksum of
    some string by the bytes of the buffer. *)
Theorem crc_implementations_agree `{Sse42Laws} (isSSE42 isPCLMULQDQ : bool) (addr crc : Z) (buf : bytes) :
  0 <= crc < 2 ^ 32 ->
  Choose_Extend isSSE42 isPCLMULQDQ addr crc buf = crc_reference crc buf /\
  Extend crc buf = crc_reference crc buf /\
  (forall s, crc = Value s -> crc_reference crc buf = Value (s ++ buf)).
Proof.
  intros Hc. split; [|split; [by apply Extend_spec|]].
  - unfold Choose_Extend. destruct isSSE42; [destruct isPCLMULQDQ|].
    + by apply crc32c_3way_spec.
    + apply ExtendImpl_spec; [apply Fast_CRC32_spec|done].
    + apply ExtendImpl_spec; [intros l p; apply Slow_CRC32_spec|done].
  - intros s ->. by rewrite <- Value_app, Extend_spec.
Qed.

(** The check value of the CRC catalogue: "123456789" gives 0xe3069283. *)
Definition digits : bytes :=
  [Byte.x31; Byte.x32; Byte.x33; Byte.x34; Byte.x35; Byte.x36; Byte.x37; Byte.x38; Byte.x39].

Lemma crc_implementations_agree_witness :
  Choose_Extend true true 3 0 digits = 0xe3069283 /\ Choose_Extend false false 3 0 digits = 0xe3069283.
Proof.
  split.
  - rewrite (proj1 (crc_implementations_agree true true 3 0 digits ltac:(lia))). vm_compute. reflexivity.
  - rewrite (proj1 (crc_implementations_agree false false 3 0 digits ltac:(lia))). vm_compute. reflexivity.
Defined.

(** C32. [Crc32cCombine] never reads past its array of powers and returns the
    checksum of the concatenation, given the checksums of the two strings and
    the length of the second. *)
Theorem crc_combine_concatenates (a b : bytes) :
  Z.of_nat (length b) < 2 ^ 64 ->
  Crc32cCombine (Value a) (Value b) (Z.of_nat (length b)) = Some (Value (a ++ b)).
Proof.
  intros Hb. by rewrite Crc32cCombine_spec, Value_app by (done || apply Value_range).
Qed.

Lemma crc_combine_concatenates_witness :
  Crc32cCombine (Value [Byte.x31; Byte.x32]) (Value (drop 2 digits)) 7 = Some 0xe3069283.
Proof.
  transitivity (Some (Value ([Byte.x31; Byte.x32] ++ drop 2 digits))).
  - exact (crc_combine_concatenates [Byte.x31; Byte.x32] (drop 2 digits) eq_refl).
  - vm_compute. reflexivity.
Defined.

(** Masking is a bijection of the 32-bit values: [Unmask] recovers the
    checksum that [Mask] stored, and every stored word is the mask of exactly
    one checksum. *)
Theorem mask_round_trip (crc : Z) :
  0 <= crc < 2 ^ 32 ->
  Unmask (Mask crc) = crc /\ Mask (Unmask crc) = crc /\ 0 <= Mask crc < 2 ^ 32.
Proof.
  intros Hc. split; [by apply Unmask_Mask|]. split; [by apply Mask_Unmask|]. apply u32_range.
Qed.

Lemma mask_round_trip_witness : Mask (Unmask 0xe3069283) = 0xe3069283 /\ Unmask 0xe3069283 <> 0xe3069283.
Proof.
  split; [exact (proj1 (proj2 (mask_round_trip 0xe3069283 ltac:(lia))))|vm_compute; discriminate].
Defined.
