(* ===== verification/IoStatus.v ===== *)
(** include/rocksdb/io_status.h, include/rocksdb/status.h: results of operations, as
    far as their callers look at them, and lengths as the code computes with
    them. *)
From S2P Require Import Prelude.
From stdpp Require Import base numbers list strings.
From Stdlib Require Import ZArith Lia.
Local Open Scope Z_scope.

Inductive IOStatus :=
| OK
| Corruption (msg : string)
| NotSupported (msg : string)
| IOError (code : Z).

Definition ok (s : IOStatus) : bool := match s with OK => true | _ => false end.

Inductive Status :=
| StOK
| StNotFound
| StCorruption (msg : string)
| StNotSupported (msg : string)
| StInvalidArgument (msg : string)
| StMemoryLimit
| StTryAgain
| StOther (code : Z).

Definition st_ok (s : Status) : bool := match s with StOK => true | _ => false end.
Definition IsTryAgain (s : Status) : bool := match s with StTryAgain => true | _ => false end.

Definition zlen {A} (l : list A) : Z := Z.of_nat (length l).

Lemma zlen_app {A} (x y : list A) : zlen (x ++ y) = zlen x + zlen y.
Proof. unfold zlen. rewrite length_app. lia. Qed.
Lemma zlen_nonneg {A} (x : list A) : 0 <= zlen x.
Proof. unfold zlen. lia. Qed.
Lemma zlen_replicate {A} n (c : A) : 0 <= n -> zlen (replicate (Z.to_nat n) c) = n.
Proof. intros Hn. unfold zlen. rewrite length_replicate. lia. Qed.
Lemma zlen_take {A} n (x : list A) : 0 <= n <= zlen x -> zlen (take (Z.to_nat n) x) = n.
Proof. unfold zlen. rewrite length_take. lia. Qed.
Lemma zlen_drop {A} n (x : list A) : 0 <= n <= zlen x -> zlen (drop (Z.to_nat n) x) = zlen x - n.
Proof. unfold zlen. rewrite length_drop. lia. Qed.

