(* ===== verification/AlignedBuffer.v ===== *)
(** util/aligned_buffer.h: a buffer whose start and capacity are multiples of an
    alignment.

    The memory of a buffer is the bytes from [bufstart_] to the end of the array
    it was carved out of; an access outside of it is undefined.  The array comes
    from the allocator, a parameter: [new_char n] is the address and the
    arbitrary contents of a new array. *)
From S2P Require Import Prelude Bits Coding IoStatus.
From stdpp Require Import base numbers list.
From Stdlib Require Import ZArith Lia.
Local Open Scope Z_scope.

(** ** Arithmetic *)

Definition TruncateToPageBoundary (page_size s : Z) : Z := u64 (s - Z.land s (u64 (page_size - 1))).
Definition Roundup (x y : Z) : Z := u64 (u64 (x + y - 1) / y * y).
Definition Rounddown (x y : Z) : Z := u64 (x / y * y).

(** The first multiple of a power of two from an address on. *)
Definition align_pointer (address alignment : Z) : Z :=
  Z.land (u64 (address + (alignment - 1))) (u64 (Z.lnot (alignment - 1))).

(** ** The buffer *)

Record AlignedBuffer := MkAlignedBuffer {
  alignment_ : Z; capacity_ : Z; cursize_ : Z; buf_memory : bytes }.

Definition new_AlignedBuffer : AlignedBuffer := MkAlignedBuffer 0 0 0 [].

Definition set_cursize (n : Z) (b : AlignedBuffer) : AlignedBuffer :=
  MkAlignedBuffer (alignment_ b) (capacity_ b) n (buf_memory b).
Definition set_memory (m : bytes) (b : AlignedBuffer) : AlignedBuffer :=
  MkAlignedBuffer (alignment_ b) (capacity_ b) (cursize_ b) m.

(** [memcpy] and [memset] to and from the memory at [bufstart_ + off]. *)
Definition copy_in (off : Z) (data : bytes) : prog AlignedBuffer unit :=
  m ← gets buf_memory;
  if in_block m off (zlen data) then modify (set_memory (overwrite m off data)) else undefined.
Definition copy_out (off n : Z) : prog AlignedBuffer bytes :=
  m ← gets buf_memory;
  if in_block m off n then mret (sub m off n) else undefined.

Definition isAligned (n alignment : Z) : bool := n mod alignment =? 0.

Definition set_Alignment (alignment : Z) : prog AlignedBuffer unit :=
  modify (fun b => MkAlignedBuffer alignment (capacity_ b) (cursize_ b) (buf_memory b)).

Definition buf_Size (cursize : Z) : prog AlignedBuffer unit := modify (set_cursize cursize).
Definition buf_Clear : prog AlignedBuffer unit := modify (set_cursize 0).

(** The array goes to the caller. *)
Definition buf_Release : prog AlignedBuffer bytes :=
  m ← gets buf_memory;
  modify (fun b => MkAlignedBuffer (alignment_ b) 0 0 []);;
  mret m.

Class Allocator := { new_char : Z -> Z * bytes }.

Definition AllocateNewBuffer `{Allocator} (requested_capacity : Z) (copy_data : bool) (copy_offset copy_len : Z) : prog AlignedBuffer unit :=
  alignment ← gets alignment_;
  cur ← gets cursize_;
  let copy_len := if 0 <? copy_len then copy_len else cur in
  if copy_data && (requested_capacity <? copy_len) then mret tt else
  let new_capacity := Roundup requested_capacity alignment in
  let '(address, array) := new_char (u64 (new_capacity + alignment)) in
  let fresh := drop (Z.to_nat (align_pointer address alignment - address)) array in
  if (copy_data : bool) then
    data ← copy_out copy_offset copy_len;
    modify (fun _ => MkAlignedBuffer alignment new_capacity 0 fresh);;
    copy_in 0 data;;
    modify (set_cursize copy_len)
  else modify (fun _ => MkAlignedBuffer alignment new_capacity 0 fresh).

(** The number of bytes of [src] that fitted. *)
Definition buf_Append (src : bytes) : prog AlignedBuffer Z :=
  cap ← gets capacity_;
  cur ← gets cursize_;
  let to_copy := Z.min (zlen src) (u64 (cap - cur)) in
  when (0 <? to_copy) (copy_in cur (take (Z.to_nat to_copy) src);; modify (set_cursize (u64 (cur + to_copy))));;
  mret to_copy.

Definition buf_Read (offset read_size : Z) : prog AlignedBuffer bytes :=
  cur ← gets cursize_;
  let to_read := if offset <? cur then Z.min (cur - offset) read_size else 0 in
  if 0 <? to_read then copy_out offset to_read else mret [].

Definition padding_bytes (n c : Z) : bytes := replicate (Z.to_nat n) (byte_of c).

Definition PadToAlignmentWith (padding : Z) : prog AlignedBuffer unit :=
  alignment ← gets alignment_;
  cur ← gets cursize_;
  let pad_size := u64 (Roundup cur alignment - cur) in
  when (0 <? pad_size) (copy_in cur (padding_bytes pad_size padding);; modify (set_cursize (u64 (cur + pad_size)))).

Definition PadWith (pad_size padding : Z) : prog AlignedBuffer unit :=
  cur ← gets cursize_;
  copy_in cur (padding_bytes pad_size padding);;
  modify (set_cursize (u64 (cur + pad_size))).

Definition RefitTail (tail_offset tail_size : Z) : prog AlignedBuffer unit :=
  when (0 <? tail_size) (data ← copy_out tail_offset tail_size; copy_in 0 data);;
  modify (set_cursize tail_size).

(** ** Lemmas: arithmetic *)

Definition power_of_two (a : Z) : Prop := exists k, 0 <= k <= 32 /\ a = 2 ^ k.

Lemma power_of_two_range a : power_of_two a -> 1 <= a <= 2 ^ 32.
Proof.
  intros (k & Hk & ->). split.
  - pose proof (Z.pow_pos_nonneg 2 k). lia.
  - apply Z.pow_le_mono_r; lia.
Qed.

Lemma land_low a s : power_of_two a -> Z.land s (a - 1) = s mod a.
Proof. intros (k & Hk & ->). rewrite <- Z.land_ones by lia. by rewrite Z.ones_equiv. Qed.

Lemma Truncate_spec a s : power_of_two a -> 0 <= s < 2 ^ 64 -> TruncateToPageBoundary a s = s / a * a.
Proof.
  intros Ha Hs. pose proof (power_of_two_range a Ha) as Hr. unfold TruncateToPageBoundary.
  rewrite (u64_small (a - 1)), land_low by (done || lia).
  pose proof (Z.mod_pos_bound s a ltac:(lia)). pose proof (Z.div_mod s a ltac:(lia)).
  pose proof (Z.div_pos s a ltac:(lia) ltac:(lia)). rewrite u64_small by nia. lia.
Qed.

Lemma Roundup_spec a s : 1 <= a <= 2 ^ 32 -> 0 <= s < 2 ^ 63 ->
  s <= Roundup s a < s + a /\ Roundup s a mod a = 0 /\ (s mod a = 0 -> Roundup s a = s).
Proof.
  intros Ha Hs. unfold Roundup. rewrite (u64_small (s + a - 1)) by lia.
  pose proof (Z.mod_pos_bound (s + a - 1) a ltac:(lia)). pose proof (Z.div_mod (s + a - 1) a ltac:(lia)).
  rewrite u64_small by nia. split; [nia|]. split; [apply Z.mod_mul; lia|].
  intros Hm. assert (s = s / a * a) as Hd by (pose proof (Z.div_mod s a ltac:(lia)); lia).
  assert ((s + a - 1) / a = s / a) as ->; [|lia].
  replace (s + a - 1) with ((a - 1) + s / a * a) by lia. rewrite Z.div_add by lia. rewrite Z.div_small by lia. lia.
Qed.

Lemma align_pointer_spec a p : power_of_two a -> 0 <= p -> p + a <= 2 ^ 64 ->
  p <= align_pointer p a < p + a /\ align_pointer p a mod a = 0.
Proof.
  intros Ha Hp Hpa. pose proof (power_of_two_range a Ha) as Hr. unfold align_pointer.
  rewrite (u64_small (p + (a - 1))) by lia. set (x := p + (a - 1)).
  assert (Z.land x (u64 (Z.lnot (a - 1))) = x / a * a) as ->.
  { unfold u64. rewrite <- (Z.land_ones (Z.lnot _)) by lia. rewrite (Z.land_comm (Z.lnot _)), Z.land_assoc, Z.land_ones by lia.
    rewrite Z.mod_small by (unfold x; lia). rewrite <- Z.ldiff_land.
    enough (Z.ldiff x (a - 1) = x - x mod a) by (pose proof (Z.div_mod x a ltac:(lia)); lia).
    rewrite <- (land_low a x Ha), (Z.sub_nocarry_ldiff x); generalize (a - 1); intros m; bits. }
  pose proof (Z.mod_pos_bound x a ltac:(lia)). pose proof (Z.div_mod x a ltac:(lia)).
  split; [unfold x in *; nia|apply Z.mod_mul; lia].
Qed.

(** ** Lemmas: the buffer *)

Record buffer_wf (b : AlignedBuffer) : Prop := {
  bw_align : power_of_two (alignment_ b);
  bw_capacity : capacity_ b mod alignment_ b = 0;
  bw_cursize : 0 <= cursize_ b <= capacity_ b;
  bw_size : capacity_ b < 2 ^ 61;
  bw_memory : capacity_ b < zlen (buf_memory b) }.

(** The bytes in the buffer. *)
Definition buffered (b : AlignedBuffer) : bytes := take (Z.to_nat (cursize_ b)) (buf_memory b).

(** [b'] is [b] with [x] in it. *)
Definition refilled (b : AlignedBuffer) (x : bytes) (b' : AlignedBuffer) : Prop :=
  buffer_wf b' /\ buffered b' = x /\ alignment_ b' = alignment_ b /\ capacity_ b' = capacity_ b.

Lemma zlen_buffered b : buffer_wf b -> zlen (buffered b) = cursize_ b.
Proof. intros []. unfold buffered, zlen in *. rewrite length_take. lia. Qed.

Lemma take_overwrite (m data : bytes) off : 0 <= off <= zlen m ->
  take (Z.to_nat (off + zlen data)) (overwrite m off data) = take (Z.to_nat off) m ++ data.
Proof.
  intros Ho. unfold overwrite. rewrite app_assoc, take_app_length'; [done|].
  rewrite length_app, length_take. unfold zlen in *. lia.
Qed.

Lemma zlen_overwrite (m data : bytes) off : 0 <= off <= zlen m ->
  zlen (overwrite m off data) = Z.max (zlen m) (off + zlen data).
Proof. intros Ho. unfold overwrite, zlen in *. rewrite !length_app, length_take, length_drop. lia. Qed.

Lemma copy_in_ok off data b : 0 <= off -> off + zlen data <= zlen (buf_memory b) ->
  copy_in off data b = Ret tt (set_memory (overwrite (buf_memory b) off data) b).
Proof.
  intros Ho Hl. unfold copy_in. rewrite bind_gets.
  by replace (in_block _ _ _) with true by (symmetry; apply in_block_spec; unfold zlen in *; lia).
Qed.

Lemma copy_out_cases off n b : (exists data, copy_out off n b = Ret data b) \/ copy_out off n b = UB.
Proof. unfold copy_out. rewrite bind_gets. destruct (in_block _ _ _); [left; eauto|by right]. Qed.

Lemma copy_out_ok off n b : 0 <= off -> 0 <= n -> off + n <= zlen (buf_memory b) ->
  copy_out off n b = Ret (sub (buf_memory b) off n) b.
Proof.
  intros Ho Hn Hl. unfold copy_out. rewrite bind_gets.
  by replace (in_block _ _ _) with true by (symmetry; apply in_block_spec; unfold zlen in *; lia).
Qed.

(** What is put behind the bytes in the buffer, as far as it fits. *)
Lemma put_behind b data : buffer_wf b -> cursize_ b + zlen data <= capacity_ b ->
  exists b', (copy_in (cursize_ b) data;; modify (set_cursize (u64 (cursize_ b + zlen data)))) b = Ret tt b' /\
    refilled b (buffered b ++ data) b'.
Proof.
  intros Hb Hl. pose proof (zlen_nonneg data) as Hd. destruct Hb. eexists. split.
  { erewrite bind_Ret by (apply copy_in_ok; lia). reflexivity. }
  unfold refilled, set_cursize, set_memory, buffered. cbn [alignment_ capacity_ cursize_ buf_memory].
  rewrite u64_small, take_overwrite by lia. split; [|done].
  assert (zlen (overwrite (buf_memory b) (cursize_ b) data) = zlen (buf_memory b)) as Hz.
  { unfold zlen. rewrite length_overwrite; [done|]. apply in_block_spec. unfold zlen in *. lia. }
  split; cbn [alignment_ capacity_ cursize_ buf_memory]; try done; lia.
Qed.

Lemma refilled_same b : buffer_wf b -> refilled b (buffered b) b.
Proof. done. Qed.

Lemma buf_Append_ok b src : buffer_wf b ->
  exists b', buf_Append src b = Ret (Z.min (zlen src) (capacity_ b - cursize_ b)) b' /\
    refilled b (buffered b ++ take (Z.to_nat (capacity_ b - cursize_ b)) src) b'.
Proof.
  intros Hb. pose proof (zlen_nonneg src) as Hd. pose proof Hb as []. unfold buf_Append. rewrite !bind_gets, u64_small by lia.
  set (n := Z.min (zlen src) (capacity_ b - cursize_ b)).
  assert (take (Z.to_nat (capacity_ b - cursize_ b)) src = take (Z.to_nat n) src) as ->.
  { destruct (decide (zlen src <= capacity_ b - cursize_ b)).
    - rewrite !take_ge; [done|unfold n, zlen in *; lia..].
    - f_equal. unfold n. lia. }
  assert (zlen (take (Z.to_nat n) src) = n) as Hn by (apply zlen_take; lia).
  destruct (Z.ltb_spec 0 n) as [Hpos|Hpos].
  - destruct (put_behind b (take (Z.to_nat n) src) Hb) as (b' & Hput & Hr); [lia|]. rewrite Hn in Hput.
    exists b'. split; [|done]. cbn [when]. erewrite bind_Ret by exact Hput. done.
  - exists b. split; [done|]. replace n with 0 by lia. rewrite app_nil_r. by apply refilled_same.
Qed.

Lemma PadWith_ok b n c : buffer_wf b -> 0 <= n -> cursize_ b + n <= capacity_ b ->
  exists b', PadWith n c b = Ret tt b' /\ refilled b (buffered b ++ padding_bytes n c) b'.
Proof.
  intros Hb Hn Hl. unfold PadWith. rewrite bind_gets.
  assert (zlen (padding_bytes n c) = n) as Hz by (apply zlen_replicate; lia).
  destruct (put_behind b (padding_bytes n c) Hb) as (b' & Hput & Hr); [lia|]. rewrite Hz in Hput. by exists b'.
Qed.

Lemma Roundup_fits b : buffer_wf b -> cursize_ b <= Roundup (cursize_ b) (alignment_ b) <= capacity_ b.
Proof.
  intros []. pose proof (power_of_two_range _ bw_align0) as Ha.
  destruct (Roundup_spec (alignment_ b) (cursize_ b)) as (Hr & Hm & _); [lia|lia|]. split; [lia|].
  pose proof (Z.div_mod (Roundup (cursize_ b) (alignment_ b)) (alignment_ b) ltac:(lia)) as H1.
  pose proof (Z.div_mod (capacity_ b) (alignment_ b) ltac:(lia)) as H2. rewrite Hm in H1. rewrite bw_capacity0 in H2.
  set (x := Roundup _ _) in *. set (q1 := x / _) in *. set (q2 := capacity_ b / _) in *.
  assert (q1 <= q2) by (apply Z.lt_succ_r, (Z.mul_lt_mono_pos_l (alignment_ b)); lia). nia.
Qed.

Lemma PadToAlignmentWith_ok b c : buffer_wf b ->
  exists b', PadToAlignmentWith c b = Ret tt b' /\
    refilled b (buffered b ++ padding_bytes (Roundup (cursize_ b) (alignment_ b) - cursize_ b) c) b'.
Proof.
  intros Hb. pose proof (Roundup_fits b Hb) as Hf. pose proof Hb as []. unfold PadToAlignmentWith. rewrite !bind_gets.
  rewrite u64_small by lia. set (n := Roundup (cursize_ b) (alignment_ b) - cursize_ b) in *.
  destruct (Z.ltb_spec 0 n) as [Hpos|Hpos].
  - assert (zlen (padding_bytes n c) = n) as Hz by (apply zlen_replicate; lia).
    destruct (put_behind b (padding_bytes n c) Hb) as (b' & Hput & Hr); [lia|]. rewrite Hz in Hput. by exists b'.
  - exists b. split; [done|]. replace n with 0 by lia. rewrite app_nil_r. by apply refilled_same.
Qed.

Lemma buf_Size_ok b n : buffer_wf b -> 0 <= n <= cursize_ b ->
  exists b', buf_Size n b = Ret tt b' /\ refilled b (take (Z.to_nat n) (buffered b)) b'.
Proof.
  intros [] Hn. eexists. split; [reflexivity|]. unfold refilled, buffered, set_cursize. cbn.
  rewrite take_take. split; [|split; [f_equal; lia|done]]. split; cbn; try done; lia.
Qed.

Lemma RefitTail_ok b off n : buffer_wf b -> 0 <= off -> 0 <= n -> off + n <= cursize_ b ->
  exists b', RefitTail off n b = Ret tt b' /\ refilled b (sub (buffered b) off n) b'.
Proof.
  intros Hb Ho Hn Hl. pose proof Hb as []. unfold RefitTail.
  assert (sub (buffered b) off n = sub (buf_memory b) off n) as ->.
  { unfold sub, buffered.
    rewrite <- (take_drop (Z.to_nat (cursize_ b)) (buf_memory b)) at 2.
    rewrite drop_app_le by (rewrite length_take; unfold zlen in *; lia).
    rewrite take_app_le; [done|]. rewrite length_drop, length_take. unfold zlen in *. lia. }
  assert (zlen (sub (buf_memory b) off n) = n) as Hz.
  { unfold zlen. rewrite length_sub by (apply in_block_spec; unfold zlen in *; lia). lia. }
  destruct (Z.ltb_spec 0 n) as [Hpos|Hpos]; cbn [when].
  - eexists. split.
    { erewrite bind_Ret; [reflexivity|]. erewrite bind_Ret by (apply copy_out_ok; lia). apply copy_in_ok; lia. }
    unfold refilled, buffered, set_cursize, set_memory. cbn [alignment_ capacity_ cursize_ buf_memory].
    pose proof (take_overwrite (buf_memory b) (sub (buf_memory b) off n) 0 ltac:(lia)) as Ht.
    rewrite Hz, Z.add_0_l in Ht. split; [|done].
    assert (zlen (overwrite (buf_memory b) 0 (sub (buf_memory b) off n)) = zlen (buf_memory b)) as Hz2.
    { unfold zlen. rewrite length_overwrite; [done|]. apply in_block_spec. unfold zlen in *. lia. }
    split; cbn [alignment_ capacity_ cursize_ buf_memory]; try done; lia.
  - exists (set_cursize n b). split; [done|]. unfold refilled, buffered, set_cursize. cbn [alignment_ capacity_ cursize_ buf_memory].
    replace n with 0 by lia. unfold sub. cbn. split; [|done]. split; cbn; try done; lia.
Qed.

(** ** Lemmas: allocation *)

(** What [new] promises: an array of the size asked for, inside the address
    space. *)
Class AllocatorLaws `{Allocator} : Prop := {
  new_char_law n : 0 <= n < 2 ^ 63 ->
    zlen (new_char n).2 = n /\ 0 <= (new_char n).1 /\ (new_char n).1 + n < 2 ^ 64 }.

Section Allocation.
Context `{AllocatorLaws}.

Lemma fresh_memory a n : power_of_two a -> 0 <= n < 2 ^ 62 ->
  let '(address, array) := new_char (u64 (n + a)) in
  n < zlen (drop (Z.to_nat (align_pointer address a - address)) array).
Proof.
  intros Ha Hn. pose proof (power_of_two_range a Ha). rewrite u64_small by lia.
  pose proof (new_char_law (n + a) ltac:(lia)) as (Hz & Hp & Hpn). destruct (new_char (n + a)) as [p m]. cbn in *.
  destruct (align_pointer_spec a p Ha Hp) as [Hr _]; [lia|]. rewrite zlen_drop; lia.
Qed.

(** A larger buffer with the same bytes in it. *)
Lemma Allocate_copy b n : buffer_wf b -> cursize_ b <= n < 2 ^ 60 ->
  exists b', AllocateNewBuffer n true 0 0 b = Ret tt b' /\ buffer_wf b' /\ buffered b' = buffered b /\
    alignment_ b' = alignment_ b /\ capacity_ b' = Roundup n (alignment_ b).
Proof.
  intros Hb Hn. pose proof (zlen_buffered b Hb) as Hz. pose proof Hb as [].
  pose proof (power_of_two_range _ bw_align0) as Ha.
  destruct (Roundup_spec (alignment_ b) n) as (Hr & Hm & _); [lia|lia|]. set (cap := Roundup n (alignment_ b)) in *.
  pose proof (fresh_memory (alignment_ b) cap bw_align0 ltac:(lia)) as Hfresh.
  unfold AllocateNewBuffer. rewrite !bind_gets. change (0 <? 0) with false. cbv iota.
  destruct (Z.ltb_spec n (cursize_ b)); [lia|]. cbn [andb]. fold cap.
  destruct (new_char _) as [p m]. set (fresh := drop _ m) in *. eexists. split.
  { erewrite bind_Ret by (apply copy_out_ok; lia). erewrite bind_Ret by reflexivity.
    assert (sub (buf_memory b) 0 (cursize_ b) = buffered b) as -> by done.
    erewrite bind_Ret by (apply copy_in_ok; cbn [buf_memory]; lia). reflexivity. }
  pose proof (take_overwrite fresh (buffered b) 0 ltac:(lia)) as Ht. rewrite Hz, Z.add_0_l in Ht.
  unfold set_cursize, set_memory. split; [|done].
  assert (zlen (overwrite fresh 0 (buffered b)) = zlen fresh) as Hz2.
  { unfold zlen. rewrite length_overwrite; [done|]. apply in_block_spec. unfold zlen in *. lia. }
  split; cbn [alignment_ capacity_ cursize_ buf_memory]; try done; lia.
Qed.

(** The first buffer. *)
Lemma Allocate_new b n : power_of_two (alignment_ b) -> 0 <= n < 2 ^ 60 ->
  exists b', AllocateNewBuffer n false 0 0 b = Ret tt b' /\ buffer_wf b' /\ buffered b' = [] /\
    alignment_ b' = alignment_ b /\ capacity_ b' = Roundup n (alignment_ b).
Proof.
  intros Hal Hn. pose proof (power_of_two_range _ Hal) as Ha.
  destruct (Roundup_spec (alignment_ b) n) as (Hr & Hm & _); [lia|lia|]. set (cap := Roundup n (alignment_ b)) in *.
  pose proof (fresh_memory (alignment_ b) cap Hal ltac:(lia)) as Hfresh.
  unfold AllocateNewBuffer. rewrite !bind_gets. cbn [andb]. fold cap.
  destruct (new_char _) as [p m]. set (fresh := drop _ m) in *. eexists. split; [reflexivity|].
  split; [|done]. split; cbn [alignment_ capacity_ cursize_ buf_memory]; try done; lia.
Qed.
End Allocation.

(** An allocator for examples: arrays start three bytes before a multiple of any
    alignment up to 16. *)
Definition memory_allocator : Allocator := {| new_char n := (13, replicate (Z.to_nat n) Byte.xff) |}.
Lemma memory_allocator_laws : AllocatorLaws (H := memory_allocator).
Proof. split. intros n Hn. cbn -[Z.pow]. rewrite zlen_replicate by lia. lia. Qed.
