(* ===== verification/FileWriter.v ===== *)
(** file/writable_file_writer.h, file/writable_file_writer.cc: the buffer between
    RocksDB and a file, with the rate limiter of util/rate_limiter.cc and the
    checksum of a whole file of util/file_checksum_helper.h.

    The file is any implementation of the interface [FSWritableFile].  Events
    that only notify listeners and statistics are left out. *)
From S2P Require Import Prelude Bits Coding Crc32c IoStatus AlignedBuffer.
From stdpp Require Import base numbers list strings.
From Stdlib Require Import ZArith Lia.
Local Open Scope Z_scope.

(** ** The rate limiter *)

Inductive OpType := kRead | kWrite.
Inductive Mode := kReadsOnly | kWritesOnly | kAllIo.

(** [GetSingleBurstBytes()] and the mode. *)
Record RateLimiter := MkRateLimiter { single_burst_bytes : Z; mode_ : Mode }.

Definition IO_TOTAL : Z := 4.

Definition IsRateLimited (l : RateLimiter) (op_type : OpType) : bool :=
  match mode_ l, op_type with
  | kWritesOnly, kRead | kReadsOnly, kWrite => false
  | _, _ => true
  end.

Definition RequestToken (l : RateLimiter) (n alignment io_priority : Z) (op_type : OpType) : Z :=
  if (io_priority <? IO_TOTAL) && IsRateLimited l op_type then
    let n := Z.min n (u64 (single_burst_bytes l)) in
    if 0 <? alignment then Z.max alignment (TruncateToPageBoundary alignment n) else n
  else n.

(** ** The checksum of the file *)

Record FileChecksumGenCrc32c := MkFileChecksumGenCrc32c { gen_checksum : Z; gen_checksum_str : bytes }.

Definition new_FileChecksumGenCrc32c : FileChecksumGenCrc32c := MkFileChecksumGenCrc32c 0 [].
Definition gen_Update (data : bytes) (g : FileChecksumGenCrc32c) : FileChecksumGenCrc32c :=
  MkFileChecksumGenCrc32c (Extend (gen_checksum g) data) (gen_checksum_str g).
Definition EndianSwapValue (v : Z) : Z := le_val (rev (le_bytes 4 v)).
Definition gen_Finalize (g : FileChecksumGenCrc32c) : FileChecksumGenCrc32c :=
  MkFileChecksumGenCrc32c (gen_checksum g) (PutFixed32 true (gen_checksum_str g) (EndianSwapValue (gen_checksum g))).

(** ** The file *)

(** The checksum handed with a write is the field of [DataVerificationInfo]. *)
Class FSWritableFile (F : Type) := {
  fs_Append : bytes -> option bytes -> prog F IOStatus;
  fs_PositionedAppend : bytes -> Z -> option bytes -> prog F IOStatus;
  fs_Truncate : Z -> prog F IOStatus;
  fs_Close : prog F IOStatus;
  fs_Flush : prog F IOStatus;
  fs_Sync : prog F IOStatus;
  fs_Fsync : prog F IOStatus;
  fs_RangeSync : Z -> Z -> prog F IOStatus;
  fs_PrepareWrite : Z -> Z -> prog F unit;
  fs_InvalidateCache : Z -> Z -> prog F IOStatus;
  fs_IsSyncThreadSafe : F -> bool;
  fs_use_direct_io : F -> bool;
  fs_GetRequiredBufferAlignment : F -> Z;
  fs_GetIOPriority : F -> Z }.

(** ** The writer *)

(** What the constructor is told and no operation changes. *)
Record WriterOptions := MkWriterOptions {
  max_buffer_size_ : Z; bytes_per_sync_ : Z; rate_limiter_ : option RateLimiter;
  perform_data_verification_ : bool; buffered_data_with_checksum_ : bool }.

(** [writable_file_], and after [Close] a null pointer and the file as it was
    left. *)
Inductive handle (F : Type) := Open (f : F) | Closed (f : F).
Arguments Open {F}.
Arguments Closed {F}.

Record WritableFileWriter (F : Type) := MkWritableFileWriter {
  writable_file_ : handle F; buf_ : AlignedBuffer; w_options : WriterOptions; filesize_ : Z;
  next_write_offset_ : Z; pending_sync_ : bool; last_sync_size_ : Z;
  checksum_generator_ : option FileChecksumGenCrc32c; checksum_finalized_ : bool;
  buffered_data_crc32c_checksum_ : Z }.
Arguments MkWritableFileWriter {F}.
Arguments writable_file_ {F}.
Arguments buf_ {F}.
Arguments w_options {F}.
Arguments filesize_ {F}.
Arguments next_write_offset_ {F}.
Arguments pending_sync_ {F}.
Arguments last_sync_size_ {F}.
Arguments checksum_generator_ {F}.
Arguments checksum_finalized_ {F}.
Arguments buffered_data_crc32c_checksum_ {F}.

Section Setters.
Context {F : Type}.
Abbreviation FW := (WritableFileWriter F).
Definition put_file (f : handle F) (w : FW) : FW :=
  MkWritableFileWriter f (buf_ w) (w_options w) (filesize_ w) (next_write_offset_ w) (pending_sync_ w)
    (last_sync_size_ w) (checksum_generator_ w) (checksum_finalized_ w) (buffered_data_crc32c_checksum_ w).
Definition set_buf (b : AlignedBuffer) (w : FW) : FW :=
  MkWritableFileWriter (writable_file_ w) b (w_options w) (filesize_ w) (next_write_offset_ w) (pending_sync_ w)
    (last_sync_size_ w) (checksum_generator_ w) (checksum_finalized_ w) (buffered_data_crc32c_checksum_ w).
Definition set_filesize (n : Z) (w : FW) : FW :=
  MkWritableFileWriter (writable_file_ w) (buf_ w) (w_options w) n (next_write_offset_ w) (pending_sync_ w)
    (last_sync_size_ w) (checksum_generator_ w) (checksum_finalized_ w) (buffered_data_crc32c_checksum_ w).
Definition set_next_write_offset (n : Z) (w : FW) : FW :=
  MkWritableFileWriter (writable_file_ w) (buf_ w) (w_options w) (filesize_ w) n (pending_sync_ w)
    (last_sync_size_ w) (checksum_generator_ w) (checksum_finalized_ w) (buffered_data_crc32c_checksum_ w).
Definition set_pending_sync (p : bool) (w : FW) : FW :=
  MkWritableFileWriter (writable_file_ w) (buf_ w) (w_options w) (filesize_ w) (next_write_offset_ w) p
    (last_sync_size_ w) (checksum_generator_ w) (checksum_finalized_ w) (buffered_data_crc32c_checksum_ w).
Definition set_last_sync_size (n : Z) (w : FW) : FW :=
  MkWritableFileWriter (writable_file_ w) (buf_ w) (w_options w) (filesize_ w) (next_write_offset_ w) (pending_sync_ w)
    n (checksum_generator_ w) (checksum_finalized_ w) (buffered_data_crc32c_checksum_ w).
Definition set_generator (g : option FileChecksumGenCrc32c) (finalized : bool) (w : FW) : FW :=
  MkWritableFileWriter (writable_file_ w) (buf_ w) (w_options w) (filesize_ w) (next_write_offset_ w) (pending_sync_ w)
    (last_sync_size_ w) g finalized (buffered_data_crc32c_checksum_ w).
Definition set_crc (c : Z) (w : FW) : FW :=
  MkWritableFileWriter (writable_file_ w) (buf_ w) (w_options w) (filesize_ w) (next_write_offset_ w) (pending_sync_ w)
    (last_sync_size_ w) (checksum_generator_ w) (checksum_finalized_ w) c.

Definition buf_lens : lens FW AlignedBuffer := Lens buf_ set_buf.
Definition on_buf {A} (m : prog AlignedBuffer A) : prog FW A := zoom buf_lens m.

(** A call through [writable_file_]. *)
Definition on_file {A} (m : prog F A) : prog FW A := fun w =>
  match writable_file_ w with
  | Closed _ => UB
  | Open f => match m f with
              | Ret a f' => Ret a (put_file (Open f') w)
              | Exit f' => Exit (put_file (Open f') w)
              | UB => UB
              | Hang => Hang
              end
  end.

Definition buf {A} (f : AlignedBuffer -> A) (w : FW) : A := f (buf_ w).
Definition opt {A} (f : WriterOptions -> A) (w : FW) : A := f (w_options w).
End Setters.

Section Writer.
Context {F : Type} `{FSWritableFile F} `{Allocator}.
Abbreviation FW := (WritableFileWriter F).

Definition use_direct_io : prog FW bool := on_file (gets fs_use_direct_io).

(** The constructor; [generator] is what the factory returned. *)
Definition new_WritableFileWriter (file : F) (options : WriterOptions) (generator : option FileChecksumGenCrc32c) : prog AlignedBuffer FW :=
  set_Alignment (fs_GetRequiredBufferAlignment file);;
  AllocateNewBuffer (Z.min 65536 (max_buffer_size_ options)) false 0 0;;
  b ← gets id;
  mret (MkWritableFileWriter (Open file) b options 0 0 false 0 generator false 0).

(** *** Tokens of the rate limiter *)

(** How much of [left] bytes may be written now. *)
Definition allowance (left alignment : Z) : prog FW Z :=
  rl ← gets (opt rate_limiter_);
  match rl with
  | Some l => p ← on_file (gets fs_GetIOPriority); mret (RequestToken l left alignment p kWrite)
  | None => mret left
  end.

(** [while (data_size > 0) data_size -= RequestToken(...)]. *)
Fixpoint token_loop (fuel : nat) (l : RateLimiter) (data_size alignment : Z) : prog FW unit :=
  match fuel with
  | O => hang
  | S fuel' =>
    if 0 <? data_size then
      p ← on_file (gets fs_GetIOPriority);
      token_loop fuel' l (u64 (data_size - RequestToken l data_size alignment p kWrite)) alignment
    else mret tt
  end.

Definition wait_for_tokens (data_size : Z) : prog FW unit :=
  rl ← gets (opt rate_limiter_);
  alignment ← gets (buf alignment_);
  match rl with
  | Some l => token_loop (S (Z.to_nat data_size)) l data_size alignment
  | None => mret tt
  end.

(** *** Writing to the file *)

Definition Crc32cHandoffChecksumCalculation (data : bytes) : bytes := EncodeFixed32 true (Extend 0 data).

(** The checksum to hand over with data that has none yet. *)
Definition handoff (data : bytes) : prog FW (option bytes) :=
  p ← gets (opt perform_data_verification_);
  mret (if (p : bool) then Some (Crc32cHandoffChecksumCalculation data) else None).

Fixpoint write_buffered_loop (fuel : nat) (src : bytes) : prog FW IOStatus :=
  match fuel with
  | O => hang
  | S fuel' =>
    if 0 <? zlen src then
      allowed ← allowance (zlen src) 0;
      v ← handoff (take (Z.to_nat allowed) src);
      s ← on_file (fs_Append (take (Z.to_nat allowed) src) v);
      if negb (ok s) then mret s else write_buffered_loop fuel' (drop (Z.to_nat allowed) src)
    else mret OK
  end.

Definition WriteBuffered (data : bytes) : prog FW IOStatus :=
  s ← write_buffered_loop (S (length data)) data;
  if negb (ok s) then mret s else
  on_buf (buf_Size 0);;
  modify (set_crc 0);;
  mret s.

Definition WriteBufferedWithChecksum (data : bytes) : prog FW IOStatus :=
  wait_for_tokens (zlen data);;
  c ← gets buffered_data_crc32c_checksum_;
  s ← on_file (fs_Append data (Some (EncodeFixed32 true c)));
  if negb (ok s) then mret s else
  on_buf (buf_Size 0);;
  modify (set_crc 0);;
  mret s.

Fixpoint write_direct_loop (fuel : nat) (src : bytes) (write_offset : Z) : prog FW IOStatus :=
  match fuel with
  | O => hang
  | S fuel' =>
    if 0 <? zlen src then
      alignment ← gets (buf alignment_);
      size ← allowance (zlen src) alignment;
      v ← handoff (take (Z.to_nat size) src);
      s ← on_file (fs_PositionedAppend (take (Z.to_nat size) src) write_offset v);
      if negb (ok s) then mret s
      else write_direct_loop fuel' (drop (Z.to_nat size) src) (u64 (write_offset + size))
    else mret OK
  end.

Definition WriteDirect : prog FW IOStatus :=
  alignment ← gets (buf alignment_);
  cur ← gets (buf cursize_);
  let file_advance := TruncateToPageBoundary alignment cur in
  let leftover_tail := u64 (cur - file_advance) in
  on_buf (PadToAlignmentWith 0);;
  left ← gets (buf cursize_);
  src ← on_buf (copy_out 0 left);
  off ← gets next_write_offset_;
  s ← write_direct_loop (S (length src)) src off;
  if negb (ok s) then on_buf (buf_Size (u64 (file_advance + leftover_tail)));; mret s else
  on_buf (RefitTail file_advance leftover_tail);;
  modify (set_next_write_offset (u64 (off + file_advance)));;
  mret s.

(** The checksum of what is in the buffer, computed anew. *)
Definition recompute_crc : prog FW unit :=
  cur ← gets (buf cursize_);
  data ← on_buf (copy_out 0 cur);
  modify (set_crc (Value data)).

Definition WriteDirectWithChecksum : prog FW IOStatus :=
  alignment ← gets (buf alignment_);
  last_cur_size ← gets (buf cursize_);
  let file_advance := TruncateToPageBoundary alignment last_cur_size in
  let leftover_tail := u64 (last_cur_size - file_advance) in
  on_buf (PadToAlignmentWith 0);;
  left ← gets (buf cursize_);
  let padded_size := u64 (left - last_cur_size) in
  padded ← on_buf (copy_out last_cur_size padded_size);
  c ← gets buffered_data_crc32c_checksum_;
  combined ← the (Crc32cCombine c (Value padded) padded_size);
  modify (set_crc combined);;
  src ← on_buf (copy_out 0 left);
  off ← gets next_write_offset_;
  wait_for_tokens left;;
  s ← on_file (fs_PositionedAppend src off (Some (EncodeFixed32 true combined)));
  if negb (ok s) then
    on_buf (buf_Size (u64 (file_advance + leftover_tail)));;
    recompute_crc;;
    mret s
  else
    on_buf (RefitTail file_advance leftover_tail);;
    recompute_crc;;
    modify (set_next_write_offset (u64 (off + file_advance)));;
    mret s.

(** *** Flush and sync *)

Definition RangeSync (offset nbytes : Z) : prog FW IOStatus := on_file (fs_RangeSync offset nbytes).

Definition SyncInternal (use_fsync : bool) : prog FW IOStatus :=
  if use_fsync then on_file fs_Fsync else on_file fs_Sync.

Definition with_checksum (w : FW) : bool :=
  perform_data_verification_ (w_options w) && buffered_data_with_checksum_ (w_options w).

Definition kBytesNotSyncRange : Z := 1024 * 1024.
Definition kBytesAlignWhenSync : Z := 4 * 1024.

(** The part of [Flush] that starts the write-back of all but the last bytes. *)
Definition sync_range : prog FW IOStatus :=
  size ← gets filesize_;
  per ← gets (opt bytes_per_sync_);
  last ← gets last_sync_size_;
  if kBytesNotSyncRange <? size then
    let offset_sync_to := size - kBytesNotSyncRange in
    let offset_sync_to := offset_sync_to - offset_sync_to mod kBytesAlignWhenSync in
    if (0 <? offset_sync_to) && (per <=? u64 (offset_sync_to - last)) then
      s ← RangeSync last (u64 (offset_sync_to - last));
      modify (set_last_sync_size offset_sync_to);;
      mret s
    else mret OK
  else mret OK.

(** The part of [Flush] that writes the buffer. *)
Definition flush_buffer : prog FW IOStatus :=
  direct ← use_direct_io;
  pending ← gets pending_sync_;
  wc ← gets with_checksum;
  if (direct : bool) then
    if (pending : bool) then (if (wc : bool) then WriteDirectWithChecksum else WriteDirect) else mret OK
  else
    cur ← gets (buf cursize_);
    data ← on_buf (copy_out 0 cur);
    if (wc : bool) then WriteBufferedWithChecksum data else WriteBuffered data.

Definition writer_Flush : prog FW IOStatus :=
  cur ← gets (buf cursize_);
  s ← (if 0 <? cur then flush_buffer else mret OK);
  if negb (ok s) then mret s else
  s ← on_file fs_Flush;
  if negb (ok s) then mret s else
  direct ← use_direct_io;
  per ← gets (opt bytes_per_sync_);
  if negb direct && negb (per =? 0) then sync_range else mret s.

Definition writer_Sync (use_fsync : bool) : prog FW IOStatus :=
  s ← writer_Flush;
  if negb (ok s) then mret s else
  direct ← use_direct_io;
  pending ← gets pending_sync_;
  s ← (if negb direct && pending then SyncInternal use_fsync else mret OK);
  if negb (ok s) then mret s else
  modify (set_pending_sync false);;
  mret OK.

Definition SyncWithoutFlush (use_fsync : bool) : prog FW IOStatus :=
  safe ← on_file (gets fs_IsSyncThreadSafe);
  if negb safe then mret (NotSupported "Can't WritableFileWriter::SyncWithoutFlush() because WritableFile::IsSyncThreadSafe() is false")
  else SyncInternal use_fsync.

Definition writer_InvalidateCache (offset length : Z) : prog FW IOStatus := on_file (fs_InvalidateCache offset length).

(** *** Append *)

Definition UpdateFileChecksum (data : bytes) : prog FW unit :=
  modify (fun w => set_generator (gen_Update data <$> checksum_generator_ w) (checksum_finalized_ w) w).

(** The loop that looks for a capacity at which [left] bytes fit. *)
Fixpoint enlarge (fuel : nat) (cap left : Z) : prog FW unit :=
  match fuel with
  | O => hang
  | S fuel' =>
    max ← gets (opt max_buffer_size_);
    if cap <? max then
      let desired_capacity := Z.min (u64 (cap * 2)) max in
      cur ← gets (buf cursize_);
      direct ← use_direct_io;
      if (left <=? u64 (desired_capacity - cur)) || (direct && (desired_capacity =? max))
      then on_buf (AllocateNewBuffer desired_capacity true 0 0)
      else enlarge fuel' (u64 (cap * 2)) left
    else mret tt
  end.

Definition buf_room (w : FW) : Z := u64 (capacity_ (buf_ w) - cursize_ (buf_ w)).

(** [while (left > 0) ...]: through the buffer, with a flush when it is full. *)
Fixpoint append_loop (fuel : nat) (src : bytes) : prog FW IOStatus :=
  match fuel with
  | O => hang
  | S fuel' =>
    if 0 <? zlen src then
      appended ← on_buf (buf_Append src);
      wc ← gets with_checksum;
      when wc (modify (fun w => set_crc (Extend (buffered_data_crc32c_checksum_ w) (take (Z.to_nat appended) src)) w));;
      let src := drop (Z.to_nat appended) src in
      if 0 <? zlen src then
        s ← writer_Flush;
        if negb (ok s) then mret s else append_loop fuel' src
      else mret OK
    else mret OK
  end.

(** A write with the checksum that the caller gave. *)
Definition append_with_crc (data : bytes) (crc32c_checksum : Z) : prog FW IOStatus :=
  direct ← use_direct_io;
  r ← gets buf_room;
  if direct || (zlen data <=? r) then
    if zlen data <=? r then
      appended ← on_buf (buf_Append data);
      c ← gets buffered_data_crc32c_checksum_;
      combined ← the (Crc32cCombine c crc32c_checksum appended);
      modify (set_crc combined);;
      mret (if negb (appended =? zlen data) then Corruption "Write buffer append failure" else OK)
    else append_loop (S (S (length data))) data
  else
    modify (set_crc crc32c_checksum);;
    WriteBufferedWithChecksum data.

Definition append_plain (data : bytes) : prog FW IOStatus :=
  direct ← use_direct_io;
  cap ← gets (buf capacity_);
  wc ← gets with_checksum;
  if direct || (zlen data <=? cap) then append_loop (S (S (length data))) data
  else if (wc : bool) then modify (set_crc (Value data));; WriteBufferedWithChecksum data
  else WriteBuffered data.

(** Flush the buffer for data that does not fit, with buffered I/O. *)
Definition make_room (left : Z) : prog FW IOStatus :=
  direct ← use_direct_io;
  r ← gets buf_room;
  cur ← gets (buf cursize_);
  if negb direct && (r <? left) && (0 <? cur) then writer_Flush else mret OK.

(** [Append] with the buffer it has settled on. *)
Definition append_data (data : bytes) (crc32c_checksum : Z) : prog FW IOStatus :=
  s ← make_room (zlen data);
  if negb (ok s) then mret s else
  wc ← gets with_checksum;
  s ← (if wc && negb (crc32c_checksum =? 0) then append_with_crc data crc32c_checksum else append_plain data);
  when (ok s) (modify (fun w => set_filesize (u64 (filesize_ w + zlen data)) w));;
  mret s.

Definition writer_Append (data : bytes) (crc32c_checksum : Z) : prog FW IOStatus :=
  modify (set_pending_sync true);;
  UpdateFileChecksum data;;
  size ← gets filesize_;
  on_file (fs_PrepareWrite size (zlen data));;
  r ← gets buf_room;
  cap ← gets (buf capacity_);
  when (r <? zlen data) (enlarge 65 cap (zlen data));;
  append_data data crc32c_checksum.

(** *** Pad *)

Fixpoint pad_loop (fuel : nat) (left cap : Z) : prog FW IOStatus :=
  match fuel with
  | O => hang
  | S fuel' =>
    if 0 <? left then
      let append_bytes := Z.min cap left in
      on_buf (PadWith append_bytes 0);;
      let left := left - append_bytes in
      s ← (if 0 <? left then writer_Flush else mret OK);
      if negb (ok s) then mret s else
      cap ← gets buf_room;
      pad_loop fuel' left cap
    else mret OK
  end.

Definition writer_Pad (pad_bytes : Z) : prog FW IOStatus :=
  cap ← gets buf_room;
  pad_start ← gets (buf cursize_);
  s ← pad_loop (S (S (Z.to_nat pad_bytes))) pad_bytes cap;
  if negb (ok s) then mret s else
  modify (set_pending_sync true);;
  modify (fun w => set_filesize (u64 (filesize_ w + pad_bytes)) w);;
  p ← gets (opt perform_data_verification_);
  when p (data ← on_buf (copy_out pad_start pad_bytes);
          modify (fun w => set_crc (Extend (buffered_data_crc32c_checksum_ w) data) w));;
  mret OK.

(** *** Close *)

(** The first of two failures. *)
Definition first_error (s interim : IOStatus) : IOStatus := if negb (ok interim) && ok s then interim else s.

(** With direct I/O whole pages were written; the file is cut to its size. *)
Definition close_direct (s : IOStatus) : prog FW IOStatus :=
  size ← gets filesize_;
  interim ← on_file (fs_Truncate size);
  interim ← (if ok interim then on_file fs_Fsync else mret interim);
  mret (first_error s interim).

Definition finalize_checksum (s : IOStatus) : prog FW unit :=
  g ← gets checksum_generator_;
  fin ← gets checksum_finalized_;
  match g with
  | Some g => when (ok s && negb fin) (modify (set_generator (Some (gen_Finalize g)) true))
  | None => mret tt
  end.

(** [writable_file_.reset()]. *)
Definition reset_file (w : FW) : FW :=
  put_file (match writable_file_ w with Open f | Closed f => Closed f end) w.

Definition writer_Close : prog FW IOStatus :=
  f ← gets writable_file_;
  match f with
  | Closed _ => mret OK
  | Open _ =>
    s ← writer_Flush;
    direct ← use_direct_io;
    s ← (if (direct : bool) then close_direct s else mret s);
    interim ← on_file fs_Close;
    let s := first_error s interim in
    modify reset_file;;
    finalize_checksum s;;
    mret s
  end.

(** The destructor drops the status. *)
Definition writer_destroy : prog FW unit := writer_Close;; mret tt.

Definition GetFileSize (w : FW) : Z := filesize_ w.

Definition kUnknownFileChecksum : bytes := [].
Definition GetFileChecksum (w : FW) : bytes :=
  match checksum_generator_ w with Some g => gen_checksum_str g | None => kUnknownFileChecksum end.
End Writer.
