(* ===== verification/FileWriterSpec.v ===== *)
(** The writer of files keeps its invariant whatever the file answers, and what
    it has accepted is what the file has and the buffer still holds. *)
From S2P Require Import Prelude Bits Coding Crc32c Crc32cSpec IoStatus AlignedBuffer FileWriter.
From stdpp Require Import base numbers list strings.
From Stdlib Require Import ZArith Lia.
Local Open Scope Z_scope.

(** ** The contract of a file

    [file_data] is what a reader of the file would see; [honest] says that every
    checksum the file was handed was that of the data it came with.  All calls
    return; what a failed write leaves at its place is not known; a write that
    would make the file larger than a file can be fails. *)

Definition right_checksum (v : option bytes) (d : bytes) : Prop :=
  v = None \/ v = Some (EncodeFixed32 true (Value d)).

Section Attributes.
Context {F : Type} `{FSWritableFile F}.
Definition attributes (f : F) : bool * Z * bool * Z :=
  (fs_use_direct_io f, fs_GetRequiredBufferAlignment f, fs_IsSyncThreadSafe f, fs_GetIOPriority f).
End Attributes.

Class FSWritableFileSpec (F : Type) `{FSWritableFile F} := {
  file_ok : F -> Prop;
  file_data : F -> bytes;
  honest : F -> Prop;
  (* The file after a call that does not write. *)
  idle (f f' : F) : Prop :=
    file_ok f' /\ attributes f' = attributes f /\ (honest f -> honest f') /\ file_data f' = file_data f;
  law_size f : file_ok f -> zlen (file_data f) < 2 ^ 62;
  law_Append f d v : file_ok f -> exists s f', fs_Append d v f = Ret s f' /\
    file_ok f' /\ attributes f' = attributes f /\ (right_checksum v d -> honest f -> honest f') /\
    (ok s = true -> file_data f' = file_data f ++ d);
  law_PositionedAppend f d off v : file_ok f -> 0 <= off <= zlen (file_data f) ->
    off mod fs_GetRequiredBufferAlignment f = 0 -> zlen d mod fs_GetRequiredBufferAlignment f = 0 ->
    exists s f', fs_PositionedAppend d off v f = Ret s f' /\
    file_ok f' /\ attributes f' = attributes f /\ (right_checksum v d -> honest f -> honest f') /\
    zlen (file_data f) <= zlen (file_data f') /\
    take (Z.to_nat off) (file_data f') = take (Z.to_nat off) (file_data f) /\
    (ok s = true -> file_data f' = overwrite (file_data f) off d);
  law_Truncate f n : file_ok f -> exists s f', fs_Truncate n f = Ret s f' /\
    file_ok f' /\ attributes f' = attributes f /\ (honest f -> honest f') /\
    (ok s = true -> 0 <= n <= zlen (file_data f) -> file_data f' = take (Z.to_nat n) (file_data f));
  law_Close f : file_ok f -> exists s f', fs_Close f = Ret s f' /\ idle f f';
  law_Flush f : file_ok f -> exists s f', fs_Flush f = Ret s f' /\ idle f f';
  law_Sync f : file_ok f -> exists s f', fs_Sync f = Ret s f' /\ idle f f';
  law_Fsync f : file_ok f -> exists s f', fs_Fsync f = Ret s f' /\ idle f f';
  law_RangeSync f o n : file_ok f -> exists s f', fs_RangeSync o n f = Ret s f' /\ idle f f';
  law_PrepareWrite f o n : file_ok f -> exists s f', fs_PrepareWrite o n f = Ret s f' /\ idle f f';
  law_InvalidateCache f o n : file_ok f -> exists s f', fs_InvalidateCache o n f = Ret s f' /\ idle f f' }.

Section Spec.
Context {F : Type} `{FSWritableFile F} {HF : FSWritableFileSpec F} `{HA : Allocator} {HL : AllocatorLaws}.
Abbreviation FW := (WritableFileWriter F).

(** ** The invariant of the writer *)

(** The limiter lets at least a byte pass.  With buffered I/O and checksums
    handed over, a limited file has no waiting loop that ends, see
    [limited_write_never_returns]; such writers are left out here. *)
Definition limiter_fine (f : F) (w : FW) : Prop :=
  forall l, rate_limiter_ (w_options w) = Some l ->
    0 < single_burst_bytes l < 2 ^ 63 /\
    (with_checksum w = true -> fs_use_direct_io f = false ->
     (fs_GetIOPriority f <? IO_TOTAL) && IsRateLimited l kWrite = false).

Record writer_wf (f : F) (w : FW) : Prop := {
  ww_file : writable_file_ w = Open f;
  ww_file_ok : file_ok f;
  ww_buf : buffer_wf (buf_ w);
  ww_alignment : alignment_ (buf_ w) = fs_GetRequiredBufferAlignment f;
  ww_capacity : 0 < capacity_ (buf_ w);
  ww_max : 0 < max_buffer_size_ (w_options w) < 2 ^ 60;
  ww_crc : 0 <= buffered_data_crc32c_checksum_ w < 2 ^ 32;
  ww_offset : fs_use_direct_io f = true -> 0 <= next_write_offset_ w <= zlen (file_data f);
  ww_aligned : next_write_offset_ w mod fs_GetRequiredBufferAlignment f = 0;
  ww_limiter : limiter_fine f w }.

(** The bytes of the file that are not in the buffer any more. *)
Definition written (f : F) (w : FW) : bytes :=
  if fs_use_direct_io f then take (Z.to_nat (next_write_offset_ w)) (file_data f) else file_data f.

(** What the writer has accepted. *)
Definition accepted (f : F) (w : FW) : bytes := written f w ++ buffered (buf_ w).

(** The checksum of the buffer is right. *)
Definition sums (w : FW) : Prop := with_checksum w = true -> buffered_data_crc32c_checksum_ w = Value (buffered (buf_ w)).

(** What a flush leaves alone. *)
Definition same_setup (w w' : FW) : Prop :=
  w_options w' = w_options w /\ filesize_ w' = filesize_ w /\ pending_sync_ w' = pending_sync_ w /\
  checksum_generator_ w' = checksum_generator_ w /\ checksum_finalized_ w' = checksum_finalized_ w /\
  alignment_ (buf_ w') = alignment_ (buf_ w) /\ capacity_ (buf_ w') = capacity_ (buf_ w).

#[export] Instance same_setup_preorder : PreOrder same_setup.
Proof.
  split; [by repeat split|]. intros x y z (?&?&?&?&?&?&?) (?&?&?&?&?&?&?). repeat split; congruence.
Qed.

Lemma with_checksum_same (w w' : FW) : w_options w' = w_options w -> with_checksum w' = with_checksum w.
Proof. unfold with_checksum. by intros ->. Qed.

Lemma attributes_direct (f f' : F) : attributes f' = attributes f -> fs_use_direct_io f' = fs_use_direct_io f.
Proof. unfold attributes. congruence. Qed.
Lemma attributes_alignment (f f' : F) : attributes f' = attributes f ->
  fs_GetRequiredBufferAlignment f' = fs_GetRequiredBufferAlignment f.
Proof. unfold attributes. congruence. Qed.

Lemma limiter_fine_same f w f' w' : attributes f' = attributes f -> w_options w' = w_options w ->
  limiter_fine f w -> limiter_fine f' w'.
Proof.
  intros Ha Ho Hl l Hr. rewrite Ho in Hr. rewrite (with_checksum_same _ _ Ho).
  unfold attributes in Ha. injection Ha as -> _ _ ->. by apply Hl.
Qed.

(** Calls through [writable_file_]. *)
Lemma on_file_Ret {A} (m : prog F A) f w a f' : writable_file_ w = Open f -> m f = Ret a f' ->
  on_file m w = Ret a (put_file (Open f') w).
Proof. intros Hw Hm. unfold on_file. by rewrite Hw, Hm. Qed.

Lemma put_file_same f (w : FW) : writable_file_ w = Open f -> put_file (Open f) w = w.
Proof. destruct w. unfold put_file. cbn. by intros ->. Qed.

Lemma on_file_gets {A} (g : F -> A) f w : writable_file_ w = Open f -> on_file (gets g) w = Ret (g f) w.
Proof. intros Hw. by rewrite (on_file_Ret (gets g) f w (g f) f Hw), put_file_same. Qed.

(** The writer with another file in it. *)
Lemma wf_put_file f w f' : writer_wf f w -> file_ok f' -> attributes f' = attributes f ->
  zlen (file_data f) <= zlen (file_data f') \/ fs_use_direct_io f = false -> writer_wf f' (put_file (Open f') w).
Proof.
  intros [] Hok Ha Hd. pose proof (attributes_direct f f' Ha) as Hdir. pose proof (attributes_alignment f f' Ha) as Hal.
  split; cbn; try done; rewrite ?Hal, ?Hdir; try done.
  - intros Ed. specialize (ww_offset0 Ed). destruct Hd; [lia|congruence].
  - by eapply limiter_fine_same.
Qed.

Lemma same_setup_put_file f w : same_setup w (put_file f w).
Proof. by repeat split. Qed.

(** The writer with another buffer in it. *)
Lemma wf_set_buf f w b x : writer_wf f w -> refilled (buf_ w) x b -> writer_wf f (set_buf b w).
Proof. intros [] (Hb & _ & Ha & Hc). split; cbn; try done; congruence. Qed.

Lemma same_setup_set_buf w b x : refilled (buf_ w) x b -> same_setup w (set_buf b w).
Proof. intros (_ & _ & ? & ?). by repeat split. Qed.

(** ** Tokens *)

Lemma RequestToken_plain l n p op : 0 < single_burst_bytes l < 2 ^ 63 -> 0 < n -> 1 <= RequestToken l n 0 p op <= n.
Proof.
  intros Hb Hn. unfold RequestToken. rewrite u64_small by lia. change (0 <? 0) with false. destruct (_ && _); lia.
Qed.

Lemma RequestToken_aligned l n a p op :
  0 < single_burst_bytes l < 2 ^ 63 -> power_of_two a -> 0 < n < 2 ^ 63 -> n mod a = 0 ->
  1 <= RequestToken l n a p op <= n /\ RequestToken l n a p op mod a = 0.
Proof.
  intros Hb Ha Hn Hm. pose proof (power_of_two_range a Ha) as Hr. unfold RequestToken. rewrite u64_small by lia.
  destruct (_ && _); [|lia]. destruct (Z.ltb_spec 0 a); [|lia]. rewrite Truncate_spec by (done || lia).
  set (m := Z.min n (single_burst_bytes l)). pose proof (Z.div_mod m a ltac:(lia)). pose proof (Z.mod_pos_bound m a ltac:(lia)).
  assert (a <= n) by (apply Z.divide_pos_le, Z.mod_divide; lia). split; [lia|].
  destruct (Z.max_spec a (m / a * a)) as [[_ ->]|[_ ->]]; [apply Z.mod_mul; lia|apply Z.mod_same; lia].
Qed.

Lemma allowance_plain f w n : writer_wf f w -> 0 < n -> exists k, allowance n 0 w = Ret k w /\ 1 <= k <= n.
Proof.
  intros Hw Hn. unfold allowance. rewrite bind_gets. unfold opt. destruct (rate_limiter_ _) as [l|] eqn:El; [|exists n; split; [done|lia]].
  destruct (ww_limiter _ _ Hw l El) as [Hb _]. erewrite bind_Ret by (apply (on_file_gets _ f), Hw).
  eexists. split; [done|]. by apply RequestToken_plain.
Qed.

Lemma allowance_aligned f w n : writer_wf f w -> 0 < n < 2 ^ 63 -> n mod fs_GetRequiredBufferAlignment f = 0 ->
  exists k, allowance n (fs_GetRequiredBufferAlignment f) w = Ret k w /\ 1 <= k <= n /\ k mod fs_GetRequiredBufferAlignment f = 0.
Proof.
  intros Hw Hn Hm. unfold allowance. rewrite bind_gets. unfold opt.
  destruct (rate_limiter_ _) as [l|] eqn:El; [|exists n; split; [done|split; [lia|done]]].
  destruct (ww_limiter _ _ Hw l El) as [Hb _]. erewrite bind_Ret by (apply (on_file_gets _ f), Hw).
  eexists. split; [done|]. apply RequestToken_aligned; try done. rewrite <- (ww_alignment _ _ Hw). apply Hw.
Qed.

(** The waiting loop ends when whole pages are to be written. *)
Lemma token_loop_ends f (w : FW) l a : writable_file_ w = Open f -> 0 < single_burst_bytes l < 2 ^ 63 -> power_of_two a ->
  forall fuel n, 0 <= n < 2 ^ 63 -> n mod a = 0 -> n < Z.of_nat fuel -> token_loop fuel l n a w = Ret tt w.
Proof.
  intros Hw Hb Ha. pose proof (power_of_two_range a Ha) as Hr.
  induction fuel as [|fuel IH]; intros n Hn Hm Hf; [lia|]. cbn [token_loop].
  destruct (Z.ltb_spec 0 n); [|done]. erewrite bind_Ret by (by apply (on_file_gets _ f)).
  destruct (RequestToken_aligned l n a (fs_GetIOPriority f) kWrite Hb Ha ltac:(lia) Hm) as [Hk Hkm].
  set (k := RequestToken _ _ _ _ _) in *. rewrite u64_small by lia. apply IH; [lia| |lia].
  rewrite Zminus_mod, Hm, Hkm. by rewrite Z.sub_diag, Z.mod_0_l by lia.
Qed.

Lemma tokens_aligned f w n : writer_wf f w -> 0 <= n < 2 ^ 63 -> n mod fs_GetRequiredBufferAlignment f = 0 ->
  wait_for_tokens n w = Ret tt w.
Proof.
  intros Hw Hn Hm. unfold wait_for_tokens. rewrite !bind_gets. unfold opt, buf. rewrite (ww_alignment _ _ Hw).
  destruct (rate_limiter_ _) as [l|] eqn:El; [|done]. destruct (ww_limiter _ _ Hw l El) as [Hb _].
  apply (token_loop_ends f); try done; [apply Hw| |lia]. rewrite <- (ww_alignment _ _ Hw). apply Hw.
Qed.

Lemma tokens_buffered f w n : writer_wf f w -> with_checksum w = true -> fs_use_direct_io f = false -> 0 <= n ->
  wait_for_tokens n w = Ret tt w.
Proof.
  intros Hw Hwc Hd Hn. unfold wait_for_tokens. rewrite !bind_gets. unfold opt, buf.
  destruct (rate_limiter_ _) as [l|] eqn:El; [|done]. destruct (ww_limiter _ _ Hw l El) as [_ Hlim].
  cbn [token_loop]. destruct (Z.ltb_spec 0 n) as [Hpos|]; [|done].
  erewrite bind_Ret by (apply (on_file_gets _ f), Hw). unfold RequestToken. rewrite (Hlim Hwc Hd), Z.sub_diag.
  destruct (Z.to_nat n) as [|k] eqn:E; [lia|]. done.
Qed.

(** ** Buffered writes *)

(** What a write did to the file. *)
Definition file_wrote (f : F) (s : IOStatus) (f' : F) (d : bytes) : Prop :=
  file_ok f' /\ attributes f' = attributes f /\ (ok s = true -> file_data f' = file_data f ++ d).

Lemma handoff_right (w : FW) d : exists v, handoff d w = Ret v w /\ right_checksum v d.
Proof.
  unfold handoff. rewrite bind_gets. destruct (opt _ w); eexists; (split; [done|]); [by right|by left].
Qed.

Lemma write_buffered_loop_ok fuel : forall f w src, writer_wf f w -> fs_use_direct_io f = false -> (length src < fuel)%nat ->
  exists s f', write_buffered_loop fuel src w = Ret s (put_file (Open f') w) /\ file_wrote f s f' src /\ (honest f -> honest f').
Proof.
  induction fuel as [|fuel IH]; intros f w src Hw Hd Hf; [lia|]. cbn [write_buffered_loop].
  destruct (Z.ltb_spec 0 (zlen src)) as [Hpos|Hpos].
  2: { exists OK, f. rewrite put_file_same by apply Hw. split; [done|]. split; [|done]. split; [apply Hw|]. split; [done|].
       destruct src; [by rewrite app_nil_r|unfold zlen in Hpos; cbn in Hpos; lia]. }
  destruct (allowance_plain f w (zlen src) Hw Hpos) as (k & Hk & Hkr). erewrite bind_Ret by exact Hk.
  destruct (handoff_right w (take (Z.to_nat k) src)) as (v & Hv & Hright). erewrite bind_Ret by exact Hv.
  destruct (law_Append f (take (Z.to_nat k) src) v (ww_file_ok _ _ Hw)) as (s & f1 & Happ & Hok1 & Ha1 & Hh1 & Hd1).
  erewrite bind_Ret by (eapply on_file_Ret; [apply Hw|exact Happ]).
  destruct (ok s) eqn:Es; cbn [negb].
  2: { exists s, f1. split; [done|]. split; [|auto]. split; [done|]. split; [done|congruence]. }
  destruct (IH f1 (put_file (Open f1) w) (drop (Z.to_nat k) src)) as (s2 & f2 & Hloop & (Hok2 & Ha2 & Hd2) & Hh2).
  { apply (wf_put_file f); auto. }
  { by rewrite (attributes_direct _ _ Ha1). }
  { rewrite length_drop. unfold zlen in *. lia. }
  exists s2, f2. split; [exact Hloop|]. split; [|auto]. split; [done|]. split; [congruence|].
  intros Es2. rewrite (Hd2 Es2), (Hd1 eq_refl), <- app_assoc. by rewrite take_drop.
Qed.

(** The writer after a buffered write of [d]. *)
Definition wrote (f : F) (w : FW) (d : bytes) (s : IOStatus) (f' : F) (w' : FW) : Prop :=
  writer_wf f' w' /\ attributes f' = attributes f /\ same_setup w w' /\
  (ok s = true -> file_data f' = file_data f ++ d /\ buffered (buf_ w') = [] /\ buffered_data_crc32c_checksum_ w' = 0) /\
  (ok s = false -> buf_ w' = buf_ w /\ buffered_data_crc32c_checksum_ w' = buffered_data_crc32c_checksum_ w).

Lemma buffer_emptied f (w : FW) : writer_wf f w -> exists w', (on_buf (buf_Size 0);; modify (set_crc 0);; mret OK) w = Ret OK w' /\
  writer_wf f w' /\ same_setup w w' /\ buffered (buf_ w') = [] /\ buffered_data_crc32c_checksum_ w' = 0.
Proof.
  intros Hw. destruct (buf_Size_ok (buf_ w) 0 (ww_buf _ _ Hw)) as (b & Hb & Hr).
  { pose proof (bw_cursize _ (ww_buf _ _ Hw)). lia. }
  exists (set_crc 0 (set_buf b w)). split; [by erewrite bind_Ret by (apply (zoom_Ret buf_lens), Hb)|].
  pose proof (wf_set_buf f w b _ Hw Hr) as Hw'. split; [by destruct Hw'|]. split; [by apply (same_setup_set_buf w b []) in Hr|].
  split; [by destruct Hr as (_ & Hx & _)|done].
Qed.

Lemma WriteBuffered_ok f w d : writer_wf f w -> fs_use_direct_io f = false ->
  exists s f' w', WriteBuffered d w = Ret s w' /\ wrote f w d s f' w' /\ (honest f -> honest f').
Proof.
  intros Hw Hd. unfold WriteBuffered.
  destruct (write_buffered_loop_ok (S (length d)) f w d Hw Hd ltac:(lia)) as (s & f' & Hloop & (Hok & Ha & Hdata) & Hh).
  erewrite bind_Ret by exact Hloop. pose proof (wf_put_file f w f' Hw Hok Ha (or_intror Hd)) as Hw1.
  destruct s; cbn [ok negb]; try (eexists _, f', _; split; [done|]; split; [|done]; split; [done|]; split; [done|]; split; [apply same_setup_put_file|by split]).
  destruct (buffer_emptied f' _ Hw1) as (w' & Hrun & Hw' & Hs & Hb & Hc). exists OK, f', w'.
  split; [done|]. split; [|done]. split; [done|]. split; [done|].
  split; [etrans; [apply (same_setup_put_file (Open f'))|done]|]. split; [auto|done].
Qed.

Lemma WriteBufferedWithChecksum_ok f w d : writer_wf f w -> fs_use_direct_io f = false -> with_checksum w = true ->
  exists s f' w', WriteBufferedWithChecksum d w = Ret s w' /\ wrote f w d s f' w' /\
    (buffered_data_crc32c_checksum_ w = Value d -> honest f -> honest f').
Proof.
  intros Hw Hd Hwc. unfold WriteBufferedWithChecksum.
  erewrite bind_Ret by (by apply (tokens_buffered f); [|..|apply zlen_nonneg]). rewrite bind_gets.
  set (v := Some _). destruct (law_Append f d v (ww_file_ok _ _ Hw)) as (s & f' & Happ & Hok & Ha & Hh & Hdata).
  erewrite bind_Ret by (eapply on_file_Ret; [apply Hw|exact Happ]).
  pose proof (wf_put_file f w f' Hw Hok Ha (or_intror Hd)) as Hw1.
  assert (buffered_data_crc32c_checksum_ w = Value d -> honest f -> honest f') as Hhon
    by (intros Hc; apply Hh; right; unfold v; by rewrite Hc).
  destruct s; cbn [ok negb]; try (eexists _, f', _; split; [done|]; split; [|done]; split; [done|]; split; [done|]; split; [apply same_setup_put_file|by split]).
  destruct (buffer_emptied f' _ Hw1) as (w' & Hrun & Hw' & Hs & Hb & Hc). exists OK, f', w'.
  split; [done|]. split; [|done]. split; [done|]. split; [done|].
  split; [etrans; [apply (same_setup_put_file (Open f'))|done]|]. split; [auto|done].
Qed.

(** ** Direct writes *)

Lemma write_direct_loop_ok fuel : forall f w src off,
  writer_wf f w -> 0 <= off <= zlen (file_data f) -> off mod fs_GetRequiredBufferAlignment f = 0 ->
  zlen src mod fs_GetRequiredBufferAlignment f = 0 -> zlen src < 2 ^ 62 -> (length src < fuel)%nat ->
  exists s f', write_direct_loop fuel src off w = Ret s (put_file (Open f') w) /\
    file_ok f' /\ attributes f' = attributes f /\ (honest f -> honest f') /\ zlen (file_data f) <= zlen (file_data f') /\
    take (Z.to_nat off) (file_data f') = take (Z.to_nat off) (file_data f) /\
    (ok s = true -> take (Z.to_nat (off + zlen src)) (file_data f') = take (Z.to_nat off) (file_data f) ++ src).
Proof.
  induction fuel as [|fuel IH]; intros f w src off Hw Hoff Hom Hsm Hsz Hf; [lia|]. cbn [write_direct_loop].
  pose proof (zlen_nonneg src) as Hnn. destruct (Z.ltb_spec 0 (zlen src)) as [Hpos|Hpos].
  2: { exists OK, f. rewrite put_file_same by apply Hw. do 5 (split; [done || apply Hw|]). split; [done|].
       intros _. destruct src; [by rewrite Z.add_0_r, app_nil_r|unfold zlen in Hpos; cbn in Hpos; lia]. }
  rewrite bind_gets. unfold buf. rewrite (ww_alignment _ _ Hw).
  destruct (allowance_aligned f w (zlen src) Hw ltac:(lia) Hsm) as (k & Hk & Hkr & Hkm). erewrite bind_Ret by exact Hk.
  destruct (handoff_right w (take (Z.to_nat k) src)) as (v & Hv & Hright). erewrite bind_Ret by exact Hv.
  assert (zlen (take (Z.to_nat k) src) = k) as Hzk by (apply zlen_take; lia).
  destruct (law_PositionedAppend f (take (Z.to_nat k) src) off v (ww_file_ok _ _ Hw) Hoff Hom) as
    (s & f1 & Happ & Hok1 & Ha1 & Hh1 & Hz1 & Ht1 & Hd1); [by rewrite Hzk|].
  erewrite bind_Ret by (eapply on_file_Ret; [apply Hw|exact Happ]). pose proof (law_size f (ww_file_ok _ _ Hw)) as Hmax.
  destruct (ok s) eqn:Es; cbn [negb]; [|exists s, f1; split; [done|]; do 5 (split; [auto|]); congruence].
  specialize (Hd1 eq_refl). rewrite u64_small by lia.
  assert (take (Z.to_nat (off + k)) (file_data f1) = take (Z.to_nat off) (file_data f) ++ take (Z.to_nat k) src) as Htk.
  { rewrite Hd1. rewrite <- Hzk at 1. by apply take_overwrite. }
  destruct (IH f1 (put_file (Open f1) w) (drop (Z.to_nat k) src) (off + k)) as (s2 & f2 & Hloop & Hok2 & Ha2 & Hh2 & Hz2 & Ht2 & Hd2).
  { by apply (wf_put_file f); auto. }
  { rewrite Hd1, zlen_overwrite by done. lia. }
  { rewrite (attributes_alignment _ _ Ha1), Zplus_mod, Hom, Hkm. apply Z.mod_0_l.
    rewrite <- (ww_alignment _ _ Hw). pose proof (power_of_two_range _ (bw_align _ (ww_buf _ _ Hw))). lia. }
  { rewrite (attributes_alignment _ _ Ha1), zlen_drop, Zminus_mod, Hsm, Hkm by lia. apply Z.mod_0_l.
    rewrite <- (ww_alignment _ _ Hw). pose proof (power_of_two_range _ (bw_align _ (ww_buf _ _ Hw))). lia. }
  { rewrite zlen_drop; lia. }
  { rewrite length_drop. unfold zlen in *. lia. }
  exists s2, f2. split; [exact Hloop|]. split; [done|]. split; [congruence|]. split; [auto|]. split; [lia|]. split.
  - replace off with (Z.min off (off + k)) at 1 by lia. rewrite Z2Nat.inj_min, <- take_take, Ht2, take_take, <- Ht1.
    f_equal. lia.
  - intros Es2. specialize (Hd2 Es2). rewrite zlen_drop in Hd2 by lia.
    replace (off + zlen src) with (off + k + (zlen src - k)) by lia. rewrite Hd2, Htk, <- app_assoc. by rewrite take_drop.
Qed.

(** Whole pages and the tail. *)
Lemma page_split b : buffer_wf b ->
  let adv := TruncateToPageBoundary (alignment_ b) (cursize_ b) in
  0 <= adv <= cursize_ b /\ adv mod alignment_ b = 0 /\ cursize_ b - adv < alignment_ b /\ u64 (cursize_ b - adv) = cursize_ b - adv.
Proof.
  intros Hb adv. pose proof (bw_align _ Hb) as Hal. pose proof (bw_cursize _ Hb). pose proof (bw_size _ Hb).
  pose proof (power_of_two_range _ Hal) as Ha. unfold adv. rewrite Truncate_spec by (done || lia).
  pose proof (Z.div_mod (cursize_ b) (alignment_ b) ltac:(lia)). pose proof (Z.mod_pos_bound (cursize_ b) (alignment_ b) ltac:(lia)).
  pose proof (Z.div_pos (cursize_ b) (alignment_ b) ltac:(lia) ltac:(lia)).
  split; [nia|]. split; [apply Z.mod_mul; lia|]. split; [lia|]. apply u64_small. nia.
Qed.

Definition page_padding (b : AlignedBuffer) : bytes :=
  padding_bytes (Roundup (cursize_ b) (alignment_ b) - cursize_ b) 0.

Lemma padded_buffer b : buffer_wf b -> exists b1, PadToAlignmentWith 0 b = Ret tt b1 /\
  refilled b (buffered b ++ page_padding b) b1 /\ cursize_ b1 = Roundup (cursize_ b) (alignment_ b) /\
  zlen (buffered b1) = cursize_ b1 /\ cursize_ b1 mod alignment_ b = 0 /\ copy_out 0 (cursize_ b1) b1 = Ret (buffered b1) b1.
Proof.
  intros Hb. destruct (PadToAlignmentWith_ok b 0 Hb) as (b1 & Hp & Hr). exists b1. split; [done|]. split; [done|].
  destruct Hr as (Hb1 & Hx & _). pose proof (zlen_buffered b1 Hb1) as Hz. pose proof (zlen_buffered b Hb) as Hz0.
  pose proof (Roundup_fits b Hb) as Hfit. pose proof (bw_cursize _ Hb). pose proof (bw_size _ Hb).
  pose proof (power_of_two_range _ (bw_align _ Hb)) as Ha.
  assert (cursize_ b1 = Roundup (cursize_ b) (alignment_ b)) as Hc.
  { rewrite <- Hz, Hx, zlen_app, Hz0. unfold padding_bytes. rewrite zlen_replicate; lia. }
  split; [done|]. split; [done|]. split; [rewrite Hc; apply Roundup_spec; lia|].
  rewrite copy_out_ok by (pose proof (bw_cursize _ Hb1); pose proof (bw_memory _ Hb1); lia). done.
Qed.

(** The padding, and the buffer without it again: the tail after a write, all of
    it after a failure. *)
Lemma padding_of b b1 : buffer_wf b -> refilled b (buffered b ++ page_padding b) b1 ->
  cursize_ b1 = Roundup (cursize_ b) (alignment_ b) ->
  copy_out (cursize_ b) (cursize_ b1 - cursize_ b) b1 = Ret (page_padding b) b1.
Proof.
  intros Hb (Hb1 & Hx1 & _ & _) Hc. pose proof (Roundup_fits b Hb). pose proof (bw_cursize _ Hb). pose proof (bw_cursize _ Hb1).
  pose proof (bw_memory _ Hb1). rewrite copy_out_ok by lia. f_equal. transitivity (drop (Z.to_nat (cursize_ b)) (buffered b1)).
  - unfold sub, buffered. rewrite take_drop_commute. f_equal. f_equal. lia.
  - rewrite Hx1, drop_app_length'; [done|]. pose proof (zlen_buffered b Hb) as Hz. unfold zlen in Hz. lia.
Qed.

Lemma tail_refitted b b1 adv : buffer_wf b -> refilled b (buffered b ++ page_padding b) b1 ->
  cursize_ b1 = Roundup (cursize_ b) (alignment_ b) -> 0 <= adv <= cursize_ b ->
  exists b2, RefitTail adv (cursize_ b - adv) b1 = Ret tt b2 /\
    refilled b (sub (buffered b ++ page_padding b) adv (cursize_ b - adv)) b2.
Proof.
  intros Hb (Hb1 & Hx1 & Ha1 & Hcap1) Hc Hadv. pose proof (Roundup_fits b Hb).
  destruct (RefitTail_ok b1 adv (cursize_ b - adv) Hb1) as (b2 & Hrun & Hb2 & Hx2 & ? & ?); [lia..|].
  exists b2. split; [done|]. rewrite Hx1 in Hx2. split; [done|]. split; [done|]. split; congruence.
Qed.

Lemma padding_dropped b b1 adv : buffer_wf b -> refilled b (buffered b ++ page_padding b) b1 ->
  cursize_ b1 = Roundup (cursize_ b) (alignment_ b) ->
  exists b2, buf_Size (u64 (adv + (cursize_ b - adv))) b1 = Ret tt b2 /\ refilled b (buffered b) b2.
Proof.
  intros Hb (Hb1 & Hx1 & Ha1 & Hcap1) Hc. pose proof (Roundup_fits b Hb). pose proof (bw_cursize _ Hb). pose proof (bw_size _ Hb).
  replace (adv + (cursize_ b - adv)) with (cursize_ b) by lia. rewrite u64_small by lia.
  destruct (buf_Size_ok b1 (cursize_ b) Hb1) as (b2 & Hrun & Hb2 & Hx2 & ? & ?); [lia|].
  exists b2. split; [done|]. split; [done|]. split; [|split; congruence].
  rewrite Hx2, Hx1. apply take_app_length'. pose proof (zlen_buffered b Hb) as Hz. unfold zlen in Hz. lia.
Qed.

(** The writer after a direct write of the buffer. *)
Definition wrote_direct (f : F) (w : FW) (s : IOStatus) (f' : F) (w' : FW) : Prop :=
  writer_wf f' w' /\ attributes f' = attributes f /\ same_setup w w' /\
  (ok s = true -> accepted f' w' = accepted f w /\
    take (Z.to_nat (zlen (accepted f w))) (file_data f') = accepted f w /\ cursize_ (buf_ w') < alignment_ (buf_ w)).

Lemma direct_failed f w f' b2 c s : writer_wf f w -> file_ok f' -> attributes f' = attributes f ->
  zlen (file_data f) <= zlen (file_data f') -> refilled (buf_ w) (buffered (buf_ w)) b2 -> 0 <= c < 2 ^ 32 -> ok s = false ->
  wrote_direct f w s f' (set_crc c (set_buf b2 (put_file (Open f') w))).
Proof.
  intros Hw Hok Ha Hz Hr Hc Hs. split; [|split; [done|split; [|congruence]]].
  - pose proof (wf_set_buf f' _ b2 _ (wf_put_file f w f' Hw Hok Ha (or_introl Hz)) Hr) as []. by split.
  - destruct (same_setup_set_buf w b2 _ Hr) as (?&?&?&?&?&?&?). by repeat split.
Qed.

Lemma direct_done f w f' b2 c adv x : writer_wf f w -> fs_use_direct_io f = true -> file_ok f' -> attributes f' = attributes f ->
  zlen (file_data f) <= zlen (file_data f') -> adv = TruncateToPageBoundary (alignment_ (buf_ w)) (cursize_ (buf_ w)) ->
  take (Z.to_nat (next_write_offset_ w + zlen (buffered (buf_ w) ++ x))) (file_data f') =
    take (Z.to_nat (next_write_offset_ w)) (file_data f) ++ buffered (buf_ w) ++ x ->
  refilled (buf_ w) (sub (buffered (buf_ w) ++ x) adv (cursize_ (buf_ w) - adv)) b2 -> 0 <= c < 2 ^ 32 ->
  wrote_direct f w OK f' (set_next_write_offset (u64 (next_write_offset_ w + adv)) (set_crc c (set_buf b2 (put_file (Open f') w)))).
Proof.
  intros Hw Hd Hok Ha Hz Hadv Ht Hr Hc. destruct (page_split _ (ww_buf _ _ Hw)) as (Hadvr & Hadvm & Htail & _). rewrite <- Hadv in *.
  pose proof (ww_offset _ _ Hw Hd) as Hoff. pose proof (law_size f (ww_file_ok _ _ Hw)) as Hmax.
  pose proof (zlen_buffered _ (ww_buf _ _ Hw)) as Hzb. pose proof (bw_cursize _ (ww_buf _ _ Hw)) as Hcur.
  pose proof (bw_size _ (ww_buf _ _ Hw)) as Hcap. set (o := next_write_offset_ w) in *. set (b := buf_ w) in *.
  rewrite u64_small by lia. rewrite zlen_app, Hzb in Ht.
  assert (forall n, 0 <= n <= cursize_ b -> take (Z.to_nat (o + n)) (file_data f') =
    take (Z.to_nat o) (file_data f) ++ take (Z.to_nat n) (buffered b)) as Hpre.
  { intros n Hn. pose proof (zlen_nonneg x). replace (o + n) with (Z.min (o + n) (o + (cursize_ b + zlen x))) by lia.
    rewrite Z2Nat.inj_min, <- take_take, Ht, take_app, length_take, take_take, take_app_le by (unfold zlen in *; lia).
    f_equal; f_equal; unfold zlen in *; lia. }
  assert (o + cursize_ b <= zlen (file_data f')) as Hlen.
  { pose proof (f_equal length (Hpre (cursize_ b) ltac:(lia))) as Hl. rewrite length_take, length_app, !length_take in Hl.
    unfold zlen in *. lia. }
  assert (buffered b2 = drop (Z.to_nat adv) (buffered b)) as Hb2.
  { destruct Hr as (_ & -> & _). unfold sub. rewrite drop_app_le, take_app_le by (rewrite ?length_drop; unfold zlen in *; lia).
    apply take_ge. rewrite length_drop. unfold zlen in *. lia. }
  pose proof (attributes_direct _ _ Ha) as Hd'. rewrite Hd in Hd'. pose proof (attributes_alignment _ _ Ha) as Hal.
  split; [|split; [done|split]].
  - pose proof (wf_set_buf f' _ b2 _ (wf_put_file f w f' Hw Hok Ha (or_introl Hz)) Hr) as [].
    split; cbn in *; try done; [lia|]. rewrite Hal. pose proof (ww_alignment _ _ Hw) as Hal'. fold b in Hal'. rewrite <- Hal'.
    pose proof (ww_aligned _ _ Hw) as Hom. fold o in Hom. rewrite Zplus_mod, Hadvm, Hal', Hom. apply Z.mod_0_l. rewrite <- Hal'.
    pose proof (power_of_two_range _ (bw_align _ (ww_buf _ _ Hw))). unfold b. lia.
  - destruct (same_setup_set_buf w b2 _ Hr) as (?&?&?&?&?&?&?). by repeat split.
  - intros _. unfold accepted, written. rewrite Hd', Hd. cbn. fold o b. rewrite Hb2, (Hpre adv) by lia.
    split; [by rewrite <- app_assoc, take_drop|]. split.
    + rewrite zlen_app, Hzb, zlen_take, (Hpre (cursize_ b)) by lia. f_equal. apply take_ge. unfold zlen in *. lia.
    + destruct Hr as (Hb2w & _ & _). rewrite <- (zlen_buffered b2 Hb2w), Hb2, zlen_drop by lia. lia.
Qed.

(** The buffer of a writer is padded. *)
Lemma pad_buffer (w : FW) : buffer_wf (buf_ w) -> exists b1,
  on_buf (PadToAlignmentWith 0) w = Ret tt (set_buf b1 w) /\
  refilled (buf_ w) (buffered (buf_ w) ++ page_padding (buf_ w)) b1 /\
  cursize_ b1 = Roundup (cursize_ (buf_ w)) (alignment_ (buf_ w)) /\
  zlen (buffered b1) = cursize_ b1 /\ cursize_ b1 mod alignment_ (buf_ w) = 0 /\ copy_out 0 (cursize_ b1) b1 = Ret (buffered b1) b1.
Proof.
  intros Hb. destruct (padded_buffer _ Hb) as (b1 & Hp & Hr). exists b1. split; [|done]. by apply (zoom_Ret buf_lens).
Qed.

Lemma WriteDirect_ok f w : writer_wf f w -> fs_use_direct_io f = true ->
  exists s f' w', WriteDirect w = Ret s w' /\ wrote_direct f w s f' w' /\ (honest f -> honest f') /\
    buffered_data_crc32c_checksum_ w' = buffered_data_crc32c_checksum_ w.
Proof.
  intros Hw Hd. pose proof (ww_buf _ _ Hw) as Hb. destruct (page_split _ Hb) as (Hadv & _ & _ & Hleft).
  destruct (pad_buffer w Hb) as (b1 & Hpad & Hr1 & Hc1 & Hz1 & Hm1 & Hout1). pose proof (ww_crc _ _ Hw) as Hcrc.
  unfold WriteDirect. rewrite !bind_gets. unfold buf. rewrite Hleft. set (adv := TruncateToPageBoundary _ _) in *.
  erewrite bind_Ret by exact Hpad. rewrite bind_gets. erewrite bind_Ret by (apply (zoom_Ret buf_lens), Hout1).
  rewrite bind_gets. change (set buf_lens b1 (set_buf b1 w)) with (set_buf b1 w).
  change (next_write_offset_ (set_buf b1 w)) with (next_write_offset_ w).
  pose proof (wf_set_buf f w b1 _ Hw Hr1) as Hw1. pose proof (ww_offset _ _ Hw Hd) as Hoff. pose proof Hr1 as (Hb1 & Hx1 & Ha1 & Hcap1).
  destruct (write_direct_loop_ok (S (length (buffered b1))) f (set_buf b1 w) (buffered b1) (next_write_offset_ w) Hw1 Hoff (ww_aligned _ _ Hw))
    as (s & f' & Hloop & Hok & Ha & Hh & Hz & _ & Hdata); [|pose proof (bw_cursize _ Hb1); pose proof (bw_size _ Hb1); lia|lia|].
  { by rewrite Hz1, <- (ww_alignment _ _ Hw). }
  erewrite bind_Ret by exact Hloop. destruct (ok s) eqn:Es; cbn [negb].
  - destruct s; try done. rewrite Hx1 in Hdata.
    destruct (tail_refitted _ b1 adv Hb Hr1 Hc1 Hadv) as (b2 & Hrun & Hr2).
    erewrite bind_Ret by (apply (zoom_Ret buf_lens), Hrun). eexists OK, f', _. split; [reflexivity|].
    split; [|split; [done|reflexivity]].
    apply (direct_done f w f' b2 (buffered_data_crc32c_checksum_ w) adv (page_padding (buf_ w))); try done. by apply Hdata.
  - destruct (padding_dropped _ b1 adv Hb Hr1 Hc1) as (b2 & Hrun & Hr2).
    erewrite bind_Ret by (apply (zoom_Ret buf_lens), Hrun). eexists s, f', _. split; [reflexivity|].
    split; [|split; [done|reflexivity]].
    by apply (direct_failed f w f' b2 (buffered_data_crc32c_checksum_ w) s).
Qed.

Lemma recompute_crc_ok (w : FW) : buffer_wf (buf_ w) -> recompute_crc w = Ret tt (set_crc (Value (buffered (buf_ w))) w).
Proof.
  intros Hb. unfold recompute_crc. rewrite bind_gets. unfold buf.
  assert (copy_out 0 (cursize_ (buf_ w)) (buf_ w) = Ret (buffered (buf_ w)) (buf_ w)) as Hout.
  { rewrite copy_out_ok by (pose proof (bw_cursize _ Hb); pose proof (bw_memory _ Hb); lia). done. }
  erewrite bind_Ret by (apply (zoom_Ret buf_lens), Hout). by destruct w.
Qed.

Lemma Extend_range crc d : 0 <= crc < 2 ^ 32 -> 0 <= Extend crc d < 2 ^ 32.
Proof. intros Hc. rewrite Extend_spec by done. by apply crc_reference_range. Qed.

Lemma WriteDirectWithChecksum_ok f w : writer_wf f w -> fs_use_direct_io f = true ->
  exists s f' w', WriteDirectWithChecksum w = Ret s w' /\ wrote_direct f w s f' w' /\
    (buffered_data_crc32c_checksum_ w = Value (buffered (buf_ w)) -> honest f -> honest f') /\
    buffered_data_crc32c_checksum_ w' = Value (buffered (buf_ w')).
Proof.
  intros Hw Hd. pose proof (ww_buf _ _ Hw) as Hb. destruct (page_split _ Hb) as (Hadv & _ & _ & Hleft).
  destruct (pad_buffer w Hb) as (b1 & Hpad & Hr1 & Hc1 & Hz1 & Hm1 & Hout1). pose proof (ww_crc _ _ Hw) as Hcrc.
  pose proof (bw_cursize _ Hb) as Hcur. pose proof (Roundup_fits _ Hb) as Hfit. pose proof (bw_size _ Hb) as Hcap.
  pose proof (zlen_buffered _ Hb) as Hzb. pose proof Hr1 as (Hb1 & Hx1 & Ha1 & Hcap1).
  pose proof (bw_cursize _ Hb1) as Hcur1. pose proof (bw_memory _ Hb1) as Hmem1.
  unfold WriteDirectWithChecksum. rewrite !bind_gets. unfold buf. rewrite Hleft. set (adv := TruncateToPageBoundary _ _) in *.
  erewrite bind_Ret by exact Hpad. rewrite bind_gets. change (cursize_ (buf_ (set_buf b1 w))) with (cursize_ b1).
  rewrite (u64_small (cursize_ b1 - _)) by lia.
  erewrite bind_Ret by (apply (zoom_Ret buf_lens), padding_of; done). change (set buf_lens b1 (set_buf b1 w)) with (set_buf b1 w).
  rewrite bind_gets. change (buffered_data_crc32c_checksum_ (set_buf b1 w)) with (buffered_data_crc32c_checksum_ w).
  assert (zlen (page_padding (buf_ w)) = cursize_ b1 - cursize_ (buf_ w)) as Hzt
    by (unfold page_padding, padding_bytes; rewrite zlen_replicate; lia).
  set (c := Extend (buffered_data_crc32c_checksum_ w) (page_padding (buf_ w))).
  erewrite (bind_Ret (the _) _ _ c); cycle 1.
  { rewrite <- Hzt. unfold zlen. rewrite Crc32cCombine_spec by (done || unfold zlen in *; lia). reflexivity. }
  erewrite bind_Ret by reflexivity. erewrite bind_Ret by (apply (zoom_Ret buf_lens), Hout1). rewrite bind_gets.
  set (w1 := set buf_lens b1 _).
  assert (writer_wf f w1) as Hw1.
  { pose proof (wf_set_buf f w b1 _ Hw Hr1) as []. split; try done. by apply Extend_range. }
  erewrite bind_Ret by (apply (tokens_aligned f); [done|lia|by rewrite <- (ww_alignment _ _ Hw)]).
  change (next_write_offset_ (set_crc c (set_buf b1 w))) with (next_write_offset_ w).
  destruct (law_PositionedAppend f (buffered b1) (next_write_offset_ w) (Some (EncodeFixed32 true c)) (ww_file_ok _ _ Hw) (ww_offset _ _ Hw Hd) (ww_aligned _ _ Hw))
    as (s & f' & Happ & Hok & Ha & Hh & Hz & _ & Hdata); [by rewrite Hz1, <- (ww_alignment _ _ Hw)|].
  erewrite bind_Ret by (eapply on_file_Ret; [apply Hw|exact Happ]).
  assert (buffered_data_crc32c_checksum_ w = Value (buffered (buf_ w)) -> honest f -> honest f') as Hhon.
  { intros Hsum. apply Hh. right. unfold c. by rewrite Hsum, Value_app, Hx1. }
  destruct (ok s) eqn:Es; cbn [negb].
  - destruct s; try done. specialize (Hdata eq_refl).
    destruct (tail_refitted _ b1 adv Hb Hr1 Hc1 Hadv) as (b2 & Hrun & Hr2).
    erewrite bind_Ret by (apply (zoom_Ret buf_lens), Hrun).
    erewrite bind_Ret by (by apply recompute_crc_ok; destruct Hr2). eexists OK, f', _. split; [reflexivity|].
    split; [|split; [done|reflexivity]].
    apply (direct_done f w f' b2 (Value (buffered b2)) adv (page_padding (buf_ w))); try done; [|apply Value_range].
    rewrite Hdata, Hx1. apply take_overwrite. by apply (ww_offset _ _ Hw).
  - destruct (padding_dropped _ b1 adv Hb Hr1 Hc1) as (b2 & Hrun & Hr2).
    erewrite bind_Ret by (apply (zoom_Ret buf_lens), Hrun).
    erewrite bind_Ret by (by apply recompute_crc_ok; destruct Hr2). eexists s, f', _. split; [reflexivity|].
    split; [|split; [done|reflexivity]].
    apply (direct_failed f w f' b2 (Value (buffered b2)) s); try done. apply Value_range.
Qed.

(** ** Flush *)

(** All that was accepted is in the file. *)
Definition synced (f : F) (w : FW) : Prop := take (Z.to_nat (zlen (accepted f w))) (file_data f) = accepted f w.

Record flushed (f : F) (w : FW) (s : IOStatus) (f' : F) (w' : FW) : Prop := {
  fl_wf : writer_wf f' w';
  fl_attributes : attributes f' = attributes f;
  fl_setup : same_setup w w';
  fl_sums : sums w -> honest f -> sums w' /\ honest f';
  fl_accepted : ok s = true -> accepted f' w' = accepted f w;
  fl_synced : ok s = true -> fs_use_direct_io f = false \/ pending_sync_ w = true \/ synced f w -> synced f' w';
  fl_empty : ok s = true -> fs_use_direct_io f = false -> buffered (buf_ w') = [];
  fl_room : ok s = true -> fs_use_direct_io f = false \/ pending_sync_ w = true -> cursize_ (buf_ w') < alignment_ (buf_ w) }.

(** The file was touched, but not written. *)
Lemma flushed_idle f w s f1 w1 f2 n s2 : flushed f w s f1 w1 -> ok s = true -> idle f1 f2 ->
  flushed f w s2 f2 (set_last_sync_size n (put_file (Open f2) w1)).
Proof.
  intros [] Hs (Hok & Ha & Hh & Hd).
  pose proof (attributes_direct _ _ Ha) as Hdir.
  assert (accepted f2 (set_last_sync_size n (put_file (Open f2) w1)) = accepted f1 w1) as Hacc
    by (unfold accepted, written; cbn; by rewrite Hdir, Hd).
  split.
  - pose proof (wf_put_file f1 w1 f2 fl_wf0 Hok Ha) as []; [left; rewrite Hd; lia|]. by split.
  - congruence.
  - etrans; [exact fl_setup0|]. by repeat split.
  - intros H1 H2. destruct (fl_sums0 H1 H2) as [H3 H4]. auto.
  - intros _. rewrite Hacc. auto.
  - intros _ Hp. unfold synced. rewrite Hacc, Hd. by apply fl_synced0.
  - intros _ Hp. by apply fl_empty0.
  - intros _ Hp. by apply fl_room0.
Qed.

Lemma flushed_refl f w : writer_wf f w -> cursize_ (buf_ w) = 0 -> flushed f w OK f w.
Proof.
  intros Hw Hc. pose proof (power_of_two_range _ (bw_align _ (ww_buf _ _ Hw))).
  assert (buffered (buf_ w) = []) as Hb by (unfold buffered; by rewrite Hc).
  split; try done; [|lia]. intros _ _. unfold synced, accepted, written. rewrite Hb.
  rewrite app_nil_r. destruct (fs_use_direct_io f) eqn:Ed.
  - rewrite zlen_take; [done|]. by apply (ww_offset _ _ Hw).
  - rewrite take_ge; [done|]. unfold zlen. lia.
Qed.

Lemma wrote_flushed f w s f' w' : writer_wf f w -> fs_use_direct_io f = false -> wrote f w (buffered (buf_ w)) s f' w' ->
  (sums w -> honest f -> honest f') -> flushed f w s f' w'.
Proof.
  intros Hw Hd (Hw' & Ha & Hset & Hok & Hfail) Hh. pose proof (attributes_direct _ _ Ha) as Hd'. rewrite Hd in Hd'.
  assert (ok s = true -> accepted f' w' = accepted f w) as Hacc.
  { intros Hs. destruct (Hok Hs) as (Hdata & Hb & _). unfold accepted, written. by rewrite Hd', Hd, Hb, Hdata, app_nil_r. }
  split; try done.
  - intros Hsum Hhon. split; [|auto]. intros Hwc. destruct Hset as (Ho & _). rewrite (with_checksum_same _ _ Ho) in Hwc.
    destruct (ok s) eqn:Es.
    + destruct (Hok eq_refl) as (_ & -> & ->). done.
    + destruct (Hfail eq_refl) as (-> & ->). by apply Hsum.
  - intros Hs _. destruct (Hok Hs) as (_ & Hb & _). unfold synced. unfold accepted, written. rewrite Hd', Hb, app_nil_r.
    apply take_ge. unfold zlen. lia.
  - intros Hs _. by destruct (Hok Hs) as (_ & Hb & _).
  - intros Hs _. destruct (Hok Hs) as (_ & Hb & _).
    rewrite <- (zlen_buffered _ (ww_buf _ _ Hw')), Hb. pose proof (power_of_two_range _ (bw_align _ (ww_buf _ _ Hw))).
    change (zlen []) with 0. lia.
Qed.

Lemma wrote_direct_flushed f w s f' w' : fs_use_direct_io f = true -> wrote_direct f w s f' w' -> (sums w -> honest f -> sums w' /\ honest f') -> flushed f w s f' w'.
Proof.
  intros Hdir (Hw' & Ha & Hset & Hok) Hh. split; try done; [| |congruence|].
  - intros Hs. by destruct (Hok Hs) as (? & _).
  - intros Hs _. destruct (Hok Hs) as (Hacc & Ht & _). unfold synced. by rewrite Hacc.
  - intros Hs _. by destruct (Hok Hs) as (_ & _ & ?).
Qed.

Lemma use_direct_ok f w : writer_wf f w -> use_direct_io w = Ret (fs_use_direct_io f) w.
Proof. intros Hw. apply (on_file_gets _ f), Hw. Qed.

Lemma flush_buffer_ok f w : writer_wf f w -> exists s f' w', flush_buffer w = Ret s w' /\ flushed f w s f' w'.
Proof.
  intros Hw. unfold flush_buffer. erewrite bind_Ret by (by apply use_direct_ok). rewrite !bind_gets.
  destruct (fs_use_direct_io f) eqn:Ed.
  - destruct (pending_sync_ w) eqn:Ep.
    + destruct (with_checksum w) eqn:Ec.
      * destruct (WriteDirectWithChecksum_ok f w Hw Ed) as (s & f' & w' & Hrun & Hwr & Hh & Hc).
        exists s, f', w'. split; [done|]. apply wrote_direct_flushed; [done|done|]. intros Hs Hhon. split; [by intros _|]. apply Hh; auto.
      * destruct (WriteDirect_ok f w Hw Ed) as (s & f' & w' & Hrun & Hwr & Hh & Hc).
        exists s, f', w'. split; [done|]. apply wrote_direct_flushed; [done|done|]. intros Hs Hhon. split; [|auto].
        intros Hwc. destruct Hwr as (_ & _ & (Ho & _) & _). rewrite (with_checksum_same _ _ Ho) in Hwc. congruence.
    + exists OK, f, w. split; [done|]. split; try done; [|congruence|]; intros _ Hp; destruct Hp as [|Hp]; try congruence; by destruct Hp; try congruence.
  - rewrite bind_gets. unfold buf.
    assert (copy_out 0 (cursize_ (buf_ w)) (buf_ w) = Ret (buffered (buf_ w)) (buf_ w)) as Hout.
    { pose proof (ww_buf _ _ Hw) as Hb. rewrite copy_out_ok by (pose proof (bw_cursize _ Hb); pose proof (bw_memory _ Hb); lia). done. }
    erewrite bind_Ret by (apply (zoom_Ret buf_lens), Hout).
    assert (set buf_lens (buf_ w) w = w) as -> by (by destruct w).
    destruct (with_checksum w) eqn:Ec.
    + destruct (WriteBufferedWithChecksum_ok f w (buffered (buf_ w)) Hw Ed Ec) as (s & f' & w' & Hrun & Hwr & Hh).
      exists s, f', w'. split; [done|]. apply wrote_flushed; auto.
    + destruct (WriteBuffered_ok f w (buffered (buf_ w)) Hw Ed) as (s & f' & w' & Hrun & Hwr & Hh).
      exists s, f', w'. split; [done|]. apply wrote_flushed; auto.
Qed.

Lemma sync_range_ok f w : writer_wf f w -> exists s f' n, sync_range w = Ret s (set_last_sync_size n (put_file (Open f') w)) /\ idle f f'.
Proof.
  intros Hw. assert (exists s f' n, Ret OK w = Ret s (set_last_sync_size n (put_file (Open f') w)) /\ idle f f') as Hno.
  { exists OK, f, (last_sync_size_ w). rewrite put_file_same by apply Hw. split; [by destruct w|]. split; [apply Hw|done]. }
  unfold sync_range. rewrite !bind_gets. destruct (kBytesNotSyncRange <? _); [|done]. destruct (_ && _); [|done].
  unfold RangeSync. set (n := _ - _ mod _). set (k := u64 _).
  destruct (law_RangeSync f (last_sync_size_ w) k (ww_file_ok _ _ Hw)) as (s & f' & Hrun & Hi).
  erewrite bind_Ret by (eapply on_file_Ret; [apply Hw|exact Hrun]). exists s, f', n. done.
Qed.

Lemma writer_Flush_ok f w : writer_wf f w -> exists s f' w', writer_Flush w = Ret s w' /\ flushed f w s f' w'.
Proof.
  intros Hw. unfold writer_Flush. rewrite bind_gets. unfold buf.
  assert (exists s f' w', (if 0 <? cursize_ (buf_ w) then flush_buffer else mret OK) w = Ret s w' /\ flushed f w s f' w') as (s & f1 & w1 & H1 & Hf1).
  { destruct (Z.ltb_spec 0 (cursize_ (buf_ w))); [by apply flush_buffer_ok|]. exists OK, f, w. split; [done|].
    apply flushed_refl; [done|]. pose proof (bw_cursize _ (ww_buf _ _ Hw)). lia. }
  erewrite bind_Ret by exact H1. destruct (ok s) eqn:Es; cbn [negb]; [|by exists s, f1, w1].
  destruct (law_Flush f1 (ww_file_ok _ _ (fl_wf _ _ _ _ _ Hf1))) as (s2 & f2 & H2 & Hi2).
  erewrite bind_Ret by (eapply on_file_Ret; [apply (fl_wf _ _ _ _ _ Hf1)|exact H2]).
  pose proof (flushed_idle f w s f1 w1 f2 (last_sync_size_ w1) s2 Hf1 Es Hi2) as Hf2. change (set_last_sync_size _ _) with (put_file (Open f2) w1) in Hf2.
  destruct (ok s2) eqn:Es2; cbn [negb]; [|by exists s2, f2, (put_file (Open f2) w1)].
  erewrite bind_Ret by (apply use_direct_ok, (fl_wf _ _ _ _ _ Hf2)). rewrite bind_gets.
  destruct (_ && _); [|by exists s2, f2, (put_file (Open f2) w1)].
  destruct (sync_range_ok f2 _ (fl_wf _ _ _ _ _ Hf2)) as (s3 & f3 & n & H3 & Hi3). eexists s3, f3, _. split; [exact H3|].
  by apply (flushed_idle f w s2 f2 _ f3 n s3).
Qed.
End Spec.
