(* ===== verification/FileWriterOps.v ===== *)
(** The operations of the writer of files: appending, padding, synchronising and
    closing. *)
From S2P Require Import Prelude Bits Coding Crc32c Crc32cSpec IoStatus AlignedBuffer FileWriter FileWriterSpec.
From stdpp Require Import base numbers list strings.
From Stdlib Require Import ZArith Lia.
Local Open Scope Z_scope.

Section Ops.
Context {F : Type} `{FSWritableFile F} {HF : FSWritableFileSpec F} `{HA : Allocator} {HL : AllocatorLaws}.
Abbreviation FW := (WritableFileWriter F).

(** The checksums that callers pass, and those of [Pad], are right: only then
    are those that go to the file. *)
Context (P : Prop).

(** ** Putting bytes into the buffer *)

(** [d] was accepted. *)
Record appended (f : F) (w : FW) (d : bytes) (s : IOStatus) (f' : F) (w' : FW) : Prop := {
  ap_wf : writer_wf f' w';
  ap_attributes : attributes f' = attributes f;
  ap_setup : same_setup w w';
  ap_sums : P -> ok s = true -> sums w -> honest f -> sums w' /\ honest f';
  ap_accepted : ok s = true -> accepted f' w' = accepted f w ++ d }.

Lemma buffer_put f w b1 x c : writer_wf f w -> refilled (buf_ w) (buffered (buf_ w) ++ x) b1 -> 0 <= c < 2 ^ 32 ->
  (P -> with_checksum w = true -> c = Extend (buffered_data_crc32c_checksum_ w) x) ->
  appended f w x OK f (set_crc c (set_buf b1 w)).
Proof.
  intros Hw Hr Hc Hx. split.
  - pose proof (wf_set_buf f w b1 _ Hw Hr) as []. by split.
  - done.
  - destruct (same_setup_set_buf w b1 _ Hr) as (?&?&?&?&?&?&?). by repeat split.
  - intros HP _ Hs Hh. split; [|done]. intros Hwc. change (with_checksum w = true) in Hwc. cbn.
    destruct Hr as (_ & Hb & _). by rewrite (Hx HP Hwc), (Hs Hwc), Value_app, Hb.
  - intros _. unfold accepted. cbn. destruct Hr as (_ & Hb & _). by rewrite Hb, app_assoc.
Qed.

Lemma appended_trans f w x f1 w1 y s f2 w2 : appended f w x OK f1 w1 -> appended f1 w1 y s f2 w2 -> appended f w (x ++ y) s f2 w2.
Proof.
  intros [] []. split; [done|congruence|by etrans| |].
  - intros HP Hs H1 H2. destruct (ap_sums0 HP eq_refl H1 H2). auto.
  - intros Hs. by rewrite (ap_accepted1 Hs), (ap_accepted0 eq_refl), app_assoc.
Qed.

Lemma appended_failed f w x y s f' w' : appended f w x s f' w' -> ok s = false -> appended f w y s f' w'.
Proof. intros Ha Hs. split; try apply Ha; congruence. Qed.

Lemma flushed_appended f w s f' w' : flushed f w s f' w' -> appended f w [] s f' w'.
Proof.
  intros Hf. split; try apply Hf; [intros _ _; apply Hf|]. intros Hs. by rewrite app_nil_r, (fl_accepted _ _ _ _ _ Hf Hs).
Qed.

(** A flush makes room: with direct I/O only when there is something to sync. *)
Definition flushable (f : F) (w : FW) : Prop := fs_use_direct_io f = false \/ pending_sync_ w = true.

Lemma flushable_same f w f' w' : attributes f' = attributes f -> same_setup w w' -> flushable f w -> flushable f' w'.
Proof. intros Ha (_ & _ & Hp & _). unfold flushable. by rewrite (attributes_direct _ _ Ha), Hp. Qed.

Lemma capacity_pages b : buffer_wf b -> 0 < capacity_ b -> alignment_ b <= capacity_ b.
Proof.
  intros Hb Hc. pose proof (power_of_two_range _ (bw_align _ Hb)).
  apply Z.divide_pos_le, Z.mod_divide; [lia|lia|apply (bw_capacity _ Hb)].
Qed.

Lemma room_ok f w : writer_wf f w -> buf_room w = capacity_ (buf_ w) - cursize_ (buf_ w) /\ 0 <= buf_room w.
Proof.
  intros Hw. pose proof (bw_cursize _ (ww_buf _ _ Hw)). pose proof (bw_size _ (ww_buf _ _ Hw)).
  unfold buf_room. rewrite u64_small by lia. lia.
Qed.

Lemma flush_makes_room f w s f' w' : flushed f w s f' w' -> writer_wf f w -> ok s = true -> flushable f w -> 0 < buf_room w'.
Proof.
  intros Hf Hw Hs Hfl. destruct (room_ok f' w' (fl_wf _ _ _ _ _ Hf)) as [-> _].
  pose proof (fl_room _ _ _ _ _ Hf Hs Hfl). destruct (fl_setup _ _ _ _ _ Hf) as (_ & _ & _ & _ & _ & _ & Hcap).
  pose proof (capacity_pages _ (ww_buf _ _ Hw) (ww_capacity _ _ Hw)). lia.
Qed.

(** The loop of [Append] ends, for every flush makes room. *)
Lemma append_loop_ok fuel : forall f w src, writer_wf f w -> flushable f w ->
  (length src + (if decide (buf_room w = 0%Z) then 1 else 0) < fuel)%nat ->
  exists s f' w', append_loop fuel src w = Ret s w' /\ appended f w src s f' w'.
Proof.
  induction fuel as [|fuel IH]; intros f w src Hw Hfl Hf; [lia|]. cbn [append_loop].
  destruct (Z.ltb_spec 0 (zlen src)) as [Hpos|Hpos].
  2: { exists OK, f, w. split; [done|]. destruct src; [|unfold zlen in Hpos; cbn in Hpos; lia].
       split; try done. intros _. by rewrite app_nil_r. }
  destruct (room_ok f w Hw) as [Hroom Hroom0].
  destruct (buf_Append_ok (buf_ w) src (ww_buf _ _ Hw)) as (b1 & Happ & Hr). rewrite <- Hroom in Happ, Hr.
  erewrite bind_Ret by (apply (zoom_Ret buf_lens), Happ). rewrite bind_gets.
  assert (take (Z.to_nat (Z.min (zlen src) (buf_room w))) src = take (Z.to_nat (buf_room w)) src /\
    drop (Z.to_nat (Z.min (zlen src) (buf_room w))) src = drop (Z.to_nat (buf_room w)) src) as [Htk Hdk].
  { destruct (decide (zlen src <= buf_room w)) as [Hle|Hle].
    - rewrite !take_ge, !drop_ge by (unfold zlen in *; lia). done.
    - by replace (Z.min (zlen src) (buf_room w)) with (buf_room w) by lia. }
  rewrite Htk, Hdk. clear Htk Hdk. set (x := take (Z.to_nat (buf_room w)) src) in *. set (y := drop (Z.to_nat (buf_room w)) src) in *.
  set (c := if with_checksum w then Extend (buffered_data_crc32c_checksum_ w) x else buffered_data_crc32c_checksum_ w).
  set (w1 := set_crc c (set_buf b1 w)).
  assert (appended f w x OK f w1) as Hap1.
  { apply buffer_put; [done|done| |intros _ Hwc; unfold c; by rewrite Hwc].
    unfold c. destruct (with_checksum w); [apply Extend_range|]; apply Hw. }
  change (with_checksum (set buf_lens b1 w)) with (with_checksum w).
  erewrite (bind_Ret (when _ _) _ _ tt w1) by (unfold w1, c; by destruct (with_checksum w)).
  assert (src = x ++ y) as Hsrc by (symmetry; apply take_drop).
  destruct (Z.ltb_spec 0 (zlen y)) as [Hy|Hy].
  2: { exists OK, f, w1. split; [done|]. replace src with x; [done|].
       destruct y; [by rewrite app_nil_r in Hsrc|unfold zlen in Hy; cbn in Hy; lia]. }
  destruct (writer_Flush_ok f w1 (ap_wf _ _ _ _ _ _ Hap1)) as (s & f2 & w2 & Hflush & Hfl2). erewrite bind_Ret by exact Hflush.
  pose proof (appended_trans _ _ _ _ _ _ _ _ _ Hap1 (flushed_appended _ _ _ _ _ Hfl2)) as Hap2. rewrite app_nil_r in Hap2.
  assert (flushable f w1) as Hfl1 by done.
  destruct (ok s) eqn:Es; cbn [negb]; [|exists s, f2, w2; split; [done|]; by eapply appended_failed].
  destruct (IH f2 w2 y) as (s3 & f3 & w3 & Hloop & Hap3).
  { apply Hfl2. }
  { apply (flushable_same f w1); [apply Hfl2..|done]. }
  { pose proof (flush_makes_room _ _ _ _ _ Hfl2 (ap_wf _ _ _ _ _ _ Hap1) Es Hfl1) as Hr2.
    destruct (decide (buf_room w2 = 0)); [lia|]. unfold y in *. rewrite length_drop in *. unfold zlen in *. rewrite length_drop in Hy.
    destruct (decide (buf_room w = 0)); lia. }
  exists s3, f3, w3. split; [done|]. rewrite Hsrc. destruct s; try done. by apply (appended_trans f w x f2 w2).
Qed.

(** A write past an empty buffer. *)
Lemma wrote_appended f w c d s f' w' : fs_use_direct_io f = false -> buffered (buf_ w) = [] -> wrote f (set_crc c w) d s f' w' ->
  (P -> honest f -> honest f') -> appended f w d s f' w'.
Proof.
  intros Hd Hb (Hw' & Ha & Hset & Hok & _) Hh. pose proof (attributes_direct _ _ Ha) as Hd'. rewrite Hd in Hd'.
  split; [done..| |].
  - intros HP Hs _ Hhon. split; [|auto]. intros _. by destruct (Hok Hs) as (_ & -> & ->).
  - intros Hs. destruct (Hok Hs) as (Hdata & Hb' & _). unfold accepted, written. by rewrite Hd', Hd, Hb, Hb', Hdata, !app_nil_r.
Qed.

(** Buffered data that does not fit finds an empty buffer. *)
Definition room_made (f : F) (w : FW) (d : bytes) : Prop :=
  fs_use_direct_io f = false -> buf_room w < zlen d -> buffered (buf_ w) = [].

Lemma append_with_crc_ok f w d crc : writer_wf f w -> flushable f w -> with_checksum w = true -> room_made f w d ->
  0 <= crc < 2 ^ 32 -> (P -> crc = Value d) ->
  exists s f' w', append_with_crc d crc w = Ret s w' /\ appended f w d s f' w'.
Proof.
  intros Hw Hfl Hwc Hrm Hcrc Hright. unfold append_with_crc. erewrite bind_Ret by (by apply use_direct_ok). rewrite bind_gets.
  destruct (room_ok f w Hw) as [Hroom Hroom0]. pose proof (bw_size _ (ww_buf _ _ Hw)) as Hcap. pose proof (bw_cursize _ (ww_buf _ _ Hw)) as Hcur.
  destruct (Z.leb_spec (zlen d) (buf_room w)) as [Hfit|Hfit].
  - rewrite orb_true_r. destruct (buf_Append_ok (buf_ w) d (ww_buf _ _ Hw)) as (b1 & Happ & Hr). rewrite <- Hroom in Happ, Hr.
    rewrite take_ge in Hr by (unfold zlen in *; lia). rewrite Z.min_l in Happ by done.
    erewrite bind_Ret by (apply (zoom_Ret buf_lens), Happ). rewrite bind_gets.
    assert (Z.of_nat (length d) < 2 ^ 64) as Hld by (unfold zlen in *; lia).
    destruct (Crc32cCombine_total (buffered_data_crc32c_checksum_ w) crc d (ww_crc _ _ Hw) Hld) as (c & Hc & Hc32).
    erewrite (bind_Ret (the _) _ _ c) by (unfold zlen;
      change (buffered_data_crc32c_checksum_ (set buf_lens b1 w)) with (buffered_data_crc32c_checksum_ w); by rewrite Hc).
    erewrite bind_Ret by reflexivity. rewrite Z.eqb_refl. cbn [negb]. eexists OK, f, _. split; [reflexivity|].
    apply (buffer_put f w b1 d c); [done|done|done|].
    intros HP _. rewrite (Hright HP), Crc32cCombine_spec in Hc by (apply Hw || done). congruence.
  - rewrite orb_false_r. destruct (fs_use_direct_io f) eqn:Ed.
    + apply append_loop_ok; [done|done|]. destruct (decide _); lia.
    + erewrite bind_Ret by reflexivity. set (w1 := set_crc crc w).
      assert (writer_wf f w1) as Hw1 by (pose proof Hw as []; by split).
      destruct (WriteBufferedWithChecksum_ok f w1 d Hw1 Ed Hwc) as (s & f' & w' & Hrun & Hwr & Hh).
      exists s, f', w'. split; [done|]. by apply (wrote_appended f w crc); auto.
Qed.

Lemma append_plain_ok f w d : writer_wf f w -> flushable f w -> room_made f w d ->
  exists s f' w', append_plain d w = Ret s w' /\ appended f w d s f' w'.
Proof.
  intros Hw Hfl Hrm. unfold append_plain. erewrite bind_Ret by (by apply use_direct_ok). rewrite !bind_gets.
  destruct (room_ok f w Hw) as [Hroom _]. pose proof (bw_cursize _ (ww_buf _ _ Hw)) as Hcur. unfold buf.
  destruct (fs_use_direct_io f || (zlen d <=? capacity_ (buf_ w))) eqn:E.
  { apply append_loop_ok; [done|done|]. destruct (decide _); lia. }
  apply orb_false_iff in E as [Ed Hfit]. apply Z.leb_gt in Hfit. specialize (Hrm Ed ltac:(lia)).
  destruct (with_checksum w) eqn:Ec.
  - erewrite bind_Ret by reflexivity. set (w1 := set_crc (Value d) w).
    assert (writer_wf f w1) as Hw1 by (pose proof Hw as []; split; try done; apply Value_range).
    destruct (WriteBufferedWithChecksum_ok f w1 d Hw1 Ed Ec) as (s & f' & w' & Hrun & Hwr & Hh).
    exists s, f', w'. split; [done|]. by apply (wrote_appended f w (Value d)); auto.
  - destruct (WriteBuffered_ok f w d Hw Ed) as (s & f' & w' & Hrun & Hwr & Hh).
    exists s, f', w'. split; [done|]. apply (wrote_appended f w (buffered_data_crc32c_checksum_ w)); auto.
Qed.

Lemma make_room_ok f w d : writer_wf f w ->
  exists s f' w', make_room (zlen d) w = Ret s w' /\ appended f w [] s f' w' /\ (ok s = true -> room_made f' w' d).
Proof.
  intros Hw. unfold make_room. erewrite bind_Ret by (by apply use_direct_ok). rewrite !bind_gets. unfold buf.
  destruct (_ && _ && _) eqn:E.
  - apply andb_prop in E as [E _]. apply andb_prop in E as [Ed _]. apply negb_true_iff in Ed.
    destruct (writer_Flush_ok f w Hw) as (s & f' & w' & Hrun & Hf). exists s, f', w'. split; [done|].
    split; [by apply flushed_appended|]. intros Hs _ _. by apply (fl_empty _ _ _ _ _ Hf).
  - exists OK, f, w. split; [done|]. split; [split; try done; intros _; by rewrite app_nil_r|].
    intros _ Ed Hr. rewrite Ed in E. cbn [negb andb] in E. destruct (Z.ltb_spec (buf_room w) (zlen d)); [|lia]. cbn [andb] in E.
    apply Z.ltb_ge in E. pose proof (bw_cursize _ (ww_buf _ _ Hw)). unfold buffered. by replace (cursize_ (buf_ w)) with 0 by lia.
Qed.

(** ** A larger buffer *)

(** [w'] has a larger buffer with the same bytes. *)
Definition enlarged (f : F) (w w' : FW) : Prop :=
  exists b, w' = set_buf b w /\ writer_wf f w' /\ buffered b = buffered (buf_ w).

Lemma enlarge_ok fuel : forall f w cap left, writer_wf f w -> capacity_ (buf_ w) <= cap < 2 ^ 61 ->
  2 ^ 60 <= cap * 2 ^ (Z.of_nat fuel - 1) -> (0 < fuel)%nat -> exists w', enlarge fuel cap left w = Ret tt w' /\ enlarged f w w'.
Proof.
  induction fuel as [|fuel IH]; intros f w cap left Hw Hcap Hmax Hf; [lia|]. cbn [enlarge]. rewrite bind_gets. unfold opt.
  pose proof (ww_capacity _ _ Hw) as Hpos. pose proof (ww_max _ _ Hw) as Hm. pose proof (bw_cursize _ (ww_buf _ _ Hw)) as Hcur.
  destruct (Z.ltb_spec cap (max_buffer_size_ (w_options w))) as [Hlt|Hge].
  2: { exists w. split; [done|]. exists (buf_ w). split; [by destruct w|done]. }
  rewrite bind_gets. erewrite bind_Ret by (by apply use_direct_ok). rewrite (u64_small (cap * 2)) by lia.
  set (n := Z.min _ _). destruct (_ || _).
  - destruct (Allocate_copy (buf_ w) n (ww_buf _ _ Hw)) as (b & Hrun & Hb & Hx & Ha & Hc); [unfold n; lia|].
    exists (set_buf b w). split; [by apply (zoom_Ret buf_lens)|]. exists b. split; [done|]. split; [|done].
    pose proof (power_of_two_range _ (bw_align _ (ww_buf _ _ Hw))).
    destruct (Roundup_spec (alignment_ (buf_ w)) n) as (Hr & _); [lia|unfold n; lia|].
    destruct Hw. split; cbn; try done; [congruence|]. rewrite Hc. unfold n in *. lia.
  - destruct fuel as [|fuel]; [cbn in Hmax; lia|]. apply IH; [done|lia| |lia].
    replace (Z.of_nat (S (S fuel)) - 1) with (Z.succ (Z.of_nat (S fuel) - 1)) in Hmax by lia.
    rewrite Z.pow_succ_r in Hmax by lia. lia.
Qed.

(** ** The operations *)

(** What an operation that accepts [x] does; [g] is the generator after it. *)
Record performed (f : F) (w : FW) (x : bytes) (g : option FileChecksumGenCrc32c) (s : IOStatus) (f' : F) (w' : FW) : Prop := {
  pf_wf : writer_wf f' w';
  pf_attributes : attributes f' = attributes f;
  pf_options : w_options w' = w_options w;
  pf_generator : checksum_generator_ w' = g;
  pf_finalized : checksum_finalized_ w' = checksum_finalized_ w;
  pf_accepted : ok s = true -> accepted f' w' = accepted f w ++ x;
  pf_size : ok s = true -> x = [] /\ filesize_ w' = filesize_ w \/ filesize_ w' = u64 (filesize_ w + zlen x);
  pf_sums : P -> ok s = true -> sums w -> honest f -> sums w' /\ honest f';
  pf_synced : ok s = true -> (pending_sync_ w = false -> synced f w) -> pending_sync_ w' = false -> synced f' w' }.

(** From a step inside [Append] or [Pad] that leaves the setup [w1] to the whole
    operation; [size] is the size it sets when it succeeds. *)
Lemma performed_of f w x g s f1 w1 f' w' size :
  appended f1 w1 x s f' w' -> attributes f1 = attributes f -> w_options w1 = w_options w ->
  checksum_generator_ w1 = g -> checksum_finalized_ w1 = checksum_finalized_ w -> pending_sync_ w1 = true ->
  accepted f1 w1 = accepted f w -> (sums w -> honest f -> sums w1 /\ honest f1) ->
  size = (if ok s then u64 (filesize_ w + zlen x) else filesize_ w') -> performed f w x g s f' (set_filesize size w').
Proof.
  intros [] Ha1 Ho1 Hg1 Hfin1 Hp1 Hacc1 Hs1 ->. pose proof ap_setup0 as (Ho & _ & Hp & Hg & Hfin & _).
  split; cbn; try congruence.
  - by destruct ap_wf0; split.
  - intros Hs. rewrite <- Hacc1. by apply ap_accepted0.
  - intros ->. by right.
  - intros HP Hs H1 H2. destruct (Hs1 H1 H2). by apply ap_sums0.
Qed.

Lemma append_data_ok f w d crc : writer_wf f w -> pending_sync_ w = true -> 0 <= crc < 2 ^ 32 -> (P -> crc = 0 \/ crc = Value d) ->
  exists s f' w', append_data d crc w = Ret s (set_filesize (if ok s then u64 (filesize_ w + zlen d) else filesize_ w') w') /\
    appended f w d s f' w'.
Proof.
  intros Hw Hp H32 Hcrc. unfold append_data.
  destruct (make_room_ok f w d Hw) as (s & f1 & w1 & Hroom & Hap1 & Hrm). erewrite bind_Ret by exact Hroom.
  destruct (ok s) eqn:Es; cbn [negb].
  2: { exists s, f1, w1. rewrite Es. split; [by destruct w1|]. by eapply appended_failed. }
  destruct s; try done. rewrite bind_gets.
  assert (flushable f1 w1) as Hfl by (right; destruct (ap_setup _ _ _ _ _ _ Hap1) as (_ & _ & -> & _); done).
  assert (exists s f' w', (if with_checksum w1 && negb (crc =? 0) then append_with_crc d crc else append_plain d) w1 = Ret s w' /\
    appended f1 w1 d s f' w') as (s & f2 & w2 & Hrun & Hap2).
  { destruct (with_checksum w1 && negb (crc =? 0)) eqn:Ec; [|apply append_plain_ok; auto; apply Hap1].
    apply andb_prop in Ec as [Ec Hnz%negb_true_iff%Z.eqb_neq]. apply append_with_crc_ok; auto; [apply Hap1|].
    intros HP. by destruct (Hcrc HP). }
  erewrite bind_Ret by exact Hrun. pose proof (appended_trans _ _ _ _ _ _ _ _ _ Hap1 Hap2) as Hap. cbn [app] in Hap.
  exists s, f2, w2. split; [|done]. destruct (ok s); cbn [when]; [|by destruct w2].
  destruct (ap_setup _ _ _ _ _ _ Hap) as (_ & <- & _). reflexivity.
Qed.

Lemma writer_Append_ok f w d crc : writer_wf f w -> 0 <= crc < 2 ^ 32 -> (P -> crc = 0 \/ crc = Value d) ->
  exists s f' w', writer_Append d crc w = Ret s w' /\ performed f w d (gen_Update d <$> checksum_generator_ w) s f' w'.
Proof.
  intros Hw H32 Hcrc. unfold writer_Append. erewrite bind_Ret by reflexivity. unfold UpdateFileChecksum. erewrite bind_Ret by reflexivity.
  rewrite bind_gets. set (w1 := set_generator _ _ _).
  assert (writer_wf f w1) as Hw1 by (pose proof Hw as []; by split).
  destruct (law_PrepareWrite f (filesize_ w1) (zlen d) (ww_file_ok _ _ Hw)) as ([] & f2 & Hprep & Hok2 & Ha2 & Hh2 & Hd2).
  erewrite bind_Ret by (eapply on_file_Ret; [apply Hw1|exact Hprep]). set (w2 := put_file (Open f2) w1).
  assert (writer_wf f2 w2) as Hw2 by (apply (wf_put_file f); auto; left; rewrite Hd2; lia). rewrite !bind_gets.
  assert (exists w3, when (buf_room w2 <? zlen d) (enlarge 65 (capacity_ (buf_ w2)) (zlen d)) w2 = Ret tt w3 /\ enlarged f2 w2 w3)
    as (w3 & Hen & b3 & Eb3 & Hw3 & Hb3).
  { destruct (buf_room w2 <? zlen d); [|exists w2; split; [done|]; exists (buf_ w2); split; [by destruct w2|done]].
    apply enlarge_ok; [done| | |lia]; pose proof (ww_capacity _ _ Hw2); pose proof (bw_size _ (ww_buf _ _ Hw2)); [lia|].
    change (2 ^ (Z.of_nat 65 - 1)) with (2 ^ 64). lia. }
  unfold buf. erewrite bind_Ret by exact Hen.
  destruct (append_data_ok f2 w3 d crc Hw3 ltac:(by rewrite Eb3) H32 Hcrc) as (s & f4 & w4 & Hrun & Hap).
  eexists s, f4, _. split; [exact Hrun|]. apply (performed_of f w d _ s f2 w3); try done; try by rewrite Eb3.
  - rewrite Eb3. unfold accepted, written. cbn. by rewrite (attributes_direct _ _ Ha2), Hd2, Hb3.
  - intros H1 H2. split; [|auto]. rewrite Eb3. intros Hwc. cbn. rewrite Hb3. by apply H1.
Qed.

(** ** Padding *)

(** The padding fits into the buffer; or the buffer can be flushed and no
    checksum is kept of it. Else [Pad] can read beyond the buffer, hand over a wrong
    checksum (see [pad_across_flush_overreads]), or flush for ever without making
    room. *)
Definition pad_fits (f : F) (w : FW) (n : Z) : Prop :=
  n <= buf_room w \/ flushable f w /\ perform_data_verification_ (w_options w) = false.

Lemma padding_split m n : 0 <= m -> 0 <= n -> padding_bytes (m + n) 0 = padding_bytes m 0 ++ padding_bytes n 0.
Proof. intros Hm Hn. unfold padding_bytes. by rewrite Z2Nat.inj_add, replicate_add by lia. Qed.

Lemma pad_loop_fits fuel f w n : writer_wf f w -> 0 <= n <= buf_room w ->
  exists b, pad_loop (S (S fuel)) n (buf_room w) w = Ret OK (set_buf b w) /\ refilled (buf_ w) (buffered (buf_ w) ++ padding_bytes n 0) b.
Proof.
  intros Hw Hn. destruct (room_ok f w Hw) as [Hroom _]. cbn [pad_loop]. destruct (Z.ltb_spec 0 n) as [Hpos|Hpos].
  - destruct (PadWith_ok (buf_ w) (Z.min (buf_room w) n) 0 (ww_buf _ _ Hw)) as (b & Hpad & Hr); [lia..|].
    erewrite bind_Ret by (apply (zoom_Ret buf_lens), Hpad). rewrite Z.min_r in * by lia. rewrite Z.sub_diag. exists b. done.
  - replace n with 0 by lia. exists (buf_ w). split; [by destruct w|]. rewrite app_nil_r. apply refilled_same, Hw.
Qed.

Lemma pad_loop_flushes fuel : forall f w n, writer_wf f w -> 0 <= n -> flushable f w -> (P -> with_checksum w = false) ->
  n + (if decide (buf_room w = 0) then 1 else 0) < Z.of_nat fuel ->
  exists s f' w', pad_loop fuel n (buf_room w) w = Ret s w' /\ appended f w (padding_bytes n 0) s f' w'.
Proof.
  induction fuel as [|fuel IH]; intros f w n Hw Hn Hfl Hwc Hf; [destruct (decide _); lia|]. cbn [pad_loop].
  destruct (Z.ltb_spec 0 n) as [Hpos|Hpos].
  2: { replace n with 0 in * by lia. exists OK, f, w. split; [done|]. split; try done. intros _. by rewrite app_nil_r. }
  destruct (room_ok f w Hw) as [Hroom Hroom0]. set (k := Z.min (buf_room w) n).
  destruct (PadWith_ok (buf_ w) k 0 (ww_buf _ _ Hw)) as (b1 & Hpad & Hr); [lia..|].
  erewrite bind_Ret by (apply (zoom_Ret buf_lens), Hpad). change (set buf_lens b1 w) with (set_buf b1 w).
  assert (appended f w (padding_bytes k 0) OK f (set_buf b1 w)) as Hap1.
  { apply (buffer_put f w b1 _ (buffered_data_crc32c_checksum_ w)); [done|done|apply Hw|]. intros HP. rewrite (Hwc HP). congruence. }
  destruct (Z.ltb_spec 0 (n - k)) as [Hmore|Hmore].
  2: { erewrite bind_Ret by reflexivity. cbn [ok negb]. rewrite bind_gets. replace (n - k) with 0 by lia. replace n with k by lia.
       exists OK, f, (set_buf b1 w). split; [|done]. destruct fuel as [|fuel]; [destruct (decide _); lia|]. done. }
  destruct (writer_Flush_ok f _ (ap_wf _ _ _ _ _ _ Hap1)) as (s & f2 & w2 & Hflush & Hfl2). erewrite bind_Ret by exact Hflush.
  pose proof (appended_trans _ _ _ _ _ _ _ _ _ Hap1 (flushed_appended _ _ _ _ _ Hfl2)) as Hap2. rewrite app_nil_r in Hap2.
  destruct (ok s) eqn:Es; cbn [negb]; [|exists s, f2, w2; split; [done|]; by eapply appended_failed]. destruct s; try done.
  rewrite bind_gets. pose proof (flush_makes_room _ _ _ _ _ Hfl2 (ap_wf _ _ _ _ _ _ Hap1) Es Hfl) as Hr2.
  destruct (IH f2 w2 (n - k)) as (s3 & f3 & w3 & Hloop & Hap3).
  { apply Hfl2. }
  { lia. }
  { by apply (flushable_same f (set_buf b1 w)); try apply Hfl2. }
  { intros HP. destruct (ap_setup _ _ _ _ _ _ Hap2) as (Ho & _). rewrite (with_checksum_same _ _ Ho). auto. }
  { destruct (decide (buf_room w2 = 0)), (decide (buf_room w = 0)); lia. }
  exists s3, f3, w3. split; [done|]. replace n with (k + (n - k)) by lia. rewrite padding_split by lia.
  by apply (appended_trans f w _ f2 w2).
Qed.

Lemma pad_done f w x f' w' : appended f w x OK f' w' ->
  performed f w x (checksum_generator_ w) OK f' (set_filesize (u64 (filesize_ w + zlen x)) (set_pending_sync true w')).
Proof.
  intros []. pose proof ap_setup0 as (Ho & _ & _ & Hg & Hfin & _). split; try done; [|by right].
  by destruct ap_wf0; split.
Qed.

Lemma pad_failed f w x s f' w' : appended f w x s f' w' -> ok s = false -> performed f w x (checksum_generator_ w) s f' w'.
Proof. intros [] Hs. pose proof ap_setup0 as (Ho & _ & _ & Hg & Hfin & _). split; try done; congruence. Qed.

(** What follows the loop: the checksum is extended by what is in the buffer from
    [pad_start] on. *)
Definition pad_end (pad_start pad_bytes : Z) : prog FW IOStatus :=
  modify (set_pending_sync true);;
  modify (fun w => set_filesize (u64 (filesize_ w + pad_bytes)) w);;
  p ← gets (opt perform_data_verification_);
  when p (data ← on_buf (copy_out pad_start pad_bytes);
          modify (fun w => set_crc (Extend (buffered_data_crc32c_checksum_ w) data) w));;
  mret OK.

Lemma writer_Pad_eq n w :
  writer_Pad n w = (s ← pad_loop (S (S (Z.to_nat n))) n (buf_room w);
                    if negb (ok s) then mret s else pad_end (cursize_ (buf_ w)) n) w.
Proof. unfold writer_Pad. by rewrite !bind_gets. Qed.

Lemma set_crc_appended f w x f' w' c : appended f w x OK f' w' -> 0 <= c < 2 ^ 32 -> (P -> with_checksum w = false) ->
  appended f w x OK f' (set_crc c w').
Proof.
  intros [Hw Ha Hset Hs Hacc] Hc Hwc. split; try done.
  - by destruct Hw; split.
  - intros HP _ _ Hh. destruct Hset as (Ho & _). split.
    + intros Hx. change (with_checksum w' = true) in Hx. rewrite (with_checksum_same _ _ Ho), (Hwc HP) in Hx. done.
    + apply Hs; [done|done| |done]. intros Hx. by rewrite (Hwc HP) in Hx.
Qed.

(** [Pad] of bytes that fit. *)
Lemma writer_Pad_fits f w n : writer_wf f w -> 0 <= n <= buf_room w ->
  exists f' w', writer_Pad n w = Ret OK w' /\ performed f w (padding_bytes n 0) (checksum_generator_ w) OK f' w'.
Proof.
  intros Hw Hn. rewrite writer_Pad_eq. assert (zlen (padding_bytes n 0) = n) as Hz by (apply zlen_replicate; lia).
  destruct (pad_loop_fits (Z.to_nat n) f w n Hw Hn) as (b & Hloop & Hr). erewrite bind_Ret by exact Hloop. cbn [ok negb].
  unfold pad_end. erewrite bind_Ret by reflexivity. erewrite bind_Ret by reflexivity. rewrite bind_gets. unfold opt.
  set (c := if perform_data_verification_ (w_options w) then Extend (buffered_data_crc32c_checksum_ w) (padding_bytes n 0)
            else buffered_data_crc32c_checksum_ w).
  exists f, (set_filesize (u64 (filesize_ w + n)) (set_pending_sync true (set_crc c (set_buf b w)))). split.
  - cbn [w_options set_filesize set_pending_sync set_buf]. unfold c.
    destruct (perform_data_verification_ (w_options w)); cbn [when]; [|done].
    assert (copy_out (cursize_ (buf_ w)) n b = Ret (padding_bytes n 0) b) as Hout.
    { pose proof (bw_cursize _ (ww_buf _ _ Hw)). pose proof (zlen_buffered _ (ww_buf _ _ Hw)) as Hzb. destruct Hr as (Hb & Hx & _).
      pose proof (zlen_buffered _ Hb) as Hzc. rewrite Hx, zlen_app, Hz, Hzb in Hzc. pose proof (bw_cursize _ Hb). pose proof (bw_memory _ Hb).
      rewrite copy_out_ok by lia. f_equal. transitivity (drop (Z.to_nat (cursize_ (buf_ w))) (buffered b)).
      - unfold sub, buffered. rewrite take_drop_commute. f_equal. f_equal. lia.
      - rewrite Hx, drop_app_length'; [done|]. unfold zlen in Hzb. lia. }
    erewrite bind_Ret; [reflexivity|]. by erewrite bind_Ret by (apply (zoom_Ret buf_lens), Hout).
  - rewrite <- Hz at 2. apply pad_done, buffer_put; [done|done| |].
    + unfold c. destruct (perform_data_verification_ _); [apply Extend_range|]; apply Hw.
    + intros _ Hwc. apply andb_prop in Hwc as [Hp _]. unfold c. by rewrite Hp.
Qed.

(** [Pad] that flushes on its way: it returns, or it reads beyond the buffer for a
    checksum. *)
Lemma writer_Pad_flushes f w n : writer_wf f w -> 0 <= n < 2 ^ 61 -> flushable f w ->
  (P -> perform_data_verification_ (w_options w) = false) ->
  (exists s f' w', writer_Pad n w = Ret s w' /\ performed f w (padding_bytes n 0) (checksum_generator_ w) s f' w') \/
  (perform_data_verification_ (w_options w) = true /\ writer_Pad n w = UB).
Proof.
  intros Hw Hn Hfl HP. rewrite writer_Pad_eq. assert (zlen (padding_bytes n 0) = n) as Hz by (apply zlen_replicate; lia).
  assert (P -> with_checksum w = false) as Hwc by (intros H'; unfold with_checksum; by rewrite HP).
  destruct (pad_loop_flushes (S (S (Z.to_nat n))) f w n Hw ltac:(lia) Hfl Hwc) as (s & f' & w' & Hloop & Hap).
  { destruct (decide _); lia. }
  erewrite bind_Ret by exact Hloop. destruct (ok s) eqn:Es; cbn [negb]; [|left; exists s, f', w'; split; [done|]; by apply pad_failed].
  destruct s; try done. unfold pad_end. erewrite bind_Ret by reflexivity. erewrite bind_Ret by reflexivity. rewrite bind_gets.
  destruct (ap_setup _ _ _ _ _ _ Hap) as (Ho & Hsz & _). unfold opt. cbn [w_options set_filesize set_pending_sync filesize_]. rewrite Ho, Hsz.
  destruct (perform_data_verification_ (w_options w)) eqn:Ep; cbn [when].
  2: { left. eexists OK, f', _. split; [reflexivity|]. rewrite <- Hz at 2. by apply pad_done. }
  destruct (copy_out_cases (cursize_ (buf_ w)) n (buf_ w')) as [[data Hout]|Hout].
  - left. set (c := Extend (buffered_data_crc32c_checksum_ w') data).
    exists OK, f', (set_filesize (u64 (filesize_ w + n)) (set_pending_sync true (set_crc c w'))). split.
    + erewrite bind_Ret; [reflexivity|]. by erewrite bind_Ret by (apply (zoom_Ret buf_lens), Hout).
    + rewrite <- Hz at 2. apply pad_done, set_crc_appended; [done| |done]. apply Extend_range, Hap.
  - right. split; [done|]. apply bind_UB, bind_UB. unfold on_buf, zoom. cbn. by rewrite Hout.
Qed.

Lemma writer_Pad_ok f w n : writer_wf f w -> 0 <= n < 2 ^ 61 -> pad_fits f w n ->
  exists s f' w', writer_Pad n w = Ret s w' /\ performed f w (padding_bytes n 0) (checksum_generator_ w) s f' w'.
Proof.
  intros Hw Hn Hfit. destruct (decide (n <= buf_room w)) as [Hle|Hle].
  - destruct (writer_Pad_fits f w n Hw ltac:(lia)) as (f' & w' & Hrun & Hp). by exists OK, f', w'.
  - destruct Hfit as [|[Hfl Hp]]; [lia|]. destruct (writer_Pad_flushes f w n Hw Hn Hfl ltac:(done)) as [|[]]; [done|congruence].
Qed.

(** With nothing to flush a loop without room does not end. *)
Lemma flush_nothing f w : writer_wf f w -> ~ flushable f w ->
  exists s f', writer_Flush w = Ret s (put_file (Open f') w) /\ idle f f'.
Proof.
  intros Hw Hn. unfold flushable in Hn. destruct (fs_use_direct_io f) eqn:Ed; [|by destruct Hn; left].
  destruct (pending_sync_ w) eqn:Ep; [by destruct Hn; right|].
  unfold writer_Flush. rewrite bind_gets. erewrite (bind_Ret _ _ w OK w); cycle 1.
  { destruct (0 <? _); [|done]. unfold flush_buffer. erewrite bind_Ret by (by apply use_direct_ok).
    rewrite !bind_gets, Ed, Ep. done. }
  cbn [ok negb]. destruct (law_Flush f (ww_file_ok _ _ Hw)) as (s & f' & Hrun & Hi).
  erewrite bind_Ret by (eapply on_file_Ret; [apply Hw|exact Hrun]). exists s, f'. split; [|done].
  destruct (ok s) eqn:Es; cbn [negb]; [|done].
  erewrite bind_Ret by (apply use_direct_ok, (wf_put_file f); auto; try apply Hi; left; destruct Hi as (_ & _ & _ & ->); lia).
  destruct Hi as (_ & Ha & _). by rewrite bind_gets, (attributes_direct _ _ Ha), Ed.
Qed.

Lemma idle_wf f f1 w : writer_wf f w -> idle f f1 -> ~ flushable f w ->
  writer_wf f1 (put_file (Open f1) w) /\ ~ flushable f1 (put_file (Open f1) w).
Proof.
  intros Hw (Hok & Ha & _ & Hd) Hn. split; [apply (wf_put_file f); auto; left; rewrite Hd; lia|].
  unfold flushable in *. by rewrite (attributes_direct _ _ Ha).
Qed.

Lemma pad_loop_stuck fuel : forall f w n w', writer_wf f w -> ~ flushable f w -> 0 < n -> buf_room w = 0 ->
  pad_loop fuel n 0 w <> Ret OK w'.
Proof.
  induction fuel as [|fuel IH]; intros f w n w' Hw Hn Hpos Hroom; [done|]. cbn [pad_loop].
  rewrite (proj2 (Z.ltb_lt 0 n)) by done. rewrite Z.min_l by lia.
  destruct (PadWith_ok (buf_ w) 0 0 (ww_buf _ _ Hw)) as (b & Hpad & Hr);
    [destruct (room_ok f w Hw); lia..|]. erewrite bind_Ret by (apply (zoom_Ret buf_lens), Hpad).
  rewrite Z.sub_0_r, (proj2 (Z.ltb_lt 0 n)) by done. rewrite app_nil_r in Hr.
  change (set buf_lens b w) with (set_buf b w). pose proof (wf_set_buf f w b _ Hw Hr) as Hw1.
  destruct (flush_nothing f (set_buf b w) Hw1 Hn) as (s & f1 & Hflush & Hi). erewrite bind_Ret by exact Hflush.
  destruct s; cbn [ok negb]; try done. rewrite bind_gets.
  destruct (idle_wf f f1 _ Hw1 Hi Hn) as [Hw2 Hn2].
  assert (buf_room (put_file (Open f1) (set_buf b w)) = 0) as Hroom2.
  { destruct (room_ok f1 _ Hw2) as [-> _]. destruct (room_ok f w Hw) as [Hrw _]. cbn.
    pose proof (zlen_buffered _ (ww_buf _ _ Hw)) as Hz1. pose proof (zlen_buffered _ (ww_buf _ _ Hw1)) as Hz2.
    cbn in Hz2. destruct Hr as (_ & Hb & _ & Hcap). rewrite Hb in Hz2. lia. }
  rewrite Hroom2. by apply (IH f1).
Qed.

Lemma pad_loop_no_room fuel f w n w' : writer_wf f w -> ~ flushable f w -> buf_room w < n ->
  pad_loop (S fuel) n (buf_room w) w <> Ret OK w'.
Proof.
  intros Hw Hfl Hn. cbn [pad_loop]. destruct (room_ok f w Hw) as [Hroom Hroom0].
  rewrite (proj2 (Z.ltb_lt 0 n)), Z.min_l by lia.
  destruct (PadWith_ok (buf_ w) (buf_room w) 0 (ww_buf _ _ Hw)) as (b & Hpad & Hr); [lia..|].
  erewrite bind_Ret by (apply (zoom_Ret buf_lens), Hpad). rewrite (proj2 (Z.ltb_lt 0 _)) by lia.
  change (set buf_lens b w) with (set_buf b w). pose proof (wf_set_buf f w b _ Hw Hr) as Hw1.
  destruct (flush_nothing f (set_buf b w) Hw1 Hfl) as (s & f1 & Hflush & Hi). erewrite bind_Ret by exact Hflush.
  destruct s; cbn [ok negb]; try done. rewrite bind_gets. destruct (idle_wf f f1 _ Hw1 Hi Hfl) as [Hw2 Hfl2].
  assert (buf_room (put_file (Open f1) (set_buf b w)) = 0) as Hroom2; [|rewrite Hroom2; apply (pad_loop_stuck _ f1); (done || lia)].
  destruct (room_ok f1 _ Hw2) as [-> _]. cbn. pose proof (zlen_buffered _ (ww_buf _ _ Hw)) as Hz1.
  pose proof (zlen_buffered _ (ww_buf _ _ Hw1)) as Hz2. cbn in Hz2. destruct Hr as (_ & Hb & _ & Hcap).
  unfold padding_bytes in Hb. rewrite Hb, zlen_app, zlen_replicate in Hz2 by lia. lia.
Qed.

(** Every [Pad] that returns OK was performed. *)
Lemma writer_Pad_run f w n w' : writer_wf f w -> 0 <= n < 2 ^ 61 ->
  (P -> n <= buf_room w \/ perform_data_verification_ (w_options w) = false) -> writer_Pad n w = Ret OK w' ->
  exists f', performed f w (padding_bytes n 0) (checksum_generator_ w) OK f' w'.
Proof.
  intros Hw Hn HP Hrun. destruct (decide (n <= buf_room w)) as [Hle|Hle].
  { destruct (writer_Pad_fits f w n Hw ltac:(lia)) as (f' & w1 & Hrun1 & Hp). exists f'. rewrite Hrun in Hrun1. by injection Hrun1 as ->. }
  assert (Decision (flushable f w)) as Hdec by (unfold flushable; apply _).
  destruct (decide (flushable f w)) as [Hfl|Hfl].
  { destruct (writer_Pad_flushes f w n Hw Hn Hfl) as [(s & f' & w1 & Hrun1 & Hp)|[_ Hub]]; [|..|congruence].
    - intros HP'. destruct (HP HP'); [lia|done].
    - exists f'. rewrite Hrun in Hrun1. by injection Hrun1 as <- ->. }
  rewrite writer_Pad_eq in Hrun. exfalso. destruct (pad_loop (S (S (Z.to_nat n))) n (buf_room w) w) as [s w1| | |] eqn:Hloop.
  2-4: unfold mbind, prog_bind in Hrun; by rewrite Hloop in Hrun.
  erewrite bind_Ret in Hrun by exact Hloop. destruct (ok s) eqn:Es; cbn [negb] in Hrun; [|by injection Hrun as ->].
  destruct s; try done. exact (pad_loop_no_room _ f w n w1 Hw Hfl ltac:(lia) Hloop).
Qed.

(** ** Flush, sync *)

Lemma flushed_performed f w s f' w' p : flushed f w s f' w' ->
  performed f w [] (checksum_generator_ w) s f' (set_pending_sync p w').
Proof.
  intros Hf. pose proof (flushed_appended _ _ _ _ _ Hf) as []. pose proof ap_setup0 as (Ho & Hsz & Hp & Hg & Hfin & _).
  split; try done.
  - by destruct ap_wf0; split.
  - by left.
  - intros Hs Hsy _. apply (fl_synced _ _ _ _ _ Hf Hs). destruct (pending_sync_ w); auto.
Qed.

Lemma set_pending_same (w : FW) : set_pending_sync (pending_sync_ w) w = w.
Proof. by destruct w. Qed.

Lemma writer_Flush_performed f w : writer_wf f w ->
  exists s f' w', writer_Flush w = Ret s w' /\ performed f w [] (checksum_generator_ w) s f' w'.
Proof.
  intros Hw. destruct (writer_Flush_ok f w Hw) as (s & f' & w' & Hrun & Hf). exists s, f', w'. split; [done|].
  rewrite <- (set_pending_same w'). by apply flushed_performed.
Qed.

(** A call of the file that does not write. *)
Lemma idle_performed f w s f' : writer_wf f w -> idle f f' ->
  performed f w [] (checksum_generator_ w) s f' (put_file (Open f') w).
Proof.
  intros Hw (Hok & Ha & Hh & Hd).
  assert (accepted f' (put_file (Open f') w) = accepted f w) as Hacc
    by (unfold accepted, written; cbn; by rewrite (attributes_direct _ _ Ha), Hd).
  split; try done.
  - apply (wf_put_file f); auto. left. rewrite Hd. lia.
  - intros _. by rewrite Hacc, app_nil_r.
  - by left.
  - auto.
  - intros _ Hsy Hp. unfold synced. rewrite Hacc, Hd. by apply Hsy.
Qed.

Lemma SyncInternal_ok f w b : writer_wf f w -> exists s f', SyncInternal b w = Ret s (put_file (Open f') w) /\ idle f f'.
Proof.
  intros Hw. unfold SyncInternal.
  destruct b; [destruct (law_Fsync f (ww_file_ok _ _ Hw)) as (s & f' & Hrun & Hi)|destruct (law_Sync f (ww_file_ok _ _ Hw)) as (s & f' & Hrun & Hi)];
    exists s, f'; (split; [|done]); eapply on_file_Ret; [apply Hw|done|apply Hw|done].
Qed.

Lemma SyncWithoutFlush_ok f w b : writer_wf f w ->
  exists s f' w', SyncWithoutFlush b w = Ret s w' /\ performed f w [] (checksum_generator_ w) s f' w'.
Proof.
  intros Hw. unfold SyncWithoutFlush. erewrite bind_Ret by (apply (on_file_gets _ f), Hw). destruct (fs_IsSyncThreadSafe f); cbn [negb].
  - destruct (SyncInternal_ok f w b Hw) as (s & f' & Hrun & Hi). eexists s, f', _. split; [exact Hrun|]. by apply idle_performed.
  - exists (NotSupported "Can't WritableFileWriter::SyncWithoutFlush() because WritableFile::IsSyncThreadSafe() is false"), f, w.
    split; [done|]. by split.
Qed.

Lemma writer_InvalidateCache_ok f w o n : writer_wf f w ->
  exists s f' w', writer_InvalidateCache o n w = Ret s w' /\ performed f w [] (checksum_generator_ w) s f' w'.
Proof.
  intros Hw. destruct (law_InvalidateCache f o n (ww_file_ok _ _ Hw)) as (s & f' & Hrun & Hi).
  eexists s, f', _. split; [eapply on_file_Ret; [apply Hw|exact Hrun]|]. by apply idle_performed.
Qed.

Lemma writer_Sync_ok f w b : writer_wf f w ->
  exists s f' w', writer_Sync b w = Ret s w' /\ performed f w [] (checksum_generator_ w) s f' w'.
Proof.
  intros Hw. unfold writer_Sync. destruct (writer_Flush_ok f w Hw) as (s & f1 & w1 & Hflush & Hf). pose proof (fl_wf _ _ _ _ _ Hf) as Hw1.
  erewrite bind_Ret by exact Hflush. destruct (ok s) eqn:Es; cbn [negb].
  2: { exists s, f1, w1. split; [done|]. rewrite <- (set_pending_same w1). by apply flushed_performed. }
  erewrite bind_Ret by (by apply use_direct_ok). rewrite bind_gets.
  assert (exists s2 f2, (if negb (fs_use_direct_io f1) && pending_sync_ w1 then SyncInternal b else mret OK) w1 = Ret s2 (put_file (Open f2) w1) /\ idle f1 f2)
    as (s2 & f2 & Hrun & Hi).
  { destruct (_ && _); [by apply SyncInternal_ok|]. exists OK, f1. rewrite put_file_same by apply Hw1. split; [done|]. split; [apply Hw1|done]. }
  erewrite bind_Ret by exact Hrun.
  pose proof (fun s' => flushed_idle f w s f1 w1 f2 (last_sync_size_ w1) s' Hf Es Hi) as Hf2.
  destruct (ok s2) eqn:Es2; cbn [negb].
  - eexists OK, f2, _. split; [reflexivity|]. apply (flushed_performed f w OK f2 _ false), Hf2.
  - exists s2, f2, (put_file (Open f2) w1). split; [done|].
    exact (flushed_performed f w s2 f2 _ (pending_sync_ w1) (Hf2 s2)).
Qed.

(** ** Successful operations *)

(** Nothing has failed: [x] was accepted, [fed] of it by [Append]. *)
Record clean (x fed : bytes) (f : F) (w : FW) : Prop := {
  cl_wf : writer_wf f w;
  cl_accepted : accepted f w = x;
  cl_size : filesize_ w = zlen x;
  cl_sums : P -> sums w;
  cl_honest : P -> honest f;
  cl_synced : pending_sync_ w = false -> synced f w;
  cl_finalized : checksum_finalized_ w = false;
  cl_generator : forall g, checksum_generator_ w = Some g -> gen_checksum g = Value fed /\ gen_checksum_str g = [] }.

Lemma zlen_accepted f w : writer_wf f w -> zlen (accepted f w) < 2 ^ 63.
Proof.
  intros Hw. unfold accepted, written. rewrite zlen_app, (zlen_buffered _ (ww_buf _ _ Hw)).
  pose proof (law_size f (ww_file_ok _ _ Hw)). pose proof (bw_cursize _ (ww_buf _ _ Hw)). pose proof (bw_size _ (ww_buf _ _ Hw)).
  destruct (fs_use_direct_io f) eqn:Ed; [|lia]. rewrite zlen_take by (by apply (ww_offset _ _ Hw)).
  pose proof (ww_offset _ _ Hw Ed). lia.
Qed.

Lemma performed_clean x fed f w d e s f' w' : clean x fed f w ->
  performed f w d (match e with Some y => gen_Update y <$> checksum_generator_ w | None => checksum_generator_ w end) s f' w' ->
  ok s = true -> clean (x ++ d) (fed ++ default [] e) f' w'.
Proof.
  intros [] [] Hs.
  assert (accepted f' w' = x ++ d) as Hacc by (rewrite (pf_accepted0 Hs), cl_accepted0; done).
  assert (P -> sums w' /\ honest f') as Hsum by auto.
  split; try done; [|by intros HP; apply Hsum..| |congruence|].
  - pose proof (zlen_accepted f' w' pf_wf0) as Hb. rewrite Hacc in Hb. pose proof (zlen_nonneg (x ++ d)).
    destruct (pf_size0 Hs) as [[-> Hsz]|Hsz]; [by rewrite app_nil_r, Hsz|]. rewrite Hsz, cl_size0, <- zlen_app. apply u64_small. lia.
  - by apply pf_synced0.
  - intros g Hg. rewrite pf_generator0 in Hg. destruct e as [y|]; cbn; [|rewrite app_nil_r; auto].
    destruct (checksum_generator_ w) as [g0|]; [|done]. injection Hg as <-. destruct (cl_generator0 g0 eq_refl) as [Hc Hstr].
    split; [|done]. cbn. by rewrite Hc, Value_app.
Qed.

(** ** Close *)

Lemma first_error_ok s i : ok (first_error s i) = true -> ok s = true /\ ok i = true.
Proof. unfold first_error. by destruct s, i. Qed.

(** Cutting the file to its size. *)
Lemma close_direct_ok f w s : writer_wf f w ->
  exists s' f', close_direct s w = Ret s' (put_file (Open f') w) /\ file_ok f' /\
    (ok s' = true -> ok s = true /\ (honest f -> honest f') /\
      (0 <= filesize_ w <= zlen (file_data f) -> file_data f' = take (Z.to_nat (filesize_ w)) (file_data f))).
Proof.
  intros Hw. unfold close_direct. rewrite bind_gets.
  destruct (law_Truncate f (filesize_ w) (ww_file_ok _ _ Hw)) as (i1 & f1 & Htr & Hok1 & Ha1 & Hh1 & Hd1).
  erewrite bind_Ret by (eapply on_file_Ret; [apply Hw|exact Htr]).
  destruct (ok i1) eqn:E1.
  - destruct (law_Fsync f1 Hok1) as (i2 & f2 & Hsync & Hok2 & Ha2 & Hh2 & Hd2).
    erewrite bind_Ret by (eapply on_file_Ret; [reflexivity|exact Hsync]).
    eexists _, f2. split; [reflexivity|]. split; [done|]. intros [Hs _]%first_error_ok. split; [done|]. split; [auto|].
    intros Hsz. rewrite Hd2. by apply Hd1.
  - erewrite bind_Ret by reflexivity. eexists _, f1. split; [reflexivity|]. split; [done|]. intros [_ Hi]%first_error_ok. congruence.
Qed.

(** The last calls of [Close]: the file is closed, the checksum completed. *)
Lemma close_end f w s : writable_file_ w = Open f -> file_ok f -> exists s' f' w',
  (interim ← on_file fs_Close;
   let s := first_error s interim in modify reset_file;; finalize_checksum s;; mret s) w = Ret s' w' /\
  writable_file_ w' = Closed f' /\ (honest f -> honest f') /\ file_data f' = file_data f /\
  (ok s' = true -> ok s = true /\ forall g, checksum_generator_ w = Some g -> checksum_finalized_ w = false ->
     GetFileChecksum w' = gen_checksum_str (gen_Finalize g)).
Proof.
  intros Hf Hok. destruct (law_Close f Hok) as (i & f' & Hcl & Hok' & Ha' & Hh' & Hd').
  erewrite bind_Ret by (eapply on_file_Ret; [exact Hf|exact Hcl]). cbv zeta. erewrite bind_Ret by reflexivity.
  set (w1 := reset_file _). set (s' := first_error s i).
  set (w2 := match checksum_generator_ w with
             | Some g => if ok s' && negb (checksum_finalized_ w) then set_generator (Some (gen_Finalize g)) true w1 else w1
             | None => w1 end).
  assert (finalize_checksum s' w1 = Ret tt w2) as Hfin.
  { unfold finalize_checksum. rewrite !bind_gets. unfold w2, w1. cbn. destruct (checksum_generator_ w); [|done]. by destruct (_ && _). }
  exists s', f', w2. erewrite bind_Ret by exact Hfin. split; [done|]. split.
  { unfold w2. destruct (checksum_generator_ w); [|done]. by destruct (_ && _). }
  split; [done|]. split; [done|]. intros Hs. pose proof (first_error_ok _ _ Hs) as [Hs0 _]. split; [done|].
  intros g Hg Hfg. unfold w2, GetFileChecksum. by rewrite Hg, Hs, Hfg.
Qed.

(** After a successful flush the file has all that was accepted. *)
Lemma clean_flushed x fed f w s f1 w1 : clean x fed f w -> flushed f w s f1 w1 -> ok s = true ->
  synced f1 w1 /\ accepted f1 w1 = x /\ (P -> honest f1) /\ filesize_ w1 = zlen x /\
  (fs_use_direct_io f1 = false -> file_data f1 = x).
Proof.
  intros [] Hf Hs. pose proof (fl_accepted _ _ _ _ _ Hf Hs) as Hacc. rewrite cl_accepted0 in Hacc.
  assert (P -> honest f1) as Hh by (intros HP; by apply (fl_sums _ _ _ _ _ Hf); auto). split.
  { apply (fl_synced _ _ _ _ _ Hf Hs). destruct (pending_sync_ w); auto. }
  split; [done|]. split; [done|]. destruct (fl_setup _ _ _ _ _ Hf) as (_ & -> & _). split; [done|].
  intros Hd. rewrite <- Hacc. unfold accepted, written. rewrite Hd, (fl_empty _ _ _ _ _ Hf Hs).
  - by rewrite app_nil_r.
  - by rewrite <- (attributes_direct _ _ (fl_attributes _ _ _ _ _ Hf)).
Qed.

Lemma writer_Close_ok f w : writer_wf f w -> exists s f' w', writer_Close w = Ret s w' /\ writable_file_ w' = Closed f' /\
  forall x fed, clean x fed f w -> ok s = true -> file_data f' = x /\ (P -> honest f') /\
    forall g, checksum_generator_ w = Some g -> GetFileChecksum w' = EncodeFixed32 true (EndianSwapValue (Value fed)).
Proof.
  intros Hw. unfold writer_Close. rewrite bind_gets, (ww_file _ _ Hw).
  destruct (writer_Flush_ok f w Hw) as (s & f1 & w1 & Hflush & Hf). erewrite bind_Ret by exact Hflush.
  pose proof (fl_wf _ _ _ _ _ Hf) as Hw1. erewrite bind_Ret by (by apply use_direct_ok).
  assert (exists s2 f2, (if fs_use_direct_io f1 then close_direct s else mret s) w1 = Ret s2 (put_file (Open f2) w1) /\ file_ok f2 /\
    (ok s2 = true -> ok s = true /\ forall x fed, clean x fed f w -> (P -> honest f2) /\ file_data f2 = x)) as (s2 & f2 & Hdir & Hok2 & Hc2).
  { destruct (fs_use_direct_io f1) eqn:Ed.
    - destruct (close_direct_ok f1 w1 s Hw1) as (s2 & f2 & Hrun & Hok2 & Hres). exists s2, f2. split; [done|]. split; [done|].
      intros Hs2. destruct (Hres Hs2) as (Hs & Hh & Hd). split; [done|]. intros x fed Hcl.
      destruct (clean_flushed x fed f w s f1 w1 Hcl Hf Hs) as (Hsy & Hacc & Hh1 & Hsz & _). split; [auto|].
      unfold synced in Hsy. rewrite Hacc in Hsy. rewrite Hsz in Hd. rewrite Hd; [done|]. split; [apply zlen_nonneg|].
      pose proof (f_equal length Hsy) as Hl. rewrite length_take in Hl. unfold zlen in *. lia.
    - exists s, f1. rewrite put_file_same by apply Hw1. split; [done|]. split; [apply Hw1|]. intros Hs. split; [done|]. intros x fed Hcl.
      destruct (clean_flushed x fed f w s f1 w1 Hcl Hf Hs) as (_ & _ & Hh1 & _ & Hd). auto. }
  erewrite bind_Ret by exact Hdir.
  destruct (close_end f2 (put_file (Open f2) w1) s2 eq_refl Hok2) as (s3 & f3 & w3 & Hrun & Hcl3 & Hh3 & Hd3 & Hs3).
  exists s3, f3, w3. split; [exact Hrun|]. split; [done|]. intros x fed Hcl Hs. destruct (Hs3 Hs) as [Hs2 Hgen].
  destruct (Hc2 Hs2) as [_ Hx]. destruct (Hx x fed Hcl) as [Hh2 Hd2]. split; [congruence|]. split; [auto|].
  intros g Hg. destruct (fl_setup _ _ _ _ _ Hf) as (_ & _ & _ & Hg1 & Hfin1 & _).
  rewrite (Hgen g); cbn; [|congruence|rewrite Hfin1; apply Hcl]. destruct (cl_generator _ _ _ _ Hcl g Hg) as [-> ->]. done.
Qed.
End Ops.
