(* ===== verification/FileWriterThms.v ===== *)
(** What the writer of files promises: every operation returns and keeps the
    invariant whatever the file answers; when nothing fails the file ends up with
    exactly the bytes that were handed in, and with the right checksums; and two
    cases in which it does not work. *)
From S2P Require Import Prelude Bits Coding Crc32c Crc32cSpec IoStatus AlignedBuffer FileWriter FileWriterSpec FileWriterOps.
From stdpp Require Import base numbers list strings.
From Stdlib Require Import ZArith Lia.
Local Open Scope Z_scope.

(** ** Operations as data *)

Inductive file_op :=
| OpAppend (data : bytes) (crc32c_checksum : Z)
| OpPad (pad_bytes : Z)
| OpFlush
| OpSync (use_fsync : bool)
| OpSyncWithoutFlush (use_fsync : bool)
| OpInvalidateCache (offset length : Z).

(** The specification: a file is the list of its bytes, and an operation adds
    some at its end. *)
Definition adds (op : file_op) : bytes :=
  match op with OpAppend d _ => d | OpPad n => padding_bytes n 0 | _ => [] end.

(** The bytes that count for the checksum of the file. *)
Definition feeds (op : file_op) : option bytes :=
  match op with OpAppend d _ => Some d | _ => None end.

Section Theorems.
Context {F : Type} `{FSWritableFile F} {HF : FSWritableFileSpec F} `{HA : Allocator} {HL : AllocatorLaws}.
Abbreviation FW := (WritableFileWriter F).

Definition exec (op : file_op) : prog FW IOStatus :=
  match op with
  | OpAppend d c => writer_Append d c
  | OpPad n => writer_Pad n
  | OpFlush => writer_Flush
  | OpSync b => writer_Sync b
  | OpSyncWithoutFlush b => SyncWithoutFlush b
  | OpInvalidateCache o n => writer_InvalidateCache o n
  end.

(** The arguments callers may pass: a 32-bit checksum, and padding of less than a
    page, which [Pad] asserts. *)
Definition valid (op : file_op) : Prop :=
  match op with
  | OpAppend _ c => 0 <= c < 2 ^ 32
  | OpPad n => 0 <= n < 4096
  | _ => True
  end.

(** The operation keeps the checksum of the buffer right: the caller's checksum is
    that of the data, or 0 for none; the padding fits into the buffer, or no
    checksums are kept. *)
Definition sound_sums (f : F) (w : FW) (op : file_op) : Prop :=
  match op with
  | OpAppend d c => c = 0 \/ c = Value d
  | OpPad n => n <= buf_room w \/ perform_data_verification_ (w_options w) = false
  | _ => True
  end.

(** [Pad] returns: the padding fits into the buffer, or the buffer can be flushed
    and no checksums are kept. *)
Definition returns (f : F) (w : FW) (op : file_op) : Prop :=
  match op with OpPad n => pad_fits f w n | _ => True end.

(** The generator of the checksum of the file after [op]. *)
Definition fed (w : FW) (op : file_op) : option FileChecksumGenCrc32c :=
  match feeds op with Some y => gen_Update y <$> checksum_generator_ w | None => checksum_generator_ w end.

Lemma exec_performed (P : Prop) f w op : writer_wf f w -> valid op -> returns f w op -> (P -> sound_sums f w op) ->
  exists s f' w', exec op w = Ret s w' /\ performed P f w (adds op) (fed w op) s f' w'.
Proof.
  intros Hw Hv Hr Hs. destruct op; cbn in *.
  - by apply writer_Append_ok.
  - apply writer_Pad_ok; [done|lia|done].
  - by apply writer_Flush_performed.
  - by apply writer_Sync_ok.
  - by apply SyncWithoutFlush_ok.
  - by apply writer_InvalidateCache_ok.
Qed.

(** Whatever succeeds was performed. *)
Lemma exec_run (P : Prop) f w op w' : writer_wf f w -> valid op -> (P -> sound_sums f w op) -> exec op w = Ret OK w' ->
  exists f', performed P f w (adds op) (fed w op) OK f' w'.
Proof.
  intros Hw Hv Hs Hrun.
  assert (returns f w op -> exists f', performed P f w (adds op) (fed w op) OK f' w') as Hother.
  { intros Hr. destruct (exec_performed P f w op Hw Hv Hr Hs) as (s & f' & w1 & Hrun' & Hp).
    rewrite Hrun in Hrun'. injection Hrun' as <- <-. by exists f'. }
  destruct op; try by apply Hother. apply (writer_Pad_run P f w pad_bytes w'); [done|cbn in Hv; lia|done|done].
Qed.

(** The constructor. *)
Lemma new_writer_wf f options gen b :
  file_ok f -> power_of_two (fs_GetRequiredBufferAlignment f) -> 0 < max_buffer_size_ options < 2 ^ 60 ->
  (forall l, rate_limiter_ options = Some l -> 0 < single_burst_bytes l < 2 ^ 63 /\
     (perform_data_verification_ options && buffered_data_with_checksum_ options = true -> fs_use_direct_io f = false ->
      (fs_GetIOPriority f <? IO_TOTAL) && IsRateLimited l kWrite = false)) ->
  exists bb b', let w := MkWritableFileWriter (Open f) bb options 0 0 false 0 gen false 0 in
    new_WritableFileWriter f options gen b = Ret w b' /\ writer_wf f w /\ buffered bb = [].
Proof.
  intros Hf Hal Hmax Hlim. unfold new_WritableFileWriter. erewrite bind_Ret by reflexivity.
  set (b0 := MkAlignedBuffer _ _ _ _).
  destruct (Allocate_new b0 (Z.min 65536 (max_buffer_size_ options)) Hal) as (b1 & Hrun & Hb & Hx & Ha & Hc); [lia|].
  erewrite bind_Ret by exact Hrun. exists b1, b1. split; [reflexivity|]. split; [|done].
  pose proof (power_of_two_range _ Hal).
  destruct (Roundup_spec (fs_GetRequiredBufferAlignment f) (Z.min 65536 (max_buffer_size_ options))) as (Hr & _); [lia|lia|].
  split; cbn [writable_file_ buf_ w_options next_write_offset_ buffered_data_crc32c_checksum_]; try done.
  - change (0 < capacity_ b1). rewrite Hc. change (alignment_ b0) with (fs_GetRequiredBufferAlignment f). lia.
  - intros _. split; [lia|apply zlen_nonneg].
Qed.

(** ** The invariant *)

(** C14. Operations of a well-formed writer return, without undefined behaviour
    and without a loop that does not end, and leave a well-formed writer over the
    same kind of file, whatever the file answers: any call may fail, and may have
    written part of its data when it does. This holds for every [Append], [Flush],
    [Sync], [SyncWithoutFlush], [InvalidateCache] and [Close], and for a [Pad] of
    less than a page that fits into the buffer, or that can flush the buffer while
    no data verification is on. A well-formed writer has a rate limiter that lets
    bytes pass, and none in force when checksums are handed over with buffered
    I/O. *)
Theorem writer_stays_well_formed f w op :
  writer_wf f w -> valid op -> returns f w op ->
  (exists s f' w', exec op w = Ret s w' /\ writer_wf f' w' /\ attributes f' = attributes f /\ w_options w' = w_options w) /\
  (exists s f' w', writer_Close w = Ret s w' /\ writable_file_ w' = Closed f').
Proof.
  intros Hw Hv Hr. split.
  - destruct (exec_performed False f w op Hw Hv Hr) as (s & f' & w' & Hrun & []); [done|]. by exists s, f', w'.
  - destruct (writer_Close_ok False f w Hw) as (s & f' & w' & Hrun & Hc & _). by exists s, f', w'.
Qed.

(** ** Refinement *)

(** A sequence of operations that all succeed, each in a state where [R] holds. *)
Inductive runs (R : F -> FW -> file_op -> Prop) : F -> FW -> list file_op -> F -> FW -> Prop :=
| runs_nil f w : runs R f w [] f w
| runs_cons f w op f1 w1 ops f2 w2 :
    valid op -> R f w op -> exec op w = Ret OK w1 -> writable_file_ w1 = Open f1 -> runs R f1 w1 ops f2 w2 ->
    runs R f w (op :: ops) f2 w2.

(** Any operations. *)
Definition any (f : F) (w : FW) (op : file_op) : Prop := True.

Lemma runs_any R f w ops f' w' : runs R f w ops f' w' -> runs any f w ops f' w'.
Proof. induction 1; econstructor; (done || eauto). Qed.

Definition content (ops : list file_op) : bytes := concat (adds <$> ops).
Definition digested (ops : list file_op) : bytes := concat ((fun op => default [] (feeds op)) <$> ops).

Section Runs.
Context (R : F -> FW -> file_op -> Prop) (P : Prop) (Hright : forall f w op, R f w op -> P -> sound_sums f w op).

Lemma run_step f w op f1 w1 : writer_wf f w -> valid op -> R f w op -> exec op w = Ret OK w1 -> writable_file_ w1 = Open f1 ->
  performed P f w (adds op) (fed w op) OK f1 w1.
Proof.
  intros Hw Hv HR Hrun Hopen. destruct (exec_run P f w op w1 Hw Hv) as [f' Hp]; [by apply Hright|done|].
  pose proof (ww_file _ _ (pf_wf _ _ _ _ _ _ _ _ Hp)) as Hf. rewrite Hopen in Hf. by injection Hf as <-.
Qed.

Lemma runs_clean f w ops f' w' : runs R f w ops f' w' -> forall x y, clean P x y f w ->
  clean P (x ++ content ops) (y ++ digested ops) f' w'.
Proof.
  induction 1 as [|f w op f1 w1 ops f2 w2 Hv HR Hrun Hopen Hruns IH]; intros x y Hcl; [by rewrite !app_nil_r|].
  pose proof (run_step f w op f1 w1 (cl_wf _ _ _ _ _ Hcl) Hv HR Hrun Hopen) as Hp.
  specialize (IH _ _ (performed_clean P x y f w (adds op) (feeds op) OK f1 w1 Hcl Hp eq_refl)).
  by rewrite <- !app_assoc in IH.
Qed.

Lemma runs_generator f w ops f' w' : runs R f w ops f' w' -> writer_wf f w ->
  checksum_generator_ w' = None -> checksum_generator_ w = None.
Proof.
  induction 1 as [|f w op f1 w1 ops f2 w2 Hv HR Hrun Hopen Hruns IH]; intros Hw Hg; [done|].
  pose proof (run_step f w op f1 w1 Hw Hv HR Hrun Hopen) as Hp.
  specialize (IH (pf_wf _ _ _ _ _ _ _ _ Hp) Hg). rewrite (pf_generator _ _ _ _ _ _ _ _ Hp) in IH.
  unfold fed in IH. destruct (feeds op); [|done]. by destruct (checksum_generator_ w).
Qed.
End Runs.

Lemma new_clean (P : Prop) f bb options gen (w := MkWritableFileWriter (Open f) bb options 0 0 false 0 gen false 0) :
  writer_wf f w -> buffered bb = [] ->
  file_data f = [] -> (P -> honest f) -> (gen = None \/ gen = Some new_FileChecksumGenCrc32c) -> clean P [] [] f w.
Proof.
  intros Hw Hb Hd Hh Hg.
  assert (accepted f w = []) as Hacc.
  { unfold accepted, written. rewrite Hd. cbn. rewrite Hb. by destruct (fs_use_direct_io f). }
  split; try done.
  - intros _ _. cbn. by rewrite Hb.
  - intros _. unfold synced. by rewrite Hacc, Hd.
  - cbn. intros g Eg. destruct Hg as [->|Hg]; [done|]. rewrite Hg in Eg. injection Eg as <-. done.
Qed.

(** The checksum of a file, most significant byte first. *)
Definition big_endian (v : Z) : bytes := rev (le_bytes 4 v).

Lemma swapped v : EncodeFixed32 true (EndianSwapValue v) = big_endian v.
Proof.
  rewrite le_bytes_of_shifts. unfold EndianSwapValue. pose proof (le_bytes_of_val (rev (le_bytes 4 v))) as Hl.
  rewrite length_rev, length_le_bytes in Hl. exact Hl.
Qed.

(** C13. The writer implements a list of bytes to which operations append: after
    any sequence of operations that all returned OK on a new writer over an empty
    file, in any mode, the size it reports is that of all the bytes handed in; when
    [Close] then succeeds the file holds exactly these bytes, in order: nothing stays
    in the buffer, and with direct I/O no padding of the last page is left over; and
    the checksum of the file is the CRC-32C of what was appended. The checksums that
    go to the file with the data are only as good as the calls: each of them is the
    CRC-32C of its data when every checksum a caller passed was 0 (none) or right
    and every [Pad] fitted into the buffer or ran without data verification. The
    options are those under which no write waits for ever. *)
Theorem writer_refines_bytes f options gen b w b' ops f1 w1 :
  new_WritableFileWriter f options gen b = Ret w b' ->
  file_ok f -> file_data f = [] -> honest f -> power_of_two (fs_GetRequiredBufferAlignment f) ->
  0 < max_buffer_size_ options < 2 ^ 60 ->
  (forall l, rate_limiter_ options = Some l -> 0 < single_burst_bytes l < 2 ^ 63 /\
     (perform_data_verification_ options && buffered_data_with_checksum_ options = true -> fs_use_direct_io f = false ->
      (fs_GetIOPriority f <? IO_TOTAL) && IsRateLimited l kWrite = false)) ->
  gen = None \/ gen = Some new_FileChecksumGenCrc32c ->
  runs any f w ops f1 w1 ->
  GetFileSize w1 = zlen (content ops) /\
  exists s f2 w2, writer_Close w1 = Ret s w2 /\ writable_file_ w2 = Closed f2 /\
    (ok s = true -> file_data f2 = content ops /\ (runs sound_sums f w ops f1 w1 -> honest f2) /\
       (gen <> None -> GetFileChecksum w2 = big_endian (Value (digested ops)))).
Proof.
  intros Hnew Hf Hd Hh Hal Hmax Hlim Hg Hruns.
  destruct (new_writer_wf f options gen b Hf Hal Hmax Hlim) as (bb & b0 & Hnew' & Hw & Hb).
  rewrite Hnew in Hnew'. injection Hnew' as -> <-.
  pose proof (runs_clean any False ltac:(done) _ _ _ _ _ Hruns [] [] (new_clean False _ _ _ _ Hw Hb Hd ltac:(done) Hg)) as Hcl.
  cbn [app] in Hcl. split; [apply Hcl|].
  destruct (writer_Close_ok False f1 w1 (cl_wf _ _ _ _ _ Hcl)) as (s & f2 & w2 & Hclose & Hc & Hres).
  exists s, f2, w2. split; [done|]. split; [done|]. intros Hs. destruct (Hres _ _ Hcl Hs) as (Hdata & _ & Hsum).
  split; [done|]. split; [|intros Hne; destruct (checksum_generator_ w1) as [g|] eqn:Eg; [by rewrite (Hsum g eq_refl), swapped|]].
  - intros Hright.
    pose proof (runs_clean sound_sums True ltac:(done) _ _ _ _ _ Hright [] [] (new_clean True _ _ _ _ Hw Hb Hd ltac:(done) Hg)) as Hcl'.
    destruct (writer_Close_ok True f1 w1 (cl_wf _ _ _ _ _ Hcl')) as (s' & f2' & w2' & Hclose' & Hc' & Hres').
    rewrite Hclose in Hclose'. injection Hclose' as <- <-. rewrite Hc in Hc'. injection Hc' as <-.
    by apply (Hres' _ _ Hcl' Hs).
  - destruct Hne. exact (runs_generator any False ltac:(done) _ _ _ _ _ Hruns Hw Eg).
Qed.

(** ** Waiting for tokens without end *)

Lemma tokens_of_pages l n a p : power_of_two a -> 0 <= n < 2 ^ 64 ->
  (p <? IO_TOTAL) && IsRateLimited l kWrite = true -> RequestToken l n a p kWrite mod a = 0.
Proof.
  intros Ha Hn Hl. pose proof (power_of_two_range a Ha). unfold RequestToken. rewrite Hl.
  destruct (Z.ltb_spec 0 a); [|lia]. set (m := Z.min n _).
  assert (0 <= m < 2 ^ 64) by (unfold m, u64; pose proof (Z.mod_pos_bound (single_burst_bytes l) (2 ^ 64)); lia).
  rewrite Truncate_spec by done.
  destruct (Z.max_spec a (m / a * a)) as [[_ ->]|[_ ->]]; [apply Z.mod_mul; lia|apply Z.mod_same; lia].
Qed.

Lemma u64_mod a x : power_of_two a -> u64 x mod a = x mod a.
Proof.
  intros (k & Hk & ->). unfold u64. apply Z.mod_mod_divide.
  exists (2 ^ (64 - k)). rewrite <- Z.pow_add_r by lia. f_equal. lia.
Qed.

(** C39. With a rate limiter that applies to the file, a buffered write that hands
    over its checksum waits for tokens page by page, and subtracts whole pages
    from a size that need not be one: the unsigned remainder wraps around and is
    never 0.  Unless the data is a whole number of pages the loop does not end,
    whatever its fuel, and the write never reaches the file. *)
Theorem limited_write_never_returns f w l d :
  writable_file_ w = Open f -> rate_limiter_ (w_options w) = Some l -> power_of_two (alignment_ (buf_ w)) ->
  (fs_GetIOPriority f <? IO_TOTAL) && IsRateLimited l kWrite = true ->
  zlen d < 2 ^ 64 -> zlen d mod alignment_ (buf_ w) <> 0 ->
  (forall fuel, token_loop fuel l (zlen d) (alignment_ (buf_ w)) w = Hang) /\ WriteBufferedWithChecksum d w = Hang.
Proof.
  intros Hf Hl Ha Hlim Hd Hm. set (a := alignment_ (buf_ w)) in *. pose proof (power_of_two_range a Ha) as Hr.
  assert (forall fuel n, 0 <= n < 2 ^ 64 -> n mod a <> 0 -> token_loop fuel l n a w = Hang) as Hloop.
  { induction fuel as [|fuel IH]; intros n Hn Hnm; [done|]. cbn [token_loop].
    destruct (Z.ltb_spec 0 n); [|replace n with 0 in Hnm by lia; by rewrite Z.mod_0_l in Hnm by lia].
    erewrite bind_Ret by (by apply (on_file_gets _ f)). apply IH; [apply Z.mod_pos_bound; lia|].
    by rewrite u64_mod, Zminus_mod, tokens_of_pages, Z.sub_0_r, Z.mod_mod by (done || lia). }
  split; [intros fuel; apply Hloop; [split; [apply zlen_nonneg|done]|done]|].
  unfold WriteBufferedWithChecksum, wait_for_tokens. unfold mbind at 1, prog_bind at 1. rewrite !bind_gets. unfold opt, buf. rewrite Hl.
  fold a. rewrite Hloop; [done|split; [apply zlen_nonneg|done]|done].
Qed.
End Theorems.

(** ** A file in memory *)

(** It checks the checksums it is handed; [mf_honest] says that all were right. *)
Record memory_file := MkMemoryFile { mf_data : bytes; mf_direct : bool; mf_alignment : Z; mf_priority : Z; mf_honest : bool }.

#[export] Instance byte_eq_decision : EqDecision Byte.byte := Byte.byte_eq_dec.

Definition mf_right (v : option bytes) (d : bytes) : bool :=
  match v with Some c => bool_decide (c = EncodeFixed32 true (Value d)) | None => true end.

(** A write that makes the file too large fails. *)
Definition mf_write (d new : bytes) (v : option bytes) : prog memory_file IOStatus := fun f =>
  let h := mf_honest f && mf_right v d in
  if zlen new <? 2 ^ 62 then Ret OK (MkMemoryFile new (mf_direct f) (mf_alignment f) (mf_priority f) h)
  else Ret (IOError 27) (MkMemoryFile (mf_data f) (mf_direct f) (mf_alignment f) (mf_priority f) h).

#[export] Instance memory_writable : FSWritableFile memory_file := {
  fs_Append d v := fun f => mf_write d (mf_data f ++ d) v f;
  fs_PositionedAppend d off v := fun f => mf_write d (overwrite (mf_data f) off d) v f;
  fs_Truncate n := fun f => Ret OK (MkMemoryFile (take (Z.to_nat n) (mf_data f)) (mf_direct f) (mf_alignment f) (mf_priority f) (mf_honest f));
  fs_Close := mret OK; fs_Flush := mret OK; fs_Sync := mret OK; fs_Fsync := mret OK;
  fs_RangeSync _ _ := mret OK; fs_PrepareWrite _ _ := mret tt; fs_InvalidateCache _ _ := mret OK;
  fs_IsSyncThreadSafe _ := true; fs_use_direct_io := mf_direct;
  fs_GetRequiredBufferAlignment := mf_alignment; fs_GetIOPriority := mf_priority }.

Lemma mf_right_spec v d : right_checksum v d -> mf_right v d = true.
Proof. intros [->| ->]; [done|]. cbn. by rewrite bool_decide_eq_true_2. Qed.

#[export] Instance memory_writable_spec : FSWritableFileSpec memory_file.
Proof.
  refine {| file_ok := fun f => zlen (mf_data f) < 2 ^ 62; file_data := mf_data; honest := fun f => mf_honest f = true |}; cbn -[Z.pow].
  - done.
  - intros f d v Hf. unfold mf_write. destruct (Z.ltb_spec (zlen (mf_data f ++ d)) (2 ^ 62)); do 2 eexists; (split; [reflexivity|]);
      (split; [done|]); (split; [done|]); (split; [intros Hr Hh; cbn; by rewrite Hh, mf_right_spec|done]).
  - intros f d off v Hf Hoff Hom Hdm. unfold mf_write.
    destruct (Z.ltb_spec (zlen (overwrite (mf_data f) off d)) (2 ^ 62)); do 2 eexists; (split; [reflexivity|]);
      (split; [done|]); (split; [done|]); (split; [intros Hr Hh; cbn; by rewrite Hh, mf_right_spec|]); [|done].
    cbn. rewrite zlen_overwrite by done. split; [lia|]. split; [|done].
    unfold overwrite. rewrite take_app_le by (rewrite length_take; unfold zlen in *; lia). rewrite take_take. f_equal. lia.
  - intros f n Hf. do 2 eexists. split; [reflexivity|]. cbn. split; [|done].
    unfold zlen in *. rewrite length_take. lia.
  - intros f Hf. by exists OK, f.
  - intros f Hf. by exists OK, f.
  - intros f Hf. by exists OK, f.
  - intros f Hf. by exists OK, f.
  - intros f o n Hf. by exists OK, f.
  - intros f o n Hf. by exists tt, f.
  - intros f o n Hf. by exists OK, f.
Defined.

#[local] Existing Instance memory_allocator.
#[local] Existing Instance memory_allocator_laws.

(** ** Padding over the end of the buffer *)

Definition letters : bytes := byte_of <$> [97; 98; 99].

(** A buffer of four bytes, buffered I/O and checksums. *)
Definition small_options : WriterOptions := MkWriterOptions 4 0 None true true.
Definition small_file : memory_file := MkMemoryFile [] false 4 IO_TOTAL true.

Definition after_letters : prog AlignedBuffer (outcome (WritableFileWriter memory_file) IOStatus) :=
  w ← new_WritableFileWriter small_file small_options None;
  mret (writer_Append letters 0 w).

(** [Pad] takes the checksum of the padding from the place where it starts in
    the buffer.  When the buffer was flushed in between, the padding is not there
    any more: here three of four bytes are filled. The padding of four bytes is
    written in two parts, and the checksum is computed over memory behind the
    buffer; with padding of two bytes all calls succeed, but the file is handed a
    checksum that is not that of its data. *)
Theorem pad_across_flush_overreads :
  exists w b, after_letters new_AlignedBuffer = Ret (Ret OK w) b /\
    buffered (buf_ w) = letters /\ writer_Pad 4 w = UB /\
    (exists w' f2 w2, writer_Pad 2 w = Ret OK w' /\ writer_Close w' = Ret OK w2 /\ writable_file_ w2 = Closed f2 /\
       file_data f2 = letters ++ padding_bytes 2 0 /\ ~ honest f2).
Proof.
  eexists _, _. split; [vm_compute; reflexivity|]. split; [vm_compute; reflexivity|]. split; [vm_compute; reflexivity|].
  eexists _, _, _. do 4 (split; [vm_compute; reflexivity|]). by vm_compute.
Qed.

(** ** Witnesses *)

Lemma power_of_two_4 : power_of_two 4.
Proof. by exists 2. Qed.

Lemma writer_stays_well_formed_witness : exists w s f' w',
  writer_wf small_file w /\ exec (OpAppend letters (Value letters)) w = Ret s w' /\ writer_wf f' w'.
Proof.
  destruct (new_writer_wf small_file small_options None new_AlignedBuffer) as (bb & b & _ & Hw & _);
    [done|exact power_of_two_4|done|done|].
  destruct (writer_stays_well_formed small_file _ (OpAppend letters (Value letters)) Hw (Value_range letters) I) as [(s & f' & w' & H1 & H2 & _) _].
  eexists _, s, f', w'. exact (conj Hw (conj H1 H2)).
Defined.

(** Direct I/O with pages of four bytes, checksums and a checksum of the file. *)
Definition direct_file : memory_file := MkMemoryFile [] true 4 IO_TOTAL true.
Definition direct_options : WriterOptions := MkWriterOptions 8 0 None true true.
Definition direct_ops : list file_op :=
  [OpAppend letters (Value letters); OpFlush; OpPad 2; OpAppend (letters ++ letters ++ letters) 0; OpSync true].

Lemma direct_runs : exists w b f1 w1 w2,
  new_WritableFileWriter direct_file direct_options (Some new_FileChecksumGenCrc32c) new_AlignedBuffer = Ret w b /\
  runs sound_sums direct_file w direct_ops f1 w1 /\ writer_Close w1 = Ret OK w2.
Proof.
  do 5 eexists. split; [vm_compute; reflexivity|]. split.
  - unfold direct_ops. repeat first
      [ apply runs_nil
      | eapply runs_cons;
        [ first [exact I|apply Value_range|done] | first [exact I|by right|by left|left; vm_compute; discriminate] | vm_compute; reflexivity | reflexivity | ] ].
  - vm_compute. reflexivity.
Qed.

Lemma writer_refines_bytes_witness : exists w b f1 w1 f2 w2,
  new_WritableFileWriter direct_file direct_options (Some new_FileChecksumGenCrc32c) new_AlignedBuffer = Ret w b /\
  runs sound_sums direct_file w direct_ops f1 w1 /\ writer_Close w1 = Ret OK w2 /\ writable_file_ w2 = Closed f2 /\
  file_data f2 = content direct_ops /\ honest f2.
Proof.
  destruct direct_runs as (w & b & f1 & w1 & w2 & Hnew & Hruns & Hclose).
  destruct (writer_refines_bytes direct_file direct_options _ _ w b direct_ops f1 w1 Hnew) as (_ & s & f2 & w3 & Hc & Hcl & Hok);
    [done|done|done|exact power_of_two_4|done|done|by right|exact (runs_any _ _ _ _ _ _ Hruns)|].
  rewrite Hclose in Hc. injection Hc as <- <-. exists w, b, f1, w1, f2, w2. destruct (Hok eq_refl) as (Hd & Hh & _).
  exact (conj Hnew (conj Hruns (conj Hclose (conj Hcl (conj Hd (Hh Hruns)))))).
Defined.

(** A log file, limited to 10 bytes at a time, and a write of three bytes. *)
Definition limiter : RateLimiter := MkRateLimiter 10 kWritesOnly.
Definition limited_file : memory_file := MkMemoryFile [] false 4 0 true.
Definition limited_writer : WritableFileWriter memory_file :=
  MkWritableFileWriter (Open limited_file) (MkAlignedBuffer 4 8 0 (replicate 9 Byte.x00))
    (MkWriterOptions 8 0 (Some limiter) true true) 0 0 false 0 None false 0.

Lemma limited_write_never_returns_witness : WriteBufferedWithChecksum letters limited_writer = Hang.
Proof.
  apply (limited_write_never_returns limited_file limited_writer limiter letters).
  - reflexivity.
  - reflexivity.
  - exact power_of_two_4.
  - reflexivity.
  - reflexivity.
  - discriminate.
Defined.
