(* ===== verification/EnvZoad.v ===== *)
(** util/env_zoad.cc: files over the store.  A file collects what is appended in a
    buffer of some I/Os, hands full buffers to the store under a key of its own,
    and is read from the store and the buffer; the environment maps names to files.

    The store is any implementation of the interface [ZoadStore], the calls of
    zoad.h the environment makes; what a load stores through its pointer is its
    result.  Every operation of the environment holds [mutex_] until it returns.
    [refs_] is not modelled: it is never initialised, and what happens when it
    drops to zero is commented out in the code. *)
From S2P Require Import Prelude Nvme Bits Coding IoStatus.
From stdpp Require Import base numbers list gmap strings pretty.
From Stdlib Require Import ZArith Lia Ascii.
Local Open Scope Z_scope.

(** [z_flush], [z_load], [z_sync] and [z_del] of a user, a partition and a name. *)
Class ZoadStore (St : Type) := {
  store_flush : Z -> Z -> string -> bytes -> prog St Z;
  store_load : Z -> Z -> string -> Z -> Z -> prog St (Z * bytes);
  store_sync : Z -> Z -> string -> prog St Z;
  store_del : Z -> Z -> string -> prog St Z }.

(** leveldb/status.h, as far as it is used here. *)
Inductive EnvStatus := EnvOK | EnvIOError (msg msg2 : string).

Definition env_uid : Z := 0.

(** [buf_size[flag]], as [Env::ZoadDefault] sets it up.  There is no other flag. *)
Definition io_level (flag : Z) : option Z := if flag =? 0 then Some 4 else if flag =? 1 then Some 12 else None.
Definition buf_size (flag : Z) : option Z := (fun l => u32 (IO_SIZE * l)) <$> io_level flag.

(** ** Files *)

(** [zf_buf]: [None] after [delete[]]. *)
Record ZoadFile := MkZoadFile {
  zf_name : string; zf_key : string; zf_flag : Z; zf_level : Z; zf_file_size : Z;
  zf_buf : option bytes; zf_buf_pos : Z; zf_is_manifest : bool;
  zf_read_buf : bytes; zf_read_buf_offset : Z; zf_use_read_buf : bool }.

Definition set_zf_name (n : string) (f : ZoadFile) : ZoadFile :=
  MkZoadFile n (zf_key f) (zf_flag f) (zf_level f) (zf_file_size f) (zf_buf f) (zf_buf_pos f) (zf_is_manifest f)
    (zf_read_buf f) (zf_read_buf_offset f) (zf_use_read_buf f).
Definition set_zf_file_size (n : Z) (f : ZoadFile) : ZoadFile :=
  MkZoadFile (zf_name f) (zf_key f) (zf_flag f) (zf_level f) n (zf_buf f) (zf_buf_pos f) (zf_is_manifest f)
    (zf_read_buf f) (zf_read_buf_offset f) (zf_use_read_buf f).
Definition set_zf_buf (b : option bytes) (f : ZoadFile) : ZoadFile :=
  MkZoadFile (zf_name f) (zf_key f) (zf_flag f) (zf_level f) (zf_file_size f) b (zf_buf_pos f) (zf_is_manifest f)
    (zf_read_buf f) (zf_read_buf_offset f) (zf_use_read_buf f).
Definition set_zf_buf_pos (n : Z) (f : ZoadFile) : ZoadFile :=
  MkZoadFile (zf_name f) (zf_key f) (zf_flag f) (zf_level f) (zf_file_size f) (zf_buf f) n (zf_is_manifest f)
    (zf_read_buf f) (zf_read_buf_offset f) (zf_use_read_buf f).
Definition set_zf_read_buf (b : bytes) (off : Z) (use : bool) (f : ZoadFile) : ZoadFile :=
  MkZoadFile (zf_name f) (zf_key f) (zf_flag f) (zf_level f) (zf_file_size f) (zf_buf f) (zf_buf_pos f) (zf_is_manifest f) b off use.

(** What follows the last slash. *)
Fixpoint after_slash (s cur : string) : string :=
  match s with
  | EmptyString => cur
  | String c s' => if Ascii.eqb c "/"%char then after_slash s' s' else after_slash s' cur
  end.
Definition Basename (filename : string) : string := after_slash filename filename.
Definition IsManifest (filename : string) : bool := String.prefix "MANIFEST" (Basename filename).

Section File.
Context {St : Type} `{ZoadStore St} (lp_id : Z -> Z).

(** A file and the store it is in. *)
Record opened := MkOpened { op_file : ZoadFile; op_store : St }.

Definition file_lens : lens opened ZoadFile := Lens op_file (fun f o => MkOpened f (op_store o)).
Definition store_lens : lens opened St := Lens op_store (fun s o => MkOpened (op_file o) s).

Definition getf {A} (g : ZoadFile -> A) : prog opened A := gets (fun o => g (op_file o)).
Definition putf (g : ZoadFile -> ZoadFile) : prog opened unit := modify (fun o => MkOpened (g (op_file o)) (op_store o)).

Definition file_buf_size : prog opened Z := flag ← getf zf_flag; the (buf_size flag).

(** [new char[n]]: the bytes are not initialised. *)
Definition new_ZoadFile (junk : Z -> bytes) (flag level : Z) (filename : string) (file_key : Z) : option ZoadFile :=
  bs ← buf_size flag;
  Some (MkZoadFile filename (pretty (Z.to_N file_key)) flag level 0 (Some (junk bs)) 0 (IsManifest filename) (junk IO_SIZE) 0 false).

(** [memcpy] out of and into memory of the host. *)
Definition fetch (b : bytes) (off n : Z) : prog opened bytes := if in_block b off n then mret (sub b off n) else undefined.
Definition blit (b : bytes) (off : Z) (data : bytes) : prog opened bytes := if in_block b off (zlen data) then mret (overwrite b off data) else undefined.

Definition get_buf : prog opened bytes := b ← getf zf_buf; the b.
Definition fill_buf (data : bytes) : prog opened unit :=
  b ← get_buf;
  pos ← getf zf_buf_pos;
  b ← blit b pos data;
  putf (set_zf_buf (Some b)).

(** The last argument of [z_flush] is the size as [unsigned int]. *)
Definition flush_bytes (wsize : Z) : prog opened unit :=
  b ← get_buf;
  data ← fetch b 0 (u32 wsize);
  lp ← getf (fun f => lp_id (zf_flag f));
  key ← getf zf_key;
  zoom store_lens (store_flush env_uid lp key data);;
  mret tt.

Definition Flush_file_buffer : prog opened EnvStatus :=
  wsize ← getf zf_buf_pos;
  bs ← file_buf_size;
  (if bs <=? wsize then
     if negb (wsize mod IO_SIZE =? 0) then
       putf (set_zf_buf_pos (wsize mod IO_SIZE));;
       let wsize := u64 (wsize - wsize mod IO_SIZE) in
       flush_bytes wsize;;
       b ← get_buf;
       pos ← getf zf_buf_pos;
       tail ← fetch b wsize pos;
       b ← blit b 0 tail;
       putf (set_zf_buf (Some b))
     else
       putf (set_zf_buf_pos 0);;
       flush_bytes wsize
   else mret tt);;
  mret EnvOK.

(** The first [copy_size] bytes go to the buffer. *)
Definition copy_part (data : bytes) : prog opened bytes :=
  bs ← file_buf_size;
  pos ← getf zf_buf_pos;
  let copy_size := Z.min (zlen data) (u64 (bs - pos)) in
  fill_buf (sub data 0 copy_size);;
  putf (set_zf_buf_pos (u64 (pos + copy_size)));;
  mret (drop (Z.to_nat copy_size) data).

Fixpoint write_unbuffered_loop (fuel : nat) (data : bytes) : prog opened unit :=
  match fuel with
  | O => hang
  | S fuel =>
    if 0 <? zlen data then
      data ← copy_part data;
      pos ← getf zf_buf_pos;
      bs ← file_buf_size;
      when (bs <=? pos) (Flush_file_buffer;; mret tt);;
      write_unbuffered_loop fuel data
    else mret tt
  end.

(** Every round but the first takes a byte at least. *)
Definition WriteUnbuffered (data : bytes) : prog opened EnvStatus := write_unbuffered_loop (length data + 2) data;; mret EnvOK.

Definition zf_Append (data : bytes) : prog opened EnvStatus :=
  putf (fun f => set_zf_file_size (u64 (zf_file_size f + zlen data)) f);;
  data ← copy_part data;
  if zlen data =? 0 then mret EnvOK else
  Flush_file_buffer;;
  WriteUnbuffered data.

Definition zf_FlushBuffer : prog opened EnvStatus := Flush_file_buffer.

Definition zf_Sync : prog opened EnvStatus :=
  status ← Flush_file_buffer;
  size ← getf zf_file_size;
  bs ← file_buf_size;
  when (bs <=? size) (
    lp ← getf (fun f => lp_id (zf_flag f));
    key ← getf zf_key;
    zoom store_lens (store_sync env_uid lp key);; mret tt);;
  mret status.

Definition delete_buf : prog opened unit :=
  get_buf;;
  putf (set_zf_buf None).

Definition zf_Delete : prog opened EnvStatus :=
  size ← getf zf_file_size;
  bs ← file_buf_size;
  pos ← getf zf_buf_pos;
  (if (bs <? size) || (bs <=? size) && (pos <? bs) then
     lp ← getf (fun f => lp_id (zf_flag f));
     key ← getf zf_key;
     zoom store_lens (store_del env_uid lp key);;
     putf (set_zf_file_size 0);;
     delete_buf;;
     putf (set_zf_buf_pos 0)
   else
     delete_buf;;
     putf (set_zf_buf_pos 0));;
  mret EnvOK.

(** ** Reading *)

(** [z_load] takes offset and size as [unsigned int]; it stores what it loads at
    [pos] of [scratch]. *)
Definition load_into (scratch : bytes) (pos offset size : Z) : prog opened bytes :=
  lp ← getf (fun f => lp_id (zf_flag f));
  key ← getf zf_key;
  '(_, data) ← zoom store_lens (store_load env_uid lp key (u32 offset) (u32 size));
  blit scratch pos data.

(** [n] rounded up to whole I/Os. *)
Definition whole_ios (n : Z) : Z := let r := u64 (n - n mod IO_SIZE) in if negb (n mod IO_SIZE =? 0) then u64 (r + IO_SIZE) else r.

(** Load whole I/Os to [pos] of [scratch], and keep a copy of the last one. *)
Definition load_and_keep (scratch : bytes) (pos offset read_size : Z) (use : bool) : prog opened bytes :=
  scratch ← load_into scratch pos offset read_size;
  last ← fetch scratch (u64 (pos + read_size - IO_SIZE)) IO_SIZE;
  putf (set_zf_read_buf last (u64 (offset + read_size - IO_SIZE)) use);;
  mret scratch.

(** The part of a file that is in the store. *)
Definition read_stored (offset n : Z) (scratch : bytes) : prog opened bytes :=
  use ← getf zf_use_read_buf;
  rb ← getf zf_read_buf;
  rbo ← getf zf_read_buf_offset;
  if use : bool then
    if (rbo <=? offset) && (u64 (offset + n) <=? u64 (rbo + IO_SIZE)) then
      data ← fetch rb (u64 (offset - rbo)) n;
      blit scratch 0 data
    else if (u64 (rbo + IO_SIZE) <=? offset) || (offset <? rbo) then
      load_and_keep scratch 0 offset (whole_ios n) use
    else if (rbo <=? offset) && (offset <? u64 (rbo + IO_SIZE)) && (u64 (rbo + IO_SIZE) <? u64 (offset + n)) then
      let buf_read_size := u64 (IO_SIZE - offset mod IO_SIZE) in
      data ← fetch rb (u64 (offset - rbo)) buf_read_size;
      scratch ← blit scratch 0 data;
      load_and_keep scratch buf_read_size (u64 (offset + buf_read_size)) (whole_ios n) use
    else exit0
  else load_and_keep scratch 0 offset (whole_ios n) true.

(** The status, the slice if there is one, and the caller's memory. *)
Definition zf_Read (offset n : Z) (scratch : bytes) : prog opened (EnvStatus * option bytes * bytes) :=
  size ← getf zf_file_size;
  if size <? offset then mret (EnvIOError "Offset greater than file size." EmptyString, None, scratch) else
  let n := if u64 (size - offset) <? n then u64 (size - offset) else n in
  if n =? 0 then mret (EnvOK, Some [], scratch) else
  pos ← getf zf_buf_pos;
  let stored := u64 (size - pos) in
  scratch ←
    (if size =? pos then
       b ← get_buf;
       data ← fetch b offset n;
       blit scratch 0 data
     else if stored <=? offset then
       if size <? u64 (offset + n) then exit0 else
       b ← get_buf;
       data ← fetch b (u64 (offset - stored)) n;
       blit scratch 0 data
     else if u64 (offset + n) <=? stored then read_stored offset n scratch
     else
       scratch ← load_into scratch 0 offset (u64 (stored - offset));
       b ← get_buf;
       data ← fetch b 0 (u64 (offset + n - stored));
       blit scratch (u64 (stored - offset)) data);
  result ← fetch scratch 0 n;
  mret (EnvOK, Some result, scratch).
End File.
Arguments opened : clear implicits.
Arguments MkOpened {St}.
Arguments op_file {St}.
Arguments op_store {St}.

(** ** The environment *)

(** Files are named by where they are in [env_files]: they are never freed.
    [file_map_] is ordered by name; the order only shows in [GetChildren]. *)
Record ZoadEnv (St : Type) := MkZoadEnv {
  file_map_ : gmap string nat; env_files : list ZoadFile; global_key : Z; locked_files_ : gset string; env_store : St }.
Arguments MkZoadEnv {St}.
Arguments file_map_ {St}.
Arguments env_files {St}.
Arguments global_key {St}.
Arguments locked_files_ {St}.
Arguments env_store {St}.

Section Env.
Context {St : Type} `{ZoadStore St} (lp_id : Z -> Z).
Abbreviation Env := (ZoadEnv St).

Definition set_file_map (m : gmap string nat) (e : Env) : Env := MkZoadEnv m (env_files e) (global_key e) (locked_files_ e) (env_store e).
Definition set_locked (l : gset string) (e : Env) : Env := MkZoadEnv (file_map_ e) (env_files e) (global_key e) l (env_store e).

Definition new_ZoadEnv (s : St) : Env := MkZoadEnv ∅ [] 0 ∅ s.

(** A call on a file. *)
Definition on_zoad_file {A} (p : nat) (m : prog (opened St) A) : prog Env A := fun e =>
  let back o := MkZoadEnv (file_map_ e) (<[p := op_file o]> (env_files e)) (global_key e) (locked_files_ e) (op_store o) in
  match env_files e !! p with
  | None => UB
  | Some f => match m (MkOpened f (env_store e)) with Ret a o => Ret a (back o) | Exit o => Exit (back o) | UB => UB | Hang => Hang end
  end.


(** [new ZoadFile(flag, level, fname, global_key++)], entered under its name. *)
Definition create_file (junk : Z -> bytes) (fname : string) (level flag : Z) : prog Env nat :=
  e ← gets id;
  f ← the (new_ZoadFile junk flag level fname (global_key e));
  let p := length (env_files e) in
  modify (fun e => MkZoadEnv (<[fname := p]> (file_map_ e)) (env_files e ++ [f]) (u32 (global_key e + 1)) (locked_files_ e) (env_store e));;
  mret p.

Definition DeleteFileInternal (fname : string) : prog Env unit :=
  m ← gets file_map_;
  match m !! fname with
  | None => mret tt
  | Some p =>
    on_zoad_file p (zf_Delete lp_id);;
    modify (fun e => set_file_map (delete fname (file_map_ e)) e)
  end.

(** [SequentialFileImpl], [RandomAccessFileImpl] and [WritableFileImpl] hold a
    pointer to the file; the first one a position, too. *)
Record SequentialFileImpl := MkSequentialFileImpl { sq_file : nat; sq_pos : Z }.

Definition NewSequentialFile (fname : string) : prog Env (EnvStatus * option SequentialFileImpl) :=
  m ← gets file_map_;
  match m !! fname with
  | None => mret (EnvIOError fname "File not found", None)
  | Some p => mret (EnvOK, Some (MkSequentialFileImpl p 0))
  end.

Definition NewRandomAccessFile (fname : string) : prog Env (EnvStatus * option nat) :=
  m ← gets file_map_;
  match m !! fname with
  | None => mret (EnvIOError fname "File not found", None)
  | Some p => mret (EnvOK, Some p)
  end.

Definition NewWritableFile (junk : Z -> bytes) (fname : string) (level flag : Z) : prog Env nat :=
  m ← gets file_map_;
  (match m !! fname with Some _ => DeleteFileInternal fname | None => mret tt end);;
  create_file junk fname level flag.

Definition NewAppendableFile (junk : Z -> bytes) (fname : string) (level flag : Z) : prog Env nat :=
  m ← gets file_map_;
  match m !! fname with
  | Some p => mret p
  | None => create_file junk fname level flag
  end.

Definition FileExists (fname : string) : prog Env bool := gets (fun e => bool_decide (is_Some (file_map_ e !! fname))).

Definition in_dir (dir filename : string) : option string :=
  if String.prefix (dir +:+ "/") filename then Some (String.substring (String.length dir + 1) (String.length filename) filename) else None.
Definition GetChildren (dir : string) : prog Env (list string) :=
  gets (fun e => omap (in_dir dir) (map_to_list (file_map_ e)).*1).

Definition env_DeleteFile (fname : string) : prog Env EnvStatus :=
  m ← gets file_map_;
  match m !! fname with
  | None => mret (EnvIOError fname "File not found")
  | Some _ => DeleteFileInternal fname;; mret EnvOK
  end.

Definition env_GetFileSize (fname : string) : prog Env (EnvStatus * option Z) :=
  m ← gets file_map_;
  match m !! fname with
  | None => mret (EnvIOError fname "File not found", None)
  | Some p => n ← on_zoad_file p (getf zf_file_size); mret (EnvOK, Some n)
  end.

Definition RenameFile (src target : string) : prog Env EnvStatus :=
  m ← gets file_map_;
  match m !! src with
  | None => mret (EnvIOError src "File not found")
  | Some p =>
    on_zoad_file p (putf (set_zf_name target));;
    modify (fun e => set_file_map (<[target := p]> (file_map_ e)) e);;
    modify (fun e => set_file_map (delete src (file_map_ e)) e);;
    mret EnvOK
  end.

(** The lock is its name. *)
Definition LockFile (fname : string) : prog Env (EnvStatus * option string) :=
  l ← gets locked_files_;
  if decide (fname ∈ l) then mret (EnvIOError ("lock " +:+ fname) "already held by process", None)
  else modify (set_locked ({[fname]} ∪ l));; mret (EnvOK, Some fname).

Definition UnlockFile (lock : string) : prog Env EnvStatus :=
  modify (fun e => set_locked (locked_files_ e ∖ {[lock]}) e);; mret EnvOK.

(** ** The files handed out *)

Definition seq_Read (q : SequentialFileImpl) (n : Z) (scratch : bytes) : prog Env (EnvStatus * option bytes * bytes * SequentialFileImpl) :=
  '(s, result, scratch) ← on_zoad_file (sq_file q) (zf_Read lp_id (sq_pos q) n scratch);
  mret (s, result, scratch,
        match s, result with EnvOK, Some r => MkSequentialFileImpl (sq_file q) (u64 (sq_pos q + zlen r)) | _, _ => q end).

Definition seq_Skip (q : SequentialFileImpl) (n : Z) : prog Env (EnvStatus * SequentialFileImpl) :=
  size ← on_zoad_file (sq_file q) (getf zf_file_size);
  if size <? sq_pos q then mret (EnvIOError "pos_ > file_->Size()" EmptyString, q) else
  let available := u64 (size - sq_pos q) in
  let n := if available <? n then available else n in
  mret (EnvOK, MkSequentialFileImpl (sq_file q) (u64 (sq_pos q + n))).

Definition random_Read (p : nat) (offset n : Z) (scratch : bytes) : prog Env (EnvStatus * option bytes * bytes) :=
  on_zoad_file p (zf_Read lp_id offset n scratch).

Definition writable_Append (p : nat) (data : bytes) : prog Env EnvStatus := on_zoad_file p (zf_Append lp_id data).
Definition writable_Close (p : nat) : prog Env EnvStatus := on_zoad_file p (zf_FlushBuffer lp_id).
Definition writable_Flush (p : nat) : prog Env EnvStatus := on_zoad_file p (zf_FlushBuffer lp_id).
Definition writable_Sync (p : nat) : prog Env EnvStatus := on_zoad_file p (zf_Sync lp_id).
End Env.
