(* ===== verification/EnvZoadSpec.v ===== *)
(** Files over the store: what the store promises to the environment, what a file
    in use looks like, and a lemma per operation of a file. *)
From S2P Require Import Prelude Nvme Bits Coding IoStatus AlignedBuffer EnvZoad.
From stdpp Require Import base numbers list gmap strings pretty.
From Stdlib Require Import ZArith Lia.
Local Open Scope Z_scope.

(** ** The store *)

(** [handed]: the bytes that flushes handed over under a name, in order, if any
    did.  A flush copies its bytes and queues them; nothing is said about when a
    worker carries it out, about what a load finds before, or that a sync waits. *)
Class ZoadStoreSpec (St : Type) `{ZoadStore St} := {
  store_ok : St -> Prop;
  handed : St -> Z -> string -> option bytes;
  law_flush st lp key data : store_ok st -> 0 < zlen data -> (IO_SIZE | zlen data) ->
    exists st', store_flush env_uid lp key data st = Ret 0 st' /\ store_ok st' /\
      handed st' lp key = Some (default [] (handed st lp key) ++ data) /\
      forall lp' key', (lp', key') <> (lp, key) -> handed st' lp' key' = handed st lp' key';
  law_sync st lp key c : store_ok st -> handed st lp key = Some c ->
    exists st', store_sync env_uid lp key st = Ret 0 st' /\ store_ok st' /\
      forall lp' key', handed st' lp' key' = handed st lp' key' }.

(** ** Arithmetic of the sizes *)

Lemma IO_SIZE_pos : 0 < IO_SIZE.
Proof. done. Qed.
Lemma IO_SIZE_bound : IO_SIZE < 2 ^ 18.
Proof. done. Qed.

Lemma buf_size_facts flag bs : buf_size flag = Some bs -> (IO_SIZE | bs) /\ 0 < bs < 2 ^ 22.
Proof.
  unfold buf_size, io_level. destruct (flag =? 0); [intros [= <-]|destruct (flag =? 1); [intros [= <-]|done]].
  - split; [by exists 4|done].
  - split; [by exists 12|done].
Qed.

#[local] Opaque IO_SIZE.

Lemma multiple_le a b : (a | b) -> 0 < b -> 0 < a -> a <= b.
Proof. intros. by apply Z.divide_pos_le. Qed.

Lemma whole_ios_small n : 0 < n <= IO_SIZE -> whole_ios n = IO_SIZE.
Proof.
  intros Hn. unfold whole_ios. pose proof IO_SIZE_bound. destruct (decide (n = IO_SIZE)) as [->|].
  - rewrite Z.mod_same by lia. cbn [Z.eqb negb]. rewrite u64_small; lia.
  - rewrite Z.mod_small by lia. destruct (Z.eqb_spec n 0); [lia|]. cbn [negb]. rewrite Z.sub_diag, !u64_small by (rewrite ?u64_small; lia). lia.
Qed.

(** ** Lists of bytes *)

Lemma zlen_sub {A} (l : list A) off n : 0 <= off -> 0 <= n -> off + n <= zlen l -> zlen (sub l off n) = n.
Proof. intros. unfold zlen, sub in *. rewrite length_take, length_drop. lia. Qed.
Lemma zlen_overwrite_inside {A} (l : list A) off d : 0 <= off -> off + zlen d <= zlen l -> zlen (overwrite l off d) = zlen l.
Proof. intros. unfold zlen in *. rewrite length_overwrite; [done|]. apply in_block_spec. lia. Qed.
Lemma in_range {A} (l : list A) off n : 0 <= off -> 0 <= n -> off + n <= zlen l -> in_block l off n = true.
Proof. intros. apply in_block_spec. unfold zlen in *. lia. Qed.

Lemma sub_app_right {A} (l k : list A) off n : zlen l <= off -> sub (l ++ k) off n = sub k (off - zlen l) n.
Proof.
  intros. unfold sub, zlen in *. rewrite drop_app_ge by lia. f_equal. f_equal. lia.
Qed.

Lemma sub_take {A} (l : list A) n off k : 0 <= off -> 0 <= k -> off + k <= n -> sub (take (Z.to_nat n) l) off k = sub l off k.
Proof.
  intros. unfold sub. rewrite skipn_firstn_comm, take_take. f_equal. lia.
Qed.

Lemma sub_all {A} (l : list A) n : zlen l <= n -> sub l 0 n = l.
Proof. intros. unfold sub, zlen in *. cbn [Z.to_nat]. rewrite drop_0. apply take_ge. lia. Qed.

(** ** Files in use *)

Section File.
Context {St : Type} `{ZoadStore St} {HS : ZoadStoreSpec St} (lp_id : Z -> Z).
Abbreviation O := (opened St).

(** What of a file was handed to the store. *)
Definition flushed (o : O) : bytes := default [] (handed (op_store o) (lp_id (zf_flag (op_file o))) (zf_key (op_file o))).

(** The file consists of the bytes [c]: full buffers went to the store, the rest is
    in the buffer. *)
Record keeps (c : bytes) (bs : Z) (o : O) : Prop := {
  ke_store : store_ok (op_store o);
  ke_flag : buf_size (zf_flag (op_file o)) = Some bs;
  ke_chunks : (bs | zlen (flushed o));
  ke_pos : 0 <= zf_buf_pos (op_file o) <= bs;
  ke_buf : exists b, zf_buf (op_file o) = Some b /\ zlen b = bs /\ c = flushed o ++ take (Z.to_nat (zf_buf_pos (op_file o))) b }.

(** Nothing but this file changed, and its copy of the last I/O did not. *)
Definition only_file (o o' : O) : Prop :=
  zf_use_read_buf (op_file o') = zf_use_read_buf (op_file o) /\
  zf_flag (op_file o') = zf_flag (op_file o) /\ zf_key (op_file o') = zf_key (op_file o) /\ zf_file_size (op_file o') = zf_file_size (op_file o) /\
  forall lp key, (lp, key) <> (lp_id (zf_flag (op_file o)), zf_key (op_file o)) -> handed (op_store o') lp key = handed (op_store o) lp key.

Lemma only_file_refl o : only_file o o.
Proof. by repeat split. Qed.
Lemma only_file_trans o1 o2 o3 : only_file o1 o2 -> only_file o2 o3 -> only_file o1 o3.
Proof.
  intros (A0 & A1 & A2 & A3 & A4) (B0 & B1 & B2 & B3 & B4). repeat split; [congruence..|]. intros lp key Hne. rewrite B4, A4; [done|done|]. by rewrite A1, A2.
Qed.

Lemma bs_facts c bs o : keeps c bs o -> (IO_SIZE | bs) /\ 0 < bs < 2 ^ 22.
Proof. intros Hk. apply (buf_size_facts _ _ (ke_flag _ _ _ Hk)). Qed.

Lemma run_file_buf_size {A} c bs o (k : Z -> prog O A) : keeps c bs o -> (x ← file_buf_size; k x) o = k bs o.
Proof. intros Hk. unfold file_buf_size, getf. erewrite bind_Ret; [reflexivity|]. rewrite bind_gets, (ke_flag _ _ _ Hk). done. Qed.

Lemma flushed_size c bs o : keeps c bs o -> zlen c = zlen (flushed o) + zf_buf_pos (op_file o).
Proof.
  intros [_ _ _ Hp (b & _ & Hb & ->)]. rewrite zlen_app. f_equal. unfold zlen in *. rewrite length_take. lia.
Qed.

(** A full buffer goes to the store; otherwise nothing happens. *)
Lemma flush_full c bs o : keeps c bs o -> zf_buf_pos (op_file o) = bs ->
  exists o', Flush_file_buffer lp_id o = Ret EnvOK o' /\ keeps c bs o' /\ only_file o o' /\ zf_buf_pos (op_file o') = 0 /\ flushed o' = c.
Proof.
  pose proof IO_SIZE_pos as HIO. intros Hk Hpos. pose proof (bs_facts _ _ _ Hk) as [Hdiv Hbs]. pose proof (flushed_size _ _ _ Hk) as Hlen.
  destruct Hk as [Hst Hflag Hch Hp (b & Hb & Hlb & Hc)]. destruct o as [f st]. cbn [op_file op_store] in *.
  rewrite Hpos in *. replace (take (Z.to_nat bs) b) with b in Hc by (symmetry; apply take_ge; unfold zlen in Hlb; lia).
  destruct (law_flush st (lp_id (zf_flag f)) (zf_key f) b) as (st' & Hrun & Hst' & Hhanded & Hothers); [done|lia|by rewrite Hlb|].
  unfold Flush_file_buffer, getf. rewrite bind_gets. unfold file_buf_size, getf. cbn [op_file]. rewrite Hpos.
  erewrite bind_Ret by (rewrite bind_gets; cbn [op_file]; rewrite Hflag; reflexivity). rewrite Z.leb_refl.
  rewrite (proj2 (Z.mod_divide bs IO_SIZE ltac:(lia)) Hdiv). cbn [Z.eqb negb].
  erewrite bind_Ret. 2:{ erewrite bind_Ret by reflexivity. unfold flush_bytes, get_buf, getf.
    erewrite bind_Ret by (rewrite bind_gets; cbn; rewrite Hb; reflexivity).
    erewrite bind_Ret by (unfold fetch; rewrite u32_small, in_range by lia; rewrite sub_all by lia; reflexivity).
    rewrite !bind_gets. erewrite bind_Ret by (apply zoom_Ret; exact Hrun). reflexivity. }
  eexists. split; [reflexivity|]. unfold flushed. cbn [op_file op_store set_zf_buf_pos zf_flag zf_key zf_buf zf_buf_pos store_lens set].
  assert (flushed (MkOpened (set_zf_buf_pos 0 f) st') = c) as Ef by (unfold flushed; cbn; by rewrite Hhanded, Hc).
  split; [split|split; [repeat split; [..|exact Hothers]; reflexivity|split; [reflexivity|exact Ef]]].
  - exact Hst'.
  - exact Hflag.
  - rewrite Ef, Hlen. apply Z.divide_add_r; [exact Hch|apply Z.divide_refl].
  - cbn. lia.
  - exists b. split; [done|]. split; [done|]. rewrite Ef. cbn. by rewrite app_nil_r.
Qed.

Lemma flush_partial c bs o : keeps c bs o -> zf_buf_pos (op_file o) < bs -> Flush_file_buffer lp_id o = Ret EnvOK o.
Proof.
  intros Hk Hpos. unfold Flush_file_buffer, getf. rewrite bind_gets. rewrite (run_file_buf_size _ _ _ _ Hk).
  destruct (Z.leb_spec bs (zf_buf_pos (op_file o))); [lia|done].
Qed.

(** The buffer takes what it has room for. *)
Lemma copy_part_ok c bs o data : keeps c bs o ->
  let k := Z.min (zlen data) (bs - zf_buf_pos (op_file o)) in
  exists o', copy_part data o = Ret (drop (Z.to_nat k) data) o' /\ keeps (c ++ take (Z.to_nat k) data) bs o' /\ only_file o o' /\
    zf_buf_pos (op_file o') = zf_buf_pos (op_file o) + k.
Proof.
  intros Hk k. pose proof (bs_facts _ _ _ Hk) as [_ Hbs]. destruct (ke_buf _ _ _ Hk) as (b & Hb & Hlb & Hc). pose proof (ke_pos _ _ _ Hk) as Hp.
  pose proof (zlen_nonneg data) as Hd.
  set (pos := zf_buf_pos (op_file o)) in *.
  assert (zlen (sub data 0 k) = k) as Hsub by (apply zlen_sub; lia).
  unfold copy_part. rewrite (run_file_buf_size _ _ _ _ Hk). unfold getf. rewrite bind_gets. fold pos.
  rewrite (u64_small (bs - pos)) by lia. fold k.
  erewrite bind_Ret. 2:{ unfold fill_buf, get_buf, getf. erewrite bind_Ret by (rewrite bind_gets, Hb; reflexivity). rewrite bind_gets. fold pos.
    erewrite bind_Ret by (unfold blit; rewrite in_range by (rewrite ?Hsub; lia); reflexivity). reflexivity. }
  erewrite bind_Ret by reflexivity. eexists. split; [reflexivity|]. rewrite u64_small by lia.
  destruct Hk as [Hst Hflag Hch _ _]. split; [split|split; [by repeat split|reflexivity]].
  - exact Hst.
  - exact Hflag.
  - exact Hch.
  - cbn. lia.
  - exists (overwrite b pos (sub data 0 k)). split; [reflexivity|]. split; [rewrite zlen_overwrite_inside; lia|].
    change (flushed _) with (flushed o). cbn [op_file set_zf_buf_pos zf_buf_pos set_zf_buf].
    replace (pos + k) with (pos + zlen (sub data 0 k)) by lia. rewrite take_overwrite by lia. rewrite Hc, <- app_assoc. reflexivity.
Qed.

Lemma write_unbuffered_ok bs fuel : forall c data o, keeps c bs o ->
  (length data + (if (zf_buf_pos (op_file o) =? bs)%Z then 2 else 1) <= fuel)%nat ->
  exists o', write_unbuffered_loop lp_id fuel data o = Ret tt o' /\ keeps (c ++ data) bs o' /\ only_file o o'.
Proof.
  induction fuel as [|fuel IH]; intros c data o Hk Hfuel; [destruct (_ =? _); lia|]. cbn [write_unbuffered_loop].
  destruct (Z.ltb_spec 0 (zlen data)) as [Hpos|Hz].
  2:{ assert (data = []) as -> by (destruct data; [done|unfold zlen in Hz; cbn in Hz; lia]). rewrite app_nil_r. exists o. split; [done|].
      split; [done|apply only_file_refl]. }
  pose proof (bs_facts _ _ _ Hk) as [_ Hbs]. pose proof (ke_pos _ _ _ Hk) as Hp.
  destruct (copy_part_ok c bs o data Hk) as (o1 & Hrun & Hk1 & Ho1 & Hp1). set (k := Z.min _ _) in *.
  erewrite bind_Ret by exact Hrun. unfold getf. rewrite bind_gets. rewrite (run_file_buf_size _ _ _ _ Hk1).
  assert (c ++ data = (c ++ take (Z.to_nat k) data) ++ drop (Z.to_nat k) data) as Ec by (by rewrite <- app_assoc, take_drop).
  assert (zlen (drop (Z.to_nat k) data) = zlen data - k) as Hdrop by (unfold zlen in *; rewrite length_drop; lia).
  destruct (Z.leb_spec bs (zf_buf_pos (op_file o1))) as [Hfull|Hroom].
  - destruct (flush_full _ bs o1 Hk1 ltac:(lia)) as (o2 & Hrun2 & Hk2 & Ho2 & Hp2 & _). cbn [when].
    erewrite bind_Ret by (erewrite bind_Ret by exact Hrun2; reflexivity).
    destruct (IH _ (drop (Z.to_nat k) data) o2 Hk2) as (o3 & Hrun3 & Hk3 & Ho3).
    { rewrite Hp2. destruct (Z.eqb_spec 0 bs); [lia|]. destruct (Z.eqb_spec (zf_buf_pos (op_file o)) bs); unfold zlen in *; lia. }
    exists o3. rewrite Ec. split; [exact Hrun3|]. split; [exact Hk3|]. exact (only_file_trans _ _ _ Ho1 (only_file_trans _ _ _ Ho2 Ho3)).
  - cbn [when]. erewrite bind_Ret by reflexivity.
    destruct (IH _ (drop (Z.to_nat k) data) o1 Hk1) as (o3 & Hrun3 & Hk3 & Ho3).
    { destruct (Z.eqb_spec (zf_buf_pos (op_file o1)) bs); [lia|]. destruct (Z.eqb_spec (zf_buf_pos (op_file o)) bs); unfold zlen in *; lia. }
    exists o3. rewrite Ec. split; [exact Hrun3|]. split; [exact Hk3|]. exact (only_file_trans _ _ _ Ho1 Ho3).
Qed.

(** [Append] appends. *)
Lemma Append_ok c bs o data : keeps c bs o -> zf_file_size (op_file o) = zlen c -> zlen (c ++ data) < 2 ^ 64 ->
  exists o', zf_Append lp_id data o = Ret EnvOK o' /\ keeps (c ++ data) bs o' /\ zf_file_size (op_file o') = zlen (c ++ data) /\
    only_file (MkOpened (set_zf_file_size (zlen (c ++ data)) (op_file o)) (op_store o)) o'.
Proof.
  intros Hk Hsize Hlt. pose proof (zlen_nonneg data). pose proof (zlen_nonneg c).
  set (o0 := MkOpened (set_zf_file_size (zlen (c ++ data)) (op_file o)) (op_store o)).
  assert (keeps c bs o0) as Hk0 by (destruct Hk; by split).
  unfold zf_Append, putf. erewrite bind_Ret by reflexivity. rewrite Hsize, <- zlen_app, u64_small by (rewrite zlen_app in *; lia). fold o0.
  destruct (copy_part_ok c bs o0 data Hk0) as (o1 & Hrun & Hk1 & Ho1 & Hp1). set (k := Z.min _ _) in *.
  pose proof (bs_facts _ _ _ Hk0) as [_ Hbs]. pose proof (ke_pos _ _ _ Hk0) as Hp.
  erewrite bind_Ret by exact Hrun.
  assert (c ++ data = (c ++ take (Z.to_nat k) data) ++ drop (Z.to_nat k) data) as Ec by (by rewrite <- app_assoc, take_drop).
  assert (zlen (drop (Z.to_nat k) data) = zlen data - k) as Hdrop by (unfold zlen in *; rewrite length_drop; lia).
  destruct (Z.eqb_spec (zlen (drop (Z.to_nat k) data)) 0) as [Hz|Hz].
  - assert (take (Z.to_nat k) data = data) as Et by (apply take_ge; unfold zlen in *; lia). rewrite Et in Hk1.
    exists o1. split; [done|]. split; [done|]. split; [|done]. by destruct Ho1 as (_ & _ & _ & -> & _).
  - destruct (flush_full _ bs o1 Hk1 ltac:(lia)) as (o2 & Hrun2 & Hk2 & Ho2 & Hp2 & _). erewrite bind_Ret by exact Hrun2.
    destruct (write_unbuffered_ok bs (length (drop (Z.to_nat k) data) + 2) _ (drop (Z.to_nat k) data) o2 Hk2)
      as (o3 & Hrun3 & Hk3 & Ho3); [destruct (_ =? _); lia|].
    exists o3. unfold WriteUnbuffered. erewrite bind_Ret by exact Hrun3. split; [done|]. rewrite <- Ec in Hk3.
    pose proof (only_file_trans _ _ _ Ho1 (only_file_trans _ _ _ Ho2 Ho3)) as Ho. split; [exact Hk3|]. split; [|exact Ho].
    by destruct Ho as (_ & _ & _ & -> & _).
Qed.

Lemma flushed_handed o : 0 < zlen (flushed o) -> handed (op_store o) (lp_id (zf_flag (op_file o))) (zf_key (op_file o)) = Some (flushed o).
Proof. unfold flushed. by destruct (handed _ _ _). Qed.

(** After [FlushBuffer] less than a buffer is missing in the store. *)
Lemma FlushBuffer_ok c bs o : keeps c bs o ->
  exists o', zf_FlushBuffer lp_id o = Ret EnvOK o' /\ keeps c bs o' /\ only_file o o' /\ zf_buf_pos (op_file o') < bs.
Proof.
  intros Hk. pose proof (ke_pos _ _ _ Hk) as Hp. pose proof (bs_facts _ _ _ Hk) as [_ Hbs].
  destruct (decide (zf_buf_pos (op_file o) = bs)) as [E|].
  - destruct (flush_full c bs o Hk E) as (o' & Hrun & Hk' & Ho & Hp' & _). exists o'. rewrite Hp'. repeat (split; [done|]). lia.
  - exists o. split; [eapply flush_partial; [done|lia]|]. split; [done|]. split; [apply only_file_refl|lia].
Qed.

Lemma Sync_ok c bs o : keeps c bs o -> zf_file_size (op_file o) = zlen c ->
  exists o', zf_Sync lp_id o = Ret EnvOK o' /\ keeps c bs o' /\ only_file o o' /\ zf_buf_pos (op_file o') < bs.
Proof.
  intros Hk Hsize. destruct (FlushBuffer_ok c bs o Hk) as (o1 & Hrun & Hk1 & Ho1 & Hp1). unfold zf_Sync.
  erewrite bind_Ret by exact Hrun. unfold getf. rewrite bind_gets, (run_file_buf_size _ _ _ _ Hk1).
  assert (zf_file_size (op_file o1) = zlen c) as -> by (by destruct Ho1 as (_ & _ & _ & -> & _)).
  destruct (Z.leb_spec bs (zlen c)) as [Hle|]; [|by exists o1].
  pose proof (flushed_size _ _ _ Hk1). destruct (law_sync (op_store o1) _ _ _ (ke_store _ _ _ Hk1) (flushed_handed o1 ltac:(lia)))
    as (st' & Hrun2 & Hst & Hsame).
  exists (MkOpened (op_file o1) st'). split.
  { cbn [when]. erewrite bind_Ret. 2:{ rewrite !bind_gets. erewrite bind_Ret by (apply zoom_Ret; exact Hrun2). reflexivity. } reflexivity. }
  assert (flushed (MkOpened (op_file o1) st') = flushed o1) as Ef by (unfold flushed; cbn; by rewrite Hsame).
  split; [|split; [|done]].
  - destruct Hk1 as [A B C D E]. by split; cbn [op_file op_store]; rewrite ?Ef.
  - eapply only_file_trans; [exact Ho1|]. repeat split. intros. cbn. apply Hsame.
Qed.

(** ** Reading *)

Lemma sub_overwrite_start {A} (b d : list A) k : 0 <= k <= zlen d -> zlen d <= zlen b -> sub (overwrite b 0 d) 0 k = sub d 0 k.
Proof.
  intros Hk Hd. unfold sub, overwrite, zlen in *. change (Z.to_nat 0) with 0%nat. rewrite take_0, !drop_0. cbn [app]. apply take_app_le. lia.
Qed.

(** The buffer part. *)
Lemma read_buffered c bs o offset n scratch : keeps c bs o -> zlen (flushed o) <= offset -> 0 < n -> offset + n <= zlen c -> n <= zlen scratch ->
  exists b, zf_buf (op_file o) = Some b /\
  (data ← fetch b (offset - zlen (flushed o)) n; blit scratch 0 data) o = Ret (overwrite scratch 0 (sub c offset n)) o.
Proof.
  intros Hk Hge Hn Hle Hs. pose proof (zlen_nonneg (flushed o)). pose proof (flushed_size _ _ _ Hk) as Hlen. destruct (ke_buf _ _ _ Hk) as (b & Hb & Hlb & Hc). pose proof (ke_pos _ _ _ Hk) as Hp.
  exists b. split; [done|]. erewrite bind_Ret by (unfold fetch; rewrite in_range by lia; reflexivity).
  assert (sub c offset n = sub b (offset - zlen (flushed o)) n) as <- by (rewrite Hc, sub_app_right, sub_take by lia; done).
  unfold blit. assert (zlen (sub c offset n) = n) as Hd by (apply zlen_sub; lia). by rewrite in_range by lia.
Qed.

(** What is still in the buffer is read from there: the store is not touched, and
    no more than the bytes asked for are stored to the caller's memory. *)
Lemma Read_buffered c bs o offset n scratch : keeps c bs o -> zf_file_size (op_file o) = zlen c -> zlen c < 2 ^ 64 ->
  zlen (flushed o) <= offset <= zlen c -> 0 <= n <= zlen scratch ->
  zf_Read lp_id offset n scratch o = Ret (EnvOK, Some (sub c offset n), overwrite scratch 0 (sub c offset n)) o.
Proof.
  intros Hk Hsize Hc Hoff Hn. pose proof (flushed_size _ _ _ Hk) as Hlen. pose proof (ke_pos _ _ _ Hk) as Hp. pose proof (zlen_nonneg (flushed o)).
  unfold zf_Read, getf. rewrite bind_gets, Hsize. destruct (Z.ltb_spec (zlen c) offset); [lia|]. rewrite (u64_small (zlen c - offset)) by lia.
  set (m := if zlen c - offset <? n then zlen c - offset else n). assert (m = Z.min n (zlen c - offset)) as Em by (unfold m; destruct (Z.ltb_spec (zlen c - offset) n); lia).
  assert (sub c offset n = sub c offset m) as ->.
  { rewrite Em. unfold sub. destruct (Z.min_spec n (zlen c - offset)) as [[? ->]|[? ->]]; [done|]. rewrite !take_ge; [done|rewrite length_drop; unfold zlen in *; lia..]. }
  assert (zlen (sub c offset m) = m) as Hm by (apply zlen_sub; lia).
  destruct (Z.eqb_spec m 0) as [Hz|Hnz]; [by rewrite Hz|]. rewrite bind_gets. rewrite (u64_small (zlen c - _)), (u64_small (offset + m)) by lia.
  replace (zlen c - zf_buf_pos (op_file o)) with (zlen (flushed o)) by lia.
  destruct (read_buffered c bs o offset m scratch Hk ltac:(lia) ltac:(lia) ltac:(lia) ltac:(lia)) as (b & Hb & Hrun).
  erewrite bind_Ret. 2:{ unfold get_buf, getf. destruct (Z.eqb_spec (zlen c) (zf_buf_pos (op_file o))).
    - erewrite bind_Ret by (rewrite bind_gets, Hb; reflexivity). replace offset with (offset - zlen (flushed o)) at 1 by lia. exact Hrun.
    - rewrite (proj2 (Z.leb_le _ _)), (proj2 (Z.ltb_ge _ _)) by lia. erewrite bind_Ret by (rewrite bind_gets, Hb; reflexivity).
      rewrite (u64_small (offset - _)) by lia. exact Hrun. }
  unfold fetch. rewrite in_range by (rewrite ?zlen_overwrite_inside; lia). erewrite bind_Ret by reflexivity. by rewrite sub_overwrite_start, sub_all by lia.
Qed.
End File.
