(* ===== verification/EnvZoadThms.v ===== *)
(** The RocksDB environment over the store: what is appended to a file is handed to
    the store or still in the file's buffer, and where the environment loses data
    or memory. *)
From S2P Require Import Prelude Nvme Bits Coding IoStatus AlignedBuffer EnvZoad EnvZoadSpec.
From stdpp Require Import base numbers list gmap strings pretty.
From Stdlib Require Import ZArith Lia.
Local Open Scope Z_scope.
#[local] Opaque IO_SIZE.

(** ** Files of the environment *)

(** The calls on a [WritableFile]. *)
Inductive file_call := CallAppend (data : bytes) | CallFlush | CallSync | CallClose.

Definition appended_by (call : file_call) : bytes := match call with CallAppend d => d | _ => [] end.

Section Env.
Context {St : Type} `{ZoadStore St} {HS : ZoadStoreSpec St} (lp_id : Z -> Z).
Abbreviation Env := (ZoadEnv St).

Definition file_call_prog (p : nat) (call : file_call) : prog Env EnvStatus :=
  match call with
  | CallAppend d => writable_Append lp_id p d
  | CallFlush => writable_Flush lp_id p
  | CallSync => writable_Sync lp_id p
  | CallClose => writable_Close lp_id p
  end.

Fixpoint run_calls (p : nat) (calls : list file_call) : prog Env (list EnvStatus) :=
  match calls with
  | [] => mret []
  | call :: calls => s ← file_call_prog p call; ss ← run_calls p calls; mret (s :: ss)
  end.

(** The file at [p] has the name [fname] and the bytes [c]. *)
Record in_use (bs : Z) (fname : string) (p : nat) (f : ZoadFile) (c : bytes) (e : Env) : Prop := {
  iu_name : file_map_ e !! fname = Some p;
  iu_file : env_files e !! p = Some f;
  iu_keeps : keeps lp_id c bs (MkOpened f (env_store e));
  iu_size : zf_file_size f = zlen c }.

(** The environment after a call on the file. *)
Definition put_back (p : nat) (o : opened St) (e : Env) : Env :=
  MkZoadEnv (file_map_ e) (<[p := op_file o]> (env_files e)) (global_key e) (locked_files_ e) (op_store o).

Lemma on_zoad_file_Ret {A} p f (m : prog (opened St) A) e a o : env_files e !! p = Some f -> m (MkOpened f (env_store e)) = Ret a o ->
  on_zoad_file p m e = Ret a (put_back p o e).
Proof. intros Hf Hm. unfold on_zoad_file. by rewrite Hf, Hm. Qed.

Lemma put_back_in_use bs fname p f c e c' o : in_use bs fname p f c e -> keeps lp_id c' bs o -> zf_file_size (op_file o) = zlen c' ->
  in_use bs fname p (op_file o) c' (put_back p o e).
Proof.
  intros [Hn Hf _ _] Hk Hs. split; [done| |by destruct o|done]. cbn. apply list_lookup_insert_eq. by eapply lookup_lt_Some.
Qed.

(** Only this file's bytes in the store changed. *)
Definition elsewhere (f : ZoadFile) (e e' : Env) : Prop :=
  forall lp key, (lp, key) <> (lp_id (zf_flag f), zf_key f) -> handed (env_store e') lp key = handed (env_store e) lp key.

Lemma put_back_same p f e : env_files e !! p = Some f -> put_back p (MkOpened f (env_store e)) e = e.
Proof. intros Hf. destruct e. unfold put_back. cbn in *. by rewrite list_insert_id. Qed.

Lemma file_call_ok bs fname p f c e call : in_use bs fname p f c e -> zlen (c ++ appended_by call) < 2 ^ 64 ->
  exists f' e', file_call_prog p call e = Ret EnvOK e' /\ in_use bs fname p f' (c ++ appended_by call) e' /\
    zf_flag f' = zf_flag f /\ zf_key f' = zf_key f /\ zf_use_read_buf f' = zf_use_read_buf f /\ elsewhere f e e'.
Proof.
  intros Hu Hlt. pose proof (iu_keeps _ _ _ _ _ _ Hu) as Hk. pose proof (iu_size _ _ _ _ _ _ Hu) as Hs. pose proof (iu_file _ _ _ _ _ _ Hu) as Hf.
  assert (forall m o', m (MkOpened f (env_store e)) = Ret EnvOK o' -> keeps lp_id c bs o' -> only_file lp_id (MkOpened f (env_store e)) o' ->
    exists f' e', on_zoad_file p m e = Ret EnvOK e' /\ in_use bs fname p f' c e' /\
    zf_flag f' = zf_flag f /\ zf_key f' = zf_key f /\ zf_use_read_buf f' = zf_use_read_buf f /\ elsewhere f e e') as Hsame.
  { intros m o' Hm Hk' (H0 & H1 & H2 & H3 & H4). exists (op_file o'), (put_back p o' e). split; [by apply (on_zoad_file_Ret p f)|].
    split; [|done]. apply (put_back_in_use bs fname p f c); [done|done|]. rewrite H3. exact Hs. }
  destruct call as [d| | |]; cbn [file_call_prog appended_by] in *.
  - destruct (Append_ok lp_id c bs _ d Hk Hs Hlt) as (o' & Hm & Hk' & Hs' & (H0 & H1 & H2 & _ & H4)).
    exists (op_file o'), (put_back p o' e). split; [by apply (on_zoad_file_Ret p f)|]. split; [by apply (put_back_in_use bs fname p f c)|done].
  - rewrite app_nil_r in *. destruct (FlushBuffer_ok lp_id c bs _ Hk) as (o' & Hm & Hk' & Ho & _). by eapply Hsame.
  - rewrite app_nil_r in *. destruct (Sync_ok lp_id c bs _ Hk Hs) as (o' & Hm & Hk' & Ho & _). by eapply Hsame.
  - rewrite app_nil_r in *. destruct (FlushBuffer_ok lp_id c bs _ Hk) as (o' & Hm & Hk' & Ho & _). by eapply Hsame.
Qed.

Definition written (calls : list file_call) : bytes := concat (appended_by <$> calls).

Lemma run_calls_ok bs fname p calls : forall f c e, in_use bs fname p f c e ->
  zlen (c ++ written calls) < 2 ^ 64 ->
  exists f' e', run_calls p calls e = Ret (replicate (length calls) EnvOK) e' /\ in_use bs fname p f' (c ++ written calls) e' /\
    zf_flag f' = zf_flag f /\ zf_key f' = zf_key f /\ zf_use_read_buf f' = zf_use_read_buf f /\ elsewhere f e e'.
Proof.
  induction calls as [|call calls IH]; intros f c e Hu Hlt.
  { exists f, e. cbn. by rewrite app_nil_r. }
  change (written (call :: calls)) with (appended_by call ++ written calls) in *. rewrite app_assoc in *.
  pose proof (zlen_nonneg (written calls)). rewrite zlen_app in Hlt.
  destruct (file_call_ok bs fname p f c e call Hu ltac:(lia)) as (f1 & e1 & Hrun & Hu1 & A1 & A2 & A3 & A4).
  destruct (IH f1 _ e1 Hu1) as (f2 & e2 & Hrun2 & Hu2 & B1 & B2 & B3 & B4); [by rewrite zlen_app|].
  exists f2, e2. split; [|split; [done|split; [congruence|split; [congruence|split; [congruence|]]]]].
  2:{ intros lp key Hne. rewrite B4, A4; [done|done|by rewrite A1, A2]. }
  cbn [run_calls]. erewrite bind_Ret by exact Hrun. by erewrite bind_Ret by exact Hrun2.
Qed.

(** [new char[n]] gives [n] bytes. *)
Definition allocates (junk : Z -> bytes) : Prop := forall n, 0 <= n -> zlen (junk n) = n.

(** The key of the next file is not in use in the store. *)
Definition fresh_key (flag : Z) (e : Env) : Prop := handed (env_store e) (lp_id flag) (pretty (Z.to_N (global_key e))) = None.

Lemma create_ok junk fname level flag bs e : allocates junk -> store_ok (env_store e) -> file_map_ e !! fname = None -> buf_size flag = Some bs ->
  fresh_key flag e ->
  exists p f e', NewWritableFile lp_id junk fname level flag e = Ret p e' /\ in_use bs fname p f [] e' /\
    zf_flag f = flag /\ zf_key f = pretty (Z.to_N (global_key e)) /\ zf_use_read_buf f = false /\ forall lp key, handed (env_store e') lp key = handed (env_store e) lp key.
Proof.
  intros Hj Hst Hn Hbs Hfresh. pose proof (buf_size_facts _ _ Hbs) as [_ Hpos].
  exists (length (env_files e)), (MkZoadFile fname (pretty (Z.to_N (global_key e))) flag level 0 (Some (junk bs)) 0 (IsManifest fname) (junk IO_SIZE) 0 false).
  eexists. split.
  { unfold NewWritableFile. rewrite bind_gets, Hn. erewrite bind_Ret by reflexivity. unfold create_file. rewrite bind_gets.
    unfold new_ZoadFile. rewrite Hbs. reflexivity. }
  split; [|done]. unfold fresh_key in Hfresh.
  assert (forall f st, handed st (lp_id (zf_flag f)) (zf_key f) = None -> flushed lp_id (MkOpened f st) = []) as Hfl by (intros f st E; unfold flushed; cbn; by rewrite E).
  split; cbn [file_map_ env_files env_store zf_file_size].
  - apply lookup_insert_eq.
  - rewrite lookup_app_r by lia. by rewrite Nat.sub_diag.
  - split; cbn [op_file op_store zf_flag zf_buf_pos zf_buf].
    + exact Hst.
    + exact Hbs.
    + rewrite Hfl by exact Hfresh. apply Z.divide_0_r.
    + lia.
    + eexists. split; [reflexivity|]. split; [apply Hj; lia|]. rewrite Hfl by exact Hfresh. reflexivity.
  - done.
Qed.

(** ** What is handed over *)

(** C5. Nothing of a file is lost on the way to the store.  A file is created and
    written with any appends, flushes, syncs and closings; all calls succeed.
    Then the bytes handed to the store under the key of the file, in whole
    buffers, followed by the bytes in the buffer of the file are exactly the bytes
    that were appended; nothing was handed over under another key; the size of
    the file is right; and a read from behind the bytes handed over gives the
    bytes of the file, without a call to the store and with memory of the caller
    for the bytes asked for only.  Nothing is said about when the store carries
    out what it was handed, nor about reads of that part. *)
Theorem appends_handed_or_buffered junk fname level flag bs calls e :
  let key := pretty (Z.to_N (global_key e)) in
  allocates junk -> store_ok (env_store e) -> file_map_ e !! fname = None -> buf_size flag = Some bs -> fresh_key flag e -> zlen (written calls) < 2 ^ 64 ->
  exists p e1 e2 f b, NewWritableFile lp_id junk fname level flag e = Ret p e1 /\
    run_calls p calls e1 = Ret (replicate (length calls) EnvOK) e2 /\
    env_files e2 !! p = Some f /\ zf_buf f = Some b /\ zlen b = bs /\ 0 <= zf_buf_pos f <= bs /\
    let h := default [] (handed (env_store e2) (lp_id flag) key) in
    h ++ take (Z.to_nat (zf_buf_pos f)) b = written calls /\ (bs | zlen h) /\
    (forall lp' key', (lp', key') <> (lp_id flag, key) -> handed (env_store e2) lp' key' = handed (env_store e) lp' key') /\
    env_GetFileSize fname e2 = Ret (EnvOK, Some (zlen (written calls))) e2 /\
    NewRandomAccessFile fname e2 = Ret (EnvOK, Some p) e2 /\
    forall offset n scratch, zlen h <= offset <= zlen (written calls) -> 0 <= n <= zlen scratch ->
      random_Read lp_id p offset n scratch e2 =
        Ret (EnvOK, Some (sub (written calls) offset n), overwrite scratch 0 (sub (written calls) offset n)) e2.
Proof.
  intros key Hj Hst Hn Hbs Hfresh Hlt.
  destruct (create_ok junk fname level flag bs e Hj Hst Hn Hbs Hfresh) as (p & f1 & e1 & Hnew & Hu & Hflag & Hkey & _ & Hkept).
  destruct (run_calls_ok _ _ _ calls _ _ _ Hu Hlt) as (f & e2 & Hrun & Hu2 & A1 & A2 & _ & Hothers). cbn [app] in Hu2.
  unfold elsewhere in Hothers. rewrite Hflag in A1, Hothers. rewrite Hkey in A2, Hothers. fold key in A2, Hothers. pose proof (iu_keeps _ _ _ _ _ _ Hu2) as Hk.
  destruct (ke_buf _ _ _ _ Hk) as (b & Hb & Hlb & Hc). pose proof (ke_pos _ _ _ _ Hk) as Hp. pose proof (ke_chunks _ _ _ _ Hk) as Hch.
  unfold flushed in Hc, Hch. cbn [op_file op_store] in *. rewrite A1, A2 in Hc, Hch.
  exists p, e1, e2, f, b. split; [done|]. split; [done|]. split; [apply Hu2|]. split; [done|]. split; [done|]. split; [done|]. cbv zeta.
  split; [done|]. split; [done|]. split; [intros lp' key' Hne; by rewrite Hothers, Hkept|].
  pose proof (put_back_same p f e2 (iu_file _ _ _ _ _ _ Hu2)) as Hback.
  split; [|split].
  - unfold env_GetFileSize. rewrite bind_gets, (iu_name _ _ _ _ _ _ Hu2). erewrite bind_Ret by (apply (on_zoad_file_Ret p f); [apply Hu2|reflexivity]).
    rewrite Hback. cbn [op_file]. by rewrite (iu_size _ _ _ _ _ _ Hu2).
  - unfold NewRandomAccessFile. by rewrite bind_gets, (iu_name _ _ _ _ _ _ Hu2).
  - intros offset n scratch Hoff Hsn. unfold random_Read. rewrite <- Hback at 2. apply (on_zoad_file_Ret p f); [apply Hu2|].
    apply (Read_buffered lp_id _ bs); [done|apply Hu2|done| |done]. unfold flushed. cbn [op_file op_store]. rewrite A1, A2. exact Hoff.
Qed.

(** ** What closing leaves behind *)

Lemma run_calls_snoc p calls call e ss e1 s e2 : run_calls p calls e = Ret ss e1 -> file_call_prog p call e1 = Ret s e2 ->
  run_calls p (calls ++ [call]) e = Ret (ss ++ [s]) e2.
Proof.
  revert e ss. induction calls as [|c calls IH]; intros e ss; cbn [run_calls app].
  - intros [= <- <-] Hc. by erewrite bind_Ret by exact Hc.
  - intros (s1 & e0 & H1 & H2)%bind_Ret_inv Hc. apply bind_Ret_inv in H2 as (ss1 & e0' & H2 & [= <- <-]).
    erewrite bind_Ret by exact H1. by erewrite bind_Ret by (apply IH; [exact H2|exact Hc]).
Qed.

(** Less than a buffer was not handed over: which bytes were. *)
Lemma flushed_prefix c bs o : keeps lp_id c bs o -> zf_buf_pos (op_file o) < bs -> flushed lp_id o = take (Z.to_nat (bs * (zlen c / bs))) c.
Proof.
  intros Hk Hp. pose proof (flushed_size lp_id _ _ _ Hk) as Hlen. pose proof (bs_facts lp_id _ _ _ Hk) as [_ Hbs]. pose proof (ke_pos _ _ _ _ Hk) as Hpos.
  destruct (ke_chunks _ _ _ _ Hk) as [n Hn]. destruct (ke_buf _ _ _ _ Hk) as (b & _ & _ & Hc).
  assert (zlen c / bs = n) as -> by (symmetry; apply (Z.div_unique _ _ n (zf_buf_pos (op_file o))); lia).
  rewrite Hc. rewrite take_app_length'; [done|]. unfold zlen in *. lia.
Qed.

(** C36. Closing a file does not write it.  After any calls, a [Sync] and a [Close],
    all of which report success, the full buffers of the file were handed to the
    store and nothing else: the bytes behind the last multiple of the buffer size
    are nowhere but in the memory of the process. *)
Theorem close_keeps_tail_in_memory junk fname level flag bs calls e :
  allocates junk -> store_ok (env_store e) -> file_map_ e !! fname = None -> buf_size flag = Some bs -> fresh_key flag e ->
  zlen (written calls) < 2 ^ 64 ->
  exists p e1 e2, NewWritableFile lp_id junk fname level flag e = Ret p e1 /\
    run_calls p (calls ++ [CallSync; CallClose]) e1 = Ret (replicate (length (calls ++ [CallSync; CallClose])) EnvOK) e2 /\
    default [] (handed (env_store e2) (lp_id flag) (pretty (Z.to_N (global_key e)))) =
      take (Z.to_nat (bs * (zlen (written calls) / bs))) (written calls).
Proof.
  intros Hj Hst Hn Hbs Hfresh Hlt. destruct (create_ok junk fname level flag bs e Hj Hst Hn Hbs Hfresh) as (p & f & e1 & Hnew & Hu & Hflag & Hkey & _).
  assert (written (calls ++ [CallSync]) = written calls) as Ew by (unfold written; by rewrite fmap_app, concat_app, app_nil_r).
  destruct (run_calls_ok _ _ _ (calls ++ [CallSync]) _ _ _ Hu) as (f2 & e2 & Hrun & Hu2 & A1 & A2 & _); [by rewrite Ew|].
  rewrite Ew in Hu2. cbn [app] in Hu2.
  destruct (FlushBuffer_ok lp_id _ bs _ (iu_keeps _ _ _ _ _ _ Hu2)) as (o' & Hm & Hk' & (_ & B1 & B2 & _) & Hp).
  exists p, e1, (put_back p o' e2). split; [exact Hnew|]. split.
  - change [CallSync; CallClose] with ([CallSync] ++ [CallClose]). rewrite app_assoc, (length_app (calls ++ _)), replicate_add.
    eapply run_calls_snoc; [exact Hrun|]. apply (on_zoad_file_Ret p f2); [apply Hu2|exact Hm].
  - rewrite <- (flushed_prefix _ _ _ Hk' Hp). unfold flushed. cbn [put_back env_store op_file] in *. by rewrite B1, B2, A1, A2, Hflag, Hkey.
Qed.

(** ** Memory *)

(** Reads of what went to the store write beyond the memory of the caller.  A read
    of fewer bytes than an I/O, from the start of a file of which something went to
    the store and nothing was read yet, loads a whole I/O: with memory for the
    bytes that were asked for, as the interface promises to need, it is undefined
    as soon as the load stores as many bytes as it is asked for. *)
Theorem short_read_overflows bs fname p f c e n scratch : in_use bs fname p f c e -> zlen c < 2 ^ 64 ->
  (exists r d st', store_load env_uid (lp_id (zf_flag f)) (zf_key f) 0 IO_SIZE (env_store e) = Ret (r, d) st' /\ zlen d = IO_SIZE) ->
  zf_use_read_buf f = false -> bs < zlen c -> 0 < n <= zlen scratch -> zlen scratch < IO_SIZE -> random_Read lp_id p 0 n scratch e = UB.
Proof.
  pose proof IO_SIZE_bound as HIO. intros Hu Hc (r & d & st' & Hrun & Hd) Huse Hbig Hn Hs. pose proof (iu_keeps _ _ _ _ _ _ Hu) as Hk. pose proof (iu_size _ _ _ _ _ _ Hu) as Hsize.
  set (o := MkOpened f (env_store e)) in *. pose proof (flushed_size lp_id _ _ _ Hk) as Hlen. pose proof (bs_facts lp_id _ _ _ Hk) as [Hdiv Hbs].
  pose proof (ke_pos _ _ _ _ Hk) as Hp.
  change (op_file o) with f in Hlen, Hp.
  pose proof IO_SIZE_pos. assert (IO_SIZE <= bs) by (apply multiple_le; [done|lia|lia]). assert (bs <= zlen (flushed lp_id o)) by (apply multiple_le; [apply Hk|lia|lia]).
  unfold random_Read, on_zoad_file. rewrite (iu_file _ _ _ _ _ _ Hu). fold o.
  unfold zf_Read, getf. rewrite bind_gets. change (op_file o) with f. rewrite Hsize, Z.sub_0_r, Z.add_0_l. rewrite (u64_small (zlen c)) by lia.
  destruct (Z.ltb_spec (zlen c) 0); [lia|]. destruct (Z.ltb_spec (zlen c) n); [lia|]. destruct (Z.eqb_spec n 0); [lia|].
  rewrite bind_gets. change (op_file o) with f. destruct (Z.eqb_spec (zlen c) (zf_buf_pos f)); [lia|].
  replace (zlen c - zf_buf_pos f) with (zlen (flushed lp_id o)) by lia. rewrite !u64_small by lia.
  destruct (Z.leb_spec (zlen (flushed lp_id o)) 0); [lia|]. destruct (Z.leb_spec n (zlen (flushed lp_id o))); [|lia].
  erewrite bind_UB; [done|]. unfold read_stored, getf. rewrite !bind_gets. change (op_file o) with f. rewrite Huse. unfold load_and_keep.
  apply bind_UB. unfold load_into, getf. rewrite !bind_gets. rewrite whole_ios_small, !u32_small by lia.
  erewrite bind_Ret by (apply zoom_Ret; exact Hrun). cbv beta iota. unfold blit.
  destruct (in_block scratch 0 _) eqn:E; [|done]. apply in_block_spec in E. unfold zlen in *. lia.
Qed.

(** A file that was deleted is still written to.  After [DeleteFile] the handles
    that were given out before point to a file whose buffer was freed; an append
    through one of them writes to freed memory. *)
Theorem deleted_file_is_written junk fname level flag bs e d : file_map_ e !! fname = None -> buf_size flag = Some bs ->
  exists p e1 e2, NewWritableFile lp_id junk fname level flag e = Ret p e1 /\ env_DeleteFile lp_id fname e1 = Ret EnvOK e2 /\
    writable_Append lp_id p d e2 = UB.
Proof.
  intros Hn Hbs. pose proof (buf_size_facts _ _ Hbs) as [_ Hpos]. exists (length (env_files e)). do 2 eexists. split; [|split].
  - unfold NewWritableFile. rewrite bind_gets, Hn. erewrite bind_Ret by reflexivity. unfold create_file. rewrite bind_gets.
    unfold new_ZoadFile. rewrite Hbs. reflexivity.
  - set (f := MkZoadFile _ _ _ _ _ _ _ _ _ _ _). unfold env_DeleteFile. rewrite bind_gets. cbn [file_map_]. rewrite lookup_insert_eq.
    erewrite bind_Ret; [reflexivity|]. unfold DeleteFileInternal. rewrite bind_gets. cbn [file_map_]. rewrite lookup_insert_eq.
    erewrite bind_Ret; [reflexivity|]. apply (on_zoad_file_Ret _ f); [cbn; rewrite lookup_app_r by lia; by rewrite Nat.sub_diag|].
    unfold zf_Delete, getf. rewrite bind_gets. unfold file_buf_size, getf. erewrite bind_Ret by (rewrite bind_gets; cbn; rewrite Hbs; reflexivity).
    rewrite bind_gets. cbn [op_file f zf_file_size zf_buf_pos]. destruct (Z.ltb_spec bs 0); [lia|]. destruct (Z.leb_spec bs 0); [lia|]. reflexivity.
  - unfold writable_Append, on_zoad_file. cbn [put_back env_files op_file set_file_map]. rewrite list_lookup_insert_eq by (rewrite length_app; cbn; lia).
    unfold zf_Append, putf. erewrite bind_Ret by reflexivity. erewrite bind_UB; [done|]. unfold copy_part, file_buf_size, getf.
    erewrite bind_Ret by (rewrite bind_gets; cbn; rewrite Hbs; reflexivity). rewrite bind_gets. apply bind_UB. unfold fill_buf. by apply bind_UB.
Qed.

(** Renaming a file to its own name makes it disappear. *)
Lemma rename_to_itself_removes src p f (e : Env) : file_map_ e !! src = Some p -> env_files e !! p = Some f ->
  exists e', RenameFile src src e = Ret EnvOK e' /\ file_map_ e' !! src = None.
Proof.
  intros Hn Hf. eexists. split.
  - unfold RenameFile. rewrite bind_gets, Hn. erewrite bind_Ret by (apply (on_zoad_file_Ret p f); [done|reflexivity]). reflexivity.
  - cbn. apply lookup_delete_eq.
Qed.
End Env.

(** ** A store in memory *)

(** Flushes are queued; loads see what was carried out, which no call waits for. *)
Record memory_store := MkMemoryStore { mem_done : list (Z * string * bytes); mem_queue : list (Z * string * bytes) }.

Definition under (lp : Z) (key : string) (x : Z * string * bytes) : Prop := x.1 = (lp, key).
#[export] Instance under_dec lp key x : Decision (under lp key x) := decide (x.1 = (lp, key)).

#[export] Instance memory_zoad : ZoadStore memory_store := {
  store_flush _ lp key data := fun s => Ret 0 (MkMemoryStore (mem_done s) (mem_queue s ++ [(lp, key, data)]));
  store_load _ lp key offset size := fun s =>
    let c := concat (filter (under lp key) (mem_done s)).*2 in
    if in_block c offset size then Ret (0, sub c offset size) s else Exit s;
  store_sync _ lp key := fun s => Ret 0 s;
  store_del _ lp key := fun s =>
    Ret 0 (MkMemoryStore (filter (fun x => ~ under lp key x) (mem_done s)) (filter (fun x => ~ under lp key x) (mem_queue s))) }.

Definition mem_handed (s : memory_store) (lp : Z) (key : string) : option bytes :=
  match filter (under lp key) (mem_done s ++ mem_queue s) with [] => None | l => Some (concat l.*2) end.

Lemma mem_handed_default s lp key : default [] (mem_handed s lp key) = concat (filter (under lp key) (mem_done s ++ mem_queue s)).*2.
Proof. unfold mem_handed. by destruct (filter _ _). Qed.

#[export, program] Instance memory_zoad_spec : ZoadStoreSpec memory_store := { store_ok _ := True; handed := mem_handed }.
Next Obligation.
  intros st lp key data _ _ _. eexists. split; [reflexivity|]. split; [done|]. rewrite mem_handed_default. unfold mem_handed. cbn [mem_done mem_queue].
  split.
  - rewrite app_assoc, filter_app, (filter_cons_True _ (lp, key, data)) by done. cbn [filter list_filter].
    destruct (filter _ (_ ++ _)) as [|x l]; cbn [app fmap list_fmap concat snd]; [by rewrite app_nil_r|].
    by rewrite <- app_assoc, fmap_app, concat_app; cbn [fmap list_fmap concat snd]; rewrite app_nil_r.
  - intros lp' key' Hne. rewrite app_assoc, filter_app, (filter_cons_False _ (lp, key, data)) by (intros [= <- <-]; done). by rewrite app_nil_r.
Qed.
Next Obligation. intros st lp key c _ _. by exists st. Qed.

(** ** Examples *)

Definition small_data : bytes := [Byte.x7a; Byte.x6f; Byte.x61; Byte.x64].
Definition big_data : bytes := replicate (Z.to_nat 800000) Byte.x61.
Definition blank (n : Z) : bytes := replicate (Z.to_nat n) Byte.x00.
Definition empty_env : ZoadEnv memory_store := new_ZoadEnv (MkMemoryStore [] []).
Definition example_calls : list file_call := [CallAppend small_data; CallSync; CallAppend big_data; CallFlush; CallAppend small_data; CallClose].

Lemma blank_allocates : allocates blank.
Proof. intros n Hn. unfold zlen, blank. rewrite length_replicate. lia. Qed.

Lemma example_size : zlen (written example_calls) = 800008.
Proof. by vm_compute. Qed.

Lemma example_tail : sub (written example_calls) 800004 4 = small_data.
Proof. by vm_compute. Qed.

Lemma appends_handed_or_buffered_witness : exists p e1 e2,
  NewWritableFile (fun _ => 1) blank "/db/000003.log" 0 0 empty_env = Ret p e1 /\
  run_calls (fun _ => 1) p example_calls e1 = Ret (replicate 6 EnvOK) e2 /\
  zlen (default [] (handed (env_store e2) 1 "0")) = IO_SIZE * 4 /\
  random_Read (fun _ => 1) p 800004 4 (blank 4) e2 = Ret (EnvOK, Some small_data, small_data) e2.
Proof.
  pose proof example_size as Hsize. pose proof example_tail as Htail.
  destruct (appends_handed_or_buffered (fun _ => 1) blank "/db/000003.log" 0 0 (IO_SIZE * 4) example_calls empty_env)
    as (p & e1 & e2 & f & b & Hnew & Hrun & _ & _ & Hb & Hp & Hsum & [q Hq] & _ & _ & _ & Hread).
  - exact blank_allocates.
  - exact I.
  - reflexivity.
  - reflexivity.
  - reflexivity.
  - rewrite Hsize. reflexivity.
  - exists p, e1, e2. split; [exact Hnew|]. split; [exact Hrun|].
    change (pretty (Z.to_N (global_key empty_env))) with "0"%string in Hsum, Hq, Hread.
    assert (zlen (default [] (handed (env_store e2) 1 "0")) = IO_SIZE * 4) as Hh.
    { assert (IO_SIZE * 4 = 786432) as E by reflexivity. rewrite E in *. apply (f_equal zlen) in Hsum. rewrite Hsize, zlen_app in Hsum.
      assert (zlen (take (Z.to_nat (zf_buf_pos f)) b) = zf_buf_pos f) by (unfold zlen in *; rewrite length_take; lia).
      lia. }
    split; [exact Hh|]. assert (IO_SIZE * 4 = 786432) as E by reflexivity. rewrite Hh, Hsize, E in Hread.
    specialize (Hread 800004 4 (blank 4)). rewrite Htail in Hread. apply Hread; [lia|split; [lia|reflexivity]].
Defined.

Lemma close_keeps_tail_in_memory_witness : exists p e1 e2,
  NewWritableFile (fun _ => 1) blank "/db/000005.ldb" 2 1 empty_env = Ret p e1 /\
  run_calls (fun _ => 1) p [CallAppend small_data; CallSync; CallClose] e1 = Ret [EnvOK; EnvOK; EnvOK] e2 /\
  default [] (handed (env_store e2) 1 "0") = [].
Proof.
  destruct (close_keeps_tail_in_memory (fun _ => 1) blank "/db/000005.ldb" 2 1 (IO_SIZE * 12) [CallAppend small_data] empty_env) as (p & e1 & e2 & H1 & H2 & H3).
  - exact blank_allocates.
  - exact I.
  - reflexivity.
  - reflexivity.
  - reflexivity.
  - done.
  - exists p, e1, e2. split; [exact H1|]. split; [exact H2|]. exact H3.
Defined.

(** The worker catches up. *)
Definition carry_out (s : memory_store) : memory_store := MkMemoryStore (mem_done s ++ mem_queue s) [].
Definition caught_up (e : ZoadEnv memory_store) : ZoadEnv memory_store :=
  MkZoadEnv (file_map_ e) (env_files e) (global_key e) (locked_files_ e) (carry_out (env_store e)).

Lemma in_use_caught_up lp bs fname p f c e : in_use lp bs fname p f c e -> in_use lp bs fname p f c (caught_up e).
Proof.
  intros [Hn Hf Hk Hs]. assert (forall lp' key, mem_handed (carry_out (env_store e)) lp' key = mem_handed (env_store e) lp' key) as E
    by (intros; unfold mem_handed; cbn [carry_out mem_done mem_queue]; by rewrite app_nil_r).
  assert (flushed lp (MkOpened f (carry_out (env_store e))) = flushed lp (MkOpened f (env_store e))) as Ef by (unfold flushed; cbn; by rewrite E).
  split; [done..| |done]. destruct Hk as [A B C D F]. cbn [caught_up env_store]. split; rewrite ?Ef; done.
Qed.

Lemma caught_up_loads (lp : Z -> Z) bs fname p f c e : in_use lp bs fname p f c (caught_up e) -> bs < zlen c ->
  exists r d st', store_load env_uid (lp (zf_flag f)) (zf_key f) 0 IO_SIZE (env_store (caught_up e)) = Ret (r, d) st' /\ zlen d = IO_SIZE.
Proof.
  intros [_ _ Hk _] Hbig. pose proof (flushed_size _ _ _ _ Hk) as Hlen. pose proof (bs_facts _ _ _ _ Hk) as [Hdiv Hbs]. pose proof (ke_pos _ _ _ _ Hk) as Hp.
  assert (IO_SIZE <= bs) by (apply multiple_le; [done|lia|apply IO_SIZE_pos]).
  assert (bs <= zlen (flushed lp (MkOpened f (env_store (caught_up e))))) as Hge by (apply multiple_le; [apply Hk|lia|lia]).
  unfold flushed in Hge. cbn [op_file op_store caught_up env_store] in Hge. change (@handed _ _ _) with mem_handed in Hge. rewrite mem_handed_default in Hge.
  cbn [carry_out mem_done mem_queue] in Hge. rewrite app_nil_r in Hge. pose proof IO_SIZE_pos. do 3 eexists. split.
  - cbn [store_load memory_zoad caught_up env_store carry_out mem_done]. rewrite in_range by lia. reflexivity.
  - apply zlen_sub; lia.
Qed.

Lemma short_read_overflows_witness : exists p e1 e2,
  NewWritableFile (fun _ => 1) blank "/db/000003.log" 0 0 empty_env = Ret p e1 /\
  run_calls (fun _ => 1) p example_calls e1 = Ret (replicate 6 EnvOK) e2 /\ random_Read (fun _ => 1) p 0 4 small_data (caught_up e2) = UB.
Proof.
  pose proof example_size as Hsize.
  destruct (create_ok (fun _ => 1) blank "/db/000003.log" 0 0 (IO_SIZE * 4) empty_env)
    as (p & f & e1 & Hnew & Hu & _ & _ & Huse & _); [exact blank_allocates|exact I|reflexivity|reflexivity|reflexivity|].
  destruct (run_calls_ok (fun _ => 1) _ _ _ example_calls _ _ _ Hu) as (f2 & e2 & Hrun & Hu2 & _ & _ & Huse2 & _); [cbn [app]; rewrite Hsize; done|].
  exists p, e1, e2. split; [exact Hnew|]. split; [exact Hrun|]. apply in_use_caught_up in Hu2.
  apply (short_read_overflows (fun _ => 1) _ _ p f2 _ (caught_up e2) 4 small_data Hu2); cbn [app]; rewrite ?Hsize.
  - reflexivity.
  - apply (caught_up_loads _ _ _ _ _ _ _ Hu2). cbn [app]. rewrite Hsize. reflexivity.
  - congruence.
  - reflexivity.
  - split; [reflexivity|discriminate].
  - reflexivity.
Defined.

Lemma deleted_file_is_written_witness : exists p e1 e2, NewWritableFile (fun _ => 1) blank "/db/LOCK" 0 0 empty_env = Ret p e1 /\
  env_DeleteFile (fun _ => 1) "/db/LOCK" e1 = Ret EnvOK e2 /\ writable_Append (fun _ => 1) p small_data e2 = UB.
Proof. exact (deleted_file_is_written (fun _ => 1) blank "/db/LOCK" 0 0 (IO_SIZE * 4) empty_env small_data eq_refl eq_refl). Defined.
