(* ===== verification/Comparator.v ===== *)
(** include/rocksdb/slice.h, include/rocksdb/comparator.h, util/comparator.cc: the
    order of keys.

    A comparator is an argument of most of the code above it; the interface is
    the class [Comparator], what its documentation promises is [ComparatorLaws],
    and the two comparators the repository brings along are shown to keep the
    promise. *)
From S2P Require Import Prelude Bits Coding IoStatus.
From stdpp Require Import base numbers list.
From Stdlib Require Import ZArith Lia.
Local Open Scope Z_scope.

(** ** Slices *)

(** [memcmp] of two arrays of the same size; only the sign of its result is
    specified, and only the sign is looked at. *)
Fixpoint memcmp (a b : bytes) : Z :=
  match a, b with
  | x :: a', y :: b' =>
    if byte_val x <? byte_val y then -1
    else if byte_val y <? byte_val x then 1 else memcmp a' b'
  | _, _ => 0
  end.

Definition Slice_compare (a b : bytes) : Z :=
  let min_len := if (length a <? length b)%nat then length a else length b in
  let r := memcmp (take min_len a) (take min_len b) in
  if r =? 0 then
    if (length a <? length b)%nat then -1
    else if (length b <? length a)%nat then 1 else r
  else r.

(** [operator==] of slices. *)
Definition Slice_eq (a b : bytes) : bool := (zlen a =? zlen b) && (memcmp a b =? 0).

(** The loop that stops at the first difference or at the end of the shorter
    slice. *)
Fixpoint difference_offset (a b : bytes) : nat :=
  match a, b with
  | x :: a', y :: b' => if byte_val x =? byte_val y then S (difference_offset a' b') else O
  | _, _ => O
  end.

(** ** The interface *)

Class Comparator := {
  Compare : bytes -> bytes -> Z;
  FindShortestSeparator : bytes -> bytes -> bytes;
  FindShortSuccessor : bytes -> bytes;
  CanKeysWithDifferentByteContentsBeEqual : bool
}.

(** Three-way comparison: the sign of the result is that of a total preorder. *)
Class ThreeWay {A} (cmp : A -> A -> Z) : Prop := {
  cmp_refl : forall a, cmp a a = 0;
  cmp_opp : forall a b, Z.sgn (cmp b a) = - Z.sgn (cmp a b);
  cmp_trans : forall a b c, cmp a b <= 0 -> cmp b c <= 0 -> cmp a c <= 0
}.

Class ComparatorLaws (C : Comparator) : Prop := {
  compare_order :: ThreeWay Compare;
  compare_bytes : CanKeysWithDifferentByteContentsBeEqual = false ->
    forall a b, Compare a b = 0 -> a = b;
  separator_between : forall start limit, Compare start limit < 0 ->
    Compare start (FindShortestSeparator start limit) <= 0 /\
    Compare (FindShortestSeparator start limit) limit < 0;
  successor_above : forall key, Compare key (FindShortSuccessor key) <= 0
}.

(** ** The bytewise comparator *)

(** The loop that looks for a byte below 0xff, increments it and cuts off what
    follows; [None] when there is none. *)
Fixpoint increment_first (s : bytes) : option bytes :=
  match s with
  | [] => None
  | b :: s' =>
    if byte_val b <? 0xff then Some [byte_of (byte_val b + 1)] else (cons b) <$> increment_first s'
  end.

Definition bytewise_FindShortestSeparator (start limit : bytes) : bytes :=
  let min_length := Nat.min (length start) (length limit) in
  let diff_index := difference_offset start limit in
  if (min_length <=? diff_index)%nat then start
  else
    let start_byte := at_ start diff_index in
    let limit_byte := at_ limit diff_index in
    if limit_byte <=? start_byte then start
    else if (diff_index <? length limit - 1)%nat || (start_byte + 1 <? limit_byte) then
      take diff_index start ++ [byte_of (start_byte + 1)]
    else
      match increment_first (drop (diff_index + 1) start) with
      | Some t => take (diff_index + 1) start ++ t
      | None => start
      end.

Definition bytewise_FindShortSuccessor (key : bytes) : bytes := default key (increment_first key).

(** The loop over the bytes behind the first difference. *)
Fixpoint ff_and_00 (s t : bytes) : bool :=
  match s, t with
  | x :: s', y :: t' => (byte_val x =? 0xff) && (byte_val y =? 0) && ff_and_00 s' t'
  | _, _ => true
  end.

Definition IsSameLengthImmediateSuccessor (s t : bytes) : bool :=
  if negb (length s =? length t)%nat || (length s =? 0)%nat then false
  else
    let diff_ind := difference_offset s t in
    if (length s <=? diff_ind)%nat then false
    else
      let byte_s := at_ s diff_ind in
      let byte_t := at_ t diff_ind in
      if negb (byte_s =? 0xff) && (byte_s + 1 =? byte_t)
      then ff_and_00 (drop (diff_ind + 1) s) (drop (diff_ind + 1) t)
      else false.

Definition BytewiseComparator : Comparator := {|
  Compare := Slice_compare;
  FindShortestSeparator := bytewise_FindShortestSeparator;
  FindShortSuccessor := bytewise_FindShortSuccessor;
  CanKeysWithDifferentByteContentsBeEqual := false |}.

Definition reverse_FindShortestSeparator (start limit : bytes) : bytes :=
  let min_length := Nat.min (length start) (length limit) in
  let diff_index := difference_offset start limit in
  if (diff_index =? min_length)%nat then start
  else
    let start_byte := at_ start diff_index in
    let limit_byte := at_ limit diff_index in
    if (limit_byte <? start_byte) && (diff_index <? length start - 1)%nat
    then take (diff_index + 1) start else start.

Definition ReverseBytewiseComparator : Comparator := {|
  Compare := fun a b => - Slice_compare a b;
  FindShortestSeparator := reverse_FindShortestSeparator;
  FindShortSuccessor := fun key => key;
  CanKeysWithDifferentByteContentsBeEqual := false |}.

(** ** Lemmas: the lexicographic order *)

Fixpoint lex (a b : bytes) : Z :=
  match a, b with
  | [], [] => 0
  | [], _ => -1
  | _, [] => 1
  | x :: a', y :: b' =>
    if byte_val x <? byte_val y then -1
    else if byte_val y <? byte_val x then 1 else lex a' b'
  end.

Lemma Slice_compare_lex a b : Slice_compare a b = lex a b.
Proof.
  unfold Slice_compare. revert b. induction a as [|x a IH]; intros [|y b]; try reflexivity.
  specialize (IH b). cbn [length lex].
  change (S (length a) <? S (length b))%nat with (length a <? length b)%nat.
  change (S (length b) <? S (length a))%nat with (length b <? length a)%nat.
  destruct (length a <? length b)%nat eqn:E; cbn [take memcmp] in *.
  all: destruct (byte_val x <? byte_val y); [reflexivity|].
  all: destruct (byte_val y <? byte_val x); [reflexivity|exact IH].
Qed.

Lemma byte_val_inj x y : byte_val x = byte_val y -> x = y.
Proof. intros H. rewrite <- (byte_of_val x), <- (byte_of_val y). by rewrite H. Qed.

Lemma lex_range a b : -1 <= lex a b <= 1.
Proof.
  revert b. induction a as [|x a IH]; intros [|y b]; cbn; try lia.
  destruct (byte_val x <? byte_val y), (byte_val y <? byte_val x); try lia. apply IH.
Qed.

Lemma lex_refl a : lex a a = 0.
Proof. induction a as [|x a IH]; cbn; [done|]. by rewrite Z.ltb_irrefl. Qed.

Lemma lex_opp a b : lex b a = - lex a b.
Proof.
  revert b. induction a as [|x a IH]; intros [|y b]; cbn; try done.
  destruct (Z.ltb_spec (byte_val x) (byte_val y)), (Z.ltb_spec (byte_val y) (byte_val x)); try lia. apply IH.
Qed.

Lemma lex_eq a b : lex a b = 0 -> a = b.
Proof.
  revert b. induction a as [|x a IH]; intros [|y b]; cbn; try done.
  destruct (Z.ltb_spec (byte_val x) (byte_val y)), (Z.ltb_spec (byte_val y) (byte_val x)); try done.
  intros He. f_equal; [apply byte_val_inj; lia|by apply IH].
Qed.

Lemma lex_trans a b c : lex a b <= 0 -> lex b c <= 0 -> lex a c <= 0.
Proof.
  revert b c. induction a as [|x a IH]; intros [|y b] [|z c]; cbn; try lia.
  destruct (Z.ltb_spec (byte_val x) (byte_val y)), (Z.ltb_spec (byte_val y) (byte_val x)),
    (Z.ltb_spec (byte_val y) (byte_val z)), (Z.ltb_spec (byte_val z) (byte_val y)),
    (Z.ltb_spec (byte_val x) (byte_val z)), (Z.ltb_spec (byte_val z) (byte_val x)); try lia; apply IH.
Qed.

(** A common prefix does not matter. *)
Lemma lex_app p a b : lex (p ++ a) (p ++ b) = lex a b.
Proof. induction p as [|x p IH]; cbn; [done|]. by rewrite Z.ltb_irrefl. Qed.

(** Two slices are a common prefix and what follows it. *)
Lemma difference_offset_split a b :
  let n := difference_offset a b in
  exists p a' b', a = p ++ a' /\ b = p ++ b' /\ length p = n /\
    match a', b' with x :: _, y :: _ => byte_val x <> byte_val y | _, _ => True end.
Proof.
  cbn. revert b. induction a as [|x a IH]; intros b; [by exists [], [], b|].
  destruct b as [|y b]; [by exists [], (x :: a), []|]. cbn.
  destruct (Z.eqb_spec (byte_val x) (byte_val y)) as [He|Hne]; [|by exists [], (x :: a), (y :: b)].
  apply byte_val_inj in He as ->. destruct (IH b) as (p & a' & b' & -> & -> & Hl & Hd).
  exists (y :: p), a', b'. cbn. by rewrite Hl.
Qed.

(** An incremented suffix is above it. *)
Lemma increment_first_above s t : increment_first s = Some t -> lex s t < 0.
Proof.
  revert t. induction s as [|b s IH]; intros t; cbn [increment_first]; [done|].
  destruct (Z.ltb_spec (byte_val b) 0xff) as [Hb|Hb].
  - intros [= <-]. cbn [lex]. pose proof (byte_val_range b). rewrite byte_val_of, Z.mod_small by lia.
    destruct (Z.ltb_spec (byte_val b) (byte_val b + 1)); lia.
  - destruct (increment_first s) as [t'|]; [|done]. cbn. intros [= <-].
    rewrite Z.ltb_irrefl. by apply IH.
Qed.

Lemma at_app_length (p s : bytes) x : at_ (p ++ x :: s) (length p) = byte_val x.
Proof. unfold at_. by rewrite list_lookup_middle. Qed.

Lemma length_split (p s : bytes) x : (length (p ++ x :: s) = length p + S (length s))%nat.
Proof. rewrite length_app. done. Qed.

Lemma lex_head x y a b : byte_val x < byte_val y -> lex (x :: a) (y :: b) = -1.
Proof. intros H. cbn. by rewrite (proj2 (Z.ltb_lt _ _) H). Qed.

(** The byte above another one, and a slice that ends with it. *)
Lemma lex_incremented x y a b :
  byte_val x < byte_val y -> b <> [] \/ byte_val x + 1 < byte_val y ->
  lex (x :: a) [byte_of (byte_val x + 1)] < 0 /\ lex [byte_of (byte_val x + 1)] (y :: b) < 0.
Proof.
  intros Hxy Hb. pose proof (byte_val_range y).
  assert (byte_val (byte_of (byte_val x + 1)) = byte_val x + 1) as Hv.
  { rewrite byte_val_of. pose proof (byte_val_range x). apply Z.mod_small. lia. }
  split; [by rewrite lex_head by lia|].
  destruct (decide (byte_val x + 1 < byte_val y)); [by rewrite lex_head by lia|].
  cbn [lex]. rewrite Hv. replace (byte_val y) with (byte_val x + 1) by lia. rewrite Z.ltb_irrefl.
  destruct b; [by destruct Hb; [|lia]|done].
Qed.

Lemma bytewise_separator start limit :
  lex start limit < 0 ->
  lex start (bytewise_FindShortestSeparator start limit) <= 0 /\
  lex (bytewise_FindShortestSeparator start limit) limit < 0.
Proof.
  intros Hlt. assert (lex start start <= 0 /\ lex start limit < 0) as Hsame by (rewrite lex_refl; lia).
  unfold bytewise_FindShortestSeparator.
  destruct (difference_offset_split start limit) as (p & a & b & Ha & Hb & Hl & Hd). rewrite <- Hl.
  destruct a as [|x a], b as [|y b];
    try (rewrite (proj2 (Nat.leb_le _ _)); [done|subst; rewrite !length_app; cbn; lia]).
  subst start limit. rewrite lex_app in Hlt. rewrite !at_app_length.
  assert (byte_val x < byte_val y) as Hxy.
  { cbn in Hlt. destruct (Z.ltb_spec (byte_val x) (byte_val y)); [done|].
    destruct (Z.ltb_spec (byte_val y) (byte_val x)); lia. }
  destruct (Nat.leb_spec (Nat.min (length (p ++ x :: a)) (length (p ++ y :: b))) (length p)) as [Hm|_].
  { rewrite !length_split in Hm. lia. }
  destruct (Z.leb_spec (byte_val y) (byte_val x)); [lia|].
  rewrite (length_split p b), take_app_length.
  destruct ((length p <? length p + S (length b) - 1)%nat || (byte_val x + 1 <? byte_val y)) eqn:E.
  - rewrite !lex_app. destruct (lex_incremented x y a b Hxy) as [? ?]; [|lia].
    apply orb_true_iff in E as [E%Nat.ltb_lt|E%Z.ltb_lt]; [left|by right]. destruct b; [cbn in E; lia|done].
  - rewrite drop_app_add, take_app_add. cbn [drop take]. rewrite drop_0, take_0.
    destruct (increment_first a) as [t|] eqn:Ei; [|done].
    rewrite <- app_assoc, !lex_app. cbn [app]. rewrite (lex_head x y t b) by done.
    cbn [lex]. rewrite Z.ltb_irrefl. apply increment_first_above in Ei. lia.
Qed.

Lemma bytewise_successor key : lex key (bytewise_FindShortSuccessor key) <= 0.
Proof.
  unfold bytewise_FindShortSuccessor. destruct (increment_first key) as [t|] eqn:E; cbn.
  - apply increment_first_above in E. lia.
  - rewrite lex_refl. lia.
Qed.

#[global] Instance BytewiseComparator_laws : ComparatorLaws BytewiseComparator.
Proof.
  split; cbn; intros *; rewrite ?Slice_compare_lex.
  - split; intros *; rewrite !Slice_compare_lex.
    + apply lex_refl.
    + rewrite lex_opp. apply Z.sgn_opp.
    + apply lex_trans.
  - intros _ a b. rewrite Slice_compare_lex. apply lex_eq.
  - apply bytewise_separator.
  - apply bytewise_successor.
Qed.

Lemma reverse_separator start limit :
  0 < lex start limit ->
  0 <= lex start (reverse_FindShortestSeparator start limit) /\
  0 < lex (reverse_FindShortestSeparator start limit) limit.
Proof.
  intros Hlt. assert (0 <= lex start start /\ 0 < lex start limit) as Hsame by (rewrite lex_refl; lia).
  unfold reverse_FindShortestSeparator.
  destruct (difference_offset_split start limit) as (p & a & b & Ha & Hb & Hl & Hd). rewrite <- Hl.
  destruct a as [|x a], b as [|y b];
    try (rewrite (proj2 (Nat.eqb_eq _ _)); [done|subst; rewrite !length_app; cbn; lia]).
  subst start limit. rewrite !at_app_length. destruct (_ =? _)%nat; [done|].
  destruct ((byte_val y <? byte_val x) && _) eqn:E; [|done].
  apply andb_true_iff in E as [E%Z.ltb_lt _]. rewrite take_app_add. cbn [take]. rewrite take_0, !lex_app.
  cbn [lex]. rewrite Z.ltb_irrefl. destruct (Z.ltb_spec (byte_val x) (byte_val y)); [lia|].
  destruct (Z.ltb_spec (byte_val y) (byte_val x)); [|lia]. destruct a; cbn; lia.
Qed.

#[global] Instance ReverseBytewiseComparator_laws : ComparatorLaws ReverseBytewiseComparator.
Proof.
  split; cbn; intros *; rewrite ?Slice_compare_lex.
  - split; intros *; rewrite !Slice_compare_lex.
    + by rewrite lex_refl.
    + rewrite lex_opp, !Z.sgn_opp. lia.
    + intros Hab Hbc. pose proof (lex_trans c b a). rewrite (lex_opp a c), (lex_opp b c), (lex_opp a b) in *. lia.
  - intros _ a b He. rewrite Slice_compare_lex in He. apply lex_eq. lia.
  - intros Hlt. destruct (reverse_separator start limit); lia.
  - rewrite lex_refl. lia.
Qed.

(** ** Equality of slices *)

Lemma memcmp_same (a b : bytes) : length a = length b -> memcmp a b = 0 -> a = b.
Proof.
  revert b. induction a as [|x a IH]; intros [|y b] Hl; try done. cbn [memcmp].
  destruct (Z.ltb_spec (byte_val x) (byte_val y)); [done|]. destruct (Z.ltb_spec (byte_val y) (byte_val x)); [done|].
  intros Hm. rewrite (byte_val_inj x y) by lia. f_equal. apply IH; [by injection Hl|done].
Qed.

Lemma memcmp_refl (a : bytes) : memcmp a a = 0.
Proof. induction a as [|x a IH]; [done|]. cbn [memcmp]. by rewrite Z.ltb_irrefl. Qed.

Lemma Slice_eq_spec a b : Slice_eq a b = true <-> a = b.
Proof.
  unfold Slice_eq. rewrite andb_true_iff, !Z.eqb_eq. split.
  - intros [Hl Hm]. apply memcmp_same; [unfold zlen in Hl; lia|done].
  - intros ->. split; [done|apply memcmp_refl].
Qed.

(** ** The order of a three-way comparison *)
Section Order.
Context {A : Type} {cmp : A -> A -> Z} {O : ThreeWay cmp}.
Implicit Types a b c : A.

Lemma cmp_gt a b : 0 < cmp a b <-> cmp b a < 0.
Proof. pose proof (cmp_opp a b). lia. Qed.
Lemma cmp_eq_sym a b : cmp a b = 0 -> cmp b a = 0.
Proof. pose proof (cmp_opp a b). lia. Qed.

Lemma cmp_lt_trans a b c : cmp a b < 0 -> cmp b c <= 0 -> cmp a c < 0.
Proof.
  intros Hab Hbc. pose proof (cmp_trans a b c). pose proof (cmp_trans b c a).
  pose proof (cmp_opp a b). pose proof (cmp_opp a c). lia.
Qed.
Lemma cmp_le_lt_trans a b c : cmp a b <= 0 -> cmp b c < 0 -> cmp a c < 0.
Proof.
  intros Hab Hbc. pose proof (cmp_trans a b c). pose proof (cmp_trans c a b).
  pose proof (cmp_opp b c). pose proof (cmp_opp a c). lia.
Qed.

(** Equal elements are interchangeable. *)
Lemma cmp_congr_l a b c : cmp a b = 0 -> Z.sgn (cmp a c) = Z.sgn (cmp b c).
Proof.
  intros He. pose proof (cmp_eq_sym a b He).
  pose proof (cmp_trans a b c). pose proof (cmp_trans b a c).
  pose proof (cmp_lt_trans b c a). pose proof (cmp_lt_trans a c b).
  pose proof (cmp_opp a c). pose proof (cmp_opp b c). lia.
Qed.
Lemma cmp_congr_r a b c : cmp a b = 0 -> Z.sgn (cmp c a) = Z.sgn (cmp c b).
Proof. intros He. rewrite (cmp_opp a c), (cmp_opp b c). by rewrite (cmp_congr_l a b c He). Qed.
End Order.

(** ** Immediate successors *)

Lemma lex_ff c : lex c (replicate (length c) Byte.xff) <= 0.
Proof.
  induction c as [|x c IH]; cbn; [done|]. pose proof (byte_val_range x). change (byte_val Byte.xff) with 255.
  destruct (Z.ltb_spec (byte_val x) 255); [lia|]. by destruct (Z.ltb_spec 255 (byte_val x)); [lia|].
Qed.
Lemma lex_00 c : lex (replicate (length c) Byte.x00) c <= 0.
Proof.
  induction c as [|x c IH]; cbn; [done|]. pose proof (byte_val_range x). change (byte_val Byte.x00) with 0.
  destruct (Z.ltb_spec 0 (byte_val x)); [lia|]. by destruct (Z.ltb_spec (byte_val x) 0); [lia|].
Qed.

Lemma ff_and_00_spec a b :
  length a = length b ->
  ff_and_00 a b = true <-> a = replicate (length a) Byte.xff /\ b = replicate (length b) Byte.x00.
Proof.
  revert b. induction a as [|x a IH]; intros [|y b] Hl; try done. injection Hl as Hl.
  cbn [ff_and_00 length replicate]. rewrite !andb_true_iff, IH, !Z.eqb_eq by done.
  split.
  - intros ((Hx & Hy) & Ha & Hb). rewrite <- Ha, <- Hb. split; f_equal; by apply byte_val_inj.
  - intros (Ha & Hb). injection Ha as -> Ha. injection Hb as -> Hb. done.
Qed.

(** What lies between two slices has their common prefix. *)
Lemma lex_between_prefix p a b u :
  lex (p ++ a) u <= 0 -> lex u (p ++ b) <= 0 -> exists c, u = p ++ c.
Proof.
  revert u. induction p as [|x p IH]; intros u; [by exists u|]. destruct u as [|z u]; cbn; [lia|].
  destruct (Z.ltb_spec (byte_val x) (byte_val z)), (Z.ltb_spec (byte_val z) (byte_val x)); try lia.
  intros H1 H2. destruct (IH u H1 H2) as [c ->]. exists c. f_equal. apply byte_val_inj. lia.
Qed.

Lemma lex_cons_lt x y a b :
  lex (x :: a) (y :: b) < 0 <-> byte_val x < byte_val y \/ (byte_val x = byte_val y /\ lex a b < 0).
Proof.
  cbn. destruct (Z.ltb_spec (byte_val x) (byte_val y)), (Z.ltb_spec (byte_val y) (byte_val x)); lia.
Qed.

(** Behind the common prefix, two slices are neighbours if the next bytes are and
    the rest is as far up, or down, as it gets. *)
Lemma neighbours x y a b :
  length a = length b -> byte_val x <> byte_val y ->
  negb (byte_val x =? 0xff) && (byte_val x + 1 =? byte_val y) && ff_and_00 a b = true <->
  lex (x :: a) (y :: b) < 0 /\
  forall u, length u = S (length a) -> ~ (lex (x :: a) u < 0 /\ lex u (y :: b) < 0).
Proof.
  intros Hl Hxy. pose proof (byte_val_range y). rewrite !andb_true_iff, ff_and_00_spec, Z.eqb_eq by done.
  rewrite negb_true_iff, Z.eqb_neq. split.
  - intros ((_ & Hs) & Ha & Hb). split; [apply lex_cons_lt; lia|]. intros [|z u] Hu (H1 & H2); [done|].
    injection Hu as Hu. apply lex_cons_lt in H1, H2.
    pose proof (lex_ff u) as Hf. pose proof (lex_00 u) as H0. rewrite Hu, <- Ha in Hf.
    rewrite Hu, Hl, <- Hb in H0. rewrite lex_opp in Hf. rewrite lex_opp in H0. lia.
  - intros (Hlt & Hno). apply lex_cons_lt in Hlt. destruct Hlt as [Hlt|]; [|lia].
    assert (byte_val x + 1 = byte_val y) as Hs.
    { destruct (decide (byte_val x + 1 = byte_val y)); [done|]. exfalso.
      apply (Hno (byte_of (byte_val x + 1) :: a)); [done|]. pose proof (byte_val_range x).
      rewrite !lex_cons_lt, !byte_val_of, Z.mod_small by lia. lia. }
    split; [lia|]. pose proof (lex_ff a). pose proof (lex_00 b). split; apply lex_eq; apply dec_stable; intros Hne.
    + apply (Hno (x :: replicate (length a) Byte.xff)); [cbn; by rewrite length_replicate|].
      rewrite !lex_cons_lt. lia.
    + apply (Hno (y :: replicate (length b) Byte.x00)); [cbn; by rewrite length_replicate, Hl|].
      rewrite !lex_cons_lt. rewrite lex_opp in Hne. lia.
Qed.

Lemma immediate_successor s t :
  IsSameLengthImmediateSuccessor s t = true <->
  length s = length t /\ lex s t < 0 /\
  forall u, length u = length s -> ~ (lex s u < 0 /\ lex u t < 0).
Proof.
  unfold IsSameLengthImmediateSuccessor.
  destruct (Nat.eqb_spec (length s) (length t)) as [Hl|]; cbn [negb orb]; [|by split; [|intros []]].
  destruct (difference_offset_split s t) as (p & a & b & -> & -> & Hp & Hd). rewrite <- Hp.
  rewrite !length_app in Hl. destruct a as [|x a], b as [|y b]; try (cbn in Hl; lia).
  { rewrite !app_nil_r, lex_refl. rewrite Nat.leb_refl. destruct (_ =? 0)%nat; by split; [|intros (_&?&_)]. }
  rewrite !length_split, !at_app_length, !drop_app_add, lex_app. cbn [drop]. rewrite !drop_0.
  destruct (Nat.eqb_spec (length p + S (length a)) 0); [lia|].
  destruct (Nat.leb_spec (length p + S (length a)) (length p)); [lia|]. cbn in Hl.
  assert (length a = length b) as Hab by lia.
  transitivity (negb (byte_val x =? 0xff) && (byte_val x + 1 =? byte_val y) && ff_and_00 a b = true).
  { destruct (_ && _) in |- *; done. }
  rewrite (neighbours x y a b Hab Hd). split.
  - intros (Hlt & Hno). split; [lia|]. split; [done|]. intros u Hu (H1 & H2).
    destruct (lex_between_prefix p (x :: a) (y :: b) u) as [c ->]; [lia..|].
    rewrite length_app in Hu. rewrite lex_app in H1, H2. apply (Hno c); [lia|done].
  - intros (_ & Hlt & Hno). split; [done|]. intros u Hu Hc. apply (Hno (p ++ u)); [rewrite length_app; lia|].
    by rewrite !lex_app.
Qed.
