(* ===== verification/DbFormat.v ===== *)
(** db/dbformat.h, db/dbformat.cc: internal keys, the keys of memtables and tables.
    An internal key is a user key followed by eight bytes that hold a sequence
    number and a type; the newest entry of a user key comes first.

    The functions that cut an internal key in two are undefined on slices of less
    than eight bytes, which the code excludes with assertions: they are [None]
    there. *)
From S2P Require Import Prelude Bits Coding IoStatus Comparator.
From stdpp Require Import base numbers list strings pretty.
From Stdlib Require Import ZArith Lia.
Local Open Scope Z_scope.

(** ** Types *)

Definition kTypeDeletion : Z := 0x0.
Definition kTypeValue : Z := 0x1.
Definition kTypeMerge : Z := 0x2.
Definition kTypeLogData : Z := 0x3.
Definition kTypeColumnFamilyDeletion : Z := 0x4.
Definition kTypeColumnFamilyValue : Z := 0x5.
Definition kTypeColumnFamilyMerge : Z := 0x6.
Definition kTypeSingleDeletion : Z := 0x7.
Definition kTypeColumnFamilySingleDeletion : Z := 0x8.
Definition kTypeBeginPrepareXID : Z := 0x9.
Definition kTypeEndPrepareXID : Z := 0xA.
Definition kTypeCommitXID : Z := 0xB.
Definition kTypeRollbackXID : Z := 0xC.
Definition kTypeNoop : Z := 0xD.
Definition kTypeColumnFamilyRangeDeletion : Z := 0xE.
Definition kTypeRangeDeletion : Z := 0xF.
Definition kTypeColumnFamilyBlobIndex : Z := 0x10.
Definition kTypeBlobIndex : Z := 0x11.
Definition kTypeBeginPersistedPrepareXID : Z := 0x12.
Definition kTypeBeginUnprepareXID : Z := 0x13.
Definition kTypeDeletionWithTimestamp : Z := 0x14.

Definition kValueTypeForSeek : Z := kTypeDeletionWithTimestamp.
Definition kValueTypeForSeekForPrev : Z := kTypeDeletion.

Definition IsValueType (t : Z) : bool :=
  (t <=? kTypeMerge) || (t =? kTypeSingleDeletion) || (t =? kTypeBlobIndex) ||
  (kTypeDeletionWithTimestamp =? t).
Definition IsExtendedValueType (t : Z) : bool := IsValueType t || (t =? kTypeRangeDeletion).

Inductive EntryType :=
| kEntryPut
| kEntryDelete
| kEntrySingleDelete
| kEntryMerge
| kEntryRangeDeletion
| kEntryBlobIndex
| kEntryDeleteWithTimestamp
| kEntryOther.

Definition GetEntryType (value_type : Z) : EntryType :=
  if value_type =? kTypeValue then kEntryPut
  else if value_type =? kTypeDeletion then kEntryDelete
  else if value_type =? kTypeDeletionWithTimestamp then kEntryDeleteWithTimestamp
  else if value_type =? kTypeSingleDeletion then kEntrySingleDelete
  else if value_type =? kTypeMerge then kEntryMerge
  else if value_type =? kTypeRangeDeletion then kEntryRangeDeletion
  else if value_type =? kTypeBlobIndex then kEntryBlobIndex
  else kEntryOther.

(** ** Sequence numbers *)

Definition kMaxSequenceNumber : Z := Z.shiftl 1 56 - 1.
Definition kDisableGlobalSequenceNumber : Z := 2 ^ 64 - 1.
Definition kNumInternalBytes : Z := 8.

Definition PackSequenceAndType (seq t : Z) : Z := Z.lor (u64 (Z.shiftl seq 8)) t.
Definition UnPackSequenceAndType (packed : Z) : Z * Z := (Z.shiftr packed 8, Z.land packed 0xff).

(** ** Internal keys *)

Record ParsedInternalKey := MkParsed { user_key : bytes; sequence : Z; type : Z }.

Definition InternalKeyEncodingLength (key : ParsedInternalKey) : Z :=
  zlen (user_key key) + kNumInternalBytes.

Definition AppendInternalKeyFooter (result : bytes) (s t : Z) : bytes :=
  PutFixed64 true result (PackSequenceAndType s t).
Definition AppendInternalKey (result : bytes) (key : ParsedInternalKey) : bytes :=
  PutFixed64 true (result ++ user_key key) (PackSequenceAndType (sequence key) (type key)).
Definition AppendInternalKeyWithDifferentTimestamp (result : bytes) (key : ParsedInternalKey)
    (ts : bytes) : option bytes :=
  if zlen ts <=? zlen (user_key key) then
    Some (PutFixed64 true (result ++ take (length (user_key key) - length ts) (user_key key) ++ ts)
            (PackSequenceAndType (sequence key) (type key)))
  else None.

Definition AppendKeyWithMinTimestamp (result key : bytes) (ts_sz : nat) : bytes :=
  result ++ key ++ replicate ts_sz Byte.x00.
Definition AppendKeyWithMaxTimestamp (result key : bytes) (ts_sz : nat) : bytes :=
  result ++ key ++ replicate ts_sz Byte.xff.

Definition ExtractUserKey (internal_key : bytes) : option bytes :=
  if kNumInternalBytes <=? zlen internal_key
  then Some (take (length internal_key - 8) internal_key) else None.
Definition ExtractInternalKeyFooter (internal_key : bytes) : option Z :=
  if kNumInternalBytes <=? zlen internal_key
  then Some (DecodeFixed64 true (drop (length internal_key - 8) internal_key)) else None.
Definition ExtractValueType (internal_key : bytes) : option Z :=
  num ← ExtractInternalKeyFooter internal_key; Some (Z.land num 0xff).
Definition GetInternalKeySeqno (internal_key : bytes) : option Z :=
  num ← ExtractInternalKeyFooter internal_key; Some (Z.shiftr num 8).

Definition StripTimestampFromUserKey (key : bytes) (ts_sz : nat) : option bytes :=
  if (ts_sz <=? length key)%nat then Some (take (length key - ts_sz) key) else None.
Definition ExtractTimestampFromUserKey (key : bytes) (ts_sz : nat) : option bytes :=
  if (ts_sz <=? length key)%nat then Some (drop (length key - ts_sz) key) else None.
Definition ExtractUserKeyAndStripTimestamp (internal_key : bytes) (ts_sz : nat) : option bytes :=
  if (8 + ts_sz <=? length internal_key)%nat
  then Some (take (length internal_key - 8 - ts_sz) internal_key) else None.

(** The key with another sequence number and type. *)
Definition UpdateInternalKey (ikey : bytes) (seq t : Z) : option bytes :=
  if kNumInternalBytes <=? zlen ikey then
    Some (take (length ikey - 8) ikey ++ EncodeFixed64 true (Z.lor (u64 (Z.shiftl seq 8)) t))
  else None.

(** The message has the key in hexadecimal only when [log_err_key] is set. *)
Definition hex_digit (n : Z) : Ascii.ascii :=
  Ascii.ascii_of_N (Z.to_N (if n <? 10 then 48 + n else 55 + n)).
Fixpoint to_hex (s : bytes) : string :=
  match s with
  | [] => EmptyString
  | b :: s' => String (hex_digit (byte_val b / 16)) (String (hex_digit (byte_val b mod 16)) (to_hex s'))
  end.
Definition ParsedDebugString (k : ParsedInternalKey) (log_err_key : bool) : string :=
  "'" +:+ (if log_err_key then to_hex (user_key k) else "<redacted>") +:+
  "' seq:" +:+ pretty (Z.to_N (sequence k)) +:+ ", type:" +:+ pretty (Z.to_N (type k)).

Definition ParseInternalKey (internal_key : bytes) (log_err_key : bool) :
    Status * option ParsedInternalKey :=
  let n := zlen internal_key in
  if n <? kNumInternalBytes then
    (StCorruption ("Corrupted Key: Internal Key too small. Size=" +:+ pretty (Z.to_N n) +:+ ". "), None)
  else
    let num := DecodeFixed64 true (drop (length internal_key - 8) internal_key) in
    let c := Z.land num 0xff in
    let result := MkParsed (take (length internal_key - 8) internal_key) (Z.shiftr num 8) c in
    if IsExtendedValueType (type result) then (StOK, Some result)
    else (StCorruption ("Corrupted Key: " +:+ ParsedDebugString result log_err_key), Some result).

(** The largest and the smallest internal key of a user key, appended to the bytes
    [rep_] the key has. *)
Definition SetMaxPossibleForUserKey (rep_ _user_key : bytes) : bytes :=
  AppendInternalKey rep_ (MkParsed _user_key 0 0).
Definition SetMinPossibleForUserKey (rep_ _user_key : bytes) : bytes :=
  AppendInternalKey rep_ (MkParsed _user_key kMaxSequenceNumber kValueTypeForSeek).

(** The key of a lookup: [memtable_key] is the whole buffer, [internal_key] what
    follows the length. *)
Record LookupKey := MkLookupKey { memtable_key : bytes; lk_internal_key : bytes }.
Definition new_LookupKey (_user_key : bytes) (s : Z) (ts : option bytes) : LookupKey :=
  let usize := zlen _user_key in
  let ts_sz := zlen (default [] ts) in
  let key := _user_key ++ default [] ts ++ EncodeFixed64 true (PackSequenceAndType s kValueTypeForSeek) in
  MkLookupKey (EncodeVarint32 (u32 (usize + ts_sz + 8)) ++ key) key.

(** ** The order of internal keys *)
Section InternalKeyComparator.
Context {user_comparator : Comparator}.

(** The three ways the code orders two footers. *)
Definition newer_first (anum bnum : Z) : Z :=
  if bnum <? anum then -1 else if anum <? bnum then 1 else 0.

Definition ik_Compare (akey bkey : bytes) : option Z :=
  ua ← ExtractUserKey akey; ub ← ExtractUserKey bkey;
  let r := Compare ua ub in
  if r =? 0 then
    anum ← ExtractInternalKeyFooter akey; bnum ← ExtractInternalKeyFooter bkey;
    Some (newer_first anum bnum)
  else Some r.

Definition ik_CompareKeySeq (akey bkey : bytes) : option Z :=
  ua ← ExtractUserKey akey; ub ← ExtractUserKey bkey;
  let r := Compare ua ub in
  if r =? 0 then
    anum ← ExtractInternalKeyFooter akey; bnum ← ExtractInternalKeyFooter bkey;
    Some (newer_first (Z.shiftr anum 8) (Z.shiftr bnum 8))
  else Some r.

Definition footer_with (global_seqno : Z) (key : bytes) : option Z :=
  if global_seqno =? kDisableGlobalSequenceNumber then ExtractInternalKeyFooter key
  else t ← ExtractValueType key; Some (PackSequenceAndType global_seqno t).

Definition ik_CompareGlobal (a : bytes) (a_global_seqno : Z) (b : bytes) (b_global_seqno : Z) : option Z :=
  ua ← ExtractUserKey a; ub ← ExtractUserKey b;
  let r := Compare ua ub in
  if r =? 0 then
    a_footer ← footer_with a_global_seqno a; b_footer ← footer_with b_global_seqno b;
    Some (newer_first a_footer b_footer)
  else Some r.

Definition ik_CompareParsed (a b : ParsedInternalKey) : Z :=
  let r := Compare (user_key a) (user_key b) in
  if r =? 0 then
    if sequence b <? sequence a then -1
    else if sequence a <? sequence b then 1
    else if type b <? type a then -1
    else if type a <? type b then 1 else r
  else r.

Definition ik_FindShortestSeparator (start limit : bytes) : option bytes :=
  user_start ← ExtractUserKey start; user_limit ← ExtractUserKey limit;
  let tmp := FindShortestSeparator user_start user_limit in
  if (zlen tmp <=? zlen user_start) && (Compare user_start tmp <? 0)
  then Some (PutFixed64 true tmp (PackSequenceAndType kMaxSequenceNumber kValueTypeForSeek))
  else Some start.

Definition ik_FindShortSuccessor (key : bytes) : option bytes :=
  ukey ← ExtractUserKey key;
  let tmp := FindShortSuccessor ukey in
  if (zlen tmp <=? zlen ukey) && (Compare ukey tmp <? 0)
  then Some (PutFixed64 true tmp (PackSequenceAndType kMaxSequenceNumber kValueTypeForSeek))
  else Some key.
End InternalKeyComparator.

(** ** Lemmas *)

Definition internal (k : bytes) : Prop := 8 <= zlen k.
Definition ukey (k : bytes) : bytes := take (length k - 8) k.
Definition ifooter (k : bytes) : Z := DecodeFixed64 true (drop (length k - 8) k).
Definition mk_ikey (u : bytes) (f : Z) : bytes := u ++ le_bytes 8 f.

Lemma ExtractUserKey_internal k : internal k -> ExtractUserKey k = Some (ukey k).
Proof. intros H. unfold ExtractUserKey. by rewrite (proj2 (Z.leb_le kNumInternalBytes _) H). Qed.
Lemma ExtractFooter_internal k : internal k -> ExtractInternalKeyFooter k = Some (ifooter k).
Proof. intros H. unfold ExtractInternalKeyFooter. by rewrite (proj2 (Z.leb_le kNumInternalBytes _) H). Qed.

Lemma mk_ikey_internal u f : internal (mk_ikey u f).
Proof. unfold internal, mk_ikey, zlen. rewrite length_app, length_le_bytes. lia. Qed.
Lemma length_mk_ikey u f : (length (mk_ikey u f) - 8 = length u)%nat.
Proof. unfold mk_ikey. rewrite length_app, length_le_bytes. lia. Qed.
Lemma ukey_mk u f : ukey (mk_ikey u f) = u.
Proof. unfold ukey. rewrite length_mk_ikey. apply take_app_length. Qed.
Lemma ifooter_mk u f : 0 <= f < 2 ^ 64 -> ifooter (mk_ikey u f) = f.
Proof.
  intros Hf. unfold ifooter. rewrite length_mk_ikey. unfold mk_ikey. rewrite drop_app_length.
  unfold DecodeFixed64. rewrite take_ge by (by rewrite length_le_bytes).
  rewrite le_val_bytes. by apply Z.mod_small.
Qed.

Lemma ifooter_range k : 0 <= ifooter k < 2 ^ 64.
Proof.
  unfold ifooter, DecodeFixed64. pose proof (le_val_range (take 8 (drop (length k - 8) k))) as H.
  rewrite length_take in H.
  assert (256 ^ Z.of_nat (8 `min` length (drop (length k - 8) k)) <= 2 ^ 64); [|lia].
  change (2 ^ 64) with (256 ^ 8). apply Z.pow_le_mono_r; lia.
Qed.

(** An internal key is made of its two parts. *)
Lemma mk_ikey_parts k : internal k -> mk_ikey (ukey k) (ifooter k) = k.
Proof.
  unfold internal, zlen. intros Hk. unfold mk_ikey, ukey, ifooter, DecodeFixed64.
  assert (length (drop (length k - 8) k) = 8)%nat as Hl by (rewrite length_drop; lia).
  rewrite (take_ge (drop _ _)) by lia. rewrite <- Hl at 2. rewrite le_bytes_of_val. apply take_drop.
Qed.

Lemma Pack_spec seq t :
  0 <= seq <= kMaxSequenceNumber -> 0 <= t < 256 ->
  PackSequenceAndType seq t = seq * 256 + t /\ 0 <= seq * 256 + t < 2 ^ 64.
Proof.
  change kMaxSequenceNumber with (2 ^ 56 - 1). intros Hs Ht. unfold PackSequenceAndType.
  rewrite u64_small by (rewrite Z.shiftl_mul_pow2 by lia; lia).
  rewrite Z.lor_comm, lor_high by lia. change (2 ^ 8) with 256. lia.
Qed.

Lemma unpack_footer seq t :
  0 <= seq -> 0 <= t < 256 ->
  Z.shiftr (seq * 256 + t) 8 = seq /\ Z.land (seq * 256 + t) 0xff = t.
Proof.
  intros Hs Ht. rewrite Z.shiftr_div_pow2 by lia. change (2 ^ 8) with 256.
  change 0xff with (Z.ones 8). rewrite Z.land_ones by lia. change (2 ^ 8) with 256.
  rewrite Z.div_add_l, Z.div_small, (Z.add_comm _ t), Z.mod_add, Z.mod_small by lia. lia.
Qed.

(** *** The order *)
Section OrderLemmas.
Context {user_comparator : Comparator} {laws : ComparatorLaws user_comparator}.

Definition pair_cmp (a b : bytes * Z) : Z :=
  if Compare a.1 b.1 =? 0 then newer_first a.2 b.2 else Compare a.1 b.1.
Definition icmp (a b : bytes) : Z := pair_cmp (ukey a, ifooter a) (ukey b, ifooter b).

Lemma newer_first_le a b : newer_first a b <= 0 <-> b <= a.
Proof. unfold newer_first. destruct (Z.ltb_spec b a), (Z.ltb_spec a b); lia. Qed.
Lemma newer_first_opp a b : newer_first b a = - newer_first a b.
Proof. unfold newer_first. destruct (Z.ltb_spec b a), (Z.ltb_spec a b); lia. Qed.

Lemma pair_cmp_le a b :
  pair_cmp a b <= 0 <-> Compare a.1 b.1 < 0 \/ (Compare a.1 b.1 = 0 /\ b.2 <= a.2).
Proof.
  unfold pair_cmp. destruct (Z.eqb_spec (Compare a.1 b.1) 0); [|lia]. rewrite newer_first_le. lia.
Qed.

#[global] Instance pair_cmp_order : ThreeWay pair_cmp.
Proof.
  split.
  - intros a. unfold pair_cmp. rewrite cmp_refl. cbn. unfold newer_first. by rewrite Z.ltb_irrefl.
  - intros a b. unfold pair_cmp. pose proof (cmp_opp a.1 b.1).
    destruct (Z.eqb_spec (Compare a.1 b.1) 0), (Z.eqb_spec (Compare b.1 a.1) 0); try lia.
    by rewrite newer_first_opp, Z.sgn_opp.
  - intros a b c. rewrite !pair_cmp_le.
    intros [Hab|[Hab Ha]] [Hbc|[Hbc Hb]].
    + left. apply (cmp_lt_trans _ b.1); lia.
    + left. apply (cmp_lt_trans _ b.1); lia.
    + left. apply (cmp_le_lt_trans _ b.1); lia.
    + right. pose proof (cmp_congr_l _ _ c.1 Hab). lia.
Qed.

#[global] Instance icmp_order : ThreeWay icmp.
Proof. split; unfold icmp; intros; [apply cmp_refl|apply cmp_opp|by eapply cmp_trans]. Qed.

Lemma ik_Compare_icmp a b : internal a -> internal b -> ik_Compare a b = Some (icmp a b).
Proof.
  intros Ha Hb. unfold ik_Compare. rewrite !ExtractUserKey_internal, !ExtractFooter_internal by done.
  unfold icmp, pair_cmp. cbn. by destruct (_ =? 0).
Qed.

Lemma icmp_lt a b :
  icmp a b < 0 <-> Compare (ukey a) (ukey b) < 0 \/
    (Compare (ukey a) (ukey b) = 0 /\ ifooter b < ifooter a).
Proof.
  unfold icmp, pair_cmp, newer_first. cbn [fst snd].
  destruct (Z.eqb_spec (Compare (ukey a) (ukey b)) 0); [|lia].
  destruct (Z.ltb_spec (ifooter b) (ifooter a)), (Z.ltb_spec (ifooter a) (ifooter b)); lia.
Qed.
Lemma icmp_le a b :
  icmp a b <= 0 <-> Compare (ukey a) (ukey b) < 0 \/
    (Compare (ukey a) (ukey b) = 0 /\ ifooter b <= ifooter a).
Proof. apply pair_cmp_le. Qed.

(** The key that starts at a shortened user key is between the two it separates. *)
Lemma separated start limit tmp f :
  icmp start limit < 0 -> 0 <= f < 2 ^ 64 ->
  Compare (ukey start) tmp < 0 -> Compare tmp (ukey limit) < 0 ->
  icmp start (mk_ikey tmp f) < 0 /\ icmp (mk_ikey tmp f) limit < 0.
Proof. intros. rewrite !icmp_lt, ukey_mk. lia. Qed.
End OrderLemmas.

Lemma AppendInternalKey_mk p :
  AppendInternalKey [] p = mk_ikey (user_key p) (PackSequenceAndType (sequence p) (type p)).
Proof. done. Qed.

(** What the code asserts of the parts it packs. *)
Definition key_in_range (p : ParsedInternalKey) : Prop :=
  0 <= sequence p <= kMaxSequenceNumber /\ 0 <= type p /\ IsExtendedValueType (type p) = true.

Lemma extended_type_range t : IsExtendedValueType t = true -> t <= kValueTypeForSeek.
Proof.
  unfold IsExtendedValueType, IsValueType. rewrite !orb_true_iff, Z.leb_le, !Z.eqb_eq.
  unfold kValueTypeForSeek, kTypeMerge, kTypeSingleDeletion, kTypeBlobIndex, kTypeDeletionWithTimestamp,
    kTypeRangeDeletion. lia.
Qed.

Lemma Append_footer p : key_in_range p ->
  ifooter (AppendInternalKey [] p) = sequence p * 256 + type p /\
  0 <= sequence p * 256 + type p < 2 ^ 64 /\ 0 <= type p < 256.
Proof.
  intros (Hs & Ht & He). apply extended_type_range in He. unfold kValueTypeForSeek, kTypeDeletionWithTimestamp in He.
  destruct (Pack_spec (sequence p) (type p) Hs ltac:(lia)) as [Hp Hr].
  rewrite AppendInternalKey_mk, Hp, ifooter_mk by done. lia.
Qed.

Lemma Parse_internal k log :
  internal k ->
  let p := MkParsed (ukey k) (Z.shiftr (ifooter k) 8) (Z.land (ifooter k) 0xff) in
  ParseInternalKey k log =
    (if IsExtendedValueType (type p) then StOK
     else StCorruption ("Corrupted Key: " +:+ ParsedDebugString p log), Some p).
Proof.
  intros Hk. unfold ParseInternalKey. unfold internal in Hk.
  rewrite (proj2 (Z.ltb_ge (zlen k) kNumInternalBytes) Hk). cbn zeta. unfold ukey, ifooter.
  by destruct (IsExtendedValueType _).
Qed.

(** The order on footers is that of sequence numbers, then types, downwards. *)
Lemma newer_first_parts s t s' t' :
  0 <= t < 256 -> 0 <= t' < 256 ->
  newer_first (s * 256 + t) (s' * 256 + t') =
    if s' <? s then -1 else if s <? s' then 1 else if t' <? t then -1 else if t <? t' then 1 else 0.
Proof.
  intros. unfold newer_first. destruct (Z.ltb_spec s' s), (Z.ltb_spec s s'), (Z.ltb_spec t' t), (Z.ltb_spec t t');
    repeat match goal with |- context [?a <? ?b] => destruct (Z.ltb_spec a b) end; lia.
Qed.

(** ** Properties *)

(** C27. Internal keys: a key whose parts are in range is parsed back to its
    parts, [Compare] on two encoded keys gives what it gives on the parts and the
    opposite sign when they are exchanged. On a new key, whose [rep_] is empty,
    [SetMinPossibleForUserKey] and [SetMaxPossibleForUserKey] build bounds of all
    keys of a user key; on a key with bytes [rep_] they append, so that the result
    has the user key [rep_] followed by the one that was given. *)
Theorem internal_keys_ordered (C : Comparator) (L : ComparatorLaws C) (a b : ParsedInternalKey) (log : bool) :
  key_in_range a -> key_in_range b ->
  let ka := AppendInternalKey [] a in
  let kb := AppendInternalKey [] b in
  ParseInternalKey ka log = (StOK, Some a) /\
  ik_Compare ka kb = Some (ik_CompareParsed a b) /\
  (exists r, ik_Compare kb ka = Some r /\ Z.sgn r = - Z.sgn (ik_CompareParsed a b)) /\
  (exists r, ik_Compare (SetMinPossibleForUserKey [] (user_key a)) ka = Some r /\ r <= 0) /\
  (exists r, ik_Compare ka (SetMaxPossibleForUserKey [] (user_key a)) = Some r /\ r <= 0) /\
  (forall rep_, ExtractUserKey (SetMinPossibleForUserKey rep_ (user_key a)) = Some (rep_ ++ user_key a) /\
    ExtractUserKey (SetMaxPossibleForUserKey rep_ (user_key a)) = Some (rep_ ++ user_key a)).
Proof.
  intros Ra Rb ka kb. subst ka kb. destruct (Append_footer a Ra) as (Fa & Ha & Ta).
  destruct (Append_footer b Rb) as (Fb & Hb & Tb).
  assert (forall p, internal (AppendInternalKey [] p)) as Hi by (intros; apply mk_ikey_internal).
  assert (forall p, ukey (AppendInternalKey [] p) = user_key p) as Hu by (intros; apply ukey_mk).
  assert (icmp (AppendInternalKey [] a) (AppendInternalKey [] b) = ik_CompareParsed a b) as Hc.
  { unfold icmp, pair_cmp, ik_CompareParsed. cbn [fst snd]. rewrite !Hu, Fa, Fb, newer_first_parts by done.
    by destruct (Z.eqb_spec (Compare (user_key a) (user_key b)) 0) as [->|]. }
  split_and!.
  - rewrite (Parse_internal _ _ (Hi a)), Hu, Fa. destruct Ra as (Hs & _ & He).
    destruct (unpack_footer (sequence a) (type a)) as [-> ->]; [lia..|]. cbn [type]. rewrite He. by destruct a.
  - by rewrite ik_Compare_icmp, Hc.
  - rewrite ik_Compare_icmp by done. eexists. split; [done|]. by rewrite cmp_opp, Hc.
  - unfold SetMinPossibleForUserKey. rewrite ik_Compare_icmp by done. eexists. split; [done|].
    rewrite icmp_le, !Hu, cmp_refl, Fa. right. split; [done|]. destruct Ra as (Hs & _ & He%extended_type_range).
    destruct (Append_footer (MkParsed (user_key a) kMaxSequenceNumber kValueTypeForSeek)) as (-> & _ & _).
    { by vm_compute. }
    cbn [sequence type]. lia.
  - unfold SetMaxPossibleForUserKey. rewrite ik_Compare_icmp by done. eexists. split; [done|].
    rewrite icmp_le, !Hu, cmp_refl, Fa. right. split; [done|].
    destruct (Append_footer (MkParsed (user_key a) 0 0)) as (-> & _ & _); [by vm_compute|].
    cbn [sequence type]. lia.
  - assert (forall u f, ExtractUserKey (mk_ikey u f) = Some u) as Hx.
    { intros u f. by rewrite ExtractUserKey_internal, ukey_mk by apply mk_ikey_internal. }
    intros rep_. split; apply Hx.
Qed.

Definition key_a : ParsedInternalKey := MkParsed [Byte.x61; Byte.x62] 7 kTypeValue.
Definition key_b : ParsedInternalKey := MkParsed [Byte.x61; Byte.x62] 9 kTypeMerge.

Lemma internal_keys_ordered_witness :
  @ik_Compare BytewiseComparator (AppendInternalKey [] key_a) (AppendInternalKey [] key_b) = Some 1.
Proof.
  destruct (internal_keys_ordered BytewiseComparator _ key_a key_b true) as (_ & H & _);
    [by vm_compute..|]. rewrite H. by vm_compute.
Defined.

(** A key that starts at a shortened user key is not longer. *)
Lemma shortened_size start tmp f : internal start -> zlen tmp <= zlen (ukey start) -> zlen (mk_ikey tmp f) <= zlen start.
Proof.
  intros Hs Ht. rewrite <- (mk_ikey_parts start Hs). unfold mk_ikey, zlen in *.
  rewrite !length_app, !length_le_bytes. lia.
Qed.

Section Separators.
Context {C : Comparator} {L : ComparatorLaws C}.

Lemma separator_ok start limit :
  (forall u v, Compare u v = 0 -> FindShortestSeparator u v = u) ->
  internal start -> internal limit -> icmp start limit < 0 ->
  exists s, ik_FindShortestSeparator start limit = Some s /\ internal s /\ zlen s <= zlen start /\
    icmp start s <= 0 /\ icmp s limit < 0.
Proof.
  intros Heq Hs Hl Hlt. unfold ik_FindShortestSeparator. rewrite !ExtractUserKey_internal by done. cbn [mbind option_bind].
  assert (0 <= PackSequenceAndType kMaxSequenceNumber kValueTypeForSeek < 2 ^ 64) as Hp by (by split; vm_compute).
  set (f := PackSequenceAndType kMaxSequenceNumber kValueTypeForSeek) in *.
  destruct ((_ <=? _) && _) eqn:E.
  - apply andb_true_iff in E as [E1%Z.leb_le E2%Z.ltb_lt]. change (PutFixed64 true ?t f) with (mk_ikey t f).
    destruct (decide (Compare (ukey start) (ukey limit) < 0)) as [Hu|Hu].
    + destruct (separated start limit (FindShortestSeparator (ukey start) (ukey limit)) f) as [H1 H2];
        [done|done|done|by apply separator_between|].
      eexists. split; [done|]. split; [apply mk_ikey_internal|]. split; [by apply shortened_size|].
      split; [by apply Z.lt_le_incl|exact H2].
    + apply icmp_lt in Hlt as [?|[Hu' _]]; [lia|]. rewrite (Heq _ _ Hu'), cmp_refl in E2. lia.
  - exists start. rewrite cmp_refl. by split_and!.
Qed.

Lemma successor_ok start : internal start ->
  exists s, ik_FindShortSuccessor start = Some s /\ internal s /\ zlen s <= zlen start /\ icmp start s <= 0.
Proof.
  intros Hs. unfold ik_FindShortSuccessor. rewrite ExtractUserKey_internal by done. cbn [mbind option_bind].
  assert (0 <= PackSequenceAndType kMaxSequenceNumber kValueTypeForSeek < 2 ^ 64) as Hp by (by split; vm_compute).
  set (f := PackSequenceAndType kMaxSequenceNumber kValueTypeForSeek) in *.
  destruct ((_ <=? _) && _) eqn:E.
  - apply andb_true_iff in E as [E1%Z.leb_le E2%Z.ltb_lt]. change (PutFixed64 true ?t f) with (mk_ikey t f).
    eexists. split; [done|]. split; [apply mk_ikey_internal|]. split; [by apply shortened_size|].
    apply icmp_le. rewrite ukey_mk. lia.
  - exists start. rewrite cmp_refl. by split_and!.
Qed.
End Separators.

(** C28. Index keys: [FindShortestSeparator] on internal keys gives, for two keys
    in order, an internal key that is no longer than the first, not below it and
    below the second; [FindShortSuccessor] one that is no longer and not below.
    Of the comparator of user keys this needs its documented laws and that it
    leaves a key alone that is equal to the limit, as both comparators of the
    repository do. *)
Theorem separators_separate (C : Comparator) (L : ComparatorLaws C) (start limit : bytes) :
  (forall u v, Compare u v = 0 -> FindShortestSeparator u v = u) ->
  internal start -> internal limit -> ik_Compare start limit = Some (icmp start limit) /\
  (icmp start limit < 0 ->
   exists s r r', ik_FindShortestSeparator start limit = Some s /\ internal s /\ zlen s <= zlen start /\
     ik_Compare start s = Some r /\ r <= 0 /\ ik_Compare s limit = Some r' /\ r' < 0) /\
  (exists s r, ik_FindShortSuccessor start = Some s /\ internal s /\ zlen s <= zlen start /\
     ik_Compare start s = Some r /\ r <= 0).
Proof.
  intros Heq Hs Hl. split; [by apply ik_Compare_icmp|]. split.
  - intros Hlt. destruct (separator_ok start limit Heq Hs Hl Hlt) as (s & H1 & H2 & H3 & H4 & H5).
    exists s, (icmp start s), (icmp s limit). rewrite !ik_Compare_icmp by done. done.
  - destruct (successor_ok start Hs) as (s & H1 & H2 & H3 & H4).
    exists s, (icmp start s). rewrite ik_Compare_icmp by done. done.
Qed.

Lemma bytewise_keeps_equal u v :
  @Compare BytewiseComparator u v = 0 -> @FindShortestSeparator BytewiseComparator u v = u.
Proof.
  intros ->%compare_bytes; [|done]. cbn. unfold bytewise_FindShortestSeparator.
  replace (difference_offset v v) with (length v); [by rewrite Nat.min_id, Nat.leb_refl|].
  induction v as [|x v IH]; [done|]. cbn. by rewrite Z.eqb_refl, <- IH.
Qed.

Lemma separators_separate_witness :
  exists s, @ik_FindShortestSeparator BytewiseComparator
    (mk_ikey [Byte.x61; Byte.x62; Byte.x63] 300) (mk_ikey [Byte.x61; Byte.x64] 12) = Some s /\ zlen s = 10.
Proof.
  destruct (separators_separate BytewiseComparator _ (mk_ikey [Byte.x61; Byte.x62; Byte.x63] 300)
    (mk_ikey [Byte.x61; Byte.x64] 12)) as (_ & H & _); [apply bytewise_keeps_equal|by vm_compute..|].
  destruct H as (s & r & r' & Hs & _); [by vm_compute|]. exists s. split; [exact Hs|].
  revert Hs. vm_compute. by intros [= <-].
Defined.
