(* ===== verification/BlockBuilder.v ===== *)
(** util/hash.cc: the 32-bit hash of slices.  table/block_based/block_builder.cc,
    data_block_footer.cc and the builder of data_block_hash_index.cc: blocks of entries
    with prefix-compressed keys,
    restart points and, if wanted, a hash table over the user keys.

    The size of the hash table is computed in [double]; it is modelled with the
    IEEE 754 operations of the Standard Library's [SpecFloat]. *)
From S2P Require Import Prelude Bits Coding IoStatus Comparator DbFormat.
From stdpp Require Import base numbers list.
From Stdlib Require Import ZArith Lia SpecFloat.
Local Open Scope Z_scope.

(** ** The hash of slices *)

(** [static_cast<uint32_t>(static_cast<int8_t>(c))]. *)
Definition sign_extend (c : Byte.byte) : Z :=
  u32 (if byte_val c <? 128 then byte_val c else byte_val c - 256).

Definition hash_m : Z := 0xc6a4a793.

(** The last zero to three bytes. *)
Definition hash_rest (data : bytes) (h : Z) : Z :=
  let byte i := sign_extend (default Byte.x00 (data !! i)) in
  let h := if (length data =? 3)%nat then u32 (h + u32 (Z.shiftl (byte 2%nat) 16)) else h in
  let h := if (2 <=? length data)%nat then u32 (h + u32 (Z.shiftl (byte 1%nat) 8)) else h in
  if (1 <=? length data)%nat then
    let h := u32 (u32 (h + byte 0%nat) * hash_m) in Z.lxor h (Z.shiftr h 24)
  else h.

(** Four bytes at a time, then the rest. *)
Fixpoint hash_loop (data : bytes) (h : Z) : Z :=
  match data with
  | a :: b :: c :: d :: data' =>
    let w := DecodeFixed32 true [a; b; c; d] in
    let h := u32 (u32 (h + w) * hash_m) in
    hash_loop data' (Z.lxor h (Z.shiftr h 16))
  | _ => hash_rest data h
  end.

Definition Hash (data : bytes) (seed : Z) : Z :=
  hash_loop data (u32 (Z.lxor seed (u64 (zlen data * hash_m)))).
Definition GetSliceHash (s : bytes) : Z := Hash s 397.

Lemma xor_shift_range h k : 0 <= h < 2 ^ 32 -> 0 <= k <= 32 -> 0 <= Z.lxor h (Z.shiftr h k) < 2 ^ 32.
Proof.
  intros Hh Hk. apply lxor_range; [lia|done|]. pose proof (shiftr_range h 32 k Hh Hk).
  assert (2 ^ (32 - k) <= 2 ^ 32) by (apply Z.pow_le_mono_r; lia). lia.
Qed.

Lemma hash_rest_range data h : 0 <= h < 2 ^ 32 -> 0 <= hash_rest data h < 2 ^ 32.
Proof.
  intros Hh. unfold hash_rest.
  destruct (1 <=? length data)%nat; [apply xor_shift_range; [apply u32_range|lia]|].
  destruct (2 <=? length data)%nat; [apply u32_range|]. destruct (length data =? 3)%nat; [apply u32_range|done].
Qed.

Lemma hash_loop_range n data h : (length data <= n)%nat -> 0 <= h < 2 ^ 32 -> 0 <= hash_loop data h < 2 ^ 32.
Proof.
  revert data h. induction n as [n IH] using lt_wf_ind. intros data h Hn Hh.
  destruct data as [|a [|b [|c [|d data]]]]; try (by apply hash_rest_range).
  cbn [hash_loop]. cbn [length] in Hn. apply (IH (n - 4)%nat); [lia|lia|].
  apply xor_shift_range; [apply u32_range|lia].
Qed.

Lemma Hash_range data seed : 0 <= Hash data seed < 2 ^ 32.
Proof. apply (hash_loop_range (length data)); [done|apply u32_range]. Qed.


(** ** The footer of a block *)

Inductive DataBlockIndexType := kDataBlockBinarySearch | kDataBlockBinaryAndHash.

Definition kDataBlockIndexTypeBitShift : Z := 31.
Definition kMaxNumRestarts : Z := Z.shiftl 1 31 - 1.
Definition kNumRestartsMask : Z := Z.shiftl 1 31 - 1.

Definition PackIndexTypeAndNumRestarts (index_type : DataBlockIndexType) (num_restarts : Z) : Z :=
  let block_footer := num_restarts in
  match index_type with
  | kDataBlockBinaryAndHash => Z.lor block_footer (Z.shiftl 1 kDataBlockIndexTypeBitShift)
  | kDataBlockBinarySearch => block_footer
  end.

Definition UnPackIndexTypeAndNumRestarts (block_footer : Z) : DataBlockIndexType * Z :=
  (if negb (Z.land block_footer (Z.shiftl 1 kDataBlockIndexTypeBitShift) =? 0)
   then kDataBlockBinaryAndHash else kDataBlockBinarySearch,
   Z.land block_footer kNumRestartsMask).

(** ** Doubles *)

Abbreviation double := spec_float.
Definition double_add : double -> double -> double := SFadd 53 1024.
Definition double_div : double -> double -> double := SFdiv 53 1024.
Definition double_0 : double := S754_zero false.
Definition double_1 : double := S754_finite false 4503599627370496 (-52).
Definition double_m1 : double := S754_finite true 4503599627370496 (-52).

(** [static_cast<uint16_t>]: the fraction is cut off; what does not fit is
    undefined. *)
Definition to_uint16 (x : double) : option Z :=
  match x with
  | S754_zero _ => Some 0
  | S754_finite s m e =>
    let n := if 0 <=? e then Z.shiftl (Zpos m) e else Z.shiftr (Zpos m) (- e) in
    let v := if s then - n else n in
    if (0 <=? v) && (v <? 2 ^ 16) then Some v else None
  | _ => None
  end.

(** ** The hash index *)

Definition kNoEntry : Z := 255.
Definition kCollision : Z := 254.
Definition kMaxRestartSupportedByHashIndex : Z := 253.
Definition kMaxBlockSizeSupportedByHashIndex : Z := Z.shiftl 1 16.
(** 0.75 *)
Definition kDefaultUtilRatio : double := S754_finite false 6755399441055744 (-53).

Record DataBlockHashIndexBuilder := MkHashBuilder {
  bucket_per_key_ : double; estimated_num_buckets_ : double; valid_ : bool;
  hash_and_restart_pairs_ : list (Z * Z) }.

Definition new_DataBlockHashIndexBuilder : DataBlockHashIndexBuilder := MkHashBuilder double_m1 double_0 false [].

Definition hash_Initialize (util_ratio : double) (h : DataBlockHashIndexBuilder) : DataBlockHashIndexBuilder :=
  let util_ratio := if SFleb util_ratio double_0 then kDefaultUtilRatio else util_ratio in
  MkHashBuilder (double_div double_1 util_ratio) (estimated_num_buckets_ h) true (hash_and_restart_pairs_ h).

Definition hash_Valid (h : DataBlockHashIndexBuilder) : bool := valid_ h && SFltb double_0 (bucket_per_key_ h).

Definition hash_Add (key : bytes) (restart_index : Z) (h : DataBlockHashIndexBuilder) : DataBlockHashIndexBuilder :=
  if kMaxRestartSupportedByHashIndex <? restart_index then
    MkHashBuilder (bucket_per_key_ h) (estimated_num_buckets_ h) false (hash_and_restart_pairs_ h)
  else
    MkHashBuilder (bucket_per_key_ h) (double_add (estimated_num_buckets_ h) (bucket_per_key_ h)) (valid_ h)
      (hash_and_restart_pairs_ h ++ [(GetSliceHash key, restart_index mod 256)]).

Definition hash_EstimateSize (h : DataBlockHashIndexBuilder) : option Z :=
  n ← to_uint16 (estimated_num_buckets_ h); Some (2 + Z.lor n 1).

(** One turn of the loop that fills the buckets. *)
Definition put_bucket (num_buckets : Z) (buckets : list Z) (entry : Z * Z) : list Z :=
  let '(hash_value, restart_index) := entry in
  let buck_idx := Z.to_nat (hash_value mod num_buckets) in
  let old := default kNoEntry (buckets !! buck_idx) in
  if old =? kNoEntry then <[buck_idx := restart_index]> buckets
  else if negb (old =? restart_index) then <[buck_idx := kCollision]> buckets
  else buckets.

Definition hash_Finish (h : DataBlockHashIndexBuilder) (buffer : bytes) : option bytes :=
  num_buckets ← to_uint16 (estimated_num_buckets_ h);
  let num_buckets := if num_buckets =? 0 then 1 else num_buckets in
  let num_buckets := Z.lor num_buckets 1 in
  let buckets := foldl (put_bucket num_buckets) (replicate (Z.to_nat num_buckets) kNoEntry)
                   (hash_and_restart_pairs_ h) in
  Some (PutFixed16 true (buffer ++ (byte_of <$> buckets)) num_buckets).

Definition hash_Reset (h : DataBlockHashIndexBuilder) : DataBlockHashIndexBuilder :=
  MkHashBuilder (bucket_per_key_ h) double_0 true [].

(** ** The builder of blocks *)

Record BlockBuilder := MkBlockBuilder {
  block_restart_interval_ : Z; use_delta_encoding_ : bool; use_value_delta_encoding_ : bool;
  buffer_ : bytes; restarts_ : list Z; estimate_ : Z; counter_ : Z; finished_ : bool;
  last_key_ : bytes; data_block_hash_index_builder_ : DataBlockHashIndexBuilder }.

Definition new_BlockBuilder (block_restart_interval : Z) (use_delta_encoding use_value_delta_encoding : bool)
    (index_type : DataBlockIndexType) (data_block_hash_table_util_ratio : double) : BlockBuilder :=
  MkBlockBuilder block_restart_interval use_delta_encoding use_value_delta_encoding
    [] [0] 8 0 false []
    match index_type with
    | kDataBlockBinarySearch => new_DataBlockHashIndexBuilder
    | kDataBlockBinaryAndHash => hash_Initialize data_block_hash_table_util_ratio new_DataBlockHashIndexBuilder
    end.

(** [restarts_.resize(1)] keeps the first restart point. *)
Definition builder_Reset (b : BlockBuilder) : BlockBuilder :=
  let h := data_block_hash_index_builder_ b in
  MkBlockBuilder (block_restart_interval_ b) (use_delta_encoding_ b) (use_value_delta_encoding_ b)
    [] (take 1 (restarts_ b)) 8 0 false []
    (if hash_Valid h then hash_Reset h else h).

Definition SwapAndReset (buffer : bytes) (b : BlockBuilder) : bytes * BlockBuilder :=
  (buffer_ b, builder_Reset (MkBlockBuilder (block_restart_interval_ b) (use_delta_encoding_ b)
    (use_value_delta_encoding_ b) buffer (restarts_ b) (estimate_ b) (counter_ b) (finished_ b)
    (last_key_ b) (data_block_hash_index_builder_ b))).

Definition CurrentSizeEstimate (b : BlockBuilder) : option Z :=
  let h := data_block_hash_index_builder_ b in
  n ← (if hash_Valid h then hash_EstimateSize h else Some 0); Some (u64 (estimate_ b + n)).

Definition EstimateSizeAfterKV (key value : bytes) (b : BlockBuilder) : option Z :=
  estimate ← CurrentSizeEstimate b;
  let full := negb (use_value_delta_encoding_ b) || (block_restart_interval_ b <=? counter_ b) in
  let estimate := estimate + zlen key in
  let estimate := estimate + (if full then zlen value else zlen value / 2) in
  let estimate := estimate + (if block_restart_interval_ b <=? counter_ b then 4 else 0) in
  let estimate := estimate + 4 in
  let estimate := estimate + VarintLength (zlen key) in
  Some (u64 (estimate + (if full then VarintLength (zlen value) else 0))).

(** The hash index, if there is one and the block is small enough for it. *)
Definition finish_index (buffer : bytes) : prog BlockBuilder (bytes * DataBlockIndexType) :=
  b ← gets id;
  let h := data_block_hash_index_builder_ b in
  if hash_Valid h then
    size ← the (CurrentSizeEstimate b);
    if size <=? kMaxBlockSizeSupportedByHashIndex then
      buffer ← the (hash_Finish h buffer); mret (buffer, kDataBlockBinaryAndHash)
    else mret (buffer, kDataBlockBinarySearch)
  else mret (buffer, kDataBlockBinarySearch).

Definition builder_Finish : prog BlockBuilder bytes :=
  b ← gets id;
  let buffer := foldl (PutFixed32 true) (buffer_ b) (restarts_ b) in
  let num_restarts := u32 (zlen (restarts_ b)) in
  '(buffer, index_type) ← finish_index buffer;
  let buffer := PutFixed32 true buffer (PackIndexTypeAndNumRestarts index_type num_restarts) in
  modify (fun b => MkBlockBuilder (block_restart_interval_ b) (use_delta_encoding_ b)
    (use_value_delta_encoding_ b) buffer (restarts_ b) (estimate_ b) (counter_ b) true
    (last_key_ b) (data_block_hash_index_builder_ b));;
  mret buffer.

(** [shared] and the builder after a restart, if one is due. *)
Definition start_entry (key last_key : bytes) (buffer_size : Z) (b : BlockBuilder) : Z * BlockBuilder :=
  if block_restart_interval_ b <=? counter_ b then
    (0, MkBlockBuilder (block_restart_interval_ b) (use_delta_encoding_ b) (use_value_delta_encoding_ b)
          (buffer_ b) (restarts_ b ++ [u32 buffer_size]) (u64 (estimate_ b + 4)) 0 (finished_ b)
          (last_key_ b) (data_block_hash_index_builder_ b))
  else if use_delta_encoding_ b then (Z.of_nat (difference_offset key last_key), b)
  else (0, b).

Definition AddWithLastKeyImpl (key value last_key : bytes) (delta_value : option bytes)
    (buffer_size : Z) : prog BlockBuilder unit :=
  b0 ← gets id;
  let '(shared, b) := start_entry key last_key buffer_size b0 in
  let non_shared := zlen key - shared in
  let buffer :=
    if use_value_delta_encoding_ b
    then PutVarint32Varint32 (buffer_ b) (u32 shared) (u32 non_shared)
    else PutVarint32Varint32Varint32 (buffer_ b) (u32 shared) (u32 non_shared) (u32 (zlen value)) in
  let buffer := buffer ++ drop (Z.to_nat shared) key in
  v ← (if negb (shared =? 0) && use_value_delta_encoding_ b then the delta_value else mret value);
  let buffer := buffer ++ v in
  h ← (let h := data_block_hash_index_builder_ b in
       if hash_Valid h then
         ukey ← the (ExtractUserKey key);
         mret (hash_Add ukey (zlen (restarts_ b) - 1) h)
       else mret h);
  modify (fun _ => MkBlockBuilder (block_restart_interval_ b) (use_delta_encoding_ b)
    (use_value_delta_encoding_ b) buffer (restarts_ b)
    (u64 (estimate_ b + (zlen buffer - buffer_size))) (counter_ b + 1) (finished_ b) (last_key_ b) h).

Definition builder_Add (key value : bytes) (delta_value : option bytes) : prog BlockBuilder unit :=
  b ← gets id;
  AddWithLastKeyImpl key value (last_key_ b) delta_value (zlen (buffer_ b));;
  when (use_delta_encoding_ b) (modify (fun b => MkBlockBuilder (block_restart_interval_ b)
    (use_delta_encoding_ b) (use_value_delta_encoding_ b) (buffer_ b) (restarts_ b) (estimate_ b)
    (counter_ b) (finished_ b) key (data_block_hash_index_builder_ b))).

(** The last key is cut to the size of the buffer, so that it is ignored when the
    buffer is empty. *)
Definition AddWithLastKey (key value last_key_param : bytes) (delta_value : option bytes) :
    prog BlockBuilder unit :=
  b ← gets id;
  let buffer_size := zlen (buffer_ b) in
  let last_key := take (Z.to_nat (Z.min buffer_size (zlen last_key_param))) last_key_param in
  AddWithLastKeyImpl key value last_key delta_value buffer_size.
