(* ===== verification/BlockIter.v ===== *)
(** table/block_based/block.h, block.cc: blocks that were read from a file and the
    iterator over the entries of a data block ([Block], [BlockIter],
    [DataBlockIter]), with the lookup of data_block_hash_index.cc.

    The contents of a block are a list of bytes; pointers into them are offsets.
    Reading outside of the contents, and making a key or a value that reaches
    outside of them, is undefined behaviour.  Statistics and the bitmap that
    estimates read amplification have no influence on the results and are left
    out, as are the assertions of debug builds. *)
From S2P Require Import Prelude Bits Coding IoStatus Comparator DbFormat BlockBuilder.
From stdpp Require Import base numbers list strings.
From Stdlib Require Import ZArith Lia.
Local Open Scope Z_scope.

(** ** Blocks *)

(** [num_buckets_] is the hash index; 0 when the block has none. *)
Record Block := MkBlock {
  b_data : bytes; size_ : Z; restart_offset_ : Z; num_restarts_ : Z; num_buckets_ : Z }.

(** [DecodeFixed32(data + off)] of the contents. *)
Definition fixed32_at (data : bytes) (off : Z) : Z := DecodeFixed32 true (sub data off 4).

Definition NumRestarts (data : bytes) (size : Z) : Z :=
  let block_footer := fixed32_at data (size - 4) in
  if kMaxBlockSizeSupportedByHashIndex <? size then block_footer
  else (UnPackIndexTypeAndNumRestarts block_footer).2.

Definition IndexType (data : bytes) (size : Z) : DataBlockIndexType :=
  if kMaxBlockSizeSupportedByHashIndex <? size then kDataBlockBinarySearch
  else (UnPackIndexTypeAndNumRestarts (fixed32_at data (size - 4))).1.

(** The number of buckets and the offset of the table. *)
Definition hash_index_Initialize (data : bytes) (size : Z) : Z * Z :=
  let num_buckets := DecodeFixed16 true (sub data (size - 2) 2) in
  (num_buckets, u16 (size - 2 - num_buckets)).

Definition hash_index_Lookup (num_buckets : Z) (data : bytes) (map_offset : Z) (key : bytes) : option Z :=
  let idx := u16 (GetSliceHash key mod num_buckets) in
  byte_val <$> data !! Z.to_nat (map_offset + idx).

(** [size_] 0 marks an error.  [(1 + num_restarts_)] is computed with 32 bits, the
    product with 64, and the difference is cut to 32. *)
Definition new_Block (contents : bytes) : Block :=
  let size := zlen contents in
  if size <? 4 then MkBlock contents 0 0 0 0
  else
    let n := NumRestarts contents size in
    match IndexType contents size with
    | kDataBlockBinarySearch =>
      let off := u32 (u32 size - u32 (1 + n) * 4) in
      MkBlock contents (if size - 4 <? off then 0 else size) off n 0
    | kDataBlockBinaryAndHash =>
      if size <? 6 then MkBlock contents 0 0 n 0
      else
        let '(num_buckets, map_offset) := hash_index_Initialize contents (u16 (size - 4)) in
        let off := u32 (map_offset - n * 4) in
        MkBlock contents (if map_offset <? off then 0 else size) off n num_buckets
    end.

(** ** Keys of iterators *)

(** [key_addr] is the offset in the block of a key that is not copied
    ([IsKeyPinned]). *)
Record IterKey := MkIterKey { ik_key : bytes; key_addr : option Z; is_user_key_ : bool }.

Definition SetKey (key : bytes) (addr : option Z) (k : IterKey) : IterKey := MkIterKey key addr (is_user_key_ k).
Definition ClearKey (k : IterKey) : IterKey := MkIterKey [] (key_addr k) (is_user_key_ k).
Definition TrimAppend (shared_len : Z) (non_shared_data : bytes) (k : IterKey) : IterKey :=
  MkIterKey (take (Z.to_nat shared_len) (ik_key k) ++ non_shared_data) None (is_user_key_ k).
Definition GetUserKey (k : IterKey) : option bytes :=
  if is_user_key_ k then Some (ik_key k) else ExtractUserKey (ik_key k).

(** ** Decoding an entry *)

(** [GetVarint32Ptr(p, limit)]; a limit behind the contents lets it read there
    unless five bytes or the end of the number come first. *)
Definition get_varint32 {S} (data : bytes) (p limit : Z) : prog S (option (Z * Z)) :=
  let s := sub data p (limit - p) in
  match GetVarint32Ptr s with
  | Some (v, rest) => mret (Some (v, p + (zlen s - zlen rest)))
  | None => if (zlen data <? limit) && (zlen s <? 5) then undefined else mret None
  end.

(** The three numbers in front of an entry and the offset behind them, number by
    number; and with the fast path for numbers of one byte each. *)
Definition decode_varints {S} (data : bytes) (p limit : Z) : prog S (option (Z * (Z * Z * Z))) :=
  r ← get_varint32 data p limit;
  match r with None => mret None | Some (shared, p) =>
    r ← get_varint32 data p limit;
    match r with None => mret None | Some (non_shared, p) =>
      r ← get_varint32 data p limit;
      match r with None => mret None | Some (value_length, p) =>
        mret (Some (p, (shared, non_shared, value_length)))
      end
    end
  end.

Definition decode_header {S} (data : bytes) (p limit : Z) : prog S (option (Z * (Z * Z * Z))) :=
  shared ← the (data !! Z.to_nat p); non_shared ← the (data !! Z.to_nat (p + 1));
  value_length ← the (data !! Z.to_nat (p + 2));
  if Z.lor (Z.lor (byte_val shared) (byte_val non_shared)) (byte_val value_length) <? 128
  then mret (Some (p + 3, (byte_val shared, byte_val non_shared, byte_val value_length)))
  else decode_varints data p limit.

Definition DecodeEntry {S} (data : bytes) (p limit : Z) : prog S (option (Z * (Z * Z * Z))) :=
  decode_header data p limit.

Definition CheckAndDecodeEntry {S} (data : bytes) (p limit : Z) : prog S (option (Z * (Z * Z * Z))) :=
  if limit - p <? 3 then mret None
  else
    r ← decode_header data p limit;
    match r with
    | None => mret None
    | Some (p, (shared, non_shared, value_length)) =>
      if u32 (limit - p) <? u32 (non_shared + value_length) then mret None
      else mret (Some (p, (shared, non_shared, value_length)))
    end.

Definition DecodeKey {S} (data : bytes) (p limit : Z) : prog S (option (Z * (Z * Z))) :=
  r ← DecodeEntry data p limit;
  mret match r with Some (p, (shared, non_shared, _)) => Some (p, (shared, non_shared)) | None => None end.

Definition DecodeKeyV4 {S} (data : bytes) (p limit : Z) : prog S (option (Z * (Z * Z))) :=
  if limit - p <? 3 then mret None
  else
    shared ← the (data !! Z.to_nat p); non_shared ← the (data !! Z.to_nat (p + 1));
    if Z.lor (byte_val shared) (byte_val non_shared) <? 128
    then mret (Some (p + 2, (byte_val shared, byte_val non_shared)))
    else
      r ← get_varint32 data p limit;
      match r with None => mret None | Some (shared, p) =>
        r ← get_varint32 data p limit;
        match r with None => mret None | Some (non_shared, p) => mret (Some (p, (shared, non_shared))) end
      end.

(** ** BlockIter *)

(** [it_value_] is the offset and the size of the value; [None] after [clear()]
    and in a new iterator, when it does not point into the block. *)
Record BlockIter := MkBlockIter {
  it_data_ : option bytes; it_num_restarts_ : Z; restart_index_ : Z; it_restarts_ : Z; current_ : Z;
  raw_key_ : IterKey; it_value_ : option (Z * Z); it_status_ : Status; it_key_ : bytes;
  key_pinned_ : bool; global_seqno_ : Z }.

Definition new_BlockIter : BlockIter :=
  MkBlockIter None 0 0 0 0 (MkIterKey [] None true) None StOK [] false 0.

Definition set_current (c : Z) (it : BlockIter) : BlockIter :=
  MkBlockIter (it_data_ it) (it_num_restarts_ it) (restart_index_ it) (it_restarts_ it) c
    (raw_key_ it) (it_value_ it) (it_status_ it) (it_key_ it) (key_pinned_ it) (global_seqno_ it).
Definition set_restart_index (i : Z) (it : BlockIter) : BlockIter :=
  MkBlockIter (it_data_ it) (it_num_restarts_ it) i (it_restarts_ it) (current_ it)
    (raw_key_ it) (it_value_ it) (it_status_ it) (it_key_ it) (key_pinned_ it) (global_seqno_ it).
Definition set_raw_key (k : IterKey) (it : BlockIter) : BlockIter :=
  MkBlockIter (it_data_ it) (it_num_restarts_ it) (restart_index_ it) (it_restarts_ it) (current_ it)
    k (it_value_ it) (it_status_ it) (it_key_ it) (key_pinned_ it) (global_seqno_ it).
Definition set_value (v : option (Z * Z)) (it : BlockIter) : BlockIter :=
  MkBlockIter (it_data_ it) (it_num_restarts_ it) (restart_index_ it) (it_restarts_ it) (current_ it)
    (raw_key_ it) v (it_status_ it) (it_key_ it) (key_pinned_ it) (global_seqno_ it).
Definition set_status (s : Status) (it : BlockIter) : BlockIter :=
  MkBlockIter (it_data_ it) (it_num_restarts_ it) (restart_index_ it) (it_restarts_ it) (current_ it)
    (raw_key_ it) (it_value_ it) s (it_key_ it) (key_pinned_ it) (global_seqno_ it).
Definition set_key (k : bytes) (pinned : bool) (it : BlockIter) : BlockIter :=
  MkBlockIter (it_data_ it) (it_num_restarts_ it) (restart_index_ it) (it_restarts_ it) (current_ it)
    (raw_key_ it) (it_value_ it) (it_status_ it) k pinned (global_seqno_ it).

Definition InitializeBase (data : bytes) (restarts num_restarts global_seqno : Z) (it : BlockIter) : BlockIter :=
  MkBlockIter (Some data) num_restarts num_restarts restarts restarts
    (raw_key_ it) (it_value_ it) (it_status_ it) (it_key_ it) (key_pinned_ it) global_seqno.
Definition InvalidateBase (s : Status) (it : BlockIter) : BlockIter :=
  MkBlockIter None (it_num_restarts_ it) (restart_index_ it) (it_restarts_ it) (it_restarts_ it)
    (raw_key_ it) (it_value_ it) s (it_key_ it) (key_pinned_ it) (global_seqno_ it).

Definition it_Valid (it : BlockIter) : bool := current_ it <? it_restarts_ it.

(** The bytes of the current value. *)
Definition it_value (it : BlockIter) : option bytes :=
  data ← it_data_ it; '(off, n) ← it_value_ it;
  if in_block data off n then Some (sub data off n) else None.

Definition NextEntryOffset (it : BlockIter) : option Z := '(off, n) ← it_value_ it; Some (u32 (off + n)).

Definition GetRestartPoint (index : Z) : prog BlockIter Z :=
  it ← gets id; data ← the (it_data_ it);
  let off := it_restarts_ it + index * 4 in
  if in_block data off 4 then mret (fixed32_at data off) else undefined.

Definition SeekToRestartPoint (index : Z) : prog BlockIter unit :=
  modify (fun it => set_restart_index index (set_raw_key (ClearKey (raw_key_ it)) it));;
  offset ← GetRestartPoint index;
  modify (set_value (Some (offset, 0))).

Definition CorruptionError : prog BlockIter unit :=
  modify (fun it => set_value None (set_raw_key (ClearKey (raw_key_ it))
    (set_status (StCorruption "bad entry in block")
      (set_restart_index (it_num_restarts_ it) (set_current (it_restarts_ it) it))))).

Section Comparing.
Context {user_comparator : Comparator}.

Definition UpdateKey : prog BlockIter unit :=
  it ← gets id;
  if negb (it_Valid it) then mret tt
  else
    let k := raw_key_ it in
    let pinned := match key_addr k with Some _ => true | None => false end in
    if is_user_key_ k || (global_seqno_ it =? kDisableGlobalSequenceNumber)
    then modify (set_key (ik_key k) pinned)
    else
      ukey ← the (GetUserKey k); t ← the (ExtractValueType (ik_key k));
      modify (set_key (PutFixed64 true ukey (PackSequenceAndType (global_seqno_ it) t)) false).

Definition CompareCurrentKey (other : bytes) (it : BlockIter) : option Z :=
  let k := raw_key_ it in
  if is_user_key_ k then Some (Compare (ik_key k) other)
  else if global_seqno_ it =? kDisableGlobalSequenceNumber then ik_Compare (ik_key k) other
  else ik_CompareGlobal (ik_key k) (global_seqno_ it) other kDisableGlobalSequenceNumber.

(** The loop of [BinarySeek]: every turn halves the distance of [left] and
    [right], which is below 2^32. *)
Fixpoint binary_seek_loop (DecodeKeyFunc : bytes -> Z -> Z -> prog BlockIter (option (Z * (Z * Z))))
    (fuel : nat) (target : bytes) (left right : Z) (skip : bool) : prog BlockIter (option (Z * bool)) :=
  match fuel with
  | O => hang
  | S fuel' =>
    if left =? right then mret (Some (left, skip))
    else
      let mid := left + (right - left + 1) / 2 in
      region_offset ← GetRestartPoint (u32 mid);
      it ← gets id; data ← the (it_data_ it);
      r ← DecodeKeyFunc data region_offset (it_restarts_ it);
      match r with
      | Some (key_ptr, (0, non_shared)) =>
        if in_block data key_ptr non_shared then
          modify (set_raw_key (SetKey (sub data key_ptr non_shared) (Some key_ptr) (raw_key_ it)));;
          it ← gets id; cmp ← the (CompareCurrentKey target it);
          if cmp <? 0 then binary_seek_loop DecodeKeyFunc fuel' target mid right skip
          else if 0 <? cmp then binary_seek_loop DecodeKeyFunc fuel' target left (mid - 1) skip
          else binary_seek_loop DecodeKeyFunc fuel' target mid mid true
        else undefined
      | _ => CorruptionError;; mret None
      end
  end.

(** The index and whether its key is the result; [None] where the code returns
    [false]. *)
Definition BinarySeek (DecodeKeyFunc : bytes -> Z -> Z -> prog BlockIter (option (Z * (Z * Z))))
    (target : bytes) : prog BlockIter (option (Z * bool)) :=
  it ← gets id;
  if it_restarts_ it =? 0 then mret None
  else
    r ← binary_seek_loop DecodeKeyFunc 64 target (-1) (it_num_restarts_ it - 1) false;
    match r with
    | None => mret None
    | Some (l, skip) => if l =? -1 then mret (Some (0, true)) else mret (Some (u32 l, skip))
    end.

(** The loop over the entries of a restart interval; [NextImpl] is that of the
    iterator that inherits from [BlockIter]. *)
Section Inherited.
Context {S : Type} (base : lens S BlockIter) (NextImpl : prog S unit).

Fixpoint linear_seek_loop (fuel : nat) (target : bytes) (max_offset : Z) : prog S unit :=
  match fuel with
  | O => hang
  | Datatypes.S fuel' =>
    NextImpl;;
    it ← gets (view base);
    if negb (it_Valid it) then mret tt
    else if current_ it =? max_offset then mret tt
    else
      cmp ← the (CompareCurrentKey target it);
      if 0 <=? cmp then mret tt else linear_seek_loop fuel' target max_offset
  end.

Definition FindKeyAfterBinarySeek (target : bytes) (index : Z) (skip_linear_scan : bool) : prog S unit :=
  zoom base (SeekToRestartPoint index);;
  NextImpl;;
  if skip_linear_scan then mret tt
  else
    it ← gets (view base);
    max_offset ← (if index + 1 <? it_num_restarts_ it
                  then zoom base (GetRestartPoint (index + 1)) else mret (2 ^ 32 - 1));
    data ← the (it_data_ it);
    linear_seek_loop (Datatypes.S (length data)) target max_offset.
End Inherited.

(** ** DataBlockIter *)

Record CachedPrevEntry := MkCached {
  ce_offset : Z; key_ptr : option Z; key_offset : Z; key_size : Z; ce_value : option (Z * Z) }.

(** [data_block_hash_index_] is the number of buckets of the index of the block,
    [None] without index. *)
Record DataBlockIter := MkDataBlockIter {
  data_iter : BlockIter; prev_entries_keys_buff_ : bytes; prev_entries_ : list CachedPrevEntry;
  prev_entries_idx_ : Z; data_block_hash_index_ : option Z }.

Definition data_base : lens DataBlockIter BlockIter :=
  Lens data_iter (fun b it => MkDataBlockIter b (prev_entries_keys_buff_ it) (prev_entries_ it)
    (prev_entries_idx_ it) (data_block_hash_index_ it)).
Definition set_cache (buff : bytes) (es : list CachedPrevEntry) (idx : Z) (it : DataBlockIter) : DataBlockIter :=
  MkDataBlockIter (data_iter it) buff es idx (data_block_hash_index_ it).

Definition new_DataBlockIter : DataBlockIter := MkDataBlockIter new_BlockIter [] [] (-1) None.

(** [while (restart_index_ + 1 < num_restarts_ && GetRestartPoint(restart_index_ + 1)
    < current_) ++restart_index_]: a restart point is read in every turn, so the
    size of the block bounds their number. *)
Fixpoint advance_restart_index (fuel : nat) : prog BlockIter unit :=
  match fuel with
  | O => hang
  | S fuel' =>
    it ← gets id;
    if restart_index_ it + 1 <? it_num_restarts_ it then
      r ← GetRestartPoint (restart_index_ it + 1);
      if r <? current_ it
      then modify (set_restart_index (restart_index_ it + 1));; advance_restart_index fuel'
      else mret tt
    else mret tt
  end.

(** What [ParseNextDataKey] does at the end of the entries. *)
Definition no_more_entries : prog BlockIter unit :=
  modify (fun it => set_restart_index (it_num_restarts_ it) (set_current (it_restarts_ it) it)).

Definition ParseNextDataKey (DecodeEntryFunc : bytes -> Z -> Z -> prog BlockIter (option (Z * (Z * Z * Z))))
    (limit : option Z) : prog BlockIter bool :=
  it ← gets id;
  current ← the (NextEntryOffset it);
  modify (set_current current);;
  data ← the (it_data_ it);
  let limit := default (it_restarts_ it) limit in
  if limit <=? current then no_more_entries;; mret false
  else
    r ← DecodeEntryFunc data current limit;
    match r with
    | None => CorruptionError;; mret false
    | Some (p, (shared, non_shared, value_length)) =>
      if zlen (ik_key (raw_key_ it)) <? shared then CorruptionError;; mret false
      else if in_block data p non_shared then
        modify (fun it => set_raw_key
          (if shared =? 0 then SetKey (sub data p non_shared) (Some p) (raw_key_ it)
           else TrimAppend shared (sub data p non_shared) (raw_key_ it)) it);;
        modify (set_value (Some (p + non_shared, value_length)));;
        when (shared =? 0) (advance_restart_index (Datatypes.S (length data)));;
        mret true
      else undefined
    end.

Definition data_Parse (limit : option Z) : prog DataBlockIter bool :=
  zoom data_base (ParseNextDataKey DecodeEntry limit).

Definition data_NextImpl : prog DataBlockIter unit := data_Parse None;; mret tt.
Definition NextOrReportImpl : prog DataBlockIter unit :=
  zoom data_base (ParseNextDataKey CheckAndDecodeEntry None);; mret tt.

(** [while (GetRestartPoint(restart_index_) >= original)]: [false] when there are no
    entries before. *)
Fixpoint back_to_restart (fuel : nat) (original : Z) : prog BlockIter bool :=
  match fuel with
  | O => hang
  | S fuel' =>
    it ← gets id;
    r ← GetRestartPoint (restart_index_ it);
    if original <=? r then
      if restart_index_ it =? 0 then no_more_entries;; mret false
      else modify (set_restart_index (restart_index_ it - 1));; back_to_restart fuel' original
    else mret true
  end.

(** The buffer for keys and the new entry of the cache: a key that is delta-encoded
    is copied to the buffer. *)
Definition cache_current (it : DataBlockIter) : bytes * CachedPrevEntry :=
  let b := data_iter it in
  let k := raw_key_ b in
  match key_addr k with
  | Some p => (prev_entries_keys_buff_ it, MkCached (current_ b) (Some p) 0 (zlen (ik_key k)) (it_value_ b))
  | None => (prev_entries_keys_buff_ it ++ ik_key k,
             MkCached (current_ b) None (zlen (prev_entries_keys_buff_ it)) (zlen (ik_key k)) (it_value_ b))
  end.

(** The loop that caches the entries up to [original]. *)
Fixpoint cache_entries (fuel : nat) (original : Z) : prog DataBlockIter unit :=
  match fuel with
  | O => hang
  | S fuel' =>
    more ← data_Parse None;
    if negb more then mret tt
    else
      it ← gets id;
      modify (set_cache (cache_current it).1 (prev_entries_ it ++ [(cache_current it).2]) (prev_entries_idx_ it));;
      next ← the (NextEntryOffset (data_iter it));
      if next <? original then cache_entries fuel' original else mret tt
  end.

(** Go to a cached entry. *)
Definition use_cached (entry : CachedPrevEntry) : prog DataBlockIter unit :=
  it ← gets id; data ← the (it_data_ (data_iter it));
  let '(mem, off) := match key_ptr entry with
                     | Some p => (data, p)
                     | None => (prev_entries_keys_buff_ it, key_offset entry)
                     end in
  if in_block mem off (key_size entry) then
    zoom data_base (modify (fun b =>
      set_value (ce_value entry) (set_raw_key (SetKey (sub mem off (key_size entry)) (key_ptr entry) (raw_key_ b))
        (set_current (ce_offset entry) b))))
  else undefined.

Definition data_PrevImpl : prog DataBlockIter unit :=
  it ← gets id;
  cached ← (if 0 <? prev_entries_idx_ it then
              e ← the (prev_entries_ it !! Z.to_nat (prev_entries_idx_ it));
              mret (ce_offset e =? current_ (data_iter it))
            else mret false);
  if (cached : bool) then
    let idx := prev_entries_idx_ it - 1 in
    modify (set_cache (prev_entries_keys_buff_ it) (prev_entries_ it) idx);;
    entry ← the (prev_entries_ it !! Z.to_nat idx);
    use_cached entry
  else
    modify (set_cache [] [] (-1));;
    let original := current_ (data_iter it) in
    data ← the (it_data_ (data_iter it));
    more ← zoom data_base (back_to_restart (Datatypes.S (length data)) original);
    if negb (more : bool) then mret tt
    else
      zoom data_base (it ← gets id; SeekToRestartPoint (restart_index_ it));;
      cache_entries (Datatypes.S (length data)) original;;
      modify (fun it => set_cache (prev_entries_keys_buff_ it) (prev_entries_ it) (zlen (prev_entries_ it) - 1) it).

(** [data_ == nullptr]: not initialized. *)
Definition unless_null (m : prog DataBlockIter unit) : prog DataBlockIter unit :=
  it ← gets data_iter; match it_data_ it with None => mret tt | Some _ => m end.

Definition data_SeekImpl (target : bytes) : prog DataBlockIter unit :=
  unless_null (
    r ← zoom data_base (BinarySeek DecodeKey target);
    match r with
    | None => mret tt
    | Some (index, skip) => FindKeyAfterBinarySeek data_base data_NextImpl target index skip
    end).

Definition data_SeekToFirstImpl : prog DataBlockIter unit :=
  unless_null (zoom data_base (SeekToRestartPoint 0);; data_Parse None;; mret tt).
Definition SeekToFirstOrReportImpl : prog DataBlockIter unit :=
  unless_null (zoom data_base (SeekToRestartPoint 0);; NextOrReportImpl).

(** [while (ParseNextDataKey() && NextEntryOffset() < restarts_)]. *)
Fixpoint last_loop (fuel : nat) : prog BlockIter unit :=
  match fuel with
  | O => hang
  | S fuel' =>
    more ← ParseNextDataKey DecodeEntry None;
    if (more : bool) then
      it ← gets id; next ← the (NextEntryOffset it);
      if next <? it_restarts_ it then last_loop fuel' else mret tt
    else mret tt
  end.

Definition data_SeekToLastImpl : prog DataBlockIter unit :=
  unless_null (
    it ← gets data_iter; data ← the (it_data_ it);
    zoom data_base (SeekToRestartPoint (u32 (it_num_restarts_ it - 1));; last_loop (Datatypes.S (length data)))).

(** [while (Valid() && CompareCurrentKey(seek_key) > 0) PrevImpl()]. *)
Fixpoint prev_loop (fuel : nat) (seek_key : bytes) : prog DataBlockIter unit :=
  match fuel with
  | O => hang
  | S fuel' =>
    it ← gets data_iter;
    if it_Valid it then
      cmp ← the (CompareCurrentKey seek_key it);
      if 0 <? cmp then data_PrevImpl;; prev_loop fuel' seek_key else mret tt
    else mret tt
  end.

Definition data_SeekForPrevImpl (target : bytes) : prog DataBlockIter unit :=
  unless_null (
    r ← zoom data_base (BinarySeek DecodeKey target);
    match r with
    | None => mret tt
    | Some (index, skip) =>
      FindKeyAfterBinarySeek data_base data_NextImpl target index skip;;
      it ← gets data_iter; data ← the (it_data_ it);
      if it_Valid it then prev_loop (Datatypes.S (Datatypes.S (length data))) target else data_SeekToLastImpl
    end).

(** [while (true)]: to the first key that is not below the target, or to the end of
    the restart interval. *)
Fixpoint interval_loop (fuel : nat) (target : bytes) (limit : Z) : prog DataBlockIter unit :=
  match fuel with
  | O => hang
  | S fuel' =>
    more ← data_Parse (Some limit);
    if negb more then mret tt
    else
      it ← gets data_iter; cmp ← the (CompareCurrentKey target it);
      if 0 <=? cmp then mret tt else interval_loop fuel' target limit
  end.

(** What [SeekForGetImpl] answers behind its loop. *)
Definition interval_result (target target_user_key : bytes) : prog DataBlockIter bool :=
  it ← gets data_iter;
  if current_ it =? it_restarts_ it then mret true
  else
    ukey ← the (GetUserKey (raw_key_ it));
    if negb (Compare ukey target_user_key =? 0) then mret false
    else
      value_type ← the (ExtractValueType (ik_key (raw_key_ it)));
      if (value_type =? kTypeValue) || (value_type =? kTypeDeletion) ||
         (value_type =? kTypeSingleDeletion) || (value_type =? kTypeBlobIndex)
      then mret true
      else data_SeekImpl target;; mret true.

Definition SeekForGetImpl (num_buckets : Z) (target : bytes) : prog DataBlockIter bool :=
  target_user_key ← the (ExtractUserKey target);
  it ← gets data_iter; data ← the (it_data_ it);
  let map_offset := u32 (it_restarts_ it + it_num_restarts_ it * 4) in
  entry ← the (hash_index_Lookup num_buckets data map_offset target_user_key);
  if entry =? kCollision then data_SeekImpl target;; mret true
  else
    let entry := if entry =? kNoEntry then (it_num_restarts_ it - 1) mod 256 else entry in
    limit ← zoom data_base (
      SeekToRestartPoint entry;;
      if entry + 1 <? it_num_restarts_ it then GetRestartPoint (entry + 1) else mret (it_restarts_ it));
    interval_loop (Datatypes.S (length data)) target limit;;
    interval_result target target_user_key.

(** ** The public operations of DataBlockIter *)

Definition data_UpdateKey : prog DataBlockIter unit := zoom data_base UpdateKey.

Definition data_Next : prog DataBlockIter unit := data_NextImpl;; data_UpdateKey.
Definition data_Prev : prog DataBlockIter unit := data_PrevImpl;; data_UpdateKey.
Definition data_Seek (target : bytes) : prog DataBlockIter unit := data_SeekImpl target;; data_UpdateKey.
Definition data_SeekForPrev (target : bytes) : prog DataBlockIter unit :=
  data_SeekForPrevImpl target;; data_UpdateKey.
Definition data_SeekToFirst : prog DataBlockIter unit := data_SeekToFirstImpl;; data_UpdateKey.
Definition data_SeekToLast : prog DataBlockIter unit := data_SeekToLastImpl;; data_UpdateKey.
Definition NextOrReport : prog DataBlockIter unit := NextOrReportImpl;; data_UpdateKey.
Definition SeekToFirstOrReport : prog DataBlockIter unit := SeekToFirstOrReportImpl;; data_UpdateKey.

Definition SeekForGet (target : bytes) : prog DataBlockIter bool :=
  it ← gets id;
  match data_block_hash_index_ it with
  | None => data_SeekImpl target;; data_UpdateKey;; mret true
  | Some num_buckets => res ← SeekForGetImpl num_buckets target; data_UpdateKey;; mret res
  end.
End Comparing.

Definition data_Initialize (data : bytes) (restarts num_restarts global_seqno : Z)
    (hash_index : option Z) (it : DataBlockIter) : DataBlockIter :=
  let b := InitializeBase data restarts num_restarts global_seqno (data_iter it) in
  MkDataBlockIter (set_raw_key (MkIterKey (ik_key (raw_key_ b)) (key_addr (raw_key_ b)) false) b)
    (prev_entries_keys_buff_ it) (prev_entries_ it) (prev_entries_idx_ it) hash_index.

Definition data_Invalidate (s : Status) (it : DataBlockIter) : DataBlockIter :=
  MkDataBlockIter (InvalidateBase s (data_iter it)) [] [] (-1) (data_block_hash_index_ it).

(** [iter] is the iterator to be used again, if there is one. *)
Definition NewDataIterator (b : Block) (global_seqno : Z) (iter : option DataBlockIter) : DataBlockIter :=
  let ret_iter := default new_DataBlockIter iter in
  if size_ b <? 8 then data_Invalidate (StCorruption "bad block contents") ret_iter
  else if num_restarts_ b =? 0 then data_Invalidate StOK ret_iter
  else data_Initialize (b_data b) (restart_offset_ b) (num_restarts_ b) global_seqno
         (if num_buckets_ b =? 0 then None else Some (num_buckets_ b)) ret_iter.
