(* ===== verification/BlockSpec.v ===== *)
(** What a block looks like: the entries one after the other, the offsets of the
    restart points behind them; and the lemmas on decoding an entry. *)
From S2P Require Import Prelude Bits Coding IoStatus Comparator DbFormat BlockBuilder BlockIter.
From stdpp Require Import base numbers list strings.
From Stdlib Require Import ZArith Lia.
Local Open Scope Z_scope.

(** ** Numbers of one byte *)

Lemma EncodeVarint32_short v : 0 <= v < 128 -> EncodeVarint32 v = [byte_of v].
Proof. intros Hv. unfold EncodeVarint32. by rewrite (proj2 (Z.ltb_lt v (2 ^ 7))) by lia. Qed.

Lemma EncodeVarint32_long v :
  128 <= v < 2 ^ 32 -> exists b c l, EncodeVarint32 v = b :: c :: l /\ 128 <= byte_val b.
Proof.
  intros Hv. rewrite EncodeVarint32_64, EncodeVarint64_unfold by lia.
  rewrite (proj2 (Z.ltb_ge v 128)) by lia.
  destruct (EncodeVarint64 (Z.shiftr v 7)) as [|c l] eqn:E.
  { rewrite EncodeVarint64_unfold in E by (apply Z.shiftr_nonneg; lia). by destruct (_ <? 128). }
  eexists _, c, l. split; [done|]. rewrite byte_val_of. change 127 with (Z.ones 7).
  rewrite Z.land_ones by lia. change 128 with (Z.shiftl 1 7) at 2.
  pose proof (Z.mod_pos_bound v (2 ^ 7) ltac:(lia)). rewrite lor_high by lia.
  change (2 ^ 7) with 128 in *. rewrite Z.mod_small by lia. lia.
Qed.

Lemma EncodeVarint32_cons v : 0 <= v < 2 ^ 32 -> exists b l, EncodeVarint32 v = b :: l /\ (byte_val b < 128 -> l = [] /\ byte_val b = v).
Proof.
  intros Hv. destruct (decide (v < 128)).
  - rewrite EncodeVarint32_short by lia. exists (byte_of v), []. split; [done|]. intros _.
    rewrite byte_val_of, Z.mod_small by lia. done.
  - destruct (EncodeVarint32_long v) as (b & c & l & -> & Hb); [lia|]. exists b, (c :: l). split; [done|lia].
Qed.

Lemma zlen_EncodeVarint32 v : 0 <= v < 2 ^ 32 -> 1 <= zlen (EncodeVarint32 v) <= 5.
Proof.
  intros Hv. unfold zlen. split.
  - destruct (EncodeVarint32_cons v Hv) as (b & l & -> & _). cbn. lia.
  - rewrite EncodeVarint32_64 by done. pose proof (length_varint 4 v). lia.
Qed.

(** ** Slices of a concatenation *)

Lemma sub_app_r {A} (l1 l2 : list A) off n : off = zlen l1 -> sub (l1 ++ l2) off n = take (Z.to_nat n) l2.
Proof. intros ->. unfold sub, zlen. by rewrite Nat2Z.id, drop_app_length. Qed.

Lemma lookup_app_at {A} (l1 l2 : list A) off k :
  off = zlen l1 -> 0 <= k -> (l1 ++ l2) !! Z.to_nat (off + k) = l2 !! Z.to_nat k.
Proof.
  intros -> Hk. unfold zlen. rewrite lookup_app_r by lia. f_equal. lia.
Qed.

Lemma in_block_middle {A} (l1 l2 l3 : list A) off n :
  off = zlen l1 -> n = zlen l2 -> in_block (l1 ++ l2 ++ l3) off n = true.
Proof. intros -> ->. apply in_block_spec. rewrite !length_app. unfold zlen. lia. Qed.

(** ** Reading a number *)

Lemma get_varint32_at {S} (s : S) (data pre post : bytes) v p limit :
  data = pre ++ EncodeVarint32 v ++ post -> p = zlen pre -> 0 <= v < 2 ^ 32 ->
  p + zlen (EncodeVarint32 v) <= limit ->
  get_varint32 data p limit s = Ret (Some (v, p + zlen (EncodeVarint32 v))) s.
Proof.
  intros -> Hp Hv Hlim. unfold get_varint32. rewrite sub_app_r by done.
  assert (take (Z.to_nat (limit - p)) (EncodeVarint32 v ++ post) =
    EncodeVarint32 v ++ take (Z.to_nat (limit - p) - length (EncodeVarint32 v)) post) as ->.
  { rewrite take_app. f_equal. apply take_ge. unfold zlen in *. lia. }
  change (GetVarint32Ptr ?x) with (GetVarint32 x). rewrite GetVarint32_encoded by done.
  rewrite zlen_app. unfold mret, prog_ret. do 3 f_equal. lia.
Qed.

(** ** Entries *)

(** An entry as it is stored: the number of bytes shared with the key before, the
    key, and the bytes of the value. *)
Record item := Item { i_shared : Z; i_key : bytes; i_value : bytes }.

(** In index blocks with delta-encoded values ([vd]) the size of the value is not
    stored. *)
Definition header (vd : bool) (e : item) : bytes :=
  EncodeVarint32 (i_shared e) ++ EncodeVarint32 (zlen (i_key e) - i_shared e) ++
  if vd then [] else EncodeVarint32 (zlen (i_value e)).
Definition enc (vd : bool) (e : item) : bytes :=
  header vd e ++ drop (Z.to_nat (i_shared e)) (i_key e) ++ i_value e.

Record item_ok (e : item) : Prop := {
  io_shared : 0 <= i_shared e <= zlen (i_key e);
  io_key : zlen (i_key e) < 2 ^ 32;
  io_value : zlen (i_value e) < 2 ^ 32 }.

Lemma item_ok_sizes e : item_ok e ->
  0 <= i_shared e < 2 ^ 32 /\ 0 <= zlen (i_key e) - i_shared e < 2 ^ 32 /\ 0 <= zlen (i_value e) < 2 ^ 32.
Proof. intros []. pose proof (zlen_nonneg (i_value e)). lia. Qed.

Lemma decode_varints_at {S} (s : S) (data pre post : bytes) e p limit :
  item_ok e -> data = pre ++ header false e ++ post -> p = zlen pre ->
  p + zlen (header false e) <= limit ->
  decode_varints data p limit s =
    Ret (Some (p + zlen (header false e),
      (i_shared e, zlen (i_key e) - i_shared e, zlen (i_value e)))) s.
Proof.
  intros (Ha & Hb & Hc)%item_ok_sizes -> Hp Hlim. unfold header in *. rewrite !zlen_app in *.
  pose proof (zlen_EncodeVarint32 _ Ha). pose proof (zlen_EncodeVarint32 _ Hb). pose proof (zlen_EncodeVarint32 _ Hc).
  unfold decode_varints.
  erewrite bind_Ret by (eapply (get_varint32_at s _ pre); [by rewrite <- !app_assoc|done|done|lia]). cbv beta iota.
  erewrite bind_Ret by (eapply (get_varint32_at s _ (pre ++ EncodeVarint32 (i_shared e)));
    [by rewrite <- !app_assoc|by rewrite zlen_app, Hp|done|lia]). cbv beta iota.
  erewrite bind_Ret by (eapply (get_varint32_at s _
      (pre ++ EncodeVarint32 (i_shared e) ++ EncodeVarint32 (zlen (i_key e) - i_shared e)));
    [by rewrite <- !app_assoc|by rewrite !zlen_app, Hp, Z.add_assoc|done|lia]). cbv beta iota.
  unfold mret, prog_ret. do 3 f_equal. lia.
Qed.

Lemma lor_below_128 x y : 0 <= x -> 0 <= y -> Z.lor x y < 128 -> x < 128 /\ y < 128.
Proof.
  intros Hx Hy Hl. assert (forall z, 0 <= z -> z < 128 <-> Z.log2 z < 7) as Hlog.
  { intros z Hz. destruct (decide (z = 0)) as [->|]; [done|]. apply (Z.log2_lt_pow2 z 7). lia. }
  rewrite Hlog in Hl by (by apply Z.lor_nonneg). rewrite Z.log2_lor in Hl by done. rewrite !Hlog by done. lia.
Qed.

(** The fast path reads what the slow path reads. *)
Lemma decode_header_at {S} (s : S) (data pre post : bytes) e p limit :
  item_ok e -> data = pre ++ header false e ++ post -> p = zlen pre ->
  p + zlen (header false e) <= limit ->
  decode_header data p limit s =
    Ret (Some (p + zlen (header false e),
      (i_shared e, zlen (i_key e) - i_shared e, zlen (i_value e)))) s.
Proof.
  intros Hok Hd Hp Hlim. pose proof (item_ok_sizes e Hok) as (Ha & Hb & Hc).
  destruct (EncodeVarint32_cons _ Ha) as (x0 & l0 & E0 & H0).
  destruct (EncodeVarint32_cons _ Hb) as (x1 & l1 & E1 & H1).
  destruct (EncodeVarint32_cons _ Hc) as (x2 & l2 & E2 & H2).
  assert (header false e = (x0 :: l0) ++ (x1 :: l1) ++ x2 :: l2) as Hh by (unfold header; by rewrite E0, E1, E2).
  unfold decode_header.
  assert (forall k, 0 <= k -> data !! Z.to_nat (p + k) = (header false e ++ post) !! Z.to_nat k) as Hk.
  { intros k Hk. rewrite Hd. by apply lookup_app_at. }
  pose proof (Hk 0 ltac:(lia)) as K0. rewrite Z.add_0_r in K0. rewrite K0, !Hk, Hh by lia. cbn [Z.to_nat lookup].
  assert (forall k : nat, (k < 3)%nat -> is_Some ((((x0 :: l0) ++ (x1 :: l1) ++ x2 :: l2) ++ post) !! k)) as Hsome.
  { intros k Hl. apply lookup_lt_is_Some. rewrite !length_app. cbn. lia. }
  destruct (Hsome 0%nat ltac:(lia)) as [y0 Y0]. destruct (Hsome 1%nat ltac:(lia)) as [y1 Y1].
  destruct (Hsome 2%nat ltac:(lia)) as [y2 Y2]. change (Z.to_nat 0) with 0%nat. change (Z.to_nat 1) with 1%nat.
  change (Z.to_nat 2) with 2%nat. rewrite Y0, Y1, Y2. cbn [the]. unfold mbind, prog_bind, mret, prog_ret.
  destruct (_ <? 128) eqn:E; [|rewrite <- Hh; by eapply decode_varints_at].
  apply Z.ltb_lt in E. pose proof (byte_val_range y0). pose proof (byte_val_range y1). pose proof (byte_val_range y2).
  apply lor_below_128 in E as [E L2]; [|apply Z.lor_nonneg; lia|lia]. apply lor_below_128 in E as [L0 L1]; [|lia..].
  cbn in Y0. injection Y0 as <-. destruct (H0 L0) as [-> V0]. cbn in Y1. injection Y1 as <-.
  destruct (H1 L1) as [-> V1]. cbn in Y2. injection Y2 as <-. destruct (H2 L2) as [-> V2].
  rewrite V0, V1, V2. done.
Qed.

(** ** Layout *)

Definition stored (vd : bool) (es : list item) : bytes := concat (enc vd <$> es).
Definition off (vd : bool) (es : list item) (i : nat) : Z := zlen (stored vd (take i es)).
Definition restart_bytes (vd : bool) (es : list item) (rs : list nat) : bytes :=
  concat ((fun r => le_bytes 4 (off vd es r)) <$> rs).

(** The contents [data] with the restart array at [restarts] hold the entries [es],
    and [rs] are the positions of the restart points. *)
Record layout (vd : bool) (data : bytes) (restarts : Z) (es : list item) (rs : list nat) : Prop := {
  lo_data : exists tail, data = stored vd es ++ restart_bytes vd es rs ++ tail;
  lo_restarts : restarts = zlen (stored vd es);
  lo_size : zlen data < 2 ^ 32;
  lo_ok : Forall item_ok es;
  lo_first : rs !! 0%nat = Some 0%nat;
  lo_sorted : forall j k r s, rs !! j = Some r -> rs !! k = Some s -> (j < k)%nat -> (r < s)%nat;
  lo_range : forall j r, rs !! j = Some r -> (r < length es)%nat \/ r = 0%nat;
  lo_restart : forall j r e, rs !! j = Some r -> es !! r = Some e -> i_shared e = 0;
  lo_chain : forall i e e', es !! i = Some e -> es !! S i = Some e' ->
    i_shared e' <= zlen (i_key e) /\
    take (Z.to_nat (i_shared e')) (i_key e) = take (Z.to_nat (i_shared e')) (i_key e') }.

Lemma chunk_at {A B} (f : A -> list B) (n : nat) (l : list A) (j : nat) x :
  (forall a, length (f a) = n) -> l !! j = Some x ->
  exists p q, concat (f <$> l) = p ++ f x ++ q /\ length p = (j * n)%nat.
Proof.
  intros Hn. revert j. induction l as [|a l IH]; intros [|j] Hj; try done.
  - injection Hj as ->. exists [], (concat (f <$> l)). done.
  - destruct (IH j Hj) as (p & q & Hc & Hp). exists (f a ++ p), q.
    rewrite fmap_cons. cbn [concat]. rewrite Hc, <- app_assoc, length_app, Hn, Hp. split; [done|lia].
Qed.

Lemma stored_app vd es es' : stored vd (es ++ es') = stored vd es ++ stored vd es'.
Proof. unfold stored. by rewrite fmap_app, concat_app. Qed.

Section Offsets.
Context (vd : bool) (es : list item).
Implicit Types i j : nat.

Lemma off_0 : off vd es 0 = 0.
Proof. done. Qed.
Lemma off_nonneg i : 0 <= off vd es i.
Proof. apply zlen_nonneg. Qed.
Lemma off_end i : (length es <= i)%nat -> off vd es i = zlen (stored vd es).
Proof. intros Hi. unfold off. by rewrite take_ge. Qed.

Lemma off_S i e : es !! i = Some e -> off vd es (S i) = off vd es i + zlen (enc vd e).
Proof.
  intros He. unfold off. rewrite (take_S_r _ _ _ He), stored_app, zlen_app. f_equal.
  unfold stored. cbn. by rewrite app_nil_r.
Qed.

Lemma stored_split i e : es !! i = Some e ->
  stored vd es = stored vd (take i es) ++ enc vd e ++ stored vd (drop (S i) es).
Proof.
  intros He. rewrite <- (take_drop_middle es i e He) at 1. by rewrite stored_app.
Qed.

Lemma off_mono i j : (i <= j)%nat -> off vd es i <= off vd es j.
Proof.
  intros Hij. unfold off. replace (take j es) with (take i es ++ take (j - i) (drop i es)).
  - rewrite stored_app, zlen_app. pose proof (zlen_nonneg (stored vd (take (j - i) (drop i es)))). lia.
  - rewrite <- (take_drop i es) at 3. rewrite take_app. rewrite take_take, Nat.min_r by lia. f_equal.
    rewrite length_take. destruct (decide (i <= length es)%nat); [by rewrite Nat.min_l by lia|].
    rewrite drop_ge by lia. by rewrite !take_nil.
Qed.

Context (Hok : Forall item_ok es).

Lemma enc_size e : item_ok e -> 2 <= zlen (enc vd e).
Proof.
  intros (Ha & Hb & _)%item_ok_sizes. unfold enc, header. rewrite !zlen_app.
  pose proof (zlen_EncodeVarint32 _ Ha). pose proof (zlen_EncodeVarint32 _ Hb).
  repeat match goal with |- context [zlen ?l] => pose proof (zlen_nonneg l); generalize dependent (zlen l); intros end.
  lia.
Qed.

Lemma off_lt i j : (i < j)%nat -> (i < length es)%nat -> off vd es i < off vd es j.
Proof.
  intros Hij Hi. destruct (lookup_lt_is_Some_2 es i Hi) as [e He].
  pose proof (off_S i e He). pose proof (off_mono (S i) j Hij).
  pose proof (enc_size e (Forall_lookup_1 _ _ _ _ Hok He)). lia.
Qed.

Lemma off_le_inv i j : (j < length es)%nat -> off vd es i <= off vd es j -> (i <= j)%nat.
Proof.
  intros Hj Hle. destruct (decide (i <= j)%nat); [done|]. pose proof (off_lt j i ltac:(lia) Hj). lia.
Qed.

Lemma off_lt_inv i j : off vd es i < off vd es j -> (i < j)%nat.
Proof.
  intros Hlt. destruct (decide (i < j)%nat); [done|]. pose proof (off_mono j i ltac:(lia)). lia.
Qed.

Lemma off_eq_inv i j : (i < length es)%nat -> (j < length es)%nat -> off vd es i = off vd es j -> i = j.
Proof. intros Hi Hj He. pose proof (off_le_inv i j Hj). pose proof (off_le_inv j i Hi). lia. Qed.

(** There are at most as many entries as bytes. *)
Lemma entries_bound i : (i <= length es)%nat -> Z.of_nat i <= off vd es i.
Proof.
  induction i as [|i IH]; intros Hi; [done|]. pose proof (off_lt i (S i) ltac:(lia) ltac:(lia)). lia.
Qed.
End Offsets.

Lemma zlen_restart_bytes vd es rs : zlen (restart_bytes vd es rs) = 4 * zlen rs.
Proof.
  unfold restart_bytes, zlen. induction rs as [|r l IH]; [done|].
  rewrite fmap_cons. cbn [concat]. rewrite length_app, length_le_bytes. cbn [length]. lia.
Qed.

(** ** Iterators

    An iterator over a block with a known layout: where it can be, and what the
    steps that parse entries do.  [at_entry] is an iterator on an entry, [at_end] one
    that is not valid, [ready] one that is about to parse an entry. *)

Section Iter.
Context {vd : bool} {data : bytes} {restarts : Z} {es : list item} {rs : list nat}.
Context (LO : layout vd data restarts es rs).
(** The format of the keys and the global sequence number of the iterator. *)
Context (u : bool) (g : Z).

Record frame (it : BlockIter) : Prop := {
  fr_data : it_data_ it = Some data;
  fr_num : it_num_restarts_ it = zlen rs;
  fr_restarts : it_restarts_ it = restarts;
  fr_user : is_user_key_ (raw_key_ it) = u;
  fr_global : global_seqno_ it = g;
  fr_status : it_status_ it = StOK }.

Definition indexed (it : BlockIter) : Prop := 0 <= restart_index_ it < zlen rs.

(** The position of the key and of the value of an entry. *)
Definition koff (i : nat) (e : item) : Z := off vd es i + zlen (header vd e).
Definition voff (i : nat) (e : item) : Z := koff i e + (zlen (i_key e) - i_shared e).

(** The next entry to be parsed is number [i]. *)
Record ready (it : BlockIter) (i : nat) : Prop := {
  rd_frame : frame it;
  rd_index : indexed it;
  rd_le : (i <= length es)%nat;
  rd_next : NextEntryOffset it = Some (off vd es i);
  rd_key : forall e, es !! i = Some e -> i_shared e <= zlen (ik_key (raw_key_ it)) /\
    take (Z.to_nat (i_shared e)) (ik_key (raw_key_ it)) = take (Z.to_nat (i_shared e)) (i_key e) }.

(** Where the key is, when it is not copied. *)
Definition addressed (addr : option Z) (key : bytes) : Prop :=
  match addr with
  | Some p => in_block data p (zlen key) = true /\ sub data p (zlen key) = key
  | None => True
  end.

Record at_entry (it : BlockIter) (i : nat) (e : item) : Prop := {
  ae_frame : frame it;
  ae_index : indexed it;
  ae_entry : es !! i = Some e;
  ae_current : current_ it = off vd es i;
  ae_key : ik_key (raw_key_ it) = i_key e;
  ae_addr : addressed (key_addr (raw_key_ it)) (i_key e);
  ae_value : it_value_ it = Some (voff i e, zlen (i_value e)) }.

Record at_end (it : BlockIter) : Prop := {
  en_frame : frame it;
  en_current : current_ it = restarts }.

(** *** The restart points *)

Lemma data_split i e : es !! i = Some e ->
  exists post, data = stored vd (take i es) ++ enc vd e ++ post.
Proof.
  intros He. destruct (lo_data _ _ _ _ _ LO) as [tail ->].
  rewrite (stored_split vd es i e He), <- !app_assoc. eauto.
Qed.

Lemma restarts_bound : restarts + 4 * zlen rs <= zlen data.
Proof.
  destruct (lo_data _ _ _ _ _ LO) as [tail ->]. rewrite (lo_restarts _ _ _ _ _ LO), !zlen_app.
  rewrite zlen_restart_bytes. pose proof (zlen_nonneg tail). lia.
Qed.

Lemma off_small i : 0 <= off vd es i < 2 ^ 32.
Proof.
  pose proof (lo_size _ _ _ _ _ LO). pose proof restarts_bound. pose proof (zlen_nonneg rs).
  pose proof (off_nonneg vd es i). pose proof (off_mono vd es i (i + length es) ltac:(lia)).
  rewrite (off_end vd es (i + length es)), <- (lo_restarts _ _ _ _ _ LO) in * by lia. lia.
Qed.

Lemma restart_point it j r : frame it -> rs !! j = Some r ->
  GetRestartPoint (Z.of_nat j) it = Ret (off vd es r) it.
Proof.
  intros F Hj. unfold GetRestartPoint. rewrite bind_gets. cbv beta. change (id it) with it. rewrite (fr_data _ F), (fr_restarts _ F).
  destruct (lo_data _ _ _ _ _ LO) as [tail Hd].
  destruct (chunk_at (fun r => le_bytes 4 (off vd es r)) 4 rs j r (fun _ => length_le_bytes 4 _) Hj)
    as (p & q & Hc & Hp). fold (restart_bytes vd es rs) in Hc.
  assert (data = (stored vd es ++ p) ++ le_bytes 4 (off vd es r) ++ (q ++ tail)) as Hd'.
  { by rewrite Hd, Hc, <- !app_assoc. }
  assert (restarts + Z.of_nat j * 4 = zlen (stored vd es ++ p)) as Ho.
  { rewrite zlen_app, <- (lo_restarts _ _ _ _ _ LO). unfold zlen. lia. }
  erewrite bind_Ret by reflexivity. cbn beta iota zeta. rewrite Ho.
  assert (4 = zlen (le_bytes 4 (off vd es r))) as H4 by (unfold zlen; by rewrite length_le_bytes).
  assert (in_block data (zlen (stored vd es ++ p)) 4 = true) as ->.
  { rewrite Hd'. by apply in_block_middle. }
  unfold fixed32_at. rewrite Hd' at 1. rewrite (sub_middle _ (le_bytes 4 (off vd es r))) by done.
  unfold DecodeFixed32. rewrite take_ge by (by rewrite length_le_bytes). rewrite le_val_bytes.
  rewrite Z.mod_small by apply off_small. done.
Qed.

Lemma rs_index j : 0 <= j < zlen rs -> exists r, rs !! Z.to_nat j = Some r.
Proof. intros Hj. apply lookup_lt_is_Some_2. unfold zlen in Hj. lia. Qed.

Lemma restart_point_Z it j : frame it -> 0 <= j < zlen rs ->
  exists r, rs !! Z.to_nat j = Some r /\ GetRestartPoint j it = Ret (off vd es r) it.
Proof.
  intros F Hj. destruct (rs_index j Hj) as [r Hr]. exists r. split; [done|].
  rewrite <- (Z2Nat.id j) by lia. by apply restart_point.
Qed.

Lemma restart_le j r : rs !! j = Some r -> (r <= length es)%nat.
Proof. intros Hj. destruct (lo_range _ _ _ _ _ LO j r Hj); lia. Qed.

Lemma seek_to_restart it j r : frame it -> rs !! j = Some r ->
  exists it', SeekToRestartPoint (Z.of_nat j) it = Ret tt it' /\ ready it' r /\ restart_index_ it' = Z.of_nat j.
Proof.
  intros F Hj. unfold SeekToRestartPoint. erewrite bind_Ret by reflexivity.
  set (it1 := set_restart_index _ _). assert (frame it1) as F1 by (by destruct F; split).
  erewrite bind_Ret by (by apply restart_point). eexists. split; [reflexivity|]. split; [|done].
  pose proof (off_small r). pose proof (lookup_lt_Some rs j r Hj).
  split.
  - by destruct F; split.
  - unfold indexed, zlen. cbn. lia.
  - by apply (restart_le j).
  - unfold NextEntryOffset. cbn. by rewrite Z.add_0_r, u32_small.
  - intros e He. rewrite (lo_restart _ _ _ _ _ LO j r e Hj He). done.
Qed.

(** *** Parsing the next entry *)

(** What [ParseNextDataKey] asks of its decoder. *)
Definition decodes (D : bytes -> Z -> Z -> prog BlockIter (option (Z * (Z * Z * Z)))) : Prop :=
  forall it i e limit, es !! i = Some e -> off vd es (S i) <= limit <= restarts ->
    D data (off vd es i) limit it =
      Ret (Some (koff i e, (i_shared e, zlen (i_key e) - i_shared e, zlen (i_value e)))) it.

Lemma entry_ok i e : es !! i = Some e -> item_ok e.
Proof. apply Forall_lookup_1, (lo_ok _ _ _ _ _ LO). Qed.

Lemma restarts_off : restarts = off vd es (length es).
Proof. by rewrite (off_end vd es (length es)), <- (lo_restarts _ _ _ _ _ LO). Qed.

Lemma entry_limit i e : es !! i = Some e -> off vd es (S i) <= restarts <= restarts.
Proof. intros He%lookup_lt_Some. rewrite restarts_off at 1. split; [apply off_mono; lia|lia]. Qed.

Lemma entry_end i e : es !! i = Some e -> off vd es (S i) = voff i e + zlen (i_value e).
Proof.
  intros He. rewrite (off_S vd es i e He). unfold voff, koff, enc. rewrite !zlen_app.
  destruct (entry_ok i e He) as [Hs _ _]. rewrite zlen_drop by done. lia.
Qed.

(** The stored bytes of a key and of a value. *)
Lemma entry_bytes i e : es !! i = Some e ->
  in_block data (koff i e) (zlen (i_key e) - i_shared e) = true /\
  sub data (koff i e) (zlen (i_key e) - i_shared e) = drop (Z.to_nat (i_shared e)) (i_key e) /\
  in_block data (voff i e) (zlen (i_value e)) = true /\
  sub data (voff i e) (zlen (i_value e)) = i_value e.
Proof.
  intros He. destruct (data_split i e He) as [post Hd]. destruct (entry_ok i e He) as [Hs _ _].
  pose proof (zlen_drop (i_shared e) (i_key e) Hs) as Hl. unfold enc in Hd.
  assert (data = (stored vd (take i es) ++ header vd e) ++ drop (Z.to_nat (i_shared e)) (i_key e) ++
    (i_value e ++ post)) as H1 by (rewrite Hd, <- !app_assoc; done).
  assert (data = (stored vd (take i es) ++ header vd e ++ drop (Z.to_nat (i_shared e)) (i_key e)) ++
    i_value e ++ post) as H2 by (rewrite Hd, <- !app_assoc; done).
  assert (koff i e = zlen (stored vd (take i es) ++ header vd e)) as Hk by (rewrite zlen_app; done).
  assert (voff i e = zlen (stored vd (take i es) ++ header vd e ++ drop (Z.to_nat (i_shared e)) (i_key e))) as Hv.
  { unfold voff, koff. rewrite !zlen_app, Hl. unfold off. lia. }
  split_and!.
  - rewrite H1. by apply in_block_middle.
  - rewrite H1. by apply sub_middle.
  - rewrite H2. by apply in_block_middle.
  - rewrite H2. by apply sub_middle.
Qed.

(** The inner loop moves [restart_index_] only, and keeps it in range. *)
Lemma advance_ok fuel it :
  frame it -> indexed it -> (Z.to_nat (zlen rs - restart_index_ it) <= fuel)%nat ->
  exists k, advance_restart_index fuel it = Ret tt (set_restart_index k it) /\ 0 <= k < zlen rs.
Proof.
  revert it. induction fuel as [|fuel IH]; intros it F I Hf; [unfold indexed in I; lia|].
  cbn [advance_restart_index]. rewrite bind_gets. cbv beta. change (id it) with it. rewrite (fr_num _ F).
  assert (set_restart_index (restart_index_ it) it = it) as Hid by (by destruct it).
  destruct (Z.ltb_spec (restart_index_ it + 1) (zlen rs)) as [Hl|Hl].
  - destruct (restart_point_Z it (restart_index_ it + 1) F) as (r & Hr & Hp); [unfold indexed in I; lia|].
    erewrite bind_Ret by exact Hp. destruct (_ <? _).
    + erewrite bind_Ret by reflexivity. set (it1 := set_restart_index _ it).
      destruct (IH it1) as (k & Hk & Hr'); [by destruct F; split| | |].
      * unfold indexed in *. cbn. lia.
      * unfold indexed in I. cbn. lia.
      * exists k. done.
    + exists (restart_index_ it). rewrite Hid. done.
  - exists (restart_index_ it). rewrite Hid. done.
Qed.

Lemma block_fuel : (Z.to_nat (zlen rs) <= length data)%nat.
Proof.
  pose proof restarts_bound. pose proof (off_nonneg vd es (length es)).
  rewrite off_end, <- (lo_restarts _ _ _ _ _ LO) in * by done. pose proof (zlen_nonneg rs). unfold zlen in *. lia.
Qed.

Lemma parsed_key it i e : ready it i -> es !! i = Some e ->
  take (Z.to_nat (i_shared e)) (ik_key (raw_key_ it)) ++ drop (Z.to_nat (i_shared e)) (i_key e) = i_key e.
Proof. intros R He. destruct (rd_key it i R e He) as [_ ->]. apply take_drop. Qed.

(** The state after the assignments of [ParseNextDataKey]. *)
Lemma parsed_entry it i e k :
  ready it i -> es !! i = Some e -> 0 <= k < zlen rs ->
  at_entry (set_restart_index k (set_value (Some (voff i e, zlen (i_value e)))
    (set_raw_key (if i_shared e =? 0 then SetKey (drop (Z.to_nat (i_shared e)) (i_key e)) (Some (koff i e)) (raw_key_ it)
                  else TrimAppend (i_shared e) (drop (Z.to_nat (i_shared e)) (i_key e)) (raw_key_ it))
      (set_current (off vd es i) it)))) i e.
Proof.
  intros R He Hk. destruct (entry_bytes i e He) as (Hb & Hs & _ & _).
  pose proof (parsed_key it i e R He) as Hkey. destruct (rd_frame it i R).
  destruct (Z.eqb_spec (i_shared e) 0) as [E|E].
  - rewrite E in *. change (Z.to_nat 0) with 0%nat in *. rewrite drop_0, Z.sub_0_r in *. repeat split; try done; cbn; lia.
  - repeat split; try done; cbn; lia.
Qed.

Lemma parse_entry D limit it i e :
  decodes D -> ready it i -> es !! i = Some e -> off vd es (S i) <= default restarts limit <= restarts ->
  exists it', ParseNextDataKey D limit it = Ret true it' /\ at_entry it' i e.
Proof.
  intros HD R He HL. destruct (rd_frame it i R) as [Fd Fn Fr Fu Fg Fs].
  pose proof (off_lt vd es (lo_ok _ _ _ _ _ LO) i (S i) ltac:(lia) (lookup_lt_Some _ _ _ He)) as Hlt.
  destruct (entry_bytes i e He) as (Hb & Hsub & _ & _). destruct (rd_key it i R e He) as [Hsh _].
  unfold ParseNextDataKey. rewrite bind_gets. cbv beta. change (id it) with it. rewrite (rd_next it i R).
  erewrite bind_Ret by reflexivity. erewrite bind_Ret by reflexivity. rewrite Fd.
  erewrite bind_Ret by reflexivity. cbn beta iota zeta. rewrite Fr.
  destruct (Z.leb_spec (default restarts limit) (off vd es i)); [lia|].
  erewrite bind_Ret by (by apply HD). cbn beta iota.
  destruct (Z.ltb_spec (zlen (ik_key (raw_key_ it))) (i_shared e)); [lia|]. rewrite Hb, Hsub.
  erewrite bind_Ret by reflexivity. erewrite bind_Ret by reflexivity.
  change (koff i e + (zlen (i_key e) - i_shared e)) with (voff i e).
  change (raw_key_ (set_current (off vd es i) it)) with (raw_key_ it).
  set (it2 := set_value _ _).
  assert (set_restart_index (restart_index_ it) it2 = it2) as Hid by done.
  destruct (i_shared e =? 0) eqn:E.
  - destruct (advance_ok (S (length data)) it2) as (k & Hk & Hr).
    + by split.
    + apply (rd_index it i R).
    + pose proof block_fuel. pose proof (rd_index it i R) as Hi. unfold indexed in Hi. cbn. lia.
    + cbn [when]. erewrite bind_Ret by exact Hk. eexists. split; [reflexivity|].
      pose proof (parsed_entry it i e k R He Hr) as Ha. rewrite E in Ha. exact Ha.
  - cbn [when]. erewrite bind_Ret by reflexivity. exists it2. split; [reflexivity|].
    pose proof (parsed_entry it i e (restart_index_ it) R He (rd_index it i R)) as Ha. rewrite E in Ha. exact Ha.
Qed.

Lemma parse_end D limit it i :
  ready it i -> default restarts limit <= off vd es i ->
  exists it', ParseNextDataKey D limit it = Ret false it' /\ at_end it'.
Proof.
  intros R HL. destruct (rd_frame it i R) as [Fd Fn Fr Fu Fg Fs].
  unfold ParseNextDataKey. rewrite bind_gets. cbv beta. change (id it) with it. rewrite (rd_next it i R).
  erewrite bind_Ret by reflexivity. erewrite bind_Ret by reflexivity. rewrite Fd.
  erewrite bind_Ret by reflexivity. cbn beta iota zeta. rewrite Fr.
  destruct (Z.leb_spec (default restarts limit) (off vd es i)); [|lia].
  erewrite bind_Ret by reflexivity. eexists. split; [reflexivity|]. by split.
Qed.

Lemma entry_ready it i e : at_entry it i e -> ready it (S i).
Proof.
  intros [F I He Hc Hk Ha Hv]. pose proof (lookup_lt_Some _ _ _ He) as Hl. split; [done|done|lia| |].
  - unfold NextEntryOffset. rewrite Hv. cbn. rewrite <- (entry_end i e He). by rewrite u32_small by apply off_small.
  - intros e' He'. rewrite Hk. exact (lo_chain _ _ _ _ _ LO i e e' He He').
Qed.

Lemma at_entry_value it i e : at_entry it i e -> it_value it = Some (i_value e).
Proof.
  intros [F I He Hc Hk Ha Hv]. unfold it_value. rewrite (fr_data _ F), Hv. cbn.
  destruct (entry_bytes i e He) as (_ & _ & -> & ->). done.
Qed.

Lemma at_entry_valid it i e : at_entry it i e -> it_Valid it = true.
Proof.
  intros [F I He Hc Hk Ha Hv]. unfold it_Valid. rewrite Hc, (fr_restarts _ F). apply Z.ltb_lt.
  pose proof (lookup_lt_Some _ _ _ He). rewrite (lo_restarts _ _ _ _ _ LO), <- (off_end vd es (length es)) by done.
  apply off_lt; [apply LO|lia|lia].
Qed.
Lemma at_end_valid it : at_end it -> it_Valid it = false.
Proof. intros [F Hc]. unfold it_Valid. rewrite Hc, (fr_restarts _ F). apply Z.ltb_irrefl. Qed.

(** [Prev] goes back to a restart point before the entry. *)
Lemma back_ok fuel it i :
  frame it -> indexed it -> (i < length es)%nat -> (Z.to_nat (restart_index_ it) < fuel)%nat ->
  exists more it', back_to_restart fuel (off vd es i) it = Ret more it' /\
    if (more : bool) then frame it' /\ exists r, 0 <= restart_index_ it' /\
        rs !! Z.to_nat (restart_index_ it') = Some r /\ (r < i)%nat
    else at_end it' /\ i = 0%nat.
Proof.
  revert it. induction fuel as [|fuel IH]; intros it F I Hi Hf; [lia|]. cbn [back_to_restart].
  rewrite bind_gets. cbv beta. change (id it) with it.
  destruct (restart_point_Z it (restart_index_ it) F I) as (r & Hr & Hp).
  erewrite bind_Ret by exact Hp. unfold indexed in I. destruct (Z.leb_spec (off vd es i) (off vd es r)) as [Hle|Hlt].
  - destruct (Z.eqb_spec (restart_index_ it) 0) as [H0|H0].
    + erewrite bind_Ret by reflexivity. eexists false, _. split; [reflexivity|].
      rewrite H0 in Hr. change (Z.to_nat 0) with 0%nat in Hr. rewrite (lo_first _ _ _ _ _ LO) in Hr. injection Hr as <-.
      apply off_le_inv in Hle; [|apply (lo_ok _ _ _ _ _ LO)|lia]. split; [|lia]. destruct F. split; [by split|done].
    + erewrite bind_Ret by reflexivity. apply IH; [by destruct F; split| |done|].
      * unfold indexed. cbn. lia.
      * cbn. lia.
  - eexists true, it. split; [reflexivity|]. split; [done|]. exists r. split; [lia|]. split; [done|].
    by eapply off_lt_inv.
Qed.
End Iter.

(** The two decoders of data blocks. *)
Section Decoders.
Context {data : bytes} {restarts : Z} {es : list item} {rs : list nat} (LO : layout false data restarts es rs).

Lemma DecodeEntry_decodes : decodes (vd := false) (data := data) (restarts := restarts) (es := es) DecodeEntry.
Proof.
  intros it i e limit He HL. destruct (data_split LO i e He) as [post Hd].
  unfold DecodeEntry, koff. eapply decode_header_at.
  - by eapply entry_ok.
  - rewrite Hd. unfold enc. by rewrite <- app_assoc.
  - done.
  - pose proof (off_S false es i e He) as Ho. unfold enc in Ho. rewrite !zlen_app in Ho.
    pose proof (zlen_nonneg (drop (Z.to_nat (i_shared e)) (i_key e))). pose proof (zlen_nonneg (i_value e)).
    unfold off in *. lia.
Qed.

Lemma CheckAndDecodeEntry_decodes :
  decodes (vd := false) (data := data) (restarts := restarts) (es := es) CheckAndDecodeEntry.
Proof.
  intros it i e limit He HL. unfold CheckAndDecodeEntry.
  pose proof (entry_end LO i e He) as Hend. unfold voff, koff in Hend.
  pose proof (entry_ok LO i e He) as Hok. destruct (item_ok_sizes e Hok) as (Ha & Hb & Hc).
  pose proof (zlen_EncodeVarint32 _ Ha). pose proof (zlen_EncodeVarint32 _ Hb). pose proof (zlen_EncodeVarint32 _ Hc).
  assert (zlen (header false e) = zlen (EncodeVarint32 (i_shared e)) +
    (zlen (EncodeVarint32 (zlen (i_key e) - i_shared e)) + zlen (EncodeVarint32 (zlen (i_value e))))) as Hh.
  { unfold header. by rewrite !zlen_app. }
  destruct (Z.ltb_spec (limit - off false es i) 3); [lia|].
  erewrite bind_Ret by (by apply DecodeEntry_decodes). cbn beta iota.
  pose proof (restarts_bound LO). pose proof (lo_size _ _ _ _ _ LO). pose proof (zlen_nonneg rs).
  pose proof (off_nonneg false es i). unfold koff. rewrite !u32_small by lia.
  by destruct (Z.ltb_spec (limit - (off false es i + zlen (header false e)))
    (zlen (i_key e) - i_shared e + zlen (i_value e))); [lia|].
Qed.
End Decoders.
