(* ===== verification/BlockSeek.v ===== *)
(** Searching a block: the binary search over the restart points and the linear
    search behind it end at the first entry that is not below the target. *)
From S2P Require Import Prelude Bits Coding IoStatus Comparator DbFormat BlockBuilder BlockIter BlockSpec.
From stdpp Require Import base numbers list strings.
From Stdlib Require Import ZArith Lia.
Local Open Scope Z_scope.

(** The number of entries in front that are below the target; [below] says so of
    a key. *)
Fixpoint count_front (below : bytes -> bool) (es : list item) : nat :=
  match es with
  | [] => O
  | e :: es' => if below (i_key e) then S (count_front below es') else O
  end.

Section Front.
Context (below : bytes -> bool) (es : list item).

Lemma count_front_le : (count_front below es <= length es)%nat.
Proof. induction es as [|e l IH]; cbn; [done|]. destruct (below (i_key e)); lia. Qed.

Lemma count_front_below i e : es !! i = Some e -> (i < count_front below es)%nat -> below (i_key e) = true.
Proof.
  revert i. induction es as [|x l IH]; intros [|i] He; cbn; try done.
  - injection He as ->. destruct (below (i_key e)); [done|lia].
  - destruct (below (i_key x)); [|lia]. intros Hi. apply (IH i); [done|lia].
Qed.

Lemma count_front_stop e : es !! count_front below es = Some e -> below (i_key e) = false.
Proof.
  induction es as [|x l IH]; cbn; [done|]. destruct (below (i_key x)) eqn:E; [done|]. by intros [= <-].
Qed.

(** It is the only such number. *)
Lemma count_front_unique i :
  (i <= length es)%nat -> (forall j e, (j < i)%nat -> es !! j = Some e -> below (i_key e) = true) ->
  (forall e, es !! i = Some e -> below (i_key e) = false) -> count_front below es = i.
Proof.
  intros Hi Hb Hs. pose proof count_front_le. destruct (lt_eq_lt_dec (count_front below es) i) as [[Hlt|?]|Hlt]; [|done|].
  - destruct (lookup_lt_is_Some_2 es (count_front below es) ltac:(lia)) as [e He].
    pose proof (count_front_stop e He). rewrite (Hb _ e Hlt He) in *. done.
  - destruct (lookup_lt_is_Some_2 es i ltac:(lia)) as [e He].
    pose proof (count_front_below i e He Hlt). rewrite (Hs e He) in *. done.
Qed.
End Front.

(** ** Walking over the entries

    What the searches ask of an iterator that inherits from [BlockIter]: its state
    contains one, its [NextImpl] parses the next entry.  [here], [ready_] and [fin] are
    its states on an entry, before one and behind the last. *)
Section Walking.
Context {vd : bool} {data : bytes} {restarts : Z} {es : list item} {rs : list nat} (u : bool) (g : Z).

Record walker {S} (base : lens S BlockIter) (NextImpl : prog S unit) (sound : S -> Prop)
    (ready_ : S -> nat -> Prop) (here : S -> nat -> item -> Prop) (fin : S -> Prop) : Prop := {
  wk_view : forall b s, view base (set base b s) = b;
  wk_same : forall s, set base (view base s) s = s;
  wk_frame : forall s, sound s -> frame (data := data) (restarts := restarts) (rs := rs) u g (view base s);
  wk_set : forall b s, sound s -> frame (data := data) (restarts := restarts) (rs := rs) u g b -> sound (set base b s);
  wk_seek : forall b s r, sound s -> ready (vd := vd) (data := data) (restarts := restarts) (es := es) (rs := rs) u g b r ->
    (forall e, es !! r = Some e -> i_shared e = 0) -> ready_ (set base b s) r;
  wk_next : forall s i e, ready_ s i -> es !! i = Some e -> exists s', NextImpl s = Ret tt s' /\ here s' i e;
  wk_end : forall s, ready_ s (length es) -> exists s', NextImpl s = Ret tt s' /\ fin s';
  wk_here : forall s i e, here s i e -> ready_ s (Datatypes.S i) /\
    at_entry (vd := vd) (data := data) (restarts := restarts) (es := es) (rs := rs) u g (view base s) i e /\ sound s;
  wk_fin : forall s, fin s -> at_end (data := data) (restarts := restarts) (rs := rs) u g (view base s) /\ sound s }.

(** An entry, or none. *)
Definition at_pos {S} (here : S -> nat -> item -> Prop) (fin : S -> Prop) (s : S) (p : option nat) : Prop :=
  match p with Some i => exists e, here s i e | None => fin s end.
Definition to_pos (n : nat) : option nat := if (n <? length es)%nat then Some n else None.

Lemma to_pos_entry i e : es !! i = Some e -> to_pos i = Some i.
Proof. intros He. unfold to_pos. by rewrite (proj2 (Nat.ltb_lt _ _) (lookup_lt_Some _ _ _ He)). Qed.
Lemma to_pos_end : to_pos (length es) = None.
Proof. unfold to_pos. by rewrite Nat.ltb_irrefl. Qed.
End Walking.

Section Search.
Context {vd : bool} {data : bytes} {restarts : Z} {es : list item} {rs : list nat}.
Context (LO : layout vd data restarts es rs) (u : bool) (g : Z).
Context {user_comparator : Comparator}.

(** The comparison with the target, and what makes the block searchable: below an
    entry that is not above the target, all are below it. *)
Context (kcmp : bytes -> Z) (target : bytes).
Context (Hcmp : forall it e, frame (data := data) (restarts := restarts) (rs := rs) u g it -> e ∈ es ->
  ik_key (raw_key_ it) = i_key e -> CompareCurrentKey target it = Some (kcmp (i_key e))).
Context (Hsorted : forall i j e f, es !! i = Some e -> es !! j = Some f -> (i < j)%nat ->
  kcmp (i_key f) <= 0 -> kcmp (i_key e) < 0).

Abbreviation framed := (frame (data := data) (restarts := restarts) (rs := rs) u g).
Abbreviation entry := (at_entry (vd := vd) (data := data) (restarts := restarts) (es := es) (rs := rs) u g).

Abbreviation kpos := (koff (vd := vd) (es := es)).

Definition is_below (k : bytes) : bool := kcmp k <? 0.
Definition lower_bound : nat := count_front is_below es.

Lemma below_before i j e f : es !! i = Some e -> es !! j = Some f -> (j <= i)%nat ->
  kcmp (i_key e) < 0 -> is_below (i_key f) = true.
Proof.
  intros He Hf Hj Hlt. unfold is_below. apply Z.ltb_lt. destruct (decide (j = i)) as [->|].
  - rewrite He in Hf. by injection Hf as <-.
  - apply (Hsorted j i f e); [done|done|lia|lia].
Qed.

(** An entry that is not below the target, all those before it being below. *)
Lemma lower_bound_here i e : es !! i = Some e -> 0 <= kcmp (i_key e) ->
  (forall j f, (j < i)%nat -> es !! j = Some f -> kcmp (i_key f) < 0) -> lower_bound = i.
Proof.
  intros He Hge Hb. apply count_front_unique.
  - pose proof (lookup_lt_Some _ _ _ He). lia.
  - intros j f Hj Hf. apply Z.ltb_lt. by apply (Hb j).
  - intros f Hf. rewrite He in Hf. injection Hf as <-. by apply Z.ltb_ge.
Qed.

(** ** Binary search *)

Definition keys_decode (DK : bytes -> Z -> Z -> prog BlockIter (option (Z * (Z * Z)))) : Prop :=
  forall it i e, es !! i = Some e ->
    DK data (off vd es i) restarts it = Ret (Some (kpos i e, (i_shared e, zlen (i_key e) - i_shared e))) it.

(** Restart point [j] compares with the target like [P] says. *)
Definition restart_key (j : Z) (P : Z -> Prop) : Prop :=
  forall r e, rs !! Z.to_nat j = Some r -> es !! r = Some e -> P (kcmp (i_key e)).

Lemma zlen_rs : 0 < zlen rs < 2 ^ 32.
Proof.
  pose proof (restarts_bound LO). pose proof (lo_size _ _ _ _ _ LO). pose proof (off_nonneg vd es (length es)).
  rewrite off_end, <- (lo_restarts _ _ _ _ _ LO) in * by done.
  pose proof (lookup_lt_Some _ _ _ (lo_first _ _ _ _ _ LO)). unfold zlen in *. lia.
Qed.

Context (Hne : es <> []).

Lemma restart_entry j : 0 <= j < zlen rs ->
  exists r e, rs !! Z.to_nat j = Some r /\ es !! r = Some e /\ i_shared e = 0.
Proof.
  intros Hj. destruct (rs_index j Hj) as [r Hr]. exists r.
  assert (r < length es)%nat as Hl.
  { destruct (lo_range _ _ _ _ _ LO _ r Hr) as [?| ->]; [done|]. destruct es; [done|cbn; lia]. }
  destruct (lookup_lt_is_Some_2 es r Hl) as [e He]. exists e. split; [done|]. split; [done|].
  by apply (lo_restart _ _ _ _ _ LO _ r e Hr).
Qed.

(** One probe of the search: the key of a restart point is loaded and compared. *)
Lemma probe DK it r e :
  keys_decode DK -> framed it -> es !! r = Some e -> i_shared e = 0 ->
  DK data (off vd es r) restarts it = Ret (Some (kpos r e, (0, zlen (i_key e)))) it /\
  in_block data (kpos r e) (zlen (i_key e)) = true /\
  let it' := set_raw_key (SetKey (sub data (kpos r e) (zlen (i_key e))) (Some (kpos r e)) (raw_key_ it)) it in
  framed it' /\ CompareCurrentKey target it' = Some (kcmp (i_key e)).
Proof.
  intros HD F He Hs. destruct (entry_bytes LO r e He) as (Hb & Hsub & _ & _).
  pose proof (HD it r e He) as Hdec. rewrite Hs, Z.sub_0_r in *. split; [exact Hdec|]. split; [exact Hb|].
  cbv zeta. rewrite Hsub. split; [by destruct F; split|]. apply Hcmp; [by destruct F; split| |done].
  by eapply list_elem_of_lookup_2.
Qed.

Lemma binary_seek_ok DK fuel it left right :
  keys_decode DK -> framed it -> -1 <= left <= right -> right < zlen rs ->
  right - left < 2 ^ (Z.of_nat fuel) ->
  (0 <= left -> restart_key left (fun c => c < 0)) -> (right + 1 < zlen rs -> restart_key (right + 1) (fun c => 0 < c)) ->
  exists l skip it', binary_seek_loop DK (S fuel) target left right false it = Ret (Some (l, skip)) it' /\
    framed it' /\ -1 <= l < zlen rs /\
    if (skip : bool) then 0 <= l /\ restart_key l (fun c => c = 0)
    else (0 <= l -> restart_key l (fun c => c < 0)) /\ (l + 1 < zlen rs -> restart_key (l + 1) (fun c => 0 < c)).
Proof.
  intros HD. revert it left right. induction fuel as [|fuel IH]; intros it left right F Hlr Hr Hd Hl Hg.
  { cbn [binary_seek_loop]. change (2 ^ Z.of_nat 0) with 1 in Hd. assert (right = left) as -> by lia. rewrite Z.eqb_refl.
    exists left, false, it. split; [done|]. split; [done|]. split; [lia|done]. }
  remember (S fuel) as f eqn:Ef. cbn [binary_seek_loop]. destruct (Z.eqb_spec left right) as [<-|Hneq].
  { exists left, false, it. split; [done|]. split; [done|]. split; [lia|done]. }
  set (mid := left + (right - left + 1) / 2).
  assert (left < mid <= right /\ right - mid <= (right - left) / 2 /\ mid - 1 - left <= (right - left) / 2) as (Hm & Hd1 & Hd2).
  { subst mid. pose proof (Z.div_mod (right - left + 1) 2). pose proof (Z.mod_pos_bound (right - left + 1) 2).
    pose proof (Z.div_mod (right - left) 2). pose proof (Z.mod_pos_bound (right - left) 2). lia. }
  assert ((right - left) / 2 < 2 ^ Z.of_nat fuel) as Hhalf.
  { subst f. rewrite Nat2Z.inj_succ, Z.pow_succ_r in Hd by lia. apply Z.div_lt_upper_bound; lia. }
  pose proof zlen_rs. rewrite (u32_small mid) by lia.
  destruct (restart_entry mid) as (r & e & Hre & He & Hs); [lia|].
  destruct (restart_point_Z LO u g it mid F) as (r' & Hr' & Hp); [lia|].
  rewrite Hre in Hr'. injection Hr' as <-. erewrite bind_Ret by exact Hp.
  rewrite bind_gets. cbv beta. change (id it) with it. rewrite (fr_data _ _ _ F), (fr_restarts _ _ _ F).
  destruct (probe DK it r e HD F He Hs) as (Hdec & Hb & F1 & Hc). cbv zeta in F1, Hc.
  erewrite bind_Ret by reflexivity. erewrite bind_Ret by exact Hdec. cbv beta iota. rewrite Hb.
  erewrite bind_Ret by reflexivity. set (it1 := set_raw_key _ it) in *.
  rewrite bind_gets. cbv beta. change (id it1) with it1. rewrite Hc. erewrite bind_Ret by reflexivity.
  assert (forall P : Z -> Prop, P (kcmp (i_key e)) -> restart_key mid P) as Hmid.
  { intros P HP r0 e0 Hr0 He0. rewrite Hre in Hr0. injection Hr0 as <-. rewrite He in He0. by injection He0 as <-. }
  destruct (Z.ltb_spec (kcmp (i_key e)) 0); [|destruct (Z.ltb_spec 0 (kcmp (i_key e)))].
  - subst f. apply IH; [done|lia|lia|lia| |done]. intros _. by apply Hmid.
  - subst f. apply IH; [done|lia|lia|lia|done|]. intros _. replace (mid - 1 + 1) with mid by lia. by apply Hmid.
  - subst f. cbn [binary_seek_loop]. rewrite Z.eqb_refl. exists mid, true, it1.
    split; [done|]. split; [done|]. split; [lia|]. split; [lia|]. apply Hmid. lia.
Qed.

(** What [BinarySeek] promises: either the restart point it returns is the first
    entry that is not below the target, or that entry lies behind the restart
    point and not behind the next one. *)
Definition bracketed (index : Z) (skip : bool) : Prop :=
  0 <= index < zlen rs /\
  if skip then restart_key index (fun _ => True) /\ rs !! Z.to_nat index = Some lower_bound
  else restart_key index (fun c => c < 0) /\ (index + 1 < zlen rs -> restart_key (index + 1) (fun c => 0 < c)).

Lemma BinarySeek_ok DK it :
  keys_decode DK -> framed it ->
  exists index skip it', BinarySeek DK target it = Ret (Some (index, skip)) it' /\ framed it' /\ bracketed index skip.
Proof.
  intros HD F. pose proof zlen_rs as Hrs. unfold BinarySeek. rewrite bind_gets. cbv beta. change (id it) with it.
  rewrite (fr_restarts _ _ _ F), (fr_num _ _ _ F).
  assert (restarts <> 0) as H0.
  { rewrite (lo_restarts _ _ _ _ _ LO), <- (off_end vd es (length es)) by done.
    pose proof (off_lt vd es (lo_ok _ _ _ _ _ LO) 0 (length es)). rewrite off_0 in *. destruct es; [done|]. cbn in *. lia. }
  destruct (Z.eqb_spec restarts 0); [done|].
  destruct (binary_seek_ok DK 63 it (-1) (zlen rs - 1)) as (l & skip & it' & Hl & F' & Hr & Hres);
    [done|done|lia|lia|change (2 ^ Z.of_nat 63) with (2 ^ 63); lia|lia|lia|].
  erewrite bind_Ret by exact Hl. cbv beta iota. destruct (Z.eqb_spec l (-1)) as [->|Hne'].
  - exists 0, true, it'. split; [done|]. split; [done|]. split; [lia|]. split; [done|].
    destruct skip; [lia|]. destruct Hres as [_ Hres]. change (Z.to_nat 0) with 0%nat. rewrite (lo_first _ _ _ _ _ LO). f_equal.
    destruct (restart_entry 0) as (r & e & Hr0 & He & _); [lia|]. change (Z.to_nat 0) with 0%nat in Hr0.
    rewrite (lo_first _ _ _ _ _ LO) in Hr0. injection Hr0 as <-. symmetry. apply (lower_bound_here 0 e); [done| |lia].
    apply Z.lt_le_incl. apply (Hres ltac:(lia) 0%nat e); [exact (lo_first _ _ _ _ _ LO)|done].
  - rewrite u32_small by lia. exists l, skip, it'. split; [done|]. split; [done|]. split; [lia|].
    destruct skip; [|split; [apply Hres; lia|apply Hres]]. split; [done|].
    destruct (restart_entry l) as (r & e & Hr0 & He & _); [lia|]. rewrite Hr0. f_equal. symmetry.
    destruct Hres as [_ Heq]. specialize (Heq r e Hr0 He). cbv beta in Heq.
    apply (lower_bound_here r e); [done|lia|]. intros j f Hj Hf. by apply (Hsorted j r f e); [| |lia|lia].
Qed.

(** ** Linear search *)
Section Linear.
Context {S : Type} {base : lens S BlockIter} {NextImpl : prog S unit} {sound : S -> Prop}.
Context {ready_ : S -> nat -> Prop} {here : S -> nat -> item -> Prop} {fin : S -> Prop}.
Context (W : walker (vd := vd) (data := data) (restarts := restarts) (es := es) (rs := rs) u g
  base NextImpl sound ready_ here fin).

(** [max_offset] is that of an entry above the target, or of none. *)
Definition stops (max_offset : Z) : Prop :=
  max_offset = 2 ^ 32 - 1 \/ exists r e, es !! r = Some e /\ max_offset = off vd es r /\ 0 < kcmp (i_key e).

Lemma linear_seek_ok fuel s k max_offset :
  ready_ s k -> (k <= length es)%nat -> stops max_offset ->
  (forall j f, (j < k)%nat -> es !! j = Some f -> kcmp (i_key f) < 0) -> (length es - k < fuel)%nat ->
  exists s', linear_seek_loop base NextImpl fuel target max_offset s = Ret tt s' /\
    at_pos here fin s' (to_pos (es := es) lower_bound).
Proof.
  intros R Hk Hstop. revert s k R Hk. induction fuel as [|fuel IH]; intros s k R Hk Hb Hf; [lia|].
  cbn [linear_seek_loop]. destruct (es !! k) as [e|] eqn:He.
  - destruct (wk_next _ _ _ _ _ _ _ _ W s k e R He) as (s' & Hn & Hh). erewrite bind_Ret by exact Hn.
    destruct (wk_here _ _ _ _ _ _ _ _ W s' k e Hh) as (R' & A & _). rewrite bind_gets. cbv beta.
    rewrite (at_entry_valid LO u g _ k e A), (ae_current _ _ _ _ _ A). cbn [negb].
    pose proof (lookup_lt_Some _ _ _ He) as Hl.
    assert (0 <= kcmp (i_key e) -> at_pos here fin s' (to_pos (es := es) lower_bound)) as Hfound.
    { intros Hge. rewrite (lower_bound_here k e He Hge), (to_pos_entry k e He) by done. by exists e. }
    destruct (Z.eqb_spec (off vd es k) max_offset) as [Ho|Ho].
    + exists s'. split; [done|]. apply Hfound. destruct Hstop as [->|(r & e' & Hr & -> & Hgt)].
      * pose proof (off_mono vd es k (length es) ltac:(lia)). rewrite (off_end vd es (length es)) in * by done.
        rewrite <- (lo_restarts _ _ _ _ _ LO) in *. pose proof (restarts_bound LO). pose proof zlen_rs.
        pose proof (lo_size _ _ _ _ _ LO). lia.
      * apply off_eq_inv in Ho as ->; [|apply LO|done|by eapply lookup_lt_Some].
        rewrite He in Hr. injection Hr as <-. lia.
    + rewrite (Hcmp (view base s') e); [|apply A|by eapply list_elem_of_lookup_2|apply A].
      erewrite bind_Ret by reflexivity. destruct (Z.leb_spec 0 (kcmp (i_key e))) as [Hge|Hlt].
      * exists s'. split; [done|]. by apply Hfound.
      * apply (IH s' (Datatypes.S k)); [done|lia| |lia]. intros j f Hj Hf'.
        destruct (decide (j = k)) as [->|]; [|apply (Hb j f); [lia|done]]. rewrite He in Hf'. by injection Hf' as <-.
  - apply lookup_ge_None in He. assert (k = length es) as -> by lia.
    destruct (wk_end _ _ _ _ _ _ _ _ W s R) as (s' & Hn & Hfin). erewrite bind_Ret by exact Hn.
    destruct (wk_fin _ _ _ _ _ _ _ _ W s' Hfin) as [A _]. rewrite bind_gets. cbv beta.
    rewrite (at_end_valid u g _ A). cbn [negb]. exists s'. split; [done|].
    assert (lower_bound = length es) as ->; [|by rewrite to_pos_end].
    apply count_front_unique; [done| |intros e He'%lookup_lt_Some; lia].
    intros j e Hj Hje. apply Z.ltb_lt. by apply (Hb j).
Qed.

Lemma FindKey_ok s index skip :
  sound s -> bracketed index skip ->
  exists s', FindKeyAfterBinarySeek base NextImpl target index skip s = Ret tt s' /\
    at_pos here fin s' (to_pos (es := es) lower_bound).
Proof.
  intros So (Hi & Hbr). unfold FindKeyAfterBinarySeek.
  destruct (restart_entry index Hi) as (r & e & Hr & He & Hs).
  destruct (seek_to_restart LO u g (view base s) (Z.to_nat index) r) as (b & Hb & R & _);
    [by eapply wk_frame|done|]. rewrite Z2Nat.id in Hb by lia.
  erewrite bind_Ret by (by apply zoom_Ret). set (s1 := set base b s).
  assert (ready_ s1 r) as R1.
  { eapply (wk_seek _ _ _ _ _ _ _ _ W); [done|done|]. intros e' He'. rewrite He in He'. by injection He' as <-. }
  destruct (wk_next _ _ _ _ _ _ _ _ W s1 r e R1 He) as (s2 & Hn & Hh). erewrite bind_Ret by exact Hn.
  destruct (wk_here _ _ _ _ _ _ _ _ W s2 r e Hh) as (R2 & A & So2).
  destruct skip.
  { destruct Hbr as [_ Hlb]. rewrite Hr in Hlb. injection Hlb as <-. exists s2. split; [done|].
    rewrite (to_pos_entry r e He). by exists e. }
  destruct Hbr as [Hlt Hnext]. specialize (Hlt r e Hr He). cbv beta in Hlt.
  rewrite bind_gets. cbv beta. destruct (ae_frame _ _ _ _ _ A) as [Fd Fn Fr _ _ _]. rewrite Fn, Fd.
  assert (exists max, (if index + 1 <? zlen rs then zoom base (GetRestartPoint (index + 1)) else mret (2 ^ 32 - 1)) s2 =
    Ret max s2 /\ stops max) as (max & Hmax & Hstop).
  { destruct (Z.ltb_spec (index + 1) (zlen rs)); [|exists (2 ^ 32 - 1); split; [done|by left]].
    destruct (restart_entry (index + 1)) as (r' & e' & Hr' & He' & _); [lia|].
    exists (off vd es r'). split.
    - pose proof (restart_point LO u g (view base s2) (Z.to_nat (index + 1)) r' (ae_frame _ _ _ _ _ A) Hr') as Hp.
      rewrite Z2Nat.id in Hp by lia. rewrite (zoom_Ret base _ s2 _ _ Hp). f_equal. by eapply wk_same.
    - right. exists r', e'. split; [done|]. split; [done|]. by apply (Hnext ltac:(lia) r' e'). }
  erewrite bind_Ret by exact Hmax. erewrite bind_Ret by reflexivity.
  pose proof (lookup_lt_Some _ _ _ He). apply (linear_seek_ok _ s2 (Datatypes.S r)); [done|lia|done| |].
  - intros j f Hj Hf. apply Z.ltb_lt. apply (below_before r j e f); [done|done|lia|done].
  - pose proof (entries_bound vd es (lo_ok _ _ _ _ _ LO) (length es) ltac:(done)) as Hl.
    rewrite (off_end vd es (length es)), <- (lo_restarts _ _ _ _ _ LO) in Hl by done.
    pose proof (restarts_bound LO). pose proof zlen_rs. unfold zlen in *. lia.
Qed.
End Linear.
End Search.
