(* ===== verification/BlockCursor.v ===== *)
(** The data block iterator moves over the entries of a block like a cursor over a
    list: a lemma for each of its operations, with the cache of [Prev]. *)
From S2P Require Import Prelude Bits Coding IoStatus Comparator DbFormat BlockBuilder BlockIter BlockSpec BlockSeek.
From stdpp Require Import base numbers list strings.
From Stdlib Require Import ZArith Lia.
Local Open Scope Z_scope.

Lemma sub_app_l {A} (l x : list A) o n : in_block l o n = true ->
  in_block (l ++ x) o n = true /\ sub (l ++ x) o n = sub l o n.
Proof.
  intros (? & ? & ?)%in_block_spec. split; [apply in_block_spec; rewrite length_app; lia|].
  unfold sub. rewrite drop_app_le by lia. by rewrite take_app_le by (rewrite length_drop; lia).
Qed.

Section Cursor.
Context {data : bytes} {restarts : Z} {es : list item} {rs : list nat}.
Context (LO : layout false data restarts es rs) (g : Z).

Abbreviation framed := (frame (data := data) (restarts := restarts) (rs := rs) false g).
Abbreviation entry := (at_entry (vd := false) (data := data) (restarts := restarts) (es := es) (rs := rs) false g).
Abbreviation ended := (at_end (data := data) (restarts := restarts) (rs := rs) false g).
Abbreviation readied := (ready (vd := false) (data := data) (restarts := restarts) (es := es) (rs := rs) false g).
Abbreviation offset := (off false es).
Abbreviation vpos := (voff (vd := false) (es := es)).

(** ** The cache of [Prev] *)

(** A cached entry is entry [i] of the block. *)
Definition caches (buff : bytes) (c : CachedPrevEntry) (i : nat) : Prop :=
  exists e, es !! i = Some e /\ ce_offset c = offset i /\ key_size c = zlen (i_key e) /\
    ce_value c = Some (vpos i e, zlen (i_value e)) /\
    let '(mem, o) := match key_ptr c with Some p => (data, p) | None => (buff, key_offset c) end in
    in_block mem o (zlen (i_key e)) = true /\ sub mem o (zlen (i_key e)) = i_key e.

(** The cache holds consecutive entries, from [b] on. *)
Definition cache_from (s : DataBlockIter) (b : nat) : Prop :=
  forall j c, prev_entries_ s !! j = Some c -> caches (prev_entries_keys_buff_ s) c (b + j).
Definition cache_ok (s : DataBlockIter) : Prop :=
  (exists b, cache_from s b) /\ -1 <= prev_entries_idx_ s < zlen (prev_entries_ s).

Definition sound_ (s : DataBlockIter) : Prop := framed (data_iter s) /\ cache_ok s.
Definition ready_ (s : DataBlockIter) (i : nat) : Prop := readied (data_iter s) i /\ cache_ok s.
Definition here (s : DataBlockIter) (i : nat) (e : item) : Prop := entry (data_iter s) i e /\ cache_ok s.
Definition fin (s : DataBlockIter) : Prop := ended (data_iter s) /\ cache_ok s.
Abbreviation pos := (at_pos here fin).

Lemma zoom_base {A} (m : prog BlockIter A) s a b :
  m (data_iter s) = Ret a b -> zoom data_base m s = Ret a (set data_base b s).
Proof. apply (zoom_Ret data_base). Qed.

Lemma data_parse s i e : readied (data_iter s) i -> es !! i = Some e ->
  exists b, data_Parse None s = Ret true (set data_base b s) /\ entry b i e.
Proof.
  intros R He. destruct (parse_entry LO false g DecodeEntry None (data_iter s) i e) as (b & Hb & A);
    [exact (DecodeEntry_decodes LO)|done|done|by eapply entry_limit|].
  exists b. split; [|done]. unfold data_Parse. by apply zoom_base.
Qed.

Lemma data_parse_end s : readied (data_iter s) (length es) ->
  exists b, data_Parse None s = Ret false (set data_base b s) /\ ended b.
Proof.
  intros R. destruct (parse_end false g DecodeEntry None (data_iter s) (length es) R) as (b & Hb & A).
  { cbn. rewrite (off_end false es), <- (lo_restarts _ _ _ _ _ LO) by done. lia. }
  exists b. split; [|done]. unfold data_Parse. by apply zoom_base.
Qed.

Lemma data_walker : walker (vd := false) (data := data) (restarts := restarts) (es := es) (rs := rs) false g
  data_base data_NextImpl sound_ ready_ here fin.
Proof.
  split.
  - done.
  - by intros [].
  - intros s [F _]. exact F.
  - intros b s [_ C] F. by split.
  - intros b s r [_ C] R _. by split.
  - intros s i e [R C] He. destruct (data_parse s i e R He) as (b & Hb & A). unfold data_NextImpl.
    erewrite bind_Ret by exact Hb. eexists. split; [reflexivity|]. by split.
  - intros s [R C]. destruct (data_parse_end s R) as (b & Hb & A). unfold data_NextImpl.
    erewrite bind_Ret by exact Hb. eexists. split; [reflexivity|]. by split.
  - intros s i e [A C]. split; [split; [by eapply entry_ready|done]|]. split; [done|]. split; [apply A|done].
  - intros s [A C]. split; [done|]. split; [apply A|done].
Qed.

Lemma here_data s i e : here s i e -> it_data_ (data_iter s) = Some data.
Proof. intros [[F _ _ _ _ _ _] _]. apply F. Qed.

(** ** Backwards *)

Lemma caches_app buff x c i : caches buff c i -> caches (buff ++ x) c i.
Proof.
  intros (e & He & Ho & Hs & Hv & Hk). exists e. split_and!; try done.
  destruct (key_ptr c); [done|]. destruct Hk as [Hb Hsub]. destruct (sub_app_l buff x _ _ Hb) as [-> ->]. done.
Qed.

(** The entry that [cache_entries] adds, and those that were there. *)
Lemma cached_entry s i e : entry (data_iter s) i e -> caches (cache_current s).1 (cache_current s).2 i.
Proof.
  intros [F I He Hc Hk Ha Hv]. unfold cache_current. exists e. rewrite Hc, Hk, Hv.
  destruct (key_addr (raw_key_ (data_iter s))) as [p|]; [done|].
  split_and!; try done. cbn. rewrite <- (app_nil_r (prev_entries_keys_buff_ s ++ i_key e)), <- app_assoc.
  split; [by apply in_block_middle|by apply sub_middle].
Qed.
Lemma cached_before s c i : caches (prev_entries_keys_buff_ s) c i -> caches (cache_current s).1 c i.
Proof. unfold cache_current. destruct (key_addr _); [done|apply caches_app]. Qed.

Lemma cache_entries_ok fuel s r k i :
  readied (data_iter s) k -> (r <= k < i)%nat -> (i <= length es)%nat -> cache_from s r ->
  length (prev_entries_ s) = (k - r)%nat -> (i - k <= fuel)%nat ->
  exists s' e, cache_entries fuel (offset i) s = Ret tt s' /\ entry (data_iter s') (i - 1) e /\
    cache_from s' r /\ length (prev_entries_ s') = (i - r)%nat.
Proof.
  revert s k. induction fuel as [|fuel IH]; intros s k R Hrk Hi C Hl Hf; [lia|]. cbn [cache_entries].
  destruct (lookup_lt_is_Some_2 es k ltac:(lia)) as [e He].
  destruct (data_parse s k e R He) as (b & Hb & A). erewrite bind_Ret by exact Hb. cbn [negb].
  set (s1 := set data_base b s). rewrite bind_gets. cbv beta. change (id s1) with s1.
  change (prev_entries_ s1) with (prev_entries_ s). set (c := (cache_current s1).2).
  erewrite bind_Ret by reflexivity. set (s2 := set_cache _ _ _ s1).
  assert (cache_from s2 r) as C2.
  { intros j c' Hj. change (prev_entries_ s2) with (prev_entries_ s ++ [c]) in Hj.
    change (prev_entries_keys_buff_ s2) with (cache_current s1).1.
    apply lookup_app_Some in Hj as [Hj|[Hj Hj']].
    - apply cached_before. exact (C j c' Hj).
    - destruct (j - length (prev_entries_ s))%nat eqn:Ej; [|done]. injection Hj' as <-.
      replace (r + j)%nat with k by lia. by eapply cached_entry. }
  assert (length (prev_entries_ s2) = S k - r)%nat as L2.
  { change (prev_entries_ s2) with (prev_entries_ s ++ [c]). rewrite length_app. cbn. lia. }
  pose proof (entry_ready LO false g b k e A) as R2. change (data_iter s1) with b. rewrite (rd_next _ _ _ _ R2).
  erewrite bind_Ret by reflexivity. destruct (Z.ltb_spec (offset (S k)) (offset i)) as [Hlt|Hge].
  - apply off_lt_inv in Hlt. apply (IH s2 (S k)); [done|lia|done|done|done|lia].
  - assert (i = S k) as ->.
    { destruct (decide (S k < i)%nat) as [Hlt|]; [|lia]. pose proof (off_lt false es (lo_ok _ _ _ _ _ LO) (S k) i Hlt ltac:(lia)). lia. }
    exists s2, e. split; [reflexivity|]. replace (S k - 1)%nat with k by lia. done.
Qed.

Lemma data_fuel : (length es < S (length data))%nat /\ (Z.to_nat (zlen rs) < S (length data))%nat.
Proof.
  pose proof (entries_bound false es (lo_ok _ _ _ _ _ LO) (length es) ltac:(done)) as Hl.
  rewrite (off_end false es (length es)), <- (lo_restarts _ _ _ _ _ LO) in Hl by done.
  pose proof (restarts_bound LO). pose proof (zlen_rs LO). unfold zlen in *. lia.
Qed.

(** Without help of the cache. *)
Lemma prev_by_restart s i e :
  here s i e ->
  exists s', (modify (set_cache [] [] (-1));;
    let original := current_ (data_iter s) in
    data ← the (it_data_ (data_iter s));
    more ← zoom data_base (back_to_restart (S (length data)) original);
    if negb (more : bool) then mret tt
    else
      zoom data_base (it ← gets id; SeekToRestartPoint (restart_index_ it));;
      cache_entries (S (length data)) original;;
      modify (fun it => set_cache (prev_entries_keys_buff_ it) (prev_entries_ it) (zlen (prev_entries_ it) - 1) it)) s
    = Ret tt s' /\ pos s' (if (i =? 0)%nat then None else Some (i - 1)%nat).
Proof.
  intros [A C]. pose proof A as [F I He Hc Hk Ha Hv]. rewrite (fr_data _ _ _ F), Hc.
  erewrite bind_Ret by reflexivity. set (s1 := set_cache [] [] (-1) s). cbv zeta. erewrite bind_Ret by reflexivity.
  assert (cache_ok s1) as C1.
  { split; [exists 0%nat; by intros j c Hj|]. cbn. unfold zlen. cbn. lia. }
  pose proof (lookup_lt_Some _ _ _ He) as Hi. pose proof data_fuel as [Hf1 Hf2].
  destruct (back_ok LO false g (S (length data)) (data_iter s1) i) as (more & b & Hb & Hres); [done|done|done| |].
  { unfold indexed in I. cbn. lia. }
  erewrite bind_Ret by (by apply zoom_base). destruct more; cbn [negb].
  - destruct Hres as (F1 & r & Hri & Hr & Hlt).
    destruct (seek_to_restart LO false g b (Z.to_nat (restart_index_ b)) r F1 Hr) as (b2 & Hb2 & R & _).
    rewrite Z2Nat.id in Hb2 by done.
    erewrite bind_Ret by (apply zoom_base; rewrite bind_gets; exact Hb2).
    set (s2 := set data_base b2 (set data_base b s1)).
    destruct (cache_entries_ok (S (length data)) s2 r r i) as (s3 & e' & H3 & A3 & C3 & L3);
      [done|lia|lia|by intros j c Hj|cbn; lia|lia|].
    erewrite bind_Ret by exact H3. eexists. split; [reflexivity|].
    rewrite (proj2 (Nat.eqb_neq i 0)) by lia. exists e'. split; [exact A3|]. split; [exists r; exact C3|].
    cbn. unfold zlen. lia.
  - destruct Hres as [E ->]. eexists. split; [reflexivity|]. rewrite Nat.eqb_refl. by split.
Qed.

Lemma data_Prev_ok s i e : here s i e ->
  exists s', data_PrevImpl s = Ret tt s' /\ pos s' (if (i =? 0)%nat then None else Some (i - 1)%nat).
Proof.
  intros H. pose proof H as [A C]. destruct A as [F I He Hc Hk Ha Hv]. destruct C as [[b C] Hidx].
  unfold data_PrevImpl. rewrite bind_gets. cbv beta. change (id s) with s.
  destruct (Z.ltb_spec 0 (prev_entries_idx_ s)) as [Hpos|]; [|erewrite bind_Ret by reflexivity; by apply (prev_by_restart s i e)].
  destruct (lookup_lt_is_Some_2 (prev_entries_ s) (Z.to_nat (prev_entries_idx_ s))) as [c Hcl].
  { unfold zlen in Hidx. lia. }
  destruct (lookup_lt_is_Some_2 (prev_entries_ s) (Z.to_nat (prev_entries_idx_ s - 1))) as [c' Hcl'].
  { unfold zlen in Hidx. lia. }
  rewrite Hcl. erewrite bind_Ret by (by erewrite bind_Ret by reflexivity).
  destruct (Z.eqb_spec (ce_offset c) (current_ (data_iter s))) as [Heq|]; [|by apply (prev_by_restart s i e)].
  destruct (C _ c Hcl) as (e0 & He0 & Ho0 & _). rewrite Heq, Hc in Ho0.
  apply off_eq_inv in Ho0 as Hi; [|apply LO|by eapply lookup_lt_Some..].
  destruct (C _ c' Hcl') as (e1 & He1 & Ho1 & Hs1 & Hv1 & Hk1).
  erewrite bind_Ret by reflexivity. rewrite Hcl'. erewrite bind_Ret by reflexivity.
  unfold use_cached. rewrite bind_gets. cbv beta. change (id ?x) with x.
  change (data_iter (set_cache _ _ _ s)) with (data_iter s). rewrite (fr_data _ _ _ F).
  erewrite bind_Ret by reflexivity. change (prev_entries_keys_buff_ (set_cache ?x _ _ s)) with x.
  destruct (match key_ptr c' with Some p => (data, p) | None => (prev_entries_keys_buff_ s, key_offset c') end)
    as [mem o] eqn:Emem. rewrite Hs1. destruct Hk1 as [Hb1 Hsub1]. rewrite Hb1, Hsub1.
  eexists. split; [by apply zoom_base|].
  replace (b + Z.to_nat (prev_entries_idx_ s - 1))%nat with (i - 1)%nat in * by lia.
  rewrite (proj2 (Nat.eqb_neq i 0)) by lia. exists e1. split; [|split; [exists b; exact C|cbn; lia]].
  split; try done; try (by destruct F; split). cbn. destruct (key_ptr c') as [p|]; [|done].
  injection Emem as <- <-. done.
Qed.

(** ** To the ends *)

Lemma unless_null_ok (m : prog DataBlockIter unit) s : framed (data_iter s) -> unless_null m s = m s.
Proof. intros F. unfold unless_null. rewrite bind_gets. cbv beta. by rewrite (fr_data _ _ _ F). Qed.

Lemma pos_sound s p : pos s p -> sound_ s.
Proof.
  destruct p; [intros [e [A C]]|intros [A C]]; (split; [apply A|done]).
Qed.

(** The next entry, if there is one. *)
Lemma data_Next_ready s i : ready_ s i -> exists s', data_NextImpl s = Ret tt s' /\ pos s' (to_pos (es := es) i).
Proof.
  intros R. pose proof (rd_le _ _ _ _ (proj1 R)) as Hi. destruct (es !! i) as [e|] eqn:He.
  - destruct (wk_next _ _ _ _ _ _ _ _ data_walker s i e R He) as (s' & Hn & Hh).
    exists s'. rewrite (to_pos_entry i e He). split; [done|]. by exists e.
  - apply lookup_ge_None in He. assert (i = length es) as -> by lia.
    destruct (wk_end _ _ _ _ _ _ _ _ data_walker s R) as (s' & Hn & Hf). exists s'. by rewrite to_pos_end.
Qed.

Lemma data_Next_ok s i e : here s i e -> exists s', data_NextImpl s = Ret tt s' /\ pos s' (to_pos (es := es) (S i)).
Proof. intros H. apply data_Next_ready. by destruct (wk_here _ _ _ _ _ _ _ _ data_walker s i e H). Qed.

Lemma data_SeekToFirst_ok s : sound_ s ->
  exists s', data_SeekToFirstImpl s = Ret tt s' /\ pos s' (to_pos (es := es) 0).
Proof.
  intros [F C]. unfold data_SeekToFirstImpl. rewrite unless_null_ok by done.
  destruct (seek_to_restart LO false g (data_iter s) 0 0 F (lo_first _ _ _ _ _ LO)) as (b & Hb & R & _).
  erewrite bind_Ret by (by apply zoom_base). apply (data_Next_ready (set data_base b s)). by split.
Qed.

Lemma last_ok fuel it k : readied it k -> (k < length es)%nat -> (length es - k <= fuel)%nat ->
  exists it' e, last_loop fuel it = Ret tt it' /\ entry it' (length es - 1) e.
Proof.
  revert it k. induction fuel as [|fuel IH]; intros it k R Hk Hf; [lia|]. cbn [last_loop].
  destruct (lookup_lt_is_Some_2 es k Hk) as [e He].
  destruct (parse_entry LO false g DecodeEntry None it k e) as (b & Hb & A);
    [exact (DecodeEntry_decodes LO)|done|done|by eapply entry_limit|].
  erewrite bind_Ret by exact Hb. cbv beta iota. rewrite bind_gets. cbv beta. change (id b) with b.
  pose proof (entry_ready LO false g b k e A) as R2. rewrite (rd_next _ _ _ _ R2), (fr_restarts _ _ _ (rd_frame _ _ _ _ R2)).
  erewrite bind_Ret by reflexivity.
  pose proof (restarts_off LO) as Hre.
  destruct (Z.ltb_spec (offset (S k)) restarts) as [Hlt|Hge].
  - rewrite Hre in Hlt. apply off_lt_inv in Hlt. apply (IH b (S k)); [done|lia|lia].
  - assert (S k = length es) as Hend.
    { destruct (decide (S k < length es)%nat) as [Hlt|]; [|lia].
      pose proof (off_lt false es (lo_ok _ _ _ _ _ LO) (S k) (length es) Hlt Hlt). lia. }
    exists b, e. split; [reflexivity|]. by replace (length es - 1)%nat with k by lia.
Qed.

Lemma data_SeekToLast_ok s : sound_ s ->
  exists s', data_SeekToLastImpl s = Ret tt s' /\ pos s' (if (length es =? 0)%nat then None else Some (length es - 1)%nat).
Proof.
  intros [F C]. unfold data_SeekToLastImpl. rewrite unless_null_ok by done. rewrite bind_gets. cbv beta.
  rewrite (fr_data _ _ _ F), (fr_num _ _ _ F). erewrite bind_Ret by reflexivity.
  pose proof (zlen_rs LO). rewrite u32_small by lia. destruct (rs_index (rs := rs) (zlen rs - 1)) as [r Hr]; [lia|].
  destruct (seek_to_restart LO false g (data_iter s) _ r F Hr) as (b & Hb & R & _). rewrite Z2Nat.id in Hb by lia.
  pose proof data_fuel as [Hf _]. destruct (Nat.eqb_spec (length es) 0) as [H0|H0].
  - assert (es = []) as Hnil by (by apply nil_length_inv).
    assert (r = length es) as ->. { pose proof (restart_le LO _ r Hr). lia. }
    destruct (parse_end false g DecodeEntry None b (length es) R) as (b2 & Hb2 & A).
    { cbn. rewrite (off_end false es), <- (lo_restarts _ _ _ _ _ LO) by done. lia. }
    exists (set data_base b2 s). split; [|by split].
    apply zoom_base. erewrite bind_Ret by exact Hb. cbn [last_loop]. by erewrite bind_Ret by exact Hb2.
  - assert (r < length es)%nat as Hl by (destruct (lo_range _ _ _ _ _ LO _ r Hr); lia).
    destruct (last_ok (S (length data)) b r R Hl) as (b2 & e & Hb2 & A); [lia|].
    exists (set data_base b2 s). split; [apply zoom_base; erewrite bind_Ret by exact Hb; exact Hb2|]. by exists e.
Qed.

(** ** Searching *)

Context {user_comparator : Comparator} {laws : ComparatorLaws user_comparator}.

(** The key as it is shown: with the global sequence number, if there is one. *)
Definition shown (k : bytes) : bytes :=
  if g =? kDisableGlobalSequenceNumber then k
  else mk_ikey (ukey k) (PackSequenceAndType g (Z.land (ifooter k) 0xff)).

Context (Hg : g = kDisableGlobalSequenceNumber \/ 0 <= g <= kMaxSequenceNumber).
Context (Hint : forall i e, es !! i = Some e -> internal (i_key e)).
Context (Hord : forall i j e f, es !! i = Some e -> es !! j = Some f -> (i < j)%nat ->
  icmp (shown (i_key e)) (shown (i_key f)) < 0).

Lemma type_range k : 0 <= Z.land (ifooter k) 0xff < 256.
Proof. change 0xff with (Z.ones 8). rewrite Z.land_ones by lia. change 256 with (2 ^ 8). apply Z.mod_pos_bound. lia. Qed.

Lemma compare_shown target it k :
  framed it -> internal k -> internal target -> ik_key (raw_key_ it) = k ->
  CompareCurrentKey target it = Some (icmp (shown k) target).
Proof.
  intros F Hk Ht <-. unfold CompareCurrentKey, shown. rewrite (fr_user _ _ _ F), (fr_global _ _ _ F).
  destruct (Z.eqb_spec g kDisableGlobalSequenceNumber) as [->|Hne]; [by apply ik_Compare_icmp|].
  set (k := ik_key (raw_key_ it)) in *. unfold ik_CompareGlobal, footer_with, ExtractValueType.
  rewrite (proj2 (Z.eqb_neq _ _) Hne), Z.eqb_refl. rewrite !ExtractUserKey_internal, !ExtractFooter_internal by done.
  unfold icmp, pair_cmp. cbn [fst snd mbind option_bind].
  rewrite ukey_mk, ifooter_mk; [by destruct (_ =? 0)|].
  destruct Hg as [?|Hg']; [done|]. destruct (Pack_spec g (Z.land (ifooter k) 0xff) Hg' (type_range k)) as [-> ?]. done.
Qed.

Section Target.
Context (target : bytes) (Htarget : internal target).

Definition kcmp (k : bytes) : Z := icmp (shown k) target.

Lemma kcmp_ok it e : framed it -> e ∈ es -> ik_key (raw_key_ it) = i_key e ->
  CompareCurrentKey target it = Some (kcmp (i_key e)).
Proof.
  intros F [i He]%list_elem_of_lookup Hk. apply compare_shown; [done|by eapply Hint|done|done].
Qed.

Lemma kcmp_sorted i j e f : es !! i = Some e -> es !! j = Some f -> (i < j)%nat ->
  kcmp (i_key f) <= 0 -> kcmp (i_key e) < 0.
Proof. intros He Hf Hij Hle. apply (cmp_lt_trans _ (shown (i_key f))); [by eapply Hord|done]. Qed.

Lemma DecodeKey_decodes : keys_decode (vd := false) (data := data) (restarts := restarts) (es := es) DecodeKey.
Proof.
  intros it i e He. unfold DecodeKey.
  by rewrite (bind_Ret _ _ _ _ _ (DecodeEntry_decodes LO it i e restarts He (entry_limit LO i e He))).
Qed.

(** Both searches start like this. *)
Lemma search_ok s p : pos s p ->
  exists r s', zoom data_base (BinarySeek DecodeKey target) s = Ret r s' /\ sound_ s' /\
    match r with
    | None => es = [] /\ pos s' None
    | Some (index, skip) => es <> [] /\ exists s'',
        FindKeyAfterBinarySeek data_base data_NextImpl target index skip s' = Ret tt s'' /\
        pos s'' (to_pos (es := es) (lower_bound (es := es) kcmp))
    end.
Proof.
  intros P. pose proof (pos_sound s p P) as So. pose proof So as [F C].
  destruct (decide (es = [])) as [Hnil|Hne].
  - exists None, s. split; [|split; [done|split; [done|]]].
    + assert (BinarySeek DecodeKey target (data_iter s) = Ret None (data_iter s)) as Hb.
      { unfold BinarySeek. rewrite bind_gets. cbv beta. change (id ?x) with x.
        rewrite (fr_restarts _ _ _ F), (lo_restarts _ _ _ _ _ LO), Hnil. done. }
      rewrite (zoom_base _ s _ _ Hb). by destruct s.
    + destruct p as [i|]; [|done]. destruct P as (e & [_ _ He _ _ _ _] & _). rewrite Hnil in He. done.
  - destruct (BinarySeek_ok LO false g kcmp target kcmp_ok kcmp_sorted Hne DecodeKey (data_iter s) DecodeKey_decodes F)
      as (index & skip & b & Hb & F' & Hbr).
    exists (Some (index, skip)), (set data_base b s). split; [by apply zoom_base|].
    assert (sound_ (set data_base b s)) as So' by (by split). split; [done|]. split; [done|].
    by apply (FindKey_ok LO false g kcmp target kcmp_ok kcmp_sorted Hne data_walker).
Qed.

Lemma data_Seek_ok s p : pos s p ->
  exists s', data_SeekImpl target s = Ret tt s' /\ pos s' (to_pos (es := es) (lower_bound (es := es) kcmp)).
Proof.
  intros P. unfold data_SeekImpl. rewrite unless_null_ok by apply (pos_sound s p P).
  destruct (search_ok s p P) as (r & s' & Hr & So & Hres). erewrite bind_Ret by exact Hr.
  destruct r as [[index skip]|].
  - destruct Hres as (_ & s'' & Hf & P''). by exists s''.
  - destruct Hres as [Hnil P']. exists s'. split; [done|]. unfold to_pos. by rewrite Hnil.
Qed.

(** The last entry that is not above the target. *)
Definition prev_pos : option nat :=
  let n := count_front (fun k => kcmp k <=? 0) es in if (n =? 0)%nat then None else Some (n - 1)%nat.

Lemma prev_pos_is n : (n <= length es)%nat ->
  (forall j e, (j < n)%nat -> es !! j = Some e -> kcmp (i_key e) <= 0) ->
  (forall e, es !! n = Some e -> 0 < kcmp (i_key e)) ->
  prev_pos = if (n =? 0)%nat then None else Some (n - 1)%nat.
Proof.
  intros Hn Hb Hs. unfold prev_pos. rewrite (count_front_unique _ es n); [done|done| |].
  - intros j e Hj He. apply Z.leb_le. by eapply Hb.
  - intros e He. apply Z.leb_gt. by apply Hs.
Qed.

Lemma prev_loop_stop fuel s i e : here s i e -> kcmp (i_key e) <= 0 -> prev_loop (S fuel) target s = Ret tt s.
Proof.
  intros [A C] Hle. cbn [prev_loop]. rewrite bind_gets. cbv beta.
  rewrite (at_entry_valid LO false g _ i e A).
  rewrite (kcmp_ok (data_iter s) e); [|apply A|eapply list_elem_of_lookup_2, A|apply A].
  erewrite bind_Ret by reflexivity. by destruct (Z.ltb_spec 0 (kcmp (i_key e))); [lia|].
Qed.

Lemma prev_loop_ok fuel s : pos s (to_pos (es := es) (lower_bound (es := es) kcmp)) ->
  (lower_bound (es := es) kcmp < length es)%nat ->
  exists s', prev_loop (S (S fuel)) target s = Ret tt s' /\ pos s' prev_pos.
Proof.
  set (n := lower_bound kcmp). intros P Hn. destruct (lookup_lt_is_Some_2 es n Hn) as [e He].
  rewrite (to_pos_entry n e He) in P. destruct P as [e' [A C]].
  pose proof (ae_entry _ _ _ _ _ A) as He'. rewrite He in He'. injection He' as <-.
  assert (0 <= kcmp (i_key e)) as Hge.
  { apply Z.ltb_ge. exact (count_front_stop _ es e He). }
  assert (forall j f, (j < n)%nat -> es !! j = Some f -> kcmp (i_key f) < 0) as Hlow.
  { intros j f Hj Hf. apply Z.ltb_lt. exact (count_front_below _ es j f Hf Hj). }
  destruct (decide (kcmp (i_key e) = 0)) as [Heq|Hneq].
  - exists s. split; [by apply (prev_loop_stop _ s n e); [split|lia]|].
    rewrite (prev_pos_is (S n)); [cbn; rewrite Nat.sub_0_r; by exists e|lia| |].
    + intros j f Hj Hf. destruct (decide (j = n)) as [->|]; [rewrite He in Hf; injection Hf as <-; lia|].
      pose proof (Hlow j f ltac:(lia) Hf). lia.
    + intros f Hf. destruct (Z.lt_ge_cases 0 (kcmp (i_key f))) as [|Hle]; [done|].
      pose proof (kcmp_sorted n (S n) e f He Hf ltac:(lia) Hle). lia.
  - cbn [prev_loop]. rewrite bind_gets. cbv beta. rewrite (at_entry_valid LO false g _ n e A).
    rewrite (kcmp_ok (data_iter s) e); [|apply A|by eapply list_elem_of_lookup_2|apply A].
    erewrite bind_Ret by reflexivity. destruct (Z.ltb_spec 0 (kcmp (i_key e))) as [Hgt|]; [|lia].
    destruct (data_Prev_ok s n e) as (s' & Hp & P'); [by split|]. erewrite bind_Ret by exact Hp.
    assert (prev_pos = if (n =? 0)%nat then None else Some (n - 1)%nat) as Hpp.
    { apply prev_pos_is; [lia| |].
      - intros j f Hj Hf. pose proof (Hlow j f Hj Hf). lia.
      - intros f Hf. rewrite He in Hf. by injection Hf as <-. }
    exists s'. rewrite Hpp. split; [|done]. destruct (Nat.eqb_spec n 0) as [|Hn0].
    + cbn [at_pos] in P'. destruct P' as [E _]. cbn [prev_loop]. rewrite bind_gets. cbv beta.
      by rewrite (at_end_valid false g _ E).
    + destruct P' as [e1 [A1 C1]]. apply (prev_loop_stop _ s' (n - 1) e1); [by split|].
      pose proof (Hlow (n - 1)%nat e1 ltac:(lia) (ae_entry _ _ _ _ _ A1)). lia.
Qed.

Lemma data_SeekForPrev_ok s p : pos s p ->
  exists s', data_SeekForPrevImpl target s = Ret tt s' /\ pos s' prev_pos.
Proof.
  intros P. unfold data_SeekForPrevImpl. rewrite unless_null_ok by apply (pos_sound s p P).
  destruct (search_ok s p P) as (r & s' & Hr & So & Hres). erewrite bind_Ret by exact Hr.
  destruct r as [[index skip]|].
  - destruct Hres as (Hne & s'' & Hf & P''). erewrite bind_Ret by exact Hf. rewrite bind_gets. cbv beta.
    pose proof (pos_sound _ _ P'') as So''. rewrite (fr_data _ _ _ (proj1 So'')). erewrite bind_Ret by reflexivity.
    destruct (decide (lower_bound (es := es) kcmp < length es)%nat) as [Hlt|Hge].
    + destruct (lookup_lt_is_Some_2 es _ Hlt) as [e He]. pose proof P'' as P3. rewrite (to_pos_entry _ e He) in P3.
      destruct P3 as [e' [A _]]. rewrite (at_entry_valid LO false g _ _ e' A). by apply prev_loop_ok.
    + pose proof (count_front_le (is_below kcmp) es) as Hle. fold (lower_bound (es := es) kcmp) in Hle.
      assert (lower_bound (es := es) kcmp = length es) as Hl by lia. rewrite Hl, to_pos_end in P''.
      rewrite (at_end_valid false g _ (proj1 P'')).
      destruct (data_SeekToLast_ok s'' So'') as (s3 & H3 & P3). exists s3. split; [done|].
      rewrite (prev_pos_is (length es)); [done|done| |intros e He%lookup_lt_Some; lia].
      intros j e Hj He. apply Z.lt_le_incl, Z.ltb_lt. apply (count_front_below (is_below kcmp) es j e He).
      fold (lower_bound (es := es) kcmp). lia.
  - destruct Hres as [Hnil P']. exists s'. split; [done|]. unfold prev_pos. by rewrite Hnil.
Qed.
End Target.
End Cursor.
