(* ===== verification/BlockBuild.v ===== *)
(** The builder of blocks makes blocks with the layout of [BlockSpec], and [Block]
    finds the parts again. *)
From S2P Require Import Prelude Bits Coding IoStatus Comparator DbFormat BlockBuilder BlockIter BlockSpec.
From stdpp Require Import base numbers list strings.
From Stdlib Require Import ZArith Lia SpecFloat.
Local Open Scope Z_scope.

(** ** Shared prefixes *)

Lemma difference_offset_spec a b :
  (difference_offset a b <= length a)%nat /\ (difference_offset a b <= length b)%nat /\
  take (difference_offset a b) a = take (difference_offset a b) b.
Proof.
  destruct (difference_offset_split a b) as (p & a' & b' & Ha & Hb & Hl & _). rewrite <- Hl.
  rewrite Ha, Hb, !length_app, !take_app_length. split; [lia|]. split; [lia|done].
Qed.

(** ** The builder in use *)

(** The entry [i] belongs to the restart interval [j]. *)
Definition in_interval (rs : list nat) (i j : nat) : Prop :=
  exists r, rs !! j = Some r /\ (r <= i)%nat /\ forall r', rs !! S j = Some r' -> (i < r')%nat.

(** The restart points and shared prefixes of a list of entries. *)
Record shape (es : list item) (rs : list nat) : Prop := {
  sh_ok : Forall item_ok es;
  sh_first : rs !! 0%nat = Some 0%nat;
  sh_sorted : forall j k r s, rs !! j = Some r -> rs !! k = Some s -> (j < k)%nat -> (r < s)%nat;
  sh_range : forall j r, rs !! j = Some r -> (r < length es)%nat \/ r = 0%nat;
  sh_restart : forall j r e, rs !! j = Some r -> es !! r = Some e -> i_shared e = 0;
  sh_chain : forall i e e', es !! i = Some e -> es !! S i = Some e' ->
    i_shared e' <= zlen (i_key e) /\
    take (Z.to_nat (i_shared e')) (i_key e) = take (Z.to_nat (i_shared e')) (i_key e') }.

Lemma shape_nil : shape [] [0%nat].
Proof.
  split; try done.
  - intros [|j] [|k] r s Hj Hk Hl; try done; lia.
  - intros [|j] r Hj; [|done]. injection Hj as <-. by right.
Qed.

(** Entries are added at the end, with or without a restart point. *)
Definition more_restarts (es : list item) (rs rs1 : list nat) (shared : Z) : Prop :=
  rs1 = rs \/ rs1 = rs ++ [length es] /\ shared = 0 /\ es <> [].

Lemma lookup_snoc {A} (l : list A) x i y : (l ++ [x]) !! i = Some y ->
  l !! i = Some y \/ i = length l /\ x = y.
Proof.
  intros [H|[H1 H2]]%lookup_app_Some; [by left|right].
  destruct (i - length l)%nat eqn:E; [|done]. injection H2 as <-. split; [lia|done].
Qed.

Lemma shape_snoc es rs rs1 e :
  shape es rs -> item_ok e -> more_restarts es rs rs1 (i_shared e) -> (es = [] -> i_shared e = 0) ->
  (forall e0, last es = Some e0 -> i_shared e <= zlen (i_key e0) /\
    take (Z.to_nat (i_shared e)) (i_key e0) = take (Z.to_nat (i_shared e)) (i_key e)) ->
  shape (es ++ [e]) rs1.
Proof.
  intros [H1 H2 H3 H4 H5 H6] Hok Hrs Hnil Hlast.
  assert (forall j r, rs1 !! j = Some r -> rs !! j = Some r \/ j = length rs /\ r = length es /\ i_shared e = 0 /\ es <> []) as Hin.
  { intros j r Hj. destruct Hrs as [->|(-> & Hs & Hne)]; [by left|].
    apply lookup_snoc in Hj as [Hj|[-> <-]]; [by left|by right]. }
  split.
  - apply Forall_app. split; [done|]. by constructor.
  - destruct Hrs as [->|(-> & _)]; [done|]. by apply lookup_app_l_Some.
  - intros j k r s Hj Hk Hl. destruct (Hin k s Hk) as [Hk'|(-> & -> & _ & Hne)].
    + destruct (Hin j r Hj) as [Hj'|(-> & _)]; [by apply (H3 j k)|]. apply lookup_lt_Some in Hk'. lia.
    + destruct (Hin j r Hj) as [Hj'|(-> & _)]; [|lia]. destruct (H4 j r Hj') as [?| ->]; [done|].
      destruct es; [done|cbn; lia].
  - intros j r Hj. rewrite length_app. cbn. destruct (Hin j r Hj) as [Hj'|(_ & -> & _)]; [|lia].
    destruct (H4 j r Hj'); [lia|by right].
  - intros j r e0 Hj He0. destruct (Hin j r Hj) as [Hj'|(_ & -> & Hs & _)]; apply lookup_snoc in He0 as [He0|[Hl <-]].
    + by apply (H5 j r).
    + destruct (H4 j r Hj') as [?| ->]; [lia|]. apply Hnil. by apply nil_length_inv.
    + apply lookup_lt_Some in He0. lia.
    + done.
  - intros i e0 e' He0 He'. apply lookup_snoc in He' as [He'|[Hi <-]].
    + apply lookup_snoc in He0 as [He0|[-> _]]; [by apply (H6 i)|]. apply lookup_lt_Some in He'. lia.
    + apply lookup_snoc in He0 as [He0|[-> _]]; [|lia]. apply Hlast. rewrite last_lookup, <- Hi. done.
Qed.

(** What the builder of the hash index has collected. *)
Definition collected (h : DataBlockHashIndexBuilder) (es : list item) (rs : list nat) : Prop :=
  hash_Valid h = true ->
  length (hash_and_restart_pairs_ h) = length es /\
  forall i e, es !! i = Some e -> internal (i_key e) /\ exists j, (j <= 253)%nat /\ in_interval rs i j /\
    hash_and_restart_pairs_ h !! i = Some (GetSliceHash (ukey (i_key e)), Z.of_nat j).

(** The entries [es] with restart points at [rs] were added. *)
Record built (b : BlockBuilder) (es : list item) (rs : list nat) : Prop := {
  bu_buffer : buffer_ b = stored (use_value_delta_encoding_ b) es;
  bu_restarts : restarts_ b = (fun r => u32 (off (use_value_delta_encoding_ b) es r)) <$> rs;
  bu_estimate : estimate_ b = u64 (8 + zlen (buffer_ b) + 4 * (zlen rs - 1));
  bu_counter : exists r, last rs = Some r /\ (r <= length es)%nat /\
    counter_ b = Z.of_nat (length es - r);
  bu_interval : 1 <= block_restart_interval_ b;
  bu_dense : block_restart_interval_ b = 1 -> rs = seq 0 (Nat.max 1 (length es));
  bu_shape : shape es rs;
  bu_hash : collected (data_block_hash_index_builder_ b) es rs }.

(** The configuration of a builder does not change. *)
Definition same_config (b b' : BlockBuilder) : Prop :=
  block_restart_interval_ b' = block_restart_interval_ b /\
  use_delta_encoding_ b' = use_delta_encoding_ b /\
  use_value_delta_encoding_ b' = use_value_delta_encoding_ b.

Lemma same_config_trans b1 b2 b3 : same_config b1 b2 -> same_config b2 b3 -> same_config b1 b3.
Proof. unfold same_config. intros (-> & -> & ->) (? & ? & ?). done. Qed.

(** A new builder, or one that was reset. *)
Lemma built_new interval delta vd index_type ratio :
  1 <= interval -> built (new_BlockBuilder interval delta vd index_type ratio) [] [0%nat].
Proof.
  intros Hi. split; try done; [|apply shape_nil|].
  - by exists 0%nat.
  - intros Hv. split; [by destruct index_type|done].
Qed.

(** A builder that was in use has a first restart point to keep. *)
Definition in_use (b : BlockBuilder) : Prop := take 1 (restarts_ b) = [0] /\ 1 <= block_restart_interval_ b.

Lemma built_in_use b es rs : built b es rs -> in_use b.
Proof.
  intros B. pose proof (sh_first _ _ (bu_shape _ _ _ B)) as Hf. destruct rs as [|r rs]; [done|]. injection Hf as ->.
  split; [|apply B]. by rewrite (bu_restarts _ _ _ B).
Qed.

Lemma built_Reset b : in_use b -> built (builder_Reset b) [] [0%nat].
Proof.
  intros [Hr Hi]. split; try done; [by exists 0%nat|apply shape_nil|].
  intros Hv. split; [|done]. cbn. destruct (hash_Valid (data_block_hash_index_builder_ b)) eqn:E; [done|].
  unfold builder_Reset in Hv. cbn [data_block_hash_index_builder_] in Hv. rewrite E in Hv. congruence.
Qed.

(** ** Adding an entry *)

Lemma u64_add_l x y : u64 (u64 x + y) = u64 (x + y).
Proof. unfold u64. by rewrite Zplus_mod_idemp_l. Qed.

(** A restart point is due, or the key shares a prefix with the last one. *)
Lemma start_entry_spec b es rs key last_key :
  built b es rs -> (es = [] -> last_key = []) ->
  (forall e, last es = Some e -> last_key `prefix_of` i_key e) ->
  exists shared b1 rs1, start_entry key last_key (zlen (buffer_ b)) b = (shared, b1) /\
    0 <= shared <= zlen key /\
    (es = [] -> shared = 0) /\
    (forall e, last es = Some e -> shared <= zlen (i_key e) /\
      take (Z.to_nat shared) (i_key e) = take (Z.to_nat shared) key) /\
    same_config b b1 /\ buffer_ b1 = buffer_ b /\ last_key_ b1 = last_key_ b /\
    data_block_hash_index_builder_ b1 = data_block_hash_index_builder_ b /\
    restarts_ b1 = (fun r => u32 (off (use_value_delta_encoding_ b) es r)) <$> rs1 /\
    estimate_ b1 = u64 (8 + zlen (buffer_ b) + 4 * (zlen rs1 - 1)) /\
    more_restarts es rs rs1 shared /\
    (block_restart_interval_ b = 1 -> rs1 = seq 0 (S (length es))) /\
    exists r, last rs1 = Some r /\ (r <= length es)%nat /\ counter_ b1 = Z.of_nat (length es - r).
Proof.
  intros B Hnil Hpre. unfold start_entry. destruct (bu_counter _ _ _ B) as (r & Hr & Hle & Hc).
  pose proof (bu_interval _ _ _ B) as Hint. destruct (Z.leb_spec (block_restart_interval_ b) (counter_ b)) as [Hdue|Hnot].
  - do 2 eexists. exists (rs ++ [length es]). split; [reflexivity|]. cbn. split_and!; try done.
    + pose proof (zlen_nonneg key). lia.
    + intros e _. pose proof (zlen_nonneg (i_key e)). done.
    + rewrite fmap_app, (bu_restarts _ _ _ B). cbn. f_equal. by rewrite (off_end _ es), <- (bu_buffer _ _ _ B).
    + rewrite (bu_estimate _ _ _ B), u64_add_l, zlen_app. unfold zlen. cbn. f_equal. lia.
    + right. split_and!; try done. intros ->. cbn in Hc. lia.
    + intros H1. rewrite (bu_dense _ _ _ B H1), Nat.max_r by lia. change (0%nat :: seq 1 (length es)) with (seq 0 (S (length es))). by rewrite seq_S.
    + exists (length es). rewrite last_snoc. split_and!; try done. by rewrite Nat.sub_diag.
  - assert (block_restart_interval_ b = 1 -> rs = seq 0 (S (length es))) as Hdense.
    { intros H1. rewrite (bu_dense _ _ _ B H1) in Hr |- *. destruct (length es) as [|n] eqn:E; [done|].
      replace (Nat.max 1 (S n)) with (S n) in Hr by lia. rewrite seq_S, last_snoc in Hr. injection Hr as <-. lia. }
    destruct (difference_offset_spec key last_key) as (H1 & H2 & H3).
    destruct (use_delta_encoding_ b); do 2 eexists; exists rs; (split; [reflexivity|]);
      split_and!; try done; try apply B; try (by left); try (unfold zlen; lia); try (by exists r).
    + intros E. rewrite (Hnil E) in *. cbn in H2. destruct (difference_offset key []); [done|lia].
    + intros e He. destruct (Hpre e He) as [x Hx]. rewrite Nat2Z.id, H3, Hx, take_app_le by done.
      split; [|done]. unfold zlen. rewrite length_app. lia.
    + intros e _. pose proof (zlen_nonneg (i_key e)). done.
Qed.

Lemma collected_snoc h es rs rs1 e r :
  collected h es rs -> internal (i_key e) -> more_restarts es rs rs1 (i_shared e) ->
  last rs1 = Some r -> (r <= length es)%nat -> hash_Valid h = true ->
  collected (hash_Add (ukey (i_key e)) (zlen rs1 - 1) h) (es ++ [e]) rs1.
Proof.
  intros Hc Hk Hrs Hlast Hr Hval. destruct (Hc Hval) as [Hlen Hall].
  assert (zlen rs1 - 1 = Z.of_nat (length rs1 - 1)) as Hj.
  { unfold zlen. destruct rs1; [done|]. cbn. lia. }
  unfold hash_Add. destruct (Z.ltb_spec kMaxRestartSupportedByHashIndex (zlen rs1 - 1)) as [_|Hmax]; [done|].
  change kMaxRestartSupportedByHashIndex with 253 in Hmax. intros _. cbn [hash_and_restart_pairs_].
  rewrite !length_app, Hlen. split; [done|]. intros i e0 He0. apply lookup_snoc in He0 as [He0|[-> <-]].
  - destruct (Hall i e0 He0) as (Hk0 & j & Hj0 & (s & Hs & Hsi & Hnext) & Hp).
    split; [done|]. exists j. pose proof (lookup_lt_Some _ _ _ He0). split; [done|].
    split; [|by apply lookup_app_l_Some]. destruct Hrs as [->|(-> & _)]; [by exists s|].
    exists s. split; [by apply lookup_app_l_Some|]. split; [done|]. intros r' [Hr'|[_ <-]]%lookup_snoc; [by apply Hnext|done].
  - split; [done|]. exists (length rs1 - 1)%nat. split; [lia|]. split.
    + exists r. rewrite last_lookup in Hlast. replace (length rs1 - 1)%nat with (pred (length rs1)) by lia.
      split; [done|]. split; [done|]. intros r' Hr'%lookup_lt_Some. apply lookup_lt_Some in Hlast. lia.
    + rewrite <- Hlen, list_lookup_middle, Hj by done. by rewrite Z.mod_small by lia.
Qed.

Lemma off_app vd es es' i : (i <= length es)%nat -> off vd (es ++ es') i = off vd es i.
Proof. intros Hi. unfold off. by rewrite take_app_le. Qed.

Lemma stored_snoc vd es e : stored vd (es ++ [e]) = stored vd es ++ enc vd e.
Proof. rewrite stored_app. unfold stored at 2. cbn. by rewrite app_nil_r. Qed.

(** What is stored as the value of an entry: the delta, where the entry shares bytes
    with the one before and the values are delta-encoded. *)
Definition stored_value (vd : bool) (shared : Z) (value : bytes) (delta_value : option bytes) : bytes :=
  if negb (shared =? 0) && vd then default value delta_value else value.

Record entry_args (b : BlockBuilder) (key value : bytes) (delta_value : option bytes) : Prop := {
  ea_key : zlen key < 2 ^ 32;
  ea_value : zlen value < 2 ^ 32;
  ea_delta : use_value_delta_encoding_ b = true -> exists d, delta_value = Some d /\ zlen d < 2 ^ 32;
  ea_internal : hash_Valid (data_block_hash_index_builder_ b) = true -> internal key }.

Lemma stored_value_size b key value delta_value shared :
  entry_args b key value delta_value ->
  zlen (stored_value (use_value_delta_encoding_ b) shared value delta_value) < 2 ^ 32.
Proof.
  intros A. unfold stored_value. destruct (negb _ && _) eqn:E; [|apply A].
  apply andb_true_iff in E as [_ E]. destruct (ea_delta _ _ _ _ A E) as (d & -> & Hd). done.
Qed.

Lemma the_delta {S} (s : S) b key value delta_value shared :
  entry_args b key value delta_value ->
  (if negb (shared =? 0) && use_value_delta_encoding_ b then the delta_value else mret value) s =
  Ret (stored_value (use_value_delta_encoding_ b) shared value delta_value) s.
Proof.
  intros A. unfold stored_value. destruct (negb _ && _) eqn:E; [|done].
  apply andb_true_iff in E as [_ E]. by destruct (ea_delta _ _ _ _ A E) as (d & -> & _).
Qed.

Lemma the_entry vd buffer e (v : bytes) :
  item_ok e -> (vd = false -> v = i_value e) ->
  (if vd then PutVarint32Varint32 buffer (u32 (i_shared e)) (u32 (zlen (i_key e) - i_shared e))
   else PutVarint32Varint32Varint32 buffer (u32 (i_shared e)) (u32 (zlen (i_key e) - i_shared e)) (u32 (zlen v)))
    ++ drop (Z.to_nat (i_shared e)) (i_key e) ++ i_value e = buffer ++ enc vd e.
Proof.
  intros (Ha & Hb & Hc)%item_ok_sizes Hv. unfold enc, header, PutVarint32Varint32, PutVarint32Varint32Varint32.
  rewrite !u32_small by done. destruct vd.
  - by rewrite app_nil_r, <- !app_assoc.
  - rewrite Hv by done. rewrite u32_small by done. by rewrite <- !app_assoc.
Qed.

Lemma zlen_fmap {A B} (f : A -> B) l : zlen (f <$> l) = zlen l.
Proof. unfold zlen. by rewrite length_fmap. Qed.

Lemma AddImpl_ok b es rs key value last_key delta_value :
  built b es rs -> entry_args b key value delta_value -> (es = [] -> last_key = []) ->
  (forall e, last es = Some e -> last_key `prefix_of` i_key e) ->
  exists shared b' rs',
    AddWithLastKeyImpl key value last_key delta_value (zlen (buffer_ b)) b = Ret tt b' /\
    built b' (es ++ [Item shared key (stored_value (use_value_delta_encoding_ b) shared value delta_value)]) rs' /\
    same_config b b' /\ last_key_ b' = last_key_ b /\
    (hash_Valid (data_block_hash_index_builder_ b') = true -> hash_Valid (data_block_hash_index_builder_ b) = true).
Proof.
  intros B A Hnil Hpre.
  destruct (start_entry_spec b es rs key last_key B Hnil Hpre)
    as (shared & b1 & rs1 & Hst & Hsh & Hsnil & Hchain & Hcfg & Hbuf & Hlk & Hh & Hres & Hest & Hmore & Hdense & r & Hr & Hrle & Hcnt).
  set (e := Item shared key (stored_value (use_value_delta_encoding_ b) shared value delta_value)).
  assert (item_ok e) as Hok by (split; [done|apply A|by apply stored_value_size with key]).
  assert (shape (es ++ [e]) rs1) as Hshape by (apply (shape_snoc es rs); [apply B|done..]).
  pose proof Hcfg as (Hc1 & Hc2 & Hc3).
  unfold AddWithLastKeyImpl. rewrite bind_gets. cbv beta. change (id b) with b. rewrite Hst. cbv beta iota zeta. rewrite Hc3, Hh, Hbuf.
  erewrite bind_Ret by (by apply the_delta with key). cbv beta.
  pose proof (the_entry (use_value_delta_encoding_ b) (buffer_ b) e value Hok) as Henc.
  rewrite app_assoc in Henc. cbn [e i_shared i_key i_value] in Henc. rewrite Henc; clear Henc;
    [|intros Hvd; unfold stored_value; by rewrite Hvd, andb_false_r].
  set (h1 := if hash_Valid (data_block_hash_index_builder_ b)
             then hash_Add (ukey (i_key e)) (zlen rs1 - 1) (data_block_hash_index_builder_ b)
             else data_block_hash_index_builder_ b).
  erewrite (bind_Ret _ _ _ h1); [|subst h1; destruct (hash_Valid _) eqn:E; [|done];
    erewrite bind_Ret by (by rewrite ExtractUserKey_internal by (by apply (ea_internal _ _ _ _ A))); cbv beta; by rewrite Hres, zlen_fmap].
  eexists shared, _, rs1. split; [reflexivity|]. split; [|split_and!; try done].
  - split; cbn [buffer_ restarts_ estimate_ counter_ block_restart_interval_ use_value_delta_encoding_ data_block_hash_index_builder_].
    + by rewrite (bu_buffer _ _ _ B), stored_snoc.
    + rewrite Hres. apply list_fmap_ext. intros j x Hx. rewrite off_app; [done|].
      destruct (sh_range _ _ Hshape j x Hx) as [Hl| ->]; [|lia]. rewrite length_app in Hl. cbn in Hl. lia.
    + rewrite Hest, u64_add_l, !zlen_app. f_equal. lia.
    + exists r. rewrite length_app. cbn. split_and!; [done|lia|]. rewrite Hcnt. lia.
    + rewrite Hc1. apply B.
    + rewrite Hc1, length_app. intros H1. rewrite (Hdense H1). f_equal. cbn [length]. lia.
    + done.
    + subst h1. destruct (hash_Valid _) eqn:E; [|by intros ?%eq_true_false_abs].
      apply (collected_snoc _ es rs rs1 e r); try done; [apply B|by apply (ea_internal _ _ _ _ A)].
  - cbn. subst h1. by destruct (hash_Valid (data_block_hash_index_builder_ b)) eqn:E; [|rewrite E].
Qed.

(** The last key that [Add] keeps. *)
Definition last_kept (b : BlockBuilder) (es : list item) : Prop :=
  last_key_ b = if use_delta_encoding_ b then default [] (i_key <$> last es) else [].

(** What an entry holds of the arguments of [Add]. *)
Definition holds (vd : bool) (e : item) (a : bytes * bytes * option bytes) : Prop :=
  i_key e = a.1.1 /\ i_value e = stored_value vd (i_shared e) a.1.2 a.2.

Lemma Add_ok b es rs key value delta_value :
  built b es rs -> last_kept b es -> entry_args b key value delta_value ->
  exists e b' rs', builder_Add key value delta_value b = Ret tt b' /\
    holds (use_value_delta_encoding_ b) e (key, value, delta_value) /\
    built b' (es ++ [e]) rs' /\ last_kept b' (es ++ [e]) /\ same_config b b' /\
    (hash_Valid (data_block_hash_index_builder_ b') = true -> hash_Valid (data_block_hash_index_builder_ b) = true).
Proof.
  intros B L A. destruct (AddImpl_ok b es rs key value (last_key_ b) delta_value B A)
    as (shared & b1 & rs1 & Hadd & B1 & Hc & Hlk & Hh).
  - intros ->. rewrite L. by destruct (use_delta_encoding_ b).
  - intros e He. rewrite L, He. destruct (use_delta_encoding_ b); [done|apply prefix_nil].
  - unfold builder_Add. rewrite bind_gets. cbv beta. change (id b) with b. rewrite (bind_Ret _ _ _ _ _ Hadd). cbv beta.
    exists (Item shared key (stored_value (use_value_delta_encoding_ b) shared value delta_value)).
    unfold last_kept in *. pose proof Hc as (_ & Hc2 & _). destruct (use_delta_encoding_ b) eqn:E; cbn [when].
    + eexists _, rs1. split; [reflexivity|]. split; [by split|]. split; [destruct B1; by split|]. cbn.
      split; [by rewrite last_snoc, Hc2|]. split; [exact Hc|exact Hh].
    + exists b1, rs1. split; [reflexivity|]. split; [by split|]. rewrite last_snoc, Hc2, Hlk. by split_and!.
Qed.

(** [Add] for each of the arguments. *)
Definition builder_Adds (l : list (bytes * bytes * option bytes)) : prog BlockBuilder unit :=
  iterM (fun '(key, value, delta_value) => builder_Add key value delta_value) l.

Lemma Adds_ok l b es rs :
  built b es rs -> last_kept b es ->
  Forall (fun '(key, value, delta_value) => entry_args b key value delta_value) l ->
  exists es1 b' rs', builder_Adds l b = Ret tt b' /\
    Forall2 (holds (use_value_delta_encoding_ b)) es1 l /\
    built b' (es ++ es1) rs' /\ last_kept b' (es ++ es1) /\ same_config b b' /\
    (hash_Valid (data_block_hash_index_builder_ b') = true -> hash_Valid (data_block_hash_index_builder_ b) = true).
Proof.
  revert b es rs. induction l as [|[[key value] dv] l IH]; intros b es rs B L A.
  - exists [], b, rs. rewrite app_nil_r. by split_and!.
  - apply Forall_cons in A as [A1 A2].
    destruct (Add_ok b es rs key value dv B L A1) as (e & b1 & rs1 & H1 & He & B1 & L1 & C1 & V1).
    pose proof C1 as (_ & _ & C3). destruct (IH b1 _ rs1 B1 L1) as (es1 & b2 & rs2 & H2 & Hall & B2 & L2 & C2 & V2).
    { eapply Forall_impl; [done|]. intros [[k v] d] [Ha1 Ha2 Ha3 Ha4]. split; [done..|by rewrite C3|].
      intros Hv. by apply Ha4, V1. }
    exists (e :: es1), b2, rs2. rewrite <- app_assoc in *. rewrite C3 in Hall. split_and!; try done.
    + unfold builder_Adds. cbn [iterM]. by rewrite (bind_Ret _ _ _ _ _ H1).
    + by constructor.
    + by eapply same_config_trans.
    + intros Hv. by apply V1, V2.
Qed.

(** [AddWithLastKey], given the key that was added before. *)
Lemma AddWithLastKey_ok b es rs key value last_key delta_value :
  built b es rs -> entry_args b key value delta_value ->
  (forall e, last es = Some e -> i_key e = last_key) ->
  exists e b' rs', AddWithLastKey key value last_key delta_value b = Ret tt b' /\
    holds (use_value_delta_encoding_ b) e (key, value, delta_value) /\
    built b' (es ++ [e]) rs' /\ same_config b b'.
Proof.
  intros B A Hl. unfold AddWithLastKey. rewrite bind_gets. cbv beta zeta. change (id b) with b.
  set (lk := take _ last_key).
  destruct (AddImpl_ok b es rs key value lk delta_value B A) as (shared & b1 & rs1 & Hadd & B1 & Hc & _).
  - intros ->. subst lk. rewrite (bu_buffer _ _ _ B). cbn. pose proof (zlen_nonneg last_key).
    change (zlen (stored _ [])) with 0. by rewrite Z.min_l by done.
  - intros e He. rewrite (Hl e He). apply prefix_take.
  - exists (Item shared key (stored_value (use_value_delta_encoding_ b) shared value delta_value)), b1, rs1.
    split; [exact Hadd|]. by split_and!.
Qed.

(** ** The end of a block

    What [BlockBuilder::Finish] appends, and what [Block] finds
    there. *)

(** ** The footer *)

Lemma unpack_packed ty n : 0 <= n < 2 ^ 31 ->
  UnPackIndexTypeAndNumRestarts (PackIndexTypeAndNumRestarts ty n) = (ty, n) /\
  0 <= PackIndexTypeAndNumRestarts ty n < 2 ^ 32.
Proof.
  intros Hn. unfold UnPackIndexTypeAndNumRestarts, PackIndexTypeAndNumRestarts.
  change kNumRestartsMask with (Z.ones 31). change (Z.shiftl 1 kDataBlockIndexTypeBitShift) with (1 * 2 ^ 31).
  rewrite Z.land_ones by lia. assert (forall x, Z.land x (1 * 2 ^ 31) = 0 <-> Z.testbit x 31 = false) as Hbit.
  { intros x. split; intros H.
    - assert (Z.testbit (Z.land x (1 * 2 ^ 31)) 31 = false) as H' by (by rewrite H, Z.bits_0).
      rewrite Z.land_spec in H'. by rewrite andb_true_r in H'.
    - apply Z.bits_inj'. intros i _. rewrite Z.land_spec, Z.bits_0, Z.mul_1_l, Z.pow2_bits_eqb by lia.
      destruct (Z.eqb_spec 31 i) as [<-|]; [by rewrite H|apply andb_false_r]. }
  assert (Z.testbit n 31 = false) as Hb.
  { destruct (decide (n = 0)) as [->|]; [apply Z.bits_0|]. apply Z.bits_above_log2; [lia|]. apply Z.log2_lt_pow2; lia. }
  destruct ty.
  - rewrite (proj2 (Hbit n) Hb), Z.mod_small by done. split; [done|lia].
  - destruct (Z.eqb_spec (Z.land (Z.lor n (1 * 2 ^ 31)) (1 * 2 ^ 31)) 0) as [H%Hbit|_].
    + by rewrite Z.lor_spec, orb_true_r in H.
    + change (1 * 2 ^ 31) with (Z.shiftl 1 31). rewrite lor_high by lia. split; [|lia].
      cbn [negb]. f_equal. rewrite Z_mod_plus_full. by apply Z.mod_small.
Qed.

(** ** What [Finish] makes *)

(** The table of the hash index. *)
Definition bucket_table (h : DataBlockHashIndexBuilder) (num_buckets : Z) : list Z :=
  foldl (put_bucket num_buckets) (replicate (Z.to_nat num_buckets) kNoEntry) (hash_and_restart_pairs_ h).

(** The contents of a block, with the number of buckets and the table, if there is
    one. *)
Definition table_bytes (table : option (Z * list Z)) : bytes :=
  match table with Some (n, t) => (byte_of <$> t) ++ le_bytes 2 n | None => [] end.
Definition table_type (table : option (Z * list Z)) : DataBlockIndexType :=
  if table is Some _ then kDataBlockBinaryAndHash else kDataBlockBinarySearch.
Definition contents_of (vd : bool) (es : list item) (rs : list nat) (table : option (Z * list Z)) : bytes :=
  stored vd es ++ restart_bytes vd es rs ++ table_bytes table ++
  le_bytes 4 (PackIndexTypeAndNumRestarts (table_type table) (zlen rs)).

Record table_ok (n : Z) (t : list Z) : Prop := {
  tb_odd : Z.odd n = true;
  tb_range : 1 <= n < 2 ^ 16;
  tb_length : zlen t = n }.

Lemma put_bucket_length n t p : length (put_bucket n t p) = length t.
Proof. destruct p as [h j]. unfold put_bucket. repeat case_match; by rewrite ?length_insert. Qed.

Lemma bucket_table_length h n : 0 <= n -> zlen (bucket_table h n) = n.
Proof.
  intros Hn. unfold bucket_table, zlen. replace n with (Z.of_nat (length (replicate (Z.to_nat n) kNoEntry))) at 3
    by (rewrite length_replicate; lia).
  f_equal. generalize (replicate (Z.to_nat n) kNoEntry). induction (hash_and_restart_pairs_ h) as [|p l IH]; intros t; [done|].
  cbn. by rewrite IH, put_bucket_length.
Qed.

(** The number of buckets is odd: it is rounded up by setting the lowest bit. *)
Lemma odd_buckets n : 0 <= n < 2 ^ 16 -> Z.lor (if n =? 0 then 1 else n) 1 = Z.lor n 1 /\
  Z.odd (Z.lor n 1) = true /\ 1 <= Z.lor n 1 < 2 ^ 16.
Proof.
  intros Hn. split; [by destruct (Z.eqb_spec n 0) as [->|]|]. split.
  - by rewrite <- Z.bit0_odd, Z.lor_spec, orb_true_r.
  - pose proof (proj2 (Z.lor_nonneg n 1)). pose proof (Z.log2_lor n 1 ltac:(lia) ltac:(lia)) as Hl.
    rewrite Z.max_l in Hl by (change (Z.log2 1) with 0; apply Z.log2_nonneg).
    assert (Z.lor n 1 <> 0) by (intros H0; apply Z.lor_eq_0_iff in H0; lia). split; [lia|].
    apply Z.log2_lt_pow2; [lia|]. rewrite Hl. destruct (decide (n = 0)) as [->|]; [done|]. apply Z.log2_lt_pow2; lia.
Qed.

Lemma to_uint16_range x n : to_uint16 x = Some n -> 0 <= n < 2 ^ 16.
Proof.
  unfold to_uint16. destruct x; try done; [by intros [= <-]|].
  destruct (_ && _) eqn:E; [|done]. intros [= <-]. lia.
Qed.

Lemma hash_Finish_ok h buffer n : to_uint16 (estimated_num_buckets_ h) = Some n ->
  hash_Finish h buffer = Some (buffer ++ (byte_of <$> bucket_table h (Z.lor n 1)) ++ le_bytes 2 (Z.lor n 1)) /\
  hash_EstimateSize h = Some (2 + Z.lor n 1) /\ table_ok (Z.lor n 1) (bucket_table h (Z.lor n 1)).
Proof.
  intros Hn. pose proof (odd_buckets n (to_uint16_range _ _ Hn)) as (Hl & Hodd & Hr).
  unfold hash_Finish, hash_EstimateSize. rewrite Hn. cbn [mbind option_bind]. rewrite Hl.
  split; [|split; [done|]].
  - unfold PutFixed16. by rewrite <- app_assoc.
  - split; [done..|]. apply bucket_table_length. lia.
Qed.

Lemma put_restarts vd es rs (buffer : bytes) :
  zlen (stored vd es) < 2 ^ 32 ->
  foldl (PutFixed32 true) buffer ((fun r => u32 (off vd es r)) <$> rs) = buffer ++ restart_bytes vd es rs.
Proof.
  intros Hs. unfold restart_bytes. revert buffer. induction rs as [|r rs IH]; intros buffer; cbn.
  - by rewrite app_nil_r.
  - rewrite IH. unfold PutFixed32. rewrite u32_small, <- app_assoc; [done|].
    pose proof (off_nonneg vd es r). pose proof (off_mono vd es r (Nat.max r (length es)) ltac:(lia)).
    rewrite (off_end vd es (Nat.max r (length es))) in * by lia. lia.
Qed.

(** The size of the block without hash index. *)
Definition plain_size (vd : bool) (es : list item) (rs : list nat) : Z := zlen (stored vd es) + 4 * zlen rs + 4.

Lemma plain_size_ge vd es rs : 0 <= zlen (stored vd es) /\ 0 <= zlen rs /\
  zlen (stored vd es) + 4 * zlen rs + 4 = plain_size vd es rs.
Proof. split_and!; [apply zlen_nonneg..|done]. Qed.

Lemma contents_size vd es rs table :
  zlen (contents_of vd es rs table) = plain_size vd es rs + zlen (table_bytes table).
Proof.
  unfold contents_of, plain_size. rewrite !zlen_app, zlen_restart_bytes. unfold zlen. rewrite ?length_le_bytes. lia.
Qed.

Lemma table_size n t : table_ok n t -> zlen (table_bytes (Some (n, t))) = 2 + n.
Proof.
  intros T. rewrite <- (tb_length _ _ T). unfold table_bytes. rewrite zlen_app, zlen_fmap. unfold zlen. rewrite length_le_bytes. lia.
Qed.

(** What is known of the table of a block that was built. *)
Definition table_of (b : BlockBuilder) (size : Z) (table : option (Z * list Z)) : Prop :=
  match table with
  | Some (n, t) => hash_Valid (data_block_hash_index_builder_ b) = true /\ table_ok n t /\
      t = bucket_table (data_block_hash_index_builder_ b) n /\ size <= kMaxBlockSizeSupportedByHashIndex
  | None => True
  end.

(** The number of buckets fits in 16 bits. *)
Definition buckets_fit (h : DataBlockHashIndexBuilder) : Prop :=
  hash_Valid h = true -> is_Some (to_uint16 (estimated_num_buckets_ h)).

Section Finish.
Context (b : BlockBuilder) (es : list item) (rs : list nat) (B : built b es rs).
Let vd := use_value_delta_encoding_ b.
Context (Hsize : plain_size vd es rs < 2 ^ 32) (Hfit : buckets_fit (data_block_hash_index_builder_ b)).

Lemma estimate_is : estimate_ b = plain_size vd es rs.
Proof.
  pose proof (plain_size_ge vd es rs). rewrite (bu_estimate _ _ _ B), (bu_buffer _ _ _ B).
  fold vd. rewrite u64_small by lia. lia.
Qed.

Lemma finish_index_ok buffer : exists table,
  finish_index buffer b = Ret (buffer ++ table_bytes table, table_type table) b /\
  table_of b (zlen (contents_of vd es rs table)) table /\
  exists n, CurrentSizeEstimate b = Some n /\
    (zlen (contents_of vd es rs table) = n \/
     hash_Valid (data_block_hash_index_builder_ b) = true /\ kMaxBlockSizeSupportedByHashIndex < n).
Proof.
  pose proof (plain_size_ge vd es rs). unfold finish_index. rewrite bind_gets. cbv beta zeta. change (id b) with b.
  destruct (hash_Valid _) eqn:Hv.
  - destruct (Hfit Hv) as [n Hn]. destruct (hash_Finish_ok _ buffer n Hn) as (Hf & He & Ht).
    pose proof (tb_range _ _ Ht). pose proof (table_size _ _ Ht) as Hsz.
    assert (CurrentSizeEstimate b = Some (plain_size vd es rs + (2 + Z.lor n 1))) as Hc.
    { unfold CurrentSizeEstimate. rewrite Hv, He, estimate_is. cbn [mbind option_bind]. f_equal. apply u64_small. lia. }
    rewrite Hc. erewrite (bind_Ret (the (Some _))) by reflexivity. cbv beta. case_match eqn:E.
    + exists (Some (Z.lor n 1, bucket_table (data_block_hash_index_builder_ b) (Z.lor n 1))).
      rewrite Hf. split; [reflexivity|]. rewrite contents_size, Hsz. split; [split_and!; try done; lia|].
      eexists. by split; [|left].
    + exists None. rewrite app_nil_r. split; [reflexivity|]. split; [done|]. eexists. split; [done|]. right. split; [done|lia].
  - exists None. rewrite app_nil_r. split; [reflexivity|]. split; [done|].
    unfold CurrentSizeEstimate. rewrite Hv, contents_size, estimate_is. cbn [mbind option_bind]. eexists. split; [done|]. left.
    rewrite u64_small; [done|]. lia.
Qed.

Lemma Finish_ok : exists table b', let c := contents_of vd es rs table in
  builder_Finish b = Ret c b' /\ buffer_ b' = c /\ in_use b' /\ same_config b b' /\ table_of b (zlen c) table /\
  exists n, CurrentSizeEstimate b = Some n /\
    (zlen c = n \/ hash_Valid (data_block_hash_index_builder_ b) = true /\ kMaxBlockSizeSupportedByHashIndex < n).
Proof.
  pose proof (plain_size_ge vd es rs). unfold builder_Finish. rewrite bind_gets. cbv beta zeta. change (id b) with b.
  rewrite (bu_buffer _ _ _ B), (bu_restarts _ _ _ B), zlen_fmap. fold vd.
  rewrite put_restarts, u32_small by lia. pose proof (built_in_use b es rs B) as Hu.
  destruct (finish_index_ok (stored vd es ++ restart_bytes vd es rs)) as (table & Hf & Ht & He).
  rewrite (bind_Ret _ _ _ _ _ Hf). cbv beta iota.
  eexists table, _. cbv zeta. unfold PutFixed32. rewrite <- !app_assoc.
  split; [reflexivity|]. by split_and!.
Qed.
End Finish.

(** ** What [Block] finds *)

Section Found.
Context (vd : bool) (es : list item) (rs : list nat) (table : option (Z * list Z)).
Let c := contents_of vd es rs table.
Context (Sh : shape es rs) (Hc : zlen c < 2 ^ 32).
Context (Htable : forall n t, table = Some (n, t) -> table_ok n t /\ zlen c <= kMaxBlockSizeSupportedByHashIndex).

Lemma found_restarts : 1 <= zlen rs < 2 ^ 30.
Proof.
  pose proof (lookup_lt_Some _ _ _ (sh_first _ _ Sh)). pose proof (contents_size vd es rs table) as Hs. fold c in Hs.
  pose proof (plain_size_ge vd es rs). pose proof (zlen_nonneg (table_bytes table)). unfold zlen in *. lia.
Qed.

Lemma footer_found : fixed32_at c (zlen c - 4) = PackIndexTypeAndNumRestarts (table_type table) (zlen rs).
Proof.
  pose proof found_restarts. unfold fixed32_at.
  assert (c = (stored vd es ++ restart_bytes vd es rs ++ table_bytes table) ++
    le_bytes 4 (PackIndexTypeAndNumRestarts (table_type table) (zlen rs)) ++ []) as Hd.
  { subst c. unfold contents_of. by rewrite app_nil_r, <- !app_assoc. }
  rewrite Hd at 1. rewrite (sub_middle _ (le_bytes 4 _)); [|rewrite Hd, !zlen_app; unfold zlen; rewrite !length_app, length_le_bytes; cbn; lia
    |by rewrite length_le_bytes].
  unfold DecodeFixed32. rewrite take_ge by (by rewrite length_le_bytes). rewrite le_val_bytes. apply Z.mod_small.
  apply unpack_packed. lia.
Qed.

Lemma NumRestarts_found : NumRestarts c (zlen c) = zlen rs /\ IndexType c (zlen c) = table_type table.
Proof.
  unfold NumRestarts, IndexType. rewrite footer_found. case_match eqn:E.
  - destruct table as [[n t]|]; [|done]. destruct (Htable n t eq_refl). lia.
  - pose proof found_restarts. destruct (unpack_packed (table_type table) (zlen rs)) as [-> _]; [lia|done].
Qed.

Lemma hash_found n t : table = Some (n, t) ->
  hash_index_Initialize c (u16 (zlen c - 4)) = (n, zlen (stored vd es) + 4 * zlen rs).
Proof.
  intros Ht. destruct (Htable n t Ht) as [T Hmax]. pose proof (contents_size vd es rs table) as Hs. fold c in Hs.
  rewrite Ht, (table_size n t T) in Hs. pose proof (plain_size_ge vd es rs). pose proof (tb_range _ _ T).
  change kMaxBlockSizeSupportedByHashIndex with 65536 in Hmax.
  unfold hash_index_Initialize. rewrite (u16_small (zlen c - 4)) by lia.
  assert (sub c (zlen c - 4 - 2) 2 = le_bytes 2 n) as ->.
  { assert (c = (stored vd es ++ restart_bytes vd es rs ++ (byte_of <$> t)) ++ le_bytes 2 n ++
      le_bytes 4 (PackIndexTypeAndNumRestarts kDataBlockBinaryAndHash (zlen rs))) as ->.
    { subst c. unfold contents_of. rewrite Ht. cbn [table_bytes table_type]. by rewrite <- !app_assoc. }
    apply sub_middle; rewrite ?zlen_app; unfold zlen; rewrite ?length_app, ?length_le_bytes; lia. }
  assert (DecodeFixed16 true (le_bytes 2 n) = n) as ->.
  { unfold DecodeFixed16. rewrite take_ge by (by rewrite length_le_bytes). rewrite le_val_bytes. apply Z.mod_small. lia. }
  f_equal. rewrite u16_small; lia.
Qed.

Lemma new_Block_ok :
  new_Block c = MkBlock c (zlen c) (zlen (stored vd es)) (zlen rs) (from_option fst 0 table).
Proof.
  destruct NumRestarts_found as [Hn Ht]. pose proof found_restarts.
  pose proof (contents_size vd es rs table) as Hs. fold c in Hs. pose proof (plain_size_ge vd es rs).
  pose proof (zlen_nonneg (table_bytes table)). pose proof hash_found as Hhash.
  unfold new_Block. rewrite Hn, Ht, (proj2 (Z.ltb_ge (zlen c) 4)) by lia. destruct table as [[n t]|]; cbn [table_type from_option].
  - rewrite (proj2 (Z.ltb_ge (zlen c) 6)) by (unfold table_bytes in *; rewrite zlen_app in *; pose proof (zlen_nonneg (byte_of <$> t));
      change (zlen (le_bytes 2 n)) with 2 in *; lia). rewrite (Hhash n t eq_refl). cbn [fst].
    rewrite u32_small by lia. rewrite (proj2 (Z.ltb_ge _ _)) by lia. f_equal. lia.
  - change (zlen (table_bytes None)) with 0 in *. rewrite !u32_small by (rewrite ?u32_small; lia).
    rewrite (proj2 (Z.ltb_ge _ _)) by lia. f_equal. lia.
Qed.

Lemma layout_found : layout vd c (zlen (stored vd es)) es rs.
Proof.
  destruct Sh. split; try done. eexists. reflexivity.
Qed.

Lemma lookup_found n t key : table = Some (n, t) ->
  hash_index_Lookup n c (zlen (stored vd es) + 4 * zlen rs) key =
    (fun x => x mod 256) <$> t !! Z.to_nat (GetSliceHash key mod n).
Proof.
  intros Ht. destruct (Htable n t Ht) as [T _]. unfold hash_index_Lookup.
  pose proof (tb_range _ _ T). pose proof (Z.mod_pos_bound (GetSliceHash key) n ltac:(lia)). rewrite u16_small by lia.
  subst c. unfold contents_of. rewrite Ht. cbn [table_bytes table_type]. rewrite (app_assoc (stored vd es)).
  rewrite lookup_app_at; [|by rewrite zlen_app, zlen_restart_bytes|lia].
  pose proof (tb_length _ _ T). rewrite <- app_assoc, lookup_app_l by (rewrite length_fmap; unfold zlen in *; lia).
  rewrite list_lookup_fmap. destruct (t !! _); [|done]. cbn. by rewrite byte_val_of.
Qed.
End Found.
