(* ===== verification/BlockThms.v ===== *)
(** Data blocks: the iterator over a block that the builder made is a cursor over
    the entries that were added. *)
From S2P Require Import Prelude Bits Coding IoStatus Comparator DbFormat BlockBuilder BlockIter BlockSpec BlockSeek BlockCursor BlockBuild.
From stdpp Require Import base numbers list strings.
From Stdlib Require Import ZArith Lia SpecFloat.
Local Open Scope Z_scope.

(** ** Cursors over sorted lists *)

Inductive cursor_op :=
| OpSeekToFirst | OpSeekToLast | OpSeek (target : bytes) | OpSeekForPrev (target : bytes) | OpNext | OpPrev.

Section Cursors.
Context {user_comparator : Comparator}.

(** How many elements in front satisfy [f]. *)
Fixpoint prefix_count {A} (f : A -> bool) (l : list A) : nat :=
  match l with [] => O | x :: l' => if f x then S (prefix_count f l') else O end.

(** The position behind an operation on a list of keys; [None] is off the list, and
    [Next] and [Prev] are called only on it. *)
Definition cursor_step (keys : list bytes) (op : cursor_op) (p : option nat) : option (option nat) :=
  let at_ n := if (n <? length keys)%nat then Some n else None in
  let before n := if (n =? 0)%nat then None else Some (n - 1)%nat in
  match op with
  | OpSeekToFirst => Some (at_ O)
  | OpSeekToLast => Some (before (length keys))
  | OpSeek target => Some (at_ (prefix_count (fun k => icmp k target <? 0) keys))
  | OpSeekForPrev target => Some (before (prefix_count (fun k => icmp k target <=? 0) keys))
  | OpNext => i ← p; Some (at_ (S i))
  | OpPrev => i ← p; Some (before i)
  end.

Fixpoint cursor_run (keys : list bytes) (ops : list cursor_op) (p : option nat) : option (option nat) :=
  match ops with
  | [] => Some p
  | op :: ops' => p' ← cursor_step keys op p; cursor_run keys ops' p'
  end.

(** The operation of the iterator. *)
Definition iter_op (op : cursor_op) : prog DataBlockIter unit :=
  match op with
  | OpSeekToFirst => data_SeekToFirst
  | OpSeekToLast => data_SeekToLast
  | OpSeek target => data_Seek target
  | OpSeekForPrev target => data_SeekForPrev target
  | OpNext => data_Next
  | OpPrev => data_Prev
  end.

(** Targets of searches are internal keys. *)
Definition op_ok (op : cursor_op) : Prop :=
  match op with OpSeek target | OpSeekForPrev target => internal target | _ => True end.
End Cursors.

(** What the user of an iterator sees: the key and the value, if it is valid. *)
Definition observe (s : DataBlockIter) : option (bytes * option bytes) :=
  if it_Valid (data_iter s) then Some (it_key_ (data_iter s), it_value (data_iter s)) else None.

Lemma count_front_prefix (f : bytes -> bool) es : count_front f es = prefix_count f (i_key <$> es).
Proof. induction es as [|e l IH]; [done|]. cbn. by rewrite IH. Qed.

Lemma prefix_count_fmap {A B} (h : A -> B) f l : prefix_count f (h <$> l) = prefix_count (fun x => f (h x)) l.
Proof. induction l as [|x l IH]; [done|]. cbn. by rewrite IH. Qed.

(** ** The iterator is a cursor *)

Section Iterator.
Context {user_comparator : Comparator} {laws : ComparatorLaws user_comparator}.
Context {data : bytes} {restarts : Z} {es : list item} {rs : list nat}.
Context (LO : layout false data restarts es rs) (g : Z).
Context (Hg : g = kDisableGlobalSequenceNumber \/ 0 <= g <= kMaxSequenceNumber).
Context (Hint : forall i e, es !! i = Some e -> internal (i_key e)).
Context (Hord : forall i j e f, es !! i = Some e -> es !! j = Some f -> (i < j)%nat ->
  icmp (shown g (i_key e)) (shown g (i_key f)) < 0).

Abbreviation pos := (at_pos (here (data := data) (restarts := restarts) (es := es) (rs := rs) g)
  (fin (data := data) (restarts := restarts) (es := es) (rs := rs) g)).
Let keys : list bytes := (fun e => shown g (i_key e)) <$> es.

(** What is seen at a position. *)
Definition view_at (p : option nat) : option (bytes * option bytes) :=
  i ← p; e ← es !! i; Some (shown g (i_key e), Some (i_value e)).

Lemma update_key s p :
  (g <> kDisableGlobalSequenceNumber -> forall i e, es !! i = Some e -> internal (i_key e)) ->
  pos s p -> exists s', data_UpdateKey s = Ret tt s' /\ pos s' p /\ observe s' = view_at p.
Proof.
  intros Hi P. unfold data_UpdateKey, observe. destruct p as [i|].
  - destruct P as (e & A & C). pose proof (at_entry_valid LO false g _ i e A) as Hv. pose proof A as [F I He Hc Hk Ha Hval].
    assert (exists k pinned, UpdateKey (data_iter s) = Ret tt (set_key k pinned (data_iter s)) /\ k = shown g (i_key e))
      as (k & pinned & Hu & Hshown).
    { unfold UpdateKey. rewrite bind_gets. cbv beta. change (id ?x) with x. rewrite Hv, (fr_user _ _ _ F), (fr_global _ _ _ F).
      cbn [negb orb]. unfold shown. rewrite Hk. destruct (Z.eqb_spec g kDisableGlobalSequenceNumber) as [_|Hne].
      - eexists _, _. by split.
      - unfold GetUserKey. rewrite (fr_user _ _ _ F), Hk, ExtractUserKey_internal by (by eapply Hi).
        erewrite bind_Ret by reflexivity. unfold ExtractValueType. rewrite ExtractFooter_internal by (by eapply Hi).
        erewrite bind_Ret by reflexivity. eexists _, _. split; [reflexivity|]. done. }
    exists (set data_base (set_key k pinned (data_iter s)) s). split; [by apply zoom_base|].
    assert (at_entry (vd := false) (data := data) (restarts := restarts) (es := es) (rs := rs) false g (set_key k pinned (data_iter s)) i e) as A'
      by (split; try done; by destruct F; split).
    split; [by exists e|]. cbn -[it_Valid it_value]. rewrite (at_entry_valid LO false g _ i e A'), (at_entry_value LO false g _ i e A').
    cbn. by rewrite He, Hshown.
  - exists s. assert (it_Valid (data_iter s) = false) as Hv by (apply (at_end_valid false g _ (proj1 P))).
    split; [|split; [done|by rewrite Hv]]. rewrite (zoom_base _ s tt (data_iter s)); [by destruct s|].
    unfold UpdateKey. rewrite bind_gets. cbv beta. change (id ?x) with x. by rewrite Hv.
Qed.

Lemma then_update (m : prog DataBlockIter unit) s s1 p : m s = Ret tt s1 -> pos s1 p ->
  exists s', (m;; data_UpdateKey) s = Ret tt s' /\ pos s' p /\ observe s' = view_at p.
Proof. intros Hm P. destruct (update_key s1 p (fun _ => Hint) P) as (s' & Hu & Hs). exists s'. by rewrite (bind_Ret _ _ _ _ _ Hm). Qed.

Lemma length_keys : length keys = length es.
Proof. subst keys. by rewrite length_fmap. Qed.

Lemma below_keys target : lower_bound (es := es) (kcmp g target) = prefix_count (fun k => icmp k target <? 0) keys.
Proof. subst keys. unfold lower_bound. by rewrite count_front_prefix, !prefix_count_fmap. Qed.

Lemma prev_keys target : prev_pos (es := es) g target =
  let n := prefix_count (fun k => icmp k target <=? 0) keys in if (n =? 0)%nat then None else Some (n - 1)%nat.
Proof. subst keys. unfold prev_pos. by rewrite count_front_prefix, !prefix_count_fmap. Qed.

Lemma iter_step op s p p' : pos s p -> op_ok op -> cursor_step keys op p = Some p' ->
  exists s', iter_op op s = Ret tt s' /\ pos s' p' /\ observe s' = view_at p'.
Proof.
  intros P Hop Hst. pose proof (pos_sound g s p P) as So.
  assert (forall (m : prog DataBlockIter unit) q, (exists s1, m s = Ret tt s1 /\ pos s1 q) -> p' = q ->
    exists s', (m;; data_UpdateKey) s = Ret tt s' /\ pos s' p' /\ observe s' = view_at p') as Hthen.
  { intros m q (s1 & Hm & P1) ->. by eapply then_update. }
  destruct op as [| |target|target| |]; cbn [iter_op cursor_step] in *; rewrite ?length_keys in *.
  - eapply Hthen; [by apply (data_SeekToFirst_ok LO g)|]. by injection Hst.
  - eapply Hthen; [by apply (data_SeekToLast_ok LO g)|]. by injection Hst.
  - eapply Hthen; [by apply (data_Seek_ok LO g Hg Hint Hord target Hop s p)|]. rewrite below_keys. by injection Hst.
  - eapply Hthen; [by apply (data_SeekForPrev_ok LO g Hg Hint Hord target Hop s p)|]. rewrite prev_keys. by injection Hst.
  - destruct p as [i|]; [|done]. destruct P as [e He]. eapply Hthen; [by apply (data_Next_ok LO g s i e)|]. by injection Hst.
  - destruct p as [i|]; [|done]. destruct P as [e He]. eapply Hthen; [by apply (data_Prev_ok LO g s i e)|]. by injection Hst.
Qed.

Lemma iter_run ops s p p' : pos s p -> observe s = view_at p -> Forall op_ok ops -> cursor_run keys ops p = Some p' ->
  exists s', iterM iter_op ops s = Ret tt s' /\ pos s' p' /\ observe s' = view_at p'.
Proof.
  revert s p. induction ops as [|op ops IH]; intros s p P Ho Hops Hrun; cbn in *.
  - injection Hrun as <-. by exists s.
  - apply Forall_cons in Hops as [Hop Hops]. destruct (cursor_step keys op p) as [p1|] eqn:E; [|done].
    destruct (iter_step op s p p1 P Hop E) as (s1 & Hs1 & P1 & O1).
    destruct (IH s1 p1 P1 O1 Hops Hrun) as (s' & Hs' & Hrest). exists s'. by rewrite (bind_Ret _ _ _ _ _ Hs1).
Qed.
End Iterator.

(** ** From the builder to the iterator *)

(** An upper bound on the size of a block. *)
Definition block_room (kvs : list (bytes * bytes)) : Z :=
  12 + foldr (fun '(k, v) n => 19 + zlen k + zlen v + n) 0 kvs.

(** The arguments of the calls of [Add]. *)
Definition add_args (kvs : list (bytes * bytes)) : list (bytes * bytes * option bytes) := (.,None) <$> kvs.

(** The entries of a data block are what was added. *)
Definition same_entry (e : item) (kv : bytes * bytes) : Prop := i_key e = kv.1 /\ i_value e = kv.2.

Lemma holds_same es kvs : Forall2 (holds false) es (add_args kvs) -> Forall2 same_entry es kvs.
Proof.
  intros H. unfold add_args in H. rewrite Forall2_fmap_r in H. eapply Forall2_impl; [exact H|]. intros e [k v] [Hk Hv].
  split; [done|]. rewrite Hv. unfold stored_value. by rewrite andb_false_r.
Qed.

Lemma same_entry_lookup es kvs i : Forall2 same_entry es kvs ->
  kvs !! i = (fun e => (i_key e, i_value e)) <$> es !! i.
Proof.
  intros H. destruct (es !! i) as [e|] eqn:E; cbn.
  - destruct (Forall2_lookup_l _ _ _ _ _ H E) as ([k v] & Hk & -> & ->). done.
  - apply lookup_ge_None in E. rewrite (Forall2_length _ _ _ H) in E. by apply lookup_ge_None.
Qed.

Lemma restarts_le_entries es rs : shape es rs -> zlen rs <= zlen es + 1.
Proof.
  intros Sh. assert (forall j r, rs !! j = Some r -> (j <= r)%nat) as Hj.
  { induction j as [|j IH]; intros r Hr; [lia|]. destruct (lookup_lt_is_Some_2 rs j) as [q Hq].
    { apply lookup_lt_Some in Hr. lia. }
    pose proof (IH q Hq). pose proof (sh_sorted _ _ Sh j (S j) q r Hq Hr ltac:(lia)). lia. }
  pose proof (lookup_lt_Some _ _ _ (sh_first _ _ Sh)).
  destruct (lookup_lt_is_Some_2 rs (length rs - 1) ltac:(lia)) as [r Hr]. pose proof (Hj _ r Hr).
  destruct (sh_range _ _ Sh _ r Hr); unfold zlen; lia.
Qed.

Lemma enc_room vd e : item_ok e -> zlen (enc vd e) <= 15 + zlen (i_key e) + zlen (i_value e).
Proof.
  intros Ho. destruct (item_ok_sizes e Ho) as (Ha & Hb & Hc). unfold enc, header. rewrite !zlen_app.
  pose proof (zlen_EncodeVarint32 _ Ha). pose proof (zlen_EncodeVarint32 _ Hb). pose proof (zlen_EncodeVarint32 _ Hc).
  assert (zlen (if vd then [] else EncodeVarint32 (zlen (i_value e))) <= 5)
    by (destruct vd; [change (zlen (A := Byte.byte) []) with 0|]; lia).
  pose proof (zlen_drop (i_shared e) (i_key e) (io_shared _ Ho)). lia.
Qed.

Lemma stored_room es kvs : Forall item_ok es -> Forall2 same_entry es kvs ->
  zlen (stored false es) + 4 * zlen es + 12 <= block_room kvs.
Proof.
  unfold block_room. intros Hok H. induction H as [|e [k v] es kvs [Hk Hv] H IH]; [done|].
  apply Forall_cons in Hok as [Ho Hok]. specialize (IH Hok). unfold stored in *. cbn [fmap list_fmap concat foldr].
  rewrite zlen_app. pose proof (enc_room false e Ho). cbn in Hk, Hv. subst k v.
  change (zlen (e :: es)) with (Z.of_nat (S (length es))). change (zlen es) with (Z.of_nat (length es)) in IH.
  change (list_fmap _ _ ?f es) with (f <$> es). lia.
Qed.

Lemma room_entry kvs k v : (k, v) ∈ kvs -> block_room kvs < 2 ^ 32 -> zlen k < 2 ^ 32 /\ zlen v < 2 ^ 32.
Proof.
  unfold block_room. intros Hin Hr.
  assert (0 <= foldr (fun '(k, v) n => 19 + zlen k + zlen v + n) 0 kvs /\
    zlen k + zlen v <= foldr (fun '(k, v) n => 19 + zlen k + zlen v + n) 0 kvs) as [_ H].
  { clear Hr. induction kvs as [|[k' v'] l IH]; [by apply not_elem_of_nil in Hin|]. cbn.
    pose proof (zlen_nonneg k'). pose proof (zlen_nonneg v').
    assert (0 <= foldr (fun '(k, v) n => 19 + zlen k + zlen v + n) 0 l) as Hl.
    { clear. induction l as [|[a b] l IH]; [done|]. cbn. pose proof (zlen_nonneg a). pose proof (zlen_nonneg b). lia. }
    split; [lia|]. apply elem_of_cons in Hin as [[= -> ->]|Hin]; [lia|]. destruct (IH Hin). lia. }
  pose proof (zlen_nonneg k). pose proof (zlen_nonneg v). lia.
Qed.

(** What can be added to a data block. *)
Record block_input (kvs : list (bytes * bytes)) : Prop := {
  bi_room : block_room kvs < 2 ^ 32;
  bi_keys : Forall (fun kv => internal kv.1) kvs }.

(** A builder between two blocks. *)
Record clean (b : BlockBuilder) : Prop := {
  cl_built : built b [] [0%nat];
  cl_last : last_key_ b = [];
  cl_values : use_value_delta_encoding_ b = false }.

Lemma block_built b0 kvs : clean b0 -> block_room kvs < 2 ^ 32 ->
  (hash_Valid (data_block_hash_index_builder_ b0) = true -> Forall (fun kv => internal kv.1) kvs) ->
  exists es rs b,
  builder_Adds (add_args kvs) b0 = Ret tt b /\
  built b es rs /\ Forall2 same_entry es kvs /\ use_value_delta_encoding_ b = false /\
  plain_size false es rs < 2 ^ 32 /\
  (hash_Valid (data_block_hash_index_builder_ b) = true -> hash_Valid (data_block_hash_index_builder_ b0) = true) /\
  block_restart_interval_ b = block_restart_interval_ b0.
Proof.
  intros [B0 Hl Hv] Hroom Hkeys.
  destruct (Adds_ok (add_args kvs) b0 [] [0%nat]) as (es & b & rs & Hadds & Hh & B & _ & (Hri & _ & Hvd) & Hval).
  - done.
  - unfold last_kept. rewrite Hl. by destruct (use_delta_encoding_ b0).
  - apply Forall_fmap, Forall_forall. intros [k v] Hin. destruct (room_entry kvs k v Hin Hroom). cbn. split; try done.
    + by rewrite Hv.
    + intros Hh. by apply (proj1 (Forall_forall _ _) (Hkeys Hh) (k, v)).
  - rewrite Hv in *. exists es, rs, b. split; [done|]. pose proof (holds_same es kvs Hh) as Hs. split_and!; try done.
    pose proof (stored_room es kvs (sh_ok _ _ (bu_shape _ _ _ B)) Hs). cbn in B.
    pose proof (restarts_le_entries es rs (bu_shape _ _ _ B)). unfold plain_size. lia.
Qed.

Lemma data_block_built b0 kvs : clean b0 -> block_input kvs -> exists es rs b,
  builder_Adds (add_args kvs) b0 = Ret tt b /\
  built b es rs /\ Forall2 same_entry es kvs /\ use_value_delta_encoding_ b = false /\
  plain_size false es rs < 2 ^ 32.
Proof. intros C [Hroom Hkeys]. destruct (block_built b0 kvs C Hroom (fun _ => Hkeys)) as (es & rs & b & H). exists es, rs, b. tauto. Qed.

(** A builder of data blocks that may have made some blocks already: a new one, or
    one that was given entries, finished, and reset. *)
Inductive data_builder : BlockBuilder -> Prop :=
| data_builder_new interval delta index_type ratio :
    1 <= interval -> data_builder (new_BlockBuilder interval delta false index_type ratio)
| data_builder_reused b0 kvs b c b' buffer :
    data_builder b0 -> block_input kvs -> builder_Adds (add_args kvs) b0 = Ret tt b ->
    buckets_fit (data_block_hash_index_builder_ b) -> builder_Finish b = Ret c b' ->
    data_builder (SwapAndReset buffer b').2.

Lemma data_builder_clean b : data_builder b -> clean b.
Proof.
  induction 1 as [interval delta index_type ratio Hi|b0 kvs b c b' buffer _ C Hin Hadd Hfit Hfin].
  - split; [by apply built_new|done|done].
  - destruct (data_block_built b0 kvs C Hin) as (es & rs & b1 & Hadd1 & B & _ & Hvd & Hp).
    rewrite Hadd in Hadd1. injection Hadd1 as <-. rewrite <- Hvd in Hp.
    destruct (Finish_ok b es rs B Hp Hfit) as (table & b2 & Hfin2 & _ & Hu & (_ & _ & Hc) & _).
    rewrite Hfin in Hfin2. injection Hfin2 as _ <-.
    split; [by apply built_Reset|done|]. cbn. by rewrite Hc.
Qed.

Lemma NewDataIterator_ok es rs table g :
  let c := contents_of false es rs table in
  shape es rs -> zlen c < 2 ^ 32 ->
  (forall n t, table = Some (n, t) -> table_ok n t /\ zlen c <= kMaxBlockSizeSupportedByHashIndex) ->
  let s := NewDataIterator (new_Block c) g None in
  fin (data := c) (restarts := zlen (stored false es)) (es := es) (rs := rs) g s /\
  data_block_hash_index_ s = fst <$> table.
Proof.
  intros c Sh Hc Ht. cbv zeta. subst c. rewrite new_Block_ok by done. unfold NewDataIterator. cbn [size_ num_restarts_].
  pose proof (contents_size false es rs table) as Hs. pose proof (plain_size_ge false es rs).
  pose proof (zlen_nonneg (table_bytes table)). pose proof (lookup_lt_Some _ _ _ (sh_first _ _ Sh)) as Hl.
  assert (1 <= zlen rs) by (unfold zlen; lia).
  rewrite (proj2 (Z.ltb_ge _ 8)), (proj2 (Z.eqb_neq _ 0)) by lia. split; [split; [by split|]|].
  - split; [by exists 0%nat|]. cbn. done.
  - destruct table as [[n t]|]; [|done]. destruct (Ht n t eq_refl) as [T _]. pose proof (tb_range _ _ T).
    cbn. by rewrite (proj2 (Z.eqb_neq n 0)) by lia.
Qed.

Lemma table_of_ok b es rs table : let c := contents_of false es rs table in
  table_of b (zlen c) table -> plain_size false es rs < 2 ^ 32 ->
  zlen c < 2 ^ 32 /\
  (forall n t, table = Some (n, t) -> table_ok n t /\ zlen c <= kMaxBlockSizeSupportedByHashIndex).
Proof.
  intros c Ht Hp. destruct table as [[n t]|].
  - destruct Ht as (_ & T & _ & Hmax). split; [|by intros ? ? [= <- <-]]. change kMaxBlockSizeSupportedByHashIndex with 65536 in Hmax. lia.
  - split; [|done]. subst c. rewrite contents_size. change (zlen (table_bytes None)) with 0. lia.
Qed.

(** Keys in strictly ascending order, as they are shown. *)
Definition ascending {user_comparator : Comparator} (g : Z) (kvs : list (bytes * bytes)) : Prop :=
  forall i j a b, kvs !! i = Some a -> kvs !! j = Some b -> (i < j)%nat -> icmp (shown g a.1) (shown g b.1) < 0.

(** A global sequence number, or none. *)
Definition seqno_ok (g : Z) : Prop := g = kDisableGlobalSequenceNumber \/ 0 <= g <= kMaxSequenceNumber.

Lemma entries_internal es kvs : Forall2 same_entry es kvs -> Forall (fun kv => internal kv.1) kvs ->
  forall i e, es !! i = Some e -> internal (i_key e).
Proof.
  intros Hs Hk i e He. pose proof (same_entry_lookup es kvs i Hs) as H. rewrite He in H.
  apply (Forall_lookup_1 _ _ _ _ Hk H).
Qed.

Lemma entries_ascending {user_comparator : Comparator} es kvs g : Forall2 same_entry es kvs -> ascending g kvs ->
  forall i j e f, es !! i = Some e -> es !! j = Some f -> (i < j)%nat -> icmp (shown g (i_key e)) (shown g (i_key f)) < 0.
Proof.
  intros Hs Ha i j e f He Hf Hij. pose proof (same_entry_lookup es kvs i Hs) as H1.
  pose proof (same_entry_lookup es kvs j Hs) as H2. rewrite He in H1. rewrite Hf in H2.
  apply (Ha i j _ _ H1 H2 Hij).
Qed.

Lemma same_keys es kvs g : Forall2 same_entry es kvs ->
  (fun e => shown g (i_key e)) <$> es = (fun kv => shown g kv.1) <$> kvs.
Proof. induction 1 as [|e [k v] es kvs [Hk _] _ IH]; [done|]. cbn in *. by rewrite IH, Hk. Qed.

(** C8. A data block holds what was added, and its iterator is a cursor over it.
    Entries with internal keys in ascending order are added to a [BlockBuilder], new
    or reset after other blocks; [Finish] makes the contents of a block, which is read
    back with [Block] and [NewDataIterator].  Any sequence of [SeekToFirst],
    [SeekToLast], [Seek], [SeekForPrev], [Next] and [Prev] on the iterator ([Next] and
    [Prev] while it is valid) ends where the same sequence on the sorted list ends, at
    the key (with the global sequence number put in, if the file has one) and the
    value that were added there; no byte outside of the block is read, and the status
    stays OK.  It holds for every restart interval, with and without delta encoding of
    the keys, hash index and global sequence number. *)
Theorem data_block_is_cursor {user_comparator : Comparator} {laws : ComparatorLaws user_comparator} b0 kvs g :
  data_builder b0 -> block_input kvs -> seqno_ok g -> ascending g kvs ->
  exists b, builder_Adds (add_args kvs) b0 = Ret tt b /\
  (buckets_fit (data_block_hash_index_builder_ b) ->
   exists c b', builder_Finish b = Ret c b' /\
   forall ops p, Forall op_ok ops -> cursor_run ((fun kv => shown g kv.1) <$> kvs) ops None = Some p ->
   exists s, iterM iter_op ops (NewDataIterator (new_Block c) g None) = Ret tt s /\
     it_status_ (data_iter s) = StOK /\
     observe s = (i ← p; '(k, v) ← kvs !! i; Some (shown g k, Some v))).
Proof.
  intros Hb0 Hin Hg Hasc.
  destruct (data_block_built b0 kvs (data_builder_clean b0 Hb0) Hin) as (es & rs & b & Hadd & B & Hs & Hvd & Hp).
  exists b. split; [done|]. intros Hfit. rewrite <- Hvd in Hp.
  destruct (Finish_ok b es rs B Hp Hfit) as (table & b' & Hfin & _ & _ & _ & Ht & _). rewrite Hvd in *.
  destruct (table_of_ok b es rs table Ht Hp) as [Hc Htab].
  exists (contents_of false es rs table), b'. split; [done|]. intros ops p Hops Hrun.
  destruct (NewDataIterator_ok es rs table g (bu_shape _ _ _ B) Hc Htab) as [Hnew _].
  rewrite <- (same_keys es kvs g Hs) in Hrun.
  pose proof (layout_found false es rs table (bu_shape _ _ _ B) Hc) as LO.
  destruct (iter_run LO g Hg (entries_internal es kvs Hs (bi_keys _ Hin)) (entries_ascending es kvs g Hs Hasc)
    ops _ None p Hnew) as (s & Hrun' & P & O);
    [by unfold observe; rewrite (at_end_valid false g _ (proj1 Hnew))|done|done|].
  exists s. split; [done|]. split; [apply (fr_status _ _ _ (proj1 (pos_sound g s p P)))|].
  rewrite O. unfold view_at. destruct p as [i|]; [|done]. cbn. rewrite (same_entry_lookup es kvs i Hs). by destruct (es !! i).
Qed.

(** C20. [CurrentSizeEstimate] is exact: it is the size of the contents that [Finish]
    makes of the entries added so far, restart points, hash index and footer included.
    The one exception is a builder with a hash index whose block is above 64 kB: the
    estimate counts the index, which [Finish] then leaves out. *)
Theorem size_estimate_exact b0 kvs :
  data_builder b0 -> block_input kvs ->
  exists b, builder_Adds (add_args kvs) b0 = Ret tt b /\
  (buckets_fit (data_block_hash_index_builder_ b) ->
   exists c b' n, builder_Finish b = Ret c b' /\ CurrentSizeEstimate b = Some n /\
     (zlen c = n \/ hash_Valid (data_block_hash_index_builder_ b) = true /\ kMaxBlockSizeSupportedByHashIndex < n)).
Proof.
  intros Hb0 Hin.
  destruct (data_block_built b0 kvs (data_builder_clean b0 Hb0) Hin) as (es & rs & b & Hadd & B & Hs & Hvd & Hp).
  exists b. split; [done|]. intros Hfit. rewrite <- Hvd in Hp.
  destruct (Finish_ok b es rs B Hp Hfit) as (table & b' & Hfin & _ & _ & _ & Ht & n & Hn). by eexists _, b', n.
Qed.

Module Example.
Definition bs (x : string) : bytes := String.list_byte_of_string x.
(** Five versions of three user keys, in blocks with two entries per interval and a
    hash index. *)
Definition entries : list (bytes * bytes) :=
  [(mk_ikey (bs "apple") (9 * 256 + 1), bs "red"); (mk_ikey (bs "apple") (4 * 256 + 1), bs "green");
   (mk_ikey (bs "apricot") (7 * 256), []); (mk_ikey (bs "apricot") (5 * 256 + 1), bs "orange");
   (mk_ikey (bs "fig") (6 * 256 + 1), bs "blue")].
Definition builder : BlockBuilder := new_BlockBuilder 2 true false kDataBlockBinaryAndHash double_0.

Lemma builder_ok : data_builder builder.
Proof. apply data_builder_new. lia. Qed.

Lemma entries_ok : block_input entries.
Proof. split; [by vm_compute|]. repeat constructor; by vm_compute. Qed.

Lemma entries_order : @ascending BytewiseComparator kDisableGlobalSequenceNumber entries.
Proof.
  intros i j a b Hi Hj Hl. pose proof (lookup_lt_Some _ _ _ Hj) as Hlen. cbn in Hlen.
  destruct j as [|[|[|[|[|j]]]]]; try lia; destruct i as [|[|[|[|[|i]]]]]; try lia; injection Hi as <-; injection Hj as <-; by vm_compute.
Qed.
End Example.

Lemma data_block_is_cursor_witness : exists b c b' s,
  builder_Adds (add_args Example.entries) Example.builder = Ret tt b /\ builder_Finish b = Ret c b' /\
  iterM (@iter_op BytewiseComparator)
    [OpSeek (mk_ikey (Example.bs "apricot") (6 * 256 + 255)); OpNext; OpPrev; OpPrev]
    (NewDataIterator (new_Block c) kDisableGlobalSequenceNumber None) = Ret tt s /\
  observe s = Some (mk_ikey (Example.bs "apricot") (7 * 256), Some []).
Proof.
  destruct (data_block_is_cursor Example.builder Example.entries kDisableGlobalSequenceNumber
    Example.builder_ok Example.entries_ok (or_introl eq_refl) Example.entries_order) as (b & Hadd & H).
  exists b. assert (buckets_fit (data_block_hash_index_builder_ b)) as Hfit.
  { vm_compute in Hadd. injection Hadd as <-. intros _. vm_compute. by eexists. }
  destruct (H Hfit) as (c & b' & Hfin & Hops). exists c, b'.
  destruct (Hops [OpSeek (mk_ikey (Example.bs "apricot") (6 * 256 + 255)); OpNext; OpPrev; OpPrev] (Some 2%nat))
    as (s & Hs & _ & Ho); [by repeat constructor; vm_compute|by vm_compute|].
  exists s. by split_and!.
Defined.

Lemma size_estimate_exact_witness : exists b c b',
  builder_Adds (add_args Example.entries) Example.builder = Ret tt b /\ builder_Finish b = Ret c b' /\
  zlen c = 112.
Proof.
  destruct (size_estimate_exact Example.builder Example.entries Example.builder_ok Example.entries_ok) as (b & Hadd & H).
  exists b. assert (buckets_fit (data_block_hash_index_builder_ b) /\ CurrentSizeEstimate b = Some 112) as [Hfit He].
  { vm_compute in Hadd. injection Hadd as <-. split; [intros _; vm_compute; by eexists|by vm_compute]. }
  destruct (H Hfit) as (c & b' & n & Hfin & Hn & Hc). exists c, b'. split; [exact Hadd|]. split; [exact Hfin|].
  rewrite He in Hn. injection Hn as <-. destruct Hc as [Hc|[_ Hmax]]; [exact Hc|]. by vm_compute in Hmax.
Defined.
