(* ===== verification/BlockHash.v ===== *)
(** The hash index of data blocks: [SeekForGet] against [Seek]. *)
From S2P Require Import Prelude Bits Coding IoStatus Comparator DbFormat BlockBuilder BlockIter BlockSpec BlockSeek BlockCursor BlockBuild BlockThms.
From stdpp Require Import base numbers list strings.
From Stdlib Require Import ZArith Lia SpecFloat.
Local Open Scope Z_scope.

(** ** The buckets *)

Definition bucket_of (n : Z) (p : Z * Z) : nat := Z.to_nat (p.1 mod n).

(** Every pair is found in its bucket, or the bucket is marked as a collision; and
    the buckets hold nothing else. *)
Record bucketed (n : Z) (l : list (Z * Z)) (t : list Z) : Prop := {
  bk_length : zlen t = n;
  bk_found : forall p, p ∈ l -> exists x, t !! bucket_of n p = Some x /\ (x = p.2 \/ x = kCollision);
  bk_only : forall i x, t !! i = Some x -> x = kNoEntry \/ x = kCollision \/ exists p, p ∈ l /\ x = p.2 }.

(** The index of a restart point is never mistaken for a mark. *)
Definition index_ok (p : Z * Z) : Prop := 0 <= p.2 <= kMaxRestartSupportedByHashIndex.

Lemma put_bucketed n l t q :
  0 < n -> index_ok q -> Forall index_ok l -> bucketed n l t -> bucketed n (l ++ [q]) (put_bucket n t q).
Proof.
  intros Hn Hq Hps [Hl Hf Ho]. split; [unfold zlen in *; by rewrite put_bucket_length| |]; destruct q as [h j]; unfold put_bucket;
    unfold index_ok in *; change kMaxRestartSupportedByHashIndex with 253 in *;
    change kNoEntry with 255 in *; change kCollision with 254 in *; cbn [snd] in Hq.
  - assert (Z.to_nat (h mod n) < length t)%nat as Hlt.
    { pose proof (Z.mod_pos_bound h n Hn). unfold zlen in Hl. lia. }
    destruct (lookup_lt_is_Some_2 t _ Hlt) as [old Hold]. rewrite Hold. change (default 255 (Some old)) with old.
    intros p [Hin|Hin%list_elem_of_singleton]%elem_of_app.
    + destruct (Hf p Hin) as (x & Hx & Hx2). pose proof (proj1 (Forall_forall _ _) Hps p Hin) as Hr. cbn in Hr.
      destruct (decide (bucket_of n p = Z.to_nat (h mod n))) as [E|E].
      * rewrite E in *. rewrite Hold in Hx. injection Hx as ->.
        destruct (Z.eqb_spec x 255); [lia|]. destruct (Z.eqb_spec x j); cbn [negb]; [by exists x|].
        exists 254. rewrite list_lookup_insert_eq by done. by split; [|right].
      * exists x. split; [|done]. repeat case_match; by rewrite ?list_lookup_insert_ne by done.
    + subst p. unfold bucket_of. cbn [fst snd].
      destruct (Z.eqb_spec old 255); [exists j; rewrite list_lookup_insert_eq by done; by split; [|left]|].
      destruct (Z.eqb_spec old j) as [->|]; cbn [negb]; [exists j; by split; [|left]|].
      exists 254. rewrite list_lookup_insert_eq by done. by split; [|right].
  - assert (forall i x, t !! i = Some x -> x = 255 \/ x = 254 \/ exists p, p ∈ l ++ [(h, j)] /\ x = p.2) as Ho'.
    { intros i x Hx. destruct (Ho i x Hx) as [|[|(p & Hp & ->)]]; [tauto|tauto|]. right. right. exists p. rewrite elem_of_app. tauto. }
    intros i x Hx. repeat case_match; try (by eapply Ho'); apply list_lookup_insert_Some in Hx as [(_ & Hx & _)|[_ Hx]];
      try (by eapply Ho'); [|by right; left]. right. right. exists (h, j). rewrite elem_of_app, list_elem_of_singleton. split; [by right|done].
Qed.

Lemma bucket_table_bucketed h n : 0 < n -> Forall index_ok (hash_and_restart_pairs_ h) ->
  bucketed n (hash_and_restart_pairs_ h) (bucket_table h n).
Proof.
  intros Hn. unfold bucket_table. induction (hash_and_restart_pairs_ h) as [|q l IH] using rev_ind; intros Hps.
  - split.
    + unfold zlen. cbn. rewrite length_replicate. lia.
    + intros p Hp. by apply not_elem_of_nil in Hp.
    + intros i x Hx. apply lookup_replicate in Hx as [-> _]. by left.
  - apply Forall_app in Hps as [Hl Hq]. rewrite foldl_app. cbn. apply put_bucketed; try done; [|by apply IH].
    by inversion Hq.
Qed.

(** ** What a lookup says *)

(** All entries of a user key are in one interval. *)
Definition only_in (es : list item) (rs : list nat) (u : bytes) (j : nat) : Prop :=
  forall i e, es !! i = Some e -> ukey (i_key e) = u -> in_interval rs i j.

(** The three answers of the index. *)
Definition answer (es : list item) (rs : list nat) (u : bytes) (x : Z) : Prop :=
  x = kNoEntry /\ (forall i e, es !! i = Some e -> ukey (i_key e) <> u) \/
  x = kCollision \/
  exists j, x = Z.of_nat j /\ (j <= 253)%nat /\ (j < length rs)%nat /\ only_in es rs u j.

Lemma answer_range es rs u x : answer es rs u x -> 0 <= x < 256.
Proof. intros [[-> _]|[->|(j & -> & Hj & _)]]; [done|done|lia]. Qed.

Section Lookup.
Context (b : BlockBuilder) (es : list item) (rs : list nat) (B : built b es rs).
Context (Hv : hash_Valid (data_block_hash_index_builder_ b) = true).
Abbreviation pairs := (hash_and_restart_pairs_ (data_block_hash_index_builder_ b)).

Lemma pair_entry p : p ∈ pairs -> exists i e j, es !! i = Some e /\ p.2 = Z.of_nat j /\ (j <= 253)%nat /\ in_interval rs i j.
Proof.
  intros [i Hp]%list_elem_of_lookup. destruct (bu_hash _ _ _ B Hv) as [Hl Hall].
  destruct (lookup_lt_is_Some_2 es i) as [e He]; [rewrite <- Hl; by eapply lookup_lt_Some|].
  destruct (Hall i e He) as (_ & j & Hj & Hin & Hp'). rewrite Hp in Hp'. injection Hp' as ->. by exists i, e, j.
Qed.

Lemma lookup_answer n u : 0 < n ->
  exists x, bucket_table (data_block_hash_index_builder_ b) n !! Z.to_nat (GetSliceHash u mod n) = Some x /\ answer es rs u x.
Proof.
  intros Hn. destruct (bucket_table_bucketed (data_block_hash_index_builder_ b) n Hn) as [Hlen Hf Ho].
  { apply Forall_forall. intros p Hp. destruct (pair_entry p Hp) as (i & e & j & _ & Hj & ? & _).
    unfold index_ok. change kMaxRestartSupportedByHashIndex with 253. lia. }
  destruct (lookup_lt_is_Some_2 (bucket_table (data_block_hash_index_builder_ b) n) (Z.to_nat (GetSliceHash u mod n))) as [x Hx].
  { pose proof (Z.mod_pos_bound (GetSliceHash u) n Hn). unfold zlen in Hlen. lia. }
  exists x. split; [done|].
  assert (forall i e, es !! i = Some e -> ukey (i_key e) = u -> exists j, (j <= 253)%nat /\ in_interval rs i j /\ (x = Z.of_nat j \/ x = kCollision)) as Hsame.
  { intros i e He <-. destruct (bu_hash _ _ _ B Hv) as [_ Hall]. destruct (Hall i e He) as (_ & j & Hj & Hin & Hp).
    destruct (Hf _ (list_elem_of_lookup_2 _ _ _ Hp)) as (y & Hy & Hy2). unfold bucket_of in Hy. cbn [fst snd] in *.
    rewrite Hx in Hy. injection Hy as <-. by exists j. }
  destruct (Ho _ x Hx) as [->|[->|(p & Hp & ->)]].
  - left. split; [done|]. intros i e He Hu. destruct (Hsame i e He Hu) as (j & Hj & _ & [H|H]).
    + change kNoEntry with 255 in H. lia.
    + done.
  - right. by left.
  - destruct (pair_entry p Hp) as (i0 & e0 & j0 & _ & Hj0 & Hmax & (r0 & Hr0 & _)). right. right. exists j0.
    split; [done|]. split; [done|]. split; [by eapply lookup_lt_Some|]. intros i e He Hu.
    destruct (Hsame i e He Hu) as (j & Hj & Hin & [H|H]); [by replace j0 with j by lia|].
    change kCollision with 254 in H. lia.
Qed.

(** The number of the last interval fits in a byte. *)
Lemma last_interval : (zlen rs - 1) mod 256 = zlen rs - 1.
Proof.
  pose proof (bu_shape _ _ _ B) as Sh. pose proof (lookup_lt_Some _ _ _ (sh_first _ _ Sh)). apply Z.mod_small.
  destruct (decide (es = [])) as [Hnil|Hne].
  - pose proof (restarts_le_entries es rs Sh) as Hle. rewrite Hnil in Hle. unfold zlen in *. cbn in Hle. lia.
  - destruct (lookup_lt_is_Some_2 es (length es - 1)) as [e He]; [destruct es; [done|cbn; lia]|].
    destruct (bu_hash _ _ _ B Hv) as [_ Hall]. destruct (Hall _ e He) as (_ & j & Hj & (r & Hr & _ & Hnext) & _).
    assert (rs !! S j = None) as Hnone%lookup_ge_None; [|unfold zlen; lia].
    destruct (rs !! S j) as [r'|] eqn:E; [|done]. pose proof (Hnext r' eq_refl).
    pose proof (sh_sorted _ _ Sh j (S j) r r' Hr E ltac:(lia)). destruct (sh_range _ _ Sh _ r' E); lia.
Qed.
End Lookup.

(** ** Searching one interval *)

Section ForGet.
Context {user_comparator : Comparator} {laws : ComparatorLaws user_comparator}.
Context {data : bytes} {restarts : Z} {es : list item} {rs : list nat}.
Context (LO : layout false data restarts es rs) (g : Z).
Context (Hg : g = kDisableGlobalSequenceNumber \/ 0 <= g <= kMaxSequenceNumber).
Context (Hint : forall i e, es !! i = Some e -> internal (i_key e)).
Context (Hord : forall i j e f, es !! i = Some e -> es !! j = Some f -> (i < j)%nat ->
  icmp (shown g (i_key e)) (shown g (i_key f)) < 0).
Context (target : bytes) (Htarget : internal target).

Abbreviation here_ := (here (data := data) (restarts := restarts) (es := es) (rs := rs) g).
Abbreviation pos := (at_pos here_ (fin (data := data) (restarts := restarts) (es := es) (rs := rs) g)).
Abbreviation readied := (ready_ (data := data) (restarts := restarts) (es := es) (rs := rs) g).
Abbreviation tcmp := (fun e => kcmp g target (i_key e)).

(** All the entries from [i] up to [k] are below the target. *)
Definition all_below (i k : nat) : Prop := forall m e, (i <= m < k)%nat -> es !! m = Some e -> tcmp e < 0.

Lemma interval_ok fuel s i k :
  readied s i -> (i <= k <= length es)%nat -> (k - i < fuel)%nat ->
  exists s', interval_loop fuel target (off false es k) s = Ret tt s' /\
    (pos s' None /\ all_below i k \/
     exists m e, (i <= m < k)%nat /\ here_ s' m e /\ 0 <= tcmp e /\ all_below i m).
Proof.
  revert s i. induction fuel as [|fuel IH]; intros s i [R C] Hik Hf; [lia|]. cbn [interval_loop].
  destruct (decide (i = k)) as [->|Hne].
  - destruct (parse_end false g DecodeEntry (Some (off false es k)) (data_iter s) k R) as (it & Hp & E); [done|].
    unfold data_Parse. erewrite bind_Ret by (by apply zoom_base). cbn [negb]. eexists. split; [reflexivity|].
    left. split; [by split|]. intros m e ?. lia.
  - destruct (lookup_lt_is_Some_2 es i ltac:(lia)) as [e He].
    destruct (parse_entry LO false g DecodeEntry (Some (off false es k)) (data_iter s) i e) as (it & Hp & A);
      [exact (DecodeEntry_decodes LO)|done|done| |].
    { cbn. rewrite (restarts_off LO). split; apply off_mono; lia. }
    unfold data_Parse at 1. erewrite bind_Ret by (by apply zoom_base). cbn [negb]. rewrite bind_gets. cbv beta.
    change (data_iter (set data_base it s)) with it.
    rewrite (kcmp_ok g Hg Hint target Htarget it e (ae_frame _ _ _ _ _ A) (list_elem_of_lookup_2 _ _ _ He) (ae_key _ _ _ _ _ A)).
    erewrite bind_Ret by reflexivity. destruct (Z.leb_spec 0 (kcmp g target (i_key e))) as [Hge|Hlt].
    + eexists. split; [reflexivity|]. right. exists i, e. split; [lia|]. split; [by split|]. split; [done|]. intros m f ?. lia.
    + destruct (IH (set data_base it s) (S i)) as (s' & Hs' & Hres); [split; [by eapply entry_ready|done]|lia|lia|].
      exists s'. split; [done|].
      assert (forall m, all_below (S i) m -> all_below i m) as Hext.
      { intros m Hm q f Hq Hf'. destruct (decide (q = i)) as [->|]; [|apply (Hm q f); [lia|done]].
        rewrite He in Hf'. by injection Hf' as <-. }
      destruct Hres as [[P Hb]|(m & f & Hm & Hh & Hge & Hb)]; [left; auto|right]. exists m, f. split; [lia|]. auto.
Qed.

(** *** User keys *)

Lemma ukey_shown k : ukey (shown g k) = ukey k.
Proof. unfold shown. destruct (_ =? _); [done|]. apply ukey_mk. Qed.

Lemma icmp_user a b : icmp a b <= 0 -> Compare (ukey a) (ukey b) <= 0.
Proof. unfold icmp, pair_cmp. cbn [fst snd]. destruct (Z.eqb_spec (Compare (ukey a) (ukey b)) 0); lia. Qed.

(** The target is not above the entry. *)
Lemma target_user e : 0 <= tcmp e -> Compare (ukey target) (ukey (i_key e)) <= 0.
Proof.
  intros H. rewrite <- (ukey_shown (i_key e)). apply icmp_user. unfold kcmp in H.
  destruct (Z.le_gt_cases (icmp target (shown g (i_key e))) 0) as [|Hgt]; [done|].
  apply (cmp_gt (cmp := icmp)) in Hgt. lia.
Qed.

Lemma entries_user i j e f : es !! i = Some e -> es !! j = Some f -> (i <= j)%nat ->
  Compare (ukey (i_key e)) (ukey (i_key f)) <= 0.
Proof.
  intros He Hf Hij. destruct (decide (i = j)) as [->|].
  - rewrite He in Hf. injection Hf as <-. rewrite cmp_refl. done.
  - rewrite <- (ukey_shown (i_key e)), <- (ukey_shown (i_key f)). apply icmp_user.
    pose proof (Hord i j e f He Hf ltac:(lia)). lia.
Qed.

(** Entries of the user key that are not below the target. *)
Definition version (i : nat) (e : item) : Prop := es !! i = Some e /\ 0 <= tcmp e /\ ukey (i_key e) = ukey target.
Definition no_version : Prop := forall i e, ~ version i e.

(** *** The interval of the user key *)

Definition interval_end (j : nat) : nat := default (length es) (rs !! S j).

Lemma interval_bounds j r : rs !! j = Some r -> (r <= interval_end j <= length es)%nat.
Proof.
  intros Hr. unfold interval_end. pose proof (restart_le LO j r Hr). destruct (rs !! S j) as [r'|] eqn:E; cbn; [|lia].
  pose proof (restart_le LO _ r' E). pose proof (lo_sorted _ _ _ _ _ LO j (S j) r r' Hr E ltac:(lia)). unfold id. lia.
Qed.

Lemma in_interval_bounds j r i : rs !! j = Some r -> in_interval rs i j -> (i < length es)%nat -> (r <= i < interval_end j)%nat.
Proof.
  intros Hr (r0 & Hr0 & Hle & Hnext) Hi. rewrite Hr in Hr0. injection Hr0 as <-. split; [done|].
  unfold interval_end. destruct (rs !! S j) as [r'|]; [by apply Hnext|done].
Qed.

Section Interval.
Context (j r : nat) (Hr : rs !! j = Some r) (Honly : only_in es rs (ukey target) j).
Context (Hbytes : forall a b, Compare a b = 0 -> a = b).

Lemma version_bounds i e : version i e -> (r <= i < interval_end j)%nat.
Proof. intros (He & _ & Hu). apply (in_interval_bounds j r i Hr); [by apply (Honly i e)|by eapply lookup_lt_Some]. Qed.

Lemma below_no_version : all_below r (interval_end j) -> no_version.
Proof. intros Hb i e V. pose proof (Hb i e (version_bounds i e V) (proj1 V)). destruct V as (_ & ? & _). lia. Qed.

Context (m : nat) (e : item) (Hm : (r <= m < interval_end j)%nat) (He : es !! m = Some e).
Context (Hge : 0 <= tcmp e) (Hbelow : all_below r m).

Lemma above_no_version : Compare (ukey (i_key e)) (ukey target) <> 0 ->
  no_version /\ 0 < Compare (ukey (i_key e)) (ukey target).
Proof.
  intros Hne. assert (0 < Compare (ukey (i_key e)) (ukey target)) as Hpos.
  { destruct (Z.lt_trichotomy (Compare (ukey (i_key e)) (ukey target)) 0) as [Hlt|[?|?]]; [|done|done].
    apply cmp_gt in Hlt. pose proof (target_user e Hge). lia. }
  split; [|done]. intros i f V. pose proof (version_bounds i f V) as Hi. destruct V as (Hf & Hfge & Hu).
  destruct (decide (i < m)%nat) as [Hlt|].
  - pose proof (Hbelow i f ltac:(lia) Hf). lia.
  - pose proof (entries_user m i e f He Hf ltac:(lia)) as Hle. rewrite Hu in Hle. lia.
Qed.

Lemma same_is_lower : Compare (ukey (i_key e)) (ukey target) = 0 -> lower_bound (es := es) (kcmp g target) = m.
Proof.
  intros Heq%Hbytes. apply (lower_bound_here _ m e He Hge). intros i f Hi Hf.
  destruct (decide (r <= i)%nat) as [|Hlt]; [by apply (Hbelow i f)|].
  destruct (Z.lt_ge_cases (tcmp f) 0) as [|Hfge]; [done|]. exfalso.
  pose proof (entries_user i m f e Hf He ltac:(lia)) as H1. pose proof (target_user f Hfge) as H2. rewrite Heq in H1.
  assert (Compare (ukey (i_key f)) (ukey target) = 0) as Hu%Hbytes.
  { destruct (Z.lt_trichotomy (Compare (ukey (i_key f)) (ukey target)) 0) as [Hl|[?|?]]; [apply cmp_gt in Hl; lia|done|lia]. }
  pose proof (version_bounds i f (conj Hf (conj Hfge Hu))). lia.
Qed.
End Interval.

(** *** [SeekForGet] *)

(** The iterator is where [Seek] puts it; or it is off the block, which has no entry
    of the user key from the target on; or the answer is that the search is over:
    there is no such entry, and a greater user key is in the block. *)
Definition outcome (found : bool) (q : option nat) : Prop :=
  found = true /\ q = to_pos (es := es) (lower_bound (es := es) (kcmp g target)) \/
  found = true /\ q = None /\ no_version \/
  found = false /\ no_version /\ exists i e, es !! i = Some e /\ 0 < Compare (ukey (i_key e)) (ukey target).

Context (n : Z) (Hbytes : forall a b, Compare a b = 0 -> a = b).
Context (Hlast : (zlen rs - 1) mod 256 = zlen rs - 1).
Context (x : Z) (Hlook : hash_index_Lookup n data (restarts + 4 * zlen rs) (ukey target) = Some x).
Context (Hans : answer es rs (ukey target) x).

Lemma start_interval s j r : sound_ (data := data) (restarts := restarts) (es := es) (rs := rs) g s -> rs !! j = Some r ->
  exists s1, zoom data_base (SeekToRestartPoint (Z.of_nat j);;
      if Z.of_nat j + 1 <? zlen rs then GetRestartPoint (Z.of_nat j + 1) else mret restarts) s =
    Ret (off false es (interval_end j)) s1 /\ readied s1 r.
Proof.
  intros [F C] Hr. destruct (seek_to_restart LO false g (data_iter s) j r F Hr) as (it & Hit & R & _).
  exists (set data_base it s). split; [|by split]. apply zoom_base. erewrite bind_Ret by exact Hit. cbv beta.
  unfold interval_end. destruct (Z.ltb_spec (Z.of_nat j + 1) (zlen rs)) as [Hlt|Hge].
  - destruct (lookup_lt_is_Some_2 rs (S j)) as [r' Hr']; [unfold zlen in Hlt; lia|]. rewrite Hr'.
    replace (Z.of_nat j + 1) with (Z.of_nat (S j)) by lia. apply (restart_point LO false g it (S j) r'); [apply R|done].
  - rewrite (lookup_ge_None_2 rs (S j)) by (unfold zlen in Hge; lia). cbn [default from_option]. by rewrite <- (restarts_off LO).
Qed.

(** The interval that is searched. *)
Lemma searched : x <> kCollision -> exists j r,
  (if x =? kNoEntry then (zlen rs - 1) mod 256 else x) = Z.of_nat j /\ rs !! j = Some r /\ only_in es rs (ukey target) j.
Proof.
  intros Hx. pose proof (lookup_lt_Some _ _ _ (lo_first _ _ _ _ _ LO)).
  destruct Hans as [[-> Hno]|[?|(j & -> & Hj & Hlt & Ho)]]; [|done|].
  - destruct (lookup_lt_is_Some_2 rs (length rs - 1) ltac:(lia)) as [r Hr]. exists (length rs - 1)%nat, r.
    split; [|split; [done|]].
    + rewrite Z.eqb_refl, Hlast. unfold zlen. lia.
    + intros i e He Hu. by destruct (Hno i e He).
  - destruct (lookup_lt_is_Some_2 rs j Hlt) as [r Hr]. exists j, r. split; [|by split].
    change kNoEntry with 255. by rewrite (proj2 (Z.eqb_neq _ _)) by lia.
Qed.

Lemma seek_instead s p : pos s p ->
  exists found s' q, (data_SeekImpl target;; mret true) s = Ret found s' /\ pos s' q /\ outcome found q.
Proof.
  intros P. destruct (data_Seek_ok LO g Hg Hint Hord target Htarget s p P) as (s' & Hs' & P').
  eexists true, s', _. split; [by erewrite bind_Ret by exact Hs'|]. split; [done|]. by left.
Qed.

Lemma interval_result_ok s j r m e :
  rs !! j = Some r -> only_in es rs (ukey target) j -> (r <= m < interval_end j)%nat -> here_ s m e ->
  0 <= tcmp e -> all_below r m ->
  exists found s' q, interval_result target (ukey target) s = Ret found s' /\ pos s' q /\ outcome found q.
Proof.
  intros Hr Honly Hm Hh Hge Hb. pose proof (proj1 Hh) as A. pose proof (ae_entry _ _ _ _ _ A) as He.
  pose proof (ae_frame _ _ _ _ _ A) as F. unfold interval_result. rewrite bind_gets. cbv beta.
  rewrite (ae_current _ _ _ _ _ A), (fr_restarts _ _ _ F).
  pose proof (off_lt false es (lo_ok _ _ _ _ _ LO) m (length es) (lookup_lt_Some _ _ _ He) (lookup_lt_Some _ _ _ He)) as Hlt.
  rewrite <- (restarts_off LO) in Hlt. rewrite (proj2 (Z.eqb_neq _ _)) by lia.
  unfold GetUserKey. rewrite (fr_user _ _ _ F), (ae_key _ _ _ _ _ A), ExtractUserKey_internal by (by eapply Hint).
  erewrite bind_Ret by reflexivity. destruct (Z.eqb_spec (Compare (ukey (i_key e)) (ukey target)) 0) as [Heq|Hne]; cbn [negb].
  - unfold ExtractValueType. rewrite ExtractFooter_internal by (by eapply Hint). erewrite bind_Ret by reflexivity.
    destruct (_ || _); [|by apply (seek_instead s (Some m)); exists e].
    exists true, s, (Some m). split; [done|]. split; [by exists e|]. left. split; [done|].
    rewrite (same_is_lower j r Hr Honly Hbytes m e Hm He Hge Hb Heq). by rewrite (to_pos_entry m e He).
  - destruct (above_no_version j r Hr Honly m e Hm He Hge Hb Hne) as [Hno Hpos].
    exists false, s, (Some m). split; [done|]. split; [by exists e|]. right. right. split_and!; try done. by exists m, e.
Qed.

Lemma SeekForGet_ok s p : pos s p ->
  exists found s' q, SeekForGetImpl n target s = Ret found s' /\ pos s' q /\ outcome found q.
Proof.
  intros P. pose proof (pos_sound g s p P) as So. pose proof So as [F C]. unfold SeekForGetImpl.
  rewrite ExtractUserKey_internal by done. erewrite bind_Ret by reflexivity. rewrite bind_gets. cbv beta.
  rewrite (fr_data _ _ _ F), (fr_restarts _ _ _ F), (fr_num _ _ _ F). erewrite bind_Ret by reflexivity.
  pose proof (restarts_bound LO). pose proof (lo_size _ _ _ _ _ LO). pose proof (zlen_rs LO).
  pose proof (off_nonneg false es (length es)) as Hre. rewrite <- (restarts_off LO) in Hre.
  rewrite u32_small, (Z.mul_comm (zlen rs)), Hlook by lia. erewrite bind_Ret by reflexivity. cbv beta zeta.
  destruct (Z.eqb_spec x kCollision) as [|Hx]; [by eapply seek_instead|].
  destruct (searched Hx) as (j & r & -> & Hr & Honly). destruct (start_interval s j r So Hr) as (s1 & Hs1 & R1).
  erewrite bind_Ret by exact Hs1. pose proof (interval_bounds j r Hr). destruct (data_fuel LO) as [Hfuel _].
  destruct (interval_ok (S (length data)) s1 r (interval_end j) R1) as (s2 & Hs2 & Hres); [lia|lia|].
  erewrite bind_Ret by exact Hs2. destruct Hres as [[P2 Hb]|(m & e & Hm & Hh & Hge & Hb)]; [|by eapply interval_result_ok].
  unfold interval_result. rewrite bind_gets. cbv beta.
  pose proof (proj1 P2) as E. rewrite (en_current _ _ _ E), (fr_restarts _ _ _ (en_frame _ _ _ E)), Z.eqb_refl.
  exists true, s2, None. split; [done|]. split; [done|]. right. left. split; [done|]. split; [done|].
  by apply (below_no_version j r Hr Honly).
Qed.
End ForGet.

(** ** [SeekForGet] on a block that was built *)

Section Built.
Context {user_comparator : Comparator} {laws : ComparatorLaws user_comparator}.
Context (Hbytes : CanKeysWithDifferentByteContentsBeEqual = false).

(** The block has no entry of the user key from the target on. *)
Definition no_match (g : Z) (kvs : list (bytes * bytes)) (target : bytes) : Prop :=
  forall kv, kv ∈ kvs -> 0 <= icmp (shown g kv.1) target -> ukey kv.1 <> ukey target.

(** Where [Seek] ends. *)
Definition sought (g : Z) (kvs : list (bytes * bytes)) (target : bytes) : option (bytes * option bytes) :=
  '(k, v) ← kvs !! prefix_count (fun k => icmp k target <? 0) ((fun kv => shown g kv.1) <$> kvs);
  Some (shown g k, Some v).

Lemma no_version_match es kvs g target : Forall2 same_entry es kvs ->
  no_version (es := es) g target -> no_match g kvs target.
Proof.
  intros Hs Hno [k v] [i Hi]%list_elem_of_lookup Hge Hu. rewrite (same_entry_lookup es kvs i Hs) in Hi.
  destruct (es !! i) as [e|] eqn:He; [|done]. injection Hi as <- <-. by apply (Hno i e).
Qed.

Lemma sought_view es kvs g target : Forall2 same_entry es kvs ->
  view_at (es := es) g (to_pos (es := es) (lower_bound (es := es) (kcmp g target))) = sought g kvs target.
Proof.
  intros Hs. unfold sought. rewrite (below_keys g target), (same_keys es kvs g Hs), (same_entry_lookup es kvs _ Hs).
  set (i := prefix_count _ _). destruct (es !! i) as [e|] eqn:He.
  - rewrite (to_pos_entry i e He). unfold view_at. cbn. by rewrite He.
  - unfold to_pos. apply lookup_ge_None in He. by rewrite (proj2 (Nat.ltb_ge _ _) He).
Qed.

Lemma seek_then_update target s found s1 s' :
  (data_SeekImpl target;; mret true) s = Ret found s1 -> data_UpdateKey s1 = Ret tt s' ->
  (data_SeekImpl target;; data_UpdateKey;; mret true) s = Ret found s'.
Proof.
  intros (u & s2 & Hs & Hr)%bind_Ret_inv Hu. injection Hr as <- ->. erewrite bind_Ret by exact Hs.
  by erewrite bind_Ret by exact Hu.
Qed.

Section Block.
Context {es : list item} {rs : list nat} {b : BlockBuilder} {table : option (Z * list Z)} (g : Z) (target : bytes).
Let c := contents_of false es rs table.
Context (B : built b es rs) (Ht : table_of b (zlen c) table) (Hp : plain_size false es rs < 2 ^ 32) (Hg : seqno_ok g).
Context (Hint : forall i e, es !! i = Some e -> internal (i_key e)).
Context (Hord : forall i j e f, es !! i = Some e -> es !! j = Some f -> (i < j)%nat ->
  icmp (shown g (i_key e)) (shown g (i_key f)) < 0).
Context (Htarget : internal target).
Abbreviation ended := (fin (data := c) (restarts := zlen (stored false es)) (es := es) (rs := rs) g).
Abbreviation pos := (at_pos (here (data := c) (restarts := zlen (stored false es)) (es := es) (rs := rs) g) ended).

Lemma for_get_impl s : ended s -> exists found s1 q,
  match fst <$> table with None => data_SeekImpl target;; mret true | Some n => SeekForGetImpl n target end s = Ret found s1 /\
  pos s1 q /\ outcome (es := es) g target found q.
Proof.
  intros Hnew. destruct (table_of_ok b es rs table Ht Hp) as [Hc Htab]. fold c in Hc, Htab.
  pose proof (layout_found false es rs table (bu_shape _ _ _ B) Hc) as LO. fold c in LO.
  pose proof (lookup_found false es rs table Htab) as Hl. fold c in Hl. destruct table as [[n t]|]; cbn [fmap option_fmap option_map fst].
  - destruct Ht as (Hv & T & -> & _). pose proof (tb_range _ _ T).
    destruct (lookup_answer b es rs B Hv n (ukey target) ltac:(lia)) as (x & Hx & Hans).
    apply (SeekForGet_ok LO g Hg Hint Hord target Htarget n (compare_bytes Hbytes) (last_interval b es rs B Hv) x) with (p := None); [|done|done].
    rewrite (Hl n (bucket_table (data_block_hash_index_builder_ b) n) (ukey target) eq_refl), Hx.
    cbn. f_equal. apply Z.mod_small. by eapply answer_range.
  - by apply (seek_instead LO g Hg Hint Hord target Htarget s None).
Qed.

Lemma for_get_found s : ended s -> data_block_hash_index_ s = fst <$> table ->
  exists found s' q, SeekForGet target s = Ret found s' /\ pos s' q /\
    observe s' = view_at (es := es) g q /\ outcome (es := es) g target found q.
Proof.
  intros Hnew Hidx. destruct (for_get_impl s Hnew) as (found & s1 & q & Hs1 & P1 & O1).
  pose proof (layout_found false es rs table (bu_shape _ _ _ B) (proj1 (table_of_ok b es rs table Ht Hp))) as LO.
  destruct (update_key LO g s1 q (fun _ => Hint) P1) as (s' & Hu & P' & O'). exists found, s', q. split_and!; try done.
  unfold SeekForGet. rewrite bind_gets. cbv beta. change (id s) with s. rewrite Hidx. destruct (fst <$> table).
  - erewrite bind_Ret by exact Hs1. by erewrite bind_Ret by exact Hu.
  - by eapply seek_then_update.
Qed.
End Block.

(** C19. [SeekForGet], the search of a point lookup, gives the answer of [Seek].  In a
    block that was built with or without hash index, with a comparator under which
    only equal byte strings are equal, [SeekForGet] returns with status OK, and one of
    three things holds.  It returns true and the iterator is where [Seek] puts it, at
    the first entry that is not below the target.  Or it returns true, the iterator
    is invalid, and no entry of the user key from the target on is in the block (the
    next block is to be searched).  Or it returns false; then no such entry is in the
    block, and a greater user key is, so that the search is over.  In particular a
    false positive of the hash index, a collision, or a restart point of another
    interval never hides an entry. *)
Theorem seek_for_get_is_seek b0 kvs g target :
  data_builder b0 -> block_input kvs -> seqno_ok g -> ascending g kvs -> internal target ->
  exists b, builder_Adds (add_args kvs) b0 = Ret tt b /\
  (buckets_fit (data_block_hash_index_builder_ b) ->
   exists c b' found s, builder_Finish b = Ret c b' /\
   SeekForGet target (NewDataIterator (new_Block c) g None) = Ret found s /\
   it_status_ (data_iter s) = StOK /\
   (found = true /\ observe s = sought g kvs target \/
    found = true /\ observe s = None /\ no_match g kvs target \/
    found = false /\ no_match g kvs target /\ exists kv, kv ∈ kvs /\ 0 < Compare (ukey kv.1) (ukey target))).
Proof.
  intros Hb0 Hin Hg Hasc Htarget.
  destruct (data_block_built b0 kvs (data_builder_clean b0 Hb0) Hin) as (es & rs & b & Hadd & B & Hs & Hvd & Hp).
  exists b. split; [done|]. intros Hfit. rewrite <- Hvd in Hp.
  destruct (Finish_ok b es rs B Hp Hfit) as (table & b' & Hfin & _ & _ & _ & Ht & _). rewrite Hvd in *.
  destruct (table_of_ok b es rs table Ht Hp) as [Hc Htab].
  destruct (NewDataIterator_ok es rs table g (bu_shape _ _ _ B) Hc Htab) as [Hnew Hidx].
  destruct (for_get_found g target B Ht Hp Hg (entries_internal es kvs Hs (bi_keys _ Hin))
    (entries_ascending es kvs g Hs Hasc) Htarget _ Hnew Hidx) as (found & s & q & Hget & P & O & Hout).
  exists (contents_of false es rs table), b', found, s. split; [done|]. split; [done|].
  split; [apply (fr_status _ _ _ (proj1 (pos_sound g s q P)))|]. rewrite O.
  destruct Hout as [[-> ->]|[(-> & -> & Hno)|(-> & Hno & i & e & He & Hpos)]].
  - left. split; [done|]. by apply sought_view.
  - right. left. split_and!; try done. by eapply no_version_match.
  - right. right. split; [done|]. split; [by eapply no_version_match|].
    pose proof (same_entry_lookup es kvs i Hs) as Hkv. rewrite He in Hkv. exists (i_key e, i_value e).
    split; [by eapply list_elem_of_lookup_2|done].
Qed.
End Built.

(** The target, version 6 of "apricot", is found in its interval. *)
Lemma seek_for_get_is_seek_witness : exists b c b' s,
  builder_Adds (add_args Example.entries) Example.builder = Ret tt b /\ builder_Finish b = Ret c b' /\
  @SeekForGet BytewiseComparator (mk_ikey (Example.bs "apricot") (6 * 256 + 255))
    (NewDataIterator (new_Block c) kDisableGlobalSequenceNumber None) = Ret true s /\
  observe s = Some (mk_ikey (Example.bs "apricot") (5 * 256 + 1), Some (Example.bs "orange")).
Proof.
  destruct (@seek_for_get_is_seek BytewiseComparator _ eq_refl Example.builder Example.entries kDisableGlobalSequenceNumber
    (mk_ikey (Example.bs "apricot") (6 * 256 + 255)) Example.builder_ok Example.entries_ok (or_introl eq_refl)
    Example.entries_order ltac:(by vm_compute)) as (b & Hadd & H).
  exists b. assert (buckets_fit (data_block_hash_index_builder_ b)) as Hfit.
  { vm_compute in Hadd. injection Hadd as <-. intros _. vm_compute. by eexists. }
  destruct (H Hfit) as (c & b' & found & s & Hfin & Hget & _ & Hout). exists c, b', s. split; [exact Hadd|]. split; [exact Hfin|].
  assert (no_match (user_comparator := BytewiseComparator) kDisableGlobalSequenceNumber Example.entries
    (mk_ikey (Example.bs "apricot") (6 * 256 + 255)) -> False) as Hmatch.
  { intros Hno. apply (Hno (mk_ikey (Example.bs "apricot") (5 * 256 + 1), Example.bs "orange")); [|by vm_compute..].
    apply list_elem_of_lookup. by exists 3%nat. }
  destruct Hout as [[-> Ho]|[(_ & _ & Hno)|(_ & Hno & _)]]; [|by destruct (Hmatch Hno)..].
  split; [exact Hget|]. rewrite Ho. by vm_compute.
Defined.
