(* ===== verification/BlockSafe.v ===== *)
(** Blocks with any contents: what the checks of [Block] and of [CheckAndDecodeEntry]
    keep out, and what gets through. *)
From S2P Require Import Prelude Bits Coding IoStatus Comparator DbFormat BlockBuilder BlockIter BlockSpec BlockBuild BlockCursor BlockThms.
From stdpp Require Import base numbers list strings.
From Stdlib Require Import ZArith Lia.
Local Open Scope Z_scope.

(** ** Decoding within a limit *)

Lemma u32_lor_range a b : 0 <= a < 2 ^ 32 -> 0 <= Z.lor a (u32 b) < 2 ^ 32.
Proof.
  intros Ha. pose proof (u32_range b). split; [apply Z.lor_nonneg; lia|].
  destruct (decide (Z.lor a (u32 b) = 0)) as [->|Hne]; [done|].
  assert (0 <= Z.lor a (u32 b)) by (apply Z.lor_nonneg; lia).
  apply Z.log2_lt_pow2; [lia|]. rewrite Z.log2_lor by lia.
  assert (forall z, 0 <= z < 2 ^ 32 -> Z.log2 z < 32) as Hl.
  { intros z Hz. destruct (decide (z = 0)) as [->|]; [done|]. apply Z.log2_lt_pow2; lia. }
  pose proof (Hl a Ha). pose proof (Hl (u32 b) ltac:(lia)). lia.
Qed.

Lemma varint_loop_range last shift result p v rest :
  0 <= result < 2 ^ 32 -> varint_loop last u32 shift result p = Some (v, rest) ->
  0 <= v < 2 ^ 32 /\ (length rest < length p)%nat.
Proof.
  revert shift result. induction p as [|b p IH]; intros shift result Hr; [done|]. cbn [varint_loop length].
  destruct (last <? shift); [done|]. destruct (negb _).
  - intros H. destruct (IH _ _ (u32_lor_range _ _ Hr) H). lia.
  - intros [= <- <-]. split; [by apply u32_lor_range|lia].
Qed.

(** The result of a program that reads only. *)
Definition reads {A} (f : forall S, prog S A) (x : A) : Prop := forall S (s : S), f S s = Ret x s.

Lemma get_varint32_any data p limit : 0 <= p <= limit -> limit <= zlen data ->
  exists x, reads (fun S => get_varint32 data p limit) x /\
    forall v p', x = Some (v, p') -> 0 <= v < 2 ^ 32 /\ p < p' <= limit.
Proof.
  intros Hp Hl. unfold get_varint32, reads. assert (zlen (sub data p (limit - p)) = limit - p) as Hs.
  { unfold sub, zlen in *. rewrite length_take, length_drop. lia. }
  destruct (GetVarint32Ptr (sub data p (limit - p))) as [[v rest]|] eqn:E.
  - rewrite GetVarint32Ptr_loop in E. apply varint_loop_range in E as [Hv Hlen]; [|lia].
    eexists. split; [done|]. intros v' p' [= <- <-]. split; [done|]. rewrite Hs. unfold zlen in *. lia.
  - exists None. rewrite (proj2 (Z.ltb_ge _ _)) by lia. done.
Qed.

(** What a header that was read is like. *)
Definition header_ok (p limit : Z) (x : option (Z * (Z * Z * Z))) : Prop :=
  forall p' sh ns vl, x = Some (p', (sh, ns, vl)) ->
    p + 3 <= p' <= limit /\ 0 <= sh < 2 ^ 32 /\ 0 <= ns < 2 ^ 32 /\ 0 <= vl < 2 ^ 32.

Lemma decode_varints_any data p limit : 0 <= p <= limit -> limit <= zlen data ->
  exists x, reads (fun S => decode_varints data p limit) x /\ header_ok p limit x.
Proof.
  intros Hp Hl. unfold decode_varints, reads.
  destruct (get_varint32_any data p limit Hp Hl) as ([[sh p1]|] & H1 & Hr1); last first.
  { exists None. split; [intros S s; by rewrite (bind_Ret _ _ _ _ _ (H1 S s))|done]. }
  destruct (Hr1 _ _ eq_refl) as [Hsh Hp1].
  destruct (get_varint32_any data p1 limit ltac:(lia) Hl) as ([[ns p2]|] & H2 & Hr2); last first.
  { exists None. split; [intros S s; rewrite (bind_Ret _ _ _ _ _ (H1 S s)); cbv beta iota; by rewrite (bind_Ret _ _ _ _ _ (H2 S s))|done]. }
  destruct (Hr2 _ _ eq_refl) as [Hns Hp2].
  destruct (get_varint32_any data p2 limit ltac:(lia) Hl) as ([[vl p3]|] & H3 & Hr3).
  - destruct (Hr3 _ _ eq_refl) as [Hvl Hp3]. exists (Some (p3, (sh, ns, vl))). split.
    + intros S s. rewrite (bind_Ret _ _ _ _ _ (H1 S s)). cbv beta iota. rewrite (bind_Ret _ _ _ _ _ (H2 S s)). cbv beta iota.
      by rewrite (bind_Ret _ _ _ _ _ (H3 S s)).
    + intros ? ? ? ? [= <- <- <- <-]. split_and!; lia.
  - exists None. split; [|done]. intros S s. rewrite (bind_Ret _ _ _ _ _ (H1 S s)). cbv beta iota.
    rewrite (bind_Ret _ _ _ _ _ (H2 S s)). cbv beta iota. by rewrite (bind_Ret _ _ _ _ _ (H3 S s)).
Qed.

Lemma decode_header_any data p limit : 0 <= p -> 3 <= limit - p -> limit <= zlen data ->
  exists x, reads (fun S => decode_header data p limit) x /\ header_ok p limit x.
Proof.
  intros Hp H3 Hl. unfold decode_header, reads.
  assert (forall k, 0 <= k < 3 -> is_Some (data !! Z.to_nat (p + k))) as Hk.
  { intros k Hk. apply lookup_lt_is_Some. unfold zlen in Hl. lia. }
  destruct (Hk 0 ltac:(lia)) as [a Ha]. destruct (Hk 1 ltac:(lia)) as [b Hb]. destruct (Hk 2 ltac:(lia)) as [c Hc].
  rewrite Z.add_0_r in Ha. rewrite Ha, Hb, Hc. cbn [the]. unfold mbind, prog_bind, mret, prog_ret.
  destruct (_ <? 128); [|apply decode_varints_any; lia].
  eexists. split; [done|]. intros ? ? ? ? [= <- <- <- <-].
  pose proof (byte_val_range a). pose proof (byte_val_range b). pose proof (byte_val_range c). split_and!; lia.
Qed.

(** ** Iterators over any contents *)

Section Any.
Context (c : bytes) (R N : Z).
Context (HR : 0 <= R) (HN : 1 <= N) (Hfit : R + 4 * N <= zlen c) (Hc : zlen c < 2 ^ 32).

(** No two sizes in the block add up to more than 32 bits. *)
Definition sizes_add_up : Prop :=
  forall p p' sh ns vl, 0 <= p < R -> decode_header c p R tt = Ret (Some (p', (sh, ns, vl))) tt -> ns + vl < 2 ^ 32.
Context (Hsizes : sizes_add_up).

Record sane (it : BlockIter) : Prop := {
  sn_data : it_data_ it = Some c;
  sn_num : it_num_restarts_ it = N;
  sn_restarts : it_restarts_ it = R;
  sn_global : global_seqno_ it = kDisableGlobalSequenceNumber;
  sn_index : 0 <= restart_index_ it }.

(** The value is in the block, behind the current entry and before the end. *)
Definition at_value (it : BlockIter) (o n : Z) : Prop :=
  it_value_ it = Some (o, n) /\ 0 <= o /\ 0 <= n /\ current_ it + 3 <= o + n <= R.

Lemma restart_any it k : sane it -> 0 <= k < N -> exists r, GetRestartPoint k it = Ret r it /\ 0 <= r < 2 ^ 32.
Proof.
  intros S Hk. unfold GetRestartPoint. rewrite bind_gets. cbv beta. change (id it) with it.
  rewrite (sn_data _ S), (sn_restarts _ S). erewrite bind_Ret by reflexivity. cbv beta zeta.
  rewrite (proj2 (in_block_spec _ _ _)) by (unfold zlen in Hfit; lia). eexists. split; [reflexivity|].
  unfold fixed32_at, DecodeFixed32. pose proof (le_val_range (take 4 (sub c (R + k * 4) 4))) as Hr.
  rewrite length_take in Hr. destruct Hr as [Hr1 Hr2]. split; [done|]. eapply Z.lt_le_trans; [exact Hr2|].
  change (2 ^ 32) with (256 ^ 4). apply Z.pow_le_mono_r; lia.
Qed.

Lemma advance_any fuel it : sane it -> (Z.to_nat (N - restart_index_ it) < fuel)%nat ->
  exists k, advance_restart_index fuel it = Ret tt (set_restart_index k it) /\ 0 <= k.
Proof.
  revert it. induction fuel as [|fuel IH]; intros it S Hf; [lia|].
  cbn [advance_restart_index]. rewrite bind_gets. cbv beta. change (id it) with it. rewrite (sn_num _ S).
  assert (set_restart_index (restart_index_ it) it = it) as Hid by (by destruct it). pose proof (sn_index _ S) as Hi.
  destruct (Z.ltb_spec (restart_index_ it + 1) N) as [Hl|Hl].
  - destruct (restart_any it (restart_index_ it + 1) S) as (r & Hr & _); [lia|].
    erewrite bind_Ret by exact Hr. destruct (_ <? _).
    + erewrite bind_Ret by reflexivity. set (it1 := set_restart_index _ it).
      destruct (IH it1) as (k & Hk & Hr'); [destruct S; split; try done; cbn; lia|cbn; lia|]. by exists k.
    + exists (restart_index_ it). by rewrite Hid.
  - exists (restart_index_ it). by rewrite Hid.
Qed.

(** The check keeps the entry before the end. *)
Lemma check_any (it : BlockIter) p : 0 <= p < R ->
  exists x, CheckAndDecodeEntry c p R it = Ret x it /\
    forall p' sh ns vl, x = Some (p', (sh, ns, vl)) -> p + 3 <= p' /\ 0 <= sh /\ 0 <= ns /\ 0 <= vl /\ p' + ns + vl <= R.
Proof.
  intros Hp. unfold CheckAndDecodeEntry. destruct (Z.ltb_spec (R - p) 3); [by exists None|].
  destruct (decode_header_any c p R ltac:(lia) ltac:(lia) ltac:(lia)) as (x & Hx & Hok).
  rewrite (bind_Ret _ _ _ _ _ (Hx _ it)). destruct x as [[p1 [[sh ns] vl]]|]; [|by exists None].
  destruct (Hok _ _ _ _ eq_refl) as (Hp1 & Hsh & Hns & Hvl).
  pose proof (Hsizes p p1 sh ns vl Hp (Hx unit tt)) as Hadd. rewrite !u32_small by lia.
  destruct (Z.ltb_spec (R - p1) (ns + vl)); [by exists None|].
  eexists. split; [reflexivity|]. intros ? ? ? ? [= <- <- <- <-]. split_and!; lia.
Qed.

Lemma parse_entry_any it o n : sane it -> it_value_ it = Some (o, n) ->
  exists more it', ParseNextDataKey CheckAndDecodeEntry None it = Ret more it' /\ sane it' /\
    if more then current_ it' = u32 (o + n) /\ it_status_ it' = it_status_ it /\ exists o' n', at_value it' o' n'
    else current_ it' = R.
Proof.
  intros S Hv. unfold ParseNextDataKey. rewrite bind_gets. cbv beta. change (id it) with it.
  unfold NextEntryOffset. rewrite Hv. cbn [mbind option_bind]. erewrite bind_Ret by reflexivity.
  erewrite bind_Ret by reflexivity. rewrite (sn_data _ S). erewrite bind_Ret by reflexivity. cbv beta zeta.
  rewrite (sn_restarts _ S). change (default R None) with R. pose proof (u32_range (o + n)) as Hu. set (p := u32 (o + n)) in *.
  destruct (Z.leb_spec R p) as [_|Hlt].
  { erewrite bind_Ret by reflexivity. eexists false, _. split; [reflexivity|]. destruct S. split; [split; try done; cbn; lia|done]. }
  assert (exists it', (CorruptionError;; mret false) (set_current p it) = Ret false it' /\ sane it' /\ current_ it' = R) as Hbad.
  { eexists. split; [reflexivity|]. destruct S. split; [split; try done; cbn; lia|done]. }
  destruct (check_any (set_current p it) p ltac:(lia)) as (x & Hx & Hok). erewrite bind_Ret by exact Hx.
  destruct x as [[p1 [[sh ns] vl]]|]; [|destruct Hbad as (it' & ?); by exists false, it'].
  destruct (Hok _ _ _ _ eq_refl) as (Hp1 & Hsh & Hns & Hvl & Hend).
  destruct (_ <? sh); [destruct Hbad as (it' & ?); by exists false, it'|].
  rewrite (proj2 (in_block_spec _ _ _)) by (unfold zlen in Hfit; lia).
  erewrite bind_Ret by reflexivity. erewrite bind_Ret by reflexivity.
  set (it2 := set_value _ _).
  assert (sane it2) as S2 by (by destruct S; split).
  assert (exists k, when (sh =? 0) (advance_restart_index (Datatypes.S (length c))) it2 = Ret tt (set_restart_index k it2) /\ 0 <= k) as (k & Hk & Hk0).
  { destruct (sh =? 0); cbn [when]; [|exists (restart_index_ it2); split; [done|apply S2]].
    apply advance_any; [done|]. pose proof (sn_index _ S2). unfold zlen in Hfit. lia. }
  erewrite bind_Ret by exact Hk. eexists true, _. split; [reflexivity|]. split; [by destruct S2; split|].
  split; [done|]. split; [done|]. exists (p1 + ns), vl. split; [done|]. cbn. lia.
Qed.
End Any.

(** ** What gets through the checks *)

(** [Block] accepts blocks whose number of restart points is too large by 2^30.
    The constructor means to refuse a block that is too small for the restart points
    it claims to have, by looking for a restart offset that wrapped around; but the
    offset is computed modulo 2^32, and four times the number of restart points is
    too.  Every block of up to 64 kB whose footer says 2^30 + k restart points, with
    room for k of them, is accepted, and [SeekToLast] then reads a restart point
    outside of the block. *)
Theorem restart_count_wraps (body : bytes) (k g : Z) :
  let c := body ++ le_bytes 4 (2 ^ 30 + k) in
  0 <= k < 2 ^ 30 -> 8 <= zlen c <= 65536 -> 4 * k + 4 <= zlen c ->
  size_ (new_Block c) = zlen c /\ data_SeekToLast (NewDataIterator (new_Block c) g None) = UB.
Proof.
  intros c Hk Hsize Hroom. assert (fixed32_at c (zlen c - 4) = 2 ^ 30 + k) as Hf.
  { unfold fixed32_at. subst c. rewrite <- (app_nil_r (le_bytes 4 _)) at 1.
    rewrite (sub_middle body (le_bytes 4 (2 ^ 30 + k)) []) by (rewrite ?zlen_app; unfold zlen; rewrite length_le_bytes; lia).
    unfold DecodeFixed32. rewrite take_ge by (by rewrite length_le_bytes). rewrite le_val_bytes. apply Z.mod_small. lia. }
  destruct (unpack_packed kDataBlockBinarySearch (2 ^ 30 + k) ltac:(lia)) as [Hup _]. cbn [PackIndexTypeAndNumRestarts] in Hup.
  assert (new_Block c = MkBlock c (zlen c) (zlen c - 4 - 4 * k) (2 ^ 30 + k) 0) as Hb.
  { unfold new_Block, NumRestarts, IndexType. rewrite Hf, Hup. cbn [fst snd].
    rewrite (proj2 (Z.ltb_ge _ 4)), (proj2 (Z.ltb_ge kMaxBlockSizeSupportedByHashIndex _))
      by (change kMaxBlockSizeSupportedByHashIndex with 65536; lia).
    rewrite (u32_small (zlen c)), (u32_small (1 + _)) by lia.
    assert (u32 (zlen c - (1 + (2 ^ 30 + k)) * 4) = zlen c - 4 - 4 * k) as ->.
    { unfold u32. rewrite <- (Z_mod_plus_full _ 1). rewrite Z.mod_small; lia. }
    by rewrite (proj2 (Z.ltb_ge _ _)) by lia. }
  rewrite Hb. split; [done|]. unfold NewDataIterator. cbn [size_ num_restarts_].
  rewrite (proj2 (Z.ltb_ge _ 8)), (proj2 (Z.eqb_neq _ 0)) by lia. unfold data_SeekToLast. apply bind_UB.
  unfold data_SeekToLastImpl, unless_null. rewrite bind_gets. cbv beta. cbn [data_iter it_data_ data_Initialize set_raw_key InitializeBase].
  rewrite bind_gets. cbv beta. erewrite bind_Ret by reflexivity. unfold zoom. rewrite bind_UB; [done|].
  unfold SeekToRestartPoint. erewrite bind_Ret by reflexivity. apply bind_UB.
  unfold GetRestartPoint. rewrite bind_gets. cbv beta. erewrite bind_Ret by reflexivity. cbn -[in_block u32 Z.mul Z.add].
  rewrite u32_small by lia. destruct (in_block c _ 4) eqn:E; [|done]. apply in_block_spec in E. unfold zlen in *. lia.
Qed.

Lemma restart_count_wraps_witness : let c := replicate 4 Byte.x00 ++ le_bytes 4 (2 ^ 30 + 1) in
  size_ (new_Block c) = 8 /\
  data_SeekToLast (NewDataIterator (new_Block c) kDisableGlobalSequenceNumber None) = UB.
Proof. by apply (restart_count_wraps (replicate 4 Byte.x00) 1 kDisableGlobalSequenceNumber). Defined.

(** ** Blocks that are opened *)

(** The number of restart points does not wrap, and the hash index fits. *)
Definition counts_fit (c : bytes) : Prop :=
  zlen c < 2 ^ 32 /\ num_restarts_ (new_Block c) < 2 ^ 30 /\ num_buckets_ (new_Block c) + 6 <= zlen c.

Lemma u32_offset x n : 0 <= x < 2 ^ 32 -> 0 <= n < 2 ^ 30 -> u32 (x - n * 4) <= x -> u32 (x - n * 4) = x - n * 4 /\ 0 <= x - n * 4.
Proof.
  intros Hx Hn Hle. destruct (decide (0 <= x - n * 4)) as [Hp|Hp]; [by rewrite u32_small in * by lia|].
  unfold u32 in Hle. rewrite <- (Z_mod_plus_full _ 1), Z.mod_small in Hle by lia. lia.
Qed.

Lemma le_val_nonneg (l : bytes) : 0 <= le_val l.
Proof. apply le_val_range. Qed.

Lemma opened_fits c : counts_fit c -> 8 <= size_ (new_Block c) -> num_restarts_ (new_Block c) <> 0 ->
  let b := new_Block c in
  b_data b = c /\ 0 <= restart_offset_ b /\ 1 <= num_restarts_ b /\ restart_offset_ b + 4 * num_restarts_ b + 4 <= zlen c.
Proof.
  intros (Hc & Hn & Hb) Hs Hne. cbv zeta. revert Hn Hb Hs Hne. unfold new_Block.
  destruct (Z.ltb_spec (zlen c) 4); [cbn; lia|].
  assert (0 <= NumRestarts c (zlen c)) as Hpos.
  { unfold NumRestarts, UnPackIndexTypeAndNumRestarts. case_match; [apply le_val_nonneg|]. apply Z.land_nonneg. left. apply le_val_nonneg. }
  destruct (IndexType c (zlen c)) eqn:T.
  - cbn [num_restarts_ num_buckets_ size_ restart_offset_ b_data]. set (n := NumRestarts c (zlen c)) in *. intros Hn _ Hs Hne.
    rewrite (u32_small (zlen c)), (u32_small (1 + n)) in * by lia.
    replace (zlen c - (1 + n) * 4) with (zlen c - 4 - n * 4) in * by lia.
    destruct (Z.ltb_spec (zlen c - 4) (u32 (zlen c - 4 - n * 4))) as [|Hle]; [lia|].
    destruct (u32_offset (zlen c - 4) n ltac:(lia) ltac:(lia) Hle) as [-> ?]. split_and!; try done; lia.
  - destruct (Z.ltb_spec (zlen c) 6); [cbn; lia|].
    assert (zlen c <= 65536) as Hmax.
    { unfold IndexType in T. change kMaxBlockSizeSupportedByHashIndex with 65536 in T. case_match; [done|]. lia. }
    unfold hash_index_Initialize. rewrite (u16_small (zlen c - 4)) by lia.
    set (nb := DecodeFixed16 true _). assert (0 <= nb) by apply le_val_nonneg.
    cbn [num_restarts_ num_buckets_ size_ restart_offset_ b_data]. set (n := NumRestarts c (zlen c)) in *. intros Hn Hb Hs Hne.
    rewrite (u16_small (zlen c - 4 - 2 - nb)) in * by lia.
    destruct (Z.ltb_spec (zlen c - 4 - 2 - nb) (u32 (zlen c - 4 - 2 - nb - n * 4))) as [|Hle]; [lia|].
    destruct (u32_offset (zlen c - 4 - 2 - nb) n ltac:(lia) ltac:(lia) Hle) as [-> ?]. split_and!; try done; lia.
Qed.

(** ** Reading in order *)

Section Scan.
Context (c : bytes) (R N : Z).
Context (HR : 0 <= R) (HN : 1 <= N) (Hfit : R + 4 * N <= zlen c) (Hc : zlen c < 2 ^ 32) (Hsizes : sizes_add_up c R).

(** At an entry, or behind the last. *)
Definition scanning (s : DataBlockIter) : Prop :=
  sane c R N (data_iter s) /\ 0 <= current_ (data_iter s) /\
  (it_Valid (data_iter s) = true -> exists o n, at_value R (data_iter s) o n).

Lemma update_any it : sane c R N it -> exists k pinned, UpdateKey it = Ret tt it \/ UpdateKey it = Ret tt (set_key k pinned it).
Proof.
  intros S. unfold UpdateKey. rewrite bind_gets. cbv beta. change (id it) with it. destruct (negb (it_Valid it)).
  - exists [], false. by left.
  - rewrite (sn_global _ _ _ _ S), Z.eqb_refl, orb_true_r. eexists _, _. right. reflexivity.
Qed.

Lemma next_any s o n : sane c R N (data_iter s) -> it_value_ (data_iter s) = Some (o, n) ->
  exists s', NextOrReport s = Ret tt s' /\ scanning s' /\ (it_Valid (data_iter s') = true -> current_ (data_iter s') = u32 (o + n)).
Proof.
  intros S Hv. destruct (parse_entry_any c R N HR HN Hfit Hc Hsizes (data_iter s) o n S Hv) as (more & it & Hp & S' & Hres).
  assert (it_Valid it = true -> current_ it = u32 (o + n) /\ exists o' n', at_value R it o' n') as Hval.
  { intros V. destruct more; [by destruct Hres as (? & _ & ?)|]. unfold it_Valid in V.
    rewrite Hres, (sn_restarts _ _ _ _ S'), Z.ltb_irrefl in V. done. }
  assert (0 <= current_ it) as Hcur.
  { destruct more; [destruct Hres as (-> & _); apply u32_range|lia]. }
  destruct (update_any it S') as (k & pinned & Hu). unfold NextOrReport, NextOrReportImpl, data_UpdateKey.
  destruct Hu as [Hu|Hu]; eexists; (split; [erewrite bind_Ret by (by erewrite bind_Ret by (by apply zoom_base)); by apply zoom_base|]).
  - split; [split; [done|split; [done|by intros V; apply Hval]]|]. intros V. by apply Hval.
  - split; [split; [by destruct S'; split|split; [done|]]|]; intros V; destruct (Hval V) as (? & o' & n' & ?); [by exists o', n'|done].
Qed.

Lemma first_any s : sane c R N (data_iter s) -> exists s', SeekToFirstOrReport s = Ret tt s' /\ scanning s'.
Proof.
  intros S. unfold SeekToFirstOrReport, SeekToFirstOrReportImpl.
  set (it0 := set_restart_index 0 (set_raw_key (ClearKey (raw_key_ (data_iter s))) (data_iter s))).
  assert (sane c R N it0) as S0 by (by destruct S; split).
  destruct (restart_any c R N HR Hfit it0 0 S0 ltac:(lia)) as (r & Hr & _).
  set (s1 := set data_base (set_value (Some (r, 0)) it0) s).
  assert (zoom data_base (SeekToRestartPoint 0) s = Ret tt s1) as Hseek.
  { apply zoom_base. unfold SeekToRestartPoint. erewrite bind_Ret by reflexivity. by erewrite bind_Ret by exact Hr. }
  destruct (next_any s1 r 0) as (s' & Hs' & Hscan & _); [by destruct S0; split|done|].
  exists s'. split; [|done]. rewrite <- Hs'. unfold NextOrReport, mbind, prog_bind, unless_null, gets.
  unfold mbind, prog_bind. rewrite (sn_data _ _ _ _ S). by rewrite Hseek.
Qed.
End Scan.

(** Blocks of bytes below 128 have no large sizes. *)
Lemma small_bytes_add_up c R : Forall (fun b => byte_val b < 128) c -> sizes_add_up c R.
Proof.
  intros Hall p p' sh ns vl Hp. unfold decode_header.
  destruct (c !! Z.to_nat p) as [a|] eqn:Ha; [|done]. destruct (c !! Z.to_nat (p + 1)) as [b|] eqn:Hb; [|done].
  destruct (c !! Z.to_nat (p + 2)) as [d|] eqn:Hd; [|done]. cbn [the]. unfold mbind, prog_bind, mret, prog_ret.
  pose proof (Forall_lookup_1 _ _ _ _ Hall Ha). pose proof (Forall_lookup_1 _ _ _ _ Hall Hb). pose proof (Forall_lookup_1 _ _ _ _ Hall Hd).
  cbn in *. pose proof (byte_val_range a). pose proof (byte_val_range b). pose proof (byte_val_range d).
  assert (forall x y, 0 <= x < 128 -> 0 <= y < 128 -> 0 <= Z.lor x y < 128) as Hlor.
  { intros x y Hx Hy. split; [apply Z.lor_nonneg; lia|]. change 128 with (2 ^ 7).
    rewrite <- (Z.mod_small x (2 ^ 7)), <- (Z.mod_small y (2 ^ 7)) by lia.
    rewrite <- !Z.land_ones, <- Z.land_lor_distr_l, Z.land_ones by lia. apply Z.mod_pos_bound. lia. }
  rewrite (proj2 (Z.ltb_lt _ _)) by (apply Hlor; [apply Hlor; lia|lia]). intros [= <- <- <- <-]. lia.
Qed.
