(* ===== verification/TableFormat.v ===== *)
(** table/format.h, table/format.cc: handles of blocks, values of the index and the
    footer of a table file. *)
From S2P Require Import Prelude Bits Coding IoStatus.
From stdpp Require Import base numbers list strings pretty.
From Stdlib Require Import ZArith Lia.
Local Open Scope Z_scope.

(** ** Handles *)

Record BlockHandle := MkHandle { h_offset : Z; h_size : Z }.

(** The handle that is not initialized, and the one that points nowhere. *)
Definition new_BlockHandle : BlockHandle := MkHandle (2 ^ 64 - 1) (2 ^ 64 - 1).
Definition NullBlockHandle : BlockHandle := MkHandle 0 0.
Definition handle_IsNull (h : BlockHandle) : bool := (h_offset h =? 0) && (h_size h =? 0).
Definition handle_kMaxEncodedLength : Z := 10 + 10.

Definition handle_EncodeTo (dst : bytes) (h : BlockHandle) : bytes := PutVarint64Varint64 dst (h_offset h) (h_size h).

(** The handle and the rest of the input; the input may be past the offset when it
    fails. *)
Definition handle_DecodeFrom (input : bytes) : Status * BlockHandle * bytes :=
  match GetVarint64 input with
  | Some (offset, input') =>
    match GetVarint64 input' with
    | Some (size, rest) => (StOK, MkHandle offset size, rest)
    | None => (StCorruption "bad block handle", MkHandle 0 0, input')
    end
  | None => (StCorruption "bad block handle", MkHandle 0 0, input)
  end.

Definition handle_DecodeSizeFrom (offset : Z) (input : bytes) : Status * BlockHandle * bytes :=
  match GetVarint64 input with
  | Some (size, rest) => (StOK, MkHandle offset size, rest)
  | None => (StCorruption "bad block handle", MkHandle 0 0, input)
  end.

(** ** Values of the index *)

Record IndexValue := MkIndexValue { iv_handle : BlockHandle; first_internal_key : bytes }.

(** [BlockBasedTable::kBlockTrailerSize] *)
Definition kBlockTrailerSize : Z := 5.

(** The difference of the sizes is taken modulo 2^64 and read as signed. *)
Definition index_EncodeTo (dst : bytes) (have_first_key : bool) (previous_handle : option BlockHandle)
    (v : IndexValue) : bytes :=
  let dst := match previous_handle with
    | Some p => PutVarsignedint64 dst (i64 (h_size (iv_handle v) - h_size p))
    | None => handle_EncodeTo dst (iv_handle v)
    end in
  if have_first_key then PutLengthPrefixedSlice dst (first_internal_key v) else dst.

Definition index_DecodeFrom (input : bytes) (have_first_key : bool) (previous_handle : option BlockHandle)
    (v : IndexValue) : Status * IndexValue * bytes :=
  let '(s, v, input) := match previous_handle with
    | Some p =>
      match GetVarsignedint64 input with
      | None => (StCorruption "bad delta-encoded index value", v, input)
      | Some (delta, input') =>
        (StOK, MkIndexValue (MkHandle (u64 (h_offset p + h_size p + kBlockTrailerSize)) (u64 (h_size p + delta)))
                 (first_internal_key v), input')
      end
    | None =>
      let '(s, h, input') := handle_DecodeFrom input in (s, MkIndexValue h (first_internal_key v), input')
    end in
  if negb (st_ok s) then (s, v, input)
  else if negb have_first_key then (StOK, MkIndexValue (iv_handle v) [], input)
  else match GetLengthPrefixedSlice input with
    | None => (StCorruption "bad first key in block info", v, input)
    | Some (k, rest) => (StOK, MkIndexValue (iv_handle v) k, rest)
    end.

(** ** Footers *)

(** [enum ChecksumType : char] *)
Definition kNoChecksum : Z := 0.
Definition kCRC32c : Z := 1.
Definition kxxHash : Z := 2.
Definition kxxHash64 : Z := 3.
Definition kXXH3 : Z := 4.
Definition IsSupportedChecksumType (type : Z) : bool := (kNoChecksum <=? type) && (type <=? kXXH3).

Definition kBlockBasedTableMagicNumber : Z := 0x88e241b785f4cff7.
Definition kLegacyBlockBasedTableMagicNumber : Z := 0xdb4775248b80fb57.
Definition kPlainTableMagicNumber : Z := 0x8242229663bf9564.
Definition kLegacyPlainTableMagicNumber : Z := 0x4f3418eb7a8f13b8.

Definition IsLegacyFooterFormat (magic_number : Z) : bool :=
  (magic_number =? kLegacyBlockBasedTableMagicNumber) || (magic_number =? kLegacyPlainTableMagicNumber).
Definition UpconvertLegacyFooterFormat (magic_number : Z) : Z :=
  if magic_number =? kLegacyBlockBasedTableMagicNumber then kBlockBasedTableMagicNumber
  else if magic_number =? kLegacyPlainTableMagicNumber then kPlainTableMagicNumber
  else 0.

Record Footer := MkFooter {
  f_version : Z; f_checksum : Z; f_block_trailer_size : Z; metaindex_handle : BlockHandle;
  index_handle : BlockHandle; f_table_magic_number : Z }.

Definition kMagicNumberLengthByte : Z := 8.
Definition kVersion0EncodedLength : Z := 2 * handle_kMaxEncodedLength + 8.
Definition kNewVersionsEncodedLength : Z := 1 + 2 * handle_kMaxEncodedLength + 4 + 8.
Definition kMinEncodedLength : Z := kVersion0EncodedLength.
Definition footer_kMaxEncodedLength : Z := kNewVersionsEncodedLength.

Definition new_Footer (table_magic_number version : Z) : Footer :=
  MkFooter version kCRC32c 0 new_BlockHandle new_BlockHandle table_magic_number.

Definition set_table_magic_number (magic_number : Z) (f : Footer) : Footer :=
  MkFooter (f_version f) (f_checksum f)
    (if (magic_number =? kBlockBasedTableMagicNumber) || (magic_number =? kLegacyBlockBasedTableMagicNumber)
     then kBlockTrailerSize else 0)
    (metaindex_handle f) (index_handle f) magic_number.

(** The magic number is written as two halves. *)
Definition put_magic (dst : bytes) (magic : Z) : bytes :=
  PutFixed32 true (PutFixed32 true dst (Z.land magic 0xffffffff)) (u32 (Z.shiftr magic 32)).

Definition footer_EncodeTo (dst : bytes) (f : Footer) : bytes :=
  let original_size := zlen dst in
  if IsLegacyFooterFormat (f_table_magic_number f) then
    let dst := handle_EncodeTo (handle_EncodeTo dst (metaindex_handle f)) (index_handle f) in
    let dst := resize (Z.to_nat (original_size + 2 * handle_kMaxEncodedLength)) Byte.x00 dst in
    put_magic dst (f_table_magic_number f)
  else
    let dst := dst ++ [byte_of (f_checksum f)] in
    let dst := handle_EncodeTo (handle_EncodeTo dst (metaindex_handle f)) (index_handle f) in
    let dst := resize (Z.to_nat (original_size + kNewVersionsEncodedLength - 12)) Byte.x00 dst in
    put_magic (PutFixed32 true dst (f_version f)) (f_table_magic_number f).

(** The conversion of a number to the type of a [char] enumeration. *)
Definition to_char (x : Z) : Z := let y := x mod 256 in if y <? 128 then y else y - 256.

(** The two handles; what is left of the input is skipped. *)
Definition decode_handles (f : Footer) (input : bytes) : Status * Footer * bytes :=
  let with_ m i := MkFooter (f_version f) (f_checksum f) (f_block_trailer_size f) m i (f_table_magic_number f) in
  let '(s, m, input) := handle_DecodeFrom input in
  if negb (st_ok s) then (s, with_ m (index_handle f), input)
  else
    let '(s, i, input) := handle_DecodeFrom input in
    (s, with_ m i, if st_ok s then [] else input).

Definition set_version_checksum (version checksum : Z) (f : Footer) : Footer :=
  MkFooter version checksum (f_block_trailer_size f) (metaindex_handle f) (index_handle f) (f_table_magic_number f).

(** [None]: bytes before the input are read. *)
Definition footer_DecodeFrom (input : bytes) (f : Footer) : option (Status * Footer * bytes) :=
  let size := zlen input in
  if size <? kMagicNumberLengthByte then None
  else
    let magic_ptr := size - kMagicNumberLengthByte in
    let magic_lo := DecodeFixed32 true (sub input magic_ptr 4) in
    let magic_hi := DecodeFixed32 true (sub input (magic_ptr + 4) 4) in
    let magic := Z.lor (Z.shiftl magic_hi 32) magic_lo in
    let legacy := IsLegacyFooterFormat magic in
    let f := set_table_magic_number (if legacy then UpconvertLegacyFooterFormat magic else magic) f in
    if legacy then
      if size <? kVersion0EncodedLength then None
      else Some (decode_handles (set_version_checksum 0 kCRC32c f)
                   (drop (Z.to_nat (size - kVersion0EncodedLength)) input))
    else if magic_ptr <? 4 then None
    else
      let version := DecodeFixed32 true (sub input (magic_ptr - 4) 4) in
      if size <? kNewVersionsEncodedLength then
        Some (StCorruption "input is too short to be an sstable", set_version_checksum version (f_checksum f) f, input)
      else
        let input := drop (Z.to_nat (size - kNewVersionsEncodedLength)) input in
        match GetVarint32 input with
        | None => Some (StCorruption "bad checksum type", set_version_checksum version (f_checksum f) f, input)
        | Some (chksum, input) =>
          let f := set_version_checksum version (to_char chksum) f in
          if negb (chksum =? u32 (f_checksum f)) || negb (IsSupportedChecksumType (f_checksum f))
          then Some (StCorruption ("unknown checksum type " +:+ pretty (Z.to_N chksum)), f, input)
          else Some (decode_handles f input)
        end.

(** [read] is the file, without prefetch buffer. *)
Definition ReadFooterFromFile (read : Z -> Z -> Status * bytes) (file_name : string)
    (file_size enforce_table_magic_number : Z) (footer : Footer) : option (Status * Footer) :=
  if file_size <? kMinEncodedLength then
    Some (StCorruption ("file is too short (" +:+ pretty (Z.to_N file_size) +:+ " bytes) to be an sstable: " +:+ file_name), footer)
  else
    let read_offset := if footer_kMaxEncodedLength <? file_size then file_size - footer_kMaxEncodedLength else 0 in
    let '(s, footer_input) := read read_offset footer_kMaxEncodedLength in
    if negb (st_ok s) then Some (s, footer)
    else if zlen footer_input <? kMinEncodedLength then
      Some (StCorruption ("file is too short (" +:+ pretty (Z.to_N file_size) +:+ " bytes) to be an sstable" +:+ file_name), footer)
    else
      '(s, footer, _) ← footer_DecodeFrom footer_input footer;
      if negb (st_ok s) then Some (s, footer)
      else if negb (enforce_table_magic_number =? 0) && negb (enforce_table_magic_number =? f_table_magic_number footer)
      then Some (StCorruption ("Bad table magic number: expected " +:+ pretty (Z.to_N enforce_table_magic_number) +:+
        ", found " +:+ pretty (Z.to_N (f_table_magic_number footer)) +:+ " in " +:+ file_name), footer)
      else Some (StOK, footer).

(** ** Lemmas *)

Definition handle_ok (h : BlockHandle) : Prop := 0 <= h_offset h < 2 ^ 64 /\ 0 <= h_size h < 2 ^ 64.
Definition handle_bytes (h : BlockHandle) : bytes := EncodeVarint64 (h_offset h) ++ EncodeVarint64 (h_size h).

Lemma handle_decoded h rest : handle_ok h -> handle_DecodeFrom (handle_bytes h ++ rest) = (StOK, h, rest).
Proof.
  intros [Ho Hs]. unfold handle_DecodeFrom, handle_bytes. rewrite <- app_assoc, !GetVarint64_encoded by done.
  by destruct h.
Qed.

Lemma handle_bytes_size h : handle_ok h -> zlen (handle_bytes h) <= 20.
Proof.
  intros [Ho Hs]. unfold handle_bytes, zlen. rewrite length_app.
  pose proof (length_varint 9 (h_offset h)). pose proof (length_varint 9 (h_size h)). lia.
Qed.

Lemma decode_handles_ok f m i rest : handle_ok m -> handle_ok i ->
  decode_handles f (handle_bytes m ++ handle_bytes i ++ rest) =
    (StOK, MkFooter (f_version f) (f_checksum f) (f_block_trailer_size f) m i (f_table_magic_number f), []).
Proof. intros Hm Hi. unfold decode_handles. by rewrite !handle_decoded by done. Qed.

Lemma split_magic magic : 0 <= magic < 2 ^ 64 ->
  0 <= Z.land magic 0xffffffff < 2 ^ 32 /\ 0 <= u32 (Z.shiftr magic 32) < 2 ^ 32 /\
  Z.lor (Z.shiftl (u32 (Z.shiftr magic 32)) 32) (Z.land magic 0xffffffff) = magic.
Proof.
  intros Hm. change 0xffffffff with (Z.ones 32). rewrite Z.land_ones, Z.shiftr_div_pow2 by lia.
  assert (0 <= magic / 2 ^ 32 < 2 ^ 32) as Hd by (split; [apply Z.div_pos; lia|apply Z.div_lt_upper_bound; lia]).
  pose proof (Z.mod_pos_bound magic (2 ^ 32) ltac:(lia)). rewrite u32_small by done. split_and!; try lia.
  rewrite Z.lor_comm, lor_high by lia. pose proof (Z.div_mod magic (2 ^ 32) ltac:(lia)). lia.
Qed.

Lemma Fixed32_at (pre post : bytes) v off : off = zlen pre -> 0 <= v < 2 ^ 32 ->
  DecodeFixed32 true (sub (pre ++ le_bytes 4 v ++ post) off 4) = v.
Proof.
  intros -> Hv. rewrite (sub_middle pre (le_bytes 4 v) post) by (unfold zlen; rewrite ?length_le_bytes; lia).
  unfold DecodeFixed32. rewrite take_ge by (by rewrite length_le_bytes). rewrite le_val_bytes. by apply Z.mod_small.
Qed.

(** The bytes of the footer. *)
Definition padded (n : Z) (l : bytes) : bytes := l ++ replicate (Z.to_nat (n - zlen l)) Byte.x00.

Lemma resize_padded (dst l : bytes) n : zlen l <= n ->
  resize (Z.to_nat (zlen dst + n)) Byte.x00 (dst ++ l) = dst ++ padded n l.
Proof.
  intros Hl. rewrite resize_ge by (rewrite length_app; unfold zlen in *; lia). unfold padded. rewrite <- app_assoc.
  do 3 f_equal. rewrite length_app. unfold zlen. lia.
Qed.

Lemma padded_size n l : zlen l <= n -> zlen (padded n l) = n.
Proof. intros Hl. unfold padded. rewrite zlen_app, zlen_replicate; lia. Qed.

Definition magic_bytes (magic : Z) : bytes := le_bytes 4 (Z.land magic 0xffffffff) ++ le_bytes 4 (u32 (Z.shiftr magic 32)).

Definition footer_bytes (f : Footer) : bytes :=
  if IsLegacyFooterFormat (f_table_magic_number f)
  then padded 40 (handle_bytes (metaindex_handle f) ++ handle_bytes (index_handle f)) ++ magic_bytes (f_table_magic_number f)
  else padded 41 ([byte_of (f_checksum f)] ++ handle_bytes (metaindex_handle f) ++ handle_bytes (index_handle f)) ++
    le_bytes 4 (f_version f) ++ magic_bytes (f_table_magic_number f).

Record footer_ok (f : Footer) : Prop := {
  fo_meta : handle_ok (metaindex_handle f);
  fo_index : handle_ok (index_handle f);
  fo_version : 0 <= f_version f < 2 ^ 32;
  fo_checksum : IsSupportedChecksumType (f_checksum f) = true;
  fo_magic : 0 <= f_table_magic_number f < 2 ^ 64;
  fo_legacy : IsLegacyFooterFormat (f_table_magic_number f) = true -> f_version f = 0 /\ f_checksum f = kCRC32c }.

Lemma footer_encoded dst f : footer_ok f -> footer_EncodeTo dst f = dst ++ footer_bytes f.
Proof.
  intros F. pose proof (handle_bytes_size _ (fo_meta _ F)). pose proof (handle_bytes_size _ (fo_index _ F)).
  unfold footer_EncodeTo, footer_bytes, put_magic, magic_bytes, PutFixed32, handle_EncodeTo, PutVarint64Varint64.
  fold (handle_bytes (metaindex_handle f)) (handle_bytes (index_handle f)). destruct (IsLegacyFooterFormat _).
  - rewrite <- !(app_assoc dst). change (2 * handle_kMaxEncodedLength) with 40. rewrite resize_padded by (rewrite zlen_app; lia).
    by rewrite <- !app_assoc.
  - rewrite <- !(app_assoc dst). change (zlen dst + kNewVersionsEncodedLength - 12) with (zlen dst + 53 - 12).
    replace (zlen dst + 53 - 12) with (zlen dst + 41) by lia. rewrite <- (app_assoc [_]).
    rewrite resize_padded by (rewrite !zlen_app; change (zlen [_]) with 1; lia). by rewrite <- !app_assoc.
Qed.

(** The footer as it is found: legacy magic numbers are replaced. *)
Definition footer_found (f : Footer) : Footer :=
  let magic := f_table_magic_number f in
  set_table_magic_number (if IsLegacyFooterFormat magic then UpconvertLegacyFooterFormat magic else magic) f.

Lemma footer_bytes_size f : footer_ok f ->
  zlen (footer_bytes f) = if IsLegacyFooterFormat (f_table_magic_number f) then 48 else 53.
Proof.
  intros F. pose proof (handle_bytes_size _ (fo_meta _ F)). pose proof (handle_bytes_size _ (fo_index _ F)).
  unfold footer_bytes, magic_bytes. destruct (IsLegacyFooterFormat _); rewrite !zlen_app, padded_size;
    try (rewrite !zlen_app; change (zlen [_]) with 1; lia); try (rewrite !zlen_app; lia); unfold zlen; by rewrite ?length_le_bytes.
Qed.

Lemma magic_at (q : bytes) magic : 0 <= magic < 2 ^ 64 -> let input := q ++ magic_bytes magic in
  zlen input = zlen q + 8 /\
  Z.lor (Z.shiftl (DecodeFixed32 true (sub input (zlen input - 8 + 4) 4)) 32) (DecodeFixed32 true (sub input (zlen input - 8) 4)) = magic.
Proof.
  intros Hm. cbv zeta. destruct (split_magic magic Hm) as (Hlo & Hhi & Hlor). unfold magic_bytes.
  assert (forall v, zlen (le_bytes 4 v) = 4) as H4 by (intros v; unfold zlen; by rewrite length_le_bytes).
  assert (zlen (q ++ le_bytes 4 (Z.land magic 4294967295) ++ le_bytes 4 (u32 (Z.shiftr magic 32))) = zlen q + 8) as Hlen
    by (rewrite !zlen_app, !H4; lia).
  split; [done|]. rewrite Hlen. replace (zlen q + 8 - 8) with (zlen q) by lia.
  rewrite (Fixed32_at q _ (Z.land magic 4294967295) (zlen q)) by done.
  pose proof (Fixed32_at (q ++ le_bytes 4 (Z.land magic 4294967295)) [] (u32 (Z.shiftr magic 32)) (zlen q + 4)) as Hf.
  rewrite app_nil_r, <- app_assoc, zlen_app, H4 in Hf. by rewrite Hf.
Qed.

Lemma checksum_char x : IsSupportedChecksumType x = true -> to_char x = x /\ u32 x = x /\ 0 <= x < 128.
Proof.
  unfold IsSupportedChecksumType. change kNoChecksum with 0. change kXXH3 with 4. intros H. assert (0 <= x <= 4) by lia.
  unfold to_char. rewrite u32_small, Z.mod_small by lia. rewrite (proj2 (Z.ltb_lt _ _)) by lia. lia.
Qed.

Lemma one_byte_varint x rest : 0 <= x < 128 -> GetVarint32 (byte_of x :: rest) = Some (x, rest).
Proof.
  intros Hx. pose proof (GetVarint32_encoded x rest ltac:(lia)) as H. unfold EncodeVarint32 in H.
  rewrite (proj2 (Z.ltb_lt x (2 ^ 7))) in H by lia. exact H.
Qed.

Lemma footer_decoded q f f0 : footer_ok f ->
  footer_DecodeFrom (q ++ footer_bytes f) f0 = Some (StOK, footer_found f, []).
Proof.
  intros F. pose proof (footer_bytes_size f F) as Hsize. pose proof (zlen_nonneg q).
  pose proof (handle_bytes_size _ (fo_meta _ F)). pose proof (handle_bytes_size _ (fo_index _ F)).
  unfold footer_DecodeFrom, footer_found. change kMagicNumberLengthByte with 8.
  change kVersion0EncodedLength with 48. change kNewVersionsEncodedLength with 53.
  rewrite zlen_app, (proj2 (Z.ltb_ge _ 8)) by (destruct (IsLegacyFooterFormat _); lia). rewrite <- zlen_app.
  assert (exists q', q ++ footer_bytes f = q' ++ magic_bytes (f_table_magic_number f)) as [q' Hq].
  { unfold footer_bytes. destruct (IsLegacyFooterFormat _); eexists; rewrite !app_assoc; reflexivity. }
  destruct (magic_at q' (f_table_magic_number f) (fo_magic _ F)) as [Hlen Hmagic]. rewrite <- Hq in Hlen, Hmagic. rewrite Hmagic.
  destruct (IsLegacyFooterFormat (f_table_magic_number f)) eqn:L.
  - rewrite zlen_app, Hsize, (proj2 (Z.ltb_ge _ _)) by lia. replace (zlen q + 48 - 48) with (zlen q) by lia.
    unfold zlen. rewrite Nat2Z.id, drop_app_length. unfold footer_bytes, padded. rewrite L, <- !app_assoc, decode_handles_ok by apply F.
    destruct (fo_legacy _ F L) as [Hv Hc]. unfold set_version_checksum, set_table_magic_number.
    cbn [f_version f_checksum f_block_trailer_size f_table_magic_number]. by rewrite Hv, Hc.
  - rewrite (proj2 (Z.ltb_ge (_ - 8) 4)), (proj2 (Z.ltb_ge _ 53)) by (rewrite zlen_app; lia).
    assert (DecodeFixed32 true (sub (q ++ footer_bytes f) (zlen (q ++ footer_bytes f) - 8 - 4) 4) = f_version f) as ->.
    { unfold footer_bytes. rewrite L, (app_assoc q). apply Fixed32_at; [|apply F].
      unfold magic_bytes. rewrite !zlen_app. unfold zlen. rewrite !length_le_bytes. lia. }
    rewrite zlen_app, Hsize. replace (zlen q + 53 - 53) with (zlen q) by lia.
    unfold zlen. rewrite Nat2Z.id, drop_app_length. unfold footer_bytes, padded. rewrite L, <- !app_assoc. cbn [app].
    destruct (checksum_char _ (fo_checksum _ F)) as (Hch & Hu & Hr). rewrite one_byte_varint by done.
    cbn [f_checksum set_version_checksum]. rewrite Hch, Hu, Z.eqb_refl, (fo_checksum _ F). cbn [negb orb].
    by rewrite decode_handles_ok by apply F.
Qed.

(** ** Properties *)

(** A file that can be read: [Read] gives the bytes from the offset on, as many as
    were asked for and are there. *)
Definition reads_file (read : Z -> Z -> Status * bytes) (file : bytes) : Prop :=
  forall off n, 0 <= off <= zlen file -> 0 <= n -> read off n = (StOK, sub file off n).

Lemma sub_suffix {A} (p q : list A) n : zlen q <= n -> sub (p ++ q) (zlen p) n = q.
Proof. intros Hn. unfold sub, zlen in *. rewrite Nat2Z.id, drop_app_length, take_ge by lia. done. Qed.

(** The footer is in what is read of the file. *)
Lemma footer_read (read : Z -> Z -> Status * bytes) (body : bytes) f : footer_ok f ->
  let file := body ++ footer_bytes f in
  reads_file read file ->
  exists q, read (if footer_kMaxEncodedLength <? zlen file then zlen file - footer_kMaxEncodedLength else 0) footer_kMaxEncodedLength
    = (StOK, q ++ footer_bytes f).
Proof.
  intros F file Hread. pose proof (footer_bytes_size f F) as Hs. pose proof (zlen_nonneg body).
  assert (48 <= zlen (footer_bytes f) <= 53) by (destruct (IsLegacyFooterFormat _); lia).
  assert (zlen file = zlen body + zlen (footer_bytes f)) as Hf by apply zlen_app.
  change footer_kMaxEncodedLength with 53. destruct (Z.ltb_spec 53 (zlen file)).
  - set (k := Z.to_nat (zlen file - 53)). exists (drop k body). rewrite Hread by lia. f_equal.
    assert (file = take k body ++ (drop k body ++ footer_bytes f)) as Hsplit by (subst file; by rewrite app_assoc, take_drop).
    assert (zlen (take k body) = zlen file - 53) as Hk by (unfold k; rewrite zlen_take; lia).
    rewrite Hsplit at 1. rewrite <- Hk. apply sub_suffix. unfold k. rewrite zlen_app, zlen_drop; lia.
  - exists body. rewrite Hread by lia. f_equal. apply (sub_suffix [] file). lia.
Qed.

(** C24. The footer of a table file round-trips.  A footer that [EncodeTo] appended to
    any file contents is what [ReadFooterFromFile] finds at the end of the file, in
    the legacy format of 48 bytes and in the new one of 53: the version, the checksum
    type and both handles are those that were written, the size of the block trailer
    is that of the table format, and a legacy magic number is replaced by the one of
    the same table format.  The file may be shorter than the 53 bytes that are read.
    When another magic number is expected the file is refused as corrupted. *)
Theorem footer_round_trip read name (body : bytes) (f f0 : Footer) (enforce : Z) :
  footer_ok f -> reads_file read (footer_EncodeTo body f) ->
  let file := footer_EncodeTo body f in
  (enforce = 0 \/ enforce = f_table_magic_number (footer_found f) ->
    ReadFooterFromFile read name (zlen file) enforce f0 = Some (StOK, footer_found f)) /\
  (enforce <> 0 -> enforce <> f_table_magic_number (footer_found f) ->
    exists msg, ReadFooterFromFile read name (zlen file) enforce f0 = Some (StCorruption msg, footer_found f)).
Proof.
  intros F Hread. cbv zeta. rewrite footer_encoded in * by done.
  destruct (footer_read read body f F Hread) as [q Hq]. pose proof (footer_bytes_size f F) as Hs. pose proof (zlen_nonneg body).
  pose proof (zlen_nonneg q). assert (48 <= zlen (footer_bytes f)) by (destruct (IsLegacyFooterFormat _); lia).
  assert (ReadFooterFromFile read name (zlen (body ++ footer_bytes f)) enforce f0 =
    if negb (enforce =? 0) && negb (enforce =? f_table_magic_number (footer_found f))
    then Some (StCorruption ("Bad table magic number: expected " +:+ pretty (Z.to_N enforce) +:+
        ", found " +:+ pretty (Z.to_N (f_table_magic_number (footer_found f))) +:+ " in " +:+ name), footer_found f)
    else Some (StOK, footer_found f)) as ->.
  { unfold ReadFooterFromFile. change kMinEncodedLength with 48.
    rewrite (proj2 (Z.ltb_ge _ 48)) by (rewrite zlen_app; lia). rewrite Hq. cbn [st_ok negb].
    rewrite (proj2 (Z.ltb_ge _ 48)) by (rewrite zlen_app; lia). by rewrite (footer_decoded q f f0 F). }
  split.
  - intros [-> | ->]; [done|]. by rewrite Z.eqb_refl, andb_false_r.
  - intros Hz%Z.eqb_neq Hm%Z.eqb_neq. rewrite Hz, Hm. eexists. reflexivity.
Qed.

Module FooterExample.
Definition footer : Footer :=
  MkFooter 0 kCRC32c 0 (MkHandle 1000 77) (MkHandle 700 290) kLegacyBlockBasedTableMagicNumber.
Definition body : bytes := [Byte.x00; Byte.x01].
Definition file_read (off n : Z) : Status * bytes := (StOK, sub (footer_EncodeTo body footer) off n).
End FooterExample.

Lemma footer_round_trip_witness :
  ReadFooterFromFile FooterExample.file_read "000012.sst" 50 kBlockBasedTableMagicNumber (new_Footer 0 0) =
    Some (StOK, MkFooter 0 kCRC32c 5 (MkHandle 1000 77) (MkHandle 700 290) kBlockBasedTableMagicNumber).
Proof.
  apply (footer_round_trip FooterExample.file_read "000012.sst" FooterExample.body FooterExample.footer (new_Footer 0 0)
    kBlockBasedTableMagicNumber); [by split; vm_compute|done|by right].
Defined.

(** What an index entry is like that can be stored; delta-encoded handles are those
    of consecutive blocks. *)
Record index_value_ok (have_first_key : bool) (previous_handle : option BlockHandle) (v : IndexValue) : Prop := {
  ix_handle : handle_ok (iv_handle v);
  ix_first : if have_first_key then zlen (first_internal_key v) < 2 ^ 32 else first_internal_key v = [];
  ix_previous : forall p, previous_handle = Some p -> handle_ok p /\
    h_offset (iv_handle v) = u64 (h_offset p + h_size p + kBlockTrailerSize) }.

Lemma i64_range x : - 2 ^ 63 <= i64 x < 2 ^ 63.
Proof.
  unfold i64. pose proof (Z.mod_pos_bound x (2 ^ 64) ltac:(lia)). cbv zeta.
  destruct (Z.ltb_spec (x mod 2 ^ 64) (2 ^ 63)); lia.
Qed.

Lemma u64_i64_diff a b : 0 <= a < 2 ^ 64 -> u64 (b + i64 (a - b)) = a.
Proof.
  intros Ha. unfold i64, u64. cbv zeta. destruct (_ <? _).
  - rewrite Zplus_mod_idemp_r. replace (b + (a - b)) with a by lia. by apply Z.mod_small.
  - replace (b + ((a - b) mod 2 ^ 64 - 2 ^ 64)) with ((b + (a - b) mod 2 ^ 64) + (-1) * 2 ^ 64) by lia.
    rewrite Z_mod_plus_full, Zplus_mod_idemp_r. replace (b + (a - b)) with a by lia. by apply Z.mod_small.
Qed.

(** The values of index blocks round-trip: the handle of a block, with or without
    the first key of the block, in full or as the difference to the handle of the
    block before, is read back, and the input is left just behind it.  A difference of
    sizes of either sign survives the detour over unsigned and signed 64-bit
    integers. *)
Theorem index_value_round_trip have_first_key previous_handle v v0 (dst rest : bytes) :
  index_value_ok have_first_key previous_handle v ->
  exists enc, index_EncodeTo dst have_first_key previous_handle v = dst ++ enc /\
    index_DecodeFrom (enc ++ rest) have_first_key previous_handle v0 = (StOK, v, rest).
Proof.
  intros [Hh Hf Hp]. destruct v as [h k]. cbn [iv_handle first_internal_key] in *.
  assert (exists e1, (match previous_handle with Some p => PutVarsignedint64 dst (i64 (h_size h - h_size p))
      | None => handle_EncodeTo dst h end) = dst ++ e1 /\
    forall r, index_DecodeFrom (e1 ++ r) have_first_key previous_handle v0 =
      if negb have_first_key then (StOK, MkIndexValue h [], r)
      else match GetLengthPrefixedSlice r with
        | None => (StCorruption "bad first key in block info", MkIndexValue h (first_internal_key v0), r)
        | Some (k, rest) => (StOK, MkIndexValue h k, rest) end) as (e1 & He1 & Hd).
  { destruct previous_handle as [p|].
    - destruct (Hp p eq_refl) as [Hpo Hoff]. exists (EncodeVarint64 (i64ToZigzag (i64 (h_size h - h_size p)))).
      split; [done|]. intros r. destruct (zigzag_inv _ (i64_range (h_size h - h_size p))) as [Hr Hz].
      unfold index_DecodeFrom, GetVarsignedint64, GetVarsignedint64Ptr.
      fold (GetVarint64 (EncodeVarint64 (i64ToZigzag (i64 (h_size h - h_size p))) ++ r)).
      rewrite GetVarint64_encoded by done. cbn [mbind option_bind st_ok negb iv_handle first_internal_key].
      rewrite Hz, u64_i64_diff, <- Hoff by apply Hh. by destruct h.
    - exists (handle_bytes h). split; [done|]. intros r. unfold index_DecodeFrom. by rewrite handle_decoded. }
  unfold index_EncodeTo. cbn [iv_handle first_internal_key]. rewrite He1. destruct have_first_key.
  - exists (e1 ++ PutLengthPrefixedSlice [] k). split; [unfold PutLengthPrefixedSlice, PutVarint32; by rewrite <- !app_assoc|].
    rewrite <- app_assoc, Hd, GetLengthPrefixed_encoded by done. done.
  - exists e1. split; [done|]. rewrite Hd, Hf. done.
Qed.

(** A block that is smaller than the one before it. *)
Lemma index_value_round_trip_witness : exists enc,
  index_EncodeTo [] true (Some (MkHandle 0 4096)) (MkIndexValue (MkHandle 4101 900) [Byte.x61]) = enc /\
  index_DecodeFrom enc true (Some (MkHandle 0 4096)) (MkIndexValue NullBlockHandle []) =
    (StOK, MkIndexValue (MkHandle 4101 900) [Byte.x61], []).
Proof.
  destruct (index_value_round_trip true (Some (MkHandle 0 4096)) (MkIndexValue (MkHandle 4101 900) [Byte.x61])
    (MkIndexValue NullBlockHandle []) [] []) as (enc & He & Hd).
  - split; [by vm_compute|by vm_compute|]. by intros p [= <-].
  - exists enc. by rewrite app_nil_r in Hd.
Defined.
