(* ===== verification/MetaBlocks.v ===== *)
(** table/meta_blocks.h, table/meta_blocks.cc with util/kv_map.h,
    include/rocksdb/table_properties.h, table/table_properties.cc and
    table/block_based/reader_common.cc: the metaindex block and the properties block
    of a table file.

    The block fetcher gives the bytes of a block with its trailer; XXH32, XXH64 and
    XXH3 are arguments. *)
From S2P Require Import Prelude Bits Coding IoStatus Crc32c Comparator DbFormat BlockBuilder BlockIter TableFormat.
From stdpp Require Import base numbers list strings pretty.
From Stdlib Require Import ZArith Lia.
Local Open Scope Z_scope.

Definition of_string (x : string) : bytes := String.list_byte_of_string x.

(** ** Sorted maps *)

(** [std::map] ordered by the bytewise comparator; [insert] keeps what is there. *)
Fixpoint map_insert {V} (k : bytes) (v : V) (m : list (bytes * V)) : list (bytes * V) :=
  match m with
  | [] => [(k, v)]
  | (k', v') :: m' =>
    if Slice_compare k k' <? 0 then (k, v) :: m
    else if Slice_compare k k' =? 0 then m
    else (k', v') :: map_insert k v m'
  end.

Fixpoint map_find {V} (k : bytes) (m : list (bytes * V)) : option V :=
  match m with
  | [] => None
  | (k', v') :: m' => if Slice_compare k k' =? 0 then Some v' else map_find k m'
  end.

(** ** The metaindex block *)

Definition kPropertiesBlock : bytes := of_string "rocksdb.properties".
Definition kPropertiesBlockOldName : bytes := of_string "rocksdb.stats".

Record MetaIndexBuilder := MkMetaIndexBuilder {
  meta_block_handles_ : list (bytes * bytes); meta_index_block_ : BlockBuilder }.

(** The default arguments of the constructor of [BlockBuilder]. *)
Definition default_BlockBuilder (block_restart_interval : Z) : BlockBuilder :=
  new_BlockBuilder block_restart_interval true false kDataBlockBinarySearch kDefaultUtilRatio.

Definition new_MetaIndexBuilder : MetaIndexBuilder := MkMetaIndexBuilder [] (default_BlockBuilder 1).

Definition metaindex_Add (key : bytes) (handle : BlockHandle) (b : MetaIndexBuilder) : MetaIndexBuilder :=
  MkMetaIndexBuilder (map_insert key (handle_EncodeTo [] handle) (meta_block_handles_ b)) (meta_index_block_ b).

(** Adds the pairs of a map, in order. *)
Definition add_pairs (m : list (bytes * bytes)) : prog BlockBuilder unit :=
  iterM (fun '(k, v) => builder_Add k v None) m.

Definition metaindex_Finish (b : MetaIndexBuilder) : prog BlockBuilder bytes :=
  add_pairs (meta_block_handles_ b);; builder_Finish.

(** The names of the blocks of a hash index, and the key of a filter block. *)
Definition kHashIndexPrefixesBlock : bytes := of_string "rocksdb.hashindex.prefixes".
Definition kHashIndexPrefixesMetadataBlock : bytes := of_string "rocksdb.hashindex.metadata".

Definition filter_block_key (is_block_based partition_filters : bool) (filter_policy_name : bytes) : bytes :=
  (if is_block_based then of_string "filter."
   else if partition_filters then of_string "partitionedfilter." else of_string "fullfilter.") ++ filter_policy_name.

(** ** Finding meta blocks *)

(** Meta blocks are opened with the bytewise comparator. *)
Definition meta_Seek : bytes -> prog DataBlockIter unit := @data_Seek BytewiseComparator.

(** The handle under the current key, if it is this name. *)
Definition handle_here (name : bytes) (it : BlockIter) : option (option (Status * BlockHandle)) :=
  if it_Valid it && Slice_eq (it_key_ it) name
  then v ← it_value it; let '(s, h, _) := handle_DecodeFrom v in Some (Some (s, h))
  else Some None.

Definition FindOptionalMetaBlock (meta_block_name : bytes) : prog DataBlockIter (Status * BlockHandle) :=
  meta_Seek meta_block_name;;
  it ← gets data_iter;
  let not_found := it ← gets data_iter; mret (it_status_ it, NullBlockHandle) in
  if negb (st_ok (it_status_ it)) then not_found
  else
    r ← the (handle_here meta_block_name it);
    match r with
    | Some r => mret r
    | None =>
      if Slice_eq meta_block_name kPropertiesBlock then
        meta_Seek kPropertiesBlockOldName;;
        it ← gets data_iter;
        if negb (st_ok (it_status_ it)) then not_found
        else
          r ← the (handle_here kPropertiesBlockOldName it);
          match r with Some r => mret r | None => not_found end
      else not_found
    end.

Definition FindMetaBlock (meta_block_name : bytes) : prog DataBlockIter (Status * BlockHandle) :=
  '(s, h) ← FindOptionalMetaBlock meta_block_name;
  if st_ok s && handle_IsNull h
  then mret (StCorruption ("Cannot find the meta block: " +:+ String.string_of_list_byte meta_block_name), h)
  else mret (s, h).

(** ** Table properties *)

(** The fields of [TableProperties] that are numbers, and those that are strings. *)
Inductive number_prop :=
| orig_file_number | data_size | index_size | index_partitions | top_level_index_size
| index_key_is_user_key | index_value_is_delta_encoded | filter_size | raw_key_size | raw_value_size
| num_data_blocks | num_entries | num_filter_entries | num_deletions | num_merge_operands
| num_range_deletions | format_version | fixed_key_len | column_family_id | creation_time
| oldest_key_time | file_creation_time | slow_compression_estimated_data_size
| fast_compression_estimated_data_size.

Inductive string_prop :=
| db_id | db_session_id | db_host_id | column_family_name | filter_policy_name | comparator_name
| merge_operator_name | prefix_extractor_name | property_collectors_names | compression_name
| compression_options.

#[export] Instance number_prop_eq_dec : EqDecision number_prop.
Proof. solve_decision. Defined.
#[export] Instance string_prop_eq_dec : EqDecision string_prop.
Proof. solve_decision. Defined.

(** [TablePropertiesNames] *)
Definition number_name (p : number_prop) : bytes :=
  of_string match p with
  | orig_file_number => "rocksdb.original.file.number"
  | data_size => "rocksdb.data.size"
  | index_size => "rocksdb.index.size"
  | index_partitions => "rocksdb.index.partitions"
  | top_level_index_size => "rocksdb.top-level.index.size"
  | index_key_is_user_key => "rocksdb.index.key.is.user.key"
  | index_value_is_delta_encoded => "rocksdb.index.value.is.delta.encoded"
  | filter_size => "rocksdb.filter.size"
  | raw_key_size => "rocksdb.raw.key.size"
  | raw_value_size => "rocksdb.raw.value.size"
  | num_data_blocks => "rocksdb.num.data.blocks"
  | num_entries => "rocksdb.num.entries"
  | num_filter_entries => "rocksdb.num.filter_entries"
  | num_deletions => "rocksdb.deleted.keys"
  | num_merge_operands => "rocksdb.merge.operands"
  | num_range_deletions => "rocksdb.num.range-deletions"
  | format_version => "rocksdb.format.version"
  | fixed_key_len => "rocksdb.fixed.key.length"
  | column_family_id => "rocksdb.column.family.id"
  | creation_time => "rocksdb.creation.time"
  | oldest_key_time => "rocksdb.oldest.key.time"
  | file_creation_time => "rocksdb.file.creation.time"
  | slow_compression_estimated_data_size => "rocksdb.sample_for_compression.slow.data.size"
  | fast_compression_estimated_data_size => "rocksdb.sample_for_compression.fast.data.size"
  end.

Definition string_name (p : string_prop) : bytes :=
  of_string match p with
  | db_id => "rocksdb.creating.db.identity"
  | db_session_id => "rocksdb.creating.session.identity"
  | db_host_id => "rocksdb.creating.host.identity"
  | column_family_name => "rocksdb.column.family.name"
  | filter_policy_name => "rocksdb.filter.policy"
  | comparator_name => "rocksdb.comparator"
  | merge_operator_name => "rocksdb.merge.operator"
  | prefix_extractor_name => "rocksdb.prefix.extractor.name"
  | property_collectors_names => "rocksdb.property.collectors"
  | compression_name => "rocksdb.compression"
  | compression_options => "rocksdb.compression_options"
  end.

Record TableProperties := MkTableProperties {
  numbers : number_prop -> Z; strings : string_prop -> bytes;
  user_collected_properties : list (bytes * bytes); properties_offsets : list (bytes * Z) }.

Definition kUnknownColumnFamily : Z := 2 ^ 31 - 1.
Definition new_TableProperties : TableProperties :=
  MkTableProperties (fun p => match p with column_family_id => kUnknownColumnFamily | _ => 0 end)
    (fun _ => []) [] [].

(** *** Writing *)

Record PropertyBlockBuilder := MkPropertyBlockBuilder {
  props_ : list (bytes * bytes); properties_block_ : BlockBuilder }.

Definition new_PropertyBlockBuilder : PropertyBlockBuilder :=
  MkPropertyBlockBuilder [] (default_BlockBuilder (2 ^ 31 - 1)).

Definition prop_Add (name val : bytes) (b : PropertyBlockBuilder) : PropertyBlockBuilder :=
  MkPropertyBlockBuilder (map_insert name val (props_ b)) (properties_block_ b).
Definition prop_Add_number (name : bytes) (val : Z) (b : PropertyBlockBuilder) : PropertyBlockBuilder :=
  prop_Add name (PutVarint64 [] val) b.
Definition prop_Add_user (user : list (bytes * bytes)) (b : PropertyBlockBuilder) : PropertyBlockBuilder :=
  foldl (fun b '(k, v) => prop_Add k v b) b user.

(** The steps of [AddTableProperty]. *)
Definition add_number (props : TableProperties) (p : number_prop) (b : PropertyBlockBuilder) : PropertyBlockBuilder :=
  prop_Add_number (number_name p) (numbers props p) b.
Definition add_number_if (c : bool) (props : TableProperties) (p : number_prop) (b : PropertyBlockBuilder) :
    PropertyBlockBuilder :=
  if c then add_number props p b else b.
Definition add_string (props : TableProperties) (p : string_prop) (b : PropertyBlockBuilder) : PropertyBlockBuilder :=
  if negb (zlen (strings props p) =? 0) then prop_Add (string_name p) (strings props p) b else b.

Definition AddTableProperty (props : TableProperties) (b : PropertyBlockBuilder) : PropertyBlockBuilder :=
  let num := add_number props in
  let num_if c := add_number_if c props in
  let str := add_string props in
  let b := num index_size (num data_size (num raw_value_size (num raw_key_size (num orig_file_number b)))) in
  let partitioned := negb (numbers props index_partitions =? 0) in
  let b := num_if partitioned top_level_index_size (num_if partitioned index_partitions b) in
  let b := num index_value_is_delta_encoded (num index_key_is_user_key b) in
  let b := num num_deletions (num num_filter_entries (num num_entries b)) in
  let b := num num_range_deletions (num num_merge_operands b) in
  let b := num format_version (num filter_size (num num_data_blocks b)) in
  let b := num column_family_id (num fixed_key_len b) in
  let b := num oldest_key_time (num creation_time b) in
  let b := num_if (0 <? numbers props file_creation_time) file_creation_time b in
  let b := num_if (0 <? numbers props slow_compression_estimated_data_size) slow_compression_estimated_data_size b in
  let b := num_if (0 <? numbers props fast_compression_estimated_data_size) fast_compression_estimated_data_size b in
  let b := str db_host_id (str db_session_id (str db_id b)) in
  let b := str comparator_name (str filter_policy_name b) in
  let b := str prefix_extractor_name (str merge_operator_name b) in
  let b := str column_family_name (str property_collectors_names b) in
  str compression_options (str compression_name b).

Definition properties_Finish (b : PropertyBlockBuilder) : prog BlockBuilder bytes :=
  add_pairs (props_ b);; builder_Finish.

(** *** Checksums of blocks *)

Section Checksums.
Context (XXH32 XXH64 XXH3_64bits : bytes -> Z).

Definition Lower32of64 (v : Z) : Z := u32 v.

Definition ModifyChecksumForLastByte (checksum last_byte : Z) : Z :=
  let kRandomPrime := 0x6b9083d9 in Z.lxor checksum (u32 (last_byte * kRandomPrime)).

Definition ComputeBuiltinChecksum (type : Z) (data : bytes) : Z :=
  if type =? kCRC32c then Mask (Value data)
  else if type =? kxxHash then XXH32 data
  else if type =? kxxHash64 then Lower32of64 (XXH64 data)
  else if type =? kXXH3 then
    match last data with
    | None => 0
    | Some b =>
      ModifyChecksumForLastByte (Lower32of64 (XXH3_64bits (take (length data - 1) data))) (byte_val b)
    end
  else 0.

(** The checksum of [data] with [last_byte] behind it. The streams of XXH32 and
    XXH64 hash the concatenation of what they are fed. *)
Definition ComputeBuiltinChecksumWithLastByte (type : Z) (data : bytes) (last_byte : Byte.byte) : Z :=
  if type =? kCRC32c then Mask (Extend (Value data) [last_byte])
  else if type =? kxxHash then XXH32 (data ++ [last_byte])
  else if type =? kxxHash64 then Lower32of64 (XXH64 (data ++ [last_byte]))
  else if type =? kXXH3 then ModifyChecksumForLastByte (Lower32of64 (XXH3_64bits data)) (byte_val last_byte)
  else 0.

Definition kNoCompression : Byte.byte := Byte.x00.

(** What [BlockBasedTableBuilder::WriteRawBlock] appends to the file: the block, its
    compression type and the checksum of both. *)
Definition raw_block (checksum : Z) (block_contents : bytes) (type : Byte.byte) : bytes :=
  let trailer := type :: EncodeFixed32 true (ComputeBuiltinChecksumWithLastByte checksum block_contents type) in
  block_contents ++ trailer.

(** Behind the block are the compression type, which is covered by the checksum, and
    the checksum. *)
Definition VerifyBlockChecksum (type : Z) (data : bytes) (block_size : Z) (file_name : string) (offset : Z) : option Status :=
  let len := block_size + 1 in
  if negb (in_block data len 4) then None
  else
    let stored := DecodeFixed32 true (sub data len 4) in
    let computed := ComputeBuiltinChecksum type (take (Z.to_nat len) data) in
    if stored =? computed then Some StOK
    else
      let '(stored, computed) := if type =? kCRC32c then (Unmask stored, Unmask computed) else (stored, computed) in
      Some (StCorruption ("block checksum mismatch: stored = " +:+ pretty (Z.to_N stored) +:+
        ", computed = " +:+ pretty (Z.to_N computed) +:+ ", type = " +:+ pretty (Z.to_N type) +:+
        "  in " +:+ file_name +:+ " offset " +:+ pretty (Z.to_N offset) +:+ " size " +:+ pretty (Z.to_N block_size))).

(** *** Reading *)

(** The keys of [predefined_uint64_properties], and the chain of comparisons behind
    it. *)
Definition all_numbers : list number_prop :=
  [orig_file_number; data_size; index_size; index_partitions; top_level_index_size; index_key_is_user_key;
   index_value_is_delta_encoded; filter_size; raw_key_size; raw_value_size; num_data_blocks; num_entries;
   num_filter_entries; num_deletions; num_merge_operands; num_range_deletions; format_version; fixed_key_len;
   column_family_id; creation_time; oldest_key_time; file_creation_time; slow_compression_estimated_data_size;
   fast_compression_estimated_data_size].
Definition all_strings : list string_prop :=
  [db_id; db_session_id; db_host_id; filter_policy_name; column_family_name; comparator_name;
   merge_operator_name; prefix_extractor_name; property_collectors_names; compression_name; compression_options].
Definition number_of (key : bytes) : option number_prop := snd <$> list_find (fun p => Slice_eq key (number_name p) = true) all_numbers.
Definition string_of (key : bytes) : option string_prop := snd <$> list_find (fun p => Slice_eq key (string_name p) = true) all_strings.

Definition set_number (p : number_prop) (v : Z) (tp : TableProperties) : TableProperties :=
  MkTableProperties (fun q => if decide (q = p) then v else numbers tp q) (strings tp)
    (user_collected_properties tp) (properties_offsets tp).
Definition set_string (p : string_prop) (v : bytes) (tp : TableProperties) : TableProperties :=
  MkTableProperties (numbers tp) (fun q => if decide (q = p) then v else strings tp q)
    (user_collected_properties tp) (properties_offsets tp).
Definition add_user (k v : bytes) (tp : TableProperties) : TableProperties :=
  MkTableProperties (numbers tp) (strings tp) (map_insert k v (user_collected_properties tp)) (properties_offsets tp).
Definition add_offset (k : bytes) (v : Z) (tp : TableProperties) : TableProperties :=
  MkTableProperties (numbers tp) (strings tp) (user_collected_properties tp) (map_insert k v (properties_offsets tp)).

(** What the body of the loop does with one property; a malformed number is
    skipped. *)
Definition read_property (key raw_val : bytes) (offset : Z) (tp : TableProperties) : TableProperties :=
  let tp := add_offset key offset tp in
  match number_of key with
  | Some p =>
    let tp := if decide (p = num_deletions \/ p = num_merge_operands) then add_user key raw_val tp else tp in
    match GetVarint64 raw_val with None => tp | Some (val, _) => set_number p val tp end
  | None =>
    match string_of key with Some p => set_string p raw_val tp | None => add_user key raw_val tp end
  end.

Definition ValueOffset (it : BlockIter) : option Z := '(o, _) ← it_value_ it; Some (u32 o).

(** The loop over the block; each entry has at least one byte. *)
Fixpoint properties_loop (fuel : nat) (handle_offset : Z) (last_key : bytes) (tp : TableProperties) :
    prog DataBlockIter (Status * TableProperties) :=
  match fuel with
  | O => hang
  | S fuel' =>
    it ← gets data_iter;
    if negb (it_Valid it) then mret (StOK, tp)
    else if negb (st_ok (it_status_ it)) then mret (it_status_ it, tp)
    else
      let key := it_key_ it in
      if negb (zlen last_key =? 0) && (Slice_compare key last_key <=? 0)
      then mret (StCorruption "properties unsorted", tp)
      else
        raw_val ← the (it_value it); o ← the (ValueOffset it);
        NextOrReport;;
        properties_loop fuel' handle_offset key (read_property key raw_val (u64 (handle_offset + o)) tp)
  end.

Definition kGlobalSeqno : bytes := of_string "rocksdb.external_sst_file.global_seqno".

(** The checksum of the block, and of the block with the global sequence number set
    to zero if the first does not match. *)
Definition verify_properties (footer : Footer) (raw : bytes) (handle : BlockHandle) (file_name : string)
    (tp : TableProperties) : option Status :=
  let verify data := VerifyBlockChecksum (f_checksum footer) data (h_size handle) file_name (h_offset handle) in
  s ← verify raw;
  match s with
  | StCorruption _ =>
    match map_find kGlobalSeqno (properties_offsets tp) with
    | None => Some s
    | Some o =>
      let tmp_buf := take (Z.to_nat (h_size handle + f_block_trailer_size footer)) raw in
      let at_ := u64 (o - h_offset handle) in
      if negb (in_block tmp_buf at_ 8) then None
      else verify (take (Z.to_nat at_) tmp_buf ++ EncodeFixed64 true 0 ++ drop (Z.to_nat (at_ + 8)) tmp_buf)
    end
  | _ => Some s
  end.

(** [raw] is what the block fetcher read: the block and its trailer. *)
Definition ReadTablePropertiesHelper (footer : Footer) (raw : bytes) (handle : BlockHandle) (file_name : string) :
    prog DataBlockIter (Status * option TableProperties) :=
  let contents := take (Z.to_nat (h_size handle)) raw in
  modify (fun it => NewDataIterator (new_Block contents) kDisableGlobalSequenceNumber (Some it));;
  SeekToFirstOrReport;;
  '(s, tp) ← properties_loop (S (length contents)) (h_offset handle) [] new_TableProperties;
  s ← (if st_ok s && (0 <? f_block_trailer_size footer)
       then the (verify_properties footer raw handle file_name tp) else mret s);
  mret (s, if st_ok s then Some tp else None).
End Checksums.
