(* ===== verification/MetaThms.v ===== *)
(** The metaindex block and the properties block: what is written is found and read
    back.

    The maps of the metaindex and properties blocks, and the lemmas on reading these
    blocks in order. *)
From S2P Require Import Prelude Bits Coding Crc32c IoStatus Comparator DbFormat BlockBuilder BlockIter BlockSpec BlockSeek BlockCursor BlockBuild BlockThms BlockSafe TableFormat MetaBlocks.
From stdpp Require Import base numbers list strings sorting.
From Stdlib Require Import ZArith Lia SpecFloat.
Local Open Scope Z_scope.

Lemma Slice_compare_eq a b : Slice_compare a b = 0 <-> a = b.
Proof. rewrite Slice_compare_lex. split; [apply lex_eq|intros ->; apply lex_refl]. Qed.

Lemma bytes_eq_cases (a b : bytes) : a = b \/ a <> b.
Proof. destruct (Z.eq_dec (Slice_compare a b) 0) as [H%Slice_compare_eq|H]; [by left|]. right. intros ->. by rewrite (proj2 (Slice_compare_eq b b) eq_refl) in H. Qed.

(** ** Sorted maps *)

Section Maps.
Context {V : Type}.
Implicit Types m : list (bytes * V).

Definition before (a b : bytes * V) : Prop := Slice_compare a.1 b.1 < 0.
Definition sorted_map m : Prop := StronglySorted before m.

Lemma compare_gt a b : 0 < Slice_compare a b <-> Slice_compare b a < 0.
Proof. rewrite !Slice_compare_lex. pose proof (lex_opp a b). lia. Qed.
Lemma compare_trans a b c : Slice_compare a b < 0 -> Slice_compare b c < 0 -> Slice_compare a c < 0.
Proof.
  rewrite !Slice_compare_lex. intros Hab Hbc. pose proof (lex_opp a b). pose proof (lex_opp b c).
  pose proof (lex_trans a b c ltac:(lia) ltac:(lia)). destruct (Z.eq_dec (lex a c) 0) as [->%lex_eq|]; lia.
Qed.

Lemma Forall_map_insert (P : bytes * V -> Prop) k v m : P (k, v) -> Forall P m -> Forall P (map_insert k v m).
Proof.
  intros Hp. induction 1 as [|[k' v'] m Hx Hm IH]; [by repeat constructor|]. cbn [map_insert].
  repeat case_match; repeat constructor; done.
Qed.

Lemma sorted_insert k v m : sorted_map m -> sorted_map (map_insert k v m).
Proof.
  unfold sorted_map. induction 1 as [|[k' v'] m Hs IH Hall]; [by repeat constructor|]. cbn [map_insert].
  destruct (Z.ltb_spec (Slice_compare k k') 0) as [Hlt|Hge].
  - constructor; [by constructor|]. constructor; [done|]. eapply Forall_impl; [exact Hall|]. intros [k2 v2] H2. by eapply compare_trans.
  - destruct (Z.eqb_spec (Slice_compare k k') 0) as [Heq|Hne]; [by constructor|]. constructor; [done|].
    apply Forall_map_insert; [|done]. apply compare_gt. cbn. lia.
Qed.

Lemma find_below k m : Forall (fun kv => Slice_compare k kv.1 < 0) m -> map_find k m = None.
Proof.
  induction 1 as [|[k' v'] m Hx Hm IH]; [done|]. cbn [map_find]. cbn in Hx. by rewrite (proj2 (Z.eqb_neq _ 0)) by lia.
Qed.

(** [insert] keeps what is there. *)
Lemma find_insert_same k v m : sorted_map m -> map_find k (map_insert k v m) = Some (default v (map_find k m)).
Proof.
  unfold sorted_map. induction 1 as [|[k' v'] m Hs IH Hall]; cbn [map_insert map_find].
  - by rewrite (proj2 (Z.eqb_eq _ 0)) by (by apply Slice_compare_eq).
  - destruct (Z.ltb_spec (Slice_compare k k') 0) as [Hlt|Hge].
    + cbn [map_find]. rewrite (proj2 (Z.eqb_eq _ 0)), (proj2 (Z.eqb_neq _ 0)) by (lia || by apply Slice_compare_eq).
      rewrite (find_below k m); [done|]. eapply Forall_impl; [exact Hall|]. intros [k2 v2] H2. by eapply compare_trans.
    + destruct (Z.eqb_spec (Slice_compare k k') 0) as [Heq|Hne]; cbn [map_find].
      * by rewrite Heq.
      * by rewrite (proj2 (Z.eqb_neq _ 0) Hne).
Qed.

Lemma find_insert_other k k0 v m : k <> k0 -> map_find k (map_insert k0 v m) = map_find k m.
Proof.
  intros Hne. assert ((Slice_compare k k0 =? 0) = false) as H0 by (apply Z.eqb_neq; by rewrite Slice_compare_eq).
  induction m as [|[k' v'] m IH]; cbn [map_insert map_find]; [by rewrite H0|].
  destruct (_ <? 0); [cbn [map_find]; by rewrite H0|]. destruct (Slice_compare k0 k' =? 0); [done|]. cbn [map_find].
  by rewrite IH.
Qed.

Lemma find_lookup k m : forall v, map_find k m = Some v -> exists i, m !! i = Some (k, v).
Proof.
  induction m as [|[k' v'] m IH]; intros v; [done|]. cbn [map_find].
  destruct (Z.eqb_spec (Slice_compare k k') 0) as [->%Slice_compare_eq|_].
  - intros [= ->]. by exists 0%nat.
  - intros H. destruct (IH v H) as [i Hi]. by exists (S i).
Qed.

Lemma sorted_lookup m i j a b : sorted_map m -> m !! i = Some a -> m !! j = Some b -> (i < j)%nat -> before a b.
Proof.
  intros Hs. revert i j. induction Hs as [|x m Hs IH Hall]; intros [|i] [|j] Hi Hj Hl; try done; try lia.
  - injection Hi as ->. by apply (Forall_lookup_1 _ _ _ _ Hall Hj).
  - apply (IH i j); [done|done|lia].
Qed.

Lemma find_None k m : map_find k m = None -> forall i v, m !! i <> Some (k, v).
Proof.
  induction m as [|[k' v'] m IH]; intros Hn i v; [by rewrite lookup_nil|]. cbn [map_find] in Hn.
  destruct (Z.eqb_spec (Slice_compare k k') 0) as [|Hne]; [done|]. destruct i as [|i]; [|by apply IH].
  intros [= -> _]. by rewrite (proj2 (Slice_compare_eq k k) eq_refl) in Hne.
Qed.
End Maps.

(** ** Blocks made of a map *)

Lemma add_pairs_args m s : add_pairs m s = builder_Adds (add_args m) s.
Proof.
  unfold add_pairs, builder_Adds, add_args. revert s. induction m as [|[k v] m IH]; intros s; [done|]. cbn.
  unfold mbind, prog_bind. destruct (builder_Add k v None s); [apply IH|done..].
Qed.

(** A meta block, opened. *)
Record opened (m : list (bytes * bytes)) (c : bytes) (es : list item) (rs : list nat) : Prop := {
  op_entries : Forall2 same_entry es m;
  op_layout : layout false c (zlen (stored false es)) es rs;
  op_iter : fin (data := c) (restarts := zlen (stored false es)) (es := es) (rs := rs) kDisableGlobalSequenceNumber
    (NewDataIterator (new_Block c) kDisableGlobalSequenceNumber None) }.

Lemma meta_block_opened interval m : 1 <= interval -> block_room m < 2 ^ 32 ->
  exists c b' es rs, (add_pairs m;; builder_Finish) (default_BlockBuilder interval) = Ret c b' /\ opened m c es rs /\
    (interval = 1 -> rs = seq 0 (Nat.max 1 (length es))).
Proof.
  intros Hi Hroom. assert (clean (default_BlockBuilder interval)) as C by (split; [by apply built_new|done|done]).
  destruct (block_built _ m C Hroom) as (es & rs & b & Hadd & B & Hs & Hvd & Hp & Hval & Hint); [done|].
  rewrite <- Hvd in Hp. destruct (Finish_ok b es rs B Hp) as (table & b' & Hfin & _ & _ & _ & Ht & _).
  { intros Hv. by specialize (Hval Hv). }
  rewrite Hvd in *. destruct (table_of_ok b es rs table Ht Hp) as [Hc Htab].
  exists (contents_of false es rs table), b', es, rs. split.
  - unfold mbind, prog_bind. by rewrite add_pairs_args, Hadd.
  - split; [split; [done|by apply layout_found; [apply B|]|]; by apply NewDataIterator_ok; [apply B|..]|].
    intros ->. by apply (bu_dense _ _ _ B).
Qed.

(** ** Searching the metaindex block *)

Lemma shown_disabled k : shown kDisableGlobalSequenceNumber k = k.
Proof. unfold shown. by rewrite Z.eqb_refl. Qed.

(** What [FindMetaBlock] answers.  The properties block has an old name too. *)
Definition meta_answer (name : bytes) (h : option BlockHandle) : Status * BlockHandle :=
  match h with
  | Some h => (StOK, h)
  | None => (StCorruption ("Cannot find the meta block: " +:+ String.string_of_list_byte name), NullBlockHandle)
  end.
Definition with_old_name (handle : bytes -> option BlockHandle) (name : bytes) : option BlockHandle :=
  match handle name with
  | Some h => Some h
  | None => if Slice_eq name kPropertiesBlock then handle kPropertiesBlockOldName else None
  end.

Section Find.
Context (m : list (bytes * bytes)) (c : bytes) (es : list item) (rs : list nat) (O : opened m c es rs).
Context (Hkeys : Forall (fun kv => internal kv.1) m).

Abbreviation pos := (at_pos (here (data := c) (restarts := zlen (stored false es)) (es := es) (rs := rs) kDisableGlobalSequenceNumber)
  (fin (data := c) (restarts := zlen (stored false es)) (es := es) (rs := rs) kDisableGlobalSequenceNumber)).

(** What is seen where a name is sought, if [found] says what is to be found. *)
Definition seen (found : bytes -> option bytes) (name : bytes) (s : DataBlockIter) : Prop :=
  it_status_ (data_iter s) = StOK /\ (exists p, pos s p) /\
  match found name with
  | Some v => observe s = Some (name, Some v)
  | None => forall v, observe s <> Some (name, v)
  end.

Section Sought.
Context (found : bytes -> option bytes) (Hseek : forall name s p, internal name -> pos s p -> exists s', meta_Seek name s = Ret tt s' /\ seen found name s').

Lemma handle_here_seen name s : seen found name s -> handle_here name (data_iter s) =
  Some (v ← found name; let '(st, h, _) := handle_DecodeFrom v in Some (st, h)).
Proof.
  intros (_ & _ & Hs). unfold handle_here. unfold observe in Hs. destruct (it_Valid (data_iter s)) eqn:Hv; cbn [andb].
  - destruct (Slice_eq _ name) eqn:E.
    + apply Slice_eq_spec in E. destruct (found name) as [v|].
      * injection Hs as _ Hval. rewrite Hval. cbn. by destruct (handle_DecodeFrom v) as [[??]?].
      * by destruct (Hs (it_value (data_iter s))); rewrite E.
    + destruct (found name) as [v|]; [|done]. injection Hs as Hk _. by rewrite (proj2 (Slice_eq_spec _ _) Hk) in E.
  - by destruct (found name).
Qed.

(** The handle that is found: the one under the name, or under the old name of the
    properties block. *)
Definition handle_under (name : bytes) : option (Status * BlockHandle) :=
  v ← found name; let '(st, h, _) := handle_DecodeFrom v in Some (st, h).
Definition handle_sought (name : bytes) : option (Status * BlockHandle) :=
  match handle_under name with
  | Some r => Some r
  | None => if Slice_eq name kPropertiesBlock then handle_under kPropertiesBlockOldName else None
  end.

Lemma FindOptional_ok name s p : internal name -> pos s p ->
  exists s', FindOptionalMetaBlock name s = Ret (default (StOK, NullBlockHandle) (handle_sought name)) s'.
Proof.
  intros Hn P. unfold FindOptionalMetaBlock, handle_sought. destruct (Hseek name s p Hn P) as (s1 & H1 & S1).
  erewrite bind_Ret by exact H1. rewrite bind_gets. cbv beta. rewrite (proj1 S1). cbn [st_ok negb].
  rewrite (handle_here_seen name s1 S1). fold (handle_under name). erewrite bind_Ret by reflexivity.
  destruct (handle_under name) as [r|]; [by exists s1|]. destruct (Slice_eq name kPropertiesBlock); [|eexists; rewrite bind_gets; cbv beta; by rewrite (proj1 S1)].
  destruct (proj1 (proj2 S1)) as [p1 P1]. destruct (Hseek kPropertiesBlockOldName s1 p1) as (s2 & H2 & S2); [by vm_compute|done|].
  erewrite bind_Ret by exact H2. rewrite bind_gets. cbv beta. rewrite (proj1 S2). cbn [st_ok negb].
  rewrite (handle_here_seen _ s2 S2). fold (handle_under kPropertiesBlockOldName). erewrite bind_Ret by reflexivity.
  destruct (handle_under kPropertiesBlockOldName) as [r|]; [by exists s2|]. eexists. rewrite bind_gets. cbv beta. by rewrite (proj1 S2).
Qed.

(** The answer, if what is found are handles that point somewhere. *)
Context (handle : bytes -> option BlockHandle) (Hfound : forall name, found name = handle_EncodeTo [] <$> handle name).
Context (Hhandle : forall name h, handle name = Some h -> handle_ok h /\ handle_IsNull h = false).

Lemma under_handle name : handle_under name = (fun h => (StOK, h)) <$> handle name.
Proof.
  unfold handle_under. rewrite Hfound. destruct (handle name) as [h|] eqn:E; [|done]. destruct (Hhandle name h E) as [Ho _].
  cbn [fmap option_fmap option_map mbind option_bind]. pose proof (handle_decoded h [] Ho) as Hd. rewrite app_nil_r in Hd.
  change (handle_EncodeTo [] h) with (handle_bytes h). by rewrite Hd.
Qed.

Lemma FindMeta_ok name s p : internal name -> pos s p ->
  exists s', FindMetaBlock name s = Ret (meta_answer name (with_old_name handle name)) s'.
Proof.
  intros Hn P. destruct (FindOptional_ok name s p Hn P) as (s' & Hs). exists s'. unfold FindMetaBlock. erewrite bind_Ret by exact Hs.
  unfold handle_sought, with_old_name. rewrite !under_handle.
  destruct (handle name) as [h|] eqn:E; cbn [fmap option_fmap option_map].
  - change (default _ (Some ?x)) with x. cbv iota. by rewrite (proj2 (Hhandle _ _ E)).
  - destruct (Slice_eq name kPropertiesBlock); [|done]. destruct (handle kPropertiesBlockOldName) as [h|] eqn:E2; [|done].
    cbn [fmap option_fmap option_map]. change (default _ (Some ?x)) with x. cbv iota. by rewrite (proj2 (Hhandle _ _ E2)).
Qed.
End Sought.

Section Ascending.
Context (Hasc : @ascending BytewiseComparator kDisableGlobalSequenceNumber m).

Lemma first_at name i kv : m !! i = Some kv -> kv.1 = name ->
  prefix_count (fun k => @icmp BytewiseComparator k name <? 0) ((fun kv => shown kDisableGlobalSequenceNumber kv.1) <$> m) = i.
Proof.
  intros Hi <-. assert (forall j a, m !! j = Some a -> (j < i)%nat -> @icmp BytewiseComparator a.1 kv.1 < 0) as Hb.
  { intros j a Hj Hl. by apply (Hasc j i a kv). }
  clear Hkeys Hasc O. revert i Hi Hb. induction m as [|x l IH]; intros [|i] Hi Hb; try done.
  - injection Hi as ->. cbn. unfold shown. cbn. by rewrite (cmp_refl (cmp := @icmp BytewiseComparator)).
  - cbn [fmap list_fmap prefix_count]. rewrite (proj2 (Z.ltb_lt _ _)) by (apply (Hb 0%nat x); [done|lia]). f_equal. apply IH; [done|].
    intros j a Hj Hl. apply (Hb (S j) a); [done|lia].
Qed.

Lemma seek_seen name s p : internal name -> pos s p -> exists s', meta_Seek name s = Ret tt s' /\ seen (fun n => map_find n m) name s'.
Proof.
  intros Hn P. set (keys := (fun e => shown kDisableGlobalSequenceNumber (i_key e)) <$> es).
  destruct (cursor_step (user_comparator := BytewiseComparator) keys (OpSeek name) p) as [p'|] eqn:E; [|done].
  destruct (iter_step (user_comparator := BytewiseComparator) (op_layout _ _ _ _ O) kDisableGlobalSequenceNumber (or_introl eq_refl)
    (entries_internal es m (op_entries _ _ _ _ O) Hkeys) (entries_ascending es m _ (op_entries _ _ _ _ O) Hasc)
    (OpSeek name) s p p' P Hn E) as (s' & Hs' & P' & O').
  exists s'. split; [exact Hs'|]. split; [apply (fr_status _ _ _ (proj1 (pos_sound _ s' p' P')))|]. split; [by exists p'|].
  rewrite O'. cbn [cursor_step] in E. injection E as <-. subst keys. rewrite (same_keys es m _ (op_entries _ _ _ _ O)). unfold view_at.
  rewrite length_fmap. destruct (map_find name m) as [v|] eqn:Hf.
  - destruct (find_lookup name m v Hf) as [i Hi]. rewrite (first_at name i (name, v) Hi eq_refl).
    rewrite (proj2 (Nat.ltb_lt _ _) (lookup_lt_Some _ _ _ Hi)). cbn. rewrite (same_entry_lookup es m i (op_entries _ _ _ _ O)) in Hi.
    destruct (es !! i) as [e|]; [|done]. cbn in Hi |- *. injection Hi as Hk Hv. by rewrite shown_disabled, Hk, Hv.
  - intros v Hv. set (n := prefix_count _ _) in Hv. destruct (n <? length m)%nat; [|done]. cbn in Hv.
    pose proof (same_entry_lookup es m n (op_entries _ _ _ _ O)) as Hl. destruct (es !! n) as [e|]; [|done]. cbn in Hl, Hv.
    injection Hv as Hname _. rewrite shown_disabled in Hname. rewrite Hname in Hl. by destruct (find_None name m Hf n (i_value e)).
Qed.

End Ascending.
End Find.

(** ** Searching names in any order *)

(** The binary search by a comparison of the entry at an index with the target: the
    index it ends with, and whether the entry there is equal to the target. *)
Fixpoint probes (cmp : Z -> Z) (fuel : nat) (left right : Z) : Z * bool :=
  match fuel with
  | O => (left, false)
  | S fuel =>
    if left =? right then (left, false) else
    let mid := left + (right - left + 1) / 2 in
    if cmp mid <? 0 then probes cmp fuel mid right
    else if 0 <? cmp mid then probes cmp fuel left (mid - 1)
    else (mid, true)
  end.

(** Where the search among [n] entries ends. *)
Definition landing (cmp : Z -> Z) (n : Z) : nat :=
  let '(l, equal) := probes cmp 64 (-1) (n - 1) in Z.to_nat (if equal then l else l + 1).

Section AnyOrder.
#[local] Existing Instance BytewiseComparator.
Context {data : bytes} {restarts : Z} {es : list item} {rs : list nat}.
Context (LO : layout false data restarts es rs) (Hdense : rs = seq 0 (length es)).
Context (Hint : forall i e, es !! i = Some e -> internal (i_key e)).
Context (target : bytes) (Htarget : internal target).
Abbreviation g := kDisableGlobalSequenceNumber.
Abbreviation framed := (frame (data := data) (restarts := restarts) (rs := rs) false g).
Abbreviation pos := (at_pos (here (data := data) (restarts := restarts) (es := es) (rs := rs) g)
  (fin (data := data) (restarts := restarts) (es := es) (rs := rs) g)).
Abbreviation tcmp := (@kcmp g BytewiseComparator target).

Definition cmp_at (j : Z) : Z := from_option (fun e => tcmp (i_key e)) 0 (es !! Z.to_nat j).

Lemma dense_entry j : 0 <= j < zlen es ->
  exists e, es !! Z.to_nat j = Some e /\ rs !! Z.to_nat j = Some (Z.to_nat j) /\ i_shared e = 0 /\ cmp_at j = tcmp (i_key e).
Proof.
  intros Hj. destruct (lookup_lt_is_Some_2 es (Z.to_nat j)) as [e He]; [unfold zlen in Hj; lia|]. exists e.
  assert (rs !! Z.to_nat j = Some (Z.to_nat j)) as Hr by (rewrite Hdense, lookup_seq; unfold zlen in Hj; lia).
  split; [done|]. split; [done|]. split; [by apply (lo_restart _ _ _ _ _ LO _ _ _ Hr He)|]. unfold cmp_at. by rewrite He.
Qed.

Lemma dense_size : zlen rs = zlen es.
Proof. by rewrite Hdense; unfold zlen; rewrite length_seq. Qed.

Lemma probe_loop fuel it left right : framed it -> -1 <= left <= right -> right < zlen es -> right - left < 2 ^ Z.of_nat fuel ->
  exists it', binary_seek_loop DecodeKey (S fuel) target left right false it = Ret (Some (probes cmp_at (S fuel) left right)) it' /\ framed it' /\
    -1 <= (probes cmp_at (S fuel) left right).1 < zlen es /\ ((probes cmp_at (S fuel) left right).2 = true -> 0 <= (probes cmp_at (S fuel) left right).1).
Proof.
  revert it left right. induction fuel as [|fuel IH]; intros it left right F Hlr Hr Hd.
  { change (2 ^ Z.of_nat 0) with 1 in Hd. assert (right = left) as -> by lia. cbn [binary_seek_loop probes]. rewrite Z.eqb_refl.
    exists it. cbn. split; [done|]. split; [done|]. split; [lia|done]. }
  remember (S fuel) as f eqn:Ef. cbn [binary_seek_loop probes]. destruct (Z.eqb_spec left right) as [<-|Hneq].
  { exists it. cbn. split; [done|]. split; [done|]. split; [lia|done]. }
  set (mid := left + (right - left + 1) / 2).
  assert (left < mid <= right /\ right - mid <= (right - left) / 2 /\ mid - 1 - left <= (right - left) / 2) as (Hm & Hd1 & Hd2).
  { subst mid. pose proof (Z.div_mod (right - left + 1) 2). pose proof (Z.mod_pos_bound (right - left + 1) 2).
    pose proof (Z.div_mod (right - left) 2). pose proof (Z.mod_pos_bound (right - left) 2). lia. }
  assert ((right - left) / 2 < 2 ^ Z.of_nat fuel) as Hhalf.
  { subst f. rewrite Nat2Z.inj_succ, Z.pow_succ_r in Hd by lia. apply Z.div_lt_upper_bound; lia. }
  pose proof (zlen_rs LO) as Hsz. rewrite dense_size in Hsz. rewrite (u32_small mid) by lia.
  destruct (dense_entry mid) as (e & He & Hre & Hs & Hat); [lia|].
  pose proof (restart_point LO false g it (Z.to_nat mid) _ F Hre) as Hp. rewrite Z2Nat.id in Hp by lia. erewrite bind_Ret by exact Hp.
  rewrite bind_gets. cbv beta. change (id it) with it. rewrite (fr_data _ _ _ F), (fr_restarts _ _ _ F).
  destruct (probe LO false g tcmp target (kcmp_ok g (or_introl eq_refl) Hint target Htarget) DecodeKey it _ e (DecodeKey_decodes LO) F He Hs)
    as (Hdec & Hb & F1 & Hc). cbv zeta in F1, Hc.
  erewrite bind_Ret by reflexivity. erewrite bind_Ret by exact Hdec. cbv beta iota. rewrite Hb.
  erewrite bind_Ret by reflexivity. set (it1 := set_raw_key _ it) in *.
  rewrite bind_gets. cbv beta. change (id it1) with it1. rewrite Hc. erewrite bind_Ret by reflexivity. rewrite Hat.
  destruct (Z.ltb_spec (tcmp (i_key e)) 0); [subst f; apply IH; [done|lia..]|].
  destruct (Z.ltb_spec 0 (tcmp (i_key e))); [subst f; apply IH; [done|lia..]|].
  subst f. cbn [binary_seek_loop]. rewrite Z.eqb_refl. exists it1. cbn. split; [done|]. split; [done|]. split; [lia|]. intros _. lia.
Qed.

(** With a restart point at every entry, what follows the binary search is one step. *)
Lemma step_after s index : sound_ (data := data) (restarts := restarts) (es := es) (rs := rs) g s -> 0 <= index < zlen es ->
  forall skip, exists s', FindKeyAfterBinarySeek data_base data_NextImpl target index skip s = Ret tt s' /\
    pos s' (to_pos (es := es) (Z.to_nat (if (skip : bool) then index else index + 1))).
Proof.
  intros So Hi skip. destruct (dense_entry index Hi) as (e & He & Hr & Hs & _). unfold FindKeyAfterBinarySeek. pose proof (data_walker LO g) as W.
  destruct (seek_to_restart LO false g (data_iter s) _ _ (proj1 So) Hr) as (b & Hb & R & _). rewrite Z2Nat.id in Hb by lia.
  erewrite bind_Ret by (by apply zoom_base).
  destruct (wk_next _ _ _ _ _ _ _ _ W (set data_base b s) (Z.to_nat index) e) as (s2 & Hn & Hh); [|done|].
  { apply (wk_seek _ _ _ _ _ _ _ _ W); [done|done|]. intros e' He'. rewrite He in He'. by injection He' as <-. }
  erewrite bind_Ret by exact Hn. destruct (wk_here _ _ _ _ _ _ _ _ W s2 _ e Hh) as (R2 & A & So2).
  destruct skip; [exists s2; split; [done|]; rewrite (to_pos_entry _ e He); by exists e|].
  rewrite bind_gets. cbv beta. destruct (ae_frame _ _ _ _ _ A) as [Fd Fn Fr _ _ _]. rewrite Fn, Fd, dense_size.
  replace (Z.to_nat (index + 1)) with (S (Z.to_nat index)) by lia. destruct (Z.ltb_spec (index + 1) (zlen es)) as [Hlt|Hge].
  - destruct (dense_entry (index + 1)) as (e1 & He1 & Hr1 & _); [lia|].
    pose proof (restart_point LO false g (data_iter s2) _ _ (ae_frame _ _ _ _ _ A) Hr1) as Hp. rewrite Z2Nat.id in Hp by lia.
    erewrite bind_Ret by (rewrite (zoom_base _ s2 _ _ Hp); reflexivity). replace (set data_base (data_iter s2) s2) with s2 by (by destruct s2).
    erewrite bind_Ret by reflexivity. cbn [linear_seek_loop]. replace (Z.to_nat (index + 1)) with (S (Z.to_nat index)) in * by lia.
    destruct (wk_next _ _ _ _ _ _ _ _ W s2 _ e1 R2 He1) as (s3 & Hn3 & Hh3). erewrite bind_Ret by exact Hn3. rewrite bind_gets. cbv beta.
    destruct (wk_here _ _ _ _ _ _ _ _ W s3 _ e1 Hh3) as (_ & A3 & _). rewrite (at_entry_valid LO false g _ _ e1 A3), (ae_current _ _ _ _ _ A3), Z.eqb_refl.
    exists s3. split; [done|]. rewrite (to_pos_entry _ e1 He1). by exists e1.
  - assert (S (Z.to_nat index) = length es) as El by (unfold zlen in *; lia). rewrite El in *.
    erewrite bind_Ret by reflexivity. erewrite bind_Ret by reflexivity. cbn [linear_seek_loop].
    destruct (wk_end _ _ _ _ _ _ _ _ W s2 R2) as (s3 & Hn3 & Hfin). erewrite bind_Ret by exact Hn3. rewrite bind_gets. cbv beta.
    destruct (wk_fin _ _ _ _ _ _ _ _ W s3 Hfin) as [A3 _]. rewrite (at_end_valid false g _ A3). exists s3. split; [done|]. by rewrite to_pos_end.
Qed.

Lemma seek_lands s p : pos s p ->
  exists s', meta_Seek target s = Ret tt s' /\ pos s' (to_pos (es := es) (landing cmp_at (zlen es))) /\
    observe s' = view_at (es := es) g (to_pos (es := es) (landing cmp_at (zlen es))).
Proof.
  intros P. pose proof (pos_sound g s p P) as So. pose proof (zlen_rs LO) as Hsz. rewrite dense_size in Hsz.
  destruct (probe_loop 63 (data_iter s) (-1) (zlen es - 1)) as (b & Hb & F & Hl & He);
    [apply So|lia|lia|change (2 ^ Z.of_nat 63) with (2 ^ 63); lia|].
  unfold landing. destruct (probes cmp_at 64 (-1) (zlen es - 1)) as [l equal]. cbn [fst snd] in Hl, He.
  set (index := if l =? -1 then 0 else l). set (skip := if l =? -1 then true else equal).
  assert (BinarySeek DecodeKey target (data_iter s) = Ret (Some (index, skip)) b) as Hbs.
  { unfold BinarySeek. rewrite bind_gets. cbv beta. change (id ?x) with x. rewrite (fr_restarts _ _ _ (proj1 So)), (fr_num _ _ _ (proj1 So)), dense_size.
    destruct (Z.eqb_spec restarts 0) as [H0|_].
    { rewrite (lo_restarts _ _ _ _ _ LO), <- (off_end false es (length es)) in H0 by done.
      pose proof (off_lt false es (lo_ok _ _ _ _ _ LO) 0 (length es)). rewrite off_0 in *. unfold zlen in Hsz. lia. }
    erewrite bind_Ret by exact Hb. cbv beta iota. unfold index, skip. destruct (Z.eqb_spec l (-1)); [done|]. by rewrite u32_small by lia. }
  assert (data_SeekImpl target s = FindKeyAfterBinarySeek data_base data_NextImpl target index skip (set data_base b s)) as Hseek.
  { unfold data_SeekImpl. rewrite (unless_null_ok g) by apply So. by erewrite bind_Ret by (by apply zoom_base). }
  destruct (step_after (set data_base b s) index) with (skip := skip) as (s1 & H1 & P1);
    [split; [exact F|apply So]|unfold index; destruct (Z.eqb_spec l (-1)); lia|].
  assert ((if skip then index else index + 1) = if equal then l else l + 1) as Eq.
  { unfold skip, index. destruct (Z.eqb_spec l (-1)) as [->|]; [|done]. destruct equal; [lia|done]. }
  rewrite Eq in P1. apply (then_update LO g Hint _ s s1); [by rewrite Hseek|done].
Qed.
End AnyOrder.

(** ** Reading in order, with checks *)

Section Checked.
Context {data : bytes} {restarts : Z} {es : list item} {rs : list nat}.
Context (LO : layout false data restarts es rs).
Abbreviation g := kDisableGlobalSequenceNumber.
Abbreviation here_ := (here (data := data) (restarts := restarts) (es := es) (rs := rs) g).
Abbreviation pos := (at_pos here_ (fin (data := data) (restarts := restarts) (es := es) (rs := rs) g)).
Abbreviation readied := (ready_ (data := data) (restarts := restarts) (es := es) (rs := rs) g).

Lemma checked_ready s i : readied s i -> exists s', NextOrReportImpl s = Ret tt s' /\ pos s' (to_pos (es := es) i).
Proof.
  intros [R C]. pose proof (rd_le _ _ _ _ R) as Hi. unfold NextOrReportImpl. destruct (es !! i) as [e|] eqn:He.
  - destruct (parse_entry LO false g CheckAndDecodeEntry None (data_iter s) i e) as (b & Hb & A);
      [exact (CheckAndDecodeEntry_decodes LO)|done|done|by eapply entry_limit|].
    erewrite bind_Ret by (by apply zoom_base). eexists. split; [reflexivity|]. rewrite (to_pos_entry i e He). by exists e.
  - apply lookup_ge_None in He. assert (i = length es) as -> by lia.
    destruct (parse_end false g CheckAndDecodeEntry None (data_iter s) (length es) R) as (b & Hb & A).
    { cbn. rewrite (off_end false es), <- (lo_restarts _ _ _ _ _ LO) by done. lia. }
    erewrite bind_Ret by (by apply zoom_base). eexists. split; [reflexivity|]. by rewrite to_pos_end.
Qed.

Lemma checked_update (p : prog DataBlockIter unit) s s1 q : p s = Ret tt s1 -> pos s1 q ->
  exists s', (p;; data_UpdateKey) s = Ret tt s' /\ pos s' q /\ observe s' = view_at (es := es) g q.
Proof.
  intros Hp P. destruct (update_key LO g s1 q ltac:(done) P) as (s' & Hu & Hs). exists s'. by rewrite (bind_Ret _ _ _ _ _ Hp).
Qed.

Lemma NextOrReport_ok s i e : here_ s i e ->
  exists s', NextOrReport s = Ret tt s' /\ pos s' (to_pos (es := es) (S i)) /\ observe s' = view_at (es := es) g (to_pos (es := es) (S i)).
Proof.
  intros [A C]. destruct (checked_ready s (S i)) as (s1 & H1 & P1); [split; [by eapply entry_ready|done]|].
  by apply (checked_update NextOrReportImpl s s1).
Qed.

Lemma SeekToFirstOrReport_ok s : sound_ (data := data) (restarts := restarts) (es := es) (rs := rs) g s ->
  exists s', SeekToFirstOrReport s = Ret tt s' /\ pos s' (to_pos (es := es) 0) /\ observe s' = view_at (es := es) g (to_pos (es := es) 0).
Proof.
  intros [F C]. destruct (seek_to_restart LO false g (data_iter s) 0 0 F (lo_first _ _ _ _ _ LO)) as (b & Hb & R & _).
  destruct (checked_ready (set data_base b s) 0) as (s1 & H1 & P1); [by split|].
  apply (checked_update SeekToFirstOrReportImpl s s1); [|done]. unfold SeekToFirstOrReportImpl.
  rewrite (unless_null_ok g) by done. erewrite bind_Ret by (by apply zoom_base). exact H1.
Qed.
End Checked.

(** ** Finding meta blocks *)

(** ** The metaindex block *)

(** The first handle that was added under a name. *)
Fixpoint first_handle (name : bytes) (hs : list (bytes * BlockHandle)) : option BlockHandle :=
  match hs with
  | [] => None
  | (n, h) :: hs' => if Slice_eq name n then Some h else first_handle name hs'
  end.

(** What a search is to find: the properties block has an old name too. *)
Definition meta_handle (hs : list (bytes * BlockHandle)) (name : bytes) : option BlockHandle :=
  match first_handle name hs with
  | Some h => Some h
  | None => if Slice_eq name kPropertiesBlock then first_handle kPropertiesBlockOldName hs else None
  end.

Definition metaindex_of (hs : list (bytes * BlockHandle)) : MetaIndexBuilder :=
  foldl (fun b '(n, h) => metaindex_Add n h b) new_MetaIndexBuilder hs.

Lemma handles_found hs name b : sorted_map (meta_block_handles_ b) ->
  let b' := foldl (fun b '(n, h) => metaindex_Add n h b) b hs in
  sorted_map (meta_block_handles_ b') /\ meta_index_block_ b' = meta_index_block_ b /\
  map_find name (meta_block_handles_ b') =
    match map_find name (meta_block_handles_ b) with Some v => Some v | None => handle_EncodeTo [] <$> first_handle name hs end.
Proof.
  revert b. induction hs as [|[n h] hs IH]; intros b Hs; cbn [foldl first_handle].
  - split; [done|]. split; [done|]. by destruct (map_find name _).
  - destruct (IH (metaindex_Add n h b)) as (Hs' & Hb & Hf); [by apply sorted_insert|]. split; [done|]. split; [done|].
    rewrite Hf. cbn [metaindex_Add meta_block_handles_]. destruct (bytes_eq_cases name n) as [->|Hne].
    + rewrite find_insert_same by done. rewrite (proj2 (Slice_eq_spec n n) eq_refl). by destruct (map_find n (meta_block_handles_ b)).
    + rewrite find_insert_other by done. destruct (Slice_eq name n) eqn:E; [by apply Slice_eq_spec in E|done].
Qed.

Lemma metaindex_find hs n : map_find n (meta_block_handles_ (metaindex_of hs)) = handle_EncodeTo [] <$> first_handle n hs.
Proof. unfold metaindex_of. by destruct (handles_found hs n new_MetaIndexBuilder) as (_ & _ & ->); [constructor|]. Qed.

(** Entries whose handles can be stored and point somewhere, under names of at least
    eight bytes. *)
Definition meta_entry_ok (e : bytes * BlockHandle) : Prop :=
  internal e.1 /\ handle_ok e.2 /\ handle_IsNull e.2 = false.

Lemma first_handle_ok hs name h : Forall meta_entry_ok hs -> first_handle name hs = Some h -> handle_ok h /\ handle_IsNull h = false.
Proof.
  induction 1 as [|[n x] hs (_ & Ho & Hn) _ IH]; [done|]. cbn [first_handle]. destruct (Slice_eq name n); [|done]. by intros [= <-].
Qed.

Lemma metaindex_internal hs b : Forall meta_entry_ok hs -> Forall (fun kv => internal kv.1) (meta_block_handles_ b) ->
  Forall (fun kv => internal kv.1) (meta_block_handles_ (foldl (fun b '(n, h) => metaindex_Add n h b) b hs)).
Proof.
  intros Hok. revert b. induction Hok as [|[n h] hs (Hi & _) _ IH]; intros b Hb; [done|]. cbn [foldl].
  apply IH. by apply Forall_map_insert.
Qed.

(** C22. Meta blocks are found by name.  The handles added to a [MetaIndexBuilder]
    are written to a block; in that block [FindMetaBlock] finds, under each name, the
    handle that was added first, also the properties block under its old name, and
    answers "Cannot find the meta block" for every other name.  The search compares
    names as internal keys: it is required that the names have at least eight bytes
    and ascend in that order too. *)
Theorem meta_block_found (hs : list (bytes * BlockHandle)) :
  let m := metaindex_of hs in
  Forall meta_entry_ok hs -> block_room (meta_block_handles_ m) < 2 ^ 32 ->
  @ascending BytewiseComparator kDisableGlobalSequenceNumber (meta_block_handles_ m) ->
  exists c b', metaindex_Finish m (meta_index_block_ m) = Ret c b' /\
  forall name, internal name ->
  exists s, FindMetaBlock name (NewDataIterator (new_Block c) kDisableGlobalSequenceNumber None) =
    Ret match meta_handle hs name with
        | Some h => (StOK, h)
        | None => (StCorruption ("Cannot find the meta block: " +:+ String.string_of_list_byte name), NullBlockHandle)
        end s.
Proof.
  intros m Hok Hroom Hasc.
  assert (meta_index_block_ m = default_BlockBuilder 1) as Hb by (by apply (handles_found hs [] new_MetaIndexBuilder); constructor).
  destruct (meta_block_opened 1 (meta_block_handles_ m) ltac:(lia) Hroom) as (c & b' & es & rs & Hfin & O & _).
  exists c, b'. split; [by rewrite Hb|]. intros name Hn.
  apply (FindMeta_ok c es rs (fun n => map_find n (meta_block_handles_ m))
    (seek_seen _ c es rs O (metaindex_internal hs new_MetaIndexBuilder Hok (Forall_nil_2 _)) Hasc)
    (fun n => first_handle n hs) (metaindex_find hs) (fun n h => first_handle_ok hs n h Hok) name _ None Hn (op_iter _ _ _ _ O)).
Qed.

Module MetaExample.
(** A table with a filter, a compression dictionary and range deletions. *)
Definition handles : list (bytes * BlockHandle) :=
  [(of_string "fullfilter.rocksdb.BuiltinBloomFilter", MkHandle 4096 69);
   (of_string "rocksdb.compression_dict", MkHandle 4170 100);
   (of_string "rocksdb.range_del", MkHandle 4275 30); (of_string "rocksdb.properties", MkHandle 4310 900)].

Lemma order : @ascending BytewiseComparator kDisableGlobalSequenceNumber (meta_block_handles_ (metaindex_of handles)).
Proof.
  intros i j a b Hi Hj Hl. pose proof (lookup_lt_Some _ _ _ Hj) as Hlen. cbn in Hlen.
  destruct j as [|[|[|[|j]]]]; try lia; destruct i as [|[|[|[|i]]]]; try lia; vm_compute in Hi, Hj;
    injection Hi as <-; injection Hj as <-; by vm_compute.
Qed.
End MetaExample.

Lemma meta_block_found_witness : exists c b' s,
  metaindex_Finish (metaindex_of MetaExample.handles) (meta_index_block_ (metaindex_of MetaExample.handles)) = Ret c b' /\
  FindMetaBlock (of_string "rocksdb.range_del") (NewDataIterator (new_Block c) kDisableGlobalSequenceNumber None) =
    Ret (StOK, MkHandle 4275 30) s.
Proof.
  destruct (meta_block_found MetaExample.handles) as (c & b' & Hfin & Hfind).
  - repeat constructor; by vm_compute.
  - by vm_compute.
  - exact MetaExample.order.
  - destruct (Hfind (of_string "rocksdb.range_del")) as [s Hs]; [by vm_compute|]. exists c, b', s. split; [exact Hfin|exact Hs].
Defined.

(** ** Names in any order *)

(** The names of a metaindex block as they are stored, and what the search reaches. *)
Definition meta_names (hs : list (bytes * BlockHandle)) : list bytes := (meta_block_handles_ (metaindex_of hs)).*1.
Definition searched (names : list bytes) (name : bytes) : option bytes :=
  names !! landing (fun j => from_option (fun n => @icmp BytewiseComparator n name) 0 (names !! Z.to_nat j)) (zlen names).
Definition reached (hs : list (bytes * BlockHandle)) (name : bytes) : option BlockHandle :=
  n ← searched (meta_names hs) name; if Slice_eq n name then first_handle name hs else None.

Lemma probes_ext (f h : Z -> Z) : (forall j, f j = h j) -> forall fuel left right, probes f fuel left right = probes h fuel left right.
Proof. intros E fuel. induction fuel as [|fuel IH]; intros left right; [done|]. cbn [probes]. by rewrite !E, !IH. Qed.

Lemma lookup_find {V} (m : list (bytes * V)) i k v : sorted_map m -> m !! i = Some (k, v) -> map_find k m = Some v.
Proof.
  intros Hs. revert i. induction Hs as [|[k' v'] m Hs IH Hall]; intros [|i] Hi; [done..| |]; cbn [map_find].
  - injection Hi as -> ->. by rewrite (proj2 (Z.eqb_eq _ 0)) by (by apply Slice_compare_eq).
  - pose proof (Forall_lookup_1 _ _ _ _ Hall Hi) as Hb. unfold before in Hb. cbn in Hb. destruct (Z.eqb_spec (Slice_compare k k') 0) as [->%Slice_compare_eq|].
    + by rewrite (proj2 (Slice_compare_eq k' k') eq_refl) in Hb.
    + by apply (IH i).
Qed.

Section Reaching.
Context (m : list (bytes * bytes)) (c : bytes) (es : list item) (rs : list nat) (O : opened m c es rs).
Context (Hkeys : Forall (fun kv => internal kv.1) m) (Hne : m <> []) (Hdense : rs = seq 0 (Nat.max 1 (length es))) (Hsorted : sorted_map m).

Lemma seek_reaches name s p :
  internal name -> at_pos (here (data := c) (restarts := zlen (stored false es)) (es := es) (rs := rs) kDisableGlobalSequenceNumber)
    (fin (data := c) (restarts := zlen (stored false es)) (es := es) (rs := rs) kDisableGlobalSequenceNumber) s p ->
  exists s', meta_Seek name s = Ret tt s' /\
    seen c es rs (fun name => n ← searched m.*1 name; if Slice_eq n name then map_find name m else None) name s'.
Proof.
  intros Hn P. pose proof (Forall2_length _ _ _ (op_entries _ _ _ _ O)) as Hlen.
  assert (es <> []) as Hes by (intros ->; by destruct m). assert (rs = seq 0 (length es)) as Hd by (rewrite Hdense; f_equal; destruct es; [done|cbn; lia]).
  destruct (seek_lands (op_layout _ _ _ _ O) Hd (entries_internal es m (op_entries _ _ _ _ O) Hkeys) name Hn s p P) as (s' & Hs & P' & Ho).
  exists s'. split; [exact Hs|]. split; [apply (fr_status _ _ _ (proj1 (pos_sound _ s' _ P')))|]. split; [by eexists|]. rewrite Ho. unfold searched.
  assert (landing (fun j => from_option (fun n => @icmp BytewiseComparator n name) 0 (m.*1 !! Z.to_nat j)) (zlen m.*1) = landing (cmp_at (es := es) name) (zlen es)) as ->.
  { unfold landing. rewrite zlen_fmap. unfold zlen. rewrite <- Hlen. erewrite probes_ext; [reflexivity|]. intros j. unfold cmp_at. rewrite list_lookup_fmap.
    rewrite (same_entry_lookup es m _ (op_entries _ _ _ _ O)). destruct (es !! Z.to_nat j); [|done]. cbn. unfold kcmp. by rewrite shown_disabled. }
  set (i := landing _ _). rewrite list_lookup_fmap, (same_entry_lookup es m i (op_entries _ _ _ _ O)). unfold view_at, to_pos.
  destruct (es !! i) as [e|] eqn:He; cbn [fmap option_fmap option_map mbind option_bind fst].
  - rewrite (proj2 (Nat.ltb_lt _ _) (lookup_lt_Some _ _ _ He)). cbn [mbind option_bind]. rewrite He. cbn [mbind option_bind]. rewrite shown_disabled.
    destruct (Slice_eq (i_key e) name) eqn:Eq.
    + apply Slice_eq_spec in Eq as <-. rewrite (lookup_find m i (i_key e) (i_value e) Hsorted); [done|].
      rewrite (same_entry_lookup es m i (op_entries _ _ _ _ O)), He. done.
    + intros v [= Hk _]. by rewrite (proj2 (Slice_eq_spec _ _) Hk) in Eq.
  - apply lookup_ge_None in He. by rewrite (proj2 (Nat.ltb_ge _ _) He).
Qed.
End Reaching.

Lemma metaindex_nonempty hs : hs <> [] -> meta_block_handles_ (metaindex_of hs) <> [].
Proof.
  destruct hs as [|[n h] hs]; [done|]. intros _ E. pose proof (metaindex_find ((n, h) :: hs) n) as Hf. rewrite E in Hf. cbn in Hf.
  by rewrite (proj2 (Slice_eq_spec n n) eq_refl) in Hf.
Qed.

Lemma reached_block (hs : list (bytes * BlockHandle)) :
  let m := metaindex_of hs in
  Forall meta_entry_ok hs -> hs <> [] -> block_room (meta_block_handles_ m) < 2 ^ 32 ->
  exists c b', metaindex_Finish m (meta_index_block_ m) = Ret c b' /\
  forall name, internal name ->
  exists s, FindMetaBlock name (NewDataIterator (new_Block c) kDisableGlobalSequenceNumber None) =
    Ret (meta_answer name (with_old_name (reached hs) name)) s.
Proof.
  intros m Hok Hne Hroom.
  destruct (handles_found hs [] new_MetaIndexBuilder) as (Hsorted & Hb & _); [constructor|]. fold (metaindex_of hs) in Hsorted, Hb.
  destruct (meta_block_opened 1 (meta_block_handles_ m) ltac:(lia) Hroom) as (c & b' & es & rs & Hfin & O & Hdense).
  exists c, b'. split; [by unfold m; rewrite Hb|]. intros name Hn.
  apply (FindMeta_ok c es rs _ (seek_reaches _ c es rs O (metaindex_internal hs new_MetaIndexBuilder Hok (Forall_nil_2 _)) (metaindex_nonempty hs Hne) (Hdense eq_refl) Hsorted)
    (reached hs)) with (p := None); [| |done|exact (op_iter _ _ _ _ O)].
  - intros n. unfold reached, meta_names. fold m. destruct (searched _ n) as [x|]; [|done]. cbn [mbind option_bind].
    destruct (Slice_eq x n); [apply metaindex_find|done].
  - intros n h. unfold reached. destruct (searched _ n) as [x|]; [|done]. cbn [mbind option_bind]. destruct (Slice_eq x n); [by apply first_handle_ok|done].
Qed.

(** C23. Meta blocks are searched by a binary search, whatever their names.  In the
    metaindex block of any handles under any names of at least eight bytes,
    [FindMetaBlock] compares the names as internal keys and answers with the handle
    that was added first under a name exactly if the binary search by that order over
    the names as they are stored - sorted by bytes - ends at the name; otherwise it
    answers "Cannot find the meta block", also when the name is there.  It never
    gives the handle of another name, but for the old name of the properties block. *)
Theorem meta_search_is_binary (hs : list (bytes * BlockHandle)) :
  let m := metaindex_of hs in
  Forall meta_entry_ok hs -> hs <> [] -> block_room (meta_block_handles_ m) < 2 ^ 32 ->
  exists c b', metaindex_Finish m (meta_index_block_ m) = Ret c b' /\
  forall name, internal name ->
  exists s, FindMetaBlock name (NewDataIterator (new_Block c) kDisableGlobalSequenceNumber None) =
    Ret (meta_answer name (with_old_name (reached hs) name)) s.
Proof. exact (reached_block hs). Qed.

(** *** The names of a table with a hash index *)

Lemma landing4 f : landing f 4 =
  (if (f 1 <? 0)%Z then if (f 2 <? 0)%Z then if (f 3 <? 0)%Z then 4 else 3 else 2
   else if (0 <? f 1)%Z then if (f 0 <? 0)%Z then 1 else 0 else 1)%nat.
Proof.
  unfold landing. change 64%nat with (S (S (S (S 60)))). generalize 60%nat. intros n. cbn [probes]. 
  change (4 - 1) with 3. change (-1 + (3 - -1 + 1) / 2) with 1. change (-1 =? 3) with false. cbv iota.
  destruct (f 1 <? 0); [|destruct (0 <? f 1); [|done]].
  - change (1 + (3 - 1 + 1) / 2) with 2. change (1 =? 3) with false. cbv iota. destruct (f 2 <? 0); [|destruct (0 <? f 2); [|done]].
    + change (2 + (3 - 2 + 1) / 2) with 3. change (2 =? 3) with false. cbv iota. destruct (f 3 <? 0); [done|]. by destruct (0 <? f 3).
    + done.
  - change (-1 + (1 - 1 - -1 + 1) / 2) with 0. change (-1 =? 1 - 1) with false. cbv iota. destruct (f 0 <? 0); [done|]. by destruct (0 <? f 0).
Qed.

Lemma filter_key_below b p policy : (1 < length policy)%nat ->
  0 < @icmp BytewiseComparator kHashIndexPrefixesMetadataBlock (filter_block_key b p policy).
Proof.
  intros Hl. assert (exists x l, filter_block_key b p policy = x :: l /\ (8 <= length l)%nat /\ byte_val x < 114) as (x & l & -> & Hlen & Hx).
  { destruct b; [|destruct p]; eexists _, _; (split; [reflexivity|]); (split; [cbn; lia|done]). }
  assert (ukey (x :: l) = x :: take (length l - 8) l) as Hu by (unfold ukey; cbn [length]; by rewrite Nat.sub_succ_l by lia).
  assert (exists r, ukey kHashIndexPrefixesMetadataBlock = Byte.x72 :: r) as [r Hm] by (eexists; by vm_compute).
  assert (Slice_compare (ukey kHashIndexPrefixesMetadataBlock) (ukey (x :: l)) = 1) as Hc.
  { rewrite Slice_compare_lex, Hu, Hm. cbn [lex]. change (byte_val Byte.x72) with 114. destruct (Z.ltb_spec 114 (byte_val x)); [lia|].
    by rewrite (proj2 (Z.ltb_lt _ _) Hx). }
  unfold icmp, pair_cmp. cbn [fst snd Compare BytewiseComparator]. by rewrite Hc.
Qed.

Lemma named_handle hs i n : meta_names hs !! i = Some n -> exists h, first_handle n hs = Some h.
Proof.
  unfold meta_names. rewrite list_lookup_fmap. destruct (_ !! i) as [[k v]|] eqn:E; [|done]. intros [= ->].
  destruct (handles_found hs [] new_MetaIndexBuilder) as (Hsorted & _ & _); [constructor|].
  pose proof (lookup_find _ i n v Hsorted E) as Hf. fold (metaindex_of hs) in Hf. rewrite metaindex_find in Hf. destruct (first_handle n hs) as [h|]; [by exists h|done].
Qed.

Section HashIndexNames.
Context (hs : list (bytes * BlockHandle)) (b p : bool) (policy : bytes) (Hpolicy : (1 < length policy)%nat).
Abbreviation filter_key := (filter_block_key b p policy).
Context (Hnames : meta_names hs = [filter_key; kHashIndexPrefixesMetadataBlock; kHashIndexPrefixesBlock; kPropertiesBlock]).

Lemma searched_names name : searched (meta_names hs) name =
  meta_names hs !! landing (fun j => from_option (fun n => @icmp BytewiseComparator n name) 0 (meta_names hs !! Z.to_nat j)) 4.
Proof. unfold searched. by rewrite Hnames. Qed.

Lemma prefixes_not_reached : reached hs kHashIndexPrefixesBlock = None.
Proof.
  unfold reached. rewrite searched_names, Hnames, landing4. change (Z.to_nat 1) with 1%nat. cbn [lookup list_lookup from_option].
  assert (@icmp BytewiseComparator kHashIndexPrefixesMetadataBlock kHashIndexPrefixesBlock = 1) as -> by (by vm_compute).
  change (1 <? 0) with false. change (0 <? 1) with true. cbv iota. destruct (_ <? 0); cbn [lookup list_lookup mbind option_bind].
  - assert (Slice_eq kHashIndexPrefixesMetadataBlock kHashIndexPrefixesBlock = false) as -> by (by vm_compute). done.
  - destruct (Slice_eq _ _) eqn:E; [|done]. apply Slice_eq_spec in E. by destruct b, p.
Qed.

Lemma others_reached name : name ∈ [filter_key; kHashIndexPrefixesMetadataBlock; kPropertiesBlock] ->
  exists h, first_handle name hs = Some h /\ reached hs name = Some h.
Proof.
  intros Hin. assert (exists i, meta_names hs !! i = Some name /\ searched (meta_names hs) name = Some name) as (i & Hi & Hs).
  { rewrite searched_names, Hnames, landing4. change (Z.to_nat 0) with 0%nat. change (Z.to_nat 1) with 1%nat. change (Z.to_nat 2) with 2%nat.
    change (Z.to_nat 3) with 3%nat. cbn [lookup list_lookup from_option].
    apply elem_of_cons in Hin as [->|[->|[->|[]%not_elem_of_nil]%elem_of_cons]%elem_of_cons].
    - exists 0%nat. split; [done|]. pose proof (filter_key_below b p policy Hpolicy). rewrite (proj2 (Z.ltb_ge _ _)), (proj2 (Z.ltb_lt 0 _)) by lia.
      by rewrite (cmp_refl (cmp := @icmp BytewiseComparator)).
    - exists 1%nat. split; [done|]. by rewrite (cmp_refl (cmp := @icmp BytewiseComparator)).
    - exists 3%nat. split; [done|]. by vm_compute. }
  destruct (named_handle hs i name Hi) as [h Hh]. exists h. split; [done|]. unfold reached. rewrite Hs. cbn [mbind option_bind].
  by rewrite (proj2 (Slice_eq_spec name name) eq_refl).
Qed.
End HashIndexNames.

(** C40. The prefixes of a hash index are hidden by a filter.  Take any table with
    [kHashSearch] index, a filter of whichever kind under a policy with a name of two
    bytes or more, and no meta blocks but these and the properties, with any handles
    added in any order.  In its metaindex block the handle of
    "rocksdb.hashindex.prefixes" is not found, although it is there: the block is
    sorted by bytes, and searched as if the names were internal keys, the last eight
    bytes being a sequence number that sorts downwards; by that order "prefixes" comes
    before "metadata", which the search meets first.  ([HashIndexReader::Create] then
    falls back to the binary search without notice.)  The other names are found. *)
Theorem hash_index_prefixes_hidden (hs : list (bytes * BlockHandle)) (is_block_based partition_filters : bool) (policy : bytes) :
  let m := metaindex_of hs in
  let filter_key := filter_block_key is_block_based partition_filters policy in
  Forall meta_entry_ok hs -> block_room (meta_block_handles_ m) < 2 ^ 32 -> (1 < length policy)%nat ->
  meta_names hs = [filter_key; kHashIndexPrefixesMetadataBlock; kHashIndexPrefixesBlock; kPropertiesBlock] ->
  exists c b', metaindex_Finish m (meta_index_block_ m) = Ret c b' /\
  let it := NewDataIterator (new_Block c) kDisableGlobalSequenceNumber None in
  (exists h s, first_handle kHashIndexPrefixesBlock hs = Some h /\
    FindMetaBlock kHashIndexPrefixesBlock it = Ret (StCorruption "Cannot find the meta block: rocksdb.hashindex.prefixes", NullBlockHandle) s) /\
  forall name, name ∈ [filter_key; kHashIndexPrefixesMetadataBlock; kPropertiesBlock] ->
    exists h s, first_handle name hs = Some h /\ FindMetaBlock name it = Ret (StOK, h) s.
Proof.
  intros m filter_key Hok Hroom Hpolicy Hnames. destruct (reached_block hs Hok) as (c & b' & Hfin & Hfind); [by intros ->|done|].
  exists c, b'. split; [exact Hfin|]. cbv zeta. split.
  - destruct (named_handle hs 2 kHashIndexPrefixesBlock) as [h Hh]; [by rewrite Hnames|]. destruct (Hfind kHashIndexPrefixesBlock) as [s Hs]; [by vm_compute|].
    exists h, s. split; [done|]. rewrite Hs. unfold with_old_name. rewrite (prefixes_not_reached hs is_block_based partition_filters policy Hnames).
    assert (Slice_eq kHashIndexPrefixesBlock kPropertiesBlock = false) as -> by (by vm_compute). reflexivity.
  - intros name Hin. destruct (others_reached hs is_block_based partition_filters policy Hpolicy Hnames name Hin) as (h & Hh & Hr).
    destruct (Hfind name) as [s Hs].
    { apply elem_of_cons in Hin as [->|[->|[->|[]%not_elem_of_nil]%elem_of_cons]%elem_of_cons]; [|by vm_compute..].
      unfold internal, zlen, filter_key, filter_block_key. destruct is_block_based, partition_filters; rewrite length_app; cbn; lia. }
    exists h, s. split; [done|]. rewrite Hs. unfold with_old_name. by rewrite Hr.
Qed.

(** A table with a hash index and a full filter. *)
Definition hash_handles : list (bytes * BlockHandle) :=
  [(filter_block_key false false (of_string "rocksdb.BuiltinBloomFilter"), MkHandle 4096 69); (kHashIndexPrefixesBlock, MkHandle 4170 12);
   (kHashIndexPrefixesMetadataBlock, MkHandle 4187 6); (kPropertiesBlock, MkHandle 4198 900)].

Lemma meta_search_is_binary_witness : exists c b' s,
  metaindex_Finish (metaindex_of hash_handles) (meta_index_block_ (metaindex_of hash_handles)) = Ret c b' /\
  FindMetaBlock kHashIndexPrefixesMetadataBlock (NewDataIterator (new_Block c) kDisableGlobalSequenceNumber None) = Ret (StOK, MkHandle 4187 6) s.
Proof.
  destruct (meta_search_is_binary hash_handles) as (c & b' & Hfin & Hfind).
  - repeat constructor; by vm_compute.
  - discriminate.
  - by vm_compute.
  - destruct (Hfind kHashIndexPrefixesMetadataBlock) as [s Hs]; [by vm_compute|]. exists c, b', s. split; [exact Hfin|exact Hs].
Defined.

Lemma hash_index_prefixes_hidden_witness : exists c b' s1 s2,
  metaindex_Finish (metaindex_of hash_handles) (meta_index_block_ (metaindex_of hash_handles)) = Ret c b' /\
  FindMetaBlock kHashIndexPrefixesBlock (NewDataIterator (new_Block c) kDisableGlobalSequenceNumber None) =
    Ret (StCorruption "Cannot find the meta block: rocksdb.hashindex.prefixes", NullBlockHandle) s1 /\
  FindMetaBlock kPropertiesBlock (NewDataIterator (new_Block c) kDisableGlobalSequenceNumber None) = Ret (StOK, MkHandle 4198 900) s2.
Proof.
  destruct (hash_index_prefixes_hidden hash_handles false false (of_string "rocksdb.BuiltinBloomFilter")) as (c & b' & Hfin & (h & s1 & _ & Hs1) & Hothers).
  - repeat constructor; by vm_compute.
  - by vm_compute.
  - cbn. lia.
  - by vm_compute.
  - destruct (Hothers kPropertiesBlock) as (h2 & s2 & Hh2 & Hs2); [repeat constructor|].
    exists c, b', s1, s2. split; [exact Hfin|]. split; [exact Hs1|]. injection Hh2 as <-. exact Hs2.
Defined.
