(* ===== verification/PropsThms.v ===== *)
(** The properties of a table file: the round trip, and what becomes of damaged
    blocks.

    The properties block: the loop that reads it goes through the map that was
    written, and what the map holds. *)
From S2P Require Import Prelude Bits Coding Crc32c Crc32cSpec IoStatus Comparator DbFormat BlockBuilder BlockIter BlockSpec BlockSeek BlockCursor BlockBuild BlockThms BlockSafe TableFormat MetaBlocks MetaThms.
From stdpp Require Import base numbers list strings.
From Stdlib Require Import ZArith Lia.
Local Open Scope Z_scope.

(** ** Properties up to the offsets *)

Record alike (tp tp' : TableProperties) : Prop := {
  al_numbers : forall p, numbers tp p = numbers tp' p;
  al_strings : forall p, strings tp p = strings tp' p;
  al_user : user_collected_properties tp = user_collected_properties tp' }.

#[export] Instance alike_refl : Reflexive alike.
Proof. by intros tp. Qed.
#[export] Instance alike_trans : Transitive alike.
Proof. intros a b c [] []. split; intros; congruence. Qed.

Lemma alike_number p v tp tp' : alike tp tp' -> alike (set_number p v tp) (set_number p v tp').
Proof. intros []. split; try done. intros q. cbn. by case_decide. Qed.
Lemma alike_string p v tp tp' : alike tp tp' -> alike (set_string p v tp) (set_string p v tp').
Proof. intros []. split; try done. intros q. cbn. by case_decide. Qed.
Lemma alike_add_user k v tp tp' : alike tp tp' -> alike (add_user k v tp) (add_user k v tp').
Proof. intros []. split; try done. cbn. by f_equal. Qed.
Lemma alike_offset k o o' tp tp' : alike tp tp' -> alike (add_offset k o tp) (add_offset k o' tp').
Proof. by intros []. Qed.

Create HintDb props.
#[export] Hint Resolve alike_number alike_string alike_add_user alike_offset : props.

Lemma read_property_alike k v o o' tp tp' : alike tp tp' -> alike (read_property k v o tp) (read_property k v o' tp').
Proof. intros H. unfold read_property. repeat case_match; auto with props. Qed.

(** Reading the pairs of a map. *)
Definition read_all (m : list (bytes * bytes)) (tp : TableProperties) : TableProperties :=
  foldl (fun tp '(k, v) => read_property k v 0 tp) tp m.

Lemma read_all_alike m tp tp' : alike tp tp' -> alike (read_all m tp) (read_all m tp').
Proof.
  unfold read_all. revert tp tp'. induction m as [|[k v] m IH]; intros tp tp' H; [done|]. cbn [foldl].
  apply IH. by apply read_property_alike.
Qed.

(** ** The loop *)

Section Loop.
Context {m : list (bytes * bytes)} {c : bytes} {es : list item} {rs : list nat} (O : opened m c es rs).
Context (Hsorted : sorted_map m).
Abbreviation g := kDisableGlobalSequenceNumber.
Abbreviation here_ := (here (data := c) (restarts := zlen (stored false es)) (es := es) (rs := rs) g).
Abbreviation pos := (at_pos here_ (fin (data := c) (restarts := zlen (stored false es)) (es := es) (rs := rs) g)).

(** The key before entry [i], if it is known. *)
Definition previous (i : nat) (last_key : bytes) : Prop :=
  last_key = [] \/ exists j v, i = S j /\ m !! j = Some (last_key, v).

Lemma previous_below i k v last_key : m !! i = Some (k, v) -> previous i last_key ->
  negb (zlen last_key =? 0) && (Slice_compare k last_key <=? 0) = false.
Proof.
  intros Hi [-> |(j & w & -> & Hj)]; [done|]. pose proof (sorted_lookup m j (S j) _ _ Hsorted Hj Hi ltac:(lia)) as Hb.
  unfold before in Hb. cbn in Hb. apply compare_gt in Hb. apply andb_false_intro2. lia.
Qed.

Lemma properties_loop_ok fuel i s last_key tp offset :
  pos s (to_pos (es := es) i) -> observe s = view_at (es := es) g (to_pos (es := es) i) -> (i <= length es)%nat ->
  (length es - i < fuel)%nat -> previous i last_key ->
  exists s' tp', properties_loop fuel offset last_key tp s = Ret (StOK, tp') s' /\ alike tp' (read_all (drop i m) tp).
Proof.
  pose proof (op_layout _ _ _ _ O) as LO. pose proof (op_entries _ _ _ _ O) as Hs. pose proof (Forall2_length _ _ _ Hs) as Hlen.
  revert i s last_key tp. induction fuel as [|fuel IH]; intros i s last_key tp P Ho Hi Hf Hlast; [lia|].
  cbn [properties_loop]. rewrite bind_gets. cbv beta. destruct (es !! i) as [e|] eqn:He.
  - rewrite (to_pos_entry i e He) in P, Ho. destruct P as [e' Hh]. pose proof (proj1 Hh) as A. pose proof (ae_entry _ _ _ _ _ A) as He'.
    rewrite He in He'. injection He' as <-. pose proof (at_entry_valid LO false g _ i e A) as Hv.
    unfold observe, view_at in Ho. rewrite Hv in Ho. cbn in Ho. rewrite He in Ho. cbn in Ho. injection Ho as Hk Hval.
    rewrite shown_disabled in Hk. pose proof (same_entry_lookup es m i Hs) as Hm. rewrite He in Hm. cbn in Hm.
    rewrite Hv, (fr_status _ _ _ (ae_frame _ _ _ _ _ A)), Hk, (previous_below i _ _ last_key Hm Hlast), Hval. cbn [negb st_ok].
    erewrite bind_Ret by reflexivity. unfold ValueOffset. rewrite (ae_value _ _ _ _ _ A). erewrite bind_Ret by reflexivity.
    destruct (NextOrReport_ok LO s i e Hh) as (s1 & H1 & P1 & O1). erewrite bind_Ret by exact H1.
    set (tp1 := read_property _ _ _ tp).
    destruct (IH (S i) s1 (i_key e) tp1 P1 O1) as (s' & tp' & Hl & Ha).
    + apply lookup_lt_Some in He. lia.
    + apply lookup_lt_Some in He. lia.
    + right. by exists i, (i_value e).
    + exists s', tp'. split; [done|]. etrans; [exact Ha|]. rewrite (drop_S m _ i Hm). cbn [read_all foldl].
      apply read_all_alike. apply read_property_alike. reflexivity.
  - apply lookup_ge_None in He. assert (i = length es) as -> by lia. rewrite to_pos_end in P.
    rewrite (at_end_valid false g _ (proj1 P)). eexists s, tp. split; [reflexivity|]. rewrite drop_ge by lia. reflexivity.
Qed.

Lemma read_block tp offset :
  exists s s' tp', SeekToFirstOrReport (NewDataIterator (new_Block c) g None) = Ret tt s /\
    properties_loop (S (length c)) offset [] tp s = Ret (StOK, tp') s' /\ alike tp' (read_all m tp).
Proof.
  pose proof (op_layout _ _ _ _ O) as LO. pose proof (op_iter _ _ _ _ O) as Hfin.
  destruct (SeekToFirstOrReport_ok LO (NewDataIterator (new_Block c) g None)) as (s & Hs & P & Ho).
  { split; [apply (proj1 Hfin)|apply (proj2 Hfin)]. }
  destruct (properties_loop_ok (S (length c)) 0 s [] tp offset P Ho ltac:(lia)) as (s' & tp' & Hl & Ha).
  - destruct (data_fuel LO). lia.
  - by left.
  - exists s, s', tp'. done.
Qed.
End Loop.

(** ** Names *)

Lemma number_of_name p : number_of (number_name p) = Some p.
Proof. by destruct p; vm_compute. Qed.
Lemma string_of_name p : number_of (string_name p) = None /\ string_of (string_name p) = Some p.
Proof. by destruct p; vm_compute. Qed.

Lemma number_of_Some k p : number_of k = Some p -> k = number_name p.
Proof.
  unfold number_of. destruct (list_find _ _) as [[i q]|] eqn:E; [|done]. intros [= ->].
  apply list_find_Some in E as (_ & H & _). by apply Slice_eq_spec.
Qed.
Lemma string_of_Some k p : string_of k = Some p -> k = string_name p.
Proof.
  unfold string_of. destruct (list_find _ _) as [[i q]|] eqn:E; [|done]. intros [= ->].
  apply list_find_Some in E as (_ & H & _). by apply Slice_eq_spec.
Qed.

(** Properties that are kept as raw bytes: those of the user, and two numbers. *)
Definition kept_raw (k : bytes) : bool :=
  match number_of k with
  | Some p => bool_decide (p = num_deletions \/ p = num_merge_operands)
  | None => match string_of k with Some _ => false | None => true end
  end.

(** ** What is read of a map *)

Lemma read_number k v o tp p : numbers (read_property k v o tp) p =
  if decide (number_of k = Some p) then from_option fst (numbers tp p) (GetVarint64 v) else numbers tp p.
Proof.
  unfold read_property. destruct (number_of k) as [q|] eqn:E.
  - assert (forall t, numbers (if decide (q = num_deletions \/ q = num_merge_operands) then add_user k v t else t) = numbers t) as Hu
      by (intros t; by case_decide).
    destruct (decide (Some q = Some p)) as [[= ->]|Hne]; destruct (GetVarint64 v) as [[x rest]|]; cbn.
    + by rewrite decide_True.
    + by rewrite Hu.
    + rewrite decide_False by congruence. by rewrite Hu.
    + by rewrite Hu.
  - rewrite decide_False by done. by destruct (string_of k).
Qed.

Lemma read_string k v o tp p : strings (read_property k v o tp) p =
  if Slice_eq k (string_name p) then v else strings tp p.
Proof.
  assert (Slice_eq k (string_name p) = true -> number_of k = None /\ string_of k = Some p) as Hname
    by (intros ->%Slice_eq_spec; apply string_of_name).
  unfold read_property. destruct (number_of k) as [q|].
  - destruct (Slice_eq k (string_name p)); [by destruct (Hname eq_refl)|].
    destruct (GetVarint64 v) as [[x rest]|]; cbn; by case_decide.
  - destruct (string_of k) as [q|] eqn:E; cbn.
    + case_decide as Hd.
      * subst q. apply string_of_Some in E as ->. by rewrite (proj2 (Slice_eq_spec _ _) eq_refl).
      * destruct (Slice_eq k (string_name p)); [|done]. destruct (Hname eq_refl). congruence.
    + by destruct (Slice_eq k (string_name p)); [destruct (Hname eq_refl)|].
Qed.

Lemma read_user k v o tp : user_collected_properties (read_property k v o tp) =
  if kept_raw k then map_insert k v (user_collected_properties tp) else user_collected_properties tp.
Proof.
  unfold read_property, kept_raw. destruct (number_of k) as [q|].
  - destruct (GetVarint64 v) as [[x rest]|]; cbn; case_decide; case_bool_decide; done.
  - by destruct (string_of k).
Qed.

Section ReadAll.
Implicit Types m : list (bytes * bytes).

Lemma find_tail k v m : sorted_map ((k, v) :: m) -> map_find k m = None.
Proof. intros Hs. inversion Hs as [|? ? _ Hall]; subst. by apply find_below. Qed.

Lemma find_cons k k' v' m : map_find k ((k', v') :: m) = if Slice_eq k k' then Some v' else map_find k m.
Proof.
  cbn [map_find]. destruct (Z.eqb_spec (Slice_compare k k') 0) as [->%Slice_compare_eq|Hne].
  - by rewrite (proj2 (Slice_eq_spec _ _) eq_refl).
  - destruct (Slice_eq k k') eqn:E; [|done]. apply Slice_eq_spec in E as ->. by rewrite (proj2 (Slice_compare_eq _ _) eq_refl) in Hne.
Qed.

Lemma read_all_number m tp p : sorted_map m ->
  numbers (read_all m tp) p = from_option (fun raw => from_option fst (numbers tp p) (GetVarint64 raw)) (numbers tp p)
    (map_find (number_name p) m).
Proof.
  unfold read_all. revert tp. induction m as [|[k v] m IH]; intros tp Hs; [done|]. cbn [foldl].
  rewrite IH by (by inversion Hs). rewrite find_cons, read_number. destruct (Slice_eq (number_name p) k) eqn:E.
  - apply Slice_eq_spec in E as <-. rewrite (find_tail _ v m Hs), number_of_name. by rewrite decide_True.
  - rewrite decide_False; [done|]. intros ->%number_of_Some. by rewrite (proj2 (Slice_eq_spec _ _) eq_refl) in E.
Qed.

Lemma read_all_string m tp p : sorted_map m ->
  strings (read_all m tp) p = default (strings tp p) (map_find (string_name p) m).
Proof.
  unfold read_all. revert tp. induction m as [|[k v] m IH]; intros tp Hs; [done|]. cbn [foldl].
  rewrite IH by (by inversion Hs). rewrite find_cons, read_string.
  destruct (Slice_eq (string_name p) k) eqn:E.
  - apply Slice_eq_spec in E as <-. by rewrite (find_tail _ v m Hs), (proj2 (Slice_eq_spec _ _) eq_refl).
  - destruct (Slice_eq k (string_name p)) eqn:E2; [|done]. apply Slice_eq_spec in E2 as ->.
    by rewrite (proj2 (Slice_eq_spec _ _) eq_refl) in E.
Qed.

Lemma read_all_user m tp k : sorted_map m -> sorted_map (user_collected_properties tp) ->
  map_find k (user_collected_properties (read_all m tp)) =
    match map_find k (user_collected_properties tp) with
    | Some v => Some v
    | None => if kept_raw k then map_find k m else None
    end.
Proof.
  unfold read_all. revert tp. induction m as [|[k' v'] m IH]; intros tp Hs Hu; cbn [foldl].
  - destruct (map_find k _); [done|]. by destruct (kept_raw k).
  - assert (sorted_map (user_collected_properties (read_property k' v' 0 tp))) as Hu'
      by (rewrite read_user; destruct (kept_raw k'); [by apply sorted_insert|done]).
    rewrite (IH _ ltac:(by inversion Hs) Hu'), read_user, find_cons. destruct (bytes_eq_cases k k') as [->|Hne].
    + rewrite (proj2 (Slice_eq_spec _ _) eq_refl), (find_tail _ v' m Hs). destruct (kept_raw k').
      * rewrite find_insert_same by done. by destruct (map_find k' (user_collected_properties tp)).
      * done.
    + assert (Slice_eq k k' = false) as -> by (destruct (Slice_eq k k') eqn:E; [by apply Slice_eq_spec in E|done]).
      destruct (kept_raw k'); [by rewrite find_insert_other|done].
Qed.
End ReadAll.

(** ** What is written *)

(** The properties of a table in the order they are added, and which are. *)
Inductive any_prop := Num (p : number_prop) | Str (p : string_prop).

Definition write_order : list any_prop :=
  (Num <$> [orig_file_number; raw_key_size; raw_value_size; data_size; index_size; index_partitions; top_level_index_size;
    index_key_is_user_key; index_value_is_delta_encoded; num_entries; num_filter_entries; num_deletions; num_merge_operands;
    num_range_deletions; num_data_blocks; filter_size; format_version; fixed_key_len; column_family_id; creation_time;
    oldest_key_time; file_creation_time; slow_compression_estimated_data_size; fast_compression_estimated_data_size]) ++
  (Str <$> [db_id; db_session_id; db_host_id; filter_policy_name; comparator_name; merge_operator_name;
    prefix_extractor_name; property_collectors_names; column_family_name; compression_name; compression_options]).

Section Written.
Context (tp : TableProperties).

Definition written (a : any_prop) : bool :=
  match a with
  | Num (index_partitions | top_level_index_size) => negb (numbers tp index_partitions =? 0)
  | Num ((file_creation_time | slow_compression_estimated_data_size | fast_compression_estimated_data_size) as p) =>
    0 <? numbers tp p
  | Num _ => true
  | Str p => negb (zlen (strings tp p) =? 0)
  end.
Definition prop_name (a : any_prop) : bytes := match a with Num p => number_name p | Str p => string_name p end.
Definition prop_value (a : any_prop) : bytes :=
  match a with Num p => PutVarint64 [] (numbers tp p) | Str p => strings tp p end.

Definition add_written (b : PropertyBlockBuilder) (a : any_prop) : PropertyBlockBuilder :=
  if written a then prop_Add (prop_name a) (prop_value a) b else b.

Lemma add_number_written p b : written (Num p) = true -> add_number tp p b = add_written b (Num p).
Proof. intros H. unfold add_written. by rewrite H. Qed.
Lemma add_number_if_written p b : add_number_if (written (Num p)) tp p b = add_written b (Num p).
Proof. done. Qed.
Lemma add_string_written p b : add_string tp p b = add_written b (Str p).
Proof. done. Qed.

Lemma AddTableProperty_list b : AddTableProperty tp b = foldl add_written b write_order.
Proof.
  unfold AddTableProperty, write_order. cbn [fmap list_fmap app foldl]. rewrite !add_string_written.
  rewrite !add_number_written by reflexivity.
  rewrite (add_number_if_written index_partitions), (add_number_if_written top_level_index_size),
    (add_number_if_written file_creation_time), (add_number_if_written slow_compression_estimated_data_size),
    (add_number_if_written fast_compression_estimated_data_size).
  done.
Qed.

Lemma prop_name_inj a b : prop_name a = prop_name b -> a = b.
Proof.
  destruct a as [p|p], b as [q|q]; cbn; intros H.
  - f_equal. pose proof (number_of_name p) as Hp. rewrite H, number_of_name in Hp. by injection Hp.
  - pose proof (number_of_name p) as Hp. rewrite H in Hp. by rewrite (proj1 (string_of_name q)) in Hp.
  - pose proof (number_of_name q) as Hq. rewrite <- H in Hq. by rewrite (proj1 (string_of_name p)) in Hq.
  - f_equal. pose proof (proj2 (string_of_name p)) as Hp. rewrite H, (proj2 (string_of_name q)) in Hp. by injection Hp.
Qed.

Lemma written_found l b k : sorted_map (props_ b) ->
  let b' := foldl add_written b l in
  sorted_map (props_ b') /\ properties_block_ b' = properties_block_ b /\
  (map_find k (props_ b) <> None -> map_find k (props_ b') = map_find k (props_ b)) /\
  (map_find k (props_ b) = None -> (forall a, a ∈ l -> prop_name a = k -> written a = false) -> map_find k (props_ b') = None) /\
  (map_find k (props_ b) = None -> forall a, a ∈ l -> prop_name a = k -> written a = true ->
    map_find k (props_ b') = Some (prop_value a)).
Proof.
  revert b. induction l as [|x l IH]; intros b Hs; cbn [foldl].
  - split_and!; try done. intros _ a Ha. by apply not_elem_of_nil in Ha.
  - assert (sorted_map (props_ (add_written b x))) as Hs1 by (unfold add_written; destruct (written x); [by apply sorted_insert|done]).
    destruct (IH (add_written b x) Hs1) as (H1 & H2 & H3 & H4 & H5).
    assert (properties_block_ (add_written b x) = properties_block_ b) as Hb by (unfold add_written; by destruct (written x)).
    split; [done|]. split; [by rewrite H2|].
    destruct (decide (written x = true)) as [W|W%not_true_is_false]; [destruct (bytes_eq_cases k (prop_name x)) as [Hk|Hk]|].
    + assert (map_find k (props_ (add_written b x)) = Some (default (prop_value x) (map_find k (props_ b)))) as Hsame
        by (unfold add_written; rewrite W, Hk; by apply find_insert_same).
      rewrite Hsame in H3. specialize (H3 ltac:(done)). rewrite H3. split_and!.
      * by destruct (map_find k (props_ b)).
      * intros _ Hno. rewrite (Hno x) in W; [done|by apply list_elem_of_here|done].
      * intros -> a Ha Hak _. by assert (a = x) as -> by (apply prop_name_inj; congruence).
    + assert (map_find k (props_ (add_written b x)) = map_find k (props_ b)) as Hother
        by (unfold add_written; rewrite W; by apply find_insert_other).
      rewrite Hother in *. split_and!; [done| |].
      * intros Hf Hno. apply H4; [done|]. intros a Ha. apply Hno. by apply list_elem_of_further.
      * intros Hf a [->|Ha]%elem_of_cons Hak; [done|]. by apply H5.
    + assert (add_written b x = b) as Hskip by (unfold add_written; by rewrite W). rewrite Hskip in *. split_and!; [done| |].
      * intros Hf Hno. apply H4; [done|]. intros a Ha. apply Hno. by apply list_elem_of_further.
      * intros Hf a [->|Ha]%elem_of_cons Hak Hw; [congruence|]. by apply (H5 Hf a).
Qed.
End Written.

Lemma user_found user b k : sorted_map (props_ b) ->
  let b' := prop_Add_user user b in
  sorted_map (props_ b') /\ properties_block_ b' = properties_block_ b /\
  map_find k (props_ b') = match map_find k (props_ b) with Some v => Some v | None => map_find k user end.
Proof.
  unfold prop_Add_user. revert b. induction user as [|[k' v'] user IH]; intros b Hs; cbn [foldl].
  - split; [done|]. split; [done|]. by destruct (map_find k (props_ b)).
  - destruct (IH (prop_Add k' v' b)) as (H1 & H2 & H3); [by apply sorted_insert|]. split; [done|]. split; [done|]. rewrite H3, find_cons.
    cbn [prop_Add props_]. destruct (bytes_eq_cases k k') as [->|Hne].
    + rewrite find_insert_same, (proj2 (Slice_eq_spec _ _) eq_refl) by done. by destruct (map_find k' (props_ b)).
    + rewrite find_insert_other by done. by destruct (Slice_eq k k') eqn:E; [apply Slice_eq_spec in E|].
Qed.

(** ** The checksum of a block that was written *)

Section Checksum.
Context (XXH32 XXH64 XXH3_64bits : bytes -> Z).

Lemma verify_written type (data : bytes) name offset :
  let sum := ComputeBuiltinChecksum XXH32 XXH64 XXH3_64bits type data in
  (0 < length data)%nat -> 0 <= sum < 2 ^ 32 ->
  VerifyBlockChecksum XXH32 XXH64 XXH3_64bits type (data ++ le_bytes 4 sum) (zlen data - 1) name offset = Some StOK.
Proof.
  intros sum Hl Hsum. unfold VerifyBlockChecksum. replace (zlen data - 1 + 1) with (zlen data) by lia.
  rewrite (proj2 (in_block_spec _ _ _)) by (rewrite length_app, length_le_bytes; unfold zlen; lia). cbn [negb].
  pose proof (Fixed32_at data [] sum (zlen data) eq_refl Hsum) as Hf. rewrite app_nil_r in Hf. rewrite Hf.
  unfold zlen. rewrite Nat2Z.id, take_app_length. fold sum. by rewrite Z.eqb_refl.
Qed.
End Checksum.

(** ** The properties of a table file *)

(** ** The round trip *)

(** Properties that can be written: the size of the top-level index is that of a
    partitioned index, and the names of the user are not those of the table. *)
Record props_ok (tp : TableProperties) : Prop := {
  po_numbers : forall p, 0 <= numbers tp p < 2 ^ 64;
  po_partitions : numbers tp index_partitions = 0 -> numbers tp top_level_index_size = 0;
  po_user : Forall (fun kv => number_of kv.1 = None /\ string_of kv.1 = None) (user_collected_properties tp) }.

(** The builder behind [AddTableProperty] and [Add] of the properties of the user. *)
Definition properties_of (tp : TableProperties) : PropertyBlockBuilder :=
  prop_Add_user (user_collected_properties tp) (AddTableProperty tp new_PropertyBlockBuilder).

Section Properties.
Context (tp : TableProperties) (Hok : props_ok tp).
Abbreviation m := (props_ (properties_of tp)).

Lemma all_written a : a ∈ write_order.
Proof.
  destruct a as [[]|[]]; unfold write_order; cbn [fmap list_fmap app];
    repeat first [apply list_elem_of_here|apply list_elem_of_further].
Qed.

(** What the map holds. *)
Lemma map_sorted : sorted_map m /\ properties_block_ (properties_of tp) = default_BlockBuilder (2 ^ 31 - 1).
Proof.
  unfold properties_of. rewrite AddTableProperty_list.
  destruct (written_found tp write_order new_PropertyBlockBuilder [] ltac:(constructor)) as (Hs & Hb & _).
  destruct (user_found (user_collected_properties tp) _ [] Hs) as (Hs' & Hb' & _). split; [done|]. by rewrite Hb', Hb.
Qed.

Lemma user_names k v : map_find k (user_collected_properties tp) = Some v -> number_of k = None /\ string_of k = None.
Proof. intros Hf. destruct (find_lookup k _ v Hf) as [i Hi]. apply (Forall_lookup_1 _ _ _ _ (po_user _ Hok) Hi). Qed.

Lemma map_holds a : map_find (prop_name a) m = if written tp a then Some (prop_value tp a) else None.
Proof.
  unfold properties_of. rewrite AddTableProperty_list.
  destruct (written_found tp write_order new_PropertyBlockBuilder (prop_name a) ltac:(constructor)) as (Hs & _ & _ & Hno & Hyes).
  destruct (user_found (user_collected_properties tp) _ (prop_name a) Hs) as (_ & _ & ->).
  destruct (written tp a) eqn:W.
  - by rewrite (Hyes eq_refl a (all_written a) eq_refl W).
  - rewrite Hno; [|done|intros a' _ Ha%prop_name_inj; by subst a'].
    destruct (map_find (prop_name a) (user_collected_properties tp)) as [v|] eqn:E; [|done]. destruct (user_names _ v E) as [H1 H2].
    destruct a as [p|p]; cbn [prop_name] in H1, H2; [by rewrite number_of_name in H1|by rewrite (proj2 (string_of_name p)) in H2].
Qed.

Lemma map_user k : number_of k = None -> string_of k = None -> map_find k m = map_find k (user_collected_properties tp).
Proof.
  intros H1 H2. unfold properties_of. rewrite AddTableProperty_list.
  destruct (written_found tp write_order new_PropertyBlockBuilder k ltac:(constructor)) as (Hs & _ & _ & Hno & _).
  destruct (user_found (user_collected_properties tp) _ k Hs) as (_ & _ & ->). rewrite Hno; [done|done|].
  intros [p|p] _ <-; cbn [prop_name] in H1, H2; [by rewrite number_of_name in H1|by rewrite (proj2 (string_of_name p)) in H2].
Qed.

(** What is read of it. *)
Abbreviation tp' := (read_all m new_TableProperties).

Lemma numbers_back p : numbers tp' p = numbers tp p.
Proof.
  rewrite read_all_number by apply map_sorted. change (number_name p) with (prop_name (Num p)). rewrite map_holds.
  pose proof (po_numbers _ Hok p) as Hr. destruct (written tp (Num p)) eqn:W; cbn [from_option].
  - cbn [prop_value]. unfold PutVarint64. cbn [app]. rewrite <- (app_nil_r (EncodeVarint64 _)), GetVarint64_encoded by done. done.
  - destruct p; cbn in W |- *; try done; try lia.
    symmetry. apply (po_partitions _ Hok). lia.
Qed.

Lemma strings_back p : strings tp' p = strings tp p.
Proof.
  rewrite read_all_string by apply map_sorted. change (string_name p) with (prop_name (Str p)). rewrite map_holds. cbn [written prop_value].
  destruct (Z.eqb_spec (zlen (strings tp p)) 0) as [Hz|]; [|done]. cbn. destruct (strings tp p); [done|]. unfold zlen in Hz. cbn in Hz. lia.
Qed.

(** The numbers of deletions and of merge operands are also kept as user properties. *)
Definition user_expected (k : bytes) : option bytes :=
  match number_of k with
  | Some p => if decide (p = num_deletions \/ p = num_merge_operands) then Some (PutVarint64 [] (numbers tp p)) else None
  | None => map_find k (user_collected_properties tp)
  end.

Lemma user_back k : map_find k (user_collected_properties tp') = user_expected k.
Proof.
  rewrite read_all_user by (apply map_sorted || constructor). cbn [user_collected_properties new_TableProperties map_find].
  unfold kept_raw, user_expected. destruct (number_of k) as [p|] eqn:E.
  - apply number_of_Some in E as ->. case_bool_decide as Hd; [rewrite decide_True by done|by rewrite decide_False].
    change (number_name p) with (prop_name (Num p)). rewrite map_holds. by destruct Hd as [-> | ->].
  - destruct (string_of k) as [q|] eqn:E2; [|by apply map_user].
    destruct (map_find k (user_collected_properties tp)) as [v|] eqn:Ef; [|done]. destruct (user_names k v Ef). congruence.
Qed.
End Properties.

Section Reading.
Context (XXH32 XXH64 XXH3_64bits : bytes -> Z).
Abbreviation checksum := (ComputeBuiltinChecksum XXH32 XXH64 XXH3_64bits).
Abbreviation read_properties := (ReadTablePropertiesHelper XXH32 XXH64 XXH3_64bits).

(** A block as [WriteRawBlock] writes it, with compression type [kNoCompression]. *)
Abbreviation written checksum_type c := (raw_block XXH32 XXH64 XXH3_64bits checksum_type c kNoCompression).

(** The builder's checksum of a block and its type is the reader's of the bytes. *)
Lemma checksum_last_byte type c b :
  ComputeBuiltinChecksumWithLastByte XXH32 XXH64 XXH3_64bits type c b = checksum type (c ++ [b]).
Proof.
  unfold ComputeBuiltinChecksumWithLastByte, ComputeBuiltinChecksum. rewrite Value_app, last_snoc, length_app. cbn [length].
  replace (length c + 1 - 1)%nat with (length c) by lia. by rewrite take_app_length.
Qed.

Lemma raw_block_bytes type c : written type c = (c ++ [kNoCompression]) ++ le_bytes 4 (checksum type (c ++ [kNoCompression])).
Proof. unfold raw_block. by rewrite checksum_last_byte, <- app_assoc. Qed.

Lemma helper_reads footer handle_offset name c s s' tp :
  0 <= checksum (f_checksum footer) (c ++ [kNoCompression]) < 2 ^ 32 ->
  SeekToFirstOrReport (NewDataIterator (new_Block c) kDisableGlobalSequenceNumber None) = Ret tt s ->
  properties_loop (S (length c)) handle_offset [] new_TableProperties s = Ret (StOK, tp) s' ->
  read_properties footer (written (f_checksum footer) c) (MkHandle handle_offset (zlen c)) name new_DataBlockIter =
    Ret (StOK, Some tp) s'.
Proof.
  intros Hsum Hseek Hloop. unfold ReadTablePropertiesHelper. cbn [h_size h_offset].
  assert (take (Z.to_nat (zlen c)) (written (f_checksum footer) c) = c) as ->.
  { rewrite raw_block_bytes. unfold zlen. by rewrite Nat2Z.id, <- app_assoc, take_app_length. }
  erewrite bind_Ret by reflexivity. change (NewDataIterator ?b ?g (Some new_DataBlockIter)) with (NewDataIterator b g None).
  erewrite bind_Ret by exact Hseek. erewrite bind_Ret by exact Hloop. cbv beta iota. cbn [st_ok andb].
  destruct (0 <? f_block_trailer_size footer); [|done].
  assert (verify_properties XXH32 XXH64 XXH3_64bits footer (written (f_checksum footer) c) (MkHandle handle_offset (zlen c)) name tp
    = Some StOK) as ->; [|done].
  rewrite raw_block_bytes. unfold verify_properties. cbn [h_size h_offset].
  pose proof (verify_written XXH32 XXH64 XXH3_64bits (f_checksum footer) (c ++ [kNoCompression]) name handle_offset) as Hv.
  rewrite zlen_app in Hv. change (zlen [kNoCompression]) with 1 in Hv. replace (zlen c + 1 - 1) with (zlen c) in Hv by lia.
  rewrite Hv; [done|rewrite length_app; cbn; lia|done].
Qed.

(** C21. The properties of a table round-trip.  The block that [PropertyBlockBuilder]
    makes of the properties of a table and of its user is read back, behind any file
    and with the trailer [WriteRawBlock] puts behind it, by [ReadTablePropertiesHelper] with status
    OK: all 24 numbers and all 11 strings are those that were written, also those that
    are left out of the block when they are zero or empty; the properties of the user
    are there under their names, and the numbers of deletions and of merge operands
    once more as raw bytes among them. *)
Theorem properties_round_trip (tp : TableProperties) (footer : Footer) (handle_offset : Z) (name : string) :
  props_ok tp -> block_room (props_ (properties_of tp)) < 2 ^ 32 ->
  (forall data, 0 <= checksum (f_checksum footer) data < 2 ^ 32) ->
  exists c b', properties_Finish (properties_of tp) (properties_block_ (properties_of tp)) = Ret c b' /\
  exists tp' s, read_properties footer (written (f_checksum footer) c) (MkHandle handle_offset (zlen c)) name new_DataBlockIter =
      Ret (StOK, Some tp') s /\
    (forall p, numbers tp' p = numbers tp p) /\ (forall p, strings tp' p = strings tp p) /\
    forall k, map_find k (user_collected_properties tp') = user_expected tp k.
Proof.
  intros Hok Hroom Hsum. destruct (map_sorted tp) as [Hs Hb].
  destruct (meta_block_opened (2 ^ 31 - 1) (props_ (properties_of tp)) ltac:(lia) Hroom) as (c & b' & es & rs & Hfin & O & _).
  exists c, b'. split; [unfold properties_Finish; by rewrite Hb|].
  destruct (read_block O Hs new_TableProperties handle_offset) as (s & s' & tp' & Hseek & Hloop & [Hn Hst Hu]).
  exists tp', s'. split; [by apply (helper_reads _ _ _ _ s)|].
  split; [intros p; by rewrite Hn, numbers_back|]. split; [intros p; by rewrite Hst, strings_back|].
  intros k. by rewrite Hu, user_back.
Qed.

(** A properties block that cannot be opened is read without error.  The loop of
    [ReadTablePropertiesHelper] looks at the status of the iterator only while it is
    valid, so that a corruption, which makes it invalid, ends the loop with status OK.
    In a table without block trailers, where no checksum is verified afterwards, any
    block that [Block] refuses gives the properties of an empty table, and OK. *)
Theorem refused_properties_accepted (footer : Footer) (raw : bytes) (handle : BlockHandle) (name : string) :
  f_block_trailer_size footer = 0 -> size_ (new_Block (take (Z.to_nat (h_size handle)) raw)) < 8 ->
  exists s, read_properties footer raw handle name new_DataBlockIter = Ret (StOK, Some new_TableProperties) s /\
    it_status_ (data_iter s) = StCorruption "bad block contents".
Proof.
  intros Ht Hsize. unfold ReadTablePropertiesHelper. erewrite bind_Ret by reflexivity. unfold NewDataIterator.
  rewrite (proj2 (Z.ltb_lt _ _) Hsize). erewrite bind_Ret by reflexivity. erewrite bind_Ret by reflexivity.
  rewrite Ht. eexists. split; [reflexivity|]. done.
Qed.
End Reading.

(** ** Damaged blocks *)

Section Damaged.
Context (c : bytes) (R N : Z).
Context (HR : 0 <= R) (HN : 1 <= N) (Hfit : R + 4 * N + 4 <= zlen c) (Hc : zlen c < 2 ^ 32) (Hsizes : sizes_add_up c R).

(** Offsets that were noted are those of values in the block. *)
Definition offsets_ok (handle_offset : Z) (tp : TableProperties) : Prop :=
  Forall (fun kv => exists o, 0 <= o <= zlen c - 3 /\ kv.2 = u64 (handle_offset + o)) (properties_offsets tp).

Lemma offsets_read_property k v o tp : properties_offsets (read_property k v o tp) = map_insert k o (properties_offsets tp).
Proof. unfold read_property. repeat case_match; done. Qed.

Lemma loop_any fuel s handle_offset last_key tp :
  scanning c R N s -> offsets_ok handle_offset tp -> (0 < fuel)%nat ->
  (it_Valid (data_iter s) = true -> (Z.to_nat (R - current_ (data_iter s)) < fuel)%nat) ->
  exists st tp' s', properties_loop fuel handle_offset last_key tp s = Ret (st, tp') s' /\ offsets_ok handle_offset tp'.
Proof.
  revert s last_key tp. induction fuel as [|fuel IH]; intros s last_key tp (S & Hcur & Hval) Ho H0 Hf; [lia|].
  cbn [properties_loop]. rewrite bind_gets. cbv beta. destruct (it_Valid (data_iter s)) eqn:V; cbn [negb]; [|by eexists _, tp, s].
  destruct (negb (st_ok _)); [by eexists _, tp, s|]. destruct (negb _ && _); [by eexists _, tp, s|].
  destruct (Hval eq_refl) as (o & n & Hv & Ho0 & Hn0 & Hend). specialize (Hf eq_refl).
  assert (it_value (data_iter s) = Some (sub c o n)) as ->.
  { unfold it_value. rewrite (sn_data _ _ _ _ S), Hv. cbn. by rewrite (proj2 (in_block_spec _ _ _)) by (unfold zlen in Hfit; lia). }
  erewrite bind_Ret by reflexivity. unfold ValueOffset. rewrite Hv. cbn [mbind option_bind]. erewrite bind_Ret by reflexivity.
  destruct (next_any c R N HR HN ltac:(lia) Hc Hsizes s o n S Hv) as (s1 & H1 & Hscan & Hnext). erewrite bind_Ret by exact H1.
  apply IH; [done| |lia|].
  - unfold offsets_ok. rewrite offsets_read_property. apply Forall_map_insert; [|done]. exists o. split; [lia|]. cbn.
    by rewrite (u32_small o) by lia.
  - intros V1. rewrite (Hnext V1), u32_small by lia. lia.
Qed.

End Damaged.

Section Anything.
Context (XXH32 XXH64 XXH3_64bits : bytes -> Z).

Lemma verify_any type (data : bytes) size name offset : 0 <= size -> zlen data = size + 5 ->
  exists st, VerifyBlockChecksum XXH32 XXH64 XXH3_64bits type data size name offset = Some st.
Proof.
  intros Hs Hd. unfold VerifyBlockChecksum. rewrite (proj2 (in_block_spec _ _ _)) by (unfold zlen in Hd; lia). cbn [negb].
  destruct (_ =? _); [by eexists|]. destruct (if type =? kCRC32c then _ else _) as [x y]. by eexists.
Qed.

Lemma verify_properties_any c footer (raw : bytes) handle name tp :
  zlen raw = zlen c + 5 -> h_size handle = zlen c -> f_block_trailer_size footer = 5 -> zlen c < 2 ^ 32 ->
  offsets_ok c (h_offset handle) tp ->
  exists st, verify_properties XXH32 XXH64 XXH3_64bits footer raw handle name tp = Some st.
Proof.
  intros Hraw Hh Ht Hc Ho. unfold verify_properties. rewrite Hh, Ht. pose proof (zlen_nonneg c).
  destruct (verify_any (f_checksum footer) raw (zlen c) name (h_offset handle) ltac:(lia) Hraw) as [st ->].
  cbn [mbind option_bind]. destruct st; try by eexists. destruct (map_find kGlobalSeqno (properties_offsets tp)) as [o|] eqn:E; [|by eexists].
  destruct (find_lookup _ _ o E) as [i Hi]. destruct (Forall_lookup_1 _ _ _ _ Ho Hi) as (vo & Hvo & Heq). cbn in Heq.
  assert (u64 (o - h_offset handle) = vo) as ->.
  { rewrite Heq. unfold u64. rewrite Zminus_mod_idemp_l. replace (h_offset handle + vo - h_offset handle) with vo by lia. apply Z.mod_small. lia. }
  rewrite (take_ge raw) by (unfold zlen in *; lia). rewrite (proj2 (in_block_spec _ _ _)) by (unfold zlen in *; lia). cbn [negb].
  apply verify_any; [lia|]. rewrite !zlen_app, zlen_take, zlen_drop by lia.
  change (zlen (EncodeFixed64 true 0)) with 8. lia.
Qed.


(** Any block: the loop ends, and has noted offsets within the block. *)
Lemma scan_any (c : bytes) handle_offset : counts_fit c -> sizes_add_up c (restart_offset_ (new_Block c)) ->
  exists s1 st tp s2,
    SeekToFirstOrReport (NewDataIterator (new_Block c) kDisableGlobalSequenceNumber (Some new_DataBlockIter)) = Ret tt s1 /\
    properties_loop (S (length c)) handle_offset [] new_TableProperties s1 = Ret (st, tp) s2 /\ offsets_ok c handle_offset tp.
Proof.
  intros Hcounts Hsizes. unfold NewDataIterator. destruct (Z.ltb_spec (size_ (new_Block c)) 8) as [|Hs].
  { eexists _, _, _, _. split; [reflexivity|]. split; [reflexivity|]. constructor. }
  destruct (Z.eqb_spec (num_restarts_ (new_Block c)) 0) as [|Hn].
  { eexists _, _, _, _. split; [reflexivity|]. split; [reflexivity|]. constructor. }
  destruct (opened_fits c Hcounts Hs Hn) as (Hd & HR & HN & Hend). destruct Hcounts as (Hc32 & _).
  set (R := restart_offset_ (new_Block c)) in *. set (N := num_restarts_ (new_Block c)) in *.
  set (s0 := data_Initialize _ _ _ _ _ _). assert (sane c R N (data_iter s0)) as S0 by (split; [cbn; by rewrite Hd|done..|cbn; lia]).
  destruct (first_any c R N HR HN ltac:(lia) Hc32 Hsizes s0 S0) as (s1 & Hs1 & Hscan).
  destruct (loop_any c R N HR HN Hend Hc32 Hsizes (S (length c)) s1 handle_offset [] new_TableProperties Hscan) as (st & tp & s2 & Hl & Ho);
    [constructor|lia|intros _; destruct Hscan as (_ & Hcur & _); unfold zlen in Hend; lia|].
  by exists s1, st, tp, s2.
Qed.
End Anything.

(** C29. Reading the properties of a damaged file stays within the block.  The block
    is read before its checksum is verified, so its bytes can be anything.  If the
    number of restart points is below 2^30, the hash index fits in the block and no
    two sizes of an entry add up to 2^32 or more, then [ReadTablePropertiesHelper]
    returns, with some status: it reads no byte outside of the block and its trailer,
    also when it sets the global sequence number to zero in a copy, and the loop over
    the entries ends. *)
Theorem damaged_properties_read_safely (XXH32 XXH64 XXH3_64bits : bytes -> Z)
    (footer : Footer) (raw : bytes) (handle : BlockHandle) (name : string) :
  let c := take (Z.to_nat (h_size handle)) raw in
  0 <= h_size handle -> zlen raw = h_size handle + 5 -> f_block_trailer_size footer = 5 ->
  counts_fit c -> sizes_add_up c (restart_offset_ (new_Block c)) ->
  exists r s, ReadTablePropertiesHelper XXH32 XXH64 XXH3_64bits footer raw handle name new_DataBlockIter = Ret r s.
Proof.
  intros c Hh Hraw Ht Hcounts Hsizes. unfold ReadTablePropertiesHelper. fold c.
  assert (zlen c = h_size handle) as Hc by (apply zlen_take; lia). erewrite bind_Ret by reflexivity.
  destruct (scan_any c (h_offset handle) Hcounts Hsizes) as (s1 & st & tp & s2 & Hseek & Hloop & Ho).
  erewrite bind_Ret by exact Hseek. erewrite bind_Ret by exact Hloop. cbv beta iota.
  destruct (verify_properties_any XXH32 XXH64 XXH3_64bits c footer raw handle name tp) as [st2 Hv]; try done; [lia|apply Hcounts|].
  rewrite Hv. destruct (st_ok st && _); eexists _, s2; by erewrite bind_Ret by reflexivity.
Qed.

Module PropsExample.
Definition props : TableProperties :=
  set_string comparator_name (of_string "leveldb.BytewiseComparator") (set_number num_deletions 3
    (set_number data_size 12345 (set_number file_creation_time 1700000000
      (add_user (of_string "tag") (of_string "x") new_TableProperties)))).
Definition no_hash (_ : bytes) : Z := 0.
Definition footer : Footer := MkFooter 5 kNoChecksum 5 NullBlockHandle NullBlockHandle kBlockBasedTableMagicNumber.

Lemma props_can_be_written : props_ok props.
Proof.
  split.
  - by intros []; vm_compute.
  - done.
  - constructor; [by vm_compute|constructor].
Qed.
End PropsExample.

Lemma properties_round_trip_witness : exists c b' tp' s,
  properties_Finish (properties_of PropsExample.props) (properties_block_ (properties_of PropsExample.props)) = Ret c b' /\
  ReadTablePropertiesHelper PropsExample.no_hash PropsExample.no_hash PropsExample.no_hash PropsExample.footer
    (raw_block PropsExample.no_hash PropsExample.no_hash PropsExample.no_hash kNoChecksum c kNoCompression) (MkHandle 4310 (zlen c))
    "000012.sst" new_DataBlockIter = Ret (StOK, Some tp') s /\
  numbers tp' file_creation_time = 1700000000 /\
  map_find (of_string "rocksdb.deleted.keys") (user_collected_properties tp') = Some [Byte.x03].
Proof.
  destruct (properties_round_trip PropsExample.no_hash PropsExample.no_hash PropsExample.no_hash PropsExample.props
    PropsExample.footer 4310 "000012.sst" PropsExample.props_can_be_written) as (c & b' & Hfin & tp' & s & Hread & Hn & _ & Hu).
  - by vm_compute.
  - done.
  - exists c, b', tp', s. split; [exact Hfin|]. split; [exact Hread|]. split; [by rewrite Hn|]. rewrite Hu. by vm_compute.
Defined.

Lemma refused_properties_accepted_witness : exists s,
  ReadTablePropertiesHelper PropsExample.no_hash PropsExample.no_hash PropsExample.no_hash (new_Footer kPlainTableMagicNumber 0)
    [Byte.x01; Byte.x00; Byte.x00; Byte.x00; Byte.x07] (MkHandle 0 5) "000007.sst" new_DataBlockIter =
  Ret (StOK, Some new_TableProperties) s.
Proof.
  destruct (refused_properties_accepted PropsExample.no_hash PropsExample.no_hash PropsExample.no_hash
    (new_Footer kPlainTableMagicNumber 0) [Byte.x01; Byte.x00; Byte.x00; Byte.x00; Byte.x07] (MkHandle 0 5) "000007.sst")
    as (s & Hs & _); [done|by vm_compute|]. exists s. exact Hs.
Defined.

(** One entry, in a block whose checksum does not match. *)
Lemma damaged_properties_read_safely_witness : exists s,
  ReadTablePropertiesHelper PropsExample.no_hash PropsExample.no_hash PropsExample.no_hash PropsExample.footer
    ([Byte.x00; Byte.x01; Byte.x01; Byte.x61; Byte.x62] ++ le_bytes 4 0 ++ le_bytes 4 1 ++ [Byte.x00] ++ le_bytes 4 77)
    (MkHandle 0 13) "000007.sst" new_DataBlockIter =
  Ret (StCorruption "block checksum mismatch: stored = 77, computed = 0, type = 0  in 000007.sst offset 0 size 13", None) s.
Proof.
  destruct (damaged_properties_read_safely PropsExample.no_hash PropsExample.no_hash PropsExample.no_hash PropsExample.footer
    ([Byte.x00; Byte.x01; Byte.x01; Byte.x61; Byte.x62] ++ le_bytes 4 0 ++ le_bytes 4 1 ++ [Byte.x00] ++ le_bytes 4 77)
    (MkHandle 0 13) "000007.sst") as (r & s & Hr); [done|by vm_compute|done|by vm_compute|apply small_bytes_add_up; by vm_compute; repeat constructor|].
  exists s. pose proof Hr as Hr2. vm_compute in Hr2. injection Hr2 as <- _. exact Hr.
Defined.
