(* ===== verification/PrefixIndex.v ===== *)
(** table/block_based/block_prefix_index.h, block_prefix_index.cc: the hash table that
    maps the prefix of a key to the entries of the index whose blocks may have keys
    with this prefix ([BlockPrefixIndex]), and its construction from the two meta
    blocks that are stored with a table; util/slice.cc, db/dbformat.h: prefixes of
    keys.

    Reading outside of an array, or an element that was not written, is undefined
    behaviour; assertions are left out. *)
From S2P Require Import Prelude Bits Coding IoStatus Comparator DbFormat BlockBuilder.
From stdpp Require Import base numbers list strings.
From Stdlib Require Import ZArith Lia.
Local Open Scope Z_scope.

(** ** Prefixes *)

(** [SliceTransform::Transform] and [SliceTransform::InDomain]. *)
Class SliceTransform := { Transform : bytes -> bytes; InDomain : bytes -> bool }.

Definition CappedPrefixTransform (cap_len : Z) : SliceTransform := {|
  Transform src := take (Z.to_nat (Z.min cap_len (zlen src))) src;
  InDomain _ := true |}.

Definition NoopTransform : SliceTransform := {| Transform src := src; InDomain _ := true |}.

(** What the documentation of the option [prefix_extractor] asks of prefixes. *)
Class PrefixLaws (T : SliceTransform) (C : Comparator) : Prop := {
  prefix_starts : forall k, Transform k `prefix_of` k;
  prefix_below : forall k, Compare (Transform k) k <= 0;
  prefix_monotone : forall a b, Compare a b <= 0 -> Compare (Transform a) (Transform b) <= 0;
  prefix_idempotent : forall k, Transform (Transform k) = Transform k
}.

(** [InternalKeySliceTransform] *)
Definition internal_Transform {transform_ : SliceTransform} (src : bytes) : option bytes :=
  user_key ← ExtractUserKey src; Some (Transform user_key).

(** ** The prefix index *)

Definition kNoneBlock : Z := 0x7FFFFFFF.
Definition kBlockArrayMask : Z := 0x80000000.

Definition IsNone (block_id : Z) : bool := block_id =? kNoneBlock.
Definition IsBlockId (block_id : Z) : bool := Z.land block_id kBlockArrayMask =? 0.
Definition DecodeIndex (block_id : Z) : Z := Z.lxor block_id kBlockArrayMask.
Definition EncodeIndex (index : Z) : Z := Z.lor index kBlockArrayMask.

Definition PrefixToBucket (prefix : bytes) (num_buckets : Z) : Z := Hash prefix 0 mod num_buckets.

(** [internal_prefix_extractor_] maps an internal key to its prefix. *)
Record BlockPrefixIndex := MkPrefixIndex {
  internal_prefix_extractor_ : bytes -> option bytes; pi_num_buckets_ : Z; buckets_ : list Z;
  block_array_buffer_ : list (option Z) }.

(** The array of block ids; [None] where an array is left. *)
Definition GetBlocks (key : bytes) (x : BlockPrefixIndex) : option (list (option Z)) :=
  prefix ← internal_prefix_extractor_ x key;
  let bucket := PrefixToBucket prefix (pi_num_buckets_ x) in
  block_id ← buckets_ x !! Z.to_nat bucket;
  if IsNone block_id then Some []
  else if IsBlockId block_id then Some [Some block_id]
  else
    let index := DecodeIndex block_id in
    num_blocks ← mjoin (block_array_buffer_ x !! Z.to_nat index);
    if in_block (block_array_buffer_ x) (index + 1) num_blocks
    then Some (sub (block_array_buffer_ x) (index + 1) num_blocks) else None.

(** ** BlockPrefixIndex::Builder *)

Record PrefixRecord := MkPrefixRecord { pr_prefix : bytes; start_block : Z; end_block : Z; pr_num_blocks : Z }.

Definition prefix_Add (key_prefix : bytes) (start_block num_blocks : Z) (prefixes_ : list PrefixRecord) : list PrefixRecord :=
  prefixes_ ++ [MkPrefixRecord key_prefix start_block (u32 (start_block + num_blocks - 1)) num_blocks].

(** An element of [prefixes_per_bucket] (the linked list, its head first) and of
    [num_blocks_per_bucket]. *)
Abbreviation bucket_records := (list PrefixRecord * Z)%type.

(** One turn of the loop that collects the records of each bucket; only the head of a
    list is changed later. *)
Definition collect_record (num_buckets : Z) (bs : list bucket_records) (current : PrefixRecord) : option (list bucket_records) :=
  let bucket := Z.to_nat (PrefixToBucket (pr_prefix current) num_buckets) in
  '(records, n) ← bs !! bucket;
  let pushed := <[bucket := (current :: records, u32 (n + pr_num_blocks current))]> bs in
  match records with
  | [] => Some pushed
  | prev :: next =>
    let distance := u32 (start_block current - end_block prev) in
    if distance <=? 1 then
      let merged := MkPrefixRecord (pr_prefix prev) (start_block prev) (end_block current)
                      (u32 (end_block current - start_block prev + 1)) in
      Some (<[bucket := (merged :: next, u32 (n + (pr_num_blocks current + distance - 1)))]> bs)
    else Some pushed
  end.

Fixpoint collect_records (num_buckets : Z) (bs : list bucket_records) (prefixes_ : list PrefixRecord) :
    option (list bucket_records) :=
  match prefixes_ with
  | [] => Some bs
  | current :: rest => bs' ← collect_record num_buckets bs current; collect_records num_buckets bs' rest
  end.

Definition block_array_entries (bs : list bucket_records) : Z :=
  foldl (fun total b => if 1 <? b.2 then u32 (total + (b.2 + 1)) else total) 0 bs.

Definition array_write (buffer : list (option Z)) (i v : Z) : option (list (option Z)) :=
  if in_block buffer i 1 then Some (<[Z.to_nat i := Some v]> buffer) else None.

(** The inner loop, of [n] turns from [iter] on; [last_block] goes down. *)
Fixpoint put_blocks (n : nat) (iter end_block : Z) (buffer : list (option Z)) (last_block : Z) :
    option (list (option Z) * Z) :=
  match n with
  | O => Some (buffer, last_block)
  | S n' =>
    buffer' ← array_write buffer last_block (u32 (end_block - iter));
    put_blocks n' (iter + 1) end_block buffer' (last_block - 1)
  end.

Fixpoint put_records (records : list PrefixRecord) (buffer : list (option Z)) (last_block : Z) :
    option (list (option Z)) :=
  match records with
  | [] => Some buffer
  | current :: next =>
    '(buffer', last') ← put_blocks (Z.to_nat (pr_num_blocks current)) 0 (end_block current) buffer last_block;
    put_records next buffer' last'
  end.

(** One turn of the loop that fills the arrays: [block_array_buffer], [buckets] and
    [offset]. *)
Definition put_bucket_blocks (st : list (option Z) * list Z * Z) (b : bucket_records) : option (list (option Z) * list Z * Z) :=
  let '(buffer, buckets, offset) := st in
  let '(records, num_blocks) := b in
  if num_blocks =? 0 then Some (buffer, buckets ++ [kNoneBlock], offset)
  else if num_blocks =? 1 then
    r ← head records; Some (buffer, buckets ++ [start_block r], offset)
  else
    buffer1 ← array_write buffer offset num_blocks;
    buffer2 ← put_records records buffer1 (u32 (offset + num_blocks));
    Some (buffer2, buckets ++ [EncodeIndex offset], u32 (offset + (num_blocks + 1))).

Fixpoint put_all (st : list (option Z) * list Z * Z) (bs : list bucket_records) : option (list (option Z) * list Z * Z) :=
  match bs with
  | [] => Some st
  | b :: rest => st' ← put_bucket_blocks st b; put_all st' rest
  end.

Definition prefix_Finish (internal_prefix_extractor : bytes -> option bytes) (prefixes_ : list PrefixRecord) :
    option BlockPrefixIndex :=
  let num_buckets := u32 (u32 (zlen prefixes_) + 1) in
  bs ← collect_records num_buckets (replicate (Z.to_nat num_buckets) ([], 0)) prefixes_;
  '(buffer, buckets, _) ← put_all (replicate (Z.to_nat (block_array_entries bs)) None, [], 0) bs;
  Some (MkPrefixIndex internal_prefix_extractor num_buckets buckets buffer).

(** ** Create *)

(** The loop over the metadata: its status, the records, and the position. *)
Fixpoint create_loop {S} (fuel : nat) (prefixes meta_pos : bytes) (pos : Z) (builder : list PrefixRecord) :
    prog S (Status * list PrefixRecord * Z) :=
  match fuel with
  | O => hang
  | S fuel' =>
    if (length meta_pos =? 0)%nat then mret (StOK, builder, pos)
    else
      match ('(prefix_size, m) ← GetVarint32 meta_pos; '(entry_index, m) ← GetVarint32 m;
             '(num_blocks, m) ← GetVarint32 m; Some (prefix_size, entry_index, num_blocks, m)) with
      | None => mret (StCorruption "Corrupted prefix meta block: unable to read from it.", builder, pos)
      | Some (prefix_size, entry_index, num_blocks, meta_pos') =>
        if zlen prefixes <? u64 (pos + prefix_size)
        then mret (StCorruption "Corrupted prefix meta block: size inconsistency.", builder, pos)
        else create_loop fuel' prefixes meta_pos' (u64 (pos + prefix_size))
               (prefix_Add (sub prefixes pos prefix_size) entry_index num_blocks builder)
      end
  end.

Definition prefix_Create {S} (internal_prefix_extractor : bytes -> option bytes) (prefixes prefix_meta : bytes) :
    prog S (Status * option BlockPrefixIndex) :=
  '(s, builder, pos) ← create_loop (Datatypes.S (length prefix_meta)) prefixes prefix_meta 0 [];
  if negb (st_ok s) then mret (s, None)
  else if negb (pos =? zlen prefixes) then mret (StCorruption "Corrupted prefix meta block", None)
  else x ← the (prefix_Finish internal_prefix_extractor builder); mret (StOK, Some x).
