(* ===== verification/PrefixSpec.v ===== *)
(** The table of prefixes: what is looked up under the prefix of a key has all the
    blocks that were entered for the prefix, in ascending order. *)
From S2P Require Import Prelude Bits Coding IoStatus Comparator DbFormat BlockBuilder BlockSpec PrefixIndex.
From stdpp Require Import base numbers list strings sorting list_numbers.
From Stdlib Require Import ZArith Lia.
Local Open Scope Z_scope.

(** ** Collecting the records of a bucket *)

Definition blocks_of (r : PrefixRecord) : list Z := seqZ (start_block r) (pr_num_blocks r).

(** The blocks of the records of a bucket; the list has the last record first. *)
Fixpoint ids_of (records : list PrefixRecord) : list Z :=
  match records with [] => [] | r :: next => ids_of next ++ blocks_of r end.

Record record_ok (r : PrefixRecord) : Prop := {
  rk_start : 0 <= start_block r;
  rk_num : 1 <= pr_num_blocks r;
  rk_end : end_block r = start_block r + pr_num_blocks r - 1;
  rk_limit : end_block r < 2 ^ 31 - 1 }.

(** Records come in the order of their blocks. *)
Fixpoint records_ok (low : Z) (rs : list PrefixRecord) : Prop :=
  match rs with [] => True | r :: rs => record_ok r /\ low <= start_block r /\ records_ok (end_block r) rs end.

(** The last block of the records of a bucket is not above [high]. *)
Record bucket_ok (high : Z) (b : bucket_records) : Prop := {
  bo_num : b.2 = zlen (ids_of b.1);
  bo_records : Forall record_ok b.1;
  bo_sorted : StronglySorted Z.lt (ids_of b.1);
  bo_high : forall r, head b.1 = Some r -> end_block r <= high }.

Definition bucket_add (b : bucket_records) (current : PrefixRecord) : bucket_records :=
  let '(records, n) := b in
  match records with
  | [] => ([current], u32 (n + pr_num_blocks current))
  | prev :: next =>
    let distance := u32 (start_block current - end_block prev) in
    if distance <=? 1 then
      (MkPrefixRecord (pr_prefix prev) (start_block prev) (end_block current)
         (u32 (end_block current - start_block prev + 1)) :: next, u32 (n + (pr_num_blocks current + distance - 1)))
    else (current :: prev :: next, u32 (n + pr_num_blocks current))
  end.

Lemma collect_record_add num_buckets bs current :
  collect_record num_buckets bs current =
    let i := Z.to_nat (PrefixToBucket (pr_prefix current) num_buckets) in
    b ← bs !! i; Some (<[i := bucket_add b current]> bs).
Proof.
  unfold collect_record. cbv zeta. destruct (bs !! _) as [[[|prev next] n]|]; [done| |done].
  cbn [mbind option_bind bucket_add]. destruct (u32 _ <=? 1); reflexivity.
Qed.

Lemma seqZ_sorted m n : StronglySorted Z.lt (seqZ m n).
Proof.
  destruct (Z.le_gt_cases n 0) as [Hn|Hn]; [rewrite seqZ_nil by done; constructor|].
  rewrite <- (Z2Nat.id n) by lia. generalize (Z.to_nat n) as k. clear. induction k as [|k IH]; [constructor|].
  rewrite seqZ_S. apply StronglySorted_app_2; [|done|repeat constructor].
  intros x y Hx%elem_of_seqZ ->%list_elem_of_singleton. lia.
Qed.

Lemma zlen_seqZ m n : 0 <= n -> zlen (seqZ m n) = n.
Proof. intros Hn. unfold zlen. rewrite length_seqZ. lia. Qed.

(** The blocks of a bucket are at most the last one. *)
Lemma ids_below r next b : record_ok r -> StronglySorted Z.lt (ids_of (r :: next)) -> b ∈ ids_of (r :: next) -> b <= end_block r.
Proof.
  intros R Hs Hb. cbn [ids_of] in *. pose proof (rk_end _ R). pose proof (rk_num _ R).
  apply elem_of_app in Hb as [Hb|Hb]; [|unfold blocks_of in Hb; apply elem_of_seqZ in Hb; lia].
  apply Z.lt_le_incl. apply (StronglySorted_app_1_elem_of Z.lt _ _ _ _ Hs Hb). unfold blocks_of. apply elem_of_seqZ. lia.
Qed.

Lemma merged_ids prev next (current : PrefixRecord) : record_ok prev -> record_ok current -> end_block prev <= start_block current ->
  ids_of (MkPrefixRecord (pr_prefix prev) (start_block prev) (end_block current) (end_block current - start_block prev + 1) :: next) =
    ids_of (prev :: next) ++ seqZ (end_block prev + 1) (end_block current - end_block prev).
Proof.
  intros P C Hle. pose proof (rk_end _ P). pose proof (rk_end _ C). pose proof (rk_num _ C). pose proof (rk_num _ P).
  cbn [ids_of]. rewrite <- app_assoc. f_equal. unfold blocks_of. cbn [start_block pr_num_blocks].
  replace (end_block prev + 1) with (start_block prev + pr_num_blocks prev) by lia.
  rewrite <- seqZ_app by lia. f_equal. lia.
Qed.

Lemma bucket_add_ok high b r : bucket_ok high b -> record_ok r -> high <= start_block r ->
  b.2 + pr_num_blocks r < 2 ^ 32 ->
  bucket_ok (end_block r) (bucket_add b r) /\ (bucket_add b r).2 <= b.2 + pr_num_blocks r /\
  (forall x, x ∈ ids_of b.1 -> x ∈ ids_of (bucket_add b r).1) /\ (forall x, x ∈ blocks_of r -> x ∈ ids_of (bucket_add b r).1).
Proof.
  destruct b as [records n]. intros [Hn Hr Hs Hh] R Hlow Hsize. cbn [fst snd] in *.
  pose proof (rk_start _ R). pose proof (rk_end _ R). pose proof (rk_num _ R). pose proof (rk_limit _ R).
  pose proof (zlen_nonneg (ids_of records)). destruct records as [|prev next]; cbn [bucket_add].
  - rewrite u32_small by lia. change (zlen (ids_of [])) with 0 in *. cbn [fst snd ids_of app]. split; [|split; [lia|split; [by intros x Hx%not_elem_of_nil|done]]].
    split; cbn [fst snd ids_of app]; [unfold blocks_of; rewrite zlen_seqZ; lia|by constructor|apply seqZ_sorted|].
    intros r' [= <-]. lia.
  - apply Forall_cons in Hr as [P Hr]. pose proof (Hh prev eq_refl). pose proof (ids_below prev next) as Hbelow.
    pose proof (rk_start _ P). pose proof (rk_end _ P). pose proof (rk_num _ P).
    rewrite (u32_small (start_block r - end_block prev)) by lia.
    destruct (Z.leb_spec (start_block r - end_block prev) 1) as [Hd|Hd]; rewrite !u32_small by lia; cbn [fst snd].
    + pose proof (merged_ids prev next r P R ltac:(lia)) as Hm. set (merged := MkPrefixRecord _ _ _ _) in *. rewrite Hm.
      split; [|split; [lia|split]].
      * split; cbn [fst snd]; rewrite ?Hm.
        -- rewrite zlen_app, <- Hn, zlen_seqZ by lia. lia.
        -- constructor; [|done]. split; cbn; lia.
        -- apply StronglySorted_app_2; [|exact Hs|apply seqZ_sorted].
           intros x y Hx Hy%elem_of_seqZ. specialize (Hbelow x P Hs Hx). lia.
        -- intros r' [= <-]. cbn. lia.
      * intros x Hx. apply elem_of_app. by left.
      * intros x Hx. unfold blocks_of in Hx. apply elem_of_seqZ in Hx. rewrite elem_of_app.
        destruct (decide (x <= end_block prev)) as [Hle|Hgt].
        -- left. cbn [ids_of]. apply elem_of_app. right. unfold blocks_of. apply elem_of_seqZ. lia.
        -- right. apply elem_of_seqZ. lia.
    + split; [|split; [lia|split]].
      * split; cbn [fst snd].
        -- change (ids_of (r :: prev :: next)) with (ids_of (prev :: next) ++ blocks_of r).
           rewrite zlen_app, <- Hn. unfold blocks_of. rewrite zlen_seqZ by lia. lia.
        -- constructor; [done|by constructor].
        -- change (ids_of (r :: prev :: next)) with (ids_of (prev :: next) ++ blocks_of r).
           apply StronglySorted_app_2; [|done|apply seqZ_sorted]. intros x y Hx Hy. unfold blocks_of in Hy.
           apply elem_of_seqZ in Hy. specialize (Hbelow x P Hs Hx). lia.
        -- intros r' [= <-]. lia.
      * intros x Hx. change (x ∈ ids_of (prev :: next) ++ blocks_of r). apply elem_of_app. by left.
      * intros x Hx. change (x ∈ ids_of (prev :: next) ++ blocks_of r). apply elem_of_app. by right.
Qed.

(** ** All buckets *)

Definition blocks_total (bs : list bucket_records) : Z := foldr (fun b t => b.2 + t) 0 bs.
Definition records_total (rs : list PrefixRecord) : Z := foldr (fun r t => pr_num_blocks r + t) 0 rs.

Lemma blocks_total_cons b bs : blocks_total (b :: bs) = b.2 + blocks_total bs.
Proof. done. Qed.

Lemma blocks_total_insert bs i b b' : bs !! i = Some b -> blocks_total (<[i := b']> bs) = blocks_total bs - b.2 + b'.2.
Proof.
  revert i. induction bs as [|c bs IH]; intros [|i] Hi; try done.
  - injection Hi as ->. change (<[0%nat := b']> (b :: bs)) with (b' :: bs). rewrite !blocks_total_cons. lia.
  - change (<[S i := b']> (c :: bs)) with (c :: <[i := b']> bs). rewrite !blocks_total_cons, (IH i Hi). lia.
Qed.

Lemma blocks_total_nonneg high bs : Forall (bucket_ok high) bs -> 0 <= blocks_total bs.
Proof.
  induction 1 as [|c l Hc _ IH]; [done|]. rewrite blocks_total_cons, (bo_num _ _ Hc).
  pose proof (zlen_nonneg (ids_of c.1)). lia.
Qed.

Lemma blocks_total_ge high bs i b : Forall (bucket_ok high) bs -> bs !! i = Some b -> 0 <= b.2 <= blocks_total bs.
Proof.
  intros H. revert i. induction H as [|c bs Hc H IH]; intros [|i] Hi; try done; rewrite blocks_total_cons;
    pose proof (bo_num _ _ Hc) as Hn; pose proof (zlen_nonneg (ids_of c.1)); pose proof (blocks_total_nonneg _ _ H).
  - injection Hi as ->. lia.
  - specialize (IH i Hi). lia.
Qed.

Lemma bucket_ok_weaken high high' b : bucket_ok high b -> high <= high' -> bucket_ok high' b.
Proof. intros [H1 H2 H3 H4] Hle. split; try done. intros r Hr. specialize (H4 r Hr). lia. Qed.

Lemma PrefixToBucket_range prefix num_buckets : 0 < num_buckets -> 0 <= PrefixToBucket prefix num_buckets < num_buckets.
Proof. intros H. apply Z.mod_pos_bound. done. Qed.

Definition bucket_of (num_buckets : Z) (prefix : bytes) : nat := Z.to_nat (PrefixToBucket prefix num_buckets).

Lemma records_total_nonneg low rs : records_ok low rs -> 0 <= records_total rs.
Proof.
  revert low. induction rs as [|r rs IH]; intros low; [done|]. intros (R & _ & H). specialize (IH _ H).
  pose proof (rk_num _ R). unfold records_total in *. cbn. lia.
Qed.

(** The last block of records. *)
Definition records_high (low : Z) (rs : list PrefixRecord) : Z := foldl (fun _ r => end_block r) low rs.

Lemma collect_ok rs : forall num_buckets high bs,
  Z.of_nat (length bs) = num_buckets -> 0 < num_buckets -> Forall (bucket_ok high) bs -> records_ok high rs ->
  blocks_total bs + records_total rs < 2 ^ 32 ->
  exists bs', collect_records num_buckets bs rs = Some bs' /\ length bs' = length bs /\ Forall (bucket_ok (records_high high rs)) bs' /\
    blocks_total bs' <= blocks_total bs + records_total rs /\
    (forall i b x, bs !! i = Some b -> x ∈ ids_of b.1 -> exists b', bs' !! i = Some b' /\ x ∈ ids_of b'.1) /\
    (forall r x, r ∈ rs -> x ∈ blocks_of r ->
      exists b', bs' !! bucket_of num_buckets (pr_prefix r) = Some b' /\ x ∈ ids_of b'.1).
Proof.
  induction rs as [|r rs IH]; intros num_buckets high bs Hlen Hpos Hok Hrs Hsum.
  { exists bs. unfold records_total. cbn. split_and!; try done; [lia|naive_solver|]. by intros r x Hr%not_elem_of_nil. }
  destruct Hrs as (R & Hlow & Hrs). cbn [collect_records]. rewrite collect_record_add. cbv zeta. fold (bucket_of num_buckets (pr_prefix r)).
  set (i := bucket_of num_buckets (pr_prefix r)). pose proof (PrefixToBucket_range (pr_prefix r) num_buckets Hpos).
  destruct (lookup_lt_is_Some_2 bs i) as [b Hb]; [unfold i, bucket_of; lia|]. rewrite Hb. cbn [mbind option_bind].
  pose proof (blocks_total_ge high bs i b Hok Hb). pose proof (records_total_nonneg _ _ Hrs).
  assert (records_total (r :: rs) = pr_num_blocks r + records_total rs) as Ht by done. rewrite Ht in *.
  pose proof (rk_end _ R). pose proof (rk_num _ R).
  destruct (bucket_add_ok high b r (Forall_lookup_1 _ _ _ _ Hok Hb) R Hlow ltac:(lia)) as (Hnew & Hle & Hold & Hblocks).
  pose proof (blocks_total_insert bs i b (bucket_add b r) Hb) as Hins.
  destruct (IH num_buckets (end_block r) (<[i := bucket_add b r]> bs)) as (bs' & Hc & Hl & Hok' & Hs & Hkeep & Hnewr).
  { by rewrite length_insert. }
  { done. }
  { apply Forall_insert; [|done]. eapply Forall_impl; [exact Hok|]. intros c Hc. eapply bucket_ok_weaken; [done|lia]. }
  { done. }
  { lia. }
  exists bs'. split; [done|]. split; [by rewrite Hl, length_insert|]. split; [done|]. split; [lia|].
  assert (i < length bs)%nat as Hil by (by eapply lookup_lt_Some).
  split.
  - intros j c x Hj Hx. destruct (decide (i = j)) as [<-|Hne].
    + rewrite Hb in Hj. injection Hj as <-. apply (Hkeep i (bucket_add b r)); [by apply list_lookup_insert_eq|by apply Hold].
    + apply (Hkeep j c); [by rewrite list_lookup_insert_ne|done].
  - intros r' x Hr' Hx. apply elem_of_cons in Hr' as [->|Hr']; [|by apply (Hnewr r')].
    apply (Hkeep i (bucket_add b r)); [by apply list_lookup_insert_eq|by apply Hblocks].
Qed.

(** ** Filling the arrays *)

Lemma write_at (A C : list (option Z)) m v : array_write (A ++ m :: C) (zlen A) v = Some (A ++ Some v :: C).
Proof.
  unfold array_write, in_block. pose proof (zlen_nonneg A) as Ha.
  rewrite (proj2 (Z.leb_le 0 (zlen A))), (proj2 (Z.leb_le 0 1)), (proj2 (Z.leb_le _ _)) by (unfold zlen; rewrite ?length_app; cbn; lia).
  cbn [andb]. f_equal. unfold zlen. rewrite Nat2Z.id. by rewrite insert_app_r_alt, Nat.sub_diag by done.
Qed.

Lemma put_blocks_ok (A M C : list (option Z)) n iter end_block :
  length M = n -> 0 <= end_block - iter - Z.of_nat n + 1 -> end_block - iter < 2 ^ 32 ->
  put_blocks n iter end_block (A ++ M ++ C) (zlen A + Z.of_nat n - 1) =
    Some (A ++ (Some <$> seqZ (end_block - iter - Z.of_nat n + 1) (Z.of_nat n)) ++ C, zlen A - 1).
Proof.
  revert M C iter. induction n as [|n IH]; intros M C iter Hm Hlo Hhi.
  { destruct M; [|done]. cbn [put_blocks]. rewrite seqZ_nil by done. do 2 f_equal. lia. }
  destruct (exists_last (l := M)) as (M' & m & ->); [by intros ->|]. rewrite length_app in Hm. cbn in Hm.
  cbn [put_blocks]. rewrite <- (app_assoc M'). cbn [app]. rewrite (app_assoc A).
  replace (zlen A + Z.of_nat (S n) - 1) with (zlen (A ++ M')) by (unfold zlen; rewrite length_app; lia).
  rewrite u32_small by lia. rewrite write_at. cbn [mbind option_bind]. rewrite <- app_assoc.
  replace (zlen (A ++ M') - 1) with (zlen A + Z.of_nat n - 1) by (unfold zlen; rewrite length_app; lia).
  rewrite (IH M' (Some (end_block - iter) :: C) (iter + 1)) by lia.
  rewrite seqZ_S, fmap_app, <- !app_assoc. cbn [fmap list_fmap app]. do 4 f_equal.
  - f_equal. f_equal. lia.
  - do 3 f_equal. lia.
Qed.

Lemma put_records_ok records : forall (A M C : list (option Z)), Forall record_ok records -> length M = length (ids_of records) ->
  put_records records (A ++ M ++ C) (zlen A + zlen (ids_of records) - 1) = Some (A ++ (Some <$> ids_of records) ++ C).
Proof.
  induction records as [|r records IH]; intros A M C Hok Hm.
  { destruct M; [|done]. done. }
  apply Forall_cons in Hok as [R Hok]. cbn [ids_of put_records] in *. rewrite length_app in Hm.
  pose proof (rk_end _ R). pose proof (rk_num _ R). pose proof (rk_start _ R). pose proof (rk_limit _ R).
  assert (zlen (blocks_of r) = pr_num_blocks r) as Hz by (unfold blocks_of; apply zlen_seqZ; lia).
  rewrite <- (take_drop (length (ids_of records)) M), <- !app_assoc, (app_assoc A).
  set (M1 := take _ M). set (M2 := drop _ M).
  assert (length M1 = length (ids_of records)) as HM1 by (unfold M1; rewrite length_take; lia).
  assert (length M2 = Z.to_nat (pr_num_blocks r)) as HM2 by (unfold M2; rewrite length_drop; unfold zlen in Hz; lia).
  replace (zlen A + zlen (ids_of records ++ blocks_of r) - 1) with (zlen (A ++ M1) + Z.of_nat (Z.to_nat (pr_num_blocks r)) - 1)
    by (rewrite !zlen_app, Hz; unfold zlen; lia).
  rewrite put_blocks_ok by (rewrite ?Z2Nat.id; lia). cbn [mbind option_bind]. rewrite <- app_assoc.
  replace (zlen (A ++ M1) - 1) with (zlen A + zlen (ids_of records) - 1) by (rewrite zlen_app; unfold zlen; lia).
  rewrite IH by done. rewrite fmap_app, <- !app_assoc. do 5 f_equal. unfold blocks_of. rewrite Z2Nat.id by lia. f_equal. lia.
Qed.

(** What is found under an entry of [buckets]. *)
Definition blocks_at (buffer : list (option Z)) (block_id : Z) : option (list (option Z)) :=
  if IsNone block_id then Some []
  else if IsBlockId block_id then Some [Some block_id]
  else
    let index := DecodeIndex block_id in
    num_blocks ← mjoin (buffer !! Z.to_nat index);
    if in_block buffer (index + 1) num_blocks then Some (sub buffer (index + 1) num_blocks) else None.

Lemma mask_bits n : 0 <= n -> Z.testbit kBlockArrayMask n = (n =? 31).
Proof. intros Hn. change kBlockArrayMask with (2 ^ 31). rewrite Z.pow2_bits_eqb by lia. apply Z.eqb_sym. Qed.

Lemma below_mask x : 0 <= x < 2 ^ 31 -> Z.land x kBlockArrayMask = 0 /\ IsBlockId (EncodeIndex x) = false /\
  DecodeIndex (EncodeIndex x) = x /\ IsNone (EncodeIndex x) = false.
Proof.
  intros Hx. assert (Z.testbit x 31 = false) as H31.
  { destruct (decide (x = 0)) as [->|]; [done|]. apply Z.bits_above_log2; [lia|]. apply Z.log2_lt_pow2; lia. }
  assert (Z.land x kBlockArrayMask = 0) as Hl.
  { apply Z.bits_inj'. intros n Hn. rewrite Z.land_spec, Z.bits_0, mask_bits by done.
    destruct (Z.eqb_spec n 31) as [->|]; [by rewrite H31|by rewrite andb_false_r]. }
  split; [done|]. unfold EncodeIndex, IsBlockId, DecodeIndex, IsNone. split; [|split].
  - rewrite Z.land_lor_distr_l, Hl. done.
  - apply Z.bits_inj'. intros n Hn. rewrite Z.lxor_spec, Z.lor_spec, mask_bits by done.
    destruct (Z.eqb_spec n 31) as [->|]; [by rewrite H31|]. rewrite orb_false_r. by destruct (Z.testbit x n).
  - apply Z.eqb_neq. intros E. assert (Z.testbit (Z.lor x kBlockArrayMask) 31 = Z.testbit kNoneBlock 31) as H by (by rewrite E).
    rewrite Z.lor_spec, H31 in H. done.
Qed.

Definition entries_of (b : bucket_records) : Z := if 1 <? b.2 then b.2 + 1 else 0.
Definition entries_total (bs : list bucket_records) : Z := foldr (fun b t => entries_of b + t) 0 bs.

Lemma entries_total_cons b bs : entries_total (b :: bs) = entries_of b + entries_total bs.
Proof. done. Qed.

Lemma entries_total_bound high bs : Forall (bucket_ok high) bs -> 0 <= entries_total bs <= 2 * blocks_total bs.
Proof.
  induction 1 as [|b bs Hb _ IH]; [done|]. rewrite entries_total_cons, blocks_total_cons.
  pose proof (bo_num _ _ Hb). pose proof (zlen_nonneg (ids_of b.1)). unfold entries_of.
  destruct (Z.ltb_spec 1 b.2); lia.
Qed.

Lemma block_array_entries_total high bs : Forall (bucket_ok high) bs -> entries_total bs < 2 ^ 32 ->
  block_array_entries bs = entries_total bs.
Proof.
  intros Hok Hsum. unfold block_array_entries.
  assert (forall t, 0 <= t -> t + entries_total bs < 2 ^ 32 ->
    foldl (fun total b => if 1 <? b.2 then u32 (total + (b.2 + 1)) else total) t bs = t + entries_total bs) as H.
  { clear Hsum. induction Hok as [|b bs Hb Hok IH]; intros t Ht Hs; cbn [foldl]; [unfold entries_total; cbn; lia|].
    rewrite entries_total_cons in *. pose proof (entries_total_bound _ _ Hok). unfold entries_of in *.
    destruct (Z.ltb_spec 1 b.2); [rewrite u32_small by lia|]; rewrite IH; lia. }
  by rewrite H.
Qed.

Lemma single_block high records : bucket_ok high (records, 1) ->
  exists r, head records = Some r /\ ids_of records = [start_block r] /\ 0 <= start_block r < 2 ^ 31 - 1.
Proof.
  intros [Hn Hr _ _]. cbn [fst snd] in *. destruct records as [|r next]; [done|]. exists r. split; [done|].
  apply Forall_cons in Hr as [R _]. pose proof (rk_num _ R). pose proof (rk_end _ R). pose proof (rk_limit _ R). pose proof (rk_start _ R).
  cbn [ids_of] in *. unfold blocks_of in *. rewrite zlen_app, zlen_seqZ in Hn by lia. pose proof (zlen_nonneg (ids_of next)).
  assert (pr_num_blocks r = 1) as -> by lia. destruct (ids_of next) as [|x l]; [|unfold zlen in Hn; cbn in Hn; lia].
  split; [done|lia].
Qed.

Lemma blocks_at_array (A C : list (option Z)) ids : zlen A < 2 ^ 31 ->
  blocks_at (A ++ Some (zlen ids) :: (Some <$> ids) ++ C) (EncodeIndex (zlen A)) = Some (Some <$> ids).
Proof.
  intros Ha. pose proof (zlen_nonneg A). destruct (below_mask (zlen A) ltac:(lia)) as (_ & Hb & Hd & Hn).
  unfold blocks_at. rewrite Hn, Hb, Hd. cbv zeta. replace (Z.to_nat (zlen A)) with (length A) by (unfold zlen; lia).
  rewrite lookup_app_r, Nat.sub_diag by done. cbn [lookup list_lookup mjoin option_join mbind option_bind].
  unfold in_block. pose proof (zlen_nonneg ids). rewrite (proj2 (Z.leb_le 0 _)), (proj2 (Z.leb_le 0 (zlen ids))), (proj2 (Z.leb_le _ _))
    by (unfold zlen in *; rewrite ?length_app; cbn [length]; rewrite ?length_app, ?length_fmap; lia).
  cbn [andb]. f_equal. rewrite cons_middle, app_assoc. apply sub_middle; unfold zlen; rewrite ?length_app, ?length_fmap; cbn; lia.
Qed.

Lemma put_bucket_ok high done buckets b rest : bucket_ok high b -> zlen done + entries_of b < 2 ^ 31 ->
  exists more id, put_bucket_blocks (done ++ replicate (Z.to_nat (entries_of b)) None ++ rest, buckets, zlen done) b =
      Some ((done ++ more) ++ rest, buckets ++ [id], zlen (done ++ more)) /\
    zlen more = entries_of b /\ forall C, blocks_at ((done ++ more) ++ C) id = Some (Some <$> ids_of b.1).
Proof.
  intros Hb Hz. destruct b as [records n]. pose proof (bo_num _ _ Hb) as Hn. pose proof (zlen_nonneg (ids_of records)). pose proof (zlen_nonneg done).
  cbn [fst snd put_bucket_blocks] in *. unfold entries_of in *. cbn [snd] in *. destruct (Z.eqb_spec n 0) as [E0|E0]; [|destruct (Z.eqb_spec n 1) as [E1|E1]].
  - rewrite (proj2 (Z.ltb_ge 1 n)) in * by lia. exists [], kNoneBlock. rewrite app_nil_r. split; [done|]. split; [done|]. intros C.
    destruct (ids_of records); [done|]. unfold zlen in Hn. cbn in Hn. lia.
  - rewrite E1 in *. destruct (single_block high records Hb) as (r & Hr & Hids & Hrange). rewrite Hr, Hids. exists [], (start_block r).
    rewrite app_nil_r. split; [done|]. split; [done|]. intros C. unfold blocks_at, IsNone, IsBlockId.
    rewrite (proj1 (below_mask (start_block r) ltac:(lia))), (proj2 (Z.eqb_neq _ _)); [done|]. change kNoneBlock with (2 ^ 31 - 1). lia.
  - rewrite (proj2 (Z.ltb_lt 1 n)) in * by lia. replace (Z.to_nat (n + 1)) with (S (Z.to_nat n)) by lia. cbn [replicate app].
    rewrite write_at. cbn [mbind option_bind]. rewrite (u32_small (zlen done + n)) by lia.
    pose proof (put_records_ok records (done ++ [Some n]) (replicate (Z.to_nat n) None) rest (bo_records _ _ Hb)) as Hp.
    rewrite <- !app_assoc in Hp. cbn [app] in Hp. rewrite zlen_app in Hp. change (zlen [Some n]) with 1 in Hp.
    replace (zlen done + 1 + zlen (ids_of records) - 1) with (zlen done + n) in Hp by lia.
    rewrite Hp by (rewrite length_replicate; unfold zlen in Hn; lia). cbn [mbind option_bind].
    exists (Some n :: (Some <$> ids_of records)), (EncodeIndex (zlen done)).
    assert (zlen (Some n :: (Some <$> ids_of records)) = n + 1) as Hm by (unfold zlen in *; cbn; rewrite length_fmap; lia).
    split; [|split; [done|]].
    + rewrite zlen_app, Hm, <- !app_assoc. cbn [app]. do 2 f_equal. apply u32_small. lia.
    + intros C. rewrite <- app_assoc. cbn [app]. rewrite Hn. apply blocks_at_array. lia.
Qed.

Lemma put_all_ok bs : forall high done buckets, Forall (bucket_ok high) bs -> zlen done + entries_total bs < 2 ^ 31 ->
  exists more ids offset, put_all (done ++ replicate (Z.to_nat (entries_total bs)) None, buckets, zlen done) bs =
      Some (done ++ more, buckets ++ ids, offset) /\ length ids = length bs /\
    forall i b, bs !! i = Some b -> exists id, ids !! i = Some id /\ blocks_at (done ++ more) id = Some (Some <$> ids_of b.1).
Proof.
  induction bs as [|b bs IH]; intros high done buckets Hok Hz.
  { exists [], [], (zlen done). cbn. rewrite !app_nil_r. split; [done|]. split; [done|]. by intros i b Hi. }
  apply Forall_cons in Hok as [Hb Hok]. rewrite entries_total_cons in *. pose proof (entries_total_bound _ _ Hok).
  assert (0 <= entries_of b).
  { pose proof (bo_num _ _ Hb). pose proof (zlen_nonneg (ids_of b.1)). unfold entries_of. destruct (1 <? b.2); lia. }
  rewrite Z2Nat.inj_add, replicate_add by lia. cbn [put_all].
  destruct (put_bucket_ok high done buckets b (replicate (Z.to_nat (entries_total bs)) None) Hb ltac:(lia))
    as (m1 & id & H1 & Hm1 & Hat). rewrite H1. cbn [mbind option_bind].
  destruct (IH high (done ++ m1) (buckets ++ [id]) Hok) as (m2 & ids & offset & H2 & Hl & Hall); [rewrite zlen_app; lia|].
  exists (m1 ++ m2), (id :: ids), offset. rewrite H2, <- !app_assoc. split; [done|]. split; [cbn; lia|].
  intros [|i] c Hi; cbn in Hi.
  - injection Hi as <-. exists id. split; [done|]. rewrite app_assoc. apply Hat.
  - rewrite app_assoc. by apply Hall.
Qed.

(** ** Finish *)

Lemma records_count low rs : records_ok low rs -> zlen rs <= records_total rs.
Proof.
  revert low. induction rs as [|r rs IH]; intros low; [done|]. intros (R & _ & H). specialize (IH _ H). pose proof (rk_num _ R).
  change (records_total (r :: rs)) with (pr_num_blocks r + records_total rs).
  change (zlen (r :: rs)) with (Z.of_nat (S (length rs))). change (zlen rs) with (Z.of_nat (length rs)) in IH. lia.
Qed.

Lemma ids_range high b x : bucket_ok high b -> x ∈ ids_of b.1 -> 0 <= x <= high.
Proof.
  intros [_ Hr Hs Hh] Hx. split.
  - clear Hs Hh. induction Hr as [|r rs R _ IH]; [by apply not_elem_of_nil in Hx|]. cbn [ids_of] in Hx.
    apply elem_of_app in Hx as [Hx|Hx]; [by apply IH|]. unfold blocks_of in Hx. apply elem_of_seqZ in Hx. pose proof (rk_start _ R). lia.
  - destruct (b.1) as [|r rs]; [by apply not_elem_of_nil in Hx|]. apply Forall_cons in Hr as [R _].
    pose proof (ids_below r rs x R Hs Hx). specialize (Hh r eq_refl). lia.
Qed.

Lemma blocks_total_empty n : blocks_total (replicate n ([], 0)) = 0.
Proof. induction n as [|n IH]; [done|]. cbn [replicate]. by rewrite blocks_total_cons, IH. Qed.

Lemma prefix_Finish_ok extract rs : records_ok 0 rs -> 2 * records_total rs < 2 ^ 31 ->
  exists x, prefix_Finish extract rs = Some x /\
  forall key p, extract key = Some p -> exists ids, GetBlocks key x = Some (Some <$> ids) /\
    StronglySorted Z.lt ids /\ (forall b, b ∈ ids -> 0 <= b <= records_high 0 rs) /\
    (forall r b, r ∈ rs -> pr_prefix r = p -> b ∈ blocks_of r -> b ∈ ids).
Proof.
  intros Hrs Hsize. pose proof (records_count 0 rs Hrs). pose proof (zlen_nonneg rs). unfold prefix_Finish. cbv zeta.
  rewrite !u32_small by (rewrite ?u32_small; lia). set (nb := zlen rs + 1).
  assert (Forall (bucket_ok 0) (replicate (Z.to_nat nb) ([], 0))) as Hempty.
  { apply Forall_replicate. split; try done. constructor. }
  destruct (collect_ok rs nb 0 (replicate (Z.to_nat nb) ([], 0))) as (bs & Hc & Hlen & Hok & Hsum & _ & Hall).
  { rewrite length_replicate. lia. }
  { lia. }
  { done. }
  { done. }
  { rewrite blocks_total_empty. lia. }
  rewrite blocks_total_empty in Hsum. rewrite length_replicate in Hlen. pose proof (entries_total_bound _ _ Hok). rewrite Hc. cbn [mbind option_bind].
  rewrite (block_array_entries_total _ _ Hok) by lia.
  destruct (put_all_ok bs _ [] [] Hok) as (more & ids & offset & Hp & Hl & Hat); [change (zlen []) with 0; lia|].
  change (zlen []) with 0 in Hp. cbn [app] in Hp, Hat. rewrite Hp. cbn [mbind option_bind]. eexists. split; [done|].
  intros key p Hk. pose proof (PrefixToBucket_range p nb ltac:(lia)) as Hr.
  destruct (lookup_lt_is_Some_2 bs (bucket_of nb p)) as [b Hb]; [unfold bucket_of; lia|].
  destruct (Hat _ _ Hb) as (id & Hid & Hblocks). exists (ids_of b.1). split; [|split; [|split]].
  - unfold GetBlocks. cbn [internal_prefix_extractor_ pi_num_buckets_ buckets_ block_array_buffer_]. rewrite Hk. cbn [mbind option_bind].
    fold (bucket_of nb p). rewrite Hid. exact Hblocks.
  - apply (Forall_lookup_1 _ _ _ _ Hok Hb).
  - intros x Hx. by apply (ids_range _ b x (Forall_lookup_1 _ _ _ _ Hok Hb)).
  - intros r x Hin <- Hx. destruct (Hall r x Hin Hx) as (b' & Hb' & Hx'). rewrite Hb in Hb'. by injection Hb' as <-.
Qed.

(** ** Create *)

(** A prefix with its first block and the number of its blocks. *)
Abbreviation prefix_group := (bytes * Z * Z)%type.

Definition group_record (g : prefix_group) : PrefixRecord :=
  MkPrefixRecord g.1.1 g.1.2 (g.1.2 + g.2 - 1) g.2.
Definition group_meta (g : prefix_group) : bytes :=
  EncodeVarint32 (zlen g.1.1) ++ EncodeVarint32 g.1.2 ++ EncodeVarint32 g.2.
Definition group_prefixes (gs : list prefix_group) : bytes := concat ((fun g => g.1.1) <$> gs).
Definition group_metas (gs : list prefix_group) : bytes := concat (group_meta <$> gs).

Lemma group_meta_decoded g rest : zlen g.1.1 < 2 ^ 32 -> record_ok (group_record g) ->
  ('(prefix_size, m) ← GetVarint32 (group_meta g ++ rest); '(entry_index, m) ← GetVarint32 m;
   '(num_blocks, m) ← GetVarint32 m; Some (prefix_size, entry_index, num_blocks, m)) =
    Some (zlen g.1.1, g.1.2, g.2, rest).
Proof.
  intros Hz R. pose proof (rk_start _ R). pose proof (rk_num _ R). pose proof (rk_end _ R). pose proof (rk_limit _ R).
  pose proof (zlen_nonneg g.1.1). cbn in *. unfold group_meta. rewrite <- !app_assoc.
  rewrite GetVarint32_encoded by lia. cbn [mbind option_bind]. rewrite GetVarint32_encoded by lia. cbn [mbind option_bind].
  by rewrite GetVarint32_encoded by lia.
Qed.

Lemma create_loop_ok {S} (s : S) prefixes gs : forall fuel pre builder low,
  prefixes = pre ++ group_prefixes gs -> zlen prefixes < 2 ^ 32 -> records_ok low (group_record <$> gs) ->
  (length (group_metas gs) < fuel)%nat ->
  create_loop fuel prefixes (group_metas gs) (zlen pre) builder s =
    Ret (StOK, builder ++ (group_record <$> gs), zlen prefixes) s.
Proof.
  induction gs as [|g gs IH]; intros fuel pre builder low Hp Hz Hok Hf.
  { destruct fuel as [|fuel]; [lia|]. cbn. rewrite app_nil_r. unfold group_prefixes in Hp. cbn in Hp. by rewrite app_nil_r in Hp; subst. }
  destruct Hok as (R & _ & Hok). destruct fuel as [|fuel]; [lia|]. cbn [create_loop].
  change (group_metas (g :: gs)) with (group_meta g ++ group_metas gs) in *.
  change (group_prefixes (g :: gs)) with (g.1.1 ++ group_prefixes gs) in *. rewrite length_app in Hf.
  pose proof (rk_num _ R). pose proof (rk_start _ R). pose proof (rk_limit _ R). pose proof (rk_end _ R).
  pose proof (zlen_nonneg pre). pose proof (zlen_nonneg g.1.1). pose proof (zlen_nonneg (group_prefixes gs)).
  assert (zlen prefixes = zlen pre + (zlen g.1.1 + zlen (group_prefixes gs))) as Hlen by (by rewrite Hp, !zlen_app).
  assert (1 <= length (group_meta g))%nat.
  { unfold group_meta. rewrite length_app. pose proof (zlen_EncodeVarint32 (zlen g.1.1) ltac:(lia)). unfold zlen in *. lia. }
  rewrite (proj2 (Nat.eqb_neq _ 0)) by (rewrite length_app; lia).
  rewrite group_meta_decoded by (done || lia). rewrite u64_small by lia. rewrite (proj2 (Z.ltb_ge _ _)) by lia.
  rewrite <- (zlen_app pre). rewrite (IH fuel (pre ++ g.1.1) _ (end_block (group_record g))); [|by rewrite <- app_assoc|done|done|lia].
  unfold prefix_Add. rewrite <- app_assoc. cbn [app fmap list_fmap]. do 4 f_equal.
  unfold group_record. cbn in *. f_equal. f_equal; [|apply u32_small; lia]. rewrite Hp. apply sub_middle; unfold zlen; lia.
Qed.

Lemma prefix_Create_ok {S} (s : S) extract gs :
  records_ok 0 (group_record <$> gs) -> zlen (group_prefixes gs) < 2 ^ 32 -> 2 * records_total (group_record <$> gs) < 2 ^ 31 ->
  exists x, prefix_Create extract (group_prefixes gs) (group_metas gs) s = Ret (StOK, Some x) s /\
  forall key p, extract key = Some p -> exists ids, GetBlocks key x = Some (Some <$> ids) /\
    StronglySorted Z.lt ids /\ (forall b, b ∈ ids -> 0 <= b <= records_high 0 (group_record <$> gs)) /\
    (forall start num b, (p, start, num) ∈ gs -> start <= b < start + num -> b ∈ ids).
Proof.
  intros Hok Hz Hsize. destruct (prefix_Finish_ok extract (group_record <$> gs) Hok Hsize) as (x & Hx & Hall).
  exists x. split.
  - unfold prefix_Create.
    rewrite (bind_Ret _ _ _ _ _ (create_loop_ok s (group_prefixes gs) gs _ [] [] 0 eq_refl Hz Hok (Nat.lt_succ_diag_r _))).
    cbv beta iota. cbn [st_ok negb app]. rewrite Z.eqb_refl, Hx. done.
  - intros key p Hk. destruct (Hall key p Hk) as (ids & Hg & Hs & Hr & Hin). exists ids. split_and!; try done.
    intros start num b Hg' Hb. apply (Hin (group_record (p, start, num))); [|done|].
    + apply list_elem_of_fmap. by exists (p, start, num).
    + unfold blocks_of. cbn. apply elem_of_seqZ. lia.
Qed.

(** ** Records at the end *)

Lemma records_high_snoc low rs r : records_high low (rs ++ [r]) = end_block r.
Proof. unfold records_high. by rewrite foldl_snoc. Qed.

Lemma records_ok_snoc low rs r : records_ok low (rs ++ [r]) <-> records_ok low rs /\ record_ok r /\ records_high low rs <= start_block r.
Proof.
  revert low. induction rs as [|r0 rs IH]; intros low; cbn; [tauto|]. rewrite IH.
  change (records_high low (r0 :: rs)) with (records_high (end_block r0) rs). tauto.
Qed.

Lemma records_total_snoc rs r : records_total (rs ++ [r]) = records_total rs + pr_num_blocks r.
Proof.
  induction rs as [|r0 rs IH]; [unfold records_total; cbn; lia|]. cbn [app]. change (records_total (r0 :: ?l)) with (pr_num_blocks r0 + records_total l).
  rewrite IH. lia.
Qed.

(** ** Prefixes in the bytewise order *)

Lemma lex_nil_l a : lex [] a <= 0.
Proof. by destruct a. Qed.
Lemma lex_nil_r a : 0 <= lex a [].
Proof. by destruct a. Qed.

Lemma lex_prefix p a : p `prefix_of` a -> lex p a <= 0.
Proof. intros [t ->]. pose proof (lex_app p [] t) as H. rewrite app_nil_r in H. rewrite H. apply lex_nil_l. Qed.

Lemma lex_take n a b : lex a b <= 0 -> lex (take n a) (take n b) <= 0.
Proof.
  revert a b. induction n as [|n IH]; intros [|x a] [|y b]; cbn; try lia.
  destruct (Z.ltb_spec (byte_val x) (byte_val y)), (Z.ltb_spec (byte_val y) (byte_val x)); try lia. apply IH.
Qed.

(** A separator of two slices is not above a prefix of the second that is above the
    first. *)
Lemma separator_below_prefix l f p : lex l p < 0 -> p `prefix_of` f -> lex (bytewise_FindShortestSeparator l f) p <= 0.
Proof.
  intros Hlt Hp. assert (lex l p <= 0) as Hsame by lia. unfold bytewise_FindShortestSeparator.
  destruct (difference_offset_split l f) as (q & a & b & Ha & Hb & Hl & Hd). rewrite <- Hl.
  destruct a as [|x a], b as [|y b];
    try (rewrite (proj2 (Nat.leb_le _ _)); [done|subst; rewrite !length_app; cbn; lia]).
  destruct (_ <=? _)%nat; [done|]. subst l f. rewrite !at_app_length.
  destruct (Z.leb_spec (byte_val y) (byte_val x)) as [_|Hxy]; [done|].
  assert (exists b0, p = q ++ y :: b0) as [b0 ->].
  { assert (~ p `prefix_of` q) as Hn.
    { intros [t ->]. rewrite <- app_assoc in Hlt. pose proof (lex_app p (t ++ x :: a) []) as E. rewrite app_nil_r in E.
      rewrite E in Hlt. pose proof (lex_nil_r (t ++ x :: a)). lia. }
    destruct (prefix_weak_total p q _ Hp) as [?|[t ->]]; [by exists (y :: b)|done|].
    apply prefix_app_inv in Hp. destruct t as [|z t]; [by destruct Hn; rewrite app_nil_r|].
    exists t. by rewrite (prefix_cons_inv_1 _ _ _ _ Hp). }
  rewrite (length_split q b), take_app_length. destruct (_ || _) eqn:E.
  - rewrite lex_app. pose proof (byte_val_range y). pose proof (byte_val_range x). cbn [lex]. rewrite byte_val_of, Z.mod_small by lia.
    destruct (Z.ltb_spec (byte_val x + 1) (byte_val y)); [lia|]. destruct (Z.ltb_spec (byte_val y) (byte_val x + 1)); [lia|apply lex_nil_l].
  - rewrite drop_app_add, take_app_add. cbn [drop take]. rewrite drop_0, take_0.
    destruct (increment_first a) as [t|]; [|done]. rewrite <- app_assoc, lex_app. cbn [app]. by rewrite lex_head.
Qed.

#[global] Instance capped_laws cap_len : 0 <= cap_len -> PrefixLaws (CappedPrefixTransform cap_len) BytewiseComparator.
Proof.
  intros Hc. assert (forall k : bytes, take (Z.to_nat (Z.min cap_len (zlen k))) k = take (Z.to_nat cap_len) k) as E.
  { intros k. destruct (Z.min_spec cap_len (zlen k)) as [[_ ->]|[Hl ->]]; [done|]. unfold zlen in *. rewrite Nat2Z.id, firstn_all.
    symmetry. apply take_ge. lia. }
  split; cbn; intros *; rewrite ?Slice_compare_lex, ?E.
  - apply prefix_take.
  - apply lex_prefix, prefix_take.
  - by apply lex_take.
  - by rewrite take_take, Nat.min_id.
Qed.

#[global] Instance noop_laws : PrefixLaws NoopTransform BytewiseComparator.
Proof. split; cbn; intros *; rewrite ?Slice_compare_lex; try done. by rewrite lex_refl. Qed.
