(* ===== verification/IndexIter.v ===== *)
(** table/block_based/block.h, block.cc: the iterator over index blocks
    ([IndexBlockIter]).

    As in [BlockIter], reading outside of a block or an array is undefined behaviour,
    and statistics and assertions are left out. *)
From S2P Require Import Prelude Bits Coding IoStatus Comparator DbFormat BlockBuilder BlockIter TableFormat PrefixIndex.
From stdpp Require Import base numbers list strings.
From Stdlib Require Import ZArith Lia.
Local Open Scope Z_scope.

(** ** IndexBlockIter *)

(** [global_seqno_state_] is the sequence number that is put into the first keys of
    blocks. *)
Record IndexBlockIter := MkIndexBlockIter {
  index_iter : BlockIter; value_delta_encoded_ : bool; have_first_key_ : bool;
  prefix_index_ : option BlockPrefixIndex; decoded_value_ : IndexValue; global_seqno_state_ : option Z }.

Definition index_base : lens IndexBlockIter BlockIter :=
  Lens index_iter (fun b s => MkIndexBlockIter b (value_delta_encoded_ s) (have_first_key_ s) (prefix_index_ s)
    (decoded_value_ s) (global_seqno_state_ s)).
Definition set_decoded (v : IndexValue) (s : IndexBlockIter) : IndexBlockIter :=
  MkIndexBlockIter (index_iter s) (value_delta_encoded_ s) (have_first_key_ s) (prefix_index_ s) v (global_seqno_state_ s).

Definition new_IndexValue : IndexValue := MkIndexValue new_BlockHandle [].
Definition new_IndexBlockIter : IndexBlockIter :=
  MkIndexBlockIter new_BlockIter false false None new_IndexValue None.

Definition index_Initialize (data : bytes) (restarts num_restarts global_seqno : Z)
    (prefix_index : option BlockPrefixIndex) (have_first_key key_includes_seq value_is_full : bool)
    (s : IndexBlockIter) : IndexBlockIter :=
  let b := InitializeBase data restarts num_restarts kDisableGlobalSequenceNumber (index_iter s) in
  MkIndexBlockIter
    (set_raw_key (MkIterKey (ik_key (raw_key_ b)) (key_addr (raw_key_ b)) (negb key_includes_seq)) b)
    (negb value_is_full) have_first_key prefix_index (decoded_value_ s)
    (if have_first_key && negb (global_seqno =? kDisableGlobalSequenceNumber) then Some global_seqno else None).

Definition index_Invalidate (st : Status) (s : IndexBlockIter) : IndexBlockIter :=
  set index_base (InvalidateBase st (index_iter s)) s.

(** [iter] is the iterator to be used again, if there is one. *)
Definition NewIndexIterator (b : Block) (global_seqno : Z) (iter : option IndexBlockIter)
    (total_order_seek have_first_key key_includes_seq value_is_full : bool)
    (prefix_index : option BlockPrefixIndex) : IndexBlockIter :=
  let ret_iter := default new_IndexBlockIter iter in
  if size_ b <? 8 then index_Invalidate (StCorruption "bad block contents") ret_iter
  else if num_restarts_ b =? 0 then index_Invalidate StOK ret_iter
  else index_Initialize (b_data b) (restart_offset_ b) (num_restarts_ b) global_seqno
         (if total_order_seek then None else prefix_index) have_first_key key_includes_seq value_is_full ret_iter.

(** The current value. *)
Definition index_value (s : IndexBlockIter) : option IndexValue :=
  if value_delta_encoded_ s || (if global_seqno_state_ s is Some _ then true else false) then Some (decoded_value_ s)
  else
    v ← it_value (index_iter s);
    let '(_, entry, _) := index_DecodeFrom v (have_first_key_ s) None new_IndexValue in Some entry.

(** *** Parsing *)

(** The value ends where its encoding ends; what [DecodeFrom] answers is only
    asserted to be OK. *)
Definition DecodeCurrentValue (shared : Z) : prog IndexBlockIter unit :=
  s ← gets id;
  data ← the (it_data_ (index_iter s)); '(off, _) ← the (it_value_ (index_iter s));
  if it_restarts_ (index_iter s) <? off then undefined
  else
    let v := sub data off (it_restarts_ (index_iter s) - off) in
    let previous := if value_delta_encoded_ s && negb (shared =? 0)
                    then Some (iv_handle (decoded_value_ s)) else None in
    let '(_, value, rest) := index_DecodeFrom v (have_first_key_ s) previous (decoded_value_ s) in
    modify (set_decoded value);;
    zoom index_base (modify (set_value (Some (off, zlen v - zlen rest))));;
    match global_seqno_state_ s with
    | None => mret tt
    | Some global_seqno =>
      value_type ← the (ExtractValueType (first_internal_key value));
      k ← the (UpdateInternalKey (first_internal_key value) global_seqno value_type);
      modify (set_decoded (MkIndexValue (iv_handle value) k))
    end.

(** The header of an entry; with delta-encoded values it has no size of the value. *)
Definition decode_index_entry (value_delta_encoded : bool) (data : bytes) (p limit : Z) :
    prog BlockIter (option (Z * (Z * Z * Z))) :=
  if value_delta_encoded then
    r ← DecodeKeyV4 data p limit;
    mret match r with Some (p, (shared, non_shared)) => Some (p, (shared, non_shared, 0)) | None => None end
  else DecodeEntry data p limit.

Definition ParseNextIndexKey : prog IndexBlockIter bool :=
  s ← gets id;
  let it := index_iter s in
  current ← the (NextEntryOffset it);
  zoom index_base (modify (set_current current));;
  data ← the (it_data_ it);
  let limit := it_restarts_ it in
  if limit <=? current then zoom index_base no_more_entries;; mret false
  else
    r ← zoom index_base (decode_index_entry (value_delta_encoded_ s) data current limit);
    match r with
    | None => zoom index_base CorruptionError;; mret false
    | Some (p, (shared, non_shared, value_length)) =>
      if zlen (ik_key (raw_key_ it)) <? shared then zoom index_base CorruptionError;; mret false
      else if in_block data p non_shared then
        zoom index_base (
          modify (fun it => set_raw_key
            (if shared =? 0 then SetKey (sub data p non_shared) (Some p) (raw_key_ it)
             else TrimAppend shared (sub data p non_shared) (raw_key_ it)) it);;
          modify (set_value (Some (p + non_shared, value_length)));;
          when (shared =? 0) (advance_restart_index (Datatypes.S (length data))));;
        when (value_delta_encoded_ s || (if global_seqno_state_ s is Some _ then true else false)) (DecodeCurrentValue shared);;
        mret true
      else undefined
    end.

Definition index_NextImpl : prog IndexBlockIter unit := ParseNextIndexKey;; mret tt.

(** [while (ParseNextIndexKey() && NextEntryOffset() < limit)]. *)
Fixpoint parse_until (fuel : nat) (limit : Z) : prog IndexBlockIter unit :=
  match fuel with
  | O => hang
  | S fuel' =>
    more ← ParseNextIndexKey;
    if (more : bool) then
      it ← gets index_iter; next ← the (NextEntryOffset it);
      if next <? limit then parse_until fuel' limit else mret tt
    else mret tt
  end.

Definition index_PrevImpl : prog IndexBlockIter unit :=
  it ← gets index_iter; data ← the (it_data_ it);
  let original := current_ it in
  more ← zoom index_base (back_to_restart (Datatypes.S (length data)) original);
  if negb (more : bool) then mret tt
  else
    zoom index_base (it ← gets id; SeekToRestartPoint (restart_index_ it));;
    parse_until (Datatypes.S (length data)) original.

(** [data_ == nullptr]: not initialized. *)
Definition unless_null_index (m : prog IndexBlockIter unit) : prog IndexBlockIter unit :=
  it ← gets index_iter; match it_data_ it with None => mret tt | Some _ => m end.

Definition index_SeekToFirstImpl : prog IndexBlockIter unit :=
  unless_null_index (
    zoom index_base (modify (set_status StOK));;
    zoom index_base (SeekToRestartPoint 0);;
    index_NextImpl).

Definition index_SeekToLastImpl : prog IndexBlockIter unit :=
  unless_null_index (
    zoom index_base (modify (set_status StOK));;
    it ← gets index_iter; data ← the (it_data_ it);
    zoom index_base (SeekToRestartPoint (u32 (it_num_restarts_ it - 1)));;
    parse_until (Datatypes.S (length data)) (it_restarts_ it)).

(** Index blocks are not searched backwards. *)
Definition index_SeekForPrevImpl : prog IndexBlockIter unit :=
  zoom index_base (modify (fun it => set_value None (set_raw_key (ClearKey (raw_key_ it))
    (set_status (StInvalidArgument "RocksDB internal error: should never call SeekForPrev() on index blocks")
      (set_restart_index (it_num_restarts_ it) (set_current (it_restarts_ it) it)))))).

(** *** Searching *)
Section Comparing.
Context {user_comparator : Comparator}.

Definition index_DecodeKey (value_delta_encoded : bool) :
    bytes -> Z -> Z -> prog BlockIter (option (Z * (Z * Z))) :=
  if value_delta_encoded then DecodeKeyV4 else DecodeKey.

(** The order of the key at a restart point and the target; 1 when the entry is
    damaged. *)
Definition CompareBlockKey (block_index : Z) (target : bytes) : prog IndexBlockIter Z :=
  s ← gets id;
  zoom index_base (
    region_offset ← GetRestartPoint block_index;
    it ← gets id; data ← the (it_data_ it);
    r ← index_DecodeKey (value_delta_encoded_ s) data region_offset (it_restarts_ it);
    match r with
    | Some (key_ptr, (0, non_shared)) =>
      if in_block data key_ptr non_shared then
        modify (set_raw_key (SetKey (sub data key_ptr non_shared) (Some key_ptr) (raw_key_ it)));;
        it ← gets id; the (CompareCurrentKey target it)
      else undefined
    | _ => CorruptionError;; mret 1
    end).

(** [block_ids[i]] *)
Definition block_id_at (block_ids : list (option Z)) (i : Z) : option Z := mjoin (block_ids !! Z.to_nat i).

(** The loop of [BinaryBlockIndexSeek]: [left] and [right] behind it, or [None] when
    the status is an error. *)
Fixpoint block_seek_loop (fuel : nat) (target : bytes) (block_ids : list (option Z)) (left right : Z) :
    prog IndexBlockIter (option (Z * Z)) :=
  match fuel with
  | O => hang
  | S fuel' =>
    if left <=? right then
      let mid := u32 (right + left) / 2 in
      block_id ← the (block_id_at block_ids mid);
      cmp ← CompareBlockKey block_id target;
      it ← gets index_iter;
      if negb (st_ok (it_status_ it)) then mret None
      else if cmp <? 0 then block_seek_loop fuel' target block_ids (u32 (mid + 1)) right
      else if left =? right then mret (Some (left, right))
      else block_seek_loop fuel' target block_ids left mid
    else mret (Some (left, right))
  end.

Definition mark_invalid : prog IndexBlockIter unit :=
  zoom index_base (modify (fun it => set_current (it_restarts_ it) it)).

(** The index, where the code returns true, and [*prefix_may_exist]. *)
Definition BinaryBlockIndexSeek (target : bytes) (block_ids : list (option Z)) (left right : Z) :
    prog IndexBlockIter (option Z * bool) :=
  let left_bound := left in
  bounds ← block_seek_loop (Datatypes.S (length block_ids)) target block_ids left right;
  match bounds with
  | None => mret (None, true)
  | Some (l, r) =>
    if l =? r then
      block_id ← the (block_id_at block_ids l);
      gap ← (if block_id <=? 0 then mret false
             else if l =? left_bound then mret true
             else p ← the (block_id_at block_ids (l - 1)); mret (negb (p =? block_id - 1)));
      absent ← (if (gap : bool) then cmp ← CompareBlockKey (block_id - 1) target; mret (0 <? cmp) else mret false);
      if (absent : bool) then mark_invalid;; mret (None, false) else mret (Some block_id, true)
    else
      right_index ← the (block_id_at block_ids r);
      it ← gets index_iter;
      if u32 (right_index + 1) <? it_num_restarts_ it then
        cmp ← CompareBlockKey (u32 (right_index + 1)) target;
        if 0 <=? cmp then mret (Some (u32 (right_index + 1)), true)
        else mark_invalid;; mret (None, false)
      else mark_invalid;; mret (None, true)
  end.

Definition PrefixSeek (x : BlockPrefixIndex) (target : bytes) : prog IndexBlockIter (option Z * bool) :=
  it ← gets index_iter;
  seek_key ← (if is_user_key_ (raw_key_ it) then the (ExtractUserKey target) else mret target);
  block_ids ← the (GetBlocks target x);
  if zlen block_ids =? 0 then mark_invalid;; mret (None, false)
  else BinaryBlockIndexSeek seek_key block_ids 0 (zlen block_ids - 1).

Definition index_SeekImpl (target : bytes) : prog IndexBlockIter unit :=
  unless_null_index (
    s ← gets id;
    seek_key ← (if is_user_key_ (raw_key_ (index_iter s)) then the (ExtractUserKey target) else mret target);
    zoom index_base (modify (set_status StOK));;
    r ← match prefix_index_ s with
        | Some x =>
          '(index, prefix_may_exist) ← PrefixSeek x target;
          when (negb prefix_may_exist) (
            mark_invalid;; zoom index_base (modify (set_status StNotFound)));;
          mret ((., true) <$> index)
        | None => zoom index_base (BinarySeek (index_DecodeKey (value_delta_encoded_ s)) seek_key)
        end;
    match r with
    | None => mret tt
    | Some (index, skip_linear_scan) =>
      FindKeyAfterBinarySeek index_base index_NextImpl seek_key index skip_linear_scan
    end).

(** ** The public operations *)

Definition index_UpdateKey : prog IndexBlockIter unit := zoom index_base UpdateKey.
Definition index_Next : prog IndexBlockIter unit := index_NextImpl;; index_UpdateKey.
Definition index_Prev : prog IndexBlockIter unit := index_PrevImpl;; index_UpdateKey.
Definition index_Seek (target : bytes) : prog IndexBlockIter unit := index_SeekImpl target;; index_UpdateKey.
Definition index_SeekToFirst : prog IndexBlockIter unit := index_SeekToFirstImpl;; index_UpdateKey.
Definition index_SeekToLast : prog IndexBlockIter unit := index_SeekToLastImpl;; index_UpdateKey.
End Comparing.
