(* ===== verification/IndexBuilder.v ===== *)
(** table/block_based/index_builder.h: the builders of the index of a table
    ([ShortenedIndexBuilder] and [HashIndexBuilder]).  The index has an entry for each
    data block, whose key is a separator of the block and the next one, and whose value
    is the handle of the block. *)
From S2P Require Import Prelude Bits Coding IoStatus Comparator DbFormat BlockBuilder TableFormat PrefixIndex.
From stdpp Require Import base numbers list strings.
From Stdlib Require Import ZArith Lia.
Local Open Scope Z_scope.

(** [BlockBasedTableOptions::IndexShorteningMode] *)
Inductive IndexShorteningMode := kNoShortening | kShortenSeparators | kShortenSeparatorsAndSuccessor.

(** Two blocks are built until it is known whether the separators need their sequence
    numbers: one of internal keys and one of user keys. *)
Record ShortenedIndexBuilder := MkShortenedIndexBuilder {
  index_block_builder_ : BlockBuilder; index_block_builder_without_seq_ : BlockBuilder;
  index_value_delta_encoding_ : bool; seperator_is_key_plus_seq_ : bool; include_first_key_ : bool;
  shortening_mode_ : IndexShorteningMode; last_encoded_handle_ : BlockHandle;
  current_block_first_internal_key_ : bytes; index_size_ : Z }.

Definition new_ShortenedIndexBuilder (index_block_restart_interval format_version : Z)
    (use_value_delta_encoding : bool) (shortening_mode : IndexShorteningMode) (include_first_key : bool) :
    ShortenedIndexBuilder :=
  let builder := new_BlockBuilder index_block_restart_interval true use_value_delta_encoding
                   kDataBlockBinarySearch kDefaultUtilRatio in
  MkShortenedIndexBuilder builder builder use_value_delta_encoding (format_version <=? 2) include_first_key
    shortening_mode NullBlockHandle [] 0.

Definition with_seq : lens ShortenedIndexBuilder BlockBuilder :=
  Lens index_block_builder_ (fun x b => MkShortenedIndexBuilder x (index_block_builder_without_seq_ b)
    (index_value_delta_encoding_ b) (seperator_is_key_plus_seq_ b) (include_first_key_ b) (shortening_mode_ b)
    (last_encoded_handle_ b) (current_block_first_internal_key_ b) (index_size_ b)).
Definition without_seq : lens ShortenedIndexBuilder BlockBuilder :=
  Lens index_block_builder_without_seq_ (fun x b => MkShortenedIndexBuilder (index_block_builder_ b) x
    (index_value_delta_encoding_ b) (seperator_is_key_plus_seq_ b) (include_first_key_ b) (shortening_mode_ b)
    (last_encoded_handle_ b) (current_block_first_internal_key_ b) (index_size_ b)).
Definition set_plus_seq (b : ShortenedIndexBuilder) : ShortenedIndexBuilder :=
  MkShortenedIndexBuilder (index_block_builder_ b) (index_block_builder_without_seq_ b)
    (index_value_delta_encoding_ b) true (include_first_key_ b) (shortening_mode_ b)
    (last_encoded_handle_ b) (current_block_first_internal_key_ b) (index_size_ b).
Definition set_last_handle (h : BlockHandle) (b : ShortenedIndexBuilder) : ShortenedIndexBuilder :=
  MkShortenedIndexBuilder (index_block_builder_ b) (index_block_builder_without_seq_ b)
    (index_value_delta_encoding_ b) (seperator_is_key_plus_seq_ b) (include_first_key_ b) (shortening_mode_ b)
    h (current_block_first_internal_key_ b) (index_size_ b).
Definition set_first_key (k : bytes) (b : ShortenedIndexBuilder) : ShortenedIndexBuilder :=
  MkShortenedIndexBuilder (index_block_builder_ b) (index_block_builder_without_seq_ b)
    (index_value_delta_encoding_ b) (seperator_is_key_plus_seq_ b) (include_first_key_ b) (shortening_mode_ b)
    (last_encoded_handle_ b) k (index_size_ b).
Definition set_index_size (n : Z) (b : ShortenedIndexBuilder) : ShortenedIndexBuilder :=
  MkShortenedIndexBuilder (index_block_builder_ b) (index_block_builder_without_seq_ b)
    (index_value_delta_encoding_ b) (seperator_is_key_plus_seq_ b) (include_first_key_ b) (shortening_mode_ b)
    (last_encoded_handle_ b) (current_block_first_internal_key_ b) n.

Definition OnKeyAdded (key : bytes) : prog ShortenedIndexBuilder unit :=
  b ← gets id;
  when (include_first_key_ b && (zlen (current_block_first_internal_key_ b) =? 0)) (modify (set_first_key key)).

Section Comparing.
Context {user_comparator : Comparator}.

(** The key that stands for the block in the index. *)
Definition choose_separator (mode : IndexShorteningMode) (last_key : bytes) (first_key_in_next_block : option bytes) :
    option bytes :=
  match first_key_in_next_block, mode with
  | Some next, kNoShortening => Some last_key
  | Some next, _ => ik_FindShortestSeparator last_key next
  | None, kShortenSeparatorsAndSuccessor => ik_FindShortSuccessor last_key
  | None, _ => Some last_key
  end.

(** The sequence numbers are needed once a separator has the user key of the block
    that follows. *)
Definition note_sequence (sep : bytes) (first_key_in_next_block : option bytes) : prog ShortenedIndexBuilder unit :=
  b ← gets id;
  match first_key_in_next_block with
  | None => mret tt
  | Some next =>
    if seperator_is_key_plus_seq_ b then mret tt
    else
      u ← the (ExtractUserKey sep); v ← the (ExtractUserKey next);
      when (Compare u v =? 0) (modify set_plus_seq)
  end.

(** The last key of the block is overwritten with the separator, which is the
    result. *)
Definition AddIndexEntry (last_key_in_current_block : bytes) (first_key_in_next_block : option bytes)
    (block_handle : BlockHandle) : prog ShortenedIndexBuilder bytes :=
  b ← gets id;
  sep ← the (choose_separator (shortening_mode_ b) last_key_in_current_block first_key_in_next_block);
  note_sequence sep first_key_in_next_block;;
  let entry := MkIndexValue block_handle (current_block_first_internal_key_ b) in
  let encoded_entry := index_EncodeTo [] (include_first_key_ b) None entry in
  let delta_encoded_entry :=
    if index_value_delta_encoding_ b && negb (handle_IsNull (last_encoded_handle_ b))
    then index_EncodeTo [] (include_first_key_ b) (Some (last_encoded_handle_ b)) entry else [] in
  modify (set_last_handle block_handle);;
  zoom with_seq (builder_Add sep encoded_entry (Some delta_encoded_entry));;
  b ← gets id;
  when (negb (seperator_is_key_plus_seq_ b)) (
    u ← the (ExtractUserKey sep);
    zoom without_seq (builder_Add u encoded_entry (Some delta_encoded_entry)));;
  modify (set_first_key []);;
  mret sep.
End Comparing.

Definition index_Finish : prog ShortenedIndexBuilder bytes :=
  b ← gets id;
  contents ← (if seperator_is_key_plus_seq_ b then zoom with_seq builder_Finish else zoom without_seq builder_Finish);
  modify (set_index_size (zlen contents));;
  mret contents.

(** ** HashIndexBuilder *)

(** The index with two meta blocks: the prefixes of the keys of the table, and for each
    of them its size, the first entry of the index whose block has keys with the prefix,
    and the number of these blocks. *)
Record HashIndexBuilder := MkHashIndexBuilder {
  primary_index_builder_ : ShortenedIndexBuilder; hash_key_extractor_ : bytes -> option bytes;
  prefix_block_ : bytes; prefix_meta_block_ : bytes; pending_block_num_ : Z; pending_entry_index_ : Z;
  pending_entry_prefix_ : bytes; current_restart_index_ : Z }.

Definition new_HashIndexBuilder (hash_key_extractor : bytes -> option bytes)
    (index_block_restart_interval format_version : Z) (use_value_delta_encoding : bool)
    (shortening_mode : IndexShorteningMode) : HashIndexBuilder :=
  MkHashIndexBuilder
    (new_ShortenedIndexBuilder index_block_restart_interval format_version use_value_delta_encoding shortening_mode false)
    hash_key_extractor [] [] 0 0 [] 0.

Definition primary : lens HashIndexBuilder ShortenedIndexBuilder :=
  Lens primary_index_builder_ (fun x b => MkHashIndexBuilder x (hash_key_extractor_ b) (prefix_block_ b)
    (prefix_meta_block_ b) (pending_block_num_ b) (pending_entry_index_ b) (pending_entry_prefix_ b)
    (current_restart_index_ b)).
Definition set_prefix_blocks (prefixes meta : bytes) (b : HashIndexBuilder) : HashIndexBuilder :=
  MkHashIndexBuilder (primary_index_builder_ b) (hash_key_extractor_ b) prefixes meta
    (pending_block_num_ b) (pending_entry_index_ b) (pending_entry_prefix_ b) (current_restart_index_ b).
Definition set_pending (num index : Z) (prefix : bytes) (b : HashIndexBuilder) : HashIndexBuilder :=
  MkHashIndexBuilder (primary_index_builder_ b) (hash_key_extractor_ b) (prefix_block_ b) (prefix_meta_block_ b)
    num index prefix (current_restart_index_ b).
Definition set_current_restart (i : Z) (b : HashIndexBuilder) : HashIndexBuilder :=
  MkHashIndexBuilder (primary_index_builder_ b) (hash_key_extractor_ b) (prefix_block_ b) (prefix_meta_block_ b)
    (pending_block_num_ b) (pending_entry_index_ b) (pending_entry_prefix_ b) i.

Definition FlushPendingPrefix : prog HashIndexBuilder unit :=
  modify (fun b => set_prefix_blocks (prefix_block_ b ++ pending_entry_prefix_ b)
    (PutVarint32Varint32Varint32 (prefix_meta_block_ b) (u32 (zlen (pending_entry_prefix_ b)))
       (pending_entry_index_ b) (pending_block_num_ b)) b).

Definition hib_OnKeyAdded (key : bytes) : prog HashIndexBuilder unit :=
  b ← gets id;
  key_prefix ← the (hash_key_extractor_ b key);
  let is_first_entry := pending_block_num_ b =? 0 in
  if is_first_entry || negb (Slice_eq (pending_entry_prefix_ b) key_prefix) then
    when (negb is_first_entry) FlushPendingPrefix;;
    modify (set_pending 1 (u32 (current_restart_index_ b)) key_prefix)
  else
    let last_restart_index := u32 (pending_entry_index_ b + pending_block_num_ b - 1) in
    when (negb (last_restart_index =? current_restart_index_ b))
      (modify (set_pending (u32 (pending_block_num_ b + 1)) (pending_entry_index_ b) (pending_entry_prefix_ b))).

Definition hib_AddIndexEntry {user_comparator : Comparator} (last_key_in_current_block : bytes)
    (first_key_in_next_block : option bytes) (block_handle : BlockHandle) : prog HashIndexBuilder bytes :=
  modify (fun b => set_current_restart (u64 (current_restart_index_ b + 1)) b);;
  zoom primary (AddIndexEntry last_key_in_current_block first_key_in_next_block block_handle).

(** The contents of the index block, and the two meta blocks. *)
Definition hib_Finish : prog HashIndexBuilder (bytes * bytes * bytes) :=
  b ← gets id;
  when (negb (pending_block_num_ b =? 0)) FlushPendingPrefix;;
  contents ← zoom primary index_Finish;
  b ← gets id;
  mret (contents, prefix_block_ b, prefix_meta_block_ b).
