(* ===== verification/IndexSpec.v ===== *)
(** The iterator over index blocks moves over the entries of an index like a cursor
    over a list; each of them shows the value that was encoded, in full or as the
    difference to the one before.  The search through a prefix index, in an index all
    of whose entries are restart points. *)
From S2P Require Import Prelude Bits Coding IoStatus Comparator DbFormat BlockBuilder BlockIter BlockSpec BlockSeek BlockCursor TableFormat PrefixIndex IndexIter.
From stdpp Require Import base numbers list strings sorting list_numbers.
From Stdlib Require Import ZArith Lia.
Local Open Scope Z_scope.

(** ** Entries without size of the value *)

Lemma DecodeKeyV4_at {S} (s : S) (data pre post : bytes) e p limit :
  item_ok e -> data = pre ++ header true e ++ post -> p = zlen pre ->
  p + zlen (header true e) <= limit -> 3 <= limit - p ->
  DecodeKeyV4 data p limit s = Ret (Some (p + zlen (header true e), (i_shared e, zlen (i_key e) - i_shared e))) s.
Proof.
  intros Hok Hd Hp Hlim H3. pose proof (item_ok_sizes e Hok) as (Ha & Hb & _).
  destruct (EncodeVarint32_cons _ Ha) as (x0 & l0 & E0 & H0). destruct (EncodeVarint32_cons _ Hb) as (x1 & l1 & E1 & H1).
  assert (header true e = EncodeVarint32 (i_shared e) ++ EncodeVarint32 (zlen (i_key e) - i_shared e)) as Hh
    by (unfold header; by rewrite app_nil_r).
  match goal with |- _ = ?r => set (res := r) end.
  unfold DecodeKeyV4. rewrite (proj2 (Z.ltb_ge _ 3)) by lia.
  assert (forall k, 0 <= k -> data !! Z.to_nat (p + k) = (header true e ++ post) !! Z.to_nat k) as Hk.
  { intros k Hk. rewrite Hd. by apply lookup_app_at. }
  pose proof (Hk 0 ltac:(lia)) as K0. rewrite Z.add_0_r in K0. rewrite K0, Hk, Hh, E0, E1 by lia.
  change (Z.to_nat 0) with 0%nat. change (Z.to_nat 1) with 1%nat.
  destruct (lookup_lt_is_Some_2 (((x0 :: l0) ++ x1 :: l1) ++ post) 1) as [y1 Y1]; [rewrite !length_app; cbn; lia|].
  rewrite Y1. cbn [the app lookup list_lookup]. unfold mbind, prog_bind, mret, prog_ret.
  pose proof (byte_val_range x0). pose proof (byte_val_range y1). destruct (_ <? 128) eqn:E.
  - apply Z.ltb_lt in E. apply lor_below_128 in E as [L0 L1]; [|lia..]. destruct (H0 L0) as [-> V0].
    cbn in Y1. injection Y1 as <-. destruct (H1 L1) as [-> V1]. subst res. by rewrite Hh, E0, E1, V0, V1.
  - rewrite Hh, zlen_app in Hlim. pose proof (zlen_EncodeVarint32 _ Ha). pose proof (zlen_EncodeVarint32 _ Hb).
    erewrite (get_varint32_at s data pre); [|rewrite Hd, Hh, <- !app_assoc; reflexivity|done|done|lia].
    erewrite (get_varint32_at s data (pre ++ EncodeVarint32 (i_shared e)));
      [|rewrite Hd, Hh, <- !app_assoc; reflexivity|by rewrite zlen_app, Hp|done|lia].
    subst res. rewrite Hh, zlen_app. do 3 f_equal. lia.
Qed.

Section Decoders.
Context {vd : bool} {data : bytes} {restarts : Z} {es : list item} {rs : list nat} (LO : layout vd data restarts es rs).
(** The values are not empty. *)
Context (Hval : forall i e, es !! i = Some e -> 1 <= zlen (i_value e)).

Lemma index_DecodeKey_decodes : keys_decode (vd := vd) (data := data) (restarts := restarts) (es := es) (index_DecodeKey vd).
Proof.
  intros it i e He. unfold index_DecodeKey. destruct vd; [|by apply (DecodeKey_decodes LO)].
  destruct (data_split LO i e He) as [post Hd]. pose proof (entry_limit LO i e He) as [Hl _].
  pose proof (entry_end LO i e He) as Hend. pose proof (entry_ok LO i e He) as Hok. pose proof (Hval i e He).
  pose proof (io_shared e Hok). destruct (item_ok_sizes e Hok) as (Ha & Hb & _).
  pose proof (zlen_EncodeVarint32 _ Ha). pose proof (zlen_EncodeVarint32 _ Hb).
  assert (2 <= zlen (header true e)) by (unfold header; rewrite !zlen_app; change (zlen (A := Byte.byte) []) with 0; lia).
  unfold voff, koff in Hend. unfold koff.
  eapply DecodeKeyV4_at; [done|rewrite Hd; unfold enc; by rewrite <- app_assoc|done|unfold off in *; lia|unfold off in *; lia].
Qed.
End Decoders.

Lemma sorted_lookup_lt (l : list Z) m n i j : StronglySorted Z.lt l -> l !! m = Some i -> l !! n = Some j -> (m < n)%nat -> i < j.
Proof.
  intros H. revert m n. induction H as [|x l _ IH Hall]; intros [|m] [|n] Hm Hn Hl; try done; try lia.
  - injection Hm as <-. apply (proj1 (Forall_forall _ _) Hall). by eapply list_elem_of_lookup_2.
  - apply (IH m n Hm Hn). lia.
Qed.

Lemma sorted_nodup (l : list Z) : StronglySorted Z.lt l -> NoDup l.
Proof.
  induction 1 as [|x l _ IH Hall]; constructor; [|done]. intros Hx. pose proof (proj1 (Forall_forall _ _) Hall x Hx). lia.
Qed.

(** ** The iterator *)

Section Index.
Context {vd : bool} {data : bytes} {restarts : Z} {es : list item} {rs : list nat}.
Context (LO : layout vd data restarts es rs) (u : bool).
(** The values, whether they have the first keys of the blocks, the sequence number to
    be put into these, and the prefix index. *)
Context (hfk : bool) (seqno : option Z) (ivs : list IndexValue) {px : option BlockPrefixIndex}.

Abbreviation g := kDisableGlobalSequenceNumber.
Abbreviation framed := (frame (data := data) (restarts := restarts) (rs := rs) u g).
Abbreviation entry := (at_entry (vd := vd) (data := data) (restarts := restarts) (es := es) (rs := rs) u g).
Abbreviation ended := (at_end (data := data) (restarts := restarts) (rs := rs) u g).
Abbreviation readied := (ready (vd := vd) (data := data) (restarts := restarts) (es := es) (rs := rs) u g).
Abbreviation offset := (off vd es).
Abbreviation vpos := (voff (vd := vd) (es := es)).
Abbreviation kpos := (koff (vd := vd) (es := es)).

(** The handle an entry is encoded against. *)
Definition encoded_against (i : nat) (e : item) : option BlockHandle :=
  if vd && negb (i_shared e =? 0) then iv_handle <$> ivs !! (i - 1)%nat else None.

Record values_ok : Prop := {
  vo_length : length ivs = length es;
  vo_value : forall i e v, es !! i = Some e -> ivs !! i = Some v ->
    i_value e = index_EncodeTo [] hfk (encoded_against i e) v /\ index_value_ok hfk (encoded_against i e) v;
  vo_first : forall q i v, seqno = Some q -> ivs !! i = Some v -> internal (first_internal_key v) }.
Context (VO : values_ok).

(** The value as it is shown: with the sequence number in the first key, if there is
    one. *)
Definition shown_value (v : IndexValue) : IndexValue :=
  match seqno with
  | None => v
  | Some q => let k := first_internal_key v in
      MkIndexValue (iv_handle v) (ukey k ++ EncodeFixed64 true (Z.lor (u64 (Z.shiftl q 8)) (Z.land (ifooter k) 0xff)))
  end.

Lemma shown_handle v : iv_handle (shown_value v) = iv_handle v.
Proof. unfold shown_value. by destruct seqno. Qed.

Lemma entry_value i e : es !! i = Some e -> exists v, ivs !! i = Some v.
Proof. intros He%lookup_lt_Some. apply lookup_lt_is_Some_2. by rewrite (vo_length VO). Qed.

Lemma shared_entry i e : es !! i = Some e -> i_shared e <> 0 -> exists j, i = S j.
Proof.
  intros He Hs. destruct i as [|j]; [|by exists j]. destruct Hs.
  exact (lo_restart _ _ _ _ _ LO 0%nat 0%nat e (lo_first _ _ _ _ _ LO) He).
Qed.

(** What is there from the value of an entry to the end of the entries. *)
Lemma rest_of_block i e : es !! i = Some e ->
  vpos i e <= restarts /\ sub data (vpos i e) (restarts - vpos i e) = i_value e ++ stored vd (drop (S i) es).
Proof.
  intros He. destruct (lo_data _ _ _ _ _ LO) as [tail Hd]. pose proof (entry_ok LO i e He) as Hok.
  pose proof (entry_end LO i e He) as Hend. pose proof (entry_limit LO i e He) as [Hl _].
  pose proof (zlen_nonneg (i_value e)). split; [lia|].
  assert (data = (stored vd (take i es) ++ header vd e ++ drop (Z.to_nat (i_shared e)) (i_key e)) ++
    (i_value e ++ stored vd (drop (S i) es)) ++ (restart_bytes vd es rs ++ tail)) as Hsplit.
  { rewrite Hd, (stored_split vd es i e He). unfold enc. by rewrite <- !app_assoc. }
  pose proof (zlen_drop (i_shared e) (i_key e) (io_shared _ Hok)).
  rewrite Hsplit. apply sub_middle.
  - unfold voff, koff, off, zlen in *. rewrite !length_app. lia.
  - rewrite (lo_restarts _ _ _ _ _ LO), (stored_split vd es i e He). unfold enc, voff, koff, off, zlen in *.
    rewrite !length_app. lia.
Qed.

(** The value is decoded, and its end is found. *)
Lemma value_decoded i e v v0 rest : es !! i = Some e -> ivs !! i = Some v ->
  index_DecodeFrom (i_value e ++ rest) hfk (encoded_against i e) v0 = (StOK, v, rest).
Proof.
  intros He Hv. destruct (vo_value VO i e v He Hv) as [Henc Hok].
  destruct (index_value_round_trip hfk (encoded_against i e) v v0 [] rest Hok) as (enc & He' & Hd).
  rewrite Henc, He'. done.
Qed.

(** ** States *)

Definition decoding : bool := vd || (if seqno is Some _ then true else false).

Record config (s : IndexBlockIter) : Prop := {
  cf_delta : value_delta_encoded_ s = vd;
  cf_first : have_first_key_ s = hfk;
  cf_prefix : prefix_index_ s = px;
  cf_seqno : global_seqno_state_ s = seqno }.

(** An entry that is encoded against the one before needs its handle. *)
Definition handle_known (s : IndexBlockIter) (i : nat) : Prop :=
  forall e, es !! i = Some e -> encoded_against i e = None \/ encoded_against i e = Some (iv_handle (decoded_value_ s)).

Definition isound (s : IndexBlockIter) : Prop := framed (index_iter s) /\ config s.
Definition iready (s : IndexBlockIter) (i : nat) : Prop := readied (index_iter s) i /\ config s /\ handle_known s i.
Definition ihere (s : IndexBlockIter) (i : nat) (e : item) : Prop :=
  entry (index_iter s) i e /\ config s /\
  forall v, decoding = true -> ivs !! i = Some v -> decoded_value_ s = shown_value v.
Definition ifin (s : IndexBlockIter) : Prop := ended (index_iter s) /\ config s.
Abbreviation ipos := (at_pos ihere ifin).

Lemma zoom_index {A} (m : prog BlockIter A) s a b :
  m (index_iter s) = Ret a b -> zoom index_base m s = Ret a (set index_base b s).
Proof. apply (zoom_Ret index_base). Qed.

Lemma here_value s i e v : ihere s i e -> ivs !! i = Some v -> index_value s = Some (shown_value v).
Proof.
  intros (A & C & Hd) Hv. unfold index_value. rewrite (cf_delta _ C), (cf_seqno _ C), (cf_first _ C). fold decoding.
  destruct decoding eqn:E; [by rewrite (Hd v)|]. rewrite (at_entry_value LO u g _ i e A). cbn [mbind option_bind].
  apply orb_false_iff in E as [Evd Eq]. pose proof (value_decoded i e v new_IndexValue [] (ae_entry _ _ _ _ _ A) Hv) as Hdec.
  unfold encoded_against in Hdec. rewrite Evd, app_nil_r in Hdec. cbn [andb] in Hdec. rewrite Hdec.
  unfold shown_value. by destruct seqno.
Qed.

Lemma here_ready s i e : ihere s i e -> iready s (S i).
Proof.
  intros (A & C & Hd). split; [by eapply entry_ready|]. split; [done|]. intros e' He'. unfold encoded_against.
  destruct (vd && _) eqn:E; [|by left]. right. cbn [Nat.sub]. rewrite Nat.sub_0_r.
  destruct (entry_value i e (ae_entry _ _ _ _ _ A)) as [v Hv]. rewrite Hv. cbn.
  apply andb_true_iff in E as [Evd _]. assert (decoding = true) as Hdec by (unfold decoding; by rewrite Evd).
  by rewrite (Hd v Hdec Hv), shown_handle.
Qed.

(** ** Parsing an entry *)

Lemma previous_handle s i e : es !! i = Some e -> handle_known s i ->
  (if vd && negb (i_shared e =? 0) then Some (iv_handle (decoded_value_ s)) else None) = encoded_against i e.
Proof.
  intros He Hk. destruct (Hk e He) as [Hn|Hn]; unfold encoded_against in *; destruct (vd && negb (i_shared e =? 0)) eqn:E;
    try done. apply andb_true_iff in E as [_ E]. destruct (shared_entry i e He) as [j ->]; [by destruct (Z.eqb_spec (i_shared e) 0)|].
  cbn [Nat.sub] in Hn. rewrite Nat.sub_0_r in Hn. pose proof (lookup_lt_Some _ _ _ He) as Hl. rewrite <- (vo_length VO) in Hl.
  destruct (lookup_lt_is_Some_2 ivs j) as [v Hv]; [lia|]. by rewrite Hv in Hn.
Qed.

Lemma decode_current s i e v n :
  es !! i = Some e -> ivs !! i = Some v -> config s -> handle_known s i ->
  it_data_ (index_iter s) = Some data -> it_restarts_ (index_iter s) = restarts -> it_value_ (index_iter s) = Some (vpos i e, n) ->
  DecodeCurrentValue (i_shared e) s =
    Ret tt (set_decoded (shown_value v) (set index_base (set_value (Some (vpos i e, zlen (i_value e))) (index_iter s)) s)).
Proof.
  intros He Hv C Hk Hd Hr Hval. destruct (rest_of_block i e He) as [Hle Hsub].
  unfold DecodeCurrentValue. rewrite bind_gets. cbv beta. change (id s) with s. rewrite Hd, Hval, Hr.
  erewrite bind_Ret by reflexivity. erewrite bind_Ret by reflexivity. cbv beta iota zeta.
  rewrite (proj2 (Z.ltb_ge _ _)) by lia. rewrite Hsub, (cf_delta _ C), (cf_first _ C), (cf_seqno _ C).
  rewrite (previous_handle s i e He Hk), (value_decoded i e v _ _ He Hv). cbv beta iota.
  erewrite bind_Ret by reflexivity. erewrite bind_Ret by (apply zoom_index; reflexivity).
  rewrite zlen_app. replace (zlen (i_value e) + zlen (stored vd (drop (S i) es)) - zlen (stored vd (drop (S i) es)))
    with (zlen (i_value e)) by lia.
  unfold shown_value. pose proof (fun q => vo_first VO q i v) as Hfirst. destruct seqno as [q|]; [|done].
  specialize (Hfirst q eq_refl Hv). unfold ExtractValueType. rewrite ExtractFooter_internal by done.
  erewrite bind_Ret by reflexivity. unfold UpdateInternalKey. rewrite (proj2 (Z.leb_le kNumInternalBytes _) Hfirst).
  by erewrite bind_Ret by reflexivity.
Qed.

Lemma value_not_empty i e : es !! i = Some e -> 1 <= zlen (i_value e).
Proof.
  intros He. destruct (entry_value i e He) as [v Hv]. pose proof (value_decoded i e v new_IndexValue [] He Hv) as Hd.
  destruct (i_value e) as [|b l] eqn:E; [|cbn; unfold zlen; cbn; lia]. by destruct (encoded_against i e).
Qed.

Lemma index_header it i e : es !! i = Some e ->
  decode_index_entry vd data (offset i) restarts it =
    Ret (Some (koff (vd := vd) (es := es) i e, (i_shared e, zlen (i_key e) - i_shared e, if vd then 0 else zlen (i_value e)))) it.
Proof.
  intros He. unfold decode_index_entry. pose proof (index_DecodeKey_decodes LO value_not_empty it i e He) as Hk.
  unfold index_DecodeKey in Hk. destruct vd.
  - by rewrite (bind_Ret _ _ _ _ _ Hk).
  - exact (DecodeEntry_decodes LO it i e restarts He (entry_limit LO i e He)).
Qed.

Lemma index_parse s i e : iready s i -> es !! i = Some e -> exists s', ParseNextIndexKey s = Ret true s' /\ ihere s' i e.
Proof.
  intros (R & C & Hk) He. pose proof (rd_frame _ _ _ _ R) as F. pose proof F as [Fd Fn Fr Fu Fg Fs].
  destruct (entry_value i e He) as [v Hv].
  pose proof (off_lt vd es (lo_ok _ _ _ _ _ LO) i (S i) ltac:(lia) (lookup_lt_Some _ _ _ He)) as Hlt.
  pose proof (entry_limit LO i e He) as [Hl _].
  destruct (entry_bytes LO i e He) as (Hb & Hsub & _ & _). destruct (rd_key _ _ _ _ R e He) as [Hsh _].
  unfold ParseNextIndexKey. rewrite bind_gets. cbv beta zeta. change (id s) with s. rewrite (rd_next _ _ _ _ R).
  erewrite bind_Ret by reflexivity. erewrite bind_Ret by (apply zoom_index; reflexivity). rewrite Fd.
  erewrite bind_Ret by reflexivity. cbv beta iota. rewrite Fr, (cf_delta _ C), (cf_seqno _ C).
  rewrite (proj2 (Z.leb_gt _ _)) by lia.
  erewrite bind_Ret by (apply zoom_index; by apply index_header). cbv beta iota.
  rewrite (proj2 (Z.ltb_ge _ _)) by lia. rewrite Hb, Hsub.
  change (kpos i e + (zlen (i_key e) - i_shared e)) with (vpos i e).
  set (it1 := set_current (offset i) (index_iter s)).
  set (it2 := set_value (Some (vpos i e, if vd then 0 else zlen (i_value e))) (set_raw_key
    (if i_shared e =? 0 then SetKey (drop (Z.to_nat (i_shared e)) (i_key e)) (Some (kpos i e)) (raw_key_ it1)
     else TrimAppend (i_shared e) (drop (Z.to_nat (i_shared e)) (i_key e)) (raw_key_ it1)) it1)).
  assert (exists k, (when (i_shared e =? 0) (advance_restart_index (S (length data)))) it2 = Ret tt (set_restart_index k it2) /\
    0 <= k < zlen rs) as (k & Hadv & Hr).
  { pose proof (rd_index _ _ _ _ R) as Hi. destruct (i_shared e =? 0) eqn:E; cbn [when].
    - apply (advance_ok LO u g); [by split|exact Hi|]. pose proof (block_fuel LO). unfold indexed in Hi. cbn. lia.
    - exists (restart_index_ it2). split; [done|exact Hi]. }
  erewrite bind_Ret by (apply zoom_index; erewrite bind_Ret by reflexivity; erewrite bind_Ret by reflexivity; exact Hadv).
  pose proof (parsed_entry LO u g (index_iter s) i e k R He Hr) as A.
  set (s2 := set index_base _ _).
  assert (config s2) as C2 by (by destruct C; split). fold decoding.
  destruct decoding eqn:Ed; cbn [when].
  - erewrite bind_Ret by (by apply (decode_current s2 i e v (if vd then 0 else zlen (i_value e)))).
    eexists. split; [reflexivity|]. split; [exact A|]. split; [by destruct C2; split|].
    intros v' _ Hv'. rewrite Hv in Hv'. by injection Hv' as <-.
  - erewrite bind_Ret by reflexivity. eexists. split; [reflexivity|]. pose proof Ed as [Evd _]%orb_false_iff.
    assert ((if vd then 0 else zlen (i_value e)) = zlen (i_value e)) as Hn by (by rewrite Evd).
    split; [subst s2 it2; rewrite Hn; exact A|]. split; [done|]. intros v' E. congruence.
Qed.

Lemma index_parse_end s : iready s (length es) -> exists s', ParseNextIndexKey s = Ret false s' /\ ifin s'.
Proof.
  intros (R & C & _). pose proof (rd_frame _ _ _ _ R) as F. pose proof F as [Fd Fn Fr Fu Fg Fs].
  unfold ParseNextIndexKey. rewrite bind_gets. cbv beta zeta. change (id s) with s. rewrite (rd_next _ _ _ _ R).
  erewrite bind_Ret by reflexivity. erewrite bind_Ret by (apply zoom_index; reflexivity). rewrite Fd.
  erewrite bind_Ret by reflexivity. cbv beta iota. rewrite Fr, (proj2 (Z.leb_le _ _)) by (rewrite <- (restarts_off LO); lia).
  erewrite bind_Ret by (apply zoom_index; reflexivity). eexists. split; [reflexivity|]. split; [by split|by destruct C; split].
Qed.

Lemma index_walker : walker (vd := vd) (data := data) (restarts := restarts) (es := es) (rs := rs) u g
  index_base index_NextImpl isound iready ihere ifin.
Proof.
  split.
  - done.
  - by intros [].
  - intros s [F _]. exact F.
  - intros b s [_ C] F. split; [done|by destruct C; split].
  - intros b s r [_ C] R Hs. split; [done|]. split; [by destruct C; split|]. intros e He. left.
    unfold encoded_against. rewrite (Hs e He). by rewrite andb_false_r.
  - intros s i e R He. destruct (index_parse s i e R He) as (s' & Hp & H). exists s'. unfold index_NextImpl.
    by rewrite (bind_Ret _ _ _ _ _ Hp).
  - intros s R. destruct (index_parse_end s R) as (s' & Hp & H). exists s'. unfold index_NextImpl.
    by rewrite (bind_Ret _ _ _ _ _ Hp).
  - intros s i e H. split; [by eapply here_ready|]. destruct H as (A & C & _). split; [done|]. split; [apply A|done].
  - intros s [A C]. split; [done|]. split; [apply A|done].
Qed.

(** ** Moving *)

Lemma unless_null_index_ok (m : prog IndexBlockIter unit) s : framed (index_iter s) -> unless_null_index m s = m s.
Proof. intros F. unfold unless_null_index. rewrite bind_gets. cbv beta. by rewrite (fr_data _ _ _ F). Qed.

Lemma ipos_sound s p : ipos s p -> isound s.
Proof. destruct p; [intros (e & A & C & _)|intros [A C]]; (split; [apply A|done]). Qed.

(** The status is OK already where it is set. *)
Lemma status_set s : isound s -> zoom index_base (modify (set_status StOK)) s = Ret tt s.
Proof.
  intros [F _]. rewrite (zoom_index _ s tt (index_iter s)); [by destruct s|]. pose proof (fr_status _ _ _ F) as Hs.
  unfold modify, set_status. destruct (index_iter s). cbn in *. by rewrite Hs.
Qed.

Lemma index_Next_ready s i : iready s i -> exists s', index_NextImpl s = Ret tt s' /\ ipos s' (to_pos (es := es) i).
Proof.
  intros R. pose proof (rd_le _ _ _ _ (proj1 R)) as Hi. destruct (es !! i) as [e|] eqn:He.
  - destruct (wk_next _ _ _ _ _ _ _ _ index_walker s i e R He) as (s' & Hn & Hh).
    exists s'. rewrite (to_pos_entry i e He). split; [done|]. by exists e.
  - apply lookup_ge_None in He. assert (i = length es) as -> by lia.
    destruct (wk_end _ _ _ _ _ _ _ _ index_walker s R) as (s' & Hn & Hf). exists s'. by rewrite to_pos_end.
Qed.

Lemma index_Next_ok s i e : ihere s i e -> exists s', index_NextImpl s = Ret tt s' /\ ipos s' (to_pos (es := es) (S i)).
Proof. intros H. apply index_Next_ready. by eapply here_ready. Qed.

(** To a restart point. *)
Lemma index_to_restart s j r : isound s -> rs !! j = Some r ->
  exists s', zoom index_base (SeekToRestartPoint (Z.of_nat j)) s = Ret tt s' /\ iready s' r.
Proof.
  intros So Hr. destruct (seek_to_restart LO u g (index_iter s) j r (proj1 So) Hr) as (b & Hb & R & _).
  exists (set index_base b s). split; [by apply zoom_index|]. apply (wk_seek _ _ _ _ _ _ _ _ index_walker); [done|done|].
  intros e He. by apply (lo_restart _ _ _ _ _ LO j r).
Qed.

Lemma index_SeekToFirst_ok s : isound s ->
  exists s', index_SeekToFirstImpl s = Ret tt s' /\ ipos s' (to_pos (es := es) 0).
Proof.
  intros So. unfold index_SeekToFirstImpl. rewrite unless_null_index_ok by apply So.
  erewrite bind_Ret by (by apply status_set).
  destruct (index_to_restart s 0 0 So (lo_first _ _ _ _ _ LO)) as (s1 & Hs1 & R). rewrite (bind_Ret _ _ _ _ _ Hs1).
  by apply index_Next_ready.
Qed.

Lemma parse_until_ok fuel s k i : iready s k -> (k < i <= length es)%nat -> (i - k <= fuel)%nat ->
  exists s' e, parse_until fuel (offset i) s = Ret tt s' /\ ihere s' (i - 1) e.
Proof.
  revert s k. induction fuel as [|fuel IH]; intros s k R Hk Hf; [lia|]. cbn [parse_until].
  destruct (lookup_lt_is_Some_2 es k ltac:(lia)) as [e He]. destruct (index_parse s k e R He) as (s1 & H1 & Hh).
  rewrite (bind_Ret _ _ _ _ _ H1). cbv beta iota. rewrite bind_gets. cbv beta.
  pose proof (here_ready s1 k e Hh) as R1. rewrite (rd_next _ _ _ _ (proj1 R1)). erewrite bind_Ret by reflexivity.
  destruct (Z.ltb_spec (offset (S k)) (offset i)) as [Hlt|Hge].
  - apply off_lt_inv in Hlt. apply (IH s1 (S k)); [done|lia|lia].
  - assert (i = S k) as ->.
    { destruct (decide (S k < i)%nat) as [Hlt|]; [|lia].
      pose proof (off_lt vd es (lo_ok _ _ _ _ _ LO) (S k) i Hlt ltac:(lia)). lia. }
    exists s1, e. split; [reflexivity|]. by replace (S k - 1)%nat with k by lia.
Qed.

Lemma index_fuel : (length es < S (length data))%nat /\ (Z.to_nat (zlen rs) < S (length data))%nat.
Proof.
  pose proof (entries_bound vd es (lo_ok _ _ _ _ _ LO) (length es) ltac:(done)) as Hl. rewrite <- (restarts_off LO) in Hl.
  pose proof (restarts_bound LO). pose proof (zlen_rs LO). unfold zlen in *. lia.
Qed.

Lemma index_SeekToLast_ok s : isound s -> exists s', index_SeekToLastImpl s = Ret tt s' /\
  ipos s' (if (length es =? 0)%nat then None else Some (length es - 1)%nat).
Proof.
  intros So. unfold index_SeekToLastImpl. rewrite unless_null_index_ok by apply So.
  erewrite bind_Ret by (by apply status_set). rewrite bind_gets. cbv beta. pose proof (proj1 So) as F.
  rewrite (fr_data _ _ _ F), (fr_num _ _ _ F), (fr_restarts _ _ _ F). erewrite bind_Ret by reflexivity.
  pose proof (zlen_rs LO). rewrite u32_small by lia. destruct (rs_index (rs := rs) (zlen rs - 1)) as [r Hr]; [lia|].
  destruct (index_to_restart s _ r So Hr) as (s1 & Hs1 & R). rewrite Z2Nat.id in Hs1 by lia.
  rewrite (bind_Ret _ _ _ _ _ Hs1). pose proof index_fuel as [Hf _]. destruct (Nat.eqb_spec (length es) 0) as [H0|H0].
  - assert (r = length es) as -> by (pose proof (restart_le LO _ r Hr); lia).
    destruct (index_parse_end s1 R) as (s2 & Hs2 & Hfin). exists s2. split; [|done].
    cbn [parse_until]. by rewrite (bind_Ret _ _ _ _ _ Hs2).
  - assert (r < length es)%nat as Hl by (destruct (lo_range _ _ _ _ _ LO _ r Hr); lia).
    rewrite (restarts_off LO). destruct (parse_until_ok (S (length data)) s1 r (length es) R) as (s2 & e & Hs2 & Hh); [lia|lia|].
    exists s2. split; [exact Hs2|]. by exists e.
Qed.

Lemma index_Prev_ok s i e : ihere s i e ->
  exists s', index_PrevImpl s = Ret tt s' /\ ipos s' (if (i =? 0)%nat then None else Some (i - 1)%nat).
Proof.
  intros (A & C & _). pose proof A as [F I He Hc _ _ _]. unfold index_PrevImpl. rewrite bind_gets. cbv beta zeta.
  rewrite (fr_data _ _ _ F), Hc. erewrite bind_Ret by reflexivity. pose proof (lookup_lt_Some _ _ _ He) as Hi.
  pose proof index_fuel as [Hf1 Hf2].
  destruct (back_ok LO u g (S (length data)) (index_iter s) i) as (more & b & Hb & Hres); [done|done|done|unfold indexed in I; lia|].
  erewrite bind_Ret by (by apply zoom_index). destruct more; cbn [negb].
  - destruct Hres as (F1 & r & Hri & Hr & Hlt). set (s1 := set index_base b s).
    assert (isound s1) as So1 by (split; [done|by destruct C; split]).
    destruct (index_to_restart s1 _ r So1 Hr) as (s2 & Hs2 & R). rewrite Z2Nat.id in Hs2 by done.
    erewrite (bind_Ret _ _ _ tt s2) by exact Hs2.
    destruct (parse_until_ok (S (length data)) s2 r i R) as (s3 & e3 & Hs3 & Hh); [lia|lia|].
    exists s3. split; [exact Hs3|]. rewrite (proj2 (Nat.eqb_neq i 0)) by lia. by exists e3.
  - destruct Hres as [E ->]. eexists. split; [reflexivity|]. split; [done|by destruct C; split].
Qed.

(** ** Searching *)

Context {user_comparator : Comparator} {laws : ComparatorLaws user_comparator}.

(** The keys of an index are internal keys or user keys. *)
Definition key_order : bytes -> bytes -> Z := if u then Compare else icmp.
Definition seek_key (target : bytes) : bytes := if u then ukey target else target.

#[local] Instance key_order_laws : ThreeWay key_order.
Proof. unfold key_order. destruct u; apply _. Qed.

Context (Hint : u = false -> forall i e, es !! i = Some e -> internal (i_key e)).
Context (Hord : forall i j e f, es !! i = Some e -> es !! j = Some f -> (i < j)%nat -> key_order (i_key e) (i_key f) < 0).

Section Target.
Context (target : bytes) (Htarget : internal target).

Definition tcmp (k : bytes) : Z := key_order k (seek_key target).

Lemma tcmp_ok it e : framed it -> e ∈ es -> ik_key (raw_key_ it) = i_key e ->
  CompareCurrentKey (seek_key target) it = Some (tcmp (i_key e)).
Proof.
  intros F [i He]%list_elem_of_lookup Hk. unfold CompareCurrentKey, tcmp, key_order, seek_key.
  rewrite (fr_user _ _ _ F), (fr_global _ _ _ F), Hk. destruct u; [done|]. rewrite Z.eqb_refl.
  apply ik_Compare_icmp; [by eapply Hint|done].
Qed.

Lemma tcmp_sorted i j e f : es !! i = Some e -> es !! j = Some f -> (i < j)%nat ->
  tcmp (i_key f) <= 0 -> tcmp (i_key e) < 0.
Proof. intros He Hf Hij Hle. apply (cmp_lt_trans _ (i_key f)); [by eapply Hord|done]. Qed.

Lemma index_Seek_ok s p : px = None -> ipos s p ->
  exists s', index_SeekImpl target s = Ret tt s' /\ ipos s' (to_pos (es := es) (lower_bound (es := es) tcmp)).
Proof.
  intros Hpx P. pose proof (ipos_sound s p P) as So. pose proof So as [F C]. unfold index_SeekImpl.
  rewrite unless_null_index_ok by done. rewrite bind_gets. cbv beta. change (id s) with s.
  rewrite (fr_user _ _ _ F), (cf_prefix _ C), Hpx, (cf_delta _ C).
  rewrite (bind_Ret _ _ s (seek_key target) s);
    [|unfold seek_key; destruct u; [by rewrite ExtractUserKey_internal|done]].
  erewrite bind_Ret by (by apply status_set). destruct (decide (es = [])) as [Hnil|Hne].
  - assert (BinarySeek (index_DecodeKey vd) (seek_key target) (index_iter s) = Ret None (index_iter s)) as Hb.
    { unfold BinarySeek. rewrite bind_gets. cbv beta. change (id ?x) with x.
      rewrite (fr_restarts _ _ _ F), (lo_restarts _ _ _ _ _ LO), Hnil. done. }
    erewrite bind_Ret by (by apply zoom_index). exists s. split; [by destruct s|]. unfold to_pos. rewrite Hnil.
    destruct p as [i|]; [|done]. destruct P as (e & [_ _ He _ _ _ _] & _). rewrite Hnil in He. done.
  - destruct (BinarySeek_ok LO u g tcmp (seek_key target) tcmp_ok tcmp_sorted Hne (index_DecodeKey vd) (index_iter s)
      (index_DecodeKey_decodes LO value_not_empty) F) as (index & skip & b & Hb & F' & Hbr).
    erewrite bind_Ret by (by apply zoom_index). cbv beta iota.
    apply (FindKey_ok LO u g tcmp (seek_key target) tcmp_ok tcmp_sorted Hne index_walker); [|done].
    split; [done|by destruct C; split].
Qed.

(** *** Through the prefix index *)

Section Prefix.
Context (Hdense : rs = seq 0 (Nat.max 1 (length es))).
(** The entries that the prefix index gives. *)
Context (ids : list Z) (Hids : StronglySorted Z.lt ids) (Hrange : forall i, i ∈ ids -> 0 <= i < zlen es).

(** How the key of an entry compares with the target. *)
Definition cmp_at (i : Z) : Z := from_option (fun e => tcmp (i_key e)) 0 (es !! Z.to_nat i).

Lemma entry_at i : 0 <= i < zlen es -> exists e, es !! Z.to_nat i = Some e /\ cmp_at i = tcmp (i_key e).
Proof.
  intros Hi. destruct (lookup_lt_is_Some_2 es (Z.to_nat i)) as [e He]; [unfold zlen in Hi; lia|].
  exists e. unfold cmp_at. by rewrite He.
Qed.

Lemma cmp_at_sorted i j : 0 <= i < j -> j < zlen es -> cmp_at j <= 0 -> cmp_at i < 0.
Proof.
  intros Hi Hj Hc. destruct (entry_at i) as (e & He & ->); [lia|]. destruct (entry_at j) as (f & Hf & Hcf); [lia|].
  rewrite Hcf in Hc. apply (tcmp_sorted (Z.to_nat i) (Z.to_nat j) e f); [done|done|lia|done].
Qed.

Lemma dense_restart j : (j < length es)%nat -> rs !! j = Some j.
Proof. intros Hj. rewrite Hdense. rewrite lookup_seq. lia. Qed.

Lemma CompareBlockKey_ok i s : isound s -> 0 <= i < zlen es ->
  exists s', CompareBlockKey i (seek_key target) s = Ret (cmp_at i) s' /\ isound s'.
Proof.
  intros [F C] Hi. destruct (entry_at i Hi) as (e & He & ->). pose proof (lookup_lt_Some _ _ _ He) as Hl.
  pose proof (dense_restart _ Hl) as Hr. pose proof (lo_restart _ _ _ _ _ LO _ _ e Hr He) as Hs.
  destruct (restart_point_Z LO u g (index_iter s) i F) as (r & Hr' & Hp).
  { pose proof (lookup_lt_Some _ _ _ Hr). unfold zlen in *. lia. }
  rewrite Hr in Hr'. injection Hr' as <-.
  destruct (probe LO u g tcmp (seek_key target) tcmp_ok (index_DecodeKey vd) (index_iter s) _ e
    (index_DecodeKey_decodes LO value_not_empty) F He Hs) as (Hdec & Hb & F1 & Hc). cbv zeta in F1, Hc.
  set (it1 := set_raw_key _ (index_iter s)) in *. exists (set index_base it1 s). split; [|split; [done|by destruct C; split]].
  unfold CompareBlockKey. rewrite bind_gets. cbv beta. change (id s) with s. rewrite (cf_delta _ C). apply zoom_index.
  erewrite bind_Ret by exact Hp. rewrite bind_gets. cbv beta. change (id ?x) with x. rewrite (fr_data _ _ _ F), (fr_restarts _ _ _ F).
  erewrite bind_Ret by reflexivity. erewrite bind_Ret by exact Hdec. cbv beta iota. rewrite Hb.
  erewrite bind_Ret by reflexivity. rewrite bind_gets. cbv beta. change (id ?x) with x. fold it1. by rewrite Hc.
Qed.

Lemma id_at m : 0 <= m < zlen ids -> exists i, ids !! Z.to_nat m = Some i /\ block_id_at (Some <$> ids) m = Some i /\ 0 <= i < zlen es.
Proof.
  intros Hm. destruct (lookup_lt_is_Some_2 ids (Z.to_nat m)) as [i Hi]; [unfold zlen in Hm; lia|]. exists i. split; [done|].
  split; [unfold block_id_at; by rewrite list_lookup_fmap, Hi|]. apply Hrange. by eapply list_elem_of_lookup_2.
Qed.

Lemma ids_lt m n i j : ids !! m = Some i -> ids !! n = Some j -> (m < n)%nat -> i < j.
Proof. by apply sorted_lookup_lt. Qed.

(** All the entries before position [m] of [ids] are below the target. *)
Definition below_until (m : Z) : Prop := forall k i, Z.of_nat k < m -> ids !! k = Some i -> cmp_at i < 0.

Lemma below_extend m i : ids !! Z.to_nat m = Some i -> 0 <= m -> cmp_at i < 0 -> below_until (m + 1).
Proof.
  intros Hm H0 Hc k j Hk Hj. destruct (decide (k = Z.to_nat m)) as [->|Hne]; [congruence|].
  pose proof (ids_lt k (Z.to_nat m) j i Hj Hm ltac:(lia)) as Hlt.
  assert (0 <= j < zlen es) by (apply Hrange; by eapply list_elem_of_lookup_2).
  assert (0 <= i < zlen es) by (apply Hrange; by eapply list_elem_of_lookup_2).
  apply (cmp_at_sorted j i); lia.
Qed.

Lemma block_seek_ok fuel left right s : isound s -> 0 <= left <= right + 1 -> 0 <= right < zlen ids -> zlen ids < 2 ^ 31 ->
  right - left + 1 < Z.of_nat fuel -> below_until left ->
  (right + 1 < zlen ids -> forall i, ids !! Z.to_nat right = Some i -> 0 <= cmp_at i) ->
  exists l r s', block_seek_loop fuel (seek_key target) (Some <$> ids) left right s = Ret (Some (l, r)) s' /\ isound s' /\
    below_until l /\
    (l = r /\ 0 <= l < zlen ids /\ (forall i, ids !! Z.to_nat l = Some i -> 0 <= cmp_at i) \/ r = zlen ids - 1 /\ l = zlen ids).
Proof.
  revert left right s. induction fuel as [|fuel IH]; intros left right s So Hlr Hr Hz Hf Hb Hg; [lia|]. cbn [block_seek_loop].
  destruct (Z.leb_spec left right) as [Hle|Hgt].
  - set (mid := u32 (right + left) / 2). assert (left <= mid <= right /\ (left < right -> mid < right)) as [Hm Hm'].
    { unfold mid. rewrite u32_small by lia. pose proof (Z.div_mod (right + left) 2). pose proof (Z.mod_pos_bound (right + left) 2). lia. }
    destruct (id_at mid ltac:(lia)) as (i & Hi & Hid & Hir). rewrite Hid. erewrite bind_Ret by reflexivity.
    destruct (CompareBlockKey_ok i s So Hir) as (s1 & Hs1 & So1). rewrite (bind_Ret _ _ _ _ _ Hs1). rewrite bind_gets. cbv beta.
    rewrite (fr_status _ _ _ (proj1 So1)). cbn [st_ok negb]. destruct (Z.ltb_spec (cmp_at i) 0) as [Hc|Hc].
    + rewrite u32_small by lia. apply (IH (mid + 1) right s1); try done; try lia. by apply (below_extend mid i); [|lia|].
    + destruct (Z.eqb_spec left right) as [<-|Hne].
      * exists left, left, s1. split; [done|]. split; [done|]. split; [done|]. left. split; [done|]. split; [lia|].
        intros j Hj. assert (mid = left) as Hml by lia. rewrite Hml in Hi. congruence.
      * apply (IH left mid s1); try done; try lia. intros _ j Hj. congruence.
  - exists left, right, s. split; [done|]. split; [done|]. split; [done|]. right.
    assert (right = left - 1) as -> by lia. destruct (decide (left = zlen ids)) as [->|Hne]; [lia|].
    destruct (id_at (left - 1) ltac:(lia)) as (i & Hi & _). specialize (Hg ltac:(lia) i Hi).
    specialize (Hb (Z.to_nat (left - 1)) i ltac:(lia) Hi). lia.
Qed.

(** The entry [n] is where the target is searched for: those before are below it (or the
    last of these equals it, and its block does not have the prefix), and the entry is
    not below it. *)
Definition found (n : Z) : Prop :=
  0 <= n <= zlen es /\ (forall j, 0 <= j < n -> cmp_at j < 0 \/ (j = n - 1 /\ cmp_at j = 0 /\ j ∉ ids)) /\
  (n < zlen es -> 0 <= cmp_at n).

(** No entry of the prefix can have the target or a key above it. *)
Definition missing : Prop :=
  (forall i, i ∈ ids -> cmp_at i < 0) \/
  exists b, b ∈ ids /\ 0 < b /\ ~ (b - 1) ∈ ids /\ 0 < cmp_at (b - 1) /\ (forall i, i ∈ ids -> i < b -> cmp_at i < 0).

Lemma mark_invalid_ok s : isound s -> exists s', mark_invalid s = Ret tt s' /\ ifin s'.
Proof.
  intros [F C]. eexists. split; [by apply zoom_index|]. split; [|by destruct C; split].
  split; [by destruct F; split|]. cbn. apply F.
Qed.

Lemma found_after i : 0 <= i < zlen es -> 0 <= cmp_at i -> (0 < i -> cmp_at (i - 1) < 0 \/ (cmp_at (i - 1) = 0 /\ (i - 1) ∉ ids)) -> found i.
Proof.
  intros Hi Hc Hb. split; [lia|]. split; [|done]. intros j Hj. specialize (Hb ltac:(lia)).
  destruct (decide (j = i - 1)) as [->|Hne]; [destruct Hb as [?|[? ?]]; [by left|by right]|].
  left. apply (cmp_at_sorted j (i - 1)); lia.
Qed.

Lemma not_an_id l b : ids !! l = Some b -> (forall k p, l = S k -> ids !! k = Some p -> p <> b - 1) -> (b - 1) ∉ ids.
Proof.
  intros Hl Hp [k Hk]%list_elem_of_lookup. destruct (decide (k < l)%nat) as [Hlt|Hge].
  - destruct l as [|l]; [lia|]. destruct (decide (k = l)) as [->|Hne]; [by apply (Hp l (b - 1))|].
    destruct (lookup_lt_is_Some_2 ids l) as [p Hpl]; [apply lookup_lt_Some in Hl; lia|].
    pose proof (ids_lt k l _ _ Hk Hpl ltac:(lia)). pose proof (ids_lt l (S l) _ _ Hpl Hl ltac:(lia)). lia.
  - destruct (decide (k = l)) as [->|Hne]; [rewrite Hl in Hk; injection Hk as Hk; lia|].
    pose proof (ids_lt l k _ _ Hl Hk ltac:(lia)). lia.
Qed.

Lemma below_ids l b i : ids !! Z.to_nat l = Some b -> 0 <= l -> below_until l -> i ∈ ids -> i < b -> cmp_at i < 0.
Proof.
  intros Hl H0 Hb [k Hk]%list_elem_of_lookup Hlt. apply (Hb k i); [|done].
  destruct (decide (Z.to_nat l <= k)%nat) as [Hle|]; [|lia]. destruct (decide (k = Z.to_nat l)) as [->|Hne]; [rewrite Hl in Hk; injection Hk as Hk; lia|].
  pose proof (ids_lt _ _ _ _ Hl Hk ltac:(lia)). lia.
Qed.

Definition seek_outcome (r : option Z * bool) (s' : IndexBlockIter) : Prop :=
  match r with
  | (Some b, true) => isound s' /\ b < zlen es /\ found b
  | (None, true) => ifin s' /\ found (zlen es)
  | (None, false) => ifin s' /\ missing
  | (Some _, false) => False
  end.

(** The search ended at an entry that is not below the target. *)
Lemma first_at_or_above l b s : isound s -> ids !! Z.to_nat l = Some b -> 0 <= l -> below_until l -> 0 <= cmp_at b ->
  exists r s', (gap ← (if b <=? 0 then mret false
           else if l =? 0 then mret true
           else p ← the (block_id_at (Some <$> ids) (l - 1)); mret (negb (p =? b - 1)));
    absent ← (if (gap : bool) then cmp ← CompareBlockKey (b - 1) (seek_key target); mret (0 <? cmp) else mret false);
    if (absent : bool) then mark_invalid;; mret (None, false) else mret (Some b, true)) s = Ret r s' /\ seek_outcome r s'.
Proof.
  intros So Hl H0 Hb Hc. assert (0 <= b < zlen es) as Hbr by (apply Hrange; by eapply list_elem_of_lookup_2).
  assert (b ∈ ids) as Hin by (by eapply list_elem_of_lookup_2).
  assert (forall gap : bool, (gap = true -> 0 < b /\ (b - 1) ∉ ids) -> (gap = false -> 0 < b -> cmp_at (b - 1) < 0) ->
    exists r s', (absent ← (if gap then cmp ← CompareBlockKey (b - 1) (seek_key target); mret (0 <? cmp) else mret false);
      if (absent : bool) then mark_invalid;; mret (None, false) else mret (Some b, true)) s = Ret r s' /\ seek_outcome r s') as H.
  { intros [|] Hgap Hno.
    - destruct (Hgap eq_refl) as [Hpos Hnot]. destruct (CompareBlockKey_ok (b - 1) s So ltac:(lia)) as (s1 & Hs1 & So1).
      erewrite bind_Ret by (erewrite bind_Ret by exact Hs1; reflexivity). destruct (Z.ltb_spec 0 (cmp_at (b - 1))) as [Hgt|Hle].
      + destruct (mark_invalid_ok s1 So1) as (s2 & Hs2 & Fi). rewrite (bind_Ret _ _ _ _ _ Hs2). eexists _, _. split; [reflexivity|].
        split; [done|]. right. exists b. split_and!; try done. intros i Hi Hlt. by apply (below_ids l b).
      + eexists _, _. split; [reflexivity|]. split; [done|]. split; [lia|]. apply found_after; [done|done|]. intros _.
        destruct (decide (cmp_at (b - 1) = 0)); [by right|left; lia].
    - erewrite bind_Ret by reflexivity. eexists _, _. split; [reflexivity|]. split; [done|]. split; [lia|].
      apply found_after; [done|done|]. intros Hpos. left. by apply Hno. }
  destruct (Z.leb_spec b 0) as [Hb0|Hb0]; [erewrite bind_Ret by reflexivity; apply H; [done|lia]|].
  destruct (Z.eqb_spec l 0) as [->|Hl0].
  { erewrite bind_Ret by reflexivity. apply H; [|done]. intros _. split; [done|]. by apply (not_an_id 0 b Hl). }
  destruct (id_at (l - 1)) as (p & Hp & Hpid & _); [pose proof (lookup_lt_Some _ _ _ Hl); unfold zlen; lia|]. rewrite Hpid.
  erewrite bind_Ret by reflexivity. apply H.
  - intros E%negb_true_iff%Z.eqb_neq. split; [done|]. apply (not_an_id (Z.to_nat l) b Hl). intros k q Hk Hq.
    replace k with (Z.to_nat (l - 1)) in Hq by lia. congruence.
  - intros E%negb_false_iff%Z.eqb_eq _. apply (Hb (Z.to_nat (l - 1))); [lia|]. by rewrite Hp, E.
Qed.

Lemma BinaryBlockIndexSeek_ok s : isound s -> ids <> [] -> zlen ids < 2 ^ 31 -> zlen es < 2 ^ 31 ->
  exists r s', BinaryBlockIndexSeek (seek_key target) (Some <$> ids) 0 (zlen ids - 1) s = Ret r s' /\ seek_outcome r s'.
Proof.
  intros So Hne Hz He. assert (1 <= zlen ids) as Hpos by (destruct ids; [done|unfold zlen; cbn; lia]).
  unfold BinaryBlockIndexSeek. rewrite length_fmap.
  destruct (block_seek_ok (S (length ids)) 0 (zlen ids - 1) s So) as (l & r & s1 & Hs1 & So1 & Hb & Hres);
    [lia|lia|done|unfold zlen; lia|intros k i Hk; lia|lia|].
  rewrite (bind_Ret _ _ _ _ _ Hs1). cbv beta iota zeta. destruct Hres as [(<- & Hl & Hc)|(-> & ->)].
  - rewrite Z.eqb_refl. destruct (id_at l Hl) as (b & Hbl & Hid & _). rewrite Hid. erewrite bind_Ret by reflexivity.
    apply first_at_or_above; [done|done|lia|done|by apply Hc].
  - rewrite (proj2 (Z.eqb_neq _ _)) by lia. destruct (id_at (zlen ids - 1) ltac:(lia)) as (i & Hi & Hid & Hir). rewrite Hid.
    erewrite bind_Ret by reflexivity. rewrite bind_gets. cbv beta. rewrite u32_small by lia.
    rewrite (fr_num _ _ _ (proj1 So1)). assert (zlen rs = zlen es) as -> by (rewrite Hdense; unfold zlen in *; rewrite length_seq; lia).
    assert (cmp_at i < 0) as Hci by (apply (Hb (Z.to_nat (zlen ids - 1))); [lia|done]).
    assert (forall j, j ∈ ids -> cmp_at j < 0) as Hall.
    { intros j [k Hk]%list_elem_of_lookup. apply (Hb k j); [|done]. apply lookup_lt_Some in Hk. unfold zlen. lia. }
    destruct (Z.ltb_spec (i + 1) (zlen es)) as [Hlt|Hge].
    + destruct (CompareBlockKey_ok (i + 1) s1 So1 ltac:(lia)) as (s2 & Hs2 & So2). rewrite (bind_Ret _ _ _ _ _ Hs2).
      destruct (Z.leb_spec 0 (cmp_at (i + 1))) as [Hc|Hc].
      * eexists _, _. split; [reflexivity|]. split; [done|]. split; [lia|]. apply found_after; [lia|done|].
        intros _. left. by replace (i + 1 - 1) with i by lia.
      * destruct (mark_invalid_ok s2 So2) as (s3 & Hs3 & Fi). rewrite (bind_Ret _ _ _ _ _ Hs3). eexists _, _. split; [reflexivity|].
        split; [done|]. by left.
    + destruct (mark_invalid_ok s1 So1) as (s3 & Hs3 & Fi). rewrite (bind_Ret _ _ _ _ _ Hs3). eexists _, _. split; [reflexivity|].
      split; [done|]. split; [lia|]. split; [|lia]. intros j Hj. left.
      destruct (decide (j = i)) as [->|Hji]; [done|]. apply (cmp_at_sorted j i); lia.
Qed.

Lemma sorted_ids_bound : zlen ids <= zlen es.
Proof.
  pose proof (sorted_nodup ids Hids) as Hnd.
  pose proof (submseteq_length _ _ (NoDup_submseteq ids (seqZ 0 (zlen es)) Hnd ltac:(intros i Hi; apply elem_of_seqZ; specialize (Hrange i Hi); lia))) as H.
  rewrite length_seqZ in H. pose proof (zlen_nonneg es). unfold zlen in *. lia.
Qed.

Lemma ifin_sound s : ifin s -> isound s /\ it_Valid (index_iter s) = false.
Proof. intros [A C]. split; [split; [apply A|done]|]. apply (at_end_valid u g _ A). Qed.

(** [Seek] through the prefix index is at the entry where the target is searched for,
    or says that it is not there. *)
Lemma index_Seek_prefix_ok x s p : px = Some x -> GetBlocks target x = Some (Some <$> ids) -> zlen es < 2 ^ 31 -> ipos s p ->
  exists s', index_SeekImpl target s = Ret tt s' /\
    ((exists n, found n /\ ipos s' (to_pos (es := es) (Z.to_nat n))) \/
     (missing /\ it_Valid (index_iter s') = false /\ it_status_ (index_iter s') = StNotFound)).
Proof.
  intros Hpx Hg Hz P. pose proof (ipos_sound s p P) as So. pose proof So as [F C]. pose proof sorted_ids_bound.
  unfold index_SeekImpl. rewrite unless_null_index_ok by done. rewrite bind_gets. cbv beta. change (id s) with s.
  rewrite (fr_user _ _ _ F), (cf_prefix _ C), Hpx.
  assert (forall t : IndexBlockIter, (if u then the (ExtractUserKey target) else mret target) t = Ret (seek_key target) t) as Hsk.
  { intros t. unfold seek_key. destruct u; [by rewrite ExtractUserKey_internal|done]. }
  rewrite (bind_Ret _ _ _ _ _ (Hsk s)). erewrite bind_Ret by (by apply status_set).
  assert (exists r s1, PrefixSeek x target s = Ret r s1 /\ seek_outcome r s1) as (r & s1 & Hs1 & Hout).
  { unfold PrefixSeek. rewrite bind_gets. cbv beta. rewrite (fr_user _ _ _ F), (bind_Ret _ _ _ _ _ (Hsk s)), Hg.
    erewrite bind_Ret by reflexivity. assert (zlen (Some <$> ids) = zlen ids) as Hlen by (unfold zlen; by rewrite length_fmap).
    rewrite Hlen. destruct (decide (ids = [])) as [E|Hne].
    - rewrite E. destruct (mark_invalid_ok s So) as (s1 & Hs1 & Fi). change (zlen [] =? 0) with true. cbv iota.
      eexists _, _. split; [by erewrite bind_Ret by exact Hs1|]. split; [done|]. left. rewrite E. by intros i Hi%not_elem_of_nil.
    - rewrite (proj2 (Z.eqb_neq _ 0)) by (destruct ids; [done|unfold zlen; cbn; lia]).
      apply BinaryBlockIndexSeek_ok; [done|done|lia|done]. }
  destruct r as [[b|] []]; [| |destruct Hout as [Fi Hn]|destruct Hout as [Fi Hm]].
  - destruct Hout as (So1 & Hb & Hn). erewrite bind_Ret by (erewrite bind_Ret by exact Hs1; reflexivity). cbn [fmap option_fmap option_map]. cbv beta iota.
    pose proof Hn as [Hb0 _]. destruct (index_to_restart s1 (Z.to_nat b) (Z.to_nat b) So1) as (s2 & Hs2 & R).
    { apply dense_restart. unfold zlen in Hb. lia. }
    rewrite Z2Nat.id in Hs2 by lia. destruct (index_Next_ready s2 _ R) as (s3 & Hs3 & P3).
    exists s3. unfold FindKeyAfterBinarySeek. split; [erewrite bind_Ret by exact Hs2; by erewrite bind_Ret by exact Hs3|]. left. by exists b.
  - done.
  - erewrite bind_Ret by (erewrite bind_Ret by exact Hs1; reflexivity). exists s1. split; [done|]. left.
    exists (zlen es). split; [done|]. unfold zlen. by rewrite Nat2Z.id, to_pos_end.
  - destruct (mark_invalid_ok s1 (proj1 (ifin_sound s1 Fi))) as (s2 & Hs2 & Fi2).
    erewrite bind_Ret by (erewrite bind_Ret by exact Hs1; cbv beta iota; cbn [negb when];
      erewrite bind_Ret by (erewrite bind_Ret by exact Hs2; apply zoom_index; reflexivity); reflexivity).
    eexists. split; [reflexivity|]. right. split; [done|]. split; [|done]. apply (proj2 (ifin_sound s2 Fi2)).
Qed.
End Prefix.
End Target.

(** ** The key that is shown *)

Lemma index_update s p : ipos s p ->
  exists s', index_UpdateKey s = Ret tt s' /\ ipos s' p /\
    it_status_ (index_iter s') = StOK /\ it_Valid (index_iter s') = (if p is Some _ then true else false) /\
    forall i e, p = Some i -> es !! i = Some e -> it_key_ (index_iter s') = i_key e.
Proof.
  intros P. pose proof (ipos_sound s p P) as [F C]. unfold index_UpdateKey. destruct p as [i|].
  - destruct P as (e & A & C' & Hd). pose proof (at_entry_valid LO u g _ i e A) as Hv. pose proof A as [_ I He Hc Hk Ha Hval].
    assert (exists pinned, UpdateKey (index_iter s) = Ret tt (set_key (i_key e) pinned (index_iter s))) as [pinned Hu].
    { unfold UpdateKey. rewrite bind_gets. cbv beta. change (id ?x) with x.
      rewrite Hv, (fr_user _ _ _ F), (fr_global _ _ _ F), Z.eqb_refl, orb_true_r, Hk. cbn [negb]. by eexists. }
    eexists. split; [by apply zoom_index|].
    assert (entry (set_key (i_key e) pinned (index_iter s)) i e) as A' by (split; try done; by destruct F; split).
    split; [exists e; split; [exact A'|split; [by destruct C; split|done]]|]. split; [apply A'|].
    split; [apply (at_entry_valid LO u g _ i e A')|]. intros i' e' [= <-] He'. rewrite He in He'. by injection He' as <-.
  - exists s. assert (it_Valid (index_iter s) = false) as Hv by (apply (at_end_valid u g _ (proj1 P))).
    split; [|split; [done|split; [apply F|split; [done|done]]]]. rewrite (zoom_index _ s tt (index_iter s)); [by destruct s|].
    unfold UpdateKey. rewrite bind_gets. cbv beta. change (id ?x) with x. by rewrite Hv.
Qed.
End Index.
