(* ===== verification/IndexThms.v ===== *)
(** The index of a table: what [ShortenedIndexBuilder] makes of the blocks of a table
    leads [IndexBlockIter] to the block where a key is. *)
From S2P Require Import Prelude Bits Coding IoStatus Comparator DbFormat BlockBuilder BlockIter BlockSpec BlockSeek BlockCursor BlockBuild BlockThms TableFormat PrefixIndex IndexIter IndexBuilder IndexSpec.
From stdpp Require Import base numbers list strings sorting.
From Stdlib Require Import ZArith Lia SpecFloat.
Local Open Scope Z_scope.

(** ** The blocks of a table *)

(** The keys of a data block and its handle. *)
Record table_block := MkTableBlock { tb_keys : list bytes; tb_handle : BlockHandle }.

Definition first_of (b : table_block) : option bytes := head (tb_keys b).
Definition last_of (b : table_block) : bytes := default [] (last (tb_keys b)).

Section Builder.
Context {user_comparator : Comparator} {laws : ComparatorLaws user_comparator}.

(** What the builder of the table calls: [OnKeyAdded] for every key, and
    [AddIndexEntry] when a block is full, with the first key of the next one. *)
Fixpoint add_blocks (bs : list table_block) : prog ShortenedIndexBuilder unit :=
  match bs with
  | [] => mret tt
  | b :: bs' =>
    iterM OnKeyAdded (tb_keys b);;
    AddIndexEntry (last_of b) (b' ← head bs'; first_of b') (tb_handle b);;
    add_blocks bs'
  end.

Context (vd hfk : bool) (mode : IndexShorteningMode) (interval : Z).
Context (Hkeep : forall u v, Compare u v = 0 -> FindShortestSeparator u v = u).

(** *** The builder of one block *)

Definition grown (b : BlockBuilder) (es : list item) : Prop :=
  exists rs, built b es rs /\ last_kept b es /\ use_value_delta_encoding_ b = vd /\
    block_restart_interval_ b = interval /\ hash_Valid (data_block_hash_index_builder_ b) = false.

Lemma grown_add b es key value delta :
  grown b es -> zlen key < 2 ^ 32 -> zlen value < 2 ^ 32 -> zlen delta < 2 ^ 32 ->
  exists e b', builder_Add key value (Some delta) b = Ret tt b' /\ holds vd e (key, value, Some delta) /\ grown b' (es ++ [e]).
Proof.
  intros (rs & B & L & Hvd & Hint & Hh) Hk Hv Hd.
  destruct (Add_ok b es rs key value (Some delta) B L) as (e & b' & rs' & Ha & He & B' & L' & (Hi & _ & Hc) & Hv').
  { split; [done|done|intros _; by exists delta|by rewrite Hh]. }
  rewrite Hvd in *. exists e, b'. split; [done|]. split; [done|]. exists rs'. split_and!; [done|done|by rewrite Hc|by rewrite Hi|].
  apply not_true_is_false. intros E. by rewrite (Hv' E) in Hh.
Qed.

(** *** An entry of the index *)

Record config_of (b : ShortenedIndexBuilder) : Prop := {
  co_delta : index_value_delta_encoding_ b = vd;
  co_first : include_first_key_ b = hfk;
  co_mode : shortening_mode_ b = mode }.

(** The entries so far, in the block of internal keys and in that of user keys. *)
Record entered (b : ShortenedIndexBuilder) (es us : list item) (prev : BlockHandle) (fk : bytes) : Prop := {
  en_config : config_of b;
  en_seq : grown (index_block_builder_ b) es;
  en_user : seperator_is_key_plus_seq_ b = false -> grown (index_block_builder_without_seq_ b) us;
  en_prev : last_encoded_handle_ b = prev;
  en_key : current_block_first_internal_key_ b = fk }.

(** The two encodings of a value. *)
Definition full_value (v : IndexValue) : bytes := index_EncodeTo [] hfk None v.
Definition delta_value (prev : BlockHandle) (v : IndexValue) : bytes :=
  if vd && negb (handle_IsNull prev) then index_EncodeTo [] hfk (Some prev) v else [].

Lemma separator_chosen lastk next :
  internal lastk -> (forall n, next = Some n -> internal n /\ icmp lastk n < 0) ->
  exists sep, choose_separator mode lastk next = Some sep /\ internal sep /\ zlen sep <= zlen lastk /\
    icmp lastk sep <= 0 /\ forall n, next = Some n -> icmp sep n < 0.
Proof.
  intros Hl Hn. assert (icmp lastk lastk <= 0) as Hrefl by (by rewrite cmp_refl).
  destruct next as [n|].
  - destruct (Hn n eq_refl) as [Hni Hlt]. destruct (separator_ok lastk n Hkeep Hl Hni Hlt) as (s & Hs & Hi & Hz & H1 & H2).
    destruct mode; [exists lastk|exists s..]; (split; [done|]); (split_and!; [done|lia|done|by intros ? [= <-]]).
  - destruct (successor_ok lastk Hl) as (s & Hs & Hi & Hz & H1).
    destruct mode; [exists lastk..|exists s]; (split; [done|]); by split_and!.
Qed.

Lemma note_sequence_ok b sep next : internal sep -> (forall n, next = Some n -> internal n) ->
  exists b', note_sequence sep next b = Ret tt b' /\ (b' = b \/ b' = set_plus_seq b) /\
    (seperator_is_key_plus_seq_ b' = false -> seperator_is_key_plus_seq_ b = false /\
      forall n, next = Some n -> Compare (ukey sep) (ukey n) <> 0).
Proof.
  intros Hs Hn. unfold note_sequence. rewrite bind_gets. cbv beta. change (id b) with b.
  destruct next as [n|]; [|exists b; split; [done|]; split; [by left|done]].
  destruct (seperator_is_key_plus_seq_ b) eqn:E.
  { exists b. split; [done|]. split; [by left|]. rewrite E. done. }
  rewrite !ExtractUserKey_internal by eauto. erewrite bind_Ret by reflexivity. erewrite bind_Ret by reflexivity.
  destruct (Z.eqb_spec (Compare (ukey sep) (ukey n)) 0) as [Hc|Hc]; cbn [when].
  - eexists. split; [reflexivity|]. split; [by right|]. done.
  - exists b. split; [done|]. split; [by left|]. intros _. split; [done|]. by intros ? [= <-].
Qed.

Lemma zlen_varint64 x : 0 <= x < 2 ^ 64 -> zlen (EncodeVarint64 x) <= 10.
Proof. intros Hx. pose proof (length_varint 9 x) as Hl. change (2 ^ (7 * Z.of_nat 10)) with (2 ^ 70) in Hl. unfold zlen. lia. Qed.

Lemma value_sizes prev h fk : handle_ok h -> (hfk = false -> fk = []) -> zlen fk < 2 ^ 32 ->
  zlen (full_value (MkIndexValue h fk)) <= 25 + zlen fk /\ zlen (delta_value prev (MkIndexValue h fk)) <= 25 + zlen fk.
Proof.
  intros Hh Hf Hz. pose proof (handle_bytes_size h Hh) as Hb. pose proof (zlen_nonneg fk).
  assert (forall p x, zlen p <= 20 -> x = p ++ (if hfk then PutLengthPrefixedSlice [] fk else []) -> zlen x <= 25 + zlen fk) as Hx.
  { intros p x Hp ->. rewrite zlen_app. destruct hfk; [|change (zlen (A := Byte.byte) []) with 0; lia].
    unfold PutLengthPrefixedSlice, PutVarint32. cbn [app]. fold (zlen fk). rewrite zlen_app, u32_small by lia.
    pose proof (zlen_EncodeVarint32 (zlen fk)). lia. }
  unfold full_value, delta_value, index_EncodeTo. cbn [iv_handle first_internal_key]. split.
  - apply (Hx (handle_bytes h)); [done|]. destruct hfk; [|by rewrite app_nil_r]. unfold PutLengthPrefixedSlice, PutVarint32.
    cbn. by rewrite <- !app_assoc.
  - destruct (vd && _); [|change (zlen (A := Byte.byte) []) with 0; lia].
    destruct (zigzag_inv _ (i64_range (h_size h - h_size prev))) as [Hr _].
    pose proof (zlen_varint64 _ Hr).
    apply (Hx (EncodeVarint64 (i64ToZigzag (i64 (h_size h - h_size prev))))); [lia|].
    destruct hfk; [|by rewrite app_nil_r]. unfold PutLengthPrefixedSlice, PutVarint32, PutVarsignedint64. cbn. by rewrite <- !app_assoc.
Qed.

Lemma AddIndexEntry_ok b es us prev fk lastk next h :
  entered b es us prev fk -> internal lastk -> (forall n, next = Some n -> internal n /\ icmp lastk n < 0) ->
  handle_ok h -> (hfk = false -> fk = []) -> 25 + zlen fk < 2 ^ 32 -> zlen lastk < 2 ^ 32 ->
  let v := MkIndexValue h fk in
  exists sep e e' b', AddIndexEntry lastk next h b = Ret sep b' /\
    choose_separator mode lastk next = Some sep /\
    internal sep /\ zlen sep <= zlen lastk /\ icmp lastk sep <= 0 /\ (forall n, next = Some n -> icmp sep n < 0) /\
    holds vd e (sep, full_value v, Some (delta_value prev v)) /\
    holds vd e' (ukey sep, full_value v, Some (delta_value prev v)) /\
    entered b' (es ++ [e]) (us ++ [e']) h [] /\
    (seperator_is_key_plus_seq_ b' = false -> seperator_is_key_plus_seq_ b = false /\
      forall n, next = Some n -> Compare (ukey sep) (ukey n) <> 0).
Proof.
  intros [C G U P K] Hl Hn Hh Hf Hz Hlz v. destruct (separator_chosen lastk next Hl Hn) as (sep & Hs & Hi & Hsz & Hle & Hlt).
  destruct (note_sequence_ok b sep next Hi) as (b1 & Hb1 & Hcase & Hflag); [intros n E; by apply (Hn n E)|].
  destruct (value_sizes prev h fk Hh Hf ltac:(lia)) as [Hfull Hdelta]. fold v in Hfull, Hdelta.
  unfold AddIndexEntry. rewrite bind_gets. cbv beta. change (id b) with b. rewrite (co_mode _ C), Hs.
  erewrite bind_Ret by reflexivity. rewrite (bind_Ret _ _ _ _ _ Hb1). rewrite (co_delta _ C), (co_first _ C), P, K.
  cbv zeta. fold v. fold (full_value v). fold (delta_value prev v). erewrite bind_Ret by reflexivity.
  assert (config_of (set_last_handle h b1)) as C1 by (destruct C; by destruct Hcase as [->| ->]; split).
  assert (grown (index_block_builder_ b1) es) as G1 by (by destruct Hcase as [->| ->]).
  destruct (grown_add _ es sep (full_value v) (delta_value prev v) G1) as (e & x & Hx & He & Gx); [lia..|].
  rewrite (bind_Ret _ _ _ _ _ (zoom_Ret with_seq _ (set_last_handle h b1) tt x Hx)).
  set (b2 := set with_seq x (set_last_handle h b1)). rewrite bind_gets. cbv beta. change (id b2) with b2.
  change (seperator_is_key_plus_seq_ b2) with (seperator_is_key_plus_seq_ b1).
  assert (zlen (ukey sep) < 2 ^ 32) as Huz.
  { unfold ukey, zlen in *. rewrite length_take. lia. }
  destruct (seperator_is_key_plus_seq_ b1) eqn:E; cbn [negb when].
  - erewrite bind_Ret by reflexivity. erewrite bind_Ret by reflexivity.
    eexists sep, e, (Item 0 (ukey sep) (full_value v)), _. split; [reflexivity|]. split_and!; try done.
    + split; [by destruct C1; split|done|cbn; by rewrite E|done|done].
    + cbn. by rewrite E.
  - destruct (Hflag eq_refl) as [E0 Hne].
    assert (grown (index_block_builder_without_seq_ b1) us) as G2 by (destruct Hcase as [->| ->]; by apply U).
    destruct (grown_add _ us (ukey sep) (full_value v) (delta_value prev v) G2) as (e' & y & Hy & He' & Gy); [lia..|].
    rewrite (bind_Ret _ _ b2 tt (set without_seq y b2));
      [|rewrite ExtractUserKey_internal by done; erewrite bind_Ret by reflexivity; by apply (zoom_Ret without_seq)].
    erewrite bind_Ret by reflexivity. eexists sep, e, e', _. split; [reflexivity|]. split_and!; try done.
    split; [by destruct C1; split|done|done|done|done].
Qed.

(** *** The entries of a table *)

(** What the index says of a block. *)
Definition iv_of (b : table_block) : IndexValue :=
  MkIndexValue (tb_handle b) (if hfk then default [] (first_of b) else []).

Lemma OnKeyAdded_more b keys : include_first_key_ b && (zlen (current_block_first_internal_key_ b) =? 0) = false ->
  iterM OnKeyAdded keys b = Ret tt b.
Proof.
  intros E. assert (forall k, OnKeyAdded k b = Ret tt b) as Hk.
  { intros k. unfold OnKeyAdded. rewrite bind_gets. cbv beta. change (id b) with b. by rewrite E. }
  induction keys as [|k keys IH]; [done|]. cbn [iterM]. by rewrite (bind_Ret _ _ _ _ _ (Hk k)).
Qed.

Lemma keys_added b es us prev x : entered b es us prev [] -> tb_keys x <> [] -> Forall internal (tb_keys x) ->
  exists b', iterM OnKeyAdded (tb_keys x) b = Ret tt b' /\ entered b' es us prev (first_internal_key (iv_of x)) /\
    seperator_is_key_plus_seq_ b' = seperator_is_key_plus_seq_ b.
Proof.
  intros [C G U P K] Hne Hint. unfold iv_of, first_of. destruct (tb_keys x) as [|k keys]; [done|]. cbn [head default first_internal_key].
  apply Forall_cons in Hint as [Hk _]. pose proof (co_first _ C) as Hf. cbn [first_internal_key]. destruct hfk eqn:E.
  - exists (set_first_key k b). cbn [iterM]. erewrite bind_Ret.
    2:{ unfold OnKeyAdded. rewrite bind_gets. cbv beta. change (id b) with b. rewrite Hf, K. reflexivity. }
    split; [|split; [|done]].
    + apply OnKeyAdded_more. cbn. rewrite Hf. apply Z.eqb_neq. unfold internal in Hk. lia.
    + split; try done. by destruct C; split.
  - exists b. split; [|done]. apply OnKeyAdded_more. by rewrite Hf.
Qed.

(** An entry of the index: its separator, and its item in the two blocks. *)
Record row := MkRow { r_sep : bytes; r_seq : item; r_user : item }.

Record row_ok (prev : BlockHandle) (x : table_block) (next : option bytes) (r : row) : Prop := {
  ro_chosen : choose_separator mode (last_of x) next = Some (r_sep r);
  ro_internal : internal (r_sep r);
  ro_size : zlen (r_sep r) <= zlen (last_of x);
  ro_last : icmp (last_of x) (r_sep r) <= 0;
  ro_next : forall n, next = Some n -> icmp (r_sep r) n < 0;
  ro_seq : holds vd (r_seq r) (r_sep r, full_value (iv_of x), Some (delta_value prev (iv_of x)));
  ro_user : holds vd (r_user r) (ukey (r_sep r), full_value (iv_of x), Some (delta_value prev (iv_of x))) }.

Definition next_key (xs : list table_block) : option bytes := x ← head xs; first_of x.

(** The rows of the blocks that follow a block with the handle [prev]; [apart] says
    that the user keys of the separators differ from those of the blocks that
    follow. *)
Fixpoint rows_ok (prev : BlockHandle) (xs : list table_block) (rows : list row) (apart : bool) : Prop :=
  match xs, rows with
  | [], [] => True
  | x :: xs, r :: rows =>
    row_ok prev x (next_key xs) r /\
    (apart = true -> forall n, next_key xs = Some n -> Compare (ukey (r_sep r)) (ukey n) <> 0) /\
    rows_ok (tb_handle x) xs rows apart
  | _, _ => False
  end.

(** The blocks of a table: none is empty, and their keys are in strictly ascending
    order. *)
Record block_ok (x : table_block) : Prop := {
  bk_keys : tb_keys x <> [];
  bk_internal : Forall internal (tb_keys x);
  bk_handle : handle_ok (tb_handle x) }.

(** An upper bound on the size of the index. *)
Definition index_room (xs : list table_block) : Z :=
  12 + foldr (fun x n => 44 + zlen (last_of x) + zlen (default [] (first_of x)) + n) 0 xs.

Lemma index_room_cons x xs : index_room (x :: xs) = 44 + zlen (last_of x) + zlen (default [] (first_of x)) + index_room xs.
Proof. unfold index_room. cbn [foldr]. lia. Qed.

Lemma index_room_nonneg xs : 12 <= index_room xs.
Proof.
  induction xs as [|x xs IH]; [done|]. rewrite index_room_cons.
  pose proof (zlen_nonneg (last_of x)). pose proof (zlen_nonneg (default [] (first_of x))). lia.
Qed.

Definition keys_of (xs : list table_block) : list bytes := concat (tb_keys <$> xs).
Definition ordered (xs : list table_block) : Prop := StronglySorted (fun a b => icmp a b < 0) (keys_of xs).

Lemma ends_of x : block_ok x -> last_of x ∈ tb_keys x /\ exists k, first_of x = Some k /\ k ∈ tb_keys x.
Proof.
  intros [Hne _ _]. unfold last_of, first_of. split.
  - destruct (last (tb_keys x)) as [k|] eqn:E; [|by apply last_None in E]. by apply last_Some_elem_of.
  - destruct (tb_keys x) as [|k l]; [done|]. exists k. split; [done|]. apply elem_of_cons. by left.
Qed.

Lemma next_key_above x xs n : ordered (x :: xs) -> block_ok x -> Forall block_ok xs -> next_key xs = Some n ->
  internal n /\ icmp (last_of x) n < 0.
Proof.
  intros Ho Hx Hxs Hn. destruct xs as [|y ys]; [done|]. apply Forall_cons in Hxs as [Hy _]. cbn in Hn.
  destruct (ends_of x Hx) as [Hl _]. destruct (ends_of y Hy) as [_ (k & Hk & Hin)]. rewrite Hn in Hk. injection Hk as <-.
  split; [by apply (proj1 (Forall_forall _ _) (bk_internal _ Hy))|].
  apply (StronglySorted_app_1_elem_of (fun a b => icmp a b < 0) (tb_keys x) (keys_of (y :: ys))); [exact Ho|done|].
  unfold keys_of. cbn. apply elem_of_app. by left.
Qed.

Lemma ordered_tail x xs : ordered (x :: xs) -> ordered xs.
Proof. apply StronglySorted_app_1_r. Qed.

(** The entry of a block is added. *)
Lemma entry_added b es us prev x xs :
  entered b es us prev (first_internal_key (iv_of x)) -> block_ok x -> Forall block_ok xs -> ordered (x :: xs) ->
  index_room (x :: xs) < 2 ^ 32 ->
  exists r b', AddIndexEntry (last_of x) (next_key xs) (tb_handle x) b = Ret (r_sep r) b' /\
    row_ok prev x (next_key xs) r /\ entered b' (es ++ [r_seq r]) (us ++ [r_user r]) (tb_handle x) [] /\
    (seperator_is_key_plus_seq_ b' = false -> seperator_is_key_plus_seq_ b = false /\
      forall n, next_key xs = Some n -> Compare (ukey (r_sep r)) (ukey n) <> 0).
Proof.
  intros En Hx Hxs Ho Hz. destruct (ends_of x Hx) as [Hl _]. rewrite index_room_cons in Hz. pose proof (index_room_nonneg xs).
  destruct (AddIndexEntry_ok b es us prev _ (last_of x) (next_key xs) (tb_handle x) En)
    as (sep & e & e' & b' & Hb & Hch & Hi & Hsz & Hle & Hlt & He & He' & En' & Hflag).
  { by apply (proj1 (Forall_forall _ _) (bk_internal _ Hx)). }
  { intros n Hn. by apply (next_key_above x xs). }
  { apply Hx. }
  { intros E. unfold iv_of. by rewrite E. }
  { pose proof (zlen_nonneg (last_of x)). unfold iv_of. destruct hfk; cbn [first_internal_key]; [lia|by vm_compute]. }
  { pose proof (zlen_nonneg (default [] (first_of x))). lia. }
  by exists (MkRow sep e e'), b'.
Qed.

Lemma index_room_tail x xs : index_room (x :: xs) < 2 ^ 32 -> index_room xs < 2 ^ 32.
Proof.
  rewrite index_room_cons. pose proof (zlen_nonneg (last_of x)). pose proof (zlen_nonneg (default [] (first_of x))). lia.
Qed.

Lemma add_blocks_ok xs : forall b es us prev,
  Forall block_ok xs -> ordered xs -> index_room xs < 2 ^ 32 -> entered b es us prev [] ->
  exists rows b' prev', add_blocks xs b = Ret tt b' /\
    rows_ok prev xs rows (negb (seperator_is_key_plus_seq_ b')) /\
    entered b' (es ++ (r_seq <$> rows)) (us ++ (r_user <$> rows)) prev' [] /\
    (seperator_is_key_plus_seq_ b' = false -> seperator_is_key_plus_seq_ b = false).
Proof.
  induction xs as [|x xs IH]; intros b es us prev Hok Ho Hz En.
  { exists [], b, prev. rewrite !app_nil_r. done. }
  apply Forall_cons in Hok as [Hx Hxs]. cbn [add_blocks].
  destruct (keys_added b es us prev x En (bk_keys _ Hx) (bk_internal _ Hx)) as (b1 & Hb1 & En1 & Hf1).
  rewrite (bind_Ret _ _ _ _ _ Hb1).
  destruct (entry_added b1 es us prev x xs En1 Hx Hxs Ho Hz) as (r & b2 & Hb2 & Hr & En2 & Hflag).
  rewrite (bind_Ret _ _ _ _ _ Hb2).
  destruct (IH b2 _ _ _ Hxs (ordered_tail _ _ Ho) (index_room_tail _ _ Hz) En2) as (rows & b3 & prev' & Hb3 & Hrows & En3 & Hf3).
  exists (r :: rows), b3, prev'. rewrite <- !app_assoc in En3. split; [done|]. split; [|split; [done|]].
  - cbn [rows_ok]. split; [done|]. split; [|done].
    intros E n Hn. apply negb_true_iff in E. by apply (proj2 (Hflag (Hf3 E))).
  - intros E. rewrite <- Hf1. by apply Hflag, Hf3.
Qed.

(** *** The order of the separators *)

Definition row_key (u : bool) (r : row) : bytes := if u then ukey (r_sep r) else r_sep r.

Lemma sorted_ends l k : StronglySorted (fun a b => icmp a b < 0) l -> k ∈ l ->
  (forall h, head l = Some h -> icmp h k <= 0) /\ (forall z, last l = Some z -> icmp k z <= 0).
Proof.
  intros H. induction H as [|a l H IH Ha]; intros Hk; [by apply not_elem_of_nil in Hk|].
  rewrite Forall_forall in Ha. apply elem_of_cons in Hk as [->|Hk].
  - split; [intros h [= <-]; by rewrite cmp_refl|]. intros z Hz. apply last_Some_elem_of in Hz.
    apply elem_of_cons in Hz as [->|Hz]; [by rewrite cmp_refl|]. by apply Z.lt_le_incl, Ha.
  - destruct (IH Hk) as [_ Hl]. split; [intros h [= <-]; by apply Z.lt_le_incl, Ha|].
    intros z Hz. apply Hl. destruct l; [by apply not_elem_of_nil in Hk|done].
Qed.

Lemma in_block_le u x k r : block_ok x -> StronglySorted (fun a b => icmp a b < 0) (tb_keys x) -> k ∈ tb_keys x ->
  icmp (last_of x) (r_sep r) <= 0 -> key_order u (seek_key u k) (row_key u r) <= 0.
Proof.
  intros Hx Hs Hk Hle. destruct (sorted_ends _ _ Hs Hk) as [_ Hl]. destruct (ends_of x Hx) as [Hin _].
  assert (icmp k (r_sep r) <= 0) as H.
  { apply (cmp_trans _ (last_of x)); [|done]. apply Hl. unfold last_of.
    destruct (last (tb_keys x)) eqn:E; [done|]. apply last_None in E. by destruct (bk_keys _ Hx). }
  unfold key_order, seek_key, row_key. destruct u; [|done]. apply icmp_le in H. lia.
Qed.

Lemma after_block_gt u xs n k r : ordered xs -> Forall block_ok xs -> next_key xs = Some n -> k ∈ keys_of xs ->
  icmp (r_sep r) n < 0 -> (u = true -> Compare (ukey (r_sep r)) (ukey n) <> 0) ->
  key_order u (row_key u r) (seek_key u k) < 0.
Proof.
  intros Ho Hxs Hn Hk Hlt Hne. destruct xs as [|y ys]; [done|]. apply Forall_cons in Hxs as [Hy _]. cbn in Hn.
  destruct (sorted_ends _ _ Ho Hk) as [Hh _]. assert (icmp n k <= 0) as Hnk.
  { apply Hh. unfold keys_of, first_of in *. cbn. by destruct (tb_keys y). }
  unfold key_order, seek_key, row_key. destruct u.
  - specialize (Hne eq_refl). apply icmp_lt in Hlt. apply (cmp_lt_trans _ (ukey n)); [lia|]. apply icmp_le in Hnk. lia.
  - by apply (cmp_lt_trans _ n).
Qed.

Lemma keys_of_lookup xs j y k : xs !! j = Some y -> k ∈ tb_keys y -> k ∈ keys_of xs.
Proof.
  intros Hy Hk. unfold keys_of. apply list_elem_of_In, in_concat. exists (tb_keys y).
  split; [|by apply list_elem_of_In]. apply list_elem_of_In, list_elem_of_fmap. exists y. split; [done|].
  by eapply list_elem_of_lookup_2.
Qed.

(** A separator is not below the keys of its block, and below those of the blocks that
    follow. *)
Lemma rows_order prev xs rows u : Forall block_ok xs -> ordered xs -> rows_ok prev xs rows u ->
  forall i r, rows !! i = Some r ->
  (forall x k, xs !! i = Some x -> k ∈ tb_keys x -> key_order u (seek_key u k) (row_key u r) <= 0) /\
  (forall j y k, (i < j)%nat -> xs !! j = Some y -> k ∈ tb_keys y -> key_order u (row_key u r) (seek_key u k) < 0).
Proof.
  revert prev rows. induction xs as [|x xs IH]; intros prev rows Hok Ho Hr i r Hi; [by destruct rows|].
  destruct rows as [|r0 rows]; [done|]. destruct Hr as (Hr0 & Hap & Hr). pose proof (ordered_tail _ _ Ho) as Ho'.
  pose proof Hok as [Hx Hxs]%Forall_cons. destruct i as [|i]; cbn in Hi.
  - injection Hi as <-. split.
    + intros y k [= <-] Hk. eapply in_block_le; [done| |done|apply Hr0]. exact (StronglySorted_app_1_l _ (tb_keys x) (keys_of xs) Ho).
    + intros [|j] y k Hj Hy Hk; [lia|]. cbn in Hy. destruct xs as [|y0 ys]; [done|].
      pose proof (proj1 (Forall_cons _ _ _) Hxs) as [Hy0 _]. destruct (ends_of y0 Hy0) as [_ (n & Hn & _)].
      eapply (after_block_gt u (y0 :: ys) n); [done|done|done|by eapply keys_of_lookup|by apply Hr0|].
      intros E. by apply Hap.
  - destruct (IH (tb_handle x) rows Hxs Ho' Hr i r Hi) as [H1 H2]. split; [exact H1|].
    intros [|j] y k Hj Hy Hk; [lia|]. apply (H2 j y k); [lia|done|done].
Qed.

(** *** The items of the block that is kept *)

Definition row_item (u : bool) (r : row) : item := if u then r_user r else r_seq r.

Lemma rows_lookup prev xs rows u i r : rows_ok prev xs rows u -> rows !! i = Some r ->
  exists x, xs !! i = Some x /\ let next := y ← xs !! S i; first_of y in
    row_ok (match i with O => prev | S j => default prev (tb_handle <$> xs !! j) end) x next r.
Proof.
  revert prev rows i. induction xs as [|x xs IH]; intros prev rows i Hr Hi; [by destruct rows|].
  destruct rows as [|r0 rows]; [done|]. destruct Hr as (Hr0 & _ & Hr). destruct i as [|i]; cbn in Hi.
  - injection Hi as <-. exists x. split; [done|]. unfold next_key in Hr0. by destruct xs.
  - destruct (IH _ _ i Hr Hi) as (y & Hy & H). exists y. split; [done|].
    destruct i as [|i]; [exact H|]. cbn. cbn in H. destruct (xs !! i) eqn:E; [exact H|].
    apply lookup_lt_Some in Hy. apply lookup_ge_None in E. lia.
Qed.

Lemma rows_length prev xs rows u : rows_ok prev xs rows u -> length rows = length xs.
Proof.
  revert prev rows. induction xs as [|x xs IH]; intros prev [|r rows] H; try done. cbn. f_equal. by eapply IH, H.
Qed.

Lemma row_item_holds prev x next r u : row_ok prev x next r ->
  holds vd (row_item u r) (row_key u r, full_value (iv_of x), Some (delta_value prev (iv_of x))).
Proof. intros H. unfold row_item, row_key. destruct u; apply H. Qed.

Lemma row_room prev x next r u : block_ok x -> zlen (default [] (first_of x)) < 2 ^ 32 -> row_ok prev x next r -> item_ok (row_item u r) ->
  zlen (enc vd (row_item u r)) <= 40 + zlen (last_of x) + zlen (default [] (first_of x)).
Proof.
  intros Hx Hz H Hi. pose proof (enc_room vd _ Hi). destruct (row_item_holds _ _ _ _ u H) as [Hk Hv]. cbn [fst snd] in *.
  pose proof (ro_size _ _ _ _ H). pose proof (zlen_nonneg (default [] (first_of x))).
  assert (zlen (row_key u r) <= zlen (r_sep r)).
  { unfold row_key. destruct u; [|lia]. unfold ukey, zlen. rewrite length_take. lia. }
  assert (zlen (if hfk then default [] (first_of x) else []) <= zlen (default [] (first_of x)))
    by (destruct hfk; [lia|change (zlen (A := Byte.byte) []) with 0; lia]).
  destruct (value_sizes prev (tb_handle x) (if hfk then default [] (first_of x) else []) (bk_handle _ Hx)) as [Hf Hd];
    [by intros ->|lia|]. fold (iv_of x) in Hf, Hd.
  assert (zlen (i_value (row_item u r)) <= 25 + zlen (default [] (first_of x))).
  { rewrite Hv. unfold stored_value. destruct (_ && vd); cbn [from_option id]; lia. }
  rewrite Hk in *. lia.
Qed.

Lemma items_room prev xs rows u : Forall block_ok xs -> index_room xs < 2 ^ 32 -> rows_ok prev xs rows u ->
  Forall item_ok (row_item u <$> rows) ->
  zlen (stored vd (row_item u <$> rows)) + 4 * zlen (row_item u <$> rows) + 12 <= index_room xs.
Proof.
  revert prev rows. induction xs as [|x xs IH]; intros prev [|r rows] Hok Hz Hr Hit; try done.
  apply Forall_cons in Hok as [Hx Hxs]. rewrite index_room_cons in *. destruct Hr as (Hr0 & _ & Hr). rewrite fmap_cons in *.
  apply Forall_cons in Hit as [Hi Hit]. pose proof (index_room_nonneg xs).
  pose proof (zlen_nonneg (last_of x)). pose proof (zlen_nonneg (default [] (first_of x))).
  specialize (IH _ rows Hxs ltac:(lia) Hr Hit). pose proof (row_room _ x _ r u Hx ltac:(lia) Hr0 Hi).
  unfold stored in *. rewrite fmap_cons. cbn [concat]. rewrite zlen_app.
  change (zlen (row_item u r :: (row_item u <$> rows))) with (Z.of_nat (S (length (row_item u <$> rows)))).
  change (zlen (row_item u <$> rows)) with (Z.of_nat (length (row_item u <$> rows))) in IH. lia.
Qed.

(** ** Tables *)

(** The blocks of a table.  With delta-encoded handles, the blocks are one behind the
    other in the file, and none has the handle that stands for no block. *)
Record table_input (xs : list table_block) : Prop := {
  ti_blocks : Forall block_ok xs;
  ti_order : ordered xs;
  ti_room : index_room xs < 2 ^ 32;
  ti_follow : vd = true -> forall i a b, xs !! i = Some a -> xs !! S i = Some b ->
    handle_IsNull (tb_handle a) = false /\
    h_offset (tb_handle b) = u64 (h_offset (tb_handle a) + h_size (tb_handle a) + kBlockTrailerSize) }.

Lemma iv_of_ok x p : block_ok x -> zlen (default [] (first_of x)) < 2 ^ 32 ->
  (forall q, p = Some q -> handle_ok q /\ h_offset (tb_handle x) = u64 (h_offset q + h_size q + kBlockTrailerSize)) ->
  index_value_ok hfk p (iv_of x).
Proof. intros Hx Hz Hp. split; [apply Hx| |exact Hp]. unfold iv_of. cbn. by destruct hfk. Qed.

Lemma first_room xs x : index_room xs < 2 ^ 32 -> x ∈ xs -> zlen (default [] (first_of x)) < 2 ^ 32.
Proof.
  induction xs as [|y ys IH]; intros Hz Hin; [by apply not_elem_of_nil in Hin|]. rewrite index_room_cons in Hz.
  pose proof (index_room_nonneg ys). pose proof (zlen_nonneg (last_of y)). pose proof (zlen_nonneg (default [] (first_of y))).
  apply elem_of_cons in Hin as [->|Hin]; [lia|]. apply IH; [lia|done].
Qed.

Lemma rows_values data restarts rs xs rows u seqno : table_input xs -> rows_ok NullBlockHandle xs rows u ->
  layout vd data restarts (row_item u <$> rows) rs -> (seqno <> None -> hfk = true) ->
  values_ok (vd := vd) (es := row_item u <$> rows) hfk seqno (iv_of <$> xs).
Proof.
  intros [Hok Ho Hz Hf] Hr LO Hq. split.
  - rewrite !length_fmap. symmetry. by eapply rows_length.
  - intros i e v He Hv. pose proof (shared_entry LO i e He) as Hsh.
    rewrite list_lookup_fmap in He. rewrite list_lookup_fmap in Hv. destruct (rows !! i) as [r|] eqn:Er; [|done]. injection He as <-.
    destruct (rows_lookup _ _ _ _ _ _ Hr Er) as (x & Hx & Hrow). rewrite Hx in Hv. injection Hv as <-.
    pose proof (first_room xs x Hz (list_elem_of_lookup_2 _ _ _ Hx)) as Hfz.
    pose proof (Forall_lookup_1 _ _ _ _ Hok Hx) as Hxok.
    destruct (row_item_holds _ _ _ _ u Hrow) as [_ Hval]. cbn [fst snd] in Hval. rewrite Hval.
    unfold encoded_against, stored_value. rewrite (andb_comm _ vd). destruct (vd && _) eqn:E.
    + apply andb_true_iff in E as [Evd Es]. apply negb_true_iff, Z.eqb_neq in Es. destruct (Hsh Es) as [j ->].
      destruct (lookup_lt_is_Some_2 xs j) as [y Hy]; [apply lookup_lt_Some in Hx; lia|].
      destruct (Hf Evd j y x Hy Hx) as [Hn Hoff]. pose proof (Forall_lookup_1 _ _ _ _ Hok Hy) as Hyok.
      cbn [Nat.sub]. rewrite Nat.sub_0_r, list_lookup_fmap, Hy. cbn [fmap option_fmap option_map from_option id].
      split; [unfold delta_value; by rewrite Evd, Hn|]. apply iv_of_ok; [done|done|].
      intros q [= <-]. split; [apply Hyok|exact Hoff].
    + split; [done|]. by apply iv_of_ok.
  - intros q i v -> Hv. rewrite list_lookup_fmap in Hv. destruct (xs !! i) as [x|] eqn:Hx; [|done]. injection Hv as <-.
    unfold iv_of. rewrite Hq by done. cbn. pose proof (Forall_lookup_1 _ _ _ _ Hok Hx) as Hxok.
    destruct (ends_of x Hxok) as [_ (k & -> & Hk)]. by apply (proj1 (Forall_forall _ _) (bk_internal _ Hxok)).
Qed.

Lemma new_entered format_version : 1 <= interval ->
  entered (new_ShortenedIndexBuilder interval format_version vd mode hfk) [] [] NullBlockHandle [].
Proof.
  intros Hi. assert (grown (new_BlockBuilder interval true vd kDataBlockBinarySearch kDefaultUtilRatio) []) as G.
  { exists [0%nat]. split_and!; [by apply built_new|done|done|done|done]. }
  by split.
Qed.

Lemma grown_Finish b es : grown b es -> (forall rs, shape es rs -> plain_size vd es rs < 2 ^ 32) ->
  exists rs b', builder_Finish b = Ret (contents_of vd es rs None) b' /\ shape es rs /\
    (interval = 1 -> rs = seq 0 (Nat.max 1 (length es))) /\ zlen (contents_of vd es rs None) < 2 ^ 32.
Proof.
  intros (rs & B & _ & Hvd & Hint & Hh) Hz. specialize (Hz rs (bu_shape _ _ _ B)). pose proof Hz as Hz'. rewrite <- Hvd in Hz'.
  destruct (Finish_ok b es rs B Hz') as (table & b' & Hf & _ & _ & _ & Ht & _); [by intros E; rewrite E in Hh|].
  assert (table = None) as -> by (destruct table as [[n t]|]; [|done]; destruct Ht as [E _]; by rewrite E in Hh).
  rewrite Hvd in Hf. exists rs, b'. split_and!; [done|apply B|rewrite <- Hint; apply B|]. rewrite contents_size.
  change (zlen (table_bytes None)) with 0. lia.
Qed.

Lemma index_finished b xs rows prev : let u := negb (seperator_is_key_plus_seq_ b) in
  entered b (r_seq <$> rows) (r_user <$> rows) prev [] -> rows_ok NullBlockHandle xs rows u ->
  Forall block_ok xs -> index_room xs < 2 ^ 32 ->
  exists rs b', let c := contents_of vd (row_item u <$> rows) rs None in
    index_Finish b = Ret c b' /\ shape (row_item u <$> rows) rs /\
    (interval = 1 -> rs = seq 0 (Nat.max 1 (length rows))) /\ zlen c < 2 ^ 32.
Proof.
  intros u [C G U _ _] Hr Hok Hz.
  assert (grown (if seperator_is_key_plus_seq_ b then index_block_builder_ b else index_block_builder_without_seq_ b)
    (row_item u <$> rows)) as Gr.
  { unfold u. destruct (seperator_is_key_plus_seq_ b); [exact G|by apply U]. }
  destruct (grown_Finish _ _ Gr) as (rs & x & Hf & Sh & Hd & Hc).
  { intros rs Sh. pose proof (items_room _ _ _ _ Hok Hz Hr (sh_ok _ _ Sh)). pose proof (restarts_le_entries _ _ Sh).
    unfold plain_size. lia. }
  rewrite length_fmap in Hd.
  assert (exists b', index_Finish b = Ret (contents_of vd (row_item u <$> rows) rs None) b') as [b' Hb'];
    [|exists rs, b'; by split_and!].
  unfold index_Finish. rewrite bind_gets. cbv beta. change (id b) with b. unfold u in *. destruct (seperator_is_key_plus_seq_ b).
  - rewrite (bind_Ret _ _ _ _ _ (zoom_Ret with_seq _ b _ x Hf)). by eexists.
  - rewrite (bind_Ret _ _ _ _ _ (zoom_Ret without_seq _ b _ x Hf)). by eexists.
Qed.

Lemma index_built format_version xs : 1 <= interval -> table_input xs ->
  exists b c b' rows rs, let u := negb (seperator_is_key_plus_seq_ b) in
    add_blocks xs (new_ShortenedIndexBuilder interval format_version vd mode hfk) = Ret tt b /\
    index_Finish b = Ret c b' /\ rows_ok NullBlockHandle xs rows u /\
    c = contents_of vd (row_item u <$> rows) rs None /\ shape (row_item u <$> rows) rs /\ zlen c < 2 ^ 32.
Proof.
  intros Hi [Hok Ho Hz _]. destruct (add_blocks_ok xs _ [] [] _ Hok Ho Hz (new_entered format_version Hi))
    as (rows & b & prev & Hb & Hr & En & _).
  destruct (index_finished b xs rows prev En Hr Hok Hz) as (rs & b' & Hf & Sh & _ & Hc).
  eexists b, _, b', rows, rs. cbv zeta. by split_and!.
Qed.

(** The sequence number that is put into the first keys. *)
Definition first_key_seqno (g : Z) : option Z :=
  if hfk && negb (g =? kDisableGlobalSequenceNumber) then Some g else None.

Lemma NewIndexIterator_ok es rs u g (total_order : bool) (prefix_index : option BlockPrefixIndex) :
  let c := contents_of vd es rs None in
  shape es rs -> zlen c < 2 ^ 32 ->
  ifin (vd := vd) (data := c) (restarts := zlen (stored vd es)) (rs := rs) u hfk (first_key_seqno g)
    (px := if total_order then None else prefix_index)
    (NewIndexIterator (new_Block c) g None total_order hfk (negb u) (negb vd) prefix_index).
Proof.
  intros c Sh Hc. subst c. rewrite new_Block_ok by done. unfold NewIndexIterator. cbn [size_ num_restarts_].
  pose proof (contents_size vd es rs None) as Hs. pose proof (plain_size_ge vd es rs).
  change (zlen (table_bytes None)) with 0 in Hs. pose proof (lookup_lt_Some _ _ _ (sh_first _ _ Sh)) as Hl.
  assert (1 <= zlen rs) by (unfold zlen; lia).
  rewrite (proj2 (Z.ltb_ge _ 8)), (proj2 (Z.eqb_neq _ 0)) by lia. split.
  - split; [|done]. split; try done. cbn. by rewrite negb_involutive.
  - split; try done; cbn. by rewrite negb_involutive.
Qed.

(** ** The iterator as a cursor over the blocks *)

Definition block_pos (xs : list table_block) (n : nat) : option nat := if (n <? length xs)%nat then Some n else None.

(** Only the block at [n] can have the target: those before it are below, those behind
    it are above. *)
Definition covers (xs : list table_block) (target : bytes) (n : nat) : Prop :=
  (forall j x k, (j < n)%nat -> xs !! j = Some x -> k ∈ tb_keys x -> icmp k target < 0) /\
  (forall j x k, (n < j)%nat -> xs !! j = Some x -> k ∈ tb_keys x -> icmp target k < 0).

Definition index_view (s : IndexBlockIter) : option IndexValue :=
  if it_Valid (index_iter s) then index_value s else None.

(** [R] relates the states of the iterator with positions in the list of blocks, and
    all operations keep it. *)
Record index_cursor (xs : list table_block) (seqno : option Z) (R : IndexBlockIter -> option nat -> Prop) : Prop := {
  ic_view : forall s p, R s p -> it_status_ (index_iter s) = StOK /\
    it_Valid (index_iter s) = (if p is Some _ then true else false) /\
    index_view s = (i ← p; x ← xs !! i; Some (shown_value seqno (iv_of x)));
  ic_first : forall s p, R s p -> exists s', index_SeekToFirst s = Ret tt s' /\ R s' (block_pos xs 0);
  ic_last : forall s p, R s p -> exists s', index_SeekToLast s = Ret tt s' /\
    R s' (if (length xs =? 0)%nat then None else Some (length xs - 1)%nat);
  ic_seek : forall s p target, R s p -> internal target ->
    exists s' n, index_Seek target s = Ret tt s' /\ R s' (block_pos xs n) /\ covers xs target n;
  ic_next : forall s i, R s (Some i) -> exists s', index_Next s = Ret tt s' /\ R s' (block_pos xs (S i));
  ic_prev : forall s i, R s (Some i) -> exists s', index_Prev s = Ret tt s' /\
    R s' (if (i =? 0)%nat then None else Some (i - 1)%nat) }.

Section Reading.
Context (xs : list table_block) (rows : list row) (u : bool) (data : bytes) (restarts : Z) (rs : list nat) (seqno : option Z).
Context (px : option BlockPrefixIndex).
Abbreviation es := (row_item u <$> rows).
Context (TI : table_input xs) (Hrows : rows_ok NullBlockHandle xs rows u).
Context (LO : layout vd data restarts es rs) (Hq : seqno <> None -> hfk = true).

Let VO : values_ok (vd := vd) (es := es) hfk seqno (iv_of <$> xs).
Proof. by eapply rows_values. Qed.

Abbreviation ipos := (at_pos (ihere (vd := vd) (data := data) (restarts := restarts) (es := es) (rs := rs) u hfk seqno (iv_of <$> xs) (px := px))
  (ifin (vd := vd) (data := data) (restarts := restarts) (rs := rs) u hfk seqno (px := px))).

Lemma es_length : length es = length xs.
Proof. rewrite length_fmap. by eapply rows_length. Qed.

Lemma es_key i r : rows !! i = Some r -> i_key (row_item u r) = row_key u r /\ exists x, xs !! i = Some x.
Proof.
  intros Hr. destruct (rows_lookup _ _ _ _ _ _ Hrows Hr) as (x & Hx & Hrow).
  split; [apply (row_item_holds _ _ _ _ u Hrow)|by exists x].
Qed.

Lemma es_internal : u = false -> forall i e, es !! i = Some e -> internal (i_key e).
Proof.
  intros Hu i e He. rewrite list_lookup_fmap in He. destruct (rows !! i) as [r|] eqn:Er; [|done]. injection He as <-.
  destruct (rows_lookup _ _ _ _ _ _ Hrows Er) as (x & Hx & Hrow).
  rewrite (proj1 (row_item_holds _ _ _ _ u Hrow)). cbn. unfold row_key. rewrite Hu. apply Hrow.
Qed.

#[local] Instance order_laws : ThreeWay (key_order u).
Proof. unfold key_order. destruct u; apply _. Qed.

Lemma es_ascending i j e f : es !! i = Some e -> es !! j = Some f -> (i < j)%nat -> key_order u (i_key e) (i_key f) < 0.
Proof.
  intros He Hf Hij. rewrite list_lookup_fmap in He. rewrite list_lookup_fmap in Hf.
  destruct (rows !! i) as [r|] eqn:Er; [|done]. destruct (rows !! j) as [q|] eqn:Eq; [|done].
  injection He as <-. injection Hf as <-. destruct (es_key i r Er) as [-> _]. destruct (es_key j q Eq) as [-> [y Hy]].
  pose proof (rows_order _ _ _ _ (ti_blocks _ TI) (ti_order _ TI) Hrows) as Hord.
  destruct (ends_of y (Forall_lookup_1 _ _ _ _ (ti_blocks _ TI) Hy)) as [Hl _].
  apply (cmp_lt_trans _ (seek_key u (last_of y))).
  - by eapply (proj2 (Hord i r Er) j y).
  - by eapply (proj1 (Hord j q Eq) y).
Qed.

Lemma key_order_icmp a b : key_order u (seek_key u a) (seek_key u b) < 0 -> icmp a b < 0.
Proof. unfold key_order, seek_key. destruct u; [|done]. intros H. apply icmp_lt. by left. Qed.

Lemma row_of j x : xs !! j = Some x -> exists r, rows !! j = Some r /\ es !! j = Some (row_item u r).
Proof.
  intros Hx. destruct (lookup_lt_is_Some_2 rows j) as [r Hr].
  - rewrite (rows_length _ _ _ _ Hrows). by eapply lookup_lt_Some.
  - exists r. split; [done|]. by rewrite list_lookup_fmap, Hr.
Qed.

(** An entry below the target has only keys below it. *)
Lemma below_entry target j x k e : xs !! j = Some x -> k ∈ tb_keys x -> es !! j = Some e -> tcmp u target (i_key e) < 0 ->
  icmp k target < 0.
Proof.
  intros Hx Hk He Hb. apply key_order_icmp. destruct (row_of j x Hx) as (r & Hr & He'). rewrite He in He'. injection He' as ->.
  unfold tcmp in Hb. rewrite (proj1 (es_key j r Hr)) in Hb.
  eapply cmp_le_lt_trans; [|exact Hb].
  by eapply (proj1 (rows_order _ _ _ _ (ti_blocks _ TI) (ti_order _ TI) Hrows j r Hr) x).
Qed.

(** Behind an entry that is not below the target there are only keys above it. *)
Lemma above_entry target n j x k e : (n < j)%nat -> xs !! j = Some x -> k ∈ tb_keys x -> es !! n = Some e ->
  0 <= tcmp u target (i_key e) -> icmp target k < 0.
Proof.
  intros Hj Hx Hk He Hb. apply key_order_icmp. destruct (lookup_lt_is_Some_2 xs n) as [y Hy]; [apply lookup_lt_Some in Hx; lia|].
  destruct (row_of n y Hy) as (r & Hr & He'). rewrite He in He'. injection He' as ->.
  unfold tcmp in Hb. rewrite (proj1 (es_key n r Hr)) in Hb. pose proof (cmp_opp (seek_key u target) (row_key u r)).
  eapply cmp_le_lt_trans; [|by eapply (proj2 (rows_order _ _ _ _ (ti_blocks _ TI) (ti_order _ TI) Hrows n r Hr) j x)]. lia.
Qed.

Lemma found_covers target : covers xs target (lower_bound (es := es) (tcmp u target)).
Proof.
  split; intros j x k Hj Hx Hk; destruct (row_of j x Hx) as (r & Hr & He).
  - pose proof (count_front_below _ es j _ He Hj) as Hb. apply Z.ltb_lt in Hb. by eapply below_entry.
  - destruct (lookup_lt_is_Some_2 xs (lower_bound (es := es) (tcmp u target))) as [y Hy]; [apply lookup_lt_Some in Hx; lia|].
    destruct (row_of _ y Hy) as (q & _ & He'). pose proof (count_front_stop _ es _ He') as Hb. apply Z.ltb_ge in Hb.
    by eapply above_entry.
Qed.

(** After each operation the key is brought up to date. *)
Lemma updated (m : prog IndexBlockIter unit) s p : (exists s', m s = Ret tt s' /\ ipos s' p) ->
  exists s', (m;; index_UpdateKey) s = Ret tt s' /\ ipos s' p.
Proof.
  intros (s1 & H1 & P1). destruct (index_update LO u hfk seqno _ s1 p P1) as (s2 & H2 & P2 & _). exists s2.
  by rewrite (bind_Ret _ _ _ _ _ H1).
Qed.

Lemma to_pos_blocks n : to_pos (es := es) n = block_pos xs n.
Proof. unfold to_pos, block_pos. by rewrite es_length. Qed.

Lemma reading_view s p : ipos s p -> it_status_ (index_iter s) = StOK /\
  it_Valid (index_iter s) = (if p is Some _ then true else false) /\
  index_view s = (i ← p; x ← xs !! i; Some (shown_value seqno (iv_of x))).
Proof.
  intros P. split; [apply (ipos_sound _ _ _ _ s p P)|]. destruct p as [i|].
  - destruct P as (e & H). pose proof (at_entry_valid LO u _ _ i e (proj1 H)) as Hv.
    unfold index_view. rewrite Hv. split; [done|]. cbn. pose proof (ae_entry _ _ _ _ _ (proj1 H)) as He.
    apply lookup_lt_Some in He. rewrite es_length in He. destruct (lookup_lt_is_Some_2 xs i He) as [x Hx].
    rewrite Hx. cbn. apply (here_value LO u hfk seqno _ VO s i e (iv_of x) H). by rewrite list_lookup_fmap, Hx.
  - pose proof (at_end_valid u _ _ (proj1 P)) as Hv. unfold index_view. by rewrite Hv.
Qed.

Lemma reading_cursor : px = None -> index_cursor xs seqno ipos.
Proof.
  intros Hpx. pose proof VO as VO'. split.
  - apply reading_view.
  - intros s p P. apply updated. rewrite <- to_pos_blocks. apply (index_SeekToFirst_ok LO); [done|by eapply ipos_sound].
  - intros s p P. apply updated. rewrite <- es_length. apply (index_SeekToLast_ok LO); [done|by eapply ipos_sound].
  - intros s p target P Ht.
    destruct (updated (index_SeekImpl target) s (to_pos (es := es) (lower_bound (es := es) (tcmp u target)))) as (s' & Hs & P').
    { by apply (index_Seek_ok LO u hfk seqno _ VO' es_internal es_ascending target Ht s p Hpx). }
    exists s', (lower_bound (es := es) (tcmp u target)). rewrite <- to_pos_blocks. split; [exact Hs|].
    split; [done|apply found_covers].
  - intros s i (e & H). apply updated. rewrite <- to_pos_blocks. by apply (index_Next_ok LO u hfk seqno _ VO' s i e).
  - intros s i (e & H). apply updated. by apply (index_Prev_ok LO u hfk seqno _ VO' s i e).
Qed.
End Reading.

Lemma index_refines format_version xs g total_order prefix_index :
  1 <= interval -> table_input xs -> (total_order = true \/ prefix_index = None) ->
  exists b c b', add_blocks xs (new_ShortenedIndexBuilder interval format_version vd mode hfk) = Ret tt b /\
    index_Finish b = Ret c b' /\
    exists R, index_cursor xs (first_key_seqno g) R /\
      R (NewIndexIterator (new_Block c) g None total_order hfk (seperator_is_key_plus_seq_ b) (negb vd) prefix_index) None.
Proof.
  intros Hi TI Hp. destruct (index_built format_version xs Hi TI) as (b & c & b' & rows & rs & Hb & Hf & Hr & -> & Sh & Hc).
  eexists b, _, b'. split; [done|]. split; [done|]. eexists. split.
  - eapply (reading_cursor xs rows _ _ _ _ _ None); [done|done|by apply layout_found| |done]. unfold first_key_seqno. by destruct hfk.
  - pose proof (NewIndexIterator_ok _ rs (negb (seperator_is_key_plus_seq_ b)) g total_order prefix_index Sh Hc) as H.
    rewrite negb_involutive in H. replace (if total_order then None else prefix_index) with (@None BlockPrefixIndex) in H; [exact H|].
    destruct Hp as [-> | ->]; [done|by destruct total_order].
Qed.
End Builder.

(** The index of a table leads to the block of a key.  The blocks of a table, whose
    keys are in ascending order, are given to a new [ShortenedIndexBuilder] as the
    builder of tables does it: [OnKeyAdded] for each key, [AddIndexEntry] for each
    block.  [Finish] makes the contents of the index block.  [Seek] on an iterator over
    it returns with status OK at an entry whose value is the handle of a block (with
    its first key, if these are included) such that all the blocks before have only
    keys below the target and all the blocks behind only keys above it; when it is not
    valid, all the keys are below the target.  It holds with user keys or internal keys
    in the index, as the builder decides, for all ways to shorten separators, and with
    handles stored in full or as differences. *)
Theorem index_leads_to_block {user_comparator : Comparator} {laws : ComparatorLaws user_comparator}
    vd hfk mode interval format_version xs g total_order prefix_index target :
  (forall u v, Compare u v = 0 -> FindShortestSeparator u v = u) ->
  1 <= interval -> table_input vd xs -> (total_order = true \/ prefix_index = None) -> internal target ->
  exists b c b' s n, add_blocks xs (new_ShortenedIndexBuilder interval format_version vd mode hfk) = Ret tt b /\
    index_Finish b = Ret c b' /\
    index_Seek target (NewIndexIterator (new_Block c) g None total_order hfk (seperator_is_key_plus_seq_ b) (negb vd)
      prefix_index) = Ret tt s /\
    it_status_ (index_iter s) = StOK /\
    index_view s = (x ← xs !! n; Some (shown_value (first_key_seqno hfk g) (iv_of hfk x))) /\
    covers xs target n.
Proof.
  intros Hk Hi TI Hp Ht.
  destruct (index_refines vd hfk mode interval Hk format_version xs g total_order prefix_index Hi TI Hp)
    as (b & c & b' & Hb & Hf & R & Cu & H0).
  destruct (ic_seek _ _ _ _ Cu _ _ target H0 Ht) as (s & n & Hs & HR & Hc).
  destruct (ic_view _ _ _ _ Cu s _ HR) as (Hst & _ & Hv). exists b, c, b', s, n. split_and!; try done. rewrite Hv.
  unfold block_pos. destruct (Nat.ltb_spec n (length xs)) as [Hl|Hl]; [done|]. cbn.
  by rewrite (proj2 (lookup_ge_None xs n) Hl).
Qed.

(** C25. The iterator over the index that was built is a cursor over the blocks of the
    table: there is a relation between its states and positions in the list of blocks
    that holds of the new iterator (at no block) and is kept by [SeekToFirst],
    [SeekToLast], [Seek], [Next] and [Prev], which all return; in related states the
    status is OK, and the value is that of the block at the position. *)
Theorem index_iterator_is_cursor {user_comparator : Comparator} {laws : ComparatorLaws user_comparator}
    vd hfk mode interval format_version xs g total_order prefix_index :
  (forall u v, Compare u v = 0 -> FindShortestSeparator u v = u) ->
  1 <= interval -> table_input vd xs -> (total_order = true \/ prefix_index = None) ->
  exists b c b', add_blocks xs (new_ShortenedIndexBuilder interval format_version vd mode hfk) = Ret tt b /\
    index_Finish b = Ret c b' /\
    exists R, index_cursor hfk xs (first_key_seqno hfk g) R /\
      R (NewIndexIterator (new_Block c) g None total_order hfk (seperator_is_key_plus_seq_ b) (negb vd) prefix_index) None.
Proof. intros Hk. by apply index_refines. Qed.

Module IndexExample.
Definition bs (x : string) : bytes := String.list_byte_of_string x.
(** Three blocks; the versions of a user key are in two of them. *)
Definition blocks : list table_block :=
  [MkTableBlock [mk_ikey (bs "apple") (9 * 256 + 1); mk_ikey (bs "apple") (4 * 256 + 1)] (MkHandle 0 100);
   MkTableBlock [mk_ikey (bs "apple") (2 * 256 + 1); mk_ikey (bs "banana") (5 * 256 + 1)] (MkHandle 105 80);
   MkTableBlock [mk_ikey (bs "fig") (6 * 256 + 1)] (MkHandle 190 50)].

Lemma blocks_ok : @table_input BytewiseComparator true blocks.
Proof.
  split.
  - repeat constructor; try (by vm_compute).
  - unfold ordered. repeat constructor; by vm_compute.
  - by vm_compute.
  - intros _ i a b Ha Hb. destruct i as [|[|[|i]]]; cbn in Ha, Hb; try done; injection Ha as <-; injection Hb as <-; by vm_compute.
Qed.
End IndexExample.

Lemma index_leads_to_block_witness : exists b c b' s,
  @add_blocks BytewiseComparator IndexExample.blocks
    (new_ShortenedIndexBuilder 2 5 true kShortenSeparatorsAndSuccessor true) = Ret tt b /\
  index_Finish b = Ret c b' /\
  @index_Seek BytewiseComparator (mk_ikey (IndexExample.bs "banana") (5 * 256 + 1))
    (NewIndexIterator (new_Block c) kDisableGlobalSequenceNumber None true true (seperator_is_key_plus_seq_ b) false None)
    = Ret tt s /\
  index_view s = Some (MkIndexValue (MkHandle 105 80) (mk_ikey (IndexExample.bs "apple") (2 * 256 + 1))).
Proof.
  destruct (index_leads_to_block (user_comparator := BytewiseComparator) true true kShortenSeparatorsAndSuccessor 2 5
    IndexExample.blocks kDisableGlobalSequenceNumber true None (mk_ikey (IndexExample.bs "banana") (5 * 256 + 1)))
    as (b & c & b' & s & n & Hb & Hf & Hs & _ & Hv & Hbelow & Habove);
    [apply bytewise_keeps_equal|lia|apply IndexExample.blocks_ok|by left|by vm_compute|].
  exists b, c, b', s. split_and!; try done. rewrite Hv.
  assert (mk_ikey (IndexExample.bs "banana") (5 * 256 + 1) ∈ [mk_ikey (IndexExample.bs "apple") (2 * 256 + 1);
    mk_ikey (IndexExample.bs "banana") (5 * 256 + 1)]) as Hin by (by do 2 constructor).
  destruct n as [|[|n]]; [|done|]; exfalso.
  - by pose proof (Habove 1%nat _ _ ltac:(lia) eq_refl Hin).
  - by pose proof (Hbelow 1%nat _ _ ltac:(lia) eq_refl Hin).
Defined.

Lemma index_iterator_is_cursor_witness : exists b c b' R,
  @add_blocks BytewiseComparator IndexExample.blocks
    (new_ShortenedIndexBuilder 1 4 true kNoShortening false) = Ret tt b /\
  index_Finish b = Ret c b' /\ @index_cursor BytewiseComparator false IndexExample.blocks None R.
Proof.
  destruct (index_iterator_is_cursor (user_comparator := BytewiseComparator) true false kNoShortening 1 4
    IndexExample.blocks kDisableGlobalSequenceNumber true None)
    as (b & c & b' & Hb & Hf & R & HR & _);
    [apply bytewise_keeps_equal|lia|apply IndexExample.blocks_ok|by left|].
  by exists b, c, b', R.
Defined.
