(* ===== verification/PrefixThms.v ===== *)
(** The index with prefixes: what [HashIndexBuilder] stores of the prefixes of the keys
    of a table makes the search through the prefix index find the block of a key. *)
From S2P Require Import Prelude Bits Coding IoStatus Comparator DbFormat BlockBuilder BlockIter BlockSpec BlockSeek BlockCursor BlockBuild BlockThms TableFormat PrefixIndex PrefixSpec IndexIter IndexBuilder IndexSpec IndexThms.
From stdpp Require Import base numbers list strings sorting.
From Stdlib Require Import ZArith Lia SpecFloat.
Local Open Scope Z_scope.

(** ** The groups of keys with one prefix *)

Section Groups.
Context {transform_ : SliceTransform}.

Definition key_prefix (k : bytes) : bytes := Transform (ukey k).

(** The keys seen so far, each with the number of its block, have been collected in
    [gs]; the last group is pending.  [i] blocks are complete. *)
Record collecting (b : HashIndexBuilder) (i : Z) (gs : list prefix_group) (seen : list (bytes * Z)) : Prop := {
  ct_extract : hash_key_extractor_ b = internal_Transform;
  ct_index : current_restart_index_ b = i;
  ct_state : (gs = [] /\ pending_block_num_ b = 0 /\ prefix_block_ b = [] /\ prefix_meta_block_ b = []) \/
    exists front, gs = front ++ [(pending_entry_prefix_ b, pending_entry_index_ b, pending_block_num_ b)] /\
      prefix_block_ b = group_prefixes front /\ prefix_meta_block_ b = group_metas front;
  ct_records : records_ok 0 (group_record <$> gs);
  ct_high : records_high 0 (group_record <$> gs) <= i;
  ct_recent : gs <> [] -> i - 1 <= records_high 0 (group_record <$> gs);
  ct_total : records_total (group_record <$> gs) <= zlen seen;
  ct_size : zlen (group_prefixes gs) <= zlen (concat (fst <$> seen));
  ct_seen : forall k j, (k, j) ∈ seen -> exists start num, (key_prefix k, start, num) ∈ gs /\ start <= j < start + num }.

Lemma group_prefixes_snoc gs g : group_prefixes (gs ++ [g]) = group_prefixes gs ++ g.1.1.
Proof. unfold group_prefixes. rewrite fmap_app, concat_app. cbn. by rewrite app_nil_r. Qed.
Lemma group_metas_snoc gs g : group_metas (gs ++ [g]) = group_metas gs ++ group_meta g.
Proof. unfold group_metas. rewrite fmap_app, concat_app. cbn. by rewrite app_nil_r. Qed.

Lemma groups_ok_snoc low gs g : records_ok low (group_record <$> gs ++ [g]) <->
  records_ok low (group_record <$> gs) /\ record_ok (group_record g) /\ records_high low (group_record <$> gs) <= g.1.2.
Proof. rewrite fmap_app. apply records_ok_snoc. Qed.
Lemma groups_high_snoc low gs g : records_high low (group_record <$> gs ++ [g]) = g.1.2 + g.2 - 1.
Proof. rewrite fmap_app. apply records_high_snoc. Qed.
Lemma groups_total_snoc gs g : records_total (group_record <$> gs ++ [g]) = records_total (group_record <$> gs) + g.2.
Proof. rewrite fmap_app. apply records_total_snoc. Qed.

Lemma seen_snoc (seen : list (bytes * Z)) k i :
  zlen (seen ++ [(k, i)]) = zlen seen + 1 /\ zlen (concat (fst <$> seen ++ [(k, i)])) = zlen (concat (fst <$> seen)) + zlen k.
Proof. rewrite fmap_app, concat_app, !zlen_app. cbn. by rewrite app_nil_r. Qed.

(** A group of one block is added at the end. *)
Lemma new_group gs seen i k : records_ok 0 (group_record <$> gs) -> records_high 0 (group_record <$> gs) <= i ->
  0 <= i < 2 ^ 31 - 1 -> zlen (key_prefix k) <= zlen k ->
  records_total (group_record <$> gs) <= zlen seen -> zlen (group_prefixes gs) <= zlen (concat (fst <$> seen)) ->
  (forall k j, (k, j) ∈ seen -> exists start num, (key_prefix k, start, num) ∈ gs /\ start <= j < start + num) ->
  let gs' := gs ++ [(key_prefix k, i, 1)] in let seen' := seen ++ [(k, i)] in
  records_ok 0 (group_record <$> gs') /\ records_high 0 (group_record <$> gs') = i /\
  records_total (group_record <$> gs') <= zlen seen' /\ zlen (group_prefixes gs') <= zlen (concat (fst <$> seen')) /\
  (forall k j, (k, j) ∈ seen' -> exists start num, (key_prefix k, start, num) ∈ gs' /\ start <= j < start + num).
Proof.
  intros Hr Hh Hi Hk Ht Hs Hseen gs' seen'. destruct (seen_snoc seen k i) as [E1 E2]. unfold gs', seen'.
  rewrite E1, E2, group_prefixes_snoc, zlen_app, groups_ok_snoc, groups_high_snoc, groups_total_snoc. cbn [fst snd]. split_and!; try lia; try done.
  - split; cbn; lia.
  - intros k' j [Hin|Hin]%elem_of_app.
    + destruct (Hseen k' j Hin) as (start & num & Hg & Hj). exists start, num. split; [apply elem_of_app; by left|done].
    + apply list_elem_of_singleton in Hin as [= -> ->]. exists i, 1. split; [apply elem_of_app; right; by constructor|lia].
Qed.

(** The last group gets one more block. *)
Lemma wider_group front s n seen i k : let gs := front ++ [(key_prefix k, s, n)] in
  records_ok 0 (group_record <$> gs) -> s + n - 1 = i - 1 -> i < 2 ^ 31 - 1 ->
  records_total (group_record <$> gs) <= zlen seen -> zlen (group_prefixes gs) <= zlen (concat (fst <$> seen)) ->
  (forall k j, (k, j) ∈ seen -> exists start num, (key_prefix k, start, num) ∈ gs /\ start <= j < start + num) ->
  let gs' := front ++ [(key_prefix k, s, n + 1)] in let seen' := seen ++ [(k, i)] in
  records_ok 0 (group_record <$> gs') /\ records_high 0 (group_record <$> gs') = i /\
  records_total (group_record <$> gs') <= zlen seen' /\ zlen (group_prefixes gs') <= zlen (concat (fst <$> seen')) /\
  (forall k j, (k, j) ∈ seen' -> exists start num, (key_prefix k, start, num) ∈ gs' /\ start <= j < start + num).
Proof.
  intros gs Hr Hend Hi Ht Hs Hseen gs' seen'. destruct (seen_snoc seen k i) as [E1 E2]. unfold gs, gs', seen' in *.
  rewrite E1, E2. rewrite group_prefixes_snoc, zlen_app, groups_total_snoc, groups_ok_snoc in *. rewrite groups_high_snoc. cbn [fst snd] in *.
  destruct Hr as (Hf & R & Hh). pose proof (rk_start _ R). pose proof (rk_num _ R). cbn in *. pose proof (zlen_nonneg k).
  split_and!; try lia; try done.
  - split; cbn; lia.
  - intros k' j [Hin|Hin]%elem_of_app.
    + destruct (Hseen k' j Hin) as (start & num & [Hg|Hg]%elem_of_app & Hj).
      * exists start, num. split; [apply elem_of_app; by left|done].
      * apply list_elem_of_singleton in Hg as [= -> -> ->]. exists s, (n + 1). split; [apply elem_of_app; right; by constructor|lia].
    + apply list_elem_of_singleton in Hin as [= -> ->]. exists s, (n + 1). split; [apply elem_of_app; right; by constructor|lia].
Qed.

Context (Hshort : forall k, zlen (Transform k) <= zlen k).

Lemma key_prefix_short k : zlen (key_prefix k) <= zlen k.
Proof. unfold key_prefix. pose proof (Hshort (ukey k)). unfold ukey, zlen in *. rewrite length_take in *. lia. Qed.

Lemma OnKeyAdded_ok b i gs seen k : collecting b i gs seen -> internal k -> 0 <= i < 2 ^ 31 - 1 ->
  zlen (concat (fst <$> seen)) < 2 ^ 32 ->
  exists b' gs', hib_OnKeyAdded k b = Ret tt b' /\ primary_index_builder_ b' = primary_index_builder_ b /\
    collecting b' i gs' (seen ++ [(k, i)]) /\ gs' <> [] /\ records_high 0 (group_record <$> gs') = i.
Proof.
  intros [E I St Hr Hh Hrec Ht Hs Hseen] Hk Hi Hz. unfold hib_OnKeyAdded. rewrite bind_gets. cbv beta. change (id b) with b.
  rewrite E. unfold internal_Transform. rewrite ExtractUserKey_internal by done. erewrite bind_Ret by reflexivity.
  fold (key_prefix k). cbv zeta. rewrite I. destruct St as [(-> & Hn & Hp & Hm)|(front & Hgs & Hp & Hm)].
  - rewrite Hn. cbn [Z.eqb orb negb when]. erewrite bind_Ret by reflexivity. rewrite u32_small by lia.
    destruct (new_group [] seen i k Hr Hh Hi (key_prefix_short k) Ht Hs Hseen) as (H1 & H2 & H3 & H4 & H5).
    rewrite app_nil_l in H1, H2, H3, H4, H5.
    exists (set_pending 1 i (key_prefix k) b), [(key_prefix k, i, 1)]. split; [done|]. split; [done|]. split; [|done].
    split; try done; try lia. right. by exists [].
  - rewrite Hgs in Hr, Ht, Hs, Hseen, Hh, Hrec. pose proof Hr as Hr'. rewrite groups_ok_snoc in Hr'.
    destruct Hr' as (_ & R & _). pose proof (rk_num _ R) as Hnum. cbn in Hnum. rewrite (proj2 (Z.eqb_neq _ 0)) by lia.
    rewrite groups_high_snoc in Hh, Hrec. cbn [fst snd] in Hh, Hrec. pose proof (rk_start _ R) as Hstart. cbn in Hstart.
    cbn [orb negb when]. destruct (Slice_eq _ _) eqn:Eq; cbn [negb].
    + apply Slice_eq_spec in Eq. rewrite u32_small by lia. rewrite Eq in *. specialize (Hrec ltac:(by destruct front)).
      destruct (Z.eqb_spec (pending_entry_index_ b + pending_block_num_ b - 1) i) as [Ei|Ei]; cbn [negb when].
      * exists b, gs. split; [done|]. split; [done|]. destruct (seen_snoc seen k i) as [E1 E2].
        assert (records_high 0 (group_record <$> gs) = i) as Hhigh by (rewrite Hgs, groups_high_snoc; exact Ei).
        split; [|split; [rewrite Hgs; by destruct front|exact Hhigh]]. rewrite <- Hgs in *. split; try done; try lia.
        -- right. exists front. by rewrite Eq.
        -- rewrite E2. pose proof (zlen_nonneg k). lia.
        -- intros k' j [Hin|Hin]%elem_of_app; [by apply Hseen|]. apply list_elem_of_singleton in Hin as [= -> ->].
           exists (pending_entry_index_ b), (pending_block_num_ b). split; [|lia]. rewrite Hgs. apply elem_of_app. right. by constructor.
      * destruct (wider_group front _ _ seen i k Hr ltac:(lia) ltac:(lia) Ht Hs Hseen) as (H1 & H2 & H3 & H4 & H5).
        rewrite u32_small by lia. eexists _, (front ++ [(key_prefix k, pending_entry_index_ b, pending_block_num_ b + 1)]).
        split; [reflexivity|]. split; [done|]. split; [|split; [by destruct front|exact H2]].
        split; try done; try lia. right. by exists front.
    + rewrite <- Hgs in *. assert (i - 1 <= i) as Hi1 by lia.
      destruct (new_group gs seen i k Hr) as (H1 & H2 & H3 & H4 & H5);
        [rewrite Hgs, groups_high_snoc; exact Hh|done|apply key_prefix_short|done|done|done|].
      erewrite bind_Ret by reflexivity. rewrite u32_small by lia. eexists _, (gs ++ [(key_prefix k, i, 1)]).
      split; [reflexivity|]. split; [done|].
      split; [|split; [by destruct gs|exact H2]]. split; try done; try lia. right. exists gs. split; [done|]. cbn.
      rewrite Hp, Hm. rewrite Hgs in Hs |- *. rewrite group_prefixes_snoc, zlen_app in Hs. pose proof (zlen_nonneg (group_prefixes front)).
      pose proof (zlen_nonneg (pending_entry_prefix_ b)). rewrite group_prefixes_snoc, group_metas_snoc. cbn in *.
      split; [done|]. unfold PutVarint32Varint32Varint32, group_meta. cbn. by rewrite u32_small by lia.
Qed.

Lemma keys_collected keys : forall b i gs seen, collecting b i gs seen -> Forall internal keys -> 0 <= i < 2 ^ 31 - 1 ->
  zlen (concat (fst <$> seen ++ ((., i) <$> keys))) < 2 ^ 32 -> keys <> [] ->
  exists b' gs', iterM hib_OnKeyAdded keys b = Ret tt b' /\ primary_index_builder_ b' = primary_index_builder_ b /\
    collecting b' i gs' (seen ++ ((., i) <$> keys)) /\ records_high 0 (group_record <$> gs') = i.
Proof.
  induction keys as [|k keys IH]; intros b i gs seen C Hint Hi Hz Hne; [done|]. apply Forall_cons in Hint as [Hk Hint].
  destruct (OnKeyAdded_ok b i gs seen k C Hk Hi) as (b1 & gs1 & H1 & P1 & C1 & _ & Hh1).
  { rewrite fmap_app, concat_app, zlen_app in Hz. pose proof (zlen_nonneg (concat (fst <$> ((., i) <$> (k :: keys))))). lia. }
  cbn [iterM]. rewrite (bind_Ret _ _ _ _ _ H1). rewrite fmap_cons, cons_middle, app_assoc in Hz |- *.
  destruct keys as [|k' keys]; [exists b1, gs1; rewrite fmap_nil, app_nil_r; done|].
  destruct (IH b1 i gs1 _ C1 Hint Hi Hz ltac:(done)) as (b2 & gs2 & H2 & P2 & C2 & Hh2).
  exists b2, gs2. by rewrite P2, P1.
Qed.

(** The calls of the builder of the table. *)
Fixpoint hib_add_blocks {user_comparator : Comparator} (xs : list table_block) : prog HashIndexBuilder unit :=
  match xs with
  | [] => mret tt
  | x :: xs' =>
    iterM hib_OnKeyAdded (tb_keys x);;
    hib_AddIndexEntry (last_of x) (x' ← head xs'; first_of x') (tb_handle x);;
    hib_add_blocks xs'
  end.

(** The keys of a table with the numbers of their blocks. *)
Fixpoint numbered (i : Z) (xs : list table_block) : list (bytes * Z) :=
  match xs with [] => [] | x :: xs => ((., i) <$> tb_keys x) ++ numbered (i + 1) xs end.

Lemma numbered_keys i xs : fst <$> numbered i xs = keys_of xs.
Proof.
  revert i. induction xs as [|x xs IH]; intros i; [done|]. cbn [numbered]. rewrite fmap_app, IH. unfold keys_of. cbn. f_equal.
  rewrite <- list_fmap_compose. apply list_fmap_id.
Qed.

Lemma numbered_lookup i xs j x k : xs !! j = Some x -> k ∈ tb_keys x -> (k, i + Z.of_nat j) ∈ numbered i xs.
Proof.
  revert i j. induction xs as [|y xs IH]; intros i [|j] Hj Hk; try done; cbn [numbered]; apply elem_of_app.
  - injection Hj as ->. left. apply list_elem_of_fmap. exists k. split; [f_equal; lia|done].
  - right. replace (i + Z.of_nat (S j)) with (i + 1 + Z.of_nat j) by lia. by apply IH.
Qed.

Lemma block_completed b i gs seen p : collecting b i gs seen -> records_high 0 (group_record <$> gs) = i -> 0 <= i < 2 ^ 32 ->
  collecting (set primary p (set_current_restart (u64 (current_restart_index_ b + 1)) b)) (i + 1) gs seen.
Proof. intros [E I St Hr Hh Hrec Ht Hs Hseen] Hi Hr'. split; try done; [cbn; rewrite I; apply u64_small; lia|lia|lia]. Qed.
End Groups.

Section Hashed.
Context {user_comparator : Comparator} {laws : ComparatorLaws user_comparator} {transform_ : SliceTransform}.
Context (vd : bool) (mode : IndexShorteningMode) (interval : Z).
Context (Hkeep : forall u v, Compare u v = 0 -> FindShortestSeparator u v = u).
Context (Hshort : forall k, zlen (Transform k) <= zlen k).

Lemma hib_add_blocks_ok xs : forall b i gs seen es us prev,
  Forall block_ok xs -> ordered xs -> index_room xs < 2 ^ 32 ->
  entered vd false mode interval (primary_index_builder_ b) es us prev [] -> collecting b i gs seen ->
  0 <= i -> i + zlen xs < 2 ^ 31 -> zlen (concat (fst <$> seen ++ numbered i xs)) < 2 ^ 32 ->
  exists rows b' gs' prev', hib_add_blocks xs b = Ret tt b' /\
    let p' := primary_index_builder_ b' in
    rows_ok vd false mode prev xs rows (negb (seperator_is_key_plus_seq_ p')) /\
    entered vd false mode interval p' (es ++ (r_seq <$> rows)) (us ++ (r_user <$> rows)) prev' [] /\
    collecting b' (i + zlen xs) gs' (seen ++ numbered i xs) /\
    (xs <> [] \/ records_high 0 (group_record <$> gs) < i -> records_high 0 (group_record <$> gs') < i + zlen xs) /\
    (seperator_is_key_plus_seq_ p' = false -> seperator_is_key_plus_seq_ (primary_index_builder_ b) = false).
Proof.
  induction xs as [|x xs IH]; intros b i gs seen es us prev Hok Ho Hz En C Hi Hl Hs.
  { exists [], b, gs, prev. cbn [numbered]. rewrite fmap_nil, fmap_nil, !app_nil_r. change (zlen []) with 0. rewrite Z.add_0_r.
    split_and!; try done. by intros [?|?]. }
  apply Forall_cons in Hok as [Hx Hxs]. cbn [hib_add_blocks numbered] in *. rewrite app_assoc in Hs |- *.
  assert (zlen (x :: xs) = 1 + zlen xs) as Hlen by (unfold zlen; cbn [length]; lia). pose proof (zlen_nonneg xs).
  destruct (keys_collected Hshort (tb_keys x) b i gs seen C (bk_internal _ Hx)) as (b1 & gs1 & H1 & P1 & C1 & Hh).
  { lia. }
  { rewrite fmap_app, concat_app, zlen_app in Hs. pose proof (zlen_nonneg (concat (fst <$> numbered (i + 1) xs))). lia. }
  { apply Hx. }
  rewrite (bind_Ret _ _ _ _ _ H1). rewrite <- P1 in En.
  destruct (entry_added vd false mode interval Hkeep (primary_index_builder_ b1) es us prev x xs En Hx Hxs Ho Hz)
    as (r & p2 & Hp2 & Hr & En2 & Hflag).
  pose proof (block_completed b1 i gs1 _ p2 C1 Hh ltac:(lia)) as C2. set (b2 := set primary p2 _) in C2.
  erewrite (bind_Ret _ _ b1 (r_sep r) b2).
  2:{ unfold hib_AddIndexEntry. erewrite bind_Ret by reflexivity. by apply (zoom_Ret primary). }
  destruct (IH b2 (i + 1) gs1 _ (es ++ [r_seq r]) (us ++ [r_user r]) (tb_handle x) Hxs (ordered_tail _ _ Ho) (index_room_tail _ _ Hz) En2 C2)
    as (rows & b3 & gs3 & prev' & H3 & Hrows & En3 & C3 & Hlow & Hf3); [lia|lia|done|].
  exists (r :: rows), b3, gs3, prev'. rewrite <- !app_assoc in En3. replace (i + 1 + zlen xs) with (i + zlen (x :: xs)) in C3 by lia.
  split; [done|]. cbv zeta. split; [|split; [done|split; [done|split]]].
  - cbn [rows_ok]. split; [done|]. split; [|done]. intros E n Hn. apply negb_true_iff in E. by apply (proj2 (Hflag (Hf3 E))).
  - intros _. rewrite Hlen, Z.add_assoc. apply Hlow. right. lia.
  - intros E. rewrite <- P1. by apply Hflag, Hf3.
Qed.

Lemma hib_Finish_ok b i gs seen c p : collecting b i gs seen -> i < 2 ^ 32 -> zlen (concat (fst <$> seen)) < 2 ^ 32 ->
  index_Finish (primary_index_builder_ b) = Ret c p ->
  exists b', hib_Finish b = Ret (c, group_prefixes gs, group_metas gs) b'.
Proof.
  intros [E I St Hr Hh Hrec Ht Hs Hseen] Hi Hz Hf. unfold hib_Finish. rewrite bind_gets. cbv beta. change (id b) with b.
  destruct St as [(-> & Hn & Hp & Hm)|(front & -> & Hp & Hm)].
  - rewrite Hn. cbn [Z.eqb negb when]. erewrite bind_Ret by reflexivity. rewrite (bind_Ret _ _ _ _ _ (zoom_Ret primary _ b _ p Hf)).
    rewrite bind_gets. cbv beta. change (id ?x) with x. cbn. rewrite Hp, Hm. by eexists.
  - rewrite groups_ok_snoc in Hr. destruct Hr as (_ & R & _). pose proof (rk_num _ R) as Hnum. cbn in Hnum.
    rewrite (proj2 (Z.eqb_neq _ 0)) by lia. cbn [negb when]. erewrite bind_Ret by reflexivity.
    erewrite bind_Ret by (by apply (zoom_Ret primary)). rewrite bind_gets. cbv beta. change (id ?x) with x. cbn.
    rewrite group_prefixes_snoc, zlen_app in Hs. cbn in Hs. pose proof (zlen_nonneg (group_prefixes front)).
    pose proof (zlen_nonneg (pending_entry_prefix_ b)). rewrite group_prefixes_snoc, group_metas_snoc, Hp, Hm.
    unfold PutVarint32Varint32Varint32, group_meta. cbn. rewrite u32_small by lia. by eexists.
Qed.
End Hashed.

(** ** Searching through the prefixes *)

Section Searching.
#[local] Existing Instance BytewiseComparator.
Context {transform_ : SliceTransform} {prefixes : PrefixLaws transform_ BytewiseComparator}.

Lemma prefix_short k : zlen (Transform k) <= zlen k.
Proof. pose proof (prefix_length _ _ (prefix_starts k)). unfold zlen. lia. Qed.

Lemma compare_ge a b : ~ Compare a b < 0 -> Compare b a <= 0.
Proof. pose proof (cmp_opp (cmp := Compare) a b). lia. Qed.

Lemma compare_antisym a b : Compare a b <= 0 -> Compare b a <= 0 -> a = b.
Proof. cbn. rewrite !Slice_compare_lex. intros H1 H2. apply lex_eq. rewrite lex_opp in H2. lia. Qed.

(** What lies between two keys with one prefix has it too. *)
Lemma prefix_between a x b : Compare a x <= 0 -> Compare x b <= 0 -> Transform a = Transform b -> Transform x = Transform a.
Proof.
  intros H1 H2 E. apply compare_antisym; [rewrite E|]; by apply prefix_monotone.
Qed.

(** The separator of a key [l] and a key [f] is not above the target where the target
    has a prefix that [l] has not and [f] and the target have. *)
Lemma separator_below_target l f t :
  Compare l t < 0 -> Transform l <> Transform t -> Transform f = Transform t -> Compare (FindShortestSeparator l f) t <= 0.
Proof.
  intros Hl Hne Hf. apply (cmp_trans _ (Transform t)); [|apply prefix_below].
  assert (Compare l (Transform t) < 0) as Hlt.
  { destruct (decide (Compare l (Transform t) < 0)) as [|Hge]; [done|]. destruct Hne.
    rewrite <- (prefix_idempotent t). apply (prefix_between _ _ t); [by apply compare_ge|lia|apply prefix_idempotent]. }
  cbn in *. rewrite Slice_compare_lex in *. apply separator_below_prefix; [done|]. rewrite <- Hf. apply prefix_starts.
Qed.

Lemma separator_cases mode l f sep : internal l -> internal f -> choose_separator mode l (Some f) = Some sep ->
  sep = l \/ sep = mk_ikey (FindShortestSeparator (ukey l) (ukey f)) (PackSequenceAndType kMaxSequenceNumber kValueTypeForSeek).
Proof.
  intros Hl Hf. assert (ik_FindShortestSeparator l f = Some sep -> sep = l \/
    sep = mk_ikey (FindShortestSeparator (ukey l) (ukey f)) (PackSequenceAndType kMaxSequenceNumber kValueTypeForSeek)) as H.
  { unfold ik_FindShortestSeparator. rewrite !ExtractUserKey_internal by done. cbn [mbind option_bind].
    destruct (_ && _); intros [= <-]; [by right|by left]. }
  destruct mode; cbn; [intros [= <-]; by left|exact H|exact H].
Qed.

(** Keys as they are given to [Seek]. *)
Definition seekable (target : bytes) : Prop :=
  internal target /\ ifooter target <= PackSequenceAndType kMaxSequenceNumber kValueTypeForSeek.

(** A block that has no key with the prefix of the target, with a separator above the
    target, has only blocks behind it whose keys with the prefix are below the target. *)
Lemma gap_below u mode l f k target sep : seekable target -> internal l -> internal f ->
  choose_separator mode l (Some f) = Some sep -> icmp l sep <= 0 -> icmp sep f < 0 -> icmp f k <= 0 ->
  key_prefix k = key_prefix target -> key_prefix l <> key_prefix target ->
  0 < key_order u (seek_key u sep) (seek_key u target) -> icmp k target < 0.
Proof.
  intros [Ht Hfoot] Hl Hf Hsep Hls Hlt Hfk Hk Hnl Hc. unfold key_prefix in *.
  destruct (decide (icmp k target < 0)) as [|Hge]; [done|]. exfalso.
  assert (Compare (ukey target) (ukey k) <= 0) as Htk by (apply compare_ge; intros E; apply Hge, icmp_lt; by left).
  assert (~ Compare (ukey sep) (ukey target) < 0) as Hst.
  { intros E. unfold key_order, seek_key in Hc. destruct u; [lia|]. assert (icmp sep target < 0) by (apply icmp_lt; by left). lia. }
  pose proof (compare_ge _ _ Hst) as Hts.
  assert (Compare (ukey sep) (ukey f) <= 0) as Hsf by (apply icmp_lt in Hlt; lia).
  assert (Compare (ukey f) (ukey k) <= 0) as Hfk' by (apply icmp_le in Hfk; lia).
  assert (Compare (ukey sep) (ukey k) <= 0) as Hsk by (by apply (cmp_trans _ (ukey f))).
  assert (Compare (ukey l) (ukey target) < 0) as Hlt'.
  { destruct (decide (Compare (ukey l) (ukey target) < 0)) as [|Hn]; [done|]. destruct Hnl.
    apply (prefix_between _ _ (ukey k)); [by apply compare_ge| |done]. apply (cmp_trans _ (ukey sep)); [|done].
    apply icmp_le in Hls. lia. }
  destruct (separator_cases mode l f sep Hl Hf Hsep) as [->|E]; [done|].
  assert (Compare (ukey sep) (ukey target) <= 0) as Hle.
  { rewrite E, ukey_mk. apply separator_below_target; [done|done|].
    apply (prefix_between _ _ (ukey k)); [by apply (cmp_trans _ (ukey sep))|done|done]. }
  unfold key_order, seek_key in Hc. destruct u; [lia|]. assert (icmp sep target <= 0); [|lia]. apply icmp_le.
  destruct (decide (Compare (ukey sep) (ukey target) = 0)); [right|left; lia]. split; [done|].
  rewrite E, ifooter_mk; [done|by split; vm_compute].
Qed.

(** *** In the index of a table *)

Lemma first_key_least n z f k xs : ordered xs -> xs !! n = Some z -> first_of z = Some f -> k ∈ keys_of (drop n xs) -> icmp f k <= 0.
Proof.
  intros Ho Hz Hf Hk. assert (StronglySorted (fun a b => icmp a b < 0) (keys_of (drop n xs))) as Hs.
  { unfold ordered in Ho. rewrite <- (take_drop n xs) in Ho. unfold keys_of in Ho. rewrite fmap_app, concat_app in Ho.
    by eapply StronglySorted_app_1_r. }
  apply (proj1 (sorted_ends _ _ Hs Hk)). rewrite (drop_S _ _ _ Hz). unfold keys_of. cbn. unfold first_of in Hf. by destruct (tb_keys z).
Qed.

Section Table.
Context (vd : bool) (mode : IndexShorteningMode) (xs : list table_block) (rows : list row) (u : bool).
Context (data : bytes) (restarts : Z) (rs : list nat).
Abbreviation es := (row_item u <$> rows).
Context (TI : table_input vd xs) (Hrows : rows_ok vd false mode NullBlockHandle xs rows u).
Context (LO : layout vd data restarts es rs).
Context (target : bytes) (Htarget : seekable target).
Context (ids : list Z) (Hrange : forall i, i ∈ ids -> 0 <= i < zlen xs).
Context (Hall : forall j y k, xs !! j = Some y -> k ∈ tb_keys y -> key_prefix k = key_prefix target -> Z.of_nat j ∈ ids).

Lemma no_seqno : @None Z <> None -> false = true.
Proof. done. Qed.

Lemma row_at (i : Z) : 0 <= i < zlen xs -> exists x r, xs !! Z.to_nat i = Some x /\ rows !! Z.to_nat i = Some r /\
  es !! Z.to_nat i = Some (row_item u r) /\ cmp_at (es := es) u target i = key_order u (row_key u r) (seek_key u target).
Proof.
  intros Hi. destruct (lookup_lt_is_Some_2 xs (Z.to_nat i)) as [x Hx]; [unfold zlen in Hi; lia|].
  destruct (row_of _ _ _ _ _ _ Hrows _ x Hx) as (r & Hr & He). exists x, r. split_and!; try done.
  unfold cmp_at. rewrite He. cbn. unfold tcmp. by rewrite (proj1 (es_key _ _ _ _ _ _ Hrows _ _ Hr)).
Qed.

(** The keys of an entry below the target. *)
Lemma below_at i j x k : i = Z.of_nat j -> xs !! j = Some x -> k ∈ tb_keys x -> cmp_at (es := es) u target i < 0 -> icmp k target < 0.
Proof.
  intros -> Hx Hk. destruct (row_of _ _ _ _ _ _ Hrows _ x Hx) as (r & Hr & He). unfold cmp_at. rewrite Nat2Z.id, He. cbn. intros Hc.
  by eapply (below_entry vd false mode xs rows u data restarts rs None TI Hrows LO no_seqno target j x k).
Qed.

Lemma found_covers_target n : found (es := es) u target ids n -> covers xs target (Z.to_nat n).
Proof.
  intros (Hn & Hbelow & Habove). split; intros j x k Hj Hx Hk.
  - destruct (Hbelow (Z.of_nat j)) as [Hc|(Hlast & Hc & Hnot)]; [lia|by eapply below_at|].
    destruct (row_of _ _ _ _ _ _ Hrows _ x Hx) as (r & Hr & He).
    pose proof (proj1 (rows_order _ _ _ _ _ _ _ (ti_blocks _ _ TI) (ti_order _ _ TI) Hrows j r Hr) x k Hx Hk) as Hle.
    unfold cmp_at in Hc. rewrite Nat2Z.id, He in Hc. cbn in Hc. unfold tcmp in Hc.
    rewrite (proj1 (es_key _ _ _ _ _ _ Hrows _ _ Hr)) in Hc.
    destruct (decide (icmp k target < 0)) as [|Hge]; [done|]. destruct Hnot. apply (Hall j x k Hx Hk). unfold key_prefix. f_equal.
    assert (key_order u (seek_key u k) (seek_key u target) <= 0) as Hkt.
    { unfold key_order in *. destruct u; by eapply cmp_trans; [exact Hle|rewrite Hc]. }
    apply compare_antisym; [|apply compare_ge; intros E; apply Hge, icmp_lt; by left].
    unfold key_order, seek_key in Hkt. destruct u; [done|]. apply icmp_le in Hkt. lia.
  - destruct (row_at n) as (y & q & Hy & Hq & He & Hc); [apply lookup_lt_Some in Hx; unfold zlen; lia|].
    assert (0 <= tcmp u target (i_key (row_item u q))).
    { assert (n < zlen es) as Hl by (unfold zlen; rewrite (es_length vd false mode xs rows u Hrows); apply lookup_lt_Some in Hx; lia).
      specialize (Habove Hl). unfold cmp_at in Habove. by rewrite He in Habove. }
    by eapply (above_entry vd false mode xs rows u data restarts rs None TI Hrows LO no_seqno target (Z.to_nat n) j x k).
Qed.

Lemma missing_below k : missing (es := es) u target ids -> k ∈ keys_of xs -> key_prefix k = key_prefix target -> icmp k target < 0.
Proof.
  intros Hm Hin Hk. assert (exists j y, xs !! j = Some y /\ k ∈ tb_keys y) as (j & y & Hy & Hky).
  { unfold keys_of in Hin. apply list_elem_of_In, in_concat in Hin as (l & Hl & Hkl). apply list_elem_of_In, list_elem_of_fmap in Hl as (y & -> & Hy).
    apply list_elem_of_lookup in Hy as [j Hj]. exists j, y. split; [done|]. by apply list_elem_of_In. }
  pose proof (Hall j y k Hy Hky Hk) as Hj. destruct Hm as [Hm|(b & Hb & Hb0 & Hnb & Hc & Hbelow)].
  { eapply below_at; [done|done|done|]. by apply Hm. }
  destruct (decide (Z.of_nat j < b)) as [Hlt|Hge]; [eapply below_at; [done|done|done|by apply Hbelow]|].
  pose proof (Hrange b Hb) as Hbr. destruct (row_at (b - 1)) as (x & r & Hx & Hr & _ & Hcmp); [lia|]. rewrite Hcmp in Hc.
  destruct (lookup_lt_is_Some_2 xs (Z.to_nat b)) as [z Hz]; [unfold zlen in Hbr; lia|].
  destruct (rows_lookup _ _ _ _ _ _ _ _ _ Hrows Hr) as (x' & Hx' & Hrow). rewrite Hx in Hx'. injection Hx' as <-.
  replace (S (Z.to_nat (b - 1))) with (Z.to_nat b) in Hrow by lia. rewrite Hz in Hrow. cbn [mbind option_bind] in Hrow.
  pose proof (Forall_lookup_1 _ _ _ _ (ti_blocks _ _ TI) Hx) as Hxok. pose proof (Forall_lookup_1 _ _ _ _ (ti_blocks _ _ TI) Hz) as Hzok.
  destruct (ends_of x Hxok) as [Hl _]. destruct (ends_of z Hzok) as [_ (f & Hf & Hfin)]. rewrite Hf in Hrow.
  apply (gap_below u mode (last_of x) f k target (r_sep r)).
  - done.
  - by apply (proj1 (Forall_forall _ _) (bk_internal _ Hxok)).
  - by apply (proj1 (Forall_forall _ _) (bk_internal _ Hzok)).
  - apply Hrow.
  - apply Hrow.
  - by apply Hrow.
  - apply (first_key_least (Z.to_nat b) z f k xs); [by apply TI|done|done|]. eapply keys_of_lookup; [|exact Hky].
    rewrite lookup_drop. by replace (Z.to_nat b + (j - Z.to_nat b))%nat with j by lia.
  - done.
  - intros E. destruct Hnb. replace (b - 1) with (Z.of_nat (Z.to_nat (b - 1))) by lia. by apply (Hall _ x (last_of x)).
  - exact Hc.
Qed.
End Table.

(** *** The search *)

Lemma prefix_seek_ok vd mode xs rows u rs g target ids x : let es := row_item u <$> rows in let c := contents_of vd es rs None in
  table_input vd xs -> rows_ok vd false mode NullBlockHandle xs rows u -> shape es rs -> zlen c < 2 ^ 32 ->
  rs = seq 0 (Nat.max 1 (length rows)) -> zlen xs < 2 ^ 31 -> seekable target ->
  GetBlocks target x = Some (Some <$> ids) -> StronglySorted Z.lt ids -> (forall i, i ∈ ids -> 0 <= i < zlen xs) ->
  (forall j y k, xs !! j = Some y -> k ∈ tb_keys y -> key_prefix k = key_prefix target -> Z.of_nat j ∈ ids) ->
  exists s, index_Seek target (NewIndexIterator (new_Block c) g None false false (negb u) (negb vd) (Some x)) = Ret tt s /\
    ((exists n, it_status_ (index_iter s) = StOK /\
        index_view s = (y ← xs !! n; Some (MkIndexValue (tb_handle y) [])) /\ covers xs target n) \/
     (it_status_ (index_iter s) = StNotFound /\ index_view s = None /\
        forall k, k ∈ keys_of xs -> key_prefix k = key_prefix target -> icmp k target < 0)).
Proof.
  intros es c TI Hr Sh Hc Hd Hz Ht Hg Hsort Hrange Hall. pose proof (layout_found vd es rs None Sh Hc) as LO. fold c in LO.
  pose proof (NewIndexIterator_ok vd false es rs u g false (Some x) Sh Hc) as P0. fold c in P0. cbv iota in P0. set (s0 := NewIndexIterator _ _ _ _ _ _ _ _) in *.
  pose proof (rows_values vd false mode _ _ _ _ _ _ None TI Hr LO ltac:(done)) as VO.
  assert (length es = length xs) as Hlen by (by eapply es_length).
  pose proof (es_ascending vd false mode xs rows u c _ rs None TI Hr LO no_seqno) as Hasc.
  destruct (index_Seek_prefix_ok LO u false None (iv_of false <$> xs) (px := Some x) VO
    (es_internal vd false mode xs rows u Hr) Hasc target (proj1 Ht)) with (ids := ids) (x := x) (s := s0) (p := @None nat)
    as (s1 & Hs1 & Hres); try done.
  { unfold es. by rewrite length_fmap. }
  { unfold zlen in *. by rewrite Hlen. }
  { unfold zlen in *. by rewrite Hlen. }
  unfold index_Seek. rewrite (bind_Ret _ _ _ _ _ Hs1). destruct Hres as [(n & Hn & P1)|(Hm & Hv & Hst)].
  - destruct (index_update LO u false None _ s1 _ P1) as (s2 & H2 & P2 & _). exists s2. split; [done|]. left. exists (Z.to_nat n).
    destruct (reading_view vd false mode xs rows u c _ rs None (Some x) TI Hr LO no_seqno s2 _ P2) as (Hst & _ & ->). split; [done|].
    split; [|by eapply found_covers_target]. unfold to_pos. rewrite Hlen.
    destruct (Nat.ltb_spec (Z.to_nat n) (length xs)) as [Hl|Hl]; [done|]. cbn. by rewrite (proj2 (lookup_ge_None xs _) Hl).
  - exists s1. split.
    { unfold index_UpdateKey. rewrite (zoom_index _ s1 tt (index_iter s1)); [by destruct s1|]. unfold UpdateKey. rewrite bind_gets.
      cbv beta. change (id ?y) with y. by rewrite Hv. }
    right. split; [done|]. unfold index_view. rewrite Hv. split; [done|]. intros k Hk Hp. by eapply missing_below.
Qed.

(** *** From the builder to the iterator *)

Lemma keys_size (l : list bytes) : Forall internal l -> 8 * zlen l <= zlen (concat l).
Proof.
  induction 1 as [|k l Hk _ IH]; [done|]. cbn [concat]. rewrite zlen_app. unfold internal in Hk.
  change (zlen (k :: l)) with (Z.of_nat (S (length l))). unfold zlen in *. lia.
Qed.

Lemma blocks_le_keys xs : Forall block_ok xs -> zlen xs <= zlen (keys_of xs) /\ Forall internal (keys_of xs).
Proof.
  induction 1 as [|x xs Hx _ [IH1 IH2]]; [done|]. unfold keys_of in *. cbn [fmap list_fmap concat]. rewrite zlen_app. split.
  - pose proof (bk_keys _ Hx). destruct (tb_keys x) as [|k l]; [done|]. unfold zlen in *. cbn [length] in *. lia.
  - apply Forall_app. split; [apply Hx|done].
Qed.

Lemma new_collecting restart_interval format_version vd mode :
  collecting (new_HashIndexBuilder internal_Transform restart_interval format_version vd mode) 0 [] [].
Proof. split; try done; [by left|]. by intros k j Hk%not_elem_of_nil. Qed.

(** Without groups nothing is found. *)
Lemma no_groups x target ids : internal target -> prefix_Create internal_Transform [] [] tt = Ret (StOK, Some x) tt ->
  GetBlocks target x = Some (Some <$> ids) -> ids = [].
Proof.
  intros Ht Hx. injection Hx as <-. unfold GetBlocks, internal_Transform. cbn [internal_prefix_extractor_ pi_num_buckets_ buckets_].
  rewrite ExtractUserKey_internal by done. cbn [mbind option_bind]. unfold PrefixToBucket. rewrite Z.mod_1_r. cbn.
  intros [= Hi]. by destruct ids.
Qed.

(** What the builder makes, and what the prefix index made of it gives for a key. *)
Lemma hash_index_built vd mode format_version xs : table_input vd xs -> zlen (concat (keys_of xs)) < 2 ^ 32 ->
  exists b c pre meta b' x rows rs, let u := negb (seperator_is_key_plus_seq_ (primary_index_builder_ b)) in
    hib_add_blocks xs (new_HashIndexBuilder internal_Transform 1 format_version vd mode) = Ret tt b /\
    hib_Finish b = Ret (c, pre, meta) b' /\ prefix_Create internal_Transform pre meta tt = Ret (StOK, Some x) tt /\
    rows_ok vd false mode NullBlockHandle xs rows u /\ c = contents_of vd (row_item u <$> rows) rs None /\
    shape (row_item u <$> rows) rs /\ zlen c < 2 ^ 32 /\ rs = seq 0 (Nat.max 1 (length rows)) /\
    forall target, internal target -> exists ids, GetBlocks target x = Some (Some <$> ids) /\ StronglySorted Z.lt ids /\
      (forall i, i ∈ ids -> 0 <= i < zlen xs) /\
      (forall j y k, xs !! j = Some y -> k ∈ tb_keys y -> key_prefix k = key_prefix target -> Z.of_nat j ∈ ids).
Proof.
  intros [Hok Ho Hz Hf] Hk. destruct (blocks_le_keys xs Hok) as [Hle Hint]. pose proof (keys_size _ Hint) as H8. pose proof (zlen_nonneg xs).
  destruct (hib_add_blocks_ok vd mode 1 bytewise_keeps_equal prefix_short xs
    (new_HashIndexBuilder internal_Transform 1 format_version vd mode) 0 [] [] [] [] _ Hok Ho Hz
    (new_entered vd false mode 1 format_version ltac:(lia)) (new_collecting 1 format_version vd mode))
    as (rows & b & gs & prev & Hb & Hr & En & C & Hlow & _); [lia|lia|by rewrite app_nil_l, numbered_keys|].
  cbv zeta in Hr, En. rewrite !app_nil_l in *. change (0 + zlen xs) with (zlen xs) in C.
  destruct (index_finished vd false mode 1 (primary_index_builder_ b) xs rows prev En Hr Hok Hz) as (rs & p & Hfin & Sh & Hd & Hc).
  assert (zlen (concat (fst <$> numbered 0 xs)) < 2 ^ 32) as Hnum by (by rewrite numbered_keys).
  destruct (hib_Finish_ok b _ gs _ _ p C ltac:(lia) Hnum Hfin) as [b' Hb'].
  pose proof (ct_total _ _ _ _ C) as Ht. pose proof (ct_size _ _ _ _ C) as Hs. rewrite numbered_keys in Hs.
  assert (zlen (numbered 0 xs) = zlen (keys_of xs)) as E by (rewrite <- (numbered_keys 0 xs); unfold zlen; by rewrite length_fmap).
  destruct (prefix_Create_ok tt internal_Transform gs (ct_records _ _ _ _ C)) as (x & Hx & Hget); [lia|lia|].
  eexists b, _, _, _, b', x, rows, rs. cbv zeta. split_and!; try done; [by apply Hd|]. intros target Htarget.
  destruct (Hget target (key_prefix target)) as (ids & Hg & Hsort & Hrange & Hin).
  { unfold internal_Transform. by rewrite ExtractUserKey_internal. }
  exists ids. split_and!; try done.
  - intros i Hi. destruct (decide (xs = [])) as [->|Hne]; [|specialize (Hrange i Hi); specialize (Hlow (or_introl Hne)); lia].
    assert (gs = []) as ->.
    { destruct gs as [|g gs]; [done|]. pose proof (ct_records _ _ _ _ C) as Hrec. pose proof (records_count _ _ Hrec) as Hcount.
      rewrite E in Ht. unfold zlen in *. cbn [length fmap list_fmap] in *. change (length (keys_of [])) with 0%nat in Ht. lia. }
    rewrite (no_groups x target ids Htarget Hx Hg) in Hi. by apply not_elem_of_nil in Hi.
  - intros j y k Hy Hky Hp. pose proof (numbered_lookup 0 xs j y k Hy Hky) as Hn.
    destruct (ct_seen _ _ _ _ C k _ Hn) as (start & num & Hgs & Hrg). rewrite Hp in Hgs. apply (Hin start num); [done|lia].
Qed.
End Searching.

(** C26. The index with prefixes leads to the block of a key.  The blocks of a table are
    given to a new [HashIndexBuilder] as the builder of tables does it; [Finish] makes
    the index block and the two meta blocks of prefixes, which [BlockPrefixIndex::Create]
    accepts.  [Seek] through the prefix index returns, for keys in bytewise order and
    every prefix extractor that is as documented.  Either its status is OK, at an entry
    whose value is the handle of a block such that all the blocks before have only keys
    below the target and all the blocks behind only keys above it (when it is not valid,
    all the keys are below the target).  Or its status is NotFound, and all the keys of
    the table that have the prefix of the target are below the target.  It holds however
    the hashes of prefixes collide. *)
Theorem hash_index_leads_to_block {transform_ : SliceTransform} {prefixes : PrefixLaws transform_ BytewiseComparator}
    vd mode format_version xs g target :
  @table_input BytewiseComparator vd xs -> zlen (concat (keys_of xs)) < 2 ^ 32 -> seekable target ->
  exists b c pre meta b' x s,
    @hib_add_blocks BytewiseComparator xs (new_HashIndexBuilder internal_Transform 1 format_version vd mode) = Ret tt b /\
    hib_Finish b = Ret (c, pre, meta) b' /\
    prefix_Create internal_Transform pre meta tt = Ret (StOK, Some x) tt /\
    @index_Seek BytewiseComparator target (NewIndexIterator (new_Block c) g None false false
      (seperator_is_key_plus_seq_ (primary_index_builder_ b)) (negb vd) (Some x)) = Ret tt s /\
    ((exists n, it_status_ (index_iter s) = StOK /\
        index_view s = (y ← xs !! n; Some (MkIndexValue (tb_handle y) [])) /\ @covers BytewiseComparator xs target n) \/
     (it_status_ (index_iter s) = StNotFound /\ index_view s = None /\
        forall k, k ∈ keys_of xs -> key_prefix k = key_prefix target -> @icmp BytewiseComparator k target < 0)).
Proof.
  intros TI Hk Ht. destruct (hash_index_built vd mode format_version xs TI Hk)
    as (b & c & pre & meta & b' & x & rows & rs & Hb & Hf & Hx & Hr & -> & Sh & Hc & Hd & Hids).
  assert (zlen xs < 2 ^ 31) as Hz.
  { destruct (blocks_le_keys xs (ti_blocks _ _ TI)) as [Hle Hint]. pose proof (keys_size _ Hint). lia. }
  destruct (Hids target (proj1 Ht)) as (ids & Hg & Hsort & Hrange & Hall).
  destruct (prefix_seek_ok vd mode xs rows (negb (seperator_is_key_plus_seq_ (primary_index_builder_ b))) rs g target ids x)
    as (s & Hs & Hres); try done. rewrite negb_involutive in Hs. by eexists b, _, pre, meta, b', x, s.
Qed.

Module HashExample.
(** Prefixes of one byte; the keys of [b] are in two blocks. *)
Definition blocks : list table_block :=
  [MkTableBlock [mk_ikey (IndexExample.bs "ab") (9 * 256 + 1); mk_ikey (IndexExample.bs "ba") (4 * 256 + 1)] (MkHandle 0 100);
   MkTableBlock [mk_ikey (IndexExample.bs "bb") (2 * 256 + 1); mk_ikey (IndexExample.bs "da") (5 * 256 + 1)] (MkHandle 105 80);
   MkTableBlock [mk_ikey (IndexExample.bs "fa") (6 * 256 + 1)] (MkHandle 190 50)].

Lemma hash_blocks_ok : @table_input BytewiseComparator true blocks.
Proof.
  split.
  - repeat constructor; try (by vm_compute).
  - unfold ordered. repeat constructor; by vm_compute.
  - by vm_compute.
  - intros _ i a b Ha Hb. destruct i as [|[|[|i]]]; cbn in Ha, Hb; try done; injection Ha as <-; injection Hb as <-; by vm_compute.
Qed.
End HashExample.

Lemma hash_index_leads_to_block_witness : exists b c pre meta b' x s,
  @hib_add_blocks BytewiseComparator HashExample.blocks
    (new_HashIndexBuilder (@internal_Transform (CappedPrefixTransform 1)) 1 5 true kShortenSeparators) = Ret tt b /\
  hib_Finish b = Ret (c, pre, meta) b' /\
  prefix_Create (@internal_Transform (CappedPrefixTransform 1)) pre meta tt = Ret (StOK, Some x) tt /\
  @index_Seek BytewiseComparator (mk_ikey (IndexExample.bs "bb") (2 * 256 + 1))
    (NewIndexIterator (new_Block c) kDisableGlobalSequenceNumber None false false
      (seperator_is_key_plus_seq_ (primary_index_builder_ b)) false (Some x)) = Ret tt s /\
  index_view s = Some (MkIndexValue (MkHandle 105 80) []).
Proof.
  destruct (hash_index_leads_to_block (prefixes := capped_laws 1 ltac:(lia)) true kShortenSeparators 5 HashExample.blocks
    kDisableGlobalSequenceNumber (mk_ikey (IndexExample.bs "bb") (2 * 256 + 1)))
    as (b & c & pre & meta & b' & x & s & Hb & Hf & Hx & Hs & Hres);
    [apply HashExample.hash_blocks_ok|by vm_compute|split; by vm_compute|].
  exists b, c, pre, meta, b', x, s. do 4 (split; [assumption|]).
  assert (mk_ikey (IndexExample.bs "bb") (2 * 256 + 1) ∈ [mk_ikey (IndexExample.bs "bb") (2 * 256 + 1);
    mk_ikey (IndexExample.bs "da") (5 * 256 + 1)]) as Hin by constructor.
  clear Hb Hf Hx Hs. destruct Hres as [(n & _ & Hv & Hbelow & Habove)|(_ & _ & Hnone)].
  - destruct n as [|[|n]]; [|exact Hv|]; exfalso.
    + by pose proof (Habove 1%nat _ _ ltac:(lia) eq_refl Hin).
    + by pose proof (Hbelow 1%nat _ _ ltac:(lia) eq_refl Hin).
  - exfalso. by pose proof (Hnone _ (keys_of_lookup HashExample.blocks 1 _ _ eq_refl Hin) eq_refl).
Defined.

Module NotFoundExample.
(** The prefixes [p] and [v] have the same bucket. *)
Definition blocks : list table_block :=
  [MkTableBlock [mk_ikey (IndexExample.bs "aa") (9 * 256 + 1)] (MkHandle 0 100);
   MkTableBlock [mk_ikey (IndexExample.bs "pa") (8 * 256 + 1)] (MkHandle 105 100);
   MkTableBlock [mk_ikey (IndexExample.bs "qa") (7 * 256 + 1)] (MkHandle 210 100);
   MkTableBlock [mk_ikey (IndexExample.bs "va") (6 * 256 + 1)] (MkHandle 315 100)].
Definition target : bytes := mk_ikey (IndexExample.bs "pz") (9 * 256 + 1).
End NotFoundExample.

(** The contract of [IndexBlockIter::SeekImpl] says that it must return the same
    result as a search in total order when the prefix of the target exists in the file.
    With two prefixes in one bucket it need not, as this table shows: it has a key with the prefix of
    the target (all such keys are below the target), [Seek] in total order is at the
    block behind, but [Seek] through the prefix index has status NotFound. *)
Example existing_prefix_not_found : exists b c pre meta b' x s s',
  @hib_add_blocks BytewiseComparator NotFoundExample.blocks
    (new_HashIndexBuilder (@internal_Transform (CappedPrefixTransform 1)) 1 5 true kNoShortening) = Ret tt b /\
  hib_Finish b = Ret (c, pre, meta) b' /\
  prefix_Create (@internal_Transform (CappedPrefixTransform 1)) pre meta tt = Ret (StOK, Some x) tt /\
  @index_Seek BytewiseComparator NotFoundExample.target
    (NewIndexIterator (new_Block c) kDisableGlobalSequenceNumber None false false
      (seperator_is_key_plus_seq_ (primary_index_builder_ b)) false (Some x)) = Ret tt s /\
  it_status_ (index_iter s) = StNotFound /\ index_view s = None /\
  @index_Seek BytewiseComparator NotFoundExample.target
    (NewIndexIterator (new_Block c) kDisableGlobalSequenceNumber None true false
      (seperator_is_key_plus_seq_ (primary_index_builder_ b)) false (Some x)) = Ret tt s' /\
  it_status_ (index_iter s') = StOK /\ index_view s' = Some (MkIndexValue (MkHandle 210 100) []) /\
  exists k, k ∈ keys_of NotFoundExample.blocks /\
    @key_prefix (CappedPrefixTransform 1) k = @key_prefix (CappedPrefixTransform 1) NotFoundExample.target.
Proof.
  do 8 eexists. do 9 (split; [vm_compute; reflexivity|]). exists (mk_ikey (IndexExample.bs "pa") (8 * 256 + 1)).
  split; [|by vm_compute]. eapply (keys_of_lookup _ 1); [reflexivity|constructor].
Qed.
