(* ===== verification/WriteBatch.v ===== *)
(** db/write_batch.cc, db/write_batch_internal.h, include/rocksdb/write_batch.h: a
    batch of updates in its serialized form, the unit that is written to the log
    and replayed from it.

    A batch is built here without per-key protection ([prot_info_] is null, the
    default of the constructors). *)
From S2P Require Import Prelude Bits Coding IoStatus DbFormat.
From stdpp Require Import base numbers list strings.
From Stdlib Require Import ZArith Lia.
Local Open Scope Z_scope.

(** ** Content flags *)

Definition DEFERRED : Z := 1.
Definition HAS_PUT : Z := 2.
Definition HAS_DELETE : Z := 4.
Definition HAS_SINGLE_DELETE : Z := 8.
Definition HAS_MERGE : Z := 16.
Definition HAS_BEGIN_PREPARE : Z := 32.
Definition HAS_END_PREPARE : Z := 64.
Definition HAS_COMMIT : Z := 128.
Definition HAS_ROLLBACK : Z := 256.
Definition HAS_DELETE_RANGE : Z := 512.
Definition HAS_BLOB_INDEX : Z := 1024.
Definition HAS_BEGIN_UNPREPARE : Z := 2048.

(** ** The batch *)

Record SavePoint := MkSavePoint { sp_size : Z; sp_count : Z; sp_content_flags : Z }.
Definition new_SavePoint : SavePoint := MkSavePoint 0 0 0.
(** [size], an [int] and flags, combined as [size_t]. *)
Definition is_cleared (p : SavePoint) : bool := Z.lor (Z.lor (sp_size p) (u64 (sp_count p))) (sp_content_flags p) =? 0.

Record WriteBatch := MkWriteBatch {
  rep_ : bytes; content_flags_ : Z; max_bytes_ : Z; save_points_ : option (list SavePoint); wal_term_point_ : SavePoint }.

Definition set_rep (r : bytes) (b : WriteBatch) : WriteBatch :=
  MkWriteBatch r (content_flags_ b) (max_bytes_ b) (save_points_ b) (wal_term_point_ b).
Definition set_content_flags (f : Z) (b : WriteBatch) : WriteBatch :=
  MkWriteBatch (rep_ b) f (max_bytes_ b) (save_points_ b) (wal_term_point_ b).
Definition set_save_points (s : option (list SavePoint)) (b : WriteBatch) : WriteBatch :=
  MkWriteBatch (rep_ b) (content_flags_ b) (max_bytes_ b) s (wal_term_point_ b).
Definition set_wal_term_point (p : SavePoint) (b : WriteBatch) : WriteBatch :=
  MkWriteBatch (rep_ b) (content_flags_ b) (max_bytes_ b) (save_points_ b) p.
Definition SetMaxBytes (n : Z) (b : WriteBatch) : WriteBatch :=
  MkWriteBatch (rep_ b) (content_flags_ b) n (save_points_ b) (wal_term_point_ b).

Definition kHeader : Z := 12.

Definition new_WriteBatch (max_bytes : Z) : WriteBatch :=
  MkWriteBatch (replicate (Z.to_nat kHeader) Byte.x00) 0 max_bytes None new_SavePoint.
Definition WriteBatch_of (rep : bytes) : WriteBatch := MkWriteBatch rep DEFERRED 0 None new_SavePoint.

Definition GetDataSize (b : WriteBatch) : Z := zlen (rep_ b).

(** [EncodeFixed32(&rep_[off], n)] and the like: outside of the string it is
    undefined. *)
Definition poke (off : Z) (data : bytes) : prog WriteBatch unit :=
  r ← gets rep_;
  if in_block r off (zlen data) then modify (set_rep (overwrite r off data)) else undefined.
Definition peek (off n : Z) (r : bytes) : option bytes :=
  if in_block r off n then Some (sub r off n) else None.

Definition Count (b : WriteBatch) : option Z := DecodeFixed32 true <$> peek 8 4 (rep_ b).
Definition SetCount (n : Z) : prog WriteBatch unit := poke 8 (EncodeFixed32 true (u32 n)).
Definition Sequence (b : WriteBatch) : option Z := DecodeFixed64 true <$> peek 0 8 (rep_ b).
Definition SetSequence (seq : Z) : prog WriteBatch unit := poke 0 (EncodeFixed64 true seq).
Definition Contents (b : WriteBatch) : bytes := rep_ b.

Definition get_count : prog WriteBatch Z := b ← gets id; the (Count b).

Definition wb_Clear : prog WriteBatch unit :=
  modify (set_rep (replicate (Z.to_nat kHeader) Byte.x00));;
  modify (set_content_flags 0);;
  modify (fun b => set_save_points ((fun _ => []) <$> save_points_ b) b);;
  modify (set_wal_term_point new_SavePoint).

(** The third argument of the constructor of [SavePoint] is an [int]. *)
Definition here : prog WriteBatch SavePoint :=
  size ← gets GetDataSize;
  count ← get_count;
  flags ← gets content_flags_;
  mret (MkSavePoint size (i32 count) flags).

Definition MarkWalTerminationPoint : prog WriteBatch unit :=
  p ← here;
  modify (set_wal_term_point p).

(** ** Updates *)

(** [LocalSavePoint]: what is behind it is undone when the batch got too
    large. *)
Definition string_resize (n : Z) (r : bytes) : bytes := take (Z.to_nat n) r ++ replicate (Z.to_nat n - length r) Byte.x00.

Definition commit (savepoint : SavePoint) : prog WriteBatch Status :=
  b ← gets id;
  if negb (max_bytes_ b =? 0) && (max_bytes_ b <? zlen (rep_ b)) then
    modify (set_rep (string_resize (sp_size savepoint) (rep_ b)));;
    SetCount (sp_count savepoint);;
    modify (set_content_flags (sp_content_flags savepoint));;
    mret StMemoryLimit
  else mret StOK.

Definition local_save_point (m : prog WriteBatch unit) : prog WriteBatch Status :=
  savepoint ← here;
  m;;
  commit savepoint.

Definition push_back (data : bytes) : prog WriteBatch unit := modify (fun b => set_rep (rep_ b ++ data) b).
Definition increment_count : prog WriteBatch unit := n ← get_count; SetCount (n + 1).
Definition add_flags (f : Z) : prog WriteBatch unit := modify (fun b => set_content_flags (Z.lor (content_flags_ b) f) b).

(** The tag of a record, with the column family unless it is the default one. *)
Definition push_tag (column_family_id tag cf_tag : Z) : prog WriteBatch unit :=
  if column_family_id =? 0 then push_back [byte_of tag]
  else push_back [byte_of cf_tag];; modify (fun b => set_rep (PutVarint32 (rep_ b) column_family_id) b).

Definition push_slice (s : bytes) : prog WriteBatch unit := modify (fun b => set_rep (PutLengthPrefixedSlice (rep_ b) s) b).
Definition push_parts (ps : list bytes) : prog WriteBatch unit := modify (fun b => set_rep (PutLengthPrefixedSliceParts (rep_ b) 0 ps) b).

Definition kMaxUint32 : Z := 2 ^ 32 - 1.

Definition too_large (what : string) : Status := StInvalidArgument (what +:+ " is too large").

Definition wb_Put (cf : Z) (key value : bytes) : prog WriteBatch Status :=
  if kMaxUint32 <? zlen key then mret (too_large "key") else
  if kMaxUint32 <? zlen value then mret (too_large "value") else
  local_save_point (
    increment_count;;
    push_tag cf kTypeValue kTypeColumnFamilyValue;;
    push_slice key;;
    push_slice value;;
    add_flags HAS_PUT).

Definition total_length (ps : list bytes) : Z := foldl (fun t (p : bytes) => u64 (t + zlen p)) 0 ps.

Definition CheckSlicePartsLength (key value : list bytes) : Status :=
  if kMaxUint32 <=? total_length key then too_large "key" else
  if kMaxUint32 <=? total_length value then too_large "value" else StOK.

Definition wb_Put_parts (cf : Z) (key value : list bytes) : prog WriteBatch Status :=
  let s := CheckSlicePartsLength key value in
  if negb (st_ok s) then mret s else
  local_save_point (
    increment_count;;
    push_tag cf kTypeValue kTypeColumnFamilyValue;;
    push_parts key;;
    push_parts value;;
    add_flags HAS_PUT).

Definition InsertNoop : prog WriteBatch Status := push_back [byte_of kTypeNoop];; mret StOK.

Definition MarkEndPrepare (xid : bytes) (write_after_commit unprepared_batch : bool) : prog WriteBatch Status :=
  modify (fun b => set_save_points ((fun _ => []) <$> save_points_ b) b);;
  poke 12 [byte_of (if write_after_commit then kTypeBeginPrepareXID
                    else if unprepared_batch then kTypeBeginUnprepareXID else kTypeBeginPersistedPrepareXID)];;
  push_back [byte_of kTypeEndPrepareXID];;
  push_slice xid;;
  add_flags (Z.lor HAS_END_PREPARE HAS_BEGIN_PREPARE);;
  when unprepared_batch (add_flags HAS_BEGIN_UNPREPARE);;
  mret StOK.

Definition MarkCommit (xid : bytes) : prog WriteBatch Status :=
  push_back [byte_of kTypeCommitXID];;
  push_slice xid;;
  add_flags HAS_COMMIT;;
  mret StOK.

Definition MarkRollback (xid : bytes) : prog WriteBatch Status :=
  push_back [byte_of kTypeRollbackXID];;
  push_slice xid;;
  add_flags HAS_ROLLBACK;;
  mret StOK.

Definition wb_Delete (cf : Z) (key : bytes) : prog WriteBatch Status :=
  local_save_point (
    increment_count;;
    push_tag cf kTypeDeletion kTypeColumnFamilyDeletion;;
    push_slice key;;
    add_flags HAS_DELETE).

Definition wb_Delete_parts (cf : Z) (key : list bytes) : prog WriteBatch Status :=
  local_save_point (
    increment_count;;
    push_tag cf kTypeDeletion kTypeColumnFamilyDeletion;;
    push_parts key;;
    add_flags HAS_DELETE).

Definition wb_SingleDelete (cf : Z) (key : bytes) : prog WriteBatch Status :=
  local_save_point (
    increment_count;;
    push_tag cf kTypeSingleDeletion kTypeColumnFamilySingleDeletion;;
    push_slice key;;
    add_flags HAS_SINGLE_DELETE).

Definition wb_SingleDelete_parts (cf : Z) (key : list bytes) : prog WriteBatch Status :=
  local_save_point (
    increment_count;;
    push_tag cf kTypeSingleDeletion kTypeColumnFamilySingleDeletion;;
    push_parts key;;
    add_flags HAS_SINGLE_DELETE).

Definition wb_DeleteRange (cf : Z) (begin_key end_key : bytes) : prog WriteBatch Status :=
  local_save_point (
    increment_count;;
    push_tag cf kTypeRangeDeletion kTypeColumnFamilyRangeDeletion;;
    push_slice begin_key;;
    push_slice end_key;;
    add_flags HAS_DELETE_RANGE).

Definition wb_DeleteRange_parts (cf : Z) (begin_key end_key : list bytes) : prog WriteBatch Status :=
  local_save_point (
    increment_count;;
    push_tag cf kTypeRangeDeletion kTypeColumnFamilyRangeDeletion;;
    push_parts begin_key;;
    push_parts end_key;;
    add_flags HAS_DELETE_RANGE).

Definition wb_Merge (cf : Z) (key value : bytes) : prog WriteBatch Status :=
  if kMaxUint32 <? zlen key then mret (too_large "key") else
  if kMaxUint32 <? zlen value then mret (too_large "value") else
  local_save_point (
    increment_count;;
    push_tag cf kTypeMerge kTypeColumnFamilyMerge;;
    push_slice key;;
    push_slice value;;
    add_flags HAS_MERGE).

Definition wb_Merge_parts (cf : Z) (key value : list bytes) : prog WriteBatch Status :=
  let s := CheckSlicePartsLength key value in
  if negb (st_ok s) then mret s else
  local_save_point (
    increment_count;;
    push_tag cf kTypeMerge kTypeColumnFamilyMerge;;
    push_parts key;;
    push_parts value;;
    add_flags HAS_MERGE).

Definition PutBlobIndex (cf : Z) (key value : bytes) : prog WriteBatch Status :=
  local_save_point (
    increment_count;;
    push_tag cf kTypeBlobIndex kTypeColumnFamilyBlobIndex;;
    push_slice key;;
    push_slice value;;
    add_flags HAS_BLOB_INDEX).

Definition PutLogData (blob : bytes) : prog WriteBatch Status :=
  local_save_point (push_back [byte_of kTypeLogData];; push_slice blob).

(** ** Save points *)

Definition SetSavePoint : prog WriteBatch unit :=
  p ← here;
  modify (fun b => set_save_points (Some (p :: default [] (save_points_ b))) b).

Definition RollbackToSavePoint : prog WriteBatch Status :=
  stack ← gets (fun b => default [] (save_points_ b));
  match stack with
  | [] => mret StNotFound
  | savepoint :: stack' =>
    modify (set_save_points (Some stack'));;
    b ← gets id;
    if sp_size savepoint =? zlen (rep_ b) then mret StOK else
    if sp_size savepoint =? 0 then wb_Clear;; mret StOK else
    modify (set_rep (string_resize (sp_size savepoint) (rep_ b)));;
    SetCount (sp_count savepoint);;
    modify (set_content_flags (sp_content_flags savepoint));;
    mret StOK
  end.

Definition PopSavePoint : prog WriteBatch Status :=
  stack ← gets (fun b => default [] (save_points_ b));
  match stack with
  | [] => mret StNotFound
  | _ :: stack' => modify (set_save_points (Some stack'));; mret StOK
  end.

(** ** Reading the records *)

(** The variables a record is read into; those a record does not have keep the
    values of an earlier one. *)
Record parsed := MkParsed { p_tag : Z; p_cf : Z; p_key : bytes; p_value : bytes; p_blob : bytes; p_xid : bytes }.

Definition read_cf (cf_record : bool) (input : bytes) : option (Z * bytes) :=
  if cf_record then GetVarint32 input else Some (0, input).

Definition read_key (cf_record : bool) (msg : string) (tag : Z) (old : parsed) (input : bytes) : Status * parsed * bytes :=
  match '(cf, input) ← read_cf cf_record input; '(key, input) ← GetLengthPrefixedSlice input; Some (cf, key, input) with
  | Some (cf, key, input) => (StOK, MkParsed tag cf key (p_value old) (p_blob old) (p_xid old), input)
  | None => (StCorruption msg, old, input)
  end.

Definition read_key_value (cf_record : bool) (msg : string) (tag : Z) (old : parsed) (input : bytes) : Status * parsed * bytes :=
  match '(cf, input) ← read_cf cf_record input; '(key, input) ← GetLengthPrefixedSlice input;
        '(value, input) ← GetLengthPrefixedSlice input; Some (cf, key, value, input) with
  | Some (cf, key, value, input) => (StOK, MkParsed tag cf key value (p_blob old) (p_xid old), input)
  | None => (StCorruption msg, old, input)
  end.

Definition read_blob (msg : string) (tag : Z) (old : parsed) (input : bytes) : Status * parsed * bytes :=
  match GetLengthPrefixedSlice input with
  | Some (blob, input) => (StOK, MkParsed tag 0 (p_key old) (p_value old) blob (p_xid old), input)
  | None => (StCorruption msg, old, input)
  end.

Definition read_xid (msg : string) (tag : Z) (old : parsed) (input : bytes) : Status * parsed * bytes :=
  match GetLengthPrefixedSlice input with
  | Some (xid, input) => (StOK, MkParsed tag 0 (p_key old) (p_value old) (p_blob old) xid, input)
  | None => (StCorruption msg, old, input)
  end.

(** After a failure the callers do not look at the record. *)
Definition ReadRecordFromWriteBatch (old : parsed) (input : bytes) : option (Status * parsed * bytes) :=
  match input with
  | [] => None
  | c :: input =>
    let tag := byte_val c in
    Some (
      if (tag =? kTypeColumnFamilyValue) || (tag =? kTypeValue) then
        read_key_value (tag =? kTypeColumnFamilyValue) "bad WriteBatch Put" tag old input
      else if (tag =? kTypeColumnFamilyDeletion) || (tag =? kTypeColumnFamilySingleDeletion) ||
              (tag =? kTypeDeletion) || (tag =? kTypeSingleDeletion) then
        read_key ((tag =? kTypeColumnFamilyDeletion) || (tag =? kTypeColumnFamilySingleDeletion))
          "bad WriteBatch Delete" tag old input
      else if (tag =? kTypeColumnFamilyRangeDeletion) || (tag =? kTypeRangeDeletion) then
        read_key_value (tag =? kTypeColumnFamilyRangeDeletion) "bad WriteBatch DeleteRange" tag old input
      else if (tag =? kTypeColumnFamilyMerge) || (tag =? kTypeMerge) then
        read_key_value (tag =? kTypeColumnFamilyMerge) "bad WriteBatch Merge" tag old input
      else if (tag =? kTypeColumnFamilyBlobIndex) || (tag =? kTypeBlobIndex) then
        read_key_value (tag =? kTypeColumnFamilyBlobIndex) "bad WriteBatch BlobIndex" tag old input
      else if tag =? kTypeLogData then read_blob "bad WriteBatch Blob" tag old input
      else if (tag =? kTypeNoop) || (tag =? kTypeBeginPrepareXID) || (tag =? kTypeBeginPersistedPrepareXID) ||
              (tag =? kTypeBeginUnprepareXID) then
        (StOK, MkParsed tag 0 (p_key old) (p_value old) (p_blob old) (p_xid old), input)
      else if tag =? kTypeEndPrepareXID then read_xid "bad EndPrepare XID" tag old input
      else if tag =? kTypeCommitXID then read_xid "bad Commit XID" tag old input
      else if tag =? kTypeRollbackXID then read_xid "bad Rollback XID" tag old input
      else (StCorruption "unknown WriteBatch tag", old, input))
  end.

(** The key of an entry. *)
Definition ReadKeyFromWriteBatchEntry (input : bytes) (cf_record : bool) : option (bytes * bytes) :=
  '(_, input) ← read_cf cf_record (drop 1 input);
  GetLengthPrefixedSlice input.

(** ** Handlers *)

Record Handler (S : Type) := MkHandler {
  h_PutCF : Z -> bytes -> bytes -> prog S Status;
  h_DeleteCF : Z -> bytes -> prog S Status;
  h_SingleDeleteCF : Z -> bytes -> prog S Status;
  h_DeleteRangeCF : Z -> bytes -> bytes -> prog S Status;
  h_MergeCF : Z -> bytes -> bytes -> prog S Status;
  h_PutBlobIndexCF : Z -> bytes -> bytes -> prog S Status;
  h_LogData : bytes -> prog S unit;
  h_MarkBeginPrepare : bool -> prog S Status;
  h_MarkEndPrepare : bytes -> prog S Status;
  h_MarkNoop : bool -> prog S Status;
  h_MarkRollback : bytes -> prog S Status;
  h_MarkCommit : bytes -> prog S Status;
  h_Continue : prog S bool;
  h_WriteAfterCommit : bool;
  h_WriteBeforePrepare : bool }.
Arguments MkHandler {S}.
Arguments h_PutCF {S}.
Arguments h_DeleteCF {S}.
Arguments h_SingleDeleteCF {S}.
Arguments h_DeleteRangeCF {S}.
Arguments h_MergeCF {S}.
Arguments h_PutBlobIndexCF {S}.
Arguments h_LogData {S}.
Arguments h_MarkBeginPrepare {S}.
Arguments h_MarkEndPrepare {S}.
Arguments h_MarkNoop {S}.
Arguments h_MarkRollback {S}.
Arguments h_MarkCommit {S}.
Arguments h_Continue {S}.
Arguments h_WriteAfterCommit {S}.
Arguments h_WriteBeforePrepare {S}.

Definition not_defined (what : string) {S} : prog S Status := mret (StInvalidArgument what).

(** The classifier behind [HasPut] and the like: what it does not override is
    the default of the base class. *)
Definition BatchContentClassifier : Handler Z :=
  let has f : prog Z Status := modify (fun flags => Z.lor flags f);; mret StOK in
  MkHandler (fun _ _ _ => has HAS_PUT) (fun _ _ => has HAS_DELETE) (fun _ _ => has HAS_SINGLE_DELETE)
    (fun _ _ _ => has HAS_DELETE_RANGE) (fun _ _ _ => has HAS_MERGE) (fun _ _ _ => has HAS_BLOB_INDEX) (fun _ => mret tt)
    (fun unprepare => if (unprepare : bool) then has HAS_BEGIN_PREPARE;; has HAS_BEGIN_UNPREPARE else has HAS_BEGIN_PREPARE)
    (fun _ => has HAS_END_PREPARE)
    (fun _ => not_defined "MarkNoop() handler not defined.")
    (fun _ => has HAS_ROLLBACK) (fun _ => has HAS_COMMIT) (mret true) true false.

(** ** Iteration *)

Section Iterate.
Context {S : Type} (handler : Handler S).

(** [if (LIKELY(s.ok())) { empty_batch = false; found++; }] *)
Definition counted (m : prog S Status) (empty_batch : bool) (found : Z) : prog S (option (Status * bool * Z)) :=
  s ← m;
  mret (Some (if st_ok s then (s, false, u32 (found + 1)) else (s, empty_batch, found))).

(** The status after a marker that only some write policies write, and what it
    says. *)
Definition wrong_policy (marker mode : string) : string :=
  marker +:+ " txn tag when " +:+ mode +:+ " If it is not due to corruption, the WAL must be emptied before changing the WritePolicy.".
Definition policy (unless : bool) (msg : string) (s : Status) : Status := if unless then StNotSupported msg else s.

(** [None]: the tag is not known. *)
Definition dispatch_record (r : parsed) (empty_batch : bool) (found : Z) : prog S (option (Status * bool * Z)) :=
  let tag := p_tag r in
  let cf := p_cf r in
  let key := p_key r in
  let value := p_value r in
  if (tag =? kTypeColumnFamilyValue) || (tag =? kTypeValue) then counted (h_PutCF handler cf key value) empty_batch found
  else if (tag =? kTypeColumnFamilyDeletion) || (tag =? kTypeDeletion) then counted (h_DeleteCF handler cf key) empty_batch found
  else if (tag =? kTypeColumnFamilySingleDeletion) || (tag =? kTypeSingleDeletion) then
    counted (h_SingleDeleteCF handler cf key) empty_batch found
  else if (tag =? kTypeColumnFamilyRangeDeletion) || (tag =? kTypeRangeDeletion) then
    counted (h_DeleteRangeCF handler cf key value) empty_batch found
  else if (tag =? kTypeColumnFamilyMerge) || (tag =? kTypeMerge) then counted (h_MergeCF handler cf key value) empty_batch found
  else if (tag =? kTypeColumnFamilyBlobIndex) || (tag =? kTypeBlobIndex) then
    s ← h_PutBlobIndexCF handler cf key value;
    mret (Some (s, empty_batch, if st_ok s then u32 (found + 1) else found))
  else if tag =? kTypeLogData then
    h_LogData handler (p_blob r);;
    mret (Some (StOK, false, found))
  else if tag =? kTypeBeginPrepareXID then
    s ← h_MarkBeginPrepare handler false;
    let s := policy (negb (h_WriteAfterCommit handler)) (wrong_policy "WriteCommitted" "write_after_commit_ is disabled (in WritePrepared/WriteUnprepared mode).") s in
    let s := policy (h_WriteBeforePrepare handler) (wrong_policy "WriteCommitted" "write_before_prepare_ is enabled (in WriteUnprepared mode).") s in
    mret (Some (s, false, found))
  else if tag =? kTypeBeginPersistedPrepareXID then
    s ← h_MarkBeginPrepare handler false;
    let s := policy (h_WriteAfterCommit handler) (wrong_policy "WritePrepared/WriteUnprepared" "write_after_commit_ is enabled (in default WriteCommitted mode).") s in
    mret (Some (s, false, found))
  else if tag =? kTypeBeginUnprepareXID then
    s ← h_MarkBeginPrepare handler true;
    let s := policy (h_WriteAfterCommit handler) (wrong_policy "WriteUnprepared" "write_after_commit_ is enabled (in default WriteCommitted mode).") s in
    let s := policy (negb (h_WriteBeforePrepare handler)) (wrong_policy "WriteUnprepared" "write_before_prepare_ is disabled (in WriteCommitted/WritePrepared mode).") s in
    mret (Some (s, false, found))
  else if tag =? kTypeEndPrepareXID then s ← h_MarkEndPrepare handler (p_xid r); mret (Some (s, true, found))
  else if tag =? kTypeCommitXID then s ← h_MarkCommit handler (p_xid r); mret (Some (s, true, found))
  else if tag =? kTypeRollbackXID then s ← h_MarkRollback handler (p_xid r); mret (Some (s, true, found))
  else if tag =? kTypeNoop then s ← h_MarkNoop handler empty_batch; mret (Some (s, true, found))
  else mret None.

(** The local variables of the loop. *)
Record batch_cursor := MkCursor {
  c_input : bytes; c_status : Status; c_record : parsed; c_try_again : bool; c_empty_batch : bool; c_found : Z }.

(** [inl]: an early return.  [inr]: the loop was left with this status, whether
    the handler wanted to go on, and the number of updates found. *)
Fixpoint iterate_loop (fuel : nat) (c : batch_cursor) : prog S (Status + Status * bool * Z) :=
  match fuel with
  | O => hang
  | Datatypes.S fuel' =>
    if st_ok (c_status c) && (0 <? zlen (c_input c)) || IsTryAgain (c_status c) then
      handler_continue ← h_Continue handler;
      if negb handler_continue then mret (inr (c_status c, false, c_found c)) else
      let go (r : parsed) (input : bytes) (try_again : bool) :=
        o ← dispatch_record r (c_empty_batch c) (c_found c);
        match o with
        | None => mret (inl (StCorruption "unknown WriteBatch tag"))
        | Some (s, empty_batch, found) => iterate_loop fuel' (MkCursor input s r try_again empty_batch found)
        end in
      if negb (IsTryAgain (c_status c)) then
        '(s, r, input) ← the (ReadRecordFromWriteBatch (c_record c) (c_input c));
        if negb (st_ok s) then mret (inl s) else go r input false
      else if c_try_again c then
        mret (inl (StCorruption "two consecutive TryAgain in WriteBatch handler; this is either a software bug or data corruption."))
      else go (c_record c) (c_input c) true
    else mret (inr (c_status c, true, c_found c))
  end.

Definition new_cursor (input : bytes) : batch_cursor := MkCursor input StOK (MkParsed 0 0 [] [] [] []) false true 0.

(** Every record is looked at at most twice. *)
Definition Iterate_range (wb : WriteBatch) (begin_ end_ : Z) : prog S Status :=
  let size := zlen (rep_ wb) in
  if (size <? begin_) || (size <? end_) || (end_ <? begin_) then mret (StCorruption "Invalid start/end bounds for Iterate") else
  let input := sub (rep_ wb) begin_ (end_ - begin_) in
  let whole_batch := (begin_ =? kHeader) && (end_ =? size) in
  o ← iterate_loop (2 * length input + 2) (new_cursor input);
  match o with
  | inl s => mret s
  | inr (s, handler_continue, found) =>
    if negb (st_ok s) then mret s else
    if handler_continue && whole_batch then
      count ← the (Count wb);
      mret (if negb (found =? count) then StCorruption "WriteBatch has wrong count" else StOK)
    else mret StOK
  end.

Definition Iterate (wb : WriteBatch) : prog S Status :=
  if zlen (rep_ wb) <? kHeader then mret (StCorruption "malformed WriteBatch (too small)") else
  Iterate_range wb kHeader (zlen (rep_ wb)).
End Iterate.

(** ** What a batch contains *)

Definition ComputeContentFlags : prog WriteBatch Z := fun b =>
  if negb (Z.land (content_flags_ b) DEFERRED =? 0) then
    match Iterate BatchContentClassifier b 0 with
    | Ret _ flags => Ret flags (set_content_flags flags b)
    | Exit _ => Exit b
    | UB => UB
    | Hang => Hang
    end
  else Ret (content_flags_ b) b.

Definition has (f : Z) : prog WriteBatch bool := flags ← ComputeContentFlags; mret (negb (Z.land flags f =? 0)).
Definition HasPut : prog WriteBatch bool := has HAS_PUT.
Definition HasDelete : prog WriteBatch bool := has HAS_DELETE.
Definition HasSingleDelete : prog WriteBatch bool := has HAS_SINGLE_DELETE.
Definition HasDeleteRange : prog WriteBatch bool := has HAS_DELETE_RANGE.
Definition HasMerge : prog WriteBatch bool := has HAS_MERGE.
Definition HasBeginPrepare : prog WriteBatch bool := has HAS_BEGIN_PREPARE.
Definition HasEndPrepare : prog WriteBatch bool := has HAS_END_PREPARE.
Definition HasCommit : prog WriteBatch bool := has HAS_COMMIT.
Definition HasRollback : prog WriteBatch bool := has HAS_ROLLBACK.

(** ** Whole batches *)

Definition SetContents (contents : bytes) : prog WriteBatch Status :=
  modify (set_rep contents);;
  modify (set_content_flags DEFERRED);;
  mret StOK.

(** The records of [src], or those before its WAL termination point, go to the
    end of this batch. *)
Definition wb_Append (src : WriteBatch) (wal_only : bool) : prog WriteBatch Status :=
  let batch_end := wal_term_point_ src in
  '(src_len, src_count, src_flags) ←
    (if wal_only && negb (is_cleared batch_end) then
       mret (u64 (sp_size batch_end - kHeader), sp_count batch_end, sp_content_flags batch_end)
     else
       n ← the (Count src);
       mret (u64 (zlen (rep_ src) - kHeader), i32 n, content_flags_ src));
  n ← get_count;
  SetCount (n + src_count);;
  data ← the (peek kHeader src_len (rep_ src));
  push_back data;;
  add_flags src_flags;;
  mret StOK.

Definition AppendedByteSize (leftByteSize rightByteSize : Z) : Z :=
  if (leftByteSize =? 0) || (rightByteSize =? 0) then u64 (leftByteSize + rightByteSize)
  else u64 (leftByteSize + rightByteSize - kHeader).
