(* ===== verification/WriteBatchSpec.v ===== *)
(** Write batches as lists of updates: the serialized form of an update, what the
    operations append, and what [Iterate] calls. *)
From S2P Require Import Prelude Bits Coding IoStatus AlignedBuffer DbFormat WriteBatch.
From stdpp Require Import base numbers list strings.
From Stdlib Require Import ZArith Lia.
Local Open Scope Z_scope.

(** ** Updates *)

(** The write policy under which a transaction was prepared. *)
Inductive prepare_mark := WriteCommitted | WritePrepared | WriteUnprepared.

Inductive update :=
| UPut (cf : Z) (key value : bytes)
| UDelete (cf : Z) (key : bytes)
| USingleDelete (cf : Z) (key : bytes)
| UDeleteRange (cf : Z) (begin_key end_key : bytes)
| UMerge (cf : Z) (key value : bytes)
| UBlobIndex (cf : Z) (key value : bytes)
| ULogData (blob : bytes)
| UNoop
| UBeginPrepare (m : prepare_mark)
| UEndPrepare (xid : bytes)
| UCommit (xid : bytes)
| URollback (xid : bytes).

Definition slice_of (s : bytes) : bytes := PutLengthPrefixedSlice [] s.
Definition tag_of (cf tag cf_tag : Z) : bytes := if cf =? 0 then [byte_of tag] else byte_of cf_tag :: EncodeVarint32 cf.

Definition prepare_tag (m : prepare_mark) : Z :=
  match m with
  | WriteCommitted => kTypeBeginPrepareXID
  | WritePrepared => kTypeBeginPersistedPrepareXID
  | WriteUnprepared => kTypeBeginUnprepareXID
  end.

(** The record of an update. *)
Definition encoded (u : update) : bytes :=
  match u with
  | UPut cf k v => tag_of cf kTypeValue kTypeColumnFamilyValue ++ slice_of k ++ slice_of v
  | UDelete cf k => tag_of cf kTypeDeletion kTypeColumnFamilyDeletion ++ slice_of k
  | USingleDelete cf k => tag_of cf kTypeSingleDeletion kTypeColumnFamilySingleDeletion ++ slice_of k
  | UDeleteRange cf b e => tag_of cf kTypeRangeDeletion kTypeColumnFamilyRangeDeletion ++ slice_of b ++ slice_of e
  | UMerge cf k v => tag_of cf kTypeMerge kTypeColumnFamilyMerge ++ slice_of k ++ slice_of v
  | UBlobIndex cf k v => tag_of cf kTypeBlobIndex kTypeColumnFamilyBlobIndex ++ slice_of k ++ slice_of v
  | ULogData b => byte_of kTypeLogData :: slice_of b
  | UNoop => [byte_of kTypeNoop]
  | UBeginPrepare m => [byte_of (prepare_tag m)]
  | UEndPrepare x => byte_of kTypeEndPrepareXID :: slice_of x
  | UCommit x => byte_of kTypeCommitXID :: slice_of x
  | URollback x => byte_of kTypeRollbackXID :: slice_of x
  end.

Definition short (s : bytes) : Prop := zlen s < 2 ^ 32.
Definition family (cf : Z) : Prop := 0 <= cf < 2 ^ 32.

(** The format can represent the update. *)
Definition fits (u : update) : Prop :=
  match u with
  | UPut cf k v | UDeleteRange cf k v | UMerge cf k v | UBlobIndex cf k v => family cf /\ short k /\ short v
  | UDelete cf k | USingleDelete cf k => family cf /\ short k
  | ULogData x | UEndPrepare x | UCommit x | URollback x => short x
  | UNoop | UBeginPrepare _ => True
  end.

(** The update counts as an entry of the batch. *)
Definition is_entry (u : update) : bool :=
  match u with UPut _ _ _ | UDelete _ _ | USingleDelete _ _ | UDeleteRange _ _ _ | UMerge _ _ _ | UBlobIndex _ _ _ => true | _ => false end.

Definition entries (us : list update) : Z := Z.of_nat (length (filter (fun u => is_entry u = true) us)).

Definition flag_of (u : update) : Z :=
  match u with
  | UPut _ _ _ => HAS_PUT | UDelete _ _ => HAS_DELETE | USingleDelete _ _ => HAS_SINGLE_DELETE
  | UDeleteRange _ _ _ => HAS_DELETE_RANGE | UMerge _ _ _ => HAS_MERGE | UBlobIndex _ _ _ => HAS_BLOB_INDEX
  | ULogData _ | UNoop => 0
  | UBeginPrepare WriteUnprepared => Z.lor HAS_BEGIN_PREPARE HAS_BEGIN_UNPREPARE
  | UBeginPrepare _ => HAS_BEGIN_PREPARE
  | UEndPrepare _ => HAS_END_PREPARE | UCommit _ => HAS_COMMIT | URollback _ => HAS_ROLLBACK
  end.
Definition flags_of (us : list update) : Z := foldr (fun u f => Z.lor (flag_of u) f) 0 us.

(** ** Reading one record *)

(** What is read: fields the record does not have keep their old values. *)
Definition parsed_of (old : parsed) (u : update) : parsed :=
  let two cf t ct k v := MkParsed (if cf =? 0 then t else ct) cf k v (p_blob old) (p_xid old) in
  let one cf t ct k := MkParsed (if cf =? 0 then t else ct) cf k (p_value old) (p_blob old) (p_xid old) in
  let mark t x := MkParsed t 0 (p_key old) (p_value old) (p_blob old) x in
  match u with
  | UPut cf k v => two cf kTypeValue kTypeColumnFamilyValue k v
  | UDelete cf k => one cf kTypeDeletion kTypeColumnFamilyDeletion k
  | USingleDelete cf k => one cf kTypeSingleDeletion kTypeColumnFamilySingleDeletion k
  | UDeleteRange cf b e => two cf kTypeRangeDeletion kTypeColumnFamilyRangeDeletion b e
  | UMerge cf k v => two cf kTypeMerge kTypeColumnFamilyMerge k v
  | UBlobIndex cf k v => two cf kTypeBlobIndex kTypeColumnFamilyBlobIndex k v
  | ULogData b => MkParsed kTypeLogData 0 (p_key old) (p_value old) b (p_xid old)
  | UNoop => mark kTypeNoop (p_xid old)
  | UBeginPrepare m => mark (prepare_tag m) (p_xid old)
  | UEndPrepare x => mark kTypeEndPrepareXID x
  | UCommit x => mark kTypeCommitXID x
  | URollback x => mark kTypeRollbackXID x
  end.

Lemma read_slice s rest : short s -> GetLengthPrefixedSlice (slice_of s ++ rest) = Some (s, rest).
Proof. intros Hs. by apply GetLengthPrefixed_encoded. Qed.

Lemma read_family cf rest : family cf -> read_cf (negb (cf =? 0)) ((if cf =? 0 then [] else EncodeVarint32 cf) ++ rest) = Some (cf, rest).
Proof.
  intros Hcf. destruct (Z.eqb_spec cf 0) as [->|]; [done|]. cbn [negb read_cf].
  by rewrite GetVarint32_encoded by done.
Qed.

Lemma tag_of_cons cf t ct rest :
  tag_of cf t ct ++ rest = byte_of (if cf =? 0 then t else ct) :: (if cf =? 0 then [] else EncodeVarint32 cf) ++ rest.
Proof. unfold tag_of. by destruct (cf =? 0). Qed.

Lemma read_key_encoded cf msg tag old k rest : family cf -> short k ->
  read_key (negb (cf =? 0)) msg tag old ((if cf =? 0 then [] else EncodeVarint32 cf) ++ slice_of k ++ rest) =
  (StOK, MkParsed tag cf k (p_value old) (p_blob old) (p_xid old), rest).
Proof. intros Hcf Hk. unfold read_key. rewrite read_family by done. cbn -[GetLengthPrefixedSlice slice_of]. by rewrite read_slice. Qed.

Lemma read_key_value_encoded cf msg tag old k v rest : family cf -> short k -> short v ->
  read_key_value (negb (cf =? 0)) msg tag old ((if cf =? 0 then [] else EncodeVarint32 cf) ++ slice_of k ++ slice_of v ++ rest) =
  (StOK, MkParsed tag cf k v (p_blob old) (p_xid old), rest).
Proof. intros Hcf Hk Hv. unfold read_key_value. rewrite read_family by done. cbn -[GetLengthPrefixedSlice slice_of].
  rewrite read_slice by done. cbn -[GetLengthPrefixedSlice slice_of]. by rewrite read_slice. Qed.

(** A tag is read back; then the branch is known. *)
Ltac known_tag :=
  match goal with |- context [byte_val (byte_of ?t)] => change (byte_val (byte_of t)) with t end;
  cbn -[GetLengthPrefixedSlice read_key read_key_value read_blob read_xid EncodeVarint32 slice_of app].

Lemma ReadRecord_encoded old u rest : fits u ->
  ReadRecordFromWriteBatch old (encoded u ++ rest) = Some (StOK, parsed_of old u, rest).
Proof.
  destruct u as [cf k v|cf k|cf k|cf k v|cf k v|cf k v|x| |m|x|x|x]; cbn [fits encoded parsed_of]; intros Hf;
    [destruct Hf as (Hcf & Hk & Hv)|destruct Hf as (Hcf & Hk)|destruct Hf as (Hcf & Hk)|destruct Hf as (Hcf & Hk & Hv)..| | |destruct m| | |];
    rewrite <- ?app_assoc, ?tag_of_cons; cbn [app ReadRecordFromWriteBatch]; f_equal;
    try (pose proof (fun msg tag => read_key_value_encoded cf msg tag old k v rest Hcf Hk Hv) as Hread);
    try (pose proof (fun msg tag => read_key_encoded cf msg tag old k rest Hcf Hk) as Hread2);
    try destruct (cf =? 0) eqn:Ecf; known_tag; rewrite ?Hread, ?Hread2; unfold read_blob, read_xid; rewrite ?read_slice by done; try done.
Qed.

(** ** What a handler sees *)

Section Replay.
Context {S : Type} (handler : Handler S).

Definition entry_call (m : prog S Status) (empty_batch : bool) (found : Z) : prog S (Status * bool * Z) :=
  s ← m; mret (if st_ok s then (s, false, u32 (found + 1)) else (s, empty_batch, found)).

(** The call for one update: its status, whether the batch is empty so far, and
    the number of entries. *)
Definition call_update (u : update) (empty_batch : bool) (found : Z) : prog S (Status * bool * Z) :=
  match u with
  | UPut cf k v => entry_call (h_PutCF handler cf k v) empty_batch found
  | UDelete cf k => entry_call (h_DeleteCF handler cf k) empty_batch found
  | USingleDelete cf k => entry_call (h_SingleDeleteCF handler cf k) empty_batch found
  | UDeleteRange cf b e => entry_call (h_DeleteRangeCF handler cf b e) empty_batch found
  | UMerge cf k v => entry_call (h_MergeCF handler cf k v) empty_batch found
  | UBlobIndex cf k v => s ← h_PutBlobIndexCF handler cf k v; mret (s, empty_batch, if st_ok s then u32 (found + 1) else found)
  | ULogData b => h_LogData handler b;; mret (StOK, false, found)
  | UNoop => s ← h_MarkNoop handler empty_batch; mret (s, true, found)
  | UBeginPrepare WriteCommitted =>
    s ← h_MarkBeginPrepare handler false;
    mret (policy (h_WriteBeforePrepare handler) (wrong_policy "WriteCommitted" "write_before_prepare_ is enabled (in WriteUnprepared mode).")
            (policy (negb (h_WriteAfterCommit handler)) (wrong_policy "WriteCommitted" "write_after_commit_ is disabled (in WritePrepared/WriteUnprepared mode).") s), false, found)
  | UBeginPrepare WritePrepared =>
    s ← h_MarkBeginPrepare handler false;
    mret (policy (h_WriteAfterCommit handler) (wrong_policy "WritePrepared/WriteUnprepared" "write_after_commit_ is enabled (in default WriteCommitted mode).") s, false, found)
  | UBeginPrepare WriteUnprepared =>
    s ← h_MarkBeginPrepare handler true;
    mret (policy (negb (h_WriteBeforePrepare handler)) (wrong_policy "WriteUnprepared" "write_before_prepare_ is disabled (in WriteCommitted/WritePrepared mode).")
            (policy (h_WriteAfterCommit handler) (wrong_policy "WriteUnprepared" "write_after_commit_ is enabled (in default WriteCommitted mode).") s), false, found)
  | UEndPrepare x => s ← h_MarkEndPrepare handler x; mret (s, true, found)
  | UCommit x => s ← h_MarkCommit handler x; mret (s, true, found)
  | URollback x => s ← h_MarkRollback handler x; mret (s, true, found)
  end.

Lemma dispatch_update old u e f st :
  dispatch_record handler (parsed_of old u) e f st = (x ← call_update u e f; mret (Some x)) st.
Proof.
  destruct u as [cf k v|cf k|cf k|cf k v|cf k v|cf k v|x| |[]|x|x|x]; unfold dispatch_record; cbn [parsed_of p_tag p_cf p_key p_value p_blob p_xid];
    try destruct (cf =? 0); cbn; unfold counted, entry_call, mbind, prog_bind; by match goal with |- context [match ?m st with _ => _ end] => destruct (m st) end.
Qed.

(** The updates are handed over one by one.  [Continue] may stop it; an update
    the handler wants to see again is shown once more. *)
Fixpoint replay (us : list update) (empty_batch : bool) (found : Z) : prog S (Status + Status * bool * Z) :=
  match us with
  | [] => mret (inr (StOK, true, found))
  | u :: us =>
    let next s e f := if st_ok s then replay us e f else mret (inr (s, true, f)) in
    let continue (s : Status) f (m : prog S (Status + Status * bool * Z)) :=
      c ← h_Continue handler; if negb c then mret (inr (s, false, f)) else m in
    continue StOK found (
      '(s, e, f) ← call_update u empty_batch found;
      if IsTryAgain s then continue s f (
        '(s, e, f) ← call_update u e f;
        if IsTryAgain s then continue s f (mret (inl
          (StCorruption "two consecutive TryAgain in WriteBatch handler; this is either a software bug or data corruption.")))
        else next s e f)
      else next s e f)
  end.

Definition body (us : list update) : bytes := concat (encoded <$> us).

Lemma length_encoded u : (1 <= length (encoded u))%nat.
Proof.
  destruct u as [cf k v|cf k|cf k|cf k v|cf k v|cf k v|x| |m|x|x|x]; cbn [encoded]; unfold tag_of; try destruct (cf =? 0); cbn [app length]; lia.
Qed.

Lemma bind_same {A B} (m : prog S A) (f g : A -> prog S B) st : (forall a st', f a st' = g a st') -> (m ≫= f) st = (m ≫= g) st.
Proof. intros H. unfold mbind, prog_bind. by destruct (m st). Qed.

Lemma dispatch_next {B} old u e f (k : option (Status * bool * Z) -> prog S B) st :
  (dispatch_record handler (parsed_of old u) e f ≫= k) st = (x ← call_update u e f; k (Some x)) st.
Proof. unfold mbind at 1, prog_bind at 1. rewrite dispatch_update. unfold mbind, prog_bind. by destruct (call_update u e f st). Qed.

(** The loop after a status that is neither success nor a request for another
    try. *)
Lemma loop_done fuel c st : (0 < fuel)%nat -> st_ok (c_status c) = false \/ c_input c = [] -> IsTryAgain (c_status c) = false ->
  iterate_loop handler fuel c st = Ret (inr (c_status c, true, c_found c)) st.
Proof.
  intros Hf Hs Ht. destruct fuel as [|fuel]; [lia|]. cbn [iterate_loop]. rewrite Ht, orb_false_r.
  replace (_ && _) with false; [done|]. destruct Hs as [->|E]; [done|]. by rewrite E, andb_false_r.
Qed.

Lemma loop_record fuel old u rest try_again e f st : fits u ->
  iterate_loop handler (Datatypes.S fuel) (MkCursor (encoded u ++ rest) StOK old try_again e f) st =
  (c ← h_Continue handler; if negb c then mret (inr (StOK, false, f)) else
   '(s, e, f) ← call_update u e f; iterate_loop handler fuel (MkCursor rest s (parsed_of old u) false e f)) st.
Proof.
  intros Hu. cbn [iterate_loop c_status c_input c_record c_found c_empty_batch st_ok IsTryAgain].
  destruct (Z.ltb_spec 0 (zlen (encoded u ++ rest))) as [_|Hz].
  2: { pose proof (length_encoded u). unfold zlen in Hz. rewrite length_app in Hz. lia. }
  cbn [andb orb]. apply bind_same. intros [] st'; cbn [negb]; [|done].
  rewrite ReadRecord_encoded by done. unfold the. erewrite bind_Ret by reflexivity. cbn [st_ok negb].
  rewrite dispatch_next. apply bind_same. by intros [[s e'] f'] st2.
Qed.

Lemma loop_again fuel r rest u old e f st : r = parsed_of old u ->
  iterate_loop handler (Datatypes.S fuel) (MkCursor rest StTryAgain r false e f) st =
  (c ← h_Continue handler; if negb c then mret (inr (StTryAgain, false, f)) else
   '(s, e, f) ← call_update u e f; iterate_loop handler fuel (MkCursor rest s r true e f)) st.
Proof.
  intros ->. cbn [iterate_loop c_status c_input c_record c_found c_empty_batch c_try_again st_ok IsTryAgain andb orb negb].
  apply bind_same. intros [] st'; cbn [negb]; [|done].
  rewrite dispatch_next. apply bind_same. by intros [[s e'] f'] st2.
Qed.

(** The loop replays the updates it reads. *)
Lemma loop_replays us : Forall fits us -> forall fuel old try_again e f st, (2 * length us < fuel)%nat ->
  iterate_loop handler fuel (MkCursor (body us) StOK old try_again e f) st = replay us e f st.
Proof.
  induction 1 as [|u us Hu Hus IH]; intros fuel old try_again e f st Hfuel.
  - destruct fuel; [lia|]. done.
  - destruct fuel as [|[|fuel]]; [cbn in Hfuel; lia..|]. cbn [length] in Hfuel.
    assert (forall fuel' s r b e f st, (2 * length us < fuel')%nat -> IsTryAgain s = false ->
      iterate_loop handler fuel' (MkCursor (body us) s r b e f) st = (if st_ok s then replay us e f else mret (inr (s, true, f))) st) as Hnext.
    { intros fuel' s r b e' f' st' Hf' Ht. destruct (st_ok s) eqn:Es; [destruct s; try done; by apply IH|].
      rewrite loop_done; [done|lia|by left|done]. }
    change (body (u :: us)) with (encoded u ++ body us). rewrite loop_record by done. cbn [replay].
    apply bind_same. intros [] st1; cbn [negb]; [|done]. apply bind_same. intros [[s e1] f1] st2.
    destruct (IsTryAgain s) eqn:Et; [|rewrite Hnext by (done || lia); done].
    destruct s; try done. rewrite (loop_again _ _ _ u old) by done.
    apply bind_same. intros [] st3; cbn [negb]; [|done]. apply bind_same. intros [[s e2] f2] st4.
    destruct (IsTryAgain s) eqn:Et2; [|rewrite Hnext by (done || lia); done].
    destruct s; try done. destruct fuel as [|fuel]; [lia|].
    cbn [iterate_loop c_status c_input c_record c_found c_empty_batch c_try_again st_ok IsTryAgain andb orb negb]. done.
Qed.
End Replay.
