(* ===== verification/WriteBatchOps.v ===== *)
(** What the operations of a write batch do: a batch as a ledger of updates, with
    the states it can be rolled back to, and the proof that every operation of the
    code acts on the serialized form as its counterpart acts on the ledger. *)
From S2P Require Import Prelude Bits Coding IoStatus AlignedBuffer DbFormat WriteBatch WriteBatchSpec.
From stdpp Require Import base numbers list strings.
From Stdlib Require Import ZArith Lia.
Local Open Scope Z_scope.

Ltac fields := cbn [rep_ content_flags_ max_bytes_ save_points_ wal_term_point_ set_rep set_content_flags set_save_points
  set_wal_term_point sp_size sp_count sp_content_flags id] in *.

(** ** The serialized form *)

Definition image (seq n : Z) (rest : bytes) : bytes := EncodeFixed64 true seq ++ EncodeFixed32 true n ++ rest.

Lemma length_EncodeFixed64 v : length (EncodeFixed64 true v) = 8%nat.
Proof. by rewrite EncodeFixed64_le, length_le_bytes. Qed.
Lemma length_EncodeFixed32 v : length (EncodeFixed32 true v) = 4%nat.
Proof. by rewrite le_bytes_of_shifts, length_le_bytes. Qed.

Lemma zlen_image seq n rest : zlen (image seq n rest) = 12 + zlen rest.
Proof. unfold zlen, image. rewrite !length_app, length_EncodeFixed64, length_EncodeFixed32. lia. Qed.

Lemma image_app seq n rest more : image seq n rest ++ more = image seq n (rest ++ more).
Proof. unfold image. by rewrite <- !app_assoc. Qed.

Lemma in_image seq n rest off k : 0 <= off -> 0 <= k -> off + k <= 12 + zlen rest -> in_block (image seq n rest) off k = true.
Proof. intros H1 H2 H3. apply in_block_spec. pose proof (zlen_image seq n rest). unfold zlen in *. lia. Qed.

Lemma image_count seq n rest : sub (image seq n rest) 8 4 = EncodeFixed32 true n.
Proof.
  unfold sub, image. change (Z.to_nat 8) with 8%nat. rewrite drop_app_length' by (by rewrite length_EncodeFixed64).
  by rewrite take_app_length' by (by rewrite length_EncodeFixed32).
Qed.

Lemma image_rest seq n rest : drop 12 (image seq n rest) = rest.
Proof. unfold image. rewrite app_assoc. by rewrite drop_app_length' by (by rewrite length_app, length_EncodeFixed64, length_EncodeFixed32). Qed.

Lemma image_sequence seq n rest : sub (image seq n rest) 0 8 = EncodeFixed64 true seq.
Proof. unfold sub, image. cbn [Z.to_nat]. rewrite drop_0. by rewrite take_app_length' by (by rewrite length_EncodeFixed64). Qed.

Lemma recount seq n m rest : overwrite (image seq n rest) 8 (EncodeFixed32 true m) = image seq m rest.
Proof.
  unfold overwrite, image. rewrite take_app_length' by (by rewrite length_EncodeFixed64). rewrite length_EncodeFixed32.
  rewrite (app_assoc (EncodeFixed64 true seq) (EncodeFixed32 true n)).
  by rewrite drop_app_length' by (by rewrite length_app, length_EncodeFixed64, length_EncodeFixed32).
Qed.

Lemma resequence seq seq' n rest : overwrite (image seq n rest) 0 (EncodeFixed64 true seq') = image seq' n rest.
Proof.
  unfold overwrite, image. cbn [Z.to_nat take app]. rewrite length_EncodeFixed64.
  by rewrite drop_app_length' by (by rewrite length_EncodeFixed64).
Qed.

Lemma Count_image seq n rest b : rep_ b = image seq n rest -> 0 <= n < 2 ^ 32 -> Count b = Some n.
Proof.
  intros E Hn. unfold Count, peek. rewrite E, in_image by (unfold zlen; lia). cbn [fmap option_fmap option_map]. rewrite image_count.
  f_equal. rewrite <- (app_nil_r (EncodeFixed32 true n)). by apply DecodeFixed32_encoded.
Qed.

Lemma get_count_image seq n rest b : rep_ b = image seq n rest -> 0 <= n < 2 ^ 32 -> get_count b = Ret n b.
Proof. intros E Hn. unfold get_count. rewrite bind_gets. by rewrite (Count_image seq n rest). Qed.

Lemma SetCount_image seq n rest m b : rep_ b = image seq n rest ->
  SetCount m b = Ret tt (set_rep (image seq (u32 m) rest) b).
Proof.
  intros E. unfold SetCount, poke. rewrite bind_gets, E. unfold zlen. rewrite length_EncodeFixed32.
  rewrite in_image by (unfold zlen; lia). by rewrite recount.
Qed.

Lemma SetSequence_image seq n rest seq' b : rep_ b = image seq n rest ->
  SetSequence seq' b = Ret tt (set_rep (image seq' n rest) b).
Proof.
  intros E. unfold SetSequence, poke. rewrite bind_gets, E. unfold zlen. rewrite length_EncodeFixed64.
  rewrite in_image by (unfold zlen; lia). by rewrite resequence.
Qed.

Lemma increment_image seq n rest b : rep_ b = image seq n rest -> 0 <= n < 2 ^ 32 ->
  increment_count b = Ret tt (set_rep (image seq (u32 (n + 1)) rest) b).
Proof. intros E Hn. unfold increment_count. erewrite bind_Ret by by apply (get_count_image seq n rest). by apply (SetCount_image seq n). Qed.

Lemma here_image seq n rest b : rep_ b = image seq n rest -> 0 <= n < 2 ^ 32 ->
  here b = Ret (MkSavePoint (12 + zlen rest) (i32 n) (content_flags_ b)) b.
Proof.
  intros E Hn. unfold here. rewrite bind_gets. erewrite bind_Ret by by apply (get_count_image seq n rest).
  rewrite bind_gets. unfold GetDataSize. by rewrite E, zlen_image.
Qed.

Lemma u32_i32 x : u32 (i32 x) = u32 x.
Proof.
  unfold u32, i32. destruct (Z.ltb_spec (x mod 2 ^ 32) (2 ^ 31)); [by rewrite Z.mod_mod by lia|].
  rewrite <- (Z.mod_add _ 1) by lia. rewrite Z.mul_1_l, Z.sub_add. by rewrite Z.mod_mod by lia.
Qed.

(** Cutting the batch back to where it was. *)
Lemma string_resize_image seq n rest more : string_resize (12 + zlen rest) (image seq n (rest ++ more)) = image seq n rest.
Proof.
  unfold string_resize. rewrite <- image_app. rewrite take_app_length' by (pose proof (zlen_image seq n rest); unfold zlen in *; lia).
  rewrite length_app. replace (_ - _)%nat with 0%nat by (pose proof (zlen_image seq n rest); unfold zlen in *; lia).
  cbn. by rewrite app_nil_r.
Qed.

(** [LocalSavePoint]: an update that does not fit leaves no trace. *)
Lemma local_save_point_image seq n n' rest data flags m b :
  rep_ b = image seq n rest -> 0 <= n < 2 ^ 32 ->
  m b = Ret tt (set_content_flags flags (set_rep (image seq n' (rest ++ data)) b)) ->
  local_save_point m b =
  if negb (max_bytes_ b =? 0) && (max_bytes_ b <? 12 + zlen (rest ++ data)) then Ret StMemoryLimit b
  else Ret StOK (set_content_flags flags (set_rep (image seq n' (rest ++ data)) b)).
Proof.
  intros E Hn Em. unfold local_save_point. erewrite bind_Ret by by apply (here_image seq n rest).
  erewrite bind_Ret by exact Em. unfold commit. rewrite bind_gets. destruct b as [r fl mx sp wal]. fields. subst r.
  rewrite zlen_image. destruct (_ && _); [|done]. rewrite string_resize_image.
  erewrite bind_Ret by reflexivity. erewrite bind_Ret by (by apply (SetCount_image seq n' rest)).
  fields. by rewrite u32_i32, u32_small.
Qed.

(** ** The ledger *)

(** [l_saved] are the updates at the save points, the latest first; [l_wal] those
    at the WAL termination point. *)
Record ledger := MkLedger { l_seq : Z; l_updates : list update; l_saved : list (list update); l_wal : option (list update) }.
Definition new_ledger : ledger := MkLedger 0 [] [] None.

Definition with_updates (us : list update) (l : ledger) : ledger := MkLedger (l_seq l) us (l_saved l) (l_wal l).

(** An operation on a batch, as its user calls it. *)
Inductive batch_op :=
| Do (u : update)
| Prepare (xid : bytes) (m : prepare_mark)
| Save | RollBack | Pop | Wipe | MarkWal | Number (seq : Z).

(** No call writes a prepare marker alone. *)
Definition plain (u : update) : bool := match u with UBeginPrepare _ | UEndPrepare _ => false | _ => true end.

(** [Put] and [Merge] look at the sizes. *)
Definition refusal (u : update) : option Status :=
  match u with
  | UPut _ k v | UMerge _ k v =>
    if kMaxUint32 <? zlen k then Some (too_large "key") else if kMaxUint32 <? zlen v then Some (too_large "value") else None
  | _ => None
  end.

(** Markers are written even if the batch gets too large. *)
Definition limited (u : update) : bool := match u with UNoop | UCommit _ | URollback _ => false | _ => true end.

Definition exceeds (max_bytes : Z) (us : list update) : bool := negb (max_bytes =? 0) && (max_bytes <? 12 + zlen (body us)).

Definition spec_op (max_bytes : Z) (op : batch_op) (l : ledger) : Status * ledger :=
  match op with
  | Do u =>
    match refusal u with
    | Some s => (s, l)
    | None =>
      let us := l_updates l ++ [u] in
      if limited u && exceeds max_bytes us then (StMemoryLimit, l) else (StOK, with_updates us l)
    end
  | Prepare xid m => (StOK, MkLedger (l_seq l) (UBeginPrepare m :: tail (l_updates l) ++ [UEndPrepare xid]) [] (l_wal l))
  | Save => (StOK, MkLedger (l_seq l) (l_updates l) (l_updates l :: l_saved l) (l_wal l))
  | RollBack =>
    match l_saved l with
    | [] => (StNotFound, l)
    | us :: saved => (StOK, MkLedger (l_seq l) us saved (l_wal l))
    end
  | Pop =>
    match l_saved l with
    | [] => (StNotFound, l)
    | _ :: saved => (StOK, MkLedger (l_seq l) (l_updates l) saved (l_wal l))
    end
  | Wipe => (StOK, new_ledger)
  | MarkWal => (StOK, MkLedger (l_seq l) (l_updates l) (l_saved l) (Some (l_updates l)))
  | Number seq => (StOK, MkLedger seq (l_updates l) (l_saved l) (l_wal l))
  end.

(** The calls of the code. *)
Definition perform (u : update) : prog WriteBatch Status :=
  match u with
  | UPut cf k v => wb_Put cf k v
  | UDelete cf k => wb_Delete cf k
  | USingleDelete cf k => wb_SingleDelete cf k
  | UDeleteRange cf b e => wb_DeleteRange cf b e
  | UMerge cf k v => wb_Merge cf k v
  | UBlobIndex cf k v => PutBlobIndex cf k v
  | ULogData x => PutLogData x
  | UNoop => InsertNoop
  | UCommit x => MarkCommit x
  | URollback x => MarkRollback x
  | UBeginPrepare _ | UEndPrepare _ => undefined
  end.

Definition exec (op : batch_op) : prog WriteBatch Status :=
  match op with
  | Do u => perform u
  | Prepare xid WriteCommitted => MarkEndPrepare xid true false
  | Prepare xid WritePrepared => MarkEndPrepare xid false false
  | Prepare xid WriteUnprepared => MarkEndPrepare xid false true
  | Save => SetSavePoint;; mret StOK
  | RollBack => RollbackToSavePoint
  | Pop => PopSavePoint
  | Wipe => wb_Clear;; mret StOK
  | MarkWal => MarkWalTerminationPoint;; mret StOK
  | Number seq => SetSequence seq;; mret StOK
  end.

(** What the caller has to see to.  A transaction is prepared in a batch that
    starts with a noop, as [MarkEndPrepare] asserts. *)
Definition allowed (op : batch_op) (l : ledger) : Prop :=
  match op with
  | Do u => plain u = true /\ (refusal u = None -> fits u)
  | Prepare xid _ => short xid /\ exists us, l_updates l = UNoop :: us
  | Number seq => 0 <= seq < 2 ^ 64
  | _ => True
  end.

Fixpoint nested (us : list update) (saved : list (list update)) : Prop :=
  match saved with [] => True | s :: saved => s `prefix_of` us /\ nested s saved end.

Record sound (l : ledger) : Prop := {
  so_seq : 0 <= l_seq l < 2 ^ 64;
  so_fits : Forall fits (l_updates l);
  so_saved : nested (l_updates l) (l_saved l) }.

Definition savepoint_of (us : list update) : SavePoint := MkSavePoint (12 + zlen (body us)) (i32 (entries us)) (flags_of us).

(** The batch is the serialized form of the ledger. *)
Record represents (l : ledger) (b : WriteBatch) : Prop := {
  rp_rep : rep_ b = image (l_seq l) (u32 (entries (l_updates l))) (body (l_updates l));
  rp_flags : content_flags_ b = flags_of (l_updates l);
  rp_saved : default [] (save_points_ b) = savepoint_of <$> l_saved l;
  rp_wal : wal_term_point_ b = from_option savepoint_of new_SavePoint (l_wal l) }.

(** ** Facts about lists of updates *)

Lemma body_app us us' : body (us ++ us') = body us ++ body us'.
Proof. unfold body. by rewrite fmap_app, concat_app. Qed.
Lemma body_snoc us u : body (us ++ [u]) = body us ++ encoded u.
Proof. rewrite body_app. cbn. by rewrite app_nil_r. Qed.

Lemma entries_app us us' : entries (us ++ us') = entries us + entries us'.
Proof. unfold entries. rewrite filter_app, length_app. lia. Qed.
Lemma entries_snoc us u : entries (us ++ [u]) = entries us + (if is_entry u then 1 else 0).
Proof. rewrite entries_app. f_equal. unfold entries. rewrite filter_cons. by destruct (is_entry u). Qed.

Lemma entries_cons u us : entries (u :: us) = (if is_entry u then 1 else 0) + entries us.
Proof. change (u :: us) with ([u] ++ us). rewrite entries_app. f_equal. unfold entries. rewrite filter_cons. by destruct (is_entry u). Qed.

Lemma flags_app us us' : flags_of (us ++ us') = Z.lor (flags_of us) (flags_of us').
Proof. induction us as [|u us IH]; [done|]. cbn [app flags_of foldr]. fold (flags_of (us ++ us')). rewrite IH. apply Z.lor_assoc. Qed.
Lemma flags_snoc us u : flags_of (us ++ [u]) = Z.lor (flags_of us) (flag_of u).
Proof. rewrite flags_app. cbn [flags_of foldr]. by rewrite Z.lor_0_r. Qed.

Lemma u32_add x y : u32 (u32 x + y) = u32 (x + y).
Proof. unfold u32. by rewrite Z.add_mod_idemp_l by lia. Qed.

Lemma nested_mono us us' saved : us `prefix_of` us' -> nested us saved -> nested us' saved.
Proof. destruct saved as [|s saved]; [done|]. intros H [H1 H2]. split; [by etrans|done]. Qed.

Lemma body_prefix us us' : us `prefix_of` us' -> zlen (body us) = zlen (body us') -> us = us'.
Proof.
  intros [[|u k] ->]; [by rewrite app_nil_r|]. rewrite body_app. unfold zlen. rewrite length_app.
  change (body (u :: k)) with (encoded u ++ body k). rewrite length_app. pose proof (length_encoded u). lia.
Qed.

(** ** The operations on a represented ledger *)

(** The batch with an update at its end. *)
Definition grown (u : update) (l : ledger) (b : WriteBatch) : WriteBatch :=
  let us := l_updates l ++ [u] in
  set_content_flags (Z.lor (content_flags_ b) (flag_of u)) (set_rep (image (l_seq l) (u32 (entries us)) (body us)) b).

Lemma grown_represents u l b : represents l b -> represents (with_updates (l_updates l ++ [u]) l) (grown u l b).
Proof. intros [Hr Hf Hs Hw]. split; [done| |done|done]. unfold grown, with_updates. fields. cbn [l_updates]. by rewrite flags_snoc, Hf. Qed.

Lemma count_in_range us : 0 <= u32 (entries us) < 2 ^ 32.
Proof. apply u32_range. Qed.

(** The calls that write the record of [u], with the flags. *)
Definition pushes (u : update) (m : prog WriteBatch unit) : Prop :=
  forall b, m b = Ret tt (set_content_flags (Z.lor (content_flags_ b) (flag_of u)) (set_rep (rep_ b ++ encoded u) b)).

Lemma limited_entry u m l b : represents l b -> is_entry u = true -> pushes u m ->
  local_save_point (increment_count;; m) b =
  if exceeds (max_bytes_ b) (l_updates l ++ [u]) then Ret StMemoryLimit b else Ret StOK (grown u l b).
Proof.
  intros [Hr Hf Hs Hw] Hu Hm.
  rewrite (local_save_point_image (l_seq l) (u32 (entries (l_updates l))) (u32 (entries (l_updates l ++ [u]))) (body (l_updates l))
             (encoded u) (Z.lor (content_flags_ b) (flag_of u))); [|done|apply count_in_range|].
  - unfold grown, exceeds. by rewrite body_snoc.
  - erewrite bind_Ret by (apply (increment_image (l_seq l) _ _ _ Hr), count_in_range). rewrite Hm. fields.
    by rewrite entries_snoc, Hu, u32_add, image_app.
Qed.

Ltac run_pushes := cbv [push_tag push_back push_slice add_flags slice_of PutLengthPrefixedSlice PutVarint32 modify mret prog_ret mbind prog_bind
  set_rep set_content_flags set_save_points rep_ content_flags_ max_bytes_ save_points_ wal_term_point_]; cbn [app]; rewrite <- ?app_assoc; cbn [app].
Ltac pushed := let b := fresh in intros b; cbn [encoded flag_of]; unfold push_tag, tag_of;
  try match goal with |- context [?cf =? 0] => destruct (cf =? 0) end; destruct b; run_pushes; reflexivity.

Lemma perform_entry u l b : represents l b -> is_entry u = true -> refusal u = None ->
  perform u b = if exceeds (max_bytes_ b) (l_updates l ++ [u]) then Ret StMemoryLimit b else Ret StOK (grown u l b).
Proof.
  intros Hl Hu Hr. destruct u as [cf k v|cf k|cf k|cf k v|cf k v|cf k v| | | | | |]; try done; cbn [perform];
    unfold wb_Put, wb_Merge; cbn [refusal] in Hr; try (destruct (_ <? zlen k); [done|]; destruct (_ <? zlen v); [done|]);
    (apply limited_entry; [done|done|pushed]).
Qed.

Lemma grown_mark u l b : represents l b -> is_entry u = false ->
  grown u l b = set_content_flags (Z.lor (content_flags_ b) (flag_of u)) (set_rep (rep_ b ++ encoded u) b).
Proof. intros Hl Hu. unfold grown. by rewrite entries_snoc, Hu, Z.add_0_r, body_snoc, (rp_rep _ _ Hl), image_app. Qed.

Lemma perform_log_data x l b : represents l b ->
  perform (ULogData x) b = if exceeds (max_bytes_ b) (l_updates l ++ [ULogData x]) then Ret StMemoryLimit b else Ret StOK (grown (ULogData x) l b).
Proof.
  intros Hl. cbn [perform]. unfold PutLogData.
  rewrite (local_save_point_image (l_seq l) (u32 (entries (l_updates l))) (u32 (entries (l_updates l))) (body (l_updates l))
             (encoded (ULogData x)) (content_flags_ b)); [|apply Hl|apply count_in_range|].
  - rewrite grown_mark by done. unfold exceeds. rewrite body_snoc, (rp_rep _ _ Hl), image_app. cbn [flag_of]. by rewrite Z.lor_0_r.
  - pose proof (rp_rep _ _ Hl) as Hr. rewrite <- image_app, <- Hr. cbn [encoded]. destruct b; run_pushes; reflexivity.
Qed.

Lemma perform_mark u l b : represents l b -> plain u = true -> limited u = false -> perform u b = Ret StOK (grown u l b).
Proof.
  intros Hl Hp Hu. destruct u; try done; rewrite grown_mark by done; cbn [perform encoded flag_of];
    unfold InsertNoop, MarkCommit, MarkRollback; destruct b; rewrite ?Z.lor_0_r; run_pushes; reflexivity.
Qed.

Lemma perform_refines u l b : represents l b -> plain u = true ->
  perform u b =
  match refusal u with
  | Some s => Ret s b
  | None => if limited u && exceeds (max_bytes_ b) (l_updates l ++ [u]) then Ret StMemoryLimit b else Ret StOK (grown u l b)
  end.
Proof.
  intros Hl Hp. destruct (refusal u) as [s|] eqn:Er.
  - destruct u as [cf k v| | | |cf k v| | | | | | |]; try done; cbn [perform refusal] in *; unfold wb_Put, wb_Merge;
      destruct (_ <? zlen k); simplify_eq; try done; destruct (_ <? zlen v); by simplify_eq.
  - destruct (limited u) eqn:Elim; [|by apply perform_mark].
    cbn [andb]. destruct u; try done; first [by apply perform_entry | by apply perform_log_data].
Qed.

Lemma save_refines l b : represents l b -> here b = Ret (savepoint_of (l_updates l)) b.
Proof.
  intros Hl. rewrite (here_image _ _ _ _ (rp_rep _ _ Hl)) by apply count_in_range. unfold savepoint_of.
  by rewrite i32_u32, (rp_flags _ _ Hl).
Qed.

(** [MarkEndPrepare] puts the marker where the noop was. *)
Lemma mark_over_noop seq n us t b : rep_ b = image seq n (body (UNoop :: us)) ->
  poke 12 [t] b = Ret tt (set_rep (image seq n (t :: body us)) b).
Proof. intros Hr. unfold poke. rewrite bind_gets, Hr. rewrite in_image by (unfold zlen; cbn; lia). done. Qed.

Ltac bitwise := apply Z.bits_inj'; intros ? ?; rewrite ?Z.lor_spec, ?Z.testbit_0_l; repeat match goal with |- context [Z.testbit ?x ?i] => destruct (Z.testbit x i) end; done.

Lemma prepare_refines xid m us l b : represents l b -> l_updates l = UNoop :: us ->
  exists b', exec (Prepare xid m) b = Ret StOK b' /\ max_bytes_ b' = max_bytes_ b /\
  represents (MkLedger (l_seq l) (UBeginPrepare m :: us ++ [UEndPrepare xid]) [] (l_wal l)) b'.
Proof.
  intros [Hr Hf Hs Hw] E. rewrite E in Hr, Hf.
  set (us' := UBeginPrepare m :: us ++ [UEndPrepare xid]).
  set (b1 := set_save_points ((fun _ => []) <$> save_points_ b) b).
  pose proof (fun t => mark_over_noop _ _ us t b1 Hr) as Hpoke.
  assert (entries us' = entries us) as Hn.
  { unfold us'. rewrite app_comm_cons, entries_snoc. cbn [is_entry]. rewrite Z.add_0_r. done. }
  assert (body us' = (byte_of (prepare_tag m) :: body us) ++ encoded (UEndPrepare xid)) as Hbody.
  { unfold us'. by rewrite app_comm_cons, body_snoc. }
  assert (flags_of us' = Z.lor (Z.lor (content_flags_ b) HAS_END_PREPARE) (flag_of (UBeginPrepare m))) as Hflags.
  { unfold us'. rewrite Hf. rewrite app_comm_cons, flags_snoc. cbn [flags_of foldr]. fold (flags_of us). change (flag_of UNoop) with 0.
    change (flag_of (UEndPrepare xid)) with HAS_END_PREPARE. generalize (flag_of (UBeginPrepare m)). intros. bitwise. }
  exists (set_content_flags (flags_of us') (set_rep (image (l_seq l) (u32 (entries us')) (body us')) b1)). split; [|split; [done|split]].
  - rewrite Hn, Hbody, Hflags, <- image_app. destruct m; cbn [exec]; unfold MarkEndPrepare;
      (erewrite bind_Ret by reflexivity); fold b1; (erewrite bind_Ret by apply Hpoke); unfold when, b1; destruct b; fields;
      cbn [prepare_tag encoded flag_of]; run_pushes; f_equal; f_equal; bitwise.
  - done.
  - done.
  - cbn. by destruct (save_points_ b).
  - done.
Qed.

Lemma rollback_refines us saved l b : represents l b -> sound l -> l_saved l = us :: saved ->
  exists b', RollbackToSavePoint b = Ret StOK b' /\ max_bytes_ b' = max_bytes_ b /\ represents (MkLedger (l_seq l) us saved (l_wal l)) b'.
Proof.
  intros [Hr Hf Hs Hw] [_ _ Hn] E. rewrite E in Hs, Hn. destruct Hn as [[k Hk] _]. unfold RollbackToSavePoint. rewrite bind_gets, Hs.
  cbn [fmap list_fmap]. erewrite bind_Ret by reflexivity. rewrite bind_gets. fields. cbn [savepoint_of sp_size sp_count sp_content_flags].
  rewrite Hr, zlen_image. destruct (Z.eqb_spec (12 + zlen (body us)) (12 + zlen (body (l_updates l)))) as [He|_].
  - assert (us = l_updates l) as Hus by (apply body_prefix; [by exists k|lia]).
    eexists. split; [reflexivity|]. split; [done|]. by split; cbn [l_updates l_seq l_saved l_wal]; fields; rewrite ?Hus.
  - destruct (Z.eqb_spec (12 + zlen (body us)) 0) as [|_]; [unfold zlen in *; lia|]. rewrite Hk, body_app, string_resize_image.
    erewrite bind_Ret by reflexivity. erewrite bind_Ret by by apply (SetCount_image (l_seq l) (u32 (entries (us ++ k))) (body us)).
    eexists. split; [reflexivity|]. split; [done|]. split; try done. cbn [l_updates l_seq]. fields. by rewrite u32_i32.
Qed.

Lemma new_represents max_bytes : represents new_ledger (new_WriteBatch max_bytes).
Proof. by split. Qed.
Lemma new_sound : sound new_ledger.
Proof. split; cbn; [lia|constructor|done]. Qed.

Lemma spec_op_sound max_bytes op l : allowed op l -> sound l -> sound (spec_op max_bytes op l).2.
Proof.
  intros Ha [Hq Hf Hs]. destruct op as [u|xid m| | | | | |seq]; cbn [spec_op allowed] in *.
  - destruct Ha as [_ Ha]. destruct (refusal u); [done|]. destruct (_ && _); [done|].
    split; cbn; [done|apply Forall_app; eauto|]. eapply nested_mono; [|done]. by exists [u].
  - destruct Ha as [Hx [us E]]. rewrite E in Hf |- *. inversion Hf; subst. split; cbn; [done| |done].
    constructor; [done|]. apply Forall_app. by split; [|constructor].
  - done.
  - destruct (l_saved l) as [|us saved] eqn:E; [by split; cbn; rewrite ?E|]. destruct Hs as [[k Hk] Hs]. split; [done| |done].
    rewrite Hk in Hf. by apply Forall_app in Hf as [Hf _].
  - destruct (l_saved l) as [|us saved] eqn:E; [by split; cbn; rewrite ?E|]. destruct Hs as [Hk Hs]. split; [done..|]. by eapply nested_mono.
  - apply new_sound.
  - done.
  - done.
Qed.

(** Every operation does to the batch what it does to the ledger. *)
Lemma exec_refines op l b : represents l b -> sound l -> allowed op l ->
  let '(s, l') := spec_op (max_bytes_ b) op l in
  exists b', exec op b = Ret s b' /\ max_bytes_ b' = max_bytes_ b /\ represents l' b'.
Proof.
  intros Hl Hs Ha. destruct op as [u|xid m| | | | | |seq]; cbn [spec_op allowed] in *.
  - destruct Ha as [Hp _]. cbn [exec]. rewrite (perform_refines u l b) by done.
    destruct (refusal u); [by exists b|]. destruct (_ && _); [by exists b|].
    exists (grown u l b). split; [done|]. split; [done|]. by apply grown_represents.
  - destruct Ha as [Hx [us E]]. rewrite E. cbn [tail]. by apply prepare_refines.
  - cbn [exec]. unfold SetSavePoint. eexists. split; [|split].
    + unfold mbind, prog_bind. rewrite (save_refines l b Hl). reflexivity.
    + done.
    + destruct Hl as [Hr Hf Hv Hw]. split; try done. cbn. by rewrite Hv.
  - cbn [exec]. destruct (l_saved l) as [|us saved] eqn:E; [|by apply rollback_refines].
    exists b. split; [|done]. unfold RollbackToSavePoint. rewrite bind_gets, (rp_saved _ _ Hl), E. done.
  - cbn [exec]. unfold PopSavePoint. rewrite bind_gets, (rp_saved _ _ Hl). destruct Hl as [Hr Hf Hv Hw].
    destruct (l_saved l) as [|us saved] eqn:E; [exists b; split; [done|split; [done|]]; by split; rewrite ?E|].
    eexists. split; [reflexivity|]. by repeat split.
  - cbn [exec]. eexists. split; [reflexivity|]. split; [done|]. split; try done. cbn. by destruct (save_points_ b).
  - cbn [exec]. unfold MarkWalTerminationPoint. eexists. split; [|split].
    + unfold mbind, prog_bind. rewrite (save_refines l b Hl). reflexivity.
    + done.
    + destruct Hl as [Hr Hf Hv Hw]. by split.
  - cbn [exec]. erewrite bind_Ret by (eapply SetSequence_image, Hl). eexists. split; [reflexivity|]. split; [done|].
    destruct Hl as [Hr Hf Hv Hw]. by split.
Qed.

(** A run of operations. *)
Fixpoint exec_all (ops : list batch_op) : prog WriteBatch (list Status) :=
  match ops with
  | [] => mret []
  | op :: ops => s ← exec op; ss ← exec_all ops; mret (s :: ss)
  end.

Fixpoint spec_all (max_bytes : Z) (ops : list batch_op) (l : ledger) : list Status * ledger :=
  match ops with
  | [] => ([], l)
  | op :: ops => let '(s, l) := spec_op max_bytes op l in let '(ss, l) := spec_all max_bytes ops l in (s :: ss, l)
  end.

Fixpoint all_allowed (max_bytes : Z) (ops : list batch_op) (l : ledger) : Prop :=
  match ops with
  | [] => True
  | op :: ops => allowed op l /\ all_allowed max_bytes ops (spec_op max_bytes op l).2
  end.

Lemma exec_all_refines ops : forall l b, represents l b -> sound l -> all_allowed (max_bytes_ b) ops l ->
  exists b', exec_all ops b = Ret (spec_all (max_bytes_ b) ops l).1 b' /\
  represents (spec_all (max_bytes_ b) ops l).2 b' /\ sound (spec_all (max_bytes_ b) ops l).2.
Proof.
  induction ops as [|op ops IH]; intros l b Hl Hs Ha; [by exists b|]. destruct Ha as [Ha Has].
  pose proof (exec_refines op l b Hl Hs Ha) as H. pose proof (spec_op_sound (max_bytes_ b) op l Ha Hs) as Hs'. cbn [spec_all exec_all].
  destruct (spec_op (max_bytes_ b) op l) as [s l'] eqn:E. destruct H as (b' & H1 & H2 & H3). cbn in Has, Hs'.
  rewrite <- H2 in Has |- *. destruct (IH l' b' H3 Hs' Has) as (b'' & H4 & H5 & H6).
  destruct (spec_all (max_bytes_ b') ops l') as [ss l''] eqn:E'. exists b''. split; [|done].
  erewrite bind_Ret by exact H1. by erewrite bind_Ret by exact H4.
Qed.

(** ** Iteration over a represented ledger *)

Section Iteration.
Context {S : Type} (handler : Handler S).

Definition verdict (o : Status + Status * bool * Z) : Status := match o with inl s => s | inr (s, _, _) => s end.

Lemma call_counts u e f st s e' f' st' : 0 <= f < 2 ^ 32 -> call_update handler u e f st = Ret (s, e', f') st' ->
  f' = if st_ok s then u32 (f + (if is_entry u then 1 else 0)) else f.
Proof.
  intros Hf. assert (u32 (f + 0) = f) as E0 by (rewrite Z.add_0_r; by apply u32_small).
  destruct u as [cf k v|cf k|cf k|cf k v|cf k v|cf k v|x| |[]|x|x|x]; cbn [call_update is_entry]; rewrite ?E0; unfold entry_call;
    intros (a & st1 & _ & E)%bind_Ret_inv; try (destruct (st_ok a) eqn:Ea; try rewrite Ea in E); inversion E; subst; rewrite ?Ea; try done; by match goal with |- context [st_ok ?x] => destruct (st_ok x) end.
Qed.

(** A handler that went through the whole batch saw all its entries. *)
Lemma replay_found us : forall e f st s found st', 0 <= f < 2 ^ 32 ->
  replay handler us e f st = Ret (inr (s, true, found)) st' -> st_ok s = true -> found = u32 (f + entries us).
Proof.
  induction us as [|u us IH]; intros e f st s found st' Hf; cbn [replay].
  - intros [= <- <- <-] _. unfold entries. cbn. by rewrite Z.add_0_r, u32_small.
  - assert (forall s1 e1 f1 st1, 0 <= f1 < 2 ^ 32 -> (st_ok s1 = true -> f1 = u32 (f + (if is_entry u then 1 else 0))) ->
      (if st_ok s1 then replay handler us e1 f1 else mret (inr (s1, true, f1))) st1 = Ret (inr (s, true, found)) st' ->
      st_ok s = true -> found = u32 (f + entries (u :: us))) as Hnext.
    { intros s1 e1 f1 st1 H0 Hf1 E Hs. destruct (st_ok s1) eqn:E1; [|inversion E; congruence].
      rewrite (IH _ _ _ _ _ _ H0 E Hs), (Hf1 eq_refl), u32_add. f_equal.
      rewrite entries_cons. lia. }
    assert (forall e1 f1 st1 s2 e2 f2 st2, f1 = f -> call_update handler u e1 f1 st1 = Ret (s2, e2, f2) st2 ->
      0 <= f2 < 2 ^ 32 /\ (IsTryAgain s2 = true -> f2 = f) /\ (st_ok s2 = true -> f2 = u32 (f + (if is_entry u then 1 else 0)))) as Hcall.
    { intros e1 f1 st1 s2 e2 f2 st2 -> E. pose proof (call_counts _ _ _ _ _ _ _ _ Hf E) as ->.
      destruct (st_ok s2) eqn:E2; [|done]. split; [apply u32_range|]. split; [by destruct s2|done]. }
    intros ([] & st1 & _ & E)%bind_Ret_inv; cbn [negb] in E; [|by inversion E].
    apply bind_Ret_inv in E as ([[s1 e1] f1] & st2 & E1 & E). apply Hcall in E1 as (H1 & H2 & H3); [|done].
    destruct (IsTryAgain s1); [|by eapply Hnext]. rewrite (H2 eq_refl) in *.
    apply bind_Ret_inv in E as ([] & st3 & _ & E); cbn [negb] in E; [|by inversion E].
    apply bind_Ret_inv in E as ([[s2 e2] f2] & st4 & E2 & E). apply Hcall in E2 as (H4 & H5 & H6); [|done].
    destruct (IsTryAgain s2); [|by eapply Hnext].
    apply bind_Ret_inv in E as ([] & st5 & _ & E); by inversion E.
Qed.

(** [Iterate] hands the updates of the ledger to the handler: the count it
    checks at the end is the right one. *)
Lemma Iterate_image seq us b st : rep_ b = image seq (u32 (entries us)) (body us) -> Forall fits us ->
  Iterate handler b st = (o ← replay handler us true 0; mret (verdict o)) st.
Proof.
  intros Hr Hfits. unfold Iterate. rewrite Hr, zlen_image. destruct (Z.ltb_spec (12 + zlen (body us)) kHeader) as [H|_].
  { unfold kHeader, zlen in H. lia. }
  unfold Iterate_range. rewrite Hr, zlen_image. rewrite Z.ltb_irrefl. destruct (Z.ltb_spec (12 + zlen (body us)) kHeader) as [H|_].
  { unfold kHeader, zlen in H. lia. }
  cbn [orb]. replace (sub _ kHeader _) with (body us).
  2: { unfold sub, kHeader. change (Z.to_nat 12) with 12%nat. rewrite image_rest. symmetry. apply take_ge. unfold zlen. lia. }
  unfold mbind at 1, prog_bind at 1. unfold new_cursor. rewrite loop_replays; [|done|].
  2: { clear. assert (length us <= length (body us))%nat; [|lia]. induction us as [|u us IH]; [done|].
       change (body (u :: us)) with (encoded u ++ body us). rewrite length_app. pose proof (length_encoded u). cbn [length]. lia. }
  unfold mbind, prog_bind. destruct (replay handler us true 0 st) as [[s|[[s c] found]] st'| | |] eqn:E; try done.
  cbn [verdict]. destruct (st_ok s) eqn:Es; [|done]. rewrite !Z.eqb_refl. destruct s; try done. destruct c; [|done].
  rewrite (replay_found us true 0 st StOK found st' ltac:(lia) E Es), Z.add_0_l. cbn [negb andb].
  rewrite (Count_image seq (u32 (entries us)) (body us)); [|done|apply u32_range]. cbn -[Z.eqb]. by rewrite Z.eqb_refl.
Qed.
End Iteration.
