(* ===== verification/WriteBatchThms.v ===== *)
(** Write batches: what the operations, the iteration and the appending of batches
    guarantee, and where the code goes wrong.

    Batches of unknown origin: whatever bytes a batch consists of, [Iterate] reads
    inside of them and comes to an end; and what the content flags of a batch that
    was read back are. *)
From S2P Require Import Prelude Bits Coding IoStatus AlignedBuffer DbFormat WriteBatch WriteBatchSpec WriteBatchOps.
From stdpp Require Import base numbers list strings.
From Stdlib Require Import ZArith Lia.
Local Open Scope Z_scope.

(** ** Reading consumes the input *)

Lemma varint_loop_consumes last wrap p : forall shift result v rest,
  varint_loop last wrap shift result p = Some (v, rest) -> (length rest < length p)%nat.
Proof.
  induction p as [|b p IH]; intros shift result v rest; cbn [varint_loop length]; [done|].
  destruct (last <? shift); [done|]. destruct (negb _); [intros H%IH; lia|]. intros [= _ <-]. lia.
Qed.

Lemma GetVarint32_consumes p v rest : GetVarint32 p = Some (v, rest) -> (length rest < length p)%nat.
Proof. unfold GetVarint32. rewrite GetVarint32Ptr_loop. apply varint_loop_consumes. Qed.

Lemma GetLengthPrefixed_consumes p s rest : GetLengthPrefixedSlice p = Some (s, rest) -> (length rest < length p)%nat.
Proof.
  unfold GetLengthPrefixedSlice. destruct (GetVarint32 p) as [[len q]|] eqn:E; cbn; [|done]. apply GetVarint32_consumes in E.
  destruct (_ <=? _); [|done]. intros [= _ <-]. rewrite length_drop. lia.
Qed.

Lemma read_cf_consumes c p v rest : read_cf c p = Some (v, rest) -> (length rest <= length p)%nat.
Proof. destruct c; cbn [read_cf]; [intros H%GetVarint32_consumes; lia|]. by intros [= _ <-]. Qed.

(** A result of reading a record: success leaves no more input than there was. *)
Definition shrinks (p : bytes) (o : Status * parsed * bytes) : Prop :=
  let '(s, _, rest) := o in st_ok s = true -> (length rest <= length p)%nat.

Lemma read_key_shrinks c msg tag old p : shrinks p (read_key c msg tag old p).
Proof.
  unfold read_key. destruct (read_cf c p) as [[cf q]|] eqn:E1; cbn -[GetLengthPrefixedSlice]; [|done]. apply read_cf_consumes in E1.
  destruct (GetLengthPrefixedSlice q) as [[k r]|] eqn:E2; cbn; [|done]. apply GetLengthPrefixed_consumes in E2. lia.
Qed.

Lemma read_key_value_shrinks c msg tag old p : shrinks p (read_key_value c msg tag old p).
Proof.
  unfold read_key_value. destruct (read_cf c p) as [[cf q]|] eqn:E1; cbn -[GetLengthPrefixedSlice]; [|done]. apply read_cf_consumes in E1.
  destruct (GetLengthPrefixedSlice q) as [[k r]|] eqn:E2; cbn -[GetLengthPrefixedSlice]; [|done]. apply GetLengthPrefixed_consumes in E2.
  destruct (GetLengthPrefixedSlice r) as [[v t]|] eqn:E3; cbn; [|done]. apply GetLengthPrefixed_consumes in E3. lia.
Qed.

Lemma read_blob_shrinks msg tag old p : shrinks p (read_blob msg tag old p).
Proof. unfold read_blob. destruct (GetLengthPrefixedSlice p) as [[k r]|] eqn:E2; cbn; [|done]. apply GetLengthPrefixed_consumes in E2. lia. Qed.

Lemma read_xid_shrinks msg tag old p : shrinks p (read_xid msg tag old p).
Proof. unfold read_xid. destruct (GetLengthPrefixedSlice p) as [[k r]|] eqn:E2; cbn; [|done]. apply GetLengthPrefixed_consumes in E2. lia. Qed.

Create HintDb shrink.
#[export] Hint Resolve read_key_shrinks read_key_value_shrinks read_blob_shrinks read_xid_shrinks : shrink.

Lemma ReadRecord_consumes old p : p <> [] ->
  exists s r rest, ReadRecordFromWriteBatch old p = Some (s, r, rest) /\ (st_ok s = true -> (length rest < length p)%nat).
Proof.
  destruct p as [|c p]; [done|]. intros _. cbn [ReadRecordFromWriteBatch].
  match goal with |- exists s r rest, Some ?o = _ /\ _ => assert (shrinks p o) as H; [|destruct o as [[s r] rest]; exists s, r, rest] end.
  - repeat match goal with |- shrinks p (if ?x then _ else _) => destruct x end; auto with shrink; by cbn.
  - split; [done|]. intros Hs%H. cbn [length]. lia.
Qed.

(** ** The loop ends *)

Definition returns {S A} (m : prog S A) : Prop := forall st, exists a st', m st = Ret a st'.

Lemma returns_bind {S A B} (m : prog S A) (k : A -> prog S B) : returns m -> (forall a, returns (k a)) -> returns (m ≫= k).
Proof. intros Hm Hk st. destruct (Hm st) as (a & st' & E). erewrite bind_Ret by exact E. apply Hk. Qed.
Lemma returns_ret {S A} (a : A) : returns (mret a : prog S A).
Proof. intros st. by exists a, st. Qed.

Lemma returns_the {S A B} (a : A) (k : A -> prog S B) : returns (k a) -> returns (the (Some a) ≫= k).
Proof. done. Qed.

Create HintDb returns.
#[export] Hint Resolve returns_ret returns_bind : returns.

(** A handler whose calls all return. *)
Record total_handler {S} (h : Handler S) : Prop := {
  to_PutCF cf k v : returns (h_PutCF h cf k v);
  to_DeleteCF cf k : returns (h_DeleteCF h cf k);
  to_SingleDeleteCF cf k : returns (h_SingleDeleteCF h cf k);
  to_DeleteRangeCF cf k v : returns (h_DeleteRangeCF h cf k v);
  to_MergeCF cf k v : returns (h_MergeCF h cf k v);
  to_PutBlobIndexCF cf k v : returns (h_PutBlobIndexCF h cf k v);
  to_LogData x : returns (h_LogData h x);
  to_MarkBeginPrepare u : returns (h_MarkBeginPrepare h u);
  to_MarkEndPrepare x : returns (h_MarkEndPrepare h x);
  to_MarkNoop e : returns (h_MarkNoop h e);
  to_MarkRollback x : returns (h_MarkRollback h x);
  to_MarkCommit x : returns (h_MarkCommit h x);
  to_Continue : returns (h_Continue h) }.
#[export] Hint Resolve to_PutCF to_DeleteCF to_SingleDeleteCF to_DeleteRangeCF to_MergeCF to_PutBlobIndexCF to_LogData
  to_MarkBeginPrepare to_MarkEndPrepare to_MarkNoop to_MarkRollback to_MarkCommit to_Continue : returns.

Section Total.
Context {S : Type} (handler : Handler S) (Htotal : total_handler handler).

Lemma dispatch_returns r e f : returns (dispatch_record handler r e f).
Proof.
  unfold dispatch_record, counted.
  repeat match goal with |- returns (if ?x then _ else _) => destruct x end; auto 6 with returns.
Qed.

(** How many rounds are left. *)
Definition rounds (c : batch_cursor) : nat :=
  if IsTryAgain (c_status c) then if c_try_again c then 1 else 2 * length (c_input c) + 2 else 2 * length (c_input c) + 1.

Lemma loop_returns fuel : forall c, (rounds c <= fuel)%nat -> returns (iterate_loop handler fuel c).
Proof.
  induction fuel as [|fuel IH]; intros c Hc.
  { unfold rounds in Hc. destruct (IsTryAgain _), (c_try_again c); lia. }
  cbn [iterate_loop]. destruct (_ || _) eqn:Ego; [|apply returns_ret]. apply returns_bind; [auto with returns|]. intros []; cbn [negb]; [|apply returns_ret].
  assert (forall r input t, (forall s e f, (rounds (MkCursor input s r t e f) <= fuel)%nat) -> returns
    (o ← dispatch_record handler r (c_empty_batch c) (c_found c);
     match o with None => mret (inl (StCorruption "unknown WriteBatch tag"))
     | Some (s, empty_batch, found) => iterate_loop handler fuel (MkCursor input s r t empty_batch found) end)) as Hgo.
  { intros r input t Hr. apply returns_bind; [apply dispatch_returns|]. intros [[[s e] f]|]; [by apply IH|apply returns_ret]. }
  unfold rounds in Hc. destruct (IsTryAgain (c_status c)) eqn:Et; cbn [negb].
  - destruct (c_try_again c) eqn:Eg; [apply returns_ret|]. apply Hgo. intros s e f. unfold rounds. cbn [c_status c_input c_try_again].
    destruct (IsTryAgain s); lia.
  - rewrite orb_false_r in Ego. apply andb_true_iff in Ego as [_ Hne%Z.ltb_lt].
    destruct (ReadRecord_consumes (c_record c) (c_input c)) as (s & r & rest & -> & Hrest); [by intros E; rewrite E in Hne|].
    apply returns_the. destruct (st_ok s) eqn:Es; cbn [negb]; [|apply returns_ret]. specialize (Hrest eq_refl). apply Hgo. intros s1 e f.
    unfold rounds. cbn [c_status c_input c_try_again]. destruct (IsTryAgain s1); lia.
Qed.

Lemma Iterate_returns b : returns (Iterate handler b).
Proof.
  unfold Iterate. destruct (Z.ltb_spec (zlen (rep_ b)) kHeader) as [|Hb]; [apply returns_ret|]. unfold Iterate_range.
  destruct (_ || _); [apply returns_ret|]. apply returns_bind; [apply loop_returns; unfold rounds, new_cursor; cbn; lia|].
  intros [s|[[s c] found]]; [apply returns_ret|]. destruct (negb _); [apply returns_ret|]. destruct (_ && _); [|apply returns_ret].
  unfold Count, peek. rewrite (proj2 (in_block_spec (rep_ b) 8 4)) by (unfold kHeader, zlen in Hb; lia). cbn [fmap option_fmap option_map].
  apply returns_the, returns_ret.
Qed.
End Total.

(** ** The content flags of a batch that was read back *)

(** The updates the classifier looks at: it does not define [MarkNoop], and
    refuses the markers of the policies that do not write after the commit. *)
Fixpoint classified (us : list update) : list update :=
  match us with
  | [] => []
  | UNoop :: _ => []
  | UBeginPrepare WriteCommitted as u :: us => u :: classified us
  | UBeginPrepare _ as u :: _ => [u]
  | u :: us => u :: classified us
  end.

Lemma replay_classifies us : forall e f flags, exists o, replay BatchContentClassifier us e f flags = Ret o (Z.lor flags (flags_of (classified us))).
Proof.
  induction us as [|u us IH]; intros e f flags; [exists (inr (StOK, true, f)); cbn; by rewrite Z.lor_0_r|].
  destruct u as [cf k v|cf k|cf k|cf k v|cf k v|cf k v|x| |[]|x|x|x]; cbn [classified flags_of foldr flag_of]; fold (flags_of (classified us));
    rewrite ?Z.lor_assoc, ?Z.lor_0_r; try (apply IH); eexists; reflexivity.
Qed.

Lemma ComputeContentFlags_image seq us : Forall fits us ->
  let b := WriteBatch_of (image seq (u32 (entries us)) (body us)) in
  ComputeContentFlags b = Ret (flags_of (classified us)) (set_content_flags (flags_of (classified us)) b).
Proof.
  intros Hf b. unfold ComputeContentFlags. change (negb _) with true. cbv iota.
  rewrite (Iterate_image _ seq us) by done. destruct (replay_classifies us true 0 0) as [o E]. erewrite bind_Ret by exact E. by rewrite Z.lor_0_l.
Qed.

(** ** What batches guarantee *)

(** ** Batches and ledgers *)

(** The batch after a run of operations, and the ledger of that run. *)
Lemma run_represented max_bytes ops : all_allowed max_bytes ops new_ledger ->
  exists b, exec_all ops (new_WriteBatch max_bytes) = Ret (spec_all max_bytes ops new_ledger).1 b /\
  represents (spec_all max_bytes ops new_ledger).2 b /\ sound (spec_all max_bytes ops new_ledger).2.
Proof. intros Ha. exact (exec_all_refines ops new_ledger (new_WriteBatch max_bytes) (new_represents _) new_sound Ha). Qed.

Lemma reread_replays {S} (handler : Handler S) l b st : represents l b -> sound l ->
  Iterate handler (WriteBatch_of (Contents b)) st = (o ← replay handler (l_updates l) true 0; mret (verdict o)) st.
Proof. intros Hl Hs. apply (Iterate_image _ (l_seq l)); [apply Hl|apply Hs]. Qed.

Lemma Sequence_image seq n rest b : rep_ b = image seq n rest -> 0 <= seq < 2 ^ 64 -> Sequence b = Some seq.
Proof.
  intros E Hs. unfold Sequence, peek. rewrite E, in_image by (unfold zlen; lia). cbn [fmap option_fmap option_map]. rewrite image_sequence.
  f_equal. rewrite EncodeFixed64_le, DecodeFixed64_le by (by rewrite length_le_bytes).
  rewrite take_ge by (by rewrite length_le_bytes). rewrite le_val_bytes. by apply Z.mod_small.
Qed.

(** C15. A write batch is a list of updates.  Any sequence of puts, deletes, merges,
    log data, markers, prepares, save points, rollbacks, clears and sequence
    numbers returns, status for status, what it returns on the list, and the
    batch is the serialized form of the list: header, records, content flags and
    save points.  In particular an update that would make the batch larger than
    its limit leaves no trace, and a rollback restores the updates at the save
    point. *)
Theorem batch_refines_ledger max_bytes ops : all_allowed max_bytes ops new_ledger ->
  let '(ss, l) := spec_all max_bytes ops new_ledger in
  exists b, exec_all ops (new_WriteBatch max_bytes) = Ret ss b /\ represents l b /\
    Count b = Some (u32 (entries (l_updates l))) /\ Sequence b = Some (l_seq l) /\ GetDataSize b = 12 + zlen (body (l_updates l)).
Proof.
  intros Ha. destruct (run_represented max_bytes ops Ha) as (b & Hrun & Hl & Hs).
  destruct (spec_all max_bytes ops new_ledger) as [ss l]. exists b. split; [done|]. split; [done|]. pose proof (rp_rep _ _ Hl) as Hr.
  split; [eapply Count_image; [exact Hr|apply u32_range]|]. split; [eapply Sequence_image; [exact Hr|apply Hs]|].
  unfold GetDataSize. cbn [snd] in Hr. by rewrite Hr, zlen_image.
Qed.

(** C16. A batch survives its serialization.  The bytes of a batch that was built by
    any sequence of operations, taken as a batch of their own, are iterated over
    without corruption: the handler gets exactly the updates of the batch, in
    their order, until it stops the iteration or an update fails; the status is
    that of the handler, and the count in the header is the number found. *)
Theorem batch_replays {S} (handler : Handler S) max_bytes ops : all_allowed max_bytes ops new_ledger ->
  exists b, exec_all ops (new_WriteBatch max_bytes) = Ret (spec_all max_bytes ops new_ledger).1 b /\
    forall st, Iterate handler (WriteBatch_of (Contents b)) st =
               (o ← replay handler (l_updates (spec_all max_bytes ops new_ledger).2) true 0; mret (verdict o)) st.
Proof.
  intros Ha. destruct (run_represented max_bytes ops Ha) as (b & Hrun & Hl & Hs). exists b. split; [done|].
  intros st. by apply reread_replays.
Qed.

(** C17. Batches of unknown origin are iterated over safely.  Whatever bytes a batch
    consists of, with a handler whose calls return, [Iterate] never reads
    outside of the batch and always returns. *)
Theorem any_batch_iterates {S} (handler : Handler S) (contents : bytes) st : total_handler handler ->
  exists s st', Iterate handler (WriteBatch_of contents) st = Ret s st'.
Proof. intros Hh. by apply Iterate_returns. Qed.

(** ** Appending *)

Lemma savepoint_is_set us : is_cleared (savepoint_of us) = false.
Proof.
  unfold is_cleared, savepoint_of. cbn [sp_size sp_count sp_content_flags]. apply Z.eqb_neq. rewrite !Z.lor_eq_0_iff. unfold zlen. lia.
Qed.

(** The updates [Append] takes. *)
Definition portion (wal_only : bool) (l : ledger) : list update :=
  if wal_only then default (l_updates l) (l_wal l) else l_updates l.

Lemma u32_sum x y y' : u32 y = u32 y' -> u32 (u32 x + y) = u32 (x + y').
Proof. intros H. unfold u32 in *. by rewrite Z.add_mod_idemp_l, Z.add_mod, H, <- Z.add_mod by lia. Qed.

Lemma peek_image seq n us k : peek 12 (zlen (body us)) (image seq n (body (us ++ k))) = Some (body us).
Proof.
  unfold peek. rewrite body_app, in_image by (unfold zlen; rewrite ?length_app; lia). f_equal. unfold sub. change (Z.to_nat 12) with 12%nat.
  rewrite image_rest. apply take_app_length'. unfold zlen. lia.
Qed.

(** What [Append] finds out about its source. *)
Lemma append_source wal_only l src (dst : WriteBatch) : represents l src -> zlen (body (l_updates l)) < 2 ^ 63 ->
  portion wal_only l `prefix_of` l_updates l ->
  exists count, u32 count = u32 (entries (portion wal_only l)) /\
  (if wal_only && negb (is_cleared (wal_term_point_ src)) then
     mret (u64 (sp_size (wal_term_point_ src) - kHeader), sp_count (wal_term_point_ src), sp_content_flags (wal_term_point_ src))
   else
     n ← the (Count src);
     mret (u64 (zlen (rep_ src) - kHeader), i32 n, content_flags_ src)) dst =
  Ret (zlen (body (portion wal_only l)), count, flags_of (portion wal_only l)) dst.
Proof.
  intros [Hr Hf Hs Hw] Hsize [k Hk]. assert (forall us, us ++ k = l_updates l -> u64 (12 + zlen (body us) - kHeader) = zlen (body us)) as Hu.
  { intros us E. rewrite <- E, body_app in Hsize. unfold kHeader, zlen in *. rewrite length_app in Hsize. rewrite u64_small; lia. }
  unfold portion in *. rewrite Hw. destruct wal_only; cbn [andb].
  1: destruct (l_wal l) as [us|]; cbn [from_option default id] in *; [rewrite savepoint_is_set; cbn [negb savepoint_of sp_size sp_count sp_content_flags];
       exists (i32 (entries us)); split; [apply u32_i32|]; by rewrite (Hu us)|].
  all: exists (i32 (u32 (entries (l_updates l)))); split; [by rewrite i32_u32, u32_i32|].
  all: try change (is_cleared new_SavePoint) with true; cbn [negb]; rewrite (Count_image _ _ _ _ Hr) by apply u32_range; cbn [the]; erewrite bind_Ret by reflexivity.
  all: by rewrite Hr, zlen_image, Hf, Hu.
Qed.

Lemma Append_refines wal_only l src d dst : represents l src -> zlen (body (l_updates l)) < 2 ^ 63 ->
  portion wal_only l `prefix_of` l_updates l -> represents d dst ->
  exists dst', wb_Append src wal_only dst = Ret StOK dst' /\ represents (with_updates (l_updates d ++ portion wal_only l) d) dst'.
Proof.
  intros Hl Hsize Hp [Hr Hf Hs Hw]. destruct (append_source wal_only l src dst Hl Hsize Hp) as (count & Hc & Hrun). destruct Hp as [k Hk].
  unfold wb_Append. erewrite bind_Ret by exact Hrun. cbv beta iota.
  erewrite bind_Ret by (eapply get_count_image; [exact Hr|apply u32_range]). erewrite bind_Ret by (eapply SetCount_image, Hr).
  rewrite (rp_rep _ _ Hl), Hk. change kHeader with 12. rewrite peek_image. cbn [the]. erewrite bind_Ret by reflexivity.
  eexists. split; [reflexivity|]. split; try done; cbn [with_updates l_updates l_seq]; fields.
  - by rewrite image_app, body_app, entries_app, (u32_sum _ _ _ Hc).
  - by rewrite Hf, flags_app.
Qed.

(** C18. Appending a batch appends its updates.  [Append] of a batch, or of its part
    before the WAL termination point as long as that part is still there, gives
    the batch of the updates of both, in order: the sequence number and save
    points are those of the first one, the count is the sum, and iterating over
    the serialized result replays the updates of both. *)
Theorem append_concatenates {S} (handler : Handler S) wal_only l src d dst :
  represents l src -> sound l -> zlen (body (l_updates l)) < 2 ^ 63 -> portion wal_only l `prefix_of` l_updates l ->
  represents d dst -> sound d ->
  exists dst', wb_Append src wal_only dst = Ret StOK dst' /\
    represents (with_updates (l_updates d ++ portion wal_only l) d) dst' /\
    forall st, Iterate handler (WriteBatch_of (Contents dst')) st =
               (o ← replay handler (l_updates d ++ portion wal_only l) true 0; mret (verdict o)) st.
Proof.
  intros Hl Hsl Hsize Hp Hd Hsd. destruct (Append_refines wal_only l src d dst Hl Hsize Hp Hd) as (dst' & Hrun & Hres).
  exists dst'. split; [done|]. split; [done|]. intros st. apply (reread_replays _ _ _ _ Hres). destruct Hsl as [_ Hfl _], Hsd as [Hq Hfd Hs].
  split; [done| |]; cbn [with_updates l_updates l_saved].
  - apply Forall_app. split; [done|]. destruct Hp as [k Hk]. rewrite Hk in Hfl. by apply Forall_app in Hfl as [? _].
  - eapply nested_mono; [|done]. by eexists.
Qed.

(** Rolling back does not move the WAL termination point.  When the updates
    before the point take more bytes than the batch has now, appending with
    [wal_only] copies bytes from beyond the end of the batch. *)
Theorem stale_wal_point_overreads l src us d dst : represents l src -> represents d dst -> l_wal l = Some us ->
  zlen (body (l_updates l)) < zlen (body us) < 2 ^ 63 -> wb_Append src true dst = UB.
Proof.
  intros [Hr Hf Hs Hw] Hd Ew Hsize. unfold wb_Append. rewrite Hw, Ew. cbn [from_option andb]. rewrite savepoint_is_set.
  cbn [negb savepoint_of sp_size sp_count sp_content_flags]. erewrite bind_Ret by reflexivity. cbv beta iota.
  erewrite bind_Ret by (eapply get_count_image; [apply Hd|apply u32_range]). erewrite bind_Ret by (eapply SetCount_image, Hd).
  unfold peek. rewrite Hr. rewrite u64_small by (unfold kHeader, zlen in *; lia).
  destruct (in_block _ _ _) eqn:E; [|done]. apply in_block_spec in E. fold (zlen (image (l_seq l) (u32 (entries (l_updates l))) (body (l_updates l)))) in E.
  rewrite zlen_image in E. unfold kHeader in E. lia.
Qed.

(** ** Flags and sizes *)

(** The content flags of a batch that was read back stop at the first marker the
    classifier does not know.  A batch that was built keeps the flags of all its
    updates; those computed for its serialized form leave out what comes from the
    first noop on, or after the first marker of a prepared transaction that is
    not written after its commit. *)
Theorem deferred_flags_stop_early max_bytes ops : all_allowed max_bytes ops new_ledger ->
  let us := l_updates (spec_all max_bytes ops new_ledger).2 in
  exists b, exec_all ops (new_WriteBatch max_bytes) = Ret (spec_all max_bytes ops new_ledger).1 b /\
    content_flags_ b = flags_of us /\
    ComputeContentFlags (WriteBatch_of (Contents b)) =
      Ret (flags_of (classified us)) (set_content_flags (flags_of (classified us)) (WriteBatch_of (Contents b))).
Proof.
  intros Ha us. destruct (run_represented max_bytes ops Ha) as (b & Hrun & [Hr Hf _ _] & [_ Hfits _]). exists b. split; [done|]. split; [done|].
  unfold Contents. rewrite Hr. by apply ComputeContentFlags_image.
Qed.

(** A key of 2^32 bytes or more.  [Put] refuses it; [Delete] writes a record with
    the low bits of its length, and what is left of the key stands where the next
    record is looked for. *)
Lemma oversized_key_is_cut cf k l b : represents l b -> max_bytes_ b = 0 -> 2 ^ 32 <= zlen k -> let n := Z.to_nat (u32 (zlen k)) in
  (forall v, wb_Put cf k v b = Ret (too_large "key") b) /\
  exists b', wb_Delete cf k b = Ret StOK b' /\
    rep_ b' = image (l_seq l) (u32 (entries (l_updates l) + 1)) (body (l_updates l) ++ encoded (UDelete cf (take n k)) ++ drop n k).
Proof.
  intros Hl Hm Hk n. split.
  - intros v. unfold wb_Put. destruct (Z.ltb_spec kMaxUint32 (zlen k)) as [|H]; [done|]. unfold kMaxUint32 in H. lia.
  - change (wb_Delete cf k) with (perform (UDelete cf k)). rewrite (perform_refines _ l) by done. cbn [refusal limited andb].
    unfold exceeds. rewrite Hm. cbn [Z.eqb negb andb]. eexists. split; [reflexivity|]. unfold grown. fields.
    rewrite entries_snoc, body_snoc. cbn [is_entry encoded]. f_equal. f_equal. rewrite <- app_assoc. f_equal.
    unfold slice_of, PutLengthPrefixedSlice, PutVarint32. cbn [app]. rewrite <- app_assoc, take_drop. f_equal. f_equal.
    pose proof (u32_range (zlen k)). rewrite length_take. unfold zlen in *. rewrite Nat.min_l by lia. unfold n.
    by rewrite Z2Nat.id, (u32_small (u32 _)) by lia.
Qed.

(** Keys and values in parts are written as if they were in one piece. *)
Lemma push_parts_next {A} ps (k : unit -> prog WriteBatch A) b : zlen (concat ps) < kMaxUint32 ->
  (push_parts ps ≫= k) b = (push_slice (concat ps) ≫= k) b.
Proof.
  intros H. unfold zlen, kMaxUint32 in H. erewrite !bind_Ret by reflexivity. unfold PutLengthPrefixedSliceParts.
  by rewrite total_parts, append_parts by lia.
Qed.

Lemma same_save_point m m' b : (forall b, m b = m' b) -> local_save_point m b = local_save_point m' b.
Proof. intros E. apply bind_same. intros p b'. unfold mbind, prog_bind. by rewrite E. Qed.

Lemma parts_as_one cf key value b : zlen (concat key) < kMaxUint32 -> zlen (concat value) < kMaxUint32 ->
  wb_Put_parts cf key value b = wb_Put cf (concat key) (concat value) b /\
  wb_Merge_parts cf key value b = wb_Merge cf (concat key) (concat value) b /\
  wb_DeleteRange_parts cf key value b = wb_DeleteRange cf (concat key) (concat value) b /\
  wb_Delete_parts cf key b = wb_Delete cf (concat key) b /\
  wb_SingleDelete_parts cf key b = wb_SingleDelete cf (concat key) b.
Proof.
  intros Hk Hv. assert (forall ps, zlen (concat ps) < kMaxUint32 -> total_length ps = zlen (concat ps)) as Ht.
  { intros ps H. unfold total_length, zlen, kMaxUint32 in *. rewrite total_parts; lia. }
  unfold wb_Put_parts, wb_Merge_parts, CheckSlicePartsLength, wb_Put, wb_Merge. rewrite !Ht by done.
  rewrite !(proj2 (Z.leb_gt _ _)), !(proj2 (Z.ltb_ge _ _)) by lia. cbn [st_ok negb].
  repeat split; apply same_save_point; intros ?; repeat (first [apply bind_same; intros ? ? | rewrite push_parts_next by done]); done.
Qed.

(** ** Examples *)

(** A handler that writes down what it is called with. *)
Definition recorder : Handler (list update) :=
  let note u : prog (list update) Status := modify (fun us => us ++ [u]);; mret StOK in
  MkHandler (fun cf k v => note (UPut cf k v)) (fun cf k => note (UDelete cf k)) (fun cf k => note (USingleDelete cf k))
    (fun cf k v => note (UDeleteRange cf k v)) (fun cf k v => note (UMerge cf k v)) (fun cf k v => note (UBlobIndex cf k v))
    (fun x => note (ULogData x);; mret tt) (fun u => note (UBeginPrepare (if u : bool then WriteUnprepared else WritePrepared)))
    (fun x => note (UEndPrepare x)) (fun _ => note UNoop) (fun x => note (URollback x)) (fun x => note (UCommit x)) (mret true) false true.

Definition key1 : bytes := [Byte.x61; Byte.x62].
Definition value1 : bytes := [Byte.x63].

(** A transaction: the put of the column family 300 is rolled back, the second merge does
    not fit. *)
Definition demo_ops : list batch_op :=
  [Do UNoop; Do (UPut 0 key1 value1); Save; Do (UPut 300 value1 key1); RollBack; Do (UDelete 5 key1); MarkWal;
   Do (UMerge 1 key1 value1); Do (UMerge 1 key1 value1); Pop; Prepare key1 WritePrepared; Number 77].
Definition demo_statuses : list Status :=
  [StOK; StOK; StOK; StOK; StOK; StOK; StOK; StOK; StMemoryLimit; StNotFound; StOK; StOK].
Definition demo_updates : list update :=
  [UBeginPrepare WritePrepared; UPut 0 key1 value1; UDelete 5 key1; UMerge 1 key1 value1; UEndPrepare key1].
Definition demo_ledger : ledger :=
  MkLedger 77 demo_updates [] (Some [UNoop; UPut 0 key1 value1; UDelete 5 key1]).

Ltac check_allowed := vm_compute; repeat match goal with
  | |- _ /\ _ => split | |- exists _, _ => eexists | |- _ -> False => discriminate | |- _ -> _ => intros _ | |- True => exact I | |- _ = _ => reflexivity end.

Lemma demo_allowed : all_allowed 33 demo_ops new_ledger.
Proof. check_allowed. Qed.

Lemma demo_spec : spec_all 33 demo_ops new_ledger = (demo_statuses, demo_ledger).
Proof. vm_compute. reflexivity. Qed.

Lemma batch_refines_ledger_witness : exists b, exec_all demo_ops (new_WriteBatch 33) = Ret demo_statuses b /\
  represents demo_ledger b /\ Count b = Some 3 /\ Sequence b = Some 77 /\ GetDataSize b = 35.
Proof. pose proof (batch_refines_ledger 33 demo_ops demo_allowed) as H. rewrite demo_spec in H. exact H. Defined.

Lemma batch_replays_witness : exists b, exec_all demo_ops (new_WriteBatch 33) = Ret demo_statuses b /\
  Iterate recorder (WriteBatch_of (Contents b)) [] = Ret StOK demo_updates.
Proof.
  destruct (batch_replays recorder 33 demo_ops demo_allowed) as (b & Hrun & Hit). rewrite demo_spec in Hrun, Hit.
  exists b. split; [exact Hrun|]. rewrite Hit. vm_compute. reflexivity.
Defined.

(** The count of this batch is wrong, and its last record is cut off. *)
Definition broken_bytes : bytes := image 3 9 ([byte_of kTypeValue; Byte.x01; Byte.x61; Byte.x01; Byte.x62; byte_of kTypeMerge; Byte.x07]).

Lemma recorder_total : total_handler recorder.
Proof. split; intros; cbn [recorder h_PutCF h_LogData]; intros st; eexists _, _; reflexivity. Qed.

Lemma any_batch_iterates_witness : exists s st', Iterate recorder (WriteBatch_of broken_bytes) [] = Ret s st' /\
  s = StCorruption "bad WriteBatch Merge" /\ st' = [UPut 0 [Byte.x61] [Byte.x62]].
Proof.
  destruct (any_batch_iterates recorder broken_bytes [] recorder_total) as (s & st' & H). exists s, st'. split; [exact H|].
  vm_compute in H. injection H as <- <-. done.
Defined.

(** The two batches of the examples below, as ledgers: the source is marked before
    its last update. *)
Definition source_ops : list batch_op := [Do (UPut 0 key1 value1); MarkWal; Do (UDelete 1 key1)].
Definition target_ops : list batch_op := [Number 9; Do (ULogData value1)].

Lemma append_concatenates_witness : exists src dst dst',
  exec_all source_ops (new_WriteBatch 0) = Ret [StOK; StOK; StOK] src /\ exec_all target_ops (new_WriteBatch 0) = Ret [StOK; StOK] dst /\
  wb_Append src true dst = Ret StOK dst' /\
  Iterate recorder (WriteBatch_of (Contents dst')) [] = Ret StOK [ULogData value1; UPut 0 key1 value1].
Proof.
  destruct (run_represented 0 source_ops ltac:(check_allowed)) as (src & Hsrc & Hl & Hsl).
  destruct (run_represented 0 target_ops ltac:(check_allowed)) as (dst & Hdst & Hd & Hsd).
  destruct (append_concatenates recorder true _ src _ dst Hl Hsl ltac:(by vm_compute) ltac:(by eexists [_]) Hd Hsd) as (dst' & Hrun & _ & Hit).
  exists src, dst, dst'. split; [exact Hsrc|]. split; [exact Hdst|]. split; [exact Hrun|]. rewrite Hit. vm_compute. reflexivity.
Defined.

(** The update before the termination point is rolled back. *)
Definition stale_ops : list batch_op := [Save; Do (UPut 0 key1 value1); MarkWal; RollBack].

Lemma stale_wal_point_overreads_witness : exists src dst,
  exec_all stale_ops (new_WriteBatch 0) = Ret [StOK; StOK; StOK; StOK] src /\ exec_all target_ops (new_WriteBatch 0) = Ret [StOK; StOK] dst /\
  wb_Append src true dst = UB.
Proof.
  destruct (run_represented 0 stale_ops ltac:(check_allowed)) as (src & Hsrc & Hl & _).
  destruct (run_represented 0 target_ops ltac:(check_allowed)) as (dst & Hdst & Hd & _).
  exists src, dst. split; [exact Hsrc|]. split; [exact Hdst|].
  exact (stale_wal_point_overreads _ src [UPut 0 key1 value1] _ dst Hl Hd eq_refl ltac:(by vm_compute)).
Defined.

(** The batch has a put, its serialized form says that it has none. *)
Lemma deferred_flags_stop_early_witness : exists b, exec_all demo_ops (new_WriteBatch 33) = Ret demo_statuses b /\
  Z.land (content_flags_ b) HAS_PUT = HAS_PUT /\
  exists b', ComputeContentFlags (WriteBatch_of (Contents b)) = Ret HAS_BEGIN_PREPARE b'.
Proof.
  destruct (deferred_flags_stop_early 33 demo_ops demo_allowed) as (b & Hrun & Hf & Hc). rewrite demo_spec in Hrun, Hf, Hc.
  exists b. split; [exact Hrun|]. split; [rewrite Hf; vm_compute; reflexivity|]. eexists. exact Hc.
Defined.
