(* ===== verification/SeqFile.v ===== *)
(** file/sequence_file_reader.h, file/sequence_file_reader.cc: reading a file from
    its start to its end, with a wrapper that reads ahead.

    The file is any implementation of the interface [FSSequentialFile]; the bytes
    a call stores through [scratch] and returns as a slice are its result. *)
From S2P Require Import Prelude Bits Coding IoStatus AlignedBuffer.
From stdpp Require Import base numbers list strings.
From Stdlib Require Import ZArith Lia.
Local Open Scope Z_scope.

Class FSSequentialFile (F : Type) := {
  sf_Read : Z -> prog F (IOStatus * bytes);
  sf_Skip : Z -> prog F IOStatus;
  sf_PositionedRead : Z -> Z -> prog F (IOStatus * bytes);
  sf_InvalidateCache : Z -> Z -> prog F IOStatus;
  sf_use_direct_io : F -> bool;
  sf_GetRequiredBufferAlignment : F -> Z }.

Definition kDefaultPageSize : Z := 4 * 1024.

(** ** Reading ahead *)

Record ReadaheadSequentialFile (F : Type) := MkReadaheadSequentialFile {
  ra_file : F; ra_alignment : Z; readahead_size_ : Z; ra_buffer : AlignedBuffer; buffer_offset_ : Z; read_offset_ : Z }.
Arguments MkReadaheadSequentialFile {F}.
Arguments ra_file {F}.
Arguments ra_alignment {F}.
Arguments readahead_size_ {F}.
Arguments ra_buffer {F}.
Arguments buffer_offset_ {F}.
Arguments read_offset_ {F}.

Section Readahead.
Context {F : Type} `{FSSequentialFile F} `{Allocator}.
Abbreviation RA := (ReadaheadSequentialFile F).

Definition set_ra_file (f : F) (r : RA) : RA :=
  MkReadaheadSequentialFile f (ra_alignment r) (readahead_size_ r) (ra_buffer r) (buffer_offset_ r) (read_offset_ r).
Definition set_ra_buffer (b : AlignedBuffer) (r : RA) : RA :=
  MkReadaheadSequentialFile (ra_file r) (ra_alignment r) (readahead_size_ r) b (buffer_offset_ r) (read_offset_ r).
Definition set_buffer_offset (o : Z) (r : RA) : RA :=
  MkReadaheadSequentialFile (ra_file r) (ra_alignment r) (readahead_size_ r) (ra_buffer r) o (read_offset_ r).
Definition set_read_offset (o : Z) (r : RA) : RA :=
  MkReadaheadSequentialFile (ra_file r) (ra_alignment r) (readahead_size_ r) (ra_buffer r) (buffer_offset_ r) o.

Definition ra_file_lens : lens RA F := Lens ra_file set_ra_file.
Definition ra_buffer_lens : lens RA AlignedBuffer := Lens ra_buffer set_ra_buffer.

Definition new_ReadaheadSequentialFile (file : F) (readahead_size : Z) : prog AlignedBuffer RA :=
  let alignment := sf_GetRequiredBufferAlignment file in
  let size := Roundup readahead_size alignment in
  set_Alignment alignment;;
  AllocateNewBuffer size false 0 0;;
  b ← gets id;
  mret (MkReadaheadSequentialFile file alignment size b 0 0).

(** Whether there was a hit, and the bytes copied from the buffer. *)
Definition TryReadFromCache (n : Z) : prog RA (bool * bytes) :=
  ro ← gets read_offset_;
  bo ← gets buffer_offset_;
  b ← gets ra_buffer;
  if (ro <? bo) || (u64 (bo + cursize_ b) <=? ro) then mret (false, []) else
  let offset_in_buffer := ro - bo in
  let cached_len := Z.min (u64 (cursize_ b - offset_in_buffer)) n in
  data ← zoom ra_buffer_lens (copy_out offset_in_buffer cached_len);
  modify (set_read_offset (u64 (ro + cached_len)));;
  mret (true, data).

(** [Read] stores its bytes at [BufferStart()]. *)
Definition ReadIntoBuffer (n : Z) : prog RA IOStatus :=
  cap ← gets (fun r => capacity_ (ra_buffer r));
  let n := if cap <? n then cap else n in
  '(s, result) ← zoom ra_file_lens (sf_Read n);
  zoom ra_buffer_lens (copy_in 0 result);;
  ro ← gets read_offset_;
  if ok s then
    modify (set_buffer_offset ro);;
    zoom ra_buffer_lens (buf_Size (zlen result));;
    mret s
  else mret s.

(** On failure without a result of the file the slice of the caller is not
    touched; it is empty here. *)
Definition ra_Read (n : Z) : prog RA (IOStatus * bytes) :=
  '(hit, cached) ← TryReadFromCache n;
  cur ← gets (fun r => cursize_ (ra_buffer r));
  size ← gets readahead_size_;
  if (hit : bool) && ((zlen cached =? n) || (cur <? size)) then mret (OK, cached) else
  let n := n - zlen cached in
  alignment ← gets ra_alignment;
  if size <=? u64 (n + alignment) then
    '(s, result) ← zoom ra_file_lens (sf_Read n);
    ro ← gets read_offset_;
    when (ok s) (modify (set_read_offset (u64 (ro + zlen result))));;
    zoom ra_buffer_lens buf_Clear;;
    mret (s, if ok s then cached ++ result else result)
  else
    s ← ReadIntoBuffer size;
    if ok s then
      '(_, remaining) ← TryReadFromCache n;
      mret (s, cached ++ remaining)
    else mret (s, []).

Definition ra_Skip (n : Z) : prog RA IOStatus :=
  b ← gets ra_buffer;
  ro ← gets read_offset_;
  bo ← gets buffer_offset_;
  let fin := u64 (bo + cursize_ b) in
  let '(n', ro') :=
    if 0 <? cursize_ b then
      if fin <=? u64 (ro + n) then (u64 (n - u64 (fin - ro)), fin) else (0, u64 (ro + n))
    else (n, ro) in
  modify (set_read_offset ro');;
  if 0 <? n' then
    s ← zoom ra_file_lens (sf_Skip n');
    when (ok s) (modify (set_read_offset (u64 (ro' + n'))));;
    zoom ra_buffer_lens buf_Clear;;
    mret s
  else mret OK.

Definition ra_PositionedRead (offset n : Z) : prog RA (IOStatus * bytes) := zoom ra_file_lens (sf_PositionedRead offset n).

Definition ra_InvalidateCache (offset length : Z) : prog RA IOStatus :=
  zoom ra_buffer_lens buf_Clear;;
  zoom ra_file_lens (sf_InvalidateCache offset length).

(** The wrapper is a file itself. *)
#[export] Instance readahead_file : FSSequentialFile RA := {
  sf_Read := ra_Read; sf_Skip := ra_Skip; sf_PositionedRead := ra_PositionedRead; sf_InvalidateCache := ra_InvalidateCache;
  sf_use_direct_io := fun r => sf_use_direct_io (ra_file r);
  sf_GetRequiredBufferAlignment := fun _ => kDefaultPageSize }.
End Readahead.

(** ** The reader *)

(** What [NewReadaheadSequentialFile] returns. *)
Inductive seq_file (F : Type) := Plain (f : F) | Ahead (r : ReadaheadSequentialFile F).
Arguments Plain {F}.
Arguments Ahead {F}.

Record SequentialFileReader (F : Type) := MkSequentialFileReader { sr_file : F; offset_ : Z }.
Arguments MkSequentialFileReader {F}.
Arguments sr_file {F}.
Arguments offset_ {F}.

(** Run a program on a buffer of its own. *)
Definition local_buffer {S A} (m : prog AlignedBuffer A) (b : AlignedBuffer) : prog S (A * AlignedBuffer) := fun s =>
  match m b with Ret a b' => Ret (a, b') s | Exit _ => Exit s | UB => UB | Hang => Hang end.

Section Reader.
Context {F : Type} `{FSSequentialFile F} `{Allocator}.

Definition NewReadaheadSequentialFile (file : F) (readahead_size : Z) : prog AlignedBuffer (seq_file F) :=
  if readahead_size <=? sf_GetRequiredBufferAlignment file then mret (Plain file) else
  r ← new_ReadaheadSequentialFile file readahead_size;
  mret (Ahead r).

(** A call through the base class. *)
Definition dispatch {A} (m1 : prog F A) (m2 : prog (ReadaheadSequentialFile F) A) : prog (seq_file F) A := fun f =>
  match f with
  | Plain f => match m1 f with Ret a f' => Ret a (Plain f') | Exit f' => Exit (Plain f') | UB => UB | Hang => Hang end
  | Ahead r => match m2 r with Ret a r' => Ret a (Ahead r') | Exit r' => Exit (Ahead r') | UB => UB | Hang => Hang end
  end.

#[export] Instance seq_file_sequential : FSSequentialFile (seq_file F) := {
  sf_Read n := dispatch (sf_Read n) (sf_Read n); sf_Skip n := dispatch (sf_Skip n) (sf_Skip n);
  sf_PositionedRead o n := dispatch (sf_PositionedRead o n) (sf_PositionedRead o n);
  sf_InvalidateCache o n := dispatch (sf_InvalidateCache o n) (sf_InvalidateCache o n);
  sf_use_direct_io f := match f with Plain f => sf_use_direct_io f | Ahead r => sf_use_direct_io r end;
  sf_GetRequiredBufferAlignment f := match f with Plain f => sf_GetRequiredBufferAlignment f | Ahead r => sf_GetRequiredBufferAlignment r end }.

Abbreviation SR := (SequentialFileReader F).
Definition new_SequentialFileReader (file : F) : SR := MkSequentialFileReader file 0.
Definition sr_file_lens : lens SR F := Lens sr_file (fun f r => MkSequentialFileReader f (offset_ r)).
Definition set_offset (o : Z) (r : SR) : SR := MkSequentialFileReader (sr_file r) o.

(** The pages around [n] bytes are read into a buffer, and the bytes copied out
    of it. *)
Definition read_direct (n : Z) : prog SR (IOStatus * bytes) :=
  offset ← gets offset_;
  modify (set_offset (u64 (offset + n)));;
  alignment ← gets (fun r => sf_GetRequiredBufferAlignment (sr_file r));
  let aligned_offset := TruncateToPageBoundary alignment offset in
  let offset_advance := u64 (offset - aligned_offset) in
  let size := u64 (Roundup (u64 (offset + n)) alignment - aligned_offset) in
  '(_, b) ← local_buffer (set_Alignment alignment;; AllocateNewBuffer size false 0 0) new_AlignedBuffer;
  '(s, tmp) ← zoom sr_file_lens (sf_PositionedRead aligned_offset size);
  '(_, b) ← local_buffer (copy_in 0 tmp) b;
  if ok s && (offset_advance <? zlen tmp) then
    '(data, _) ← local_buffer (buf_Size (zlen tmp);; buf_Read offset_advance (Z.min (zlen tmp - offset_advance) n)) b;
    mret (s, data)
  else mret (s, []).

Definition sr_Read (n : Z) : prog SR (IOStatus * bytes) :=
  direct ← gets (fun r => sf_use_direct_io (sr_file r));
  if (direct : bool) then read_direct n else zoom sr_file_lens (sf_Read n).

Definition sr_Skip (n : Z) : prog SR IOStatus :=
  direct ← gets (fun r => sf_use_direct_io (sr_file r));
  if (direct : bool) then
    offset ← gets offset_;
    modify (set_offset (u64 (offset + n)));;
    mret OK
  else zoom sr_file_lens (sf_Skip n).
End Reader.
