(* ===== verification/SeqFileSpec.v ===== *)
(** Reading ahead is invisible: a file behind [ReadaheadSequentialFile] keeps the
    contract of a sequential file, and so does [SequentialFileReader]. *)
From S2P Require Import Prelude Bits Coding IoStatus AlignedBuffer SeqFile.
From stdpp Require Import base numbers list strings.
From Stdlib Require Import ZArith Lia.
Local Open Scope Z_scope.

(** ** The contract of a sequential file

    [seq_rest] are the bytes behind the position, [seq_data] all of them.  Calls
    may fail, unless the file is reliable; then it is not known how far the
    position moved. *)
Class FSSequentialFileSpec (F : Type) `{FSSequentialFile F} := {
  seq_ok : F -> Prop;
  seq_rest : F -> bytes;
  seq_data : F -> bytes;
  seq_reliable : F -> Prop;
  seq_kept (f : F) (s : IOStatus) (f' : F) : Prop :=
    seq_ok f' /\ seq_rest f' `suffix_of` seq_rest f /\ seq_data f' = seq_data f /\ sf_use_direct_io f' = sf_use_direct_io f /\
    sf_GetRequiredBufferAlignment f' = sf_GetRequiredBufferAlignment f /\
    (seq_reliable f -> ok s = true /\ seq_reliable f');
  law_rest_size f : seq_ok f -> zlen (seq_rest f) < 2 ^ 62;
  law_Read f n : seq_ok f -> 0 <= n < 2 ^ 62 -> exists s b f', sf_Read n f = Ret (s, b) f' /\ seq_kept f s f' /\ zlen b <= n /\
    (ok s = true -> b = take (Z.to_nat n) (seq_rest f) /\ seq_rest f' = drop (Z.to_nat n) (seq_rest f));
  law_Skip f n : seq_ok f -> 0 <= n < 2 ^ 62 -> exists s f', sf_Skip n f = Ret s f' /\ seq_kept f s f' /\
    (ok s = true -> seq_rest f' = drop (Z.to_nat n) (seq_rest f));
  law_PositionedRead f o n : seq_ok f -> 0 <= o -> 0 <= n -> exists s b f', sf_PositionedRead o n f = Ret (s, b) f' /\
    seq_kept f s f' /\ seq_rest f' = seq_rest f /\ zlen b <= n /\ (ok s = true -> b = sub (seq_data f) o n) }.

(** The fields of a record that was just built. *)
Ltac rw_fields := cbn [ra_file ra_buffer readahead_size_ ra_alignment read_offset_ buffer_offset_ cursize_ capacity_
  alignment_ buf_memory set_cursize set_memory set_ra_file set_ra_buffer set_buffer_offset set_read_offset].

Section Readahead.
Context {F : Type} `{FSSequentialFile F} {HS : FSSequentialFileSpec F}.
Abbreviation RA := (ReadaheadSequentialFile F).

(** The prefetched bytes that were not read yet. *)
Definition unread (r : RA) : bytes := drop (Z.to_nat (read_offset_ r - buffer_offset_ r)) (buffered (ra_buffer r)).

Record ra_wf (r : RA) : Prop := {
  rw_file : seq_ok (ra_file r);
  rw_buffer : buffer_wf (ra_buffer r);
  rw_size : 0 < readahead_size_ r /\ capacity_ (ra_buffer r) = readahead_size_ r;
  rw_alignment : 0 < ra_alignment r <= 2 ^ 32;
  rw_offsets : 0 <= buffer_offset_ r < 2 ^ 64 /\ 0 <= read_offset_ r < 2 ^ 64;
  rw_cache : 0 < cursize_ (ra_buffer r) ->
    buffer_offset_ r <= read_offset_ r <= buffer_offset_ r + cursize_ (ra_buffer r) /\
    buffer_offset_ r + cursize_ (ra_buffer r) + zlen (seq_rest (ra_file r)) < 2 ^ 62;
  rw_position : cursize_ (ra_buffer r) = 0 -> seq_rest (ra_file r) = [] \/ read_offset_ r + zlen (seq_rest (ra_file r)) < 2 ^ 62;
  rw_end : 0 < cursize_ (ra_buffer r) < readahead_size_ r -> seq_rest (ra_file r) = [] }.

(** What is still to be read. *)
Definition ra_rest (r : RA) : bytes := unread r ++ seq_rest (ra_file r).

Definition ra_kept (r : RA) (s : IOStatus) (r' : RA) : Prop :=
  seq_kept (ra_file r) s (ra_file r') /\ readahead_size_ r' = readahead_size_ r /\ ra_alignment r' = ra_alignment r.

Lemma zlen_unread r : ra_wf r -> 0 < cursize_ (ra_buffer r) ->
  zlen (unread r) = buffer_offset_ r + cursize_ (ra_buffer r) - read_offset_ r.
Proof.
  intros Hr Hc. destruct (rw_cache _ Hr Hc) as [Ho _]. pose proof (zlen_buffered _ (rw_buffer _ Hr)) as Hz.
  unfold unread. rewrite zlen_drop; lia.
Qed.

Lemma unread_empty r : ra_wf r -> cursize_ (ra_buffer r) = 0 -> unread r = [].
Proof.
  intros Hr Hc. pose proof (zlen_buffered _ (rw_buffer _ Hr)) as Hz. rewrite Hc in Hz. unfold unread.
  destruct (buffered (ra_buffer r)); [by rewrite drop_nil|unfold zlen in Hz; cbn in Hz; lia].
Qed.

Lemma seq_kept_refl f : seq_ok f -> seq_kept f OK f.
Proof. by intros Hf. Qed.

Lemma ra_kept_refl r : ra_wf r -> ra_kept r OK r.
Proof. intros Hr. split; [apply seq_kept_refl, Hr|done]. Qed.

(** ** The cache *)

(** [r] after [k] bytes were taken from the buffer. *)
Definition advanced (k : Z) (r : RA) : RA := set_read_offset (read_offset_ r + k) r.

Lemma wf_advanced r k : ra_wf r -> 0 <= k <= zlen (unread r) -> 0 < cursize_ (ra_buffer r) ->
  ra_wf (advanced k r) /\ unread (advanced k r) = drop (Z.to_nat k) (unread r).
Proof.
  intros Hr Hk Hc. rewrite (zlen_unread r Hr Hc) in Hk. pose proof Hr as []. destruct (rw_cache0 Hc) as [Ho Hb].
  pose proof (zlen_nonneg (seq_rest (ra_file r))). split.
  - split; cbn -[Z.pow]; try done; try lia.
  - unfold unread, advanced. cbn -[Z.pow]. rewrite drop_drop. f_equal. lia.
Qed.

Lemma TryReadFromCache_ok r n : ra_wf r -> 0 <= n ->
  exists hit r', TryReadFromCache n r = Ret (hit, take (Z.to_nat n) (unread r)) r' /\ ra_wf r' /\ ra_file r' = ra_file r /\
    ra_kept r OK r' /\ ra_buffer r' = ra_buffer r /\ unread r' = drop (Z.to_nat n) (unread r) /\
    (hit = true -> 0 < cursize_ (ra_buffer r)) /\ (hit = false -> unread r = []).
Proof.
  intros Hr Hn. pose proof (rw_buffer _ Hr) as Hb. pose proof (bw_cursize _ Hb) as Hcur. pose proof (bw_size _ Hb) as Hcap.
  pose proof (bw_memory _ Hb) as Hmem. pose proof (rw_offsets _ Hr) as Hoff. pose proof (zlen_nonneg (seq_rest (ra_file r))) as Hrest.
  pose proof (ra_kept_refl r Hr) as Hkept.
  unfold TryReadFromCache. rewrite !bind_gets.
  destruct (decide (0 < cursize_ (ra_buffer r))) as [Hc|Hc].
  - destruct (rw_cache _ Hr Hc) as [Ho Hmax]. rewrite (u64_small (_ + _)) by lia. pose proof (zlen_unread r Hr Hc) as Hz.
    destruct (Z.ltb_spec (read_offset_ r) (buffer_offset_ r)); [lia|]. cbn [orb].
    destruct (Z.leb_spec (buffer_offset_ r + cursize_ (ra_buffer r)) (read_offset_ r)) as [Hend|Hin].
    + assert (unread r = []) as Hu by (apply nil_length_inv; unfold zlen in Hz; lia).
      exists false, r. rewrite Hu, take_nil, drop_nil. done.
    + rewrite (u64_small (cursize_ _ - _)) by lia. set (k := Z.min _ n).
      assert (copy_out (read_offset_ r - buffer_offset_ r) k (ra_buffer r) = Ret (take (Z.to_nat n) (unread r)) (ra_buffer r)) as Hout.
      { rewrite copy_out_ok by lia. f_equal. unfold unread, buffered. unfold sub. rewrite skipn_firstn_comm, take_take. f_equal. lia. }
      erewrite bind_Ret by (apply (zoom_Ret ra_buffer_lens), Hout). erewrite bind_Ret by reflexivity.
      destruct (wf_advanced r k Hr ltac:(lia) Hc) as [Hw' Hu']. rewrite u64_small by lia.
      exists true, (advanced k r). split; [by destruct r|]. split; [done|]. split; [done|]. split; [done|]. split; [done|].
      split; [|done]. rewrite Hu'. destruct (decide (n <= zlen (unread r))); [f_equal; f_equal; lia|].
      rewrite !drop_ge; [done|unfold zlen in *; lia..].
  - assert (cursize_ (ra_buffer r) = 0) as Hc0 by lia. rewrite Hc0, Z.add_0_r, u64_small by lia.
    pose proof (unread_empty r Hr Hc0) as Hu. exists false, r. rewrite Hu, take_nil, drop_nil.
    split; [by destruct (Z.ltb_spec (read_offset_ r) (buffer_offset_ r)), (Z.leb_spec (buffer_offset_ r) (read_offset_ r)); cbn [orb]; try lia|].
    done.
Qed.

Lemma caught_up r : ra_wf r -> unread r = [] ->
  seq_rest (ra_file r) = [] \/ read_offset_ r + zlen (seq_rest (ra_file r)) < 2 ^ 62.
Proof.
  intros Hr Hu. pose proof (bw_cursize _ (rw_buffer _ Hr)). destruct (decide (0 < cursize_ (ra_buffer r))) as [Hc|Hc].
  - destruct (rw_cache _ Hr Hc) as [Ho Hb]. pose proof (zlen_unread r Hr Hc) as Hz. rewrite Hu in Hz. cbn in Hz. right. unfold zlen at 1 in Hz. cbn in Hz. lia.
  - apply Hr. lia.
Qed.

Lemma zlen_suffix {A} (x y : list A) : x `suffix_of` y -> zlen x <= zlen y.
Proof. intros Hs%suffix_length. unfold zlen. lia. Qed.

Lemma suffix_nil {A} (x y : list A) : x `suffix_of` y -> y = [] -> x = [].
Proof. intros Hs ->. by apply suffix_nil_inv in Hs. Qed.

(** The memory of the buffer after the file stored [b] at its start. *)
Definition stored (b : bytes) (r : RA) : AlignedBuffer := set_memory (overwrite (buf_memory (ra_buffer r)) 0 b) (ra_buffer r).

Lemma zlen_stored b r : zlen b <= zlen (buf_memory (ra_buffer r)) -> zlen (buf_memory (stored b r)) = zlen (buf_memory (ra_buffer r)).
Proof. intros Hb. pose proof (zlen_nonneg b). unfold stored. rw_fields. rewrite zlen_overwrite; unfold zlen in *; lia. Qed.

(** The prefetch succeeded. *)
Lemma wf_filled r f' b : ra_wf r -> unread r = [] -> seq_ok f' -> b = take (Z.to_nat (readahead_size_ r)) (seq_rest (ra_file r)) ->
  seq_rest f' = drop (Z.to_nat (readahead_size_ r)) (seq_rest (ra_file r)) ->
  let r' := MkReadaheadSequentialFile f' (ra_alignment r) (readahead_size_ r) (set_cursize (zlen b) (stored b r)) (read_offset_ r) (read_offset_ r) in
  ra_wf r' /\ unread r' = b.
Proof.
  intros Hr Hu Hf' Eb Ef. pose proof (caught_up r Hr Hu) as Hpos. pose proof Hr as []. destruct rw_size0 as [Hs Hcap].
  pose proof rw_buffer0 as []. pose proof (zlen_nonneg b) as Hb0. pose proof (zlen_nonneg (seq_rest f')) as Hf0.
  assert (zlen b <= readahead_size_ r) as Hb by (rewrite Eb; unfold zlen; rewrite length_take; lia).
  assert (zlen b + zlen (seq_rest f') = zlen (seq_rest (ra_file r))) as Hsum.
  { rewrite Eb, Ef. unfold zlen. rewrite length_take, length_drop. lia. }
  assert (zlen b < readahead_size_ r -> seq_rest f' = []) as Hend.
  { intros Hlt. rewrite Ef. apply drop_ge. rewrite Eb in Hlt. unfold zlen in Hlt. rewrite length_take in Hlt. lia. }
  assert (0 < zlen b -> read_offset_ r + zlen b + zlen (seq_rest f') < 2 ^ 62) as Hlim.
  { intros Hp. destruct Hpos as [E|E]; [|lia]. rewrite E in Eb. rewrite take_nil in Eb. rewrite Eb in Hp. unfold zlen in Hp. cbn in Hp. lia. }
  split.
  - split; rw_fields; try done; try lia.
    + split; unfold stored; rw_fields; try done; try lia. fold (stored b r). rewrite <- (zlen_stored b r) in bw_memory by lia. done.
    + intros Hz. left. apply Hend. lia.
    + intros Hz. apply Hend. lia.
  - unfold unread, buffered, stored. rw_fields. rewrite Z.sub_diag. cbn [Z.to_nat drop].
    pose proof (take_overwrite (buf_memory (ra_buffer r)) b 0 ltac:(lia)) as Ht. by rewrite Z.add_0_l in Ht.
Qed.

(** It failed, and may have left bytes in the memory of the buffer. *)
Lemma wf_spoiled r s f' b : ra_wf r -> unread r = [] -> seq_kept (ra_file r) s f' -> zlen b <= readahead_size_ r ->
  let r' := set_ra_buffer (stored b r) (set_ra_file f' r) in ra_wf r' /\ unread r' = [].
Proof.
  intros Hr Hu (Hf' & Hsuf & _) Hb. pose proof Hr as []. pose proof rw_buffer0 as [].
  pose proof (zlen_stored b r ltac:(lia)) as Hm. pose proof (zlen_suffix _ _ Hsuf). split.
  - split; rw_fields; unfold stored; rw_fields; try done; try lia.
    + split; rw_fields; try done. fold (stored b r). cbn in Hm. lia.
    + intros Hp. destruct (rw_position0 Hp) as [E|E]; [left; by eapply suffix_nil|right; lia].
    + intros Hp. specialize (rw_end0 Hp). by eapply suffix_nil.
  - unfold unread, buffered in *. rw_fields. unfold stored in *. cbn [buf_memory set_memory cursize_] in *.
    apply drop_ge. apply (f_equal length) in Hu. rewrite length_drop, length_take in Hu. cbn in Hu. rewrite length_take. unfold zlen in *. lia.
Qed.

(** The next bytes of the file are put into the buffer. *)
Lemma ReadIntoBuffer_ok r : ra_wf r -> unread r = [] ->
  exists s r', ReadIntoBuffer (readahead_size_ r) r = Ret s r' /\ ra_wf r' /\ ra_kept r s r' /\ (ok s = false -> unread r' = []) /\
    (ok s = true -> unread r' = take (Z.to_nat (readahead_size_ r)) (seq_rest (ra_file r)) /\
                    seq_rest (ra_file r') = drop (Z.to_nat (readahead_size_ r)) (seq_rest (ra_file r))).
Proof.
  intros Hr Hu. pose proof (rw_size _ Hr) as [Hs Hcap]. pose proof (bw_memory _ (rw_buffer _ Hr)). pose proof (bw_size _ (rw_buffer _ Hr)).
  unfold ReadIntoBuffer. rewrite bind_gets, Hcap, Z.ltb_irrefl.
  destruct (law_Read (ra_file r) (readahead_size_ r) (rw_file _ Hr) ltac:(lia)) as (s & b & f' & Hread & Hk & Hb & Hok).
  erewrite bind_Ret by (apply (zoom_Ret ra_file_lens), Hread). cbv beta iota.
  erewrite bind_Ret by (apply (zoom_Ret ra_buffer_lens); apply copy_in_ok; cbn; lia). rewrite bind_gets.
  destruct (ok s) eqn:Es.
  - destruct (Hok eq_refl) as [Eb Ef]. erewrite bind_Ret by reflexivity. erewrite bind_Ret by reflexivity.
    destruct (wf_filled r f' b Hr Hu (proj1 Hk) Eb Ef) as [Hw Hur]. eexists s, _. split; [reflexivity|].
    split; [exact Hw|]. split; [by split|]. split; [by rewrite Es|]. intros _. split; [by rewrite <- Eb|done].
  - destruct (wf_spoiled r s f' b Hr Hu Hk Hb) as [Hw Hur]. eexists s, _. split; [reflexivity|].
    split; [exact Hw|]. split; [by split|]. split; [done|by rewrite Es].
Qed.

(** ** Reading and skipping *)

(** The file was used directly: nothing is cached, the position is [ro]. *)
Definition emptied (f' : F) (ro : Z) (r : RA) : RA :=
  MkReadaheadSequentialFile f' (ra_alignment r) (readahead_size_ r) (set_cursize 0 (ra_buffer r)) (buffer_offset_ r) ro.

Lemma wf_emptied r f' ro : ra_wf r -> seq_ok f' -> 0 <= ro < 2 ^ 64 -> seq_rest f' = [] \/ ro + zlen (seq_rest f') < 2 ^ 62 ->
  ra_wf (emptied f' ro r) /\ ra_rest (emptied f' ro r) = seq_rest f'.
Proof.
  intros Hr Hf' Hro Hpos. pose proof Hr as []. pose proof rw_buffer0 as [].
  assert (ra_wf (emptied f' ro r)) as Hw by (split; unfold emptied; rw_fields; try done; try lia; split; rw_fields; try done; lia).
  split; [done|]. unfold ra_rest. by rewrite (unread_empty _ Hw).
Qed.

(** What a call promises about the whole wrapper. *)
Definition ra_read_post (r : RA) (n : Z) (s : IOStatus) (b : bytes) (r' : RA) : Prop :=
  ra_wf r' /\ ra_kept r s r' /\ ra_rest r' `suffix_of` ra_rest r /\ zlen b <= n /\
  (ok s = true -> b = take (Z.to_nat n) (ra_rest r) /\ ra_rest r' = drop (Z.to_nat n) (ra_rest r)).

(** The bytes that are not cached are read from the file, past the buffer. *)
Lemma read_past r n : ra_wf r -> unread r = [] -> 0 <= n < 2 ^ 62 ->
  exists s b f', sf_Read n (ra_file r) = Ret (s, b) f' /\
    ra_read_post r n s b (emptied f' (if ok s then u64 (read_offset_ r + zlen b) else read_offset_ r) r).
Proof.
  intros Hr Hu Hn. pose proof (caught_up r Hr Hu) as Hpos. pose proof (rw_offsets _ Hr) as [_ Hro].
  destruct (law_Read (ra_file r) n (rw_file _ Hr) Hn) as (s & b & f' & Hread & Hk & Hb & Hok).
  exists s, b, f'. split; [done|]. pose proof Hk as (Hf' & Hsuf & _). pose proof (zlen_suffix _ _ Hsuf) as Hle. pose proof (zlen_nonneg b).
  pose proof (zlen_nonneg (seq_rest f')).
  edestruct (wf_emptied r f' (if ok s then u64 (read_offset_ r + zlen b) else read_offset_ r) Hr Hf') as [Hw Hrest].
  - destruct (ok s); [unfold u64; apply Z.mod_pos_bound; lia|done].
  - destruct Hpos as [E|E]; [left; by eapply suffix_nil|]. right. destruct (ok s) eqn:Es; [|lia].
    destruct (Hok eq_refl) as [Eb Ef]. assert (zlen b + zlen (seq_rest f') = zlen (seq_rest (ra_file r))) as Hsum.
    { rewrite Eb, Ef. unfold zlen. rewrite length_take, length_drop. lia. }
    rewrite u64_small; lia.
  - split; [done|]. split; [done|]. rewrite Hrest. unfold ra_rest at 1 2 3. by rewrite Hu.
Qed.

(** They are read through the buffer. *)
Lemma read_through r n : ra_wf r -> unread r = [] -> 0 <= n <= readahead_size_ r ->
  exists s r1, ReadIntoBuffer (readahead_size_ r) r = Ret s r1 /\
    (ok s = false -> ra_read_post r n s [] r1) /\
    (ok s = true -> exists hit b r', TryReadFromCache n r1 = Ret (hit, b) r' /\ ra_read_post r n s b r').
Proof.
  intros Hr Hu Hn. destruct (ReadIntoBuffer_ok r Hr Hu) as (s & r1 & Hread & Hw1 & Hk1 & Hbad & Hgood).
  pose proof (rw_size _ Hr) as [Hs _]. exists s, r1. split; [done|]. split; intros Es.
  - split; [done|]. split; [done|]. unfold ra_rest. rewrite Hu, (Hbad Es). split; [apply Hk1|]. split; [unfold zlen; cbn; lia|by rewrite Es].
  - destruct (Hgood Es) as [Eu Er]. destruct (TryReadFromCache_ok r1 n Hw1 ltac:(lia)) as (hit & r' & Htry & Hw' & Ef & Hk' & _ & Eu' & _).
    eexists hit, _, r'. split; [exact Htry|].
    assert (ra_rest r' = drop (Z.to_nat n) (ra_rest r)) as Edrop.
    { unfold ra_rest. rewrite Eu', Ef, Eu, Er, Hu. cbn [app]. set (q := seq_rest (ra_file r)).
      rewrite <- (take_drop (Z.to_nat (readahead_size_ r)) q) at 3. rewrite drop_app.
      destruct (decide (readahead_size_ r <= zlen q)).
      - rewrite length_take, Nat.min_l by (unfold zlen in *; lia).
        by replace (Z.to_nat n - Z.to_nat (readahead_size_ r))%nat with 0%nat by lia.
      - rewrite (drop_ge q (Z.to_nat (readahead_size_ r))) by (unfold zlen in *; lia). by rewrite drop_nil. }
    assert (take (Z.to_nat n) (unread r1) = take (Z.to_nat n) (ra_rest r)) as Etake.
    { rewrite Eu, take_take, Nat.min_l by lia. unfold ra_rest. by rewrite Hu. }
    destruct Hk1 as (Hk1 & Hsz & Hal), Hk' as (_ & Hsz' & Hal').
    split; [done|]. split; [|rewrite Edrop, Etake].
    + split; [by rewrite Ef|by rewrite Hsz', Hal', Hsz, Hal].
    + split; [apply suffix_drop|]. split; [|done]. unfold zlen. rewrite length_take. lia.
Qed.

Lemma kept_trans r r1 s r' : ra_kept r OK r1 -> ra_kept r1 s r' -> ra_kept r s r'.
Proof.
  intros ((Ho & Hs & Hd & Hu & Ha & Hre) & Hz & Hl) ((Ho' & Hs' & Hd' & Hu' & Ha' & Hre') & Hz' & Hl').
  split; [|by rewrite Hz', Hl', Hz, Hl]. split; [done|]. split; [by etrans|].
  rewrite Hd', Hu', Ha', Hd, Hu, Ha. split; [done|]. split; [done|]. split; [done|]. intros Hx. apply Hre', Hre, Hx.
Qed.

(** A read of which the bytes [c] came from the cache. *)
Lemma read_after r r1 n c s b r' : ra_kept r OK r1 -> ra_rest r = c ++ ra_rest r1 -> zlen c <= n ->
  ra_read_post r1 (n - zlen c) s b r' -> ra_read_post r n s (if ok s then c ++ b else b) r'.
Proof.
  intros Hk Hc Hn (Hw & Hk' & Hs & Hb & Hok). pose proof (zlen_nonneg c). split; [done|]. split; [by eapply kept_trans|].
  split; [rewrite Hc; etrans; [exact Hs|by apply suffix_app_r]|].
  destruct (ok s); [|split; [lia|done]]. rewrite zlen_app. split; [lia|]. intros _. destruct (Hok eq_refl) as [-> ->].
  replace (Z.to_nat n) with (length c + Z.to_nat (n - zlen c))%nat by (unfold zlen in *; lia).
  by rewrite Hc, take_app_add, drop_app_add.
Qed.

Lemma read_cached r r1 n : ra_kept r OK r1 -> ra_wf r1 -> ra_file r1 = ra_file r -> unread r1 = drop (Z.to_nat n) (unread r) -> 0 <= n ->
  zlen (take (Z.to_nat n) (unread r)) = n \/ seq_rest (ra_file r) = [] -> ra_read_post r n OK (take (Z.to_nat n) (unread r)) r1.
Proof.
  intros Hk Hw Ef Eu Hn Hcase.
  assert (take (Z.to_nat n) (ra_rest r) = take (Z.to_nat n) (unread r) /\ ra_rest r1 = drop (Z.to_nat n) (ra_rest r)) as [Et Ed].
  { unfold ra_rest. rewrite Ef, Eu. destruct Hcase as [Hz| ->]; [|by rewrite !app_nil_r].
    unfold zlen in Hz. rewrite length_take in Hz. rewrite take_app_le, drop_app_le by lia. done. }
  split; [done|]. split; [done|]. rewrite Ed, Et. split; [apply suffix_drop|]. split; [|done]. unfold zlen. rewrite length_take. lia.
Qed.

Lemma ra_Read_ok r n : ra_wf r -> 0 <= n < 2 ^ 62 -> exists s b r', ra_Read n r = Ret (s, b) r' /\ ra_read_post r n s b r'.
Proof.
  intros Hr Hn. destruct (TryReadFromCache_ok r n Hr ltac:(lia)) as (hit & r1 & Htry & Hw1 & Ef & Hk & Eb & Eu & Hhit & Hmiss).
  set (c := take (Z.to_nat n) (unread r)) in *. pose proof (zlen_nonneg c) as Hc0.
  assert (zlen c <= n) as Hcn by (unfold c, zlen; rewrite length_take; lia).
  pose proof (rw_alignment _ Hr) as Hal. pose proof (bw_size _ (rw_buffer _ Hr)). pose proof (rw_size _ Hr) as [Hs Hcap].
  unfold ra_Read. erewrite bind_Ret by exact Htry. cbv beta iota. rewrite !bind_gets.
  pose proof Hk as (_ & Esz & Eal). rewrite Eb, Esz.
  destruct (hit && _) eqn:Econd.
  - apply andb_true_iff in Econd as [-> Hor]. exists OK, c, r1. split; [done|]. apply read_cached; try done; [lia|].
    apply orb_true_iff in Hor as [Hz%Z.eqb_eq|Hz%Z.ltb_lt]; [by left|right]. apply Hr. specialize (Hhit eq_refl). lia.
  - assert (c = unread r /\ unread r1 = []) as [Ec Hu1].
    { destruct hit; [|by rewrite Eu; unfold c; rewrite (Hmiss eq_refl), take_nil, drop_nil].
      cbn [andb] in Econd. apply orb_false_iff in Econd as [Hz%Z.eqb_neq _]. rewrite Eu. unfold c, zlen in *. rewrite length_take in *.
      rewrite take_ge, drop_ge by lia. done. }
    assert (ra_rest r = c ++ ra_rest r1) as Erest by (unfold ra_rest; by rewrite Ec, Hu1, Ef).
    rewrite bind_gets, Eal, u64_small by lia.
    destruct (Z.leb_spec (readahead_size_ r) (n - zlen c + ra_alignment r)) as [Hbig|Hsmall].
    + destruct (read_past r1 (n - zlen c) Hw1 Hu1 ltac:(lia)) as (s & b & f' & Hread & Hpost).
      erewrite bind_Ret by (apply (zoom_Ret ra_file_lens), Hread). cbv beta iota. rewrite bind_gets.
      eexists s, _, _. split; [|eapply read_after; [exact Hk|exact Erest|done|exact Hpost]].
      destruct (ok s) eqn:Es; reflexivity.
    + destruct (read_through r1 (n - zlen c) Hw1 Hu1 ltac:(lia)) as (s & r2 & Hread & Hbad & Hgood). rewrite Esz in Hread.
      erewrite bind_Ret by exact Hread. destruct (ok s) eqn:Es.
      * destruct (Hgood eq_refl) as (hit2 & b & r' & Htry2 & Hpost). erewrite bind_Ret by exact Htry2. cbv beta iota.
        eexists s, _, r'. split; [reflexivity|]. pose proof (read_after r r1 n c s b r' Hk Erest Hcn Hpost) as Hfin.
        by rewrite Es in Hfin.
      * eexists s, _, r2. split; [reflexivity|].
        pose proof (read_after r r1 n c s [] r2 Hk Erest Hcn (Hbad eq_refl)) as Hfin. by rewrite Es in Hfin.
Qed.

Definition ra_skip_post (r : RA) (n : Z) (s : IOStatus) (r' : RA) : Prop :=
  ra_wf r' /\ ra_kept r s r' /\ ra_rest r' `suffix_of` ra_rest r /\ (ok s = true -> ra_rest r' = drop (Z.to_nat n) (ra_rest r)).

Lemma skip_past r n : ra_wf r -> unread r = [] -> 0 <= n < 2 ^ 62 ->
  exists s f', sf_Skip n (ra_file r) = Ret s f' /\
    ra_skip_post r n s (emptied f' (if ok s then u64 (read_offset_ r + n) else read_offset_ r) r).
Proof.
  intros Hr Hu Hn. pose proof (caught_up r Hr Hu) as Hpos. pose proof (rw_offsets _ Hr) as [_ Hro].
  destruct (law_Skip (ra_file r) n (rw_file _ Hr) Hn) as (s & f' & Hskip & Hk & Hok).
  exists s, f'. split; [done|]. pose proof Hk as (Hf' & Hsuf & _). pose proof (zlen_suffix _ _ Hsuf) as Hle.
  edestruct (wf_emptied r f' (if ok s then u64 (read_offset_ r + n) else read_offset_ r) Hr Hf') as [Hw Hrest].
  - destruct (ok s); [unfold u64; apply Z.mod_pos_bound; lia|done].
  - destruct Hpos as [E|E]; [left; by eapply suffix_nil|]. destruct (ok s) eqn:Es; [|right; lia].
    specialize (Hok eq_refl). destruct (decide (n < zlen (seq_rest (ra_file r)))) as [Hlt|Hge].
    + right. rewrite Hok, zlen_drop by lia. rewrite u64_small; lia.
    + left. rewrite Hok. apply drop_ge. unfold zlen in *. lia.
  - split; [done|]. split; [done|]. rewrite Hrest. unfold ra_rest at 1 2. by rewrite Hu.
Qed.

(** Skipping what is cached. *)
Lemma skip_cached r k : ra_wf r -> 0 < cursize_ (ra_buffer r) -> 0 <= k <= zlen (unread r) -> ra_skip_post r k OK (advanced k r).
Proof.
  intros Hr Hc Hk. destruct (wf_advanced r k Hr Hk Hc) as [Hw Eu].
  assert (ra_rest (advanced k r) = drop (Z.to_nat k) (ra_rest r)) as Ed.
  { unfold ra_rest. rewrite Eu, drop_app_le; [done|]. unfold zlen in Hk. lia. }
  split; [done|]. split; [split; [apply seq_kept_refl, Hr|done]|]. rewrite Ed. split; [apply suffix_drop|done].
Qed.

(** One skip after the other. *)
Lemma skip_after r r1 k n s r' : 0 <= k -> 0 <= n -> ra_skip_post r k OK r1 -> ra_skip_post r1 n s r' -> ra_skip_post r (k + n) s r'.
Proof.
  intros Hk Hn (_ & Hk1 & Hs1 & Ho1) (Hw & Hk2 & Hs2 & Ho2). split; [done|]. split; [by eapply kept_trans|]. split; [by etrans|].
  intros Hs. rewrite (Ho2 Hs), (Ho1 eq_refl), drop_drop. f_equal. lia.
Qed.

(** What is not cached is skipped in the file. *)
Lemma skip_rest r r1 n k : ra_wf r1 -> unread r1 = [] -> ra_skip_post r k OK r1 -> 0 <= k <= n -> n < 2 ^ 62 ->
  exists s r', (if 0 <? n - k then
    s ← zoom ra_file_lens (sf_Skip (n - k)); when (ok s) (modify (set_read_offset (u64 (read_offset_ r1 + (n - k)))));;
    zoom ra_buffer_lens buf_Clear;; mret s else mret OK) r1 = Ret s r' /\ ra_skip_post r n s r'.
Proof.
  intros Hr1 Hu1 Hpost Hk Hn. destruct (Z.ltb_spec 0 (n - k)) as [Hpos|Hz].
  - destruct (skip_past r1 (n - k) Hr1 Hu1 ltac:(lia)) as (s & f' & Hskip & Hpost').
    erewrite bind_Ret by (apply (zoom_Ret ra_file_lens), Hskip). eexists s, _.
    pose proof (skip_after r r1 k (n - k) s _ ltac:(lia) ltac:(lia) Hpost Hpost') as Hfin. rewrite Zplus_minus in Hfin.
    split; [|exact Hfin]. destruct (ok s); reflexivity.
  - exists OK, r1. split; [done|]. by replace n with k by lia.
Qed.

Lemma ra_Skip_ok r n : ra_wf r -> 0 <= n < 2 ^ 62 -> exists s r', ra_Skip n r = Ret s r' /\ ra_skip_post r n s r'.
Proof.
  intros Hr Hn. pose proof (bw_cursize _ (rw_buffer _ Hr)) as Hcur. pose proof (zlen_nonneg (seq_rest (ra_file r))).
  pose proof (fun r1 k => skip_rest r r1 n k) as Hgo.
  unfold ra_Skip. rewrite !bind_gets. destruct (Z.ltb_spec 0 (cursize_ (ra_buffer r))) as [Hc|Hc].
  - destruct (rw_cache _ Hr Hc) as [Ho Hmax]. pose proof (zlen_unread r Hr Hc) as Hz. pose proof (rw_offsets _ Hr).
    rewrite !(u64_small (buffer_offset_ r + _)), !(u64_small (read_offset_ r + n)) by lia.
    destruct (Z.leb_spec (buffer_offset_ r + cursize_ (ra_buffer r)) (read_offset_ r + n)) as [Hle|Hlt].
    + rewrite (u64_small (_ + _ - _)), u64_small by lia. rewrite <- Hz. cbv beta iota. erewrite bind_Ret by reflexivity.
      replace (buffer_offset_ r + cursize_ (ra_buffer r)) with (read_offset_ r + zlen (unread r)) by lia.
      pose proof (zlen_nonneg (unread r)). destruct (wf_advanced r (zlen (unread r)) Hr ltac:(lia) Hc) as [Hw Eu].
      apply (Hgo (advanced (zlen (unread r)) r)); [done| |apply skip_cached; [done..|lia]|lia|lia].
      rewrite Eu. apply drop_ge. unfold zlen. lia.
    + cbv beta iota. erewrite bind_Ret by reflexivity. exists OK, (advanced n r). split; [done|]. apply skip_cached; [done..|lia].
  - cbv beta iota. erewrite bind_Ret by reflexivity. replace (set_read_offset (read_offset_ r) r) with r by (by destruct r).
    pose proof (unread_empty r Hr ltac:(lia)) as Hu. pose proof (Hgo r 0) as Hgo0. rewrite Z.sub_0_r in Hgo0.
    apply Hgo0; [done..| |lia|lia].
    split; [done|]. split; [by apply ra_kept_refl|]. done.
Qed.

Lemma zlen_ra_rest r : ra_wf r -> zlen (ra_rest r) < 2 ^ 62.
Proof.
  intros Hr. unfold ra_rest. rewrite zlen_app. pose proof (bw_cursize _ (rw_buffer _ Hr)). pose proof (rw_offsets _ Hr).
  destruct (decide (0 < cursize_ (ra_buffer r))) as [Hc|Hc].
  - rewrite (zlen_unread r Hr Hc). destruct (rw_cache _ Hr Hc). lia.
  - rewrite (unread_empty r Hr) by lia. pose proof (law_rest_size (ra_file r) (rw_file _ Hr)). unfold zlen at 1. cbn. lia.
Qed.
End Readahead.
