(* ===== verification/SeqFileThms.v ===== *)
(** [SequentialFileReader] over a file that may be read ahead: the bytes it
    delivers, with buffered and with direct I/O. *)
From S2P Require Import Prelude Bits Coding IoStatus AlignedBuffer SeqFile SeqFileSpec.
From stdpp Require Import base numbers list strings.
From Stdlib Require Import ZArith Lia.
Local Open Scope Z_scope.

(** ** The wrapper is a sequential file *)

Section Wrapper.
Context {F : Type} `{FSSequentialFile F} {HS : FSSequentialFileSpec F}.

#[export, program] Instance readahead_spec : FSSequentialFileSpec (ReadaheadSequentialFile F) := {
  seq_ok := ra_wf; seq_rest := ra_rest; seq_data r := seq_data (ra_file r);
  seq_reliable r := seq_reliable (ra_file r) }.
Next Obligation. intros r Hr. by apply zlen_ra_rest. Qed.
Next Obligation.
  intros r n Hr Hn. destruct (ra_Read_ok r n Hr Hn) as (s & b & r' & Hrun & Hw & ((_ & _ & Hd & Hu & _ & Hre) & _) & Hs & Hb & Hok).
  exists s, b, r'. done.
Qed.
Next Obligation.
  intros r n Hr Hn. destruct (ra_Skip_ok r n Hr Hn) as (s & r' & Hrun & Hw & ((_ & _ & Hd & Hu & _ & Hre) & _) & Hs & Hok).
  exists s, r'. done.
Qed.
Next Obligation.
  intros r o n Hr Ho Hn. destruct (law_PositionedRead (ra_file r) o n (rw_file _ Hr) Ho Hn) as (s & b & f' & Hrun & Hk & Hrest & Hb & Hok).
  exists s, b, (set_ra_file f' r). split; [by apply (zoom_Ret ra_file_lens)|].
  assert (ra_rest (set_ra_file f' r) = ra_rest r) as Er by (unfold ra_rest, unread; cbn; by rewrite Hrest).
  destruct Hk as (Hf' & _ & Hd & Hu & _ & Hre). rewrite Er. split; [|done].
  split; [pose proof Hr as []; split; rw_fields; rewrite ?Hrest; done|]. done.
Qed.

(** So is what [NewReadaheadSequentialFile] returns. *)
#[export, program] Instance seq_file_spec : FSSequentialFileSpec (seq_file F) := {
  seq_ok f := match f with Plain f => seq_ok f | Ahead r => seq_ok r end;
  seq_rest f := match f with Plain f => seq_rest f | Ahead r => seq_rest r end;
  seq_data f := match f with Plain f => seq_data f | Ahead r => seq_data r end;
  seq_reliable f := match f with Plain f => seq_reliable f | Ahead r => seq_reliable r end }.
Next Obligation. intros [f|r]; apply law_rest_size. Qed.
Next Obligation.
  intros [f|r] n Hf Hn; destruct (law_Read _ n Hf Hn) as (s & b & f' & Hrun & Hrest); exists s, b; eexists;
    (split; [unfold sf_Read at 1; cbn [seq_file_sequential dispatch]; by rewrite Hrun|exact Hrest]).
Qed.
Next Obligation.
  intros [f|r] n Hf Hn; destruct (law_Skip _ n Hf Hn) as (s & f' & Hrun & Hrest); exists s; eexists;
    (split; [unfold sf_Skip at 1; cbn [seq_file_sequential dispatch]; by rewrite Hrun|exact Hrest]).
Qed.
Next Obligation.
  intros [f|r] o n Hf Ho Hn; destruct (law_PositionedRead _ o n Hf Ho Hn) as (s & b & f' & Hrun & Hrest); exists s, b; eexists;
    (split; [unfold sf_PositionedRead at 1; cbn [seq_file_sequential dispatch]; by rewrite Hrun|exact Hrest]).
Qed.

Context `{AllocatorLaws}.

(** The wrapper starts where the file is. *)
Lemma NewReadahead_ok f size : seq_ok f -> power_of_two (sf_GetRequiredBufferAlignment f) -> 0 <= size < 2 ^ 59 ->
  exists sf b, NewReadaheadSequentialFile f size new_AlignedBuffer = Ret sf b /\ seq_ok sf /\ seq_rest sf = seq_rest f /\
    seq_data sf = seq_data f /\ (seq_reliable f -> seq_reliable sf) /\ sf_use_direct_io sf = sf_use_direct_io f /\ power_of_two (sf_GetRequiredBufferAlignment sf).
Proof.
  intros Hf Ha Hs. pose proof (power_of_two_range _ Ha) as Hr. unfold NewReadaheadSequentialFile.
  destruct (Z.leb_spec size (sf_GetRequiredBufferAlignment f)) as [Hle|Hlt]; [by exists (Plain f), new_AlignedBuffer|].
  unfold new_ReadaheadSequentialFile. set (a := sf_GetRequiredBufferAlignment f) in *.
  destruct (Roundup_spec a size ltac:(lia) ltac:(lia)) as (Hru & Hrm & _).
  destruct (Roundup_spec a (Roundup size a) ltac:(lia) ltac:(lia)) as (_ & _ & Hrr). specialize (Hrr Hrm).
  destruct (Allocate_new (MkAlignedBuffer a 0 0 []) (Roundup size a) Ha ltac:(lia)) as (b & Hrun & Hb & Hx & Hba & Hbc).
  cbn [alignment_] in Hba, Hbc. rewrite Hrr in Hbc. eexists (Ahead _), b. split.
  { erewrite bind_Ret; [reflexivity|]. erewrite bind_Ret by reflexivity. erewrite bind_Ret by exact Hrun.
    rewrite bind_gets. reflexivity. }
  pose proof (zlen_buffered b Hb) as Hz. rewrite Hx in Hz. unfold zlen in Hz. cbn in Hz. pose proof (law_rest_size f Hf) as Hlen.
  split; [|split; [|split; [done|split; [done|split; [done|by exists 12]]]]].
  - split; rw_fields; try done; unfold id; try lia; intros; lia.
  - cbn [seq_rest seq_file_spec readahead_spec]. unfold ra_rest, unread. rw_fields. unfold id. by rewrite Hx, drop_nil.
Qed.
End Wrapper.

(** ** The reader *)

Lemma sub_stored (m data : bytes) a k : 0 <= a -> 0 <= k -> a + k <= zlen data -> sub (overwrite m 0 data) a k = sub data a k.
Proof.
  intros Ha Hk Hl. pose proof (take_overwrite m data 0) as Ht. rewrite Z.add_0_l in Ht.
  rewrite <- (Ht ltac:(split; [lia|apply zlen_nonneg])) at 2. change (take _ (overwrite m 0 data)) with (sub (overwrite m 0 data) 0 (zlen data)).
  by rewrite sub_sub by lia.
Qed.

(** The bytes a file stored in the buffer, copied out again. *)
Lemma copied_out {S} b tmp a k (s : S) : 0 <= a < zlen tmp -> 0 <= k <= zlen tmp - a -> zlen tmp <= zlen (buf_memory b) ->
  local_buffer (buf_Size (zlen tmp);; buf_Read a k) (set_memory (overwrite (buf_memory b) 0 tmp) b) s =
  Ret (sub tmp a k, set_cursize (zlen tmp) (set_memory (overwrite (buf_memory b) 0 tmp) b)) s.
Proof.
  intros Ha Hk Hm. unfold local_buffer. erewrite bind_Ret by reflexivity. unfold buf_Read. rewrite bind_gets. cbn [cursize_ set_cursize set_memory].
  destruct (Z.ltb_spec a (zlen tmp)); [|lia]. rewrite Z.min_r by lia. destruct (Z.ltb_spec 0 k) as [Hk0|Hk0].
  - rewrite copy_out_ok; cbn [buf_memory set_cursize set_memory]; [by rewrite sub_stored by lia|lia..|]. rewrite zlen_overwrite; lia.
  - replace k with 0 by lia. reflexivity.
Qed.

Section Reader.
Context {F : Type} `{FSSequentialFile F} {HS : FSSequentialFileSpec F} `{AllocatorLaws}.
Abbreviation SR := (SequentialFileReader F).

Definition sr_direct (r : SR) : bool := sf_use_direct_io (sr_file r).

(** The bytes from the position of the reader on. *)
Definition sr_rest (r : SR) : bytes :=
  if sr_direct r then drop (Z.to_nat (offset_ r)) (seq_data (sr_file r)) else seq_rest (sr_file r).

(** The position after [n] bytes more. *)
Definition moved (n : Z) (r : SR) (s : IOStatus) (r' : SR) : Prop :=
  seq_kept (sr_file r) s (sr_file r') /\ offset_ r' = (if sr_direct r then offset_ r + n else offset_ r).

Record sr_wf (r : SR) : Prop := {
  sw_file : seq_ok (sr_file r);
  sw_alignment : power_of_two (sf_GetRequiredBufferAlignment (sr_file r));
  sw_offset : 0 <= offset_ r }.

Lemma wf_moved n r s r' : 0 <= n -> sr_wf r -> moved n r s r' -> sr_wf r' /\ sr_direct r' = sr_direct r.
Proof.
  intros Hn [] [(Ho & _ & _ & Hu & Ha & _) Hoff]. split; [|done]. split; [done|by rewrite Ha|]. rewrite Hoff. destruct (sr_direct r); lia.
Qed.

(** The page range around the bytes asked for. *)
Lemma page_range a o n : power_of_two a -> 0 <= o -> 0 <= n < 2 ^ 59 -> o + n < 2 ^ 61 ->
  let ao := TruncateToPageBoundary a o in
  let size := u64 (Roundup (u64 (o + n)) a - ao) in
  0 <= ao <= o /\ u64 (o - ao) = o - ao /\ o - ao + n <= size < 2 ^ 60.
Proof.
  intros Ha Ho Hn Hon. pose proof (power_of_two_range a Ha) as Hr. cbv zeta. rewrite Truncate_spec, (u64_small (o + n)) by (done || lia).
  destruct (Roundup_spec a (o + n) ltac:(lia) ltac:(lia)) as (Hru & _).
  pose proof (Z.mod_pos_bound o a ltac:(lia)). pose proof (Z.div_mod o a ltac:(lia)). pose proof (Z.div_pos o a Ho ltac:(lia)).
  assert (o / a * a = o - o mod a) as -> by lia. rewrite !u64_small; lia.
Qed.

Lemma read_direct_ok r n : sr_wf r -> sr_direct r = true -> 0 <= n < 2 ^ 59 -> offset_ r + n < 2 ^ 61 ->
  exists s b r', read_direct n r = Ret (s, b) r' /\ moved n r s r' /\ zlen b <= n /\ (ok s = true -> b = take (Z.to_nat n) (sr_rest r)).
Proof.
  intros [Hf Ha Ho] Hd Hn Hon. destruct (page_range _ _ _ Ha Ho Hn Hon) as (Hao & Eadv & Hsize).
  unfold read_direct. rewrite bind_gets. erewrite bind_Ret by reflexivity. rewrite bind_gets.
  cbn [sr_file set_offset]. set (a := sf_GetRequiredBufferAlignment (sr_file r)) in *. rewrite Eadv.
  set (ao := TruncateToPageBoundary a (offset_ r)) in *. set (size := u64 (Roundup _ _ - _)) in *. rewrite (u64_small (offset_ r + n)) by lia.
  destruct (Allocate_new (MkAlignedBuffer a 0 0 []) size Ha ltac:(lia)) as (b0 & Halloc & Hb0 & _ & _ & Hcap).
  pose proof (power_of_two_range a Ha). destruct (Roundup_spec a size ltac:(lia) ltac:(lia)) as (Hru & _). cbn [alignment_] in Hcap.
  erewrite bind_Ret. 2: { unfold local_buffer. erewrite bind_Ret by reflexivity. unfold new_AlignedBuffer. cbn [capacity_ cursize_ buf_memory].
    rewrite Halloc. reflexivity. }
  destruct (law_PositionedRead (sr_file r) ao size Hf ltac:(lia) ltac:(lia)) as (s & tmp & f' & Hread & Hk & Hrest & Htmp & Hok).
  cbv beta iota. erewrite bind_Ret by (apply (zoom_Ret sr_file_lens), Hread). cbv beta iota. pose proof (zlen_nonneg tmp).
  pose proof (bw_memory _ Hb0). erewrite bind_Ret by (unfold local_buffer; rewrite copy_in_ok by lia; reflexivity). cbv beta iota.
  assert (moved n r s (MkSequentialFileReader f' (offset_ r + n))) as Hmoved by (split; [done|]; by rewrite Hd).
  assert (ok s = true -> take (Z.to_nat n) (drop (Z.to_nat (offset_ r - ao)) tmp) = take (Z.to_nat n) (sr_rest r)) as Hbytes.
  { intros Hs. rewrite (Hok Hs). unfold sr_rest. rewrite Hd. change (sub (sub (seq_data (sr_file r)) ao size) (offset_ r - ao) n = sub (seq_data (sr_file r)) (offset_ r) n).
    rewrite sub_sub by lia. f_equal. lia. }
  destruct (ok s && (offset_ r - ao <? zlen tmp)) eqn:Ec.
  - apply andb_true_iff in Ec as [Hs Hlt%Z.ltb_lt]. set (k := Z.min (zlen tmp - (offset_ r - ao)) n).
    assert (sub tmp (offset_ r - ao) k = take (Z.to_nat n) (drop (Z.to_nat (offset_ r - ao)) tmp)) as Hsub.
    { unfold sub, k. destruct (decide (n <= zlen tmp - (offset_ r - ao))); [by rewrite Z.min_r by lia|].
      rewrite !take_ge; [done|rewrite length_drop; unfold zlen in *; lia..]. }
    eexists s, _, _. split; [|split; [exact Hmoved|split; [|intros _; rewrite <- (Hbytes Hs), <- Hsub; reflexivity]]].
    2: { rewrite Hsub. unfold zlen. rewrite length_take. lia. }
    erewrite bind_Ret by (apply (copied_out b0 tmp); lia).
    reflexivity.
  - exists s, [], (MkSequentialFileReader f' (offset_ r + n)). split; [done|]. split; [done|]. split; [unfold zlen; cbn; lia|].
    intros Hs. rewrite Hs in Ec. cbn [andb] in Ec. apply Z.ltb_ge in Ec. rewrite <- (Hbytes Hs), drop_ge; [by rewrite take_nil|unfold zlen in *; lia].
Qed.

Lemma sr_rest_moved n r s r' : 0 <= n -> sr_wf r -> moved n r s r' ->
  (sr_direct r = false -> seq_rest (sr_file r') = drop (Z.to_nat n) (seq_rest (sr_file r))) ->
  sr_rest r' = drop (Z.to_nat n) (sr_rest r).
Proof.
  intros Hn [] [(_ & _ & Hd & Hu & _) Hoff] Hrest. unfold sr_rest, sr_direct in *. rewrite Hu, Hd.
  destruct (sf_use_direct_io (sr_file r)); [|auto]. rewrite Hoff, drop_drop. f_equal. lia.
Qed.

Lemma sr_Read_ok r n : sr_wf r -> 0 <= n < 2 ^ 59 -> (sr_direct r = true -> offset_ r + n < 2 ^ 61) ->
  exists s b r', sr_Read n r = Ret (s, b) r' /\ moved n r s r' /\ zlen b <= n /\
    (ok s = true -> b = take (Z.to_nat n) (sr_rest r) /\ sr_rest r' = drop (Z.to_nat n) (sr_rest r)).
Proof.
  intros Hr Hn Hlim. unfold sr_Read. rewrite bind_gets. fold (sr_direct r). destruct (sr_direct r) eqn:Hd.
  - destruct (read_direct_ok r n Hr Hd Hn (Hlim eq_refl)) as (s & b & r' & Hrun & Hm & Hb & Hok). exists s, b, r'.
    split; [done|]. split; [done|]. split; [done|]. intros Hs. split; [auto|]. eapply sr_rest_moved; try done; [lia|by rewrite Hd].
  - destruct (law_Read (sr_file r) n (sw_file _ Hr) ltac:(lia)) as (s & b & f' & Hrun & Hk & Hb & Hok).
    exists s, b, (MkSequentialFileReader f' (offset_ r)). split; [by apply (zoom_Ret sr_file_lens)|].
    assert (moved n r s (MkSequentialFileReader f' (offset_ r))) as Hm by (split; [done|]; by rewrite Hd).
    split; [done|]. split; [done|]. intros Hs. destruct (Hok Hs) as [Eb Ef]. unfold sr_rest at 1. rewrite Hd. split; [done|].
    eapply sr_rest_moved; try done. lia.
Qed.

Lemma sr_Skip_ok r n : sr_wf r -> 0 <= n < 2 ^ 59 -> (sr_direct r = true -> offset_ r + n < 2 ^ 61) ->
  exists s r', sr_Skip n r = Ret s r' /\ moved n r s r' /\ (ok s = true -> sr_rest r' = drop (Z.to_nat n) (sr_rest r)).
Proof.
  intros Hr Hn Hlim. pose proof (sw_offset _ Hr). unfold sr_Skip. rewrite bind_gets. fold (sr_direct r). destruct (sr_direct r) eqn:Hd.
  - specialize (Hlim eq_refl). rewrite bind_gets. erewrite bind_Ret by reflexivity. rewrite u64_small by lia. eexists OK, _. split; [reflexivity|].
    assert (moved n r OK (set_offset (offset_ r + n) r)) as Hm.
    { split; [apply seq_kept_refl, Hr|by rewrite Hd]. }
    split; [done|]. intros _. eapply sr_rest_moved; try done; [lia|by rewrite Hd].
  - destruct (law_Skip (sr_file r) n (sw_file _ Hr) ltac:(lia)) as (s & f' & Hrun & Hk & Hok).
    exists s, (MkSequentialFileReader f' (offset_ r)). split; [by apply (zoom_Ret sr_file_lens)|].
    assert (moved n r s (MkSequentialFileReader f' (offset_ r))) as Hm by (split; [done|]; by rewrite Hd).
    split; [done|]. intros Hs. eapply sr_rest_moved; try done; [lia|auto].
Qed.

(** ** Sequences of calls *)

Inductive seq_call := CallRead (n : Z) | CallSkip (n : Z).

Definition call_length (c : seq_call) : Z := match c with CallRead n | CallSkip n => n end.
Definition total (cs : list seq_call) : Z := foldr (fun c t => call_length c + t) 0 cs.

Definition call (c : seq_call) : prog SR (IOStatus * bytes) :=
  match c with
  | CallRead n => sr_Read n
  | CallSkip n => s ← sr_Skip n; mret (s, [])
  end.

Fixpoint calls (cs : list seq_call) : prog SR (list (IOStatus * bytes)) :=
  match cs with
  | [] => mret []
  | c :: cs => x ← call c; xs ← calls cs; mret (x :: xs)
  end.

(** What the calls deliver of a sequence of bytes. *)
Fixpoint served (cs : list seq_call) (x : bytes) : list bytes :=
  match cs with
  | [] => []
  | CallRead n :: cs => take (Z.to_nat n) x :: served cs (drop (Z.to_nat n) x)
  | CallSkip n :: cs => [] :: served cs (drop (Z.to_nat n) x)
  end.

Lemma call_ok c r : sr_wf r -> 0 <= call_length c < 2 ^ 59 -> (sr_direct r = true -> offset_ r + call_length c < 2 ^ 61) ->
  exists s b r', call c r = Ret (s, b) r' /\ moved (call_length c) r s r' /\
    (ok s = true -> served [c] (sr_rest r) = [b] /\ sr_rest r' = drop (Z.to_nat (call_length c)) (sr_rest r)).
Proof.
  intros Hr Hn Hlim. destruct c as [n|n]; cbn [call_length call] in *.
  - destruct (sr_Read_ok r n Hr Hn Hlim) as (s & b & r' & Hrun & Hm & _ & Hok). exists s, b, r'. split; [done|]. split; [done|].
    intros Hs. destruct (Hok Hs) as [-> Er]. done.
  - destruct (sr_Skip_ok r n Hr Hn Hlim) as (s & r' & Hrun & Hm & Hok). exists s, [], r'. split; [|auto]. by erewrite bind_Ret by exact Hrun.
Qed.

Lemma calls_ok cs r : sr_wf r -> Forall (fun c => 0 <= call_length c) cs -> total cs < 2 ^ 59 -> (sr_direct r = true -> offset_ r + total cs < 2 ^ 61) ->
  exists out r', calls cs r = Ret out r' /\ sr_wf r' /\
    (Forall (fun x => ok x.1 = true) out -> snd <$> out = served cs (sr_rest r) /\ sr_rest r' = drop (Z.to_nat (total cs)) (sr_rest r)).
Proof.
  intros Hr Hcs. revert r Hr. induction Hcs as [|c cs Hc Hcs IH]; intros r Hr Ht Hlim.
  - by exists [], r.
  - cbn [total foldr] in Ht, Hlim. fold (total cs) in Ht, Hlim.
    assert (0 <= total cs) as Htot by (clear - Hcs; induction Hcs; cbn; [lia|]; fold (total l); lia).
    destruct (call_ok c r Hr ltac:(lia)) as (s & b & r1 & Hrun1 & Hm & Hok1); [intros Hd; specialize (Hlim Hd); lia|].
    destruct (wf_moved _ _ _ _ Hc Hr Hm) as [Hr1 Hd1].
    destruct (IH r1 Hr1) as (out & r2 & Hrun2 & Hr2 & Hok2); [lia| |].
    { rewrite Hd1. intros Hd. specialize (Hlim Hd). destruct Hm as [_ ->]. rewrite Hd. lia. }
    exists ((s, b) :: out), r2. cbn [calls]. erewrite bind_Ret by exact Hrun1. erewrite bind_Ret by exact Hrun2. split; [done|]. split; [done|].
    intros [Hs Hout]%Forall_cons. destruct (Hok1 Hs) as [Eb Er1]. destruct (Hok2 Hout) as [Eo Er2]. rewrite fmap_cons, Eo, Er2, Er1, drop_drop.
    destruct c as [n|n]; cbn [served call_length] in *; injection Eb as <-; (split; [done|]; f_equal; cbn; fold (total cs); lia).
Qed.
End Reader.

Section Ahead.
Context {F : Type} `{FSSequentialFile F} {HS : FSSequentialFileSpec F} `{AllocatorLaws}.

(** C30. Reading ahead is invisible.  A reader over what
    [NewReadaheadSequentialFile] makes of a file (the file itself when the
    readahead size is too small, the prefetching wrapper otherwise) answers
    every sequence of reads and skips: no call gets stuck or leaves its
    buffers, and when no call fails the bytes delivered are the slices of the
    file's bytes that the calls name, short only at the end of the file; with
    direct I/O too, where whole pages are fetched. *)
Theorem readahead_invisible f size cs :
  seq_ok f -> power_of_two (sf_GetRequiredBufferAlignment f) -> 0 <= size < 2 ^ 59 ->
  Forall (fun c => 0 <= call_length c) cs -> total cs < 2 ^ 59 ->
  let start := if sf_use_direct_io f then seq_data f else seq_rest f in
  exists sf b out r', NewReadaheadSequentialFile f size new_AlignedBuffer = Ret sf b /\
    calls cs (new_SequentialFileReader sf) = Ret out r' /\
    (Forall (fun x => ok x.1 = true) out -> snd <$> out = served cs start /\ sr_rest r' = drop (Z.to_nat (total cs)) start).
Proof.
  intros Hf Ha Hs Hcs Ht start. destruct (NewReadahead_ok f size Hf Ha Hs) as (sf & b & Hnew & Hsf & Hrest & Hdata & _ & Hdir & Hal).
  destruct (calls_ok cs (new_SequentialFileReader sf)) as (out & r' & Hrun & _ & Hok); [by split|done|done|cbn; lia|].
  assert (sr_rest (new_SequentialFileReader sf) = start) as Hstart
    by (unfold sr_rest, sr_direct, start; cbn [sr_file new_SequentialFileReader offset_]; by rewrite Hdir, Hdata, Hrest).
  rewrite Hstart in Hok. by exists sf, b, out, r'.
Qed.

(** [InvalidateCache] of the prefetching wrapper loses data: it empties the
    buffer although the file is already behind the prefetched bytes, so the
    next read delivers the bytes after them and those not read yet
    ([unread r]) are skipped. *)
Theorem invalidate_loses_prefetched r o len s f' n :
  ra_wf r -> sf_InvalidateCache o len (ra_file r) = Ret s f' -> seq_kept (ra_file r) s f' -> seq_rest f' = seq_rest (ra_file r) ->
  0 <= n < 2 ^ 62 ->
  exists r1 s2 b r2, ra_InvalidateCache o len r = Ret s r1 /\ ra_Read n r1 = Ret (s2, b) r2 /\
    (ok s2 = true -> b = take (Z.to_nat n) (drop (length (unread r)) (ra_rest r))).
Proof.
  intros Hr Hinv (Hf' & _) Hrest Hn. pose proof (bw_cursize _ (rw_buffer _ Hr)). pose proof (rw_offsets _ Hr) as [_ Hro].
  destruct (wf_emptied r f' (read_offset_ r) Hr Hf' Hro) as [Hw Er].
  { rewrite Hrest. destruct (decide (0 < cursize_ (ra_buffer r))) as [Hc|Hc]; [destruct (rw_cache _ Hr Hc); right; lia|].
    apply (rw_position _ Hr). lia. }
  destruct (ra_Read_ok _ n Hw Hn) as (s2 & b & r2 & Hread & _ & _ & _ & _ & Hok).
  exists (emptied f' (read_offset_ r) r), s2, b, r2. split.
  { unfold ra_InvalidateCache. erewrite bind_Ret by reflexivity. etrans; [apply (zoom_Ret ra_file_lens), Hinv|reflexivity]. }
  split; [done|]. intros Hs. destruct (Hok Hs) as [-> _]. rewrite Er, Hrest. unfold ra_rest. by rewrite drop_app_length.
Qed.
End Ahead.

(** ** A file in memory *)

Record memory_seq := MkMemorySeq { ms_data : bytes; ms_position : Z; ms_direct : bool }.

#[export] Instance memory_sequential : FSSequentialFile memory_seq := {
  sf_Read n f := let b := sub (ms_data f) (ms_position f) n in
    Ret (OK, b) (MkMemorySeq (ms_data f) (ms_position f + zlen b) (ms_direct f));
  sf_Skip n f := Ret OK (MkMemorySeq (ms_data f) (Z.min (zlen (ms_data f)) (ms_position f + n)) (ms_direct f));
  sf_PositionedRead o n f := Ret (OK, sub (ms_data f) o n) f;
  sf_InvalidateCache _ _ f := Ret OK f;
  sf_use_direct_io := ms_direct;
  sf_GetRequiredBufferAlignment _ := 4 }.

#[export, program] Instance memory_sequential_spec : FSSequentialFileSpec memory_seq := {
  seq_ok f := 0 <= ms_position f <= zlen (ms_data f) /\ zlen (ms_data f) < 2 ^ 62;
  seq_rest f := drop (Z.to_nat (ms_position f)) (ms_data f);
  seq_data := ms_data;
  seq_reliable _ := True }.
Next Obligation. intros f [Hp Hs]. rewrite zlen_drop; lia. Qed.
Next Obligation.
  intros f n [Hp Hs] Hn. eexists OK, _, _. split; [reflexivity|]. unfold sub. set (x := drop _ _). cbn -[Z.pow].
  assert (zlen x = zlen (ms_data f) - ms_position f) as Hx by (apply zlen_drop; lia).
  assert (zlen (take (Z.to_nat n) x) = Z.min n (zlen x)) as Hz by (unfold zlen; rewrite length_take; lia).
  assert (drop (Z.to_nat (ms_position f + zlen (take (Z.to_nat n) x))) (ms_data f) = drop (Z.to_nat n) x) as E.
  { rewrite Hz, Hx. unfold x. rewrite drop_drop. destruct (decide (n <= zlen (ms_data f) - ms_position f)); [f_equal; lia|]. rewrite !drop_ge; [done|unfold zlen in *; lia..]. }
  rewrite E. split; [|split; [lia|done]]. split; [lia|]. split; [apply suffix_drop|done].
Qed.
Next Obligation.
  intros f n [Hp Hs] Hn. eexists OK, _. split; [reflexivity|]. cbn -[Z.pow].
  assert (drop (Z.to_nat (Z.min (zlen (ms_data f)) (ms_position f + n))) (ms_data f) = drop (Z.to_nat n) (drop (Z.to_nat (ms_position f)) (ms_data f))) as E.
  { rewrite drop_drop. destruct (decide (ms_position f + n <= zlen (ms_data f))); [f_equal; lia|]. rewrite !drop_ge; [done|unfold zlen in *; lia..]. }
  rewrite E. split; [|done]. split; [lia|]. split; [apply suffix_drop|done].
Qed.
Next Obligation.
  intros f o n [Hp Hs] Ho Hn. eexists OK, _, f. split; [reflexivity|]. split; [done|]. split; [done|]. split; [|done].
  unfold sub, zlen. rewrite length_take. lia.
Qed.

(** Twenty bytes, read with a readahead of eight. *)
Definition twenty : bytes := byte_of <$> seqZ 1 20.
Definition ahead_calls : list seq_call := [CallRead 3; CallSkip 2; CallRead 1; CallRead 9; CallRead 9].

#[local] Existing Instance memory_allocator.
#[local] Existing Instance memory_allocator_laws.

Definition ahead_run : outcome AlignedBuffer (outcome (SequentialFileReader (seq_file memory_seq)) (list (IOStatus * bytes))) :=
  (sf ← NewReadaheadSequentialFile (MkMemorySeq twenty 0 false) 8; mret (calls ahead_calls (new_SequentialFileReader sf))) new_AlignedBuffer.

Lemma readahead_invisible_witness : exists out r' b, ahead_run = Ret (Ret out r') b /\
  snd <$> out = [byte_of <$> [1; 2; 3]; []; byte_of <$> [6]; byte_of <$> seqZ 7 9; byte_of <$> seqZ 16 5].
Proof.
  destruct (readahead_invisible (HS := memory_sequential_spec) (MkMemorySeq twenty 0 false) 8 ahead_calls) as (sf & b & out & r' & Hnew & Hrun & Hok).
  - split; by vm_compute.
  - by exists 2.
  - lia.
  - repeat constructor; cbn; lia.
  - cbn. lia.
  - exists out, r', b. split; [unfold ahead_run; erewrite bind_Ret by exact Hnew; cbv beta; rewrite Hrun; reflexivity|].
    assert (Forall (fun x => ok x.1 = true) out) as Hall.
    { vm_compute in Hnew. injection Hnew as <- <-. vm_compute in Hrun. injection Hrun as <- <-. repeat constructor. }
    rewrite (proj1 (Hok Hall)). vm_compute. reflexivity.
Defined.

(** Four of the eight prefetched bytes were read when the cache is invalidated. *)
Definition half_read : ReadaheadSequentialFile memory_seq :=
  MkReadaheadSequentialFile (MkMemorySeq twenty 8 false) 4 8 (MkAlignedBuffer 4 8 8 (byte_of <$> seqZ 1 9)) 0 4.

Lemma invalidate_loses_prefetched_witness : unread half_read = byte_of <$> seqZ 5 4 /\
  exists r1 r2 s2, ra_InvalidateCache 0 0 half_read = Ret OK r1 /\ ra_Read 2 r1 = Ret (s2, byte_of <$> [9; 10]) r2.
Proof.
  split; [vm_compute; reflexivity|].
  destruct (invalidate_loses_prefetched (HS := memory_sequential_spec) half_read 0 0 OK (MkMemorySeq twenty 8 false) 2)
    as (r1 & s2 & b & r2 & Hinv & Hread & Hok).
  - split; cbn -[Z.pow twenty]; try lia.
    + split; [by vm_compute|by vm_compute].
    + split; cbn -[Z.pow]; [by exists 2|done|lia|lia|by vm_compute].
    + intros _. split; [lia|]. vm_compute. reflexivity.
  - done.
  - split; [split; by vm_compute|done].
  - done.
  - lia.
  - exists r1, r2, s2. split; [done|]. rewrite Hread. f_equal. f_equal. rewrite Hok; [by vm_compute|].
    vm_compute in Hinv. injection Hinv as <-. vm_compute in Hread. by injection Hread as <- _ _.
Defined.
