(* ===== verification/LogWriter.v ===== *)
(** db/log_format.h, db/log_writer.h, db/log_writer.cc: the write-ahead log.

    A record is cut into fragments that do not cross the 32 KB blocks of the
    file; each fragment has a header with a masked checksum, a length and a
    type, and, in a recycled file, the log number. The destination is any file
    writer with the interface [FileDest]. *)
From S2P Require Import Prelude Bits Coding Crc32c IoStatus.
From stdpp Require Import base numbers list strings.
From Stdlib Require Import ZArith Lia.
Local Open Scope Z_scope.

(** ** log_format.h *)

Definition kZeroType : Z := 0.
Definition kFullType : Z := 1.
Definition kFirstType : Z := 2.
Definition kMiddleType : Z := 3.
Definition kLastType : Z := 4.
Definition kRecyclableFullType : Z := 5.
Definition kRecyclableFirstType : Z := 6.
Definition kRecyclableMiddleType : Z := 7.
Definition kRecyclableLastType : Z := 8.
Definition kMaxRecordType : Z := kRecyclableLastType.

Definition kBlockSize : Z := 32768.
Definition kHeaderSize : Z := 4 + 2 + 1.
Definition kRecyclableHeaderSize : Z := 4 + 2 + 1 + 4.

(** ** The destination *)

(** The operations of [WritableFileWriter] the log uses; [Append] takes the
    checksum of its data, 0 when the caller does not provide it. *)
Class FileDest (W : Type) := {
  dest_Append : bytes -> Z -> prog W IOStatus;
  dest_Flush : prog W IOStatus;
  dest_Close : prog W IOStatus }.

(** ** The writer *)

(** [dest_] is [None] after [Close]. *)
Record Writer (W : Type) := MkWriter {
  dest_ : option W; block_offset_ : Z; log_number_ : Z; recycle_log_files_ : bool;
  type_crc_ : list Z; manual_flush_ : bool }.
Arguments MkWriter {W}.
Arguments dest_ {W}.
Arguments block_offset_ {W}.
Arguments log_number_ {W}.
Arguments recycle_log_files_ {W}.
Arguments type_crc_ {W}.
Arguments manual_flush_ {W}.

Section Writer.
Context {W : Type} `{FileDest W}.

Definition new_Writer (dest : W) (log_number : Z) (recycle_log_files manual_flush : bool) : Writer W :=
  MkWriter (Some dest) 0 log_number recycle_log_files
    ((fun i => Value [byte_of (Z.of_nat i)]) <$> seq 0 (Z.to_nat (kMaxRecordType + 1))) manual_flush.

(** A member call on [dest_]; a null pointer is undefined. *)
Definition on_dest {A} (m : prog W A) : prog (Writer W) A := fun w =>
  match dest_ w with
  | None => UB
  | Some d =>
    let put d' := MkWriter (Some d') (block_offset_ w) (log_number_ w) (recycle_log_files_ w)
                    (type_crc_ w) (manual_flush_ w) in
    match m d with
    | Ret a d' => Ret a (put d')
    | Exit d' => Exit (put d')
    | UB => UB
    | Hang => Hang
    end
  end.

Definition set_block_offset (o : Z) (w : Writer W) : Writer W :=
  MkWriter (dest_ w) o (log_number_ w) (recycle_log_files_ w) (type_crc_ w) (manual_flush_ w).
Definition reset_dest (w : Writer W) : Writer W :=
  MkWriter None (block_offset_ w) (log_number_ w) (recycle_log_files_ w) (type_crc_ w) (manual_flush_ w).

Definition WriteBuffer : prog (Writer W) IOStatus := on_dest dest_Flush.

Definition Writer_Close : prog (Writer W) IOStatus :=
  d ← gets dest_;
  match d with
  | None => mret OK
  | Some _ => s ← on_dest dest_Close; modify reset_dest;; mret s
  end.

(** The destructor: the status of the flush is dropped. *)
Definition Writer_destroy : prog (Writer W) unit :=
  d ← gets dest_;
  match d with None => mret tt | Some _ => WriteBuffer;; mret tt end.

(** The header of a fragment of [n] bytes of type [t]. *)
Definition EmitPhysicalRecord (t : Z) (ptr : bytes) : prog (Writer W) IOStatus :=
  let n := zlen ptr in
  let len_type := [byte_of (Z.land n 0xff); byte_of (Z.shiftr n 8); byte_of t] in
  crcs ← gets type_crc_;
  crc ← the (crcs !! Z.to_nat t);
  ln ← gets log_number_;
  let '(header_size, log_bytes, crc) :=
    if t <? kRecyclableFullType then (kHeaderSize, [], crc)
    else let lb := EncodeFixed32 true (u32 ln) in (kRecyclableHeaderSize, lb, Extend crc lb) in
  let payload_crc := Value ptr in
  crc ← the (Crc32cCombine crc payload_crc n);
  let buf := EncodeFixed32 true (Mask crc) ++ len_type ++ log_bytes in
  s ← on_dest (dest_Append buf 0);
  s ← (if ok s then on_dest (dest_Append ptr payload_crc) else mret s);
  o ← gets block_offset_;
  modify (set_block_offset (u64 (o + header_size + n)));;
  mret s.

(** The type of a fragment. *)
Definition fragment_type (recycle start end_ : bool) : Z :=
  if start && end_ then if recycle then kRecyclableFullType else kFullType
  else if start then if recycle then kRecyclableFirstType else kFirstType
  else if end_ then if recycle then kRecyclableLastType else kLastType
  else if recycle then kRecyclableMiddleType else kMiddleType.

(** A block end too short for a header is filled with zeroes. *)
Definition switch_block (header_size : Z) : prog (Writer W) IOStatus :=
  o ← gets block_offset_;
  let leftover := i64 (kBlockSize - o) in
  if leftover <? header_size then
    s ← (if 0 <? leftover
         then on_dest (dest_Append (take (Z.to_nat leftover) (replicate 10 Byte.x00)) 0)
         else mret OK);
    if ok s then modify (set_block_offset 0);; mret s else mret s
  else mret OK.

(** The [do ... while (s.ok() && left > 0)] loop of [AddRecord]. Only the first
    fragment can be empty, so the length bounds the iterations. *)
Fixpoint add_fragments (fuel : nat) (start : bool) (ptr : bytes) : prog (Writer W) IOStatus :=
  match fuel with
  | O => hang
  | S fuel' =>
    recycle ← gets recycle_log_files_;
    let header_size := if (recycle : bool) then kRecyclableHeaderSize else kHeaderSize in
    s ← switch_block header_size;
    if negb (ok s) then mret s else
    o ← gets block_offset_;
    let avail := u64 (kBlockSize - o - header_size) in
    let left := zlen ptr in
    let fragment_length := if left <? avail then left else avail in
    let end_ := left =? fragment_length in
    s ← EmitPhysicalRecord (fragment_type recycle start end_) (take (Z.to_nat fragment_length) ptr);
    let ptr := drop (Z.to_nat fragment_length) ptr in
    if ok s && (0 <? zlen ptr) then add_fragments fuel' false ptr else mret s
  end.

Definition AddRecord (slice : bytes) : prog (Writer W) IOStatus :=
  s ← add_fragments (length slice + 2) true slice;
  if ok s then
    mf ← gets manual_flush_;
    if (mf : bool) then mret s else on_dest dest_Flush
  else mret s.
End Writer.
