(* ===== verification/LogReader.v ===== *)
(** db/log_reader.h, db/log_reader.cc: reading the log back.

    The reader fetches the file in 32 KB blocks, checks the header and the
    checksum of each fragment and assembles the records. What it drops it
    reports; [reports] lists the calls of the reporter. *)
From S2P Require Import Prelude Bits Coding Crc32c IoStatus LogWriter.
From stdpp Require Import base numbers list strings.
From Stdlib Require Import ZArith Lia.
Local Open Scope Z_scope.

(** The operation of [SequentialFileReader] the log uses: at most [n] bytes. *)
Class FileSource (F : Type) := { source_Read : Z -> prog F (IOStatus * bytes) }.

(** ** Special values that extend the record types *)
Definition kEof : Z := kMaxRecordType + 1.
Definition kBadRecord : Z := kMaxRecordType + 2.
Definition kBadHeader : Z := kMaxRecordType + 3.
Definition kOldRecord : Z := kMaxRecordType + 4.
Definition kBadRecordLen : Z := kMaxRecordType + 5.
Definition kBadRecordChecksum : Z := kMaxRecordType + 6.

Inductive WALRecoveryMode :=
| kTolerateCorruptedTailRecords
| kAbsoluteConsistency
| kPointInTimeRecovery
| kSkipAnyCorruptedRecords.

(** The modes in which an incomplete record at the end is reported. *)
Definition strict_tail (m : WALRecoveryMode) : bool :=
  match m with kAbsoluteConsistency | kPointInTimeRecovery => true | _ => false end.

Record Reader (F : Type) := MkReader {
  r_file : F; reporter_ : bool; checksum_ : bool; r_log_number : Z;
  buffer_ : bytes; eof_ : bool; read_error_ : bool; eof_offset_ : Z;
  last_record_offset_ : Z; end_of_buffer_offset_ : Z; recycled_ : bool;
  reports : list (Z * IOStatus) }.
Arguments MkReader {F}.
Arguments r_file {F}.
Arguments reporter_ {F}.
Arguments checksum_ {F}.
Arguments r_log_number {F}.
Arguments buffer_ {F}.
Arguments eof_ {F}.
Arguments read_error_ {F}.
Arguments eof_offset_ {F}.
Arguments last_record_offset_ {F}.
Arguments end_of_buffer_offset_ {F}.
Arguments recycled_ {F}.
Arguments reports {F}.

Section Reader.
Context {F : Type} `{FileSource F}.

Definition new_Reader (file : F) (reporter checksum : bool) (log_num : Z) : Reader F :=
  MkReader file reporter checksum log_num [] false false 0 0 0 false [].

(** ** Field updates *)
Definition set_file (f : F) (r : Reader F) : Reader F :=
  MkReader f (reporter_ r) (checksum_ r) (r_log_number r) (buffer_ r) (eof_ r) (read_error_ r)
    (eof_offset_ r) (last_record_offset_ r) (end_of_buffer_offset_ r) (recycled_ r) (reports r).
Definition set_buffer (b : bytes) (r : Reader F) : Reader F :=
  MkReader (r_file r) (reporter_ r) (checksum_ r) (r_log_number r) b (eof_ r) (read_error_ r)
    (eof_offset_ r) (last_record_offset_ r) (end_of_buffer_offset_ r) (recycled_ r) (reports r).
Definition set_eof (e : bool) (r : Reader F) : Reader F :=
  MkReader (r_file r) (reporter_ r) (checksum_ r) (r_log_number r) (buffer_ r) e (read_error_ r)
    (eof_offset_ r) (last_record_offset_ r) (end_of_buffer_offset_ r) (recycled_ r) (reports r).
Definition set_read_error (r : Reader F) : Reader F :=
  MkReader (r_file r) (reporter_ r) (checksum_ r) (r_log_number r) (buffer_ r) (eof_ r) true
    (eof_offset_ r) (last_record_offset_ r) (end_of_buffer_offset_ r) (recycled_ r) (reports r).
Definition set_eof_offset (o : Z) (r : Reader F) : Reader F :=
  MkReader (r_file r) (reporter_ r) (checksum_ r) (r_log_number r) (buffer_ r) (eof_ r) (read_error_ r)
    o (last_record_offset_ r) (end_of_buffer_offset_ r) (recycled_ r) (reports r).
Definition set_last_record_offset (o : Z) (r : Reader F) : Reader F :=
  MkReader (r_file r) (reporter_ r) (checksum_ r) (r_log_number r) (buffer_ r) (eof_ r) (read_error_ r)
    (eof_offset_ r) o (end_of_buffer_offset_ r) (recycled_ r) (reports r).
Definition set_end_of_buffer (o : Z) (r : Reader F) : Reader F :=
  MkReader (r_file r) (reporter_ r) (checksum_ r) (r_log_number r) (buffer_ r) (eof_ r) (read_error_ r)
    (eof_offset_ r) (last_record_offset_ r) o (recycled_ r) (reports r).
Definition set_recycled (r : Reader F) : Reader F :=
  MkReader (r_file r) (reporter_ r) (checksum_ r) (r_log_number r) (buffer_ r) (eof_ r) (read_error_ r)
    (eof_offset_ r) (last_record_offset_ r) (end_of_buffer_offset_ r) true (reports r).
Definition add_report (n : Z) (s : IOStatus) (r : Reader F) : Reader F :=
  MkReader (r_file r) (reporter_ r) (checksum_ r) (r_log_number r) (buffer_ r) (eof_ r) (read_error_ r)
    (eof_offset_ r) (last_record_offset_ r) (end_of_buffer_offset_ r) (recycled_ r) (reports r ++ [(n, s)]).

Definition reader_file : lens (Reader F) F := Lens r_file set_file.

(** ** Reports *)
Definition ReportDrop (n : Z) (reason : IOStatus) : prog (Reader F) unit :=
  rep ← gets reporter_; when rep (modify (add_report n reason)).
Definition ReportCorruption (n : Z) (reason : string) : prog (Reader F) unit :=
  ReportDrop n (Corruption reason).

Definition LastRecordOffset (r : Reader F) : Z := last_record_offset_ r.
Definition LastRecordEnd (r : Reader F) : Z := u64 (end_of_buffer_offset_ r - zlen (buffer_ r)).

(** ** Fetching a block

    Whether there is more to parse; otherwise the dropped bytes and the error.
    An error leaves [drop_size] alone unless a truncated header is dropped. *)
Definition ReadMore (drop_size : Z) : prog (Reader F) (bool * Z * Z) :=
  e ← gets eof_;
  err ← gets read_error_;
  if negb e && negb err then
    modify (set_buffer []);;
    '(status, b) ← zoom reader_file (source_Read kBlockSize);
    modify (set_buffer b);;
    o ← gets end_of_buffer_offset_;
    modify (set_end_of_buffer (u64 (o + zlen b)));;
    if negb (ok status) then
      modify (set_buffer []);;
      ReportDrop kBlockSize status;;
      modify set_read_error;;
      mret (false, drop_size, kEof)
    else
      when (zlen b <? kBlockSize) (modify (set_eof true);; modify (set_eof_offset (zlen b)));;
      mret (true, drop_size, kEof)
  else
    b ← gets buffer_;
    modify (set_buffer []);;
    mret (if negb (zlen b =? 0) then (false, zlen b, kBadHeader) else (false, drop_size, kEof)).

(** [static_cast<unsigned int>] of a [char]: signed on the platforms in use. *)
Definition char_uint (b : Byte.byte) : Z :=
  let v := byte_val b in u32 (if v <? 128 then v else v - 256).

Definition recyclable (type : Z) : bool :=
  (kRecyclableFullType <=? type) && (type <=? kRecyclableLastType).

(** The fields of the header at the start of the buffer. *)
Definition header_type (header : bytes) : Z := char_uint (default Byte.x00 (header !! 6%nat)).
Definition header_length (header : bytes) : Z := Z.lor (at_ header 4) (Z.shiftl (at_ header 5) 8).

(** The rest of [ReadPhysicalRecord] once a whole header of [header_size]
    bytes of the right log is in the buffer. *)
Definition parse_body (drop_size header_size : Z) : prog (Reader F) (Z * bytes * Z) :=
  b ← gets buffer_;
  let type := header_type b in
  let length := header_length b in
  if zlen b <? header_size + length then
    modify (set_buffer []);; mret (kBadRecordLen, [], zlen b)
  else if (type =? kZeroType) && (length =? 0) then
    modify (set_buffer []);; mret (kBadRecord, [], drop_size)
  else
    ck ← gets checksum_;
    let expected_crc := Unmask (DecodeFixed32 true b) in
    let actual_crc := Value (sub b 6 (length + header_size - 6)) in
    if ck && negb (actual_crc =? expected_crc) then
      modify (set_buffer []);; mret (kBadRecordChecksum, [], zlen b)
    else
      modify (set_buffer (drop (Z.to_nat (header_size + length)) b));;
      mret (type, sub b header_size length, drop_size).

(** The type or special value, the fragment and the dropped bytes; every turn
    of the loop but the last fetches a block. *)
Fixpoint ReadPhysicalRecord (fuel : nat) (drop_size : Z) : prog (Reader F) (Z * bytes * Z) :=
  match fuel with
  | O => hang
  | S fuel' =>
    b ← gets buffer_;
    if zlen b <? kHeaderSize then
      '(more, drop_size, r) ← ReadMore drop_size;
      if (more : bool) then ReadPhysicalRecord fuel' drop_size else mret (r, [], drop_size)
    else
      let type := header_type b in
      if recyclable type then
        o ← gets end_of_buffer_offset_;
        when (u64 (o - zlen b) =? 0) (modify set_recycled);;
        if zlen b <? kRecyclableHeaderSize then
          '(more, drop_size, r) ← ReadMore drop_size;
          if (more : bool) then ReadPhysicalRecord fuel' drop_size else mret (r, [], drop_size)
        else
          ln ← gets r_log_number;
          if negb (DecodeFixed32 true (drop 7 b) =? ln) then mret (kOldRecord, [], drop_size)
          else parse_body drop_size kRecyclableHeaderSize
      else parse_body drop_size kHeaderSize
  end.

(** What the caller of [ReadRecord] is told when the log ends here. *)
Definition trailing (mode : WALRecoveryMode) (in_fragmented_record : bool) (scratch : bytes) : prog (Reader F) unit :=
  when (in_fragmented_record && strict_tail mode)
    (ReportCorruption (zlen scratch) "error reading trailing data").

(** The report when a fragment is lost in the middle of a record. *)
Definition abandon (in_fragmented_record : bool) (scratch : bytes) : prog (Reader F) unit :=
  when in_fragmented_record (ReportCorruption (zlen scratch) "error in middle of record").

(** The loop of [ReadRecord] (the number in the message for an unknown type is
    left out): [scratch] collects the fragments of the current
    record; [prospective] is its offset. *)
Fixpoint read_record (fuel : nat) (mode : WALRecoveryMode) (in_fragmented_record : bool)
    (scratch : bytes) (prospective : Z) : prog (Reader F) (option bytes) :=
  match fuel with
  | O => hang
  | S fuel' =>
    physical_record_offset ← gets LastRecordEnd;
    '(t, fragment, drop_size) ← ReadPhysicalRecord fuel 0;
    if (t =? kFullType) || (t =? kRecyclableFullType) then
      when (in_fragmented_record && negb (zlen scratch =? 0))
        (ReportCorruption (zlen scratch) "partial record without end(1)");;
      modify (set_last_record_offset physical_record_offset);;
      mret (Some fragment)
    else if (t =? kFirstType) || (t =? kRecyclableFirstType) then
      when (in_fragmented_record && negb (zlen scratch =? 0))
        (ReportCorruption (zlen scratch) "partial record without end(2)");;
      read_record fuel' mode true fragment physical_record_offset
    else if (t =? kMiddleType) || (t =? kRecyclableMiddleType) then
      if negb in_fragmented_record then
        ReportCorruption (zlen fragment) "missing start of fragmented record(1)";;
        read_record fuel' mode false scratch prospective
      else read_record fuel' mode true (scratch ++ fragment) prospective
    else if (t =? kLastType) || (t =? kRecyclableLastType) then
      if negb in_fragmented_record then
        ReportCorruption (zlen fragment) "missing start of fragmented record(2)";;
        read_record fuel' mode false scratch prospective
      else
        modify (set_last_record_offset prospective);;
        mret (Some (scratch ++ fragment))
    else if (t =? kBadHeader) || (t =? kEof) then
      when ((t =? kBadHeader) && strict_tail mode) (ReportCorruption drop_size "truncated header");;
      trailing mode in_fragmented_record scratch;;
      mret None
    else if (t =? kOldRecord) && negb (match mode with kSkipAnyCorruptedRecords => true | _ => false end) then
      trailing mode in_fragmented_record scratch;;
      mret None
    else if (t =? kOldRecord) || (t =? kBadRecord) then
      abandon in_fragmented_record scratch;;
      read_record fuel' mode false (if in_fragmented_record then [] else scratch) prospective
    else if (t =? kBadRecordLen) || (t =? kBadRecordChecksum) then
      e ← gets eof_;
      if (t =? kBadRecordLen) && e then
        when (strict_tail mode) (ReportCorruption drop_size "truncated record body");;
        mret None
      else
        rec ← gets recycled_;
        if rec && match mode with kTolerateCorruptedTailRecords => true | _ => false end then mret None
        else
          ReportCorruption drop_size
            (if t =? kBadRecordLen then "bad record length" else "checksum mismatch");;
          abandon in_fragmented_record scratch;;
          read_record fuel' mode false (if in_fragmented_record then [] else scratch) prospective
    else
      ReportCorruption (zlen fragment + (if in_fragmented_record then zlen scratch else 0))
        "unknown record type";;
      read_record fuel' mode false [] prospective
  end.

Definition ReadRecord (fuel : nat) (mode : WALRecoveryMode) : prog (Reader F) (option bytes) :=
  read_record fuel mode false [] 0.

(** ** Looking again at a file that has grown *)

Definition UnmarkEOFInternal : prog (Reader F) unit :=
  eo ← gets eof_offset_;
  b ← gets buffer_;
  let remaining := u64 (kBlockSize - eo) in
  '(status, added) ← zoom reader_file (source_Read remaining);
  o ← gets end_of_buffer_offset_;
  modify (set_end_of_buffer (u64 (o + zlen added)));;
  if negb (ok status) then
    when (0 <? zlen added) (ReportDrop (zlen added) status);;
    modify set_read_error
  else
    modify (set_buffer (b ++ added));;
    if zlen added <? remaining then modify (set_eof true);; modify (set_eof_offset (u64 (eo + zlen added)))
    else modify (set_eof_offset 0).

Definition UnmarkEOF : prog (Reader F) unit :=
  err ← gets read_error_;
  if (err : bool) then mret tt else
  modify (set_eof false);;
  eo ← gets eof_offset_;
  if eo =? 0 then mret tt else UnmarkEOFInternal.
End Reader.
