(* ===== verification/LogSpec.v ===== *)
(** The layout of the log: what [AddRecord] appends to the file.

    [fragments] relates a record to the bytes of its fragments; [AddRecord]
    returns on every destination that keeps the contract [FileDestSpec], and
    when it reports success it has appended the padding of the block, if needed,
    and such fragments. *)
From S2P Require Import Prelude Bits Coding Crc32c Crc32cSpec IoStatus LogWriter.
From stdpp Require Import base numbers list strings.
From Stdlib Require Import ZArith Lia.
Local Open Scope Z_scope.

(** ** The contract of a destination

    [contents] is what was appended successfully. An operation always returns;
    an [Append] that reports success extends the contents, and a [Flush] that
    does keeps them.  A destination is [intact] as long as every call succeeds. *)
Class FileDestSpec (W : Type) `{FileDest W} := {
  dest_ok : W -> Prop;
  contents : W -> bytes;
  intact : W -> Prop;
  append_law d data crc : dest_ok d -> crc = 0 \/ crc = Value data ->
    exists s d', dest_Append data crc d = Ret s d' /\ dest_ok d' /\
      (ok s = true -> contents d' = contents d ++ data) /\ (ok s = true -> intact d -> intact d');
  flush_law d : dest_ok d ->
    exists s d', dest_Flush d = Ret s d' /\ dest_ok d' /\ (ok s = true -> contents d' = contents d) /\
      (ok s = true -> intact d -> intact d') }.

(** ** Fragments *)

Definition hsize (recycle : bool) : Z := if recycle then kRecyclableHeaderSize else kHeaderSize.
Definition log_bytes (recycle : bool) (ln : Z) : bytes :=
  if recycle then EncodeFixed32 true (u32 ln) else [].

(** A fragment with its header. *)
Definition frame (recycle : bool) (ln t : Z) (p : bytes) : bytes :=
  EncodeFixed32 true (Mask (Value (byte_of t :: log_bytes recycle ln ++ p))) ++
  [byte_of (Z.land (zlen p) 0xff); byte_of (Z.shiftr (zlen p) 8); byte_of t] ++
  log_bytes recycle ln ++ p.

Section Layout.
Context (recycle : bool) (ln : Z).

(** The fragments of a record written from offset [o] of a block, and the
    offset behind them. *)
Inductive fragments : bool -> Z -> bytes -> bytes -> Z -> Prop :=
| fragment_last start o p :
    0 <= o -> o + hsize recycle + zlen p <= kBlockSize ->
    fragments start o p (frame recycle ln (fragment_type recycle start true) p)
      (o + hsize recycle + zlen p)
| fragment_more start o p1 p2 out o' :
    0 <= o -> o + hsize recycle + zlen p1 = kBlockSize -> p2 <> [] ->
    fragments false 0 p2 out o' ->
    fragments start o (p1 ++ p2)
      (frame recycle ln (fragment_type recycle start false) p1 ++ out) o'.

(** The padding before a record: a block end too short for a header. *)
Definition padding (o : Z) : bytes :=
  if kBlockSize - o <? hsize recycle then replicate (Z.to_nat (kBlockSize - o)) Byte.x00 else [].
Definition padded (o : Z) : Z := if kBlockSize - o <? hsize recycle then 0 else o.

(** The bytes of a list of records. *)
Inductive records : Z -> list bytes -> bytes -> Z -> Prop :=
| records_nil o : records o [] [] o
| records_cons o r rs out o1 outs o2 :
    fragments true (padded o) r out o1 -> records o1 rs outs o2 ->
    records o (r :: rs) (padding o ++ out ++ outs) o2.

Lemma hsize_range : 7 <= hsize recycle <= 11.
Proof. by destruct recycle. Qed.

Lemma length_log_bytes : zlen (log_bytes recycle ln) = hsize recycle - 7.
Proof. by destruct recycle. Qed.

Lemma length_frame t p : zlen (frame recycle ln t p) = hsize recycle + zlen p.
Proof.
  pose proof length_log_bytes. unfold zlen, frame in *. rewrite !length_app, le_bytes_of_shifts, length_le_bytes.
  cbn [length]. lia.
Qed.

Lemma fragments_range start o p out o' : fragments start o p out o' -> 0 <= o /\ 0 < o' <= kBlockSize.
Proof.
  pose proof hsize_range. induction 1; unfold zlen in *; [lia|]. split; [done|]. tauto.
Qed.

Lemma fragments_offset start o p out o' :
  fragments start o p out o' -> (o + zlen out) mod kBlockSize = o' mod kBlockSize.
Proof.
  induction 1 as [start o p Ho Hl|start o p1 p2 out o' Ho Hl _ _ IH].
  - rewrite length_frame. f_equal. lia.
  - unfold zlen in *. rewrite length_app, Nat2Z.inj_add.
    pose proof (length_frame (fragment_type recycle start false) p1) as Hf. unfold zlen in Hf.
    rewrite Hf. replace (o + (hsize recycle + Z.of_nat (length p1) + Z.of_nat (length out)))
      with (0 + Z.of_nat (length out) + 1 * kBlockSize) by lia.
    by rewrite Z.mod_add by done.
Qed.
End Layout.

(** ** The writer *)
Section Writer.
Context {W : Type} `{FileDest W} {HW : FileDestSpec W}.

Definition type_crcs : list Z := (fun i => Value [byte_of (Z.of_nat i)]) <$> seq 0 9.

(** A writer between two records. *)
Record writer_ok (recycle : bool) (ln : Z) (d : W) (o : Z) (w : Writer W) : Prop := {
  wr_dest : dest_ w = Some d;
  wr_ok : dest_ok d;
  wr_offset : block_offset_ w = o;
  wr_range : 0 <= o <= kBlockSize;
  wr_log : log_number_ w = ln;
  wr_recycle : recycle_log_files_ w = recycle;
  wr_crcs : type_crc_ w = type_crcs }.

Lemma new_writer_ok recycle ln mf d :
  dest_ok d -> writer_ok recycle ln d 0 (new_Writer d ln recycle mf).
Proof. by intros. Qed.

Lemma on_dest_append recycle ln d o w data crc :
  writer_ok recycle ln d o w -> crc = 0 \/ crc = Value data ->
  exists s d' w', on_dest (dest_Append data crc) w = Ret s w' /\ writer_ok recycle ln d' o w' /\
    manual_flush_ w' = manual_flush_ w /\ (ok s = true -> contents d' = contents d ++ data) /\
    (ok s = true -> intact d -> intact d').
Proof.
  intros [] Hcrc. unfold on_dest. rewrite wr_dest0.
  destruct (append_law d data crc wr_ok0 Hcrc) as (s & d' & -> & Hok & Hc & Hi).
  do 3 eexists. split; [reflexivity|]. split; [by constructor|]. done.
Qed.

Lemma set_offset_ok recycle ln d o o' w :
  writer_ok recycle ln d o w -> 0 <= o' <= kBlockSize -> writer_ok recycle ln d o' (set_block_offset o' w).
Proof. by intros [] ?. Qed.

(** The types of the fragments. *)
Lemma fragment_type_range recycle start end_ :
  0 <= fragment_type recycle start end_ <= 8 /\
  (fragment_type recycle start end_ <? kRecyclableFullType) = negb recycle.
Proof. by destruct recycle, start, end_. Qed.

Lemma emit_ok recycle ln d o w start end_ p :
  writer_ok recycle ln d o w -> 0 <= ln -> o + hsize recycle + zlen p <= kBlockSize ->
  exists s d' w', EmitPhysicalRecord (fragment_type recycle start end_) p w = Ret s w' /\
    writer_ok recycle ln d' (o + hsize recycle + zlen p) w' /\ manual_flush_ w' = manual_flush_ w /\
    (ok s = true -> contents d' = contents d ++ frame recycle ln (fragment_type recycle start end_) p) /\
    (ok s = true -> intact d -> intact d').
Proof.
  intros Hw Hln Hp. destruct (fragment_type_range recycle start end_) as [Ht Hrec].
  pose proof (hsize_range recycle) as Hh. pose proof (wr_range _ _ _ _ _ Hw) as Ho.
  set (t := fragment_type recycle start end_) in *. clearbody t.
  unfold EmitPhysicalRecord. rewrite !bind_gets.
  assert (type_crc_ w !! Z.to_nat t = Some (Value [byte_of t])) as Hcrc.
  { rewrite (wr_crcs _ _ _ _ _ Hw). unfold type_crcs. rewrite list_lookup_fmap, lookup_seq_lt by lia.
    cbn. by rewrite Z2Nat.id by lia. }
  rewrite Hcrc. unfold the at 1. erewrite bind_Ret by reflexivity.
  rewrite bind_gets, Hrec, (wr_log _ _ _ _ _ Hw). cbv beta.
  assert ((if negb recycle then (kHeaderSize, [], Value [byte_of t])
    else (kRecyclableHeaderSize, EncodeFixed32 true (u32 ln),
      Extend (Value [byte_of t]) (EncodeFixed32 true (u32 ln)))) =
    (hsize recycle, log_bytes recycle ln, Value (byte_of t :: log_bytes recycle ln))) as ->.
  { destruct recycle; [|done]. cbn [negb]. by rewrite Value_app. }
  cbv beta iota. assert (zlen p < 2 ^ 64) as Hpl by (unfold kBlockSize, zlen in *; lia).
  rewrite Crc32cCombine_spec by (done || apply Value_range). rewrite Value_app.
  erewrite bind_Ret by reflexivity.
  match goal with |- context [dest_Append ?b 0] => set (hd := b) end.
  assert (frame recycle ln t p = hd ++ p) as Hframe by (unfold frame, hd; by rewrite <- !app_assoc).
  destruct (on_dest_append _ _ _ _ _ hd 0 Hw) as (s1 & d1 & w1 & H1 & Hw1 & Hm1 & Hc1 & Hi1); [by left|].
  erewrite bind_Ret by exact H1.
  destruct (ok s1) eqn:Hs1.
  - destruct (on_dest_append _ _ _ _ _ p (Value p) Hw1) as (s2 & d2 & w2 & H2 & Hw2 & Hm2 & Hc2 & Hi2); [by right|].
    erewrite bind_Ret by exact H2. rewrite bind_gets, (wr_offset _ _ _ _ _ Hw2).
    pose proof (wr_range _ _ _ _ _ Hw2). unfold kBlockSize, zlen in *. rewrite u64_small by lia.
    do 3 eexists. split; [reflexivity|]. split; [apply (set_offset_ok _ _ _ o); [done|unfold kBlockSize; lia]|].
    split; [by rewrite <- Hm1|]. split; [|auto]. intros Hs2. by rewrite Hc2, Hc1, Hframe, app_assoc.
  - erewrite bind_Ret by reflexivity. rewrite bind_gets, (wr_offset _ _ _ _ _ Hw1).
    pose proof (wr_range _ _ _ _ _ Hw1). unfold kBlockSize, zlen in *. rewrite u64_small by lia.
    do 3 eexists. split; [reflexivity|]. split; [apply (set_offset_ok _ _ _ o); [done|unfold kBlockSize; lia]|].
    split; [done|]. by rewrite Hs1.
Qed.

Lemma i64_small x : - 2 ^ 63 <= x < 2 ^ 63 -> i64 x = x.
Proof.
  intros Hx. unfold i64. destruct (decide (0 <= x)).
  - rewrite Z.mod_small by lia. destruct (Z.ltb_spec x (2 ^ 63)); lia.
  - replace (x mod 2 ^ 64) with (x + 2 ^ 64) by (apply (Z.mod_unique x (2 ^ 64) (-1)); lia).
    destruct (Z.ltb_spec (x + 2 ^ 64) (2 ^ 63)); lia.
Qed.

Lemma switch_ok recycle ln d o w :
  writer_ok recycle ln d o w ->
  exists s d' w', switch_block (hsize recycle) w = Ret s w' /\ manual_flush_ w' = manual_flush_ w /\
    if ok s then writer_ok recycle ln d' (padded recycle o) w' /\
                 contents d' = contents d ++ padding recycle o /\ (intact d -> intact d')
    else writer_ok recycle ln d' o w'.
Proof.
  intros Hw. pose proof (wr_range _ _ _ _ _ Hw) as Ho. pose proof (hsize_range recycle) as Hh.
  unfold switch_block, padding, padded. rewrite bind_gets, (wr_offset _ _ _ _ _ Hw).
  rewrite i64_small by (unfold kBlockSize in *; lia).
  destruct (Z.ltb_spec (kBlockSize - o) (hsize recycle)) as [Hlo|Hlo].
  2: { do 3 eexists. split; [reflexivity|]. split; [done|]. by rewrite app_nil_r. }
  destruct (Z.ltb_spec 0 (kBlockSize - o)) as [Hlp|Hlp].
  - rewrite take_replicate, Nat.min_l by lia.
    destruct (on_dest_append _ _ _ _ _ (replicate (Z.to_nat (kBlockSize - o)) Byte.x00) 0 Hw)
      as (s1 & d1 & w1 & Ha & Hw1 & Hm1 & Hc1 & Hi1); [by left|].
    erewrite bind_Ret by exact Ha. destruct (ok s1) eqn:Hs; do 3 eexists; (split; [reflexivity|]).
    + split; [done|]. rewrite Hs. split; [by apply (set_offset_ok _ _ _ o)|auto].
    + split; [done|]. by rewrite Hs.
  - erewrite bind_Ret by reflexivity. cbn [ok]. do 3 eexists. split; [reflexivity|]. split; [done|].
    cbn [ok]. split; [by apply (set_offset_ok _ _ _ o)|].
    replace (Z.to_nat (kBlockSize - o)) with O by lia. by rewrite app_nil_r.
Qed.

Lemma padded_range recycle o :
  0 <= o <= kBlockSize -> 0 <= padded recycle o /\ padded recycle o + hsize recycle <= kBlockSize.
Proof.
  intros Ho. unfold padded, kBlockSize in *. pose proof (hsize_range recycle).
  destruct (Z.ltb_spec (32768 - o) (hsize recycle)); lia.
Qed.

Lemma add_fragments_ok fuel recycle ln d o w start p :
  writer_ok recycle ln d o w -> 0 <= ln -> zlen p < 2 ^ 63 ->
  (start = false -> o = kBlockSize /\ p <> []) ->
  (length p + (if start then 2 else 1) <= fuel)%nat ->
  exists s d' o' w', add_fragments fuel start p w = Ret s w' /\ writer_ok recycle ln d' o' w' /\
    manual_flush_ w' = manual_flush_ w /\
    (ok s = true -> exists out, fragments recycle ln start (padded recycle o) p out o' /\
       contents d' = contents d ++ padding recycle o ++ out /\ (intact d -> intact d')).
Proof.
  revert d o w start p. induction fuel as [|fuel IH]; intros d o w start p Hw Hln Hp Hstart Hfuel;
    [destruct start; lia|].
  pose proof (wr_range _ _ _ _ _ Hw) as Ho. pose proof (hsize_range recycle) as Hh.
  cbn [add_fragments]. rewrite bind_gets, (wr_recycle _ _ _ _ _ Hw).
  fold (hsize recycle). destruct (switch_ok _ _ _ _ _ Hw) as (s1 & d1 & w1 & H1 & Hm1 & Hs1).
  erewrite bind_Ret by exact H1. destruct (ok s1) eqn:Eok; cbn [negb].
  2: { do 4 eexists. split; [reflexivity|]. split; [done|]. split; [done|]. by rewrite Eok. }
  destruct Hs1 as (Hw1 & Hc1 & Hi1). destruct (padded_range recycle o Ho) as [Hp0 Hp1].
  rewrite bind_gets, (wr_offset _ _ _ _ _ Hw1). set (o1 := padded recycle o) in *.
  assert (start = false -> o1 = 0) as Hz.
  { intros E. destruct (Hstart E) as [-> _]. unfold o1, padded. rewrite Z.sub_diag.
    destruct (Z.ltb_spec 0 (hsize recycle)); [done|lia]. }
  rewrite u64_small by (unfold kBlockSize in *; lia).
  set (avail := kBlockSize - o1 - hsize recycle).
  set (fl := if zlen p <? avail then zlen p else avail).
  assert (0 <= fl <= zlen p /\ fl <= avail /\ (fl < zlen p -> fl = avail)) as (Hfl & Hfa & Hfm).
  { unfold fl, avail, zlen in *. destruct (Z.ltb_spec (Z.of_nat (length p)) (kBlockSize - o1 - hsize recycle)); lia. }
  assert (zlen (take (Z.to_nat fl) p) = fl) as Hlt by (unfold zlen in *; rewrite length_take; lia).
  destruct (emit_ok recycle ln d1 o1 w1 start (zlen p =? fl) (take (Z.to_nat fl) p) Hw1 Hln)
    as (s2 & d2 & w2 & H2 & Hw2 & Hm2 & Hc2 & Hi2); [rewrite Hlt; unfold avail in *; lia|].
  erewrite bind_Ret by exact H2. rewrite Hlt in Hw2.
  destruct (Z.eqb_spec (zlen p) fl) as [Heq|Hne].
  - rewrite take_ge in Hc2 by (unfold zlen in *; lia).
    assert (drop (Z.to_nat fl) p = []) as -> by (apply drop_ge; unfold zlen in *; lia).
    rewrite andb_false_r. do 4 eexists. split; [reflexivity|]. split; [exact Hw2|].
    split; [congruence|]. intros Hs2. exists (frame recycle ln (fragment_type recycle start true) p). split.
    + rewrite <- Heq. apply fragment_last; unfold avail in *; lia.
    + split; [by rewrite Hc2, Hc1, app_assoc by done|auto].
  - assert (drop (Z.to_nat fl) p <> []) as Hrest.
    { intros Hnil. apply (f_equal length) in Hnil. rewrite length_drop in Hnil. unfold zlen in *. cbn in Hnil. lia. }
    destruct (ok s2) eqn:Eok2; cbn [andb].
    2: { do 4 eexists. split; [reflexivity|]. split; [exact Hw2|]. split; [congruence|]. by rewrite Eok2. }
    assert (0 < zlen (drop (Z.to_nat fl) p)) as Hpos by (unfold zlen in *; rewrite length_drop; lia).
    destruct (Z.ltb_spec 0 (zlen (drop (Z.to_nat fl) p))); [|lia].
    replace (o1 + hsize recycle + fl) with kBlockSize in Hw2 by (unfold avail in *; lia).
    destruct (IH _ _ _ false (drop (Z.to_nat fl) p) Hw2 Hln) as (s3 & d3 & o3 & w3 & H3 & Hw3 & Hm3 & Hc3).
    { unfold zlen in *. rewrite length_drop. lia. }
    { done. }
    { rewrite length_drop. destruct start; [lia|]. specialize (Hz eq_refl).
      assert (fl = avail) by (apply Hfm; unfold zlen in *; lia). unfold avail, kBlockSize, zlen in *. lia. }
    do 4 eexists. split; [exact H3|]. split; [exact Hw3|]. split; [congruence|].
    intros Hs3. destruct (Hc3 Hs3) as (out & Hf & Hc & Hi3).
    assert (padded recycle kBlockSize = 0 /\ padding recycle kBlockSize = []) as [Hpd0 Hpg0].
    { unfold padded, padding. rewrite Z.sub_diag. destruct (Z.ltb_spec 0 (hsize recycle)); [done|lia]. }
    rewrite Hpd0 in Hf. rewrite Hpg0 in Hc.
    exists (frame recycle ln (fragment_type recycle start false) (take (Z.to_nat fl) p) ++ out). split.
    + rewrite <- (take_drop (Z.to_nat fl) p) at 1. apply fragment_more; [done| |done|done].
      rewrite Hlt. unfold avail in *. lia.
    + split; [|auto]. rewrite Hc, Hc2, Hc1 by done. cbn [app]. by rewrite <- !app_assoc.
Qed.

Lemma on_dest_flush recycle ln d o w :
  writer_ok recycle ln d o w ->
  exists s d' w', on_dest dest_Flush w = Ret s w' /\ writer_ok recycle ln d' o w' /\
    manual_flush_ w' = manual_flush_ w /\ (ok s = true -> contents d' = contents d) /\ (ok s = true -> intact d -> intact d').
Proof.
  intros []. unfold on_dest. rewrite wr_dest0.
  destruct (flush_law d wr_ok0) as (s & d' & -> & Hok & Hc & Hi).
  do 3 eexists. split; [reflexivity|]. by split; [constructor|].
Qed.

(** [AddRecord] always returns and keeps the writer usable; when it reports
    success the record is in the file. *)
Lemma AddRecord_ok recycle ln d o w r :
  writer_ok recycle ln d o w -> 0 <= ln -> zlen r < 2 ^ 63 ->
  exists s d' o' w', AddRecord r w = Ret s w' /\ writer_ok recycle ln d' o' w' /\
    (ok s = true -> exists out, fragments recycle ln true (padded recycle o) r out o' /\
       contents d' = contents d ++ padding recycle o ++ out /\ (intact d -> intact d')).
Proof.
  intros Hw Hln Hr. unfold AddRecord.
  destruct (add_fragments_ok (length r + 2) recycle ln d o w true r Hw Hln Hr)
    as (s1 & d1 & o1 & w1 & Ha & Hw1 & _ & Hc1); [done|lia|].
  erewrite bind_Ret by exact Ha. destruct (ok s1) eqn:Hs1.
  - rewrite bind_gets. destruct (manual_flush_ w1).
    + do 4 eexists. split; [reflexivity|]. split; [exact Hw1|]. intros _. by apply Hc1.
    + destruct (on_dest_flush _ _ _ _ _ Hw1) as (s2 & d2 & w2 & Hf & Hw2 & _ & Hc2 & Hi2).
      do 4 eexists. split; [exact Hf|]. split; [exact Hw2|]. intros Hs2. rewrite Hc2 by done.
      destruct (Hc1 eq_refl) as (out & Hfr & Hc & Hi). exists out. auto.
  - do 4 eexists. split; [reflexivity|]. split; [done|]. by rewrite Hs1.
Qed.

(** Append records until one fails. *)
Fixpoint add_records (rs : list bytes) : prog (Writer W) bool :=
  match rs with
  | [] => mret true
  | r :: rs' => s ← AddRecord r; if ok s then add_records rs' else mret false
  end.

Lemma add_records_ok recycle ln d o w rs :
  writer_ok recycle ln d o w -> 0 <= ln -> Forall (fun r : bytes => zlen r < 2 ^ 63) rs ->
  exists b d' o' w', add_records rs w = Ret b w' /\ writer_ok recycle ln d' o' w' /\
    (b = true -> exists out, records recycle ln o rs out o' /\ contents d' = contents d ++ out /\ (intact d -> intact d')).
Proof.
  intros Hw Hln Hrs. revert d o w Hw. induction Hrs as [|r rs Hr _ IH]; intros d o w Hw; cbn [add_records].
  - exists true, d, o, w. split; [done|]. split; [done|]. intros _. exists [].
    split; [constructor|by rewrite app_nil_r].
  - destruct (AddRecord_ok _ _ _ _ _ r Hw Hln Hr) as (s1 & d1 & o1 & w1 & Ha & Hw1 & Hc1).
    erewrite bind_Ret by exact Ha. destruct (ok s1).
    + destruct (IH _ _ _ Hw1) as (b & d2 & o2 & w2 & Hb & Hw2 & Hc2).
      do 4 eexists. split; [exact Hb|]. split; [exact Hw2|]. intros Htrue.
      destruct (Hc1 eq_refl) as (out & Hf & E1 & Hi1). destruct (Hc2 Htrue) as (outs & Hrec & E2 & Hi2).
      eexists. split; [eapply records_cons; eassumption|]. split; [by rewrite E2, E1, <- !app_assoc|auto].
    + exists false, d1, o1, w1. done.
Qed.
End Writer.
