(* ===== verification/LogReadSpec.v ===== *)
(** Reading back the layout of [LogSpec]: a reader positioned at a record
    returns it, and a reader at the end of the file, or at a record that was
    cut off, reports the end. *)
From S2P Require Import Prelude Bits Coding Crc32c Crc32cSpec IoStatus LogWriter LogReader LogSpec.
From stdpp Require Import base numbers list strings.
From Stdlib Require Import ZArith Lia.
Local Open Scope Z_scope.

(** A file that can be read: [Read] returns the next bytes, fewer than asked
    only at the end. *)
Class FileSourceSpec (F : Type) `{FileSource F} := {
  source_ok : F -> Prop;
  rest : F -> bytes;
  read_law f n : source_ok f -> 0 <= n < 2 ^ 62 ->
    exists f', source_Read n f = Ret (OK, take (Z.to_nat n) (rest f)) f' /\ source_ok f' /\
      rest f' = drop (Z.to_nat n) (rest f) }.

(** ** Parsing a frame *)

Lemma char_uint_small t : 0 <= t < 128 -> char_uint (byte_of t) = t.
Proof.
  intros Ht. unfold char_uint. rewrite byte_val_of, Z.mod_small by lia.
  destruct (Z.ltb_spec t 128); [|lia]. apply u32_small. lia.
Qed.

Section Frame.
Context (rc : bool) (ln t : Z) (p tl : bytes).
Context (Ht : 0 <= t < 128) (Hp : zlen p < 65536).
Abbreviation b := (frame rc ln t p ++ tl).

Lemma frame_type : header_type b = t.
Proof. by apply char_uint_small. Qed.

Lemma frame_length : header_length b = zlen p.
Proof.
  change (Z.lor (byte_val (byte_of (Z.land (zlen p) (Z.ones 8))))
    (Z.shiftl (byte_val (byte_of (Z.shiftr (zlen p) 8))) 8) = zlen p).
  rewrite !byte_val_of, Z.land_ones, Z.shiftr_div_pow2 by lia.
  change (2 ^ 8) with 256. rewrite Z.mod_mod, (Z.mod_small (zlen p / 256)).
  - rewrite lor_high by (try apply Z.mod_pos_bound; lia). rewrite (Z.div_mod (zlen p) 256) at 3 by lia. lia.
  - split; [apply Z.div_pos; unfold zlen; lia|apply Z.div_lt_upper_bound; lia].
  - lia.
Qed.

Lemma frame_crc : Unmask (DecodeFixed32 true b) = Value (byte_of t :: log_bytes rc ln ++ p).
Proof.
  unfold frame. rewrite <- app_assoc, DecodeFixed32_encoded by apply u32_range.
  apply Unmask_Mask, Value_range.
Qed.

Lemma frame_checked : sub b 6 (zlen p + hsize rc - 6) = byte_of t :: log_bytes rc ln ++ p.
Proof.
  unfold frame. rewrite le_bytes_of_shifts.
  set (c := le_bytes 4 _). set (l0 := byte_of (Z.land _ _)). set (l1 := byte_of (Z.shiftr _ _)).
  replace ((c ++ [l0; l1; byte_of t] ++ log_bytes rc ln ++ p) ++ tl)
    with ((c ++ [l0; l1]) ++ (byte_of t :: log_bytes rc ln ++ p) ++ tl)
    by (rewrite <- !app_assoc; cbn [app]; by rewrite <- ?app_assoc).
  apply sub_middle.
  - unfold c. by rewrite length_app, length_le_bytes.
  - pose proof (length_log_bytes rc ln). unfold zlen in *. cbn [length]. rewrite length_app. lia.
Qed.

Lemma frame_payload : sub b (hsize rc) (zlen p) = p.
Proof.
  pose proof (length_log_bytes rc ln). unfold frame. rewrite le_bytes_of_shifts.
  set (c := le_bytes 4 _). set (l := [_; _; _]).
  replace ((c ++ l ++ log_bytes rc ln ++ p) ++ tl) with ((c ++ l ++ log_bytes rc ln) ++ p ++ tl)
    by (by rewrite <- !app_assoc).
  apply sub_middle; [|done]. unfold zlen, c, l in *. rewrite !length_app, length_le_bytes. cbn [length]. lia.
Qed.

Lemma frame_rest : drop (Z.to_nat (hsize rc + zlen p)) b = tl.
Proof.
  rewrite <- (length_frame rc ln t p). apply drop_app_length'. unfold zlen. lia.
Qed.

Lemma frame_log : rc = true -> DecodeFixed32 true (drop 7 b) = u32 ln.
Proof.
  intros ->. unfold frame. cbn [log_bytes]. rewrite !(le_bytes_of_shifts true).
  replace (drop 7 _) with (le_bytes 4 (u32 ln) ++ p ++ tl) by (cbn; by rewrite <- ?app_assoc).
  rewrite <- (le_bytes_of_shifts true). apply DecodeFixed32_encoded, u32_range.
Qed.
End Frame.

(** Decide the comparisons of a known record type. *)
Ltac codes := repeat match goal with
  | |- context [?a =? ?b] => let v := eval vm_compute in (a =? b) in change (a =? b) with v
  end; cbn [orb andb negb when].

Section Reader.
Context {F : Type} `{FileSource F} {HF : FileSourceSpec F}.
Context (C : bytes) (HC : zlen C < 2 ^ 63).

(** The end of the bytes fetched when [E] were asked for. *)
Definition upto (E : Z) : Z := Z.min E (zlen C).

(** The reader is at byte [pos] of the file [C] and has fetched the blocks up
    to [E]. *)
Record reading (pos E : Z) (r : Reader F) : Prop := {
  rd_file : source_ok (r_file r);
  rd_rest : rest (r_file r) = drop (Z.to_nat E) C;
  rd_range : 0 <= pos <= upto E;
  rd_buffer : buffer_ r = sub C pos (upto E - pos);
  rd_end : end_of_buffer_offset_ r = upto E;
  rd_eof : eof_ r = (zlen C <? E);
  rd_error : read_error_ r = false }.

(** Nothing was reported in between, and the constants are the same. *)
Definition quiet (r r' : Reader F) : Prop :=
  reports r' = reports r /\ reporter_ r' = reporter_ r /\ checksum_ r' = checksum_ r /\
  r_log_number r' = r_log_number r.

#[export] Instance quiet_preorder : PreOrder quiet.
Proof. split; [done|]. intros x y z (?&?&?&?) (?&?&?&?). repeat split; congruence. Qed.

Lemma zlen_buffer pos E r : reading pos E r -> zlen (buffer_ r) = upto E - pos.
Proof.
  intros Hr. rewrite (rd_buffer _ _ _ Hr). pose proof (rd_range _ _ _ Hr) as Hp. unfold upto in *.
  unfold zlen at 1. rewrite length_sub by (apply in_block_spec; unfold zlen in *; lia). lia.
Qed.

(** Fetching the next block drops what is left of the current one. *)
Lemma ReadMore_fetch ds pos E r :
  reading pos E r -> 0 <= E <= zlen C ->
  exists r', ReadMore ds r = Ret (true, ds, kEof) r' /\ reading E (E + kBlockSize) r' /\ quiet r r'.
Proof.
  intros Hr HE. unfold ReadMore.
  rewrite !bind_gets, (rd_eof _ _ _ Hr), (rd_error _ _ _ Hr).
  destruct (Z.ltb_spec (zlen C) E); [lia|]. cbn [negb andb].
  erewrite bind_Ret by reflexivity.
  destruct (read_law (r_file r) kBlockSize (rd_file _ _ _ Hr)) as (f' & Hread & Hok & Hrest); [done|].
  erewrite bind_Ret by (apply (zoom_Ret reader_file); exact Hread). cbv beta iota.
  rewrite (rd_rest _ _ _ Hr) in *. set (b := take _ _) in *.
  assert (zlen b = upto (E + kBlockSize) - E) as Hb.
  { unfold b, upto, kBlockSize, zlen in *. rewrite length_take, length_drop. lia. }
  erewrite bind_Ret by reflexivity. rewrite bind_gets. erewrite bind_Ret by reflexivity.
  cbn [ok negb]. set (r1 := set_end_of_buffer _ _).
  assert (u64 (end_of_buffer_offset_ r + zlen b) = upto (E + kBlockSize)) as Hend.
  { rewrite (rd_end _ _ _ Hr), Hb, u64_small; unfold upto, kBlockSize in *; lia. }
  assert (b = sub C E (upto (E + kBlockSize) - E)) as Hsub.
  { rewrite <- Hb. unfold sub, zlen. rewrite Nat2Z.id. unfold b at 2.
    by rewrite length_take, <- take_take, (take_ge (drop _ C)). }
  destruct (Z.ltb_spec (zlen b) kBlockSize) as [Hlt|Hge]; eexists; (split; [reflexivity|]).
  all: split; [|by repeat split].
  all: split; cbn; [done|by rewrite Hrest, drop_drop; f_equal; unfold kBlockSize; lia|
    unfold upto, kBlockSize in *; lia|done|    exact Hend| |apply (rd_error _ _ _ Hr)].
  - unfold upto in *. destruct (Z.ltb_spec (zlen C) (E + kBlockSize)); [done|lia].
  - rewrite (rd_eof _ _ _ Hr). unfold upto, kBlockSize in *.
    destruct (Z.ltb_spec (zlen C) E), (Z.ltb_spec (zlen C) (E + 32768)); done || lia.
Qed.

(** At the end of the file what is left of the buffer is a truncated header. *)
Lemma ReadMore_eof ds pos E r :
  reading pos E r -> zlen C < E ->
  exists r' ds' e, ReadMore ds r = Ret (false, ds', e) r' /\ quiet r r' /\ reading (upto E) E r' /\
    (e = kEof /\ pos = upto E \/ e = kBadHeader /\ pos < upto E).
Proof.
  intros Hr HE. unfold ReadMore. pose proof (zlen_buffer _ _ _ Hr) as Hz. pose proof (rd_range _ _ _ Hr).
  rewrite !bind_gets, (rd_eof _ _ _ Hr), (rd_error _ _ _ Hr).
  destruct (Z.ltb_spec (zlen C) E) as [Hlt|]; [|lia]. cbn [negb andb].
  rewrite bind_gets. erewrite bind_Ret by reflexivity. rewrite Hz.
  destruct (Z.eqb_spec (upto E - pos) 0); cbn [negb]; do 3 eexists; (split; [reflexivity|]).
  all: split; [by repeat split|]; split;
    [destruct Hr; split; cbn; done || lia || by rewrite Z.sub_diag|].
  - left. split; [done|lia].
  - right. split; [done|lia].
Qed.

(** ** Reading a frame *)
Context (rc : bool) (ln : Z).

Lemma parse_frame fuel ds r t p tl :
  1 <= t <= 8 -> recyclable t = rc -> zlen p < 65536 -> (rc = true -> r_log_number r = u32 ln) ->
  buffer_ r = frame rc ln t p ++ tl ->
  exists r0, (r0 = r \/ r0 = set_recycled r) /\
    ReadPhysicalRecord (S fuel) ds r = Ret (t, p, ds) (set_buffer tl r0).
Proof.
  intros Ht Hrec Hp Hlog Hb. cbn [ReadPhysicalRecord]. rewrite bind_gets, Hb.
  pose proof (length_frame rc ln t p) as Hfl. pose proof (hsize_range rc) as Hh.
  assert (zlen (frame rc ln t p ++ tl) = hsize rc + zlen p + zlen tl) as Hlen.
  { unfold zlen in *. rewrite length_app. lia. }
  assert (forall r0 : Reader F, buffer_ r0 = frame rc ln t p ++ tl ->
    parse_body ds (hsize rc) r0 = Ret (t, p, ds) (set_buffer tl r0)) as Hbody.
  { intros r0 Hr0. unfold parse_body. rewrite bind_gets, Hr0, frame_type, frame_length by lia.
    rewrite Hlen, (frame_crc rc ln t p tl), frame_checked, frame_payload, frame_rest.
    destruct (Z.ltb_spec (hsize rc + zlen p + zlen tl) (hsize rc + zlen p)); [unfold zlen in *; lia|].
    destruct (Z.eqb_spec t kZeroType); [unfold kZeroType in *; lia|]. cbn [andb].
    rewrite bind_gets, Z.eqb_refl, andb_false_r. done. }
  rewrite Hlen. unfold kHeaderSize. destruct (Z.ltb_spec (hsize rc + zlen p + zlen tl) (4 + 2 + 1));
    [unfold zlen in *; lia|].
  rewrite frame_type, Hrec by lia. destruct rc.
  - rewrite bind_gets. set (r0 := if u64 (end_of_buffer_offset_ r - (hsize true + zlen p + zlen tl)) =? 0
      then set_recycled r else r).
    exists r0. split; [unfold r0; destruct (_ =? 0); auto|].
    assert (when (u64 (end_of_buffer_offset_ r - (hsize true + zlen p + zlen tl)) =? 0) (modify set_recycled) r
      = Ret tt r0) as Hwhen by (unfold r0; by destruct (_ =? 0)).
    erewrite bind_Ret by exact Hwhen. unfold hsize.
    destruct (Z.ltb_spec (kRecyclableHeaderSize + zlen p + zlen tl) kRecyclableHeaderSize);
      [unfold zlen in *; lia|].
    rewrite bind_gets, frame_log by done. rewrite <- Hlog by done.
    assert (r_log_number r0 = r_log_number r) as -> by (unfold r0; by destruct (_ =? 0)).
    rewrite Z.eqb_refl. cbn [negb]. apply Hbody. unfold r0. by destruct (_ =? 0).
  - exists r. split; [auto|]. by apply Hbody.
Qed.

(** Splitting the buffer at a position of the file. *)
Lemma buffer_split pos E r x :
  reading pos E r -> pos + zlen x <= upto E -> sub C pos (zlen x) = x ->
  buffer_ r = x ++ sub C (pos + zlen x) (upto E - (pos + zlen x)).
Proof.
  intros Hr Hx Hsub. pose proof (rd_range _ _ _ Hr). rewrite (rd_buffer _ _ _ Hr).
  replace (upto E - pos) with (zlen x + (upto E - (pos + zlen x))) by lia.
  by rewrite sub_app, Hsub by (unfold zlen in *; lia).
Qed.

Lemma reading_set_buffer pos E r r0 q :
  reading pos E r -> r0 = r \/ r0 = set_recycled r -> pos <= q <= upto E ->
  reading q E (set_buffer (sub C q (upto E - q)) r0).
Proof. intros [] Hr0 Hq. destruct Hr0 as [-> | ->]; split; cbn; done || lia. Qed.

Lemma read_frame_here fuel ds pos E r t p :
  reading pos E r -> 1 <= t <= 8 -> recyclable t = rc -> zlen p < 65536 ->
  (rc = true -> r_log_number r = u32 ln) ->
  pos + zlen (frame rc ln t p) <= upto E -> sub C pos (zlen (frame rc ln t p)) = frame rc ln t p ->
  exists r', ReadPhysicalRecord (S fuel) ds r = Ret (t, p, ds) r' /\
    reading (pos + zlen (frame rc ln t p)) E r' /\ quiet r r'.
Proof.
  intros Hr Ht Hrec Hp Hlog Hle Hsub.
  destruct (parse_frame fuel ds r t p _ Ht Hrec Hp Hlog (buffer_split _ _ _ _ Hr Hle Hsub))
    as (r0 & Hr0 & Hread).
  eexists. split; [exact Hread|]. split.
  - apply (reading_set_buffer pos E r); [done|done|unfold zlen in *; lia].
  - by destruct Hr0 as [-> | ->].
Qed.

(** The reader is in the block of the frame, or has less than a header left of
    the block before. *)
Definition ready (pos E q o : Z) : Prop :=
  pos = q /\ E = q - o + kBlockSize \/ E = q /\ o = 0 /\ E - pos < kHeaderSize.

Lemma read_frame fuel ds pos E r t p q o :
  reading pos E r -> ready pos E q o -> 1 <= t <= 8 -> recyclable t = rc ->
  (rc = true -> r_log_number r = u32 ln) -> 0 <= o ->
  o + zlen (frame rc ln t p) <= kBlockSize -> q + zlen (frame rc ln t p) <= zlen C ->
  sub C q (zlen (frame rc ln t p)) = frame rc ln t p ->
  exists r', ReadPhysicalRecord (S (S fuel)) ds r = Ret (t, p, ds) r' /\
    reading (q + zlen (frame rc ln t p)) (q - o + kBlockSize) r' /\ quiet r r'.
Proof.
  intros Hr Hready Ht Hrec Hlog Ho Hblock Hle Hsub. pose proof (hsize_range rc).
  assert (zlen p < 65536) as Hp by (rewrite length_frame in *; unfold kBlockSize in *; lia).
  assert (0 < zlen (frame rc ln t p)) as Hpos by (rewrite length_frame; unfold zlen; lia).
  destruct Hready as [[-> ->] | (-> & -> & Hgap)].
  - apply read_frame_here; try done. unfold upto. lia.
  - pose proof (rd_range _ _ _ Hr) as Hrange. unfold upto in Hrange.
    destruct (ReadMore_fetch ds pos q r Hr) as (r1 & Hmore & Hr1 & Hq1); [lia|].
    destruct (read_frame_here fuel ds q (q + kBlockSize) r1 t p Hr1 Ht Hrec Hp) as (r2 & H2 & Hr2 & Hq2); try done.
    { destruct Hq1 as (_ & _ & _ & ->). done. }
    { unfold upto. lia. }
    exists r2. split; [|split; [by replace (q - 0 + kBlockSize) with (q + kBlockSize) by lia|by etrans]].
    change (ReadPhysicalRecord (S (S fuel)) ds r = Ret (t, p, ds) r2).
    remember (S fuel) as fuel1. cbn [ReadPhysicalRecord]. rewrite bind_gets, (zlen_buffer _ _ _ Hr).
    destruct (Z.ltb_spec (upto q - pos) kHeaderSize); [|unfold upto in *; lia].
    erewrite bind_Ret by exact Hmore. exact H2.
Qed.

(** ** Reading a record *)

Lemma fragment_type_ok start end_ :
  1 <= fragment_type rc start end_ <= 8 /\ recyclable (fragment_type rc start end_) = rc.
Proof. by destruct rc, start, end_. Qed.

Lemma reading_last pos E r o : reading pos E r -> reading pos E (set_last_record_offset o r).
Proof. by intros []. Qed.

(** One turn of the loop of [ReadRecord] for a fragment of this log. *)
Lemma read_record_step fuel mode start end_ scratch pr p r r1 :
  ReadPhysicalRecord (S fuel) 0 r = Ret (fragment_type rc start end_, p, 0) r1 ->
  (start = true -> scratch = []) ->
  exists pr', read_record (S fuel) mode (negb start) scratch pr r =
    if (end_ : bool) then Ret (Some (scratch ++ p)) (set_last_record_offset pr' r1)
    else read_record fuel mode true (scratch ++ p) pr' r1.
Proof.
  intros Hread Hscratch. remember (S fuel) as fuel1 eqn:Ef. rewrite Ef. cbn [read_record]. rewrite <- Ef.
  rewrite bind_gets. erewrite bind_Ret by exact Hread. cbv beta iota.
  destruct rc, start, end_; try rewrite (Hscratch eq_refl); eexists; reflexivity.
Qed.

Lemma read_fragments start o p out o' :
  fragments rc ln start o p out o' ->
  forall fuel mode scratch pr pos E q r,
  reading pos E r -> ready pos E q o -> (rc = true -> r_log_number r = u32 ln) ->
  q + zlen out <= zlen C -> sub C q (zlen out) = out -> (length out < fuel)%nat -> 0 <= q ->
  (start = true -> scratch = []) ->
  exists r', read_record fuel mode (negb start) scratch pr r = Ret (Some (scratch ++ p)) r' /\
    reading (q + zlen out) (q + zlen out - o' + kBlockSize) r' /\ quiet r r'.
Proof.
  pose proof (hsize_range rc) as Hh.
  induction 1 as [start o p Ho Hl|start o p1 p2 out o' Ho Hl Hne Hfr IH];
    intros fuel mode scratch pr pos E q r Hr Hready Hlog Hle Hsub Hfuel Hq Hscratch.
  - destruct (fragment_type_ok start true) as [Ht Hrec]. set (f := frame _ _ _ _) in *.
    pose proof (length_frame rc ln (fragment_type rc start true) p) as Hf. fold f in Hf.
    destruct fuel as [|[|fuel]]; [lia|unfold zlen in Hf; lia|].
    destruct (read_frame fuel 0 pos E r _ p q o Hr Hready Ht Hrec Hlog Ho) as (r1 & H1 & Hr1 & Hq1);
      fold f; try done; [lia|].
    destruct (read_record_step (S fuel) mode start true scratch pr p r r1 H1 Hscratch) as (pr' & ->).
    eexists. split; [reflexivity|]. split; [|done]. apply reading_last. fold f in Hr1.
    by replace (q + zlen f - (o + hsize rc + zlen p) + kBlockSize) with (q - o + kBlockSize) by lia.
  - destruct (fragment_type_ok start false) as [Ht Hrec]. set (f := frame _ _ _ _) in *.
    pose proof (length_frame rc ln (fragment_type rc start false) p1) as Hf. fold f in Hf.
    assert (zlen (f ++ out) = zlen f + zlen out) as Happ by (unfold zlen; rewrite length_app; lia).
    rewrite Happ in *. rewrite sub_app in Hsub by (unfold zlen in *; lia).
    apply app_inj_1 in Hsub as [Hs1 Hs2].
    2: { rewrite length_sub; [unfold zlen; lia|]. apply in_block_spec. unfold zlen in *. lia. }
    rewrite length_app in Hfuel.
    destruct fuel as [|[|fuel]]; [lia|unfold zlen in Hf; lia|].
    destruct (read_frame fuel 0 pos E r _ p1 q o Hr Hready Ht Hrec Hlog Ho) as (r1 & H1 & Hr1 & Hq1);
      fold f; try done; [lia|unfold zlen in *; lia|]. fold f in Hr1.
    destruct (read_record_step (S fuel) mode start false scratch pr p1 r r1 H1 Hscratch) as (pr' & ->).
    replace (q - o + kBlockSize) with (q + zlen f) in Hr1 by lia.
    destruct (IH (S fuel) mode (scratch ++ p1) pr' _ _ (q + zlen f) r1 Hr1) as (r2 & H2 & Hr2 & Hq2).
    { right. split; [done|]. split; [done|]. unfold kHeaderSize. lia. }
    { destruct Hq1 as (_ & _ & _ & ->). done. }
    { lia. }
    { done. }
    { unfold zlen in *. lia. }
    { unfold zlen in *. lia. }
    { done. }
    exists r2. split; [by rewrite <- app_assoc in H2|].
    split; [by rewrite Z.add_assoc|by etrans].
Qed.

(** ** Between two records *)

(** The reader at byte [q], which has offset [o] in the writer's current block. *)
Definition at_record (q o E : Z) : Prop :=
  q = 0 /\ o = 0 /\ E = 0 \/ 0 < o <= kBlockSize /\ E = q - o + kBlockSize.

(** Zeroes of at least the size of a header look like an empty record: the rest
    of the block is skipped. *)
Lemma skip_zeroes fuel mode pr n r :
  buffer_ r = replicate n Byte.x00 -> kHeaderSize <= Z.of_nat n ->
  read_record (S fuel) mode false [] pr r = read_record fuel mode false [] pr (set_buffer [] r).
Proof.
  intros Hb Hn. unfold kHeaderSize in Hn.
  do 7 (destruct n as [|n]; [lia|]). cbn [replicate] in Hb.
  assert (ReadPhysicalRecord (S fuel) 0 r = Ret (kBadRecord, [], 0) (set_buffer [] r)) as Hp.
  { cbn [ReadPhysicalRecord]. rewrite bind_gets, Hb. unfold zlen. cbn [length].
    destruct (Z.ltb_spec (Z.of_nat (S (S (S (S (S (S (S (length (replicate n Byte.x00))))))))) ) kHeaderSize);
      [unfold kHeaderSize in *; lia|].
    change (recyclable (header_type _)) with false. cbv iota. unfold parse_body. rewrite bind_gets, Hb.
    change (header_length _) with 0. change (header_type _) with 0. unfold zlen. cbn [length].
    match goal with |- context [?a <? ?b] => destruct (Z.ltb_spec a b) as [|]; [unfold kHeaderSize in *; lia|] end.
    reflexivity. }
  remember (S fuel) as fuel1 eqn:Ef. rewrite Ef. cbn [read_record]. rewrite <- Ef, bind_gets.
  erewrite bind_Ret by exact Hp. reflexivity.
Qed.

Lemma padding_zeroes o : 0 <= o <= kBlockSize -> kBlockSize - o < hsize rc ->
  padding rc o = replicate (Z.to_nat (kBlockSize - o)) Byte.x00 /\ padded rc o = 0.
Proof.
  intros Ho Hs. unfold padding, padded. by destruct (Z.ltb_spec (kBlockSize - o) (hsize rc)); [|lia].
Qed.

Lemma no_padding o : hsize rc <= kBlockSize - o -> padding rc o = [] /\ padded rc o = o.
Proof. intros Hs. unfold padding, padded. by destruct (Z.ltb_spec (kBlockSize - o) (hsize rc)); [lia|]. Qed.

(** The padding in front of a record is skipped, with at most one turn of the
    loop. *)
Lemma skip_padding mode pr q o E r :
  reading q E r -> at_record q o E -> q + zlen (padding rc o) <= zlen C ->
  sub C q (zlen (padding rc o)) = padding rc o ->
  exists n pos r', (n <= 1)%nat /\ reading pos E r' /\ ready pos E (q + zlen (padding rc o)) (padded rc o) /\
    quiet r r' /\
    forall fuel, read_record (n + fuel) mode false [] pr r = read_record fuel mode false [] pr r'.
Proof.
  intros Hr Hbt Hle Hsub. pose proof (hsize_range rc) as Hh.
  assert (0 <= o <= kBlockSize) as Ho by (unfold at_record, kBlockSize in *; lia).
  destruct (decide (kBlockSize - o < hsize rc)) as [Hs|Hs].
  - destruct (padding_zeroes o Ho Hs) as [Hpad ->]. rewrite Hpad in *.
    assert (zlen (replicate (Z.to_nat (kBlockSize - o)) Byte.x00) = kBlockSize - o) as Hz
      by (unfold zlen; rewrite length_replicate; lia).
    rewrite Hz in *. destruct Hbt as [(_ & -> & _)|[_ ->]]; [unfold kBlockSize in *; lia|].
    replace (q - o + kBlockSize) with (q + (kBlockSize - o)) in * by lia.
    destruct (decide (kBlockSize - o < kHeaderSize)) as [H7|H7].
    + exists O, q, r. split; [lia|]. split; [done|]. split; [|done]. right. lia.
    + exists 1%nat, (q + (kBlockSize - o)), (set_buffer [] r). split; [done|].
      pose proof (rd_range _ _ _ Hr). assert (upto (q + (kBlockSize - o)) = q + (kBlockSize - o)) as Hup
        by (unfold upto; lia).
      split; [|split; [right; unfold kHeaderSize in *; lia|split; [done|]]].
      * pose proof (reading_set_buffer q _ r r (q + (kBlockSize - o)) Hr (or_introl eq_refl)) as Hrs.
        rewrite Hup, Z.sub_diag in Hrs. apply Hrs. lia.
      * intros fuel. apply (skip_zeroes fuel mode pr (Z.to_nat (kBlockSize - o))); [|lia].
        rewrite (rd_buffer _ _ _ Hr), Hup. by replace (q + (kBlockSize - o) - q) with (kBlockSize - o) by lia.
  - destruct (no_padding o ltac:(lia)) as [-> ->]. exists O, q, r. split; [lia|]. split; [done|].
    split; [|done]. rewrite Z.add_0_r. destruct Hbt as [(-> & -> & ->)|[_ ->]]; [|by left].
    right. unfold kHeaderSize. lia.
Qed.

Lemma read_next fuel mode q o E r rcd out o1 :
  reading q E r -> at_record q o E -> (rc = true -> r_log_number r = u32 ln) ->
  fragments rc ln true (padded rc o) rcd out o1 ->
  q + zlen (padding rc o ++ out) <= zlen C ->
  sub C q (zlen (padding rc o ++ out)) = padding rc o ++ out -> (length out + 2 <= fuel)%nat ->
  exists E' r', ReadRecord fuel mode r = Ret (Some rcd) r' /\
    reading (q + zlen (padding rc o ++ out)) E' r' /\ at_record (q + zlen (padding rc o ++ out)) o1 E' /\ quiet r r'.
Proof.
  intros Hr Hbt Hlog Hfr Hle Hsub Hfuel. pose proof (rd_range _ _ _ Hr) as Hq.
  assert (zlen (padding rc o ++ out) = zlen (padding rc o) + zlen out) as Happ
    by (unfold zlen; rewrite length_app; lia).
  rewrite Happ in *. rewrite sub_app in Hsub by (unfold zlen in *; lia).
  apply app_inj_1 in Hsub as [Hs1 Hs2].
  2: { rewrite length_sub; [unfold zlen; lia|]. apply in_block_spec. unfold zlen in *. lia. }
  destruct (skip_padding mode 0 q o E r Hr Hbt) as (n & pos & r1 & Hn & Hr1 & Hready & Hq1 & Hskip);
    [unfold zlen in *; lia|done|].
  destruct (read_fragments _ _ _ _ _ Hfr (fuel - n)%nat mode [] 0 pos E _ r1 Hr1 Hready)
    as (r2 & H2 & Hr2 & Hq2); try done; try (unfold zlen in *; lia).
  { destruct Hq1 as (_ & _ & _ & ->). done. }
  rewrite <- Z.add_assoc in Hr2.
  eexists _, r2. split; [|split; [exact Hr2|split; [|by etrans]]].
  - unfold ReadRecord. replace fuel with (n + (fuel - n))%nat by lia. by rewrite Hskip.
  - right. split; [|lia]. apply (fragments_range rc ln) in Hfr. lia.
Qed.

(** ** The end of the file *)

(** What [ReadPhysicalRecord] finds where the file ends, in or after a frame. *)
Definition ended (t : Z) (r : Reader F) : Prop :=
  t = kEof \/ t = kBadHeader \/ t = kBadRecordLen /\ eof_ r = true.

Lemma strict_tail_when mode fragmented scratch (r : Reader F) :
  exists r', trailing mode fragmented scratch r = Ret tt r' /\
    (strict_tail mode = false \/ fragmented = false -> quiet r r').
Proof.
  unfold trailing, ReportCorruption, ReportDrop.
  destruct (fragmented && strict_tail mode) eqn:E; [|by exists r].
  apply andb_prop in E as [-> ->]. cbn [when]. rewrite bind_gets.
  destruct (reporter_ r); eexists; (split; [reflexivity|by intros [|]]).
Qed.

Lemma report_total n reason (r : Reader F) : exists r', ReportCorruption n reason r = Ret tt r'.
Proof. unfold ReportCorruption, ReportDrop. rewrite bind_gets. destruct (reporter_ r); by eexists. Qed.

Lemma read_record_ended fuel mode fragmented scratch pr t ds r r1 :
  ReadPhysicalRecord (S fuel) 0 r = Ret (t, [], ds) r1 -> ended t r1 ->
  exists r', read_record (S fuel) mode fragmented scratch pr r = Ret None r' /\
    (strict_tail mode = false \/ t = kEof /\ fragmented = false -> quiet r1 r').
Proof.
  intros Hread Hend. remember (S fuel) as fuel1 eqn:Ef. rewrite Ef. cbn [read_record]. rewrite <- Ef.
  rewrite bind_gets. erewrite bind_Ret by exact Hread. cbv beta iota.
  destruct Hend as [-> | [-> | [-> He]]].
  - destruct (strict_tail_when mode fragmented scratch r1) as (r2 & H2 & Hq2). exists r2. codes. erewrite bind_Ret by reflexivity.
    erewrite bind_Ret by exact H2. split; [done|]. intros [|[_ ?]]; auto.
  - destruct (strict_tail mode) eqn:Es.
    + destruct (report_total ds "truncated header" r1) as (r2 & H2).
      destruct (strict_tail_when mode fragmented scratch r2) as (r3 & H3 & _). exists r3. codes.
      erewrite bind_Ret by exact H2. erewrite bind_Ret by exact H3. split; [done|].
      by intros [|[? _]].
    + destruct (strict_tail_when mode fragmented scratch r1) as (r3 & H3 & Hq). exists r3. codes.
      erewrite bind_Ret by reflexivity. erewrite bind_Ret by exact H3. split; [done|]. intros _. apply Hq. by left.
  - codes. rewrite bind_gets, He. cbn [andb]. destruct (strict_tail mode); [|by exists r1].
    destruct (report_total ds "truncated record body" r1) as (r2 & H2). exists r2. cbn [when].
    erewrite bind_Ret by exact H2. split; [done|]. by intros [|[? _]].
Qed.

(** With less than a header in the last block. *)
Lemma short_tail fuel ds pos E r :
  reading pos E r -> zlen C < E -> upto E - pos < kHeaderSize ->
  exists t ds' r', ReadPhysicalRecord (S fuel) ds r = Ret (t, [], ds') r' /\ ended t r' /\ quiet r r' /\
    (pos = zlen C -> t = kEof).
Proof.
  intros Hr HE Hs. destruct (ReadMore_eof ds pos E r Hr HE) as (r1 & ds1 & t & Hmore & Hq & He & Ht).
  exists t, ds1, r1. split; [|split; [|split; [done|]]].
  3: { intros ->. destruct Ht as [[-> _]|[_ Hlt]]; [done|unfold upto in Hlt; lia]. }
  - cbn [ReadPhysicalRecord]. rewrite bind_gets, (zlen_buffer _ _ _ Hr).
    destruct (Z.ltb_spec (upto E - pos) kHeaderSize); [|lia]. by erewrite bind_Ret by exact Hmore.
  - unfold ended. destruct Ht as [[-> _]|[-> _]]; auto.
Qed.

(** At the end of the file there is no more record, and nothing is reported. *)
Lemma read_end fuel mode o E r :
  reading (zlen C) E r -> at_record (zlen C) o E ->
  exists r', ReadRecord (S (S fuel)) mode r = Ret None r' /\ quiet r r'.
Proof.
  intros Hr Hbt. pose proof (rd_range _ _ _ Hr) as Hrange.
  assert (exists ds' r1, ReadPhysicalRecord (S (S fuel)) 0 r = Ret (kEof, [], ds') r1 /\ quiet r r1)
    as (ds' & r1 & H1 & Hq1).
  { destruct (decide (zlen C < E)).
    - destruct (short_tail (S fuel) 0 _ _ _ Hr) as (t & ds' & r1 & H1 & _ & Hq & Ht);
        [done|unfold upto, kHeaderSize; lia|]. rewrite (Ht eq_refl) in H1. eauto.
    - assert (E = zlen C) as -> by (unfold upto in *; lia).
      destruct (ReadMore_fetch 0 _ _ _ Hr) as (r2 & H2 & Hr2 & Hq2); [unfold zlen; lia|].
      destruct (short_tail fuel 0 _ _ _ Hr2) as (t & ds' & r1 & H1 & _ & Hq & Ht);
        [unfold kBlockSize; lia|unfold upto, kBlockSize, kHeaderSize; lia|]. rewrite (Ht eq_refl) in H1.
      exists ds', r1. split; [|by etrans]. remember (S fuel) as fuel1. cbn [ReadPhysicalRecord].
      rewrite bind_gets, (zlen_buffer _ _ _ Hr). unfold upto. rewrite Z.min_id, Z.sub_diag.
      change (0 <? kHeaderSize) with true. cbv iota. by erewrite bind_Ret by exact H2. }
  destruct (read_record_ended (S fuel) mode false [] 0 kEof ds' r r1 H1) as (r' & H2 & Hq2); [by left|].
  exists r'. split; [done|]. etrans; [done|]. apply Hq2. by right.
Qed.


(** ** A record that was cut off *)

(** The header of a frame whose payload is cut off. *)
Lemma take_header (n : nat) f : (7 <= n)%nat ->
  header_type (take n f) = header_type f /\ header_length (take n f) = header_length f.
Proof. intros Hn. unfold header_type, header_length, at_. by rewrite !lookup_take_lt by lia. Qed.

Lemma take_log_number (n : nat) f : (11 <= n)%nat ->
  DecodeFixed32 true (drop 7 (take n f)) = DecodeFixed32 true (drop 7 f).
Proof.
  intros Hn. unfold DecodeFixed32. rewrite !take_drop_commute, take_take. by replace (_ `min` n)%nat with 11%nat by lia.
Qed.

(** The reader, possibly just told that the log is recycled, at a frame that
    runs over the end of the file. *)
Section Torn.
Context (q E t : Z) (p : bytes) (r : Reader F).
Context (Hr : reading q E r) (HE : zlen C < E) (Ht : 1 <= t <= 8) (Hp : zlen p < 65536).
Context (Hlt : zlen C < q + zlen (frame rc ln t p)).
Context (Hsub : sub C q (zlen C - q) = take (Z.to_nat (zlen C - q)) (frame rc ln t p)).
Context (Hhead : kHeaderSize <= zlen C - q).

Definition torn_end (m : prog (Reader F) (Z * bytes * Z)) (r0 : Reader F) : Prop :=
  exists t' ds' r', m r0 = Ret (t', [], ds') r' /\ ended t' r' /\ quiet r r'.

Lemma torn_buffer : buffer_ r = take (Z.to_nat (zlen C - q)) (frame rc ln t p) /\ zlen (buffer_ r) = zlen C - q.
Proof.
  rewrite (zlen_buffer _ _ _ Hr), (rd_buffer _ _ _ Hr).
  by replace (upto E) with (zlen C) by (unfold upto; lia).
Qed.

Lemma torn_header : header_type (buffer_ r) = t /\ header_length (buffer_ r) = zlen p.
Proof.
  rewrite (proj1 torn_buffer). unfold kHeaderSize in *.
  destruct (take_header (Z.to_nat (zlen C - q)) (frame rc ln t p)) as [-> ->]; [lia|].
  rewrite <- (app_nil_r (frame rc ln t p)). split; [apply frame_type; lia|by apply frame_length].
Qed.

Lemma torn_body ds r0 : r0 = r \/ r0 = set_recycled r -> torn_end (parse_body ds (hsize rc)) r0.
Proof.
  intros Hr0. destruct torn_buffer as [_ Hz]. pose proof Hlt as Hlt'. rewrite length_frame in Hlt'.
  assert (buffer_ r0 = buffer_ r) as Hb0 by (by destruct Hr0 as [-> | ->]).
  exists kBadRecordLen, (zlen (buffer_ r0)), (set_buffer [] r0). split.
  - unfold parse_body. rewrite bind_gets, Hb0, (proj2 torn_header), Hz.
    by destruct (Z.ltb_spec (zlen C - q) (hsize rc + zlen p)); [|lia].
  - split; [|by destruct Hr0 as [-> | ->]]. right; right. split; [done|].
    assert (eof_ r = true) by (rewrite (rd_eof _ _ _ Hr); by apply Z.ltb_lt). by destruct Hr0 as [-> | ->].
Qed.

Lemma torn_recyclable fuel ds r0 : r0 = r \/ r0 = set_recycled r -> rc = true -> r_log_number r = u32 ln ->
  torn_end (if zlen (buffer_ r) <? kRecyclableHeaderSize then
      '(more, drop_size, e) ← ReadMore ds;
      if (more : bool) then ReadPhysicalRecord fuel drop_size else mret (e, [], drop_size)
    else n ← gets r_log_number;
      if negb (DecodeFixed32 true (drop 7 (buffer_ r)) =? n) then mret (kOldRecord, [], ds)
      else parse_body ds kRecyclableHeaderSize) r0.
Proof.
  intros Hr0 Hrc Hlog. destruct torn_buffer as [Hb Hz]. rewrite Hz.
  assert (reading q E r0) as Hrr by (by destruct Hr0 as [-> | ->]; destruct Hr).
  destruct (Z.ltb_spec (zlen C - q) kRecyclableHeaderSize) as [Hs|Hs].
  - destruct (ReadMore_eof ds q E r0 Hrr HE) as (r1 & ds1 & e & Hmore & Hq & He & Hcase).
    exists e, ds1, r1. erewrite bind_Ret by exact Hmore. split; [done|].
    split; [unfold ended; destruct Hcase as [[-> _]|[-> _]]; auto|by destruct Hr0 as [-> | ->]].
  - unfold torn_end. rewrite bind_gets. replace (r_log_number r0) with (u32 ln) by (by destruct Hr0 as [-> | ->]).
    rewrite Hb, take_log_number by (unfold kRecyclableHeaderSize in Hs; lia).
    rewrite <- (app_nil_r (frame rc ln t p)), frame_log, Z.eqb_refl by done. cbn [negb].
    pose proof (torn_body ds r0 Hr0) as Hbody. by rewrite Hrc in Hbody.
Qed.
End Torn.

Lemma torn_here fuel ds q E r t p :
  reading q E r -> zlen C < E -> 1 <= t <= 8 -> recyclable t = rc -> zlen p < 65536 ->
  (rc = true -> r_log_number r = u32 ln) -> zlen C < q + zlen (frame rc ln t p) ->
  sub C q (zlen C - q) = take (Z.to_nat (zlen C - q)) (frame rc ln t p) ->
  torn_end r (ReadPhysicalRecord (S fuel) ds) r.
Proof.
  intros Hr HE Ht Hrec Hp Hlog Hlt Hsub.
  destruct (decide (upto E - q < kHeaderSize)) as [Hs|Hs].
  { destruct (short_tail fuel ds q E r Hr HE Hs) as (t' & ds' & r' & ? & ? & ? & _). unfold torn_end. eauto 10. }
  assert (kHeaderSize <= zlen C - q) as Hh by (unfold upto in *; lia).
  destruct (torn_buffer q E t p r) as [_ Hz]; try done. destruct (torn_header q E t p r) as [Hty _]; try done.
  unfold torn_end. cbn [ReadPhysicalRecord]. rewrite bind_gets, Hty, Hrec.
  destruct (Z.ltb_spec (zlen (buffer_ r)) kHeaderSize); [lia|].
  pose proof (torn_recyclable q E t p r Hr HE Ht Hp Hlt Hsub Hh fuel ds) as Hrecy.
  pose proof (torn_body q E t p r Hr HE Ht Hp Hlt Hsub Hh ds) as Hbody.
  destruct rc; [|by apply Hbody; left].
  rewrite bind_gets.
  set (r0 := if u64 (end_of_buffer_offset_ r - zlen (buffer_ r)) =? 0 then set_recycled r else r).
  erewrite (bind_Ret (when _ _) _ r tt r0) by (unfold r0; by destruct (_ =? 0)).
  apply Hrecy; [unfold r0; destruct (_ =? 0); auto|done|auto].
Qed.

Lemma torn_frame fuel ds pos E r t p q o :
  reading pos E r -> ready pos E q o -> 1 <= t <= 8 -> recyclable t = rc ->
  (rc = true -> r_log_number r = u32 ln) -> 0 <= o ->
  o + zlen (frame rc ln t p) <= kBlockSize -> q <= zlen C < q + zlen (frame rc ln t p) ->
  sub C q (zlen C - q) = take (Z.to_nat (zlen C - q)) (frame rc ln t p) ->
  torn_end r (ReadPhysicalRecord (S (S fuel)) ds) r.
Proof.
  intros Hr Hready Ht Hrec Hlog Ho Hblock Hle Hsub. pose proof (hsize_range rc).
  assert (zlen p < 65536) as Hp by (rewrite length_frame in *; unfold kBlockSize in *; lia).
  destruct Hready as [[-> ->] | (-> & -> & Hgap)].
  - eapply torn_here; try done; lia.
  - pose proof (rd_range _ _ _ Hr) as Hrange. unfold upto in Hrange.
    destruct (ReadMore_fetch ds pos q r Hr) as (r1 & Hmore & Hr1 & Hq1); [lia|].
    destruct (torn_here fuel ds q (q + kBlockSize) r1 t p Hr1) as (t' & ds' & r2 & H2 & He & Hq2); try done; [lia| |lia|].
    { destruct Hq1 as (_ & _ & _ & ->). done. }
    exists t', ds', r2. split; [|split; [done|by etrans]].
    remember (S fuel) as fuel1. cbn [ReadPhysicalRecord]. rewrite bind_gets, (zlen_buffer _ _ _ Hr).
    destruct (Z.ltb_spec (upto q - pos) kHeaderSize); [|unfold upto in *; lia].
    erewrite bind_Ret by exact Hmore. exact H2.
Qed.

(** The bytes of the file from [q] on are the start of [out], and not all of it. *)
Definition cut_off (q : Z) (out : bytes) : Prop :=
  0 <= q <= zlen C /\ zlen C < q + zlen out /\
  sub C q (zlen C - q) = take (Z.to_nat (zlen C - q)) out.

(** The first part of a cut off layout is there, or is the part cut off. *)
Lemma cut_off_app q x y : cut_off q (x ++ y) ->
  cut_off q x \/ q + zlen x <= zlen C /\ sub C q (zlen x) = x /\ cut_off (q + zlen x) y.
Proof.
  intros (Hq & Hlt & Hsub). unfold cut_off, zlen in *. rewrite length_app in Hlt.
  destruct (decide (Z.of_nat (length C) < q + Z.of_nat (length x))) as [Hc|Hc]; [left|right].
  - by rewrite take_app_le in Hsub by lia.
  - replace (Z.of_nat (length C) - q)
      with (Z.of_nat (length x) + (Z.of_nat (length C) - (q + Z.of_nat (length x)))) in Hsub by lia.
    rewrite sub_app in Hsub by lia.
    rewrite Z2Nat.inj_add, Nat2Z.id, take_app_add' in Hsub by lia.
    apply app_inj_1 in Hsub as [Hs1 Hs2]; [split; [lia|split; [done|split; [lia|split; [lia|done]]]]|].
    rewrite length_sub; [lia|]. apply in_block_spec. unfold zlen in *. lia.
Qed.

(** A reader that finds the end of the file returns no record; only the strict
    modes report it. *)
Lemma torn_read_record fuel mode fragmented scratch pr r :
  torn_end r (ReadPhysicalRecord (S fuel) 0) r ->
  exists r', read_record (S fuel) mode fragmented scratch pr r = Ret None r' /\
    (strict_tail mode = false -> quiet r r').
Proof.
  intros (t' & ds' & r1 & H1 & He & Hq1).
  destruct (read_record_ended fuel mode fragmented scratch pr t' ds' r r1 H1 He) as (r' & H2 & Hq2).
  exists r'. split; [done|]. intros Hs. etrans; [done|]. apply Hq2. by left.
Qed.

Lemma torn_fragments start o p out o' :
  fragments rc ln start o p out o' ->
  forall fuel mode scratch pr pos E q r,
  reading pos E r -> ready pos E q o -> (rc = true -> r_log_number r = u32 ln) ->
  cut_off q out -> (length out < fuel)%nat -> (start = true -> scratch = []) ->
  exists r', read_record fuel mode (negb start) scratch pr r = Ret None r' /\
    (strict_tail mode = false -> quiet r r').
Proof.
  pose proof (hsize_range rc) as Hh.
  induction 1 as [start o p Ho Hl|start o p1 p2 out o' Ho Hl Hne Hfr IH];
    intros fuel mode scratch pr pos E q r Hr Hready Hlog Hcut Hfuel Hscratch.
  - destruct (fragment_type_ok start true) as [Ht Hrec]. set (f := frame _ _ _ _) in *.
    pose proof (length_frame rc ln (fragment_type rc start true) p) as Hf. fold f in Hf.
    destruct fuel as [|[|fuel]]; [lia|unfold zlen in Hf; lia|]. destruct Hcut as (Hq & Hlt & Hsub).
    eapply torn_read_record, (torn_frame fuel 0 pos E r (fragment_type rc start true) p q o); fold f; try done; lia.
  - destruct (fragment_type_ok start false) as [Ht Hrec]. set (f := frame _ _ _ _) in *.
    pose proof (length_frame rc ln (fragment_type rc start false) p1) as Hf. fold f in Hf.
    rewrite length_app in Hfuel. destruct fuel as [|[|fuel]]; [lia|unfold zlen in Hf; lia|].
    destruct (cut_off_app q f out Hcut) as [(Hq & Hlt & Hsub)|(Hle & Hsub & Hcut')].
    { eapply torn_read_record, (torn_frame fuel 0 pos E r (fragment_type rc start false) p1 q o); fold f; try done; lia. }
    destruct (read_frame fuel 0 pos E r _ p1 q o Hr Hready Ht Hrec Hlog Ho) as (r1 & H1 & Hr1 & Hq1);
      fold f; try done; [lia|]. fold f in Hr1.
    destruct (read_record_step (S fuel) mode start false scratch pr p1 r r1 H1 Hscratch) as (pr' & ->).
    replace (q - o + kBlockSize) with (q + zlen f) in Hr1 by lia.
    destruct (IH (S fuel) mode (scratch ++ p1) pr' _ _ (q + zlen f) r1 Hr1) as (r2 & H2 & Hq2); try done.
    { right. split; [done|]. split; [done|]. unfold kHeaderSize. lia. }
    { destruct Hq1 as (_ & _ & _ & ->). done. }
    { unfold zlen in *. lia. }
    exists r2. split; [done|]. intros Hs. etrans; [exact Hq1|auto].
Qed.

(** The file ends in the padding of a block. *)
Lemma torn_padding fuel mode q o E r :
  reading q E r -> at_record q o E -> cut_off q (padding rc o) ->
  exists r', ReadRecord (S (S fuel)) mode r = Ret None r' /\ (strict_tail mode = false -> quiet r r').
Proof.
  intros Hr Hbt (Hq & Hlt & Hsub). pose proof (hsize_range rc) as Hh.
  assert (0 <= o <= kBlockSize) as Ho by (unfold at_record, kBlockSize in *; lia).
  destruct (decide (hsize rc <= kBlockSize - o)) as [Hs|Hs].
  { rewrite (proj1 (no_padding o Hs)) in Hlt. unfold zlen in *. cbn in Hlt. lia. }
  rewrite (proj1 (padding_zeroes o Ho ltac:(lia))) in Hlt, Hsub.
  destruct Hbt as [(_ & -> & _)|[_ HE]]; [unfold kBlockSize in *; lia|].
  assert (zlen C < E) as HCE by (unfold zlen in *; rewrite length_replicate in Hlt; lia).
  assert (upto E = zlen C) as Hup by (unfold upto; lia).
  destruct (decide (upto E - q < kHeaderSize)) as [H7|H7].
  - destruct (short_tail (S fuel) 0 q E r Hr HCE H7) as (t' & ds' & r' & ? & ? & ? & _).
    eapply torn_read_record. do 3 eexists. eauto.
  - unfold ReadRecord.
    rewrite (skip_zeroes (S fuel) mode 0 (Z.to_nat (zlen C - q)) r).
    + pose proof (reading_set_buffer q _ r r (zlen C) Hr (or_introl eq_refl)) as Hrs.
      rewrite Hup, Z.sub_diag in Hrs. specialize (Hrs ltac:(lia)).
      destruct (short_tail fuel 0 _ _ _ Hrs HCE) as (t' & ds' & r' & ? & ? & Hq' & _);
        [unfold kHeaderSize; lia|].
      apply (torn_read_record fuel mode false [] 0 (set_buffer [] r)). do 3 eexists. eauto.
    + rewrite (rd_buffer _ _ _ Hr), Hup, Hsub, take_replicate. f_equal.
      unfold zlen in *. rewrite length_replicate in Hlt. lia.
    + lia.
Qed.

(** A record cut off anywhere is not returned. *)
Lemma read_torn fuel mode q o E r rcd out o1 :
  reading q E r -> at_record q o E -> (rc = true -> r_log_number r = u32 ln) ->
  fragments rc ln true (padded rc o) rcd out o1 -> cut_off q (padding rc o ++ out) ->
  (length out + 2 <= fuel)%nat ->
  exists r', ReadRecord fuel mode r = Ret None r' /\ (strict_tail mode = false -> quiet r r').
Proof.
  intros Hr Hbt Hlog Hfr Hcut Hfuel.
  destruct (cut_off_app q _ out Hcut) as [Hpad|(Hle & Hsub & Hcut')].
  { destruct fuel as [|[|fuel]]; [lia|lia|]. by eapply torn_padding. }
  destruct (skip_padding mode 0 q o E r Hr Hbt Hle Hsub) as (n & pos & r1 & Hn & Hr1 & Hready & Hq1 & Hskip).
  destruct (torn_fragments _ _ _ _ _ Hfr (fuel - n)%nat mode [] 0 pos E _ r1 Hr1 Hready)
    as (r2 & H2 & Hq2); try done; try lia.
  { destruct Hq1 as (_ & _ & _ & ->). done. }
  exists r2. split; [|intros Hs; etrans; [exact Hq1|auto]].
  unfold ReadRecord. replace fuel with (n + (fuel - n))%nat by lia. by rewrite Hskip.
Qed.

End Reader.
