(* ===== verification/LogSafe.v ===== *)
(** Reading a file whose bytes can be anything: what [ReadPhysicalRecord] and
    [ReadRecord] do on every input, up to the checksum. *)
From S2P Require Import Prelude Bits Coding Crc32c Crc32cSpec IoStatus LogWriter LogReader LogSpec LogReadSpec.
From stdpp Require Import base numbers list strings.
From Stdlib Require Import ZArith Lia.
Local Open Scope Z_scope.

Section AnyFile.
Context {F : Type} `{FileSource F} {HF : FileSourceSpec F}.
Context (C : bytes) (HC : zlen C < 2 ^ 63).

(** A frame at byte [s] of the file with type [t] and payload [p]: the header
    says so, the checksum matches (when checked), and a recyclable header names
    the log [lr]. *)
Record valid_frame (ck : bool) (lr s t : Z) (p : bytes) : Prop := {
  vf_range : 0 <= s /\ s + hsize (recyclable t) + zlen p <= zlen C;
  vf_type : header_type (drop (Z.to_nat s) C) = t;
  vf_length : header_length (drop (Z.to_nat s) C) = zlen p;
  vf_payload : sub C (s + hsize (recyclable t)) (zlen p) = p;
  vf_crc : ck = true -> Unmask (DecodeFixed32 true (drop (Z.to_nat s) C)) =
             Value (sub C (s + 6) (zlen p + hsize (recyclable t) - 6));
  vf_log : recyclable t = true -> DecodeFixed32 true (drop 7 (drop (Z.to_nat s) C)) = lr }.

(** The ways [ReadPhysicalRecord] can return from byte [pos]: the end of the
    log, a bad frame that is skipped, or a valid one. *)
Definition outcome (pos : Z) (r : Reader F) (m : prog (Reader F) (Z * bytes * Z)) (r0 : Reader F) : Prop :=
  exists t p ds r' pos' E', m r0 = Ret (t, p, ds) r' /\ reading C pos' E' r' /\ quiet r r' /\ pos <= pos' /\
    (t = kEof \/ t = kBadHeader \/ t = kOldRecord \/
     pos + kHeaderSize <= pos' /\ (t = kBadRecord \/ t = kBadRecordLen \/ t = kBadRecordChecksum) \/
     exists s, pos <= s /\ s + hsize (recyclable t) + zlen p = pos' /\
       valid_frame (checksum_ r) (r_log_number r) s t p).

Lemma reading_clear pos E r r0 :
  reading C pos E r -> r0 = r \/ r0 = set_recycled r -> reading C (upto C E) E (set_buffer [] r0).
Proof.
  intros Hr Hr0. pose proof (rd_range _ _ _ _ Hr).
  pose proof (reading_set_buffer C pos E r r0 (upto C E) Hr Hr0 ltac:(lia)) as Hs.
  by rewrite Z.sub_diag in Hs.
Qed.

(** The buffer is the start of the rest of the file. *)
Lemma buffer_prefix pos E r : reading C pos E r ->
  buffer_ r = take (Z.to_nat (upto C E - pos)) (drop (Z.to_nat pos) C) /\ zlen (buffer_ r) = upto C E - pos.
Proof. intros Hr. split; [apply (rd_buffer _ _ _ _ Hr)|by apply zlen_buffer]. Qed.

Lemma take_crc (n : nat) f : (4 <= n)%nat -> DecodeFixed32 true (take n f) = DecodeFixed32 true f.
Proof. intros Hn. unfold DecodeFixed32. by rewrite take_take, Nat.min_l by lia. Qed.

Lemma header_length_nonneg b : 0 <= header_length b.
Proof.
  unfold header_length. apply Z.lor_nonneg. split; [unfold at_; apply byte_val_range|].
  apply Z.shiftl_nonneg. unfold at_. apply byte_val_range.
Qed.

Lemma drop_sub (i n k : Z) (l : bytes) :
  0 <= i -> 0 <= k <= n -> drop (Z.to_nat k) (sub l i n) = sub l (i + k) (n - k).
Proof.
  intros. unfold sub. rewrite <- (Nat.add_sub (Z.to_nat n) (Z.to_nat k)) at 1.
  rewrite skipn_firstn_comm, drop_drop. f_equal; [lia|]. f_equal. lia.
Qed.

(** A frame is skipped with the rest of its block. *)
Lemma skipped pos E r r0 t ds :
  reading C pos E r -> r0 = r \/ r0 = set_recycled r -> kHeaderSize <= zlen (buffer_ r) ->
  t = kBadRecord \/ t = kBadRecordLen \/ t = kBadRecordChecksum ->
  outcome pos r (modify (set_buffer []);; mret (t, [], ds)) r0.
Proof.
  intros Hr Hr0 Hh Ht. pose proof (rd_range _ _ _ _ Hr). rewrite (zlen_buffer _ _ _ _ Hr) in Hh.
  exists t, [], ds, (set_buffer [] r0), (upto C E), E. split; [done|]. split; [by eapply reading_clear|].
  split; [by destruct Hr0 as [-> | ->]|]. split; [lia|]. do 3 right; left. split; [lia|done].
Qed.

(** A frame whose checksum has been checked is returned. *)
Lemma accepted pos E r r0 t len ds :
  let h := hsize (recyclable t) in
  reading C pos E r -> r0 = r \/ r0 = set_recycled r -> h + len <= zlen (buffer_ r) ->
  header_type (buffer_ r) = t -> header_length (buffer_ r) = len ->
  (recyclable t = true -> DecodeFixed32 true (drop 7 (buffer_ r)) = r_log_number r) ->
  (checksum_ r = true -> Unmask (DecodeFixed32 true (buffer_ r)) = Value (sub (buffer_ r) 6 (len + h - 6))) ->
  outcome pos r (modify (set_buffer (drop (Z.to_nat (h + len)) (buffer_ r)));;
                 mret (t, sub (buffer_ r) h len, ds)) r0.
Proof.
  intros h Hr Hr0 Hfit Hty Hlen Hlog Hcrc. pose proof (rd_range _ _ _ _ Hr) as Hq.
  pose proof (hsize_range (recyclable t)) as Hh. fold h in Hh.
  destruct (buffer_prefix pos E r Hr) as [Hb Hz].
  assert (0 <= len) as Hl by (rewrite <- Hlen; apply header_length_nonneg).
  assert (zlen (sub (buffer_ r) h len) = len) as Hzp.
  { unfold zlen at 1. rewrite length_sub by (apply in_block_spec; unfold zlen in *; lia). lia. }
  set (n := Z.to_nat (upto C E - pos)) in *. set (rst := drop (Z.to_nat pos) C) in *.
  destruct (take_header n rst) as [Ety El]; [lia|].
  rewrite Hb in Hty, Hlen, Hlog, Hcrc. rewrite Ety in Hty. rewrite El in Hlen. rewrite take_crc in Hcrc by lia.
  change (take n rst) with (sub C pos (upto C E - pos)) in *.
  rewrite Hb. change (take n rst) with (sub C pos (upto C E - pos)). rewrite Hb in Hzp.
  change (take n rst) with (sub C pos (upto C E - pos)) in Hzp.
  rewrite drop_sub, !sub_sub by lia. rewrite sub_sub in Hzp, Hcrc by lia.
  exists t, (sub C (pos + h) len), ds.
  replace (upto C E - pos - (h + len)) with (upto C E - (pos + (h + len))) by lia.
  eexists _, (pos + (h + len)), E. split; [reflexivity|].
  split; [apply (reading_set_buffer C pos E r r0); auto; lia|].
  split; [by destruct Hr0 as [-> | ->]|]. split; [lia|]. do 4 right. exists pos. fold h. rewrite Hzp.
  split; [lia|]. split; [lia|]. split; rewrite ?Hzp; fold h; try done.
  - split; [lia|]. unfold upto in *. lia.
  - intros Hrec. rewrite <- (take_log_number n) by (unfold h, hsize, kRecyclableHeaderSize in Hfit; rewrite Hrec in Hfit; lia).
    by apply Hlog.
Qed.

(** A whole header of this log is in the buffer. *)
Lemma parse_any ds pos E r r0 :
  let t := header_type (buffer_ r) in
  reading C pos E r -> r0 = r \/ r0 = set_recycled r -> hsize (recyclable t) <= zlen (buffer_ r) ->
  (recyclable t = true -> DecodeFixed32 true (drop 7 (buffer_ r)) = r_log_number r) ->
  outcome pos r (parse_body ds (hsize (recyclable t))) r0.
Proof.
  intros t Hr Hr0 Hh Hlog. pose proof (hsize_range (recyclable t)) as Hhs.
  assert (buffer_ r0 = buffer_ r /\ checksum_ r0 = checksum_ r) as [Eb Ec] by (by destruct Hr0 as [-> | ->]).
  assert (kHeaderSize <= zlen (buffer_ r)) as H7 by (unfold kHeaderSize; lia).
  unfold outcome, parse_body. rewrite bind_gets, Eb. fold t. set (len := header_length (buffer_ r)).
  destruct (Z.ltb_spec (zlen (buffer_ r)) (hsize (recyclable t) + len)) as [|Hfit];
    [by eapply skipped; eauto|].
  destruct ((t =? kZeroType) && (len =? 0)); [by eapply skipped; eauto|].
  rewrite bind_gets, Ec. destruct (checksum_ r && negb _) eqn:Hck; [by eapply skipped; eauto|].
  apply (accepted pos E r r0 t len ds); try done. intros Hc. rewrite Hc in Hck. cbn in Hck.
  apply negb_false_iff, Z.eqb_eq in Hck. done.
Qed.

(** ** [ReadPhysicalRecord] *)

(** The parsing, once the header of the frame is in the buffer. *)
Definition has_header (b : bytes) : bool :=
  negb (zlen b <? kHeaderSize) && negb (recyclable (header_type b) && (zlen b <? kRecyclableHeaderSize)).

Lemma phys_here fuel ds pos E r : reading C pos E r -> has_header (buffer_ r) = true ->
  outcome pos r (ReadPhysicalRecord (S fuel) ds) r.
Proof.
  intros Hr Hh. apply andb_prop in Hh as [H7 H11]. unfold outcome. cbn [ReadPhysicalRecord].
  rewrite bind_gets. destruct (zlen (buffer_ r) <? kHeaderSize) eqn:E7; [done|]. apply Z.ltb_ge in E7.
  pose proof (parse_any ds pos E r) as Hparse. cbn zeta in Hparse.
  destruct (recyclable (header_type (buffer_ r))) eqn:Hrec; [|by apply (Hparse r); auto].
  cbn [andb] in H11. rewrite bind_gets.
  set (r0 := if u64 (end_of_buffer_offset_ r - zlen (buffer_ r)) =? 0 then set_recycled r else r).
  erewrite (bind_Ret (when _ _) _ r tt r0) by (unfold r0; by destruct (_ =? 0)).
  assert (r0 = r \/ r0 = set_recycled r) as Hr0 by (unfold r0; destruct (_ =? 0); auto).
  destruct (zlen (buffer_ r) <? kRecyclableHeaderSize) eqn:E11; [done|]. apply Z.ltb_ge in E11.
  rewrite bind_gets. replace (r_log_number r0) with (r_log_number r) by (by destruct Hr0 as [-> | ->]).
  destruct (Z.eqb_spec (DecodeFixed32 true (drop 7 (buffer_ r))) (r_log_number r)) as [Elog|]; cbn [negb].
  - by apply Hparse.
  - exists kOldRecord, [], ds, r0, pos, E. split; [done|].
    split; [by destruct Hr0 as [-> | ->]; destruct Hr|]. split; [by destruct Hr0 as [-> | ->]|]. split; [lia|auto].
Qed.

(** Without a whole header [ReadPhysicalRecord] asks for more. *)
Lemma phys_more fuel ds pos E r : reading C pos E r -> has_header (buffer_ r) = false ->
  exists r0, reading C pos E r0 /\ quiet r r0 /\ ReadPhysicalRecord (S fuel) ds r =
    ('(more, drop_size, e) ← ReadMore ds;
     if (more : bool) then ReadPhysicalRecord fuel drop_size else mret (e, [], drop_size)) r0.
Proof.
  intros Hr Hh. cbn [ReadPhysicalRecord]. rewrite bind_gets. unfold has_header in Hh.
  destruct (zlen (buffer_ r) <? kHeaderSize); [by exists r|].
  destruct (recyclable (header_type (buffer_ r))); [|done]. cbn [negb andb] in Hh.
  apply negb_false_iff in Hh. rewrite Hh. rewrite bind_gets.
  set (r0 := if u64 (end_of_buffer_offset_ r - zlen (buffer_ r)) =? 0 then set_recycled r else r).
  erewrite (bind_Ret (when _ _) _ r tt r0) by (unfold r0; by destruct (_ =? 0)).
  exists r0. unfold r0. destruct (_ =? 0); [|done]. split; [by destruct Hr|done].
Qed.

(** In the last block. *)
Lemma phys_last fuel ds pos E r : reading C pos E r -> zlen C < E ->
  outcome pos r (ReadPhysicalRecord (S fuel) ds) r.
Proof.
  intros Hr HE. destruct (has_header (buffer_ r)) eqn:Hh; [by eapply phys_here|].
  destruct (phys_more fuel ds pos E r Hr Hh) as (r0 & Hr0 & Hq0 & Heq). unfold outcome. rewrite Heq.
  destruct (ReadMore_eof C ds pos E r0 Hr0 HE) as (r1 & ds1 & e & Hmore & Hq1 & Hr1 & He).
  erewrite bind_Ret by exact Hmore. exists e, [], ds1, r1, (upto C E), E. split; [done|]. split; [done|].
  split; [by etrans|]. pose proof (rd_range _ _ _ _ Hr). split; [lia|]. destruct He as [[-> _]|[-> _]]; auto.
Qed.

Lemma phys_any fuel ds pos E r : reading C pos E r -> outcome pos r (ReadPhysicalRecord (S (S fuel)) ds) r.
Proof.
  intros Hr. destruct (decide (zlen C < E)) as [|HE]; [by eapply phys_last|].
  destruct (has_header (buffer_ r)) eqn:Hh; [by eapply phys_here|].
  destruct (phys_more (S fuel) ds pos E r Hr Hh) as (r0 & Hr0 & Hq0 & Heq). unfold outcome. rewrite Heq.
  pose proof (rd_range _ _ _ _ Hr) as Hq. unfold upto in Hq.
  destruct (ReadMore_fetch C HC ds pos E r0 Hr0) as (r1 & Hmore & Hr1 & Hq1); [lia|].
  erewrite bind_Ret by exact Hmore.
  assert (outcome E r1 (ReadPhysicalRecord (S fuel) ds) r1) as (t & p & ds' & r' & pos' & E' & Hp & Hr' & Hq' & Hpos & Hcase).
  { destruct (decide (zlen C < E + kBlockSize)) as [|Hfull]; [by eapply phys_last|].
    eapply phys_here; [done|]. destruct (buffer_prefix _ _ _ Hr1) as [_ Hz].
    unfold has_header. unfold upto, kBlockSize, kHeaderSize, kRecyclableHeaderSize in *.
    destruct (Z.ltb_spec (zlen (buffer_ r1)) (4 + 2 + 1)); [lia|].
    destruct (Z.ltb_spec (zlen (buffer_ r1)) (4 + 2 + 1 + 4)); [lia|]. by rewrite andb_false_r. }
  exists t, p, ds', r', pos', E'. split; [done|]. split; [done|]. split; [by do 2 (etrans; [eassumption|])|].
  split; [lia|]. destruct Hq1 as (_ & _ & Ec1 & El1), Hq0 as (_ & _ & Ec0 & El0).
  rewrite Ec1, El1, Ec0, El0 in Hcase. destruct Hcase as [|[|[|[[? ?]|(s & ? & ? & ?)]]]]; auto.
  - do 3 right; left. split; [lia|done].
  - do 4 right. exists s. split; [lia|done].
Qed.

(** ** [ReadRecord] *)

(** The types that play the same part in both formats. *)
Definition is_full (t : Z) : bool := (t =? kFullType) || (t =? kRecyclableFullType).
Definition is_first (t : Z) : bool := (t =? kFirstType) || (t =? kRecyclableFirstType).
Definition is_middle (t : Z) : bool := (t =? kMiddleType) || (t =? kRecyclableMiddleType).
Definition is_last (t : Z) : bool := (t =? kLastType) || (t =? kRecyclableLastType).

Section Assembled.
Context (ck : bool) (lr : Z).

(** Bytes collected between [lo] and [hi] from a first frame and middle ones. *)
Inductive chain (lo : Z) : bytes -> Z -> Prop :=
| chain_first s t p : lo <= s -> is_first t = true -> valid_frame ck lr s t p ->
    chain lo p (s + hsize (recyclable t) + zlen p)
| chain_middle x e s t p : chain lo x e -> e <= s -> is_middle t = true -> valid_frame ck lr s t p ->
    chain lo (x ++ p) (s + hsize (recyclable t) + zlen p).

(** A record: one full frame, or a chain and a last frame, in file order. *)
Inductive assembled (lo : Z) : bytes -> Z -> Prop :=
| assembled_full s t p : lo <= s -> is_full t = true -> valid_frame ck lr s t p ->
    assembled lo p (s + hsize (recyclable t) + zlen p)
| assembled_last x e s t p : chain lo x e -> e <= s -> is_last t = true -> valid_frame ck lr s t p ->
    assembled lo (x ++ p) (s + hsize (recyclable t) + zlen p).

(** What the loop knows of [scratch] at byte [pos]. *)
Definition collected (lo : Z) (fragmented : bool) (scratch : bytes) (pos : Z) : Prop :=
  lo <= pos /\ (fragmented = true -> exists e, chain lo scratch e /\ e <= pos).

Lemma collected_mono lo fragmented scratch pos pos' :
  collected lo fragmented scratch pos -> pos <= pos' -> collected lo fragmented scratch pos'.
Proof.
  intros [Hlo Hc] Hp. split; [lia|]. intros Hf. destruct (Hc Hf) as (e & ? & ?). exists e. split; [done|lia].
Qed.
End Assembled.

Definition kept (r r' : Reader F) : Prop := checksum_ r' = checksum_ r /\ r_log_number r' = r_log_number r.

#[export] Instance kept_preorder : PreOrder kept.
Proof. split; [done|]. intros x y z (?&?) (?&?). split; congruence. Qed.

(** A step that keeps the position. *)
Definition stays (m : prog (Reader F) unit) : Prop :=
  forall pos E r, reading C pos E r -> exists r', m r = Ret tt r' /\ reading C pos E r' /\ kept r r'.

Lemma stays_report n reason : stays (ReportCorruption n reason).
Proof.
  intros pos E r Hr. unfold ReportCorruption, ReportDrop. rewrite bind_gets.
  destruct (reporter_ r); [|by exists r]. eexists. split; [reflexivity|]. split; [by destruct Hr|done].
Qed.

Lemma stays_when b m : stays m -> stays (when b m).
Proof. intros Hm pos E r Hr. destruct b; [by apply Hm|by exists r]. Qed.

Lemma stays_last o : stays (modify (set_last_record_offset o)).
Proof. intros pos E r Hr. eexists. split; [reflexivity|]. split; [by apply reading_last|done]. Qed.

Create HintDb log.
Hint Resolve stays_report stays_when stays_last : log.

(** How a turn of the loop of [ReadRecord] ends at byte [pos]: with a result,
    or with another turn. *)
Definition turn (go : bool) (fuel : nat) (mode : WALRecoveryMode) (ck : bool) (lr lo pos E : Z) (r1 : Reader F)
    (m : prog (Reader F) (option bytes)) (r : Reader F) : Prop :=
  (exists res r', m r = Ret res r' /\ reading C pos E r' /\ kept r1 r' /\
     forall x, res = Some x -> assembled ck lr lo x pos) \/
  go = true /\
  exists fragmented scratch pr r', m r = read_record fuel mode fragmented scratch pr r' /\
    reading C pos E r' /\ kept r1 r' /\ collected ck lr lo fragmented scratch pos.

Section Turn.
Context (fuel : nat) (mode : WALRecoveryMode) (ck : bool) (lr lo pos E : Z).

Lemma turn_stays go r1 m k r : stays m -> reading C pos E r -> kept r1 r ->
  (forall r', reading C pos E r' -> kept r1 r' -> turn go fuel mode ck lr lo pos E r1 k r') ->
  turn go fuel mode ck lr lo pos E r1 (m;; k) r.
Proof.
  intros Hm Hr Hk Hnext. destruct (Hm pos E r Hr) as (r' & Hm' & Hr' & Hk').
  specialize (Hnext r' Hr' ltac:(by etrans)). unfold turn in *. by erewrite bind_Ret by exact Hm'.
Qed.

Lemma turn_bind {A} go r0 (m : prog (Reader F) A) k r a r1 : m r = Ret a r1 ->
  turn go fuel mode ck lr lo pos E r0 (k a) r1 -> turn go fuel mode ck lr lo pos E r0 (x ← m; k x) r.
Proof. intros Hm Hk. unfold turn in *. by erewrite bind_Ret by exact Hm. Qed.

Lemma turn_none go r1 r : reading C pos E r -> kept r1 r -> turn go fuel mode ck lr lo pos E r1 (mret None) r.
Proof. intros Hr Hk. left. exists None, r. by split. Qed.

Lemma turn_some go r1 r x : reading C pos E r -> kept r1 r -> assembled ck lr lo x pos ->
  turn go fuel mode ck lr lo pos E r1 (mret (Some x)) r.
Proof. intros Hr Hk Hx. left. exists (Some x), r. split; [done|]. split; [done|]. split; [done|]. by intros ? [= <-]. Qed.

Lemma turn_again r1 r fragmented scratch pr : reading C pos E r -> kept r1 r ->
  collected ck lr lo fragmented scratch pos ->
  turn true fuel mode ck lr lo pos E r1 (read_record fuel mode fragmented scratch pr) r.
Proof. intros Hr Hk Hc. right. split; [done|]. by exists fragmented, scratch, pr, r. Qed.
End Turn.
Hint Resolve turn_none turn_some turn_again : log.

(** The frames that make up records, and the values after which the loop does
    not go on. *)
Definition is_data (t : Z) : bool := is_full t || is_first t || is_middle t || is_last t.
Definition goes_on (t : Z) : bool := negb ((t =? kEof) || (t =? kBadHeader) || (t =? kOldRecord)).

Lemma not_collected ck lr lo scratch pos : lo <= pos -> collected ck lr lo false scratch pos.
Proof. by split. Qed.
Hint Resolve not_collected : log.

Lemma data_goes_on t : is_data t = true -> goes_on t = true.
Proof.
  unfold is_data, is_full, is_first, is_middle, is_last. rewrite !orb_true_iff, !Z.eqb_eq.
  intros H1. repeat destruct H1 as [H1|H1]; by rewrite H1.
Qed.

(** What a data frame adds to the collected bytes. *)
Section Extend.
Context (ck : bool) (lr lo pos0 s t : Z) (p : bytes) (fragmented : bool) (scratch : bytes).
Context (Hcol : collected ck lr lo fragmented scratch pos0) (Hs : pos0 <= s) (Hv : valid_frame ck lr s t p).
Abbreviation after := (s + hsize (recyclable t) + zlen p).

Lemma extend_full : is_full t = true -> assembled ck lr lo p after.
Proof. intros Ht. destruct Hcol as [Hlo _]. apply assembled_full; [lia|done|done]. Qed.

Lemma extend_first : is_first t = true -> collected ck lr lo true p after.
Proof.
  intros Ht. destruct Hcol as [Hlo _]. pose proof (hsize_range (recyclable t)).
  split; [unfold zlen; lia|]. intros _. exists after. split; [|lia].
  apply chain_first; [lia|done|done].
Qed.

Lemma extend_middle : is_middle t = true -> fragmented = true -> collected ck lr lo true (scratch ++ p) after.
Proof.
  intros Ht Hf. destruct Hcol as [Hlo Hc]. destruct (Hc Hf) as (e & Hch & He). pose proof (hsize_range (recyclable t)).
  split; [unfold zlen; lia|]. intros _. exists after. split; [|lia].
  eapply chain_middle; [exact Hch|lia|done|done].
Qed.

Lemma extend_last : is_last t = true -> fragmented = true -> assembled ck lr lo (scratch ++ p) after.
Proof.
  intros Ht Hf. destruct Hcol as [Hlo Hc]. destruct (Hc Hf) as (e & Hch & He).
  eapply assembled_last; [exact Hch|lia|done|done].
Qed.
End Extend.
Hint Resolve extend_full extend_first extend_middle extend_last : log.

(** Follow the reports of a branch to its end. *)
Ltac follow := repeat (apply turn_stays; [solve [unfold trailing, abandon; auto with log]|assumption|assumption|intros ? ? ?]);
  eauto with log.

(** The branches for data frames. *)
Lemma data_turn fuel mode fragmented scratch pr t p ds r r1 ck lr lo pos0 s E :
  ReadPhysicalRecord (S fuel) 0 r = Ret (t, p, ds) r1 -> reading C (s + hsize (recyclable t) + zlen p) E r1 ->
  collected ck lr lo fragmented scratch pos0 -> pos0 <= s -> valid_frame ck lr s t p -> is_data t = true ->
  turn true fuel mode ck lr lo (s + hsize (recyclable t) + zlen p) E r1 (read_record (S fuel) mode fragmented scratch pr) r.
Proof.
  intros Hread Hr Hcol Hs Hv Hdata.
  assert (kept r1 r1) as Hk by done. pose proof (hsize_range (recyclable t)).
  assert (lo <= s + hsize (recyclable t) + zlen p) as Hlo by (destruct Hcol; unfold zlen; lia).
  remember (S fuel) as fuel1 eqn:Ef. rewrite Ef. cbn [read_record]. rewrite <- Ef.
  eapply turn_bind; [reflexivity|]. eapply turn_bind; [exact Hread|]. cbv beta iota.
  fold (is_full t) (is_first t) (is_middle t) (is_last t). unfold is_data in Hdata.
  destruct (is_full t) eqn:E1; [follow|]. destruct (is_first t) eqn:E2; [follow|].
  destruct (is_middle t) eqn:E3; [destruct fragmented; cbn [negb]; follow|].
  destruct (is_last t) eqn:E4; [destruct fragmented; cbn [negb]; follow|done].
Qed.

(** The other branches. *)
Lemma other_turn fuel mode fragmented scratch pr t p ds r r1 ck lr lo pos E :
  ReadPhysicalRecord (S fuel) 0 r = Ret (t, p, ds) r1 -> reading C pos E r1 -> mode <> kSkipAnyCorruptedRecords ->
  lo <= pos -> is_data t = false ->
  turn (goes_on t) fuel mode ck lr lo pos E r1 (read_record (S fuel) mode fragmented scratch pr) r.
Proof.
  intros Hread Hr Hmode Hlo Hdata. assert (kept r1 r1) as Hk by done.
  remember (S fuel) as fuel1 eqn:Ef. rewrite Ef. cbn [read_record]. rewrite <- Ef.
  eapply turn_bind; [reflexivity|]. eapply turn_bind; [exact Hread|]. cbv beta iota.
  fold (is_full t) (is_first t) (is_middle t) (is_last t). unfold is_data in Hdata.
  apply orb_false_iff in Hdata as [[[-> ->]%orb_false_iff ->]%orb_false_iff ->]. unfold goes_on.
  destruct (t =? kBadHeader) eqn:E1; [cbn [orb]; follow|]. destruct (t =? kEof) eqn:E2; [cbn [orb andb when]|].
  { eapply turn_bind; [reflexivity|]. follow. }
  destruct (t =? kOldRecord) eqn:E3; cbn [orb andb negb].
  { destruct mode; cbn [negb]; try done; follow. }
  destruct (t =? kBadRecord); [follow|].
  destruct ((t =? kBadRecordLen) || (t =? kBadRecordChecksum)); [|follow].
  eapply turn_bind; [reflexivity|]. cbv beta. destruct (_ && eof_ r1); [follow|].
  eapply turn_bind; [reflexivity|]. cbv beta. destruct (recycled_ r1 && _); follow.
Qed.

(** On any file, in every mode that stops at an old record, [ReadRecord]
    returns; what it returns is assembled from valid frames. *)
Lemma read_record_any mode lo : mode <> kSkipAnyCorruptedRecords ->
  forall fuel fragmented scratch pr pos E r, reading C pos E r ->
  collected (checksum_ r) (r_log_number r) lo fragmented scratch pos -> zlen C - pos + 2 <= Z.of_nat fuel ->
  exists res r' pos' E', read_record fuel mode fragmented scratch pr r = Ret res r' /\ reading C pos' E' r' /\
    kept r r' /\ pos <= pos' /\ (forall x, res = Some x -> assembled (checksum_ r) (r_log_number r) lo x pos').
Proof.
  intros Hmode. induction fuel as [|fuel IH]; intros fragmented scratch pr pos E r Hr Hcol Hfuel;
    pose proof (rd_range _ _ _ _ Hr) as Hq; unfold upto in Hq; [lia|].
  destruct fuel as [|fuel]; [lia|].
  destruct (phys_any fuel 0 pos E r Hr) as (t & p & ds & r1 & pos1 & E1 & Hread & Hr1 & Hq1 & Hpos & Hcase).
  assert (kept r r1) as Hk1 by (by destruct Hq1 as (_ & _ & ? & ?)).
  assert (turn (goes_on t) (S fuel) mode (checksum_ r) (r_log_number r) lo pos1 E1 r1
    (read_record (S (S fuel)) mode fragmented scratch pr) r) as Hturn.
  { destruct (is_data t) eqn:Hd.
    - rewrite (data_goes_on t Hd).
      destruct Hcase as [-> | [-> | [-> | [[_ [-> | [-> | ->]]]|(s & Hs & <- & Hv)]]]]; try done.
      by eapply data_turn.
    - eapply other_turn; try done. destruct Hcol. lia. }
  destruct Hturn as [(res & r' & Hm & Hr' & Hk' & Hx)|(Hgo & f' & s' & pr' & r' & Hm & Hr' & Hk' & Hcol')].
  { exists res, r', pos1, E1. split; [done|]. split; [done|]. split; [by etrans|]. done. }
  assert (pos + 7 <= pos1) as Hadv.
  { destruct Hcase as [-> | [-> | [-> | [[Hp _]|(s & Hs & <- & Hv)]]]]; try done.
    pose proof (hsize_range (recyclable t)). unfold zlen. lia. }
  assert (kept r r') as [Ec El] by (by etrans).
  destruct (IH f' s' pr' pos1 E1 r' Hr') as (res & r2 & pos2 & E2 & H2 & Hr2 & Hk2 & Hp2 & Hx);
    [by rewrite Ec, El|lia|].
  exists res, r2, pos2, E2. rewrite Hm, H2. rewrite Ec, El in Hx. split; [done|]. split; [done|].
  split; [by etrans; [|exact Hk2]|]. split; [lia|done].
Qed.
End AnyFile.
