(* ===== verification/LogThms.v ===== *)
(** What the write-ahead log promises: records come back in order, a log cut
    off by a crash loses only its end, nothing with a bad checksum is returned,
    and how records of an earlier use of a recycled file are treated. *)
From S2P Require Import Prelude Bits Coding Crc32c Crc32cSpec IoStatus LogWriter LogReader LogSpec LogReadSpec LogSafe.
From stdpp Require Import base numbers list strings.
From Stdlib Require Import ZArith Lia.
Local Open Scope Z_scope.

(** ** Reading a whole log *)

(** The loop of a client of [ReadRecord]; each of at most [n] calls has
    [fuel]. *)
Fixpoint read_log {F} `{FileSource F} (n fuel : nat) (mode : WALRecoveryMode) : prog (Reader F) (list bytes) :=
  match n with
  | O => hang
  | S n' =>
    r ← ReadRecord fuel mode;
    match r with
    | None => mret []
    | Some x => xs ← read_log n' fuel mode; mret (x :: xs)
    end
  end.

Section Layout.
Context {F : Type} `{FileSource F} {HF : FileSourceSpec F}.
Context (C : bytes) (HC : zlen C < 2 ^ 63) (rc : bool) (ln : Z).

(** The records of a whole layout, then what follows. *)
Lemma read_records fuel mode n o rs out o' :
  records rc ln o rs out o' -> (length out + 2 <= fuel)%nat ->
  forall q E r, reading C q E r -> at_record q o E -> (rc = true -> r_log_number r = u32 ln) ->
  q + zlen out <= zlen C -> sub C q (zlen out) = out ->
  exists E' r', reading C (q + zlen out) E' r' /\ at_record (q + zlen out) o' E' /\ quiet r r' /\
    forall xs r'', read_log n fuel mode r' = Ret xs r'' -> read_log (length rs + n) fuel mode r = Ret (rs ++ xs) r''.
Proof.
  induction 1 as [o|o x rs out o1 outs o2 Hfr Hrs IH]; intros Hfuel q E r Hr Hbt Hlog Hle Hsub.
  { exists E, r. rewrite Z.add_0_r. done. }
  rewrite !length_app in Hfuel.
  rewrite app_assoc in Hle, Hsub. set (a := padding rc o ++ out) in *.
  assert (zlen (a ++ outs) = zlen a + zlen outs) as Ha by (unfold zlen; rewrite length_app; lia).
  pose proof (rd_range _ _ _ _ Hr) as Hq. rewrite Ha in *.
  rewrite sub_app in Hsub by (unfold zlen in *; lia). apply app_inj_1 in Hsub as [Hs1 Hs2].
  2: { rewrite length_sub; [unfold zlen; lia|]. apply in_block_spec. unfold zlen in *. lia. }
  destruct (read_next C HC rc ln fuel mode q o E r x out o1 Hr Hbt Hlog Hfr) as (E1 & r1 & H1 & Hr1 & Hbt1 & Hq1);
    fold a; try done; [unfold zlen in *; lia|lia|]. fold a in Hr1, Hbt1.
  destruct (IH ltac:(lia) _ _ _ Hr1 Hbt1) as (E2 & r2 & Hr2 & Hbt2 & Hq2 & H2);
    [by destruct Hq1 as (_ & _ & _ & ->)|lia|done|].
  rewrite app_assoc. fold a. rewrite Ha, Z.add_assoc. exists E2, r2. split; [done|]. split; [done|]. split; [by etrans|].
  intros xs r'' Hxs. cbn [length Nat.add read_log]. erewrite bind_Ret by exact H1. cbv beta iota.
  erewrite bind_Ret by exact (H2 _ _ Hxs). done.
Qed.

Lemma read_log_end n fuel mode o E r :
  reading C (zlen C) E r -> at_record (zlen C) o E -> (2 <= fuel)%nat ->
  exists r', read_log (S n) fuel mode r = Ret [] r' /\ quiet r r'.
Proof.
  intros Hr Hbt Hf. destruct fuel as [|[|fuel]]; [lia|lia|].
  destruct (read_end C HC fuel mode o E r Hr Hbt) as (r' & H1 & Hq). exists r'. split; [|done].
  cbn [read_log]. by erewrite bind_Ret by exact H1.
Qed.

(** The file ends somewhere in the layout: some of the records are read. *)
Lemma read_cut fuel mode o rs out o' :
  records rc ln o rs out o' -> (length out + 2 <= fuel)%nat ->
  forall n q E r, reading C q E r -> at_record q o E -> (rc = true -> r_log_number r = u32 ln) ->
  zlen C <= q + zlen out -> sub C q (zlen C - q) = take (Z.to_nat (zlen C - q)) out -> (length rs < n)%nat ->
  exists m r', read_log n fuel mode r = Ret (take m rs) r' /\ (strict_tail mode = false -> quiet r r').
Proof.
  induction 1 as [o|o x rs out o1 outs o2 Hfr Hrs IH]; intros Hfuel n q E r Hr Hbt Hlog Hle Hsub Hn;
    pose proof (rd_range _ _ _ _ Hr) as Hq; unfold upto in Hq; (destruct n as [|n]; [lia|]).
  { assert (q = zlen C) as -> by (unfold zlen in *; cbn in Hle; lia).
    destruct (read_log_end n fuel mode o E r Hr Hbt ltac:(lia)) as (r' & ? & ?). by exists O, r'. }
  rewrite !length_app in Hfuel. rewrite app_assoc in Hle, Hsub. set (a := padding rc o ++ out) in *.
  assert (zlen (a ++ outs) = zlen a + zlen outs) as Ha by (unfold zlen; rewrite length_app; lia). rewrite Ha in Hle.
  destruct (decide (zlen C < q + zlen a)) as [Hcut|Hfull].
  - rewrite take_app_le in Hsub by (unfold zlen in *; lia).
    destruct (read_torn C HC rc ln fuel mode q o E r x out o1) as (r' & H1 & Hq1); try done; [|lia|].
    { fold a. split; [lia|done]. }
    exists O, r'. split; [|done]. cbn [read_log]. by erewrite bind_Ret by exact H1.
  - replace (zlen C - q) with (zlen a + (zlen C - (q + zlen a))) in Hsub by lia.
    rewrite sub_app, Z2Nat.inj_add in Hsub by (unfold zlen in *; lia).
    rewrite take_app_add' in Hsub by (unfold zlen; lia).
    apply app_inj_1 in Hsub as [Hs1 Hs2].
    2: { rewrite length_sub; [unfold zlen; lia|]. apply in_block_spec. unfold zlen in *. lia. }
    destruct (read_next C HC rc ln fuel mode q o E r x out o1 Hr Hbt Hlog Hfr) as (E1 & r1 & H1 & Hr1 & Hbt1 & Hq1);
      fold a; try done; [lia|lia|]. fold a in Hr1, Hbt1. cbn [length] in Hn.
    destruct (IH ltac:(lia) n _ _ _ Hr1 Hbt1) as (m & r2 & H2 & Hq2);
      [by destruct Hq1 as (_ & _ & _ & ->)|lia|done|lia|].
    exists (S m), r2. split; [|intros Hs; etrans; [exact Hq1|auto]].
    cbn [read_log take]. erewrite bind_Ret by exact H1. cbv beta iota. by erewrite bind_Ret by exact H2.
Qed.

Lemma new_reading f rep ck lr :
  source_ok f -> rest f = C -> reading C 0 0 (new_Reader f rep ck lr) /\ at_record 0 0 0.
Proof.
  intros Hf Hc. split; [|by left]. assert (upto C 0 = 0) as Hu by (unfold upto, zlen; lia).
  split; cbn; rewrite ?Hu; try done. by destruct (Z.ltb_spec (zlen C) 0); [unfold zlen in *; lia|].
Qed.
End Layout.

(** What follows the first [a] of a file cut off in [b]. *)
Lemma sub_cut (a b C : bytes) (m : nat) : C = a ++ take m b ->
  sub C (zlen a) (zlen C - zlen a) = take (Z.to_nat (zlen C - zlen a)) b /\ sub C 0 (zlen a) = a.
Proof.
  intros ->. unfold sub, zlen. change (Z.to_nat 0) with O. rewrite drop_0, !Nat2Z.id, drop_app_length, take_app_length.
  rewrite length_app, Nat2Z.inj_add, Z.add_simpl_l, Nat2Z.id, length_take. split; [|done].
  rewrite (take_ge (take m b)) by (rewrite length_take; lia).
  destruct (decide (m <= length b)%nat); [by rewrite Nat.min_l by lia|]. by rewrite !take_ge by lia.
Qed.

(** ** A file in memory *)

#[local] Instance memory_dest : FileDest bytes := {
  dest_Append data crc := fun d => Ret OK (d ++ data); dest_Flush := fun d => Ret OK d;
  dest_Close := fun d => Ret OK d }.
#[local] Instance memory_dest_spec : FileDestSpec bytes.
Proof.
  refine {| dest_ok := fun _ => True; contents := fun d => d; intact := fun _ => True |}.
  - intros d data crc _ _. by exists OK, (d ++ data).
  - intros d _. by exists OK, d.
Defined.
#[local] Instance memory_source : FileSource bytes := {
  source_Read n := fun f => Ret (OK, take (Z.to_nat n) f) (drop (Z.to_nat n) f) }.
#[local] Instance memory_source_spec : FileSourceSpec bytes.
Proof.
  refine {| source_ok := fun _ => True; rest := fun f => f |}.
  intros f n _ _. by exists (drop (Z.to_nat n) f).
Defined.

(** ** The round trip *)
Section Theorems.
Context {W : Type} `{FileDest W} {HW : FileDestSpec W}.
Context {F : Type} `{FileSource F} {HF : FileSourceSpec F}.

(** What a successful run of [AddRecord] has appended. *)
Lemma added recycle ln d o w rs w' d' :
  writer_ok recycle ln d o w -> 0 <= ln -> Forall (fun r : bytes => zlen r < 2 ^ 63) rs ->
  add_records rs w = Ret true w' -> dest_ w' = Some d' ->
  exists out o', records recycle ln o rs out o' /\ contents d' = contents d ++ out /\ writer_ok recycle ln d' o' w'.
Proof.
  intros Hw Hln Hrs Hadd Hd'. destruct (add_records_ok recycle ln d o w rs Hw Hln Hrs) as (b & d2 & o2 & w2 & Ha & Hw2 & Hrec).
  rewrite Hadd in Ha. injection Ha as <- <-. pose proof (wr_dest _ _ _ _ _ Hw2) as E. rewrite Hd' in E.
  injection E as <-. destruct (Hrec eq_refl) as (out & Hout & Ec & _). eauto.
Qed.

(** The reader over a file of records gives them back. *)
Lemma laid_out_read recycle ln rs out o f rep ck mode n fuel :
  records recycle ln 0 rs out o -> 0 <= ln -> (recycle = true -> ln < 2 ^ 32) -> source_ok f -> rest f = out -> zlen out < 2 ^ 63 ->
  (length rs < n)%nat -> (length out + 2 <= fuel)%nat ->
  exists r', read_log n fuel mode (new_Reader f rep ck ln) = Ret rs r' /\ reports r' = [].
Proof.
  intros Hout Hln Hwide Hf Hfile Hlen Hn Hfuel. destruct (new_reading out f rep ck ln Hf Hfile) as [Hr Hat].
  destruct (read_records out Hlen recycle ln fuel mode (n - length rs) 0 rs out o Hout Hfuel 0 0 _ Hr Hat)
    as (E' & r1 & Hr1 & Hat1 & (Hq1 & _) & H1).
  { intros ->. cbn. rewrite u32_small; [done|]. specialize (Hwide eq_refl). lia. }
  { lia. }
  { unfold sub, zlen. by rewrite Nat2Z.id, drop_0, take_ge. }
  destruct (n - length rs)%nat as [|m] eqn:Em; [lia|].
  destruct (read_log_end out Hlen m fuel mode o E' r1 Hr1 Hat1) as (r2 & H2 & (Hq2 & _)); [lia|].
  exists r2. specialize (H1 _ _ H2). rewrite app_nil_r in H1.
  replace n with (length rs + S m)%nat by lia. split; [done|]. by rewrite Hq2, Hq1.
Qed.

(** C9. Records written to a fresh log through any file that appends are read
    back from its contents in order and unchanged, empty ones and ones that
    span many blocks included, in both header formats and every recovery mode;
    after the last one the reader says that the log has ended, and it reports
    no corruption.  The fuel allows for every byte of the file. *)
Theorem log_round_trip d ln recycle manual rs w' d' f rep ck mode n fuel :
  dest_ok d -> contents d = [] -> 0 <= ln -> (recycle = true -> ln < 2 ^ 32) ->
  Forall (fun r : bytes => zlen r < 2 ^ 63) rs ->
  add_records rs (new_Writer d ln recycle manual) = Ret true w' -> dest_ w' = Some d' ->
  source_ok f -> rest f = contents d' -> zlen (rest f) < 2 ^ 63 ->
  (length rs < n)%nat -> (length (rest f) + 2 <= fuel)%nat ->
  exists r', read_log n fuel mode (new_Reader f rep ck ln) = Ret rs r' /\ reports r' = [].
Proof.
  intros Hd Hc Hln Hwide Hrs Hadd Hd' Hf Hfile Hlen Hn Hfuel.
  destruct (added _ _ _ _ _ _ _ _ (new_writer_ok recycle ln manual d Hd) Hln Hrs Hadd Hd') as (out & o & Hout & Ec & _).
  rewrite Ec, Hc in Hfile. cbn in Hfile. rewrite Hfile in *. by eapply laid_out_read.
Qed.

(** C10. A log cut off anywhere, as by a crash: with [rs1] written and then
    [rs2], a file that has all the bytes of the first records and any number of
    the bytes that follow gives [rs1] and then the first few of [rs2], never a
    record that was not written, whatever was cut in two: padding, header,
    payload or a fragmented record.  The modes that tolerate an incomplete end
    report nothing. *)
Theorem torn_log_is_prefix d ln recycle manual rs1 rs2 w1 d1 w2 d2 k f rep ck mode n fuel :
  dest_ok d -> contents d = [] -> 0 <= ln -> (recycle = true -> ln < 2 ^ 32) ->
  Forall (fun r : bytes => zlen r < 2 ^ 63) (rs1 ++ rs2) ->
  add_records rs1 (new_Writer d ln recycle manual) = Ret true w1 -> dest_ w1 = Some d1 ->
  add_records rs2 w1 = Ret true w2 -> dest_ w2 = Some d2 ->
  source_ok f -> rest f = take k (contents d2) -> (length (contents d1) <= k)%nat -> zlen (contents d2) < 2 ^ 63 ->
  (length (rs1 ++ rs2) < n)%nat -> (length (contents d2) + 2 <= fuel)%nat ->
  exists m r', read_log n fuel mode (new_Reader f rep ck ln) = Ret (rs1 ++ take m rs2) r' /\
    (strict_tail mode = false -> reports r' = []).
Proof.
  intros Hd Hc Hln Hwide Hrs Hadd1 Hd1 Hadd2 Hd2 Hf Hfile Hk Hlen Hn Hfuel. apply Forall_app in Hrs as [Hrs1 Hrs2].
  destruct (added _ _ _ _ _ _ _ _ (new_writer_ok recycle ln manual d Hd) Hln Hrs1 Hadd1 Hd1) as (out1 & o & Hout1 & Ec1 & Hw1).
  destruct (added _ _ _ _ _ _ _ _ Hw1 Hln Hrs2 Hadd2 Hd2) as (out2 & o2 & Hout2 & Ec2 & _).
  rewrite Hc in Ec1. cbn in Ec1. rewrite Ec1 in *. rewrite Ec2 in *.
  assert (zlen (take k (out1 ++ out2)) < 2 ^ 63) as HC by (unfold zlen in *; rewrite length_take; lia).
  set (C := take k (out1 ++ out2)) in *.
  assert (C = out1 ++ take (k - length out1) out2) as HCs by (unfold C; by rewrite take_app, take_ge by lia).
  assert (zlen C = zlen out1 + zlen (take (k - length out1) out2)) as Hzc
    by (rewrite HCs; unfold zlen; rewrite length_app; lia).
  destruct (sub_cut _ _ _ _ HCs) as [Hcut Hall]. destruct (new_reading C f rep ck ln Hf Hfile) as [Hr Hat].
  assert (recycle = true -> ln = u32 ln) as Hnum by (intros Hre; rewrite u32_small; [done|]; specialize (Hwide Hre); lia).
  rewrite !length_app in *.
  destruct (read_records C HC recycle ln fuel mode (n - length rs1) 0 rs1 out1 o Hout1 ltac:(lia) 0 0 _ Hr Hat)
    as (E' & r1 & Hr1 & Hat1 & (Hq1 & _ & _ & Hl1) & H1).
  { done. }
  { unfold zlen in *. lia. }
  { done. }
  destruct (read_cut C HC recycle ln fuel mode o rs2 out2 o2 Hout2 ltac:(lia) (n - length rs1) _ _ _ Hr1 Hat1)
    as (m & r2 & H2 & Hq2).
  { by rewrite Hl1. }
  { unfold zlen in *. rewrite length_take in Hzc. lia. }
  { by rewrite Z.add_0_l. }
  { lia. }
  exists m, r2. specialize (H1 _ _ H2). replace (length rs1 + (n - length rs1))%nat with n in H1 by lia.
  split; [done|]. intros Hs. destruct (Hq2 Hs) as [-> _]. done.
Qed.
(** C11. Whatever the bytes of the file are, in every mode but the one that
    skips corrupted records, [ReadRecord] returns, with a fuel of the bytes that
    are left and two more.  A record it returns is the payload of a full frame,
    or of a first frame, middle frames and a last frame, that lie in the file
    one after the other from where the reader was; each of them has the length
    its header says, the checksum its header says, and in a recyclable log the
    number of this log.  So a damaged file never yields bytes whose checksum
    does not match. *)
Theorem any_file_read_safely (C : bytes) fuel mode pos E (r : Reader F) :
  zlen C < 2 ^ 63 -> reading C pos E r -> mode <> kSkipAnyCorruptedRecords ->
  zlen C - pos + 2 <= Z.of_nat fuel ->
  exists res r' pos' E', ReadRecord fuel mode r = Ret res r' /\ reading C pos' E' r' /\ pos <= pos' /\
    checksum_ r' = checksum_ r /\ r_log_number r' = r_log_number r /\
    (forall x, res = Some x -> assembled C (checksum_ r) (r_log_number r) pos x pos').
Proof.
  intros HC Hr Hmode Hfuel. unfold ReadRecord.
  destruct (read_record_any C HC mode pos Hmode fuel false [] 0 pos E r Hr) as (res & r' & pos' & E' & H1 & H2 & [H3 H4] & H5 & H6);
    [by split|done|]. eauto 10.
Qed.

(** A record of another log at the start of the buffer is not consumed. *)
Lemma old_record_stays fuel ds (r : Reader F) :
  has_header (buffer_ r) = true -> recyclable (header_type (buffer_ r)) = true ->
  DecodeFixed32 true (drop 7 (buffer_ r)) <> r_log_number r ->
  exists r', ReadPhysicalRecord (S fuel) ds r = Ret (kOldRecord, [], ds) r' /\
    buffer_ r' = buffer_ r /\ r_log_number r' = r_log_number r /\ reports r' = reports r.
Proof.
  intros Hh Hrec Hne. unfold has_header in Hh. rewrite Hrec in Hh. apply andb_prop in Hh as [H7 H11].
  cbn [ReadPhysicalRecord]. rewrite bind_gets, Hrec. apply negb_true_iff in H7, H11. cbn [andb] in H11. rewrite H7.
  rewrite bind_gets. set (r0 := if u64 (end_of_buffer_offset_ r - zlen (buffer_ r)) =? 0 then set_recycled r else r).
  erewrite (bind_Ret (when _ _) _ r tt r0) by (unfold r0; by destruct (_ =? 0)).
  assert (r_log_number r0 = r_log_number r /\ buffer_ r0 = buffer_ r /\ reports r0 = reports r) as (El & Eb & Er)
    by (unfold r0; by destruct (_ =? 0)).
  rewrite H11, bind_gets, El. destruct (Z.eqb_spec (DecodeFixed32 true (drop 7 (buffer_ r))) (r_log_number r)); [done|].
  by exists r0.
Qed.

(** C35. A record of an earlier use of a recycled file ends the log, without a
    report, in three of the modes.  In [kSkipAnyCorruptedRecords] the record is
    neither consumed nor the end: the loop of [ReadRecord] finds it again in
    every turn, and does not return with any fuel. *)
Theorem old_record_ends_or_loops (r : Reader F) :
  has_header (buffer_ r) = true -> recyclable (header_type (buffer_ r)) = true ->
  DecodeFixed32 true (drop 7 (buffer_ r)) <> r_log_number r ->
  (forall fuel mode, mode <> kSkipAnyCorruptedRecords ->
     exists r', ReadRecord (S fuel) mode r = Ret None r' /\ reports r' = reports r) /\
  (forall fuel, ReadRecord fuel kSkipAnyCorruptedRecords r = Hang).
Proof.
  intros Hh Hrec Hne. unfold ReadRecord. split.
  - intros fuel mode Hmode. destruct (old_record_stays fuel 0 r Hh Hrec Hne) as (r' & Hp & _ & _ & Er).
    exists r'. split; [|done]. remember (S fuel) as fuel1 eqn:Ef. rewrite Ef. cbn [read_record]. rewrite <- Ef.
    rewrite bind_gets. erewrite bind_Ret by exact Hp. destruct mode; done.
  - generalize 0 at 1 as pr. intros pr fuel. revert r pr Hh Hrec Hne.
    induction fuel as [|fuel IH]; intros r pr Hh Hrec Hne; [done|].
    destruct (old_record_stays fuel 0 r Hh Hrec Hne) as (r' & Hp & Eb & El & _).
    remember (S fuel) as fuel1 eqn:Ef. rewrite Ef. cbn [read_record]. rewrite <- Ef.
    rewrite bind_gets. erewrite bind_Ret by exact Hp.
    change (read_record fuel kSkipAnyCorruptedRecords false [] pr r' = Hang).
    apply IH; by rewrite ?Eb, ?El.
Qed.

(** The header at the start of a layout. *)
Lemma fragments_head rc ln start o p out o' : fragments rc ln start o p out o' ->
  exists t p1 tl, out = frame rc ln t p1 ++ tl /\ 1 <= t <= 8 /\ recyclable t = rc /\
    0 <= o /\ o + hsize rc + zlen p1 <= kBlockSize.
Proof.
  intros Hfr. inversion Hfr; subst.
  - destruct (fragment_type_ok rc start true). do 2 eexists. exists []. rewrite app_nil_r. split; [reflexivity|done].
  - destruct (fragment_type_ok rc start false). do 3 eexists. split; [reflexivity|]. split; [done|]. split; [done|]. lia.
Qed.

Lemma frame_has_header ln t p tl : 1 <= t <= 8 -> recyclable t = true ->
  let b := frame true ln t p ++ tl in
  has_header b = true /\ recyclable (header_type b) = true /\ DecodeFixed32 true (drop 7 b) = u32 ln.
Proof.
  intros Ht Hrec b. assert (zlen b = hsize true + zlen p + zlen tl) as Hz
    by (rewrite <- (length_frame true ln t p); unfold b, zlen; rewrite length_app; lia).
  unfold hsize, kRecyclableHeaderSize in Hz.
  split; [|split; [unfold b; by rewrite frame_type by lia|unfold b; by apply frame_log]].
  unfold has_header, kHeaderSize, kRecyclableHeaderSize. unfold zlen in *.
  destruct (Z.ltb_spec (Z.of_nat (length b)) (4 + 2 + 1)); [lia|].
  destruct (Z.ltb_spec (Z.of_nat (length b)) (4 + 2 + 1 + 4)); [lia|]. by rewrite andb_false_r.
Qed.

(** The header of a recyclable record holds the low half of the log's
    number, and the reader compares it with the whole number: a log numbered
    [2 ^ 32] or above that is written and read back under its own number has no
    records. *)
Theorem wide_log_number_unread d ln manual x rs w' d' f rep ck mode fuel :
  dest_ok d -> contents d = [] -> 2 ^ 32 <= ln -> Forall (fun r : bytes => zlen r < 2 ^ 63) (x :: rs) ->
  add_records (x :: rs) (new_Writer d ln true manual) = Ret true w' -> dest_ w' = Some d' ->
  source_ok f -> rest f = contents d' -> zlen (rest f) < 2 ^ 63 -> mode <> kSkipAnyCorruptedRecords ->
  exists r', ReadRecord (S (S fuel)) mode (new_Reader f rep ck ln) = Ret None r' /\ reports r' = [].
Proof.
  intros Hd Hc Hln Hrs Hadd Hd' Hf Hfile Hlen Hmode.
  destruct (added _ _ _ _ _ _ _ _ (new_writer_ok true ln manual d Hd) ltac:(lia) Hrs Hadd Hd') as (out & o & Hout & Ec & _).
  rewrite Hc in Ec. cbn in Ec. revert Ec. inversion Hout as [|? ? ? out1 ? outs ? Hfr Hrest]; subst. intros Ec.
  destruct (fragments_head _ _ _ _ _ _ _ Hfr) as (t & p1 & tl & -> & Ht & Hrec & Ho & Hfit).
  change (padding true 0) with (@nil Byte.byte) in *. cbn [app] in *. rewrite <- app_assoc in *.
  rewrite <- Hfile in *. set (C := rest f) in *.
  destruct (new_reading C f rep ck ln Hf eq_refl) as [Hr _].
  destruct (ReadMore_fetch C Hlen 0 0 0 _ Hr) as (r1 & Hmore & Hr1 & (Hq1 & _ & _ & El)); [unfold zlen; lia|].
  pose proof (length_frame true ln t p1) as Hl.
  assert (buffer_ r1 = frame true ln t p1 ++ sub C (0 + zlen (frame true ln t p1))
    (upto C kBlockSize - (0 + zlen (frame true ln t p1)))) as Hb.
  { apply (buffer_split C 0 kBlockSize); [done| |].
    - unfold upto. rewrite Hl. cbn in Ho. change (padded true 0) with 0 in *.
      assert (zlen C = zlen (frame true ln t p1) + zlen (tl ++ outs)) by (rewrite Ec; unfold zlen; rewrite length_app; lia).
      unfold zlen in *. lia.
    - rewrite Ec. unfold sub, zlen. by rewrite Nat2Z.id, drop_0, take_app_length. }
  destruct (frame_has_header ln t p1 (sub C (0 + zlen (frame true ln t p1))
    (upto C kBlockSize - (0 + zlen (frame true ln t p1)))) Ht Hrec) as (Hh & Hrb & Hlog).
  rewrite <- Hb in Hh, Hrb, Hlog.
  destruct (old_record_stays fuel 0 r1 Hh Hrb) as (r2 & Hp & _ & _ & Er).
  { rewrite Hlog, El. cbn. pose proof (u32_range ln). lia. }
  exists r2. rewrite Er. split; [|done]. unfold ReadRecord.
  remember (S fuel) as fuel1 eqn:Ef. cbn [read_record]. rewrite bind_gets.
  assert (ReadPhysicalRecord (S fuel1) 0 (new_Reader f rep ck ln) = Ret (kOldRecord, [], 0) r2) as Hphys.
  { cbn [ReadPhysicalRecord]. rewrite bind_gets. cbn [buffer_ new_Reader].
    change (zlen [] <? kHeaderSize) with true. cbv iota. erewrite bind_Ret by exact Hmore. exact Hp. }
  erewrite bind_Ret by exact Hphys. destruct mode; done.
Qed.
End Theorems.

(** ** Witnesses *)

Definition hello : bytes := byte_of <$> [104; 101; 108; 108; 111].

Lemma log_round_trip_witness : exists w' d' r',
  add_records [hello; []; hello ++ hello] (new_Writer [] 7 true false) = Ret true w' /\ dest_ w' = Some d' /\
  read_log 4 60 kAbsoluteConsistency (new_Reader d' true true 7) = Ret [hello; []; hello ++ hello] r' /\ reports r' = [].
Proof.
  destruct (add_records [hello; []; hello ++ hello] (new_Writer [] 7 true false)) as [b w'| | |] eqn:E;
    [|by vm_compute in E..].
  assert (b = true /\ dest_ w' = Some (default [] (dest_ w')) /\ length (default [] (dest_ w')) = 48%nat) as (-> & Ed & El)
    by (vm_compute in E; by injection E as <- <-).
  destruct (log_round_trip (HW := memory_dest_spec) (HF := memory_source_spec) [] 7 true false [hello; []; hello ++ hello] w' (default [] (dest_ w'))
    (default [] (dest_ w')) true true kAbsoluteConsistency 4 60 I eq_refl ltac:(lia) ltac:(lia)
    ltac:(by repeat constructor) E Ed I eq_refl) as (r' & H1 & H2).
  - unfold zlen. cbn [rest memory_source_spec]. rewrite El. lia.
  - cbn [length]. lia.
  - cbn [rest memory_source_spec]. rewrite El. lia.
  - exists w', (default [] (dest_ w')), r'. exact (conj eq_refl (conj Ed (conj H1 H2))).
Defined.

Lemma torn_log_is_prefix_witness : exists w1 d1 w2 d2 m r',
  add_records [hello] (new_Writer [] 7 false false) = Ret true w1 /\ dest_ w1 = Some d1 /\
  add_records [hello; []] w1 = Ret true w2 /\ dest_ w2 = Some d2 /\
  read_log 4 60 kTolerateCorruptedTailRecords (new_Reader (take 14 d2) true true 7) = Ret ([hello] ++ take m [hello; []]) r' /\
  reports r' = [].
Proof.
  destruct (add_records [hello] (new_Writer [] 7 false false)) as [b w1| | |] eqn:E1; [|by vm_compute in E1..].
  assert (b = true /\ dest_ w1 = Some (default [] (dest_ w1)) /\ length (default [] (dest_ w1)) = 12%nat) as (-> & Ed1 & El1)
    by (vm_compute in E1; by injection E1 as <- <-).
  destruct (add_records [hello; []] w1) as [b w2| | |] eqn:E2;
    [|by vm_compute in E1; injection E1 as <-; vm_compute in E2..].
  assert (b = true /\ dest_ w2 = Some (default [] (dest_ w2)) /\ length (default [] (dest_ w2)) = 31%nat) as (-> & Ed2 & El2)
    by (vm_compute in E1; injection E1 as <-; vm_compute in E2; by injection E2 as <- <-).
  destruct (torn_log_is_prefix (HW := memory_dest_spec) (HF := memory_source_spec) [] 7 false false [hello] [hello; []] w1 (default [] (dest_ w1)) w2 (default [] (dest_ w2)) 14
    (take 14 (default [] (dest_ w2))) true true kTolerateCorruptedTailRecords 4 60 I eq_refl
    ltac:(lia) ltac:(lia) ltac:(by repeat constructor) E1 Ed1 E2 Ed2 I eq_refl) as (m & r' & H1 & H2).
  - cbn [contents memory_dest_spec]. rewrite El1. lia.
  - unfold zlen. cbn [contents memory_dest_spec]. rewrite El2. lia.
  - cbn [length app]. lia.
  - cbn [contents memory_dest_spec]. rewrite El2. lia.
  - exists w1, (default [] (dest_ w1)), w2, (default [] (dest_ w2)), m, r'.
    exact (conj eq_refl (conj Ed1 (conj E2 (conj Ed2 (conj H1 (H2 eq_refl)))))).
Defined.

(** A file of seven arbitrary bytes. *)
Lemma any_file_read_safely_witness : exists res r' pos' E',
  ReadRecord 10 kPointInTimeRecovery (new_Reader (replicate 7 Byte.x05) true true 1) = Ret res r' /\
  reading (replicate 7 Byte.x05) pos' E' r'.
Proof.
  destruct (any_file_read_safely (HF := memory_source_spec) (replicate 7 Byte.x05) 10 kPointInTimeRecovery 0 0
    (new_Reader (replicate 7 Byte.x05) true true 1)) as (res & r' & pos' & E' & H1 & H2 & _); try done.
  exists res, r', pos', E'. exact (conj H1 H2).
Defined.

(** A recycled file: a record of log 1 at the start of log 2. *)
Definition at_old_record : Reader bytes :=
  set_buffer (frame true 1 kRecyclableFullType hello) (new_Reader [] true true 2).

Lemma old_record_ends_or_loops_witness :
  (exists r', ReadRecord 1 kPointInTimeRecovery at_old_record = Ret None r' /\ reports r' = []) /\
  ReadRecord 1000 kSkipAnyCorruptedRecords at_old_record = Hang.
Proof.
  destruct (old_record_ends_or_loops at_old_record) as [H1 H2].
  - vm_compute. reflexivity.
  - vm_compute. reflexivity.
  - vm_compute. discriminate.
  - split; [by apply (H1 0%nat)|apply H2].
Defined.

Lemma wide_log_number_unread_witness : exists w' d' r',
  add_records [hello] (new_Writer [] (2 ^ 32 + 1) true false) = Ret true w' /\ dest_ w' = Some d' /\
  ReadRecord 2 kPointInTimeRecovery (new_Reader d' true true (2 ^ 32 + 1)) = Ret None r'.
Proof.
  destruct (add_records [hello] (new_Writer [] (2 ^ 32 + 1) true false)) as [b w'| | |] eqn:E; [|by vm_compute in E..].
  assert (b = true /\ dest_ w' = Some (default [] (dest_ w')) /\ length (default [] (dest_ w')) = 16%nat) as (-> & Ed & El)
    by (vm_compute in E; by injection E as <- <-).
  destruct (wide_log_number_unread (HW := memory_dest_spec) (HF := memory_source_spec) [] (2 ^ 32 + 1) false hello [] w' (default [] (dest_ w'))
    (default [] (dest_ w')) true true kPointInTimeRecovery 0 I eq_refl ltac:(lia) ltac:(by repeat constructor) E Ed I
    eq_refl) as (r' & H1 & H2).
  - unfold zlen. cbn [rest memory_source_spec]. rewrite El. lia.
  - discriminate.
  - exists w', (default [] (dest_ w')), r'. exact (conj eq_refl (conj Ed H1)).
Defined.
