(* ===== verification/WalThms.v ===== *)
(** The write-ahead log on files: log::Writer over [WritableFileWriter], log::Reader
    over [SequentialFileReader] with readahead.  The two file classes discharge the
    contracts the log was verified against. *)
From S2P Require Import Prelude Bits Coding Crc32c Crc32cSpec IoStatus LogWriter LogReader LogSpec LogReadSpec LogSafe LogThms.
From S2P Require Import AlignedBuffer FileWriter FileWriterSpec FileWriterOps FileWriterThms SeqFile SeqFileSpec SeqFileThms.
From stdpp Require Import base numbers list strings.
From Stdlib Require Import ZArith Lia.
Local Open Scope Z_scope.

(** ** The destination of the log *)

Section Destination.
Context {F : Type} `{FSWritableFile F} {HF : FSWritableFileSpec F} `{HA : Allocator} {HL : AllocatorLaws}.
Abbreviation FW := (WritableFileWriter F).

#[export] Instance writer_dest : FileDest FW := {
  dest_Append := writer_Append; dest_Flush := writer_Flush; dest_Close := writer_Close }.

(** What a writer has accepted, in its file or still in its buffer. *)
Definition taken (w : FW) : bytes :=
  match writable_file_ w with Open f => accepted f w | Closed f => file_data f end.

Lemma taken_accepted f w : writer_wf f w -> taken w = accepted f w.
Proof. intros Hw. unfold taken. by rewrite (ww_file _ _ Hw). Qed.

(** Every call so far succeeded. *)
Definition unharmed (w : FW) : Prop := exists f fed, clean True (taken w) fed f w.

Lemma performed_dest f w d e s f' w' : writer_wf f w ->
  performed True f w d (match e with Some y => gen_Update y <$> checksum_generator_ w | None => checksum_generator_ w end) s f' w' ->
  (exists f, writer_wf f w') /\ (ok s = true -> taken w' = taken w ++ d) /\ (ok s = true -> unharmed w -> unharmed w').
Proof.
  intros Hw Hp. pose proof (pf_wf _ _ _ _ _ _ _ _ Hp) as Hw'. split; [by exists f'|].
  assert (ok s = true -> taken w' = taken w ++ d) as Ht.
  { intros Hs. rewrite (taken_accepted f' w' Hw'), (taken_accepted f w Hw). by apply (pf_accepted _ _ _ _ _ _ _ _ Hp). }
  split; [done|]. intros Hs (f0 & fed & Hcl). exists f'. eexists. rewrite (Ht Hs).
  assert (f0 = f) as -> by (pose proof (ww_file _ _ (cl_wf _ _ _ _ _ Hcl)) as E; rewrite (ww_file _ _ Hw) in E; congruence).
  by eapply performed_clean.
Qed.

Lemma right_range data crc : crc = 0 \/ crc = Value data -> 0 <= crc < 2 ^ 32.
Proof. intros [->| ->]; [done|apply Value_range]. Qed.

#[export, program] Instance writer_dest_spec : FileDestSpec FW := {
  dest_ok w := exists f, writer_wf f w; contents := taken; intact := unharmed }.
Next Obligation.
  intros w data crc [f Hw] Hcrc. destruct (writer_Append_ok True f w data crc Hw (right_range data crc Hcrc) (fun _ => Hcrc)) as (s & f' & w' & Hrun & Hp).
  exists s, w'. split; [exact Hrun|]. by apply (performed_dest f w data (Some data) s f' w').
Qed.
Next Obligation.
  intros w [f Hw]. destruct (writer_Flush_performed True f w Hw) as (s & f' & w' & Hrun & Hp).
  exists s, w'. split; [exact Hrun|]. destruct (performed_dest f w [] None s f' w' Hw Hp) as (Hd & Ht & Hu).
  rewrite app_nil_r in Ht. done.
Qed.

(** The files a log can be written to: empty, and with options under which no
    write waits for ever. *)
Record log_file (f : F) (options : WriterOptions) (gen : option FileChecksumGenCrc32c) : Prop := {
  lf_ok : file_ok f;
  lf_empty : file_data f = [];
  lf_honest : honest f;
  lf_alignment : power_of_two (fs_GetRequiredBufferAlignment f);
  lf_max : 0 < max_buffer_size_ options < 2 ^ 60;
  lf_limiter : forall l, rate_limiter_ options = Some l -> 0 < single_burst_bytes l < 2 ^ 63 /\
    (perform_data_verification_ options && buffered_data_with_checksum_ options = true -> fs_use_direct_io f = false ->
     (fs_GetIOPriority f <? IO_TOTAL) && IsRateLimited l kWrite = false);
  lf_generator : gen = None \/ gen = Some new_FileChecksumGenCrc32c }.

Lemma new_dest f options gen b w b' : log_file f options gen -> new_WritableFileWriter f options gen b = Ret w b' ->
  dest_ok w /\ contents w = [] /\ intact w.
Proof.
  intros [] Hnew. destruct (new_writer_wf f options gen b lf_ok0 lf_alignment0 lf_max0 lf_limiter0) as (bb & b0 & Hnew' & Hw & Hb).
  rewrite Hnew in Hnew'. injection Hnew' as -> <-. pose proof (new_clean True _ _ _ _ Hw Hb lf_empty0 (fun _ => lf_honest0) lf_generator0) as Hcl.
  pose proof (cl_accepted _ _ _ _ _ Hcl) as Hacc. split; [by exists f|]. cbn [contents intact writer_dest_spec].
  rewrite (taken_accepted f _ Hw), Hacc. split; [done|]. exists f, []. rewrite (taken_accepted f _ Hw). by rewrite Hacc.
Qed.

(** Closing the log writes out all that was appended. *)
Lemma close_log recycle ln d o (lw : Writer FW) : writer_ok recycle ln d o lw -> intact d ->
  exists s d2 f2 lw', writer_Close d = Ret s d2 /\ writable_file_ d2 = Closed f2 /\ Writer_Close lw = Ret s lw' /\ dest_ lw' = None /\
    (ok s = true -> file_data f2 = contents d).
Proof.
  intros Hlw (f & fed & Hcl). destruct (writer_Close_ok True f d (cl_wf _ _ _ _ _ Hcl)) as (s & f2 & d2 & Hclose & Hclosed & Hres).
  exists s, d2, f2. eexists. split; [done|]. split; [done|]. split; [|split; [|intros Hs; by apply (Hres _ _ Hcl Hs)]].
  - unfold Writer_Close. rewrite bind_gets, (wr_dest _ _ _ _ _ Hlw). erewrite bind_Ret.
    2: { unfold on_dest. rewrite (wr_dest _ _ _ _ _ Hlw). cbn [dest_Close writer_dest]. rewrite Hclose. reflexivity. }
    reflexivity.
  - done.
Qed.
End Destination.

(** ** The source of the log *)

Section Source.
Context {F : Type} `{FSSequentialFile F} {HS : FSSequentialFileSpec F} `{HA : Allocator}.

#[export] Instance reader_source : FileSource (SequentialFileReader F) := { source_Read := sr_Read }.

(** Buffered reads of a file that does not fail. *)
#[export, program] Instance reader_source_spec : FileSourceSpec (SequentialFileReader F) := {
  source_ok r := seq_ok (sr_file r) /\ seq_reliable (sr_file r) /\ sf_use_direct_io (sr_file r) = false;
  rest r := seq_rest (sr_file r) }.
Next Obligation.
  intros r n (Hf & Hre & Hd) Hn. destruct (law_Read (sr_file r) n Hf Hn) as (s & b & f' & Hrun & (Hf' & _ & _ & Hu & _ & Hrel) & _ & Hok).
  destruct (Hrel Hre) as [Hs Hre']. destruct (Hok Hs) as [-> Er]. destruct s; try done.
  exists (MkSequentialFileReader f' (offset_ r)). split; [|by rewrite <- Hd].
  cbn [source_Read reader_source]. unfold sr_Read. rewrite bind_gets, Hd. by apply (zoom_Ret sr_file_lens).
Qed.
End Source.

(** ** The log on files *)

Section Log.
Context {WF : Type} `{FSWritableFile WF} {HWF : FSWritableFileSpec WF}.
Context {SF : Type} `{FSSequentialFile SF} {HSF : FSSequentialFileSpec SF}.
Context `{HA : Allocator} {HL : AllocatorLaws}.

(** A file of these bytes, read ahead or not, gives these records and no
    corruption. *)
Definition recovers (rs : list bytes) (ln : Z) (data : bytes) : Prop :=
  forall (g : SF) size,
    seq_ok g -> seq_reliable g -> sf_use_direct_io g = false -> seq_rest g = data ->
    power_of_two (sf_GetRequiredBufferAlignment g) -> 0 <= size < 2 ^ 59 ->
    exists sf b, NewReadaheadSequentialFile g size new_AlignedBuffer = Ret sf b /\
      forall rep ck mode n fuel, (length rs < n)%nat -> (length data + 2 <= fuel)%nat ->
        exists r', read_log n fuel mode (new_Reader (new_SequentialFileReader sf) rep ck ln) = Ret rs r' /\ reports r' = [].

(** The log of these records was closed. *)
Definition closed_log (lw : Writer (WritableFileWriter WF)) (d1 : WritableFileWriter WF) (s : IOStatus) (f2 : WF) : Prop :=
  exists d2 lw', writer_Close d1 = Ret s d2 /\ writable_file_ d2 = Closed f2 /\ Writer_Close lw = Ret s lw' /\ dest_ lw' = None.

Lemma closed_log_recovers (f : WF) options gen b0 d b1 ln recycle manual rs lw d1 :
  log_file f options gen -> new_WritableFileWriter f options gen b0 = Ret d b1 ->
  0 <= ln -> (recycle = true -> ln < 2 ^ 32) -> Forall (fun r : bytes => zlen r < 2 ^ 63) rs ->
  add_records rs (new_Writer d ln recycle manual) = Ret true lw -> dest_ lw = Some d1 ->
  exists s f2, closed_log lw d1 s f2 /\ (ok s = true -> recovers rs ln (file_data f2)).
Proof.
  intros Hlf Hnew Hln Hwide Hrs Hadd Hd1. destruct (new_dest _ _ _ _ _ _ Hlf Hnew) as (Hd & Hc & Hi).
  destruct (add_records_ok recycle ln d 0 _ rs (new_writer_ok recycle ln manual d Hd) Hln Hrs) as (b & d' & o & lw1 & Hadd' & Hw & Hres).
  rewrite Hadd in Hadd'. injection Hadd' as <- <-. rewrite (wr_dest _ _ _ _ _ Hw) in Hd1. injection Hd1 as ->.
  destruct (Hres eq_refl) as (out & Hout & Eout & Hi1). rewrite Hc in Eout. cbn [app] in Eout.
  destruct (close_log recycle ln d1 o lw Hw (Hi1 Hi)) as (s & d2 & f2 & lw' & Hcl1 & Hcl2 & Hcl3 & Hcl4 & Hdata).
  exists s, f2. split; [by exists d2, lw'|]. intros Hs g size Hg Hre Hdir Hrest Hal Hsize. rewrite (Hdata Hs), Eout in *.
  destruct (NewReadahead_ok g size Hg Hal Hsize) as (sf & b & Hnsf & Hsf & Hrest' & _ & Hre' & Hdir' & _).
  exists sf, b. split; [done|]. intros rep ck mode n fuel Hn Hfuel.
  pose proof (law_rest_size g Hg) as Hlen. rewrite Hrest in Hlen.
  eapply laid_out_read; try done; [|change (seq_rest sf = out); by rewrite Hrest'|lia].
  change (seq_ok sf /\ seq_reliable sf /\ sf_use_direct_io sf = false). rewrite Hdir'. auto.
Qed.
(** C7. The log survives a restart.  Records are added through a log writer over
    a new [WritableFileWriter], with any buffer size, buffered or direct I/O,
    with or without checksums; when all calls and the closing of the log
    succeed, a reader over the resulting file, read ahead or not, in any
    recovery mode, gives back exactly these records and reports no
    corruption.  Closing always returns and lets go of the file. *)
Theorem wal_survives_restart (f : WF) options gen b0 d b1 ln recycle manual rs lw d1 :
  log_file f options gen -> new_WritableFileWriter f options gen b0 = Ret d b1 ->
  0 <= ln -> (recycle = true -> ln < 2 ^ 32) -> Forall (fun r : bytes => zlen r < 2 ^ 63) rs ->
  add_records rs (new_Writer d ln recycle manual) = Ret true lw -> dest_ lw = Some d1 ->
  exists s d2 f2 lw', writer_Close d1 = Ret s d2 /\ writable_file_ d2 = Closed f2 /\ Writer_Close lw = Ret s lw' /\ dest_ lw' = None /\
    (ok s = true -> forall (g : SF) size,
      seq_ok g -> seq_reliable g -> sf_use_direct_io g = false -> seq_rest g = file_data f2 ->
      power_of_two (sf_GetRequiredBufferAlignment g) -> 0 <= size < 2 ^ 59 ->
      exists sf b, NewReadaheadSequentialFile g size new_AlignedBuffer = Ret sf b /\
        forall rep ck mode n fuel, (length rs < n)%nat -> (length (file_data f2) + 2 <= fuel)%nat ->
          exists r', read_log n fuel mode (new_Reader (new_SequentialFileReader sf) rep ck ln) = Ret rs r' /\ reports r' = []).
Proof.
  intros Hlf Hnew Hln Hwide Hrs Hadd Hd1. destruct (closed_log_recovers _ _ _ _ _ _ _ _ _ _ _ _ Hlf Hnew Hln Hwide Hrs Hadd Hd1)
    as (s & f2 & (d2 & lw' & Hc) & Hread). exists s, d2, f2, lw'. split; [apply Hc|]. by destruct Hc as (_ & ? & ? & ?).
Qed.
End Log.

(** ** An example *)

#[local] Existing Instance memory_allocator.
#[local] Existing Instance memory_allocator_laws.

(** Three records, direct I/O in pages of four bytes with a buffer of eight, read
    back with a readahead of sixteen bytes. *)
Definition wal_records : list bytes := [letters; []; letters ++ letters].
Definition wal_options : WriterOptions := MkWriterOptions 8 0 None true true.

Definition wal_writer : Prelude.outcome (Writer (WritableFileWriter memory_file)) bool :=
  match new_WritableFileWriter direct_file wal_options (Some new_FileChecksumGenCrc32c) new_AlignedBuffer with
  | Ret d _ => add_records wal_records (new_Writer d 7 true false)
  | _ => UB
  end.

Lemma wal_survives_restart_witness : exists lw d1 d2 f2 sf b r',
  wal_writer = Ret true lw /\ dest_ lw = Some d1 /\ writer_Close d1 = Ret OK d2 /\ writable_file_ d2 = Closed f2 /\
  NewReadaheadSequentialFile (MkMemorySeq (file_data f2) 0 false) 16 new_AlignedBuffer = Ret sf b /\
  read_log 4 60 kAbsoluteConsistency (new_Reader (new_SequentialFileReader sf) true true 7) = Ret wal_records r' /\ reports r' = [].
Proof.
  destruct (new_WritableFileWriter direct_file wal_options (Some new_FileChecksumGenCrc32c) new_AlignedBuffer) as [d b1| | |] eqn:Hnew;
    [|by vm_compute in Hnew..].
  destruct (add_records wal_records (new_Writer d 7 true false)) as [b lw| | |] eqn:Hadd;
    [|by vm_compute in Hnew; injection Hnew as <- <-; vm_compute in Hadd..].
  destruct (dest_ lw) as [d1|] eqn:Hd1; [|by vm_compute in Hnew; injection Hnew as <- <-; vm_compute in Hadd; injection Hadd as <- <-].
  assert (b = true /\ exists d2 f2, writer_Close d1 = Ret OK d2 /\ writable_file_ d2 = Closed f2 /\ zlen (file_data f2) = 42) as (-> & d2 & f2 & Hc & Hf & Hz).
  { vm_compute in Hnew. injection Hnew as <- <-. vm_compute in Hadd. injection Hadd as <- <-. vm_compute in Hd1. injection Hd1 as <-.
    split; [done|]. eexists _, _. split; [vm_compute; reflexivity|]. split; [reflexivity|]. vm_compute. reflexivity. }
  destruct (wal_survives_restart (HSF := memory_sequential_spec) direct_file wal_options (Some new_FileChecksumGenCrc32c) new_AlignedBuffer d b1 7 true false
    wal_records lw d1) as (s & d2' & f2' & lw' & Hc' & Hf' & _ & _ & Hread).
  - split; [done|done|done|exact power_of_two_4|done|done|by right].
  - done.
  - lia.
  - lia.
  - repeat constructor.
  - exact Hadd.
  - exact Hd1.
  - rewrite Hc in Hc'. injection Hc' as <- <-. rewrite Hf in Hf'. injection Hf' as <-.
    destruct (Hread eq_refl (MkMemorySeq (file_data f2) 0 false) 16) as (sf & b & Hnsf & Hlog).
    + cbn [seq_ok memory_sequential_spec ms_position ms_data]. lia.
    + exact I.
    + done.
    + done.
    + by exists 2.
    + lia.
    + destruct (Hlog true true kAbsoluteConsistency 4%nat 60%nat) as (r' & Hrun & Hrep); [cbn; lia|unfold zlen in Hz; lia|].
      exists lw, d1, d2, f2, sf, b, r'. unfold wal_writer. rewrite Hnew. done.
Defined.
