(* ===== verification/WalBatchThms.v ===== *)
(** Recovery from the write-ahead log: write batches go through log::Writer,
    [WritableFileWriter], a file, [SequentialFileReader] and log::Reader, and are
    handed to the handler again. *)
From S2P Require Import Prelude Bits Coding Crc32c Crc32cSpec IoStatus LogWriter LogReader LogSpec LogReadSpec LogSafe LogThms.
From S2P Require Import AlignedBuffer FileWriter FileWriterSpec FileWriterOps FileWriterThms SeqFile SeqFileSpec SeqFileThms WalThms.
From S2P Require Import DbFormat WriteBatch WriteBatchSpec WriteBatchOps WriteBatchThms.
From stdpp Require Import base numbers list strings.
From Stdlib Require Import ZArith Lia.
Local Open Scope Z_scope.

(** The updates of a transaction that was built in a new batch. *)
Definition updates_of (max_bytes : Z) (ops : list batch_op) : list update := l_updates (spec_all max_bytes ops new_ledger).2.

(** [record] is what a batch consists of after these operations. *)
Definition built (max_bytes : Z) (ops : list batch_op) (record : bytes) : Prop :=
  all_allowed max_bytes ops new_ledger /\ exists ss b, exec_all ops (new_WriteBatch max_bytes) = Ret ss b /\ record = Contents b.

Section Recovery.
Context {S : Type} (handler : Handler S).

(** Every record is made the contents of a batch, and the batch iterated over. *)
Fixpoint recover (records : list bytes) : prog S (list Status) :=
  match records with
  | [] => mret []
  | record :: records =>
    match SetContents record (new_WriteBatch 0) with
    | Ret _ batch => s ← Iterate handler batch; ss ← recover records; mret (s :: ss)
    | _ => undefined
    end
  end.

Fixpoint replay_all (transactions : list (list update)) : prog S (list Status) :=
  match transactions with
  | [] => mret []
  | us :: transactions => o ← replay handler us true 0; ss ← replay_all transactions; mret (verdict o :: ss)
  end.

Lemma built_replays max_bytes ops record st : built max_bytes ops record ->
  Iterate handler (set_content_flags DEFERRED (set_rep record (new_WriteBatch 0))) st =
  (o ← replay handler (updates_of max_bytes ops) true 0; mret (verdict o)) st.
Proof.
  intros [Ha (ss & b & Hrun & ->)]. destruct (run_represented max_bytes ops Ha) as (b' & Hrun' & Hl & Hs). rewrite Hrun in Hrun'.
  injection Hrun' as _ <-. apply (Iterate_image _ (l_seq (spec_all max_bytes ops new_ledger).2)); [apply Hl|apply Hs].
Qed.

Lemma recover_replays max_bytes txns rs : Forall2 (built max_bytes) txns rs ->
  forall st, recover rs st = replay_all (updates_of max_bytes <$> txns) st.
Proof.
  induction 1 as [|ops record txns rs Hb _ IH]; intros st; [done|]. cbn [recover fmap list_fmap replay_all].
  change (SetContents record (new_WriteBatch 0)) with (Ret StOK (set_content_flags DEFERRED (set_rep record (new_WriteBatch 0)))). cbv iota.
  unfold mbind at 1, prog_bind at 1. rewrite (built_replays _ _ _ _ Hb). unfold mbind, prog_bind.
  destruct (replay handler (updates_of max_bytes ops) true 0 st) as [o st'| | |]; try done. cbn [mret prog_ret]. by rewrite IH.
Qed.
End Recovery.

Section Log.
Context {WF : Type} `{FSWritableFile WF} {HWF : FSWritableFileSpec WF}.
Context {SF : Type} `{FSSequentialFile SF} {HSF : FSSequentialFileSpec SF}.
Context `{HA : Allocator} {HL : AllocatorLaws}.

(** C6. Transactions survive a restart.  Each transaction is built in a write batch
    and added to the log; when all calls and the closing of the log succeed,
    recovery from the resulting file, in any recovery mode and with any
    readahead, reads batches without a report of corruption, and hands exactly
    the updates of the transactions to the handler, batch after batch and in
    their order, with the handler's statuses. *)
Theorem batches_survive_restart {S} (handler : Handler S) max_bytes txns rs (f : WF) options gen b0 d b1 ln recycle manual lw d1 :
  Forall2 (built max_bytes) txns rs -> Forall (fun r : bytes => zlen r < 2 ^ 63) rs ->
  log_file f options gen -> new_WritableFileWriter f options gen b0 = Ret d b1 -> 0 <= ln -> (recycle = true -> ln < 2 ^ 32) ->
  add_records rs (new_Writer d ln recycle manual) = Ret true lw -> dest_ lw = Some d1 ->
  exists s f2, closed_log lw d1 s f2 /\
    (ok s = true -> forall (g : SF) size,
      seq_ok g -> seq_reliable g -> sf_use_direct_io g = false -> seq_rest g = file_data f2 ->
      power_of_two (sf_GetRequiredBufferAlignment g) -> 0 <= size < 2 ^ 59 ->
      exists sf b, NewReadaheadSequentialFile g size new_AlignedBuffer = Ret sf b /\
        forall rep ck mode n fuel, (length txns < n)%nat -> (length (file_data f2) + 2 <= fuel)%nat ->
          exists found r', read_log n fuel mode (new_Reader (new_SequentialFileReader sf) rep ck ln) = Ret found r' /\ reports r' = [] /\
            forall st, recover handler found st = replay_all handler (updates_of max_bytes <$> txns) st).
Proof.
  intros Hb Hrs Hlf Hnew Hln Hwide Hadd Hd1. pose proof (Forall2_length _ _ _ Hb) as Hn.
  destruct (closed_log_recovers (SF := SF) _ _ _ _ _ _ _ _ _ _ _ _ Hlf Hnew Hln Hwide Hrs Hadd Hd1) as (s & f2 & Hc & Hread).
  exists s, f2. split; [exact Hc|]. intros Hs g size Hg1 Hg2 Hg3 Hg4 Hg5 Hsize.
  destruct (Hread Hs g size Hg1 Hg2 Hg3 Hg4 Hg5 Hsize) as (sf & b & Hsf & Hlog). exists sf, b. split; [exact Hsf|].
  intros rep ck mode n fuel Hn' Hfuel. destruct (Hlog rep ck mode n fuel ltac:(lia) Hfuel) as (r' & Hrun & Hrep).
  exists rs, r'. split; [exact Hrun|]. split; [exact Hrep|]. by apply recover_replays.
Qed.
End Log.

(** ** An example *)

#[local] Existing Instance memory_allocator.
#[local] Existing Instance memory_allocator_laws.

(** Two transactions in a recycled log, direct I/O in pages of four bytes, read
    back with a readahead of sixteen bytes. *)
Definition wal_transactions : list (list batch_op) :=
  [[Number 5; Do (UPut 0 key1 value1); Do (UDelete 2 key1)]; [Number 7; Do (UMerge 0 key1 value1)]].

Definition batch_record (ops : list batch_op) : bytes :=
  match exec_all ops (new_WriteBatch 0) with Ret _ b => Contents b | _ => [] end.

Lemma wal_transactions_built : Forall2 (built 0) wal_transactions (batch_record <$> wal_transactions).
Proof.
  repeat constructor; try (check_allowed; fail).
  all: unfold batch_record; eexists _, _; split; [vm_compute; reflexivity|vm_compute; reflexivity].
Qed.

Definition batch_wal_writer : Prelude.outcome (Writer (WritableFileWriter memory_file)) bool :=
  match new_WritableFileWriter direct_file wal_options (Some new_FileChecksumGenCrc32c) new_AlignedBuffer with
  | Ret d _ => add_records (batch_record <$> wal_transactions) (new_Writer d 7 true false)
  | _ => UB
  end.

(** The run of the example up to the closing of the log. *)
Lemma batch_wal_runs : exists d b1 lw d1 d2 f2,
  new_WritableFileWriter direct_file wal_options (Some new_FileChecksumGenCrc32c) new_AlignedBuffer = Ret d b1 /\
  add_records (batch_record <$> wal_transactions) (new_Writer d 7 true false) = Ret true lw /\ dest_ lw = Some d1 /\
  writer_Close d1 = Ret OK d2 /\ writable_file_ d2 = Closed f2 /\ length (file_data f2) = 63%nat.
Proof.
  do 6 eexists. split; [vm_compute; reflexivity|]. split; [vm_compute; reflexivity|]. split; [vm_compute; reflexivity|].
  split; [vm_compute; reflexivity|]. split; [vm_compute; reflexivity|]. vm_compute. reflexivity.
Qed.

Lemma batches_survive_restart_witness : exists lw d1 f2 sf b found r',
  batch_wal_writer = Ret true lw /\ closed_log lw d1 OK f2 /\
  NewReadaheadSequentialFile (MkMemorySeq (file_data f2) 0 false) 16 new_AlignedBuffer = Ret sf b /\
  read_log 4 65 kAbsoluteConsistency (new_Reader (new_SequentialFileReader sf) true true 7) = Ret found r' /\ reports r' = [] /\
  recover recorder found [] = Ret [StOK; StOK] [UPut 0 key1 value1; UDelete 2 key1; UMerge 0 key1 value1].
Proof.
  destruct batch_wal_runs as (d & b1 & lw & d1 & d2 & f2 & Hnew & Hadd & Hd1 & Hc & Hf & Hz).
  destruct (batches_survive_restart (HSF := memory_sequential_spec) recorder 0 wal_transactions (batch_record <$> wal_transactions)
    direct_file wal_options (Some new_FileChecksumGenCrc32c) new_AlignedBuffer d b1 7 true false lw d1) as (s & f2' & Hcl & Hread).
  - exact wal_transactions_built.
  - repeat constructor.
  - split; [done|done|done|exact power_of_two_4|done|done|by right].
  - exact Hnew.
  - lia.
  - lia.
  - exact Hadd.
  - exact Hd1.
  - destruct Hcl as (d2' & lw' & Hc' & Hf' & Hrest). rewrite Hc in Hc'. injection Hc' as <- <-. rewrite Hf in Hf'. injection Hf' as <-.
    destruct (Hread eq_refl (MkMemorySeq (file_data f2) 0 false) 16) as (sf & b & Hnsf & Hlog).
    + cbn [seq_ok memory_sequential_spec ms_position ms_data]. unfold zlen. lia.
    + exact I.
    + done.
    + done.
    + by exists 2.
    + lia.
    + destruct (Hlog true true kAbsoluteConsistency 4%nat 65%nat) as (found & r' & Hrun & Hrep & Hrec); [cbn; lia|lia|].
      exists lw, d1, f2, sf, b, found, r'. unfold batch_wal_writer. rewrite Hnew. split; [exact Hadd|]. split; [by exists d2, lw'|].
      split; [exact Hnsf|]. split; [exact Hrun|]. split; [exact Hrep|]. rewrite Hrec. vm_compute. reflexivity.
Defined.
