(* ===== verification/LogTail.v ===== *)
(** db/log_reader.cc: [FragmentBufferedReader], the reader of a log that is
    still being written.

    A fragment that has not arrived completely is waited for: the call returns
    no record, and a later call goes on where this one stopped.  The header of a
    fragment is a pointer into [backing_store_], which a later read can
    overwrite, so the store is part of the state: [buffer_at] is the offset in it
    of the buffer's first byte.  [Read] puts its bytes where it is told to. *)
From S2P Require Import Prelude Bits Coding Crc32c IoStatus LogWriter LogReader.
From stdpp Require Import base numbers list strings.
From Stdlib Require Import ZArith Lia.
Local Open Scope Z_scope.

Record FragmentBufferedReader (F : Type) := MkFragmentBufferedReader {
  f_base : Reader F; backing_store_ : bytes; buffer_at : Z;
  fragments_ : bytes; in_fragmented_record_ : bool }.
Arguments MkFragmentBufferedReader {F}.
Arguments f_base {F}.
Arguments backing_store_ {F}.
Arguments buffer_at {F}.
Arguments fragments_ {F}.
Arguments in_fragmented_record_ {F}.

Section Tail.
Context {F : Type} `{FileSource F}.
Abbreviation FR := (FragmentBufferedReader F).

(** [fresh] are the bytes of the new [backing_store_]. *)
Definition new_FragmentBufferedReader (fresh : bytes) (file : F) (reporter checksum : bool) (log_num : Z) : FR :=
  MkFragmentBufferedReader (new_Reader file reporter checksum log_num) fresh 0 [] false.

Definition set_base (b : Reader F) (r : FR) : FR :=
  MkFragmentBufferedReader b (backing_store_ r) (buffer_at r) (fragments_ r) (in_fragmented_record_ r).
Definition set_store (s : bytes) (r : FR) : FR :=
  MkFragmentBufferedReader (f_base r) s (buffer_at r) (fragments_ r) (in_fragmented_record_ r).
Definition set_buffer_at (o : Z) (r : FR) : FR :=
  MkFragmentBufferedReader (f_base r) (backing_store_ r) o (fragments_ r) (in_fragmented_record_ r).
Definition set_fragments (x : bytes) (inside : bool) (r : FR) : FR :=
  MkFragmentBufferedReader (f_base r) (backing_store_ r) (buffer_at r) x inside.

Definition base_lens : lens FR (Reader F) := Lens f_base set_base.
Definition on_base {A} (m : prog (Reader F) A) : prog FR A := zoom base_lens m.
Definition base {A} (f : Reader F -> A) (r : FR) : A := f (f_base r).

(** [n] bytes of the store. *)
Definition load_store (off n : Z) : prog FR bytes :=
  s ← gets backing_store_;
  if in_block s off n then mret (sub s off n) else undefined.

(** [file_->Read(n, &slice, backing_store_ + off)]. *)
Definition read_into (off n : Z) : prog FR (IOStatus * bytes) :=
  '(status, b) ← on_base (zoom reader_file (source_Read n));
  s ← gets backing_store_;
  modify (set_store (overwrite s off b));;
  mret (status, b).

(** ** More bytes *)

Definition frag_UnmarkEOFInternal : prog FR unit :=
  eo ← gets (base eof_offset_);
  b ← gets (base buffer_);
  a ← gets buffer_at;
  let consumed_bytes := u64 (eo - zlen b) in
  let remaining := u64 (kBlockSize - eo) in
  s ← gets backing_store_;
  when (negb (a =? consumed_bytes)) (modify (set_store (overwrite s consumed_bytes b)));;
  '(status, added) ← read_into eo remaining;
  o ← gets (base end_of_buffer_offset_);
  on_base (modify (set_end_of_buffer (u64 (o + zlen added))));;
  if negb (ok status) then
    when (0 <? zlen added) (on_base (ReportDrop (zlen added) status));;
    on_base (modify set_read_error)
  else
    on_base (modify (set_buffer (b ++ added)));;
    modify (set_buffer_at consumed_bytes);;
    if zlen added <? remaining
    then on_base (modify (set_eof true);; modify (set_eof_offset (u64 (eo + zlen added))))
    else on_base (modify (set_eof_offset 0)).

Definition frag_UnmarkEOF : prog FR unit :=
  err ← gets (base read_error_);
  if (err : bool) then mret tt else
  on_base (modify (set_eof false));;
  frag_UnmarkEOFInternal.

(** Whether to look at the buffer again; otherwise the dropped bytes. *)
Definition TryReadMore (drop_size : Z) : prog FR (bool * Z) :=
  e ← gets (base eof_);
  err ← gets (base read_error_);
  if negb e && negb err then
    on_base (modify (set_buffer []));;
    '(status, b) ← read_into 0 kBlockSize;
    on_base (modify (set_buffer b));;
    modify (set_buffer_at 0);;
    o ← gets (base end_of_buffer_offset_);
    on_base (modify (set_end_of_buffer (u64 (o + zlen b))));;
    if negb (ok status) then
      on_base (modify (set_buffer []));;
      on_base (ReportDrop kBlockSize status);;
      on_base (modify set_read_error);;
      mret (false, drop_size)
    else
      when (zlen b <? kBlockSize) (on_base (modify (set_eof true);; modify (set_eof_offset (zlen b))));;
      mret (true, drop_size)
  else
    when (negb err) frag_UnmarkEOF;;
    err ← gets (base read_error_);
    if negb err then mret (true, drop_size) else
    b ← gets (base buffer_);
    on_base (modify (set_buffer []));;
    mret (false, zlen b).

(** [while (buffer_.size() < need) ...]: whether so many bytes are there. *)
Fixpoint fill (fuel : nat) (need drop_size : Z) : prog FR (bool * Z) :=
  match fuel with
  | O => hang
  | S fuel' =>
    b ← gets (base buffer_);
    if need <=? zlen b then mret (true, drop_size) else
    '(more, drop_size) ← TryReadMore drop_size;
    if negb more then mret (false, drop_size) else
    b' ← gets (base buffer_);
    if zlen b =? zlen b' then mret (false, drop_size) else fill fuel' need drop_size
  end.

(** ** A fragment *)

(** The part of [TryReadFragment] after the header; [hd] is its offset in the
    store.  [None] stands for the result [false]. *)
Definition fragment_body (fuel : nat) (hd header_size type length drop_size : Z) : prog FR (option (Z * bytes) * Z) :=
  '(go, drop_size) ← fill fuel (header_size + length) drop_size;
  if negb go then mret (None, drop_size) else
  if (type =? kZeroType) && (length =? 0) then
    on_base (modify (set_buffer []));; mret (Some (kBadRecord, []), drop_size)
  else
    ck ← gets (base checksum_);
    good ← (if (ck : bool) then
              crc ← load_store hd 4;
              data ← load_store (hd + 6) (length + header_size - 6);
              mret (Value data =? Unmask (DecodeFixed32 true crc))
            else mret true);
    b ← gets (base buffer_);
    if negb good then
      on_base (modify (set_buffer []));; mret (Some (kBadRecordChecksum, []), zlen b)
    else
      on_base (modify (set_buffer (drop (Z.to_nat (header_size + length)) b)));;
      a ← gets buffer_at;
      modify (set_buffer_at (a + (header_size + length)));;
      fragment ← load_store (hd + header_size) length;
      mret (Some (type, fragment), drop_size).

Definition TryReadFragment (fuel : nat) (drop_size : Z) : prog FR (option (Z * bytes) * Z) :=
  '(go, drop_size) ← fill fuel kHeaderSize drop_size;
  if negb go then mret (None, drop_size) else
  hd ← gets buffer_at;
  header ← load_store hd kHeaderSize;
  let type := header_type header in
  let length := header_length header in
  if recyclable type then
    o ← gets (base end_of_buffer_offset_);
    b ← gets (base buffer_);
    when (u64 (o - zlen b) =? 0) (on_base (modify set_recycled));;
    '(go, drop_size) ← fill fuel kRecyclableHeaderSize drop_size;
    if negb go then mret (None, drop_size) else
    l ← load_store (hd + 7) 4;
    ln ← gets (base r_log_number);
    if negb (DecodeFixed32 true l =? ln) then mret (Some (kOldRecord, []), drop_size)
    else fragment_body fuel hd kRecyclableHeaderSize type length drop_size
  else fragment_body fuel hd kHeaderSize type length drop_size.

(** ** A record *)

Definition report (n : Z) (reason : string) : prog FR unit := on_base (ReportCorruption n reason).

(** The report when a fragment is lost in the middle of a record. *)
Definition frag_abandon : prog FR unit :=
  inside ← gets in_fragmented_record_;
  x ← gets fragments_;
  if (inside : bool) then report (zlen x) "error in middle of record";; modify (set_fragments [] false)
  else mret tt.

Fixpoint tail_loop (fuel : nat) (physical prospective drop_size : Z) : prog FR (option bytes) :=
  match fuel with
  | O => hang
  | S fuel' =>
    '(res, drop_size) ← TryReadFragment fuel drop_size;
    match res with
    | None => mret None
    | Some (t, fragment) =>
      inside ← gets in_fragmented_record_;
      x ← gets fragments_;
      if (t =? kFullType) || (t =? kRecyclableFullType) then
        when (inside && negb (zlen x =? 0)) (report (zlen x) "partial record without end(1)");;
        on_base (modify (set_last_record_offset physical));;
        modify (set_fragments [] false);;
        mret (Some fragment)
      else if (t =? kFirstType) || (t =? kRecyclableFirstType) then
        when (inside || negb (zlen x =? 0)) (report (zlen x) "partial record without end(2)");;
        modify (set_fragments fragment true);;
        tail_loop fuel' physical physical drop_size
      else if (t =? kMiddleType) || (t =? kRecyclableMiddleType) then
        (if negb inside then report (zlen fragment) "missing start of fragmented record(1)"
         else modify (set_fragments (x ++ fragment) true));;
        tail_loop fuel' physical prospective drop_size
      else if (t =? kLastType) || (t =? kRecyclableLastType) then
        if negb inside then
          report (zlen fragment) "missing start of fragmented record(2)";;
          tail_loop fuel' physical prospective drop_size
        else
          on_base (modify (set_last_record_offset prospective));;
          modify (set_fragments [] false);;
          mret (Some (x ++ fragment))
      else if (t =? kBadHeader) || (t =? kBadRecord) || (t =? kEof) || (t =? kOldRecord) then
        frag_abandon;; tail_loop fuel' physical prospective drop_size
      else if t =? kBadRecordChecksum then
        rec ← gets (base recycled_);
        if (rec : bool) then modify (fun r => set_fragments [] (in_fragmented_record_ r) r);; mret None
        else
          report drop_size "checksum mismatch";;
          frag_abandon;; tail_loop fuel' physical prospective drop_size
      else
        report (zlen fragment + (if inside then zlen x else 0)) "unknown record type";;
        modify (set_fragments [] false);;
        tail_loop fuel' physical prospective drop_size
    end
  end.

Definition frag_ReadRecord (fuel : nat) : prog FR (option bytes) :=
  physical_record_offset ← gets (base LastRecordEnd);
  tail_loop fuel physical_record_offset 0 0.
End Tail.
