(* ===== verification/LogTailSpec.v ===== *)
(** Following a log that grows: the fragments of a record are delivered when
    they have arrived completely, whatever the pieces in which the file grows. *)
From S2P Require Import Prelude Bits Coding Crc32c Crc32cSpec IoStatus LogWriter LogReader LogSpec LogReadSpec LogSafe LogTail.
From stdpp Require Import base numbers list strings.
From Stdlib Require Import ZArith Lia.
Local Open Scope Z_scope.

(** Fields of updated states. *)
Ltac fr := cbn [f_base backing_store_ buffer_at fragments_ in_fragmented_record_ set_base set_store set_buffer_at
  set_fragments r_file reporter_ checksum_ r_log_number buffer_ eof_ read_error_ eof_offset_ last_record_offset_
  end_of_buffer_offset_ recycled_ reports set_file set_buffer set_eof set_read_error set_eof_offset
  set_last_record_offset set_end_of_buffer set_recycled view set base_lens].

Section Tail.
Context {F : Type} `{FileSource F} {HF : FileSourceSpec F}.
Abbreviation FR := (FragmentBufferedReader F).

(** The bytes fetched so far. *)
Definition lim (r : FR) : Z := end_of_buffer_offset_ (f_base r).

(** The reader is at byte [pos] of the file, which has the bytes [C] so far; the
    store holds the block that starts at [B], as far as it was fetched. *)
Record tailing (C : bytes) (pos B : Z) (r : FR) : Prop := {
  tl_size : zlen C < 2 ^ 63;
  tl_file : source_ok (r_file (f_base r));
  tl_rest : rest (r_file (f_base r)) = drop (Z.to_nat (lim r)) C;
  tl_range : 0 <= pos <= lim r /\ lim r <= zlen C /\ B <= lim r <= B + kBlockSize;
  tl_pos : pos < lim r -> 0 <= B <= pos /\ buffer_at r = pos - B;
  tl_buffer : buffer_ (f_base r) = sub C pos (lim r - pos);
  tl_eof : eof_ (f_base r) = (lim r <? B + kBlockSize);
  tl_offset : lim r < B + kBlockSize -> 0 <= B /\ eof_offset_ (f_base r) = lim r - B;
  tl_error : read_error_ (f_base r) = false;
  tl_length : zlen (backing_store_ r) = kBlockSize;
  tl_store : 0 <= B -> sub (backing_store_ r) 0 (lim r - B) = sub C B (lim r - B) }.

(** Nothing was reported or collected in between. *)
Definition calm (r r' : FR) : Prop :=
  quiet (f_base r) (f_base r') /\ fragments_ r' = fragments_ r /\ in_fragmented_record_ r' = in_fragmented_record_ r.

#[export] Instance calm_preorder : PreOrder calm.
Proof.
  split; [done|]. intros x y z (Hq & ? & ?) (Hq' & ? & ?).
  split; [by etrans|split; congruence].
Qed.

Lemma new_tailing f rep ck lr fresh :
  source_ok f -> zlen (rest f) < 2 ^ 63 -> zlen fresh = kBlockSize ->
  tailing (rest f) 0 (- kBlockSize) (new_FragmentBufferedReader fresh f rep ck lr).
Proof. intros Hf Hs Hfr. split; try done; cbn; unfold kBlockSize in *; unfold zlen in *; try lia; try done. Qed.

Lemma tail_size C pos B r : tailing C pos B r -> zlen (buffer_ (f_base r)) = lim r - pos.
Proof.
  intros []. rewrite tl_buffer0. unfold zlen at 1.
  rewrite length_sub by (apply in_block_spec; unfold zlen in *; lia). lia.
Qed.

(** ** Growth *)

Definition new_file (f : F) (r : FR) : FR := set_base (set_file f (f_base r)) r.

Lemma sub_grow (C more : bytes) off n : 0 <= off -> 0 <= n -> off + n <= zlen C -> sub (C ++ more) off n = sub C off n.
Proof.
  intros Ho Hn Hl. unfold sub, zlen in *. rewrite drop_app_le by lia. rewrite take_app_le; [done|].
  rewrite length_drop. lia.
Qed.

Lemma tailing_grow C more pos B r f :
  tailing C pos B r -> source_ok f -> rest f = rest (r_file (f_base r)) ++ more -> zlen (C ++ more) < 2 ^ 63 ->
  tailing (C ++ more) pos B (new_file f r).
Proof.
  intros [] Hf Hrest Hs. unfold zlen in *. rewrite length_app in Hs.
  split; change (lim (new_file f r)) with (lim r); unfold new_file; fr; try done; unfold zlen; rewrite ?length_app.
  - lia.
  - rewrite Hrest, tl_rest0, drop_app_le; [done|lia].
  - lia.
  - rewrite sub_grow; [done|unfold zlen; lia..].
  - intros HB. rewrite sub_grow by (unfold zlen; lia). by apply tl_store0.
Qed.

(** ** Fetching *)

Lemma read_into_ok off n r :
  source_ok (r_file (f_base r)) -> 0 <= n < 2 ^ 62 ->
  let b := take (Z.to_nat n) (rest (r_file (f_base r))) in
  exists f', source_ok f' /\ rest f' = drop (Z.to_nat n) (rest (r_file (f_base r))) /\
    read_into off n r = Ret (OK, b) (set_store (overwrite (backing_store_ r) off b) (new_file f' r)).
Proof.
  intros Hf Hn b. destruct (read_law (r_file (f_base r)) n Hf Hn) as (f' & Hread & Hok & Hrest).
  exists f'. split; [done|]. split; [done|]. unfold read_into, on_base.
  erewrite bind_Ret by (apply (zoom_Ret base_lens), (zoom_Ret reader_file); exact Hread). reflexivity.
Qed.

(** Bytes added behind those the store already holds. *)
Lemma store_extended (s : bytes) C (B l l' : Z) :
  zlen s = kBlockSize -> 0 <= B <= l -> l <= l' <= zlen C -> l' <= B + kBlockSize ->
  sub s 0 (l - B) = sub C B (l - B) ->
  let s' := overwrite s (l - B) (sub C l (l' - l)) in
  zlen s' = kBlockSize /\ sub s' 0 (l' - B) = sub C B (l' - B).
Proof.
  intros Hs HB Hl HK Hsub s'.
  assert (length (sub C l (l' - l)) = Z.to_nat (l' - l)) as Hlen
    by (apply length_sub, in_block_spec; unfold zlen in *; lia).
  assert (in_block s (l - B) (Z.of_nat (length (sub C l (l' - l)))) = true) as Hin
    by (apply in_block_spec; unfold zlen in *; lia).
  split; [unfold s', zlen in *; by rewrite length_overwrite|].
  replace (l' - B) with ((l - B) + (l' - l)) by lia. rewrite !sub_app by lia. f_equal.
  - rewrite <- Hsub. unfold s'. apply sub_overwrite_ne; [done|apply in_block_spec; unfold zlen in *; lia|lia].
  - replace (B + (l - B)) with l by lia. rewrite Z.add_0_l.
    pose proof (sub_overwrite_eq s (l - B) (sub C l (l' - l)) Hin) as He. fold s' in He.
    by rewrite Hlen, Z2Nat.id in He by lia.
Qed.

Lemma take_rest (C : bytes) (l n : Z) : 0 <= l <= zlen C -> 0 <= n ->
  take (Z.to_nat n) (drop (Z.to_nat l) C) = sub C l (Z.min (l + n) (zlen C) - l).
Proof.
  intros Hl Hn. unfold sub, zlen in *. rewrite <- (take_ge (drop (Z.to_nat l) C) (length C - Z.to_nat l)) at 1
    by (rewrite length_drop; lia).
  rewrite take_take. f_equal. lia.
Qed.

Lemma drop_rest (C : bytes) (l n : Z) : 0 <= l <= zlen C -> 0 <= n ->
  drop (Z.to_nat l + Z.to_nat n) C = drop (Z.to_nat (Z.min (l + n) (zlen C))) C.
Proof.
  intros Hl Hn. unfold zlen in *. destruct (decide (l + n <= Z.of_nat (length C))).
  - f_equal. lia.
  - by rewrite !drop_ge by lia.
Qed.

(** The next block. *)
Lemma fetch_block C pos B r ds :
  tailing C pos B r -> lim r = B + kBlockSize ->
  exists r', TryReadMore ds r = Ret (true, ds) r' /\ tailing C (lim r) (lim r) r' /\ calm r r' /\
    lim r' = Z.min (lim r + kBlockSize) (zlen C).
Proof.
  intros Ht HB. destruct Ht. unfold TryReadMore. rewrite !bind_gets. unfold base.
  rewrite tl_eof0, tl_error0. destruct (Z.ltb_spec (lim r) (B + kBlockSize)); [lia|]. cbn [negb andb].
  erewrite bind_Ret by reflexivity. set (r1 := set base_lens _ r).
  destruct (read_into_ok 0 kBlockSize r1) as (f' & Hf' & Hrest & Hread); [done|done|].
  erewrite bind_Ret by exact Hread. cbv beta iota. clear Hread.
  change (rest (r_file (f_base r1))) with (rest (r_file (f_base r))) in *.
  change (backing_store_ r1) with (backing_store_ r). rewrite tl_rest0 in *.
  set (l' := Z.min (lim r + kBlockSize) (zlen C)). unfold kBlockSize in *.
  rewrite take_rest in * by lia. fold l'. rewrite drop_drop, drop_rest in Hrest by lia. fold l' in Hrest.
  assert (zlen (sub C (lim r) (l' - lim r)) = l' - lim r) as Hb.
  { unfold zlen at 1. rewrite length_sub by (apply in_block_spec; unfold zlen in *; lia). lia. }
  erewrite bind_Ret by reflexivity. erewrite bind_Ret by reflexivity. rewrite bind_gets.
  erewrite bind_Ret by reflexivity. cbn [ok negb]. rewrite Hb.
  destruct (store_extended (backing_store_ r) C (lim r) (lim r) l') as [Hs1 Hs2];
    unfold kBlockSize; try done; try lia; [by rewrite Z.sub_diag|].
  rewrite Z.sub_diag in Hs1, Hs2.
  assert (u64 (lim r + (l' - lim r)) = l') as Hu by (rewrite u64_small; lia).
  destruct (Z.ltb_spec (l' - lim r) 32768) as [Hlt|Hge]; eexists; (split; [reflexivity|]).
  all: split; [|split; [done|exact Hu]].
  all: match goal with |- tailing _ _ _ ?s => assert (lim s = l') as Hl' by exact Hu end.
  all: split; rewrite ?Hl'; unfold new_file; fr; unfold kBlockSize; try done; try lia.
  change (eof_ (f_base r1)) with (eof_ (f_base r)).
  rewrite tl_eof0. destruct (Z.ltb_spec (lim r) (B + 32768)), (Z.ltb_spec l' (lim r + 32768)); done || lia.
Qed.

Lemma overwrite_nil (s : bytes) off : overwrite s off [] = s.
Proof. unfold overwrite. cbn [length app]. by rewrite Nat.add_0_r, take_drop. Qed.

Lemma set_store_same (r : FR) s : s = backing_store_ r -> set_store s r = r.
Proof. intros ->. by destruct r. Qed.

(** Reading on in a block that had not arrived completely. *)
Lemma frag_UnmarkEOF_ok C pos B r :
  tailing C pos B r -> lim r < B + kBlockSize ->
  exists r', frag_UnmarkEOF r = Ret tt r' /\ tailing C pos B r' /\ calm r r' /\
    lim r' = Z.min (B + kBlockSize) (zlen C).
Proof.
  intros Ht HB. pose proof (tail_size _ _ _ _ Ht) as Hz. destruct Ht. destruct (tl_offset0 HB) as [HB0 Hoff].
  unfold frag_UnmarkEOF. rewrite bind_gets. unfold base. rewrite tl_error0. cbv iota.
  erewrite bind_Ret by reflexivity. set (r1 := set base_lens _ r). unfold frag_UnmarkEOFInternal.
  rewrite !bind_gets. unfold base.
  change (eof_offset_ (f_base r1)) with (eof_offset_ (f_base r)).
  change (buffer_ (f_base r1)) with (buffer_ (f_base r)). change (buffer_at r1) with (buffer_at r).
  change (backing_store_ r1) with (backing_store_ r).
  rewrite Hoff, Hz. unfold kBlockSize in *.
  assert (B <= pos) as HBp by (destruct (decide (pos < lim r)) as [Hp|]; [by apply tl_pos0|lia]).
  rewrite (u64_small (lim r - B - (lim r - pos))), (u64_small (32768 - (lim r - B))) by lia.
  replace (lim r - B - (lim r - pos)) with (pos - B) by lia.
  erewrite (bind_Ret (when _ _) _ r1 tt r1); cycle 1.
  { destruct (Z.eqb_spec (buffer_at r) (pos - B)); [done|]. destruct (decide (pos < lim r)) as [Hp|Hp].
    - by destruct (tl_pos0 Hp).
    - cbn [negb when]. unfold modify. f_equal. rewrite tl_buffer0. replace (lim r - pos) with 0 by lia.
      apply (set_store_same r1 (overwrite (backing_store_ r) (pos - B) [])), overwrite_nil. }
  destruct (read_into_ok (lim r - B) (32768 - (lim r - B)) r1) as (f' & Hf' & Hrest & Hread); [done|lia|].
  erewrite bind_Ret by exact Hread. cbv beta iota. clear Hread.
  change (rest (r_file (f_base r1))) with (rest (r_file (f_base r))) in *.
  change (backing_store_ r1) with (backing_store_ r). rewrite tl_rest0 in *.
  set (l' := Z.min (B + 32768) (zlen C)).
  rewrite take_rest in * by lia. replace (lim r + (32768 - (lim r - B))) with (B + 32768) by lia. fold l'.
  rewrite drop_drop, drop_rest in Hrest by lia.
  replace (lim r + (32768 - (lim r - B))) with (B + 32768) in Hrest by lia. fold l' in Hrest.
  assert (zlen (sub C (lim r) (l' - lim r)) = l' - lim r) as Hb.
  { unfold zlen at 1. rewrite length_sub by (apply in_block_spec; unfold zlen in *; lia). lia. }
  rewrite bind_gets. erewrite bind_Ret by reflexivity. cbn [ok negb].
  erewrite bind_Ret by reflexivity. erewrite bind_Ret by reflexivity. rewrite Hb.
  destruct (store_extended (backing_store_ r) C B (lim r) l') as [Hs1 Hs2]; unfold kBlockSize; try done; try lia; [by apply tl_store0|].
  assert (u64 (lim r + (l' - lim r)) = l') as Hu by (rewrite u64_small; lia).
  assert (buffer_ (f_base r) ++ sub C (lim r) (l' - lim r) = sub C pos (l' - pos)) as Hbuf.
  { rewrite tl_buffer0. replace (l' - pos) with ((lim r - pos) + (l' - lim r)) by lia. rewrite sub_app by lia.
    by replace (pos + (lim r - pos)) with (lim r) by lia. }
  destruct (Z.ltb_spec (l' - lim r) (32768 - (lim r - B))) as [Hlt|Hge]; eexists; (split; [reflexivity|]).
  all: split; [|split; [done|exact Hu]].
  all: match goal with |- tailing _ _ _ ?s => assert (lim s = l') as Hl' by exact Hu end.
  all: split; rewrite ?Hl'; unfold new_file; fr; unfold kBlockSize; try done; try lia.
  - intros _. split; [lia|rewrite u64_small; lia].
  - change (eof_ (f_base r1)) with false. by destruct (Z.ltb_spec l' (B + 32768)); [lia|].
Qed.

(** The rest of the current block, as far as it has arrived. *)
Lemma fetch_rest C pos B r ds :
  tailing C pos B r -> lim r < B + kBlockSize ->
  exists r', TryReadMore ds r = Ret (true, ds) r' /\ tailing C pos B r' /\ calm r r' /\
    lim r' = Z.min (B + kBlockSize) (zlen C).
Proof.
  intros Ht HB. destruct (frag_UnmarkEOF_ok C pos B r Ht HB) as (r' & Hun & Ht' & Hc & Hl).
  exists r'. split; [|done]. unfold TryReadMore. rewrite !bind_gets. unfold base.
  rewrite (tl_eof _ _ _ _ Ht), (tl_error _ _ _ _ Ht). destruct (Z.ltb_spec (lim r) (B + kBlockSize)); [|lia].
  cbn [negb andb when]. erewrite bind_Ret by exact Hun. rewrite bind_gets. by rewrite (tl_error _ _ _ _ Ht').
Qed.

(** ** Waiting for bytes *)

(** The reader is at the frame at [q] in the block that starts at [b0], or at
    the end of the block before, with less than a header of padding to go. *)
Definition close_to (pos B q b0 : Z) : Prop :=
  pos = q /\ B = b0 \/ q = b0 /\ B + kBlockSize = b0 /\ q - pos < kHeaderSize /\ pos <= q.

(** The loop [fill] in the block of the frame. *)
Lemma fill_here C q b0 r fuel need ds :
  tailing C q b0 r -> 0 < need -> q + need <= b0 + kBlockSize ->
  exists go r', fill (S (S (S fuel))) need ds r = Ret (go, ds) r' /\ tailing C q b0 r' /\ calm r r' /\
    if (go : bool) then q + need <= lim r' else zlen C < q + need.
Proof.
  intros Ht Hn Hfit.
  assert (forall fuel r, tailing C q b0 r -> q + need <= lim r -> fill (S fuel) need ds r = Ret (true, ds) r) as Henough.
  { intros k r1 Ht1 Hl. cbn [fill]. rewrite bind_gets. unfold base. rewrite (tail_size _ _ _ _ Ht1).
    by destruct (Z.leb_spec need (lim r1 - q)); [|lia]. }
  assert (forall fuel r, tailing C q b0 r -> lim r < q + need -> exists r', tailing C q b0 r' /\ calm r r' /\
    lim r' = Z.min (b0 + kBlockSize) (zlen C) /\
    fill (S fuel) need ds r = if lim r =? lim r' then Ret (false, ds) r' else fill fuel need ds r') as Hmore.
  { intros k r1 Ht1 Hl. destruct (fetch_rest C q b0 r1 ds Ht1) as (r2 & Hm & Ht2 & Hc & Hl2); [lia|].
    exists r2. split; [done|]. split; [done|]. split; [done|]. cbn [fill]. rewrite bind_gets. unfold base.
    rewrite (tail_size _ _ _ _ Ht1). destruct (Z.leb_spec need (lim r1 - q)); [lia|].
    erewrite bind_Ret by exact Hm. cbn [negb]. rewrite bind_gets. unfold base. rewrite (tail_size _ _ _ _ Ht2).
    by destruct (Z.eqb_spec (lim r1) (lim r2)), (Z.eqb_spec (lim r1 - q) (lim r2 - q)); try lia. }
  destruct (decide (q + need <= lim r)) as [|Hl].
  { exists true, r. split; [by apply Henough|]. split; [done|]. split; [reflexivity|done]. }
  destruct (Hmore (S (S fuel)) r Ht) as (r1 & Ht1 & Hc1 & Hl1 & ->); [lia|].
  pose proof (tl_range _ _ _ _ Ht). pose proof (tl_range _ _ _ _ Ht1).
  destruct (Z.eqb_spec (lim r) (lim r1)); [exists false, r1; split; [done|split; [done|split; [done|lia]]]|].
  destruct (decide (q + need <= lim r1)); [exists true, r1; by rewrite Henough|].
  destruct (Hmore (S fuel) r1 Ht1) as (r2 & Ht2 & Hc2 & Hl2 & ->); [lia|].
  destruct (Z.eqb_spec (lim r1) (lim r2)); [|lia].
  exists false, r2. split; [done|]. split; [done|]. split; [by etrans|]. lia.
Qed.

Lemma fill_short C pos B r fuel need ds r1 :
  tailing C pos B r -> lim r < pos + need -> TryReadMore ds r = Ret (true, ds) r1 ->
  fill (S fuel) need ds r =
    if lim r - pos =? zlen (buffer_ (f_base r1)) then Ret (false, ds) r1 else fill fuel need ds r1.
Proof.
  intros Ht Hl Hm. cbn [fill]. rewrite bind_gets. unfold base. rewrite (tail_size _ _ _ _ Ht).
  destruct (Z.leb_spec need (lim r - pos)); [lia|]. erewrite bind_Ret by exact Hm. cbn [negb].
  rewrite bind_gets. unfold base. by destruct (_ =? _).
Qed.

(** The loop for the header, from the block before too. *)
Lemma fill_header C pos B q b0 r fuel ds :
  tailing C pos B r -> close_to pos B q b0 -> q + kHeaderSize <= b0 + kBlockSize ->
  exists go r', fill (S (S (S (S (S fuel))))) kHeaderSize ds r = Ret (go, ds) r' /\ calm r r' /\
    if (go : bool) then tailing C q b0 r' /\ q + kHeaderSize <= lim r'
    else zlen C < q + kHeaderSize /\ exists pos' B', tailing C pos' B' r' /\ close_to pos' B' q b0.
Proof.
  intros Ht [[-> ->]|(-> & HB & Hgap & Hpos)] Hfit.
  { destruct (fill_here C q b0 r (S (S fuel)) kHeaderSize ds Ht) as (go & r' & Hf & Ht' & Hc & Hgo); [done|done|].
    exists go, r'. split; [done|]. split; [done|]. destruct go; [done|]. split; [done|]. exists q, b0.
    split; [done|by left]. }
  assert (forall fuel r, tailing C pos B r -> lim r = b0 ->
    exists go r', fill (S (S (S (S fuel)))) kHeaderSize ds r = Ret (go, ds) r' /\ calm r r' /\
      if (go : bool) then tailing C b0 b0 r' /\ b0 + kHeaderSize <= lim r'
      else zlen C < b0 + kHeaderSize /\ exists pos' B', tailing C pos' B' r' /\ close_to pos' B' b0 b0) as Hnext.
  { clear r fuel Ht. intros fuel r Ht Hl. destruct (fetch_block C pos B r ds Ht) as (r1 & Hm & Ht1 & Hc1 & Hl1); [lia|].
    rewrite Hl in *. rewrite (fill_short C pos B r _ kHeaderSize ds r1 Ht) by (done || lia).
    rewrite (tail_size _ _ _ _ Ht1), Hl.
    destruct (Z.eqb_spec (b0 - pos) (lim r1 - b0)) as [Heq|_].
    - exists false, r1. split; [done|]. split; [done|]. split; [unfold kBlockSize, kHeaderSize in *; lia|].
      exists b0, b0. split; [done|by left].
    - destruct (fill_here C b0 b0 r1 fuel kHeaderSize ds Ht1) as (go & r' & Hf & Ht' & Hc & Hgo); [done|done|].
      exists go, r'. split; [done|]. split; [by etrans|]. destruct go; [done|]. split; [done|].
      exists b0, b0. split; [done|by left]. }
  destruct (decide (lim r = b0)) as [Hl|Hl]; [by apply Hnext|].
  pose proof (tl_range _ _ _ _ Ht) as Hr.
  destruct (fetch_rest C pos B r ds Ht) as (r1 & Hm & Ht1 & Hc1 & Hl1); [lia|].
  rewrite (fill_short C pos B r _ kHeaderSize ds r1 Ht) by (done || lia). rewrite (tail_size _ _ _ _ Ht1).
  assert (forall r', tailing C pos B r' -> exists pos' B', tailing C pos' B' r' /\ close_to pos' B' b0 b0) as Hback.
  { intros r' Ht'. exists pos, B. split; [done|]. by right. }
  destruct (Z.eqb_spec (lim r - pos) (lim r1 - pos)) as [Heq|Hne].
  { exists false, r1. split; [done|]. split; [done|]. split; [unfold kHeaderSize; lia|by apply Hback]. }
  destruct (decide (lim r1 = b0)) as [Hl2|Hl2].
  { destruct (Hnext fuel r1 Ht1 Hl2) as (go & r' & Hf & Hc & Hgo). exists go, r'. split; [done|].
    split; [by etrans|done]. }
  destruct (fetch_rest C pos B r1 ds Ht1) as (r2 & Hm2 & Ht2 & Hc2 & Hl3); [lia|].
  rewrite (fill_short C pos B r1 _ kHeaderSize ds r2 Ht1) by (done || lia). rewrite (tail_size _ _ _ _ Ht2).
  destruct (Z.eqb_spec (lim r1 - pos) (lim r2 - pos)); [|lia].
  exists false, r2. split; [done|]. split; [by etrans|]. split; [unfold kHeaderSize; lia|by apply Hback].
Qed.

(** ** A fragment *)

Lemma load_store_ok C pos b0 r i n :
  tailing C pos b0 r -> pos < lim r -> 0 <= i -> 0 <= n -> pos + i + n <= lim r ->
  load_store (pos - b0 + i) n r = Ret (sub C (pos + i) n) r.
Proof.
  intros Ht Hp Hi Hn Hl. destruct (tl_pos _ _ _ _ Ht Hp) as [HB _]. destruct Ht.
  unfold load_store. rewrite bind_gets.
  destruct (in_block (backing_store_ r) (pos - b0 + i) n) eqn:E.
  - unfold mret, prog_ret. f_equal.
    rewrite <- (Z.add_0_l (pos - b0 + i)), <- (sub_sub _ 0 (lim r - b0)), tl_store0, sub_sub by lia.
    f_equal. lia.
  - exfalso. apply not_true_iff_false in E. apply E, in_block_spec. unfold zlen in *. lia.
Qed.

Lemma load_header C pos b0 r n :
  tailing C pos b0 r -> pos < lim r -> 0 <= n -> pos + n <= lim r -> load_store (pos - b0) n r = Ret (sub C pos n) r.
Proof.
  intros Ht Hp Hn Hl. pose proof (load_store_ok C pos b0 r 0 n Ht Hp) as Hs. rewrite !Z.add_0_r in Hs. apply Hs; lia.
Qed.

Section Frame.
Context (C L z : bytes) (HL : L = C ++ z).
Context (rc : bool) (ln t q b0 : Z) (p : bytes).
Abbreviation f := (frame rc ln t p).
Context (Ht : 1 <= t <= 8) (Hrc : recyclable t = rc) (Hp : zlen p < 65536).
Context (Hq : 0 <= b0 <= q) (Hfit : q + zlen f <= b0 + kBlockSize).
Context (Hat : q + zlen f <= zlen L) (Hsub : sub L q (zlen f) = f).

Lemma frame_part i n : 0 <= i -> 0 <= n -> i + n <= zlen f -> q + i + n <= zlen C -> sub C (q + i) n = sub f i n.
Proof.
  intros Hi Hn Hf HC. rewrite <- Hsub, sub_sub by lia. subst L. by rewrite sub_grow by lia.
Qed.

Lemma frame_head n : 0 <= n -> n <= zlen f -> q + n <= zlen C -> sub C q n = take (Z.to_nat n) f.
Proof.
  intros Hn Hf HC. pose proof (frame_part 0 n) as Hs. rewrite !Z.add_0_r in Hs. rewrite Hs by lia.
  unfold sub. by rewrite drop_0.
Qed.

Lemma frame_size : zlen f = hsize rc + zlen p /\ 7 <= hsize rc <= 11 /\ 0 <= zlen p.
Proof. split; [apply length_frame|]. split; [apply hsize_range|unfold zlen; lia]. Qed.

Lemma body_ok r fuel ds :
  tailing C q b0 r -> q + hsize rc <= lim r ->
  exists res r', fragment_body (S (S (S fuel))) (q - b0) (hsize rc) t (zlen p) ds r = Ret (res, ds) r' /\ calm r r' /\
    if decide (q + zlen f <= zlen C) then res = Some (t, p) /\ tailing C (q + zlen f) b0 r'
    else res = None /\ tailing C q b0 r'.
Proof.
  intros Htl Hl. destruct frame_size as (Hf & Hh & Hp0). unfold fragment_body.
  destruct (fill_here C q b0 r fuel (hsize rc + zlen p) ds Htl) as (go & r1 & Hfill & Ht1 & Hc & Hgo); [lia|lia|].
  erewrite bind_Ret by exact Hfill. cbv beta iota. destruct go; cbn [negb].
  2: { exists None, r1. split; [done|]. split; [done|]. by destruct (decide _); [lia|]. }
  pose proof (tl_range _ _ _ _ Ht1) as Hr1.
  destruct (decide _) as [_|]; [|lia]. destruct (Z.eqb_spec t kZeroType); [unfold kZeroType in *; lia|]. cbn [andb].
  rewrite bind_gets.
  erewrite (bind_Ret _ _ r1 true r1); cycle 1.
  { destruct (base checksum_ r1); [|done].
    erewrite bind_Ret by (apply (load_header C); [done|lia..]).
    erewrite bind_Ret by (apply (load_store_ok C); [done|lia..]).
    rewrite frame_part, frame_head by lia. unfold mret, prog_ret. f_equal. apply Z.eqb_eq.
    rewrite <- (app_nil_r f), frame_checked, take_crc by lia. by rewrite frame_crc. }
  rewrite bind_gets. change (base buffer_ r1) with (buffer_ (f_base r1)). cbn [negb]. rewrite (tl_buffer _ _ _ _ Ht1), drop_sub by lia.
  erewrite bind_Ret by reflexivity. rewrite bind_gets. erewrite bind_Ret by reflexivity.
  set (r2 := set_buffer_at _ _).
  assert (load_store (q - b0 + hsize rc) (zlen p) r2 = Ret p r2) as Hload.
  { assert (load_store (q - b0 + hsize rc) (zlen p) r1 = Ret p r1) as Hl1.
    { rewrite (load_store_ok C) by (done || lia). rewrite frame_part by lia.
      by rewrite <- (app_nil_r f), frame_payload. }
    unfold load_store in *. rewrite bind_gets in *. change (backing_store_ r2) with (backing_store_ r1).
    destruct (in_block _ _ _); [|done]. by injection Hl1 as ->. }
  erewrite bind_Ret by exact Hload. exists (Some (t, p)), r2. split; [done|]. split; [done|]. split; [done|].
  rewrite Hf. assert (lim r2 = lim r1) as Hlim by done. destruct (tl_pos _ _ _ _ Ht1) as [_ Hba]; [lia|]. destruct Ht1.
  split; rewrite ?Hlim; unfold r2; fr; try done; try lia.
  f_equal. lia.
Qed.

(** The fragment at [q] is read when all of it is there, and otherwise waited
    for. *)
Definition frame_read (r : FR) (res : option (Z * bytes)) (r' : FR) : Prop :=
  calm r r' /\
  if decide (q + zlen f <= zlen C) then res = Some (t, p) /\ tailing C (q + zlen f) b0 r'
  else res = None /\ exists pos' B', tailing C pos' B' r' /\ close_to pos' B' q b0.

Lemma frame_wait r r' : calm r r' -> tailing C q b0 r' -> zlen C < q + zlen f -> frame_read r None r'.
Proof.
  intros Hc Htl Hs. split; [done|]. destruct (decide _); [lia|]. split; [done|]. exists q, b0. split; [done|by left].
Qed.

Lemma frame_body_read r r1 fuel ds :
  calm r r1 -> tailing C q b0 r1 -> q + hsize rc <= lim r1 ->
  exists res r', fragment_body (S (S (S fuel))) (q - b0) (hsize rc) t (zlen p) ds r1 = Ret (res, ds) r' /\ frame_read r res r'.
Proof.
  intros Hc Htl Hl. destruct (body_ok r1 fuel ds Htl Hl) as (res & r' & Hb & Hc' & Hres). exists res, r'.
  split; [done|]. split; [by etrans|]. destruct (decide _); [done|]. destruct Hres as [-> Ht'].
  split; [done|]. exists q, b0. split; [done|by left].
Qed.

(** The log number of a recyclable header. *)
Lemma recyclable_ok r r1 fuel ds :
  calm r r1 -> tailing C q b0 r1 -> q + 7 <= lim r1 -> rc = true -> r_log_number (f_base r) = u32 ln ->
  exists res r', (
      o ← gets (base end_of_buffer_offset_);
      b ← gets (base buffer_);
      when (u64 (o - zlen b) =? 0) (on_base (modify set_recycled));;
      '(go, drop_size) ← fill (S (S (S (S (S fuel))))) kRecyclableHeaderSize ds;
      if negb go then mret (None, drop_size) else
      l ← load_store (q - b0 + 7) 4;
      n ← gets (base r_log_number);
      if negb (DecodeFixed32 true l =? n) then mret (Some (kOldRecord, []), drop_size)
      else fragment_body (S (S (S (S (S fuel))))) (q - b0) kRecyclableHeaderSize t (zlen p) drop_size) r1 = Ret (res, ds) r' /\
    frame_read r res r'.
Proof.
  intros Hc1 Ht1 Hl1 E Hlog. destruct frame_size as (Hf & Hh & Hp0). rewrite !bind_gets.
  set (r2 := if u64 (base end_of_buffer_offset_ r1 - zlen (base buffer_ r1)) =? 0
             then set_base (set_recycled (f_base r1)) r1 else r1).
  erewrite (bind_Ret (when _ _) _ r1 tt r2) by (unfold r2; by destruct (_ =? 0)).
  assert (tailing C q b0 r2 /\ calm r1 r2) as [Ht2 Hc2].
  { unfold r2. destruct (_ =? 0); [|done]. split; [|done]. by destruct Ht1. }
  assert (hsize rc = 11) as Hh11 by (by rewrite E).
  destruct (fill_here C q b0 r2 (S (S fuel)) kRecyclableHeaderSize ds Ht2) as (go & r3 & Hfill & Ht3 & Hc3 & Hgo);
    [done|unfold kRecyclableHeaderSize; lia|].
  erewrite bind_Ret by exact Hfill. cbv beta iota. unfold kRecyclableHeaderSize in Hgo.
  assert (calm r r3) as Hc by (by do 2 (etrans; [eassumption|])).
  destruct go; cbn [negb]; [|exists None, r3; split; [done|]; apply frame_wait; [done|done|lia]].
  pose proof (tl_range _ _ _ _ Ht3) as Hr3.
  erewrite bind_Ret by (apply (load_store_ok C); [done|lia..]). rewrite bind_gets. unfold base.
  replace (r_log_number (f_base r3)) with (u32 ln) by (by destruct Hc as [(_ & _ & _ & ->) _]).
  rewrite frame_part by lia.
  assert (DecodeFixed32 true (sub f 7 4) = u32 ln) as ->.
  { unfold sub. rewrite take_crc by done. pose proof (frame_log rc ln t p [] E) as Hfl. by rewrite app_nil_r in Hfl. }
  rewrite Z.eqb_refl. cbn [negb].
  replace kRecyclableHeaderSize with (hsize rc) by (by rewrite E). apply frame_body_read; [done|done|lia].
Qed.

Lemma tail_frame r fuel ds pos B :
  tailing C pos B r -> close_to pos B q b0 -> (rc = true -> r_log_number (f_base r) = u32 ln) ->
  exists res r', TryReadFragment (S (S (S (S (S fuel))))) ds r = Ret (res, ds) r' /\ frame_read r res r'.
Proof.
  intros Htl Hct Hlog. destruct frame_size as (Hf & Hh & Hp0). unfold TryReadFragment.
  destruct (fill_header C pos B q b0 r fuel ds Htl Hct) as (go & r1 & Hfill & Hc1 & Hgo); [unfold kHeaderSize; lia|].
  erewrite bind_Ret by exact Hfill. cbv beta iota. unfold kHeaderSize in Hgo. destruct go; cbn [negb].
  2: { exists None, r1. split; [done|]. split; [done|]. destruct (decide _); [lia|]. split; [done|]. by destruct Hgo. }
  destruct Hgo as [Ht1 Hl1]. pose proof (tl_range _ _ _ _ Ht1) as Hr1. destruct (tl_pos _ _ _ _ Ht1) as [_ Hba]; [lia|].
  rewrite bind_gets, Hba. erewrite bind_Ret by (apply (load_header C); [done|unfold kHeaderSize; lia..]).
  rewrite frame_head by (unfold kHeaderSize; lia).
  change (Z.to_nat kHeaderSize) with 7%nat. destruct (take_header 7 f (le_n 7)) as [-> ->].
  pose proof (frame_type rc ln t p [] ltac:(lia)) as Hty. pose proof (frame_length rc ln t p [] Hp) as Hlen.
  rewrite app_nil_r in Hty, Hlen. rewrite Hty, Hlen, Hrc.
  destruct (Bool.bool_dec rc true) as [E|E%not_true_is_false].
  - match goal with |- context [if rc then ?x else ?y] => replace (if rc then x else y) with x by (by rewrite E) end.
    exact (recyclable_ok r r1 fuel ds Hc1 Ht1 Hl1 E (Hlog E)).
  - match goal with |- context [if rc then ?x else ?y] => replace (if rc then x else y) with y by (by rewrite E) end.
    replace kHeaderSize with (hsize rc) by (by rewrite E).
    apply frame_body_read; [done|done|]. rewrite E. unfold hsize, kHeaderSize. lia.
Qed.
End Frame.

(** ** Zeroes at the end of a block *)

Lemma replicate_header n : (7 <= n)%nat ->
  header_type (replicate n Byte.x00) = 0 /\ header_length (replicate n Byte.x00) = 0.
Proof. intros Hn. do 7 (destruct n as [|n]; [lia|]). done. Qed.

(** Padding of at least the size of a header is read as an empty record. *)
Lemma tail_zeroes C z pos B r fuel ds n :
  tailing C pos B r -> 0 <= B <= pos -> pos + kHeaderSize <= B + kBlockSize ->
  sub (C ++ z) pos (Z.of_nat n) = replicate n Byte.x00 -> kHeaderSize <= Z.of_nat n ->
  exists r', calm r r' /\
    ((TryReadFragment (S (S (S fuel))) ds r = Ret (Some (kBadRecord, []), ds) r' /\
      pos + kHeaderSize <= lim r' /\ tailing C (lim r') B r') \/
     TryReadFragment (S (S (S fuel))) ds r = Ret (None, ds) r' /\ tailing C pos B r' /\ zlen C < pos + kHeaderSize).
Proof.
  intros Ht HB Hfit Hz Hn. unfold TryReadFragment.
  destruct (fill_here C pos B r fuel kHeaderSize ds Ht) as (go & r1 & Hfill & Ht1 & Hc1 & Hgo); [done|done|].
  erewrite bind_Ret by exact Hfill. cbv beta iota. destruct go; cbn [negb]; [|exists r1; auto].
  pose proof (tl_range _ _ _ _ Ht1) as Hr1. unfold kHeaderSize in *. destruct (tl_pos _ _ _ _ Ht1) as [_ Hba]; [lia|].
  rewrite bind_gets, Hba. erewrite bind_Ret by (apply (load_header C); [done|lia..]).
  assert (sub C pos 7 = replicate 7 Byte.x00) as H7.
  { rewrite <- (sub_grow C z) by lia. rewrite <- (Z.add_0_r pos), <- (sub_sub _ _ (Z.of_nat n)), Hz by lia.
    unfold sub. rewrite drop_0, take_replicate. f_equal. lia. }
  change (4 + 2 + 1) with 7. rewrite H7. destruct (replicate_header 7) as [-> ->]; [done|].
  change (recyclable 0) with false. cbv iota. unfold fragment_body.
  destruct (fill_here C pos B r1 fuel (7 + 0) ds Ht1) as (go & r2 & Hfill2 & Ht2 & Hc2 & Hgo2); [done|lia|].
  erewrite bind_Ret by exact Hfill2. destruct go; cbn [negb]; [|lia].
  change ((0 =? kZeroType) && (0 =? 0)) with true. cbv iota. eexists. split; [|left; split; [reflexivity|]].
  - etrans; [exact Hc1|]. etrans; [exact Hc2|]. done.
  - split; [change (lim _) with (lim r2); lia|]. pose proof (tl_range _ _ _ _ Ht2) as Hr2. destruct Ht2.
    split; try done; fr; change (lim (set_base (set_buffer [] (f_base r2)) r2)) with (lim r2); [lia|lia|].
    by rewrite Z.sub_diag.
Qed.

(** ** Records *)

Section Follow.
Context (L : bytes) (rc : bool) (ln : Z).

Definition collecting (r : FR) (inside : bool) (x : bytes) : Prop :=
  in_fragmented_record_ r = inside /\ fragments_ r = x /\ (rc = true -> r_log_number (f_base r) = u32 ln).

Lemma collecting_calm r r' inside x : calm r r' -> collecting r inside x -> collecting r' inside x.
Proof. unfold collecting. intros [(_ & _ & _ & ->) [-> ->]]. done. Qed.

(** The reader is inside the record [x], which ends at byte [e] of the log, at
    offset [oe] of a block. *)
Definition pending (C : bytes) (x : bytes) (e oe : Z) (r : FR) : Prop :=
  exists start o p out scratch pos B q,
    fragments rc ln start o p out oe /\ x = scratch ++ p /\ e = q + zlen out /\
    sub L q (zlen out) = out /\ tailing C pos B r /\ close_to pos B q (q - o) /\ 0 <= q - o /\
    collecting r (negb start) scratch /\ (start = true -> scratch = []).

(** The reader is before the padding in front of the record [x]. *)
Definition before_padding (C : bytes) (x : bytes) (e oe : Z) (r : FR) : Prop :=
  exists out pos B q, fragments rc ln true 0 x out oe /\ e = q + zlen out /\ sub L q (zlen out) = out /\
    tailing C pos B r /\ 0 <= B <= pos /\ B + kBlockSize = q /\ kHeaderSize <= q - pos <= 10 /\
    sub L pos (q - pos) = replicate (Z.to_nat (q - pos)) Byte.x00 /\ collecting r false [].

(** Nothing was reported. *)
Definition silent (r r' : FR) : Prop := quiet (f_base r) (f_base r').

#[local] Instance silent_preorder : PreOrder silent.
Proof. split; [done|]. intros x y z Hxy Hyz. unfold silent in *. by etrans. Qed.

(** A fragment that has not arrived ends the call. *)
Lemma tail_none fuel phys pro ds (r r' : FR) :
  TryReadFragment fuel ds r = Ret (None, ds) r' -> tail_loop fuel phys pro ds r = Ret None r'.
Proof.
  destruct fuel as [|fuel]; [done|]. remember (S fuel) as fuel1 eqn:Ef. intros Hread. rewrite Ef. cbn [tail_loop].
  rewrite <- Ef. by erewrite bind_Ret by exact Hread.
Qed.

Lemma try_none fuel ds (r r' : FR) :
  fill fuel kHeaderSize ds r = Ret (false, ds) r' -> TryReadFragment fuel ds r = Ret (None, ds) r'.
Proof. intros Hfill. unfold TryReadFragment. by erewrite bind_Ret by exact Hfill. Qed.

(** A turn of the loop for a fragment of this log. *)
Lemma tail_turn fuel phys pro ds start end_ scratch p r r1 :
  TryReadFragment (S fuel) ds r = Ret (Some (fragment_type rc start end_, p), ds) r1 ->
  collecting r1 (negb start) scratch -> (start = true -> scratch = []) ->
  exists pro' r2, silent r1 r2 /\
    (if (end_ : bool) then collecting r2 false [] else collecting r2 true (scratch ++ p)) /\
    (forall C pos B, tailing C pos B r1 -> tailing C pos B r2) /\
    tail_loop (S fuel) phys pro ds r =
      if end_ then Ret (Some (scratch ++ p)) r2 else tail_loop fuel phys pro' ds r2.
Proof.
  intros Hread (Hin & Hfr & Hlog) Hs. unfold silent, collecting.
  assert (forall pr x inside C pos B, tailing C pos B r1 ->
    tailing C pos B (set_fragments x inside (set_base (set_last_record_offset pr (f_base r1)) r1))) as Hset
    by (intros pr x inside C pos B []; done).
  assert (forall x inside C pos B, tailing C pos B r1 -> tailing C pos B (set_fragments x inside r1)) as Hset2
    by (intros x inside C pos B []; done).
  remember (S fuel) as fuel1 eqn:Ef.
  exists (if start then phys else pro).
  destruct rc, start, end_; try rewrite (Hs eq_refl) in *.
  all: eexists; split; [|split; [|split]].
  all: try (rewrite Ef; cbn [tail_loop]; rewrite <- Ef; erewrite bind_Ret by exact Hread; cbv beta iota;
    rewrite !bind_gets, Hin, Hfr; reflexivity).
  all: try done; eauto.
Qed.

Lemma tail_fragments C z start o p out oe : L = C ++ z -> fragments rc ln start o p out oe ->
  forall fuel phys pro ds scratch pos B q r,
  tailing C pos B r -> close_to pos B q (q - o) -> 0 <= q - o -> collecting r (negb start) scratch ->
  (start = true -> scratch = []) -> q + zlen out <= zlen L -> sub L q (zlen out) = out -> (length out + 5 <= fuel)%nat ->
  exists res r', tail_loop fuel phys pro ds r = Ret res r' /\ silent r r' /\
    if decide (q + zlen out <= zlen C)
    then res = Some (scratch ++ p) /\ tailing C (q + zlen out) (q + zlen out - oe) r' /\ collecting r' false []
    else res = None /\ pending C (scratch ++ p) (q + zlen out) oe r'.
Proof.
  intros HL. pose proof (hsize_range rc) as Hh.
  induction 1 as [start o p Ho Hl|start o p1 p2 out oe Ho Hl Hne Hfr IH];
    intros fuel phys pro ds scratch pos B q r Ht Hct Hq Hcol Hs Hle Hsub Hfuel.
  - destruct (fragment_type_ok rc start true) as [Hty Hrec]. set (f := frame _ _ _ _) in *.
    pose proof (length_frame rc ln (fragment_type rc start true) p) as Hf. fold f in Hf.
    destruct fuel as [|[|[|[|[|fuel]]]]]; try lia.
    destruct (tail_frame C L z HL rc ln (fragment_type rc start true) q (q - o) p Hty Hrec) with (r := r) (fuel := fuel) (ds := ds) (pos := pos) (B := B)
      as (res & r1 & Hread & Hc & Hres); fold f; try done; try (unfold kBlockSize in *; lia).
    { by destruct Hcol as (_ & _ & ?). }
    fold f in Hres. destruct (decide _) as [HC|HC].
    + destruct Hres as [-> Ht1].
      destruct (tail_turn _ phys pro ds start true scratch p r r1 Hread) as (pro' & r2 & Hq2 & Hc2 & Ht2 & ->);
        [by eapply collecting_calm|done|].
      exists (Some (scratch ++ p)), r2. split; [done|]. split; [etrans; [by apply Hc|done]|]. split; [done|].
      split; [|done]. apply Ht2. by replace (q + zlen f - (o + hsize rc + zlen p)) with (q - o) by lia.
    + destruct Hres as (-> & pos' & B' & Ht1 & Hct1). exists None, r1.
      split; [by apply tail_none|]. split; [by destruct Hc|]. split; [done|].
      exists start, o, p, f, scratch, pos', B', q. split; [by constructor|]. do 6 (split; [done|]).
      split; [by eapply collecting_calm|done].
  - destruct (fragment_type_ok rc start false) as [Hty Hrec]. set (f := frame _ _ _ _) in *.
    pose proof (length_frame rc ln (fragment_type rc start false) p1) as Hf. fold f in Hf.
    assert (zlen (f ++ out) = zlen f + zlen out) as Happ by (unfold zlen; rewrite length_app; lia).
    pose proof Hsub as Hsub0. rewrite Happ in Hle, Hsub. rewrite sub_app in Hsub by (unfold zlen in *; lia).
    apply app_inj_1 in Hsub as [Hs1 Hs2].
    2: { rewrite length_sub; [unfold zlen; lia|]. apply in_block_spec. unfold zlen in *. lia. }
    rewrite length_app in Hfuel. destruct fuel as [|[|[|[|[|fuel]]]]]; try lia.
    destruct (tail_frame C L z HL rc ln (fragment_type rc start false) q (q - o) p1 Hty Hrec) with (r := r) (fuel := fuel) (ds := ds) (pos := pos) (B := B)
      as (res & r1 & Hread & Hc & Hres); fold f; try done; try (unfold kBlockSize, zlen in *; lia).
    { by destruct Hcol as (_ & _ & ?). }
    fold f in Hres. destruct (decide (q + zlen f <= zlen C)) as [HC|HC].
    + destruct Hres as [-> Ht1].
      destruct (tail_turn _ phys pro ds start false scratch p1 r r1 Hread) as (pro' & r2 & Hq2 & Hc2 & Ht2 & ->);
        [by eapply collecting_calm|done|].
      destruct (IH (S (S (S (S fuel)))) phys pro' ds (scratch ++ p1) (q + zlen f) (q - o) (q + zlen f) r2)
        as (res & r' & Hloop & Hq' & Hres); try done; try (unfold zlen in *; lia).
      { by apply Ht2. }
      { right. unfold kHeaderSize. lia. }
      exists res, r'. split; [done|]. split; [etrans; [by apply Hc|by etrans]|].
      by rewrite Happ, Z.add_assoc, (app_assoc scratch).
    + destruct Hres as (-> & pos' & B' & Ht1 & Hct1). exists None, r1.
      split; [by apply tail_none|]. split; [by destruct Hc|].
      destruct (decide _); [unfold zlen in *; lia|]. split; [done|].
      exists start, o, (p1 ++ p2), (f ++ out), scratch, pos', B', q. split; [by constructor|]. do 6 (split; [done|]).
      split; [by eapply collecting_calm|done].
Qed.

Lemma fragments_start start o p out oe : fragments rc ln start o p out oe ->
  forall q, 0 <= q - o -> 0 <= o /\ 0 <= q + zlen out - oe /\ 0 < oe <= kBlockSize.
Proof.
  pose proof (hsize_range rc) as Hh.
  induction 1 as [start o p Ho Hl|start o p1 p2 out oe Ho Hl Hne Hfr IH]; intros q Hq.
  - rewrite length_frame. unfold zlen in *. lia.
  - set (f := frame _ _ _ _) in *. destruct (IH (q + zlen f)) as (_ & Hb & Hoe); [unfold zlen in *; lia|].
    unfold zlen in *. rewrite length_app. lia.
Qed.

(** What a call does in the record [x]. *)
Definition delivered (C : bytes) (x : bytes) (e oe : Z) (again : FR -> Prop) (res : option bytes) (r' : FR) : Prop :=
  if decide (e <= zlen C) then res = Some x /\ tailing C e (e - oe) r' /\ collecting r' false []
  else res = None /\ again r'.

Lemma tail_pending C z x e oe r fuel phys pro ds :
  L = C ++ z -> pending C x e oe r -> e <= zlen L -> (length L + 5 <= fuel)%nat ->
  exists res r', tail_loop fuel phys pro ds r = Ret res r' /\ silent r r' /\ delivered C x e oe (pending C x e oe) res r'.
Proof.
  intros HL (start & o & p & out & scratch & pos & B & q & Hfr & -> & -> & Hsub & Ht & Hct & Hq & Hcol & Hs) He Hfuel.
  destruct (fragments_start _ _ _ _ _ Hfr q Hq) as (Ho & _).
  apply (tail_fragments C z start o p out oe HL Hfr fuel phys pro ds scratch pos B q r); try done.
  unfold zlen in *. lia.
Qed.

Definition awaiting (C : bytes) (x : bytes) (e oe : Z) (r : FR) : Prop := pending C x e oe r \/ before_padding C x e oe r.

Lemma tail_awaiting C z x e oe r fuel phys pro ds :
  L = C ++ z -> awaiting C x e oe r -> e <= zlen L -> (length L + 6 <= fuel)%nat ->
  exists res r', tail_loop fuel phys pro ds r = Ret res r' /\ silent r r' /\ delivered C x e oe (awaiting C x e oe) res r'.
Proof.
  intros HL [Hp|Hp] He Hfuel.
  { destruct (tail_pending C z x e oe r fuel phys pro ds HL Hp He) as (res & r' & Hl & Hq & Hd); [lia|].
    exists res, r'. split; [done|]. split; [done|]. unfold delivered, awaiting in *. destruct (decide _); [done|].
    destruct Hd. auto. }
  destruct Hp as (out & pos & B & q & Hfr & -> & Hsub & Ht & HB & HBq & Hgap & Hz & Hcol).
  destruct (fragments_start _ _ _ _ _ Hfr q ltac:(unfold kBlockSize in *; lia)) as (_ & Hb & Hoe).
  destruct fuel as [|[|[|[|fuel]]]]; try lia.
  destruct (tail_zeroes C z pos B r (S fuel) ds (Z.to_nat (q - pos)) Ht HB) as (r1 & Hc1 & [(Hread & Hl1 & Ht1)|(Hread & Ht1 & Hs)]);
    try (unfold kHeaderSize in *; lia).
  { by rewrite <- HL, Z2Nat.id by (unfold kHeaderSize in *; lia). }
  - destruct (tail_pending C z x (q + zlen out) oe r1 (S (S (S fuel))) phys pro ds HL) as (res & r' & Hl & Hq & Hd); [|done|lia|].
    { exists true, 0, x, out, [], (lim r1), B, q. pose proof (tl_range _ _ _ _ Ht1) as Hr1. split; [done|]. split; [done|]. split; [done|].
      split; [done|]. split; [done|]. split; [right; unfold kHeaderSize, kBlockSize in *; lia|].
      split; [unfold kBlockSize in *; lia|]. split; [by eapply collecting_calm|done]. }
    exists res, r'. split; [|split; [etrans; [by apply Hc1|done]|]].
    + remember (S (S (S fuel))) as fuel1 eqn:Ef. cbn [tail_loop]. erewrite bind_Ret by exact Hread.
      cbv beta iota. rewrite !bind_gets. codes. unfold frag_abandon.
      destruct (collecting_calm r r1 false [] Hc1 Hcol) as (Hin & _ & _).
      erewrite bind_Ret; [exact Hl|]. rewrite !bind_gets, Hin. done.
    + unfold delivered, awaiting in *. destruct (decide _); [done|]. destruct Hd. auto.
  - exists None, r1. split; [by apply tail_none|]. split; [by destruct Hc1|].
    unfold delivered. destruct (decide _); [unfold zlen, kHeaderSize in *; lia|]. split; [done|]. right.
    exists out, pos, B, q. do 8 (split; [done|]). by eapply collecting_calm.
Qed.

(** The record after one that was delivered. *)
Lemma next_awaiting C e o x out o1 r :
  tailing C e (e - o) r -> collecting r false [] -> 0 <= e - o -> 0 < o <= kBlockSize ->
  fragments rc ln true (padded rc o) x out o1 ->
  sub L e (zlen (padding rc o ++ out)) = padding rc o ++ out -> e + zlen (padding rc o ++ out) <= zlen L ->
  awaiting C x (e + zlen (padding rc o ++ out)) o1 r.
Proof.
  intros Ht Hcol Hb Ho Hfr Hsub Hle. pose proof (tl_range _ _ _ _ Ht) as Hr. pose proof (hsize_range rc) as Hh.
  assert (zlen (padding rc o ++ out) = zlen (padding rc o) + zlen out) as Happ by (unfold zlen; rewrite length_app; lia).
  rewrite Happ in *. rewrite sub_app in Hsub by (unfold zlen in *; lia). apply app_inj_1 in Hsub as [Hs1 Hs2].
  2: { rewrite length_sub; [unfold zlen; lia|]. apply in_block_spec. unfold zlen in *. lia. }
  rewrite Z.add_assoc.
  destruct (decide (kBlockSize - o < hsize rc)) as [Hs|Hs].
  - destruct (padding_zeroes rc o ltac:(lia) Hs) as [Hpad Hpo]. rewrite Hpo in Hfr. rewrite Hpad in *.
    assert (zlen (replicate (Z.to_nat (kBlockSize - o)) Byte.x00) = kBlockSize - o) as Hz
      by (unfold zlen; rewrite length_replicate; lia).
    rewrite Hz in *. destruct (decide (kBlockSize - o < kHeaderSize)) as [H7|H7].
    + left. exists true, 0, x, out, [], e, (e - o), (e + (kBlockSize - o)). do 5 (split; [done|]).
      split; [right; lia|]. split; [lia|]. done.
    + right. exists out, e, (e - o), (e + (kBlockSize - o)). do 4 (split; [done|]).
      replace (e + (kBlockSize - o) - e) with (kBlockSize - o) by lia.
      do 2 (split; [lia|]). split; [lia|]. done.
  - destruct (no_padding rc o ltac:(lia)) as [Hpad Hpo]. rewrite Hpo in Hfr. rewrite Hpad in *. rewrite Z.add_0_r in *.
    left. exists true, o, x, out, [], e, (e - o), e. do 5 (split; [done|]). split; [by left|]. done.
Qed.

(** The records of the log from byte [q], offset [o] of a block, on: each with
    the byte after it. *)
Inductive laid : Z -> Z -> list (bytes * Z) -> Prop :=
| laid_nil q o : zlen L <= q -> laid q o []
| laid_cons q o x out o1 ends :
    fragments rc ln true (padded rc o) x out o1 ->
    sub L q (zlen (padding rc o ++ out)) = padding rc o ++ out ->
    q + zlen (padding rc o ++ out) <= zlen L ->
    laid (q + zlen (padding rc o ++ out)) o1 ends ->
    laid q o ((x, q + zlen (padding rc o ++ out)) :: ends).

(** The reader has delivered all records but those in [ends]. *)
Definition following (C : bytes) (ends : list (bytes * Z)) (r : FR) : Prop :=
  match ends with
  | [] => exists pos B q b0, tailing C pos B r /\ close_to pos B q b0 /\ zlen L <= q /\
            q + kHeaderSize <= b0 + kBlockSize /\ collecting r false []
  | (x, e) :: ends' => exists oe, awaiting C x e oe r /\ e <= zlen L /\ 0 <= e - oe /\ 0 < oe <= kBlockSize /\ laid e oe ends'
  end.

Lemma at_end C e o r : tailing C e (e - o) r -> collecting r false [] -> 0 <= e - o -> 0 < o <= kBlockSize -> zlen L <= e ->
  following C [] r.
Proof.
  intros Ht Hcol Hb Ho He. exists e, (e - o). unfold kHeaderSize.
  destruct (decide (o + 7 <= kBlockSize)).
  - exists e, (e - o). split; [done|]. split; [by left|]. split; [done|]. split; [lia|done].
  - exists (e - o + kBlockSize), (e - o + kBlockSize). split; [done|].
    split; [right; unfold kHeaderSize; lia|]. split; [lia|]. split; [unfold kBlockSize; lia|done].
Qed.

Lemma following_next C e o ends r :
  tailing C e (e - o) r -> collecting r false [] -> 0 <= e - o -> 0 < o <= kBlockSize -> laid e o ends ->
  following C ends r.
Proof.
  intros Ht Hcol Hb Ho Hl. inversion Hl as [|? ? x out o1 ends' Hfr Hsub Hle Hrest]; subst; [by eapply at_end|].
  pose proof (padded_range rc o ltac:(lia)) as Hpad.
  assert (zlen (padding rc o ++ out) = zlen (padding rc o) + zlen out) as Happ by (unfold zlen; rewrite length_app; lia).
  assert (0 <= e + zlen (padding rc o) - padded rc o) as Hb1.
  { unfold padding, padded. destruct (Z.ltb_spec (kBlockSize - o) (hsize rc)); unfold zlen; lia. }
  destruct (fragments_start _ _ _ _ _ Hfr (e + zlen (padding rc o)) Hb1) as (_ & Hb2 & Hoe).
  exists o1. split; [by apply next_awaiting|]. split; [done|]. split; [lia|]. done.
Qed.

(** A call of [ReadRecord]: the next record when all of it has arrived. *)
Lemma follow_call C z ends r fuel :
  L = C ++ z -> following C ends r -> (length L + 6 <= fuel)%nat ->
  exists m r', frag_ReadRecord fuel r = Ret (head ends.*1 ≫= fun x => if (m : bool) then Some x else None) r' /\
    silent r r' /\ following C (if m then tail ends else ends) r' /\
    (m = false -> forall x e, head ends = Some (x, e) -> zlen C < e).
Proof.
  intros HL Hf Hfuel. unfold frag_ReadRecord. rewrite bind_gets. destruct ends as [|[x e] ends].
  - destruct Hf as (pos & B & q & b0 & Ht & Hct & Hq & Hfit & Hcol).
    destruct fuel as [|[|[|[|[|[|fuel]]]]]]; try lia.
    destruct (fill_header C pos B q b0 r (S fuel) 0 Ht Hct Hfit) as (go & r' & Hfill & Hc & Hgo).
    destruct go.
    { destruct Hgo as [Ht' Hl]. pose proof (tl_range _ _ _ _ Ht'). exfalso. subst L.
      unfold zlen, kHeaderSize in *. rewrite length_app in Hq. lia. }
    destruct Hgo as (_ & pos' & B' & Ht' & Hct'). exists false, r'.
    split; [by apply tail_none, try_none|]. split; [by destruct Hc|]. split; [|done].
    exists pos', B', q, b0. do 4 (split; [done|]). by eapply collecting_calm.
  - destruct Hf as (oe & Haw & He & Hb & Hoe & Hl).
    destruct (tail_awaiting C z x e oe r fuel (base LastRecordEnd r) 0 0 HL Haw He Hfuel) as (res & r' & Hloop & Hq & Hd).
    unfold delivered in Hd. destruct (decide (e <= zlen C)) as [HC|HC].
    + destruct Hd as (-> & Ht' & Hcol). exists true, r'. split; [done|]. split; [done|]. split; [|done].
      by apply (following_next C e oe).
    + destruct Hd as [-> Haw']. exists false, r'. split; [done|]. split; [done|]. split; [by exists oe|].
      intros _ x' e' [= <- <-]. lia.
Qed.

(** The file grows between two calls. *)
Lemma following_grow C more ends r f :
  following C ends r -> source_ok f -> rest f = rest (r_file (f_base r)) ++ more -> zlen (C ++ more) < 2 ^ 63 ->
  following (C ++ more) ends (new_file f r).
Proof.
  intros Hf Hok Hrest Hs.
  assert (forall pos B, tailing C pos B r -> tailing (C ++ more) pos B (new_file f r)) as Hg
    by (intros; by apply tailing_grow).
  destruct ends as [|[x e] ends].
  - destruct Hf as (pos & B & q & b0 & Ht & Hf). exists pos, B, q, b0. auto.
  - destruct Hf as (oe & Haw & Hf). exists oe. split; [|done]. destruct Haw as [Hp|Hp].
    + destruct Hp as (start & o & p & out & scratch & pos & B & q & H1 & H2 & H3 & H4 & H5 & Hp). left.
      exists start, o, p, out, scratch, pos, B, q. auto 10.
    + destruct Hp as (out & pos & B & q & H1 & H2 & H3 & H4 & Hp). right. exists out, pos, B, q. auto 10.
Qed.

Lemma following_file C ends r : following C ends r -> source_ok (r_file (f_base r)).
Proof.
  destruct ends as [|[x e] ends].
  - intros (pos & B & q & b0 & Ht & _). apply (tl_file _ _ _ _ Ht).
  - intros (oe & [Hp|Hp] & _).
    + destruct Hp as (start & o & p & out & scratch & pos & B & q & _ & _ & _ & _ & Ht & _). apply (tl_file _ _ _ _ Ht).
    + destruct Hp as (out & pos & B & q & _ & _ & _ & Ht & _). apply (tl_file _ _ _ _ Ht).
Qed.

(** A new reader. *)
Lemma new_following f rep ck lr fresh ends :
  source_ok f -> zlen (rest f) < 2 ^ 63 -> zlen fresh = kBlockSize -> (rc = true -> lr = u32 ln) -> laid 0 0 ends ->
  following (rest f) ends (new_FragmentBufferedReader fresh f rep ck lr).
Proof.
  intros Hf Hs Hfr Hlog Hl. pose proof (new_tailing f rep ck lr fresh Hf Hs Hfr) as Ht.
  assert (close_to 0 (- kBlockSize) 0 0) as Hct by (right; unfold kHeaderSize; lia).
  inversion Hl as [|? ? x out o1 ends' Hfrag Hsub Hle Hrest]; subst.
  - exists 0, (- kBlockSize), 0, 0. done.
  - replace (padding rc 0) with (@nil Byte.byte) in * by (by destruct rc). cbn [app] in *.
    replace (padded rc 0) with 0 in Hfrag by (by destruct rc).
    destruct (fragments_start _ _ _ _ _ Hfrag 0 ltac:(lia)) as (_ & Hb & Ho). exists o1.
    split; [|done]. left. exists true, 0, x, out, [], 0, (- kBlockSize), 0. done.
Qed.
End Follow.
End Tail.
