(* ===== verification/LogTailThms.v ===== *)
(** What the reader of a growing log promises to its client: in whatever pieces
    the file grows and whenever the client asks, the records come in order, each
    as soon as all of it is there. *)
From S2P Require Import Prelude Bits Coding Crc32c Crc32cSpec IoStatus LogWriter LogReader LogSpec LogReadSpec LogSafe LogThms.
From S2P Require Import LogTail LogTailSpec.
From stdpp Require Import base numbers list strings.
From Stdlib Require Import ZArith Lia.
Local Open Scope Z_scope.

(** A file that another process appends to. *)
Class GrowingFile (F : Type) `{FileSourceSpec F} := {
  grow : bytes -> F -> F;
  grow_ok c f : source_ok f -> source_ok (grow c f);
  grow_rest c f : source_ok f -> rest (grow c f) = rest f ++ c }.

(** The file grows, or the client asks for a record. *)
Inductive event := Grow (c : bytes) | Call.

Definition grown (es : list event) : bytes :=
  concat ((fun e => match e with Grow c => c | Call => [] end) <$> es).

Lemma grown_app es1 es2 : grown (es1 ++ es2) = grown es1 ++ grown es2.
Proof. unfold grown. by rewrite fmap_app, concat_app. Qed.

Section Run.
Context {F : Type} {HS : FileSource F} {HF : FileSourceSpec F} {HG : GrowingFile F}.
Abbreviation FR := (FragmentBufferedReader F).

(** The records delivered in a run; each call has [fuel]. *)
Fixpoint run (fuel : nat) (es : list event) : prog FR (list bytes) :=
  match es with
  | [] => mret []
  | Grow c :: es' =>
    modify (fun r => new_file (grow c (r_file (f_base r))) r);;
    run fuel es'
  | Call :: es' =>
    res ← frag_ReadRecord fuel;
    xs ← run fuel es';
    mret (from_option (fun x => [x]) [] res ++ xs)
  end.

Lemma run_app fuel es1 es2 xs ys r r1 r2 :
  run fuel es1 r = Ret xs r1 -> run fuel es2 r1 = Ret ys r2 -> run fuel (es1 ++ es2) r = Ret (xs ++ ys) r2.
Proof.
  intros H1 H2. revert r xs H1. induction es1 as [|[c|] es1 IH]; intros r xs H1.
  - by injection H1 as <- <-.
  - cbn [app run] in *. erewrite bind_Ret in H1 |- * by reflexivity. by apply IH.
  - cbn [app run] in *. apply bind_Ret_inv in H1 as (res & r' & Hr & H1). apply bind_Ret_inv in H1 as (zs & r'' & Hz & H1).
    injection H1 as <- <-. erewrite bind_Ret by exact Hr. erewrite bind_Ret by (by apply IH). by rewrite <- app_assoc.
Qed.

Section Log.
Context (L : bytes) (rc : bool) (ln : Z).

(** The ends of the records of a layout. *)
Lemma records_laid o rs out o2 : records rc ln o rs out o2 -> forall q ends,
  q + zlen out <= zlen L -> 0 <= q -> sub L q (zlen out) = out -> laid L rc ln (q + zlen out) o2 ends ->
  exists ends1, laid L rc ln q o (ends1 ++ ends) /\ ends1.*1 = rs /\ Forall (fun x : bytes * Z => x.2 <= q + zlen out) ends1.
Proof.
  induction 1 as [o|o x rs out o1 outs o2 Hfr Hrs IH]; intros q ends Hle Hq Hsub Hl.
  { exists []. rewrite Z.add_0_r in Hl. done. }
  rewrite app_assoc in *. set (a := padding rc o ++ out) in *.
  assert (zlen (a ++ outs) = zlen a + zlen outs) as Ha by (unfold zlen; rewrite length_app; lia). rewrite Ha in *.
  rewrite sub_app in Hsub by (unfold zlen in *; lia). apply app_inj_1 in Hsub as [Hs1 Hs2].
  2: { rewrite length_sub; [unfold zlen; lia|]. apply in_block_spec. unfold zlen in *. lia. }
  destruct (IH (q + zlen a) ends) as (ends1 & Hl1 & <- & Hall); [unfold zlen in *; lia..|done|by rewrite <- Z.add_assoc|].
  exists ((x, q + zlen a) :: ends1). split; [|split; [done|]].
  - cbn [app]. apply (laid_cons _ _ _ _ _ _ _ o1); [done|done|fold a; unfold zlen in *; lia|done].
  - constructor; [cbn; unfold zlen; lia|]. by rewrite Z.add_assoc.
Qed.

Context (HL : zlen L < 2 ^ 63) (fuel : nat) (Hfuel : (length L + 6 <= fuel)%nat).
Abbreviation following := (following L rc ln).

Lemma run_follows es : forall C z ends r,
  L = C ++ grown es ++ z -> following C ends r ->
  exists m r', run fuel es r = Ret (take m ends).*1 r' /\ silent r r' /\ following (C ++ grown es) (drop m ends) r'.
Proof.
  induction es as [|[c|] es IH]; intros C z ends r HLe Hf.
  - exists O, r. rewrite app_nil_r. split; [done|]. split; [done|]. done.
  - assert (grown (Grow c :: es) = c ++ grown es) as Hg by done. rewrite Hg in *.
    pose proof (following_file L rc ln C ends r Hf) as Hok.
    destruct (IH (C ++ c) z ends (new_file (grow c (r_file (f_base r))) r)) as (m & r' & Hr & Hs & Hf').
    { by rewrite HLe, <- !app_assoc. }
    { apply following_grow; [done|by apply grow_ok|by apply grow_rest|].
      subst L. unfold zlen in *. rewrite !length_app in *. lia. }
    exists m, r'. split; [|split; [done|by rewrite app_assoc]]. cbn [run]. by erewrite bind_Ret by reflexivity.
  - change (grown (Call :: es)) with (grown es) in *.
    destruct (follow_call L rc ln C _ ends r fuel HLe Hf Hfuel) as (b & r1 & H1 & Hs1 & Hf1 & _).
    destruct (IH C z _ r1 HLe Hf1) as (m & r' & Hr & Hs & Hf').
    exists (if b && bool_decide (ends <> []) then S m else m), r'.
    cbn [run]. erewrite bind_Ret by exact H1. erewrite bind_Ret by exact Hr.
    split; [|split; [unfold silent in *; by etrans|]]; destruct ends as [|[x e] ends]; destruct b; cbn in *; try done.
    all: by rewrite ?take_nil, ?drop_nil in *.
Qed.

(** Enough calls deliver all that has arrived. *)
Lemma calls_deliver n : forall C z done_ ends r,
  L = C ++ z -> following C (done_ ++ ends) r -> Forall (fun x : bytes * Z => x.2 <= zlen C) done_ -> (length done_ <= n)%nat ->
  exists m r', run fuel (replicate n Call) r = Ret (done_ ++ take m ends).*1 r' /\ silent r r'.
Proof.
  induction n as [|n IH]; intros C z done_ ends r HLe Hf Hd Hn.
  - destruct done_; [|cbn in Hn; lia]. by exists O, r.
  - destruct (follow_call L rc ln C _ _ r fuel HLe Hf Hfuel) as (b & r1 & H1 & Hs1 & Hf1 & Hlate).
    cbn [replicate run]. destruct done_ as [|[x e] done_].
    + destruct (IH C z [] (if b then tail ends else ends) r1) as (m & r' & Hr & Hs); [done|by destruct b|done|cbn; lia|].
      erewrite bind_Ret by exact H1. erewrite bind_Ret by exact Hr.
      exists (if b && bool_decide (ends <> []) then S m else m), r'. split; [|unfold silent in *; by etrans].
      destruct ends as [|[x e] ends], b; cbn; rewrite ?take_nil; done.
    + apply Forall_cons in Hd as [He Hd]. cbn in He, Hn.
      destruct b; [|specialize (Hlate eq_refl x e eq_refl); lia].
      destruct (IH C z done_ ends r1) as (m & r' & Hr & Hs); [done|done|done|lia|].
      exists m, r'. erewrite bind_Ret by exact H1. erewrite bind_Ret by exact Hr. split; [done|unfold silent in *; by etrans].
Qed.
End Log.

(** Delivery that stops in the middle and goes on. *)
Lemma resumed {A} (xs ys : list A) m k : exists j,
  take m (xs ++ ys) ++ drop m xs ++ take k (drop (m - length xs) ys) = xs ++ take j ys.
Proof.
  rewrite take_app. destruct (decide (m <= length xs)%nat) as [Hm|Hm].
  - exists k. replace (m - length xs)%nat with O by lia. by rewrite take_0, drop_0, app_nil_r, app_assoc, take_drop.
  - exists (m - length xs + k)%nat. rewrite (take_ge xs), (drop_ge xs) by lia. cbn [app].
    by rewrite <- app_assoc, take_take_drop.
Qed.

Context {W : Type} `{FileDest W} {HW : FileDestSpec W}.

(** C12. The reader of a growing log delivers.  [rs1] and then [rs2] were
    written; the file shows the bytes to the reader in any pieces, with calls of
    the client in between in any number and at any time, so that a call can find
    a header, a payload, the padding of a block or a fragmented record cut in
    two.  Once all bytes of the first records are there, as many calls as there
    are such records suffice for the client to have all of [rs1] and the first
    few of [rs2]: nothing is lost, repeated or reordered, every call returns, and
    no corruption is reported. *)
Theorem tail_delivers d ln recycle manual rs1 rs2 w1 d1 w2 d2 f fresh rep ck es z n fuel :
  dest_ok d -> contents d = [] -> 0 <= ln -> (recycle = true -> ln < 2 ^ 32) ->
  Forall (fun r : bytes => zlen r < 2 ^ 63) (rs1 ++ rs2) ->
  add_records rs1 (new_Writer d ln recycle manual) = Ret true w1 -> dest_ w1 = Some d1 ->
  add_records rs2 w1 = Ret true w2 -> dest_ w2 = Some d2 -> zlen (contents d2) < 2 ^ 63 ->
  source_ok f -> contents d2 = rest f ++ grown es ++ z -> (length (contents d1) <= length (rest f ++ grown es))%nat ->
  zlen fresh = kBlockSize -> (length rs1 <= n)%nat -> (length (contents d2) + 6 <= fuel)%nat ->
  exists m r', run fuel (es ++ replicate n Call) (new_FragmentBufferedReader fresh f rep ck ln) = Ret (rs1 ++ take m rs2) r' /\
    reports (f_base r') = [].
Proof.
  intros Hd Hc Hln Hwide Hrs Hadd1 Hd1 Hadd2 Hd2 Hlen Hf Hfile Hk Hfresh Hn Hfuel. apply Forall_app in Hrs as [Hrs1 Hrs2].
  destruct (added _ _ _ _ _ _ _ _ (new_writer_ok recycle ln manual d Hd) Hln Hrs1 Hadd1 Hd1) as (out1 & o & Hout1 & Ec1 & Hw1).
  destruct (added _ _ _ _ _ _ _ _ Hw1 Hln Hrs2 Hadd2 Hd2) as (out2 & o2 & Hout2 & Ec2 & _).
  rewrite Hc in Ec1. cbn in Ec1. rewrite Ec1 in *. set (L := contents d2) in *.
  assert (zlen L = zlen out1 + zlen out2) as Hz by (rewrite Ec2; unfold zlen; rewrite length_app; lia).
  assert (sub L 0 (zlen out1) = out1 /\ sub L (0 + zlen out1) (zlen out2) = out2) as [Hs1 Hs2].
  { rewrite Ec2. unfold sub, zlen. change (Z.to_nat 0) with O.
    by rewrite Z.add_0_l, !Nat2Z.id, drop_0, drop_app_length, take_app_length, (take_ge out2) by lia. }
  destruct (records_laid L recycle ln o rs2 out2 o2 Hout2 (0 + zlen out1) []) as (ends2 & Hl2 & Hr2 & _);
    [lia|unfold zlen; lia|done|constructor; lia|].
  destruct (records_laid L recycle ln 0 rs1 out1 o Hout1 0 (ends2 ++ [])) as (ends1 & Hl & Hr1 & Hall);
    [unfold zlen in *; lia|lia|done|done|]. rewrite app_nil_r in Hl.
  assert (length ends1 = length rs1) as Hlen1 by (by rewrite <- Hr1, length_fmap).
  assert (following L recycle ln (rest f) (ends1 ++ ends2) (new_FragmentBufferedReader fresh f rep ck ln)) as Hfol.
  { apply new_following; [done| |done| |done].
    - rewrite Hfile in Hlen. unfold zlen in *. rewrite length_app in Hlen. lia.
    - intros Hre. rewrite u32_small; [done|]. specialize (Hwide Hre). lia. }
  destruct (run_follows L recycle ln Hlen fuel Hfuel es _ _ _ _ Hfile Hfol) as (m & r1 & Hrun1 & Hq1 & Hfol1).
  rewrite drop_app in Hfol1.
  destruct (calls_deliver L recycle ln fuel Hfuel n _ z _ _ r1 ltac:(by rewrite <- app_assoc) Hfol1) as (k & r2 & Hrun2 & Hq2).
  { apply Forall_drop. eapply Forall_impl; [exact Hall|]. intros x Hx. cbn in *. unfold zlen in *. lia. }
  { rewrite length_drop. lia. }
  destruct (resumed ends1 ends2 m k) as [j Hj]. exists j, r2. split.
  - erewrite run_app by eassumption. by rewrite <- fmap_app, Hj, fmap_app, fmap_take, Hr1, Hr2.
  - destruct Hq2 as [-> _]. by destruct Hq1 as [-> _].
Qed.

(** ** A damaged length *)

(** The next block replaces the one that the header points into. *)
Lemma fill_next C pos B (r : FR) need fuel ds :
  tailing C pos B r -> lim r = B + kBlockSize -> lim r < pos + need -> need <= kBlockSize -> lim r + need <= zlen C ->
  exists r', fill (S (S fuel)) need ds r = Ret (true, ds) r' /\ calm r r' /\ zlen (backing_store_ r') = kBlockSize.
Proof.
  intros Ht HB Hs HK HC. destruct (fetch_block C pos B r ds Ht HB) as (r1 & Hm & Ht1 & Hc & Hl).
  exists r1. split; [|split; [done|apply (tl_length _ _ _ _ Ht1)]].
  rewrite (fill_short C pos B r _ need ds r1 Ht Hs Hm). pose proof (tail_size _ _ _ _ Ht1) as Hz. rewrite Hz.
  destruct (Z.eqb_spec (lim r - pos) (lim r1 - lim r)); [lia|].
  cbn [fill]. rewrite bind_gets. unfold base. rewrite Hz. by destruct (Z.leb_spec need (lim r1 - lim r)); [|lia].
Qed.

(** A record header whose length reaches beyond its block makes the reader
    of a growing log read memory that is not its own.  The bytes of the next
    block are read into [backing_store_], over the header, until the buffer is
    as long as the record should be; the checksum is then computed from the old
    place of the header on, past the end of the store.  [Reader] refuses such a
    header; here nothing compares the length with the block. *)
Theorem tail_reader_overreads C pos B (r : FR) fuel :
  tailing C pos B r -> lim r = B + kBlockSize -> pos + kHeaderSize <= lim r ->
  recyclable (header_type (sub C pos kHeaderSize)) = false -> checksum_ (f_base r) = true ->
  lim r < pos + kHeaderSize + header_length (sub C pos kHeaderSize) ->
  kHeaderSize + header_length (sub C pos kHeaderSize) <= kBlockSize ->
  lim r + kHeaderSize + header_length (sub C pos kHeaderSize) <= zlen C ->
  frag_ReadRecord (S (S fuel)) r = UB.
Proof.
  intros Ht HB Hh Hty Hck Hs HK HC. set (len := header_length _) in *. pose proof (tl_range _ _ _ _ Ht) as Hr.
  unfold frag_ReadRecord. rewrite bind_gets. remember (S fuel) as fuel1 eqn:Ef. cbn [tail_loop]. apply bind_UB.
  unfold TryReadFragment, kHeaderSize in *. destruct (tl_pos _ _ _ _ Ht) as [HBp Hba]; [lia|].
  rewrite (bind_Ret _ _ r (true, 0) r); cycle 1.
  { cbn [fill]. rewrite bind_gets. unfold base. rewrite (tail_size _ _ _ _ Ht).
    by destruct (Z.leb_spec (4 + 2 + 1) (lim r - pos)); [|lia]. }
  cbn [negb]. rewrite bind_gets, Hba. erewrite bind_Ret by (apply (load_header C); [done|lia..]). rewrite Hty. fold len.
  destruct (fill_next C pos B r (4 + 2 + 1 + len) fuel 0 Ht HB) as (r1 & Hfill & ((_ & _ & Hck1 & _) & _) & Hl1); [lia..|].
  unfold fragment_body. rewrite Ef. erewrite bind_Ret by exact Hfill. cbn [negb].
  destruct (Z.eqb_spec len 0); [lia|]. rewrite andb_false_r, bind_gets. unfold base. rewrite Hck1, Hck. apply bind_UB.
  erewrite (bind_Ret (load_store _ 4)); cycle 1.
  { unfold load_store. rewrite bind_gets.
    replace (in_block _ _ _) with true by (symmetry; apply in_block_spec; unfold zlen in *; lia). done. }
  apply bind_UB. unfold load_store. rewrite bind_gets.
  destruct (in_block _ _ _) eqn:E; [|done]. apply in_block_spec in E. unfold zlen in *. lia.
Qed.
End Run.

(** ** Witnesses *)

#[local] Existing Instances memory_dest memory_dest_spec memory_source memory_source_spec.

(** A file in memory grows at its end. *)
#[local] Instance memory_grows : GrowingFile bytes.
Proof.
  refine {| grow := fun c f => f ++ c |}; done.
Defined.

Definition zeroes (n : Z) : bytes := replicate (Z.to_nat n) Byte.x00.

Lemma zlen_zeroes n : 0 <= n -> zlen (zeroes n) = n.
Proof. intros Hn. unfold zlen, zeroes. rewrite length_replicate. lia. Qed.

(** Two records; the first call finds nothing, the second half of a header, the
    third one record and part of the next. *)
Lemma tail_delivers_witness : exists w1 d1 w2 d2 m r',
  add_records [hello] (new_Writer [] 7 false false) = Ret true w1 /\ dest_ w1 = Some d1 /\
  add_records [hello; []] w1 = Ret true w2 /\ dest_ w2 = Some d2 /\
  run 60 ([Call; Grow (take 3 d2); Call; Grow (take 11 (drop 3 d2))] ++ replicate 1 Call)
    (new_FragmentBufferedReader (zeroes kBlockSize) [] true true 7) = Ret ([hello] ++ take m [hello; []]) r' /\
  reports (f_base r') = [].
Proof.
  destruct (add_records [hello] (new_Writer [] 7 false false)) as [b w1| | |] eqn:E1; [|by vm_compute in E1..].
  assert (b = true /\ dest_ w1 = Some (default [] (dest_ w1)) /\ length (default [] (dest_ w1)) = 12%nat) as (-> & Ed1 & El1)
    by (vm_compute in E1; by injection E1 as <- <-).
  destruct (add_records [hello; []] w1) as [b w2| | |] eqn:E2;
    [|by vm_compute in E1; injection E1 as <-; vm_compute in E2..].
  assert (b = true /\ dest_ w2 = Some (default [] (dest_ w2)) /\ length (default [] (dest_ w2)) = 31%nat) as (-> & Ed2 & El2)
    by (vm_compute in E1; injection E1 as <-; vm_compute in E2; by injection E2 as <- <-).
  set (d1 := default [] (dest_ w1)) in *. set (d2 := default [] (dest_ w2)) in *.
  destruct (tail_delivers (HW := memory_dest_spec) (HF := memory_source_spec) (HG := memory_grows) [] 7 false false
    [hello] [hello; []] w1 d1 w2 d2 [] (zeroes kBlockSize) true true
    [Call; Grow (take 3 d2); Call; Grow (take 11 (drop 3 d2))] (drop 14 d2) 1 60 I eq_refl ltac:(lia) ltac:(lia)
    ltac:(by repeat constructor) E1 Ed1 E2 Ed2) as (m & r' & H1 & H2).
  - unfold zlen. cbn [contents memory_dest_spec]. rewrite El2. lia.
  - exact I.
  - cbn [contents memory_dest_spec rest memory_source_spec grown concat fmap list_fmap app].
    change (drop 14 d2) with (drop (3 + 11) d2).
    by rewrite app_nil_r, <- app_assoc, <- drop_drop, take_drop, take_drop.
  - cbn [contents memory_dest_spec rest memory_source_spec grown concat fmap list_fmap app].
    rewrite El1, !length_app, !length_take, length_drop, El2. cbn. lia.
  - by apply zlen_zeroes.
  - cbn [length]. lia.
  - cbn [contents memory_dest_spec]. rewrite El2. lia.
  - exists w1, d1, w2, d2, m, r'. exact (conj eq_refl (conj Ed1 (conj E2 (conj Ed2 (conj H1 H2))))).
Defined.

(** The last bytes of a block: a header that says 100 bytes follow, and nine of
    them; then the next block. *)
Definition cut_header : bytes := byte_of <$> [0; 0; 0; 0; 100; 0; 1; 0; 0; 0; 0; 0; 0; 0; 0; 0].
Definition next_block : bytes := replicate 120 Byte.x00.
Definition damaged (pre : bytes) : FragmentBufferedReader bytes :=
  MkFragmentBufferedReader
    (set_end_of_buffer kBlockSize (set_buffer cut_header (new_Reader next_block true true 7)))
    (pre ++ cut_header) (kBlockSize - 16) [] false.

Lemma damaged_tailing pre : zlen pre = kBlockSize - 16 ->
  tailing (pre ++ cut_header ++ next_block) (kBlockSize - 16) 0 (damaged pre) /\
  sub (pre ++ cut_header ++ next_block) (kBlockSize - 16) kHeaderSize = take 7 cut_header.
Proof.
  intros Hpre. assert (length pre = Z.to_nat (kBlockSize - 16)) as Hn by (unfold zlen, kBlockSize in *; lia).
  assert (length (cut_header ++ next_block) = 136%nat) as H136 by done.
  assert (length (pre ++ cut_header) = Z.to_nat kBlockSize) as Hb 
    by (rewrite length_app, Hn; change (length cut_header) with 16%nat; unfold kBlockSize; lia).
  assert (lim (damaged pre) = kBlockSize) as Hlim by done.
  split; [|unfold sub; by rewrite drop_app_length'].
  assert (zlen (pre ++ cut_header ++ next_block) = kBlockSize + 120) as HC
    by (unfold zlen; rewrite length_app, H136; unfold kBlockSize in *; lia).
  split; rewrite ?Hlim; unfold damaged; fr; rewrite ?HC.
  - unfold kBlockSize. lia.
  - exact I.
  - cbn [rest memory_source_spec new_Reader r_file]. by rewrite app_assoc, drop_app_length'.
  - unfold kBlockSize. lia.
  - unfold kBlockSize. lia.
  - unfold sub. by rewrite drop_app_length'.
  - reflexivity.
  - lia.
  - reflexivity.
  - unfold zlen. rewrite Hb. unfold kBlockSize. lia.
  - intros _. rewrite Z.sub_0_r. unfold sub. change (Z.to_nat 0) with O.
    by rewrite !drop_0, (app_assoc pre), (take_app_length' (pre ++ cut_header)), take_ge by (rewrite Hb; done).
Qed.

Lemma tail_reader_overreads_witness : frag_ReadRecord 2 (damaged (zeroes (kBlockSize - 16))) = UB.
Proof.
  pose proof (zlen_zeroes (kBlockSize - 16) ltac:(unfold kBlockSize; lia)) as Hz.
  destruct (damaged_tailing (zeroes (kBlockSize - 16)) Hz) as [Ht Hsub].
  apply (tail_reader_overreads (HF := memory_source_spec) _ _ _ _ 0 Ht); rewrite ?Hsub.
  - reflexivity.
  - unfold kBlockSize, kHeaderSize. change (lim _) with 32768. lia.
  - reflexivity.
  - reflexivity.
  - reflexivity.
  - change (header_length (take 7 cut_header)) with 100. unfold kBlockSize, kHeaderSize. lia.
  - change (header_length (take 7 cut_header)) with 100. change (lim _) with kBlockSize. unfold zlen in *.
    rewrite length_app. change (length (cut_header ++ next_block)) with 136%nat. unfold kBlockSize, kHeaderSize in *. lia.
Defined.
